(* ===== verification/_CoqProject ===== *)
-Q . S2P
Prelude.v
JsString.v
CanonicalJson.v
Domain.v
Schemas.v
CanonicalJsonFacts.v
Events.v
EventLog.v
PlanEvidence.v
TaskState.v
TaskStateFacts.v
TaskStateSpec.v
TaskStateHistory.v
TaskStateProperties.v
TaskGraphSchema.v
TaskGraphTopology.v
TaskGraph.v
TaskGraphFacts.v
TaskExecution.v
TaskExecutionFacts.v
TaskExecutionProperties.v
PosixPath.v
Permissions.v
PermissionsFacts.v
Utf8.v
Patch.v
PatchFacts.v
PatchPlan.v
SourceSnapshot.v
SourceSnapshotFacts.v
Completion.v
CompletionFacts.v
Verification.v
RunLocalDiff.v
CompletionRuntime.v
CompletionRuntimeFacts.v
CompletionProperties.v
CollaborativeCompletion.v
Scheduler.v
SchedulerFacts.v
JsonParse.v
JsonParseFacts.v
RunEvents.v
RunLog.v
EventPublisher.v
EventPublisherFacts.v
EventPublisherProperties.v
ToolErrors.v
AgentLoop.v
AgentLoopFacts.v
AgentLoopProtocol.v
AgentLoopAccepted.v
AgentLoopProperties.v
RunTerminator.v
RunTerminatorProperties.v
McpResult.v
ContextSemantics.v
PendingEffects.v
RunSemantics.v
RunSemanticsFacts.v
ResumeEvidence.v
PendingEffectsFacts.v
SessionLedger.v
BackendProjection.v
ResumePlanner.v
ResumeProperties.v
CheckpointStore.v
SessionLock.v
SessionStore.v
SessionStoreFacts.v
SessionStoreProperties.v
Writer.v
SchedulerProperties.v
RunCommandTool.v
RunCommandToolFacts.v
RunCommandToolProperties.v
ActionIdentity.v
ActionIdentityFacts.v
PermissionEngine.v
ContainerLifecycle.v
