(* ===== verification/Prelude.v ===== *)
(** * BornAgent: a verification library of the agent's control core

    BornAgent (TypeScript, [src/src]) runs a coding agent under the control of
    a user: the model proposes, and what it does to the workspace passes
    permissions, approvals, a change journal, verification and a completion
    policy, all recorded in an append-only session log that is projected back
    into state.  The library models that control core as executable functions
    and proves what it promises.  Paths below are relative to [src/src].

    ** The parts and how they interact

    A run is driven by the agent loop ([agent/agent-loop.ts]), which asks the
    model for turns and executes its tool calls.  Every event goes through the
    event publisher ([events/event-publisher.ts]), which validates it against
    the events before it.  Tools plan and apply patches ([changes/]), run
    commands after a permission decision ([permissions/]), and verify
    ([verification/]); the completion runtime ([completion/]) decides a
    [finish_task].  The session writer ([sessions/v2-session-writer.ts]) appends
    stored events, each checked by all projectors: the log invariants
    ([events/]), goals and plans ([coordination/task-state-machine.ts]), task
    graphs ([task-graph/]) and graph execution ([scheduling/]).  The scheduler
    ([scheduling/deterministic-task-scheduler.ts]) appends to the same log.

    The log is the file of a session: one process at a time has its lock
    ([sessions/session-lock.ts]), the store appends and syncs one line for each
    event and repairs a tail that a crash has cut
    ([sessions/durable-session-store.ts], [tail-recovery.ts]).  A run that ended
    can be resumed: the effects that its log leaves open, the state of its
    backend, a checkpoint on disk ([checkpoints/]) and the fingerprint of the
    workspace decide whether and how ([resume/]); the log checks of the new run
    hold it to that plan ([events/phase9-run-event-semantics.ts],
    [context/context-event-semantics.ts]).  Containers that such a run left behind are
    stopped, inspected and removed first ([execution/docker/]).

    ** The files

    - [Prelude]: results, insertion-ordered maps, loops that throw, record
      update, the tactics and lemmas that the components share.
    - Text: [JsString] (UTF-16 strings), [Utf8] (TextDecoder and Buffer),
      [PosixPath] (Node's lexical paths), [JsonParse] and [JsonParseFacts]
      (JSON.parse), [CanonicalJson] and [CanonicalJsonFacts]
      ([completion/canonical-json.ts]: the text that digests are taken of).
    - Log and task state: [Domain], [Schemas] (contents and their schemas),
      [Events], [EventLog] (decoded events and the invariants every reader
      checks), [PlanEvidence], [TaskState] (the projector of goals and plans),
      [TaskStateFacts], [TaskStateSpec] (the abstract lifecycle and the
      refinement), [TaskStateHistory], [TaskStateProperties].
    - Task graphs: [TaskGraphSchema], [TaskGraphTopology], [TaskGraph] (the
      projector), [TaskGraphFacts]; execution: [TaskExecution] (projector, budget
      ledger, ready queue), [TaskExecutionFacts], [TaskExecutionProperties];
      [Scheduler], [SchedulerFacts], [SchedulerProperties].
    - Effects on the workspace: [Permissions] (actions and policies),
      [PermissionsFacts], [ActionIdentity] (the normal form and the digests of an
      action), [ActionIdentityFacts], [PermissionEngine] (with its properties);
      [Patch], [PatchFacts] (the unified diff parser), [PatchPlan] (in-memory
      application); [SourceSnapshot], [SourceSnapshotFacts], [Verification],
      [RunLocalDiff].
    - Completion: [Completion], [CompletionFacts] (the policy),
      [CompletionRuntime], [CompletionRuntimeFacts], [CompletionProperties]
      (the runtime of a run), [CollaborativeCompletion].
    - A run: [RunEvents] (typed events), [EventPublisher],
      [EventPublisherFacts], [EventPublisherProperties]; [ToolErrors] (redaction,
      tool results, text for the terminal), [McpResult] (results of MCP tools),
      [AgentLoop] (budget tracker, repetition detector, model turns, the loop),
      [AgentLoopFacts] (its program logic), [AgentLoopProtocol] (the contract of
      the tools and the phases of a step), [AgentLoopAccepted],
      [AgentLoopProperties]; [RunTerminator] (the terminal publication and the
      exit code), [RunTerminatorProperties].
    - Resuming: [RunLog] (the run events of a log, and the induction over state
      machines that keep a state for each run), [ContextSemantics] (the protocol
      of context events), [PendingEffects] (open effects and recovered
      observations), [RunSemantics] and [RunSemanticsFacts]
      (the log check of adopted calls), [ResumeEvidence] (fingerprints and patch
      reconciliation), [BackendProjection], [ResumePlanner], with
      [PendingEffectsFacts], [SessionLedger] and [ResumeProperties].
    - Storage: [CheckpointStore]; [SessionLock];
      [SessionStore] (the file of a session), [SessionStoreFacts] (prefixes of
      accepted texts, and its program logic), [SessionStoreProperties]; [Writer]
      (the session writer over such a file, with its properties).
    - Sandboxes: [ContainerLifecycle] ([execution/docker/]: the facts about a
      container, the plan of a recovery and its execution, with its program logic
      and properties).
    - The command tool: [RunCommandTool] ([tools/run-command-tool.ts], the
      approval gate of commands and the registry's execution of a call),
      [RunCommandToolFacts] (its program logic, and what the publisher has on
      record about a call), [RunCommandToolProperties].

    Each [Properties] file, and each file without one, ends with the concrete
    runs its theorems are instantiated at.

    ** How the code is modelled

    A function that can throw returns a [result]; the error names the class
    and message of the exception.  Objects are records, updated by
    [r <| f := v |>]; a Map that is iterated is a [jsmap], which keeps
    insertion order, every other Map or Set is a [gmap] or [gset].  Mutable
    objects that several fields share live once in a list and the fields hold
    indices.  A JavaScript string is the list of its UTF-16 units; identifiers
    that the schemas restrict to ASCII are Rocq strings.  An operation that
    awaits is one step, with the answers of disk, clock, model, Git and hooks
    as arguments; where callers interleave, the runs are sequences of steps
    ([publisher_step], the runtime's and the writer's steps) and theorems are
    about every reachable state.  On the files of a session and of its lock each
    call to the file system is a step of its own; it can fail after some of its
    bytes have landed, a process can end at any of them ([session_step]), and the
    steps of several processes interleave ([lockAction]).  SHA-256, ICU's [localeCompare] and
    normalisation, zod's UUID test and the text of a JavaScript number are
    parameters; a theorem that needs SHA-256 without collisions says so.

    ** What the theorems show

    - Authority: an approval activates exactly the content that was shown; an
      agent's mutation of a plan carries an authority on record; executing
      graphs, commands and patches were approved or permitted.
    - Permissions: a digest names one action, in its normal form, to the engine
      and to every policy behind it; what the code builds is judged and not
      refused as forged; the cases in which a command is allowed are listed
      exactly; the context of a trusted fixture admits one action.
    - Evidence: an accepted finish rests on a verification that passed on the
      final sources, and a run that completes as verified on one that began after
      the last patch before its evaluation; a patch after the evaluation is a
      finding.
    - Projections: the log invariants are the declarative ones, what a writer has
      appended is on disk and accepted by every projector, the projector
      refines the lifecycle, graphs have no dependency cycle, the execution
      budget is conserved, one attempt is active at a time.
    - A run: with tools that keep their contract the publisher accepts what the
      loop publishes and its terminal; an exit code other than 1 is that of the
      last event of the log; a terminal that settled is final; and three ends of
      a run that the publisher never takes.
    - Commands: whatever preparer, policy, user, hooks, executor and log answer,
      a call of [run_command] has a result the publisher takes and leaves no
      command unsettled, but for three codes of unknown causes, of which one is
      shown to end the run; no command runs before its request is durable; the
      observation of a command is the one a resumed run recovers.
    - Containers: the end of a command is published only after a whole life of its
      container; a recovery touches its own containers only, records as cleaned
      those whose absence was answered, and keeps the log readable if the answers
      can be recorded on one line; and the repeated end of a container, recorded
      by a recovery after an interrupted one, that makes a log unreadable.
    - Progress: the loop ends within its steps, the scheduler never waits while a node can run, and every
      parser, search and loop returns.
    - Text: canonical JSON with integers is a normal form and parses back, a
      parsed patch is its text, a reversed patch with proper output restores the
      decoded preimage, no control sequence
      reaches the terminal, a mapped MCP result is recovered as it was.
    - Durability: acknowledged events survive any sequence of crashes, in order,
      and what a crash leaves is always recovered and never taken for corruption;
      a repair keeps a backup; the reader reads what a recovery leaves; a
      checkpoint that was written is read back, and overwrites nothing.
    - Resuming: a plan that is ready leaves no effect open, loses no call and
      repeats none that completed; an exact plan continues from an identical
      state; the log check enforces it on the new run; a step starts only from a
      request on record.
    - Locking: one process has the lock of a session, unless two recoveries race,
      and that race exists.

    ** Fuel

    [jsonParse] starts with fuel [2 * length + 1] and the diff parser with the
    number of lines, and both are shown never to run out; [graphDepth] has one
    frame more than there are nodes, which decides cycles; [lineage] stands for
    the code's own unbounded recursion, and its overflow is a theorem about the
    code.  The agent loop has [maxSteps + 1] iterations, which always
    reach an answer.

    ** Not modelled

    Patch application on disk, artifacts and worktrees, the executors of processes and containers,
    providers and their wire formats, the transport of MCP, hooks, plugins,
    memory, the daemon, delegation, command line and terminal rendering: they are
    I/O around the core and appear as the answers it reads.  Formats of single
    fields (lengths, uuids, dates) are left to the schemas except where a theorem
    needs them.  The bytes of a synced file are durable, and a rename is atomic;
    directories, permissions and the identity of open files are answers of the
    environment.  The readers that answer the resume planner (files, Git) and the
    command that puts its parts together ([commands/sessions.ts]) are not
    modelled, nor are the projectors of worktrees and delegations.  The command tool
    reads a decision of the engine as an answer.  Of the registry the check of schemas and the definitions for the
    model are left out; the generated validator of arguments is a parameter.  The
    stream of an executor is finite. *)

From Stdlib Require Export ZArith Lia.
From stdpp Require Export base option list gmap sets strings numbers.
From stdpp Require Import sorting.
Export list_basics.list.

#[global] Set Default Goal Selector "!".

(** ** Errors as values

    A TypeScript function that can [throw] returns a [result]; the error type
    carries the class of the exception and its code. *)

Inductive result (E A : Type) : Type :=
| Ok (value : A)
| Err (error : E).
Arguments Ok {E A} value.
Arguments Err {E A} error.

#[export] Instance result_ret {E} : MRet (result E) := fun A a => Ok a.
#[export] Instance result_bind {E} : MBind (result E) :=
  fun A B f r => match r with Ok a => f a | Err e => Err e end.
#[export] Instance result_fmap {E} : FMap (result E) :=
  fun A B f r => match r with Ok a => Ok (f a) | Err e => Err e end.

Definition is_ok {E A} (r : result E A) : bool :=
  match r with Ok _ => true | Err _ => false end.

(** [throw_when b e] is the statement [if (b) throw e]. *)
Definition throw_when {E} (b : bool) (e : E) : result E () :=
  if b then Err e else Ok ().

(** [foldM f l a] is a [for] loop over [l] whose body may throw. *)
Fixpoint foldM {E A B} (f : A -> B -> result E A) (l : list B) (a : A) : result E A :=
  match l with
  | [] => Ok a
  | b :: l => match f a b with Ok a' => foldM f l a' | Err e => Err e end
  end.

(** ** Insertion-ordered maps

    A JavaScript [Map] whose values are iterated: [set] on a present key
    keeps its position, [set] on a new key appends. *)

Definition jsmap (K V : Type) := list (K * V).

Section jsmap.
Context {K : Type} `{EqDecision K} {V : Type}.

Fixpoint jm_get (k : K) (m : jsmap K V) : option V :=
  match m with
  | [] => None
  | (k', v) :: m => if decide (k = k') then Some v else jm_get k m
  end.

Fixpoint jm_set (k : K) (v : V) (m : jsmap K V) : jsmap K V :=
  match m with
  | [] => [(k, v)]
  | (k', v') :: m => if decide (k = k') then (k', v) :: m else (k', v') :: jm_set k v m
  end.

Definition jm_has (k : K) (m : jsmap K V) : bool :=
  match jm_get k m with Some _ => true | None => false end.

(** [map.values()] *)
Definition jm_values (m : jsmap K V) : list V := snd <$> m.

Lemma jm_get_set_eq k v m : jm_get k (jm_set k v m) = Some v.
Proof. induction m as [|[k' v'] m IH]; simpl; repeat case_decide; simpl; repeat case_decide; congruence || done. Qed.

Lemma jm_get_set_ne k k' v m : k <> k' -> jm_get k' (jm_set k v m) = jm_get k' m.
Proof.
  intros Hne. induction m as [|[k1 v1] m IH]; simpl; repeat case_decide; simpl;
    repeat case_decide; simplify_eq; try done.
Qed.

Lemma jm_get_set k k' v m :
  jm_get k' (jm_set k v m) = if decide (k = k') then Some v else jm_get k' m.
Proof. case_decide as H; [subst; apply jm_get_set_eq | by apply jm_get_set_ne]. Qed.

Lemma jm_get_elem k v m : jm_get k m = Some v -> (k, v) ∈ m.
Proof.
  induction m as [|[k' v'] m IH]; simpl; [done|]. case_decide; intros; simplify_eq; set_solver.
Qed.

Lemma jm_get_values k v m : jm_get k m = Some v -> v ∈ jm_values m.
Proof. intros H%jm_get_elem. apply list_elem_of_fmap. by exists (k, v). Qed.

Lemma jm_has_true k m : jm_has k m = true <-> exists v, jm_get k m = Some v.
Proof. unfold jm_has. destruct (jm_get k m); naive_solver. Qed.

Lemma jm_has_false k m : jm_has k m = false <-> jm_get k m = None.
Proof. unfold jm_has. destruct (jm_get k m); naive_solver. Qed.
End jsmap.

(** *** Objects of a map assigned in place *)

(** [const v = map.get(k); if (v !== undefined) v.field = ...]: an object of the
    map is assigned to in place. *)
Definition jm_alter {K} `{EqDecision K} {V} (f : V -> V) (k : K) (m : jsmap K V) : jsmap K V :=
  match jm_get k m with Some v => jm_set k (f v) m | None => m end.

Section Alter.
Context {K : Type} `{EqDecision K} {V : Type}.
Implicit Types (m : jsmap K V) (f : V -> V).

Lemma jm_get_alter f k k' m :
  jm_get k' (jm_alter f k m) = if decide (k = k') then f <$> jm_get k' m else jm_get k' m.
Proof.
  unfold jm_alter. destruct (jm_get k m) eqn:E.
  - rewrite jm_get_set. case_decide; [by subst; rewrite E|done].
  - case_decide; [by subst; rewrite E|done].
Qed.

Lemma jm_alter_Some f k k' m v :
  jm_get k' (jm_alter f k m) = Some v ->
  (k = k' /\ exists v0, jm_get k' m = Some v0 /\ v = f v0) \/ (k <> k' /\ jm_get k' m = Some v).
Proof.
  rewrite jm_get_alter. case_decide; [|by right].
  intros (v0 & ? & ->)%fmap_Some. left. eauto.
Qed.

Lemma jm_set_Some k k' v w m :
  jm_get k' (jm_set k v m) = Some w -> (k = k' /\ w = v) \/ (k <> k' /\ jm_get k' m = Some w).
Proof. rewrite jm_get_set. case_decide; naive_solver. Qed.

Lemma jm_set_present k v v0 m : jm_get k m = Some v0 -> fst <$> jm_set k v m = fst <$> m.
Proof.
  induction m as [|[k' v'] m IH]; cbn [jm_set jm_get fmap list_fmap fst]; [done|].
  case_decide; cbn [fmap list_fmap fst]; [done|]. intros Hk. f_equal. by apply IH.
Qed.

Lemma jm_get_elem_of k m : is_Some (jm_get k m) <-> k ∈ fst <$> m.
Proof.
  induction m as [|[k' v'] m IH]; cbn [jm_get fmap list_fmap fst]; [split; [by intros []|set_solver]|].
  case_decide; [set_solver|]. rewrite IH. set_solver.
Qed.

Lemma jm_alter_keys f k m : fst <$> jm_alter f k m = fst <$> m.
Proof. unfold jm_alter. destruct (jm_get k m) eqn:E; [by eapply jm_set_present|done]. Qed.

Lemma jm_set_new_keys k v m : jm_get k m = None -> jm_set k v m = m ++ [(k, v)].
Proof.
  induction m as [|[k' v'] m IH]; cbn [jm_set jm_get app]; [done|]. case_decide; [done|].
  intros Hk. by rewrite IH.
Qed.

Lemma jm_set_NoDup k v m : NoDup (fst <$> m) -> NoDup (fst <$> jm_set k v m).
Proof.
  intros Hm. destruct (jm_get k m) eqn:E; [by erewrite jm_set_present|].
  rewrite jm_set_new_keys by done. rewrite fmap_app. apply list.NoDup_app. split_and!; [done| |apply NoDup_singleton].
  intros x Hx ->%list_elem_of_singleton. apply jm_get_elem_of in Hx as [? Hx]. cbn in Hx. congruence.
Qed.

Lemma jm_get_NoDup k v m : NoDup (fst <$> m) -> (k, v) ∈ m -> jm_get k m = Some v.
Proof.
  induction m as [|[k' v'] m IH]; cbn [jm_get fmap list_fmap fst]; [set_solver|].
  intros [Hk Hm]%list.NoDup_cons [?|Hin]%elem_of_cons; simplify_eq; [by case_decide|].
  case_decide; [|by apply IH]. subst. destruct Hk. apply list_elem_of_fmap. by exists (k', v).
Qed.

Lemma jm_values_get v m : NoDup (fst <$> m) -> v ∈ jm_values m -> exists k, jm_get k m = Some v.
Proof.
  intros Hm ([k w] & -> & Hin)%list_elem_of_fmap. exists k. by apply jm_get_NoDup.
Qed.

Lemma jm_set_absent k v m : k ∉ fst <$> m -> jm_set k v m = m ++ [(k, v)].
Proof.
  rewrite <-jm_get_elem_of. intros Hk. apply jm_set_new_keys. destruct (jm_get k m); [|done]. destruct Hk. by eexists.
Qed.
End Alter.

Lemma size_list_to_set_le (l : list string) :
  (size (list_to_set (C:=gset string) l) <= length l)%nat.
Proof.
  induction l as [|x l IH]; [done|]. cbn [list_to_set foldr fmap length].
  rewrite size_union_alt, size_singleton.
  assert (size (list_to_set (C:=gset string) l ∖ {[x]}) <= size (list_to_set (C:=gset string) l))%nat
    by (apply subseteq_size; set_solver). lia.
Qed.

(** ** Sorting

    [Array.prototype.sort] and [toSorted]: a stable sort by a comparison of which
    [R a b] says that it is not positive. *)

Section Sort.
Context {A : Type} (R : relation A) `{Hdec : !forall x y, Decision (R x y)}.

(** [x] comes before the elements it is equal to. *)
Fixpoint sort_insert (x : A) (l : list A) : list A :=
  match l with
  | [] => [x]
  | y :: k => if decide (R x y) then x :: y :: k else y :: sort_insert x k
  end.
Definition js_sort (l : list A) : list A := foldr sort_insert [] l.

Lemma sort_insert_Permutation x l : sort_insert x l ≡ₚ x :: l.
Proof. induction l as [|y l IH]; simpl; [done|]. case_decide; [done|]. rewrite IH. constructor. Qed.

Lemma js_sort_Permutation l : js_sort l ≡ₚ l.
Proof. induction l as [|x l IH]; simpl; [done|]. by rewrite sort_insert_Permutation, IH. Qed.

Lemma Sorted_js_sort `{!Total R} l : Sorted R (js_sort l).
Proof.
  induction l as [|x l IH]; simpl; [constructor|]. revert IH. generalize (js_sort l) as k. intros k.
  induction 1 as [|y k Hs IH Hy]; simpl; [by repeat constructor|]. case_decide as Hxy; [by repeat constructor|].
  assert (R y x) by (destruct (total R x y); done).
  constructor; [done|]. destruct Hy as [|z k Hyz]; simpl; [by constructor|]. case_decide; by constructor.
Qed.

Lemma StronglySorted_js_sort `{!Transitive R} `{!Total R} l : StronglySorted R (js_sort l).
Proof. apply Sorted_StronglySorted; [apply _|apply Sorted_js_sort]. Qed.

(** A sorted list stays as it is. *)
Lemma js_sort_sorted l : StronglySorted R l -> js_sort l = l.
Proof.
  induction 1 as [|x l Hs IH Hx]; simpl; [done|]. rewrite IH. destruct Hx; simpl; [done|]. by rewrite decide_True.
Qed.

Lemma elem_js_sort_filter f l x : x ∈ js_sort (List.filter f l) <-> x ∈ l /\ f x = true.
Proof. by rewrite js_sort_Permutation, list_elem_of_In, filter_In, <-list_elem_of_In. Qed.
End Sort.

(** Sorting related lists with comparisons that agree on related elements
    gives related lists. *)
Lemma js_sort_rel {A B} (R : relation A) `{!forall x y, Decision (R x y)}
    (S : relation B) `{!forall x y, Decision (S x y)} (P : A -> B -> Prop) l k :
  (forall a b a' b', P a b -> P a' b' -> R a a' <-> S b b') ->
  Forall2 P l k -> Forall2 P (js_sort R l) (js_sort S k).
Proof.
  intros HP. induction 1 as [|a b l k Hab Hlk IH]; simpl; [done|].
  induction IH as [|a' b' l' k' Hab' Hlk' IH']; simpl; [by repeat constructor|].
  pose proof (HP _ _ _ _ Hab Hab'). repeat case_decide; try tauto; by repeat constructor.
Qed.

(** ** Booleans as the propositions they decide *)

Lemma bool_decide_eqb (a b : string) : String.eqb a b = bool_decide (a = b).
Proof. case_bool_decide; [by apply String.eqb_eq | by apply String.eqb_neq]. Qed.

Lemma existsb_false {A} (f : A -> bool) l : existsb f l = false <-> forall x, x ∈ l -> f x = false.
Proof.
  induction l as [|y l IH]; simpl; [set_solver|]. rewrite orb_false_iff, IH. set_solver.
Qed.

(** TypeScript's strict comparisons on types with decidable equality. *)
Declare Scope js_scope.
Notation "a === b" := (bool_decide (a = b)) (at level 70, no associativity) : js_scope.
Notation "a !== b" := (negb (bool_decide (a = b))) (at level 70, no associativity) : js_scope.
#[global] Open Scope js_scope.

(** ** Inversion of computations that returned *)

Lemma bind_ok {E A B} (m : result E A) (f : A -> result E B) b :
  m ≫= f = Ok b <-> exists a, m = Ok a /\ f a = Ok b.
Proof. destruct m; unfold mbind; simpl; naive_solver. Qed.

Lemma throw_when_ok {E} b (e : E) u : throw_when b e = Ok u <-> b = false.
Proof. destruct b, u; simpl; naive_solver. Qed.

Lemma foldM_app {E A B} (f : A -> B -> result E A) l k a :
  foldM f (l ++ k) a = foldM f l a ≫= foldM f k.
Proof.
  revert a. induction l as [|b l IH]; intros a; simpl; [done|].
  destruct (f a b); [apply IH | done].
Qed.

(** An invariant of the loop body holds after the loop. *)
Lemma foldM_invariant {E A B} (f : A -> B -> result E A) (I : A -> Prop) l a a' :
  (forall x b y, b ∈ l -> I x -> f x b = Ok y -> I y) ->
  I a -> foldM f l a = Ok a' -> I a'.
Proof.
  revert a. induction l as [|b l IH]; intros a Hf HI H; simpl in *; [by simplify_eq|].
  destruct (f a b) eqn:Hb; [|done].
  eapply IH; [| |exact H].
  - intros. eapply Hf; [|done|done]. set_solver.
  - eapply Hf; [|exact HI|exact Hb]. set_solver.
Qed.

(** A loop relates its accumulator to the elements consumed so far. *)
Lemma foldM_prefix {E A B} (f : A -> B -> result E A) (I : list B -> A -> Prop) a0 l a :
  I [] a0 -> (forall k x b y, I k x -> f x b = Ok y -> I (k ++ [b]) y) ->
  foldM f l a0 = Ok a -> I l a.
Proof.
  intros H0 Hf. revert a. induction l as [|b l IH] using rev_ind; intros a H; [by simplify_eq/=|].
  rewrite foldM_app in H. apply bind_ok in H as (x & Hx & H). simpl in H.
  destruct (f x b) eqn:Hb; [|done]. simplify_eq. eauto.
Qed.

(** [returns] peels the statements off computations known to return. *)
Ltac subst_result H :=
  try (match type of H with _ = ?b => is_var b; subst b end); try subst.
Ltac returns1 :=
  match goal with
  | H : Err _ = Ok _ |- _ => discriminate H
  | H : Ok _ = Err _ |- _ => discriminate H
  | H : Ok _ = Ok _ |- _ => injection H as H; subst_result H
  | H : mret _ = Ok _ |- _ => injection H as H; subst_result H
  | H : mbind _ _ = Ok _ |- _ =>
      let a := fresh "v" in let Ha := fresh "Hstep" in
      apply bind_ok in H as (a & Ha & H)
  | H : throw_when _ _ = Ok _ |- _ => apply throw_when_ok in H
  | H : orb _ _ = false |- _ => apply orb_false_iff in H; destruct H
  | H : andb _ _ = true |- _ => apply andb_true_iff in H; destruct H
  | H : negb _ = false |- _ => apply negb_false_iff in H
  | H : negb _ = true |- _ => apply negb_true_iff in H
  | H : bool_decide _ = true |- _ => apply bool_decide_eq_true_1 in H
  | H : bool_decide _ = false |- _ => apply bool_decide_eq_false_1 in H
  end.
Ltac returns := repeat (returns1; simpl in *).

(** ** Field assignment

    [r <| f := v |>] is the record [r] with field [f] assigned: the model of
    [this.f = v].  A record type takes part by giving its expansion [eta]. *)

Class Eta (R : Type) := eta : R -> R.
Class Setter {R T : Type} (f : R -> T) := modify : (T -> T) -> R -> R.
Arguments modify {R T} f {_} g r /.
#[global] Hint Mode Setter ! - ! : typeclass_instances.

Ltac derive_setter :=
  match goal with
  | |- @Setter ?R ?T ?f =>
      let e := constr:(eta (R:=R)) in
      let e := eval hnf in e in
      let t := constr:(fun (g : T -> T) (r : R) =>
        ltac:(let b := eval cbv beta in (e r) in
              match eval pattern (f r) in b with
              | ?h _ => let u := eval cbv beta in (h (g (f r))) in exact u
              end)) in
      exact t
  end.
#[global] Hint Extern 0 (Setter _) => derive_setter : typeclass_instances.

Notation "r <| f := v |>" := (modify f (fun _ => v) r)
  (at level 12, left associativity, format "r <| f := v |>").
Notation "r <| f ::= g |>" := (modify f g r)
  (at level 12, left associativity, format "r <| f ::= g |>").

(** ** A stand-in for a hash

    An injective function to strings, for concrete runs of definitions that take
    SHA-256 as a parameter. *)

Fixpoint positiveBits (p : positive) : string :=
  match p with
  | xH => ""
  | xO p => "0" +:+ positiveBits p
  | xI p => "1" +:+ positiveBits p
  end.
Definition standInHash (s : list Z) : string := positiveBits (encode s).

Lemma standInHash_inj s t : standInHash s = standInHash t -> s = t.
Proof.
  unfold standInHash. intros H. apply (inj encode). revert H. generalize (encode t). generalize (encode s).
  induction p as [p IH|p IH|]; intros [q|q|] H; simpl in H; try done; f_equal; apply IH; by injection H.
Qed.
