(* ===== verification/JsString.v ===== *)
(** * JavaScript strings

    A JavaScript string is a sequence of UTF-16 code units.  This file gives
    the operations of [String.prototype] and of Node's [Buffer] that the
    modelled sources use on text: UTF-8 byte length, code point count, [trim],
    [includes], [startsWith], [split], [join], [replaceAll], [toLowerCase].
    Identifiers that the schemas restrict to ASCII (UUIDs, SHA-256 digests,
    tool names) are plain Rocq strings, embedded by [js]. *)

From S2P Require Import Prelude.
From Stdlib Require Ascii String.
#[local] Open Scope Z_scope.

(** A string: its code units, each in [0 .. 65535]. *)
Abbreviation jstring := (list Z).

(** The code units of an ASCII literal. *)
Definition js (s : string) : jstring :=
  (fun a => Z.of_N (Ascii.N_of_ascii a)) <$> String.list_ascii_of_string s.

Definition isHighSurrogate (u : Z) : bool := (0xd800 <=? u) && (u <=? 0xdbff).
Definition isLowSurrogate (u : Z) : bool := (0xdc00 <=? u) && (u <=? 0xdfff).

(** [Buffer.byteLength(s, "utf8")]: a surrogate pair is four bytes, a lone
    surrogate is the three bytes of the replacement character. *)
Fixpoint byteLength (s : jstring) : Z :=
  match s with
  | [] => 0
  | u :: r =>
      if isHighSurrogate u
      then match r with
           | v :: r' => if isLowSurrogate v then 4 + byteLength r' else 3 + byteLength r
           | [] => 3
           end
      else (if u <? 0x80 then 1 else if u <? 0x800 then 2 else 3) + byteLength r
  end.

(** [Array.from(s)]: the code points, a pair of surrogates joined. *)
Fixpoint codePoints (s : jstring) : list Z :=
  match s with
  | [] => []
  | u :: r =>
      if isHighSurrogate u
      then match r with
           | v :: r' =>
               if isLowSurrogate v
               then (0x10000 + (u - 0xd800) * 0x400 + (v - 0xdc00)) :: codePoints r'
               else u :: codePoints r
           | [] => [u]
           end
      else u :: codePoints r
  end.

(** [s.startsWith(p)] *)
Fixpoint startsWith (s p : jstring) : bool :=
  match p, s with
  | [], _ => true
  | a :: p, b :: s => (a =? b) && startsWith s p
  | _ :: _, [] => false
  end.

(** [s.endsWith(p)] *)
Definition endsWith (s p : jstring) : bool := startsWith (reverse s) (reverse p).

(** [s.includes(p)] *)
Fixpoint includes (s p : jstring) : bool :=
  startsWith s p || match s with [] => false | _ :: r => includes r p end.

(** White space and line terminators, the characters [trim] removes. *)
Definition isJsSpace (u : Z) : bool :=
  bool_decide (u ∈ [0x09; 0x0a; 0x0b; 0x0c; 0x0d; 0x20; 0xa0; 0x1680; 0x2028; 0x2029;
                    0x202f; 0x205f; 0x3000; 0xfeff]) ||
  ((0x2000 <=? u) && (u <=? 0x200a)).

Fixpoint trimStart (s : jstring) : jstring :=
  match s with
  | [] => []
  | u :: r => if isJsSpace u then trimStart r else s
  end.
Definition trimEnd (s : jstring) : jstring := reverse (trimStart (reverse s)).
Definition trim (s : jstring) : jstring := trimEnd (trimStart s).

(** [s.toLowerCase()].  Exact on ASCII and on the two non-ASCII units whose
    lower case has an ASCII letter (U+212A and U+0130); other units keep a
    non-ASCII value, which no ASCII set of the sources contains. *)
Fixpoint toLowerCase (s : jstring) : jstring :=
  match s with
  | [] => []
  | u :: r =>
      (if (0x41 <=? u) && (u <=? 0x5a) then [u + 32]
       else if u =? 0x212a then [0x6b]
       else if u =? 0x130 then [0x69; 0x307]
       else [u]) ++ toLowerCase r
  end.

(** [s.split(c)] for a one-unit separator. *)
Fixpoint splitUnit (c : Z) (s : jstring) : list jstring :=
  match s with
  | [] => [[]]
  | u :: r =>
      match splitUnit c r with
      | l :: ls => if u =? c then [] :: l :: ls else (u :: l) :: ls
      | [] => []
      end
  end.

(** [ls.join(c)] for a one-unit separator. *)
Fixpoint joinUnit (c : Z) (ls : list jstring) : jstring :=
  match ls with
  | [] => []
  | [l] => l
  | l :: ls => l ++ c :: joinUnit c ls
  end.

(** [s.replaceAll("\r\n", "\n")] *)
Fixpoint replaceCrlf (s : jstring) : jstring :=
  match s with
  | [] => []
  | u :: r =>
      match r with
      | v :: r' => if (u =? 13) && (v =? 10) then 10 :: replaceCrlf r' else u :: replaceCrlf r
      | [] => [u]
      end
  end.

(** [s.replaceAll(a, b)] for single units. *)
Definition replaceUnit (a b : Z) (s : jstring) : jstring :=
  (fun u => if u =? a then b else u) <$> s.

(** The index of the first [c], if any. *)
Fixpoint indexOfUnit (c : Z) (s : jstring) : option nat :=
  match s with
  | [] => None
  | u :: r => if u =? c then Some 0%nat else S <$> indexOfUnit c r
  end.

Definition isAsciiLetter (u : Z) : bool :=
  ((0x41 <=? u) && (u <=? 0x5a)) || ((0x61 <=? u) && (u <=? 0x7a)).
Definition isDigit (u : Z) : bool := (0x30 <=? u) && (u <=? 0x39).

(** ** Laws *)

Lemma split_not_nil c s : splitUnit c s <> [].
Proof.
  destruct s as [|u r]; simpl; [done|]. destruct (splitUnit c r) eqn:E.
  - exfalso. revert E. clear. revert c. induction r as [|v r IH]; intros c; simpl; [done|].
    destruct (splitUnit c r) eqn:E'; [by destruct (IH c)|]. by destruct (v =? c).
  - by destruct (u =? c).
Qed.

Lemma joinUnit_splitUnit c s : joinUnit c (splitUnit c s) = s.
Proof.
  induction s as [|u r IH]; simpl; [done|].
  destruct (splitUnit c r) as [|l ls] eqn:E; [by destruct (split_not_nil c r)|].
  destruct (Z.eqb_spec u c) as [->|].
  - change (joinUnit c ([] :: l :: ls)) with ([] ++ c :: joinUnit c (l :: ls)). by rewrite IH.
  - destruct ls as [|l' ls]; simpl in *; [by rewrite IH|]. by rewrite IH.
Qed.

Lemma split_no_sep c s l : l ∈ splitUnit c s -> c ∉ l.
Proof.
  revert l. induction s as [|u r IH]; intros l; simpl.
  - intros ->%list_elem_of_singleton. set_solver.
  - destruct (splitUnit c r) as [|l1 ls] eqn:E; [set_solver|].
    destruct (Z.eqb_spec u c) as [->|]; intros H; apply elem_of_cons in H as [->|H].
    + set_solver.
    + by apply IH.
    + apply not_elem_of_cons. split; [done|]. apply IH. set_solver.
    + apply IH. set_solver.
Qed.

Lemma split_app_sep c s t : c ∉ s -> splitUnit c (s ++ c :: t) = s :: splitUnit c t.
Proof.
  induction s as [|u r IH]; intros Hs; simpl.
  - destruct (splitUnit c t) eqn:E; [by destruct (split_not_nil c t)|]. by rewrite Z.eqb_refl.
  - rewrite IH by set_solver. destruct (Z.eqb_spec u c); [set_solver|done].
Qed.

Lemma split_plain c s : c ∉ s -> splitUnit c s = [s].
Proof.
  induction s as [|u r IH]; intros Hs; simpl; [done|].
  rewrite IH by set_solver. destruct (Z.eqb_spec u c); [set_solver|done].
Qed.

Lemma splitUnit_joinUnit c ls : ls <> [] -> (forall l, l ∈ ls -> c ∉ l) -> splitUnit c (joinUnit c ls) = ls.
Proof.
  induction ls as [|l ls IH]; intros Hne Hall; [done|].
  destruct ls as [|l' ls].
  - simpl. apply split_plain, Hall. set_solver.
  - change (joinUnit c (l :: l' :: ls)) with (l ++ c :: joinUnit c (l' :: ls)).
    rewrite split_app_sep by (apply Hall; set_solver).
    rewrite IH; [done|done|]. intros. apply Hall. set_solver.
Qed.

Lemma byteLength_nonneg s : 0 <= byteLength s.
Proof.
  assert (H : forall n s, (length s <= n)%nat -> 0 <= byteLength s).
  { intros n. induction n as [|n IH]; intros [|u r] Hl; simpl in *; try lia.
    destruct (isHighSurrogate u).
    - destruct r as [|v r']; [lia|]. destruct (isLowSurrogate v); simpl in Hl.
      + assert (0 <= byteLength r') by (apply IH; lia). lia.
      + assert (0 <= byteLength (v :: r')) by (apply IH; simpl; lia). lia.
    - assert (0 <= byteLength r) by (apply IH; lia). repeat case_match; lia. }
  by apply (H (length s)).
Qed.

Lemma startsWith_spec s p : startsWith s p = true <-> exists t, s = p ++ t.
Proof.
  revert s. induction p as [|a p IH]; intros s.
  - split; [intros _; by exists s | by destruct s].
  - destruct s as [|b s]; [split; [done|by intros [t ?]]|].
    simpl. rewrite andb_true_iff, Z.eqb_eq, IH. split.
    + intros [-> [t ->]]. by exists t.
    + intros [t Ht]. simpl in Ht. injection Ht as -> ->. split; [done|]. by exists t.
Qed.

(** A code unit. *)
Definition isUnit16 (u : Z) : Prop := 0 <= u < 65536.

Lemma js_app a b : js (a +:+ b) = js a ++ js b.
Proof.
  unfold js. induction a as [|c a IH]; [done|]. simpl. f_equal. exact IH.
Qed.

Lemma js_inj a b : js a = js b -> a = b.
Proof.
  unfold js. revert b. induction a as [|c a IH]; intros [|d b]; simpl; intros H; try done.
  injection H as H1 H2. f_equal; [|by apply IH].
  rewrite <-(Ascii.ascii_N_embedding c), <-(Ascii.ascii_N_embedding d). f_equal. lia.
Qed.

Lemma js_units a : Forall isUnit16 (js a).
Proof.
  unfold js. apply Forall_fmap, Forall_true. intros c. unfold isUnit16. simpl.
  pose proof (Ascii.N_ascii_bounded c). lia.
Qed.
