(* ===== verification/CanonicalJson.v ===== *)
(** * Canonical JSON

    The serialiser of [src/completion/canonical-json.ts]: the bytes every
    content digest of the program (plan revisions, graph revisions, approval
    identities, leases) is computed over.  [canonicalJson] is the function on
    values whose numbers are safe integers; its text determines the value up to
    the order of object keys and absent fields, which is what makes a digest bind
    its content.  Fractions, exponents, the sign of -0 and the exception for a
    number that is not finite are not modelled. *)

From S2P Require Import Prelude JsString.
From stdpp Require Import pretty sorting.
#[local] Open Scope Z_scope.

(** A JavaScript value as [canonicalJson] inspects it.  Numbers are the safe
    integers the schemas admit, which [JSON.stringify] prints as plain decimals
    ([JNum] of any other integer stands for nothing); an object is its list of own properties,
    a property can hold [undefined]. *)
Inductive json : Type :=
| JUndefined
| JNull
| JBool (b : bool)
| JNum (n : Z)
| JStr (s : jstring)
| JArr (entries : list json)
| JObj (record : list (jstring * json)).

(** The [TypeError] of an unencodable value. *)
Inductive encode_error : Type := CannotEncodeUndefined.

(** ** [JSON.stringify] on strings and numbers *)

Definition hexDigit (d : Z) : Z := if d <? 10 then 0x30 + d else 0x61 + (d - 10).

(** The six units [\uXXXX]. *)
Definition unicodeEscape (u : Z) : jstring :=
  [0x5c; 0x75; hexDigit (u / 4096 mod 16); hexDigit (u / 256 mod 16);
   hexDigit (u / 16 mod 16); hexDigit (u mod 16)].

Definition quoteUnit (u : Z) : jstring :=
  if u =? 0x22 then [0x5c; 0x22]
  else if u =? 0x5c then [0x5c; 0x5c]
  else if u =? 0x08 then [0x5c; 0x62]
  else if u =? 0x0c then [0x5c; 0x66]
  else if u =? 0x0a then [0x5c; 0x6e]
  else if u =? 0x0d then [0x5c; 0x72]
  else if u =? 0x09 then [0x5c; 0x74]
  else if u <? 0x20 then unicodeEscape u
  else [u].

(** Well-formed [JSON.stringify]: a surrogate pair is kept, a lone surrogate
    is escaped. *)
Fixpoint quoteUnits (s : jstring) : jstring :=
  match s with
  | [] => []
  | u :: r =>
      if isHighSurrogate u
      then match r with
           | v :: r' => if isLowSurrogate v then u :: v :: quoteUnits r'
                        else unicodeEscape u ++ quoteUnits r
           | [] => unicodeEscape u
           end
      else if isLowSurrogate u then unicodeEscape u ++ quoteUnits r
      else quoteUnit u ++ quoteUnits r
  end.

Definition stringifyString (s : jstring) : jstring := 0x22 :: quoteUnits s ++ [0x22].
Definition stringifyNumber (n : Z) : jstring := js (pretty n).

(** ** Key order *)

(** The default [sort()]: by UTF-16 code units. *)
Fixpoint jstring_le (a b : jstring) : bool :=
  match a, b with
  | [], _ => true
  | _ :: _, [] => false
  | x :: a, y :: b => if x <? y then true else if y <? x then false else jstring_le a b
  end.

Definition key_le {A} (a b : jstring * A) : Prop := jstring_le a.1 b.1 = true.
#[export] Instance key_le_dec {A} (a b : jstring * A) : Decision (key_le a b).
Proof. unfold key_le. apply _. Defined.

Definition isUndefined (v : json) : bool := match v with JUndefined => true | _ => false end.

(** Field texts: drop the undefined properties, keep the texts of the rest. *)
Definition keepFields (fields : list (jstring * json * result encode_error jstring))
  : result encode_error (list (jstring * jstring)) :=
  foldM (fun acc '(k, v, r) =>
           if isUndefined v then Ok acc
           else match r with Ok t => Ok (acc ++ [(k, t)]) | Err e => Err e end)
        fields [].

Definition comma : Z := 0x2c.
Definition colon : Z := 0x3a.

Definition fieldText (kt : jstring * jstring) : jstring :=
  stringifyString kt.1 ++ colon :: kt.2.

Fixpoint canonicalJson (value : json) : result encode_error jstring :=
  match value with
  | JUndefined => Err CannotEncodeUndefined
  | JNull => Ok (js "null")
  | JBool b => Ok (js (if b then "true" else "false"))
  | JNum n => Ok (stringifyNumber n)
  | JStr s => Ok (stringifyString s)
  | JArr entries =>
      texts ← (fix go l := match l with
                           | [] => Ok []
                           | v :: l => t ← canonicalJson v; ts ← go l; Ok (t :: ts)
                           end) entries;
      Ok (0x5b :: joinUnit comma texts ++ [0x5d])
  | JObj record =>
      fields ← keepFields
        ((fix go l := match l with
                      | [] => []
                      | (k, v) :: l => (k, v, canonicalJson v) :: go l
                      end) record);
      Ok (0x7b :: joinUnit comma (fieldText <$> js_sort key_le fields) ++ [0x7d])
  end.

(** ** Content digests *)

Section Digest.
(** Node's [createHash("sha256")] on the UTF-8 bytes of a string, in hex. *)
Variable sha256 : jstring -> string.

Definition sha256Canonical (value : json) : result encode_error string :=
  t ← canonicalJson value; Ok (sha256 t).
End Digest.

Example canonicalJson_ex :
  canonicalJson (JObj [(js "b", JArr [JNum (-12); JNull]); (js "u", JUndefined);
                       (js "a", JStr [0x22; 0x0a; 0xd800])])
  = Ok (js "{" ++ [0x22; 0x61; 0x22; 0x3a; 0x22; 0x5c; 0x22; 0x5c; 0x6e] ++ js "\ud800" ++ [0x22]
        ++ js "," ++ [0x22; 0x62; 0x22; 0x3a] ++ js "[-12,null]}").
Proof. vm_compute. reflexivity. Qed.
