(* ===== verification/Domain.v ===== *)
(** * Goals, plans and task graphs: the durable content

    The records and enumerations of [src/goals/goal-schema.ts],
    [src/plans/plan-schema.ts], [src/coordination/task-state-types.ts] and
    [src/task-graph/task-graph-schema.ts], with their canonical JSON.  Ids,
    digests and node names are ASCII by schema and are Rocq strings; titles,
    objectives, notes and argv are JavaScript strings. *)

From S2P Require Import Prelude JsString CanonicalJson.
#[local] Open Scope Z_scope.

(** ** Goals *)

Inductive GoalStatus : Type := goal_active | goal_completed | goal_abandoned.
#[export] Instance GoalStatus_eq : EqDecision GoalStatus.
Proof. solve_decision. Defined.

Record GoalRevisionContent : Type := {
  gc_goalId : string;
  gc_objective : jstring;
  gc_parentGoalId : option string;
  gc_revision : Z;
}.

(** ** Plans *)

Inductive PlanRevisionStatus : Type :=
| plan_draft | plan_active | plan_completed | plan_rejected | plan_superseded.
#[export] Instance PlanRevisionStatus_eq : EqDecision PlanRevisionStatus.
Proof. solve_decision. Defined.

Inductive PlanItemStatus : Type :=
| item_pending | item_in_progress | item_completed | item_blocked | item_skipped.
#[export] Instance PlanItemStatus_eq : EqDecision PlanItemStatus.
Proof. solve_decision. Defined.

Record PlanItemContent : Type := {
  pi_acceptance : jstring;
  pi_id : string;
  pi_required : bool;
  pi_title : jstring;
}.

Record PlanRevisionContent : Type := {
  pc_goalId : string;
  pc_goalRevision : Z;
  pc_items : list PlanItemContent;
  pc_planId : string;
  pc_revision : Z;
  pc_title : jstring;
}.

(** ** Task graphs *)

Inductive WorkspaceMode : Type := origin_read_only | managed_worktree | inherit_predecessor.
#[export] Instance WorkspaceMode_eq : EqDecision WorkspaceMode.
Proof. solve_decision. Defined.

Record TaskGraphBudget : Type := {
  maxAttempts : Z;
  maxDurationMs : Z;
  maxModelSteps : Z;
  maxCommandExecutions : Z;
  maxCommandOutputBytes : Z;
  maxChangedFiles : Z;
  maxChangedBytes : Z;
  maxArtifactBytes : Z;
  maxReportedTokens : option Z;
}.

Record TaskNodeWorkspaceRequest : Type := {
  ws_mode : WorkspaceMode;
  ws_declaredPathPrefixes : list jstring;
}.

Record TaskNodeRetry : Type := {
  retry_maxAttempts : Z;
  retry_automaticOn : list string;
}.

Inductive AgentMode : Type := mode_plan | mode_build.
#[export] Instance AgentMode_eq : EqDecision AgentMode.
Proof. solve_decision. Defined.

(** The discriminated part of a node. *)
Inductive TaskNodeKind : Type :=
| AgentTaskNode (mode : AgentMode)
| VerificationTaskNode (argv : list jstring) (cwd : jstring) (purpose : jstring).

Record TaskNodeSpec : Type := {
  tn_nodeId : string;
  tn_sequence : Z;
  tn_title : jstring;
  tn_objective : jstring;
  tn_planItemIds : list string;
  tn_dependsOn : list string;
  tn_workspace : TaskNodeWorkspaceRequest;
  tn_requiredCapabilities : list jstring;
  tn_budget : TaskGraphBudget;
  tn_retry : TaskNodeRetry;
  tn_kind : TaskNodeKind;
}.

Record TaskGraphBinding : Type := {
  gb_sessionId : string;
  gb_goalId : string;
  gb_goalRevision : Z;
  gb_planId : string;
  gb_planRevision : Z;
  gb_planSha256 : string;
}.
#[export] Instance TaskGraphBinding_eq : EqDecision TaskGraphBinding.
Proof. solve_decision. Defined.

Record TaskGraphRevisionContent : Type := {
  tg_graphId : string;
  tg_binding : TaskGraphBinding;
  tg_title : jstring;
  tg_nodes : list TaskNodeSpec;
  tg_graphBudget : TaskGraphBudget;
}.

(** ** JSON of the content *)

Definition jid (s : string) : json := JStr (js s).
Definition jnullable {A} (f : A -> json) (o : option A) : json :=
  match o with Some a => f a | None => JNull end.
Definition field (k : string) (v : json) : jstring * json := (js k, v).

Definition planItemJson (i : PlanItemContent) : json :=
  JObj [field "acceptance" (JStr (pi_acceptance i)); field "id" (jid (pi_id i));
        field "required" (JBool (pi_required i)); field "title" (JStr (pi_title i))].

Definition planContentJson (c : PlanRevisionContent) : json :=
  JObj [field "goalId" (jid (pc_goalId c)); field "goalRevision" (JNum (pc_goalRevision c));
        field "items" (JArr (planItemJson <$> pc_items c)); field "planId" (jid (pc_planId c));
        field "revision" (JNum (pc_revision c)); field "schemaVersion" (JNum 1);
        field "title" (JStr (pc_title c))].

Definition budgetJson (b : TaskGraphBudget) : json :=
  JObj [field "maxAttempts" (JNum (maxAttempts b)); field "maxDurationMs" (JNum (maxDurationMs b));
        field "maxModelSteps" (JNum (maxModelSteps b));
        field "maxCommandExecutions" (JNum (maxCommandExecutions b));
        field "maxCommandOutputBytes" (JNum (maxCommandOutputBytes b));
        field "maxChangedFiles" (JNum (maxChangedFiles b));
        field "maxChangedBytes" (JNum (maxChangedBytes b));
        field "maxArtifactBytes" (JNum (maxArtifactBytes b));
        field "maxReportedTokens" (jnullable JNum (maxReportedTokens b))].

Definition bindingJson (b : TaskGraphBinding) : json :=
  JObj [field "sessionId" (jid (gb_sessionId b)); field "goalId" (jid (gb_goalId b));
        field "goalRevision" (JNum (gb_goalRevision b)); field "planId" (jid (gb_planId b));
        field "planRevision" (JNum (gb_planRevision b));
        field "planSha256" (jid (gb_planSha256 b))].

Definition workspaceModeName (m : WorkspaceMode) : string :=
  match m with
  | origin_read_only => "origin_read_only"
  | managed_worktree => "managed_worktree"
  | inherit_predecessor => "inherit_predecessor"
  end.

Definition nodeKindFields (k : TaskNodeKind) : list (jstring * json) :=
  match k with
  | AgentTaskNode mode_plan =>
      [field "kind" (jid "agent");
       field "agent" (JObj [field "mode" (jid "plan"); field "taskProfile" (jid "read-only")])]
  | AgentTaskNode mode_build =>
      [field "kind" (jid "agent");
       field "agent" (JObj [field "mode" (jid "build"); field "taskProfile" (jid "coding")])]
  | VerificationTaskNode argv cwd purpose =>
      [field "kind" (jid "verification");
       field "verification" (JObj [field "argv" (JArr (JStr <$> argv)); field "cwd" (JStr cwd);
                                   field "purpose" (JStr purpose)])]
  end.

Definition nodeJson (n : TaskNodeSpec) : json :=
  JObj ([field "nodeId" (jid (tn_nodeId n)); field "sequence" (JNum (tn_sequence n));
         field "title" (JStr (tn_title n)); field "objective" (JStr (tn_objective n));
         field "planItemIds" (JArr (jid <$> tn_planItemIds n));
         field "dependsOn" (JArr (jid <$> tn_dependsOn n));
         field "workspace" (JObj [field "mode" (jid (workspaceModeName (ws_mode (tn_workspace n))));
                                  field "declaredPathPrefixes"
                                    (JArr (JStr <$> ws_declaredPathPrefixes (tn_workspace n)))]);
         field "requiredCapabilities" (JArr (JStr <$> tn_requiredCapabilities n));
         field "budget" (budgetJson (tn_budget n));
         field "retry" (JObj [field "maxAttempts" (JNum (retry_maxAttempts (tn_retry n)));
                              field "automaticOn" (JArr (jid <$> retry_automaticOn (tn_retry n)))])]
        ++ nodeKindFields (tn_kind n)).

Definition graphContentJson (g : TaskGraphRevisionContent) : json :=
  JObj [field "schemaVersion" (JNum 1); field "graphId" (jid (tg_graphId g));
        field "binding" (bindingJson (tg_binding g)); field "title" (JStr (tg_title g));
        field "nodes" (JArr (nodeJson <$> tg_nodes g));
        field "graphBudget" (budgetJson (tg_graphBudget g))].
