(* ===== verification/Schemas.v ===== *)
(** * Durable text and identifiers

    The field schemas that the stored content must satisfy:
    [src/coordination/task-text-schema.ts], [src/goals/goal-schema.ts],
    [src/plans/plan-schema.ts] and [src/capabilities/capability-id.ts].  Each
    schema is a boolean predicate, true when the schema reports no issue.
    zod's UUID test is a parameter. *)

From S2P Require Import Prelude JsString CanonicalJson Domain.
#[local] Open Scope Z_scope.

(** ** Canonical stored text *)

Record CanonicalStoredTextOptions : Type := {
  maximumBytes : Z;
  maximumScalars : option Z;
  minimumScalars : option Z;
  nonblank : bool;
}.

(** The loop over code units; a pair consumes two. *)
Fixpoint hasUnpairedSurrogate (value : jstring) : bool :=
  match value with
  | [] => false
  | u :: r =>
      if isHighSurrogate u
      then match r with
           | v :: r' => if isLowSurrogate v then hasUnpairedSurrogate r' else true
           | [] => true
           end
      else if isLowSurrogate u then true else hasUnpairedSurrogate r
  end.

Definition isForbiddenControl (codePoint : Z) : bool :=
  ((0x00 <=? codePoint) && (codePoint <=? 0x08)) ||
  ((0x0b <=? codePoint) && (codePoint <=? 0x1f)) ||
  ((0x7f <=? codePoint) && (codePoint <=? 0x9f)).
Definition containsForbiddenControl (value : jstring) : bool :=
  existsb isForbiddenControl (codePoints value).

(** [canonicalStoredTextSchema(options)] reports no issue. *)
Definition canonicalStoredText (options : CanonicalStoredTextOptions) (value : jstring) : bool :=
  let scalarCount := Z.of_nat (length (codePoints value)) in
  negb (hasUnpairedSurrogate value) &&
  negb (includes value [0x0d]) &&
  negb (containsForbiddenControl value) &&
  match minimumScalars options with Some m => m <=? scalarCount | None => true end &&
  match maximumScalars options with Some m => scalarCount <=? m | None => true end &&
  (byteLength value <=? maximumBytes options) &&
  negb (nonblank options && (length (trim value) =? 0)%nat).

(** ** Identifiers *)

Definition isHex (u : Z) : bool := isDigit u || ((0x61 <=? u) && (u <=? 0x66)).
Definition isLowerAlnum (u : Z) : bool := isDigit u || ((0x61 <=? u) && (u <=? 0x7a)).
Definition isAlnum (u : Z) : bool := isDigit u || isAsciiLetter u.

(** [/^[a-f0-9]{64}$/u] *)
Definition sha256Schema (s : jstring) : bool := (length s =? 64)%nat && forallb isHex s.

(** [/^[a-z0-9][a-z0-9_-]{0,63}$/u] *)
Definition planItemIdSchema (s : jstring) : bool :=
  match s with
  | u :: r => isLowerAlnum u && (length r <=? 63)%nat &&
              forallb (fun u => isLowerAlnum u || (u =? 0x5f) || (u =? 0x2d)) r
  | [] => false
  end.

(** [/^[a-z][a-z0-9-]{0,63}$/u] *)
Definition nodeIdSchema (s : jstring) : bool :=
  match s with
  | u :: r => (0x61 <=? u) && (u <=? 0x7a) && (length r <=? 63)%nat &&
              forallb (fun u => isLowerAlnum u || (u =? 0x2d)) r
  | [] => false
  end.

(** ** Goals and plans *)

Definition goalObjectiveSchema : jstring -> bool :=
  canonicalStoredText {| maximumBytes := 32 * 1024; maximumScalars := Some 8000;
                         minimumScalars := Some 1; nonblank := true |}.
Definition planTitleSchema : jstring -> bool :=
  canonicalStoredText {| maximumBytes := 800; maximumScalars := Some 200;
                         minimumScalars := Some 1; nonblank := true |}.
Definition planItemAcceptanceSchema : jstring -> bool :=
  canonicalStoredText {| maximumBytes := 3200; maximumScalars := Some 800;
                         minimumScalars := Some 1; nonblank := true |}.
Definition MAX_CANONICAL_PLAN_BYTES : Z := 32 * 1024.

(** [new Set(values).size === values.length] *)
Definition noDuplicates {A} `{EqDecision A} (values : list A) : bool := bool_decide (NoDup values).

Section Content.
Variable isUuid : jstring -> bool.

Definition goalRevisionContentSchema (c : GoalRevisionContent) : bool :=
  isUuid (js (gc_goalId c)) && goalObjectiveSchema (gc_objective c) &&
  match gc_parentGoalId c with Some p => isUuid (js p) | None => true end &&
  (0 <? gc_revision c).

Definition planItemContentSchema (i : PlanItemContent) : bool :=
  planItemAcceptanceSchema (pi_acceptance i) && planItemIdSchema (js (pi_id i)) &&
  planTitleSchema (pi_title i).

Definition planRevisionContentSchema (c : PlanRevisionContent) : bool :=
  isUuid (js (pc_goalId c)) && (0 <? pc_goalRevision c) &&
  (1 <=? length (pc_items c))%nat && (length (pc_items c) <=? 32)%nat &&
  forallb planItemContentSchema (pc_items c) &&
  isUuid (js (pc_planId c)) && (0 <? pc_revision c) && planTitleSchema (pc_title c) &&
  noDuplicates (pi_id <$> pc_items c) &&
  match canonicalJson (planContentJson c) with
  | Ok text => byteLength text <=? MAX_CANONICAL_PLAN_BYTES
  | Err _ => false
  end.
End Content.

(** ** Qualified capability ids *)

Inductive CapabilityKind : Type := kind_skill | kind_hook | kind_mcp_server.
Inductive CapabilitySourceKind : Type := source_builtin | source_user_install | source_workspace.

Record QualifiedCapability : Type := {
  qc_componentId : jstring;
  qc_componentSha256 : jstring;
  qc_kind : CapabilityKind;
  qc_pluginId : jstring;
  qc_pluginVersion : jstring;
  qc_source : CapabilitySourceKind;
}.

Definition kindText (k : CapabilityKind) : jstring :=
  js match k with kind_skill => "skill" | kind_hook => "hook" | kind_mcp_server => "mcp_server" end.
Definition sourceText (s : CapabilitySourceKind) : jstring :=
  js match s with
     | source_builtin => "builtin" | source_user_install => "user_install" | source_workspace => "workspace"
     end.

(** [formatQualifiedCapabilityId] *)
Definition formatQualifiedCapabilityId (q : QualifiedCapability) : jstring :=
  sourceText (qc_source q) ++ 0x3a :: qc_pluginId q ++ 0x40 :: qc_pluginVersion q ++ 0x2f ::
  kindText (qc_kind q) ++ 0x2f :: qc_componentId q ++ 0x23 :: js "sha256:" ++ qc_componentSha256 q.

Definition isDotDash (u : Z) : bool := (u =? 0x2e) || (u =? 0x5f) || (u =? 0x2d).

(** [(?:C|[._-](?=C))*]: every separator is followed by a [C]. *)
Fixpoint separated (C : Z -> bool) (s : jstring) : bool :=
  match s with
  | [] => true
  | u :: r => (C u || (isDotDash u && match r with v :: _ => C v | [] => false end)) && separated C r
  end.

(** [C(?:C|[._-](?=C)){0,max}] *)
Definition dottedName (C : Z -> bool) (max : nat) (s : jstring) : bool :=
  match s with
  | u :: r => C u && separated C r && (length r <=? max)%nat
  | [] => false
  end.

Definition parseSource (s : jstring) : option CapabilitySourceKind :=
  List.find (fun k => s === sourceText k) [source_builtin; source_user_install; source_workspace].
Definition parseKind (s : jstring) : option CapabilityKind :=
  List.find (fun k => s === kindText k) [kind_skill; kind_hook; kind_mcp_server].

(** The text before and after the first [c]. *)
Fixpoint cutUnit (c : Z) (s : jstring) : option (jstring * jstring) :=
  match s with
  | [] => None
  | u :: r => if u =? c then Some ([], r)
              else match cutUnit c r with Some (a, b) => Some (u :: a, b) | None => None end
  end.

(** [parseQualifiedCapabilityId]: the groups of [FULL_ID], whose separators
    [: @ / / #] occur in none of them; [None] is the thrown error. *)
Definition parseQualifiedCapabilityId (value : jstring) : option QualifiedCapability :=
  '(sourceT, r) ← cutUnit 0x3a value;
  source ← parseSource sourceT;
  '(pluginId, r) ← cutUnit 0x40 r;
  '(pluginVersion, r) ← cutUnit 0x2f r;
  '(kindT, r) ← cutUnit 0x2f r;
  kind ← parseKind kindT;
  '(componentId, r) ← cutUnit 0x23 r;
  let digest := drop 7 r in
  if dottedName isLowerAlnum 79 pluginId && dottedName isAlnum 63 pluginVersion &&
     dottedName isLowerAlnum 79 componentId && startsWith r (js "sha256:") && sha256Schema digest
  then Some {| qc_componentId := componentId; qc_componentSha256 := digest; qc_kind := kind;
               qc_pluginId := pluginId; qc_pluginVersion := pluginVersion; qc_source := source |}
  else None.

(** ** Laws *)

Lemma cutUnit_app c a b : c ∉ a -> cutUnit c (a ++ c :: b) = Some (a, b).
Proof.
  induction a as [|u a IH]; intros Hn; simpl; [by rewrite Z.eqb_refl|].
  apply not_elem_of_cons in Hn as [Hne Hn]. rewrite (proj2 (Z.eqb_neq _ _)) by done.
  by rewrite IH.
Qed.

Lemma cutUnit_Some c s a b : cutUnit c s = Some (a, b) -> s = a ++ c :: b.
Proof.
  revert a b. induction s as [|u r IH]; intros a b H; simpl in H; [done|].
  destruct (Z.eqb_spec u c) as [->|Hne]; [by simplify_eq|].
  destruct (cutUnit c r) as [[a' b']|]; [|done]. simplify_eq. simpl. f_equal. by apply IH.
Qed.

(** The groups contain no separator. *)
Lemma dottedName_chars C max s u :
  dottedName C max s = true -> u ∈ s -> C u = true \/ isDotDash u = true.
Proof.
  assert (Hsep : forall r, separated C r = true -> u ∈ r -> C u = true \/ isDotDash u = true).
  { induction r as [|v r IH]; intros Hr Hin; [by apply not_elem_of_nil in Hin|].
    simpl in Hr. apply andb_true_iff in Hr as [Hv Hr].
    apply elem_of_cons in Hin as [->|Hin]; [|by apply IH].
    apply orb_true_iff in Hv as [?|Hv]; [by left|]. apply andb_true_iff in Hv as [? _]. by right. }
  destruct s as [|v r]; [done|]. simpl. intros H Hin. returns.
  apply elem_of_cons in Hin as [->|Hin]; [by left|by apply (Hsep r)].
Qed.

Lemma isAlnum_range u : isAlnum u = true \/ isDotDash u = true ->
  u <> 0x3a /\ u <> 0x40 /\ u <> 0x2f /\ u <> 0x23.
Proof. unfold isAlnum, isDotDash, isDigit, isAsciiLetter. lia. Qed.

Lemma isLowerAlnum_range u : isLowerAlnum u = true \/ isDotDash u = true ->
  u <> 0x3a /\ u <> 0x40 /\ u <> 0x2f /\ u <> 0x23.
Proof. unfold isLowerAlnum, isDotDash, isDigit. lia. Qed.

Lemma parseSource_text k : parseSource (sourceText k) = Some k.
Proof. by destruct k. Qed.
Lemma parseKind_text k : parseKind (kindText k) = Some k.
Proof. by destruct k. Qed.

(** What the schema of each part admits. *)
Definition validCapability (q : QualifiedCapability) : bool :=
  dottedName isLowerAlnum 79 (qc_pluginId q) && dottedName isAlnum 63 (qc_pluginVersion q) &&
  dottedName isLowerAlnum 79 (qc_componentId q) && sha256Schema (qc_componentSha256 q).

Lemma parseSource_Some t k : parseSource t = Some k -> t = sourceText k.
Proof. unfold parseSource. intros [_ H]%List.find_some. by apply bool_decide_eq_true in H. Qed.
Lemma parseKind_Some t k : parseKind t = Some k -> t = kindText k.
Proof. unfold parseKind. intros [_ H]%List.find_some. by apply bool_decide_eq_true in H. Qed.

Lemma dottedName_no_sep C max s c :
  (forall u, C u = true \/ isDotDash u = true -> u <> c) -> dottedName C max s = true -> c ∉ s.
Proof. intros HC Hs Hin. by destruct (HC c (dottedName_chars C max s c Hs Hin)). Qed.

Lemma parse_format q : validCapability q = true -> parseQualifiedCapabilityId (formatQualifiedCapabilityId q) = Some q.
Proof.
  destruct q as [comp sha kind plugin version source]. unfold validCapability. simpl. intros H. returns.
  unfold parseQualifiedCapabilityId, formatQualifiedCapabilityId.
  cbn [qc_source qc_pluginId qc_pluginVersion qc_kind qc_componentId qc_componentSha256].
  rewrite cutUnit_app by (by destruct source; vm_compute; set_solver). cbn [mbind option_bind].
  rewrite parseSource_text. cbn [mbind option_bind].
  rewrite cutUnit_app by (eapply dottedName_no_sep; [|done]; intros u Hu%isLowerAlnum_range; tauto).
  cbn [mbind option_bind].
  rewrite cutUnit_app by (eapply dottedName_no_sep; [|done]; intros u Hu%isAlnum_range; tauto).
  cbn [mbind option_bind].
  rewrite cutUnit_app by (by destruct kind; vm_compute; set_solver). cbn [mbind option_bind].
  rewrite parseKind_text. cbn [mbind option_bind].
  rewrite cutUnit_app by (eapply dottedName_no_sep; [|done]; intros u Hu%isLowerAlnum_range; tauto).
  cbn [mbind option_bind].
  assert (E : startsWith (js "sha256:" ++ sha) (js "sha256:") = true) by (apply startsWith_spec; by exists sha).
  rewrite E. change (drop 7 (js "sha256:" ++ sha)) with sha.
  by repeat match goal with H : _ = true |- _ => rewrite H; clear H end.
Qed.

Lemma format_parse s q :
  parseQualifiedCapabilityId s = Some q -> s = formatQualifiedCapabilityId q /\ validCapability q = true.
Proof.
  unfold parseQualifiedCapabilityId. intros H.
  apply bind_Some in H as ([st r1] & ->%cutUnit_Some & H).
  apply bind_Some in H as (source & ->%parseSource_Some & H).
  apply bind_Some in H as ([plugin r2] & ->%cutUnit_Some & H).
  apply bind_Some in H as ([version r3] & ->%cutUnit_Some & H).
  apply bind_Some in H as ([kt r4] & ->%cutUnit_Some & H).
  apply bind_Some in H as (kind & ->%parseKind_Some & H).
  apply bind_Some in H as ([comp r5] & ->%cutUnit_Some & H).
  case_match eqn:Hv; [|done]. injection H as <-. returns.
  match goal with H : startsWith _ _ = true |- _ => apply startsWith_spec in H as [sha ->] end.
  unfold formatQualifiedCapabilityId, validCapability. simpl.
  split; [done|]. change (drop 7 (js "sha256:" ++ sha)) with sha in *.
  by repeat match goal with H : _ = true |- _ => rewrite H; clear H end.
Qed.

(** Qualified capability ids round-trip: a string parses to [q] exactly
    when it is the formatted text of [q] and every part of [q] is valid. *)
Theorem parse_formatQualifiedCapabilityId s q :
  parseQualifiedCapabilityId s = Some q <-> s = formatQualifiedCapabilityId q /\ validCapability q = true.
Proof. split; [apply format_parse|]. intros [-> Hv]. by apply parse_format. Qed.

(** ** Accepted text is well formed *)

Lemma codePoints_scalar value :
  Forall isUnit16 value -> hasUnpairedSurrogate value = false ->
  Forall (fun c => 0 <= c < 0xd800 \/ 0xdfff < c <= 0x10ffff) (codePoints value).
Proof.
  remember (length value) as n eqn:Hn. revert value Hn.
  induction n as [n IH] using lt_wf_ind. intros value Hn Hu Hs.
  destruct Hu as [|u r Hu Hr]; [constructor|]. simpl in Hs |- *. unfold isUnit16 in *.
  destruct (isHighSurrogate u) eqn:Eu.
  - destruct Hr as [|v r' Hv Hr]; [done|]. destruct (isLowSurrogate v) eqn:Ev; [|done].
    constructor; [unfold isHighSurrogate, isLowSurrogate in *; lia|].
    by apply (IH (length r')); [simpl in Hn; lia|..].
  - destruct (isLowSurrogate u) eqn:El; [done|].
    constructor; [unfold isHighSurrogate, isLowSurrogate in *; lia|].
    by apply (IH (length r)); [simpl in Hn; lia|..].
Qed.

(** Text that the durable schemas accept is well-formed Unicode: every
    code point is a scalar value and none is a control character other than
    tab and line feed, its UTF-8 length is within the bound of the schema and
    its number of code points within the declared range. *)
Theorem canonicalStoredText_wellformed options value :
  canonicalStoredText options value = true -> Forall isUnit16 value ->
  Forall (fun c => (0 <= c < 0xd800 \/ 0xdfff < c <= 0x10ffff) /\
                   (c < 0x20 -> c = 0x09 \/ c = 0x0a) /\ ~ (0x7f <= c <= 0x9f)) (codePoints value) /\
  byteLength value <= maximumBytes options /\
  (forall m, minimumScalars options = Some m -> m <= Z.of_nat (length (codePoints value))) /\
  (forall m, maximumScalars options = Some m -> Z.of_nat (length (codePoints value)) <= m).
Proof.
  unfold canonicalStoredText. intros H Hu. returns.
  assert (Hc : forall c, c ∈ codePoints value -> isForbiddenControl c = false).
  { intros c Hc. apply not_true_iff_false. intros Hf.
    match goal with H : containsForbiddenControl _ = false |- _ =>
      apply not_true_iff_false in H; apply H, existsb_exists end.
    exists c. by rewrite <-list_elem_of_In. }
  split_and!; [|lia|intros m Hm; rewrite Hm in *; lia..].
  eapply list.Forall_forall. intros c Hin. specialize (Hc c Hin).
  assert (Hsc : Forall (fun c => 0 <= c < 0xd800 \/ 0xdfff < c <= 0x10ffff) (codePoints value))
    by by apply codePoints_scalar.
  rewrite list.Forall_forall in Hsc. specialize (Hsc c Hin).
  unfold isForbiddenControl in Hc. split; [done|]. lia.
Qed.

Lemma canonicalStoredText_wellformed_witness :
  planTitleSchema (js "Fix the parser") = true /\ byteLength (js "Fix the parser") <= 800.
Proof.
  split; [vm_compute; reflexivity|].
  refine (proj1 (proj2 (canonicalStoredText_wellformed
    {| maximumBytes := 800; maximumScalars := Some 200; minimumScalars := Some 1; nonblank := true |}
    (js "Fix the parser") _ (js_units _)))). vm_compute. reflexivity.
Defined.
