(* ===== verification/CanonicalJsonFacts.v ===== *)
(** * Canonical JSON text determines its value

    The serialiser of [CanonicalJson.v] factors as [printCanon] after
    [canon], the value with its undefined properties dropped and its keys
    sorted; [printCanon] can be undone.  Equal canonical texts, and so equal
    digests under a collision-free hash, mean equal values. *)

From S2P Require Import Prelude JsString CanonicalJson Domain.
From stdpp Require Import pretty sorting.
#[local] Open Scope Z_scope.

(** ** Strings: a decoder of the quoted form *)

Definition hexVal (u : Z) : Z := if u <? 0x3a then u - 0x30 else u - 0x61 + 10.

Definition unescape (e : Z) : Z :=
  if e =? 0x62 then 0x08 else if e =? 0x66 then 0x0c else if e =? 0x6e then 0x0a
  else if e =? 0x72 then 0x0d else if e =? 0x74 then 0x09 else e.

(** The string up to the closing quote, and the text after it. *)
Fixpoint unquoteUnits (t : jstring) : option (jstring * jstring) :=
  match t with
  | [] => None
  | u :: r =>
      if u =? 0x22 then Some ([], r)
      else if u =? 0x5c then
        match r with
        | [] => None
        | e :: r1 =>
            if e =? 0x75 then
              match r1 with
              | a :: b :: c :: d :: r2 =>
                  '(s, k) ← unquoteUnits r2;
                  Some (4096 * hexVal a + 256 * hexVal b + 16 * hexVal c + hexVal d :: s, k)
              | _ => None
              end
            else '(s, k) ← unquoteUnits r1; Some (unescape e :: s, k)
        end
      else '(s, k) ← unquoteUnits r; Some (u :: s, k)
  end.

Lemma hexVal_hexDigit d : 0 <= d < 16 -> hexVal (hexDigit d) = d.
Proof. intros. unfold hexVal, hexDigit. repeat case_match; lia. Qed.

Lemma unquote_unicodeEscape u t :
  isUnit16 u ->
  unquoteUnits (unicodeEscape u ++ t) = '(s, k) ← unquoteUnits t; Some (u :: s, k).
Proof.
  intros Hu. unfold unicodeEscape, isUnit16 in *. cbn [app unquoteUnits].
  rewrite !hexVal_hexDigit by (apply Z.mod_pos_bound; lia). cbn.
  replace (4096 * ((u / 4096) mod 16) + 256 * ((u / 256) mod 16) + 16 * ((u / 16) mod 16) + u mod 16)
    with u by (Z.to_euclidean_division_equations; lia).
  done.
Qed.

(** A unit that is not a surrogate. *)
Lemma unquote_quoteUnit u t :
  isUnit16 u -> unquoteUnits (quoteUnit u ++ t) = '(s, k) ← unquoteUnits t; Some (u :: s, k).
Proof.
  intros Hu. unfold quoteUnit.
  repeat match goal with |- context [u =? ?c] => destruct (Z.eqb_spec u c); [by subst|] end.
  destruct (u <? 0x20); [by apply unquote_unicodeEscape|]. simpl.
  by rewrite !(proj2 (Z.eqb_neq _ _)) by done.
Qed.

Lemma unquote_raw u t :
  isHighSurrogate u = true \/ isLowSurrogate u = true ->
  unquoteUnits (u :: t) = '(s, k) ← unquoteUnits t; Some (u :: s, k).
Proof.
  unfold isHighSurrogate, isLowSurrogate. intros Hu. simpl.
  by rewrite !(proj2 (Z.eqb_neq _ _)) by lia.
Qed.

Lemma unquote_quoteUnits s k :
  Forall isUnit16 s -> unquoteUnits (quoteUnits s ++ 0x22 :: k) = Some (s, k).
Proof.
  remember (length s) as n eqn:Hn. revert s Hn.
  induction n as [n IH] using lt_wf_ind. intros s Hn Hs. destruct Hs as [|u r Hu Hr]; [done|].
  assert (IH1 : unquoteUnits (quoteUnits r ++ 0x22 :: k) = Some (r, k))
    by (eapply IH; [|reflexivity|done]; simpl in Hn; lia).
  cbn [quoteUnits]. destruct (isHighSurrogate u) eqn:Eu.
  - destruct r as [|v r']; [by rewrite unquote_unicodeEscape by done|].
    destruct (isLowSurrogate v) eqn:Ev.
    + rewrite <-!app_comm_cons, !unquote_raw by auto. inversion_clear Hr.
      rewrite (IH (length r')); [done|simpl in Hn; lia|done|done].
    + by rewrite <-app_assoc, unquote_unicodeEscape, IH1 by done.
  - destruct (isLowSurrogate u).
    + by rewrite <-app_assoc, unquote_unicodeEscape, IH1 by done.
    + by rewrite <-app_assoc, unquote_quoteUnit, IH1 by done.
Qed.

Lemma stringifyString_inj s s' k k' :
  Forall isUnit16 s -> Forall isUnit16 s' ->
  stringifyString s ++ k = stringifyString s' ++ k' -> s = s' /\ k = k'.
Proof.
  intros Hs Hs' H. unfold stringifyString in H. simpl in H. injection H as H.
  rewrite <-!app_assoc in H. simpl in H.
  pose proof (unquote_quoteUnits s k Hs) as E. rewrite H, unquote_quoteUnits in E by done.
  by injection E as -> ->.
Qed.

(** ** Numbers *)

Definition numeric (u : Z) : Prop := u = 0x2d \/ 0x30 <= u <= 0x39.

Lemma pretty_N_go_numeric n s : Forall numeric (js s) -> Forall numeric (js (pretty_N_go n s)).
Proof.
  revert s. induction n as [n IH] using (well_founded_induction N.lt_wf_0). intros s Hs.
  destruct (decide (n = 0%N)) as [->|Hn]; [by rewrite pretty_N_go_0|].
  rewrite pretty_N_go_step by lia. apply IH; [apply N.div_lt; lia|].
  constructor; [|done]. unfold pretty_N_char. right.
  assert (Hlt : (n `mod` 10 < 10)%N) by by apply N.mod_lt.
  repeat case_match; simpl; lia.
Qed.

Lemma stringifyNumber_numeric n : Forall numeric (stringifyNumber n).
Proof.
  assert (Hp : forall p : positive, Forall numeric (js (pretty p))).
  { intros p. unfold pretty, pretty_positive, pretty, pretty_N. simpl.
    apply pretty_N_go_numeric. constructor. }
  unfold stringifyNumber. destruct n as [|p|p]; unfold pretty, pretty_Z.
  - constructor; [right; simpl; lia|constructor].
  - apply Hp.
  - rewrite js_app. constructor; [by left|apply Hp].
Qed.

(** What may follow a value in a canonical text. *)
Definition delimited (k : jstring) : Prop :=
  match k with [] => True | u :: _ => u = comma \/ u = 0x5d \/ u = 0x7d end.

Lemma numeric_prefix a b k k' :
  Forall numeric a -> Forall numeric b -> delimited k -> delimited k' ->
  a ++ k = b ++ k' -> a = b /\ k = k'.
Proof.
  unfold numeric, delimited, comma. intros Ha Hb Hk Hk'. revert b Hb.
  induction Ha as [|x a Hx Ha IH]; intros b Hb H; destruct Hb as [|y b Hy Hb]; simpl in H.
  - done.
  - subst k. simpl in Hk. lia.
  - subst k'. simpl in Hk'. lia.
  - injection H as <- H. by destruct (IH b Hb H) as [-> ->].
Qed.

Lemma stringifyNumber_inj n m k k' :
  delimited k -> delimited k' -> stringifyNumber n ++ k = stringifyNumber m ++ k' -> n = m /\ k = k'.
Proof.
  intros Hk Hk' H. apply numeric_prefix in H as [H ->]; [|apply stringifyNumber_numeric..|done|done].
  split; [|done]. by apply js_inj, (inj pretty) in H.
Qed.

Lemma pretty_N_go_nil n s : pretty_N_go n s = "" -> s = "".
Proof.
  revert s. induction n as [n IH] using (well_founded_induction N.lt_wf_0). intros s.
  destruct (decide (n = 0%N)) as [->|Hn]; [by rewrite pretty_N_go_0|].
  rewrite pretty_N_go_step by lia. intros H%IH; [done|apply N.div_lt; lia].
Qed.

Lemma stringifyNumber_head n : exists u r, stringifyNumber n = u :: r /\ numeric u.
Proof.
  pose proof (stringifyNumber_numeric n) as H. destruct (stringifyNumber n) as [|u r] eqn:E.
  - change (js (pretty n) = js "") in E. apply js_inj in E.
    destruct n as [|p|p]; [done| |done]. exfalso.
    change (pretty_N_go (N.pos p) "" = "") in E.
    rewrite pretty_N_go_step in E by lia. by apply pretty_N_go_nil in E.
  - inversion H. eauto.
Qed.

(** ** Normal forms *)

(** Induction through arrays and objects. *)
Fixpoint json_nested_ind (P : json -> Prop)
    (HU : P JUndefined) (HN : P JNull) (HB : forall b, P (JBool b)) (HZ : forall n, P (JNum n))
    (HS : forall s, P (JStr s)) (HA : forall l, Forall P l -> P (JArr l))
    (HO : forall r, Forall (fun kv => P kv.2) r -> P (JObj r)) (v : json) : P v :=
  let ind := json_nested_ind P HU HN HB HZ HS HA HO in
  match v with
  | JUndefined => HU
  | JNull => HN
  | JBool b => HB b
  | JNum n => HZ n
  | JStr s => HS s
  | JArr l => HA l ((fix go l : Forall P l :=
      match l with [] => List.Forall_nil _ | x :: l => @List.Forall_cons _ P x l (ind x) (go l) end) l)
  | JObj r => HO r ((fix go r : Forall (fun kv => P kv.2) r :=
      match r with [] => List.Forall_nil _ | x :: r => @List.Forall_cons _ (fun kv => P kv.2) x r (ind x.2) (go r) end) r)
  end.

(** Undefined properties dropped, keys sorted, at every level. *)
Fixpoint canon (v : json) : json :=
  match v with
  | JArr l => JArr (List.map canon l)
  | JObj r => JObj (js_sort key_le
      (List.filter (fun kv => negb (isUndefined kv.2)) (List.map (fun '(k, v) => (k, canon v)) r)))
  | v => v
  end.

Fixpoint printCanon (v : json) : jstring :=
  match v with
  | JUndefined => []
  | JNull => js "null"
  | JBool b => js (if b then "true" else "false")
  | JNum n => stringifyNumber n
  | JStr s => stringifyString s
  | JArr l => 0x5b :: joinUnit comma (List.map printCanon l) ++ [0x5d]
  | JObj r => 0x7b :: joinUnit comma (List.map (fun '(k, v) => fieldText (k, printCanon v)) r) ++ [0x7d]
  end.

(** Sorting by key commutes with a change of the values. *)
Section SortMap.
Context {A B : Type} (f : A -> B).
Let g (x : jstring * A) : jstring * B := (x.1, f x.2).

Lemma js_sort_map (l : list (jstring * A)) : js_sort key_le (g <$> l) = g <$> js_sort key_le l.
Proof.
  induction l as [|x l IH]; cbn [js_sort foldr fmap list_fmap]; [done|].
  change (foldr (sort_insert key_le) [] (g <$> l)) with (js_sort key_le (g <$> l)). rewrite IH.
  change (foldr (sort_insert key_le) [] l) with (js_sort key_le l). clear IH. induction (js_sort key_le l) as [|y k IH]; [done|].
  cbn [sort_insert fmap list_fmap]. rewrite IH. repeat case_decide; done.
Qed.
End SortMap.

Lemma canon_undefined v : isUndefined (canon v) = isUndefined v.
Proof. by destruct v. Qed.

Lemma keepFields_spec (fields : list (jstring * json * result encode_error jstring)) acc out :
  foldM (fun acc '(k, v, r) =>
           if isUndefined v then Ok acc
           else match r with Ok t => Ok (acc ++ [(k, t)]) | Err e => Err e end) fields acc = Ok out ->
  exists ts, out = acc ++ ts /\
    Forall2 (fun kvr kt => kvr.1.1 = kt.1 /\ kvr.2 = Ok kt.2)
      (List.filter (fun kvr => negb (isUndefined kvr.1.2)) fields) ts.
Proof.
  revert acc. induction fields as [|[[k v] r] fields IH]; intros acc H; simpl in *.
  - simplify_eq. exists []. by rewrite app_nil_r.
  - destruct (isUndefined v); simpl; [by apply IH|]. destruct r as [t|]; [|done].
    apply IH in H as (ts & -> & H). exists ((k, t) :: ts). rewrite <-app_assoc. split; [done|].
    by constructor.
Qed.

(** The serialiser is the printer of the normal form. *)
Lemma canonicalJson_canon v t : canonicalJson v = Ok t -> t = printCanon (canon v).
Proof.
  revert t. induction v as [| | | | |l IH|r IH] using json_nested_ind; intros t H; simpl in H;
    try done; try (by injection H as <-).
  - apply bind_ok in H as (texts & Htexts & H). injection H as <-. simpl. f_equal. f_equal. f_equal.
    revert texts Htexts. induction IH as [|x l Hx IH IHl]; intros texts H; simpl in *; [congruence|].
    apply bind_ok in H as (t & Ht & H). apply bind_ok in H as (ts & Hts & H). injection H as <-.
    by rewrite (Hx t Ht), (IHl ts Hts).
  - apply bind_ok in H as (fields & Hf & H). injection H as <-.
    apply keepFields_spec in Hf as (ts & -> & Hts). simpl. do 2 f_equal.
    assert (ts = (fun kv : jstring * json => (kv.1, printCanon kv.2)) <$>
      List.filter (A:=jstring * json) (fun kv => negb (isUndefined kv.2)) (List.map (fun '(k, v) => (k, canon v)) r)) as ->.
    { revert ts Hts. induction IH as [|[k v] r Hx IH IHr]; intros ts H; simpl in *; [by inversion H|].
      rewrite canon_undefined. destruct (isUndefined v); simpl in *; [by apply IHr|].
      inversion H as [|? [k' t] ? ts' [? ?] Hr]; simplify_eq/=. by rewrite (Hx t), (IHr ts'). }
    rewrite js_sort_map. f_equal.
    match goal with |- context [js_sort key_le ?l] => induction (js_sort key_le l) as [|[k v] q IHq] end;
      [done|]. simpl. by rewrite <-IHq.
Qed.

(** ** The printer is injective *)

(** No absent value, and strings of UTF-16 units. *)
Fixpoint clean (v : json) : Prop :=
  match v with
  | JUndefined => False
  | JNull | JBool _ | JNum _ => True
  | JStr s => Forall isUnit16 s
  | JArr l => fold_right (fun v P => clean v /\ P) True l
  | JObj r => fold_right (fun '(k, v) P => (Forall isUnit16 k /\ clean v) /\ P) True r
  end.

Lemma clean_JArr l : clean (JArr l) <-> Forall clean l.
Proof. simpl. induction l as [|v l IH]; simpl; [by split|]. by rewrite Forall_cons, IH. Qed.

Lemma clean_JObj r : clean (JObj r) <-> Forall (fun kv => Forall isUnit16 kv.1 /\ clean kv.2) r.
Proof. simpl. induction r as [|[k v] r IH]; simpl; [by split|]. by rewrite Forall_cons, IH. Qed.

(** The text of a value does not start with a delimiter. *)
Lemma printCanon_head v : clean v -> exists u r, printCanon v = u :: r /\ u <> comma /\ u <> 0x5d /\ u <> 0x7d /\
  match v with
  | JUndefined => False | JNull => u = 0x6e | JBool true => u = 0x74 | JBool false => u = 0x66
  | JNum _ => numeric u | JStr _ => u = 0x22 | JArr _ => u = 0x5b | JObj _ => u = 0x7b
  end.
Proof.
  intros Hc. assert (Hlit : forall u r (P : Z -> Prop), P u -> u <> comma -> u <> 0x5d -> u <> 0x7d ->
    exists u' r', u :: r = u' :: r' /\ u' <> comma /\ u' <> 0x5d /\ u' <> 0x7d /\ P u') by eauto 10.
  destruct v as [| |[]|n|s|l|r]; [done| | | | | | |].
  - by apply (Hlit 0x6e _ (fun u => u = 0x6e)).
  - by apply (Hlit 0x74 _ (fun u => u = 0x74)).
  - by apply (Hlit 0x66 _ (fun u => u = 0x66)).
  - cbn [printCanon]. destruct (stringifyNumber_head n) as (u & k & -> & Hu). exists u, k. split; [done|].
    unfold numeric, comma in *. split_and!; lia.
  - by apply (Hlit 0x22 _ (fun u => u = 0x22)).
  - by apply (Hlit 0x5b _ (fun u => u = 0x5b)).
  - by apply (Hlit 0x7b _ (fun u => u = 0x7b)).
Qed.

(** Comma-separated texts followed by a closing bracket. *)
Section Separated.
Context {A : Type} (print : A -> jstring) (good : A -> Prop) (close : Z).
Hypothesis close_delimits : close = 0x5d \/ close = 0x7d.
Hypothesis print_head : forall a, good a -> exists u r, print a = u :: r /\ u <> close.

Definition print_decodes (a : A) : Prop :=
  forall b k k', good b -> delimited k -> delimited k' -> print a ++ k = print b ++ k' -> a = b /\ k = k'.

Lemma joinUnit_cons a l k :
  joinUnit comma (print a :: List.map print l) ++ close :: k =
  print a ++ match l with [] => close :: k
             | _ => comma :: joinUnit comma (List.map print l) ++ close :: k end.
Proof. destruct l; simpl; [done|]. by rewrite <-app_assoc. Qed.

Lemma separated_inj l l' k k' :
  Forall good l -> Forall print_decodes l -> Forall good l' ->
  joinUnit comma (List.map print l) ++ close :: k = joinUnit comma (List.map print l') ++ close :: k' ->
  l = l' /\ k = k'.
Proof.
  intros Hl Hd. revert l'. induction Hd as [|a l Ha Hd IH]; intros l' Hl' H; destruct l' as [|b l'].
  - simpl in H. by simplify_eq.
  - inversion_clear Hl'. cbn [List.map] in H. rewrite joinUnit_cons in H.
    destruct (print_head b) as (u & r & Hb & Hu); [done|]. rewrite Hb in H. simpl in H. congruence.
  - inversion_clear Hl. cbn [List.map] in H. rewrite joinUnit_cons in H.
    destruct (print_head a) as (u & r & Hb & Hu); [done|]. rewrite Hb in H. simpl in H. congruence.
  - inversion_clear Hl. inversion_clear Hl'. cbn [List.map] in H. rewrite !joinUnit_cons in H.
    assert (Hdel : forall (q : list A) x, delimited (match q with [] => close :: k
      | _ => comma :: x end)) by (intros [|] ?; simpl; unfold comma; intuition).
    assert (Hdel' : forall (q : list A) x, delimited (match q with [] => close :: k'
      | _ => comma :: x end)) by (intros [|] ?; simpl; unfold comma; intuition).
    apply Ha in H as [-> H]; [|done|apply Hdel|apply Hdel'].
    destruct l as [|x l], l' as [|y l']; simplify_eq.
    + done.
    + unfold comma in *. lia.
    + unfold comma in *. lia.
    + by destruct (IH ltac:(done) (y :: l') ltac:(done) H) as [-> ->].
Qed.
End Separated.

(** Two texts that start alike are of the same kind of value. *)
Lemma printCanon_kind v w k k' :
  clean v -> clean w -> printCanon v ++ k = printCanon w ++ k' ->
  match v, w with
  | JNull, JNull | JNum _, JNum _ | JStr _, JStr _ | JArr _, JArr _ | JObj _, JObj _ => True
  | JBool a, JBool b => a = b
  | _, _ => False
  end.
Proof.
  intros Hv Hw H.
  destruct (printCanon_head v Hv) as (u & r & Ev & _ & _ & _ & Hu).
  destruct (printCanon_head w Hw) as (u' & r' & Ew & _ & _ & _ & Hu').
  rewrite Ev, Ew in H. simpl in H. injection H as <- _. unfold numeric in *.
  destruct v as [| |[]| | | |], w as [| |[]| | | |]; try done; lia.
Qed.

Lemma printCanon_decodes v : clean v -> print_decodes printCanon clean v.
Proof.
  induction v as [| |b|n|s|l IH|r IH] using json_nested_ind; intros Hv w k k' Hw Hk Hk' H;
    pose proof (printCanon_kind _ _ _ _ Hv Hw H) as Hkind; destruct w as [| |b'|n'|s'|l'|r']; try done.
  - by apply app_inv_head in H.
  - subst b'. by apply app_inv_head in H.
  - by apply stringifyNumber_inj in H as [-> ->].
  - by apply stringifyString_inj in H as [-> ->].
  - cbn [printCanon app] in H. injection H as H. rewrite <-!app_assoc in H.
    apply clean_JArr in Hv, Hw.
    destruct (separated_inj printCanon clean 0x5d (or_introl eq_refl)
      (fun a Ha => let '(ex_intro _ u (ex_intro _ r (conj E (conj _ (conj N _))))) := printCanon_head a Ha in
                   ex_intro _ u (ex_intro _ r (conj E N))) l l' k k' Hv) as [-> ->]; try done.
    rewrite Forall_forall in *. eauto.
  - cbn [printCanon app] in H. injection H as H. rewrite <-!app_assoc in H.
    apply clean_JObj in Hv, Hw.
    assert (Hmap : forall q : list (jstring * json), List.map (fun '(k, v) => fieldText (k, printCanon v)) q =
      List.map (fun kv => fieldText (kv.1, printCanon kv.2)) q) by (intros; apply List.map_ext; by intros []).
    rewrite !Hmap in H.
    destruct (separated_inj (fun kv : jstring * json => fieldText (kv.1, printCanon kv.2))
      (fun kv => Forall isUnit16 kv.1 /\ clean kv.2) 0x7d (or_intror eq_refl)) with (l := r) (l' := r')
      (k := k) (k' := k') as [-> ->]; try done.
    + intros [x v] _. unfold fieldText, stringifyString. simpl. do 2 eexists. split; [reflexivity|lia].
    + rewrite Forall_forall in *. intros [x v] Hin. destruct (Hv _ Hin) as [Hx Hcv]. simpl in *.
      intros [y w] q q' [Hy Hcw] Hq Hq' E. unfold fieldText in E. cbn [fst snd] in *. rewrite <-!app_assoc in E.
      apply stringifyString_inj in E as [-> E]; [|done|done]. cbn [app] in E. injection E as E.
      destruct (IH _ Hin Hcv w q q' Hcw Hq Hq' E) as [E1 ->]. simpl in E1. by subst.
Qed.

Lemma printCanon_inj v w : clean v -> clean w -> printCanon v = printCanon w -> v = w.
Proof.
  intros Hv Hw H. apply (printCanon_decodes v Hv w [] []); [done..|]. by rewrite !app_nil_r.
Qed.

(** ** Encodable values *)

(** The strings of a value are UTF-16. *)
Fixpoint units16 (v : json) : Prop :=
  match v with
  | JUndefined | JNull | JBool _ | JNum _ => True
  | JStr s => Forall isUnit16 s
  | JArr l => fold_right (fun v P => units16 v /\ P) True l
  | JObj r => fold_right (fun '(k, v) P => (Forall isUnit16 k /\ units16 v) /\ P) True r
  end.

Lemma canonicalJson_clean v t : canonicalJson v = Ok t -> units16 v -> clean (canon v).
Proof.
  revert t. induction v as [| | | | |l IH|r IH] using json_nested_ind; intros t H Hu; simpl in H; try done.
  - apply bind_ok in H as (texts & Htexts & _). apply clean_JArr. simpl in Hu.
    revert texts Htexts Hu. induction IH as [|x l Hx IH IHl]; intros texts H Hu; simpl in *; [constructor|].
    apply bind_ok in H as (t1 & Ht & H). apply bind_ok in H as (ts & Hts & H).
    destruct Hu as [Hu Hul]. constructor; [by eapply Hx|]. by eapply IHl.
  - apply bind_ok in H as (fields & Hf & _). apply keepFields_spec in Hf as (ts & _ & Hts).
    cbn [canon]. apply clean_JObj. rewrite (js_sort_Permutation key_le). simpl in Hu. clear t fields.
    revert ts Hts Hu. induction IH as [|[k v] r Hx IH IHr]; intros ts H Hu; simpl in *; [constructor|].
    rewrite canon_undefined. destruct Hu as [[Hk Hv] Hu].
    destruct (isUndefined v); simpl in *; [by eapply IHr|].
    inversion H as [|? [k' t] ? ts' [? ?] Hr]; simplify_eq/=. constructor; [|by eapply IHr].
    split; [done|]. by eapply Hx.
Qed.

(** ** Plan contents are bound by their digest *)

Lemma canonicalJson_injective v w t :
  canonicalJson v = Ok t -> canonicalJson w = Ok t -> units16 v -> units16 w -> canon v = canon w.
Proof.
  intros Hv Hw Uv Uw. apply printCanon_inj; [by eapply canonicalJson_clean..|].
  by rewrite <-(canonicalJson_canon _ _ Hv), <-(canonicalJson_canon _ _ Hw).
Qed.

(** Texts of a plan revision are UTF-16 strings. *)
Definition plan_units16 (c : PlanRevisionContent) : Prop :=
  Forall isUnit16 (pc_title c) /\
  Forall (fun i => Forall isUnit16 (pi_title i) /\ Forall isUnit16 (pi_acceptance i)) (pc_items c).

Lemma canon_planItem a i r t :
  let v := JObj [field "acceptance" (JStr a); field "id" (JStr i); field "required" (JBool r);
                 field "title" (JStr t)] in canon v = v.
Proof. vm_compute. reflexivity. Qed.

Lemma canon_planContent g gr l p r t :
  canon (JObj [field "goalId" (JStr g); field "goalRevision" (JNum gr); field "items" (JArr l);
    field "planId" (JStr p); field "revision" (JNum r); field "schemaVersion" (JNum 1);
    field "title" (JStr t)]) =
  JObj [field "goalId" (JStr g); field "goalRevision" (JNum gr); field "items" (JArr (List.map canon l));
    field "planId" (JStr p); field "revision" (JNum r); field "schemaVersion" (JNum 1);
    field "title" (JStr t)].
Proof. vm_compute. reflexivity. Qed.

Lemma planContentJson_canon c : canon (planContentJson c) = planContentJson c.
Proof.
  assert (E : List.map canon (planItemJson <$> pc_items c) = planItemJson <$> pc_items c).
  { induction (pc_items c) as [|i l IH]; [done|]. cbn [fmap list_fmap List.map]. rewrite IH.
    unfold planItemJson at 1, jid. by rewrite canon_planItem. }
  unfold planContentJson, jid. by rewrite canon_planContent, E.
Qed.

Lemma planContentJson_units16 c : plan_units16 c -> units16 (planContentJson c).
Proof.
  intros [Ht Hi]. unfold planContentJson, field, jid. cbn [units16 fold_right].
  repeat (split; [split; [apply js_units|]|]); try done; try apply js_units.
  induction Hi as [|i l [? ?] Hi IH]; [done|]. cbn [fmap list_fmap fold_right].
  split; [|done]. unfold planItemJson, field, jid. cbn [units16 fold_right].
  repeat (split; [split; [apply js_units|]|]); try done; apply js_units.
Qed.

#[export] Instance planItemJson_inj : Inj (=) (=) planItemJson.
Proof.
  intros i j. destruct i, j. unfold planItemJson. simpl. intros H. injection H as -> Hid -> ->.
  by rewrite (js_inj _ _ Hid).
Qed.

Lemma planContentJson_inj c d : planContentJson c = planContentJson d -> c = d.
Proof.
  destruct c as [g gr i p r t], d as [g' gr' i' p' r' t']. unfold planContentJson. simpl. intros H.
  injection H as Hg -> Hi Hp -> ->. rewrite (js_inj _ _ Hg), (js_inj _ _ Hp). f_equal.
  by apply (inj (fmap planItemJson)) in Hi.
Qed.

(** A digest without collisions names one plan content. *)
Lemma plan_digest_binds sha256 c d h :
  (forall s t, sha256 s = sha256 t -> s = t) -> plan_units16 c -> plan_units16 d ->
  sha256Canonical sha256 (planContentJson c) = Ok h ->
  sha256Canonical sha256 (planContentJson d) = Ok h -> c = d.
Proof.
  intros Hinj Hc Hd H1 H2. unfold sha256Canonical in *.
  apply bind_ok in H1 as (t & Ht & H1). apply bind_ok in H2 as (u & Hu & H2).
  assert (t = u) as <- by (apply Hinj; congruence).
  apply planContentJson_inj. rewrite <-(planContentJson_canon c), <-(planContentJson_canon d).
  eapply canonicalJson_injective; eauto using planContentJson_units16.
Qed.

(** Canonical JSON is a normal form: two encodable values have the same
    canonical text exactly when they are equal up to the order of object keys
    and absent properties. *)
Theorem canonicalJson_normal_form v w t u :
  canonicalJson v = Ok t -> canonicalJson w = Ok u -> units16 v -> units16 w ->
  t = u <-> canon v = canon w.
Proof.
  intros Hv Hw Uv Uw. split; intros H.
  - subst u. by eapply canonicalJson_injective.
  - by rewrite (canonicalJson_canon _ _ Hv), (canonicalJson_canon _ _ Hw), H.
Qed.

Lemma canonicalJson_normal_form_witness :
  let v := JObj [(js "b", JNum 2); (js "a", JArr [JNull]); (js "x", JUndefined)] in
  let w := JObj [(js "a", JArr [JNull]); (js "b", JNum 2)] in
  exists t, canonicalJson v = Ok t /\ canonicalJson w = Ok t /\ canon v = canon w.
Proof.
  eexists. split; [vm_compute; reflexivity|]. split; [vm_compute; reflexivity|].
  refine (proj1 (canonicalJson_normal_form _ _ _ _ _ _ _ _) eq_refl); try (vm_compute; reflexivity).
  - repeat (split; [split; [apply js_units|]|]); try done.
  - repeat (split; [split; [apply js_units|]|]); try done.
Defined.
