(* ===== verification/Events.v ===== *)
(** * Stored events

    The decoded session log ([src/events/event-decoder-registry.ts]): an
    envelope, a scope and a typed payload.  A payload keeps the fields that
    some modelled component reads; an event type that none of them reads is
    [RunOther]/[SessionOther] with its type name. *)

From S2P Require Import Prelude JsString Domain.
#[local] Open Scope Z_scope.

(** ** Origins of a mutation *)

Record AgentOrigin : Type := {
  ao_call_id : string;
  ao_mutation_id : string;
  ao_run_id : string;
}.

Record TaskGraphProgressOrigin : Type := {
  tgo_graph_id : string;
  tgo_graph_revision : Z;
  tgo_graph_sha256 : string;
}.

(** [planMutationOriginSchema]: a person at a surface, or the agent. *)
Inductive PlanMutationOrigin : Type :=
| ByUser (input_surface : string)
| ByAgent (origin : AgentOrigin).

(** The origins a progress event can have. *)
Inductive ProgressOrigin : Type :=
| ProgressByAgent (origin : AgentOrigin)
| ProgressByTaskGraph (origin : TaskGraphProgressOrigin).

(** ** Run-scoped payloads *)

(** A property of [run.started]'s untyped data; [None] is an absent property. *)
Inductive jsvalue : Type :=
| VNull
| VString (s : string)
| VInteger (n : Z)
| VOther.
#[export] Instance jsvalue_eq : EqDecision jsvalue.
Proof. solve_decision. Defined.

Record RunStartedRecord : Type := {
  rs_agent_mode : option jsvalue;
  rs_goal_id : option jsvalue;
  rs_goal_revision : option jsvalue;
  rs_plan_id : option jsvalue;
  rs_plan_revision : option jsvalue;
  rs_plan_sha256 : option jsvalue;
}.

Record ToolCallData : Type := {
  tc_call_id : string;
  tc_tool_name : string;
}.

Record CommandCompletedData : Type := {
  cc_execution_id : string;
  cc_cleanup_verified : bool;
  cc_exit_code : option Z;
  cc_termination : string;
}.

Record CancelRequestData : Type := {
  cr_target_run_id : string;
  cr_operation_id : string;
  cr_target_owner_generation_sha256 : string;
}.

(** [application_cancel_request] of [run.cancelled]. *)
Record CancelBinding : Type := {
  cb_request_event_id : string;
  cb_target_owner_generation_sha256 : string;
}.

Inductive RunData : Type :=
| RunStarted (data : RunStartedRecord)
| ToolCallRequested (data : ToolCallData)
| ResumePendingCallAdopted (data : ToolCallData)
| ToolCallCompleted (data : ToolCallData) (status : string)
| ToolCallRecovered (data : ToolCallData) (status : string) (source_run_id : string)
| ArtifactStored (origin_event_id : string)
| CommandExecutionRequested (execution_id : string)
| CommandStarted (execution_id : string)
| CommandCompleted (data : CommandCompletedData)
| CompletionEvaluated (effect : string) (call_id : string)
| McpServerStartRequested (server_id : string)
| McpServerStartEffectUnknown (server_id : string)
| McpServerStarted (server_id : string)
| McpServerStartFailed (server_id : string)
| McpServerStopped (server_id : string)
| McpToolCallStarted (call_id : string)
| McpToolCallCompleted (call_id : string) (status : string)
| McpToolCallEffectUnknown (call_id : string)
| PatchApplyStarted (plan_id : string)
| PatchApplyCompleted (plan_id : string)
| VerificationCompleted (status : string) (stale : bool)
| HookInvocationRequested (handler : string) (invocation_id : string)
| HookInvocationDecided (invocation_id : string)
| HookInvocationCompleted (invocation_id : string)
| HookInvocationFailed (effect_state : string) (invocation_id : string)
| RunCancelRequested (data : CancelRequestData)
| RunBudgetExceeded
| RunCancelled (application_cancel_request : option CancelBinding)
| RunCompleted
| RunFailed
| RunIncomplete
| RunOther (type : string).

(** ** Session-scoped payloads *)

Record GoalCreatedData : Type := {
  gcr_goal_id : string;
  gcr_objective : jstring;
  gcr_parent_goal_id : option string;
  gcr_replaces_active_goal : option (string * Z);   (* goal_id, revision *)
}.

Record GoalRevisedData : Type := {
  grv_base_revision : Z;
  grv_goal_id : string;
  grv_objective : jstring;
  grv_revision : Z;
}.

(** The discriminated union on [to]. *)
Inductive GoalStatusTarget : Type :=
| ToAbandoned (reason : jstring)
| ToCompleted (completion_evaluated_event_id : string) (finish_task_call_id : string).

Record GoalStatusChangedData : Type := {
  gsc_goal_id : string;
  gsc_revision : Z;
  gsc_to : GoalStatusTarget;
}.

Record PlanProposedData : Type := {
  pp_content : PlanRevisionContent;
  pp_origin : PlanMutationOrigin;
  pp_plan_sha256 : string;
}.

Record PlanRevisedData : Type := {
  pr_base_revision : Z;
  pr_base_sha256 : string;
  pr_content : PlanRevisionContent;
  pr_origin : PlanMutationOrigin;
  pr_plan_sha256 : string;
}.

(** The exact plan revision an event refers to. *)
Record PlanTarget : Type := {
  pt_goal_id : string;
  pt_goal_revision : Z;
  pt_plan_id : string;
  pt_plan_sha256 : string;
  pt_revision : Z;
}.

Record PlanItemStatusChangedData : Type := {
  pis_evidence_event_ids : list string;
  pis_from : PlanItemStatus;
  pis_item_id : string;
  pis_note : jstring;
  pis_origin : ProgressOrigin;
  pis_plan : PlanTarget;
  pis_to : PlanItemStatus;
}.

Record PlanCompletedData : Type := {
  pcd_completion_evaluated_event_id : string;
  pcd_finish_task_call_id : string;
  pcd_plan : PlanTarget;
}.

(** [graphRefFields] *)
Record GraphRef : Type := {
  gr_graph_id : string;
  gr_graph_revision : Z;
  gr_graph_sha256 : string;
}.
#[export] Instance GraphRef_eq : EqDecision GraphRef.
Proof. solve_decision. Defined.

Record ArtifactRef : Type := {
  ar_artifact_id : string;
  ar_bytes : Z;
  ar_object_ref : string;
  ar_sha256 : string;
}.

Record GraphRevisionData : Type := {
  grd_artifact : ArtifactRef;
  grd_binding : TaskGraphBinding;
  grd_content : TaskGraphRevisionContent;
}.

(** Budget counters, in the order of [TASK_BUDGET_COUNTERS]. *)
Record TaskBudgetCounters : Type := {
  bc_attempts : Z;
  bc_durationMs : Z;
  bc_modelSteps : Z;
  bc_commandExecutions : Z;
  bc_commandOutputBytes : Z;
  bc_changedFiles : Z;
  bc_changedBytes : Z;
  bc_artifactBytes : Z;
  bc_reportedTokens : option Z;
}.

Inductive UsageCompleteness : Type := usage_complete | usage_none | usage_partial.
#[export] Instance UsageCompleteness_eq : EqDecision UsageCompleteness.
Proof. solve_decision. Defined.

Inductive AttemptTerminal : Type :=
| t_succeeded | t_known_failed | t_cancelled_clean | t_blocked_unknown_effect
| t_blocked_reconciliation | t_pre_effect_infrastructure_failure.
#[export] Instance AttemptTerminal_eq : EqDecision AttemptTerminal.
Proof. solve_decision. Defined.

Inductive RetryOrigin : Type := retry_initial | retry_automatic | retry_user.
#[export] Instance RetryOrigin_eq : EqDecision RetryOrigin.
Proof. solve_decision. Defined.

Inductive GraphTerminalStatus : Type :=
| gt_completed | gt_blocked | gt_cancelled | gt_failed | gt_stale | gt_awaiting_integration.

Record AttemptRequestedData : Type := {
  arq_attempt_id : string;
  arq_attempt_number : Z;
  arq_node_id : string;
  arq_reservation : TaskBudgetCounters;
  arq_retry_origin : RetryOrigin;
  arq_workspace_binding : option string;   (* workspace_id of the binding *)
}.

Record AttemptTerminalData : Type := {
  atd_attempt_id : string;
  atd_budget : TaskBudgetCounters;
  atd_usage_completeness : UsageCompleteness;
  atd_node_id : string;
  atd_terminal : AttemptTerminal;
}.

Record RetryRequestedData : Type := {
  rrd_attempt_number : Z;
  rrd_node_id : string;
  rrd_terminal_event_id : string;
  rrd_previous_terminal : option AttemptTerminal;   (* absent in legacy events *)
}.

Inductive GraphEvent : Type :=
| GraphProposed (data : GraphRevisionData)
| GraphReplaced (base_revision : Z) (base_sha256 : string) (data : GraphRevisionData)
| GraphApproved (revision_event_id : string)
| GraphRejected (revision_event_id : string)
| GraphStale
| GraphEnqueued (enqueue_id : string) (requested_execution : string) (runtime_profile_id : string)
| GraphStarted (scheduler_lease_nonce_sha256 : string)
| GraphWaitingForUser (reason : string)
| GraphCancelRequested
| GraphTerminal (blocker_code : option string) (status : GraphTerminalStatus)
| SchedulerLeaseAcquired (lease_nonce_sha256 : string)
| SchedulerLeaseRecovered (previous_lease_nonce_sha256 : string)
| AttemptRequested (data : AttemptRequestedData)
| AttemptStarted (attempt_id node_id run_id scheduler_lease_nonce_sha256 : string)
| AttemptWaitingForUser (attempt_id node_id : string)
| AttemptTerminated (data : AttemptTerminalData)
| NodeRetryRequested (data : RetryRequestedData)
| NodeSkipped (node_id : string) (root_blocker_node_ids : list string)
| BudgetExhausted (counter : string) (node_id : option string).

Inductive SessionData : Type :=
| GoalCreated (data : GoalCreatedData)
| GoalRevised (data : GoalRevisedData)
| GoalStatusChanged (data : GoalStatusChangedData)
| PlanProposed (data : PlanProposedData)
| PlanRevised (data : PlanRevisedData)
| PlanApproved (data : PlanTarget)
| PlanRejected (data : PlanTarget) (reason : jstring)
| PlanItemStatusChanged (data : PlanItemStatusChangedData)
| PlanCompleted (data : PlanCompletedData)
| SideEffectReconciled (observed : string) (source_run_id : string)
| GraphEventData (target : GraphRef) (event : GraphEvent)
| SessionOther (type : string).

(** ** Envelopes *)

Inductive Scope : Type :=
| RunScope (runId : string) (runSeq : Z) (data : RunData)
| SessionScope (data : SessionData).

Record DecodedStoredEvent : Type := {
  eventId : string;
  sessionId : string;
  sessionSeq : Z;
  sourceSchemaVersion : Z;
  scope : Scope;
}.

(** [event.type] *)
Definition runDataType (d : RunData) : string :=
  match d with
  | RunStarted _ => "run.started"
  | ToolCallRequested _ => "tool.call.requested"
  | ResumePendingCallAdopted _ => "resume.pending_call.adopted"
  | ToolCallCompleted _ _ => "tool.call.completed"
  | ToolCallRecovered _ _ _ => "tool.call.recovered"
  | ArtifactStored _ => "artifact.stored"
  | CommandExecutionRequested _ => "command.execution.requested"
  | CommandStarted _ => "command.started"
  | CommandCompleted _ => "command.completed"
  | CompletionEvaluated _ _ => "completion.evaluated"
  | McpServerStartRequested _ => "mcp.server.start.requested"
  | McpServerStartEffectUnknown _ => "mcp.server.start.effect_unknown"
  | McpServerStarted _ => "mcp.server.started"
  | McpServerStartFailed _ => "mcp.server.start.failed"
  | McpServerStopped _ => "mcp.server.stopped"
  | McpToolCallStarted _ => "mcp.tool.call.started"
  | McpToolCallCompleted _ _ => "mcp.tool.call.completed"
  | McpToolCallEffectUnknown _ => "mcp.tool.call.effect_unknown"
  | PatchApplyStarted _ => "patch.apply.started"
  | PatchApplyCompleted _ => "patch.apply.completed"
  | VerificationCompleted _ _ => "verification.completed"
  | HookInvocationRequested _ _ => "hook.invocation.requested"
  | HookInvocationDecided _ => "hook.invocation.decided"
  | HookInvocationCompleted _ => "hook.invocation.completed"
  | HookInvocationFailed _ _ => "hook.invocation.failed"
  | RunCancelRequested _ => "run.cancel.requested"
  | RunBudgetExceeded => "run.budget_exceeded"
  | RunCancelled _ => "run.cancelled"
  | RunCompleted => "run.completed"
  | RunFailed => "run.failed"
  | RunIncomplete => "run.incomplete"
  | RunOther type => type
  end.

Definition graphEventType (g : GraphEvent) : string :=
  match g with
  | GraphProposed _ => "task_graph.proposed"
  | GraphReplaced _ _ _ => "task_graph.replaced"
  | GraphApproved _ => "task_graph.approved"
  | GraphRejected _ => "task_graph.rejected"
  | GraphStale => "task_graph.stale"
  | GraphEnqueued _ _ _ => "task_graph.enqueued"
  | GraphStarted _ => "task_graph.started"
  | GraphWaitingForUser _ => "task_graph.waiting_for_user"
  | GraphCancelRequested => "task_graph.cancel.requested"
  | GraphTerminal _ _ => "task_graph.terminal"
  | SchedulerLeaseAcquired _ => "task_scheduler.lease.acquired"
  | SchedulerLeaseRecovered _ => "task_scheduler.lease.recovered"
  | AttemptRequested _ => "task_node.attempt.requested"
  | AttemptStarted _ _ _ _ => "task_node.attempt.started"
  | AttemptWaitingForUser _ _ => "task_node.attempt.waiting_for_user"
  | AttemptTerminated _ => "task_node.attempt.terminal"
  | NodeRetryRequested _ => "task_node.retry.requested"
  | NodeSkipped _ _ => "task_node.skipped"
  | BudgetExhausted _ _ => "task_budget.exhausted"
  end.

Definition sessionDataType (d : SessionData) : string :=
  match d with
  | GoalCreated _ => "goal.created"
  | GoalRevised _ => "goal.revised"
  | GoalStatusChanged _ => "goal.status.changed"
  | PlanProposed _ => "plan.proposed"
  | PlanRevised _ => "plan.revised"
  | PlanApproved _ => "plan.approved"
  | PlanRejected _ _ => "plan.rejected"
  | PlanItemStatusChanged _ => "plan.item.status_changed"
  | PlanCompleted _ => "plan.completed"
  | SideEffectReconciled _ _ => "side_effect.reconciled"
  | GraphEventData _ g => graphEventType g
  | SessionOther type => type
  end.

Definition eventType (e : DecodedStoredEvent) : string :=
  match scope e with
  | RunScope _ _ d => runDataType d
  | SessionScope d => sessionDataType d
  end.

(** The run of a run-scoped event. *)
Definition eventRun (e : DecodedStoredEvent) : option string :=
  match scope e with RunScope r _ _ => Some r | SessionScope _ => None end.
