(* ===== verification/EventLog.v ===== *)
(** * The durable event log

    [assertDecodedStoredEventInvariants] of
    [src/events/event-decoder-registry.ts]: the check every reader runs over
    the decoded log before it projects it.  The definitions follow the loop;
    [log_wf] is the declarative description of an accepted log. *)

From S2P Require Import Prelude JsString Domain Events.
#[local] Open Scope Z_scope.

Inductive StoredEventDecodeErrorCode : Type :=
| duplicate_event_id | event_after_terminal | invalid_event | run_reopened | run_sequence
| run_started_required | session_mismatch | session_sequence | v1_after_v2.

(** The thrown error; its message is not modelled. *)
Record StoredEventDecodeError : Type := {
  sde_code : StoredEventDecodeErrorCode;
  sde_eventNumber : Z;
}.

(** [MutableRunInvariantState] *)
Record RunInvariantState : Type := {
  cancelRequest : option (string * CancelRequestData);   (* event id, data *)
  nextRunSeq : Z;
  terminal : bool;
}.

(** The variables of the loop. *)
Record LogState : Type := {
  ls_index : Z;
  ls_eventIds : gset string;
  ls_runs : gmap string RunInvariantState;
  ls_sessionId : option string;
  ls_currentRunId : option string;
  ls_sawV2 : bool;
}.

Definition log_init : LogState := {|
  ls_index := 0; ls_eventIds := ∅; ls_runs := ∅;
  ls_sessionId := None; ls_currentRunId := None; ls_sawV2 := false |}.

Definition isTerminalType (d : RunData) : bool :=
  match d with
  | RunBudgetExceeded | RunCancelled _ | RunCompleted | RunFailed | RunIncomplete => true
  | _ => false
  end.

Definition isRunStarted (d : RunData) : bool :=
  match d with RunStarted _ => true | _ => false end.

(** The two cancellation checks of an event of an open run; returns the
    cancel request recorded after the event. *)
Definition check_cancellation (eventNumber : Z) (eventId runId : string) (d : RunData)
    (state : RunInvariantState)
  : result StoredEventDecodeError (option (string * CancelRequestData)) :=
  match d with
  | RunCancelRequested data =>
      if (cr_target_run_id data !== runId) || (cr_operation_id data !== eventId) ||
         match cancelRequest state with Some _ => true | None => false end
      then Err {| sde_code := invalid_event; sde_eventNumber := eventNumber |}
      else Ok (Some (eventId, data))
  | RunCancelled binding =>
      match binding, cancelRequest state with
      | None, None => Ok None
      | Some b, Some (requestId, request) =>
          if (cb_request_event_id b !== requestId) ||
             (cb_target_owner_generation_sha256 b !== cr_target_owner_generation_sha256 request)
          then Err {| sde_code := invalid_event; sde_eventNumber := eventNumber |}
          else Ok (cancelRequest state)
      | _, _ => Err {| sde_code := invalid_event; sde_eventNumber := eventNumber |}
      end
  | _ => Ok (cancelRequest state)
  end.

(** The run-scoped half of the loop body. *)
Definition log_run_step (eventNumber : Z) (eventId runId : string) (runSeq : Z) (d : RunData)
    (runs : gmap string RunInvariantState) (currentRunId : option string)
  : result StoredEventDecodeError (gmap string RunInvariantState * option string) :=
  let fail code := {| sde_code := code; sde_eventNumber := eventNumber |} in
  match runs !! runId with
  | None =>
      _ ← throw_when (negb (isRunStarted d)) (fail run_started_required);
      _ ← throw_when (runSeq !== 1) (fail run_sequence);
      Ok (<[runId := {| cancelRequest := None; nextRunSeq := 2; terminal := isTerminalType d |}]> runs,
          Some runId)
  | Some state =>
      _ ← throw_when (Some runId !== currentRunId) (fail run_reopened);
      _ ← throw_when (terminal state) (fail event_after_terminal);
      _ ← throw_when (runSeq !== nextRunSeq state) (fail run_sequence);
      request ← check_cancellation eventNumber eventId runId d state;
      Ok (<[runId := {| cancelRequest := request; nextRunSeq := nextRunSeq state + 1;
                        terminal := isTerminalType d |}]> runs,
          currentRunId)
  end.

(** One iteration of the loop. *)
Definition log_step (st : LogState) (event : DecodedStoredEvent)
  : result StoredEventDecodeError LogState :=
  let eventNumber := ls_index st + 1 in
  let fail code := {| sde_code := code; sde_eventNumber := eventNumber |} in
  _ ← throw_when ((sourceSchemaVersion event === 1) && ls_sawV2 st) (fail v1_after_v2);
  let sawV2 := ls_sawV2 st || (sourceSchemaVersion event === 2) in
  _ ← throw_when (sessionSeq event !== eventNumber) (fail session_sequence);
  let session := match ls_sessionId st with Some s => s | None => sessionId event end in
  _ ← throw_when (sessionId event !== session) (fail session_mismatch);
  _ ← throw_when (bool_decide (eventId event ∈ ls_eventIds st)) (fail duplicate_event_id);
  '(runs, current) ←
    match scope event with
    | SessionScope _ => Ok (ls_runs st, ls_currentRunId st)
    | RunScope runId runSeq d =>
        log_run_step eventNumber (eventId event) runId runSeq d (ls_runs st) (ls_currentRunId st)
    end;
  Ok {| ls_index := eventNumber; ls_eventIds := {[eventId event]} ∪ ls_eventIds st;
        ls_runs := runs; ls_sessionId := Some session; ls_currentRunId := current;
        ls_sawV2 := sawV2 |}.

Definition run_log (events : list DecodedStoredEvent) : result StoredEventDecodeError LogState :=
  foldM log_step events log_init.

Definition assertDecodedStoredEventInvariants (events : list DecodedStoredEvent)
  : result StoredEventDecodeError () :=
  _ ← run_log events; Ok ().

(** ** What an accepted log is *)

(** The run-scoped events of a log: run, run sequence number, event id, data. *)
Definition runEvents (p : list DecodedStoredEvent) : list (string * (Z * string * RunData)) :=
  omap (fun e => match scope e with
                 | RunScope r n d => Some (r, (n, eventId e, d))
                 | SessionScope _ => None
                 end) p.

(** Those of run [r], in order. *)
Definition eventsOfRun (r : string) (p : list DecodedStoredEvent) : list (Z * string * RunData) :=
  snd <$> filter (fun x => x.1 = r) (runEvents p).

(** The last [run.cancel.requested] of a run's events. *)
Definition cancelRequestOf (l : list (Z * string * RunData)) : option (string * CancelRequestData) :=
  last (omap (fun '(_, i, d) => match d with RunCancelRequested c => Some (i, c) | _ => None end) l).

(** What a cancellation event must satisfy in run [r] after [l]. *)
Definition cancellation_ok (r i : string) (l : list (Z * string * RunData)) (d : RunData) : Prop :=
  match d with
  | RunCancelRequested c =>
      cr_target_run_id c = r /\ cr_operation_id c = i /\ cancelRequestOf l = None
  | RunCancelled None => cancelRequestOf l = None
  | RunCancelled (Some b) =>
      exists request, cancelRequestOf l = Some (cb_request_event_id b, request) /\
        cr_target_owner_generation_sha256 request = cb_target_owner_generation_sha256 b
  | _ => True
  end.

(** [e] may follow the log [p]. *)
Definition event_ok (p : list DecodedStoredEvent) (e : DecodedStoredEvent) : Prop :=
  sessionSeq e = Z.of_nat (length p) + 1 /\
  (forall e', e' ∈ p -> sessionId e' = sessionId e) /\
  (forall e', e' ∈ p -> eventId e' <> eventId e) /\
  (sourceSchemaVersion e = 1 -> forall e', e' ∈ p -> sourceSchemaVersion e' <> 2) /\
  match scope e with
  | SessionScope _ => True
  | RunScope r n d =>
      let l := eventsOfRun r p in
      if decide (l = [])
      then isRunStarted d = true /\ n = 1
      else fst <$> last (runEvents p) = Some r /\
           (forall x, x ∈ l -> isTerminalType x.2 = false) /\
           n = Z.of_nat (length l) + 1 /\
           cancellation_ok r (eventId e) l d
  end.

(** Every event may follow the events before it. *)
Definition log_wf (events : list DecodedStoredEvent) : Prop :=
  forall p e s, events = p ++ e :: s -> event_ok p e.

(** ** The loop state as a function of the log read so far *)

Definition run_inv (l : list (Z * string * RunData)) (o : option RunInvariantState) : Prop :=
  match o with
  | None => l = []
  | Some s => l <> [] /\ nextRunSeq s = Z.of_nat (length l) + 1 /\
              cancelRequest s = cancelRequestOf l /\
              (terminal s = false <-> forall x, x ∈ l -> isTerminalType x.2 = false)
  end.

Record log_inv (p : list DecodedStoredEvent) (st : LogState) : Prop := {
  li_index : ls_index st = Z.of_nat (length p);
  li_ids : forall i, i ∈ ls_eventIds st <-> exists e, e ∈ p /\ eventId e = i;
  li_session : match ls_sessionId st with
               | None => p = []
               | Some s => p <> [] /\ forall e, e ∈ p -> sessionId e = s
               end;
  li_v2 : ls_sawV2 st = true <-> exists e, e ∈ p /\ sourceSchemaVersion e = 2;
  li_current : ls_currentRunId st = fst <$> last (runEvents p);
  li_runs : forall r, run_inv (eventsOfRun r p) (ls_runs st !! r);
}.

Lemma runEvents_snoc p e :
  runEvents (p ++ [e]) =
  runEvents p ++ match scope e with
                 | RunScope r n d => [(r, (n, eventId e, d))]
                 | SessionScope _ => []
                 end.
Proof. unfold runEvents. rewrite omap_app. f_equal. simpl. by destruct (scope e). Qed.

Lemma eventsOfRun_snoc r p e :
  eventsOfRun r (p ++ [e]) =
  eventsOfRun r p ++ match scope e with
                     | RunScope r' n d => if decide (r' = r) then [(n, eventId e, d)] else []
                     | SessionScope _ => []
                     end.
Proof.
  unfold eventsOfRun. rewrite runEvents_snoc, filter_app, fmap_app. f_equal.
  destruct (scope e) as [r' n d|d]; [|done].
  rewrite filter_cons, filter_nil. simpl. by case_decide.
Qed.

Lemma cancelRequestOf_snoc l n i d :
  cancelRequestOf (l ++ [(n, i, d)]) =
  match d with RunCancelRequested c => Some (i, c) | _ => cancelRequestOf l end.
Proof.
  unfold cancelRequestOf. rewrite omap_app. simpl.
  destruct d; rewrite ?app_nil_r; try done. by rewrite last_snoc.
Qed.

Lemma log_inv_init : log_inv [] log_init.
Proof. split; simpl; try done; set_solver. Qed.

Lemma check_cancellation_ok num i r d l s :
  cancelRequest s = cancelRequestOf l ->
  (is_ok (check_cancellation num i r d s) = true <-> cancellation_ok r i l d).
Proof.
  intros Hs. unfold check_cancellation, cancellation_ok. destruct d; rewrite ?Hs; try done.
  - do 2 case_bool_decide; destruct (cancelRequestOf l); simpl; naive_solver.
  - destruct application_cancel_request as [b|], (cancelRequestOf l) as [[ri req]|]; simpl;
      try (split; [done|naive_solver]); try done.
    do 2 case_bool_decide; simpl; naive_solver.
Qed.

Lemma check_cancellation_result num i r n d l s c :
  cancelRequest s = cancelRequestOf l ->
  check_cancellation num i r d s = Ok c -> c = cancelRequestOf (l ++ [(n, i, d)]).
Proof.
  intros Hs. rewrite cancelRequestOf_snoc. unfold check_cancellation.
  destruct d; rewrite ?Hs; repeat case_match; naive_solver.
Qed.

(** The run-scoped half of an iteration accepts exactly the admissible events. *)
Lemma log_run_step_ok num i r n d p runs cur :
  (forall r, run_inv (eventsOfRun r p) (runs !! r)) ->
  cur = fst <$> last (runEvents p) ->
  (is_ok (log_run_step num i r n d runs cur) = true <->
   let l := eventsOfRun r p in
   if decide (l = []) then isRunStarted d = true /\ n = 1
   else fst <$> last (runEvents p) = Some r /\ (forall x, x ∈ l -> isTerminalType x.2 = false) /\
        n = Z.of_nat (length l) + 1 /\ cancellation_ok r i l d).
Proof.
  intros Hruns ->. specialize (Hruns r). unfold log_run_step. simpl.
  destruct (runs !! r) as [s|]; simpl in Hruns.
  - destruct Hruns as (Hne & Hnext & Hreq & Hterm). rewrite decide_False by done.
    pose proof (check_cancellation_ok num i r d _ s Hreq) as Hc. simpl in *.
    unfold mbind, result_bind, throw_when.
    repeat (case_bool_decide; simpl in *).
    all: destruct (terminal s); simpl.
    all: try (destruct (check_cancellation num i r d s); simpl in *).
    all: rewrite ?Hnext in *; naive_solver.
  - rewrite Hruns, decide_True by done. unfold mbind, result_bind, throw_when.
    destruct (isRunStarted d); simpl; [case_bool_decide; simpl|]; naive_solver.
Qed.

Lemma log_run_step_inv num i r n d p runs cur runs' cur' e :
  scope e = RunScope r n d -> eventId e = i ->
  (forall r, run_inv (eventsOfRun r p) (runs !! r)) ->
  cur = fst <$> last (runEvents p) ->
  log_run_step num i r n d runs cur = Ok (runs', cur') ->
  (forall r, run_inv (eventsOfRun r (p ++ [e])) (runs' !! r)) /\
  cur' = fst <$> last (runEvents (p ++ [e])).
Proof.
  intros Hsc Hi Hruns Hcur Hok. rewrite runEvents_snoc, Hsc, last_snoc. simpl. subst i.
  unfold log_run_step in Hok. pose proof (Hruns r) as Hr.
  destruct (runs !! r) as [s|]; simpl in Hr; returns.
  - destruct Hr as (Hne & Hnext & Hreq & Hterm). split; [|done].
    intros r'. rewrite eventsOfRun_snoc, Hsc. rewrite lookup_insert.
    case_decide as Heq; [subst r'|by rewrite app_nil_r].
    simpl. split; [by intros [? ?]%app_eq_nil|]. rewrite length_app. simpl.
    split; [lia|]. split; [by eapply check_cancellation_result|].
    assert (Hp : forall x, x ∈ eventsOfRun r p -> isTerminalType x.2 = false) by naive_solver.
    split; [intros Hd x [Hx|Hx]%elem_of_app; [by apply Hp|apply list_elem_of_singleton in Hx; by subst x]|].
    intros Hall. apply (Hall (n, eventId e, d)). set_solver.
  - split; [|done]. intros r'. rewrite eventsOfRun_snoc, Hsc, lookup_insert.
    case_decide as Heq; [subst r'|by rewrite app_nil_r].
    rewrite Hr. simpl. repeat split; try done.
    + destruct d; done.
    + intros ? x Hx. apply list_elem_of_singleton in Hx. by subst x.
    + intros Hall. apply (Hall (n, eventId e, d)). set_solver.
Qed.

(** One iteration accepts [e] after [p] exactly when [e] may follow [p]. *)
Lemma log_step_ok p st e :
  log_inv p st -> (is_ok (log_step st e) = true <-> event_ok p e).
Proof.
  intros [Hi Hids Hses Hv2 Hcur Hruns]. unfold log_step, event_ok. rewrite Hi.
  assert (Hs : (forall e', e' ∈ p -> sessionId e' = sessionId e) <->
               sessionId e = match ls_sessionId st with Some s => s | None => sessionId e end).
  { destruct (ls_sessionId st) as [s|]; [|subst p; set_solver].
    destruct Hses as [Hne Hall]. split; [|intros ->; naive_solver].
    destruct p as [|e0 p]; [done|]. intros H.
    rewrite <- (H e0), <- (Hall e0) by set_solver. done. }
  assert (Hd : (forall e', e' ∈ p -> eventId e' <> eventId e) <-> eventId e ∉ ls_eventIds st).
  { rewrite Hids. naive_solver. }
  assert (Hv : (sourceSchemaVersion e = 1 -> forall e', e' ∈ p -> sourceSchemaVersion e' <> 2) <->
               ~ (sourceSchemaVersion e = 1 /\ ls_sawV2 st = true)).
  { rewrite Hv2. naive_solver. }
  rewrite Hs, Hd, Hv. unfold mbind, result_bind, throw_when.
  case_bool_decide as Hver; destruct (ls_sawV2 st) eqn:Hsaw; simpl;
    try (split; [done|naive_solver]).
  all: case_bool_decide; simpl; [|split; [done|naive_solver]].
  all: case_bool_decide as Hsid; simpl; [|split; [done|naive_solver]].
  all: case_bool_decide; simpl; [split; [done|naive_solver]|].
  all: destruct (scope e) as [r n d|d]; simpl; [|naive_solver].
  all: pose proof (log_run_step_ok (Z.of_nat (length p) + 1) (eventId e) r n d p _ _ Hruns Hcur) as Hrs;
       destruct (log_run_step _ _ _ _ _ _ _) as [[? ?]|]; simpl in *; naive_solver.
Qed.

Lemma log_step_inv p st e st' :
  log_inv p st -> log_step st e = Ok st' -> log_inv (p ++ [e]) st'.
Proof.
  intros [Hi Hids Hses Hv2 Hcur Hruns] Hok. unfold log_step in Hok. returns.
  match goal with p : (gmap _ _ * _)%type |- _ => destruct p as [runs cur] end. returns.
  assert (Hr : (forall r, run_inv (eventsOfRun r (p ++ [e])) (runs !! r)) /\
               cur = fst <$> last (runEvents (p ++ [e]))).
  { destruct (scope e) as [r n d|d] eqn:Hsc.
    - by eapply log_run_step_inv.
    - simplify_eq. split.
      + intros r. rewrite eventsOfRun_snoc, Hsc, app_nil_r. done.
      + rewrite runEvents_snoc, Hsc, app_nil_r. done. }
  split; simpl; try apply Hr.
  - rewrite length_app. simpl. lia.
  - intros i. rewrite elem_of_union, elem_of_singleton, Hids. set_solver.
  - split; [by intros [? ?]%app_eq_nil|].
    intros e' [He'|He']%elem_of_app.
    + destruct (ls_sessionId st); [naive_solver|]. subst. set_solver.
    + apply list_elem_of_singleton in He'. by subst.
  - rewrite orb_true_iff, Hv2, bool_decide_eq_true. set_solver.
Qed.

Lemma log_wf_nil : log_wf [].
Proof. intros p e s H. by destruct p. Qed.

Lemma log_wf_snoc p e : log_wf (p ++ [e]) <-> log_wf p /\ event_ok p e.
Proof.
  split.
  - intros H. split; [|by apply (H p e [])].
    intros q x s ->. apply (H q x (s ++ [e])). by rewrite <-app_assoc.
  - intros [Hp He] q x s Heq. destruct s as [|y s _] using rev_ind.
    + apply app_inj_tail in Heq as [-> ->]. done.
    + rewrite app_comm_cons, app_assoc in Heq. apply app_inj_tail in Heq as [-> ->].
      by apply (Hp q x s).
Qed.

Lemma run_log_spec events :
  (is_ok (run_log events) = true <-> log_wf events) /\
  (forall st, run_log events = Ok st -> log_inv events st).
Proof.
  induction events as [|e p IH] using rev_ind.
  - split; [split; [intros _; apply log_wf_nil|done]|].
    intros st [= <-]. apply log_inv_init.
  - destruct IH as [Hok Hinv]. unfold run_log in *. rewrite foldM_app, log_wf_snoc, <-Hok.
    destruct (foldM log_step p log_init) as [st|err]; simpl; [|naive_solver].
    specialize (Hinv st eq_refl). pose proof (log_step_ok p st e Hinv) as Hstep.
    unfold mbind, result_bind in *. simpl.
    destruct (log_step st e) as [st'|] eqn:E; simpl in *; [|naive_solver].
    split; [naive_solver|]. intros ? [= <-]. by eapply log_step_inv.
Qed.

(** ** Theorems *)

Lemma assert_log_wf events : assertDecodedStoredEventInvariants events = Ok () <-> log_wf events.
Proof.
  destruct (run_log_spec events) as [H _]. rewrite <-H.
  unfold assertDecodedStoredEventInvariants, mbind, result_bind. by destruct (run_log events).
Qed.

(** C36: the log check accepts exactly the well-formed logs. *)
Theorem assert_invariants_iff_log_wf events :
  assertDecodedStoredEventInvariants events = Ok () <-> log_wf events.
Proof. apply assert_log_wf. Qed.
