(* ===== verification/PlanEvidence.v ===== *)
(** * Evidence for plan items

    [src/plans/plan-item-evidence.ts]: which stored events may prove that a
    plan item is blocked or completed.  The switch is closed: prose,
    approvals and plan receipts prove nothing. *)

From S2P Require Import Prelude JsString Domain Events.
#[local] Open Scope Z_scope.

Definition READ_TOOL_ALLOWLIST : list string :=
  ["list_files"; "read_artifact"; "read_file"; "search"].

Inductive BindingMode : Type := binding_build | binding_unknown.
#[export] Instance BindingMode_eq : EqDecision BindingMode.
Proof. solve_decision. Defined.

Record EvidenceRunBinding : Type := {
  erb_goalId : string;
  erb_goalRevision : Z;
  erb_mode : BindingMode;
}.

Record PlanItemEvidenceContext : Type := {
  eventsById : jsmap string DecodedStoredEvent;
  ctx_goalId : string;
  ctx_goalRevision : Z;
  runBindings : gmap string EvidenceRunBinding;
}.

Record PlanItemEvidenceClassification : Type := {
  eligibleForBlocked : bool;
  eligibleForCompleted : bool;
}.

Definition INELIGIBLE : PlanItemEvidenceClassification :=
  {| eligibleForBlocked := false; eligibleForCompleted := false |}.
Definition eligible (blocked completed : bool) : PlanItemEvidenceClassification :=
  {| eligibleForBlocked := blocked; eligibleForCompleted := completed |}.

Definition matchingRunBinding (runId : string) (context : PlanItemEvidenceContext)
  : option EvidenceRunBinding :=
  match runBindings context !! runId with
  | Some binding =>
      if (erb_goalId binding !== ctx_goalId context) ||
         (erb_goalRevision binding !== ctx_goalRevision context)
      then None else Some binding
  | None => None
  end.

Definition isReadTool (tool_name : string) : bool := bool_decide (tool_name ∈ READ_TOOL_ALLOWLIST).

Definition authorizedReadArtifact (runId : string) (sessionSeq' : Z) (origin_event_id : string)
    (context : PlanItemEvidenceContext) : bool :=
  match jm_get origin_event_id (eventsById context) with
  | None => false
  | Some origin =>
      match scope origin with
      | SessionScope _ => false
      | RunScope originRun _ d =>
          if (originRun !== runId) || (sessionSeq' <=? sessionSeq origin) then false
          else match d with
               | ToolCallRequested data | ResumePendingCallAdopted data =>
                   isReadTool (tc_tool_name data)
               | _ => false
               end
      end
  end.

(** A proposed or replaced graph revision: its ref, binding and content. *)
Definition graphRevisionEvent (e : DecodedStoredEvent) : option (GraphRef * GraphRevisionData) :=
  match scope e with
  | SessionScope (GraphEventData target (GraphProposed data))
  | SessionScope (GraphEventData target (GraphReplaced _ _ data)) => Some (target, data)
  | _ => None
  end.

(** [[...eventsById.values()].find(...)]: the first stored revision with this ref. *)
Definition findGraphRevision (target : GraphRef) (events : jsmap string DecodedStoredEvent)
  : option (GraphRef * GraphRevisionData) :=
  match List.find (fun e => match graphRevisionEvent e with
                            | Some (r, _) => r === target
                            | None => false
                            end) (jm_values events) with
  | Some e => graphRevisionEvent e
  | None => None
  end.

Definition classifyPlanItemEvidence (event : DecodedStoredEvent)
    (context : PlanItemEvidenceContext) : PlanItemEvidenceClassification :=
  match scope event with
  | SessionScope (SideEffectReconciled observed source_run_id) =>
      if (observed !== "applied") ||
         match matchingRunBinding source_run_id context with None => true | Some _ => false end
      then INELIGIBLE
      else eligible true true
  | SessionScope (GraphEventData target (AttemptTerminated data)) =>
      if atd_terminal data !== t_succeeded then INELIGIBLE
      else match findGraphRevision target (eventsById context) with
           | None => INELIGIBLE
           | Some (_, revision) =>
               if (gb_goalId (grd_binding revision) !== ctx_goalId context) ||
                  (gb_goalRevision (grd_binding revision) !== ctx_goalRevision context)
               then INELIGIBLE
               else eligible true true
           end
  | SessionScope _ => INELIGIBLE
  | RunScope runId _ d =>
      match matchingRunBinding runId context with
      | None => INELIGIBLE
      | Some binding =>
          match d with
          | ToolCallCompleted data status =>
              if negb (isReadTool (tc_tool_name data)) then INELIGIBLE
              else eligible true (status === "success")
          | ToolCallRecovered data status source_run_id =>
              if (runId === source_run_id) || negb (isReadTool (tc_tool_name data)) ||
                 match matchingRunBinding source_run_id context with None => true | Some _ => false end
              then INELIGIBLE
              else eligible true (status === "success")
          | PatchApplyCompleted _ => eligible true true
          | CommandCompleted data =>
              eligible true (cc_cleanup_verified data && (cc_exit_code data === Some 0) &&
                             (cc_termination data === "exit"))
          | VerificationCompleted status stale => eligible true ((status === "passed") && negb stale)
          | ArtifactStored origin_event_id =>
              let ok := authorizedReadArtifact runId (sessionSeq event) origin_event_id context in
              eligible ok ok
          | McpToolCallCompleted _ status =>
              if erb_mode binding !== binding_build then INELIGIBLE
              else eligible true (status === "success")
          | McpToolCallEffectUnknown _ => eligible (erb_mode binding === binding_build) false
          | _ => INELIGIBLE
          end
      end
  end.
