(* ===== verification/TaskState.v ===== *)
(** * The task state machine

    [src/coordination/task-state-machine.ts]: the fold of the stored events
    into goals, plan revisions and plan items.  Plans and goals are mutable
    objects shared by several fields of the projector ([plans],
    [pendingDraft], [currentApprovedPlan]); here they live in the lists
    [plans] and [goals] and every other field holds an index, so that an
    update through one name is seen through the others. *)

From S2P Require Import Prelude JsString CanonicalJson Domain Schemas Events EventLog PlanEvidence.
#[local] Open Scope Z_scope.

(** ** Errors *)

Inductive TaskStateErrorCode : Type :=
| active_goal_conflict | goal_binding_mismatch | goal_revision_invalid | goal_terminal_mutation
| plan_binding_mismatch | plan_hash_mismatch | plan_revision_invalid | plan_draft_conflict
| plan_decision_stale | plan_item_transition_invalid | plan_multiple_in_progress
| plan_required_item_skipped | plan_completion_invalid | evidence_reference_invalid
| origin_invalid.

Record TaskStateProjectionError : Type := {
  tse_code : TaskStateErrorCode;
  tse_eventId : string;
  tse_eventType : string;
  tse_sessionSeq : Z;
}.

(** What projecting a log can throw. *)
Inductive TaskError : Type :=
| LogError (error : StoredEventDecodeError)
| ProjectionError (error : TaskStateProjectionError)
| EncodeError (error : encode_error)
| PlanTooLarge.

(** ** The projector's objects *)

Record MutableGoal : Type := {
  mg_content : GoalRevisionContent;
  mg_createdEventId : string;
  mg_lastStatusEventId : option string;
  mg_status : GoalStatus;
}.
#[export] Instance MutableGoal_eta : Eta MutableGoal := fun r =>
  Build_MutableGoal (mg_content r) (mg_createdEventId r) (mg_lastStatusEventId r) (mg_status r).

Record PlanItemTransition : Type := {
  pit_eventId : string;
  pit_evidenceEventIds : list string;
  pit_from : PlanItemStatus;
  pit_note : jstring;
  pit_to : PlanItemStatus;
}.

Record MutablePlanItem : Type := {
  mi_carriedFromRevision : option Z;
  mi_content : PlanItemContent;
  mi_evidenceEventIds : list string;
  mi_lastTransitionEventId : option string;
  mi_note : jstring;
  mi_status : PlanItemStatus;
  mi_transitions : list PlanItemTransition;
}.
#[export] Instance MutablePlanItem_eta : Eta MutablePlanItem := fun r =>
  Build_MutablePlanItem (mi_carriedFromRevision r) (mi_content r) (mi_evidenceEventIds r)
    (mi_lastTransitionEventId r) (mi_note r) (mi_status r) (mi_transitions r).

Record PlanCompletion : Type := {
  pcm_completionEvaluatedEventId : string;
  pcm_eventId : string;
  pcm_finishTaskCallId : string;
}.

Record PlanStatusTransition : Type := {
  pst_eventId : string;
  pst_from : PlanRevisionStatus;
  pst_to : PlanRevisionStatus;
}.

Record MutablePlan : Type := {
  mp_completed : option PlanCompletion;
  mp_content : PlanRevisionContent;
  mp_createdEventId : string;
  mp_decisionEventId : option string;
  mp_items : list MutablePlanItem;
  mp_planSha256 : string;
  mp_status : PlanRevisionStatus;
  mp_statusTransitions : list PlanStatusTransition;
}.
#[export] Instance MutablePlan_eta : Eta MutablePlan := fun r =>
  Build_MutablePlan (mp_completed r) (mp_content r) (mp_createdEventId r) (mp_decisionEventId r)
    (mp_items r) (mp_planSha256 r) (mp_status r) (mp_statusTransitions r).

Record PlanChainBinding : Type := {
  pcb_goalId : string;
  pcb_goalRevision : Z;
  pcb_latestRevision : Z;
}.

Record OpenUpdatePlanRequest : Type := {
  our_event : DecodedStoredEvent;
  our_used : bool;
}.

Inductive TrackingMode : Type := legacy_untracked | phase16.
#[export] Instance TrackingMode_eq : EqDecision TrackingMode.
Proof. solve_decision. Defined.

(** The fields of [class TaskProjector]. *)
Record TaskProjector : Type := {
  activeGoalId : option string;
  currentApprovedPlan : option nat;
  tp_eventsById : jsmap string DecodedStoredEvent;
  goals : list MutableGoal;
  goalsById : gmap string nat;
  openUpdatePlanRequests : gmap (string * string) OpenUpdatePlanRequest;
  planBindings : gmap string PlanChainBinding;
  plans : list MutablePlan;
  plansByRef : gmap (string * Z) nat;
  pendingDraft : option nat;
  tp_runBindings : gmap string EvidenceRunBinding;
  terminalRuns : gset string;
  trackingMode : TrackingMode;
  usedMutationIds : gset string;
}.
#[export] Instance TaskProjector_eta : Eta TaskProjector := fun r =>
  Build_TaskProjector (activeGoalId r) (currentApprovedPlan r) (tp_eventsById r) (goals r)
    (goalsById r) (openUpdatePlanRequests r) (planBindings r) (plans r) (plansByRef r)
    (pendingDraft r) (tp_runBindings r) (terminalRuns r) (trackingMode r) (usedMutationIds r).

Definition task_init : TaskProjector := {|
  activeGoalId := None; currentApprovedPlan := None; tp_eventsById := []; goals := [];
  goalsById := ∅; openUpdatePlanRequests := ∅; planBindings := ∅; plans := [];
  plansByRef := ∅; pendingDraft := None; tp_runBindings := ∅; terminalRuns := ∅;
  trackingMode := legacy_untracked; usedMutationIds := ∅ |}.

Definition fail (event : DecodedStoredEvent) (code : TaskStateErrorCode) : TaskError :=
  ProjectionError {| tse_code := code; tse_eventId := eventId event;
                     tse_eventType := eventType event; tse_sessionSeq := sessionSeq event |}.

(** [goalsById.get(id)], with the goal's place in the store. *)
Definition getGoal (st : TaskProjector) (id : string) : option (nat * MutableGoal) :=
  match goalsById st !! id with
  | Some i => match goals st !! i with Some g => Some (i, g) | None => None end
  | None => None
  end.

Definition derefPlan (st : TaskProjector) (o : option nat) : option MutablePlan :=
  match o with Some i => plans st !! i | None => None end.
Definition getPending (st : TaskProjector) : option MutablePlan := derefPlan st (pendingDraft st).
Definition getCurrent (st : TaskProjector) : option MutablePlan :=
  derefPlan st (currentApprovedPlan st).

Definition updatePlan (i : nat) (f : MutablePlan -> MutablePlan) (st : TaskProjector)
  : TaskProjector := st <| plans ::= alter f i |>.

Definition isActiveGoalAt (st : TaskProjector) (goalId : string) (revision : Z) : bool :=
  match getGoal st goalId with
  | Some (_, goal) => (mg_status goal === goal_active) && (activeGoalId st === Some goalId) &&
                      (gc_revision (mg_content goal) === revision)
  | None => false
  end.

(** [samePlanItemContent] *)
Definition samePlanItemContent (left right : PlanItemContent) : bool :=
  (pi_id left === pi_id right) && (pi_title left === pi_title right) &&
  (pi_acceptance left === pi_acceptance right) && (pi_required left === pi_required right).

(** [transitionPlanStatus], on the plan object. *)
Definition transitionPlanStatus (to : PlanRevisionStatus) (eventId : string) (plan : MutablePlan)
  : MutablePlan :=
  plan <| mp_status := to |>
       <| mp_statusTransitions := mp_statusTransitions plan ++
            [{| pst_eventId := eventId; pst_from := mp_status plan; pst_to := to |}] |>.

Definition ofGoalRevision (goalId : string) (goalRevision : Z) (plan : MutablePlan) : bool :=
  (pc_goalId (mp_content plan) === goalId) && (pc_goalRevision (mp_content plan) === goalRevision).

(** [supersedeGoalPlans] *)
Definition supersedeGoalPlans (goalId : string) (goalRevision : Z) (eventId : string)
    (st : TaskProjector) : TaskProjector :=
  let supersede plan :=
    if ofGoalRevision goalId goalRevision plan &&
       ((mp_status plan === plan_draft) || (mp_status plan === plan_active))
    then transitionPlanStatus plan_superseded eventId plan else plan in
  let clear o := match derefPlan st o with
                 | Some plan => if ofGoalRevision goalId goalRevision plan then None else o
                 | None => o
                 end in
  st <| plans := supersede <$> plans st |>
     <| pendingDraft := clear (pendingDraft st) |>
     <| currentApprovedPlan := clear (currentApprovedPlan st) |>.

(** ** Run-scoped events *)

Section Project.
(** Node's SHA-256. *)
Variable sha256 : jstring -> string.

(** [bindRun] *)
Definition bindRun (event : DecodedStoredEvent) (runId goalId : string) (goalRevision : Z)
    (mode : BindingMode) (st : TaskProjector) : result TaskError TaskProjector :=
  let put m := st <| tp_runBindings := <[runId := {| erb_goalId := goalId;
                        erb_goalRevision := goalRevision; erb_mode := m |}]> (tp_runBindings st) |> in
  match tp_runBindings st !! runId with
  | None => Ok (put mode)
  | Some existing =>
      _ ← throw_when ((erb_goalId existing !== goalId) || (erb_goalRevision existing !== goalRevision))
            (fail event goal_binding_mismatch);
      Ok (if (mode === binding_build) && (erb_mode existing !== binding_build)
          then put binding_build else st)
  end.

(** [bindFuturePhase16RunStart] *)
Definition bindFuturePhase16RunStart (event : DecodedStoredEvent) (runId : string)
    (record : RunStartedRecord) (st : TaskProjector) : result TaskError TaskProjector :=
  match rs_agent_mode record with
  | None => Ok st
  | Some agent_mode =>
      match rs_goal_id record, rs_goal_revision record with
      | Some (VString goalId), Some (VInteger goalRevision) =>
          _ ← throw_when ((agent_mode !== VString "plan") && (agent_mode !== VString "build"))
                (fail event goal_binding_mismatch);
          _ ← throw_when (negb (isActiveGoalAt st goalId goalRevision))
                (fail event goal_binding_mismatch);
          _ ← match getCurrent st with
              | None =>
                  throw_when ((rs_plan_id record !== Some VNull) ||
                              (rs_plan_revision record !== Some VNull) ||
                              (rs_plan_sha256 record !== Some VNull))
                    (fail event plan_binding_mismatch)
              | Some current =>
                  throw_when ((rs_plan_id record !== Some (VString (pc_planId (mp_content current)))) ||
                              (rs_plan_revision record !== Some (VInteger (pc_revision (mp_content current)))) ||
                              (rs_plan_sha256 record !== Some (VString (mp_planSha256 current))))
                    (fail event plan_binding_mismatch)
              end;
          bindRun event runId goalId goalRevision
            (if agent_mode === VString "build" then binding_build else binding_unknown) st
      | _, _ => Err (fail event goal_binding_mismatch)
      end
  end.

(** [processRunEvent] *)
Definition processRunEvent (event : DecodedStoredEvent) (runId : string) (d : RunData)
    (st : TaskProjector) : result TaskError TaskProjector :=
  let open data :=
    if tc_tool_name data === "update_plan"
    then
      let key := (runId, tc_call_id data) in
      match openUpdatePlanRequests st !! key with
      | Some _ => Err (fail event origin_invalid)
      | None => Ok (st <| openUpdatePlanRequests ::=
                            <[key := {| our_event := event; our_used := false |}]> |>)
      end
    else Ok st in
  let close data :=
    if tc_tool_name data === "update_plan"
    then Ok (st <| openUpdatePlanRequests ::= delete (runId, tc_call_id data) |>)
    else Ok st in
  match d with
  | RunStarted record => bindFuturePhase16RunStart event runId record st
  | ToolCallRequested data => open data
  | ResumePendingCallAdopted data => open data
  | ToolCallCompleted data _ => close data
  | ToolCallRecovered data _ _ => close data
  | RunBudgetExceeded | RunCancelled _ | RunCompleted | RunFailed | RunIncomplete =>
      Ok (st <| terminalRuns ::= union {[runId]} |>)
  | _ => Ok st
  end.

(** [assertAgentOrigin] *)
Definition assertAgentOrigin (event : DecodedStoredEvent) (origin : AgentOrigin) (goalId : string)
    (goalRevision : Z) (mode : BindingMode) (st : TaskProjector) : result TaskError TaskProjector :=
  let key := (ao_run_id origin, ao_call_id origin) in
  match openUpdatePlanRequests st !! key with
  | None => Err (fail event origin_invalid)
  | Some request =>
      _ ← throw_when (our_used request ||
                      (sessionId (our_event request) !== sessionId event) ||
                      (sessionSeq event <=? sessionSeq (our_event request)) ||
                      bool_decide (ao_run_id origin ∈ terminalRuns st))
            (fail event origin_invalid);
      _ ← throw_when (bool_decide (ao_mutation_id origin ∈ usedMutationIds st))
            (fail event origin_invalid);
      st ← bindRun event (ao_run_id origin) goalId goalRevision mode st;
      Ok (st <| openUpdatePlanRequests ::=
                  <[key := {| our_event := our_event request; our_used := true |}]> |>
             <| usedMutationIds ::= union {[ao_mutation_id origin]} |>)
  end.

(** ** Goals *)

(** [createGoal] *)
Definition createGoal (event : DecodedStoredEvent) (data : GoalCreatedData) (st : TaskProjector)
  : result TaskError TaskProjector :=
  _ ← throw_when (match goalsById st !! gcr_goal_id data with Some _ => true | None => false end)
        (fail event goal_binding_mismatch);
  let parent := match gcr_parent_goal_id data with Some p => getGoal st p | None => None end in
  _ ← throw_when (match gcr_parent_goal_id data, parent with Some _, None => true | _, _ => false end)
        (fail event goal_binding_mismatch);
  let active := match activeGoalId st with Some a => getGoal st a | None => None end in
  st ←
    match active with
    | None =>
        _ ← throw_when (match gcr_replaces_active_goal data with Some _ => true | None => false end)
              (fail event active_goal_conflict);
        _ ← throw_when (match parent with Some (_, p) => mg_status p === goal_active | None => false end)
              (fail event active_goal_conflict);
        Ok st
    | Some (i, goal) =>
        let content := mg_content goal in
        _ ← throw_when (gcr_replaces_active_goal data !== Some (gc_goalId content, gc_revision content))
              (fail event active_goal_conflict);
        let st := supersedeGoalPlans (gc_goalId content) (gc_revision content) (eventId event) st in
        Ok (st <| goals ::= alter (fun g => g <| mg_status := goal_abandoned |>
                                              <| mg_lastStatusEventId := Some (eventId event) |>) i |>)
    end;
  let goal := {|
    mg_content := {| gc_goalId := gcr_goal_id data; gc_objective := gcr_objective data;
                     gc_parentGoalId := gcr_parent_goal_id data; gc_revision := 1 |};
    mg_createdEventId := eventId event;
    mg_lastStatusEventId := None;
    mg_status := goal_active |} in
  Ok (st <| goals := goals st ++ [goal] |>
         <| goalsById ::= <[gcr_goal_id data := length (goals st)]> |>
         <| activeGoalId := Some (gcr_goal_id data) |>).

(** [reviseGoal] *)
Definition reviseGoal (event : DecodedStoredEvent) (data : GoalRevisedData) (st : TaskProjector)
  : result TaskError TaskProjector :=
  match getGoal st (grv_goal_id data) with
  | None => Err (fail event goal_binding_mismatch)
  | Some (i, goal) =>
      let content := mg_content goal in
      _ ← throw_when (mg_status goal !== goal_active) (fail event goal_terminal_mutation);
      _ ← throw_when (activeGoalId st !== Some (grv_goal_id data)) (fail event goal_binding_mismatch);
      _ ← throw_when ((grv_base_revision data !== gc_revision content) ||
                      (grv_revision data !== gc_revision content + 1))
            (fail event goal_revision_invalid);
      let st := supersedeGoalPlans (gc_goalId content) (gc_revision content) (eventId event) st in
      Ok (st <| goals ::= alter (fun g => g <| mg_content :=
                {| gc_goalId := gc_goalId content; gc_objective := grv_objective data;
                   gc_parentGoalId := gc_parentGoalId content; gc_revision := grv_revision data |} |>) i |>)
  end.

(** [assertAcceptedCompletion] *)
Definition assertAcceptedCompletion (event : DecodedStoredEvent) (completionEventId finishTaskCallId
    goalId : string) (goalRevision : Z) (st : TaskProjector) : result TaskError () :=
  match jm_get completionEventId (tp_eventsById st) with
  | Some completion =>
      match scope completion with
      | RunScope runId _ (CompletionEvaluated effect call_id) =>
          _ ← throw_when ((effect !== "accept") || (call_id !== finishTaskCallId) ||
                          (sessionSeq event <=? sessionSeq completion))
                (fail event plan_completion_invalid);
          match tp_runBindings st !! runId with
          | Some binding =>
              throw_when ((erb_goalId binding !== goalId) || (erb_goalRevision binding !== goalRevision))
                (fail event goal_binding_mismatch)
          | None => Ok ()
          end
      | _ => Err (fail event plan_completion_invalid)
      end
  | None => Err (fail event plan_completion_invalid)
  end.

(** [changeGoalStatus] *)
Definition changeGoalStatus (event : DecodedStoredEvent) (data : GoalStatusChangedData)
    (st : TaskProjector) : result TaskError TaskProjector :=
  match getGoal st (gsc_goal_id data) with
  | None => Err (fail event goal_binding_mismatch)
  | Some (i, goal) =>
      let content := mg_content goal in
      _ ← throw_when (mg_status goal !== goal_active) (fail event goal_terminal_mutation);
      _ ← throw_when (activeGoalId st !== Some (gsc_goal_id data)) (fail event goal_binding_mismatch);
      _ ← throw_when (gsc_revision data !== gc_revision content) (fail event goal_revision_invalid);
      _ ←
        match gsc_to data with
        | ToAbandoned _ => Ok ()
        | ToCompleted completionId callId =>
            _ ← assertAcceptedCompletion event completionId callId (gc_goalId content)
                  (gc_revision content) st;
            match getCurrent st with
            | Some current =>
                throw_when
                  ((mp_status current !== plan_completed) ||
                   match mp_completed current with
                   | None => true
                   | Some c => (pcm_completionEvaluatedEventId c !== completionId) ||
                               (pcm_finishTaskCallId c !== callId)
                   end)
                  (fail event plan_completion_invalid)
            | None =>
                throw_when (match getPending st with Some _ => true | None => false end)
                  (fail event plan_completion_invalid)
            end
        end;
      let st := supersedeGoalPlans (gc_goalId content) (gc_revision content) (eventId event) st in
      let status := match gsc_to data with ToAbandoned _ => goal_abandoned
                                         | ToCompleted _ _ => goal_completed end in
      Ok (st <| goals ::= alter (fun g => g <| mg_status := status |>
                                            <| mg_lastStatusEventId := Some (eventId event) |>) i |>
             <| activeGoalId := None |>)
  end.

(** ** Plans *)

(** [activeGoalForPlan] *)
Definition activeGoalForPlan (event : DecodedStoredEvent) (content : PlanRevisionContent)
    (st : TaskProjector) : result TaskError () :=
  throw_when (negb (isActiveGoalAt st (pc_goalId content) (pc_goalRevision content)))
    (fail event plan_binding_mismatch).

(** [assertPlanHash]; [canonicalPlanIdentity] is the digest of the content's
    canonical JSON, which has a bound.  The schema it parses the content with is
    the one that the decoder of the log has applied to the event. *)
Definition assertPlanHash (event : DecodedStoredEvent) (content : PlanRevisionContent)
    (expected : string) : result TaskError () :=
  match canonicalJson (planContentJson content) with
  | Ok serialized =>
      _ ← throw_when (MAX_CANONICAL_PLAN_BYTES <? byteLength serialized) PlanTooLarge;
      throw_when (sha256 serialized !== expected) (fail event plan_hash_mismatch)
  | Err e => Err (EncodeError e)
  end.

Definition newItem (item : PlanItemContent) : MutablePlanItem := {|
  mi_carriedFromRevision := None; mi_content := item; mi_evidenceEventIds := [];
  mi_lastTransitionEventId := None; mi_note := []; mi_status := item_pending;
  mi_transitions := [] |}.

(** [newPlan]: pushes the plan and returns its place. *)
Definition newPlan (event : DecodedStoredEvent) (content : PlanRevisionContent)
    (planSha256 : string) (st : TaskProjector) : TaskProjector * nat :=
  let plan := {|
    mp_completed := None; mp_content := content; mp_createdEventId := eventId event;
    mp_decisionEventId := None; mp_items := newItem <$> pc_items content;
    mp_planSha256 := planSha256; mp_status := plan_draft; mp_statusTransitions := [] |} in
  let i := length (plans st) in
  (st <| plans := plans st ++ [plan] |>
      <| plansByRef ::= <[(pc_planId content, pc_revision content) := i]> |>, i).

(** The origin check shared by [proposePlan] and [revisePlan]. *)
Definition assertMutationOrigin (event : DecodedStoredEvent) (origin : PlanMutationOrigin)
    (content : PlanRevisionContent) (st : TaskProjector) : result TaskError TaskProjector :=
  match origin with
  | ByUser _ => Ok st
  | ByAgent origin =>
      assertAgentOrigin event origin (pc_goalId content) (pc_goalRevision content) binding_unknown st
  end.

(** [proposePlan] *)
Definition proposePlan (event : DecodedStoredEvent) (data : PlanProposedData) (st : TaskProjector)
  : result TaskError TaskProjector :=
  let content := pp_content data in
  _ ← activeGoalForPlan event content st;
  _ ← assertPlanHash event content (pp_plan_sha256 data);
  _ ← throw_when (pc_revision content !== 1) (fail event plan_revision_invalid);
  _ ← throw_when (match planBindings st !! pc_planId content with Some _ => true | None => false end)
        (fail event plan_binding_mismatch);
  _ ← throw_when ((pendingDraft st !== None) || (currentApprovedPlan st !== None))
        (fail event plan_draft_conflict);
  st ← assertMutationOrigin event (pp_origin data) content st;
  let st := st <| planBindings ::=
    <[pc_planId content := {| pcb_goalId := pc_goalId content;
                              pcb_goalRevision := pc_goalRevision content;
                              pcb_latestRevision := 1 |}]> |> in
  let '(st, i) := newPlan event content (pp_plan_sha256 data) st in
  Ok (st <| pendingDraft := Some i |>).

(** [revisePlan] *)
Definition revisePlan (event : DecodedStoredEvent) (data : PlanRevisedData) (st : TaskProjector)
  : result TaskError TaskProjector :=
  let content := pr_content data in
  _ ← activeGoalForPlan event content st;
  _ ← assertPlanHash event content (pr_plan_sha256 data);
  match (match getPending st with Some p => Some p | None => getCurrent st end) with
  | None => Err (fail event plan_draft_conflict)
  | Some base =>
      _ ← throw_when ((pc_planId (mp_content base) !== pc_planId content) ||
                      (pc_revision (mp_content base) !== pr_base_revision data) ||
                      (mp_planSha256 base !== pr_base_sha256 data))
            (fail event plan_decision_stale);
      match planBindings st !! pc_planId content with
      | None => Err (fail event plan_binding_mismatch)
      | Some binding =>
          _ ← throw_when ((pcb_goalId binding !== pc_goalId content) ||
                          (pcb_goalRevision binding !== pc_goalRevision content))
                (fail event plan_binding_mismatch);
          _ ← throw_when (pc_revision content !== pcb_latestRevision binding + 1)
                (fail event plan_revision_invalid);
          st ← assertMutationOrigin event (pr_origin data) content st;
          let st := match pendingDraft st with
                    | Some i => updatePlan i (transitionPlanStatus plan_superseded (eventId event)) st
                    | None => st
                    end in
          let '(st, i) := newPlan event content (pr_plan_sha256 data) st in
          let st := st <| planBindings ::=
            <[pc_planId content := {| pcb_goalId := pcb_goalId binding;
                                      pcb_goalRevision := pcb_goalRevision binding;
                                      pcb_latestRevision := pc_revision content |}]> |> in
          Ok (st <| pendingDraft := Some i |>)
      end
  end.

(** The plan an event names is exactly this one. *)
Definition matchesTarget (plan : MutablePlan) (target : PlanTarget) : bool :=
  (pc_goalId (mp_content plan) === pt_goal_id target) &&
  (pc_goalRevision (mp_content plan) === pt_goal_revision target) &&
  (pc_planId (mp_content plan) === pt_plan_id target) &&
  (pc_revision (mp_content plan) === pt_revision target) &&
  (mp_planSha256 plan === pt_plan_sha256 target).

(** [exactPendingDecision] *)
Definition exactPendingDecision (event : DecodedStoredEvent) (target : PlanTarget)
    (st : TaskProjector) : result TaskError (nat * MutablePlan) :=
  match pendingDraft st, getPending st with
  | Some i, Some draft =>
      _ ← throw_when ((mp_status draft !== plan_draft) || negb (matchesTarget draft target))
            (fail event plan_decision_stale);
      _ ← throw_when (negb (isActiveGoalAt st (pt_goal_id target) (pt_goal_revision target)))
            (fail event plan_binding_mismatch);
      Ok (i, draft)
  | _, _ => Err (fail event plan_decision_stale)
  end.

(** [carryTerminalItems], as the items the next plan gets. *)
Definition carryTerminalItems (previous next : MutablePlan) : list MutablePlanItem :=
  (fun item =>
     match List.find (fun candidate => samePlanItemContent (mi_content candidate) (mi_content item))
             (mp_items previous) with
     | None => item
     | Some prior =>
         if (mi_status prior !== item_completed) && (mi_status prior !== item_skipped) then item
         else {| mi_carriedFromRevision := Some (pc_revision (mp_content previous));
                 mi_content := mi_content item;
                 mi_evidenceEventIds := mi_evidenceEventIds prior;
                 mi_lastTransitionEventId := mi_lastTransitionEventId prior;
                 mi_note := mi_note prior;
                 mi_status := mi_status prior;
                 mi_transitions := mi_transitions item |}
     end) <$> mp_items next.

(** [approvePlan] *)
Definition approvePlan (event : DecodedStoredEvent) (target : PlanTarget) (st : TaskProjector)
  : result TaskError TaskProjector :=
  '(i, draft) ← exactPendingDecision event target st;
  let st :=
    match currentApprovedPlan st, getCurrent st with
    | Some j, Some previous =>
        let st := updatePlan i (fun d => d <| mp_items := carryTerminalItems previous d |>) st in
        if mp_status previous === plan_active
        then updatePlan j (transitionPlanStatus plan_superseded (eventId event)) st else st
    | _, _ => st
    end in
  let st := updatePlan i (fun d => transitionPlanStatus plan_active (eventId event) d
                                     <| mp_decisionEventId := Some (eventId event) |>) st in
  Ok (st <| pendingDraft := None |> <| currentApprovedPlan := Some i |>).

(** [rejectPlan] *)
Definition rejectPlan (event : DecodedStoredEvent) (target : PlanTarget) (st : TaskProjector)
  : result TaskError TaskProjector :=
  '(i, draft) ← exactPendingDecision event target st;
  let st := updatePlan i (fun d => transitionPlanStatus plan_rejected (eventId event) d
                                     <| mp_decisionEventId := Some (eventId event) |>) st in
  Ok (st <| pendingDraft := None |>).

(** [exactCurrentPlan] *)
Definition exactCurrentPlan (event : DecodedStoredEvent) (target : PlanTarget) (st : TaskProjector)
  : result TaskError (nat * MutablePlan) :=
  match currentApprovedPlan st, getCurrent st with
  | Some i, Some current =>
      _ ← throw_when (negb (matchesTarget current target)) (fail event plan_binding_mismatch);
      Ok (i, current)
  | _, _ => Err (fail event plan_binding_mismatch)
  end.

(** [isAllowedItemTransition] *)
Definition isAllowedItemTransition (from to : PlanItemStatus) : bool :=
  match from with
  | item_pending => (to === item_in_progress) || (to === item_blocked) || (to === item_skipped)
  | item_in_progress => (to === item_completed) || (to === item_blocked) || (to === item_skipped)
  | item_blocked => (to === item_in_progress) || (to === item_skipped)
  | item_completed | item_skipped => false
  end.

(** [isNonblankCanonicalText] of [task-text-schema.ts] *)
Definition isNonblankCanonicalText (value : jstring) : bool := trim value !== [].

Definition includesId (id : string) (l : list string) : bool := bool_decide (id ∈ l).

(** The task graph revision a progress event cites, checked against its plan item. *)
Definition checkGraphOrigin (event : DecodedStoredEvent) (data : PlanItemStatusChangedData)
    (origin : TaskGraphProgressOrigin) (st : TaskProjector)
  : result TaskError GraphRevisionData :=
  let ref := {| gr_graph_id := tgo_graph_id origin; gr_graph_revision := tgo_graph_revision origin;
                gr_graph_sha256 := tgo_graph_sha256 origin |} in
  match findGraphRevision ref (tp_eventsById st) with
  | None => Err (fail event plan_binding_mismatch)
  | Some (_, revision) =>
      let binding := grd_binding revision in
      let target := pis_plan data in
      _ ← throw_when
            ((gb_goalId binding !== pt_goal_id target) ||
             (gb_goalRevision binding !== pt_goal_revision target) ||
             (gb_planId binding !== pt_plan_id target) ||
             (gb_planRevision binding !== pt_revision target) ||
             (gb_planSha256 binding !== pt_plan_sha256 target) ||
             negb (existsb (fun node => includesId (pis_item_id data) (tn_planItemIds node))
                     (tg_nodes (grd_content revision))))
            (fail event plan_binding_mismatch);
      Ok revision
  end.

(** The authority of a progress event: an open [update_plan] call, or a graph revision. *)
Definition checkProgressOrigin (event : DecodedStoredEvent) (data : PlanItemStatusChangedData)
    (st : TaskProjector) : result TaskError (TaskProjector * option GraphRevisionData) :=
  match pis_origin data with
  | ProgressByAgent origin =>
      st ← assertAgentOrigin event origin (pt_goal_id (pis_plan data))
             (pt_goal_revision (pis_plan data)) binding_build st;
      Ok (st, None)
  | ProgressByTaskGraph origin =>
      revision ← checkGraphOrigin event data origin st;
      Ok (st, Some revision)
  end.

(** One iteration of the loop over [evidence_event_ids]. *)
Definition checkEvidence (event : DecodedStoredEvent) (data : PlanItemStatusChangedData)
    (graphRevision : option GraphRevisionData) (st : TaskProjector) (evidenceId : string)
  : result TaskError () :=
  match jm_get evidenceId (tp_eventsById st) with
  | None => Err (fail event evidence_reference_invalid)
  | Some evidence =>
      _ ← throw_when ((sessionId evidence !== sessionId event) ||
                      (sessionSeq event <=? sessionSeq evidence))
            (fail event evidence_reference_invalid);
      let classification := classifyPlanItemEvidence evidence
        {| eventsById := tp_eventsById st; ctx_goalId := pt_goal_id (pis_plan data);
           ctx_goalRevision := pt_goal_revision (pis_plan data);
           runBindings := tp_runBindings st |} in
      _ ← match pis_origin data, scope evidence with
          | ProgressByTaskGraph origin, SessionScope (GraphEventData target (AttemptTerminated terminal)) =>
              let node := match graphRevision with
                          | Some revision => List.find (fun n => tn_nodeId n === atd_node_id terminal)
                                               (tg_nodes (grd_content revision))
                          | None => None
                          end in
              throw_when ((gr_graph_id target !== tgo_graph_id origin) ||
                          (gr_graph_revision target !== tgo_graph_revision origin) ||
                          (gr_graph_sha256 target !== tgo_graph_sha256 origin) ||
                          negb match node with
                               | Some n => includesId (pis_item_id data) (tn_planItemIds n)
                               | None => false
                               end)
                (fail event evidence_reference_invalid)
          | _, _ => Ok ()
          end;
      throw_when (((pis_to data === item_completed) && negb (eligibleForCompleted classification)) ||
                  ((pis_to data === item_blocked) && negb (eligibleForBlocked classification)))
        (fail event evidence_reference_invalid)
  end.

(** The checks of a progress event on the item itself. *)
Definition checkItemTransition (event : DecodedStoredEvent) (data : PlanItemStatusChangedData)
    (plan : MutablePlan) : result TaskError nat :=
  match list_find (fun candidate => pi_id (mi_content candidate) = pis_item_id data) (mp_items plan) with
  | None => Err (fail event plan_item_transition_invalid)
  | Some (k, item) =>
      _ ← throw_when (mi_status item !== pis_from data) (fail event plan_item_transition_invalid);
      _ ← throw_when (negb (isAllowedItemTransition (pis_from data) (pis_to data)))
            (fail event plan_item_transition_invalid);
      _ ← throw_when ((pis_to data === item_skipped) && pi_required (mi_content item))
            (fail event plan_required_item_skipped);
      _ ← throw_when ((pis_to data === item_in_progress) &&
                      existsb (fun '(j, candidate) =>
                                 (j !== k) && (mi_status candidate === item_in_progress))
                        (imap pair (mp_items plan)))
            (fail event plan_multiple_in_progress);
      _ ← throw_when (((pis_to data === item_in_progress) || (pis_to data === item_skipped)) &&
                      negb (length (pis_evidence_event_ids data) =? 0)%nat)
            (fail event evidence_reference_invalid);
      _ ← throw_when ((pis_to data === item_completed) &&
                      (length (pis_evidence_event_ids data) =? 0)%nat)
            (fail event evidence_reference_invalid);
      _ ← throw_when (((pis_to data === item_completed) || (pis_to data === item_blocked) ||
                       (pis_to data === item_skipped)) &&
                      negb (isNonblankCanonicalText (pis_note data)))
            (fail event plan_item_transition_invalid);
      Ok k
  end.

(** The assignments at the end of [changePlanItemStatus]. *)
Definition applyItemTransition (event : DecodedStoredEvent) (data : PlanItemStatusChangedData)
    (item : MutablePlanItem) : MutablePlanItem :=
  let transition := {|
    pit_eventId := eventId event; pit_evidenceEventIds := pis_evidence_event_ids data;
    pit_from := pis_from data; pit_note := pis_note data; pit_to := pis_to data |} in
  {| mi_carriedFromRevision := None;
     mi_content := mi_content item;
     mi_evidenceEventIds := pis_evidence_event_ids data;
     mi_lastTransitionEventId := Some (eventId event);
     mi_note := pis_note data;
     mi_status := pis_to data;
     mi_transitions := mi_transitions item ++ [transition] |}.

(** [changePlanItemStatus] *)
Definition changePlanItemStatus (event : DecodedStoredEvent) (data : PlanItemStatusChangedData)
    (st : TaskProjector) : result TaskError TaskProjector :=
  '(i, plan) ← exactCurrentPlan event (pis_plan data) st;
  _ ← throw_when (mp_status plan !== plan_active) (fail event plan_item_transition_invalid);
  '(st, graphRevision) ← checkProgressOrigin event data st;
  k ← checkItemTransition event data plan;
  _ ← foldM (fun _ id => checkEvidence event data graphRevision st id)
        (pis_evidence_event_ids data) ();
  Ok (updatePlan i (fun p => p <| mp_items ::= alter (applyItemTransition event data) k |>) st).

(** [planReady] *)
Definition planReady (plan : MutablePlan) : bool :=
  forallb (fun item =>
    if pi_required (mi_content item)
    then mi_status item === item_completed
    else (mi_status item === item_completed) || (mi_status item === item_skipped))
    (mp_items plan).

(** [completePlan] *)
Definition completePlan (event : DecodedStoredEvent) (data : PlanCompletedData) (st : TaskProjector)
  : result TaskError TaskProjector :=
  '(i, plan) ← exactCurrentPlan event (pcd_plan data) st;
  _ ← throw_when ((mp_status plan !== plan_active) || negb (planReady plan))
        (fail event plan_completion_invalid);
  _ ← assertAcceptedCompletion event (pcd_completion_evaluated_event_id data)
        (pcd_finish_task_call_id data) (pt_goal_id (pcd_plan data))
        (pt_goal_revision (pcd_plan data)) st;
  Ok (updatePlan i (fun p =>
        transitionPlanStatus plan_completed (eventId event) p
          <| mp_completed := Some {|
               pcm_completionEvaluatedEventId := pcd_completion_evaluated_event_id data;
               pcm_eventId := eventId event;
               pcm_finishTaskCallId := pcd_finish_task_call_id data |} |>) st).

(** ** The fold *)

(** [processSessionEvent] *)
Definition processSessionEvent (event : DecodedStoredEvent) (d : SessionData) (st : TaskProjector)
  : result TaskError TaskProjector :=
  let tracked := st <| trackingMode := phase16 |> in
  match d with
  | GoalCreated data => createGoal event data tracked
  | GoalRevised data => reviseGoal event data tracked
  | GoalStatusChanged data => changeGoalStatus event data tracked
  | PlanProposed data => proposePlan event data tracked
  | PlanRevised data => revisePlan event data tracked
  | PlanApproved target => approvePlan event target tracked
  | PlanRejected target _ => rejectPlan event target tracked
  | PlanItemStatusChanged data => changePlanItemStatus event data tracked
  | PlanCompleted data => completePlan event data tracked
  | SideEffectReconciled _ _ | GraphEventData _ _ | SessionOther _ => Ok st
  end.

(** [shouldIndexReferenceTarget] *)
Definition shouldIndexReferenceTarget (event : DecodedStoredEvent) : bool :=
  match scope event with
  | RunScope _ _ d =>
      match d with
      | ArtifactStored _ | CommandCompleted _ | CompletionEvaluated _ _
      | McpToolCallCompleted _ _ | McpToolCallEffectUnknown _ | PatchApplyCompleted _
      | ResumePendingCallAdopted _ | ToolCallCompleted _ _ | ToolCallRecovered _ _ _
      | ToolCallRequested _ | VerificationCompleted _ _ => true
      | _ => false
      end
  | SessionScope d =>
      match d with
      | SideEffectReconciled _ _ => true
      | GraphEventData _ (GraphProposed _) | GraphEventData _ (GraphReplaced _ _ _)
      | GraphEventData _ (AttemptTerminated _) => true
      | _ => false
      end
  end.

(** The body of the loop of [TaskProjector.project]. *)
Definition task_step (st : TaskProjector) (event : DecodedStoredEvent)
  : result TaskError TaskProjector :=
  st ← match scope event with
       | RunScope runId _ d => processRunEvent event runId d st
       | SessionScope d => processSessionEvent event d st
       end;
  Ok (if shouldIndexReferenceTarget event
      then st <| tp_eventsById ::= jm_set (eventId event) event |> else st).

Definition runProjector (events : list DecodedStoredEvent) : result TaskError TaskProjector :=
  foldM task_step events task_init.
End Project.

(** ** The projection *)

Record PlanRevisionRef : Type := {
  prr_goalId : string;
  prr_goalRevision : Z;
  prr_planId : string;
  prr_planSha256 : string;
  prr_revision : Z;
}.
#[export] Instance PlanRevisionRef_eq : EqDecision PlanRevisionRef.
Proof. solve_decision. Defined.

Record PlanBlockerProjection : Type := {
  pb_evidenceEventIds : list string;
  pb_itemId : string;
  pb_note : jstring;
  pb_plan : PlanRevisionRef;
}.

(** A plan projection is a frozen copy of the plan with the item statuses by id. *)
Record PlanRevisionProjection : Type := {
  prp_itemStatuses : gmap string PlanItemStatus;
  prp_plan : MutablePlan;
}.

(** Goal projections are frozen copies: the fields of [MutableGoal]. *)
Record TaskStateProjection : Type := {
  tsp_activeGoalId : option string;
  tsp_blockers : list PlanBlockerProjection;
  tsp_currentApprovedPlan : option PlanRevisionRef;
  tsp_goals : list MutableGoal;
  tsp_lastSessionSeq : Z;
  tsp_pendingDraft : option PlanRevisionRef;
  tsp_plans : list PlanRevisionProjection;
  tsp_readyForCompletion : bool;
  tsp_trackingMode : TrackingMode;
}.

(** [planRef] *)
Definition planRef (plan : MutablePlan) : PlanRevisionRef := {|
  prr_goalId := pc_goalId (mp_content plan);
  prr_goalRevision := pc_goalRevision (mp_content plan);
  prr_planId := pc_planId (mp_content plan);
  prr_planSha256 := mp_planSha256 plan;
  prr_revision := pc_revision (mp_content plan) |}.

(** [planProjection] *)
Definition planProjection (plan : MutablePlan) : PlanRevisionProjection := {|
  prp_itemStatuses := fold_left (fun m item => <[pi_id (mi_content item) := mi_status item]> m)
                        (mp_items plan) ∅;
  prp_plan := plan |}.

(** [blockers] *)
Definition blockers (st : TaskProjector) : list PlanBlockerProjection :=
  match getCurrent st with
  | None => []
  | Some current =>
      (fun item => {| pb_evidenceEventIds := mi_evidenceEventIds item;
                      pb_itemId := pi_id (mi_content item);
                      pb_note := mi_note item;
                      pb_plan := planRef current |}) <$>
      List.filter (fun item => mi_status item === item_blocked) (mp_items current)
  end.

(** [snapshot] *)
Definition snapshot (st : TaskProjector) (lastSessionSeq : Z) : TaskStateProjection := {|
  tsp_activeGoalId := activeGoalId st;
  tsp_blockers := blockers st;
  tsp_currentApprovedPlan := planRef <$> getCurrent st;
  tsp_goals := goals st;
  tsp_lastSessionSeq := lastSessionSeq;
  tsp_pendingDraft := planRef <$> getPending st;
  tsp_plans := planProjection <$> plans st;
  tsp_readyForCompletion :=
    match getCurrent st with
    | Some current => ((mp_status current === plan_active) || (mp_status current === plan_completed))
                      && planReady current
    | None => false
    end;
  tsp_trackingMode := trackingMode st |}.

(** [events.at(-1)?.sessionSeq ?? 0] *)
Definition lastSeq (events : list DecodedStoredEvent) : Z :=
  match last events with Some e => sessionSeq e | None => 0 end.

(** [TaskStateMachine.project] *)
Definition project (sha256 : jstring -> string) (events : list DecodedStoredEvent)
  : result TaskError TaskStateProjection :=
  match assertDecodedStoredEventInvariants events with
  | Err e => Err (LogError e)
  | Ok _ => st ← runProjector sha256 events; Ok (snapshot st (lastSeq events))
  end.
