(* ===== verification/TaskStateFacts.v ===== *)
(** * What the task state machine guarantees

    The invariant of the projector of [TaskState.v], its preservation by every
    handler, and the consequences: one active goal, one draft, one active
    plan, progress only with evidence, approval of exactly the content whose
    digest was shown. *)

From S2P Require Import Prelude JsString CanonicalJson Domain Events EventLog PlanEvidence TaskState.
#[local] Open Scope Z_scope.

(** ** The invariant *)

Definition inProgress (item : MutablePlanItem) : Prop := mi_status item = item_in_progress.

(** What holds of each plan revision on its own. *)
Record plan_ok (sha256 : jstring -> string) (plan : MutablePlan) : Prop := {
  po_digest : sha256Canonical sha256 (planContentJson (mp_content plan)) = Ok (mp_planSha256 plan);
  po_items : mi_content <$> mp_items plan = pc_items (mp_content plan);
  po_single : forall i j a b, mp_items plan !! i = Some a -> mp_items plan !! j = Some b ->
                inProgress a -> inProgress b -> i = j;
  po_required : forall a, a ∈ mp_items plan -> mi_status a = item_skipped ->
                  pi_required (mi_content a) = false;
  po_completed : mp_status plan = plan_completed -> planReady plan = true;
  po_draft : mp_status plan = plan_draft ->
               forall a, a ∈ mp_items plan -> mi_status a = item_pending;
}.

(** Goals: the index is exact and the active goal is the one with status active. *)
Record goal_inv (st : TaskProjector) : Prop := {
  gi_index : forall id i, goalsById st !! id = Some i <->
               exists g, goals st !! i = Some g /\ gc_goalId (mg_content g) = id;
  gi_active : forall i g, goals st !! i = Some g ->
                (mg_status g = goal_active <-> activeGoalId st = Some (gc_goalId (mg_content g)));
  gi_exists : forall a, activeGoalId st = Some a -> exists i, goalsById st !! a = Some i;
}.

(** Plans: one draft, one active plan, both of the active goal revision. *)
Record plan_inv (sha256 : jstring -> string) (st : TaskProjector) : Prop := {
  pi_ok : forall i p, plans st !! i = Some p -> plan_ok sha256 p;
  pi_pending : forall i, pendingDraft st = Some i <->
                 exists p, plans st !! i = Some p /\ mp_status p = plan_draft;
  pi_current : forall i, currentApprovedPlan st = Some i ->
                 exists p, plans st !! i = Some p /\
                   (mp_status p = plan_active \/ mp_status p = plan_completed);
  pi_active : forall i p, plans st !! i = Some p -> mp_status p = plan_active ->
                currentApprovedPlan st = Some i;
  pi_bound : forall i p, plans st !! i = Some p ->
               (pendingDraft st = Some i \/ currentApprovedPlan st = Some i) ->
               isActiveGoalAt st (pc_goalId (mp_content p)) (pc_goalRevision (mp_content p)) = true;
  pi_chain : forall i p, plans st !! i = Some p ->
               exists b, planBindings st !! pc_planId (mp_content p) = Some b /\
                 pcb_goalId b = pc_goalId (mp_content p) /\
                 pcb_goalRevision b = pc_goalRevision (mp_content p) /\
                 pc_revision (mp_content p) <= pcb_latestRevision b;
  pi_unique : forall i j p q, plans st !! i = Some p -> plans st !! j = Some q ->
                pc_planId (mp_content p) = pc_planId (mp_content q) ->
                pc_revision (mp_content p) = pc_revision (mp_content q) -> i = j;
}.

Record task_inv (sha256 : jstring -> string) (st : TaskProjector) : Prop := {
  ti_goals : goal_inv st;
  ti_plans : plan_inv sha256 st;
}.

(** ** Elementary facts *)

Lemma getGoal_Some st id i g :
  getGoal st id = Some (i, g) <-> goalsById st !! id = Some i /\ goals st !! i = Some g.
Proof. unfold getGoal. repeat case_match; naive_solver. Qed.

Lemma isActiveGoalAt_true st id rev :
  isActiveGoalAt st id rev = true <->
  exists i g, getGoal st id = Some (i, g) /\ mg_status g = goal_active /\
    activeGoalId st = Some id /\ gc_revision (mg_content g) = rev.
Proof.
  unfold isActiveGoalAt. destruct (getGoal st id) as [[i g]|]; [|naive_solver].
  rewrite !andb_true_iff, !bool_decide_eq_true. naive_solver.
Qed.

Lemma ofGoalRevision_true id rev p :
  ofGoalRevision id rev p = true <-> pc_goalId (mp_content p) = id /\ pc_goalRevision (mp_content p) = rev.
Proof. unfold ofGoalRevision. by rewrite andb_true_iff, !bool_decide_eq_true. Qed.

Lemma getGoal_id st id i g : goal_inv st -> getGoal st id = Some (i, g) -> gc_goalId (mg_content g) = id.
Proof.
  intros Hg [Hid Hi]%getGoal_Some. destruct (proj1 (gi_index st Hg id i) Hid) as (g' & ? & ?).
  by simplify_eq.
Qed.

(** The goal invariant reads three fields only; the plan invariant four and the active goal. *)
Lemma goal_inv_ext st st' :
  goals st' = goals st -> goalsById st' = goalsById st -> activeGoalId st' = activeGoalId st ->
  goal_inv st -> goal_inv st'.
Proof. intros Hg Hi Ha []. split; rewrite ?Hg, ?Hi, ?Ha; done. Qed.

Lemma isActiveGoalAt_ext st st' id rev :
  goals st' = goals st -> goalsById st' = goalsById st -> activeGoalId st' = activeGoalId st ->
  isActiveGoalAt st' id rev = isActiveGoalAt st id rev.
Proof. intros Hg Hi Ha. unfold isActiveGoalAt, getGoal. by rewrite Hg, Hi, Ha. Qed.

Lemma task_inv_ext sha256 st st' :
  goals st' = goals st -> goalsById st' = goalsById st -> activeGoalId st' = activeGoalId st ->
  plans st' = plans st -> pendingDraft st' = pendingDraft st ->
  currentApprovedPlan st' = currentApprovedPlan st -> planBindings st' = planBindings st ->
  task_inv sha256 st -> task_inv sha256 st'.
Proof.
  intros Hg Hi Ha Hp Hd Hc Hb [Hgi []]. split; [by eapply goal_inv_ext|].
  split; rewrite ?Hp, ?Hd, ?Hc, ?Hb; try done.
  intros i p ? ?. erewrite isActiveGoalAt_ext by done. eauto.
Qed.

(** The bookkeeping of runs and agent calls touches none of these fields. *)
Definition sameTask (st st' : TaskProjector) : Prop :=
  activeGoalId st' = activeGoalId st /\ goals st' = goals st /\ goalsById st' = goalsById st /\
  plans st' = plans st /\ pendingDraft st' = pendingDraft st /\
  currentApprovedPlan st' = currentApprovedPlan st /\ planBindings st' = planBindings st /\
  tp_eventsById st' = tp_eventsById st /\ terminalRuns st' = terminalRuns st.

Lemma sameTask_refl st : sameTask st st.
Proof. by repeat split. Qed.

Lemma sameTask_inv sha256 st st' : sameTask st st' -> task_inv sha256 st -> task_inv sha256 st'.
Proof. unfold sameTask. intros. destruct_and!. by apply (task_inv_ext _ st). Qed.

Lemma bindRun_same event r g n m st st' : bindRun event r g n m st = Ok st' -> sameTask st st'.
Proof.
  unfold bindRun. intros H. destruct (tp_runBindings st !! r); returns; [|by repeat split].
  case_match; by repeat split.
Qed.

Lemma assertAgentOrigin_same event o g n m st st' :
  assertAgentOrigin event o g n m st = Ok st' -> sameTask st st'.
Proof.
  unfold assertAgentOrigin. intros H. case_match; [|done]. returns.
  apply bindRun_same in Hstep1. unfold sameTask in *. naive_solver.
Qed.

Lemma assertMutationOrigin_same event o c st st' :
  assertMutationOrigin event o c st = Ok st' -> sameTask st st'.
Proof.
  unfold assertMutationOrigin. destruct o; intros H; [returns; apply sameTask_refl|].
  by eapply assertAgentOrigin_same.
Qed.

Lemma checkProgressOrigin_same event data st st' g :
  checkProgressOrigin event data st = Ok (st', g) -> sameTask st st'.
Proof.
  unfold checkProgressOrigin. intros H. case_match; returns.
  - by eapply assertAgentOrigin_same.
  - apply sameTask_refl.
Qed.

Lemma processRunEvent_inv sha256 event r d st st' :
  processRunEvent event r d st = Ok st' -> task_inv sha256 st -> task_inv sha256 st'.
Proof.
  intros H Hinv. unfold processRunEvent in H.
  destruct d; simpl in H; repeat case_match; returns; try done;
    try (by apply (task_inv_ext _ st)).
  unfold bindFuturePhase16RunStart in H. repeat case_match; returns; try done;
    (eapply sameTask_inv; [by eapply bindRun_same|done]).
Qed.

(** ** Superseding the plans of a goal revision *)

(** No plan is open for decisions or progress. *)
Definition plans_idle (st : TaskProjector) : Prop :=
  pendingDraft st = None /\ currentApprovedPlan st = None /\
  forall i p, plans st !! i = Some p -> mp_status p <> plan_draft /\ mp_status p <> plan_active.

Lemma plan_ok_transition sha256 to id p :
  to <> plan_completed -> to <> plan_draft -> plan_ok sha256 p ->
  plan_ok sha256 (transitionPlanStatus to id p).
Proof. intros ?? []. by split. Qed.

(** With an active goal, superseding its plans closes every open plan. *)
Lemma supersede_idle sha256 st i g id :
  task_inv sha256 st -> activeGoalId st = Some (gc_goalId (mg_content g)) -> goals st !! i = Some g ->
  let st' := supersedeGoalPlans (gc_goalId (mg_content g)) (gc_revision (mg_content g)) id st in
  plans_idle st' /\
  (forall k p', plans st' !! k = Some p' -> exists p, plans st !! k = Some p /\
     mp_content p' = mp_content p /\ plan_ok sha256 p').
Proof.
  intros [Hgoals [Hok Hpend Hcur Hact Hb _ _]] Ha Hg st'.
  assert (Hbound : forall k p, plans st !! k = Some p ->
            pendingDraft st = Some k \/ currentApprovedPlan st = Some k ->
            ofGoalRevision (gc_goalId (mg_content g)) (gc_revision (mg_content g)) p = true).
  { intros k p Hk Hor. apply ofGoalRevision_true.
    destruct (proj1 (isActiveGoalAt_true _ _ _) (Hb k p Hk Hor)) as (j & g' & Hget & _ & Ha' & Hr).
    rewrite Ha in Ha'. injection Ha' as Ha'.
    apply getGoal_Some in Hget as [Hj Hg']. rewrite <-Ha' in Hj.
    assert (goalsById st !! gc_goalId (mg_content g) = Some i) by (apply (gi_index st Hgoals); eauto).
    by simplify_eq. }
  assert (Hclear : forall o, o = pendingDraft st \/ o = currentApprovedPlan st ->
            match derefPlan st o with
            | Some plan => if ofGoalRevision (gc_goalId (mg_content g)) (gc_revision (mg_content g)) plan
                           then None else o
            | None => o end = None).
  { intros [k|] Ho; [|done]. simpl.
    assert (exists p, plans st !! k = Some p) as [p Hp].
    { destruct Ho as [Ho|Ho]; [apply eq_sym, Hpend in Ho|apply eq_sym, Hcur in Ho]; naive_solver. }
    rewrite Hp, (Hbound k p); [done|done|naive_solver]. }
  assert (Hplans : forall k p', plans st' !! k = Some p' -> exists p, plans st !! k = Some p /\
     mp_content p' = mp_content p /\ plan_ok sha256 p' /\
     mp_status p' <> plan_draft /\ mp_status p' <> plan_active).
  { intros k p' Hk. subst st'. unfold supersedeGoalPlans in Hk. simpl in Hk.
    rewrite list_lookup_fmap in Hk. destruct (plans st !! k) as [p|] eqn:Hp; [|done].
    simpl in Hk. injection Hk as <-. exists p. split; [done|].
    pose proof (Hok k p Hp) as Hpok.
    case_match eqn:E; [split; [done|split; [by apply plan_ok_transition|done]]|].
    split; [done|]. split; [done|].
    apply andb_false_iff in E.
    destruct (decide (mp_status p = plan_draft \/ mp_status p = plan_active)) as [Hs|Hs]; [|tauto].
    exfalso. destruct E as [E|E].
    - rewrite (Hbound k p Hp) in E; [done|]. destruct Hs; [left; apply Hpend; eauto|right; eauto].
    - apply orb_false_iff in E as [E1 E2]. apply bool_decide_eq_false in E1, E2. tauto. }
  split; [|naive_solver].
  subst st'. unfold plans_idle, supersedeGoalPlans. simpl.
  split; [apply Hclear; by left|]. split; [apply Hclear; by right|].
  intros k p Hk. destruct (Hplans k p Hk). naive_solver.
Qed.

(** A state whose plans are idle satisfies the plan invariant whatever its goals are. *)
Lemma plan_inv_idle sha256 st st' :
  plan_inv sha256 st -> plans_idle st' -> planBindings st' = planBindings st ->
  (forall k p', plans st' !! k = Some p' -> exists p, plans st !! k = Some p /\
     mp_content p' = mp_content p /\ plan_ok sha256 p') ->
  plan_inv sha256 st'.
Proof.
  intros [_ _ _ _ _ Hchain Huniq] (Hd & Hc & Hs) Hb Hp. split.
  - intros i p Hi. by destruct (Hp i p Hi) as (? & ? & ? & ?).
  - rewrite Hd. intros i. split; [done|]. intros (p & Hi & ?). by destruct (Hs i p Hi).
  - by rewrite Hc.
  - intros i p Hi ?. by destruct (Hs i p Hi).
  - rewrite Hd, Hc. naive_solver.
  - intros i p Hi. destruct (Hp i p Hi) as (q & Hq & -> & _). rewrite Hb. eauto.
  - intros i j p q Hi Hj. destruct (Hp i p Hi) as (p' & ? & -> & _).
    destruct (Hp j q Hj) as (q' & ? & -> & _). eauto.
Qed.

(** Without an active goal no plan is open. *)
Lemma no_goal_idle sha256 st : task_inv sha256 st -> activeGoalId st = None -> plans_idle st.
Proof.
  intros [_ [_ Hpend Hcur Hact Hb _ _]] Ha.
  assert (Hno : forall i p, plans st !! i = Some p ->
            ~ (pendingDraft st = Some i \/ currentApprovedPlan st = Some i)).
  { intros i p Hi Hor. specialize (Hb i p Hi Hor). rename Hb into Hor'. clear Hor. rename Hor' into Hor.
    apply isActiveGoalAt_true in Hor as (? & ? & _ & _ & Ha' & _). congruence. }
  split; [|split].
  - destruct (pendingDraft st) as [i|] eqn:E; [|done].
    destruct (proj1 (Hpend i) eq_refl) as (p & Hp & _). destruct (Hno i p Hp); by left.
  - destruct (currentApprovedPlan st) as [i|] eqn:E; [|done].
    destruct (Hcur i eq_refl) as (p & Hp & _). destruct (Hno i p Hp); by right.
  - intros i p Hp. split; intros Hs; destruct (Hno i p Hp); [left; apply Hpend|right]; eauto.
Qed.

(** ** Goals *)

(** Closing the active goal. *)
Lemma goal_inv_close st i g f :
  goal_inv st -> goals st !! i = Some g -> activeGoalId st = Some (gc_goalId (mg_content g)) ->
  mg_content (f g) = mg_content g -> mg_status (f g) <> goal_active ->
  goal_inv (st <| goals ::= alter f i |> <| activeGoalId := None |>).
Proof.
  intros [Hidx Hact _] Hg Ha Hc Hs. split; simpl; [| |done].
  - intros id j. rewrite Hidx. destruct (decide (j = i)) as [->|Hne].
    + rewrite list_lookup_alter_eq, Hg. simpl. naive_solver congruence.
    + by rewrite list_lookup_alter_ne by done.
  - intros j g'. destruct (decide (j = i)) as [->|Hne].
    + rewrite list_lookup_alter_eq, Hg. simpl. naive_solver.
    + rewrite list_lookup_alter_ne by done. intros Hj. rewrite (Hact j g' Hj), Ha.
      split; [|done]. intros [= Heq].
      assert (goalsById st !! gc_goalId (mg_content g) = Some i) by (apply Hidx; eauto).
      assert (goalsById st !! gc_goalId (mg_content g') = Some j) by (apply Hidx; eauto).
      congruence.
Qed.

(** Adding a goal when none is active. *)
Lemma goal_inv_push st g :
  goal_inv st -> activeGoalId st = None -> goalsById st !! gc_goalId (mg_content g) = None ->
  mg_status g = goal_active ->
  goal_inv (st <| goals := goals st ++ [g] |>
               <| goalsById ::= <[gc_goalId (mg_content g) := length (goals st)]> |>
               <| activeGoalId := Some (gc_goalId (mg_content g)) |>).
Proof.
  intros [Hidx Hact _] Ha Hn Hs. split; simpl.
  - intros id j. rewrite lookup_app. destruct (decide (id = gc_goalId (mg_content g))) as [->|Hne].
    + rewrite lookup_insert_eq. split.
      * intros [= <-]. rewrite lookup_ge_None_2, Nat.sub_diag by lia. eauto.
      * intros (g' & Hj & Hid). destruct (goals st !! j) as [g1|] eqn:E.
        -- simplify_eq. assert (goalsById st !! gc_goalId (mg_content g) = Some j) by (apply Hidx; eauto).
           congruence.
        -- apply lookup_ge_None_1 in E. destruct (j - length (goals st))%nat as [|k] eqn:Ek; [|done].
           f_equal. lia.
    + rewrite lookup_insert_ne, Hidx by done. split; intros (g' & Hj & Hid).
      * exists g'. by rewrite Hj.
      * destruct (goals st !! j) eqn:E; [naive_solver|].
        destruct (j - length (goals st))%nat as [|[|]]; naive_solver.
  - intros i g'. rewrite lookup_app. destruct (goals st !! i) as [g1|] eqn:E; simpl.
    + intros [= <-]. rewrite (Hact i g1 E), Ha. split; [done|]. intros [= Heq].
      assert (goalsById st !! gc_goalId (mg_content g1) = Some i) by (apply Hidx; eauto). congruence.
    + destruct (i - length (goals st))%nat as [|[|]]; naive_solver.
  - intros a [= <-]. exists (length (goals st)). by rewrite lookup_insert_eq.
Qed.

(** The projector's active goal, when it has one. *)
Lemma active_goal_lookup st a :
  goal_inv st -> activeGoalId st = Some a ->
  exists i g, getGoal st a = Some (i, g) /\ goals st !! i = Some g /\
    gc_goalId (mg_content g) = a /\ mg_status g = goal_active.
Proof.
  intros [Hidx Hact Hex] Ha. destruct (Hex a Ha) as [i Hi].
  destruct (proj1 (Hidx a i) Hi) as (g & Hg & Hid). exists i, g. rewrite getGoal_Some.
  rewrite (Hact i g Hg), Hid. done.
Qed.

Lemma createGoal_inv sha256 event data st st' :
  createGoal event data st = Ok st' -> task_inv sha256 st -> task_inv sha256 st'.
Proof.
  intros H Hinv. pose proof Hinv as [Hg Hp]. unfold createGoal in H. returns.
  assert (Hnone : goalsById st !! gcr_goal_id data = None) by (by destruct (goalsById st !! _)).
  destruct (activeGoalId st) as [a|] eqn:Ha.
  - destruct (active_goal_lookup st a Hg Ha) as (i & g & Hget & Hi & Hid & Hs). rewrite Hget in Hstep1.
    subst a. returns.
    destruct (supersede_idle sha256 st i g (eventId event) Hinv Ha Hi) as [Hidle Hplans].
    split.
    + assert (Hc : goal_inv (st <| goals ::= alter (fun g => g <| mg_status := goal_abandoned |>
          <| mg_lastStatusEventId := Some (eventId event) |>) i |> <| activeGoalId := None |>))
        by by apply (goal_inv_close st i g).
      eapply goal_inv_ext; [..|by apply (goal_inv_push _ (Build_MutableGoal
        (Build_GoalRevisionContent (gcr_goal_id data) (gcr_objective data) (gcr_parent_goal_id data) 1)
        (eventId event) None goal_active) Hc)]; done.
    + eapply (plan_inv_idle sha256 st); [done|exact Hidle|done|exact Hplans].
  - returns. split.
    + by apply (goal_inv_push st (Build_MutableGoal
        (Build_GoalRevisionContent (gcr_goal_id data) (gcr_objective data) (gcr_parent_goal_id data) 1)
        (eventId event) None goal_active)).
    + eapply (plan_inv_idle sha256 st); [done|exact (no_goal_idle sha256 st Hinv Ha)|done|].
      intros k p' Hk. exists p'. by split; [|split; [|eapply (pi_ok sha256 st)]].
Qed.

Lemma goal_inv_revise st i g f :
  goal_inv st -> goals st !! i = Some g ->
  gc_goalId (mg_content (f g)) = gc_goalId (mg_content g) -> mg_status (f g) = mg_status g ->
  goal_inv (st <| goals ::= alter f i |>).
Proof.
  intros [Hidx Hact Hex] Hg Hid Hs. split; simpl; [| |done].
  - intros id j. rewrite Hidx. destruct (decide (j = i)) as [->|Hne].
    + rewrite list_lookup_alter_eq, Hg. simpl. naive_solver congruence.
    + by rewrite list_lookup_alter_ne by done.
  - intros j g'. destruct (decide (j = i)) as [->|Hne].
    + rewrite list_lookup_alter_eq, Hg. simpl. intros [= <-]. rewrite Hs, Hid. exact (Hact i g Hg).
    + rewrite list_lookup_alter_ne by done. exact (Hact j g').
Qed.

Lemma reviseGoal_inv sha256 event data st st' :
  reviseGoal event data st = Ok st' -> task_inv sha256 st -> task_inv sha256 st'.
Proof.
  intros H Hinv. pose proof Hinv as [Hg Hp]. unfold reviseGoal in H.
  destruct (getGoal st _) as [[i g]|] eqn:Hget; [|done]. returns.
  pose proof (getGoal_id st _ i g Hg Hget) as Hid. apply getGoal_Some in Hget as [_ Hi].
  rewrite <-Hid in Hstep0.
  destruct (supersede_idle sha256 st i g (eventId event) Hinv Hstep0 Hi) as [Hidle Hplans].
  split.
  - by eapply goal_inv_ext; [..|eapply (goal_inv_revise st i g _ Hg Hi)].
  - by eapply (plan_inv_idle sha256 st).
Qed.

Lemma changeGoalStatus_inv sha256 event data st st' :
  changeGoalStatus event data st = Ok st' -> task_inv sha256 st -> task_inv sha256 st'.
Proof.
  intros H Hinv. pose proof Hinv as [Hg Hp]. unfold changeGoalStatus in H.
  destruct (getGoal st _) as [[i g]|] eqn:Hget; [|done]. returns.
  pose proof (getGoal_id st _ i g Hg Hget) as Hid. apply getGoal_Some in Hget as [_ Hi].
  rewrite <-Hid in Hstep0.
  destruct (supersede_idle sha256 st i g (eventId event) Hinv Hstep0 Hi) as [Hidle Hplans].
  split; [|by eapply (plan_inv_idle sha256 st)].
  eapply goal_inv_ext; [..|eapply (goal_inv_close st i g (fun g => g
    <| mg_status := match gsc_to data with ToAbandoned _ => goal_abandoned
                                      | ToCompleted _ _ => goal_completed end |>
    <| mg_lastStatusEventId := Some (eventId event) |>) Hg Hi Hstep0)]; try done.
  simpl. by destruct (gsc_to data).
Qed.

(** ** Plans *)

(** Updating a plan in place. *)
Lemma plan_inv_alter sha256 st i f :
  plan_inv sha256 st ->
  (forall p, plans st !! i = Some p -> mp_content (f p) = mp_content p /\ plan_ok sha256 (f p) /\
     (mp_status (f p) = plan_draft <-> mp_status p = plan_draft) /\
     (mp_status (f p) = plan_active -> mp_status p = plan_active) /\
     (mp_status p = plan_active \/ mp_status p = plan_completed ->
      mp_status (f p) = plan_active \/ mp_status (f p) = plan_completed)) ->
  plan_inv sha256 (updatePlan i f st).
Proof.
  intros [Hok Hpend Hcur Hact Hb Hchain Huniq] Hf.
  assert (Hl : forall j q, plans (updatePlan i f st) !! j = Some q -> exists p,
            plans st !! j = Some p /\ mp_content q = mp_content p /\ plan_ok sha256 q /\
            (mp_status q = plan_draft <-> mp_status p = plan_draft) /\
            (mp_status q = plan_active -> mp_status p = plan_active)).
  { simpl. intros j q. destruct (decide (j = i)) as [->|Hne].
    - rewrite list_lookup_alter_eq. destruct (plans st !! i) as [p|]; [|done].
      intros [= <-]. exists p. naive_solver.
    - rewrite list_lookup_alter_ne by done. intros Hj. exists q. naive_solver. }
  assert (Hr : forall j p, plans st !! j = Some p -> exists q, plans (updatePlan i f st) !! j = Some q /\
            (mp_status q = plan_draft <-> mp_status p = plan_draft) /\
            (mp_status p = plan_active \/ mp_status p = plan_completed ->
             mp_status q = plan_active \/ mp_status q = plan_completed)).
  { simpl. intros j p Hj. destruct (decide (j = i)) as [->|Hne].
    - rewrite list_lookup_alter_eq, Hj. simpl. exists (f p). naive_solver.
    - rewrite list_lookup_alter_ne by done. exists p. naive_solver. }
  split.
  - intros j q Hj. by destruct (Hl j q Hj) as (? & _ & _ & ? & _).
  - simpl. intros j. rewrite Hpend. split; intros (p & Hj & Hs).
    + destruct (Hr j p Hj) as (q & ? & ? & _). exists q. naive_solver.
    + destruct (Hl j p Hj) as (q & ? & _ & _ & ? & _). exists q. naive_solver.
  - simpl. intros j Hj. destruct (Hcur j Hj) as (p & Hp & Hs).
    destruct (Hr j p Hp) as (q & ? & _ & ?). exists q. naive_solver.
  - intros j q Hj Hs. destruct (Hl j q Hj) as (p & ? & _ & _ & _ & ?). simpl. eauto.
  - intros j q Hj Hor. destruct (Hl j q Hj) as (p & Hp & -> & _). exact (Hb j p Hp Hor).
  - intros j q Hj. destruct (Hl j q Hj) as (p & Hp & -> & _). exact (Hchain j p Hp).
  - intros j k p q Hj Hk. destruct (Hl j p Hj) as (p' & ? & -> & _).
    destruct (Hl k q Hk) as (q' & ? & -> & _). eauto.
Qed.

(** The draft leaves: rejected, or superseded by the next revision. *)
Lemma plan_inv_close_draft sha256 st i f :
  plan_inv sha256 st -> pendingDraft st = Some i ->
  (forall p, plans st !! i = Some p -> mp_content (f p) = mp_content p /\ plan_ok sha256 (f p) /\
     mp_status (f p) <> plan_draft /\ mp_status (f p) <> plan_active) ->
  plan_inv sha256 (updatePlan i f st <| pendingDraft := None |>).
Proof.
  intros [Hok Hpend Hcur Hact Hb Hchain Huniq] Hd Hf.
  destruct (proj1 (Hpend i) Hd) as (p & Hp & Hps). destruct (Hf p Hp) as (Hc & Hok' & Hs1 & Hs2).
  assert (Hl : forall j q, alter f i (plans st) !! j = Some q ->
            (j = i /\ q = f p) \/ (j <> i /\ plans st !! j = Some q)).
  { intros j q. destruct (decide (j = i)) as [->|Hne].
    - rewrite list_lookup_alter_eq, Hp. naive_solver.
    - rewrite list_lookup_alter_ne by done. naive_solver. }
  assert (Hci : currentApprovedPlan st <> Some i).
  { intros Hi. destruct (Hcur i Hi) as (q & ? & ?). simplify_eq. rewrite Hps in *. naive_solver. }
  split; simpl.
  - intros j q [[-> ->]|[? ?]]%Hl; [done|eauto].
  - intros j. split; [done|]. intros (q & [[-> ->]|[Hne Hj]]%Hl & Hs); [done|].
    assert (pendingDraft st = Some j) by (apply Hpend; eauto). congruence.
  - intros j Hj. destruct (Hcur j Hj) as (q & ? & ?). exists q.
    rewrite list_lookup_alter_ne by congruence. done.
  - intros j q [[-> ->]|[? ?]]%Hl ?; [done|eauto].
  - intros j q [[-> ->]|[? ?]]%Hl [?|?]; [done..| |].
    + done.
    + eapply (Hb j); eauto.
  - intros j q [[-> ->]|[? ?]]%Hl; [rewrite Hc|]; eauto.
  - intros j k q q' [[-> ->]|[? ?]]%Hl [[-> ->]|[? ?]]%Hl; rewrite ?Hc; eauto.
Qed.

(** A new draft, of the active goal's revision and later than the plan's earlier revisions. *)
Lemma plan_inv_push sha256 st st' plan b :
  plan_inv sha256 st -> pendingDraft st = None -> plan_ok sha256 plan -> mp_status plan = plan_draft ->
  isActiveGoalAt st (pc_goalId (mp_content plan)) (pc_goalRevision (mp_content plan)) = true ->
  b = {| pcb_goalId := pc_goalId (mp_content plan); pcb_goalRevision := pc_goalRevision (mp_content plan);
         pcb_latestRevision := pc_revision (mp_content plan) |} ->
  (forall b', planBindings st !! pc_planId (mp_content plan) = Some b' ->
     pcb_goalId b' = pcb_goalId b /\ pcb_goalRevision b' = pcb_goalRevision b /\
     pcb_latestRevision b' < pcb_latestRevision b) ->
  goals st' = goals st -> goalsById st' = goalsById st -> activeGoalId st' = activeGoalId st ->
  plans st' = plans st ++ [plan] -> pendingDraft st' = Some (length (plans st)) ->
  currentApprovedPlan st' = currentApprovedPlan st ->
  planBindings st' = <[pc_planId (mp_content plan) := b]> (planBindings st) ->
  plan_inv sha256 st'.
Proof.
  intros [Hok Hpend Hcur Hact Hb Hchain Huniq] Hd Hpo Hs Ha -> Hlt Eg Ei Ea Ep Ed Ec Eb.
  assert (Hl : forall j q, plans st' !! j = Some q ->
            (j = length (plans st) /\ q = plan) \/ (j < length (plans st))%nat /\ plans st !! j = Some q).
  { rewrite Ep. intros j q [?|[? Hj]]%lookup_app_Some.
    - right. split; [by eapply lookup_lt_Some|done].
    - left. apply list_lookup_singleton_Some in Hj as [??]. split; [lia|done]. }
  assert (Hold : forall j q, plans st !! j = Some q -> pc_planId (mp_content q) = pc_planId (mp_content plan) ->
            pc_revision (mp_content q) < pc_revision (mp_content plan)).
  { intros j q Hj Heq. destruct (Hchain j q Hj) as (b' & Hb' & _ & _ & Hle). rewrite Heq in Hb'.
    destruct (Hlt b' Hb') as (_ & _ & Hlt'). simpl in Hlt'. lia. }
  split; rewrite ?Ed, ?Ec, ?Eb.
  - intros j q [[-> ->]|[_ ?]]%Hl; eauto.
  - intros j. split.
    + intros [= <-]. exists plan. rewrite Ep, lookup_app_r, Nat.sub_diag by lia. done.
    + intros (q & [[-> ->]|[_ ?]]%Hl & ?); [done|].
      assert (pendingDraft st = Some j) by (apply Hpend; eauto). congruence.
  - intros j Hj. destruct (Hcur j Hj) as (q & Hq & ?). exists q. rewrite Ep.
    split; [by apply lookup_app_l_Some|done].
  - intros j q [[-> ->]|[_ ?]]%Hl ?; [congruence|eauto].
  - intros j q Hj Hor. erewrite isActiveGoalAt_ext by done. destruct (Hl j q Hj) as [[-> ->]|[? ?]]; [done|].
    eapply (Hb j); [done|]. destruct Hor as [[= Hjl]|]; [lia|auto].
  - intros j q [[-> ->]|[_ Hj]]%Hl.
    + eexists. rewrite lookup_insert_eq. repeat split. simpl. lia.
    + destruct (Hchain j q Hj) as (b' & Hb' & Hg' & Hr' & Hle).
      destruct (decide (pc_planId (mp_content q) = pc_planId (mp_content plan))) as [Heq|Hne].
      * rewrite Heq in *. destruct (Hlt b' Hb') as (E1 & E2 & E3). simpl in *.
        eexists. rewrite lookup_insert_eq. repeat split; simpl; [congruence..|lia].
      * exists b'. by rewrite lookup_insert_ne by done.
  - intros j k p q [[-> ->]|[_ Hj]]%Hl [[-> ->]|[_ Hk]]%Hl Heq Hr; [done|..].
    + symmetry in Heq. specialize (Hold k q Hk Heq). lia.
    + specialize (Hold j p Hj Heq). lia.
    + eauto.
Qed.

Lemma plan_ok_new sha256 event content h :
  sha256Canonical sha256 (planContentJson content) = Ok h ->
  plan_ok sha256 {|
    mp_completed := None; mp_content := content; mp_createdEventId := event;
    mp_decisionEventId := None; mp_items := newItem <$> pc_items content;
    mp_planSha256 := h; mp_status := plan_draft; mp_statusTransitions := [] |}.
Proof.
  assert (Hi : forall a, a ∈ newItem <$> pc_items content -> mi_status a = item_pending).
  { intros a (c & -> & _)%list_elem_of_fmap. done. }
  intros Hh. split; simpl; [done| | | |done|by intros _].
  - induction (pc_items content) as [|c l IH]; [done|]. simpl. f_equal. apply IH.
    intros. apply Hi. by right.
  - unfold inProgress. intros i j a b Ha%list_elem_of_lookup_2%Hi _. congruence.
  - intros a Ha%Hi. congruence.
Qed.

Lemma assertPlanHash_ok sha256 event content h u :
  assertPlanHash sha256 event content h = Ok u ->
  sha256Canonical sha256 (planContentJson content) = Ok h.
Proof.
  unfold assertPlanHash, sha256Canonical. intros H. destruct (canonicalJson _); [|done].
  apply bind_ok in H as (? & _ & H). returns. unfold mbind. cbn [result_bind]. congruence.
Qed.

Lemma activeGoalForPlan_ok event content st u :
  activeGoalForPlan event content st = Ok u ->
  isActiveGoalAt st (pc_goalId content) (pc_goalRevision content) = true.
Proof. unfold activeGoalForPlan. intros H. by returns. Qed.

Lemma proposePlan_inv sha256 event data st st' :
  proposePlan sha256 event data st = Ok st' -> task_inv sha256 st -> task_inv sha256 st'.
Proof.
  intros H Hinv. unfold proposePlan in H. returns.
  apply activeGoalForPlan_ok in Hstep. apply assertPlanHash_ok in Hstep0.
  apply assertMutationOrigin_same in Hstep4. rename v4 into st1.
  assert (task_inv sha256 st1) as [Hg Hp] by by eapply sameTask_inv.
  unfold sameTask in Hstep4. destruct_and!.
  split; [by eapply goal_inv_ext; [..|exact Hg]|].
  eapply plan_inv_push; [exact Hp|congruence|by apply plan_ok_new|..]; simpl; try done.
  - by erewrite isActiveGoalAt_ext by done.
  - intros b' Hb'. destruct (planBindings st !! _) eqn:E; [done|]. congruence.
  - by rewrite Hstep1.
Qed.

Lemma revisePlan_inv sha256 event data st st' :
  revisePlan sha256 event data st = Ok st' -> task_inv sha256 st -> task_inv sha256 st'.
Proof.
  intros H Hinv. unfold revisePlan in H. returns.
  apply activeGoalForPlan_ok in Hstep. apply assertPlanHash_ok in Hstep0.
  destruct (match getPending st with Some p => Some p | None => getCurrent st end) as [base|] eqn:Hbase; [|done]. returns.
  destruct (planBindings st !! _) as [binding|] eqn:Hbind; [|done]. returns.
  match goal with H : assertMutationOrigin _ _ _ _ = Ok ?s |- _ =>
    rename s into st1; apply assertMutationOrigin_same in H; rename H into Hsame end.
  assert (task_inv sha256 st1) as [Hg Hp] by by eapply sameTask_inv.
  unfold sameTask in Hsame. destruct_and!.
  set (st2 := match pendingDraft st1 with
              | Some i => updatePlan i (transitionPlanStatus plan_superseded (eventId event)) st1
                            <| pendingDraft := None |>
              | None => st1 end).
  assert (Hp2 : plan_inv sha256 st2).
  { unfold st2. destruct (pendingDraft st1) as [i|] eqn:Hd; [|done].
    apply plan_inv_close_draft; [done..|]. intros p Hi.
    split; [done|]. split; [apply plan_ok_transition; [done..|by eapply (pi_ok _ _ Hp)]|done]. }
  assert (pendingDraft st2 = None /\ goals st2 = goals st /\ goalsById st2 = goalsById st /\
    activeGoalId st2 = activeGoalId st /\ planBindings st2 = planBindings st) as (? & ? & ? & ? & Eb).
  { unfold st2. destruct (pendingDraft st1) eqn:Hd; simpl; split_and!; congruence. }
  split; [destruct (pendingDraft st1); by eapply goal_inv_ext; [..|exact Hg]|].
  eapply (plan_inv_push sha256 st2); [exact Hp2|done|by apply plan_ok_new|done|..].
  - by erewrite isActiveGoalAt_ext by done.
  - done.
  - simpl. intros b' Hb'. assert (b' = binding) as -> by congruence. simpl. split_and!; [congruence..|lia].
  - unfold st2. by destruct (pendingDraft st1).
  - unfold st2. by destruct (pendingDraft st1).
  - unfold st2. by destruct (pendingDraft st1).
  - unfold st2. by destruct (pendingDraft st1).
  - unfold st2. by destruct (pendingDraft st1).
  - unfold st2. by destruct (pendingDraft st1).
  - unfold st2. destruct (pendingDraft st1); simpl; repeat f_equal; congruence.
Qed.

Lemma exactPendingDecision_ok event target st i draft :
  exactPendingDecision event target st = Ok (i, draft) ->
  pendingDraft st = Some i /\ plans st !! i = Some draft /\ mp_status draft = plan_draft /\
  matchesTarget draft target = true /\
  isActiveGoalAt st (pt_goal_id target) (pt_goal_revision target) = true.
Proof.
  unfold exactPendingDecision, getPending. intros H.
  destruct (pendingDraft st) as [k|]; [|done]. simpl in H. destruct (plans st !! k) eqn:E; [|done].
  returns. by simplify_eq.
Qed.

Lemma exactCurrentPlan_ok event target st i plan :
  exactCurrentPlan event target st = Ok (i, plan) ->
  currentApprovedPlan st = Some i /\ plans st !! i = Some plan /\ matchesTarget plan target = true.
Proof.
  unfold exactCurrentPlan, getCurrent. intros H.
  destruct (currentApprovedPlan st) as [k|]; [|done]. simpl in H. destruct (plans st !! k) eqn:E; [|done].
  returns. by simplify_eq.
Qed.

Lemma rejectPlan_inv sha256 event target st st' :
  rejectPlan event target st = Ok st' -> task_inv sha256 st -> task_inv sha256 st'.
Proof.
  intros H [Hg Hp]. unfold rejectPlan in H. returns. destruct v as [i draft]. returns.
  apply exactPendingDecision_ok in Hstep as (Hd & Hi & _).
  split; [by eapply goal_inv_ext; [..|exact Hg]|].
  apply (plan_inv_close_draft sha256 st); [done..|]. intros p Hi'.
  pose proof (pi_ok _ _ Hp i p Hi') as []. by split; [|split; [split|]].
Qed.

(** Carried items are completed or skipped ones with the same content. *)
Definition carryItem (previous : MutablePlan) (item : MutablePlanItem) : MutablePlanItem :=
  match carryTerminalItems previous {|
    mp_completed := None; mp_content := mp_content previous; mp_createdEventId := "";
    mp_decisionEventId := None; mp_items := [item]; mp_planSha256 := ""; mp_status := plan_draft;
    mp_statusTransitions := [] |} with [i] => i | _ => item end.

Lemma carryTerminalItems_map previous next :
  carryTerminalItems previous next = carryItem previous <$> mp_items next.
Proof. unfold carryTerminalItems. by apply list_fmap_ext. Qed.

Lemma carryItem_spec previous item :
  carryItem previous item = item \/
  (exists prior, prior ∈ mp_items previous /\ mi_status (carryItem previous item) = mi_status prior /\
     (mi_status prior = item_completed \/ mi_status prior = item_skipped) /\
     mi_content prior = mi_content item /\ mi_content (carryItem previous item) = mi_content item).
Proof.
  unfold carryItem, carryTerminalItems. simpl.
  destruct (List.find _ (mp_items previous)) as [prior|] eqn:Hf; [|by left].
  apply List.find_some in Hf as [Hin Hsame]. apply list_elem_of_In in Hin.
  case_match eqn:Hs; [by left|]. right. exists prior. simpl.
  unfold samePlanItemContent in Hsame. returns.
  split; [done|]. split; [done|]. split.
  - apply andb_false_iff in Hs as [Hs|Hs]; apply negb_false_iff, bool_decide_eq_true in Hs; auto.
  - split; [|done]. destruct (mi_content prior), (mi_content item). simpl in *. congruence.
Qed.

Lemma carryItem_content previous item : mi_content (carryItem previous item) = mi_content item.
Proof. destruct (carryItem_spec previous item) as [->|(? & ? & ? & ? & ? & ?)]; done. Qed.

Lemma plan_ok_carry sha256 previous draft :
  plan_ok sha256 previous -> plan_ok sha256 draft -> mp_status draft = plan_draft ->
  plan_ok sha256 (draft <| mp_items := carryTerminalItems previous draft |>
                        <| mp_status := plan_active |>).
Proof.
  intros [_ _ _ Hreq _ _] [Hh Hi _ _ _ Hd] Hs. specialize (Hd Hs).
  assert (Hin : forall i a, carryTerminalItems previous draft !! i = Some a ->
            (mi_status a = item_pending \/ mi_status a = item_completed \/
             mi_status a = item_skipped /\ pi_required (mi_content a) = false)).
  { rewrite carryTerminalItems_map. intros i a. rewrite list_lookup_fmap.
    destruct (mp_items draft !! i) as [b|] eqn:Hb; [|done]. intros [= <-].
    apply list_elem_of_lookup_2 in Hb.
    destruct (carryItem_spec previous b) as [->|(prior & Hp & -> & Hor & Hc & ->)]; [auto|].
    rewrite <-Hc. naive_solver. }
  split; simpl; [done| | | |done|done].
  - rewrite carryTerminalItems_map, <-list_fmap_compose, <-Hi. apply list_fmap_ext.
    intros i b _. apply carryItem_content.
  - unfold inProgress. intros i j a b Ha%Hin _ ?. naive_solver congruence.
  - intros a [i Ha%Hin]%list_elem_of_lookup Hsk. naive_solver congruence.
Qed.


(** The plans after an approval. *)
Lemma approvePlan_plans sha256 event target st st' i draft :
  approvePlan event target st = Ok st' -> plan_inv sha256 st ->
  exactPendingDecision event target st = Ok (i, draft) ->
  goals st' = goals st /\ goalsById st' = goalsById st /\ activeGoalId st' = activeGoalId st /\
  planBindings st' = planBindings st /\ pendingDraft st' = None /\ currentApprovedPlan st' = Some i /\
  (exists q, plans st' !! i = Some q /\ mp_content q = mp_content draft /\
     mp_planSha256 q = mp_planSha256 draft /\ plan_ok sha256 q /\ mp_status q = plan_active) /\
  (forall k q, plans st' !! k = Some q -> k <> i -> exists p, plans st !! k = Some p /\
     mp_content q = mp_content p /\ plan_ok sha256 q /\ mp_status q <> plan_active /\
     (mp_status q = plan_draft -> mp_status p = plan_draft)).
Proof.
  intros H Hp Hex. unfold approvePlan in H. rewrite Hex in H. returns.
  apply exactPendingDecision_ok in Hex as (Hd & Hi & Hs & _).
  pose proof Hp as [Hok _ Hcur Hact _ _ _].
  pose proof (Hok i draft Hi) as Hdraft.
  assert (Hplain : plan_ok sha256 (draft <| mp_status := plan_active |>)).
  { destruct Hdraft as [? ? ? ? _ _]. by split. }
  destruct (currentApprovedPlan st) as [j|] eqn:Hc.
  - destruct (Hcur j eq_refl) as (previous & Hj & Hjs).
    unfold getCurrent. rewrite Hc. simpl. rewrite Hj.
    assert (Hne : i <> j) by (intros ->; simplify_eq; rewrite Hs in Hjs; naive_solver).
    pose proof (plan_ok_carry sha256 previous draft (Hok j _ Hj) Hdraft Hs) as Hcarry.
    assert (Hcarry' : forall ts d, plan_ok sha256 (draft <| mp_items := carryTerminalItems previous draft |>
              <| mp_status := plan_active |> <| mp_statusTransitions := ts |> <| mp_decisionEventId := d |>)).
    { intros ts d. destruct Hcarry. by split. }
    destruct (decide (mp_status previous = plan_active)) as [Ha|Ha].
    + rewrite bool_decide_eq_true_2 by done. simpl. split_and!; try done.
      * eexists. rewrite list_lookup_alter_eq, list_lookup_alter_ne, list_lookup_alter_eq, Hi by done.
        simpl. split; [done|]. split; [done|]. split; [done|]. split; [apply Hcarry'|done].
      * intros k q Hk Hki. rewrite list_lookup_alter_ne in Hk by done.
        destruct (decide (k = j)) as [->|Hkj].
        -- rewrite list_lookup_alter_eq, list_lookup_alter_ne, Hj in Hk by done. simpl in Hk.
           injection Hk as <-. exists previous. split; [done|]. split; [done|].
           split; [apply plan_ok_transition; [done..|by eapply Hok]|done].
        -- rewrite !list_lookup_alter_ne in Hk by done. exists q. split; [done|]. split; [done|].
           split; [by eapply Hok|]. split; [|done]. intros Hq. specialize (Hact k q Hk Hq). congruence.
    + rewrite bool_decide_eq_false_2 by done. simpl. split_and!; try done.
      * eexists. rewrite !list_lookup_alter_eq, Hi by done.
        simpl. split; [done|]. split; [done|]. split; [done|]. split; [apply Hcarry'|done].
      * intros k q Hk Hki. rewrite !list_lookup_alter_ne in Hk by done.
        exists q. split; [done|]. split; [done|]. split; [by eapply Hok|]. split; [|done].
        intros Hq. pose proof (Hact k q Hk Hq). congruence.
  - simpl. split_and!; try done.
    + eexists. rewrite list_lookup_alter_eq, Hi. simpl. split; [done|]. split; [done|]. split; [done|].
      split; [|done]. destruct Hplain. by split.
    + intros k q Hk Hki. rewrite list_lookup_alter_ne in Hk by done. exists q.
      split; [done|]. split; [done|]. split; [by eapply Hok|]. split; [|done].
      intros Hq. pose proof (Hact k q Hk Hq). congruence.
Qed.

Lemma approvePlan_length event target st st' :
  approvePlan event target st = Ok st' -> length (plans st') = length (plans st).
Proof.
  unfold approvePlan. intros H. returns. destruct v as [i d]. returns. simpl.
  rewrite length_alter. repeat case_match; simpl; by rewrite ?length_alter.
Qed.

Lemma approvePlan_inv sha256 event target st st' :
  approvePlan event target st = Ok st' -> task_inv sha256 st -> task_inv sha256 st'.
Proof.
  intros H [Hg Hp]. pose proof H as H'. unfold approvePlan in H'.
  apply bind_ok in H' as ([i draft] & Hex & _).
  destruct (approvePlan_plans sha256 _ _ _ _ _ _ H Hp Hex)
    as (Eg & Ei & Ea & Eb & Ed & Ec & (qi & Hqi & Hqc & _ & Hqo & Hqs) & Hl).
  apply exactPendingDecision_ok in Hex as (Hd & Hi & Hs & _).
  split; [by eapply goal_inv_ext|]. destruct Hp as [Hok Hpend Hcur Hact Hb Hchain Huniq].
  assert (Hl' : forall k q, plans st' !! k = Some q -> exists p, plans st !! k = Some p /\
            mp_content q = mp_content p).
  { intros k q Hk. destruct (decide (k = i)) as [->|Hne].
    - simplify_eq. eauto.
    - destruct (Hl k q Hk Hne) as (p & ? & ? & _). eauto. }
  split; rewrite ?Ed, ?Ec, ?Eb.
  - intros k q Hk. destruct (decide (k = i)) as [->|Hne]; [by simplify_eq|].
    by destruct (Hl k q Hk Hne) as (p & _ & _ & ? & _).
  - intros k. split; [done|]. intros (q & Hk & Hq). destruct (decide (k = i)) as [->|Hne].
    + simplify_eq. congruence.
    + destruct (Hl k q Hk Hne) as (p & Hpk & _ & _ & _ & Hdr).
      assert (pendingDraft st = Some k) by (apply Hpend; eauto). congruence.
  - intros k [= <-]. eauto.
  - intros k q Hk Hq. destruct (decide (k = i)) as [->|Hne]; [done|].
    by destruct (Hl k q Hk Hne) as (p & _ & _ & _ & ? & _).
  - intros k q Hk [?|[= <-]]; [done|]. simplify_eq. rewrite Hqc.
    erewrite isActiveGoalAt_ext by done. eauto.
  - intros k q Hk. destruct (Hl' k q Hk) as (p & ? & ->). eauto.
  - intros k k' q q' Hk Hk'. destruct (Hl' k q Hk) as (p & ? & ->).
    destruct (Hl' k' q' Hk') as (p' & ? & ->). eauto.
Qed.

(** What the checks of a progress event establish. *)
Lemma checkItemTransition_ok event data plan k :
  checkItemTransition event data plan = Ok k ->
  exists item, mp_items plan !! k = Some item /\ pi_id (mi_content item) = pis_item_id data /\
    mi_status item = pis_from data /\ isAllowedItemTransition (pis_from data) (pis_to data) = true /\
    (pis_to data = item_skipped -> pi_required (mi_content item) = false) /\
    (pis_to data = item_in_progress -> forall j b, j <> k -> mp_items plan !! j = Some b ->
       mi_status b <> item_in_progress) /\
    (pis_to data = item_completed -> pis_evidence_event_ids data <> []).
Proof.
  unfold checkItemTransition. intros H.
  destruct (list_find _ (mp_items plan)) as [[k' item]|] eqn:Hf; [|done].
  apply list_find_Some in Hf as (Hk & Hid & _). simpl in Hid.
  repeat (apply bind_ok in H as (? & ?%throw_when_ok & H)). injection H as <-.
  exists item. split_and!; try done.
  - by returns.
  - by returns.
  - intros Hto. rewrite Hto, bool_decide_eq_true_2 in H2 by done. by apply andb_false_iff in H2 as [|].
  - intros Hto j b Hne Hj Hb. rewrite Hto in H3. simpl in H3.
    apply not_true_iff_false in H3. apply H3, existsb_exists. exists (j, b).
    rewrite <-list_elem_of_In. split.
    + apply list_elem_of_lookup. exists j. by rewrite list_lookup_imap, Hj.
    + by rewrite andb_true_iff, negb_true_iff, bool_decide_eq_true, bool_decide_eq_false.
  - intros Hto Hnil. by rewrite Hto, Hnil in H5.
Qed.

Lemma plan_ok_item sha256 event data plan k :
  plan_ok sha256 plan -> mp_status plan = plan_active ->
  checkItemTransition event data plan = Ok k ->
  plan_ok sha256 (plan <| mp_items ::= alter (applyItemTransition event data) k |>).
Proof.
  intros [Hh Hi Hone Hreq _ _] Hs H.
  apply checkItemTransition_ok in H as (item & Hk & _ & _ & Hal & Hskip & Hprog & _).
  assert (Hl : forall j a, alter (applyItemTransition event data) k (mp_items plan) !! j = Some a ->
            (j = k /\ a = applyItemTransition event data item) \/ (j <> k /\ mp_items plan !! j = Some a)).
  { intros j a. destruct (decide (j = k)) as [->|Hne].
    - rewrite list_lookup_alter_eq, Hk. naive_solver.
    - rewrite list_lookup_alter_ne by done. naive_solver. }
  split; simpl; [done| | | |congruence|congruence].
  - rewrite <-Hi. apply list_eq. intros j. rewrite !list_lookup_fmap.
    destruct (decide (j = k)) as [->|Hne].
    + by rewrite list_lookup_alter_eq, Hk.
    + by rewrite list_lookup_alter_ne by done.
  - unfold inProgress in *. intros i j a b [[-> ->]|[Hi1 Hi2]]%Hl [[-> ->]|[Hj1 Hj2]]%Hl; simpl; [done|..].
    + intros Hto Hb. by destruct (Hprog Hto j b).
    + intros Ha Hto. by destruct (Hprog Hto i a).
    + eauto.
  - intros a [j [[-> ->]|[Hne Hj]]%Hl]%list_elem_of_lookup; simpl; [done|].
    apply Hreq. by eapply list_elem_of_lookup_2.
Qed.

Lemma changePlanItemStatus_inv sha256 event data st st' :
  changePlanItemStatus event data st = Ok st' -> task_inv sha256 st -> task_inv sha256 st'.
Proof.
  intros H Hinv. unfold changePlanItemStatus in H.
  apply bind_ok in H as ([i plan] & (_ & Hi & _)%exactCurrentPlan_ok & H).
  apply bind_ok in H as ([] & Hact%throw_when_ok & H). returns.
  destruct v as [st1 g]. returns. apply checkProgressOrigin_same in Hstep.
  pose proof (sameTask_inv sha256 _ _ Hstep Hinv) as [Hg Hp].
  unfold sameTask in Hstep. destruct_and!. split; [by eapply goal_inv_ext; [..|exact Hg]|].
  apply plan_inv_alter; [done|]. intros p Hpi. assert (p = plan) as -> by congruence.
  split; [done|]. split; [|done]. apply plan_ok_item; [|done..]. by eapply (pi_ok _ _ Hp).
Qed.

Lemma completePlan_inv sha256 event data st st' :
  completePlan event data st = Ok st' -> task_inv sha256 st -> task_inv sha256 st'.
Proof.
  intros H [Hg Hp]. unfold completePlan in H.
  apply bind_ok in H as ([i plan] & (_ & Hi & _)%exactCurrentPlan_ok & H). returns.
  split; [by eapply goal_inv_ext; [..|exact Hg]|].
  apply plan_inv_alter; [done|]. intros p Hpi. assert (p = plan) as -> by congruence.
  split; [done|]. split; [|simpl; naive_solver congruence].
  destruct (pi_ok _ _ Hp i plan Hi) as []. by split.
Qed.

(** ** Every step of the fold *)

Lemma task_inv_init sha256 : task_inv sha256 task_init.
Proof.
  split; split; simpl; try done.
  - intros id i. rewrite lookup_empty, lookup_nil. split; [done|]. by intros (g & ? & _).
  - intros i. rewrite lookup_nil. split; [done|]. by intros (p & ? & _).
Qed.

Lemma processSessionEvent_inv sha256 event d st st' :
  processSessionEvent sha256 event d st = Ok st' -> task_inv sha256 st -> task_inv sha256 st'.
Proof.
  intros H Hinv. unfold processSessionEvent in H.
  assert (Ht : task_inv sha256 (st <| trackingMode := phase16 |>)) by by apply (task_inv_ext _ st).
  destruct d; try (by returns); revert H Ht.
  - apply createGoal_inv.
  - apply reviseGoal_inv.
  - apply changeGoalStatus_inv.
  - apply proposePlan_inv.
  - apply revisePlan_inv.
  - apply approvePlan_inv.
  - apply rejectPlan_inv.
  - apply changePlanItemStatus_inv.
  - apply completePlan_inv.
Qed.

Lemma task_step_inv sha256 st event st' :
  task_step sha256 st event = Ok st' -> task_inv sha256 st -> task_inv sha256 st'.
Proof.
  intros H Hinv. unfold task_step in H. apply bind_ok in H as (st1 & H & H').
  assert (Hinv1 : task_inv sha256 st1).
  { destruct (scope event); [by eapply processRunEvent_inv|by eapply processSessionEvent_inv]. }
  destruct (shouldIndexReferenceTarget event); returns; [by apply (task_inv_ext _ st1)|done].
Qed.

Lemma runProjector_inv sha256 events st : runProjector sha256 events = Ok st -> task_inv sha256 st.
Proof.
  apply foldM_invariant; [|apply task_inv_init]. intros ? ? ? _ Hx Hs. by eapply task_step_inv.
Qed.
