(* ===== verification/TaskStateSpec.v ===== *)
(** * The lifecycle that the task state machine implements

    An abstract view of the projector of [TaskState.v] - the active goal
    revision, the draft waiting for a decision and the approved plan - with
    its step relation, and the theorem that every stored event the projector
    accepts is one of these steps. *)

From S2P Require Import Prelude JsString CanonicalJson Domain Events EventLog PlanEvidence TaskState TaskStateFacts.
#[local] Open Scope Z_scope.

(** ** The specification *)

Record Lifecycle : Type := {
  lc_goal : option (string * Z);
  lc_draft : option PlanRevisionRef;
  lc_plan : option (PlanRevisionRef * bool);
}.

Definition bound (goal : string * Z) (plan : PlanRevisionRef) : Prop :=
  prr_goalId plan = fst goal /\ prr_goalRevision plan = snd goal.

Inductive lifecycle_step : Lifecycle -> Lifecycle -> Prop :=
| lc_stutter l : lifecycle_step l l
| lc_create_goal l id : lifecycle_step l (Build_Lifecycle (Some (id, 1)) None None)
| lc_revise_goal id r d p :
    lifecycle_step (Build_Lifecycle (Some (id, r)) d p) (Build_Lifecycle (Some (id, r + 1)) None None)
| lc_close_goal g d p :
    lifecycle_step (Build_Lifecycle (Some g) d p) (Build_Lifecycle None None None)
| lc_propose g d : bound g d -> prr_revision d = 1 ->
    lifecycle_step (Build_Lifecycle (Some g) None None) (Build_Lifecycle (Some g) (Some d) None)
| lc_revise_draft g b d p : bound g d -> prr_planId d = prr_planId b -> prr_revision b < prr_revision d ->
    lifecycle_step (Build_Lifecycle (Some g) (Some b) p) (Build_Lifecycle (Some g) (Some d) p)
| lc_revise_plan g b c d : bound g d -> prr_planId d = prr_planId b -> prr_revision b < prr_revision d ->
    lifecycle_step (Build_Lifecycle (Some g) None (Some (b, c)))
                   (Build_Lifecycle (Some g) (Some d) (Some (b, c)))
| lc_approve g d p :
    lifecycle_step (Build_Lifecycle (Some g) (Some d) p) (Build_Lifecycle (Some g) None (Some (d, false)))
| lc_reject g d p :
    lifecycle_step (Build_Lifecycle (Some g) (Some d) p) (Build_Lifecycle (Some g) None p)
| lc_complete g d p :
    lifecycle_step (Build_Lifecycle (Some g) d (Some (p, false))) (Build_Lifecycle (Some g) d (Some (p, true))).

(** ** The view of a projector *)

Definition lifecycle (st : TaskProjector) : Lifecycle := {|
  lc_goal := match activeGoalId st with
             | Some a => match getGoal st a with
                         | Some (_, g) => Some (a, gc_revision (mg_content g))
                         | None => None
                         end
             | None => None
             end;
  lc_draft := planRef <$> getPending st;
  lc_plan := (fun p => (planRef p, mp_status p === plan_completed)) <$> getCurrent st |}.

Lemma lifecycle_ext st st' :
  goals st' = goals st -> goalsById st' = goalsById st -> activeGoalId st' = activeGoalId st ->
  plans st' = plans st -> pendingDraft st' = pendingDraft st ->
  currentApprovedPlan st' = currentApprovedPlan st -> lifecycle st' = lifecycle st.
Proof.
  intros Hg Hi Ha Hp Hd Hc. unfold lifecycle, getPending, getCurrent, derefPlan, getGoal.
  by rewrite Hg, Hi, Ha, Hp, Hd, Hc.
Qed.

Lemma lifecycle_same st st' : sameTask st st' -> lifecycle st' = lifecycle st.
Proof. unfold sameTask. intros. destruct_and!. by apply lifecycle_ext. Qed.

Lemma sameTask_plans st st' :
  sameTask st st' -> getPending st' = getPending st /\ getCurrent st' = getCurrent st.
Proof.
  unfold sameTask, getPending, getCurrent, derefPlan. intros (_ & _ & _ & -> & -> & -> & _). done.
Qed.

Lemma lifecycle_goal st id rev :
  isActiveGoalAt st id rev = true -> lc_goal (lifecycle st) = Some (id, rev).
Proof.
  intros (i & g & Hget & _ & Ha & <-)%isActiveGoalAt_true. simpl. by rewrite Ha, Hget.
Qed.

Lemma lifecycle_goal_ext st st' :
  goals st' = goals st -> goalsById st' = goalsById st -> activeGoalId st' = activeGoalId st ->
  lc_goal (lifecycle st') = lc_goal (lifecycle st).
Proof. intros Hg Hi Ha. simpl. unfold getGoal. by rewrite Hg, Hi, Ha. Qed.

Lemma lifecycle_idle st :
  plans_idle st -> lifecycle st = Build_Lifecycle (lc_goal (lifecycle st)) None None.
Proof. intros (Hd & Hc & _). unfold lifecycle, getPending, getCurrent. by rewrite Hd, Hc. Qed.

Lemma lifecycle_eta l : l = Build_Lifecycle (lc_goal l) (lc_draft l) (lc_plan l).
Proof. by destruct l. Qed.

(** A step is found by exhibiting both views field by field. *)
Lemma lifecycle_step_eq st st' g d p g' d' p' :
  lc_goal (lifecycle st) = g -> lc_draft (lifecycle st) = d -> lc_plan (lifecycle st) = p ->
  lc_goal (lifecycle st') = g' -> lc_draft (lifecycle st') = d' -> lc_plan (lifecycle st') = p' ->
  lifecycle_step (Build_Lifecycle g d p) (Build_Lifecycle g' d' p') ->
  lifecycle_step (lifecycle st) (lifecycle st').
Proof. intros <- <- <- <- <- <-. by rewrite <-!lifecycle_eta. Qed.

(** ** Goals *)

Lemma createGoal_lifecycle sha256 event data st st' :
  createGoal event data st = Ok st' -> task_inv sha256 st -> lifecycle_step (lifecycle st) (lifecycle st').
Proof.
  intros H Hinv. pose proof Hinv as [Hg Hp]. unfold createGoal in H. returns.
  assert (Hnew : forall st1 : TaskProjector, pendingDraft st1 = None /\ currentApprovedPlan st1 = None ->
    lifecycle (st1 <| goals := goals st1 ++ [{|
      mg_content := {| gc_goalId := gcr_goal_id data; gc_objective := gcr_objective data;
                       gc_parentGoalId := gcr_parent_goal_id data; gc_revision := 1 |};
      mg_createdEventId := eventId event; mg_lastStatusEventId := None; mg_status := goal_active |}] |>
      <| goalsById ::= <[gcr_goal_id data := length (goals st1)]> |>
      <| activeGoalId := Some (gcr_goal_id data) |>)
    = Build_Lifecycle (Some (gcr_goal_id data, 1)) None None).
  { intros st1 [Hd Hc]. unfold lifecycle, getGoal, getPending, getCurrent. simpl.
    by rewrite Hd, Hc, lookup_insert_eq, lookup_app_r, Nat.sub_diag by lia. }
  destruct (activeGoalId st) as [a|] eqn:Ha.
  - destruct (active_goal_lookup st a Hg Ha) as (i & g & Hget & Hi & Hid & Hs). rewrite Hget in Hstep1.
    subst a. returns.
    destruct (supersede_idle sha256 st i g (eventId event) Hinv Ha Hi) as [(Hd & Hc & _) _].
    match goal with |- lifecycle_step _ (lifecycle ?s) =>
      assert (lifecycle s = Build_Lifecycle (Some (gcr_goal_id data, 1)) None None) as -> end;
      [|constructor].
    etransitivity; [apply lifecycle_ext|apply (Hnew (supersedeGoalPlans (gc_goalId (mg_content g))
      (gc_revision (mg_content g)) (eventId event) st <| goals ::= alter (fun g => g
      <| mg_status := goal_abandoned |> <| mg_lastStatusEventId := Some (eventId event) |>) i |>))];
      done.
  - returns. destruct (no_goal_idle sha256 st Hinv Ha) as (Hd & Hc & _).
    match goal with |- lifecycle_step _ (lifecycle ?s) =>
      assert (lifecycle s = Build_Lifecycle (Some (gcr_goal_id data, 1)) None None) as -> end;
      [|constructor].
    etransitivity; [apply lifecycle_ext|apply (Hnew st)]; done.
Qed.

Lemma reviseGoal_lifecycle sha256 event data st st' :
  reviseGoal event data st = Ok st' -> task_inv sha256 st -> lifecycle_step (lifecycle st) (lifecycle st').
Proof.
  intros H Hinv. pose proof Hinv as [Hg Hp]. unfold reviseGoal in H.
  destruct (getGoal st _) as [[i g]|] eqn:Hget; [|done]. returns.
  pose proof (getGoal_id st _ i g Hg Hget) as Hid. pose proof Hget as [Hidx Hi]%getGoal_Some.
  rewrite <-Hid in Hstep0.
  destruct (supersede_idle sha256 st i g (eventId event) Hinv Hstep0 Hi) as [(Hd & Hc & _) _].
  eapply (lifecycle_step_eq _ _ (Some (gc_goalId (mg_content g), gc_revision (mg_content g))) _ _
    (Some (gc_goalId (mg_content g), gc_revision (mg_content g) + 1)) None None);
    [|done|done| | | |apply lc_revise_goal].
  - simpl. by rewrite Hstep0, Hid, Hget.
  - simpl. rewrite Hstep0. unfold getGoal. simpl. rewrite Hid, Hidx, list_lookup_alter_eq, Hi. simpl.
    congruence.
  - cbn [lifecycle lc_draft]. unfold getPending. simpl in *. by rewrite Hd.
  - cbn [lifecycle lc_plan]. unfold getCurrent. simpl in *. by rewrite Hc.
Qed.

Lemma changeGoalStatus_lifecycle sha256 event data st st' :
  changeGoalStatus event data st = Ok st' -> task_inv sha256 st ->
  lifecycle_step (lifecycle st) (lifecycle st').
Proof.
  intros H Hinv. pose proof Hinv as [Hg Hp]. unfold changeGoalStatus in H.
  destruct (getGoal st _) as [[i g]|] eqn:Hget; [|done]. returns.
  pose proof (getGoal_id st _ i g Hg Hget) as Hid. pose proof Hget as [Hidx Hi]%getGoal_Some.
  rewrite <-Hid in Hstep0.
  destruct (supersede_idle sha256 st i g (eventId event) Hinv Hstep0 Hi) as [(Hd & Hc & _) _].
  eapply (lifecycle_step_eq _ _ (Some (gc_goalId (mg_content g), gc_revision (mg_content g))) _ _
    None None None); [|done|done|done| | |apply lc_close_goal].
  - simpl. by rewrite Hstep0, Hid, Hget.
  - cbn [lifecycle lc_draft]. unfold getPending. simpl in *. by rewrite Hd.
  - cbn [lifecycle lc_plan]. unfold getCurrent. simpl in *. by rewrite Hc.
Qed.

(** ** Plans *)

Lemma proposePlan_lifecycle sha256 event data st st' :
  proposePlan sha256 event data st = Ok st' -> lifecycle_step (lifecycle st) (lifecycle st').
Proof.
  intros H. unfold proposePlan in H. returns.
  apply activeGoalForPlan_ok, lifecycle_goal in Hstep. apply assertMutationOrigin_same in Hstep4.
  unfold sameTask in Hstep4. destruct_and!.
  match goal with H : pendingDraft st = None |- _ => rename H into Hd end.
  match goal with H : currentApprovedPlan st = None |- _ => rename H into Hc end.
  eapply (lifecycle_step_eq _ _ (Some (pc_goalId (pp_content data), pc_goalRevision (pp_content data)))
    None None _ (Some {| prr_goalId := pc_goalId (pp_content data);
      prr_goalRevision := pc_goalRevision (pp_content data); prr_planId := pc_planId (pp_content data);
      prr_planSha256 := pp_plan_sha256 data; prr_revision := pc_revision (pp_content data) |}) None);
    [done| | | | | |by apply lc_propose].
  - cbn [lifecycle lc_draft]. unfold getPending. by rewrite Hd.
  - cbn [lifecycle lc_plan]. unfold getCurrent. by rewrite Hc.
  - rewrite <-Hstep. by apply lifecycle_goal_ext.
  - cbn [lifecycle lc_draft]. unfold getPending. simpl. by rewrite lookup_app_r, Nat.sub_diag by lia.
  - cbn [lifecycle lc_plan]. unfold getCurrent. simpl.
    replace (currentApprovedPlan v4) with (@None nat) by congruence. done.
Qed.

(** The approved plan is seen unchanged when a draft is closed and another appended. *)
Lemma current_after_close st i f q :
  currentApprovedPlan st <> Some i ->
  (forall c, currentApprovedPlan st = Some c -> is_Some (plans st !! c)) ->
  derefPlan (st <| plans := alter f i (plans st) ++ q |>) (currentApprovedPlan st) = getCurrent st.
Proof.
  unfold getCurrent. destruct (currentApprovedPlan st) as [c|]; [|done]. intros Hne Hin. simpl.
  destruct (Hin c eq_refl) as [p Hp].
  rewrite lookup_app_l by (rewrite length_alter; by eapply lookup_lt_Some).
  apply list_lookup_alter_ne. congruence.
Qed.

Lemma pending_not_current sha256 st i :
  plan_inv sha256 st -> pendingDraft st = Some i -> currentApprovedPlan st <> Some i.
Proof.
  intros Hp Hd Hc. destruct (proj1 (pi_pending _ _ Hp i) Hd) as (p & ? & ?).
  destruct (pi_current _ _ Hp i Hc) as (q & ? & ?). simplify_eq. naive_solver congruence.
Qed.

Lemma current_is_Some sha256 st c :
  plan_inv sha256 st -> currentApprovedPlan st = Some c -> is_Some (plans st !! c).
Proof. intros Hp Hc. destruct (pi_current _ _ Hp c Hc) as (q & ? & ?). eauto. Qed.

Lemma revisePlan_lifecycle sha256 event data st st' :
  revisePlan sha256 event data st = Ok st' -> task_inv sha256 st ->
  lifecycle_step (lifecycle st) (lifecycle st').
Proof.
  intros H Hinv. unfold revisePlan in H.
  apply bind_ok in H as (? & Ha%activeGoalForPlan_ok & H). apply bind_ok in H as (? & _ & H).
  destruct (match getPending st with Some p => Some p | None => getCurrent st end) as [base|] eqn:Hbase;
    [|done].
  apply bind_ok in H as (? & Hdec%throw_when_ok & H).
  destruct (planBindings st !! _) as [binding|] eqn:Hbind; [|done].
  apply bind_ok in H as (? & _ & H). apply bind_ok in H as (? & Hrev%throw_when_ok & H).
  apply bind_ok in H as (st1 & Hsame%assertMutationOrigin_same & H).
  rewrite <-(lifecycle_same _ _ Hsame). pose proof (sameTask_inv sha256 _ _ Hsame Hinv) as [_ Hp].
  assert (Hbase1 : match getPending st1 with Some p => Some p | None => getCurrent st1 end = Some base /\
    planBindings st1 = planBindings st /\
    lc_goal (lifecycle st1) = Some (pc_goalId (pr_content data), pc_goalRevision (pr_content data))).
  { split; [|split].
    - rewrite <-Hbase. by destruct (sameTask_plans _ _ Hsame) as [-> ->].
    - by unfold sameTask in Hsame; destruct_and!.
    - rewrite (lifecycle_same _ _ Hsame). by apply lifecycle_goal. }
  destruct Hbase1 as (Hb1 & Eb & Hgoal). clear Hbase Hsame Ha.
  set (new := {| prr_goalId := pc_goalId (pr_content data);
    prr_goalRevision := pc_goalRevision (pr_content data); prr_planId := pc_planId (pr_content data);
    prr_planSha256 := pr_plan_sha256 data; prr_revision := pc_revision (pr_content data) |}).
  returns.
  assert (Hless : exists k, plans st1 !! k = Some base) by
    (unfold getPending, getCurrent, derefPlan in Hb1; repeat case_match; naive_solver).
  destruct Hless as [k Hk]. destruct (pi_chain _ _ Hp k base Hk) as (b & Hb & _ & _ & Hle).
  assert (b = binding) as -> by congruence.
  assert (Hlt : pc_revision (mp_content base) < prr_revision new) by (simpl; lia).
  assert (Hnew : bound (pc_goalId (pr_content data), pc_goalRevision (pr_content data)) new) by done.
  destruct (pendingDraft st1) as [i|] eqn:Hd.
  - destruct (getPending st1) as [q|] eqn:Hq.
    2:{ unfold getPending in Hq. rewrite Hd in Hq.
        destruct (proj1 (pi_pending _ _ Hp i) Hd) as (? & ? & _). simpl in Hq. congruence. }
    simplify_eq/=. unfold getPending in Hq. rewrite Hd in Hq. simpl in Hq.
    eapply (lifecycle_step_eq _ _ _ (Some (planRef base)) _ _ (Some new));
      [exact Hgoal| |reflexivity|exact Hgoal| | |apply lc_revise_draft; [exact Hnew|done|exact Hlt]].
    + cbn [lifecycle lc_draft]. unfold getPending. rewrite Hd. simpl. by rewrite Hq.
    + cbn [lifecycle lc_draft]. unfold getPending. simpl.
      by rewrite lookup_app_r, Nat.sub_diag by lia.
    + cbn [lifecycle lc_plan]. f_equal. etransitivity; [|apply (current_after_close st1 i)]; [done| |].
      * by eapply pending_not_current.
      * intros c. by eapply current_is_Some.
  - assert (getPending st1 = None) as Hn by (unfold getPending; by rewrite Hd).
    rewrite Hn in Hb1.
    eapply (lifecycle_step_eq _ _ _ None (Some (planRef base, _)) _ (Some new));
      [exact Hgoal| | |exact Hgoal| | |apply lc_revise_plan; [exact Hnew|done|exact Hlt]].
    + cbn [lifecycle lc_draft]. by rewrite Hn.
    + cbn [lifecycle lc_plan]. rewrite Hb1. done.
    + cbn [lifecycle lc_draft]. unfold getPending. simpl.
      by rewrite lookup_app_r, Nat.sub_diag by lia.
    + cbn [lifecycle lc_plan]. match goal with |- context [getCurrent ?s] =>
        assert (getCurrent s = Some base) as -> end; [|done].
      unfold getCurrent in *. simpl. destruct (currentApprovedPlan st1) as [c|]; [|done].
      simpl in *. by apply lookup_app_l_Some.
Qed.

Lemma approvePlan_lifecycle sha256 event target st st' :
  approvePlan event target st = Ok st' -> task_inv sha256 st ->
  lifecycle_step (lifecycle st) (lifecycle st').
Proof.
  intros H [_ Hp]. pose proof H as H'. unfold approvePlan in H'.
  apply bind_ok in H' as ([i draft] & Hex & _).
  destruct (approvePlan_plans sha256 _ _ _ _ _ _ H Hp Hex)
    as (Eg & Ei & Ea & _ & Ed & Ec & (q & Hq & Hqc & Hqh & _ & Hqs) & _).
  apply exactPendingDecision_ok in Hex as (Hd & Hi & _ & Hm & Hact).
  assert (Href : planRef q = planRef draft) by (unfold planRef; by rewrite Hqc, Hqh).
  apply lifecycle_goal in Hact.
  eapply (lifecycle_step_eq _ _ _ (Some (planRef draft)) _ _ None);
    [exact Hact| |reflexivity|by rewrite (lifecycle_goal_ext st) by done| | |apply lc_approve].
  - cbn [lifecycle lc_draft]. unfold getPending. rewrite Hd. simpl. by rewrite Hi.
  - cbn [lifecycle lc_draft]. unfold getPending. by rewrite Ed.
  - cbn [lifecycle lc_plan]. unfold getCurrent. rewrite Ec. simpl. rewrite Hq. simpl.
    by rewrite Href, Hqs.
Qed.

Lemma rejectPlan_lifecycle sha256 event target st st' :
  rejectPlan event target st = Ok st' -> task_inv sha256 st ->
  lifecycle_step (lifecycle st) (lifecycle st').
Proof.
  intros H [_ Hp]. unfold rejectPlan in H. returns. destruct v as [i draft]. returns.
  apply exactPendingDecision_ok in Hstep as (Hd & Hi & _ & _ & Hact%lifecycle_goal).
  eapply (lifecycle_step_eq _ _ _ (Some (planRef draft)) _ _ None);
    [exact Hact| |reflexivity|exact Hact|reflexivity| |apply lc_reject].
  - cbn [lifecycle lc_draft]. unfold getPending. rewrite Hd. simpl. by rewrite Hi.
  - cbn [lifecycle lc_plan]. f_equal. unfold getCurrent. simpl.
    destruct (currentApprovedPlan st) as [c|] eqn:Hc; [|done]. simpl.
    apply list_lookup_alter_ne. intros ->. by destruct (pending_not_current _ _ _ Hp Hd).
Qed.

(** The view of a plan that an update leaves in place. *)
Lemma lifecycle_updatePlan st i f plan :
  plans st !! i = Some plan -> planRef (f plan) = planRef plan ->
  mp_status (f plan) = mp_status plan -> lifecycle (updatePlan i f st) = lifecycle st.
Proof.
  intros Hi Hr Hs. unfold lifecycle, getGoal, getPending, getCurrent, derefPlan, updatePlan. simpl.
  assert (forall k, planRef <$> alter f i (plans st) !! k = planRef <$> plans st !! k /\
    (fun p => (planRef p, mp_status p === plan_completed)) <$> alter f i (plans st) !! k =
    (fun p => (planRef p, mp_status p === plan_completed)) <$> plans st !! k) as Hk.
  { intros k. destruct (decide (k = i)) as [->|Hne].
    - rewrite list_lookup_alter_eq, Hi. simpl. by rewrite Hr, Hs.
    - by rewrite list_lookup_alter_ne by done. }
  f_equal.
  - destruct (pendingDraft st); [apply Hk|done].
  - destruct (currentApprovedPlan st); [apply Hk|done].
Qed.

Lemma changePlanItemStatus_lifecycle event data st st' :
  changePlanItemStatus event data st = Ok st' -> lifecycle st' = lifecycle st.
Proof.
  intros H. unfold changePlanItemStatus in H.
  apply bind_ok in H as ([i plan] & (_ & Hi & _)%exactCurrentPlan_ok & H).
  apply bind_ok in H as ([] & _ & H). returns.
  destruct v as [st1 g]. returns. apply checkProgressOrigin_same in Hstep.
  rewrite <-(lifecycle_same _ _ Hstep). unfold sameTask in Hstep. destruct_and!.
  apply (lifecycle_updatePlan _ _ _ plan); [congruence|done|done].
Qed.

Lemma completePlan_lifecycle sha256 event data st st' :
  completePlan event data st = Ok st' -> task_inv sha256 st ->
  lifecycle_step (lifecycle st) (lifecycle st').
Proof.
  intros H [_ Hp]. unfold completePlan in H.
  apply bind_ok in H as ([i plan] & (Hc & Hi & _)%exactCurrentPlan_ok & H). returns.
  destruct (proj1 (isActiveGoalAt_true _ _ _) (pi_bound _ _ Hp i plan Hi (or_intror Hc)))
    as (k & g & Hget & _ & Ha & Hrev).
  eapply (lifecycle_step_eq _ _ (Some (pc_goalId (mp_content plan), gc_revision (mg_content g)))
    _ (Some (planRef plan, false)) _ _ (Some (planRef plan, true)));
    [|reflexivity| | | | |apply lc_complete].
  - simpl. by rewrite Ha, Hget.
  - cbn [lifecycle lc_plan]. unfold getCurrent. rewrite Hc. simpl. rewrite Hi. simpl.
    match goal with H : mp_status plan = plan_active |- _ => by rewrite H end.
  - simpl. rewrite Ha. unfold getGoal in *. simpl. by rewrite Hget.
  - cbn [lifecycle lc_draft]. f_equal. unfold getPending. simpl.
    destruct (pendingDraft st) as [d|] eqn:Hd; [|done]. simpl.
    apply list_lookup_alter_ne. intros ->. by destruct (pending_not_current _ _ _ Hp Hd).
  - cbn [lifecycle lc_plan]. unfold getCurrent. simpl. rewrite Hc. simpl.
    by rewrite list_lookup_alter_eq, Hi.
Qed.

(** ** The refinement *)

Lemma processRunEvent_lifecycle event r d st st' :
  processRunEvent event r d st = Ok st' -> lifecycle st' = lifecycle st.
Proof.
  intros H. unfold processRunEvent in H.
  destruct d; simpl in H; repeat case_match; returns; try done;
    try (by apply lifecycle_ext).
  unfold bindFuturePhase16RunStart in H. repeat case_match; returns; try done;
    (by eapply lifecycle_same, bindRun_same).
Qed.

Lemma task_step_lifecycle sha256 st event st' :
  task_step sha256 st event = Ok st' -> task_inv sha256 st ->
  lifecycle_step (lifecycle st) (lifecycle st').
Proof.
  intros H Hinv. unfold task_step in H. apply bind_ok in H as (st1 & H & H').
  assert (lifecycle st' = lifecycle st1) as ->.
  { destruct (shouldIndexReferenceTarget event); returns; [by apply lifecycle_ext|done]. }
  clear H'. destruct (scope event) as [r n d|d].
  { rewrite (processRunEvent_lifecycle _ _ _ _ _ H). constructor. }
  assert (Ht : task_inv sha256 (st <| trackingMode := phase16 |>)) by by apply (task_inv_ext _ st).
  rewrite <-(lifecycle_ext st (st <| trackingMode := phase16 |>)) by done.
  destruct d; simpl in H; try (returns; constructor).
  - by eapply createGoal_lifecycle.
  - by eapply reviseGoal_lifecycle.
  - by eapply changeGoalStatus_lifecycle.
  - by eapply proposePlan_lifecycle.
  - by eapply revisePlan_lifecycle.
  - by eapply approvePlan_lifecycle.
  - by eapply rejectPlan_lifecycle.
  - apply changePlanItemStatus_lifecycle in H as ->. constructor.
  - by eapply completePlan_lifecycle.
Qed.
