(* ===== verification/TaskStateHistory.v ===== *)
(** * The history of plans and goals

    What happens to one plan, one plan item and one goal over a log: plans
    and items move along their legal transitions only, a goal that is no
    longer active never changes, completed items carry evidence that is on
    record, and an agent's mutation is accepted once. *)

From S2P Require Import Prelude JsString CanonicalJson Domain Events EventLog PlanEvidence TaskState TaskStateFacts.
#[local] Open Scope Z_scope.

(** ** Legal histories *)

(** The plan revision life cycle. *)
Definition legalPlanTransition (from to : PlanRevisionStatus) : bool :=
  match from, to with
  | plan_draft, (plan_active | plan_rejected | plan_superseded) => true
  | plan_active, (plan_completed | plan_superseded) => true
  | _, _ => false
  end.

(** [chain legal s l t]: the recorded steps [l] lead from [s] to [t], each one legal. *)
Fixpoint chain {S : Type} (legal : S -> S -> bool) (s : S) (l : list (S * S)) (t : S) : Prop :=
  match l with
  | [] => s = t
  | (a, b) :: l => a = s /\ legal a b = true /\ chain legal b l t
  end.

Lemma chain_snoc {S : Type} (legal : S -> S -> bool) s l t u :
  chain legal s l t -> legal t u = true -> chain legal s (l ++ [(t, u)]) u.
Proof. revert s. induction l as [|[a b] l IH]; simpl; intros s; [intros ->; done|]. naive_solver. Qed.

Definition planSteps (p : MutablePlan) : list (PlanRevisionStatus * PlanRevisionStatus) :=
  (fun t => (pst_from t, pst_to t)) <$> mp_statusTransitions p.
Definition itemSteps (a : MutablePlanItem) : list (PlanItemStatus * PlanItemStatus) :=
  (fun t => (pit_from t, pit_to t)) <$> mi_transitions a.

(** An item starts pending, or carried over in its terminal state. *)
Definition item_history (a : MutablePlanItem) : Prop :=
  match mi_carriedFromRevision a with
  | None => chain isAllowedItemTransition item_pending (itemSteps a) (mi_status a)
  | Some _ => mi_transitions a = [] /\ (mi_status a = item_completed \/ mi_status a = item_skipped)
  end.

Definition item_evidence (known : string -> Prop) (a : MutablePlanItem) : Prop :=
  mi_status a = item_completed ->
  mi_evidenceEventIds a <> [] /\ Forall known (mi_evidenceEventIds a).

Record plan_history (known : string -> Prop) (p : MutablePlan) : Prop := {
  ph_status : chain legalPlanTransition plan_draft (planSteps p) (mp_status p);
  ph_items : Forall item_history (mp_items p);
  ph_evidence : Forall (item_evidence known) (mp_items p);
  ph_draft : mp_status p = plan_draft ->
               Forall (fun a => mi_status a = item_pending /\ mi_transitions a = [] /\
                                mi_carriedFromRevision a = None) (mp_items p);
}.

(** ** One event's effect on one plan *)

Inductive plan_evolves (st : TaskProjector) (event : DecodedStoredEvent)
  : MutablePlan -> MutablePlan -> Prop :=
| pe_same p : plan_evolves st event p p
| pe_status p q to :
    legalPlanTransition (mp_status p) to = true -> to <> plan_active ->
    mp_content q = mp_content p -> mp_planSha256 q = mp_planSha256 p -> mp_items q = mp_items p ->
    mp_status q = to -> planSteps q = planSteps p ++ [(mp_status p, to)] ->
    plan_evolves st event p q
| pe_approve p q :
    mp_status p = plan_draft -> mp_content q = mp_content p -> mp_planSha256 q = mp_planSha256 p ->
    (mp_items q = mp_items p \/
     exists previous, previous ∈ plans st /\ mp_items q = carryTerminalItems previous p) ->
    mp_status q = plan_active -> planSteps q = planSteps p ++ [(plan_draft, plan_active)] ->
    plan_evolves st event p q
| pe_item p q data k :
    mp_status p = plan_active -> checkItemTransition event data p = Ok k ->
    Forall (fun id => is_Some (jm_get id (tp_eventsById st))) (pis_evidence_event_ids data) ->
    q = p <| mp_items ::= alter (applyItemTransition event data) k |> ->
    plan_evolves st event p q.

(** A plan revision as an event creates it. *)
Definition plan_fresh (sha256 : jstring -> string) (q : MutablePlan) : Prop :=
  sha256Canonical sha256 (planContentJson (mp_content q)) = Ok (mp_planSha256 q) /\
  mp_items q = newItem <$> pc_items (mp_content q) /\ mp_status q = plan_draft /\
  mp_statusTransitions q = [].

(** Every plan of [st'] is an evolved plan of [st] or a new one. *)
Definition plans_evolve sha256 st event st' : Prop :=
  forall j q, plans st' !! j = Some q ->
    (exists p, plans st !! j = Some p /\ plan_evolves st event p q) \/
    (j = length (plans st) /\ plan_fresh sha256 q).

Lemma plans_evolve_same sha256 st event st' : plans st' = plans st -> plans_evolve sha256 st event st'.
Proof. intros E j q. rewrite E. intros Hj. left. exists q. split; [done|constructor]. Qed.

Lemma plans_evolve_alter sha256 st event i f st' plan :
  plans st' = alter f i (plans st) -> plans st !! i = Some plan -> plan_evolves st event plan (f plan) ->
  plans_evolve sha256 st event st'.
Proof.
  intros E Hi He j q. rewrite E. destruct (decide (j = i)) as [->|Hne].
  - rewrite list_lookup_alter_eq, Hi. intros [= <-]. eauto.
  - rewrite list_lookup_alter_ne by done. intros Hj. left. exists q. split; [done|constructor].
Qed.

Lemma planSteps_transition to id p :
  planSteps (transitionPlanStatus to id p) = planSteps p ++ [(mp_status p, to)].
Proof. unfold planSteps. simpl. by rewrite fmap_app. Qed.

Lemma pe_transition st event to id p :
  legalPlanTransition (mp_status p) to = true -> to <> plan_active ->
  plan_evolves st event p (transitionPlanStatus to id p).
Proof. intros. eapply (pe_status _ _ p); try done. apply planSteps_transition. Qed.

Lemma supersede_evolve sha256 st event gid rev st' :
  plans st' = plans (supersedeGoalPlans gid rev (eventId event) st) -> plans_evolve sha256 st event st'.
Proof.
  intros E j q. rewrite E. unfold supersedeGoalPlans. simpl. rewrite list_lookup_fmap.
  destruct (plans st !! j) as [p|]; [|done]. intros [= <-]. left. exists p. split; [done|].
  case_match eqn:Hs; [|constructor]. returns. apply pe_transition; [|done].
  match goal with H : _ || _ = true |- _ => apply orb_true_iff in H as [H|H] end;
    apply bool_decide_eq_true in H0; by rewrite H0.
Qed.

(** Appending a new draft after the old one was closed, or not. *)
Lemma plans_evolve_push sha256 st event st1 q st' :
  plans_evolve sha256 st event st1 -> length (plans st1) = length (plans st) ->
  plan_fresh sha256 q -> plans st' = plans st1 ++ [q] -> plans_evolve sha256 st event st'.
Proof.
  intros He Hlen Hq E j q'. rewrite E. intros [Hj|[Hle Hj]]%lookup_app_Some; [by apply He|].
  apply list_lookup_singleton_Some in Hj as [Hj <-]. right. split; [lia|done].
Qed.

Lemma plans_evolve_ext sha256 st1 st2 event st' :
  plans st1 = plans st2 -> tp_eventsById st1 = tp_eventsById st2 ->
  plans_evolve sha256 st1 event st' -> plans_evolve sha256 st2 event st'.
Proof.
  intros Ep Ee H j q Hj. rewrite <-Ep. destruct (H j q Hj) as [(p & Hp & He)|?]; [left|by right].
  exists p. split; [done|]. destruct He as [|? ? to| |? ? data k].
  - constructor.
  - by apply (pe_status _ _ _ _ to).
  - apply pe_approve; try done. by rewrite <-Ep.
  - apply (pe_item _ _ _ _ data k); try done. by rewrite <-Ee.
Qed.

Lemma createGoal_evolve sha256 event data st st' :
  createGoal event data st = Ok st' -> plans_evolve sha256 st event st'.
Proof.
  intros H. unfold createGoal in H. returns.
  destruct (match activeGoalId st with Some a => getGoal st a | None => None end) as [[i g]|]; returns.
  - by eapply supersede_evolve.
  - by apply plans_evolve_same.
Qed.

Lemma reviseGoal_evolve sha256 event data st st' :
  reviseGoal event data st = Ok st' -> plans_evolve sha256 st event st'.
Proof.
  intros H. unfold reviseGoal in H. destruct (getGoal st _) as [[i g]|]; [|done]. returns.
  by eapply supersede_evolve.
Qed.

Lemma changeGoalStatus_evolve sha256 event data st st' :
  changeGoalStatus event data st = Ok st' -> plans_evolve sha256 st event st'.
Proof.
  intros H. unfold changeGoalStatus in H. destruct (getGoal st _) as [[i g]|]; [|done]. returns.
  by eapply supersede_evolve.
Qed.

Lemma proposePlan_evolve sha256 event data st st' :
  proposePlan sha256 event data st = Ok st' -> plans_evolve sha256 st event st'.
Proof.
  intros H. unfold proposePlan in H. returns.
  apply assertPlanHash_ok in Hstep0. apply assertMutationOrigin_same in Hstep4.
  unfold sameTask in Hstep4. destruct_and!.
  eapply (plans_evolve_push _ _ _ v4); [by apply plans_evolve_same|congruence| |reflexivity].
  by split_and!.
Qed.

Lemma revisePlan_evolve sha256 event data st st' :
  revisePlan sha256 event data st = Ok st' -> task_inv sha256 st -> plans_evolve sha256 st event st'.
Proof.
  intros H Hinv. unfold revisePlan in H.
  apply bind_ok in H as (? & _ & H). apply bind_ok in H as (? & Hh%assertPlanHash_ok & H).
  case_match; [|done]. apply bind_ok in H as (? & _ & H). case_match; [|done].
  do 2 apply bind_ok in H as (? & _ & H).
  apply bind_ok in H as (st1 & Hsame%assertMutationOrigin_same & H).
  pose proof (sameTask_inv sha256 _ _ Hsame Hinv) as [_ Hp].
  unfold sameTask in Hsame. destruct_and!. apply (plans_evolve_ext _ st1); [done..|].
  destruct (pendingDraft st1) as [i|] eqn:Hd; simpl in H; injection H as <-.
  - destruct (proj1 (pi_pending _ _ Hp i) Hd) as (d & Hi & Hs).
    eapply (plans_evolve_push _ _ _ (updatePlan i (transitionPlanStatus plan_superseded (eventId event)) st1));
      [|simpl; by rewrite length_alter| |reflexivity]; [|by split_and!].
    eapply plans_evolve_alter; [reflexivity|exact Hi|]. apply pe_transition; by rewrite ?Hs.
  - eapply (plans_evolve_push _ _ _ st1); [by apply plans_evolve_same|done| |reflexivity].
    by split_and!.
Qed.

Lemma rejectPlan_evolve sha256 event target st st' :
  rejectPlan event target st = Ok st' -> plans_evolve sha256 st event st'.
Proof.
  intros H. unfold rejectPlan in H. returns. destruct v as [i draft]. returns.
  apply exactPendingDecision_ok in Hstep as (_ & Hi & Hs & _).
  eapply plans_evolve_alter; [reflexivity|exact Hi|].
  eapply (pe_status _ _ draft); try done; [by rewrite Hs| |].
  - done.
  - apply planSteps_transition.
Qed.

Lemma approvePlan_evolve sha256 event target st st' :
  approvePlan event target st = Ok st' -> task_inv sha256 st -> plans_evolve sha256 st event st'.
Proof.
  intros H [_ Hp]. unfold approvePlan in H. returns. destruct v as [i draft]. returns.
  apply exactPendingDecision_ok in Hstep as (Hd & Hi & Hs & _).
  destruct (currentApprovedPlan st) as [j|] eqn:Hc; unfold getCurrent; rewrite ?Hc; simpl.
  - destruct (pi_current _ _ Hp j Hc) as (previous & Hj & Hjs). rewrite Hj.
    assert (Hne : i <> j) by (intros ->; simplify_eq; rewrite Hs in Hjs; naive_solver).
    assert (Hdraft : forall d, plan_evolves st event draft
      (transitionPlanStatus plan_active (eventId event) (draft <| mp_items := carryTerminalItems previous draft |>)
         <| mp_decisionEventId := d |>)).
    { intros d. apply pe_approve; try done.
      - right. exists previous. split; [by eapply list_elem_of_lookup_2|done].
      - rewrite <-Hs. apply (planSteps_transition plan_active (eventId event) draft). }
    intros k q Hk. left. destruct (decide (k = i)) as [->|Hki].
    + exists draft. split; [done|]. revert Hk.
      destruct (mp_status previous === plan_active); simpl; rewrite list_lookup_alter_eq;
        [rewrite list_lookup_alter_ne by done|]; rewrite list_lookup_alter_eq, Hi; intros [= <-]; apply Hdraft.
    + destruct (mp_status previous === plan_active) eqn:Ha; simpl in Hk;
        rewrite list_lookup_alter_ne in Hk by done; [|rewrite list_lookup_alter_ne in Hk by done;
          exists q; split; [done|constructor]].
      destruct (decide (k = j)) as [->|Hkj].
      * rewrite list_lookup_alter_eq, list_lookup_alter_ne, Hj in Hk by done. injection Hk as <-.
        exists previous. split; [done|]. apply bool_decide_eq_true in Ha.
        apply pe_transition; by rewrite ?Ha.
      * rewrite !list_lookup_alter_ne in Hk by done. exists q. split; [done|constructor].
  - eapply plans_evolve_alter; [reflexivity|exact Hi|].
    apply pe_approve; try done; [by left|]. rewrite <-Hs. apply planSteps_transition.
Qed.

(** Evidence that a progress event cites is on record. *)
Lemma checkEvidence_known event data g st id u :
  checkEvidence event data g st id = Ok u -> is_Some (jm_get id (tp_eventsById st)).
Proof. unfold checkEvidence. destruct (jm_get id _); [eauto|done]. Qed.

Lemma foldM_unit_Forall {E B} (f : B -> result E ()) l u :
  foldM (fun _ b => f b) l () = Ok u -> Forall (fun b => f b = Ok ()) l.
Proof.
  induction l as [|b l IH]; simpl; [by constructor|]. destruct (f b) as [[]|] eqn:Hb; [|done].
  intros H. by constructor; [|apply IH].
Qed.

Lemma changePlanItemStatus_evolve sha256 event data st st' :
  changePlanItemStatus event data st = Ok st' -> plans_evolve sha256 st event st'.
Proof.
  intros H. unfold changePlanItemStatus in H.
  apply bind_ok in H as ([i plan] & (_ & Hi & _)%exactCurrentPlan_ok & H).
  apply bind_ok in H as ([] & Hact%throw_when_ok & H).
  apply bind_ok in H as ([st1 g] & Hsame%checkProgressOrigin_same & H).
  apply bind_ok in H as (k & Hk & H). apply bind_ok in H as ([] & Hev%foldM_unit_Forall & H). returns.
  unfold sameTask in Hsame. destruct_and!. apply (plans_evolve_ext _ st1); [done..|].
  eapply plans_evolve_alter; [reflexivity| |]; [by replace (plans st1) with (plans st)|].
  eapply (pe_item _ _ plan _ data k); [done|done| |done].
  eapply Forall_impl; [|exact Hev]. intros id. apply checkEvidence_known.
Qed.

Lemma completePlan_evolve sha256 event data st st' :
  completePlan event data st = Ok st' -> plans_evolve sha256 st event st'.
Proof.
  intros H. unfold completePlan in H.
  apply bind_ok in H as ([i plan] & (_ & Hi & _)%exactCurrentPlan_ok & H). returns.
  eapply plans_evolve_alter; [reflexivity|exact Hi|].
  apply (pe_status _ _ plan _ plan_completed); try done.
  - match goal with H : mp_status plan = _ |- _ => by rewrite H end.
  - apply planSteps_transition.
Qed.

Lemma processSessionEvent_evolve sha256 event d st st' :
  processSessionEvent sha256 event d st = Ok st' -> task_inv sha256 st -> plans_evolve sha256 st event st'.
Proof.
  intros H Hinv. unfold processSessionEvent in H.
  assert (Ht : task_inv sha256 (st <| trackingMode := phase16 |>)) by by apply (task_inv_ext _ st).
  destruct d; try (by returns; apply plans_evolve_same);
    (apply (plans_evolve_ext _ (st <| trackingMode := phase16 |>)); [done..|]).
  - by eapply createGoal_evolve.
  - by eapply reviseGoal_evolve.
  - by eapply changeGoalStatus_evolve.
  - by eapply proposePlan_evolve.
  - by eapply revisePlan_evolve.
  - by eapply approvePlan_evolve.
  - by eapply rejectPlan_evolve.
  - by eapply changePlanItemStatus_evolve.
  - by eapply completePlan_evolve.
Qed.

Lemma processRunEvent_plans event r d st st' :
  processRunEvent event r d st = Ok st' -> plans st' = plans st /\ goals st' = goals st /\
    tp_eventsById st' = tp_eventsById st.
Proof.
  intros H. unfold processRunEvent in H.
  destruct d; simpl in H; repeat case_match; returns; try done.
  unfold bindFuturePhase16RunStart in H. repeat case_match; returns; try done;
    apply bindRun_same in H; unfold sameTask in H; destruct_and!; done.
Qed.

Lemma task_step_evolve sha256 st event st' :
  task_step sha256 st event = Ok st' -> task_inv sha256 st -> plans_evolve sha256 st event st'.
Proof.
  intros H Hinv. unfold task_step in H. apply bind_ok in H as (st1 & H & H').
  assert (plans st' = plans st1) as E by (destruct (shouldIndexReferenceTarget event); by returns).
  intros j q. rewrite E. revert j q. destruct (scope event).
  - apply processRunEvent_plans in H as [E' _]. by apply plans_evolve_same.
  - by eapply processSessionEvent_evolve.
Qed.

(** ** Events on record stay on record *)

Definition onRecord (st : TaskProjector) (id : string) : Prop := is_Some (jm_get id (tp_eventsById st)).

Lemma createGoal_events event data st st' :
  createGoal event data st = Ok st' -> tp_eventsById st' = tp_eventsById st.
Proof.
  intros H. unfold createGoal in H. returns.
  destruct (match activeGoalId st with Some a => getGoal st a | None => None end) as [[i g]|]; by returns.
Qed.

Lemma sameTask_events st st' : sameTask st st' -> tp_eventsById st' = tp_eventsById st.
Proof. by unfold sameTask; intros; destruct_and!. Qed.

Lemma processSessionEvent_events sha256 event d st st' :
  processSessionEvent sha256 event d st = Ok st' -> tp_eventsById st' = tp_eventsById st.
Proof.
  intros H. unfold processSessionEvent in H. destruct d; try (by returns).
  - apply createGoal_events in H. done.
  - unfold reviseGoal in H. destruct (getGoal _ _) as [[i g]|]; [|done]. by returns.
  - unfold changeGoalStatus in H. destruct (getGoal _ _) as [[i g]|]; [|done]. by returns.
  - unfold proposePlan in H. do 5 apply bind_ok in H as (? & _ & H).
    apply bind_ok in H as (st1 & Hs%assertMutationOrigin_same & H). simpl in H.
    injection H as <-. by apply sameTask_events in Hs.
  - unfold revisePlan in H. do 2 apply bind_ok in H as (? & _ & H). case_match; [|done].
    apply bind_ok in H as (? & _ & H). case_match; [|done].
    do 2 apply bind_ok in H as (? & _ & H).
    apply bind_ok in H as (st1 & Hs%assertMutationOrigin_same & H).
    apply sameTask_events in Hs. destruct (pendingDraft st1); simpl in H; by injection H as <-.
  - unfold approvePlan in H. apply bind_ok in H as ([i dr] & _ & H). returns. simpl.
    repeat case_match; done.
  - unfold rejectPlan in H. apply bind_ok in H as ([i dr] & _ & H). by returns.
  - unfold changePlanItemStatus in H. apply bind_ok in H as ([i p] & _ & H).
    apply bind_ok in H as (? & _ & H).
    apply bind_ok in H as ([st1 g] & Hs%checkProgressOrigin_same & H). returns. by apply sameTask_events in Hs.
  - unfold completePlan in H. apply bind_ok in H as ([i p] & _ & H). by returns.
Qed.

Lemma task_step_onRecord sha256 st event st' id :
  task_step sha256 st event = Ok st' -> onRecord st id -> onRecord st' id.
Proof.
  intros H. unfold task_step in H. apply bind_ok in H as (st1 & H & H'). unfold onRecord.
  assert (tp_eventsById st1 = tp_eventsById st) as <-.
  { destruct (scope event); [by apply processRunEvent_plans in H as (_ & _ & ?)|].
    by eapply processSessionEvent_events. }
  destruct (shouldIndexReferenceTarget event); returns; [|done].
  rewrite jm_get_set. by case_decide.
Qed.

(** ** The history invariant *)

Lemma plan_history_mono (P Q : string -> Prop) p :
  (forall id, P id -> Q id) -> plan_history P p -> plan_history Q p.
Proof.
  intros HPQ []. split; try done. eapply Forall_impl; [|done].
  intros a Ha Hs. destruct (Ha Hs) as [? Hf]. split; [done|]. by eapply Forall_impl.
Qed.

Lemma plan_fresh_history sha256 known q : plan_fresh sha256 q -> plan_history known q.
Proof.
  intros (_ & Hi & Hs & Ht).
  assert (Hin : forall P : MutablePlanItem -> Prop, (forall c, P (newItem c)) -> Forall P (mp_items q)).
  { intros P HP. rewrite Hi. apply Forall_fmap, Forall_true. intros c. apply HP. }
  split; unfold planSteps; rewrite ?Ht, ?Hs; [done|by apply Hin..|by intros _; apply Hin].
Qed.

Lemma carryItem_history known previous a :
  plan_history known previous ->
  mi_status a = item_pending -> mi_transitions a = [] -> mi_carriedFromRevision a = None ->
  item_history (carryItem previous a) /\ item_evidence known (carryItem previous a).
Proof.
  intros [_ _ Hev _] Hs Ht Hc. rewrite Forall_forall in Hev.
  unfold carryItem, carryTerminalItems. simpl.
  destruct (List.find _ (mp_items previous)) as [prior|] eqn:Hf.
  - apply List.find_some in Hf as [Hin _].
    case_match eqn:E.
    + unfold item_history, item_evidence, itemSteps. rewrite Hc, Ht, Hs. done.
    + split; [|exact (Hev prior Hin)]. unfold item_history. simpl. split; [done|].
      apply andb_false_iff in E as [E|E]; apply negb_false_iff, bool_decide_eq_true in E; auto.
  - unfold item_history, item_evidence, itemSteps. rewrite Hc, Ht, Hs. done.
Qed.

Lemma applyItemTransition_history known event data a :
  item_history a -> mi_status a = pis_from data ->
  isAllowedItemTransition (pis_from data) (pis_to data) = true ->
  (pis_to data = item_completed -> pis_evidence_event_ids data <> []) ->
  Forall known (pis_evidence_event_ids data) ->
  item_history (applyItemTransition event data a) /\ item_evidence known (applyItemTransition event data a).
Proof.
  intros Hh Hs Hal Hne Hev. split; [|intros Hto; split; [by apply Hne|done]].
  unfold item_history, itemSteps in *. simpl. rewrite fmap_app. simpl.
  apply chain_snoc; [|done]. rewrite <-Hs in *. destruct (mi_carriedFromRevision a); [|done].
  destruct Hh as [_ [Hc|Hc]]; by rewrite Hc in Hal.
Qed.

Lemma plan_evolves_history st event p q :
  (forall r, r ∈ plans st -> plan_history (onRecord st) r) ->
  plan_history (onRecord st) p -> plan_evolves st event p q -> plan_history (onRecord st) q.
Proof.
  intros Hall [Hc Hi He Hd] Hev. destruct Hev as [p|p q to Hl Hna _ _ Eit Es Est|p q Hs _ _ Hit Es Est|
    p q data k Hs Hk Hknown ->].
  - by split.
  - split; rewrite ?Eit, ?Es, ?Est; [by apply chain_snoc|done|done|].
    intros ->. by destruct (mp_status p).
  - specialize (Hd Hs). split; rewrite ?Es, ?Est; [rewrite Hs in Hc; by apply chain_snoc| | |done].
    + destruct Hit as [->|(r & Hr & ->)]; [done|]. rewrite carryTerminalItems_map.
      apply Forall_fmap. eapply Forall_impl; [|exact Hd]. simpl. intros a (? & ? & ?).
      by eapply carryItem_history; [apply Hall|..].
    + destruct Hit as [->|(r & Hr & ->)]; [done|]. rewrite carryTerminalItems_map.
      apply Forall_fmap. eapply Forall_impl; [|exact Hd]. simpl. intros a (? & ? & ?).
      by eapply carryItem_history; [apply Hall|..].
  - apply checkItemTransition_ok in Hk as (item & Hk & _ & Hst & Hal & _ & _ & Hne).
    destruct (applyItemTransition_history (onRecord st) event data item) as [Hih Hie];
      [by eapply Forall_lookup_1|done..|].
    split; simpl; [done| | |congruence].
    + apply Forall_alter; [done|]. intros x Hx _. by simplify_eq.
    + apply Forall_alter; [done|]. intros x Hx _. by simplify_eq.
Qed.

Definition history_inv (st : TaskProjector) : Prop :=
  forall i p, plans st !! i = Some p -> plan_history (onRecord st) p.

Lemma task_step_history sha256 st event st' :
  task_step sha256 st event = Ok st' -> task_inv sha256 st -> history_inv st -> history_inv st'.
Proof.
  intros H Hinv Hh i q Hq.
  apply (plan_history_mono (onRecord st)); [intros id; by eapply task_step_onRecord|].
  destruct (task_step_evolve _ _ _ _ H Hinv i q Hq) as [(p & Hp & Hev)|[_ Hf]].
  - eapply plan_evolves_history; [|by eapply Hh|done].
    intros r [k Hk]%list_elem_of_lookup. by eapply Hh.
  - by eapply plan_fresh_history.
Qed.

Lemma runProjector_history sha256 events st :
  runProjector sha256 events = Ok st -> history_inv st.
Proof.
  intros H. assert (task_inv sha256 st /\ history_inv st) as [_ ?]; [|done].
  revert H. unfold runProjector.
  apply (foldM_invariant _ (fun st => task_inv sha256 st /\ history_inv st)).
  - intros x b y _ [Hx Hh] Hs. split; [by eapply task_step_inv|by eapply task_step_history].
  - split; [apply task_inv_init|]. intros i p. simpl. by rewrite lookup_nil.
Qed.

(** ** Goals that are no longer active *)

Definition goals_frozen (st st' : TaskProjector) : Prop :=
  forall i g, goals st !! i = Some g -> mg_status g <> goal_active -> goals st' !! i = Some g.

Lemma goals_frozen_same st st' : goals st' = goals st -> goals_frozen st st'.
Proof. intros E i g. by rewrite E. Qed.

Lemma goals_frozen_alter st f j g0 q st' :
  goals st !! j = Some g0 -> mg_status g0 = goal_active -> goals st' = alter f j (goals st) ++ q ->
  goals_frozen st st'.
Proof.
  intros Hj Hs E i g Hi Hne. rewrite E. apply lookup_app_l_Some.
  rewrite list_lookup_alter_ne; [done|]. intros ->. congruence.
Qed.

Lemma createGoal_frozen event data st st' :
  createGoal event data st = Ok st' -> goal_inv st -> goals_frozen st st'.
Proof.
  intros H Hg. unfold createGoal in H. returns. destruct (activeGoalId st) as [a|] eqn:Ha.
  - destruct (active_goal_lookup st a Hg Ha) as (i & g & Hget & Hi & Hid & Hs). rewrite Hget in Hstep1.
    returns. by eapply goals_frozen_alter.
  - returns. intros i g Hi _. by apply lookup_app_l_Some.
Qed.

Lemma processSessionEvent_frozen sha256 event d st st' :
  processSessionEvent sha256 event d st = Ok st' -> goal_inv st -> goals_frozen st st'.
Proof.
  intros H Hg. unfold processSessionEvent in H.
  assert (Hg' : goal_inv (st <| trackingMode := phase16 |>)) by by apply (goal_inv_ext st).
  assert (Hsame : forall s, sameTask (st <| trackingMode := phase16 |>) s -> goals s = goals st)
    by (unfold sameTask; intros; by destruct_and!).
  destruct d; try (by returns; apply goals_frozen_same).
  - by apply createGoal_frozen in H.
  - unfold reviseGoal in H. destruct (getGoal _ _) as [[i g]|] eqn:Hget; [|done]. returns.
    apply getGoal_Some in Hget as [_ Hi]. by eapply goals_frozen_alter; [..|by rewrite app_nil_r].
  - unfold changeGoalStatus in H. destruct (getGoal _ _) as [[i g]|] eqn:Hget; [|done]. returns.
    apply getGoal_Some in Hget as [_ Hi]. by eapply goals_frozen_alter; [..|by rewrite app_nil_r].
  - unfold proposePlan in H. do 5 apply bind_ok in H as (? & _ & H).
    apply bind_ok in H as (st1 & Hs%assertMutationOrigin_same & H). simpl in H.
    injection H as <-. apply goals_frozen_same. exact (Hsame _ Hs).
  - unfold revisePlan in H. do 2 apply bind_ok in H as (? & _ & H). case_match; [|done].
    apply bind_ok in H as (? & _ & H). case_match; [|done].
    do 2 apply bind_ok in H as (? & _ & H).
    apply bind_ok in H as (st1 & Hs%assertMutationOrigin_same & H). apply goals_frozen_same.
    rewrite <-(Hsame _ Hs). destruct (pendingDraft st1); simpl in H; by injection H as <-.
  - unfold approvePlan in H. apply bind_ok in H as ([i dr] & _ & H). returns.
    apply goals_frozen_same. simpl. repeat case_match; done.
  - unfold rejectPlan in H. apply bind_ok in H as ([i dr] & _ & H). returns.
    by apply goals_frozen_same.
  - unfold changePlanItemStatus in H. apply bind_ok in H as ([i p] & _ & H).
    apply bind_ok in H as (? & _ & H).
    apply bind_ok in H as ([st1 g] & Hs%checkProgressOrigin_same & H). returns.
    apply goals_frozen_same. exact (Hsame _ Hs).
  - unfold completePlan in H. apply bind_ok in H as ([i p] & _ & H). returns.
    by apply goals_frozen_same.
Qed.

Lemma task_step_frozen sha256 st event st' :
  task_step sha256 st event = Ok st' -> task_inv sha256 st -> goals_frozen st st'.
Proof.
  intros H [Hg _]. unfold task_step in H. apply bind_ok in H as (st1 & H & H').
  assert (goals st' = goals st1) as E by (destruct (shouldIndexReferenceTarget event); by returns).
  intros i g. rewrite E. revert i g. destruct (scope event).
  - apply processRunEvent_plans in H as (_ & ? & _). by apply goals_frozen_same.
  - by eapply processSessionEvent_frozen.
Qed.

(** ** The authority of an agent's mutation *)

(** The agent call that a stored event claims as its origin. *)
Definition agentOriginOf (event : DecodedStoredEvent) : option AgentOrigin :=
  match scope event with
  | SessionScope (PlanProposed data) => match pp_origin data with ByAgent o => Some o | ByUser _ => None end
  | SessionScope (PlanRevised data) => match pr_origin data with ByAgent o => Some o | ByUser _ => None end
  | SessionScope (PlanItemStatusChanged data) =>
      match pis_origin data with ProgressByAgent o => Some o | ProgressByTaskGraph _ => None end
  | _ => None
  end.

Definition agentMutations (events : list DecodedStoredEvent) : list string :=
  omap (fun e => ao_mutation_id <$> agentOriginOf e) events.

(** A request for the [update_plan] tool. *)
Definition isUpdatePlanRequest (run call : string) (e : DecodedStoredEvent) : Prop :=
  exists n data, (scope e = RunScope run n (ToolCallRequested data) \/
                  scope e = RunScope run n (ResumePendingCallAdopted data)) /\
    tc_tool_name data = "update_plan" /\ tc_call_id data = call.

Definition agentEffect (event : DecodedStoredEvent) (o : option AgentOrigin) (st st' : TaskProjector) : Prop :=
  match o with
  | None => usedMutationIds st' = usedMutationIds st /\
            openUpdatePlanRequests st' = openUpdatePlanRequests st
  | Some o =>
      ao_mutation_id o ∉ usedMutationIds st /\
      usedMutationIds st' = {[ao_mutation_id o]} ∪ usedMutationIds st /\
      exists request, openUpdatePlanRequests st !! (ao_run_id o, ao_call_id o) = Some request /\
        our_used request = false /\ sessionId (our_event request) = sessionId event /\
        sessionSeq (our_event request) < sessionSeq event /\ ao_run_id o ∉ terminalRuns st /\
        openUpdatePlanRequests st' = <[(ao_run_id o, ao_call_id o) :=
           {| our_event := our_event request; our_used := true |}]> (openUpdatePlanRequests st)
  end.

Lemma bindRun_agent event r g n m st st' :
  bindRun event r g n m st = Ok st' -> usedMutationIds st' = usedMutationIds st /\
    openUpdatePlanRequests st' = openUpdatePlanRequests st.
Proof.
  unfold bindRun. intros H. destruct (tp_runBindings st !! r); returns; [|done]. by case_match.
Qed.

Lemma assertAgentOrigin_effect event o g n m st st' :
  assertAgentOrigin event o g n m st = Ok st' -> agentEffect event (Some o) st st'.
Proof.
  unfold assertAgentOrigin. intros H. destruct (openUpdatePlanRequests st !! _) as [request|] eqn:Hr; [|done].
  returns. apply bindRun_agent in Hstep1 as [Hu Ho]. rewrite Hu, Ho.
  split; [done|]. split; [done|]. exists request. split_and!; try done. lia.
Qed.

Lemma assertMutationOrigin_effect event o c st st' :
  assertMutationOrigin event o c st = Ok st' ->
  agentEffect event (match o with ByAgent o => Some o | ByUser _ => None end) st st'.
Proof.
  unfold assertMutationOrigin. destruct o; intros H; [by returns|]. by eapply assertAgentOrigin_effect.
Qed.

Lemma checkProgressOrigin_effect event data st st' g :
  checkProgressOrigin event data st = Ok (st', g) ->
  agentEffect event (match pis_origin data with ProgressByAgent o => Some o | ProgressByTaskGraph _ => None end)
    st st'.
Proof.
  unfold checkProgressOrigin. intros H. destruct (pis_origin data); returns; [|done].
  by eapply assertAgentOrigin_effect.
Qed.

Lemma processSessionEvent_effect sha256 event d st st' :
  scope event = SessionScope d -> processSessionEvent sha256 event d st = Ok st' ->
  agentEffect event (agentOriginOf event) st st'.
Proof.
  intros Hsc H. unfold agentOriginOf. rewrite Hsc. unfold processSessionEvent in H.
  assert (Heff : forall o s, agentEffect event o (st <| trackingMode := phase16 |>) s ->
    agentEffect event o st s) by by intros [].
  destruct d; try (by returns); apply Heff; clear Heff.
  - unfold createGoal in H. do 2 apply bind_ok in H as (? & _ & H).
    apply bind_ok in H as (st1 & Hs & H). returns.
    destruct (match _ with Some a => getGoal _ a | None => None end) as [[i g]|] in Hs; by returns.
  - unfold reviseGoal in H. destruct (getGoal _ _) as [[i g]|] eqn:Hget; [|done]. by returns.
  - unfold changeGoalStatus in H. destruct (getGoal _ _) as [[i g]|] eqn:Hget; [|done]. by returns.
  - unfold proposePlan in H. do 5 apply bind_ok in H as (? & _ & H).
    apply bind_ok in H as (st1 & Hs%assertMutationOrigin_effect & H). simpl in H. by injection H as <-.
  - unfold revisePlan in H. do 2 apply bind_ok in H as (? & _ & H). case_match; [|done].
    apply bind_ok in H as (? & _ & H). case_match; [|done].
    do 2 apply bind_ok in H as (? & _ & H).
    apply bind_ok in H as (st1 & Hs%assertMutationOrigin_effect & H).
    destruct (pendingDraft st1); simpl in H; by injection H as <-.
  - unfold approvePlan in H. apply bind_ok in H as ([i dr] & _ & H). returns.
    simpl. repeat case_match; done.
  - unfold rejectPlan in H. apply bind_ok in H as ([i dr] & _ & H). by returns.
  - unfold changePlanItemStatus in H. apply bind_ok in H as ([i p] & _ & H).
    apply bind_ok in H as (? & _ & H).
    apply bind_ok in H as ([st1 g] & Hs%checkProgressOrigin_effect & H). by returns.
  - unfold completePlan in H. apply bind_ok in H as ([i p] & _ & H). by returns.
Qed.

(** The open requests of a prefix of the log, and the mutations it accepted. *)
Record authority_inv (l : list DecodedStoredEvent) (st : TaskProjector) : Prop := {
  au_used : usedMutationIds st = list_to_set (agentMutations l);
  au_unique : NoDup (agentMutations l);
  au_open : forall run call request, openUpdatePlanRequests st !! (run, call) = Some request ->
              our_event request ∈ l /\ isUpdatePlanRequest run call (our_event request);
  au_origin : forall k e o, l !! k = Some e -> agentOriginOf e = Some o ->
              exists j r, (j < k)%nat /\ l !! j = Some r /\
                isUpdatePlanRequest (ao_run_id o) (ao_call_id o) r /\
                sessionId r = sessionId e /\ sessionSeq r < sessionSeq e;
}.

Lemma processRunEvent_requests event r n d st st' :
  scope event = RunScope r n d -> processRunEvent event r d st = Ok st' ->
  usedMutationIds st' = usedMutationIds st /\
  forall run call request, openUpdatePlanRequests st' !! (run, call) = Some request ->
    openUpdatePlanRequests st !! (run, call) = Some request \/
    (our_event request = event /\ isUpdatePlanRequest run call event).
Proof.
  intros Hsc H. unfold processRunEvent in H.
  assert (Hopen : forall data : ToolCallData, (d = ToolCallRequested data \/ d = ResumePendingCallAdopted data) ->
    tc_tool_name data = "update_plan" -> isUpdatePlanRequest r (tc_call_id data) event).
  { intros data [-> | ->] Ht; exists n, data; rewrite Hsc; split_and!; auto. }
  assert (Hdel : forall data run call request,
    delete (r, tc_call_id data) (openUpdatePlanRequests st) !! (run, call) = Some request ->
    openUpdatePlanRequests st !! (run, call) = Some request).
  { intros data run call request. rewrite lookup_delete. by case_decide. }
  assert (Hins : forall data run call request,
    (d = ToolCallRequested data \/ d = ResumePendingCallAdopted data) -> tc_tool_name data = "update_plan" ->
    <[(r, tc_call_id data) := {| our_event := event; our_used := false |}]> (openUpdatePlanRequests st)
      !! (run, call) = Some request ->
    openUpdatePlanRequests st !! (run, call) = Some request \/
    (our_event request = event /\ isUpdatePlanRequest run call event)).
  { intros data run call request Hd Ht. rewrite lookup_insert. case_decide; [|by left].
    intros [= <-]. right. simplify_eq. eauto. }
  destruct d; simpl in H; try (returns; by eauto).
  1: { unfold bindFuturePhase16RunStart in H. repeat case_match; returns; try (by eauto);
       apply bindRun_agent in H as [? E]; rewrite E; eauto. }
  all: case_bool_decide; [|returns; by eauto]; try (case_match; [done|]); returns; eauto.
Qed.

Lemma agentMutations_snoc l e :
  agentMutations (l ++ [e]) = agentMutations l ++
    match agentOriginOf e with Some o => [ao_mutation_id o] | None => [] end.
Proof. unfold agentMutations. rewrite omap_app. simpl. by destruct (agentOriginOf e). Qed.

(** The authority invariant after one event, from the event's effect. *)
Lemma authority_inv_snoc l st e st' :
  authority_inv l st -> agentEffect e (agentOriginOf e) st st' -> authority_inv (l ++ [e]) st'.
Proof.
  intros [Hu Hnd Ho Hor] Heff.
  assert (Hold : forall k e' o, l !! k = Some e' -> agentOriginOf e' = Some o ->
    exists j r, (j < k)%nat /\ (l ++ [e]) !! j = Some r /\
      isUpdatePlanRequest (ao_run_id o) (ao_call_id o) r /\
      sessionId r = sessionId e' /\ sessionSeq r < sessionSeq e').
  { intros k e' o Hk Hoo. destruct (Hor k e' o Hk Hoo) as (j & r & ? & Hj & ?).
    exists j, r. split; [done|]. split; [by apply lookup_app_l_Some|done]. }
  split; rewrite ?agentMutations_snoc; destruct (agentOriginOf e) as [o|] eqn:Hoe; simpl in Heff.
  - destruct Heff as (_ & -> & _). rewrite Hu, list_to_set_app_L. simpl. set_solver.
  - destruct Heff as [-> _]. by rewrite app_nil_r.
  - destruct Heff as (Hnew & _). rewrite Hu in Hnew. apply list.NoDup_app.
    split; [done|]. split; [|apply NoDup_singleton]. intros x Hx ->%list_elem_of_singleton.
    by apply Hnew, elem_of_list_to_set.
  - by rewrite app_nil_r.
  - destruct Heff as (_ & _ & request & Hreq & _ & _ & _ & _ & ->).
    intros run call q. rewrite lookup_insert. case_decide as Heq.
    + intros [= <-]. simplify_eq. simpl. destruct (Ho _ _ _ Hreq). split; [set_solver|done].
    + intros Hq. destruct (Ho _ _ _ Hq). split; [set_solver|done].
  - destruct Heff as [_ ->]. intros run call q Hq. destruct (Ho _ _ _ Hq). split; [set_solver|done].
  - destruct Heff as (_ & _ & request & Hreq & _ & Hs & Hseq & _). destruct (Ho _ _ _ Hreq) as [Hin Hup].
    apply list_elem_of_lookup in Hin as [j Hj].
    intros k e' o' [Hk|[Hle Hk]]%lookup_app_Some Hoo; [by apply Hold|].
    apply list_lookup_singleton_Some in Hk as [Hk <-]. assert (o' = o) as -> by congruence.
    exists j, (our_event request). split; [apply lookup_lt_Some in Hj; lia|].
    split; [by apply lookup_app_l_Some|done].
  - intros k e' o' [Hk|[Hle Hk]]%lookup_app_Some Hoo; [by apply Hold|].
    apply list_lookup_singleton_Some in Hk as [Hk <-]. congruence.
Qed.

Lemma authority_inv_run l st e st' :
  authority_inv l st -> agentOriginOf e = None -> usedMutationIds st' = usedMutationIds st ->
  (forall run call request, openUpdatePlanRequests st' !! (run, call) = Some request ->
    openUpdatePlanRequests st !! (run, call) = Some request \/
    (our_event request = e /\ isUpdatePlanRequest run call e)) ->
  authority_inv (l ++ [e]) st'.
Proof.
  intros Ha Hn Hu Hr.
  assert (Hs : authority_inv (l ++ [e]) st) by (apply (authority_inv_snoc l st); by rewrite ?Hn).
  destruct Hs as [H1 H2 H3 H4]. split; [congruence|done| |done].
  intros run call q Hq. destruct (Hr _ _ _ Hq) as [?|[-> ?]]; [eauto|]. split; [set_solver|done].
Qed.

Lemma task_step_authority sha256 l st e st' :
  authority_inv l st -> task_step sha256 st e = Ok st' -> authority_inv (l ++ [e]) st'.
Proof.
  intros Ha H. unfold task_step in H. apply bind_ok in H as (st1 & H & H').
  assert (authority_inv (l ++ [e]) st1) as [? ? ? ?].
  { destruct (scope e) as [r n d|d] eqn:Hsc.
    - destruct (processRunEvent_requests _ _ _ _ _ _ Hsc H). apply (authority_inv_run l st); try done.
      unfold agentOriginOf. by rewrite Hsc.
    - apply (authority_inv_snoc l st); [done|]. by eapply processSessionEvent_effect. }
  destruct (shouldIndexReferenceTarget e); returns; by split.
Qed.

Lemma runProjector_authority sha256 events st :
  runProjector sha256 events = Ok st -> authority_inv events st.
Proof.
  apply (foldM_prefix _ authority_inv).
  - split; simpl; [done|by constructor| |]; intros *; [by rewrite lookup_empty|by rewrite lookup_nil].
  - intros. by eapply task_step_authority.
Qed.
