(* ===== verification/TaskStateProperties.v ===== *)
(** * Properties of the task state projection

    The theorems a reader of the session log relies on, each stated on
    whole logs or on one handler, with a concrete log that satisfies their
    hypotheses. *)

From S2P Require Import Prelude JsString CanonicalJson Domain CanonicalJsonFacts Events EventLog PlanEvidence TaskState TaskStateFacts TaskStateSpec TaskStateHistory.
#[local] Open Scope Z_scope.

(** ** A concrete log *)

Module Sample.
Definition hash : jstring -> string := standInHash.
Definition hash_inj : forall s t, hash s = hash t -> s = t := standInHash_inj.

Definition item : PlanItemContent :=
  {| pi_acceptance := js "tests pass"; pi_id := "item-1"; pi_required := true; pi_title := js "Fix" |}.
Definition content : PlanRevisionContent :=
  {| pc_goalId := "g1"; pc_goalRevision := 1; pc_items := [item]; pc_planId := "p1";
     pc_revision := 1; pc_title := js "Plan" |}.
Definition digest : string :=
  match sha256Canonical hash (planContentJson content) with Ok h => h | Err _ => "" end.
Definition target : PlanTarget :=
  {| pt_goal_id := "g1"; pt_goal_revision := 1; pt_plan_id := "p1"; pt_plan_sha256 := digest;
     pt_revision := 1 |}.

Definition origin (call mutation : string) : AgentOrigin :=
  {| ao_call_id := call; ao_mutation_id := mutation; ao_run_id := "r1" |}.
Definition updatePlanCall (call : string) : ToolCallData :=
  {| tc_call_id := call; tc_tool_name := "update_plan" |}.
Definition progress (from to : PlanItemStatus) (evidence : list string) (call mutation : string) :=
  SessionScope (PlanItemStatusChanged
    {| pis_evidence_event_ids := evidence; pis_from := from; pis_item_id := "item-1";
       pis_note := js "done"; pis_origin := ProgressByAgent (origin call mutation);
       pis_plan := target; pis_to := to |}).

Definition event (id : string) (seq : Z) (s : Scope) : DecodedStoredEvent :=
  {| eventId := id; sessionId := "s1"; sessionSeq := seq; sourceSchemaVersion := 2; scope := s |}.

(** A goal is set, the agent proposes a plan in its run, ... *)
Definition proposed : list DecodedStoredEvent := [
  event "e1" 1 (SessionScope (GoalCreated {| gcr_goal_id := "g1"; gcr_objective := js "Ship";
    gcr_parent_goal_id := None; gcr_replaces_active_goal := None |}));
  event "e2" 2 (RunScope "r1" 1 (RunStarted {| rs_agent_mode := Some (VString "build");
    rs_goal_id := Some (VString "g1"); rs_goal_revision := Some (VInteger 1);
    rs_plan_id := Some VNull; rs_plan_revision := Some VNull; rs_plan_sha256 := Some VNull |}));
  event "e3" 3 (RunScope "r1" 2 (ToolCallRequested (updatePlanCall "c1")));
  event "e4" 4 (SessionScope (PlanProposed {| pp_content := content;
    pp_origin := ByAgent (origin "c1" "m1"); pp_plan_sha256 := digest |}));
  event "e5" 5 (RunScope "r1" 3 (ToolCallCompleted (updatePlanCall "c1") "success"))].

(** ... the user approves it, ... *)
Definition approval : DecodedStoredEvent := event "e6" 6 (SessionScope (PlanApproved target)).

(** ... the item is worked on, a command succeeds and proves it, ... *)
Definition worked : list DecodedStoredEvent := [
  event "e7" 7 (RunScope "r1" 4 (ToolCallRequested (updatePlanCall "c2")));
  event "e8" 8 (progress item_pending item_in_progress [] "c2" "m2");
  event "e9" 9 (RunScope "r1" 5 (ToolCallCompleted (updatePlanCall "c2") "success"));
  event "e10" 10 (RunScope "r1" 6 (CommandCompleted {| cc_execution_id := "x1";
    cc_cleanup_verified := true; cc_exit_code := Some 0; cc_termination := "exit" |}));
  event "e11" 11 (RunScope "r1" 7 (ToolCallRequested (updatePlanCall "c3")));
  event "e12" 12 (progress item_in_progress item_completed ["e10"] "c3" "m3");
  event "e13" 13 (RunScope "r1" 8 (ToolCallCompleted (updatePlanCall "c3") "success"));
  event "e14" 14 (RunScope "r1" 9 (CompletionEvaluated "accept" "fin"));
  event "e15" 15 (SessionScope (PlanCompleted {| pcd_completion_evaluated_event_id := "e14";
    pcd_finish_task_call_id := "fin"; pcd_plan := target |}))].

Definition finishing : DecodedStoredEvent :=
  event "e12" 12 (progress item_in_progress item_completed ["e10"] "c3" "m3").
Definition finishingData : PlanItemStatusChangedData :=
  {| pis_evidence_event_ids := ["e10"]; pis_from := item_in_progress; pis_item_id := "item-1";
     pis_note := js "done"; pis_origin := ProgressByAgent (origin "c3" "m3");
     pis_plan := target; pis_to := item_completed |}.

(** ... and the goal is completed. *)
Definition goalDone : GoalStatusChangedData :=
  {| gsc_goal_id := "g1"; gsc_revision := 1; gsc_to := ToCompleted "e14" "fin" |}.
Definition closing : DecodedStoredEvent := event "e16" 16 (SessionScope (GoalStatusChanged goalDone)).

(** A later goal. *)
Definition nextGoal : DecodedStoredEvent :=
  event "e17" 17 (SessionScope (GoalCreated {| gcr_goal_id := "g2"; gcr_objective := js "Next";
    gcr_parent_goal_id := Some "g1"; gcr_replaces_active_goal := None |})).

Definition log : list DecodedStoredEvent := proposed ++ [approval] ++ worked ++ [closing].

Definition state (events : list DecodedStoredEvent) : TaskProjector :=
  match runProjector hash events with Ok st => st | Err _ => task_init end.

Example log_projects : is_ok (project hash log) = true.
Proof. vm_compute. reflexivity. Qed.
End Sample.

Lemma project_run sha256 events p :
  project sha256 events = Ok p ->
  exists st, runProjector sha256 events = Ok st /\ tsp_goals p = goals st /\
    tsp_plans p = planProjection <$> plans st /\
    tsp_activeGoalId p = activeGoalId st /\
    tsp_currentApprovedPlan p = planRef <$> getCurrent st /\ tsp_pendingDraft p = planRef <$> getPending st /\
    tsp_readyForCompletion p = match getCurrent st with
      | Some c => ((mp_status c === plan_active) || (mp_status c === plan_completed)) && planReady c
      | None => false end.
Proof.
  unfold project. destruct (assertDecodedStoredEventInvariants events); [|done].
  intros H. returns. eauto 10.
Qed.

(** The plan stored at a place of the projection. *)
Definition planAt (p : TaskStateProjection) (i : nat) : option MutablePlan := prp_plan <$> tsp_plans p !! i.

Lemma planAt_run p st i :
  tsp_plans p = planProjection <$> plans st -> planAt p i = plans st !! i.
Proof. unfold planAt. intros ->. rewrite list_lookup_fmap. by destruct (plans st !! i). Qed.

(** In every projection of an accepted log at most one goal is active, at
    most one plan is a draft and at most one is active; every draft or active
    plan belongs to the current revision of the one active goal. *)
Theorem project_single_open_work sha256 events p :
  project sha256 events = Ok p ->
  (forall i j g h, tsp_goals p !! i = Some g -> tsp_goals p !! j = Some h ->
     mg_status g = goal_active -> mg_status h = goal_active -> i = j) /\
  (forall i j a b, planAt p i = Some a -> planAt p j = Some b ->
     mp_status a = mp_status b -> (mp_status a = plan_draft \/ mp_status a = plan_active) -> i = j) /\
  (forall i a, planAt p i = Some a -> (mp_status a = plan_draft \/ mp_status a = plan_active) ->
     exists k g, tsp_goals p !! k = Some g /\ mg_status g = goal_active /\
       tsp_activeGoalId p = Some (gc_goalId (mg_content g)) /\
       gc_goalId (mg_content g) = pc_goalId (mp_content a) /\
       gc_revision (mg_content g) = pc_goalRevision (mp_content a)).
Proof.
  intros (st & Hrun & Eg & Ep & Ea & _)%project_run.
  pose proof (runProjector_inv _ _ _ Hrun) as [Hg Hp]. rewrite Eg, Ea.
  assert (Hopen : forall i a, plans st !! i = Some a -> mp_status a = plan_draft \/ mp_status a = plan_active ->
    pendingDraft st = Some i \/ currentApprovedPlan st = Some i).
  { intros i a Ha [Hs|Hs]; [left; apply (pi_pending _ _ Hp); eauto|right; by eapply (pi_active _ _ Hp)]. }
  split; [|split].
  - intros i j g h Hi Hj Hs Ht.
    apply (gi_active _ Hg i g Hi) in Hs. apply (gi_active _ Hg j h Hj) in Ht.
    assert (goalsById st !! gc_goalId (mg_content g) = Some i) by (apply (gi_index _ Hg); eauto).
    assert (goalsById st !! gc_goalId (mg_content h) = Some j) by (apply (gi_index _ Hg); eauto).
    congruence.
  - intros i j a b. rewrite !(planAt_run p st) by done. intros Hi Hj Hab [Hs|Hs].
    + assert (pendingDraft st = Some i) by (apply (pi_pending _ _ Hp); eauto).
      assert (pendingDraft st = Some j) by (apply (pi_pending _ _ Hp); exists b; split; congruence).
      congruence.
    + assert (currentApprovedPlan st = Some i) by (by eapply (pi_active _ _ Hp)).
      assert (currentApprovedPlan st = Some j) by (apply (pi_active _ _ Hp j b); congruence). congruence.
  - intros i a. rewrite (planAt_run p st) by done. intros Hi Hs.
    destruct (proj1 (isActiveGoalAt_true _ _ _) (pi_bound _ _ Hp i a Hi (Hopen i a Hi Hs)))
      as (k & g & Hget & Hact & Ha & Hr).
    pose proof (getGoal_id st _ k g Hg Hget) as Hid. apply getGoal_Some in Hget as [_ Hk].
    exists k, g. split_and!; try done. congruence.
Qed.

Lemma project_single_open_work_witness :
  exists p, project Sample.hash Sample.log = Ok p /\
  (forall i j g h, tsp_goals p !! i = Some g -> tsp_goals p !! j = Some h ->
     mg_status g = goal_active -> mg_status h = goal_active -> i = j).
Proof.
  destruct (project Sample.hash Sample.log) as [p|] eqn:E; [|by vm_compute in E].
  exists p. split; [done|]. exact (proj1 (project_single_open_work Sample.hash Sample.log p E)).
Defined.

(** Every plan of a projection carries the digest of its own content and
    exactly its content's items; it has at most one item in progress, no
    skipped required item, and when it is completed every required item is
    completed and every optional one completed or skipped. *)
Theorem project_plans_sound sha256 events p i plan :
  project sha256 events = Ok p -> planAt p i = Some plan ->
  sha256Canonical sha256 (planContentJson (mp_content plan)) = Ok (mp_planSha256 plan) /\
  mi_content <$> mp_items plan = pc_items (mp_content plan) /\
  (forall j k a b, mp_items plan !! j = Some a -> mp_items plan !! k = Some b ->
     mi_status a = item_in_progress -> mi_status b = item_in_progress -> j = k) /\
  (forall a, a ∈ mp_items plan -> mi_status a = item_skipped -> pi_required (mi_content a) = false) /\
  (mp_status plan = plan_completed -> planReady plan = true).
Proof.
  intros (st & Hrun & _ & Ep & _)%project_run. rewrite (planAt_run p st) by done. intros Hi.
  destruct (runProjector_inv _ _ _ Hrun) as [_ Hp]. destruct (pi_ok _ _ Hp i plan Hi). done.
Qed.

Lemma project_plans_sound_witness :
  exists p plan, project Sample.hash Sample.log = Ok p /\ planAt p 0 = Some plan /\
    mp_status plan = plan_completed /\ planReady plan = true.
Proof.
  destruct (project Sample.hash Sample.log) as [p|] eqn:E; [|by vm_compute in E].
  destruct (planAt p 0) as [plan|] eqn:Ep.
  2:{ exfalso. vm_compute in E. injection E as <-. by vm_compute in Ep. }
  exists p, plan. split; [done|]. split; [done|].
  assert (Hs : mp_status plan = plan_completed).
  { vm_compute in E. injection E as <-. vm_compute in Ep. by injection Ep as <-. }
  split; [exact Hs|].
  exact (proj2 (proj2 (proj2 (proj2 (project_plans_sound Sample.hash Sample.log p 0 plan E Ep)))) Hs).
Defined.

(** C35: The projector refines the task life cycle: over any log, the active
    goal revision, the waiting draft and the approved plan move by the steps
    of [lifecycle_step] only. *)
Theorem runProjector_refines_lifecycle sha256 events st :
  runProjector sha256 events = Ok st ->
  rtc lifecycle_step (Build_Lifecycle None None None) (lifecycle st).
Proof.
  intros H. enough (task_inv sha256 st /\ rtc lifecycle_step (Build_Lifecycle None None None) (lifecycle st))
    by tauto. revert H.
  apply (foldM_invariant _ (fun st => task_inv sha256 st /\
    rtc lifecycle_step (Build_Lifecycle None None None) (lifecycle st))).
  - intros x e y _ [Hx Hl] Hs. split; [by eapply task_step_inv|].
    eapply rtc_r; [exact Hl|by eapply task_step_lifecycle].
  - split; [apply task_inv_init|constructor].
Qed.

Lemma runProjector_refines_lifecycle_witness :
  rtc lifecycle_step (Build_Lifecycle None None None) (lifecycle (Sample.state Sample.log)).
Proof. apply (runProjector_refines_lifecycle Sample.hash Sample.log). vm_compute. reflexivity. Defined.

(** Plans and items move along their legal transitions only: the recorded
    transitions of a plan lead from draft to its status and those of an item
    that was not carried over lead from pending to its status, each step a
    legal one; a carried item is terminal and was never moved again. *)
Theorem project_histories_legal sha256 events p i plan :
  project sha256 events = Ok p -> planAt p i = Some plan ->
  chain legalPlanTransition plan_draft (planSteps plan) (mp_status plan) /\
  Forall item_history (mp_items plan).
Proof.
  intros (st & Hrun & _ & Ep & _)%project_run. rewrite (planAt_run p st) by done. intros Hi.
  by destruct (runProjector_history _ _ _ Hrun i plan Hi).
Qed.

Lemma project_histories_legal_witness :
  exists p plan, project Sample.hash Sample.log = Ok p /\ planAt p 0 = Some plan /\
    chain legalPlanTransition plan_draft (planSteps plan) (mp_status plan) /\
    length (planSteps plan) = 2%nat.
Proof.
  destruct (project Sample.hash Sample.log) as [p|] eqn:E; [|by vm_compute in E].
  destruct (planAt p 0) as [plan|] eqn:Ep.
  2:{ exfalso. vm_compute in E. injection E as <-. by vm_compute in Ep. }
  exists p, plan. split; [done|]. split; [done|]. split.
  - exact (proj1 (project_histories_legal Sample.hash Sample.log p 0 plan E Ep)).
  - vm_compute in E. injection E as <-. vm_compute in Ep. by injection Ep as <-.
Defined.

(** A completed item has evidence: its evidence list is not empty and
    every id in it names an event the projector has on record. *)
Theorem completed_items_have_evidence sha256 events st i plan item :
  runProjector sha256 events = Ok st -> plans st !! i = Some plan -> item ∈ mp_items plan ->
  mi_status item = item_completed ->
  mi_evidenceEventIds item <> [] /\ Forall (onRecord st) (mi_evidenceEventIds item).
Proof.
  intros Hrun Hi Hin Hs. destruct (runProjector_history _ _ _ Hrun i plan Hi) as [_ _ He _].
  rewrite list.Forall_forall in He. by apply (He item).
Qed.

Lemma completed_items_have_evidence_witness :
  exists plan item, plans (Sample.state Sample.log) !! 0%nat = Some plan /\
    mp_items plan !! 0%nat = Some item /\ mi_evidenceEventIds item <> [].
Proof.
  destruct (plans (Sample.state Sample.log) !! 0%nat) as [plan|] eqn:Hp; [|by vm_compute in Hp].
  destruct (mp_items plan !! 0%nat) as [item|] eqn:Hi.
  2:{ vm_compute in Hp. injection Hp as <-. by vm_compute in Hi. }
  exists plan, item. split; [done|]. split; [done|].
  refine (proj1 (completed_items_have_evidence Sample.hash Sample.log (Sample.state Sample.log) 0
    plan item _ Hp (list_elem_of_lookup_2 _ _ _ Hi) _)).
  - vm_compute. reflexivity.
  - vm_compute in Hp. injection Hp as <-. vm_compute in Hi. by injection Hi as <-.
Defined.

(** The checks of one progress event: the projector marks an item
    completed only on an earlier event of the same session that the evidence
    policy classifies as eligible for completion. *)
Theorem completion_needs_eligible_evidence event data st st' :
  changePlanItemStatus event data st = Ok st' -> pis_to data = item_completed ->
  pis_evidence_event_ids data <> [] /\
  Forall (fun id => exists e, jm_get id (tp_eventsById st) = Some e /\ sessionId e = sessionId event /\
     sessionSeq e < sessionSeq event /\
     exists bindings, eligibleForCompleted (classifyPlanItemEvidence e
       {| eventsById := tp_eventsById st; ctx_goalId := pt_goal_id (pis_plan data);
          ctx_goalRevision := pt_goal_revision (pis_plan data); runBindings := bindings |}) = true)
    (pis_evidence_event_ids data).
Proof.
  intros H Hto. unfold changePlanItemStatus in H.
  apply bind_ok in H as ([i plan] & _ & H). apply bind_ok in H as (? & _ & H).
  apply bind_ok in H as ([st1 g] & Hsame%checkProgressOrigin_same%sameTask_events & H).
  apply bind_ok in H as (k & Hk%checkItemTransition_ok & H).
  apply bind_ok in H as ([] & Hev%foldM_unit_Forall & _).
  destruct Hk as (_ & _ & _ & _ & _ & _ & _ & Hne). split; [by apply Hne|].
  eapply Forall_impl; [|exact Hev]. intros id Hid. simpl in Hid. unfold checkEvidence in Hid.
  rewrite Hsame in Hid. destruct (jm_get id (tp_eventsById st)) as [e|]; [|done].
  exists e. split; [done|].
  apply bind_ok in Hid as (? & Hearly%throw_when_ok & Hid).
  apply bind_ok in Hid as (? & _ & Hid%throw_when_ok).
  rewrite Hto in Hid. returns. split; [done|]. split; [lia|]. eauto.
Qed.

Lemma completion_needs_eligible_evidence_witness :
  exists st', changePlanItemStatus Sample.finishing Sample.finishingData
      (Sample.state (take 11 Sample.log)) = Ok st' /\ pis_evidence_event_ids Sample.finishingData <> [].
Proof.
  destruct (changePlanItemStatus Sample.finishing Sample.finishingData (Sample.state (take 11 Sample.log)))
    as [st'|] eqn:E; [|by vm_compute in E].
  exists st'. split; [done|].
  exact (proj1 (completion_needs_eligible_evidence _ _ _ _ E eq_refl)).
Defined.

(** A goal that has been completed or abandoned never changes again,
    whatever the rest of the log holds. *)
Theorem terminal_goals_are_frozen sha256 before after st st' i goal :
  runProjector sha256 before = Ok st -> runProjector sha256 (before ++ after) = Ok st' ->
  goals st !! i = Some goal -> mg_status goal <> goal_active -> goals st' !! i = Some goal.
Proof.
  intros Hb Ha Hi Hs. unfold runProjector in Ha. rewrite foldM_app in Ha.
  apply bind_ok in Ha as (st1 & Hb1 & Ha). unfold runProjector in Hb.
  assert (st1 = st) as -> by congruence.
  enough (task_inv sha256 st' /\ goals st' !! i = Some goal) by tauto. revert Ha.
  apply (foldM_invariant _ (fun s => task_inv sha256 s /\ goals s !! i = Some goal)).
  - intros x e y _ [Hx Hg] He. split; [by eapply task_step_inv|]. by eapply task_step_frozen.
  - split; [by eapply runProjector_inv|done].
Qed.

Lemma terminal_goals_are_frozen_witness :
  exists goal, goals (Sample.state Sample.log) !! 0%nat = Some goal /\
    goals (Sample.state (Sample.log ++ [Sample.nextGoal])) !! 0%nat = Some goal.
Proof.
  destruct (goals (Sample.state Sample.log) !! 0%nat) as [goal|] eqn:Hg; [|by vm_compute in Hg].
  exists goal. split; [done|].
  refine (terminal_goals_are_frozen Sample.hash Sample.log [Sample.nextGoal] (Sample.state Sample.log) _ 0
    goal _ _ Hg _); [vm_compute; reflexivity..|].
  vm_compute in Hg. by injection Hg as <-.
Defined.

(** C2: Agent mutations are authorised once: over a log the mutation ids of
    the agent-made plan changes are pairwise different, and each change
    follows, in the same session, the request of an [update_plan] call with
    the call id and run it names. *)
Theorem agent_mutations_authorised sha256 events st :
  runProjector sha256 events = Ok st ->
  NoDup (agentMutations events) /\
  forall k e o, events !! k = Some e -> agentOriginOf e = Some o ->
    exists j r, (j < k)%nat /\ events !! j = Some r /\
      isUpdatePlanRequest (ao_run_id o) (ao_call_id o) r /\
      sessionId r = sessionId e /\ sessionSeq r < sessionSeq e.
Proof. intros H%runProjector_authority. destruct H as [_ Hnd _ Hor]. split; [exact Hnd|exact Hor]. Qed.

Lemma agent_mutations_authorised_witness :
  NoDup (agentMutations Sample.log) /\ length (agentMutations Sample.log) = 3%nat.
Proof.
  split; [|vm_compute; reflexivity].
  refine (proj1 (agent_mutations_authorised Sample.hash Sample.log (Sample.state Sample.log) _)).
  vm_compute. reflexivity.
Defined.

(** C1: Approval activates exactly what the user was shown: when the digest
    in an approval is that of the shown content, the plan that becomes the
    active one has this content (with a hash that does not collide). *)
Theorem approval_activates_shown_content sha256 events st event target st' shown :
  (forall s t, sha256 s = sha256 t -> s = t) ->
  runProjector sha256 events = Ok st -> approvePlan event target st = Ok st' ->
  (forall i p, plans st !! i = Some p -> plan_units16 (mp_content p)) -> plan_units16 shown ->
  sha256Canonical sha256 (planContentJson shown) = Ok (pt_plan_sha256 target) ->
  exists plan, getCurrent st' = Some plan /\ mp_status plan = plan_active /\ mp_content plan = shown.
Proof.
  intros Hinj Hrun H Hunits Hshown Hdigest. pose proof (runProjector_inv _ _ _ Hrun) as [_ Hp].
  pose proof H as H'. unfold approvePlan in H'. apply bind_ok in H' as ([i draft] & Hex & _).
  destruct (approvePlan_plans sha256 _ _ _ _ _ _ H Hp Hex)
    as (_ & _ & _ & _ & _ & Ec & (q & Hq & Hqc & Hqh & Hqo & Hqs) & _).
  apply exactPendingDecision_ok in Hex as (_ & Hi & _ & Hm & _).
  exists q. unfold getCurrent. rewrite Ec. split; [done|]. split; [done|].
  unfold matchesTarget in Hm. returns.
  eapply (plan_digest_binds sha256 _ _ (mp_planSha256 q)); [done| |done|by destruct Hqo|congruence].
  rewrite Hqc. eauto.
Qed.

Lemma approval_activates_shown_content_witness :
  exists st' plan, approvePlan Sample.approval Sample.target (Sample.state Sample.proposed) = Ok st' /\
    getCurrent st' = Some plan /\ mp_status plan = plan_active /\ mp_content plan = Sample.content.
Proof.
  destruct (approvePlan Sample.approval Sample.target (Sample.state Sample.proposed)) as [st'|] eqn:E;
    [|by vm_compute in E].
  exists st'.
  assert (Hc : plan_units16 Sample.content).
  { split; [apply js_units|]. constructor; [split; apply js_units|constructor]. }
  destruct (approval_activates_shown_content Sample.hash Sample.proposed (Sample.state Sample.proposed)
    Sample.approval Sample.target st' Sample.content Sample.hash_inj) as (plan & Hplan).
  - vm_compute. reflexivity.
  - exact E.
  - intros i p Hi. assert (mp_content p = Sample.content) as ->; [|exact Hc].
    destruct i as [|i]; vm_compute in Hi; [by injection Hi as <-|discriminate Hi].
  - exact Hc.
  - vm_compute. reflexivity.
  - exists plan. split; [reflexivity|exact Hplan].
Defined.

(** A goal is completed only on an accepted completion: the evaluation is
    on record, earlier, has effect accept and names the same finish call; the
    current plan, if there is one, was completed by the same evaluation, and
    otherwise no draft is waiting. *)
Theorem goal_completion_needs_acceptance event data completionId callId st st' :
  changeGoalStatus event data st = Ok st' -> gsc_to data = ToCompleted completionId callId ->
  (exists e run n, jm_get completionId (tp_eventsById st) = Some e /\
     scope e = RunScope run n (CompletionEvaluated "accept" callId) /\ sessionSeq e < sessionSeq event) /\
  match getCurrent st with
  | Some plan => mp_status plan = plan_completed /\ exists c, mp_completed plan = Some c /\
      pcm_completionEvaluatedEventId c = completionId /\ pcm_finishTaskCallId c = callId
  | None => getPending st = None
  end /\ activeGoalId st' = None.
Proof.
  intros H Hto. unfold changeGoalStatus in H. destruct (getGoal st _) as [[i g]|]; [|done].
  do 3 apply bind_ok in H as (? & _ & H). rewrite Hto in H.
  apply bind_ok in H as (? & Hc & H). apply bind_ok in Hc as (? & Hacc & Hc). split; [|split].
  - unfold assertAcceptedCompletion in Hacc. destruct (jm_get completionId _) as [e|]; [|done].
    destruct (scope e) as [run n d|] eqn:Hsc; [|done]. destruct d; try done. returns.
    exists e, run, n. subst. rewrite Hsc. split_and!; [done|done|lia].
  - destruct (getCurrent st) as [plan|]; [|destruct (getPending st); by returns].
    apply throw_when_ok in Hc. destruct (mp_completed plan) as [c|]; returns; [|done].
    split; [done|]. by exists c.
  - by returns.
Qed.

Lemma goal_completion_needs_acceptance_witness :
  exists st', changeGoalStatus Sample.closing Sample.goalDone (Sample.state (take 15 Sample.log)) = Ok st' /\
    activeGoalId st' = None.
Proof.
  destruct (changeGoalStatus Sample.closing Sample.goalDone (Sample.state (take 15 Sample.log)))
    as [st'|] eqn:E; [|by vm_compute in E].
  exists st'. split; [done|].
  exact (proj2 (proj2 (goal_completion_needs_acceptance _ _ "e14" "fin" _ _ E eq_refl))).
Defined.
