(* ===== verification/TaskGraphSchema.v ===== *)
(** * The task graph schema

    [src/task-graph/task-graph-schema.ts]: what a graph revision must satisfy
    before it can be proposed, its topology checks, and its normal form.
    [localeCompare] and [toLocaleLowerCase] (ICU) and zod's UUID test are
    parameters. *)

From S2P Require Import Prelude JsString CanonicalJson Domain Schemas.
From stdpp Require Import sorting.
#[local] Open Scope Z_scope.

Definition MAX_TASK_GRAPH_BYTES : Z := 256 * 1024.
Definition MAX_TASK_GRAPH_NODES : Z := 32.
Definition MAX_TASK_GRAPH_EDGES : Z := 128.
Definition MAX_TASK_GRAPH_DEPTH : Z := 16.
Definition MAX_TASK_GRAPH_ATTEMPTS_PER_NODE : Z := 3.

(** ** Field schemas *)

Definition MAX_SAFE_INTEGER : Z := 2 ^ 53 - 1.
Definition positiveSafeInteger (n : Z) : bool := (0 <? n) && (n <=? MAX_SAFE_INTEGER).
Definition nonnegativeSafeInteger (max n : Z) : bool := (0 <=? n) && (n <=? max).

Definition titleSchema : jstring -> bool :=
  canonicalStoredText {| maximumBytes := 256; maximumScalars := Some 256;
                         minimumScalars := Some 1; nonblank := true |}.
Definition objectiveSchema : jstring -> bool :=
  canonicalStoredText {| maximumBytes := 8 * 1024; maximumScalars := Some (8 * 1024);
                         minimumScalars := Some 1; nonblank := true |}.
Definition purposeSchema : jstring -> bool :=
  canonicalStoredText {| maximumBytes := 1024; maximumScalars := Some 1024;
                         minimumScalars := Some 1; nonblank := true |}.

Definition containsControlCharacter (value : jstring) : bool :=
  existsb (fun c => (c <=? 0x1f) || ((0x7f <=? c) && (c <=? 0x9f))) (codePoints value).

(** [/^[A-Za-z]:/u.test(value)] *)
Definition hasDrivePrefix (value : jstring) : bool :=
  match value with u :: v :: _ => isAsciiLetter u && (v =? 0x3a) | _ => false end.

(** [portableRelativePath] *)
Definition portableRelativePath (value : jstring) (allowRoot : bool) : bool :=
  if allowRoot && (value === js ".") then true
  else if (length value =? 0)%nat || (1024 <? Z.of_nat (length value)) ||
          includes value (js "\") || startsWith value (js "/") || hasDrivePrefix value then false
  else forallb (fun segment =>
         (0 <? length segment)%nat && (segment !== js ".") && (segment !== js "..") &&
         negb (containsControlCharacter segment)) (splitUnit 0x2f value).

(** [taskGraphBudgetSchema] *)
Definition taskGraphBudgetSchema (b : TaskGraphBudget) : bool :=
  positiveSafeInteger (maxAttempts b) &&
  (maxAttempts b <=? MAX_TASK_GRAPH_NODES * MAX_TASK_GRAPH_ATTEMPTS_PER_NODE) &&
  positiveSafeInteger (maxDurationMs b) && (maxDurationMs b <=? 24 * 60 * 60 * 1000) &&
  nonnegativeSafeInteger 100000 (maxModelSteps b) &&
  nonnegativeSafeInteger 10000 (maxCommandExecutions b) &&
  nonnegativeSafeInteger (1024 * 1024 * 1024) (maxCommandOutputBytes b) &&
  nonnegativeSafeInteger 25000 (maxChangedFiles b) &&
  nonnegativeSafeInteger (1024 * 1024 * 1024) (maxChangedBytes b) &&
  nonnegativeSafeInteger (1024 * 1024 * 1024) (maxArtifactBytes b) &&
  match maxReportedTokens b with Some n => nonnegativeSafeInteger 1000000000 n | None => true end.

(** [taskNodeRetrySchema] *)
Definition taskNodeRetrySchema (r : TaskNodeRetry) : bool :=
  (1 <=? retry_maxAttempts r) && (retry_maxAttempts r <=? MAX_TASK_GRAPH_ATTEMPTS_PER_NODE) &&
  (length (retry_automaticOn r) <=? 1)%nat &&
  forallb (fun c => c === "pre_effect_infrastructure_failure") (retry_automaticOn r) &&
  noDuplicates (retry_automaticOn r).

(** [qualifiedCapabilities] *)
Definition qualifiedCapabilities (values : list jstring) : bool :=
  (length values <=? 16)%nat && forallb (fun v => Z.of_nat (length v) <=? 512) values &&
  noDuplicates values &&
  forallb (fun v => match parseQualifiedCapabilityId v with Some _ => true | None => false end) values.

(** [verificationArg] *)
Definition verificationArg (value : jstring) : bool :=
  (Z.of_nat (length value) <=? 4096) &&
  negb (includes value [0]) && negb (includes value [0x0d]) && negb (includes value [0x0a]).

(** ** The dependency graph *)

(** A node as the topology checks see it. *)
Definition depsOf (nodes : list TaskNodeSpec) : jsmap string TaskNodeSpec :=
  foldl (fun m n => jm_set (tn_nodeId n) n m) [] nodes.

Record DepthState : Type := {
  ds_visiting : gset string;
  ds_memo : gmap string Z;
  ds_cycle : bool;
}.
#[export] Instance DepthState_eta : Eta DepthState := fun r =>
  Build_DepthState (ds_visiting r) (ds_memo r) (ds_cycle r).

(** [Math.max(...l)] of a non-empty list. *)
Definition maxOf (l : list Z) : Z := match l with [] => 0 | x :: l => foldl Z.max x l end.

(** [node.dependsOn.map(visit)]: the visits in order, each on the state the
    previous one left. *)
Fixpoint mapVisit (visit : string -> DepthState -> option (Z * DepthState)) (ids : list string)
    (st : DepthState) : option (list Z * DepthState) :=
  match ids with
  | [] => Some ([], st)
  | id :: ids =>
      '(d, st) ← visit id st;
      '(ds, st) ← mapVisit visit ids st;
      Some (d :: ds, st)
  end.

(** The inner function of [graphDepth]; [None] is a call stack deeper than [fuel]. *)
Fixpoint visit (byId : jsmap string TaskNodeSpec) (fuel : nat) (id : string) (st : DepthState)
  : option (Z * DepthState) :=
  match fuel with
  | O => None
  | S fuel =>
      match ds_memo st !! id with
      | Some known => Some (known, st)
      | None =>
          if bool_decide (id ∈ ds_visiting st)
          then Some (MAX_TASK_GRAPH_DEPTH + 1, st <| ds_cycle := true |>)
          else
            let st := st <| ds_visiting ::= union {[id]} |> in
            '(depth, st) ←
              match jm_get id byId with
              | None => Some (1, st)
              | Some node =>
                  if (length (tn_dependsOn node) =? 0)%nat then Some (1, st)
                  else '(ds, st) ← mapVisit (visit byId fuel) (tn_dependsOn node) st;
                       Some (1 + maxOf ds, st)
              end;
            Some (depth, st <| ds_visiting ::= fun v => v ∖ {[id]} |>
                            <| ds_memo ::= <[id := depth]> |>)
      end
  end.

(** [graphDepth], with a call stack of [fuel] frames. *)
Definition graphDepth (fuel : nat) (nodes : list TaskNodeSpec) : option (bool * Z) :=
  let st := {| ds_visiting := ∅; ds_memo := ∅; ds_cycle := false |} in
  '(ds, st) ← mapVisit (visit (depsOf nodes) fuel) (tn_nodeId <$> nodes) st;
  Some (ds_cycle st, maxOf ds).

(** ** Worktree lineages *)

(** The inner function of [superRefine], [lineage]; the memo only saves
    repeated calls.  [None] is a call stack deeper than [fuel]. *)
Fixpoint lineage (byId : jsmap string TaskNodeSpec) (fuel : nat) (id : option string)
  : option (option string) :=
  match fuel with
  | O => None
  | S fuel =>
      match (id' ← id; jm_get id' byId) with
      | None => Some None
      | Some node =>
          match ws_mode (tn_workspace node) with
          | origin_read_only => Some None
          | managed_worktree => Some (Some (tn_nodeId node))
          | inherit_predecessor => lineage byId fuel (head (tn_dependsOn node))
          end
      end
  end.

(** ** The checks across nodes *)

Inductive GraphIssue : Type :=
| node_id_duplicate | sequence_duplicate | self_dependency | unknown_dependency
| inherit_without_single_dependency | origin_read_only_exclusive | verification_needs_worktree
| retry_exceeds_budget | node_ceiling_exceeds_graph | invalid_nullable_ceiling | too_many_edges
| dependency_cycle | depth_exceeded | inherit_without_lineage | merged_lineages | graph_too_large.

(** [budgetFields()], each with its limit; the flag marks [maxReportedTokens]. *)
Definition budgetFields (b : TaskGraphBudget) : list (bool * option Z) :=
  [(false, Some (maxAttempts b)); (false, Some (maxDurationMs b)); (false, Some (maxModelSteps b));
   (false, Some (maxCommandExecutions b)); (false, Some (maxCommandOutputBytes b));
   (false, Some (maxChangedFiles b)); (false, Some (maxChangedBytes b));
   (false, Some (maxArtifactBytes b)); (true, maxReportedTokens b)].

Definition addIssue (b : bool) (issue : GraphIssue) : list GraphIssue := if b then [issue] else [].

(** The first loop: ids and sequences seen so far. *)
Fixpoint identityIssues (nodes : list TaskNodeSpec) (ids : list string) (sequences : list Z)
  : list GraphIssue :=
  match nodes with
  | [] => []
  | node :: nodes =>
      addIssue (bool_decide (tn_nodeId node ∈ ids)) node_id_duplicate ++
      addIssue (bool_decide (tn_sequence node ∈ sequences)) sequence_duplicate ++
      identityIssues nodes (tn_nodeId node :: ids) (tn_sequence node :: sequences)
  end.

Definition ceilingIssues (node graph : TaskGraphBudget) : list GraphIssue :=
  concat (zip_with (fun '(reported, nodeLimit) '(_, graphLimit) =>
    match nodeLimit, graphLimit with
    | Some n, Some g => addIssue (g <? n) node_ceiling_exceeds_graph
    | Some _, None => addIssue (negb reported) invalid_nullable_ceiling
    | None, _ => []
    end) (budgetFields node) (budgetFields graph)).

(** The body of the second loop. *)
Definition nodeIssues (ids : list string) (graphBudget : TaskGraphBudget) (node : TaskNodeSpec)
  : list GraphIssue :=
  concat ((fun dependency =>
    addIssue (dependency === tn_nodeId node) self_dependency ++
    addIssue (negb (bool_decide (dependency ∈ ids))) unknown_dependency) <$> tn_dependsOn node) ++
  addIssue ((ws_mode (tn_workspace node) === inherit_predecessor) &&
            negb (length (tn_dependsOn node) =? 1)%nat) inherit_without_single_dependency ++
  match tn_kind node with
  | AgentTaskNode mode =>
      addIssue (xorb (ws_mode (tn_workspace node) === origin_read_only) (mode === mode_plan))
        origin_read_only_exclusive
  | VerificationTaskNode _ _ _ =>
      addIssue (ws_mode (tn_workspace node) === origin_read_only) verification_needs_worktree
  end ++
  addIssue (maxAttempts (tn_budget node) <? retry_maxAttempts (tn_retry node)) retry_exceeds_budget ++
  ceilingIssues (tn_budget node) graphBudget.

(** The body of the last loop. *)
Definition lineageIssues (byId : jsmap string TaskNodeSpec) (fuel : nat) (node : TaskNodeSpec)
  : option (list GraphIssue) :=
  lineages ← mapM (fun d => lineage byId fuel (Some d)) (tn_dependsOn node);
  let predecessorLineages := remove_dups (omap id lineages) in
  own ← (if ws_mode (tn_workspace node) === inherit_predecessor
         then lineage byId fuel (Some (tn_nodeId node)) else Some (Some ""%string));
  Some (addIssue match own with None => true | Some _ => false end inherit_without_lineage ++
        addIssue ((ws_mode (tn_workspace node) !== origin_read_only) &&
                  (1 <? length predecessorLineages)%nat) merged_lineages).

(** The [superRefine] of the content schema; [None] is the [RangeError] of a
    call stack deeper than [fuel]. *)
Definition graphIssues (fuel : nat) (value : TaskGraphRevisionContent) : option (list GraphIssue) :=
  let nodes := tg_nodes value in
  let ids := tn_nodeId <$> nodes in
  let edgeCount := Z.of_nat (sum_list_with (fun n => length (tn_dependsOn n)) nodes) in
  '(cycle, depth) ← graphDepth fuel nodes;
  lineages ← mapM (lineageIssues (depsOf nodes) fuel) nodes;
  Some (identityIssues nodes [] [] ++
        concat (nodeIssues ids (tg_graphBudget value) <$> nodes) ++
        addIssue (MAX_TASK_GRAPH_EDGES <? edgeCount) too_many_edges ++
        addIssue cycle dependency_cycle ++
        addIssue (MAX_TASK_GRAPH_DEPTH <? depth) depth_exceeded ++
        concat lineages ++
        addIssue match canonicalJson (graphContentJson value) with
                 | Ok text => MAX_TASK_GRAPH_BYTES <? byteLength text
                 | Err _ => true
                 end graph_too_large).

(** ** Parsing and normalising *)

Inductive TaskGraphErrorCode : Type :=
| task_graph_cycle | task_graph_bounds_exceeded | task_graph_schema_invalid
| task_graph_plan_item_unknown.

(** What parsing can throw: a classified schema error, or a stack overflow. *)
Inductive GraphParseError : Type :=
| GraphSchemaError (code : TaskGraphErrorCode)
| GraphFieldError
| StackOverflow.

(** [classifyTaskGraphSchemaError] on the messages of the refinement issues. *)
Definition classifyTaskGraphSchemaError (issue : GraphIssue) : TaskGraphErrorCode :=
  match issue with
  | dependency_cycle => task_graph_cycle
  | node_ceiling_exceeds_graph | depth_exceeded | graph_too_large | too_many_edges =>
      task_graph_bounds_exceeded
  | _ => task_graph_schema_invalid
  end.

Section Schema.
(** zod's UUID test, [toLocaleLowerCase("en-US")], and the sign of [localeCompare(_, "en")]. *)
Variable isUuid : jstring -> bool.
Variable localeLower : jstring -> jstring.
Variable localeLe : jstring -> jstring -> bool.

(** [taskNodeWorkspaceRequestSchema] *)
Definition taskNodeWorkspaceRequestSchema (w : TaskNodeWorkspaceRequest) : bool :=
  (length (ws_declaredPathPrefixes w) <=? 32)%nat &&
  forallb (fun v => portableRelativePath v true) (ws_declaredPathPrefixes w) &&
  noDuplicates (localeLower <$> ws_declaredPathPrefixes w).

(** [taskNodeSpecSchema] *)
Definition taskNodeSpecSchema (n : TaskNodeSpec) : bool :=
  nodeIdSchema (js (tn_nodeId n)) &&
  (1 <=? tn_sequence n) && (tn_sequence n <=? MAX_TASK_GRAPH_NODES) &&
  titleSchema (tn_title n) && objectiveSchema (tn_objective n) &&
  (1 <=? length (tn_planItemIds n))%nat && (length (tn_planItemIds n) <=? 16)%nat &&
  forallb (fun i => planItemIdSchema (js i)) (tn_planItemIds n) && noDuplicates (tn_planItemIds n) &&
  (length (tn_dependsOn n) <=? 16)%nat &&
  forallb (fun i => nodeIdSchema (js i)) (tn_dependsOn n) && noDuplicates (tn_dependsOn n) &&
  taskNodeWorkspaceRequestSchema (tn_workspace n) &&
  qualifiedCapabilities (tn_requiredCapabilities n) &&
  taskGraphBudgetSchema (tn_budget n) && taskNodeRetrySchema (tn_retry n) &&
  match tn_kind n with
  | AgentTaskNode _ => true
  | VerificationTaskNode argv cwd purpose =>
      (1 <=? length argv)%nat && (length argv <=? 64)%nat && forallb verificationArg argv &&
      match canonicalJson (JArr (JStr <$> argv)) with
      | Ok text => byteLength text <=? 32 * 1024
      | Err _ => false
      end &&
      (Z.of_nat (length cwd) <=? 1024) && portableRelativePath cwd true && purposeSchema purpose
  end.

(** [taskGraphBindingSchema] *)
Definition taskGraphBindingSchema (b : TaskGraphBinding) : bool :=
  isUuid (js (gb_sessionId b)) && isUuid (js (gb_goalId b)) && positiveSafeInteger (gb_goalRevision b) &&
  isUuid (js (gb_planId b)) && positiveSafeInteger (gb_planRevision b) &&
  sha256Schema (js (gb_planSha256 b)).

(** The object schema under [taskGraphRevisionContentSchema]'s refinement. *)
Definition graphFields (value : TaskGraphRevisionContent) : bool :=
  isUuid (js (tg_graphId value)) && taskGraphBindingSchema (tg_binding value) &&
  titleSchema (tg_title value) &&
  (1 <=? length (tg_nodes value))%nat && (Z.of_nat (length (tg_nodes value)) <=? MAX_TASK_GRAPH_NODES) &&
  forallb taskNodeSpecSchema (tg_nodes value) && taskGraphBudgetSchema (tg_graphBudget value).

(** [taskGraphRevisionContentSchema.parse] *)
Definition taskGraphRevisionContentSchema (fuel : nat) (value : TaskGraphRevisionContent)
  : result GraphParseError () :=
  if negb (graphFields value) then Err GraphFieldError
  else match graphIssues fuel value with
       | None => Err StackOverflow
       | Some [] => Ok ()
       | Some (issue :: _) => Err (GraphSchemaError (classifyTaskGraphSchemaError issue))
       end.

Definition textLe (a b : jstring) : Prop := localeLe a b = true.
#[export] Instance textLe_dec a b : Decision (textLe a b).
Proof. unfold textLe. apply _. Defined.
Definition idLe (a b : string) : Prop := localeLe (js a) (js b) = true.
#[export] Instance idLe_dec a b : Decision (idLe a b).
Proof. unfold idLe. apply _. Defined.

(** [sortedUnique]: a copy in locale order (it does not remove duplicates). *)
Definition sortedUniqueText (values : list jstring) : list jstring := js_sort textLe values.
Definition sortedUnique (values : list string) : list string := js_sort idLe values.

(** [normalizeNode] *)
Definition normalizeNode (n : TaskNodeSpec) : TaskNodeSpec := {|
  tn_nodeId := tn_nodeId n; tn_sequence := tn_sequence n; tn_title := tn_title n;
  tn_objective := tn_objective n;
  tn_planItemIds := sortedUnique (tn_planItemIds n);
  tn_dependsOn := sortedUnique (tn_dependsOn n);
  tn_workspace := {| ws_mode := ws_mode (tn_workspace n);
    ws_declaredPathPrefixes := sortedUniqueText (ws_declaredPathPrefixes (tn_workspace n)) |};
  tn_requiredCapabilities := sortedUniqueText (tn_requiredCapabilities n);
  tn_budget := tn_budget n;
  tn_retry := {| retry_maxAttempts := retry_maxAttempts (tn_retry n);
                 retry_automaticOn := sortedUnique (retry_automaticOn (tn_retry n)) |};
  tn_kind := tn_kind n |}.

(** The comparison of the node sort. *)
Definition nodeLe (a b : TaskNodeSpec) : Prop :=
  tn_sequence a < tn_sequence b \/
  (tn_sequence a = tn_sequence b /\ idLe (tn_nodeId a) (tn_nodeId b)).
#[export] Instance nodeLe_dec a b : Decision (nodeLe a b).
Proof. unfold nodeLe. apply _. Defined.

(** [normalizeTaskGraphRevision] *)
Definition normalizeTaskGraphRevision (fuel : nat) (value : TaskGraphRevisionContent)
  : result GraphParseError TaskGraphRevisionContent :=
  _ ← taskGraphRevisionContentSchema fuel value;
  let normalized := {|
    tg_graphId := tg_graphId value; tg_binding := tg_binding value; tg_title := tg_title value;
    tg_nodes := js_sort nodeLe (normalizeNode <$> tg_nodes value);
    tg_graphBudget := tg_graphBudget value |} in
  _ ← taskGraphRevisionContentSchema fuel normalized;
  Ok normalized.

(** [validateTaskGraphPlanItems] *)
Definition validateTaskGraphPlanItems (graph : TaskGraphRevisionContent) (currentPlanItemIds : gset string)
  : result TaskGraphErrorCode () :=
  let unknown := filter (fun id => id ∉ currentPlanItemIds)
    (remove_dups (concat (tn_planItemIds <$> tg_nodes graph))) in
  throw_when (0 <? length unknown)%nat task_graph_plan_item_unknown.

(** [canonicalTaskGraphIdentity] of [task-graph-identity.ts], over the hash of the UTF-8 text. *)
Definition canonicalTaskGraphIdentity (sha256 : jstring -> string) (fuel : nat)
    (value : TaskGraphRevisionContent)
  : result GraphParseError (TaskGraphRevisionContent * string * Z) :=
  content ← normalizeTaskGraphRevision fuel value;
  match canonicalJson (graphContentJson content) with
  | Ok text => Ok (content, sha256 text, byteLength text)
  | Err _ => Err GraphFieldError
  end.
End Schema.

(** [taskGraphApprovalIdentity] *)
Definition taskGraphApprovalIdentity (sha256 : jstring -> string) (approvalRequestId graphId : string)
    (graphRevision : Z) (graphSha256 session : string) (binding : TaskGraphBinding)
  : result encode_error string :=
  sha256Canonical sha256 (JObj [
    field "approval_request_id" (jid approvalRequestId); field "goal_id" (jid (gb_goalId binding));
    field "goal_revision" (JNum (gb_goalRevision binding)); field "graph_id" (jid graphId);
    field "graph_revision" (JNum graphRevision); field "graph_sha256" (jid graphSha256);
    field "plan_id" (jid (gb_planId binding)); field "plan_revision" (JNum (gb_planRevision binding));
    field "plan_sha256" (jid (gb_planSha256 binding)); field "session_id" (jid session)]).
