(* ===== verification/TaskGraphTopology.v ===== *)
(** * Topology of task graphs

    [graphDepth] of [TaskGraphSchema.v] decides whether the dependency graph
    has a cycle and computes its longest dependency chain; with one stack
    frame more than there are nodes it always returns.  [lineage] returns on
    acyclic graphs, and overflows the stack on a cycle of inheriting nodes. *)

From S2P Require Import Prelude JsString CanonicalJson Domain Schemas TaskGraphSchema.
From stdpp Require Import sorting.
#[local] Open Scope Z_scope.

Section Topology.
Context (byId : jsmap string TaskNodeSpec).

(** [a] lists [b] as a dependency. *)
Definition dependsOn (a b : string) : Prop :=
  exists node, jm_get a byId = Some node /\ b ∈ tn_dependsOn node.

(** A chain of [n] nodes, each depending on the next. *)
Inductive dep_chain : string -> Z -> Prop :=
| dep_one a : dep_chain a 1
| dep_cons a b n : dependsOn a b -> dep_chain b n -> dep_chain a (n + 1).

(** Depths recorded so far are the lengths of the longest chains. *)
Definition memo_ok (memo : gmap string Z) : Prop :=
  forall a d, memo !! a = Some d ->
    (forall b, dependsOn a b -> exists d', memo !! b = Some d' /\ d' < d) /\ dep_chain a d.

Definition disjoint_state (st : DepthState) : Prop :=
  forall v, v ∈ ds_visiting st -> ds_memo st !! v = None.

Definition reaches (st : DepthState) (id : string) : Prop :=
  forall v, v ∈ ds_visiting st -> tc dependsOn v id.

(** What a visit that returns has done. *)
Record visited (st : DepthState) (ids : list string) (ds : list Z) (st' : DepthState) : Prop := {
  vi_visiting : ds_visiting st' = ds_visiting st;
  vi_disjoint : disjoint_state st -> disjoint_state st';
  vi_cycle : ds_cycle st' = true -> ds_cycle st = true \/ exists a, tc dependsOn a a;
  vi_keep : ds_cycle st = true -> ds_cycle st' = true;
  vi_memo : ds_cycle st' = false -> disjoint_state st -> memo_ok (ds_memo st) ->
            memo_ok (ds_memo st') /\ ds_memo st ⊆ ds_memo st' /\
            Forall2 (fun id d => ds_memo st' !! id = Some d) ids ds;
}.

Lemma visited_nil st : visited st [] [] st.
Proof. by split; auto. Qed.

Lemma visited_cons st id d st1 ids ds st2 :
  visited st [id] [d] st1 -> visited st1 ids ds st2 -> visited st (id :: ids) (d :: ds) st2.
Proof.
  intros [V1 D1 C1 K1 M1] [V2 D2 C2 K2 M2]. split.
  - congruence.
  - auto.
  - intros H. destruct (C2 H); auto.
  - auto.
  - intros Hc Hd Hm.
    assert (ds_cycle st1 = false) as Hc1.
    { destruct (ds_cycle st1) eqn:E; [|done]. rewrite K2 in Hc by done. done. }
    destruct (M1 Hc1 Hd Hm) as (Hm1 & Hsub1 & Hf1).
    destruct (M2 Hc (D1 Hd) Hm1) as (Hm2 & Hsub2 & Hf2).
    split; [done|]. split; [by trans (ds_memo st1)|]. constructor; [|done].
    inversion_clear Hf1. by eapply lookup_weaken.
Qed.

Lemma mapVisit_visited f ids st ds st' :
  (forall id st d st', id ∈ ids -> reaches st id -> f id st = Some (d, st') -> visited st [id] [d] st') ->
  (forall id, id ∈ ids -> reaches st id) ->
  mapVisit f ids st = Some (ds, st') -> visited st ids ds st'.
Proof.
  revert st ds st'. induction ids as [|id ids IH]; intros st ds st' Hf Hr H; simpl in H.
  { simplify_eq. apply visited_nil. }
  apply bind_Some in H as ([d st1] & H1 & H). apply bind_Some in H as ([ds2 st2] & H2 & H).
  simplify_eq. assert (Hv : visited st [id] [d] st1).
  { eapply Hf; [by left|apply Hr; by left|done]. }
  eapply visited_cons; [exact Hv|]. eapply IH; [|..|exact H2].
  - intros. eapply Hf; [by right|done..].
  - intros x Hx v. rewrite (vi_visiting _ _ _ _ Hv). apply Hr. by right.
Qed.

Lemma foldl_max_spec l x :
  (forall y, y ∈ x :: l -> y <= foldl Z.max x l) /\ foldl Z.max x l ∈ x :: l.
Proof.
  revert x. induction l as [|z l IH]; intros x; simpl.
  - split; [|by left]. intros y ->%list_elem_of_singleton. lia.
  - destruct (IH (Z.max x z)) as [Hle Hin]. split.
    + intros y Hy. assert (Z.max x z <= foldl Z.max (Z.max x z) l) by (apply Hle; by left).
      apply elem_of_cons in Hy as [->|Hy]; [lia|]. apply elem_of_cons in Hy as [->|Hy]; [lia|].
      apply Hle. by right.
    + apply elem_of_cons in Hin as [->|Hin]; [|by right; right].
      destruct (Z.max_spec x z) as [[_ ->]|[_ ->]]; [right; by left|by left].
Qed.

Lemma maxOf_spec l : l <> [] -> (forall y, y ∈ l -> y <= maxOf l) /\ maxOf l ∈ l.
Proof. destruct l as [|x l]; [done|]. intros _. apply foldl_max_spec. Qed.

(** Recording the depth of a node whose dependencies are recorded. *)
Lemma memo_ok_insert memo id depth :
  memo_ok memo -> memo !! id = None ->
  (forall b, dependsOn id b -> exists d', memo !! b = Some d' /\ d' < depth) -> dep_chain id depth ->
  memo_ok (<[id := depth]> memo).
Proof.
  intros Hm Hn Hdeps Hch a d. rewrite lookup_insert. case_decide as Heq; [subst a|].
  - intros [= <-]. split; [|done]. intros b Hb. destruct (Hdeps b Hb) as (d' & Hd' & Hlt).
    exists d'. split; [|done]. rewrite lookup_insert_ne; [done|]. intros ->. congruence.
  - intros Hd. destruct (Hm a d Hd) as [Hb Hc]. split; [|done]. intros b Hab.
    destruct (Hb b Hab) as (d' & Hd' & Hlt). exists d'. split; [|done].
    rewrite lookup_insert_ne; [done|]. intros ->. congruence.
Qed.

Lemma visit_visited fuel id st d st' :
  reaches st id -> visit byId fuel id st = Some (d, st') -> visited st [id] [d] st'.
Proof.
  revert id st d st'. induction fuel as [|fuel IH]; intros id st d st' Hr H; [done|]. simpl in H.
  destruct (ds_memo st !! id) as [known|] eqn:Hk.
  { simplify_eq. split; auto. }
  case_bool_decide as Hvis.
  { simplify_eq. split; simpl; auto; try done. intros _. right. exists id. by apply Hr. }
  apply bind_Some in H as ([depth st2] & H & Hres). simplify_eq.
  set (st1 := st <| ds_visiting ::= union {[id]} |>).
  assert (Hr1 : forall b, dependsOn id b -> reaches st1 b).
  { intros b Hb v Hv. simpl in Hv. apply elem_of_union in Hv as [->%elem_of_singleton|Hv].
    - by constructor.
    - eapply tc_r; [by apply Hr|done]. }
  assert (Hdis1 : disjoint_state st -> disjoint_state st1).
  { intros Hd v Hv. simpl in *. apply elem_of_union in Hv as [->%elem_of_singleton|Hv]; [done|by apply Hd]. }
  assert (Hsub : exists ids ds, visited st1 ids ds st2 /\ (forall b, dependsOn id b <-> b ∈ ids) /\
            match ids with [] => d = 1 | _ => d = 1 + maxOf ds end).
  { destruct (jm_get id byId) as [node|] eqn:Hn.
    - destruct (Nat.eqb_spec (length (tn_dependsOn node)) 0) as [Hl|Hl].
      + apply nil_length_inv in Hl. injection H as <- <-. exists [], []. split; [apply visited_nil|].
        split; [|done]. intros b. split; [|by intros ?%not_elem_of_nil].
        intros (node' & Hn' & Hb). simplify_eq. rewrite Hl in Hb. by apply not_elem_of_nil in Hb.
      + apply bind_Some in H as ([ds st3] & Hm & H). injection H as <- <-.
        exists (tn_dependsOn node), ds. split; [|split].
        * eapply mapVisit_visited; [|..|exact Hm].
          -- intros. by eapply IH.
          -- intros b Hb. apply Hr1. by exists node.
        * intros b. split; [intros (node' & Hn' & Hb); by simplify_eq|intros Hb; by exists node].
        * by destruct (tn_dependsOn node).
    - injection H as <- <-. exists [], []. split; [apply visited_nil|]. split; [|done].
      intros b. split; [intros (node' & Hn' & _); by simplify_eq|by intros ?%not_elem_of_nil]. }
  destruct Hsub as (ids & ds & [V D C K M] & Hids & Hdepth).
  assert (Hvs : ds_visiting st2 ∖ {[id]} = ds_visiting st).
  { rewrite V. simpl. apply set_eq. intros x. rewrite elem_of_difference, elem_of_union, elem_of_singleton.
    split; [tauto|]. intros Hx. split; [tauto|]. by intros ->. }
  split; simpl.
  - exact Hvs.
  - intros Hd v. simpl. rewrite Hvs. intros Hv.
    rewrite lookup_insert_ne by (by intros ->).
    apply D; [by apply Hdis1|]. rewrite V. simpl. set_solver.
  - intros Hc. destruct (C Hc); auto.
  - exact K.
  - intros Hc Hd Hm. destruct (M Hc (Hdis1 Hd) Hm) as (Hm2 & Hsub2 & Hf).
    assert (Hnone : ds_memo st2 !! id = None) by (apply D; [by apply Hdis1|rewrite V; simpl; set_solver]).
    split; [|split].
    + apply memo_ok_insert; [done|done|..].
      * intros b Hb%Hids. destruct (list_elem_of_lookup_1 _ _ Hb) as [i Hi].
        destruct (Forall2_lookup_l _ _ _ _ _ Hf Hi) as (db & Hdb & Hmb). exists db. split; [done|].
        destruct ids as [|x ids]; [done|]. subst d.
        assert (db <= maxOf ds); [|lia]. apply maxOf_spec; [by destruct ds|].
        by eapply list_elem_of_lookup_2.
      * destruct ids as [|x ids]; [subst d; constructor|].
        destruct (maxOf_spec ds) as [_ Hin]; [by inversion Hf|].
        apply list_elem_of_lookup in Hin as [i Hi].
        destruct (Forall2_lookup_r _ _ _ _ _ Hf Hi) as (b & Hb & Hmb).
        subst d. replace (1 + maxOf ds) with (maxOf ds + 1) by lia.
        eapply dep_cons; [apply Hids; by eapply list_elem_of_lookup_2|]. by apply (Hm2 b).
    + trans (ds_memo st2); [done|]. by apply insert_subseteq.
    + constructor; [by rewrite lookup_insert_eq|constructor].
Qed.

(** ** The recursion is bounded by the number of nodes *)

Definition unvisited (st : DepthState) : nat :=
  size (list_to_set (C:=gset string) (fst <$> byId) ∖ ds_visiting st).

Lemma visit_keeps_visiting fuel id st d st' :
  visit byId fuel id st = Some (d, st') -> ds_visiting st' = ds_visiting st.
Proof.
  revert id st d st'. induction fuel as [|fuel IH]; intros id st d st' H; [done|]. simpl in H.
  destruct (ds_memo st !! id); [by simplify_eq|]. case_bool_decide as Hv; [by simplify_eq|].
  apply bind_Some in H as ([depth st2] & H & Hres). simplify_eq. simpl.
  assert (Hmap : forall ids s ds s', mapVisit (visit byId fuel) ids s = Some (ds, s') ->
            ds_visiting s' = ds_visiting s).
  { induction ids as [|x ids IHids]; intros s ds s' Hm; simpl in Hm; [by simplify_eq|].
    apply bind_Some in Hm as ([d1 s1] & H1 & Hm). apply bind_Some in Hm as ([ds2 s2] & H2 & Hm).
    simplify_eq. rewrite (IHids _ _ _ H2). by eapply IH. }
  assert (ds_visiting st2 = {[id]} ∪ ds_visiting st) as ->.
  { destruct (jm_get id byId) as [node|]; [|by simplify_eq].
    destruct (length (tn_dependsOn node) =? 0)%nat; [by simplify_eq|].
    apply bind_Some in H as ([ds st3] & Hm & H). simplify_eq. by apply Hmap in Hm. }
  set_solver.
Qed.

Lemma mapVisit_total fuel ids st :
  (forall id st', id ∈ ids -> ds_visiting st' = ds_visiting st -> is_Some (visit byId fuel id st')) ->
  is_Some (mapVisit (visit byId fuel) ids st).
Proof.
  revert st. induction ids as [|id ids IH]; intros st Hf; simpl; [eauto|].
  destruct (Hf id st) as [[d st1] H1]; [by left|done|]. rewrite H1. simpl.
  destruct (IH st1) as [[ds st2] H2].
  - intros x st' Hx Hv. apply Hf; [by right|]. rewrite Hv. by eapply visit_keeps_visiting.
  - rewrite H2. simpl. eauto.
Qed.

Lemma visit_total fuel id st : (unvisited st < fuel)%nat -> is_Some (visit byId fuel id st).
Proof.
  revert id st. induction fuel as [|fuel IH]; intros id st Hf; [lia|]. simpl.
  destruct (ds_memo st !! id); [eauto|]. case_bool_decide as Hv; [eauto|].
  destruct (jm_get id byId) as [node|] eqn:Hn; [|simpl; eauto].
  destruct (length (tn_dependsOn node) =? 0)%nat; [simpl; eauto|].
  destruct (mapVisit_total fuel (tn_dependsOn node) (st <| ds_visiting ::= union {[id]} |>))
    as [[ds st2] H2]; [|simpl in H2; rewrite H2; simpl; eauto].
  intros x st' _ Hv'. apply IH. unfold unvisited in *. rewrite Hv'. simpl.
  assert (Hin : id ∈ list_to_set (C:=gset string) (fst <$> byId) ∖ ds_visiting st).
  { apply elem_of_difference. split; [|done]. apply elem_of_list_to_set, list_elem_of_fmap.
    exists (id, node). split; [done|]. by apply jm_get_elem. }
  assert (Hsub : list_to_set (C:=gset string) (fst <$> byId) ∖ ({[id]} ∪ ds_visiting st) ⊂
                 list_to_set (fst <$> byId) ∖ ds_visiting st) by set_solver.
  apply subset_size in Hsub. lia.
Qed.
End Topology.

(** ** The map of nodes *)

Lemma depsOf_snoc nodes n : depsOf (nodes ++ [n]) = jm_set (tn_nodeId n) n (depsOf nodes).
Proof. unfold depsOf. by rewrite foldl_app. Qed.

Lemma depsOf_Some nodes a n : jm_get a (depsOf nodes) = Some n -> n ∈ nodes /\ tn_nodeId n = a.
Proof.
  induction nodes as [|m nodes IH] using rev_ind; [done|]. rewrite depsOf_snoc, jm_get_set.
  case_decide as Heq; [intros [= <-]|intros [? ?]%IH]; set_solver.
Qed.

Lemma depsOf_elem nodes n : n ∈ nodes -> is_Some (jm_get (tn_nodeId n) (depsOf nodes)).
Proof.
  induction nodes as [|m nodes IH] using rev_ind; [by intros ?%not_elem_of_nil|].
  rewrite depsOf_snoc, jm_get_set. case_decide; [eauto|].
  intros [?| ->%list_elem_of_singleton]%elem_of_app; [by apply IH|done].
Qed.

Lemma jm_set_length {V} k (v : V) (m : jsmap string V) :
  (length (jm_set k v m) <= S (length m))%nat.
Proof. induction m as [|[k' v'] m IH]; simpl; [done|]. case_decide; simpl; lia. Qed.

Lemma depsOf_length nodes : (length (depsOf nodes) <= length nodes)%nat.
Proof.
  induction nodes as [|m nodes IH] using rev_ind; [done|].
  rewrite depsOf_snoc, length_app. simpl. pose proof (jm_set_length (tn_nodeId m) m (depsOf nodes)). lia.
Qed.

(** ** What [graphDepth] computes *)

Definition empty_depth : DepthState := {| ds_visiting := ∅; ds_memo := ∅; ds_cycle := false |}.

Lemma graphDepth_visited fuel nodes cycle depth :
  graphDepth fuel nodes = Some (cycle, depth) ->
  exists ds st, visited (depsOf nodes) empty_depth (tn_nodeId <$> nodes) ds st /\
    cycle = ds_cycle st /\ depth = maxOf ds.
Proof.
  unfold graphDepth. intros H. apply bind_Some in H as ([ds st] & H & E). simplify_eq.
  exists ds, st. split; [|done]. eapply mapVisit_visited; [|..|exact H].
  - intros. by eapply visit_visited.
  - intros id _ v Hv. simpl in Hv. by apply not_elem_of_empty in Hv.
Qed.

Lemma memo_descends byId memo a b d :
  memo_ok byId memo -> tc (dependsOn byId) a b -> memo !! a = Some d -> exists d', memo !! b = Some d' /\ d' < d.
Proof.
  intros Hm Ht. revert d. induction Ht as [a b Hab|a b c Hab _ IH]; intros d Hd.
  - by apply (Hm a d Hd).
  - destruct (Hm a d Hd) as [Hb _]. destruct (Hb b Hab) as (d1 & Hd1 & Hlt).
    destruct (IH d1 Hd1) as (d' & ? & ?). exists d'. split; [done|lia].
Qed.

Lemma chain_bounded byId memo a n d :
  memo_ok byId memo -> dep_chain byId a n -> memo !! a = Some d -> n <= d.
Proof.
  intros Hm Hc. revert d. induction Hc as [a|a b n Hab Hc IH]; intros d Hd.
  - destruct (Hm a d Hd) as [_ Hch]. revert Hch. clear. induction 1; lia.
  - destruct (Hm a d Hd) as [Hb _]. destruct (Hb b Hab) as (d' & Hd' & Hlt).
    specialize (IH d' Hd'). lia.
Qed.

Lemma tc_source nodes a b : tc (dependsOn (depsOf nodes)) a b -> a ∈ tn_nodeId <$> nodes.
Proof.
  intros Ht. assert (exists c, dependsOn (depsOf nodes) a c) as (c & n & [Hin <-]%depsOf_Some & _)
    by (destruct Ht; eauto).
  by apply list_elem_of_fmap_2.
Qed.

(** A node id whose dependencies loop back to it. *)
Definition cyclic (nodes : list TaskNodeSpec) : Prop := exists a, tc (dependsOn (depsOf nodes)) a a.

(** What [graphDepth] answers. *)
Lemma graphDepth_correct fuel nodes cycle depth :
  graphDepth fuel nodes = Some (cycle, depth) ->
  (cycle = true <-> cyclic nodes) /\
  (cycle = false -> nodes <> [] ->
     (forall id n, id ∈ tn_nodeId <$> nodes -> dep_chain (depsOf nodes) id n -> n <= depth) /\
     exists id, id ∈ tn_nodeId <$> nodes /\ dep_chain (depsOf nodes) id depth).
Proof.
  intros (ds & st & [_ _ C _ M] & -> & ->)%graphDepth_visited.
  assert (Hd : disjoint_state empty_depth) by (intros v Hv; by apply not_elem_of_empty in Hv).
  assert (Hm : memo_ok (depsOf nodes) (ds_memo empty_depth)) by (intros a d; simpl; by rewrite lookup_empty).
  split; [split|].
  - intros Hc. by destruct (C Hc).
  - intros (a & Ha). destruct (ds_cycle st) eqn:Hc; [done|]. exfalso.
    destruct (M eq_refl Hd Hm) as (Hok & _ & Hf).
    destruct (list_elem_of_lookup_1 _ _ (tc_source _ _ _ Ha)) as [i Hi].
    destruct (Forall2_lookup_l _ _ _ _ _ Hf Hi) as (d & _ & Hda).
    destruct (memo_descends _ _ _ _ _ Hok Ha Hda) as (d' & ? & ?). simplify_eq. lia.
  - intros Hc Hne. destruct (M Hc Hd Hm) as (Hok & _ & Hf).
    destruct (maxOf_spec ds) as [Hmax Hin].
    { intros ->. inversion Hf as [E|]. by destruct nodes. }
    split.
    + intros id n Hid Hch. destruct (list_elem_of_lookup_1 _ _ Hid) as [i Hi].
      destruct (Forall2_lookup_l _ _ _ _ _ Hf Hi) as (d & Hdi & Hda).
      pose proof (chain_bounded _ _ _ _ _ Hok Hch Hda).
      assert (d <= maxOf ds) by (apply Hmax; by eapply list_elem_of_lookup_2). lia.
    + apply list_elem_of_lookup in Hin as [i Hi].
      destruct (Forall2_lookup_r _ _ _ _ _ Hf Hi) as (id & Hid & Hmd). exists id.
      split; [by eapply list_elem_of_lookup_2|]. by apply (Hok id).
Qed.

(** One stack frame more than there are nodes is enough. *)
Lemma graphDepth_terminates fuel nodes :
  (length nodes < fuel)%nat -> is_Some (graphDepth fuel nodes).
Proof.
  intros Hf. unfold graphDepth.
  destruct (mapVisit_total (depsOf nodes) fuel (tn_nodeId <$> nodes) empty_depth) as [[ds st] H].
  - intros id st _ Hv. apply visit_total. unfold unvisited. rewrite Hv. simpl.
    assert (size (list_to_set (C:=gset string) (fst <$> depsOf nodes) ∖ ∅) <= length (depsOf nodes))%nat.
    { rewrite difference_empty_L. etransitivity; [apply size_list_to_set_le|].
      by rewrite length_fmap. }
    pose proof (depsOf_length nodes). lia.
  - fold empty_depth. rewrite H. simpl. eauto.
Qed.

(** [graphDepth] decides cycles and measures depth, and always returns:
    with one stack frame more than there are nodes it reports a cycle exactly
    when some node depends on itself through one or more dependencies, and
    otherwise its depth is the number of nodes on a longest dependency chain. *)
Theorem graphDepth_decides fuel nodes :
  (length nodes < fuel)%nat ->
  exists cycle depth, graphDepth fuel nodes = Some (cycle, depth) /\
    (cycle = true <-> cyclic nodes) /\
    (cycle = false -> nodes <> [] ->
       (forall id n, id ∈ tn_nodeId <$> nodes -> dep_chain (depsOf nodes) id n -> n <= depth) /\
       exists id, id ∈ tn_nodeId <$> nodes /\ dep_chain (depsOf nodes) id depth).
Proof.
  intros Hf. destruct (graphDepth_terminates fuel nodes Hf) as [[cycle depth] H].
  exists cycle, depth. split; [exact H|]. by apply graphDepth_correct in H.
Qed.

(** ** Lineages *)

Lemma lineage_total byId fuel id n :
  (forall m, dep_chain byId id m -> m <= n) -> n < Z.of_nat fuel ->
  is_Some (lineage byId fuel (Some id)).
Proof.
  revert id n. induction fuel as [|fuel IH]; intros id n Hb Hn.
  { specialize (Hb 1 (dep_one byId id)). lia. }
  pose proof (Hb 1 (dep_one byId id)) as H1. simpl.
  destruct (jm_get id byId) as [node|] eqn:Hnode; [|eauto].
  destruct (ws_mode (tn_workspace node)); [eauto..|].
  destruct (tn_dependsOn node) as [|b deps] eqn:Hdeps; simpl.
  { destruct fuel; [lia|simpl; eauto]. }
  apply (IH b (n - 1)); [|lia]. intros m Hm.
  assert (m + 1 <= n); [|lia]. apply Hb. eapply dep_cons; [|exact Hm].
  exists node. rewrite Hdeps. split; [done|by left].
Qed.

(** Chains from a node id that is not in the graph have one node. *)
Lemma chain_outside nodes id n :
  id ∉ tn_nodeId <$> nodes -> dep_chain (depsOf nodes) id n -> n = 1.
Proof.
  intros Hid Hc. destruct Hc as [|a b n (node & [Hin <-]%depsOf_Some & _) _]; [done|].
  destruct Hid. by apply list_elem_of_fmap_2.
Qed.

Lemma acyclic_depth nodes :
  ~ cyclic nodes -> exists depth, 1 <= depth /\
    (forall id n, dep_chain (depsOf nodes) id n -> n <= depth) /\
    forall fuel, (length nodes < fuel)%nat -> exists d, graphDepth fuel nodes = Some (false, d).
Proof.
  intros Hac.
  assert (Hg : forall fuel, (length nodes < fuel)%nat -> exists d, graphDepth fuel nodes = Some (false, d)).
  { intros fuel Hf. destruct (graphDepth_terminates fuel nodes Hf) as [[[] d] H]; [|eauto].
    destruct Hac. by apply (graphDepth_correct fuel nodes true d). }
  destruct (Hg (S (length nodes))) as [d Hd]; [lia|].
  destruct (graphDepth_correct _ _ _ _ Hd) as [_ Hdepth].
  exists (Z.max 1 d). split; [lia|]. split; [|done]. intros id n Hc.
  destruct (decide (id ∈ tn_nodeId <$> nodes)) as [Hin|Hout].
  - destruct (Hdepth eq_refl) as [Hle _]; [by intros ->; apply not_elem_of_nil in Hin|].
    specialize (Hle id n Hin Hc). lia.
  - rewrite (chain_outside nodes id n Hout Hc). lia.
Qed.

Lemma mapM_option_total {A B} (f : A -> option B) l :
  (forall a, a ∈ l -> is_Some (f a)) -> is_Some (mapM f l).
Proof. intros H. apply mapM_is_Some, list.Forall_forall, H. Qed.

(** ** Accepted graphs *)

Lemma identityIssues_nil nodes ids sequences :
  identityIssues nodes ids sequences = [] ->
  NoDup (tn_nodeId <$> nodes) /\ NoDup (tn_sequence <$> nodes) /\
  (forall i, i ∈ tn_nodeId <$> nodes -> i ∉ ids) /\ (forall s, s ∈ tn_sequence <$> nodes -> s ∉ sequences).
Proof.
  revert ids sequences. induction nodes as [|n nodes IH]; intros ids seqs H; simpl in *.
  { split_and!; [constructor..| |]; by intros ? ?%not_elem_of_nil. }
  apply app_eq_nil in H as [H1 H]. apply app_eq_nil in H as [H2 H].
  destruct (IH _ _ H) as (Hi & Hs & Hni & Hns).
  assert (Hn1 : tn_nodeId n ∉ ids) by (intros Hin; by rewrite bool_decide_eq_true_2 in H1).
  assert (Hn2 : tn_sequence n ∉ seqs) by (intros Hin; by rewrite bool_decide_eq_true_2 in H2).
  split_and!.
  - constructor; [|done]. intros Hin. by destruct (Hni _ Hin); left.
  - constructor; [|done]. intros Hin. by destruct (Hns _ Hin); left.
  - intros i [->|Hin]%elem_of_cons; [done|]. intros ?. by destruct (Hni _ Hin); right.
  - intros i [->|Hin]%elem_of_cons; [done|]. intros ?. by destruct (Hns _ Hin); right.
Qed.

Lemma concat_nil {A} (l : list (list A)) : concat l = [] -> Forall (fun x => x = []) l.
Proof. induction l as [|x l IH]; simpl; [by constructor|]. intros [-> H]%app_eq_nil. constructor; auto. Qed.

Lemma addIssue_nil b i : addIssue b i = [] -> b = false.
Proof. by destruct b. Qed.

Lemma graphIssues_nil fuel value :
  graphIssues fuel value = Some [] ->
  exists depth, graphDepth fuel (tg_nodes value) = Some (false, depth) /\ depth <= MAX_TASK_GRAPH_DEPTH /\
    identityIssues (tg_nodes value) [] [] = [] /\
    Forall (fun n => nodeIssues (tn_nodeId <$> tg_nodes value) (tg_graphBudget value) n = []) (tg_nodes value) /\
    Forall (fun n => lineageIssues (depsOf (tg_nodes value)) fuel n = Some []) (tg_nodes value).
Proof.
  unfold graphIssues. intros H. apply bind_Some in H as ([cycle depth] & Hd & H).
  apply bind_Some in H as (lineages & Hl & H). injection H as H.
  apply app_eq_nil in H as [Hid H]. apply app_eq_nil in H as [Hn H].
  apply app_eq_nil in H as [_ H]. apply app_eq_nil in H as [->%addIssue_nil H].
  apply app_eq_nil in H as [Hdep%addIssue_nil H]. apply app_eq_nil in H as [Hlin _].
  exists depth. split; [done|]. split; [lia|]. split; [done|]. split.
  - apply concat_nil in Hn. by rewrite Forall_fmap in Hn.
  - apply concat_nil in Hlin. apply mapM_Some in Hl.
    apply list.Forall_forall. intros n Hin. apply list_elem_of_lookup in Hin as [i Hi].
    destruct (Forall2_lookup_l _ _ _ _ _ Hl Hi) as (issues & Hi' & ->). f_equal.
    by apply (Forall_lookup_1 _ _ _ _ Hlin Hi').
Qed.

Lemma nodeIssues_nil ids budget node :
  nodeIssues ids budget node = [] ->
  (forall d, d ∈ tn_dependsOn node -> d <> tn_nodeId node /\ d ∈ ids) /\
  (ws_mode (tn_workspace node) = inherit_predecessor -> length (tn_dependsOn node) = 1%nat) /\
  retry_maxAttempts (tn_retry node) <= maxAttempts (tn_budget node).
Proof.
  unfold nodeIssues. intros H. apply app_eq_nil in H as [Hd H].
  apply app_eq_nil in H as [Hi%addIssue_nil H]. apply app_eq_nil in H as [_ H].
  apply app_eq_nil in H as [Hr%addIssue_nil _]. split_and!; [|..|lia].
  - apply concat_nil in Hd. rewrite Forall_fmap, list.Forall_forall in Hd. intros d Hin.
    specialize (Hd d Hin). simpl in Hd. apply app_eq_nil in Hd as [H1%addIssue_nil H2%addIssue_nil].
    apply negb_false_iff, bool_decide_eq_true in H2. by apply bool_decide_eq_false in H1.
  - intros Hm. rewrite bool_decide_eq_true_2 in Hi by done. simpl in Hi.
    by apply negb_false_iff, Nat.eqb_eq in Hi.
Qed.

Lemma schema_wellformed isUuid localeLower fuel value :
  taskGraphRevisionContentSchema isUuid localeLower fuel value = Ok () ->
  NoDup (tn_nodeId <$> tg_nodes value) /\ NoDup (tn_sequence <$> tg_nodes value) /\
  ~ cyclic (tg_nodes value) /\
  (forall id n, dep_chain (depsOf (tg_nodes value)) id n -> n <= MAX_TASK_GRAPH_DEPTH) /\
  Forall (fun node =>
    (forall d, d ∈ tn_dependsOn node -> d <> tn_nodeId node /\ d ∈ tn_nodeId <$> tg_nodes value) /\
    (ws_mode (tn_workspace node) = inherit_predecessor -> length (tn_dependsOn node) = 1%nat) /\
    retry_maxAttempts (tn_retry node) <= maxAttempts (tn_budget node)) (tg_nodes value).
Proof.
  unfold taskGraphRevisionContentSchema. intros H. case_match eqn:Hfields; [done|].
  destruct (graphIssues fuel value) as [[|]|] eqn:Hg; try done.
  apply graphIssues_nil in Hg as (depth & Hd & Hle & Hid & Hn & _).
  apply identityIssues_nil in Hid as (Hi & Hs & _).
  apply graphDepth_correct in Hd as [Hc Hch]. split_and!; try done.
  - intros Hcy. by apply Hc in Hcy.
  - intros id n Hchain. destruct (decide (id ∈ tn_nodeId <$> tg_nodes value)) as [Hin|Hout].
    + destruct (Hch eq_refl) as [Hb _]; [intros E; rewrite E in Hin; by apply not_elem_of_nil in Hin|].
      specialize (Hb id n Hin Hchain). lia.
    + rewrite (chain_outside _ _ _ Hout Hchain). unfold MAX_TASK_GRAPH_DEPTH. lia.
  - eapply list.Forall_impl; [exact Hn|]. intros n. apply nodeIssues_nil.
Qed.

(** C37: A graph revision that the schema accepts is a well-formed task graph:
    node ids and sequence numbers are unique, every dependency names another
    node of the graph, the dependencies are acyclic with no chain longer than
    16, an inheriting node has exactly one predecessor, and no node may be
    retried more often than its own budget allows. *)
Theorem accepted_graph_wellformed isUuid localeLower fuel value :
  taskGraphRevisionContentSchema isUuid localeLower fuel value = Ok () ->
  NoDup (tn_nodeId <$> tg_nodes value) /\ NoDup (tn_sequence <$> tg_nodes value) /\
  ~ cyclic (tg_nodes value) /\
  (forall id n, dep_chain (depsOf (tg_nodes value)) id n -> n <= MAX_TASK_GRAPH_DEPTH) /\
  Forall (fun node =>
    (forall d, d ∈ tn_dependsOn node -> d <> tn_nodeId node /\ d ∈ tn_nodeId <$> tg_nodes value) /\
    (ws_mode (tn_workspace node) = inherit_predecessor -> length (tn_dependsOn node) = 1%nat) /\
    retry_maxAttempts (tn_retry node) <= maxAttempts (tn_budget node)) (tg_nodes value).
Proof. apply schema_wellformed. Qed.

(** On an acyclic graph the schema check always returns: with enough stack
    it never fails by a stack overflow. *)
Theorem acyclic_graph_check_returns isUuid localeLower value :
  ~ cyclic (tg_nodes value) ->
  exists enough, forall fuel, (enough <= fuel)%nat ->
    taskGraphRevisionContentSchema isUuid localeLower fuel value <> Err StackOverflow.
Proof.
  intros Hac. destruct (acyclic_depth _ Hac) as (depth & Hpos & Hch & Hg).
  exists (S (length (tg_nodes value)) + S (Z.to_nat depth))%nat. intros fuel Hf.
  assert (Hl : forall id, is_Some (lineage (depsOf (tg_nodes value)) fuel (Some id))).
  { intros id. eapply lineage_total; [apply Hch|lia]. }
  assert (Hi : is_Some (graphIssues fuel value)).
  { unfold graphIssues. destruct (Hg fuel) as [d Hd]; [lia|]. rewrite Hd. simpl.
    destruct (mapM_option_total (lineageIssues (depsOf (tg_nodes value)) fuel) (tg_nodes value)) as [ls Hls].
    - intros n _. unfold lineageIssues.
      destruct (mapM_option_total (fun d => lineage (depsOf (tg_nodes value)) fuel (Some d))
        (tn_dependsOn n)) as [l El]; [intros; apply Hl|]. rewrite El. simpl.
      destruct (Hl (tn_nodeId n)) as [own Eo]. case_match; rewrite ?Eo; simpl; eauto.
    - rewrite Hls. simpl. eauto. }
  unfold taskGraphRevisionContentSchema. case_match; [done|].
  destruct Hi as [[|] ->]; done.
Qed.

(** ** A concrete graph *)

Module SampleGraph.
Definition budget (attempts : Z) : TaskGraphBudget := {|
  maxAttempts := attempts; maxDurationMs := 60000; maxModelSteps := 10; maxCommandExecutions := 10;
  maxCommandOutputBytes := 1000; maxChangedFiles := 10; maxChangedBytes := 1000;
  maxArtifactBytes := 1000; maxReportedTokens := None |}.
Definition node (id : string) (seq : Z) (deps : list string) (mode : WorkspaceMode) : TaskNodeSpec := {|
  tn_nodeId := id; tn_sequence := seq; tn_title := js "T"; tn_objective := js "O";
  tn_planItemIds := ["item-1"]; tn_dependsOn := deps;
  tn_workspace := {| ws_mode := mode; ws_declaredPathPrefixes := [js "src"] |};
  tn_requiredCapabilities := []; tn_budget := budget 2;
  tn_retry := {| retry_maxAttempts := 2; retry_automaticOn := [] |};
  tn_kind := AgentTaskNode mode_build |}.
Definition graph (nodes : list TaskNodeSpec) : TaskGraphRevisionContent := {|
  tg_graphId := "g"; tg_binding := {| gb_sessionId := "s"; gb_goalId := "g1"; gb_goalRevision := 1;
    gb_planId := "p1"; gb_planRevision := 1;
    gb_planSha256 := "0000000000000000000000000000000000000000000000000000000000000000" |};
  tg_title := js "Graph"; tg_nodes := nodes; tg_graphBudget := budget 6 |}.

Definition chainGraph : TaskGraphRevisionContent :=
  graph [node "a" 1 [] managed_worktree; node "b" 2 ["a"] inherit_predecessor].
(** Two nodes that inherit each other's worktree. *)
Definition inheritCycle : TaskGraphRevisionContent :=
  graph [node "a" 1 ["b"] inherit_predecessor; node "b" 2 ["a"] inherit_predecessor].
Definition anyUuid (s : jstring) : bool := true.
Definition fold (s : jstring) : jstring := s.
End SampleGraph.

Lemma graphDepth_decides_witness :
  cyclic (tg_nodes SampleGraph.inheritCycle) /\ ~ cyclic (tg_nodes SampleGraph.chainGraph).
Proof.
  destruct (graphDepth_decides 3 (tg_nodes SampleGraph.inheritCycle)) as (c & d & E & Hc & _); [simpl; lia|].
  destruct (graphDepth_decides 3 (tg_nodes SampleGraph.chainGraph)) as (c' & d' & E' & Hc' & _); [simpl; lia|].
  vm_compute in E, E'. injection E as <- <-. injection E' as <- <-.
  split; [by apply Hc|]. intros H. by apply Hc' in H.
Defined.

Lemma accepted_graph_wellformed_witness :
  taskGraphRevisionContentSchema SampleGraph.anyUuid SampleGraph.fold 4 SampleGraph.chainGraph = Ok () /\
  ~ cyclic (tg_nodes SampleGraph.chainGraph).
Proof.
  assert (E : taskGraphRevisionContentSchema SampleGraph.anyUuid SampleGraph.fold 4 SampleGraph.chainGraph
              = Ok ()) by (vm_compute; reflexivity).
  split; [exact E|].
  exact (proj1 (proj2 (proj2 (accepted_graph_wellformed _ _ _ _ E)))).
Defined.

Lemma acyclic_graph_check_returns_witness :
  exists enough, forall fuel, (enough <= fuel)%nat ->
    taskGraphRevisionContentSchema SampleGraph.anyUuid SampleGraph.fold fuel SampleGraph.chainGraph
      <> Err StackOverflow.
Proof.
  apply acyclic_graph_check_returns. intros H.
  assert (E : graphDepth 3 (tg_nodes SampleGraph.chainGraph) = Some (false, 2)) by (vm_compute; reflexivity).
  destruct (graphDepth_correct 3 _ _ _ E) as [[_ Hc] _]. specialize (Hc H). done.
Defined.

(** ** A cycle of inheriting nodes *)

Lemma inheritCycle_lineage fuel :
  lineage (depsOf (tg_nodes SampleGraph.inheritCycle)) fuel (Some "a"%string) = None /\
  lineage (depsOf (tg_nodes SampleGraph.inheritCycle)) fuel (Some "b"%string) = None.
Proof. induction fuel as [|fuel [IHa IHb]]; [done|]. split; [exact IHb|exact IHa]. Qed.

(** A cycle of nodes that inherit each other's worktree is not reported as
    a cycle: although [graphDepth] detects it, the lineage computation of the
    same refinement recurses for ever, so the check fails with a stack
    overflow instead of the schema error, whatever the stack size. *)
Theorem inherit_cycle_overflows fuel :
  taskGraphRevisionContentSchema SampleGraph.anyUuid SampleGraph.fold fuel SampleGraph.inheritCycle
    = Err StackOverflow.
Proof.
  unfold taskGraphRevisionContentSchema.
  assert (graphFields SampleGraph.anyUuid SampleGraph.fold SampleGraph.inheritCycle = true) as ->
    by (vm_compute; reflexivity).
  assert (graphIssues fuel SampleGraph.inheritCycle = None) as ->; [|done].
  unfold graphIssues. destruct (graphDepth _ _) as [[c d]|]; [|done].
  destruct (inheritCycle_lineage fuel) as [_ E].
  remember (depsOf (tg_nodes SampleGraph.inheritCycle)) as byId eqn:Hb. clear Hb.
  cbn [mbind option_bind].
  assert (mapM (lineageIssues byId fuel) (tg_nodes SampleGraph.inheritCycle) = None) as ->; [|done].
  assert (Hn : lineageIssues byId fuel (SampleGraph.node "a" 1 ["b"%string] inherit_predecessor) = None).
  { unfold lineageIssues. simpl. by rewrite E. }
  simpl. by rewrite Hn.
Qed.

(** ** Normal form *)

Section Normalize.
Context (isUuid : jstring -> bool) (localeLower : jstring -> jstring) (localeLe : jstring -> jstring -> bool).
(** [localeCompare] is a total order on sign. *)
Hypothesis localeLe_total : forall a b, localeLe a b = true \/ localeLe b a = true.

Lemma nodeLe_total : Total (nodeLe localeLe).
Proof.
  intros a b. unfold nodeLe, idLe.
  destruct (Z.lt_trichotomy (tn_sequence a) (tn_sequence b)) as [?|[?|?]]; [tauto| |tauto].
  destruct (localeLe_total (js (tn_nodeId a)) (js (tn_nodeId b))); [left|right]; right; split; done || lia.
Qed.

(** Two lists in strictly increasing order of an integer key that hold the same elements are equal. *)
Lemma sorted_keys_unique {A} (key : A -> Z) (l k : list A) :
  Sorted.StronglySorted (fun a b => key a <= key b) l -> Sorted.StronglySorted (fun a b => key a <= key b) k ->
  NoDup (key <$> l) -> l ≡ₚ k -> l = k.
Proof.
  intros Hl. revert k. induction Hl as [|x l Hl IH Hx]; intros k Hk Hnd Hp.
  { by apply Permutation_nil_l in Hp. }
  destruct Hk as [|y k Hk Hy]; [by symmetry in Hp; apply Permutation_nil_cons in Hp|].
  rewrite list.Forall_forall in Hx, Hy. simpl in Hnd. apply list.NoDup_cons in Hnd as [Hni Hnd].
  assert (x = y) as ->.
  { assert (Hyin : y ∈ x :: l) by (rewrite Hp; by left).
    assert (Hxin : x ∈ y :: k) by (rewrite <-Hp; by left).
    apply elem_of_cons in Hyin as [->|Hyin]; [done|]. apply elem_of_cons in Hxin as [->|Hxin]; [done|].
    exfalso. apply Hni. assert (key x = key y) as ->.
    - assert (key x <= key y) by by apply Hx.
      assert (key y <= key x) by by apply Hy. lia.
    - by apply list_elem_of_fmap_2. }
  f_equal. apply IH; [done|done|]. by apply Permutation_cons_inv in Hp.
Qed.

Lemma normalized_sorted nodes :
  Sorted.StronglySorted (fun a b => tn_sequence a <= tn_sequence b) (js_sort (nodeLe localeLe) nodes).
Proof.
  apply Sorted.Sorted_StronglySorted; [intros ? ? ?; lia|].
  assert (Hs : Sorted.Sorted (nodeLe localeLe) (js_sort (nodeLe localeLe) nodes))
    by (apply Sorted_js_sort, nodeLe_total).
  induction Hs as [|x l Hl IH Hx]; constructor; [done|].
  destruct Hx as [|y l Hxy]; constructor. unfold nodeLe in Hxy. lia.
Qed.

Lemma normalize_Ok fuel value g :
  normalizeTaskGraphRevision isUuid localeLower localeLe fuel value = Ok g ->
  tg_nodes g = js_sort (nodeLe localeLe) (normalizeNode localeLe <$> tg_nodes value) /\
  tg_graphId g = tg_graphId value /\ tg_binding g = tg_binding value /\ tg_title g = tg_title value /\
  tg_graphBudget g = tg_graphBudget value /\
  taskGraphRevisionContentSchema isUuid localeLower fuel value = Ok () /\
  taskGraphRevisionContentSchema isUuid localeLower fuel g = Ok ().
Proof.
  unfold normalizeTaskGraphRevision. intros H. apply bind_ok in H as ([] & H1 & H).
  apply bind_ok in H as ([] & H2 & H). injection H as <-. done.
Qed.

(** The normal form of a graph does not depend on the order in which its
    nodes were written: two accepted values with the same nodes in different
    orders, and otherwise equal, normalise to the same content, so they have
    the same digest.  The normalised nodes are a permutation of the
    normalised input in increasing sequence order, and are themselves
    accepted by the schema. *)
Theorem normalize_order_independent fuel value value' g g' :
  normalizeTaskGraphRevision isUuid localeLower localeLe fuel value = Ok g ->
  normalizeTaskGraphRevision isUuid localeLower localeLe fuel value' = Ok g' ->
  tg_nodes value ≡ₚ tg_nodes value' -> tg_graphId value = tg_graphId value' ->
  tg_binding value = tg_binding value' -> tg_title value = tg_title value' ->
  tg_graphBudget value = tg_graphBudget value' ->
  g = g' /\ tg_nodes g ≡ₚ normalizeNode localeLe <$> tg_nodes value /\
  Sorted.StronglySorted (fun a b => tn_sequence a <= tn_sequence b) (tg_nodes g) /\
  taskGraphRevisionContentSchema isUuid localeLower fuel g = Ok ().
Proof.
  intros (En & Ei & Eb & Et & Eg & _ & Hok)%normalize_Ok (En' & Ei' & Eb' & Et' & Eg' & _)%normalize_Ok Hp ? ? ? ?.
  assert (Hs : NoDup (tn_sequence <$> tg_nodes g)).
  { unfold taskGraphRevisionContentSchema in Hok. case_match; [done|].
    destruct (graphIssues fuel g) as [[|]|] eqn:Hg; try done.
    apply graphIssues_nil in Hg as (_ & _ & _ & Hid & _). by apply identityIssues_nil in Hid as (_ & Hs & _). }
  assert (tg_nodes g = tg_nodes g') as En2.
  { apply (sorted_keys_unique tn_sequence); [rewrite En|rewrite En'|done|].
    - apply normalized_sorted.
    - apply normalized_sorted.
    - by rewrite En, En', !js_sort_Permutation, Hp. }
  split_and!; [|rewrite En; apply js_sort_Permutation|rewrite En; apply normalized_sorted|done].
  destruct g, g'. simpl in *. congruence.
Qed.
End Normalize.

Lemma normalize_order_independent_witness :
  let le := fun a b => jstring_le a b in
  let nodes := tg_nodes SampleGraph.chainGraph in
  exists g, normalizeTaskGraphRevision SampleGraph.anyUuid SampleGraph.fold le 4
              (SampleGraph.graph nodes) = Ok g /\
    normalizeTaskGraphRevision SampleGraph.anyUuid SampleGraph.fold le 4
              (SampleGraph.graph (reverse nodes)) = Ok g.
Proof.
  intros le nodes.
  assert (Htot : forall a b, le a b = true \/ le b a = true).
  { unfold le. induction a as [|x a IH]; intros [|y b]; simpl; auto.
    destruct (Z.ltb_spec x y), (Z.ltb_spec y x); auto. }
  destruct (normalizeTaskGraphRevision SampleGraph.anyUuid SampleGraph.fold le 4
    (SampleGraph.graph nodes)) as [g|] eqn:E; [|by vm_compute in E].
  destruct (normalizeTaskGraphRevision SampleGraph.anyUuid SampleGraph.fold le 4
    (SampleGraph.graph (reverse nodes))) as [g'|] eqn:E'; [|by vm_compute in E'].
  exists g. split; [done|].
  destruct (normalize_order_independent SampleGraph.anyUuid SampleGraph.fold le Htot 4 _ _ g g' E E')
    as [-> _]; try done.
  symmetry. apply reverse_Permutation.
Defined.
