(* ===== verification/TaskGraph.v ===== *)
(** * The task graph projector

    [src/task-graph/task-graph-projector.ts]: the fold of the session's graph
    events into graph revisions with their decision and execution status.
    Revisions are mutable objects shared by [revisions], [byKey] and the three
    [current...] variables; they live in the list [revisions] and everything
    else holds an index. *)

From S2P Require Import Prelude JsString CanonicalJson Domain Events TaskState Schemas TaskGraphSchema.
#[local] Open Scope Z_scope.

(** ** Data *)

Inductive TaskGraphStatus : Type :=
| g_draft | g_approved | g_queued | g_running | g_waiting_for_user | g_awaiting_integration
| g_completed | g_blocked | g_cancelled | g_failed | g_rejected | g_stale | g_superseded.
#[export] Instance TaskGraphStatus_eq : EqDecision TaskGraphStatus.
Proof. solve_decision. Defined.

Record MutableRevision : Type := {
  mr_approvedEventId : option string;
  mr_artifact : ArtifactRef;
  mr_binding : TaskGraphBinding;
  mr_content : TaskGraphRevisionContent;
  mr_createdEventId : string;
  mr_decisionEventId : option string;
  mr_graphId : string;
  mr_graphSha256 : string;
  mr_revision : Z;
  mr_status : TaskGraphStatus;
  mr_terminalEventId : option string;
}.
#[export] Instance MutableRevision_eta : Eta MutableRevision := fun r =>
  Build_MutableRevision (mr_approvedEventId r) (mr_artifact r) (mr_binding r) (mr_content r)
    (mr_createdEventId r) (mr_decisionEventId r) (mr_graphId r) (mr_graphSha256 r) (mr_revision r)
    (mr_status r) (mr_terminalEventId r).

(** [TaskGraphRevisionRefV1] *)
Record TaskGraphRevisionRef : Type := {
  tgr_graphId : string;
  tgr_revision : Z;
  tgr_graphSha256 : string;
  tgr_binding : TaskGraphBinding;
}.

Record TaskGraphProjection : Type := {
  tgp_tracked : bool;   (* trackingMode === "phase19" *)
  tgp_currentDraft : option TaskGraphRevisionRef;
  tgp_currentApproved : option TaskGraphRevisionRef;
  tgp_currentExecution : option TaskGraphRevisionRef;
  tgp_revisions : list MutableRevision;
  tgp_lastSessionSeq : Z;
}.

(** The [TaskGraphError] codes the projector throws, and the errors of the
    content identity it recomputes. *)
Inductive GraphProjectionError : Type :=
| graph_revision_conflict | graph_artifact_invalid | graph_binding_stale
| graph_decision_conflict | graph_not_approved | graph_content (error : GraphParseError).

(** The local variables of [project]. *)
Record GraphState : Type := {
  gs_revisions : list MutableRevision;
  gs_byKey : gmap (string * Z) nat;
  gs_draft : option nat;
  gs_approved : option nat;
  gs_execution : option nat;
}.
#[export] Instance GraphState_eta : Eta GraphState := fun r =>
  Build_GraphState (gs_revisions r) (gs_byKey r) (gs_draft r) (gs_approved r) (gs_execution r).

Definition graph_init : GraphState :=
  {| gs_revisions := []; gs_byKey := ∅; gs_draft := None; gs_approved := None; gs_execution := None |}.

(** [ref] *)
Definition graphRefOf (revision : MutableRevision) : TaskGraphRevisionRef := {|
  tgr_graphId := mr_graphId revision; tgr_revision := mr_revision revision;
  tgr_graphSha256 := mr_graphSha256 revision; tgr_binding := mr_binding revision |}.

(** [byKey.get(key(id, revision))], with the revision's place in the store. *)
Definition getRevision (st : GraphState) (graphId : string) (revision : Z) : option (nat * MutableRevision) :=
  match gs_byKey st !! (graphId, revision) with
  | Some i => match gs_revisions st !! i with Some r => Some (i, r) | None => None end
  | None => None
  end.

(** The inner function [exact]. *)
Definition exactRevision (st : GraphState) (target : GraphRef)
  : result GraphProjectionError (nat * MutableRevision) :=
  match getRevision st (gr_graph_id target) (gr_graph_revision target) with
  | Some (i, found) =>
      if mr_graphSha256 found === gr_graph_sha256 target then Ok (i, found)
      else Err graph_revision_conflict
  | None => Err graph_revision_conflict
  end.

Definition updateRevision (i : nat) (f : MutableRevision -> MutableRevision) (st : GraphState) : GraphState :=
  st <| gs_revisions ::= alter f i |>.

Definition setStatus (status : TaskGraphStatus) (r : MutableRevision) : MutableRevision :=
  r <| mr_status := status |>.

(** A revision as [proposed] and [replaced] create it. *)
Definition newRevision (event : DecodedStoredEvent) (target : GraphRef) (data : GraphRevisionData)
    (content : TaskGraphRevisionContent) : MutableRevision := {|
  mr_approvedEventId := None; mr_artifact := grd_artifact data; mr_binding := grd_binding data;
  mr_content := content; mr_createdEventId := eventId event; mr_decisionEventId := None;
  mr_graphId := gr_graph_id target; mr_graphSha256 := gr_graph_sha256 target;
  mr_revision := gr_graph_revision target; mr_status := g_draft; mr_terminalEventId := None |}.

(** [revisions.push(created); byKey.set(...); currentDraft = created] *)
Definition pushRevision (created : MutableRevision) (st : GraphState) : GraphState :=
  let i := length (gs_revisions st) in
  st <| gs_revisions := gs_revisions st ++ [created] |>
     <| gs_byKey ::= <[(mr_graphId created, mr_revision created) := i]> |>
     <| gs_draft := Some i |>.

Definition clearIf (i : nat) (o : option nat) : option nat := if o === Some i then None else o.

Definition statusIn (l : list TaskGraphStatus) (r : MutableRevision) : bool := bool_decide (mr_status r ∈ l).

Definition terminalGraphStatus (s : GraphTerminalStatus) : TaskGraphStatus :=
  match s with
  | gt_completed => g_completed | gt_blocked => g_blocked | gt_cancelled => g_cancelled
  | gt_failed => g_failed | gt_stale => g_stale | gt_awaiting_integration => g_awaiting_integration
  end.

(** The statuses of a graph that was handed to the scheduler and has not ended. *)
Definition ACTIVE_STATUSES : list TaskGraphStatus :=
  [g_queued; g_running; g_waiting_for_user; g_awaiting_integration].

Section Project.
Context (isUuid : jstring -> bool) (localeLower : jstring -> jstring) (localeLe : jstring -> jstring -> bool).
Context (sha256 : jstring -> string) (fuel : nat).

Definition identity (content : TaskGraphRevisionContent)
  : result GraphProjectionError (TaskGraphRevisionContent * string) :=
  match canonicalTaskGraphIdentity isUuid localeLower localeLe sha256 fuel content with
  | Ok (content, digest, _) => Ok (content, digest)
  | Err e => Err (graph_content e)
  end.

(** case "task_graph.proposed" *)
Definition proposeGraph (event : DecodedStoredEvent) (target : GraphRef) (data : GraphRevisionData)
    (st : GraphState) : result GraphProjectionError GraphState :=
  _ ← throw_when (match gs_byKey st !! (gr_graph_id target, gr_graph_revision target) with
                  | Some _ => true | None => false end) graph_revision_conflict;
  _ ← throw_when (existsb (fun item => mr_graphId item === gr_graph_id target) (gs_revisions st))
        graph_revision_conflict;
  '(content, digest) ← identity (grd_content data);
  _ ← throw_when ((digest !== gr_graph_sha256 target) ||
                  (gb_sessionId (grd_binding data) !== sessionId event)) graph_artifact_invalid;
  Ok (pushRevision (newRevision event target data content) st).

(** case "task_graph.replaced" *)
Definition replaceGraph (event : DecodedStoredEvent) (target : GraphRef) (base_revision : Z)
    (base_sha256 : string) (data : GraphRevisionData) (st : GraphState)
  : result GraphProjectionError GraphState :=
  match getRevision st (gr_graph_id target) base_revision with
  | None => Err graph_revision_conflict
  | Some (i, base) =>
      _ ← throw_when ((mr_graphSha256 base !== base_sha256) ||
                      negb (statusIn [g_draft; g_approved] base) ||
                      (gs_execution st !== None)) graph_revision_conflict;
      _ ← throw_when ((gr_graph_revision target !== mr_revision base + 1) ||
                      match gs_byKey st !! (gr_graph_id target, gr_graph_revision target) with
                      | Some _ => true | None => false end) graph_revision_conflict;
      '(content, digest) ← identity (grd_content data);
      _ ← throw_when ((digest !== gr_graph_sha256 target) || (grd_binding data !== mr_binding base))
            graph_binding_stale;
      let st := updateRevision i (setStatus g_superseded) st in
      let st := st <| gs_approved := clearIf i (gs_approved st) |> in
      Ok (pushRevision (newRevision event target data content) st)
  end.

(** The checks shared by the two decisions. *)
Definition draftDecision (target : GraphRef) (revision_event_id : string) (st : GraphState)
  : result GraphProjectionError (nat * MutableRevision) :=
  '(i, revision) ← exactRevision st target;
  _ ← throw_when ((mr_status revision !== g_draft) || (gs_draft st !== Some i) ||
                  (mr_decisionEventId revision !== None)) graph_decision_conflict;
  _ ← throw_when (revision_event_id !== mr_createdEventId revision) graph_decision_conflict;
  Ok (i, revision).

(** The [switch] of the loop. *)
Definition graph_event (event : DecodedStoredEvent) (target : GraphRef) (g : GraphEvent) (st : GraphState)
  : result GraphProjectionError GraphState :=
  match g with
  | GraphProposed data => proposeGraph event target data st
  | GraphReplaced base_revision base_sha256 data =>
      replaceGraph event target base_revision base_sha256 data st
  | GraphApproved revision_event_id =>
      '(i, _) ← draftDecision target revision_event_id st;
      Ok (updateRevision i (fun r => r <| mr_status := g_approved |>
            <| mr_approvedEventId := Some (eventId event) |>
            <| mr_decisionEventId := Some (eventId event) |>) st
          <| gs_draft := None |> <| gs_approved := Some i |>)
  | GraphRejected revision_event_id =>
      '(i, _) ← draftDecision target revision_event_id st;
      Ok (updateRevision i (fun r => r <| mr_status := g_rejected |>
            <| mr_decisionEventId := Some (eventId event) |>) st
          <| gs_draft := None |>)
  | GraphStale =>
      '(i, revision) ← exactRevision st target;
      _ ← throw_when (statusIn [g_completed; g_cancelled; g_failed; g_rejected; g_superseded] revision)
            graph_revision_conflict;
      Ok (updateRevision i (fun r => r <| mr_status := g_stale |>
            <| mr_terminalEventId := Some (eventId event) |>) st
          <| gs_draft ::= clearIf i |> <| gs_approved ::= clearIf i |> <| gs_execution ::= clearIf i |>)
  | GraphEnqueued _ _ _ =>
      '(i, revision) ← exactRevision st target;
      _ ← throw_when (negb (statusIn [g_approved; g_waiting_for_user] revision) ||
                      (gs_approved st !== Some i) ||
                      ((mr_status revision === g_waiting_for_user) && (gs_execution st !== Some i)))
            graph_not_approved;
      Ok (updateRevision i (setStatus g_queued) st <| gs_execution := Some i |>)
  | GraphStarted _ =>
      '(i, revision) ← exactRevision st target;
      _ ← throw_when ((mr_status revision !== g_queued) || (gs_execution st !== Some i))
            graph_revision_conflict;
      Ok (updateRevision i (setStatus g_running) st)
  | GraphWaitingForUser _ =>
      '(i, revision) ← exactRevision st target;
      _ ← throw_when (negb (statusIn [g_queued; g_running] revision)) graph_revision_conflict;
      Ok (updateRevision i (setStatus g_waiting_for_user) st)
  | GraphCancelRequested =>
      '(i, revision) ← exactRevision st target;
      _ ← throw_when (negb (statusIn ACTIVE_STATUSES revision)) graph_decision_conflict;
      Ok st
  | GraphTerminal _ status =>
      '(i, revision) ← exactRevision st target;
      _ ← throw_when (negb (statusIn ACTIVE_STATUSES revision)) graph_revision_conflict;
      Ok (updateRevision i (fun r => r <| mr_status := terminalGraphStatus status |>
            <| mr_terminalEventId := Some (eventId event) |>) st
          <| gs_execution := None |>)
  | NodeRetryRequested _ =>
      '(i, revision) ← exactRevision st target;
      _ ← throw_when (negb (statusIn [g_failed; g_cancelled] revision) || (gs_approved st !== Some i) ||
                      (gs_execution st !== None)) graph_revision_conflict;
      Ok (updateRevision i (fun r => r <| mr_status := g_waiting_for_user |>
            <| mr_terminalEventId := None |>) st
          <| gs_execution := Some i |>)
  | SchedulerLeaseAcquired _ | SchedulerLeaseRecovered _ | AttemptRequested _ | AttemptStarted _ _ _ _
  | AttemptWaitingForUser _ _ | AttemptTerminated _ | NodeSkipped _ _ | BudgetExhausted _ _ => Ok st
  end.

(** One iteration: other events are skipped. *)
Definition graph_step (st : GraphState) (event : DecodedStoredEvent)
  : result GraphProjectionError GraphState :=
  match scope event with
  | SessionScope (GraphEventData target g) => graph_event event target g st
  | _ => Ok st
  end.

Definition runGraphProjector (events : list DecodedStoredEvent) : result GraphProjectionError GraphState :=
  foldM graph_step events graph_init.

Definition derefRevision (st : GraphState) (o : option nat) : option MutableRevision :=
  match o with Some i => gs_revisions st !! i | None => None end.

(** [TaskGraphProjector.project] *)
Definition projectGraph (events : list DecodedStoredEvent) : result GraphProjectionError TaskGraphProjection :=
  st ← runGraphProjector events;
  Ok {| tgp_tracked := negb (length (gs_revisions st) =? 0)%nat;
        tgp_currentDraft := graphRefOf <$> derefRevision st (gs_draft st);
        tgp_currentApproved := graphRefOf <$> derefRevision st (gs_approved st);
        tgp_currentExecution := graphRefOf <$> derefRevision st (gs_execution st);
        tgp_revisions := gs_revisions st;
        tgp_lastSessionSeq := lastSeq events |}.
End Project.

(** ** Is a graph's plan still the current one? *)

Inductive BindingObservation : Type := binding_current | binding_stale | binding_unavailable.

(** [observeTaskGraphBinding] *)
Definition observeTaskGraphBinding (graph : TaskGraphRevisionRef) (state : TaskStateProjection)
  : BindingObservation :=
  if tsp_trackingMode state !== phase16 then binding_unavailable
  else
    match List.find (fun candidate => Some (gc_goalId (mg_content candidate)) === tsp_activeGoalId state)
            (tsp_goals state), tsp_currentApprovedPlan state with
    | Some goal, Some plan =>
        let b := tgr_binding graph in
        if (gc_goalId (mg_content goal) === gb_goalId b) && (gc_revision (mg_content goal) === gb_goalRevision b) &&
           (prr_planId plan === gb_planId b) && (prr_revision plan === gb_planRevision b) &&
           (prr_planSha256 plan === gb_planSha256 b)
        then binding_current else binding_stale
    | _, _ => binding_stale
    end.
