(* ===== verification/TaskGraphFacts.v ===== *)
(** * What the task graph projector guarantees

    Revisions keep their identity and move along the legal statuses; the
    revision that executes is queued, running or waiting, and was approved by
    an event of the log that names exactly its digest. *)

From S2P Require Import Prelude JsString CanonicalJson Domain Events TaskState Schemas TaskGraphSchema TaskGraphTopology TaskGraph.
From stdpp Require Import pretty.
#[local] Open Scope Z_scope.

(** ** The status graph *)

Definition isTerminalOutcome (s : TaskGraphStatus) : bool :=
  bool_decide (s ∈ [g_completed; g_blocked; g_cancelled; g_failed; g_stale; g_awaiting_integration]).

Definition legalGraphTransition (from to : TaskGraphStatus) : bool :=
  match from with
  | g_draft => bool_decide (to ∈ [g_approved; g_rejected; g_superseded; g_stale])
  | g_approved => bool_decide (to ∈ [g_queued; g_superseded; g_stale])
  | g_queued => bool_decide (to ∈ [g_running; g_waiting_for_user]) || isTerminalOutcome to
  | g_running => (to === g_waiting_for_user) || isTerminalOutcome to
  | g_waiting_for_user => (to === g_queued) || isTerminalOutcome to
  | g_awaiting_integration => isTerminalOutcome to
  | g_blocked | g_stale => to === g_stale
  | g_failed | g_cancelled => to === g_waiting_for_user
  | g_completed | g_rejected | g_superseded => false
  end.

(** What never changes in a revision. *)
Definition same_identity (r r' : MutableRevision) : Prop :=
  mr_content r' = mr_content r /\ mr_binding r' = mr_binding r /\ mr_createdEventId r' = mr_createdEventId r /\
  mr_graphId r' = mr_graphId r /\ mr_graphSha256 r' = mr_graphSha256 r /\ mr_revision r' = mr_revision r /\
  mr_artifact r' = mr_artifact r.

Definition refOf (r : MutableRevision) : GraphRef := {|
  gr_graph_id := mr_graphId r; gr_graph_revision := mr_revision r; gr_graph_sha256 := mr_graphSha256 r |}.

(** The approval of exactly this revision. *)
Definition approves (e : DecodedStoredEvent) (r : MutableRevision) : Prop :=
  scope e = SessionScope (GraphEventData (refOf r) (GraphApproved (mr_createdEventId r))).

(** The event that brought the revision into the log. *)
Definition introduces (e : DecodedStoredEvent) (r : MutableRevision) : Prop :=
  eventId e = mr_createdEventId r /\ exists data,
    grd_binding data = mr_binding r /\
    (scope e = SessionScope (GraphEventData (refOf r) (GraphProposed data)) \/
     exists b h, scope e = SessionScope (GraphEventData (refOf r) (GraphReplaced b h data))).

(** One event's effect on one revision. *)
Record rev_step (e : DecodedStoredEvent) (r r' : MutableRevision) : Prop := {
  rs_identity : same_identity r r';
  rs_status : r' = r \/ legalGraphTransition (mr_status r) (mr_status r') = true;
  rs_approved : mr_approvedEventId r' = mr_approvedEventId r \/
                (mr_approvedEventId r' = Some (eventId e) /\ approves e r);
  rs_decided : mr_status r' = g_draft -> r' = r;
}.

Lemma rev_step_refl e r : rev_step e r r.
Proof. split; [by repeat split|by left|by left|done]. Qed.

Section Facts.
Context (isUuid : jstring -> bool) (localeLower : jstring -> jstring) (localeLe : jstring -> jstring -> bool).
Context (sha256 : jstring -> string) (fuel : nat).
Notation identity' := (identity isUuid localeLower localeLe sha256 fuel).
Notation event' := (graph_event isUuid localeLower localeLe sha256 fuel).
Notation run' := (runGraphProjector isUuid localeLower localeLe sha256 fuel).

(** A new revision, its digest computed from the normalised content. *)
Definition rev_fresh (e : DecodedStoredEvent) (r : MutableRevision) : Prop :=
  mr_status r = g_draft /\ mr_approvedEventId r = None /\ mr_decisionEventId r = None /\
  introduces e r /\ exists content, identity' content = Ok (mr_content r, mr_graphSha256 r).

(** One event's effect on the store. *)
Record store_step (e : DecodedStoredEvent) (l l' : list MutableRevision) : Prop := {
  ss_old : forall i r, l !! i = Some r -> exists r', l' !! i = Some r' /\ rev_step e r r';
  ss_new : forall i r', l' !! i = Some r' -> l !! i = None -> rev_fresh e r';
}.

Lemma store_step_refl e l : store_step e l l.
Proof. split; [intros i r Hi; exists r; split; [done|apply rev_step_refl]|congruence]. Qed.

Lemma store_step_alter e (l : list MutableRevision) (i : nat) f r :
  l !! i = Some r -> rev_step e r (f r) -> store_step e l (alter f i l).
Proof.
  intros Hi Hs. split.
  - intros j q Hj. destruct (decide (j = i)) as [->|Hne].
    + rewrite list_lookup_alter_eq, Hj. simplify_eq. simpl. eauto.
    + rewrite list_lookup_alter_ne by done. exists q. split; [done|apply rev_step_refl].
  - intros j q Hj Hn. destruct (decide (j = i)) as [->|Hne]; [congruence|].
    rewrite list_lookup_alter_ne in Hj by done. congruence.
Qed.

Lemma store_step_push e l l1 r :
  store_step e l l1 -> length l1 = length l -> rev_fresh e r -> store_step e l (l1 ++ [r]).
Proof.
  intros [Ho Hn] Hlen Hf. split.
  - intros i q Hi. destruct (Ho i q Hi) as (q' & Hq' & Hs). exists q'.
    split; [by apply lookup_app_l_Some|done].
  - intros i q [Hi|[Hle Hi]]%lookup_app_Some Hnone; [eauto|].
    by apply list_lookup_singleton_Some in Hi as [_ <-].
Qed.

(** Where the current revisions point. *)
Record graph_inv (st : GraphState) : Prop := {
  gv_index : forall id rev i, gs_byKey st !! (id, rev) = Some i <->
               exists r, gs_revisions st !! i = Some r /\ mr_graphId r = id /\ mr_revision r = rev;
  gv_draft : forall i, gs_draft st = Some i -> exists r, gs_revisions st !! i = Some r /\
               mr_status r = g_draft /\ mr_decisionEventId r = None;
  gv_approved : forall i, gs_approved st = Some i -> exists r, gs_revisions st !! i = Some r /\
               mr_approvedEventId r <> None /\ mr_status r ∉ [g_draft; g_rejected; g_superseded];
  gv_execution : forall i, gs_execution st = Some i -> exists r, gs_revisions st !! i = Some r /\
               mr_approvedEventId r <> None /\ mr_status r ∈ [g_queued; g_running; g_waiting_for_user];
  gv_status : forall i r, gs_revisions st !! i = Some r ->
               (mr_status r ∈ [g_approved; g_queued; g_running; g_waiting_for_user; g_awaiting_integration;
                               g_completed; g_blocked; g_cancelled; g_failed] ->
                mr_approvedEventId r <> None) /\
               (mr_status r = g_draft -> mr_approvedEventId r = None /\ mr_decisionEventId r = None);
}.

Lemma exactRevision_ok st target i r :
  exactRevision st target = Ok (i, r) ->
  gs_byKey st !! (gr_graph_id target, gr_graph_revision target) = Some i /\
  gs_revisions st !! i = Some r /\ mr_graphSha256 r = gr_graph_sha256 target.
Proof.
  unfold exactRevision, getRevision. intros H. repeat case_match; simplify_eq; try done.
  split; [done|]. split; [done|]. by eapply bool_decide_eq_true_1.
Qed.

Lemma exactRevision_ref st target i r :
  graph_inv st -> exactRevision st target = Ok (i, r) -> gs_revisions st !! i = Some r /\ target = refOf r.
Proof.
  intros Hg (Hk & Hi & Hh)%exactRevision_ok. split; [done|].
  apply (gv_index st Hg) in Hk as (r' & Hr' & E1 & E2). assert (r' = r) as -> by congruence.
  destruct target. unfold refOf. simpl in *. congruence.
Qed.

Lemma draftDecision_ok target id st i r :
  graph_inv st -> draftDecision target id st = Ok (i, r) ->
  gs_revisions st !! i = Some r /\ target = refOf r /\ mr_status r = g_draft /\ gs_draft st = Some i /\
  id = mr_createdEventId r.
Proof.
  intros Hg H. unfold draftDecision in H. apply bind_ok in H as ([i' r'] & Hex & H).
  apply (exactRevision_ref st) in Hex as [Hi Ht]; [|done]. returns. by simplify_eq.
Qed.

Lemma statusIn_true l r : statusIn l r = true <-> mr_status r ∈ l.
Proof. unfold statusIn. by rewrite bool_decide_eq_true. Qed.

(** The index is insensitive to updates that keep identities. *)
Lemma index_alter (l : list MutableRevision) (i : nat) (f : MutableRevision -> MutableRevision) (byKey : gmap (string * Z) nat) :
  (forall r, l !! i = Some r -> same_identity r (f r)) ->
  (forall id rev j, byKey !! (id, rev) = Some j <->
     exists r, l !! j = Some r /\ mr_graphId r = id /\ mr_revision r = rev) ->
  forall id rev j, byKey !! (id, rev) = Some j <->
     exists r, alter f i l !! j = Some r /\ mr_graphId r = id /\ mr_revision r = rev.
Proof.
  intros Hf Hk id rev j. rewrite Hk. destruct (decide (j = i)) as [->|Hne].
  - rewrite list_lookup_alter_eq. destruct (l !! i) as [r|]; simpl; [|naive_solver].
    destruct (Hf r eq_refl) as (_ & _ & _ & E1 & _ & E2 & _). naive_solver congruence.
  - by rewrite list_lookup_alter_ne by done.
Qed.

(** An update in place, with the new current revisions. *)
Lemma graph_inv_alter st st' (i : nat) f r :
  graph_inv st -> gs_revisions st !! i = Some r -> same_identity r (f r) ->
  gs_revisions st' = alter f i (gs_revisions st) -> gs_byKey st' = gs_byKey st ->
  (forall j, gs_draft st' = Some j -> gs_draft st = Some j /\ j <> i) ->
  (forall j, gs_approved st' = Some j -> (j <> i /\ gs_approved st = Some j) \/
     (j = i /\ mr_approvedEventId (f r) <> None /\ mr_status (f r) ∉ [g_draft; g_rejected; g_superseded])) ->
  (forall j, gs_execution st' = Some j -> (j <> i /\ gs_execution st = Some j) \/
     (j = i /\ mr_approvedEventId (f r) <> None /\ mr_status (f r) ∈ [g_queued; g_running; g_waiting_for_user])) ->
  (mr_status (f r) ∈ [g_approved; g_queued; g_running; g_waiting_for_user; g_awaiting_integration;
                      g_completed; g_blocked; g_cancelled; g_failed] -> mr_approvedEventId (f r) <> None) ->
  mr_status (f r) <> g_draft -> graph_inv st'.
Proof.
  intros [Hk Hd Ha He Hs] Hi Hid Er Ek Hd' Ha' He' Hs' Hnd.
  assert (Hne : forall j, j <> i -> gs_revisions st' !! j = gs_revisions st !! j)
    by (intros; rewrite Er; by apply list_lookup_alter_ne).
  assert (Heq : gs_revisions st' !! i = Some (f r)) by (by rewrite Er, list_lookup_alter_eq, Hi).
  split.
  - rewrite Ek, Er. apply index_alter; [|done]. intros. by simplify_eq.
  - intros j Hj. destruct (Hd' j Hj) as [Hj' Hji]. rewrite Hne by done. by apply Hd.
  - intros j Hj. destruct (Ha' j Hj) as [[Hji Hj']|(-> & ? & ?)]; [rewrite Hne by done; by apply Ha|eauto].
  - intros j Hj. destruct (He' j Hj) as [[Hji Hj']|(-> & ? & ?)]; [rewrite Hne by done; by apply He|eauto].
  - intros j q Hj. destruct (decide (j = i)) as [->|Hji].
    + simplify_eq. done.
    + rewrite Hne in Hj by done. eauto.
Qed.

Lemma clearIf_Some i o j : clearIf i o = Some j -> o = Some j /\ j <> i.
Proof. unfold clearIf. case_bool_decide; [done|]. naive_solver. Qed.

(** A new draft. *)
Lemma graph_inv_push st r :
  graph_inv st -> gs_byKey st !! (mr_graphId r, mr_revision r) = None ->
  mr_status r = g_draft -> mr_decisionEventId r = None -> mr_approvedEventId r = None ->
  graph_inv (pushRevision r st).
Proof.
  intros [Hk Hd Ha He Hs] Hn Hst Hdec Happ.
  assert (Hold : forall j q, gs_revisions st !! j = Some q -> gs_revisions (pushRevision r st) !! j = Some q)
    by (intros; simpl; by apply lookup_app_l_Some).
  split.
  - intros id rev i. simpl. rewrite lookup_insert. case_decide as Heq.
    + simplify_eq. split.
      * intros [= <-]. exists r. by rewrite lookup_app_r, Nat.sub_diag by lia.
      * intros (q & [Hq|[Hle Hq]]%lookup_app_Some & E1 & E2).
        -- exfalso. assert (gs_byKey st !! (mr_graphId r, mr_revision r) = Some i) by (apply Hk; eauto).
           congruence.
        -- apply list_lookup_singleton_Some in Hq as [? _]. f_equal. lia.
    + rewrite Hk. split.
      * intros (q & ? & ?). exists q. split; [by apply lookup_app_l_Some|done].
      * intros (q & [Hq|[Hle Hq]]%lookup_app_Some & E1 & E2); [by exists q|].
        apply list_lookup_singleton_Some in Hq as [_ <-]. congruence.
  - intros i [= <-]. exists r. simpl. by rewrite lookup_app_r, Nat.sub_diag by lia.
  - intros i Hi. destruct (Ha i Hi) as (q & ? & ?). exists q. auto.
  - intros i Hi. destruct (He i Hi) as (q & ? & ?). exists q. auto.
  - intros i q [Hq|[Hle Hq]]%lookup_app_Some; [eauto|].
    apply list_lookup_singleton_Some in Hq as [_ <-]. rewrite Hst. set_solver.
Qed.

(** ** Every event *)

Definition step_ok (e : DecodedStoredEvent) (st st' : GraphState) : Prop :=
  store_step e (gs_revisions st) (gs_revisions st') /\ graph_inv st'.

(** An update in place of one revision, as every event but the first two makes. *)
Lemma step_alter e st st' (i : nat) f r :
  graph_inv st -> gs_revisions st !! i = Some r ->
  gs_revisions st' = alter f i (gs_revisions st) -> gs_byKey st' = gs_byKey st ->
  rev_step e r (f r) -> mr_status (f r) <> g_draft ->
  (forall j, gs_draft st' = Some j -> gs_draft st = Some j /\ j <> i) ->
  (forall j, gs_approved st' = Some j -> (j <> i /\ gs_approved st = Some j) \/
     (j = i /\ mr_approvedEventId (f r) <> None /\ mr_status (f r) ∉ [g_draft; g_rejected; g_superseded])) ->
  (forall j, gs_execution st' = Some j -> (j <> i /\ gs_execution st = Some j) \/
     (j = i /\ mr_approvedEventId (f r) <> None /\ mr_status (f r) ∈ [g_queued; g_running; g_waiting_for_user])) ->
  (mr_status (f r) ∈ [g_approved; g_queued; g_running; g_waiting_for_user; g_awaiting_integration;
                      g_completed; g_blocked; g_cancelled; g_failed] -> mr_approvedEventId (f r) <> None) ->
  step_ok e st st'.
Proof.
  intros Hg Hi Er Ek Hs Hnd Hd Ha He Hst. split.
  - rewrite Er. by eapply store_step_alter.
  - eapply graph_inv_alter; try done. by destruct Hs.
Qed.

Lemma draft_elsewhere st i j r :
  graph_inv st -> gs_revisions st !! i = Some r -> mr_status r <> g_draft ->
  gs_draft st = Some j -> gs_draft st = Some j /\ j <> i.
Proof.
  intros Hg Hi Hs Hj. split; [done|]. intros ->. destruct (gv_draft st Hg i Hj) as (q & ? & ? & _).
  congruence.
Qed.

Lemma approved_other st i j r : gs_revisions st !! i = Some r -> gs_approved st = Some j ->
  graph_inv st -> forall (app : option string) s, app <> None ->
  s ∉ [g_draft; g_rejected; g_superseded] ->
  (j <> i /\ gs_approved st = Some j) \/ (j = i /\ app <> None /\ s ∉ [g_draft; g_rejected; g_superseded]).
Proof. intros. destruct (decide (j = i)); [right|left]; done. Qed.

Lemma status_approved st i r :
  graph_inv st -> gs_revisions st !! i = Some r ->
  mr_status r ∈ [g_approved; g_queued; g_running; g_waiting_for_user; g_awaiting_integration;
                 g_completed; g_blocked; g_cancelled; g_failed] -> mr_approvedEventId r <> None.
Proof. intros Hg Hi. by apply (gv_status st Hg i r Hi). Qed.

(** Only one of the statuses below can be in both lists. *)
Ltac pick_status H :=
  repeat (apply elem_of_cons in H as [H|H]; [|]); try by apply not_elem_of_nil in H.

(** An update of a revision that was approved and stays approved. *)
Lemma step_live e st (i : nat) s (t : option string) r x :
  graph_inv st -> gs_revisions st !! i = Some r -> mr_approvedEventId r <> None ->
  mr_status r <> g_draft ->
  legalGraphTransition (mr_status r) s = true -> s <> g_draft -> s <> g_rejected -> s <> g_superseded ->
  (forall j, x = Some j -> (j <> i /\ gs_execution st = Some j) \/
     (j = i /\ s ∈ [g_queued; g_running; g_waiting_for_user])) ->
  step_ok e st (updateRevision i (fun r => r <| mr_status := s |> <| mr_terminalEventId := t |>) st
    <| gs_execution := x |>).
Proof.
  intros Hg Hi Happ Hnd Hlegal H1 H2 H3 Hx.
  eapply step_alter; try done; simpl.
  - split; simpl; [by repeat split|by right|by left|done].
  - intros j. by eapply draft_elsewhere.
  - intros j Hj. eapply approved_other; try done. set_solver.
  - intros j Hj. destruct (Hx j Hj) as [?|[? ?]]; [by left|by right].
Qed.

Lemma identity_fresh event target data content digest :
  identity' (grd_content data) = Ok (content, digest) -> digest = gr_graph_sha256 target ->
  (scope event = SessionScope (GraphEventData target (GraphProposed data)) \/
   exists b h, scope event = SessionScope (GraphEventData target (GraphReplaced b h data))) ->
  rev_fresh event (newRevision event target data content).
Proof.
  intros Hid -> Hsc. unfold rev_fresh, newRevision. simpl. split_and!; try done.
  - unfold introduces. simpl. split; [done|]. exists data. split; [done|].
    replace (refOf _) with target by (by destruct target). done.
  - by exists (grd_content data).
Qed.

Lemma has_false {A} (o : option A) : match o with Some _ => true | None => false end = false -> o = None.
Proof. by destruct o. Qed.

Lemma proposeGraph_ok event target data st st' :
  scope event = SessionScope (GraphEventData target (GraphProposed data)) ->
  proposeGraph isUuid localeLower localeLe sha256 fuel event target data st = Ok st' ->
  graph_inv st -> step_ok event st st'.
Proof.
  intros Hsc H Hg. unfold proposeGraph in H.
  apply bind_ok in H as (? & Hk%throw_when_ok%has_false & H). apply bind_ok in H as (? & _ & H).
  apply bind_ok in H as ([content digest] & Hid & H). returns.
  split.
  - simpl. apply store_step_push; [apply store_step_refl|done|].
    eapply identity_fresh; [done..|by left].
  - apply graph_inv_push; try done.
Qed.

Lemma replaceGraph_ok event target b h data st st' :
  scope event = SessionScope (GraphEventData target (GraphReplaced b h data)) ->
  replaceGraph isUuid localeLower localeLe sha256 fuel event target b h data st = Ok st' ->
  graph_inv st -> step_ok event st st'.
Proof.
  intros Hsc H Hg. unfold replaceGraph, getRevision in H.
  destruct (gs_byKey st !! _) as [i|] eqn:Hk; [|done].
  destruct (gs_revisions st !! i) as [base|] eqn:Hi; [|done].
  apply bind_ok in H as (? & Hb%throw_when_ok & H).
  apply bind_ok in H as (? & Hn%throw_when_ok & H).
  apply bind_ok in H as ([content digest] & Hid & H).
  apply bind_ok in H as (? & Hc%throw_when_ok & H). injection H as <-.
  apply orb_false_iff in Hb as [Hb Hx]. apply orb_false_iff in Hb as [_ Hb].
  apply negb_false_iff, statusIn_true in Hb. apply negb_false_iff, bool_decide_eq_true in Hx.
  apply orb_false_iff in Hn as [_ Hn%has_false]. apply orb_false_iff in Hc as [Hc _].
  apply negb_false_iff, bool_decide_eq_true in Hc.
  assert (Hlegal : legalGraphTransition (mr_status base) g_superseded = true).
  { pick_status Hb; by rewrite Hb. }
  assert (Hstep : rev_step event base (setStatus g_superseded base))
    by (split; simpl; [by repeat split|by right|by left|done]).
  split.
  - simpl. apply store_step_push; [by eapply store_step_alter|by rewrite length_alter|].
    eapply identity_fresh; [done..|right; by eauto].
  - (* the old draft, if any, is forgotten *)
    set (st1 := updateRevision i (setStatus g_superseded) st
      <| gs_draft := None |> <| gs_approved := clearIf i (gs_approved st) |>).
    assert (Hg1 : graph_inv st1).
    { eapply (graph_inv_alter st st1 i (setStatus g_superseded) base); try done.
      - intros j Hj. apply clearIf_Some in Hj as [? ?]. by left.
      - simpl. rewrite Hx. done.
      - simpl. intros Hin. by pick_status Hin. }
    apply (graph_inv_push st1 (newRevision event target data content)) in Hg1; try done.
Qed.

Lemma decision_ok event st i r f s :
  graph_inv st -> gs_revisions st !! i = Some r -> mr_status r = g_draft -> gs_draft st = Some i ->
  rev_step event r (f r) -> mr_status (f r) = s ->
  (s = g_approved /\ mr_approvedEventId (f r) <> None \/ s = g_rejected) ->
  step_ok event st (updateRevision i f st <| gs_draft := None |>
    <| gs_approved := if s === g_approved then Some i else gs_approved st |>).
Proof.
  intros Hg Hi Hs Hd Hstep Hf Hor.
  assert (Hlive : forall j, gs_approved st = Some j \/ gs_execution st = Some j -> j <> i).
  { intros j [Hj|Hj] ->.
    - destruct (gv_approved st Hg i Hj) as (q & ? & _ & Hq). simplify_eq. rewrite Hs in Hq. set_solver.
    - destruct (gv_execution st Hg i Hj) as (q & ? & _ & Hq). simplify_eq. rewrite Hs in Hq. by pick_status Hq. }
  eapply step_alter; try done; simpl.
  - rewrite Hf. destruct Hor as [[-> _]| ->]; done.
  - intros j. case_bool_decide as Hsa.
    + intros [= <-]. right. rewrite Hf. destruct Hor as [[-> Happ]| ->]; [|done].
      split; [done|]. split; [done|]. set_solver.
    + intros Hj. left. split; [auto|done].
  - intros j Hj. left. split; [auto|done].
  - rewrite Hf. destruct Hor as [[-> Happ]| ->]; [done|]. intros Hin. by pick_status Hin.
Qed.

Lemma graph_event_ok event target g st st' :
  scope event = SessionScope (GraphEventData target g) ->
  event' event target g st = Ok st' -> graph_inv st -> step_ok event st st'.
Proof.
  intros Hsc H Hg.
  assert (Hrefl : step_ok event st st) by (split; [apply store_step_refl|done]).
  destruct g; simpl in H; try (by injection H as <-).
  - by eapply proposeGraph_ok.
  - by eapply replaceGraph_ok.
  - (* approved *)
    apply bind_ok in H as ([i r] & Hd & H). injection H as <-.
    apply draftDecision_ok in Hd as (Hi & -> & Hs & Hd & ->); [|done].
    pose proof (decision_ok event st i r (fun r => r <| mr_status := g_approved |>
      <| mr_approvedEventId := Some (eventId event) |>
      <| mr_decisionEventId := Some (eventId event) |>) g_approved) as Hok. simpl in Hok.
    apply Hok; try done; [|by left].
    split; simpl; [by repeat split|right; by rewrite Hs|by right|done].
  - (* rejected *)
    apply bind_ok in H as ([i r] & Hd & H). injection H as <-.
    apply draftDecision_ok in Hd as (Hi & -> & Hs & Hd & ->); [|done].
    pose proof (decision_ok event st i r (fun r => r <| mr_status := g_rejected |>
      <| mr_decisionEventId := Some (eventId event) |>) g_rejected) as Hok. simpl in Hok.
    apply Hok; try done; [|by right].
    split; simpl; [by repeat split|right; by rewrite Hs|by left|done].
  - (* stale *)
    apply bind_ok in H as ([i r] & Hex & H). apply bind_ok in H as (? & Hst%throw_when_ok & H).
    injection H as <-. apply (exactRevision_ref st) in Hex as [Hi ->]; [|done].
    apply not_true_iff_false in Hst. rewrite statusIn_true in Hst.
    assert (Hlegal : legalGraphTransition (mr_status r) g_stale = true)
      by (destruct (mr_status r); try done; set_solver).
    eapply step_alter; try done; simpl.
    + split; simpl; [by repeat split|by right|by left|done].
    + intros j. apply clearIf_Some.
    + intros j [? ?]%clearIf_Some. by left.
    + intros j [? ?]%clearIf_Some. by left.
    + intros Hin. by pick_status Hin.
  - (* enqueued *)
    apply bind_ok in H as ([i r] & Hex & H). apply bind_ok in H as (? & Hst%throw_when_ok & H).
    injection H as <-. apply (exactRevision_ref st) in Hex as [Hi ->]; [|done]. returns.
    match goal with H : statusIn _ _ = true |- _ => apply statusIn_true in H; rename H into Hin end.
    pose proof (step_live event st i g_queued (mr_terminalEventId r) r (Some i)) as Hok.
    assert (Hnd : mr_status r <> g_draft) by (pick_status Hin; by rewrite Hin).
    assert (Happ : mr_approvedEventId r <> None)
      by (eapply status_approved; [done..|]; pick_status Hin; rewrite Hin; set_solver).
    eapply step_alter; try done; simpl.
    + split; simpl; [by repeat split| |by left|done]. right. pick_status Hin; by rewrite Hin.
    + intros j. by eapply draft_elsewhere.
    + intros j Hj. eapply approved_other; try done. set_solver.
    + intros j [= <-]. right. split; [done|]. split; [done|set_solver].
  - (* started *)
    apply bind_ok in H as ([i r] & Hex & H). apply bind_ok in H as (? & Hst%throw_when_ok & H).
    injection H as <-. apply (exactRevision_ref st) in Hex as [Hi ->]; [|done]. returns.
    match goal with H : mr_status r = g_queued |- _ => rename H into Hs end.
    assert (Happ : mr_approvedEventId r <> None)
      by (eapply status_approved; [done..|]; rewrite Hs; set_solver).
    eapply step_alter; try done; simpl.
    + split; simpl; [by repeat split| |by left|done]. right. by rewrite Hs.
    + intros j. eapply draft_elsewhere; try done. by rewrite Hs.
    + intros j Hj. eapply approved_other; try done. set_solver.
    + intros j Hj. destruct (decide (j = i)); [right|by left]. split; [done|]. split; [done|set_solver].
  - (* waiting for user *)
    apply bind_ok in H as ([i r] & Hex & H). apply bind_ok in H as (? & Hst%throw_when_ok & H).
    injection H as <-. apply (exactRevision_ref st) in Hex as [Hi ->]; [|done]. returns.
    match goal with H : statusIn _ _ = true |- _ => apply statusIn_true in H; rename H into Hin end.
    assert (Hnd : mr_status r <> g_draft) by (pick_status Hin; by rewrite Hin).
    assert (Happ : mr_approvedEventId r <> None)
      by (eapply status_approved; [done..|]; pick_status Hin; rewrite Hin; set_solver).
    eapply step_alter; try done; simpl.
    + split; simpl; [by repeat split| |by left|done]. right. pick_status Hin; by rewrite Hin.
    + intros j. by eapply draft_elsewhere.
    + intros j Hj. eapply approved_other; try done. set_solver.
    + intros j Hj. destruct (decide (j = i)); [right|by left]. split; [done|]. split; [done|set_solver].
  - (* cancel requested *)
    apply bind_ok in H as ([i r] & _ & H). apply bind_ok in H as (? & _ & H). by injection H as <-.
  - (* terminal *)
    apply bind_ok in H as ([i r] & Hex & H). apply bind_ok in H as (? & Hst%throw_when_ok & H).
    injection H as <-. apply (exactRevision_ref st) in Hex as [Hi ->]; [|done]. returns.
    apply statusIn_true in Hst. unfold ACTIVE_STATUSES in Hst.
    assert (Happ : mr_approvedEventId r <> None)
      by (eapply status_approved; [done..|]; pick_status Hst; rewrite Hst; set_solver).
    apply (step_live event st i (terminalGraphStatus status) (Some (eventId event)) r None); try done.
    + pick_status Hst; by rewrite Hst.
    + pick_status Hst; rewrite Hst; by destruct status.
    + by destruct status.
    + by destruct status.
    + by destruct status.
  - (* retry requested *)
    apply bind_ok in H as ([i r] & Hex & H). apply bind_ok in H as (? & Hst%throw_when_ok & H).
    injection H as <-. apply (exactRevision_ref st) in Hex as [Hi ->]; [|done]. returns.
    match goal with H : statusIn _ _ = true |- _ => apply statusIn_true in H; rename H into Hin end.
    assert (Happ : mr_approvedEventId r <> None)
      by (eapply status_approved; [done..|]; pick_status Hin; rewrite Hin; set_solver).
    apply (step_live event st i g_waiting_for_user None r (Some i)); try done.
    + pick_status Hin; by rewrite Hin.
    + pick_status Hin; by rewrite Hin.
    + intros j [= <-]. right. split; [done|set_solver].
Qed.

Lemma graph_inv_init : graph_inv graph_init.
Proof.
  split; try done.
  - intros id rev i. simpl. rewrite lookup_empty, lookup_nil. split; [done|]. by intros (? & ? & _).
Qed.

Lemma graph_step_ok st event st' :
  graph_step isUuid localeLower localeLe sha256 fuel st event = Ok st' -> graph_inv st ->
  step_ok event st st'.
Proof.
  unfold graph_step. intros H Hg.
  destruct (scope event) as [|d] eqn:Hsc; [injection H as <-; by split; [apply store_step_refl|]|].
  destruct d; try (injection H as <-; by split; [apply store_step_refl|]).
  by eapply graph_event_ok.
Qed.

(** Where the revisions of a prefix of the log come from. *)
Definition provenance (l : list DecodedStoredEvent) (st : GraphState) : Prop :=
  forall i r, gs_revisions st !! i = Some r ->
    (exists k e, l !! k = Some e /\ introduces e r /\
       forall a, mr_approvedEventId r = Some a ->
         exists k' e', (k < k')%nat /\ l !! k' = Some e' /\ eventId e' = a /\ approves e' r) /\
    (exists content, identity' content = Ok (mr_content r, mr_graphSha256 r)).

Lemma same_identity_approves e r r' : same_identity r r' -> approves e r -> approves e r'.
Proof.
  unfold same_identity, approves, refOf. intros (_ & _ & -> & -> & -> & -> & _). done.
Qed.

Lemma same_identity_introduces e r r' : same_identity r r' -> introduces e r -> introduces e r'.
Proof.
  unfold same_identity, introduces, refOf. intros (_ & -> & -> & -> & -> & -> & _). done.
Qed.

Lemma provenance_snoc l e st st' :
  provenance l st -> store_step e (gs_revisions st) (gs_revisions st') -> provenance (l ++ [e]) st'.
Proof.
  intros Hp [Ho Hn] i r' Hi.
  assert (Hl : forall k x, l !! k = Some x -> (l ++ [e]) !! k = Some x) by (intros; by apply lookup_app_l_Some).
  assert (He : (l ++ [e]) !! length l = Some e) by by apply list_lookup_middle.
  destruct (gs_revisions st !! i) as [r|] eqn:Hr.
  - destruct (Ho i r Hr) as (r2 & Hr2 & [Hid _ Happ _]). simplify_eq.
    destruct (Hp i r Hr) as ((k & e0 & He0 & Hint & Hap) & content & Hc). split.
    + exists k, e0. split; [auto|]. split; [by eapply same_identity_introduces|].
      intros a Ha. destruct Happ as [E|[E Hap1]].
      * rewrite E in Ha. destruct (Hap a Ha) as (k1 & e1 & ? & ? & ? & ?). exists k1, e1.
        split_and!; [done|auto|done|by eapply same_identity_approves].
      * exists (length l), e. apply lookup_lt_Some in He0.
        split_and!; [done..|congruence|by eapply same_identity_approves].
    + exists content. destruct Hid as (-> & _ & _ & _ & -> & _). done.
  - destruct (Hn i r' Hi Hr) as (_ & Happ & _ & Hint & Hc). split; [|done].
    exists (length l), e. split; [done|]. split; [done|]. congruence.
Qed.

Lemma runGraphProjector_ok events st :
  run' events = Ok st -> graph_inv st /\ provenance events st.
Proof.
  apply (foldM_prefix _ (fun l st => graph_inv st /\ provenance l st)).
  - split; [apply graph_inv_init|]. intros i r. simpl. by rewrite lookup_nil.
  - intros k x e y [Hg Hp] H. destruct (graph_step_ok _ _ _ H Hg) as [Hs Hg']. split; [done|].
    by eapply provenance_snoc.
Qed.

(** What any number of events does to a revision. *)
Record rev_steps (r r' : MutableRevision) : Prop := {
  rss_identity : same_identity r r';
  rss_status : rtc (fun a b => legalGraphTransition a b = true) (mr_status r) (mr_status r');
  rss_final : mr_status r ∈ [g_completed; g_rejected; g_superseded] -> r' = r;
}.

Lemma rev_steps_trans r1 e r2 r3 : rev_steps r1 r2 -> rev_step e r2 r3 -> rev_steps r1 r3.
Proof.
  intros [I1 S1 F1] [I2 S2 _ _]. split.
  - unfold same_identity in *. naive_solver congruence.
  - destruct S2 as [->|S2]; [done|]. eapply rtc_r; [exact S1|exact S2].
  - intros Hf. rewrite (F1 Hf) in S2. destruct S2 as [E|S2]; [exact E|].
    by pick_status Hf; rewrite Hf in S2.
Qed.

Lemma run_revisions before after st st' i r :
  run' before = Ok st -> run' (before ++ after) = Ok st' -> gs_revisions st !! i = Some r ->
  exists r', gs_revisions st' !! i = Some r' /\ rev_steps r r'.
Proof.
  intros Hb Ha Hi. unfold runGraphProjector in Ha. rewrite foldM_app in Ha.
  apply bind_ok in Ha as (st1 & Hb1 & Ha). unfold runGraphProjector in Hb.
  assert (st1 = st) as -> by congruence.
  enough (graph_inv st' /\ exists r', gs_revisions st' !! i = Some r' /\ rev_steps r r') by tauto.
  revert Ha. apply (foldM_invariant _ (fun s => graph_inv s /\
    exists r', gs_revisions s !! i = Some r' /\ rev_steps r r')).
  - intros x e y _ [Hg (r1 & Hr1 & Hs1)] H. destruct (graph_step_ok _ _ _ H Hg) as [[Ho _] Hg'].
    split; [done|]. destruct (Ho i r1 Hr1) as (r2 & Hr2 & Hs2). exists r2.
    split; [done|by eapply rev_steps_trans].
  - split; [by eapply runGraphProjector_ok|]. exists r. split; [done|].
    split; [by repeat split|constructor|done].
Qed.

(** C3: The graph that executes was approved: when the projection names an
    executing graph revision, the log holds the event that introduced this
    revision and, after it, an approval of exactly its id, revision and digest
    that cites the introducing event; the digest is the one computed from the
    normalised content, and the revision is queued, running or waiting. *)
Theorem executing_graph_was_approved events p ref :
  projectGraph isUuid localeLower localeLe sha256 fuel events = Ok p ->
  tgp_currentExecution p = Some ref ->
  exists r, r ∈ tgp_revisions p /\ graphRefOf r = ref /\
    mr_status r ∈ [g_queued; g_running; g_waiting_for_user] /\
    (exists i j e e', (i < j)%nat /\ events !! i = Some e /\ introduces e r /\
       events !! j = Some e' /\ approves e' r) /\
    exists content, identity' content = Ok (mr_content r, mr_graphSha256 r).
Proof.
  unfold projectGraph. intros H Href. apply bind_ok in H as (st & Hrun & H). injection H as <-.
  simpl in *. destruct (runGraphProjector_ok _ _ Hrun) as [Hg Hp].
  destruct (gs_execution st) as [i|] eqn:He; [|done].
  destruct (gv_execution st Hg i He) as (r & Hr & Happ & Hs). simpl in Href. rewrite Hr in Href.
  injection Href as <-. destruct (Hp i r Hr) as ((k & e & He0 & Hint & Hap) & Hc).
  exists r. split_and!; try done; [by eapply list_elem_of_lookup_2|].
  destruct (mr_approvedEventId r) as [a|]; [|done]. destruct (Hap a eq_refl) as (k' & e' & ? & ? & _ & ?).
  by exists k, k', e, e'.
Qed.

(** Graph revisions are append-only: whatever follows in the log, a
    revision keeps its content, binding, digest and identity, its status
    only moves along legal transitions, and a completed, rejected or
    superseded revision does not change at all. *)
Theorem graph_revisions_append_only before after st st' i r :
  run' before = Ok st -> run' (before ++ after) = Ok st' -> gs_revisions st !! i = Some r ->
  exists r', gs_revisions st' !! i = Some r' /\ same_identity r r' /\
    rtc (fun a b => legalGraphTransition a b = true) (mr_status r) (mr_status r') /\
    (mr_status r ∈ [g_completed; g_rejected; g_superseded] -> r' = r).
Proof.
  intros Hb Ha Hi. destruct (run_revisions _ _ _ _ _ _ Hb Ha Hi) as (r' & ? & []). eauto.
Qed.

(** The current revisions of a projection are what they are named: the
    current draft is an undecided draft, the current approved revision has
    been approved and is neither a draft nor rejected nor superseded, and no
    two revisions share graph id and revision number. *)
Theorem graph_projection_coherent events st :
  runGraphProjector isUuid localeLower localeLe sha256 fuel events = Ok st ->
  (forall i, gs_draft st = Some i -> exists r, gs_revisions st !! i = Some r /\ mr_status r = g_draft /\
     mr_decisionEventId r = None /\ mr_approvedEventId r = None) /\
  (forall i, gs_approved st = Some i -> exists r, gs_revisions st !! i = Some r /\
     mr_approvedEventId r <> None /\ mr_status r ∉ [g_draft; g_rejected; g_superseded]) /\
  (forall i j r q, gs_revisions st !! i = Some r -> gs_revisions st !! j = Some q ->
     mr_graphId r = mr_graphId q -> mr_revision r = mr_revision q -> i = j).
Proof.
  intros Hrun. destruct (runGraphProjector_ok _ _ Hrun) as [[Hk Hd Ha _ Hs] _]. split_and!.
  - intros i Hi. destruct (Hd i Hi) as (r & Hr & Hst & Hdec). exists r. split_and!; try done.
    by apply (Hs i r Hr).
  - exact Ha.
  - intros i j r q Hi Hj E1 E2.
    assert (gs_byKey st !! (mr_graphId r, mr_revision r) = Some i) by (apply Hk; eauto).
    assert (gs_byKey st !! (mr_graphId r, mr_revision r) = Some j) by (apply Hk; exists q; done).
    congruence.
Qed.
End Facts.

(** ** A graph that runs to the end

    The concrete log on which the theorems of [TaskGraphFacts.v] are
    instantiated: a graph is proposed, approved, enqueued, started and
    completed. *)

Module GraphLog.
Definition hash (s : jstring) : string := pretty (Z.of_nat (length s)).
Definition le (a b : jstring) : bool := jstring_le a b.
Definition content : TaskGraphRevisionContent := SampleGraph.chainGraph.
Definition digest : string :=
  match canonicalTaskGraphIdentity SampleGraph.anyUuid SampleGraph.fold le hash 4 content with
  | Ok (_, d, _) => d | Err _ => "" end.
Definition target : GraphRef := {| gr_graph_id := "g"; gr_graph_revision := 1; gr_graph_sha256 := digest |}.
Definition data : GraphRevisionData := {|
  grd_artifact := {| ar_artifact_id := "a"; ar_bytes := 1; ar_object_ref := "o"; ar_sha256 := digest |};
  grd_binding := tg_binding content; grd_content := content |}.

Definition event (id : string) (seq : Z) (g : GraphEvent) : DecodedStoredEvent := {|
  eventId := id; sessionId := "s"; sessionSeq := seq; sourceSchemaVersion := 2;
  scope := SessionScope (GraphEventData target g) |}.

Definition running : list DecodedStoredEvent := [
  event "e1" 1 (GraphProposed data); event "e2" 2 (GraphApproved "e1");
  event "e3" 3 (GraphEnqueued "q" "foreground" "p"); event "e4" 4 (SchedulerLeaseAcquired "n");
  event "e5" 5 (GraphStarted "n")].
Definition ended : list DecodedStoredEvent := [event "e6" 6 (GraphTerminal None gt_completed)].

Definition run (l : list DecodedStoredEvent) :=
  runGraphProjector SampleGraph.anyUuid SampleGraph.fold le hash 4 l.
Definition state (l : list DecodedStoredEvent) : GraphState :=
  match run l with Ok st => st | Err _ => graph_init end.
End GraphLog.

Lemma executing_graph_was_approved_witness :
  exists p ref r, projectGraph SampleGraph.anyUuid SampleGraph.fold GraphLog.le GraphLog.hash 4 GraphLog.running
      = Ok p /\ tgp_currentExecution p = Some ref /\ graphRefOf r = ref /\
    exists i j e e', (i < j)%nat /\ GraphLog.running !! i = Some e /\ introduces e r /\
      GraphLog.running !! j = Some e' /\ approves e' r.
Proof.
  destruct (projectGraph SampleGraph.anyUuid SampleGraph.fold GraphLog.le GraphLog.hash 4 GraphLog.running)
    as [p|] eqn:E; [|by vm_compute in E].
  destruct (tgp_currentExecution p) as [ref|] eqn:Er.
  2:{ exfalso. vm_compute in E. injection E as <-. by vm_compute in Er. }
  destruct (executing_graph_was_approved _ _ _ _ _ _ _ _ E Er) as (r & _ & Hr & _ & Ha & _).
  exists p, ref, r. split; [reflexivity|]. split; [exact Er|]. split; [exact Hr|exact Ha].
Defined.

Lemma graph_revisions_append_only_witness :
  exists r r', gs_revisions (GraphLog.state GraphLog.running) !! 0%nat = Some r /\ mr_status r = g_running /\
    gs_revisions (GraphLog.state (GraphLog.running ++ GraphLog.ended)) !! 0%nat = Some r' /\
    same_identity r r' /\ mr_status r' = g_completed.
Proof.
  destruct (gs_revisions (GraphLog.state GraphLog.running) !! 0%nat) as [r|] eqn:Hr; [|by vm_compute in Hr].
  destruct (graph_revisions_append_only SampleGraph.anyUuid SampleGraph.fold GraphLog.le GraphLog.hash 4
    GraphLog.running GraphLog.ended (GraphLog.state GraphLog.running)
    (GraphLog.state (GraphLog.running ++ GraphLog.ended)) 0 r) as (r' & Hr' & Hid & _).
  - vm_compute. reflexivity.
  - vm_compute. reflexivity.
  - exact Hr.
  - exists r, r'. split; [reflexivity|]. split; [vm_compute in Hr; by injection Hr as <-|].
    split; [exact Hr'|]. split; [exact Hid|].
    vm_compute in Hr'. by injection Hr' as <-.
Defined.

Lemma graph_projection_coherent_witness :
  exists r, gs_revisions (GraphLog.state GraphLog.running) !! 0%nat = Some r /\ mr_approvedEventId r <> None.
Proof.
  destruct (graph_projection_coherent SampleGraph.anyUuid SampleGraph.fold GraphLog.le GraphLog.hash 4
    GraphLog.running (GraphLog.state GraphLog.running)) as (_ & Ha & _); [vm_compute; reflexivity|].
  destruct (Ha 0%nat) as (r & Hr & Happ & _); [vm_compute; reflexivity|].
  exists r. split; [exact Hr|exact Happ].
Defined.
