(* ===== verification/TaskExecution.v ===== *)
(** * The task execution projector

    [src/scheduling/task-execution-projector.ts], [task-budget-ledger.ts] and
    [task-ready-queue.ts]: the fold of one graph's events into node statuses,
    attempts, the active attempt, the scheduler lease and the budget.
    Attempts are mutable objects shared by their node, the attempt map and
    [active]; they live in [xs_attempts] and the others hold attempt ids. *)

From S2P Require Import Prelude JsString Domain Events TaskState Schemas TaskGraphSchema TaskGraph.
From stdpp Require Import sorting.
#[local] Open Scope Z_scope.

(** ** Budget counters *)

Definition zero (tokens : option Z) : TaskBudgetCounters := {|
  bc_attempts := 0; bc_durationMs := 0; bc_modelSteps := 0; bc_commandExecutions := 0;
  bc_commandOutputBytes := 0; bc_changedFiles := 0; bc_changedBytes := 0; bc_artifactBytes := 0;
  bc_reportedTokens := tokens |}.

Definition limits (budget : TaskGraphBudget) : TaskBudgetCounters := {|
  bc_attempts := maxAttempts budget; bc_durationMs := maxDurationMs budget;
  bc_modelSteps := maxModelSteps budget; bc_commandExecutions := maxCommandExecutions budget;
  bc_commandOutputBytes := maxCommandOutputBytes budget; bc_changedFiles := maxChangedFiles budget;
  bc_changedBytes := maxChangedBytes budget; bc_artifactBytes := maxArtifactBytes budget;
  bc_reportedTokens := maxReportedTokens budget |}.

(** The counters one by one; only the last can be [null]. *)
Definition counters (b : TaskBudgetCounters) : list (option Z) :=
  [Some (bc_attempts b); Some (bc_durationMs b); Some (bc_modelSteps b); Some (bc_commandExecutions b);
   Some (bc_commandOutputBytes b); Some (bc_changedFiles b); Some (bc_changedBytes b);
   Some (bc_artifactBytes b); bc_reportedTokens b].

(** A pointwise operation; a [null] token count absorbs. *)
Definition zipCounters (f : Z -> Z -> Z) (a b : TaskBudgetCounters) : TaskBudgetCounters := {|
  bc_attempts := f (bc_attempts a) (bc_attempts b);
  bc_durationMs := f (bc_durationMs a) (bc_durationMs b);
  bc_modelSteps := f (bc_modelSteps a) (bc_modelSteps b);
  bc_commandExecutions := f (bc_commandExecutions a) (bc_commandExecutions b);
  bc_commandOutputBytes := f (bc_commandOutputBytes a) (bc_commandOutputBytes b);
  bc_changedFiles := f (bc_changedFiles a) (bc_changedFiles b);
  bc_changedBytes := f (bc_changedBytes a) (bc_changedBytes b);
  bc_artifactBytes := f (bc_artifactBytes a) (bc_artifactBytes b);
  bc_reportedTokens := match bc_reportedTokens a, bc_reportedTokens b with
                       | Some x, Some y => Some (f x y) | _, _ => None end |}.

Definition addCounters : TaskBudgetCounters -> TaskBudgetCounters -> TaskBudgetCounters := zipCounters Z.add.
Definition subCounters : TaskBudgetCounters -> TaskBudgetCounters -> TaskBudgetCounters := zipCounters Z.sub.

(** [within] *)
Definition within (consumed reserved limit : TaskBudgetCounters) : bool :=
  forallb (fun '(used, held, maximum) =>
    match maximum with
    | None => true
    | Some m => match used, held with Some u, Some h => u + h <=? m | _, _ => false end
    end) (zip (zip (counters consumed) (counters reserved)) (counters limit)).

Inductive ExecutionError : Type :=
| multiple_leases | lease_recovery_mismatch | start_without_lease | admission_ordering
| insufficient_budget | workspace_contradiction | attempt_start_unbound | waiting_without_attempt
| terminal_without_attempt | consumption_exceeds_reservation | retry_mismatch | skip_without_blocker
| completed_early | no_enqueue_fact | ledger_exceeded.

(** [subtract] *)
Definition subtract (limit consumed reserved : TaskBudgetCounters) : result ExecutionError TaskBudgetCounters :=
  let r := subCounters (subCounters limit consumed) reserved in
  if existsb (fun v => match v with Some v => v <? 0 | None => false end) (counters r)
  then Err ledger_exceeded else Ok r.

(** ** State *)

Inductive TaskNodeExecutionStatus : Type :=
| n_pending | n_ready | n_leased | n_running | n_waiting_for_user | n_succeeded | n_failed | n_blocked
| n_cancelled | n_skipped.
#[export] Instance TaskNodeExecutionStatus_eq : EqDecision TaskNodeExecutionStatus.
Proof. solve_decision. Defined.

Inductive AttemptStatus : Type := a_requested | a_running | a_waiting_for_user | a_terminal.
#[export] Instance AttemptStatus_eq : EqDecision AttemptStatus.
Proof. solve_decision. Defined.

Record MutableAttempt : Type := {
  ma_attemptId : string;
  ma_attemptNumber : Z;
  ma_nodeId : string;
  ma_requestEventId : string;
  ma_reservation : TaskBudgetCounters;
  ma_retryOrigin : RetryOrigin;
  ma_runId : option string;
  ma_startEventId : option string;
  ma_status : AttemptStatus;
  ma_terminal : option AttemptTerminal;
  ma_terminalEventId : option string;
  ma_workspaceBinding : option string;
}.
#[export] Instance MutableAttempt_eta : Eta MutableAttempt := fun r =>
  Build_MutableAttempt (ma_attemptId r) (ma_attemptNumber r) (ma_nodeId r) (ma_requestEventId r)
    (ma_reservation r) (ma_retryOrigin r) (ma_runId r) (ma_startEventId r) (ma_status r)
    (ma_terminal r) (ma_terminalEventId r) (ma_workspaceBinding r).

Record MutableNode : Type := {
  mn_attempts : list string;
  mn_nextAttemptOrigin : option RetryOrigin;
  mn_node : TaskNodeSpec;
  mn_status : TaskNodeExecutionStatus;
  mn_terminalEventId : option string;
}.
#[export] Instance MutableNode_eta : Eta MutableNode := fun r =>
  Build_MutableNode (mn_attempts r) (mn_nextAttemptOrigin r) (mn_node r) (mn_status r) (mn_terminalEventId r).

(** [TaskExecutionBlockerV1]; the code keeps its prefix as a constructor. *)
Inductive BlockerCode : Type :=
| budget_exhausted_code (counter : string) | waiting_code (reason : string) | terminal_code (code : string).
Record TaskExecutionBlocker : Type := {
  xb_code : BlockerCode; xb_eventId : string; xb_nodeId : option string }.

Record EnqueueFact : Type := {
  eq_enqueueId : string; eq_eventId : string; eq_requestedExecution : string; eq_runtimeProfileId : string }.

(** The local variables of [project]. *)
Record ExecState : Type := {
  xs_nodes : gmap string MutableNode;
  xs_attempts : gmap string MutableAttempt;
  xs_active : option string;
  xs_blocker : option TaskExecutionBlocker;
  xs_enqueue : option EnqueueFact;
  xs_lease : option string;
  xs_consumed : TaskBudgetCounters;
  xs_reserved : TaskBudgetCounters;
  xs_completeness : UsageCompleteness;
  xs_cancelRequested : bool;
}.
#[export] Instance ExecState_eta : Eta ExecState := fun r =>
  Build_ExecState (xs_nodes r) (xs_attempts r) (xs_active r) (xs_blocker r) (xs_enqueue r) (xs_lease r)
    (xs_consumed r) (xs_reserved r) (xs_completeness r) (xs_cancelRequested r).

Definition newNode (node : TaskNodeSpec) : MutableNode := {|
  mn_attempts := []; mn_nextAttemptOrigin := Some retry_initial; mn_node := node;
  mn_status := n_pending; mn_terminalEventId := None |}.

Definition initialTokens (graphBudget : TaskGraphBudget) : option Z :=
  match maxReportedTokens graphBudget with None => None | Some _ => Some 0 end.

Definition exec_init (content : TaskGraphRevisionContent) : ExecState := {|
  xs_nodes := foldl (fun m n => <[tn_nodeId n := newNode n]> m) ∅ (tg_nodes content);
  xs_attempts := ∅; xs_active := None; xs_blocker := None; xs_enqueue := None; xs_lease := None;
  xs_consumed := zero (initialTokens (tg_graphBudget content));
  xs_reserved := zero (initialTokens (tg_graphBudget content));
  xs_completeness := usage_complete; xs_cancelRequested := false |}.

(** ** Operations *)

Definition terminalNodeStatus (t : AttemptTerminal) : TaskNodeExecutionStatus :=
  match t with
  | t_succeeded => n_succeeded
  | t_known_failed | t_pre_effect_infrastructure_failure => n_failed
  | t_cancelled_clean => n_cancelled
  | t_blocked_reconciliation | t_blocked_unknown_effect => n_blocked
  end.

Definition mergeCompleteness (current next : UsageCompleteness) : UsageCompleteness :=
  if (current === usage_none) || (next === usage_none) then usage_none
  else if (current === usage_partial) || (next === usage_partial) then usage_partial
  else usage_complete.

Definition nodeStatus (st : ExecState) (id : string) : option TaskNodeExecutionStatus :=
  mn_status <$> xs_nodes st !! id.

(** The inner function [isReady]. *)
Definition isReady (st : ExecState) (node : MutableNode) : bool :=
  (mn_status node === n_pending) &&
  forallb (fun dependency => nodeStatus st dependency === Some n_succeeded) (tn_dependsOn (mn_node node)).

Definition updateNode (id : string) (f : MutableNode -> MutableNode) (st : ExecState) : ExecState :=
  st <| xs_nodes ::= alter f id |>.
Definition updateAttempt (id : string) (f : MutableAttempt -> MutableAttempt) (st : ExecState) : ExecState :=
  st <| xs_attempts ::= alter f id |>.

(** [active !== null && active.attemptId === a && active.nodeId === n] *)
Definition activeAttempt (st : ExecState) : option MutableAttempt :=
  match xs_active st with Some id => xs_attempts st !! id | None => None end.
Definition matchesActive (st : ExecState) (attemptId nodeId : string) : option MutableAttempt :=
  match activeAttempt st with
  | Some a => if (ma_attemptId a === attemptId) && (ma_nodeId a === nodeId) then Some a else None
  | None => None
  end.

(** case "task_node.attempt.requested" *)
Definition requestAttempt (graphBudget : TaskGraphBudget) (event : DecodedStoredEvent)
    (data : AttemptRequestedData) (st : ExecState) : result ExecutionError ExecState :=
  match xs_nodes st !! arq_node_id data with
  | None => Err admission_ordering
  | Some node =>
      _ ← throw_when ((xs_active st !== None) || xs_cancelRequested st || negb (isReady st node) ||
                      (arq_attempt_number data !== Z.of_nat (length (mn_attempts node)) + 1) ||
                      match xs_attempts st !! arq_attempt_id data with Some _ => true | None => false end)
            admission_ordering;
      let held := arq_reservation data in
      _ ← throw_when (negb (within (xs_consumed st) (addCounters (xs_reserved st) held) (limits graphBudget)))
            insufficient_budget;
      let attempt := {|
        ma_attemptId := arq_attempt_id data; ma_attemptNumber := arq_attempt_number data;
        ma_nodeId := arq_node_id data; ma_requestEventId := eventId event; ma_reservation := held;
        ma_retryOrigin := arq_retry_origin data; ma_runId := None; ma_startEventId := None;
        ma_status := a_requested; ma_terminal := None; ma_terminalEventId := None;
        ma_workspaceBinding := arq_workspace_binding data |} in
      _ ← throw_when (xorb (ws_mode (tn_workspace (mn_node node)) === origin_read_only)
                           (ma_workspaceBinding attempt === None)) workspace_contradiction;
      Ok (updateNode (arq_node_id data)
            (fun n => n <| mn_attempts := mn_attempts n ++ [arq_attempt_id data] |> <| mn_status := n_leased |>) st
          <| xs_attempts ::= <[arq_attempt_id data := attempt]> |>
          <| xs_active := Some (arq_attempt_id data) |>
          <| xs_reserved := addCounters (xs_reserved st) held |>)
  end.

(** case "task_node.attempt.terminal" *)
Definition terminateAttempt (event : DecodedStoredEvent) (data : AttemptTerminalData) (st : ExecState)
  : result ExecutionError ExecState :=
  match matchesActive st (atd_attempt_id data) (atd_node_id data) with
  | None => Err terminal_without_attempt
  | Some active =>
      let used := atd_budget data in
      _ ← throw_when (negb (within used
                        (zero match bc_reportedTokens used with None => None | Some _ => Some 0 end)
                        (ma_reservation active))) consumption_exceeds_reservation;
      let wasWaitingForUser := ma_status active === a_waiting_for_user in
      let attempts := match xs_nodes st !! ma_nodeId active with
                      | Some node => Z.of_nat (length (mn_attempts node)) | None => 0 end in
      let retryOf node :=
        (atd_terminal data === t_pre_effect_infrastructure_failure) &&
        ((wasWaitingForUser && (attempts <? 3)) ||
         ((attempts <? retry_maxAttempts (tn_retry (mn_node node))) &&
          bool_decide ("pre_effect_infrastructure_failure"%string ∈ retry_automaticOn (tn_retry (mn_node node))))) in
      Ok (updateNode (ma_nodeId active)
            (fun n => if retryOf n
                      then n <| mn_status := n_pending |>
                             <| mn_nextAttemptOrigin := Some (if wasWaitingForUser then retry_user else retry_automatic) |>
                             <| mn_terminalEventId := None |>
                      else n <| mn_status := terminalNodeStatus (atd_terminal data) |>
                             <| mn_nextAttemptOrigin := None |>
                             <| mn_terminalEventId := Some (eventId event) |>)
            (updateAttempt (ma_attemptId active)
              (fun a => a <| ma_status := a_terminal |> <| ma_terminal := Some (atd_terminal data) |>
                          <| ma_terminalEventId := Some (eventId event) |>) st)
          <| xs_reserved := subCounters (xs_reserved st) (ma_reservation active) |>
          <| xs_consumed := addCounters (xs_consumed st) used |>
          <| xs_completeness := mergeCompleteness (xs_completeness st) (atd_usage_completeness data) |>
          <| xs_active := None |>)
  end.

(** [array.at(i)] *)
Definition jsAt {A} (l : list A) (i : Z) : option A :=
  if i <? 0 then l !! Z.to_nat (Z.of_nat (length l) + i) else l !! Z.to_nat i.

Definition isRetryable (t : option AttemptTerminal) : bool :=
  match t with
  | Some (t_known_failed | t_pre_effect_infrastructure_failure | t_cancelled_clean) => true
  | _ => false
  end.

(** case "task_node.retry.requested" *)
Definition requestRetry (event : DecodedStoredEvent) (data : RetryRequestedData) (st : ExecState)
  : result ExecutionError ExecState :=
  match xs_nodes st !! rrd_node_id data with
  | None => Err retry_mismatch
  | Some node =>
      match (id ← jsAt (mn_attempts node) (rrd_attempt_number data - 1); xs_attempts st !! id) with
      | None => Err retry_mismatch
      | Some previous =>
          let previousTerminal := match rrd_previous_terminal data with
                                  | Some t => Some t | None => ma_terminal previous end in
          let expectedNodeStatus := if previousTerminal === Some t_cancelled_clean then n_cancelled else n_failed in
          _ ← throw_when ((xs_active st !== None) ||
                          (ma_attemptNumber previous !== rrd_attempt_number data) ||
                          (ma_terminalEventId previous !== Some (rrd_terminal_event_id data)) ||
                          (ma_status previous !== a_terminal) || (ma_terminal previous !== previousTerminal) ||
                          negb (isRetryable previousTerminal) || (mn_status node !== expectedNodeStatus) ||
                          (maxAttempts (tn_budget (mn_node node)) <=? Z.of_nat (length (mn_attempts node))))
                retry_mismatch;
          Ok (updateNode (rrd_node_id data)
                (fun n => n <| mn_status := n_pending |> <| mn_nextAttemptOrigin := Some retry_user |>
                            <| mn_terminalEventId := None |>) st
              <| xs_blocker := None |>)
      end
  end.

(** case "task_node.skipped" *)
Definition skipNode (event : DecodedStoredEvent) (node_id : string) (root_blocker_node_ids : list string)
    (st : ExecState) : result ExecutionError ExecState :=
  let isBlocker id := match nodeStatus st id with
                      | Some (n_failed | n_blocked | n_cancelled | n_skipped) => true | _ => false end in
  _ ← throw_when (match xs_nodes st !! node_id with
                  | Some node => (mn_status node !== n_pending) ||
                                 existsb (fun id => negb (isBlocker id)) root_blocker_node_ids
                  | None => true
                  end) skip_without_blocker;
  Ok (updateNode node_id (fun n => n <| mn_status := n_skipped |>
                                     <| mn_terminalEventId := Some (eventId event) |>) st).

Definition allSucceeded (st : ExecState) : bool :=
  forallb (fun '(_, n) => mn_status n === n_succeeded) (map_to_list (xs_nodes st)).

(** The [switch] of the loop. *)
Definition exec_event (graphBudget : TaskGraphBudget) (event : DecodedStoredEvent) (g : GraphEvent)
    (st : ExecState) : result ExecutionError ExecState :=
  let blocker code nodeId := Some {| xb_code := code; xb_eventId := eventId event; xb_nodeId := nodeId |} in
  match g with
  | GraphEnqueued enqueue_id requested_execution runtime_profile_id =>
      Ok (st <| xs_enqueue := Some {| eq_enqueueId := enqueue_id; eq_eventId := eventId event;
                  eq_requestedExecution := requested_execution; eq_runtimeProfileId := runtime_profile_id |} |>
             <| xs_blocker := None |>)
  | SchedulerLeaseAcquired nonce =>
      _ ← throw_when (xs_lease st !== None) multiple_leases;
      Ok (st <| xs_lease := Some nonce |>)
  | SchedulerLeaseRecovered previous =>
      _ ← throw_when (xs_lease st !== Some previous) lease_recovery_mismatch;
      Ok (st <| xs_lease := None |>)
  | GraphStarted nonce =>
      _ ← throw_when (xs_lease st !== Some nonce) start_without_lease;
      Ok st
  | GraphCancelRequested => Ok (st <| xs_cancelRequested := true |>)
  | AttemptRequested data => requestAttempt graphBudget event data st
  | AttemptStarted attempt_id node_id run_id nonce =>
      match matchesActive st attempt_id node_id with
      | None => Err attempt_start_unbound
      | Some active =>
          _ ← throw_when ((ma_status active !== a_requested) || (xs_lease st !== Some nonce)) attempt_start_unbound;
          Ok (updateNode (ma_nodeId active) (fun n => n <| mn_status := n_running |>)
                (updateAttempt (ma_attemptId active)
                  (fun a => a <| ma_status := a_running |> <| ma_runId := Some run_id |>
                              <| ma_startEventId := Some (eventId event) |>) st))
      end
  | AttemptWaitingForUser attempt_id node_id =>
      match matchesActive st attempt_id node_id with
      | None => Err waiting_without_attempt
      | Some active =>
          Ok (updateNode (ma_nodeId active) (fun n => n <| mn_status := n_waiting_for_user |>)
                (updateAttempt (ma_attemptId active) (fun a => a <| ma_status := a_waiting_for_user |>) st))
      end
  | AttemptTerminated data => terminateAttempt event data st
  | NodeRetryRequested data => requestRetry event data st
  | NodeSkipped node_id roots => skipNode event node_id roots st
  | BudgetExhausted counter node_id =>
      Ok (st <| xs_blocker := blocker (budget_exhausted_code counter) node_id |>)
  | GraphWaitingForUser reason =>
      Ok (st <| xs_blocker := blocker (waiting_code reason) (ma_nodeId <$> activeAttempt st) |>)
  | GraphTerminal blocker_code status =>
      _ ← throw_when (match status with gt_completed => negb (allSucceeded st) | _ => false end) completed_early;
      let st := match blocker_code with
                | Some code => st <| xs_blocker := blocker (terminal_code code) None |>
                | None => st
                end in
      Ok (st <| xs_lease := None |>)
  | GraphProposed _ | GraphReplaced _ _ _ | GraphApproved _ | GraphRejected _ | GraphStale => Ok st
  end.

(** One iteration, for the graph revision [target]: [exactGraphEvent] first. *)
Definition exec_step (target : GraphRef) (graphBudget : TaskGraphBudget) (st : ExecState)
    (event : DecodedStoredEvent) : result ExecutionError ExecState :=
  match scope event with
  | SessionScope (GraphEventData target' g) =>
      if target' === target then exec_event graphBudget event g st else Ok st
  | _ => Ok st
  end.

Definition runExec (target : GraphRef) (content : TaskGraphRevisionContent)
    (events : list DecodedStoredEvent) : result ExecutionError ExecState :=
  foldM (exec_step target (tg_graphBudget content)) events (exec_init content).

(** ** The projection *)

Record TaskBudgetProjection : Type := {
  bp_consumed : TaskBudgetCounters;
  bp_limits : TaskBudgetCounters;
  bp_remaining : TaskBudgetCounters;
  bp_reserved : TaskBudgetCounters;
  bp_usageCompleteness : UsageCompleteness;
}.

Record TaskExecutionProjection : Type := {
  xp_activeAttempt : option MutableAttempt;
  xp_blocker : option TaskExecutionBlocker;
  xp_budget : TaskBudgetProjection;
  xp_enqueue : EnqueueFact;
  xp_graph : MutableRevision;
  xp_lastSessionSeq : Z;
  xp_nodes : list (string * MutableNode);
  xp_attempts : gmap string MutableAttempt;
  xp_readyNodeIds : list string;
  xp_lease : option string;
  xp_status : TaskGraphStatus;
}.

(** [executionGraph] *)
Definition executionGraph (events : list DecodedStoredEvent) (revisions : list MutableRevision)
  : option MutableRevision :=
  let enqueuedRef e := match scope e with
                       | SessionScope (GraphEventData target (GraphEnqueued _ _ _)) => Some target
                       | _ => None
                       end in
  target ← head (omap enqueuedRef (reverse events));
  List.find (fun c => (mr_graphId c === gr_graph_id target) && (mr_revision c === gr_graph_revision target) &&
                      (mr_graphSha256 c === gr_graph_sha256 target)) revisions.

Section Projection.
Context (localeLe : jstring -> jstring -> bool).

Definition specLe (a b : MutableNode) : Prop := nodeLe localeLe (mn_node a) (mn_node b).
#[export] Instance specLe_dec a b : Decision (specLe a b).
Proof. unfold specLe. apply _. Defined.

(** The nodes in [Map] order, which is the order of the graph's nodes. *)
Definition nodesInOrder (content : TaskGraphRevisionContent) (st : ExecState) : list (string * MutableNode) :=
  omap (fun spec => pair (tn_nodeId spec) <$> xs_nodes st !! tn_nodeId spec) (tg_nodes content).

(** [ready] *)
Definition readyNodes (content : TaskGraphRevisionContent) (status : TaskGraphStatus) (st : ExecState)
  : list string :=
  if (xs_active st === None) && match xs_blocker st with None => true | Some _ => false end &&
     negb (xs_cancelRequested st) && bool_decide (status ∈ [g_queued; g_running])
  then (fun n => tn_nodeId (mn_node n)) <$>
       js_sort specLe (List.filter (isReady st) (snd <$> nodesInOrder content st))
  else [].

(** [TaskExecutionProjector.project], on the revisions of the graph projection. *)
Definition projectExecution (events : list DecodedStoredEvent) (revisions : list MutableRevision)
  : result ExecutionError (option TaskExecutionProjection) :=
  match executionGraph events revisions with
  | None => Ok None
  | Some graph =>
      let content := mr_content graph in
      let target := {| gr_graph_id := mr_graphId graph; gr_graph_revision := mr_revision graph;
                       gr_graph_sha256 := mr_graphSha256 graph |} in
      st ← runExec target content events;
      match xs_enqueue st with
      | None => Err no_enqueue_fact
      | Some enqueue =>
          let ready := readyNodes content (mr_status graph) st in
          let st := foldl (fun st id => updateNode id (fun n => n <| mn_status := n_ready |>) st) st ready in
          remaining ← subtract (limits (tg_graphBudget content)) (xs_consumed st) (xs_reserved st);
          Ok (Some {|
            xp_activeAttempt := activeAttempt st; xp_blocker := xs_blocker st;
            xp_budget := {| bp_consumed := xs_consumed st; bp_limits := limits (tg_graphBudget content);
                            bp_remaining := remaining; bp_reserved := xs_reserved st;
                            bp_usageCompleteness := xs_completeness st |};
            xp_enqueue := enqueue; xp_graph := graph; xp_lastSessionSeq := lastSeq events;
            xp_nodes := nodesInOrder content st; xp_attempts := xs_attempts st; xp_readyNodeIds := ready;
            xp_lease := xs_lease st; xp_status := mr_status graph |})
      end
  end.

(** [deterministicReadyQueue] of [task-ready-queue.ts] *)
Definition deterministicReadyQueue (execution : TaskExecutionProjection) : list MutableNode :=
  js_sort specLe (snd <$> List.filter (fun '(id, _) => bool_decide (id ∈ xp_readyNodeIds execution))
                               (xp_nodes execution)).
End Projection.

(** ** The budget ledger *)

(** [reservationForTaskNode] of [task-budget-ledger.ts] *)
Definition reservationForTaskNode (node : TaskNodeSpec) : TaskBudgetCounters :=
  let readOnly := match tn_kind node with AgentTaskNode mode_plan => true | _ => false end in
  let verification := match tn_kind node with VerificationTaskNode _ _ _ => true | _ => false end in
  let b := tn_budget node in
  {| bc_artifactBytes := maxArtifactBytes b;
     bc_attempts := 1;
     bc_changedBytes := if readOnly || verification then 0 else maxChangedBytes b;
     bc_changedFiles := if readOnly || verification then 0 else maxChangedFiles b;
     bc_commandExecutions := if readOnly then 0 else if verification then 1 else maxCommandExecutions b;
     bc_commandOutputBytes := if readOnly then 0 else maxCommandOutputBytes b;
     bc_durationMs := maxDurationMs b;
     bc_modelSteps := if verification then 0 else maxModelSteps b;
     bc_reportedTokens := if verification then Some 0 else maxReportedTokens b |}.

(** [taskBudgetCanReserve] *)
Definition taskBudgetCanReserve (budget : TaskBudgetProjection) (reservation : TaskBudgetCounters) : bool :=
  forallb (fun '(remaining, requested) =>
    match remaining with
    | None => true
    | Some m => match requested with Some r => r <=? m | None => false end
    end) (zip (counters (bp_remaining budget)) (counters reservation)).

(** [exhausted] of [DeterministicTaskScheduler.#admit]: the counter named by
    the [task_budget.exhausted] event; the code falls back on "attempts". *)
Definition exhaustedCounter (budget : TaskBudgetProjection) (held : TaskBudgetCounters) : string :=
  let names := ["attempts"; "duration_ms"; "model_steps"; "command_executions"; "command_output_bytes";
                "changed_files"; "changed_bytes"; "artifact_bytes"; "reported_tokens"]%string in
  let exceeds '(_, (requested, remaining)) :=
    match remaining, requested with Some m, Some r => m <? r | _, _ => false end in
  match List.find exceeds (zip names (zip (counters held) (counters (bp_remaining budget)))) with
  | Some (name, _) => name
  | None => "attempts"
  end.

(** [terminalStatus] and [terminalBlocker] of [deterministic-task-scheduler.ts] *)
Definition terminalStatus (terminal : AttemptTerminal) : GraphTerminalStatus :=
  match terminal with
  | t_cancelled_clean => gt_cancelled
  | t_blocked_reconciliation | t_blocked_unknown_effect => gt_blocked
  | _ => gt_failed
  end.
Definition terminalBlocker (terminal : AttemptTerminal) : option string :=
  match terminal with
  | t_blocked_unknown_effect => Some "task_effect_unknown"%string
  | t_blocked_reconciliation => Some "task_effect_reconciliation_required"%string
  | _ => None
  end.

(** [zeroConsumption] *)
Definition zeroConsumption (reservation : TaskBudgetCounters) : TaskBudgetCounters := {|
  bc_attempts := 1; bc_durationMs := 0; bc_modelSteps := 0; bc_commandExecutions := 0;
  bc_commandOutputBytes := 0; bc_changedFiles := 0; bc_changedBytes := 0; bc_artifactBytes := 0;
  bc_reportedTokens := match bc_reportedTokens reservation with None => None | Some _ => Some 0 end |}.
