(* ===== verification/TaskExecutionFacts.v ===== *)
(** * What the execution projector guarantees

    The budget of a graph is never exceeded, one attempt is active at a time,
    a node is attempted only after all its dependencies have succeeded, and
    the scheduler's reservation test is the projector's admission test. *)

From S2P Require Import Prelude JsString Domain Events TaskState Schemas TaskGraphSchema TaskGraph TaskExecution.
From stdpp Require Import sorting.
#[local] Open Scope Z_scope.

(** ** Counters *)

(** [within], counter by counter. *)
Definition tokens_within (used held maximum : option Z) : Prop :=
  match maximum with
  | None => True
  | Some m => match used, held with Some u, Some h => u + h <= m | _, _ => False end
  end.

Lemma within_spec c r l :
  within c r l = true <->
  bc_attempts c + bc_attempts r <= bc_attempts l /\ bc_durationMs c + bc_durationMs r <= bc_durationMs l /\
  bc_modelSteps c + bc_modelSteps r <= bc_modelSteps l /\
  bc_commandExecutions c + bc_commandExecutions r <= bc_commandExecutions l /\
  bc_commandOutputBytes c + bc_commandOutputBytes r <= bc_commandOutputBytes l /\
  bc_changedFiles c + bc_changedFiles r <= bc_changedFiles l /\
  bc_changedBytes c + bc_changedBytes r <= bc_changedBytes l /\
  bc_artifactBytes c + bc_artifactBytes r <= bc_artifactBytes l /\
  tokens_within (bc_reportedTokens c) (bc_reportedTokens r) (bc_reportedTokens l).
Proof.
  unfold within, counters, tokens_within. simpl. rewrite !andb_true_iff, !Z.leb_le.
  destruct (bc_reportedTokens l), (bc_reportedTokens c), (bc_reportedTokens r); simpl;
    rewrite ?Z.leb_le; intuition (discriminate || lia || auto).
Qed.

(** A reservation that is released for what was used of it. *)
Lemma within_release c r u held l :
  within c r l = true ->
  within u (zero match bc_reportedTokens u with None => None | Some _ => Some 0 end) held = true ->
  (bc_reportedTokens l <> None -> bc_reportedTokens held <> None) ->
  within (addCounters c u) (subCounters r held) l = true.
Proof.
  rewrite !within_spec. unfold tokens_within. simpl. intros H1 H2 Ht. destruct_and!.
  split_and!; try lia.
  destruct (bc_reportedTokens l) as [m|]; [|done]. specialize (Ht ltac:(done)).
  destruct (bc_reportedTokens c), (bc_reportedTokens r), (bc_reportedTokens held), (bc_reportedTokens u);
    simpl in *; done || lia.
Qed.

Lemma subtract_within l c r :
  within c r l = true -> subtract l c r = Ok (subCounters (subCounters l c) r).
Proof.
  rewrite within_spec. unfold tokens_within. intros H. destruct_and!. unfold subtract.
  match goal with |- (if ?b then _ else _) = _ => assert (b = false) as ->; [|done] end.
  unfold counters. simpl. rewrite !orb_false_iff, !Z.ltb_ge.
  destruct (bc_reportedTokens l), (bc_reportedTokens c), (bc_reportedTokens r); simpl;
    rewrite ?orb_false_iff, ?Z.ltb_ge; split_and!; try lia; done.
Qed.

(** What a graph holds in reserve: nothing, or the active attempt's reservation. *)
Definition heldFor (budget : TaskGraphBudget) (active : option MutableAttempt) : TaskBudgetCounters :=
  match active with
  | None => zero (initialTokens budget)
  | Some a => addCounters (zero (initialTokens budget)) (ma_reservation a)
  end.

Lemma within_tokens budget c r held :
  within c (addCounters r held) (limits budget) = true ->
  bc_reportedTokens (limits budget) <> None -> bc_reportedTokens held <> None.
Proof.
  rewrite within_spec. unfold tokens_within. intros H. destruct_and!. simpl in *.
  destruct (maxReportedTokens budget); [|done]. intros _.
  destruct (bc_reportedTokens held); [done|].
  destruct (bc_reportedTokens c), (bc_reportedTokens r); done.
Qed.

Lemma release_held budget a :
  (bc_reportedTokens (limits budget) <> None -> bc_reportedTokens (ma_reservation a) <> None) ->
  subCounters (heldFor budget (Some a)) (ma_reservation a) = zero (initialTokens budget).
Proof.
  intros Ht. simpl. unfold subCounters, addCounters, zipCounters, zero. simpl in *.
  f_equal; try lia. unfold initialTokens in *. simpl in *.
  destruct (maxReportedTokens budget); [|done]. specialize (Ht ltac:(done)).
  destruct (bc_reportedTokens (ma_reservation a)); [|done]. simpl. f_equal. lia.
Qed.

(** ** The invariant *)

Definition busy (s : TaskNodeExecutionStatus) : Prop := s ∈ [n_leased; n_running; n_waiting_for_user].

Lemma busy_spec s : busy s <-> match s with n_leased | n_running | n_waiting_for_user => True | _ => False end.
Proof.
  unfold busy. rewrite !elem_of_cons, elem_of_nil. destruct s; intuition discriminate.
Qed.

Lemma idle_spec s : s ∈ [n_pending; n_skipped] -> ~ busy s /\ s <> n_succeeded /\ s <> n_ready.
Proof.
  rewrite busy_spec, !elem_of_cons, elem_of_nil. destruct s; intuition discriminate.
Qed.

Section Inv.
Context (budget : TaskGraphBudget).

Record exec_inv (st : ExecState) : Prop := {
  xi_budget : within (xs_consumed st) (xs_reserved st) (limits budget) = true;
  xi_reserved : xs_reserved st = heldFor budget (activeAttempt st);
  xi_tokens : forall a, activeAttempt st = Some a -> bc_reportedTokens (limits budget) <> None ->
                bc_reportedTokens (ma_reservation a) <> None;
  xi_key : forall id n, xs_nodes st !! id = Some n -> tn_nodeId (mn_node n) = id;
  xi_ids : forall a x, xs_attempts st !! a = Some x -> ma_attemptId x = a;
  xi_active : forall a, xs_active st = Some a -> exists x n, xs_attempts st !! a = Some x /\
                ma_status x <> a_terminal /\ xs_nodes st !! ma_nodeId x = Some n /\
                busy (mn_status n) /\ last (mn_attempts n) = Some a;
  xi_idle : forall a x, xs_attempts st !! a = Some x -> xs_active st <> Some a -> ma_status x = a_terminal;
  xi_busy : forall id n, xs_nodes st !! id = Some n -> busy (mn_status n) ->
              exists x, activeAttempt st = Some x /\ ma_nodeId x = id;
  xi_done : forall id n, xs_nodes st !! id = Some n -> mn_status n = n_succeeded ->
              exists a x, last (mn_attempts n) = Some a /\ xs_attempts st !! a = Some x /\
                ma_terminal x = Some t_succeeded /\ ma_status x = a_terminal;
  xi_deps : forall id n d, xs_nodes st !! id = Some n -> mn_attempts n <> [] ->
              d ∈ tn_dependsOn (mn_node n) -> nodeStatus st d = Some n_succeeded;
  xi_ready : forall id n, xs_nodes st !! id = Some n -> mn_status n <> n_ready;
  xi_known : forall id n a, xs_nodes st !! id = Some n -> a ∈ mn_attempts n -> is_Some (xs_attempts st !! a);
}.

(** The fields the invariant reads. *)
Lemma exec_inv_ext st st' :
  xs_nodes st' = xs_nodes st -> xs_attempts st' = xs_attempts st -> xs_active st' = xs_active st ->
  xs_consumed st' = xs_consumed st -> xs_reserved st' = xs_reserved st -> exec_inv st -> exec_inv st'.
Proof.
  intros En Ea Ec Eb Er [].
  assert (activeAttempt st' = activeAttempt st) as E by (unfold activeAttempt; by rewrite Ec, Ea).
  assert (forall d, nodeStatus st' d = nodeStatus st d) as Es by (intros; unfold nodeStatus; by rewrite En).
  split; rewrite ?E, ?En, ?Ea, ?Ec, ?Eb, ?Er; try done. intros. rewrite Es. eauto.
Qed.

Lemma activeAttempt_Some st x :
  exec_inv st -> activeAttempt st = Some x -> xs_active st = Some (ma_attemptId x) /\
    xs_attempts st !! ma_attemptId x = Some x.
Proof.
  intros Hi H. unfold activeAttempt in H. destruct (xs_active st) as [a|]; [|done].
  by rewrite (xi_ids st Hi a x H).
Qed.

Lemma matchesActive_Some st a n x :
  exec_inv st -> matchesActive st a n = Some x ->
  activeAttempt st = Some x /\ xs_active st = Some (ma_attemptId x) /\
  xs_attempts st !! ma_attemptId x = Some x.
Proof.
  unfold matchesActive. intros Hi H. destruct (activeAttempt st) as [y|] eqn:E; [|done].
  case_match; [|done]. injection H as ->. split; [done|]. by apply activeAttempt_Some.
Qed.

(** Changing a node that has not succeeded keeps the succeeded ones. *)
Lemma succeeded_alter (nodes : gmap string MutableNode) id f n d :
  nodes !! id = Some n -> mn_status n <> n_succeeded ->
  mn_status <$> nodes !! d = Some n_succeeded -> mn_status <$> alter f id nodes !! d = Some n_succeeded.
Proof.
  intros Hn Hs Hd. destruct (decide (d = id)) as [->|Hne].
  - rewrite Hn in Hd. simpl in Hd. congruence.
  - by rewrite lookup_alter_ne by done.
Qed.

Lemma alter_Some {A} (m : gmap string A) id f j x :
  alter f id m !! j = Some x -> (j = id /\ exists y, m !! id = Some y /\ x = f y) \/ (j <> id /\ m !! j = Some x).
Proof.
  destruct (decide (j = id)) as [->|Hne].
  - rewrite lookup_alter_eq. destruct (m !! id); [|done]. intros [= <-]. eauto.
  - rewrite lookup_alter_ne by done. auto.
Qed.

(** ** Changes of status of the active attempt: started, waiting *)

Lemma exec_inv_active st x fn fa :
  exec_inv st -> activeAttempt st = Some x ->
  (forall n, busy (mn_status (fn n)) /\ mn_attempts (fn n) = mn_attempts n /\ mn_node (fn n) = mn_node n) ->
  (ma_status (fa x) <> a_terminal /\ ma_attemptId (fa x) = ma_attemptId x /\ ma_nodeId (fa x) = ma_nodeId x /\
   ma_reservation (fa x) = ma_reservation x) ->
  exec_inv (updateNode (ma_nodeId x) fn (updateAttempt (ma_attemptId x) fa st)).
Proof.
  intros Hi Hx Hfn (Hf1 & Hf2 & Hf3 & Hf4). pose proof Hi as [B R T K I A J Y D P Q W].
  destruct (activeAttempt_Some st x Hi Hx) as [Hact Hat].
  destruct (A _ Hact) as (x' & n & Hx' & _ & Hn & Hb & Hl). assert (x' = x) as -> by congruence.
  assert (Hact' : activeAttempt (updateNode (ma_nodeId x) fn (updateAttempt (ma_attemptId x) fa st)) = Some (fa x)).
  { unfold activeAttempt. simpl. rewrite Hact. by rewrite lookup_alter_eq, Hat. }
  assert (Hnb : mn_status n <> n_succeeded) by (by intros E; rewrite busy_spec, E in Hb).
  split; try (rewrite Hact'); simpl.
  - done.
  - rewrite R, Hx. simpl. by rewrite Hf4.
  - intros a [= <-]. rewrite Hf4. by apply T.
  - intros id m [(-> & m' & Hm' & ->)|[_ Hm]]%alter_Some; [|eauto].
    destruct (Hfn m') as (_ & _ & ->). eauto.
  - intros a y [(-> & y' & Hy' & ->)|[_ Hy]]%alter_Some; [|eauto]. congruence.
  - intros a Ha. assert (a = ma_attemptId x) as -> by congruence.
    exists (fa x), (fn n). rewrite lookup_alter_eq, Hat, Hf3, lookup_alter_eq, Hn.
    destruct (Hfn n) as (? & -> & _). done.
  - intros a y [(-> & y' & Hy' & ->)|[_ Hy]]%alter_Some Hna; [congruence|eauto].
  - intros id m [(-> & m' & Hm' & ->)|[Hne Hm]]%alter_Some Hbm.
    + exists (fa x). done.
    + destruct (Y id m Hm Hbm) as (z & Hz & Hzn). assert (z = x) as -> by congruence. congruence.
  - intros id m [(-> & m' & Hm' & ->)|[Hne Hm]]%alter_Some Hs.
    + exfalso. destruct (Hfn m') as (Hb' & _). by rewrite busy_spec, Hs in Hb'.
    + destruct (D id m Hm Hs) as (a & y & ? & Hy & ? & Ht). exists a, y. split; [done|].
      rewrite lookup_alter_ne; [done|]. intros <-.
      destruct (A _ Hact) as (z & ? & Hz & Hzt & _). congruence.
  - intros id m d [(-> & m' & Hm' & ->)|[Hne Hm]]%alter_Some.
    + destruct (Hfn m') as (_ & -> & ->). intros Hat' Hd. apply (succeeded_alter _ _ _ n); [done|done|].
      by apply (P (ma_nodeId x) m').
    + intros Hat' Hd. apply (succeeded_alter _ _ _ n); [done|done|]. by apply (P id m).
  - intros id m [(-> & m' & Hm' & ->)|[Hne Hm]]%alter_Some; [|eauto].
    destruct (Hfn m') as (Hb' & _). intros E. by rewrite busy_spec, E in Hb'.
  - intros id m a [(-> & m' & Hm' & ->)|[Hne Hm]]%alter_Some Ha.
    + destruct (Hfn m') as (_ & E & _). rewrite E in Ha. rewrite lookup_alter_is_Some. eauto.
    + rewrite lookup_alter_is_Some. eauto.
Qed.

(** ** Changes of a node that is neither busy nor done: retried, skipped *)

Lemma exec_inv_idle_node st id n f :
  exec_inv st -> xs_nodes st !! id = Some n -> ~ busy (mn_status n) -> mn_status n <> n_succeeded ->
  mn_attempts (f n) = mn_attempts n -> mn_node (f n) = mn_node n ->
  mn_status (f n) ∈ [n_pending; n_skipped] ->
  exec_inv (updateNode id f st).
Proof.
  intros Hi Hn Hnb Hns Ha Hnode Hf. pose proof Hi as [B R T K I A J Y D P Q W].
  assert (Hfs : ~ busy (mn_status (f n)) /\ mn_status (f n) <> n_succeeded /\ mn_status (f n) <> n_ready).
  { by apply idle_spec. }
  destruct Hfs as (Hfb & Hfs & Hfr).
  split; simpl; try done.
  - intros j m [(-> & m' & Hm' & ->)|[_ Hm]]%alter_Some; [|eauto]. simplify_eq. rewrite Hnode. eauto.
  - intros a Hact. destruct (A a Hact) as (x & m & Hx & Hs & Hm & Hb & Hl).
    exists x, m. split; [done|]. split; [done|]. rewrite lookup_alter_ne by (intros ->; simplify_eq; done). done.
  - intros j m [(-> & m' & Hm' & ->)|[Hne Hm]]%alter_Some Hb; [simplify_eq; done|].
    by destruct (Y j m Hm Hb) as (x & ? & ?); exists x.
  - intros j m [(-> & m' & Hm' & ->)|[Hne Hm]]%alter_Some Hs; [simplify_eq; done|eauto].
  - intros j m d [(-> & m' & Hm' & ->)|[Hne Hm]]%alter_Some Hat Hd;
      (apply (succeeded_alter _ _ _ n); [done|done|]).
    + simplify_eq. rewrite Ha in Hat. rewrite Hnode in Hd. by apply (P id n).
    + by apply (P j m).
  - intros j m [(-> & m' & Hm' & ->)|[Hne Hm]]%alter_Some; [simplify_eq; done|eauto].
  - intros j m a [(-> & m' & Hm' & ->)|[Hne Hm]]%alter_Some Hin; [|eauto].
    simplify_eq. rewrite Ha in Hin. eauto.
Qed.

Lemma requestRetry_inv event data st st' :
  requestRetry event data st = Ok st' -> exec_inv st -> exec_inv st'.
Proof.
  intros H Hi. unfold requestRetry in H. destruct (xs_nodes st !! _) as [n|] eqn:Hn; [|done].
  destruct (jsAt _ _ ≫= _) as [previous|]; [|done].
  apply bind_ok in H as (? & Hc%throw_when_ok & H). injection H as <-.
  apply orb_false_iff in Hc as [Hc _]. apply orb_false_iff in Hc as [_ Hs].
  apply negb_false_iff, bool_decide_eq_true in Hs.
  eapply (exec_inv_ext (updateNode (rrd_node_id data) (fun n => n <| mn_status := n_pending |>
    <| mn_nextAttemptOrigin := Some retry_user |> <| mn_terminalEventId := None |>) st)); try done.
  apply (exec_inv_idle_node _ _ n); try done.
  - rewrite Hs, busy_spec. case_bool_decide; tauto.
  - rewrite Hs. by case_bool_decide.
  - simpl. by left.
Qed.

Lemma skipNode_inv event id roots st st' :
  skipNode event id roots st = Ok st' -> exec_inv st -> exec_inv st'.
Proof.
  intros H Hi. unfold skipNode in H. apply bind_ok in H as (? & Hc%throw_when_ok & H). injection H as <-.
  destruct (xs_nodes st !! id) as [n|] eqn:Hn; [|done].
  apply orb_false_iff in Hc as [Hs _]. apply negb_false_iff, bool_decide_eq_true in Hs.
  apply (exec_inv_idle_node _ _ n); try done.
  - rewrite Hs, busy_spec. tauto.
  - by rewrite Hs.
  - simpl. right. by left.
Qed.

(** ** A new attempt *)

Lemma requestAttempt_inv event data st st' :
  requestAttempt budget event data st = Ok st' -> exec_inv st -> exec_inv st'.
Proof.
  intros H Hi. unfold requestAttempt in H. pose proof Hi as [B R T K I A J Y D P Q W].
  destruct (xs_nodes st !! arq_node_id data) as [n|] eqn:Hn; [|done].
  apply bind_ok in H as ([] & Hc%throw_when_ok & H).
  apply bind_ok in H as ([] & Hw%throw_when_ok%negb_false_iff & H).
  apply bind_ok in H as ([] & _ & H). injection H as <-.
  apply orb_false_iff in Hc as [Hc Hfresh]. apply orb_false_iff in Hc as [Hc _].
  apply orb_false_iff in Hc as [Hc Hready]. apply orb_false_iff in Hc as [Hna _].
  apply negb_false_iff, bool_decide_eq_true in Hna. apply negb_false_iff in Hready.
  assert (Hfr : xs_attempts st !! arq_attempt_id data = None) by (by destruct (xs_attempts st !! _)).
  unfold isReady in Hready. apply andb_true_iff in Hready as [Hp Hdeps].
  apply bool_decide_eq_true in Hp. rewrite forallb_forall in Hdeps.
  assert (Hact : activeAttempt st = None) by (unfold activeAttempt; by rewrite Hna).
  set (x := {| ma_attemptId := arq_attempt_id data; ma_attemptNumber := arq_attempt_number data;
    ma_nodeId := arq_node_id data; ma_requestEventId := eventId event; ma_reservation := arq_reservation data;
    ma_retryOrigin := arq_retry_origin data; ma_runId := None; ma_startEventId := None;
    ma_status := a_requested; ma_terminal := None; ma_terminalEventId := None;
    ma_workspaceBinding := arq_workspace_binding data |}).
  set (f := fun n => n <| mn_attempts := mn_attempts n ++ [arq_attempt_id data] |> <| mn_status := n_leased |>).
  assert (Hold : forall a y, xs_attempts st !! a = Some y -> a <> arq_attempt_id data) by congruence.
  split; unfold activeAttempt; simpl.
  - done.
  - rewrite lookup_insert_eq, R, Hact. done.
  - rewrite lookup_insert_eq. intros a [= <-]. simpl. by eapply within_tokens.
  - intros id m [(-> & m' & Hm' & ->)|[_ Hm]]%alter_Some; [simpl|]; eauto.
  - intros a y. rewrite lookup_insert. case_decide; [intros [= <-]; by subst|apply I].
  - intros a [= <-]. exists x, (f n). rewrite lookup_insert_eq, lookup_alter_eq, Hn. split_and!; try done.
    + by rewrite busy_spec.
    + simpl. by rewrite last_snoc.
  - intros a y. rewrite lookup_insert. case_decide; [congruence|]. intros Hy _. apply (J a y Hy). congruence.
  - intros id m [(-> & m' & Hm' & ->)|[Hne Hm]]%alter_Some Hb.
    + exists x. by rewrite lookup_insert_eq.
    + destruct (Y id m Hm Hb) as (z & Hz & _). congruence.
  - intros id m [(-> & m' & Hm' & ->)|[Hne Hm]]%alter_Some Hs; [done|].
    destruct (D id m Hm Hs) as (a & y & ? & Hy & ?). exists a, y.
    rewrite lookup_insert_ne by (symmetry; by eapply Hold). done.
  - intros id m d [(-> & m' & Hm' & ->)|[Hne Hm]]%alter_Some Hat Hd;
      (apply (succeeded_alter _ _ _ n); [done|by rewrite Hp|]).
    + simplify_eq. simpl in Hd. apply list_elem_of_In in Hd. specialize (Hdeps d Hd).
      by apply bool_decide_eq_true in Hdeps.
    + by apply (P id m).
  - intros id m [(-> & m' & Hm' & ->)|[Hne Hm]]%alter_Some; [done|eauto].
  - intros id m a [(-> & m' & Hm' & ->)|[Hne Hm]]%alter_Some Ha; rewrite lookup_insert; case_decide; eauto.
    simpl in Ha. apply elem_of_app in Ha as [Ha|Ha%list_elem_of_singleton]; [eauto|congruence].
Qed.

(** ** The end of an attempt *)

Lemma terminateAttempt_inv event data st st' :
  terminateAttempt event data st = Ok st' -> exec_inv st -> exec_inv st'.
Proof.
  intros H Hi. unfold terminateAttempt in H. pose proof Hi as [B R T K I A J Y D P Q W].
  destruct (matchesActive st _ _) as [x|] eqn:Hm; [|done].
  apply bind_ok in H as ([] & Hused%throw_when_ok%negb_false_iff & H). injection H as <-.
  destruct (matchesActive_Some st _ _ x Hi Hm) as (Hx & Hact & Hat).
  destruct (A _ Hact) as (x' & n & Hx' & Hns & Hn & Hb & Hl). assert (x' = x) as -> by congruence.
  assert (Hnsucc : mn_status n <> n_succeeded) by (by intros E; rewrite busy_spec, E in Hb).
  rewrite Hn. cbv zeta.
  match goal with |- context [alter ?f (ma_nodeId x) _] => set (fn := f) end.
  match goal with |- context [alter ?f (ma_attemptId x) _] => set (fa := f) end.
  assert (Hfn : mn_attempts (fn n) = mn_attempts n /\ mn_node (fn n) = mn_node n /\
    ~ busy (mn_status (fn n)) /\ mn_status (fn n) <> n_ready /\
    (mn_status (fn n) = n_succeeded -> atd_terminal data = t_succeeded)).
  { unfold fn. clear. generalize (Z.of_nat (length (mn_attempts n))). intros k.
    match goal with |- context [(atd_terminal data === ?t) && ?e] => destruct ((atd_terminal data === t) && e) end;
      rewrite busy_spec; simpl; [|destruct (atd_terminal data)]; simpl;
      (split_and!; [done|done|tauto|done|done]). }
  destruct Hfn as (Hfa & Hfnode & Hfb & Hfr & Hfs).
  assert (Hother : forall a y, xs_attempts st !! a = Some y -> a <> ma_attemptId x ->
    alter fa (ma_attemptId x) (xs_attempts st) !! a = Some y) by (intros; by rewrite lookup_alter_ne).
  split; unfold activeAttempt; simpl; try done.
  - by apply within_release; [..|by apply T].
  - rewrite R, Hx. apply release_held. by apply T.
  - intros id m [(-> & m' & Hm' & ->)|[_ Hm']]%alter_Some; [|eauto]. simplify_eq. rewrite Hfnode. eauto.
  - intros a y [(-> & y' & Hy' & ->)|[_ Hy]]%alter_Some; [|eauto]. simpl. congruence.
  - intros a y [(-> & y' & Hy' & ->)|[Hne Hy]]%alter_Some _; [done|]. apply (J a y Hy). congruence.
  - intros id m [(-> & m' & Hm' & ->)|[Hne Hm']]%alter_Some Hbm; [by simplify_eq|].
    destruct (Y id m Hm' Hbm) as (z & Hz & Hzn). congruence.
  - intros id m [(-> & m' & Hm' & ->)|[Hne Hm']]%alter_Some Hs.
    + simplify_eq. exists (ma_attemptId x), (fa x). rewrite Hfa, lookup_alter_eq, Hat. split_and!; try done.
      simpl. f_equal. by apply Hfs.
    + destruct (D id m Hm' Hs) as (a & y & ? & Hy & ? & Hyt). exists a, y. split; [done|].
      split; [|done]. apply Hother; [done|]. intros ->. congruence.
  - intros id m d [(-> & m' & Hm' & ->)|[Hne Hm']]%alter_Some Hat' Hd;
      (apply (succeeded_alter _ _ _ n); [done|done|]).
    + simplify_eq. rewrite Hfa in Hat'. rewrite Hfnode in Hd. by apply (P (ma_nodeId x) n).
    + by apply (P id m).
  - intros id m [(-> & m' & Hm' & ->)|[Hne Hm']]%alter_Some; [by simplify_eq|eauto].
  - intros id m a [(-> & m' & Hm' & ->)|[Hne Hm']]%alter_Some Ha; rewrite lookup_alter_is_Some; [|eauto].
    simplify_eq. rewrite Hfa in Ha. eauto.
Qed.

Lemma exec_event_inv event g st st' :
  exec_event budget event g st = Ok st' -> exec_inv st -> exec_inv st'.
Proof.
  intros H Hi. destruct g; simpl in H;
    try (returns; by (done || (eapply exec_inv_ext; [..|exact Hi]; done))).
  - (* terminal *)
    apply bind_ok in H as (? & _ & H). injection H as <-.
    destruct blocker_code; (eapply exec_inv_ext; [..|exact Hi]; done).
  - by eapply requestAttempt_inv.
  - destruct (matchesActive st _ _) as [x|] eqn:Hm; [|done]. apply bind_ok in H as (? & _ & H).
    injection H as <-. destruct (matchesActive_Some st _ _ x Hi Hm) as (Hx & _ & _).
    apply (exec_inv_active st x); try done. intros n. by rewrite busy_spec.
  - destruct (matchesActive st _ _) as [x|] eqn:Hm; [|done].
    injection H as <-. destruct (matchesActive_Some st _ _ x Hi Hm) as (Hx & _ & _).
    apply (exec_inv_active st x); try done. intros n. by rewrite busy_spec.
  - by eapply terminateAttempt_inv.
  - by eapply requestRetry_inv.
  - by eapply skipNode_inv.
Qed.

Lemma exec_step_inv target st e st' :
  exec_step target budget st e = Ok st' -> exec_inv st -> exec_inv st'.
Proof.
  unfold exec_step. intros H Hi. destruct (scope e) as [|[]]; try (injection H as <-; exact Hi).
  case_match; [by eapply exec_event_inv|by injection H as <-].
Qed.
End Inv.

(** ** The initial state and the fold *)

Lemma insert_nodes specs (m : gmap string MutableNode) id n :
  foldl (fun m spec => <[tn_nodeId spec := newNode spec]> m) m specs !! id = Some n ->
  m !! id = Some n \/ exists spec, spec ∈ specs /\ tn_nodeId spec = id /\ n = newNode spec.
Proof.
  revert m. induction specs as [|spec specs IH]; simpl; intros m H; [by left|].
  apply IH in H as [H|(spec' & ? & ? & ?)].
  - rewrite lookup_insert in H. case_decide; [|by left]. injection H as <-. right. exists spec. set_solver.
  - right. exists spec'. set_solver.
Qed.

Lemma insert_nodes_total specs (m : gmap string MutableNode) id :
  is_Some (m !! id) \/ id ∈ (tn_nodeId <$> specs) ->
  is_Some (foldl (fun m spec => <[tn_nodeId spec := newNode spec]> m) m specs !! id).
Proof.
  revert m. induction specs as [|spec specs IH]; simpl; intros m H; [set_solver|].
  apply IH. rewrite lookup_insert. case_decide; [by left|]. rewrite elem_of_cons in H. naive_solver.
Qed.

Lemma init_nodes content id n :
  xs_nodes (exec_init content) !! id = Some n ->
  exists spec, spec ∈ tg_nodes content /\ tn_nodeId spec = id /\ n = newNode spec.
Proof. intros [H|H]%insert_nodes; [by rewrite lookup_empty in H|done]. Qed.

Lemma valid_budget_zero budget :
  taskGraphBudgetSchema budget = true ->
  within (zero (initialTokens budget)) (zero (initialTokens budget)) (limits budget) = true.
Proof.
  unfold taskGraphBudgetSchema, positiveSafeInteger, nonnegativeSafeInteger. rewrite !andb_true_iff, !Z.leb_le.
  intros H. destruct_and!. apply within_spec. unfold tokens_within, initialTokens. simpl. split_and!; try lia.
  destruct (maxReportedTokens budget); [|done]. rewrite !andb_true_iff, !Z.leb_le in *. lia.
Qed.

Lemma exec_inv_init content :
  taskGraphBudgetSchema (tg_graphBudget content) = true ->
  exec_inv (tg_graphBudget content) (exec_init content).
Proof.
  intros Hb. pose proof (init_nodes content) as Hn. split.
  - by apply valid_budget_zero.
  - done.
  - done.
  - intros id n (spec & _ & <- & ->)%Hn. done.
  - done.
  - done.
  - done.
  - intros id n (spec & _ & <- & ->)%Hn. by rewrite busy_spec.
  - by intros id n (spec & _ & <- & ->)%Hn.
  - by intros id n d (spec & _ & <- & ->)%Hn.
  - by intros id n (spec & _ & <- & ->)%Hn.
  - intros id n a (spec & _ & <- & ->)%Hn Ha. simpl in Ha. set_solver.
Qed.

Lemma runExec_inv target content events st :
  taskGraphBudgetSchema (tg_graphBudget content) = true ->
  runExec target content events = Ok st -> exec_inv (tg_graphBudget content) st.
Proof.
  intros Hb H. eapply (foldM_invariant _ (exec_inv (tg_graphBudget content))); [| |exact H].
  - intros x e y _ Hi Hs. by eapply exec_step_inv.
  - by apply exec_inv_init.
Qed.
