(* ===== verification/TaskExecutionProperties.v ===== *)
(** * The execution projector: the properties

    Each theorem is about every event list on which the projector of
    [task-execution-projector.ts] returns; [ExecLog] is the concrete run the
    witnesses use. *)

From S2P Require Import Prelude JsString CanonicalJson Domain Events TaskState Schemas TaskGraphSchema TaskGraphTopology TaskGraph TaskExecution TaskExecutionFacts.
From stdpp Require Import sorting.
#[local] Open Scope Z_scope.

(** ** The nodes never change *)

Lemma alter_node (m : gmap string MutableNode) f i id :
  (forall n, mn_node (f n) = mn_node n) -> mn_node <$> alter f i m !! id = mn_node <$> m !! id.
Proof.
  intros Hf. destruct (decide (i = id)) as [->|]; [|by rewrite lookup_alter_ne].
  rewrite lookup_alter_eq. destruct (m !! id); simpl; [by rewrite Hf|done].
Qed.

Lemma exec_event_node budget event g st st' id :
  exec_event budget event g st = Ok st' -> mn_node <$> xs_nodes st' !! id = mn_node <$> xs_nodes st !! id.
Proof.
  intros H. destruct g; simpl in H.
  all: unfold requestAttempt, terminateAttempt, requestRetry, skipNode in H.
  all: repeat match type of H with
       | match ?o with Some _ => _ | None => _ end = Ok _ => destruct o eqn:?; [|try discriminate H]
       | mbind _ _ = Ok _ => apply bind_ok in H as (? & ? & H)
       end.
  all: try (injection H as <-; simpl; first [done | apply alter_node; intros; simpl; by repeat case_match]).
  all: try (destruct blocker_code; by injection H as <-).
Qed.

Lemma runExec_node target content events st id :
  runExec target content events = Ok st ->
  mn_node <$> xs_nodes st !! id = mn_node <$> xs_nodes (exec_init content) !! id.
Proof.
  intros H. symmetry.
  eapply (foldM_invariant _ (fun st => mn_node <$> xs_nodes (exec_init content) !! id = mn_node <$> xs_nodes st !! id));
    [|done|exact H].
  intros x e y _ Hi Hx. unfold exec_step in Hx. destruct (scope e) as [|[]]; try (injection Hx as <-; exact Hi).
  case_match; [|by injection Hx as <-]. by rewrite (exec_event_node _ _ _ _ _ _ Hx).
Qed.

Lemma runExec_nodes target content events st spec :
  runExec target content events = Ok st -> spec ∈ tg_nodes content ->
  exists n, xs_nodes st !! tn_nodeId spec = Some n.
Proof.
  intros H Hs. pose proof (runExec_node _ _ _ _ (tn_nodeId spec) H) as E.
  assert (Hn : is_Some (xs_nodes (exec_init content) !! tn_nodeId spec)).
  { apply insert_nodes_total. right. by apply list_elem_of_fmap_2. }
  destruct Hn as [n Hn]. rewrite Hn in E. destruct (xs_nodes st !! tn_nodeId spec); [eauto|done].
Qed.

Lemma runExec_key target content events st id n :
  runExec target content events = Ok st -> xs_nodes st !! id = Some n ->
  tn_nodeId (mn_node n) = id /\ mn_node n ∈ tg_nodes content.
Proof.
  intros H Hn. pose proof (runExec_node _ _ _ _ id H) as E. rewrite Hn in E.
  destruct (xs_nodes (exec_init content) !! id) as [m|] eqn:Hm; [|done].
  apply init_nodes in Hm as (spec & Hs & <- & ->). injection E as E. by rewrite E.
Qed.

(** ** Marking the ready nodes *)

Lemma mark_ready ready st id :
  xs_nodes (foldl (fun st id => updateNode id (fun n => n <| mn_status := n_ready |>) st) st ready) !! id =
  (fun n => if bool_decide (id ∈ ready) then n <| mn_status := n_ready |> else n) <$> xs_nodes st !! id.
Proof.
  revert st. induction ready as [|r ready IH]; intros st; simpl; [by destruct (xs_nodes st !! id)|].
  rewrite IH. unfold updateNode. simpl. destruct (decide (r = id)) as [->|Hne].
  - rewrite lookup_alter_eq. rewrite (bool_decide_eq_true_2 (id ∈ id :: ready)) by set_solver.
    destruct (xs_nodes st !! id); simpl; [|done]. by case_bool_decide.
  - rewrite lookup_alter_ne by done. destruct (xs_nodes st !! id); simpl; [|done].
    f_equal. apply (f_equal (fun b : bool => if b then _ else _)). apply bool_decide_ext. set_solver.
Qed.

(** The nodes that are ready, in map order. *)
Lemma ready_filter (st st' : ExecState) (ready : list string) specs :
  (forall id n, id ∈ tn_nodeId <$> specs -> xs_nodes st !! id = Some n ->
    isReady st n = bool_decide (id ∈ ready) /\
    exists n', xs_nodes st' !! id = Some n' /\ mn_node n' = mn_node n) ->
  (forall id, id ∈ tn_nodeId <$> specs -> is_Some (xs_nodes st !! id)) ->
  Forall2 (fun n n' => mn_node n = mn_node n')
    (List.filter (isReady st) (snd <$> omap (fun spec => pair (tn_nodeId spec) <$> xs_nodes st !! tn_nodeId spec) specs))
    (snd <$> List.filter (fun '(id, _) => bool_decide (id ∈ ready))
      (omap (fun spec => pair (tn_nodeId spec) <$> xs_nodes st' !! tn_nodeId spec) specs)).
Proof.
  induction specs as [|spec specs IH]; intros H Hs; simpl; [constructor|].
  destruct (Hs (tn_nodeId spec)) as [n Hn]; [set_solver|].
  destruct (H (tn_nodeId spec) n) as (Hr & n' & Hn' & E); [set_solver|done|].
  rewrite Hn, Hn'. simpl. rewrite Hr.
  assert (IH' := IH ltac:(intros; apply H; set_solver) ltac:(intros; apply Hs; set_solver)).
  case_bool_decide; simpl; [by constructor|done].
Qed.

(** ** Budget *)

(** One counter of a projection: what is used, held and left adds up to the limit. *)
Definition accounted (limit consumed reserved remaining : option Z) : Prop :=
  match limit with
  | None => True
  | Some m => exists c r k, consumed = Some c /\ reserved = Some r /\ remaining = Some k /\ 0 <= k /\ c + r + k = m
  end.

Definition validBudgets (revisions : list MutableRevision) : Prop :=
  Forall (fun r => taskGraphBudgetSchema (tg_graphBudget (mr_content r)) = true) revisions.

Lemma executionGraph_elem events revisions r : executionGraph events revisions = Some r -> r ∈ revisions.
Proof.
  unfold executionGraph. intros H. apply bind_Some in H as (t & _ & H).
  apply List.find_some in H as [H _]. by apply list_elem_of_In.
Qed.

Lemma mark_fields ready st :
  let st' := foldl (fun st id => updateNode id (fun n => n <| mn_status := n_ready |>) st) st ready in
  xs_consumed st' = xs_consumed st /\ xs_reserved st' = xs_reserved st.
Proof. revert st. induction ready as [|r ready IH]; intros st; simpl; [done|]. apply (IH (updateNode r _ st)). Qed.

Lemma foldM_error {E A B} (f : A -> B -> result E A) l a e :
  foldM f l a = Err e -> exists x b, f x b = Err e.
Proof.
  revert a. induction l as [|b l IH]; intros a H; simpl in H; [done|].
  destruct (f a b) eqn:Hf; [eauto|]. injection H as ->. eauto.
Qed.

(** No event handler reports the ledger. *)
Lemma runExec_no_ledger target content events : runExec target content events <> Err ledger_exceeded.
Proof.
  intros (st & e & H)%foldM_error. unfold exec_step in H. destruct (scope e) as [|[]]; try done.
  case_match; [|done].
  match type of H with exec_event _ _ ?g _ = _ => destruct g end; simpl in H;
    unfold requestAttempt, terminateAttempt, requestRetry, skipNode, throw_when in H;
    cbv zeta in H; repeat (case_match; simpl in H; try discriminate H); discriminate H.
Qed.

Lemma accounted_counters l c r i limit :
  within c r l = true -> counters l !! i = Some limit ->
  exists a b k, counters c !! i = Some a /\ counters r !! i = Some b /\
    counters (subCounters (subCounters l c) r) !! i = Some k /\ accounted limit a b k.
Proof.
  rewrite within_spec. unfold tokens_within. intros H. destruct_and!.
  do 9 (destruct i as [|i]; [simpl; intros [= <-]; eexists _, _, _; repeat split; unfold accounted;
    try (eexists _, _, _; split_and!; [reflexivity..|lia|lia])|]); [|done].
  destruct (bc_reportedTokens l), (bc_reportedTokens c), (bc_reportedTokens r); try done.
  eexists _, _, _; split_and!; [reflexivity..|lia|lia].
Qed.

(** The projector's run, from the projection it returned. *)
Lemma projectExecution_ok localeLe events revisions p :
  validBudgets revisions ->
  projectExecution localeLe events revisions = Ok (Some p) ->
  exists graph st, graph ∈ revisions /\ xp_graph p = graph /\
    let content := mr_content graph in
    let target := {| gr_graph_id := mr_graphId graph; gr_graph_revision := mr_revision graph;
                     gr_graph_sha256 := mr_graphSha256 graph |} in
    runExec target content events = Ok st /\ exec_inv (tg_graphBudget content) st /\
    xp_readyNodeIds p = readyNodes localeLe content (mr_status graph) st /\
    xp_nodes p = nodesInOrder content
      (foldl (fun st id => updateNode id (fun n => n <| mn_status := n_ready |>) st) st (xp_readyNodeIds p)) /\
    bp_consumed (xp_budget p) = xs_consumed st /\ bp_reserved (xp_budget p) = xs_reserved st /\
    bp_limits (xp_budget p) = limits (tg_graphBudget content) /\
    bp_remaining (xp_budget p) =
      subCounters (subCounters (limits (tg_graphBudget content)) (xs_consumed st)) (xs_reserved st).
Proof.
  intros Hb H. unfold projectExecution in H.
  destruct (executionGraph events revisions) as [graph|] eqn:Hg; [|done].
  apply executionGraph_elem in Hg. pose proof (proj1 (list.Forall_forall _ _) Hb _ Hg) as Hgb. simpl in Hgb.
  apply bind_ok in H as (st & Hst & H). destruct (xs_enqueue st) as [q|] eqn:Hq; [|done].
  cbv zeta in H. apply bind_ok in H as (rem & Hrem & H). injection H as <-.
  pose proof (runExec_inv _ _ _ _ Hgb Hst) as Hi.
  destruct (mark_fields (readyNodes localeLe (mr_content graph) (mr_status graph) st) st) as [Hc Hr].
  rewrite Hc, Hr, (subtract_within _ _ _ (xi_budget _ _ Hi)) in Hrem. injection Hrem as <-.
  exists graph, st. cbv zeta. by split_and!.
Qed.

(** C4: The budget of a graph is never exceeded. Whatever the log, if the
    approved graph has a valid budget then the projector never fails because
    the ledger went below zero, and in every projection it returns each
    limited counter satisfies consumed + reserved + remaining = limit with a
    remaining amount that is not negative. *)
Theorem execution_budget_conserved localeLe events revisions :
  validBudgets revisions ->
  projectExecution localeLe events revisions <> Err ledger_exceeded /\
  forall p, projectExecution localeLe events revisions = Ok (Some p) ->
    forall i limit, counters (bp_limits (xp_budget p)) !! i = Some limit ->
      exists c r k, counters (bp_consumed (xp_budget p)) !! i = Some c /\
        counters (bp_reserved (xp_budget p)) !! i = Some r /\
        counters (bp_remaining (xp_budget p)) !! i = Some k /\ accounted limit c r k.
Proof.
  intros Hb. split.
  - intros H. unfold projectExecution in H. destruct (executionGraph events revisions) as [g|] eqn:Hg; [|done].
    apply executionGraph_elem in Hg. pose proof (proj1 (list.Forall_forall _ _) Hb _ Hg) as Hgb. simpl in Hgb.
    destruct (runExec _ _ _) as [st|e] eqn:Hst; unfold mbind at 1, result_bind at 1 in H.
    + pose proof (runExec_inv _ _ _ _ Hgb Hst) as Hi. destruct (xs_enqueue st); [|done].
      destruct (mark_fields (readyNodes localeLe (mr_content g) (mr_status g) st) st) as [Hc Hr].
      by rewrite Hc, Hr, (subtract_within _ _ _ (xi_budget _ _ Hi)) in H.
    + injection H as ->. exact (runExec_no_ledger _ _ _ Hst).
  - intros p Hp i limit Hl.
    destruct (projectExecution_ok _ _ _ _ Hb Hp) as (g & st & _ & _ & _ & Hi & _ & _ & -> & -> & El & ->).
    rewrite El in Hl. apply accounted_counters; [apply (xi_budget _ _ Hi)|exact Hl].
Qed.

(** ** Attempts *)

(** One attempt is active at a time. In every state the projector
    reaches, an attempt that has not terminated is the active one, the node
    of the active attempt is leased, running or waiting and has it as its last
    attempt, and no other node is in one of these states. *)
Theorem single_active_attempt target content events st :
  taskGraphBudgetSchema (tg_graphBudget content) = true ->
  runExec target content events = Ok st ->
  (forall a x, xs_attempts st !! a = Some x -> ma_status x <> a_terminal -> xs_active st = Some a) /\
  (forall a, xs_active st = Some a -> exists x n, xs_attempts st !! a = Some x /\ ma_status x <> a_terminal /\
     xs_nodes st !! ma_nodeId x = Some n /\ busy (mn_status n) /\ last (mn_attempts n) = Some a) /\
  (forall id id' n n', xs_nodes st !! id = Some n -> xs_nodes st !! id' = Some n' ->
     busy (mn_status n) -> busy (mn_status n') -> id = id').
Proof.
  intros Hb H. destruct (runExec_inv _ _ _ _ Hb H) as [_ _ _ _ _ A J Y _ _ _ _]. split_and!; [|done|].
  - intros a x Hx Ht. destruct (decide (xs_active st = Some a)) as [|Hne]; [done|].
    by destruct Ht; eapply J.
  - intros id id' n n' Hn Hn' (x & Hx & <-)%(Y _ _ Hn) (x' & Hx' & <-)%(Y _ _ Hn'). congruence.
Qed.

(** C5: A node is attempted only after its dependencies. In every state the
    projector reaches, each dependency of a node with an attempt has
    succeeded, and a node counts as succeeded exactly because its last
    attempt was terminated with the outcome succeeded. *)
Theorem attempts_follow_dependencies target content events st id n d :
  taskGraphBudgetSchema (tg_graphBudget content) = true ->
  runExec target content events = Ok st ->
  xs_nodes st !! id = Some n -> mn_attempts n <> [] -> d ∈ tn_dependsOn (mn_node n) ->
  exists m a x, xs_nodes st !! d = Some m /\ mn_status m = n_succeeded /\ last (mn_attempts m) = Some a /\
    xs_attempts st !! a = Some x /\ ma_terminal x = Some t_succeeded.
Proof.
  intros Hb H Hn Ha Hd. destruct (runExec_inv _ _ _ _ Hb H) as [_ _ _ _ _ _ _ _ D P _ _].
  pose proof (P _ _ _ Hn Ha Hd) as Hs. unfold nodeStatus in Hs.
  destruct (xs_nodes st !! d) as [m|] eqn:Hm; [|done]. injection Hs as Hs.
  destruct (D _ _ Hm Hs) as (a & x & ? & ? & ? & _). by exists m, a, x.
Qed.

(** A graph cannot be recorded as completed early. If a log the projector
    accepts holds a terminal event with status completed for the graph, then
    at that point every node of the graph has a last attempt that was
    terminated with the outcome succeeded. *)
Theorem completion_needs_every_node target content before e after blocker st' :
  taskGraphBudgetSchema (tg_graphBudget content) = true ->
  scope e = SessionScope (GraphEventData target (GraphTerminal blocker gt_completed)) ->
  runExec target content (before ++ e :: after) = Ok st' ->
  exists st, runExec target content before = Ok st /\
    forall spec, spec ∈ tg_nodes content ->
      exists n a x, xs_nodes st !! tn_nodeId spec = Some n /\ last (mn_attempts n) = Some a /\
        xs_attempts st !! a = Some x /\ ma_terminal x = Some t_succeeded.
Proof.
  intros Hb He H. unfold runExec in H. rewrite foldM_app in H. apply bind_ok in H as (st & Hst & H).
  exists st. split; [done|]. intros spec Hs. simpl in H. unfold exec_step in H at 1. rewrite He in H.
  rewrite bool_decide_eq_true_2 in H by done. simpl in H.
  destruct (allSucceeded st) eqn:Hall; [|done]. unfold allSucceeded in Hall. rewrite forallb_forall in Hall.
  destruct (runExec_nodes _ _ _ _ spec Hst Hs) as [n Hn].
  assert (Hsn : mn_status n = n_succeeded).
  { specialize (Hall (tn_nodeId spec, n)). simpl in Hall. refine (bool_decide_eq_true_1 _ (Hall _)).
    apply list_elem_of_In, elem_of_map_to_list, Hn. }
  destruct (runExec_inv _ _ _ _ Hb Hst) as [_ _ _ _ _ _ _ _ D _ _ _].
  destruct (D _ _ Hn Hsn) as (a & x & ? & ? & ? & _). by exists n, a, x.
Qed.

(** ** The ready queue and the reservation test *)

(** The scheduler's queue is the projector's ready list:
    [deterministicReadyQueue], which filters and sorts the projected nodes
    again, returns the nodes of [readyNodeIds] in that order. *)
Theorem ready_queue_is_ready_list localeLe events revisions p :
  validBudgets revisions ->
  projectExecution localeLe events revisions = Ok (Some p) ->
  (fun n => tn_nodeId (mn_node n)) <$> deterministicReadyQueue localeLe p = xp_readyNodeIds p.
Proof.
  intros Hb Hp. destruct (projectExecution_ok _ _ _ _ Hb Hp) as (g & st & _ & _ & Hst & _ & Er & En & _).
  unfold deterministicReadyQueue. rewrite En. rewrite Er.
  set (ready := readyNodes localeLe (mr_content g) (mr_status g) st) in *.
  destruct ((xs_active st === None) && match xs_blocker st with None => true | Some _ => false end &&
       negb (xs_cancelRequested st) && bool_decide (mr_status g ∈ [g_queued; g_running])) eqn:Hgate.
  2:{ assert (ready = []) as -> by (unfold ready, readyNodes; by rewrite Hgate).
      match goal with |- context [List.filter ?f ?l] => assert (List.filter f l = []) as -> end; [|done].
      clear. induction (nodesInOrder _ _) as [|[id n] l IH]; simpl; [done|]. exact IH. }
  assert (Hready : ready = (fun n => tn_nodeId (mn_node n)) <$>
    js_sort (specLe localeLe) (List.filter (isReady st) (snd <$> nodesInOrder (mr_content g) st)))
    by (unfold ready, readyNodes; by rewrite Hgate).
  rewrite Hready at 2. symmetry.
  match goal with |- _ <$> ?l = _ <$> ?k => assert (Hrel : Forall2 (fun n n' => mn_node n = mn_node n') l k) end.
  2:{ clear -Hrel. induction Hrel as [|n n' l k E _ IH]; simpl; [done|]. f_equal; [by rewrite E|exact IH]. }
  apply js_sort_rel; [intros a b a' b' E E'; unfold specLe; by rewrite E, E'|].
  apply ready_filter.
  - intros id n Hid Hn. split.
    + destruct (runExec_key _ _ _ _ _ _ Hst Hn) as [Hk _]. apply eq_iff_eq_true. rewrite bool_decide_eq_true.
      rewrite Hready, list_elem_of_fmap. setoid_rewrite elem_js_sort_filter. split.
      * intros Hrn. exists n. split; [done|]. split; [|done]. apply list_elem_of_fmap. exists (id, n). split; [done|].
        apply list_elem_of_fmap in Hid as (spec & -> & Hspec). apply list_elem_of_omap. exists spec. by rewrite Hn.
      * intros (m & -> & [Hm Hr]). apply list_elem_of_fmap in Hm as ([i m'] & -> & Hm).
        apply list_elem_of_omap in Hm as (spec & _ & Hm). simpl in *.
        destruct (xs_nodes st !! tn_nodeId spec) as [y|] eqn:Hy; [|done]. injection Hm as <- ->.
        destruct (runExec_key _ _ _ _ _ _ Hst Hy) as [Hk' _]. congruence.
    + rewrite mark_ready, Hn. simpl. eexists. split; [done|]. destruct (bool_decide (id ∈ ready)); reflexivity.
  - intros id (spec & -> & Hspec)%list_elem_of_fmap. exact (runExec_nodes _ _ _ _ spec Hst Hspec).
Qed.

(** The scheduler reserves exactly what the projector admits: on every
    projection, [taskBudgetCanReserve] (which compares a reservation with the
    remaining budget) answers as the projector's admission test on the next
    attempt request (consumed plus reserved plus the reservation within the
    limits). *)
Lemma canReserve_within localeLe events revisions p held :
  validBudgets revisions ->
  projectExecution localeLe events revisions = Ok (Some p) ->
  let b := xp_budget p in
  taskBudgetCanReserve b held = within (bp_consumed b) (addCounters (bp_reserved b) held) (bp_limits b).
Proof.
  intros Hb Hp. cbv zeta.
  destruct (projectExecution_ok _ _ _ _ Hb Hp) as (g & st & _ & _ & _ & Hi & _ & _ & Ec & Er & El & Erem).
  unfold taskBudgetCanReserve. rewrite Erem, Ec, Er, El.
  pose proof (proj1 (within_spec _ _ _) (xi_budget _ _ Hi)) as Hw. destruct_and!.
  unfold tokens_within, within, counters, subCounters, addCounters, zipCounters in *. cbn in *.
  repeat (match goal with |- context [?r <=? ?l - ?c - ?h] =>
    replace (r <=? l - c - h) with (c + (h + r) <=? l) by (apply eq_iff_eq_true; rewrite !Z.leb_le; lia) end).
  repeat f_equal. repeat case_match; simplify_eq; try done.
  apply eq_iff_eq_true. rewrite !Z.leb_le. lia.
Qed.

(** An agent node without a token ceiling never runs in a graph that has
    one. The schema accepts such a graph (see the witness), but in every
    projection the scheduler's reservation test refuses the node whatever
    remains, and when all the other counters fit, the [task_budget.exhausted]
    event it appends names the counter "attempts". *)
Theorem null_token_node_never_admitted localeLe events revisions p node :
  validBudgets revisions ->
  projectExecution localeLe events revisions = Ok (Some p) ->
  maxReportedTokens (tg_graphBudget (mr_content (xp_graph p))) <> None ->
  maxReportedTokens (tn_budget node) = None ->
  match tn_kind node with VerificationTaskNode _ _ _ => False | AgentTaskNode _ => True end ->
  let b := xp_budget p in
  taskBudgetCanReserve b (reservationForTaskNode node) = false /\
  ((forall i m r, counters (bp_remaining b) !! i = Some (Some m) ->
      counters (reservationForTaskNode node) !! i = Some (Some r) -> r <= m) ->
   exhaustedCounter b (reservationForTaskNode node) = "attempts"%string).
Proof.
  intros Hb Hp Ht Hn Hk. cbv zeta. split.
  - destruct (projectExecution_ok _ _ _ _ Hb Hp) as (g & st & _ & Eg & _ & Hi & _ & _ & _ & _ & _ & Erem).
    unfold taskBudgetCanReserve. rewrite Erem. rewrite Eg in Ht.
    pose proof (proj1 (within_spec _ _ _) (xi_budget _ _ Hi)) as Hw. destruct_and!.
    unfold tokens_within, counters, subCounters, zipCounters, reservationForTaskNode in *. cbn in *.
    destruct (maxReportedTokens (tg_graphBudget (mr_content g))); [|done].
    destruct (bc_reportedTokens (xs_consumed st)), (bc_reportedTokens (xs_reserved st)); try done.
    destruct (tn_kind node); [|done]. rewrite Hn, !andb_false_r. done.
  - intros Hfit. unfold exhaustedCounter.
    destruct (List.find _ _) as [[name ?]|] eqn:Hf; [|done]. exfalso.
    apply List.find_some in Hf as [Hin Hlt]. apply list_elem_of_In, list_elem_of_lookup in Hin as [i Hi].
    destruct p0 as [[r|] [m|]]; try done. apply Z.ltb_lt in Hlt.
    apply lookup_zip_with_Some in Hi as (? & ? & [= <- <-] & _ & Hi).
    apply lookup_zip_with_Some in Hi as (? & ? & [= <- <-] & Hi1 & Hi2).
    specialize (Hfit i m r Hi2 Hi1). lia.
Qed.

(** ** A concrete run *)

(** Two nodes under a graph with a token ceiling; the second has none. *)
Module ExecLog.
Definition withTokens (t : option Z) (b : TaskGraphBudget) : TaskGraphBudget := {|
  maxAttempts := maxAttempts b; maxDurationMs := maxDurationMs b; maxModelSteps := maxModelSteps b;
  maxCommandExecutions := maxCommandExecutions b; maxCommandOutputBytes := maxCommandOutputBytes b;
  maxChangedFiles := maxChangedFiles b; maxChangedBytes := maxChangedBytes b;
  maxArtifactBytes := maxArtifactBytes b; maxReportedTokens := t |}.
Definition small : TaskGraphBudget := {|
  maxAttempts := 2; maxDurationMs := 1000; maxModelSteps := 2; maxCommandExecutions := 2;
  maxCommandOutputBytes := 100; maxChangedFiles := 2; maxChangedBytes := 100;
  maxArtifactBytes := 100; maxReportedTokens := Some 50 |}.
Definition node (id : string) (seq : Z) (deps : list string) (mode : WorkspaceMode) (b : TaskGraphBudget)
  : TaskNodeSpec := {|
  tn_nodeId := id; tn_sequence := seq; tn_title := js "T"; tn_objective := js "O";
  tn_planItemIds := ["item-1"]; tn_dependsOn := deps;
  tn_workspace := {| ws_mode := mode; ws_declaredPathPrefixes := [js "src"] |};
  tn_requiredCapabilities := []; tn_budget := b;
  tn_retry := {| retry_maxAttempts := 2; retry_automaticOn := [] |};
  tn_kind := AgentTaskNode mode_build |}.
Definition a : TaskNodeSpec := node "a" 1 [] managed_worktree small.
Definition b : TaskNodeSpec := node "b" 2 ["a"%string] inherit_predecessor (withTokens None small).
Definition content : TaskGraphRevisionContent := {|
  tg_graphId := "g"; tg_binding := tg_binding SampleGraph.chainGraph; tg_title := js "Graph";
  tg_nodes := [a; b]; tg_graphBudget := withTokens (Some 100) (SampleGraph.budget 6) |}.
Definition target : GraphRef := {| gr_graph_id := "g"; gr_graph_revision := 1; gr_graph_sha256 := "h" |}.
Definition revision (status : TaskGraphStatus) : MutableRevision := {|
  mr_approvedEventId := Some "e2"%string;
  mr_artifact := {| ar_artifact_id := "a"; ar_bytes := 1; ar_object_ref := "o"; ar_sha256 := "h" |};
  mr_binding := tg_binding content; mr_content := content; mr_createdEventId := "e1";
  mr_decisionEventId := Some "e2"%string; mr_graphId := "g"; mr_graphSha256 := "h"; mr_revision := 1;
  mr_status := status; mr_terminalEventId := None |}.

Definition event (id : string) (seq : Z) (g : GraphEvent) : DecodedStoredEvent := {|
  eventId := id; sessionId := "s"; sessionSeq := seq; sourceSchemaVersion := 2;
  scope := SessionScope (GraphEventData target g) |}.
Definition request (id node : string) (n : Z) (spec : TaskNodeSpec) : GraphEvent := AttemptRequested {|
  arq_attempt_id := id; arq_attempt_number := n; arq_node_id := node;
  arq_reservation := reservationForTaskNode spec; arq_retry_origin := retry_initial;
  arq_workspace_binding := Some "w"%string |}.
Definition finish (id node : string) (spec : TaskNodeSpec) : GraphEvent := AttemptTerminated {|
  atd_attempt_id := id; atd_budget := zeroConsumption (reservationForTaskNode spec);
  atd_usage_completeness := usage_complete; atd_node_id := node; atd_terminal := t_succeeded |}.

Definition first : list DecodedStoredEvent := [
  event "e3" 3 (GraphEnqueued "q" "foreground" "p"); event "e4" 4 (SchedulerLeaseAcquired "n");
  event "e5" 5 (GraphStarted "n"); event "e6" 6 (request "t1" "a" 1 a);
  event "e7" 7 (AttemptStarted "t1" "a" "r1" "n"); event "e8" 8 (finish "t1" "a" a)].
(** A graph whose second node has a ceiling too, run to the end. *)
Definition bounded : TaskGraphRevisionContent := {|
  tg_graphId := "g"; tg_binding := tg_binding SampleGraph.chainGraph; tg_title := js "Graph";
  tg_nodes := [a; node "b" 2 ["a"%string] inherit_predecessor small];
  tg_graphBudget := withTokens (Some 100) (SampleGraph.budget 6) |}.
Definition second : list DecodedStoredEvent := [
  event "e9" 9 (request "t2" "b" 1 a); event "e10" 10 (AttemptStarted "t2" "b" "r2" "n")].
Definition last : list DecodedStoredEvent := [event "e11" 11 (finish "t2" "b" a)].
Definition completed : DecodedStoredEvent := event "e12" 12 (GraphTerminal None gt_completed).
Definition state (l : list DecodedStoredEvent) : ExecState :=
  match runExec target bounded l with Ok st => st | Err _ => exec_init bounded end.
Definition projection : result ExecutionError (option TaskExecutionProjection) :=
  projectExecution jstring_le first [revision g_running].
End ExecLog.

Lemma exec_log_valid : validBudgets [ExecLog.revision g_running].
Proof. repeat constructor. Qed.

Lemma execution_budget_conserved_witness :
  exists p, ExecLog.projection = Ok (Some p) /\
    exists c r k, counters (bp_consumed (xp_budget p)) !! 8%nat = Some c /\
      counters (bp_reserved (xp_budget p)) !! 8%nat = Some r /\
      counters (bp_remaining (xp_budget p)) !! 8%nat = Some k /\ accounted (Some 100) c r k.
Proof.
  destruct ExecLog.projection as [[p|]|] eqn:E; [|by vm_compute in E..].
  exists p. split; [reflexivity|].
  apply (proj2 (execution_budget_conserved _ _ _ exec_log_valid) p E 8%nat (Some 100)).
  vm_compute in E. by injection E as <-.
Defined.

Lemma single_active_attempt_witness :
  xs_active (ExecLog.state (ExecLog.first ++ ExecLog.second)) = Some "t2"%string /\
  exists x n, xs_attempts (ExecLog.state (ExecLog.first ++ ExecLog.second)) !! "t2"%string = Some x /\
    xs_nodes (ExecLog.state (ExecLog.first ++ ExecLog.second)) !! ma_nodeId x = Some n /\ busy (mn_status n).
Proof.
  assert (E : xs_active (ExecLog.state (ExecLog.first ++ ExecLog.second)) = Some "t2"%string)
    by (vm_compute; reflexivity).
  split; [exact E|].
  destruct (single_active_attempt ExecLog.target ExecLog.bounded (ExecLog.first ++ ExecLog.second)
    (ExecLog.state (ExecLog.first ++ ExecLog.second))) as (_ & H & _); [vm_compute; reflexivity..|].
  destruct (H _ E) as (x & n & Hx & _ & Hn & Hb & _). exists x, n. split; [exact Hx|]. split; [exact Hn|exact Hb].
Defined.

Lemma attempts_follow_dependencies_witness :
  exists m, xs_nodes (ExecLog.state (ExecLog.first ++ ExecLog.second)) !! "a"%string = Some m /\
    mn_status m = n_succeeded.
Proof.
  destruct (xs_nodes (ExecLog.state (ExecLog.first ++ ExecLog.second)) !! "b"%string) as [n|] eqn:En;
    [|by vm_compute in En].
  destruct (attempts_follow_dependencies ExecLog.target ExecLog.bounded (ExecLog.first ++ ExecLog.second)
    (ExecLog.state (ExecLog.first ++ ExecLog.second)) "b" n "a") as (m & a & x & Hm & Hs & _).
  - vm_compute. reflexivity.
  - vm_compute. reflexivity.
  - exact En.
  - vm_compute in En. injection En as <-. discriminate.
  - vm_compute in En. injection En as <-. left.
  - exists m. split; [exact Hm|exact Hs].
Defined.

Lemma completion_needs_every_node_witness :
  exists st, runExec ExecLog.target ExecLog.bounded (ExecLog.first ++ ExecLog.second ++ ExecLog.last) = Ok st /\
    forall spec, spec ∈ tg_nodes ExecLog.bounded ->
      exists n a x, xs_nodes st !! tn_nodeId spec = Some n /\ last (mn_attempts n) = Some a /\
        xs_attempts st !! a = Some x /\ ma_terminal x = Some t_succeeded.
Proof.
  eapply (completion_needs_every_node ExecLog.target ExecLog.bounded
    (ExecLog.first ++ ExecLog.second ++ ExecLog.last) ExecLog.completed [] None
    (ExecLog.state ((ExecLog.first ++ ExecLog.second ++ ExecLog.last) ++ [ExecLog.completed]))).
  - vm_compute. reflexivity.
  - reflexivity.
  - vm_compute. reflexivity.
Defined.

Lemma ready_queue_is_ready_list_witness :
  exists p, ExecLog.projection = Ok (Some p) /\
    ((fun n => tn_nodeId (mn_node n)) <$> deterministicReadyQueue jstring_le p) = ["b"%string].
Proof.
  destruct ExecLog.projection as [[p|]|] eqn:E; [|by vm_compute in E..].
  exists p. split; [reflexivity|]. rewrite (ready_queue_is_ready_list _ _ _ _ exec_log_valid E).
  vm_compute in E. by injection E as <-.
Defined.

Lemma sample_can_reserve :
  exists p, ExecLog.projection = Ok (Some p) /\
    within (bp_consumed (xp_budget p)) (addCounters (bp_reserved (xp_budget p)) (reservationForTaskNode ExecLog.a))
      (bp_limits (xp_budget p)) = true.
Proof.
  destruct ExecLog.projection as [[p|]|] eqn:E; [|by vm_compute in E..].
  exists p. split; [reflexivity|]. rewrite <-(canReserve_within _ _ _ _ _ exec_log_valid E).
  vm_compute in E. by injection E as <-.
Defined.

Lemma null_token_node_never_admitted_witness :
  taskGraphRevisionContentSchema SampleGraph.anyUuid SampleGraph.fold 4 ExecLog.content = Ok () /\
  exists p, ExecLog.projection = Ok (Some p) /\ xp_readyNodeIds p = ["b"%string] /\
    taskBudgetCanReserve (xp_budget p) (reservationForTaskNode ExecLog.b) = false /\
    exhaustedCounter (xp_budget p) (reservationForTaskNode ExecLog.b) = "attempts"%string.
Proof.
  split; [vm_compute; reflexivity|].
  destruct ExecLog.projection as [[p|]|] eqn:E; [|by vm_compute in E..].
  exists p. split; [reflexivity|]. split; [vm_compute in E; by injection E as <-|].
  destruct (null_token_node_never_admitted _ _ _ p ExecLog.b exec_log_valid E) as [H1 H2].
  - vm_compute in E. injection E as <-. discriminate.
  - reflexivity.
  - exact I.
  - split; [exact H1|]. apply H2. vm_compute in E. injection E as <-. intros i m r.
    do 9 (destruct i as [|i]; [simpl; intros [= <-]; (discriminate || (intros [= <-]; lia))|]). discriminate.
Defined.
