(* ===== verification/PosixPath.v ===== *)
(** * Lexical paths

    [path.posix.normalize], [path.posix.isAbsolute] and [path.win32.isAbsolute]
    of Node's [path] module on JavaScript strings, and what they say about
    containment: a relative path whose normal form does not climb stays under
    any directory it is resolved from. *)

From S2P Require Import Prelude JsString.
#[local] Open Scope Z_scope.

Definition slash : Z := 0x2f.
Definition backslash : Z := 0x5c.
Definition dot : jstring := js ".".
Definition dotdot : jstring := js "..".

(** One segment of [normalizeString]; the stack is the result so far, last
    segment first. *)
Definition normStep (allowAboveRoot : bool) (stack : list jstring) (segment : jstring) : list jstring :=
  if (segment === []) || (segment === dot) then stack
  else if segment === dotdot then
    match stack with
    | top :: rest => if top === dotdot then (if allowAboveRoot then segment :: stack else stack) else rest
    | [] => if allowAboveRoot then [segment] else []
    end
  else segment :: stack.

Definition normSegments (allowAboveRoot : bool) (s : jstring) : list jstring :=
  reverse (foldl (normStep allowAboveRoot) [] (splitUnit slash s)).

Definition posixIsAbsolute (s : jstring) : bool := startsWith s [slash].

(** [path.posix.normalize(s)] *)
Definition posixNormalize (s : jstring) : jstring :=
  if s === [] then dot
  else
    let absolute := posixIsAbsolute s in
    let trailing := endsWith s [slash] in
    let body := joinUnit slash (normSegments (negb absolute) s) in
    if body === [] then (if absolute then [slash] else if trailing then dot ++ [slash] else dot)
    else
      let body := if trailing then body ++ [slash] else body in
      if absolute then slash :: body else body.

(** [/^[a-zA-Z]:/u] *)
Definition hasDriveLetter (s : jstring) : bool :=
  match s with u :: v :: _ => isAsciiLetter u && (v =? 0x3a) | _ => false end.

Definition isPathSeparator (u : Z) : bool := (u =? slash) || (u =? backslash).

(** [path.win32.isAbsolute(s)] *)
Definition win32IsAbsolute (s : jstring) : bool :=
  match s with
  | [] => false
  | u :: r =>
      isPathSeparator u ||
      match r with
      | v :: w :: _ => isAsciiLetter u && (v =? 0x3a) && isPathSeparator w
      | _ => false
      end
  end.

(** The test of every containment check of the sources: the normal form of a
    relative path is [..] or starts with [../]. *)
Definition climbs (s : jstring) : bool :=
  let normalized := posixNormalize s in
  (normalized === dotdot) || startsWith normalized (dotdot ++ [slash]).

(** ** Resolution

    The directory reached from [base] (a list of directory names) by walking
    the segments of [s], without symbolic links. *)

Definition walkStep (stack : list jstring) (segment : jstring) : list jstring :=
  if (segment === []) || (segment === dot) then stack
  else if segment === dotdot then tail stack
  else segment :: stack.
Definition resolveFrom (base : list jstring) (s : jstring) : list jstring :=
  reverse (foldl walkStep (reverse base) (splitUnit slash s)).

(** A relative normal form: names above a number of [..]. *)
Definition climbing (k : nat) (names stack : list jstring) : Prop :=
  stack = names ++ replicate k dotdot /\ Forall (fun n => n <> dotdot /\ n <> [] /\ slash ∉ n) names.

Lemma norm_climbing segments k names stack :
  Forall (fun s => slash ∉ s) segments -> climbing k names stack ->
  exists k' names', (k <= k')%nat /\ climbing k' names' (foldl (normStep true) stack segments).
Proof.
  revert k names stack. induction segments as [|s segments IH]; intros k names stack Hs [-> Hn]; simpl.
  - exists k, names. split; [lia|by split].
  - apply list.Forall_cons in Hs as [Hs1 Hs].
    assert (exists k1 names1, (k <= k1)%nat /\ climbing k1 names1 (normStep true (names ++ replicate k dotdot) s))
      as (k1 & n1 & Hk & H1).
    { unfold normStep. case_bool_decide as E1; simpl; [exists k, names; split; [lia|by split]|].
      case_bool_decide as E2; [exists k, names; split; [lia|by split]|].
      case_bool_decide as E3; [subst s|exists k, (s :: names); split; [lia|]; split; [done|]; by constructor].
      destruct names as [|n names]; simpl.
      - exists (S k), []. split; [lia|]. split; [|done]. by destruct k.
      - apply list.Forall_cons in Hn as [[Hn _] Hn']. rewrite bool_decide_eq_false_2 by done.
        exists k, names. split; [lia|]. by split. }
    destruct (IH k1 n1 _ Hs H1) as (k2 & n2 & ? & ?). exists k2, n2. split; [lia|done].
Qed.

Lemma norm_keeps_climb segments stack :
  dotdot ∈ stack -> last stack = Some dotdot -> dotdot ∈ foldl (normStep true) stack segments.
Proof.
  revert stack. induction segments as [|s segments IH]; intros stack H Hl; simpl; [done|].
  assert (Hs : last (normStep true stack s) = Some dotdot).
  { destruct (decide (s = dotdot)) as [->|Hdd].
    - destruct stack as [|t r]; [done|]. unfold normStep. simpl.
      destruct (decide (t = dotdot)) as [->|Ht]; [by rewrite bool_decide_eq_true_2|].
      rewrite bool_decide_eq_false_2 by done. destruct r; [by simplify_eq/=|done].
    - unfold normStep. destruct ((s === []) || (s === dot)); [done|].
      rewrite bool_decide_eq_false_2 by done. by destruct stack. }
  apply IH; [|done]. apply list_elem_of_lookup. eexists. by rewrite <-last_lookup.
Qed.

(** Without a climb, normalising is walking. *)
Lemma walk_norm segments names base :
  Forall (fun n => n <> dotdot) names ->
  dotdot ∉ foldl (normStep true) names segments ->
  foldl walkStep (names ++ base) segments = foldl (normStep true) names segments ++ base.
Proof.
  revert names. induction segments as [|s segments IH]; intros names Hn H; simpl in *; [done|].
  assert (Hstep : walkStep (names ++ base) s = normStep true names s ++ base /\
    Forall (fun n => n <> dotdot) (normStep true names s)).
  { destruct (decide (s = dotdot)) as [->|Hdd].
    - destruct names as [|m names].
      + destruct H. apply norm_keeps_climb; [left|done].
      + apply list.Forall_cons in Hn as [Hm Hn]. unfold normStep. simpl. by rewrite bool_decide_eq_false_2.
    - unfold walkStep, normStep. destruct ((s === []) || (s === dot)); [done|].
      rewrite bool_decide_eq_false_2 by done. split; [done|]. by constructor. }
  destruct Hstep as [-> Hn']. by apply IH.
Qed.

Lemma join_dotdot_head l : joinUnit slash (dotdot :: l) = dotdot \/
  exists t, joinUnit slash (dotdot :: l) = dotdot ++ slash :: t.
Proof. destruct l as [|x l]; [by left|right]. by exists (joinUnit slash (x :: l)). Qed.

(** The segments of a relative path that does not climb are names. *)
Lemma not_climbing_names s :
  posixIsAbsolute s = false -> climbs s = false ->
  Forall (fun n => n <> dotdot /\ n <> [] /\ slash ∉ n) (foldl (normStep true) [] (splitUnit slash s)).
Proof.
  intros Ha Hc.
  assert (Hsegs : Forall (fun x => slash ∉ x) (splitUnit slash s))
    by (apply list.Forall_forall; intros; by eapply split_no_sep).
  destruct (norm_climbing (splitUnit slash s) 0 [] [] Hsegs) as (k & names & _ & Est & Hn); [by split|].
  assert (k = 0%nat) as ->.
  { destruct k as [|k]; [done|]. exfalso.
    destruct (decide (s = [])) as [->|Hne]; [by destruct names|].
    revert Hc. unfold climbs, posixNormalize, normSegments.
    rewrite Ha. cbn [negb]. rewrite Est, reverse_app, reverse_replicate, (bool_decide_eq_false_2 _ Hne).
    cbn [replicate app]. cbv zeta.
    destruct (join_dotdot_head (replicate k dotdot ++ reverse names)) as [E|[t E]]; rewrite E; simpl;
      [by destruct (endsWith s [slash])|by destruct (endsWith s [slash]), t]. }
  by rewrite Est, app_nil_r.
Qed.

(** A relative path that does not climb stays under every base. *)
Lemma not_climbing_inside s base :
  posixIsAbsolute s = false -> climbs s = false -> exists rest, resolveFrom base s = base ++ rest.
Proof.
  intros Ha Hc. pose proof (not_climbing_names s Ha Hc) as Hn.
  exists (reverse (foldl (normStep true) [] (splitUnit slash s))). unfold resolveFrom.
  assert (Hnd : dotdot ∉ foldl (normStep true) [] (splitUnit slash s)).
  { intros Hin. rewrite list.Forall_forall in Hn. by apply Hn in Hin as [? _]. }
  pose proof (walk_norm (splitUnit slash s) [] (reverse base) ltac:(constructor) Hnd) as E. simpl in E.
  by rewrite E, reverse_app, reverse_involutive.
Qed.

(** ** Normal forms stay as they are *)

Lemma absolute_cons u r : posixIsAbsolute (u :: r) = (slash =? u).
Proof. unfold posixIsAbsolute. destruct r; cbn [startsWith]; apply andb_true_r. Qed.

Lemma endsWith_snoc s u c : endsWith (s ++ [u]) [c] = (c =? u).
Proof. unfold endsWith. rewrite reverse_snoc. destruct (reverse s); cbn; apply andb_true_r. Qed.

Lemma normStep_elem b stack segment x : x ∈ normStep b stack segment -> x ∈ stack \/ x = segment /\ x <> [] /\ x <> dot.
Proof.
  unfold normStep. destruct (bool_decide (segment = [])) eqn:E1; [by left|].
  destruct (bool_decide (segment = dot)) eqn:E2; [by left|]. cbn [orb].
  apply bool_decide_eq_false_1 in E1, E2.
  destruct (segment === dotdot) eqn:E3; [|intros [->|]%elem_of_cons; [by right|by left]].
  destruct stack as [|top rest]; [destruct b; [intros ->%list_elem_of_singleton; by right|set_solver]|].
  destruct (top === dotdot); [destruct b; [intros [->|]%elem_of_cons; [by right|by left]|by left]|set_solver].
Qed.

Lemma normSegments_elem b segments stack x :
  x ∈ foldl (normStep b) stack segments -> x ∈ stack \/ x ∈ segments /\ x <> [] /\ x <> dot.
Proof.
  revert stack. induction segments as [|s segments IH]; intros stack H; [by left|].
  apply IH in H as [[H|(-> & Hne)]%normStep_elem|[H Hne]]; [by left|right; split; [left|done]|right; split; [by right|done]].
Qed.

Lemma split_elem c s l u : l ∈ splitUnit c s -> u ∈ l -> u ∈ s.
Proof.
  revert l. induction s as [|v s IH]; intros l; simpl.
  - intros ->%list_elem_of_singleton. set_solver.
  - destruct (splitUnit c s) as [|l1 ls] eqn:E; [set_solver|].
    destruct (v =? c); intros [->|Hl]%elem_of_cons Hu; [set_solver|right; by eapply IH|..].
    + apply elem_of_cons in Hu as [->|Hu]; [left|right]. apply (IH l1); [left|done].
    + right. apply (IH l); [by right|done].
Qed.

Lemma join_elem c ls u : u ∈ joinUnit c ls -> u = c \/ exists l, l ∈ ls /\ u ∈ l.
Proof.
  induction ls as [|l ls IH]; [set_solver|]. destruct ls as [|l' ls].
  - intros H. right. exists l. split; [left|done].
  - change (joinUnit c (l :: l' :: ls)) with (l ++ c :: joinUnit c (l' :: ls)).
    intros [H|[->|H]%elem_of_cons]%elem_of_app; [right; exists l; split; [left|done]|by left|].
    destruct (IH H) as [->|(k & Hk & Hu)]; [by left|]. right. exists k. split; [by right|done].
Qed.

(** Names in order, none of them special. *)
Definition plainName (n : jstring) : Prop := n <> dotdot /\ n <> [] /\ n <> dot /\ slash ∉ n.

Lemma norm_names names stack :
  Forall plainName names -> foldl (normStep true) stack names = reverse names ++ stack.
Proof.
  intros Hn. revert stack. induction Hn as [|n names (H1 & H2 & H3 & _) _ IH]; intros stack; [done|]. simpl.
  assert (E : normStep true stack n = n :: stack).
  { unfold normStep. by rewrite !bool_decide_eq_false_2. }
  rewrite E, IH, reverse_cons. by rewrite <-app_assoc.
Qed.

Definition joinNames (names : list jstring) (trailing : bool) : jstring :=
  joinUnit slash names ++ if trailing then [slash] else [].

Lemma join_names_last names : Forall plainName names -> names <> [] ->
  exists k u, joinUnit slash names = k ++ [u] /\ u <> slash.
Proof.
  induction 1 as [|n names (_ & Hne & _ & Hs) Hn IH]; [done|]. intros _. destruct names as [|n' names].
  - destruct n as [|u k _] using rev_ind; [done|]. exists k, u. split; [done|]. intros ->. apply Hs. set_solver.
  - destruct IH as (k & u & E & Hu); [done|].
    change (joinUnit slash (n :: n' :: names)) with (n ++ slash :: joinUnit slash (n' :: names)). rewrite E.
    exists (n ++ slash :: k), u. split; [by rewrite <-app_assoc|done].
Qed.

Lemma join_names_head names : Forall plainName names -> names <> [] ->
  exists u r, joinUnit slash names = u :: r /\ u <> slash.
Proof.
  intros Hn Hl. destruct Hn as [|n ns (_ & Hne & _ & Hs) _]; [done|]. clear Hl. destruct n as [|u n]; [done|].
  assert (u <> slash) by (intros ->; apply Hs; set_solver). destruct ns; simpl; eauto.
Qed.

(** Joined names are their own normal form. *)
Lemma normalize_names names trailing :
  Forall plainName names -> names <> [] -> posixNormalize (joinNames names trailing) = joinNames names trailing.
Proof.
  intros Hn Hne. destruct (join_names_last names Hn Hne) as (k & u & El & Hu).
  destruct (join_names_head names Hn Hne) as (h & r & Eh & Hh).
  assert (Habs : posixIsAbsolute (joinNames names trailing) = false).
  { unfold joinNames. rewrite Eh. cbn [app]. rewrite absolute_cons. apply Z.eqb_neq. congruence. }
  assert (Htr : endsWith (joinNames names trailing) [slash] = trailing).
  { unfold joinNames. destruct trailing; [apply endsWith_snoc|]. rewrite app_nil_r, El, endsWith_snoc.
    apply Z.eqb_neq. congruence. }
  assert (Hsplit : normSegments true (joinNames names trailing) = names).
  { unfold normSegments, joinNames. assert (Hs : splitUnit slash (joinUnit slash names) = names).
    { apply splitUnit_joinUnit; [done|]. intros l Hl. rewrite list.Forall_forall in Hn. by apply Hn. }
    destruct trailing; [|rewrite app_nil_r, Hs, norm_names, app_nil_r, reverse_involutive; done].
    assert (E : splitUnit slash (joinUnit slash names ++ [slash]) = names ++ [[]]).
    { rewrite <-(splitUnit_joinUnit slash (names ++ [[]])); [f_equal|by destruct names|].
      - clear -Hne. induction names as [|n names IH]; [done|]. destruct names as [|n' names]; [done|].
        change (joinUnit slash (n :: n' :: names)) with (n ++ slash :: joinUnit slash (n' :: names)).
        change (joinUnit slash ((n :: n' :: names) ++ [[]])) with (n ++ slash :: joinUnit slash ((n' :: names) ++ [[]])).
        rewrite <-IH by done. by rewrite <-app_assoc.
      - intros l [Hl| ->%list_elem_of_singleton]%elem_of_app; [|set_solver]. rewrite list.Forall_forall in Hn. by apply Hn. }
    rewrite E, foldl_app, (norm_names names), app_nil_r by done. exact (reverse_involutive names). }
  unfold posixNormalize. rewrite Habs, Htr. cbn [negb]. cbv zeta. rewrite Hsplit.
  rewrite !bool_decide_eq_false_2; [unfold joinNames; by destruct trailing; rewrite ?app_nil_r|by rewrite Eh|by unfold joinNames; rewrite Eh].
Qed.

(** What normalising a relative path that does not climb gives. *)
Lemma normalize_relative s :
  posixIsAbsolute s = false -> climbs s = false ->
  posixNormalize s = dot \/ posixNormalize s = dot ++ [slash] \/
  exists names trailing, Forall plainName names /\ names <> [] /\ posixNormalize s = joinNames names trailing /\
    forall n, n ∈ names -> n ∈ splitUnit slash s.
Proof.
  intros Ha Hc. pose proof (not_climbing_names s Ha Hc) as Hn. unfold posixNormalize at 1 2 3.
  destruct (decide (s = [])) as [->|Hne]; [by left|]. rewrite (bool_decide_eq_false_2 _ Hne), Ha. cbn [negb]. cbv zeta.
  unfold normSegments. set (stack := foldl (normStep true) [] (splitUnit slash s)) in *.
  assert (Hp : Forall plainName (reverse stack)).
  { apply Forall_reverse, list.Forall_forall. intros n Hin. rewrite list.Forall_forall in Hn.
    destruct (Hn n Hin) as (? & ? & ?). destruct (normSegments_elem true _ [] n Hin) as [Hx|(_ & _ & Hx)]; [set_solver|].
    by split_and!. }
  destruct (decide (reverse stack = [])) as [E|E].
  - rewrite E. simpl. destruct (endsWith s [slash]); [by right; left|by left].
  - right. right. exists (reverse stack), (endsWith s [slash]). split_and!; [done|done| |].
    + destruct (join_names_head _ Hp E) as (u & r & Eh & _). rewrite bool_decide_eq_false_2 by (rewrite Eh; done).
      unfold joinNames. by destruct (endsWith s [slash]); rewrite ?app_nil_r.
    + intros n Hin. apply (proj1 (elem_of_reverse _ _)) in Hin. destruct (normSegments_elem true _ [] n Hin) as [Hx|(Hx & _)]; [set_solver|done].
Qed.

Lemma normalize_idem s :
  posixIsAbsolute s = false -> climbs s = false -> posixNormalize (posixNormalize s) = posixNormalize s.
Proof.
  intros Ha Hc. destruct (normalize_relative s Ha Hc) as [->|[->|(names & tr & Hn & Hne & -> & _)]];
    [vm_compute; reflexivity|vm_compute; reflexivity|]. by apply normalize_names.
Qed.

Lemma normalize_relative_head s :
  posixIsAbsolute s = false -> climbs s = false -> posixIsAbsolute (posixNormalize s) = false.
Proof.
  intros Ha Hc. destruct (normalize_relative s Ha Hc) as [->|[->|(names & tr & Hn & Hne & -> & _)]]; [done|done|].
  destruct (join_names_head names Hn Hne) as (u & r & E & Hu). unfold joinNames. rewrite E. cbn [app].
  rewrite absolute_cons. apply Z.eqb_neq. congruence.
Qed.

Lemma normalize_relative_units s u :
  posixIsAbsolute s = false -> climbs s = false -> u ∈ posixNormalize s -> u ∈ s \/ u ∈ dot \/ u = slash.
Proof.
  intros Ha Hc. destruct (normalize_relative s Ha Hc) as [->|[->|(names & tr & _ & _ & -> & Hs)]].
  - by right; left.
  - intros [H|H%list_elem_of_singleton]%elem_of_app; [by right; left|by right; right].
  - intros [[->|(n & Hn%Hs & Hu)]%join_elem|H]%elem_of_app; [by right; right|left; by eapply split_elem|].
    right. right. destruct tr; set_solver.
Qed.

Lemma normalize_nonempty s : posixNormalize s <> [].
Proof.
  unfold posixNormalize. case_bool_decide; [done|]. cbv zeta. case_bool_decide as E; [by repeat case_match|].
  repeat case_match; try done. by destruct (joinUnit _ _).
Qed.
