(* ===== verification/Permissions.v ===== *)
(** * The command permission policies

    [src/permissions/default-policy.ts] and [local-free-policy.ts] over the
    action identities of [permission-types.ts]: which normalised command or
    MCP action is allowed, put to the user or denied, by which rule.  Argv and
    paths are JavaScript strings, never joined into a shell line. *)

From S2P Require Import Prelude JsString PosixPath.
From Stdlib Require Import SpecFloat.
#[local] Open Scope Z_scope.

(** ** Data *)

Inductive PermissionEffect : Type := allow_effect | ask_effect | deny_effect.
#[export] Instance PermissionEffect_eq : EqDecision PermissionEffect.
Proof. solve_decision. Defined.

Inductive CommandPurpose : Type := purpose_inspect | purpose_verify.
#[export] Instance CommandPurpose_eq : EqDecision CommandPurpose.
Proof. solve_decision. Defined.

Record EnvironmentPolicyIdentity : Type := {
  ep_id : jstring; ep_variableNames : list jstring; ep_version : jstring }.

Record BinaryFingerprint : Type := {
  bf_canonicalIdentity : jstring; bf_bytesSha256 : jstring; bf_version : jstring }.

Record PackageManagerIdentity : Type := {
  pm_binary : BinaryFingerprint; pm_logicalName : jstring; pm_version : jstring }.

Record LifecycleScriptFingerprints : Type := {
  ls_mainBodySha256 : jstring; ls_postBodySha256 : option jstring;
  ls_preBodySha256 : option jstring; ls_scriptName : jstring }.

Record RunnerConfigFingerprint : Type := { rc_canonicalPath : jstring; rc_sha256 : jstring }.

Record ExecutionInputFingerprints : Type := {
  ei_lockfileSha256 : option jstring; ei_manifestSha256 : option jstring;
  ei_runnerConfigHashes : list RunnerConfigFingerprint }.

(** [DockerExecutionImageIdentity] of [execution/docker/acquisition/docker-image-identity.ts]. *)
Record TrustedLocalDockerBuildIdentity : Type := {
  tlb_artifactId : jstring; tlb_artifactLockSha256 : jstring; tlb_dockerfileSha256 : jstring;
  tlb_contextManifestSha256 : jstring; tlb_baseImageDigests : list jstring; tlb_configImageId : jstring }.
#[export] Instance TrustedLocalDockerBuildIdentity_eq : EqDecision TrustedLocalDockerBuildIdentity.
Proof. solve_decision. Defined.
Inductive DockerExecutionImageIdentity : Type :=
| registry_digest (reference configImageId : jstring)
| trusted_local_build (build : TrustedLocalDockerBuildIdentity).
#[export] Instance DockerExecutionImageIdentity_eq : EqDecision DockerExecutionImageIdentity.
Proof. solve_decision. Defined.

(** [cpus] is a JavaScript number that need not be an integer: a binary64
    number.  The other limits are the integers the code demands. *)
Record DockerResourceLimits : Type := {
  drl_cpus : spec_float; drl_memoryMiB : Z; drl_pids : Z; drl_tmpMiB : Z }.

Record DockerCommandEnvironmentIdentity : Type := {
  dce_executor : jstring;
  dce_imageDigest : jstring;
  dce_imageIdentity : option DockerExecutionImageIdentity;
  dce_imageReference : jstring;
  dce_network : jstring;
  dce_policyVersion : jstring;
  dce_resourceLimits : DockerResourceLimits;
  dce_snapshotSha256 : jstring;
  dce_sourceStateSha256 : jstring;
  dce_wrapperSha256 : jstring;
}.

Record NormalizedCommandAction : Type := {
  ca_argv : list jstring;
  ca_binary : BinaryFingerprint;
  ca_canonicalCwd : jstring;
  ca_environmentPolicy : EnvironmentPolicyIdentity;
  ca_executionEnvironment : option DockerCommandEnvironmentIdentity;
  ca_executionInputs : ExecutionInputFingerprints;
  ca_lifecycleScripts : option LifecycleScriptFingerprints;
  ca_logicalExecutable : jstring;
  ca_outputLimitBytes : Z;
  ca_packageManager : option PackageManagerIdentity;
  ca_purpose : CommandPurpose;
  ca_timeoutMs : Z;
}.

(** [CommandActionIdentity] extends [NormalizedCommandAction]. *)
Record CommandActionIdentity : Type := {
  ca_normalized :> NormalizedCommandAction;
  ca_actionSha256 : jstring;
  ca_executionInputsSha256 : jstring;
}.

(** The action identities of [mcp/mcp-action-identity.ts]. *)
Inductive IntegrityBinding : Type := explicit_binding | not_bound.
#[export] Instance IntegrityBinding_eq : EqDecision IntegrityBinding.
Proof. solve_decision. Defined.

Record McpServerStartActionIdentity : Type := {
  msa_actionSha256 : jstring; msa_argv : list jstring; msa_canonicalCwd : jstring; msa_configSha256 : jstring;
  msa_envMappingSha256 : jstring; msa_environmentPolicyVersion : jstring; msa_executableIdentitySha256 : jstring;
  msa_integrityBinding : IntegrityBinding; msa_integrityManifestSha256 : jstring; msa_serverId : jstring;
  msa_startupTimeoutMs : Z }.

Record McpToolCallActionIdentity : Type := {
  mta_actionSha256 : jstring; mta_argumentsJson : jstring; mta_argumentsSha256 : jstring; mta_callTimeoutMs : Z;
  mta_catalogSha256 : jstring; mta_configSha256 : jstring; mta_modelToolName : jstring;
  mta_processIdentitySha256 : jstring; mta_rawToolName : jstring; mta_schemaSha256 : jstring;
  mta_serverId : jstring }.

Record McpResourceReadActionIdentity : Type := {
  mra_actionSha256 : jstring; mra_callTimeoutMs : Z; mra_catalogGenerationSha256 : jstring;
  mra_configSha256 : jstring; mra_negotiationSha256 : jstring; mra_processIdentitySha256 : jstring;
  mra_resourceId : jstring; mra_resourceItemSha256 : jstring; mra_serverId : jstring; mra_uriSha256 : jstring }.

Record McpPromptGetActionIdentity : Type := {
  mpa_actionSha256 : jstring; mpa_argumentsJson : jstring; mpa_argumentsSha256 : jstring; mpa_callTimeoutMs : Z;
  mpa_catalogGenerationSha256 : jstring; mpa_configSha256 : jstring; mpa_invocationEventId : jstring;
  mpa_negotiationSha256 : jstring; mpa_processIdentitySha256 : jstring; mpa_promptId : jstring;
  mpa_promptItemSha256 : jstring; mpa_promptName : jstring; mpa_serverId : jstring }.

Inductive McpPermissionActionIdentity : Type :=
| McpServerStart (action : McpServerStartActionIdentity)
| McpToolCall (action : McpToolCallActionIdentity)
| McpResourceRead (action : McpResourceReadActionIdentity)
| McpPromptGet (action : McpPromptGetActionIdentity).

Inductive NormalizedAction : Type :=
| CommandAction (action : CommandActionIdentity)
| McpAction (action : McpPermissionActionIdentity).

(** [PermissionContext]: the trusted review sets; an absent set is empty. *)
Record PermissionContext : Type := {
  pc_reviewedLocalActionSha256 : list jstring;
  pc_reviewedOfflineMcpActionSha256 : list jstring;
  pc_frozenCapabilityMcpActionSha256 : list jstring;
  pc_reviewedOfflineMcpServerIds : list jstring;
  pc_startedMcpServerIds : list jstring;
}.

Record PolicyDecision : Type := {
  pd_effect : PermissionEffect; pd_reasonCode : option string; pd_ruleId : string }.

Definition allow (ruleId : string) : PolicyDecision :=
  {| pd_effect := allow_effect; pd_reasonCode := None; pd_ruleId := ruleId |}.
Definition deny (ruleId reasonCode : string) : PolicyDecision :=
  {| pd_effect := deny_effect; pd_reasonCode := Some reasonCode; pd_ruleId := ruleId |}.
Definition ask (ruleId reasonCode : string) : PolicyDecision :=
  {| pd_effect := ask_effect; pd_reasonCode := Some reasonCode; pd_ruleId := ruleId |}.

(** ** The default policy *)

Definition REGISTERED_EXECUTABLES : list jstring := js <$> ["corepack"; "git"; "node"; "npm"; "pnpm"; "rg"].
Definition INTERPRETERS : list jstring := js <$>
  ["bash"; "bash.exe"; "cmd"; "cmd.exe"; "fish"; "powershell"; "powershell.exe"; "pwsh"; "pwsh.exe";
   "sh"; "sh.exe"; "zsh"].
Definition DELETE_EXECUTABLES : list jstring := js <$>
  ["del"; "diskpart"; "format"; "rd"; "remove-item"; "rm"; "rmdir"].
Definition PRIVILEGE_EXECUTABLES : list jstring := js <$> ["doas"; "net"; "runas"; "sc"; "sudo"; "systemctl"].
Definition NETWORK_EXECUTABLES : list jstring := js <$>
  ["curl"; "ftp"; "gh"; "git-remote-http"; "git-remote-https"; "scp"; "sftp"; "ssh"; "wget"].
Definition DANGEROUS_GIT_SUBCOMMANDS : list jstring := js <$>
  ["checkout"; "clean"; "commit"; "merge"; "pull"; "push"; "rebase"; "reset"; "restore"; "stash"; "switch"].
Definition PACKAGE_MUTATION_SUBCOMMANDS : list jstring := js <$>
  ["add"; "audit"; "create"; "deploy"; "dlx"; "exec"; "i"; "init"; "install"; "link"; "login"; "outdated";
   "pack"; "publish"; "rebuild"; "remove"; "rm"; "uninstall"; "unlink"; "update"; "upgrade"].
Definition COREPACK_MUTATION_SUBCOMMANDS : list jstring := js <$>
  ["cache"; "disable"; "enable"; "hydrate"; "install"; "pack"; "prepare"; "up"; "use"].

Definition has (set : list jstring) (value : jstring) : bool := bool_decide (value ∈ set).

Definition normalizeProgramName (value : jstring) : jstring := toLowerCase (trim value).

Definition hasExecutablePathSyntax (value : jstring) : bool :=
  includes value [slash] || includes value [backslash] || hasDriveLetter value.

(** The argument, and what follows its first [=]. *)
Definition argumentCandidates (argument : jstring) : list jstring :=
  match indexOfUnit 0x3d argument with
  | Some i => [argument; drop (S i) argument]
  | None => [argument]
  end.

(** The simple case folding of the [iu] regular expressions, on the letters of
    the URL schemes: U+017F folds to s and U+212A to k. *)
Definition foldUnit (u : Z) : Z :=
  if (0x41 <=? u) && (u <=? 0x5a) then u + 32
  else if u =? 0x17f then 0x73 else if u =? 0x212a then 0x6b else u.

Definition isNetworkValue (argument : jstring) : bool :=
  existsb (fun candidate =>
    existsb (fun scheme => startsWith (foldUnit <$> candidate) (js scheme))
      ["http://"; "https://"; "ftp://"; "ssh://"]%string) (argumentCandidates argument).

Definition isExternalPathArgument (argument : jstring) : bool :=
  existsb (fun candidate =>
    if (candidate === []) || startsWith candidate (js "-") then false
    else
      let forward := replaceUnit backslash slash candidate in
      if startsWith forward [slash] || hasDriveLetter forward || win32IsAbsolute candidate ||
         posixIsAbsolute candidate then true
      else climbs forward) (argumentCandidates argument).

(** [for] loop with [index += 1] for an option that takes the next argument. *)
Fixpoint findGitSubcommand (argv : list jstring) : option jstring :=
  match argv with
  | [] => None
  | argument :: rest =>
      if (argument === js "-C") || (argument === js "-c") || (argument === js "--git-dir")
      then match rest with _ :: rest' => findGitSubcommand rest' | [] => None end
      else if startsWith argument (js "--git-dir=") || startsWith argument (js "-c") then findGitSubcommand rest
      else if startsWith argument (js "-") then findGitSubcommand rest
      else Some (toLowerCase argument)
  end.

Definition findPackageMutationSubcommand (executable : jstring) (argv : list jstring) : option jstring :=
  let first := toLowerCase <$> argv !! 0%nat in
  let nested := toLowerCase <$> argv !! 1%nat in
  let inSet set o := match o with Some v => if has set v then Some v else None | None => None end in
  if (executable === js "npm") || (executable === js "pnpm") then inSet PACKAGE_MUTATION_SUBCOMMANDS first
  else if executable !== js "corepack" then None
  else match inSet COREPACK_MUTATION_SUBCOMMANDS first with
       | Some v => Some v
       | None =>
           if (first !== Some (js "npm")) && (first !== Some (js "pnpm")) then None
           else inSet PACKAGE_MUTATION_SUBCOMMANDS nested
       end.

Definition isLineTerminator (u : Z) : bool := bool_decide (u ∈ [0x0a; 0x0d; 0x2028; 0x2029]).

Definition isNodeDynamicCodeArgument (argument : jstring) : bool :=
  has (js <$> ["-"; "-e"; "--eval"; "-p"; "--print"]%string) argument ||
  startsWith argument (js "--eval=") || startsWith argument (js "--input-type") ||
  match argument with
  | a :: b :: c :: _ => (a =? 0x2d) && ((b =? 0x65) || (b =? 0x70)) && negb (isLineTerminator c)
  | _ => false
  end.

Definition evaluateHardDeny (action : CommandActionIdentity) : option PolicyDecision :=
  let executable := normalizeProgramName (ca_logicalExecutable action) in
  let argv := ca_argv action in
  if hasExecutablePathSyntax (ca_logicalExecutable action)
  then Some (deny "command.deny.external-executable.v1" "executable_path_forbidden")
  else if has INTERPRETERS executable
  then Some (deny "command.deny.interpreter.v1" "shell_interpreter_forbidden")
  else if has DELETE_EXECUTABLES executable
  then Some (deny "command.deny.delete.v1" "delete_command_forbidden")
  else if has PRIVILEGE_EXECUTABLES executable
  then Some (deny "command.deny.privilege.v1" "privilege_command_forbidden")
  else if has NETWORK_EXECUTABLES executable || existsb isNetworkValue argv
  then Some (deny "command.deny.network.v1" "network_command_forbidden")
  else if existsb isExternalPathArgument argv
  then Some (deny "command.deny.external-path.v1" "external_path_forbidden")
  else if (executable === js "git") &&
          match findGitSubcommand argv with Some s => has DANGEROUS_GIT_SUBCOMMANDS s | None => false end
  then Some (deny "command.deny.dangerous-git.v1" "dangerous_git_subcommand")
  else if (executable === js "node") && existsb isNodeDynamicCodeArgument argv
  then Some (deny "command.deny.node-dynamic-code.v1" "node_dynamic_code_forbidden")
  else match findPackageMutationSubcommand executable argv with
       | Some _ => Some (deny "command.deny.package-mutation.v1" "package_mutation_or_publish_forbidden")
       | None =>
           if negb (has REGISTERED_EXECUTABLES executable)
           then Some (deny "command.deny.unknown-executable.v1" "unknown_executable")
           else None
       end.

Definition isSafeGitDiffShape (argv : list jstring) : bool :=
  if argv === [js "diff"; js "--no-ext-diff"] then true
  else if (length argv <? 4)%nat || (argv !! 0%nat !== Some (js "diff")) ||
          (argv !! 1%nat !== Some (js "--no-ext-diff")) || (argv !! 2%nat !== Some (js "--")) then false
  else forallb (fun pathspec => (0 <? length pathspec)%nat) (drop 3 argv).

Definition evaluateExplicitAllow (action : CommandActionIdentity) : option PolicyDecision :=
  let executable := normalizeProgramName (ca_logicalExecutable action) in
  let argv := ca_argv action in
  if (executable === js "git") && (argv === [js "status"]) then Some (allow "command.allow.git-status-exact.v1")
  else if (executable === js "git") && isSafeGitDiffShape argv
  then Some (allow "command.allow.git-diff-no-ext-diff.v1")
  else if (executable === js "rg") && (argv === [js "--version"])
  then Some (allow "command.allow.rg-version-exact.v1")
  else None.

Definition isRegisteredExecutable (logicalExecutable : jstring) : bool :=
  has REGISTERED_EXECUTABLES (normalizeProgramName logicalExecutable).

Definition evaluateDefaultAskOrUnknown (action : CommandActionIdentity) : PolicyDecision :=
  if isRegisteredExecutable (ca_logicalExecutable action)
  then ask "command.ask.registered.v1" "registered_command_requires_approval"
  else deny "command.deny.unknown-executable.v1" "unknown_executable".

(** [defaultPermissionPolicy.evaluate] *)
Definition defaultPermissionPolicy (action : NormalizedAction) : PolicyDecision :=
  match action with
  | CommandAction command =>
      match evaluateHardDeny command with
      | Some d => d
      | None =>
          match evaluateExplicitAllow command with
          | Some d => d
          | None => evaluateDefaultAskOrUnknown command
          end
      end
  | McpAction _ => deny "default.deny.mcp.v1" "mcp_not_enabled_by_default_policy"
  end.

(** ** The local-free policy *)

Definition PHASE6_FIXTURE_CWD : jstring := js "fixtures/phase-06-command-execution".
Definition PHASE7_FIXTURE_CWDS : list jstring :=
  js <$> ["fixtures/phase-07-fix-and-verify"; "fixtures/phase-07-verification-fails"].

(** [/\.(?:cjs|js|mjs)$/u] *)
Definition supportedExtension (script : jstring) : bool :=
  existsb (fun e => endsWith script (js e)) [".cjs"; ".js"; ".mjs"]%string.

Definition isFixtureNodeCommand (action : CommandActionIdentity) : bool :=
  match ca_argv action with
  | [] => false
  | script :: _ =>
      if (ca_logicalExecutable action !== js "node") ||
         match ca_packageManager action with Some _ => true | None => false end ||
         match ca_lifecycleScripts action with Some _ => true | None => false end then false
      else if startsWith script (js "-") then false
      else
        let normalizedScript := replaceUnit backslash slash script in
        if negb (supportedExtension normalizedScript) || includes normalizedScript (js "../") then false
        else if ca_canonicalCwd action === PHASE6_FIXTURE_CWD then negb (startsWith normalizedScript [slash])
        else if has PHASE7_FIXTURE_CWDS (ca_canonicalCwd action) then normalizedScript === js "verify.mjs"
        else (ca_canonicalCwd action === js ".") && startsWith normalizedScript (PHASE6_FIXTURE_CWD ++ [slash])
  end.

Definition isFixturePackageTestCommand (action : CommandActionIdentity) : bool :=
  match ca_packageManager action, ca_lifecycleScripts action with
  | Some manager, Some scripts =>
      if (ca_canonicalCwd action !== PHASE6_FIXTURE_CWD) || (ls_scriptName scripts !== js "test") ||
         (ei_manifestSha256 (ca_executionInputs action) === None) then false
      else
        let executable := ca_logicalExecutable action in
        let argv := ca_argv action in
        if (executable === js "pnpm") || (executable === js "npm") then
          (pm_logicalName manager === executable) &&
          ((argv === [js "test"]) || (argv === [js "run"; js "test"]))
        else if executable !== js "corepack" then false
        else
          let name := pm_logicalName manager in
          ((name === js "pnpm") || (name === js "npm")) &&
          ((argv === [name; js "test"]) || (argv === [name; js "run"; js "test"]))
  | _, _ => false
  end.

Definition isPhase6ReviewedFixtureShape (action : CommandActionIdentity) : bool :=
  isFixtureNodeCommand action || isFixturePackageTestCommand action.

(** [action.executionEnvironment?.executor === "docker"] *)
Definition ca_dockerEnvironment (action : NormalizedCommandAction) : bool :=
  match ca_executionEnvironment action with
  | Some environment => dce_executor environment === js "docker"
  | None => false
  end.

(** What is asked of a primitive whose server was reviewed or started. *)
Definition evaluateReviewedServer (serverId : jstring) (context : PermissionContext) (asked : PolicyDecision)
  : PolicyDecision :=
  if negb (has (pc_reviewedOfflineMcpServerIds context) serverId) &&
     negb (has (pc_startedMcpServerIds context) serverId)
  then deny "local-free.deny.unreviewed-mcp.v1" "mcp_server_not_reviewed_offline"
  else asked.

(** [localFreeOnlyPermissionPolicy.evaluate] *)
Definition localFreeOnlyPermissionPolicy (action : NormalizedAction) (context : PermissionContext)
  : PolicyDecision :=
  match action with
  | McpAction (McpServerStart start) =>
      let actionSha256 := msa_actionSha256 start in
      let reviewed := has (pc_reviewedOfflineMcpActionSha256 context) actionSha256 in
      let frozenCapability := has (pc_frozenCapabilityMcpActionSha256 context) actionSha256 in
      if negb reviewed && negb frozenCapability
      then deny "local-free.deny.unreviewed-mcp.v1" "mcp_start_not_in_reviewed_offline_set"
      else if frozenCapability
      then ask "local-free.ask.frozen-capability-mcp-start.v1" "frozen_capability_mcp_start_requires_user_approval"
      else ask "local-free.ask.reviewed-offline-mcp-start.v1" "reviewed_offline_mcp_start_requires_user_approval"
  | McpAction (McpToolCall call) =>
      evaluateReviewedServer (mta_serverId call) context
        (ask "local-free.ask.reviewed-offline-mcp-call.v1" "reviewed_offline_mcp_call_requires_user_approval")
  | McpAction (McpResourceRead {| mra_serverId := serverId |} | McpPromptGet {| mpa_serverId := serverId |}) =>
      evaluateReviewedServer serverId context
        (ask "local-free.ask.reviewed-offline-mcp-primitive.v1"
             "reviewed_offline_mcp_primitive_requires_user_approval")
  | CommandAction command =>
      match evaluateHardDeny command with
      | Some d => d
      | None =>
          if ca_dockerEnvironment command
          then ask "local-free.ask.docker-sandbox-command.v1" "offline_docker_sandbox_command_requires_user_approval"
          else if negb (isPhase6ReviewedFixtureShape command)
          then deny "local-free.deny.unsupported-command-shape.v1" "local_free_only_unsupported_command"
          else if negb (has (pc_reviewedLocalActionSha256 context) (ca_actionSha256 command))
          then deny "local-free.deny.unreviewed-action.v1" "fixture_action_not_in_trusted_review_set"
          else ask "local-free.ask.reviewed-phase6-fixture.v1" "reviewed_offline_fixture_requires_user_approval"
      end
  end.
