(* ===== verification/PermissionsFacts.v ===== *)
(** * What the permission policies guarantee

    Which commands run without asking, what every command that is not denied
    keeps to, and how the local-free policy narrows the default one. *)

From S2P Require Import Prelude JsString PosixPath Permissions.
#[local] Open Scope Z_scope.

Lemma has_spec set value : has set value = true <-> value ∈ set.
Proof. unfold has. by rewrite bool_decide_eq_true. Qed.

(** ** Program names *)

Lemma trimStart_elem u s : u ∈ s -> isJsSpace u = false -> u ∈ trimStart s.
Proof.
  induction s as [|v s IH]; simpl; [done|]. intros H Hu.
  destruct (isJsSpace v) eqn:E; [|done]. apply IH; [|done]. apply elem_of_cons in H as [->|H]; [congruence|done].
Qed.

Lemma trim_elem u s : u ∈ s -> isJsSpace u = false -> u ∈ trim s.
Proof.
  intros H Hu. unfold trim, trimEnd. apply elem_of_reverse, trimStart_elem; [|done].
  by apply elem_of_reverse, trimStart_elem.
Qed.

(** A unit that lower-casing keeps. *)
Definition caseless (u : Z) : Prop := (u < 0x41 \/ 0x5a < u) /\ u <> 0x212a /\ u <> 0x130.

Lemma toLowerCase_elem u s : u ∈ s -> caseless u -> u ∈ toLowerCase s.
Proof.
  intros H (Hu & Hk & Hi). induction s as [|v s IH]; simpl; [done|].
  apply elem_of_app. apply elem_of_cons in H as [<-|H]; [left|right; by apply IH].
  destruct (0x41 <=? u) eqn:E1, (u <=? 0x5a) eqn:E2; simpl;
    rewrite ?Z.leb_le, ?Z.leb_gt in *; try lia;
    (destruct (u =? 0x212a) eqn:E3; [lia|]); (destruct (u =? 0x130) eqn:E4; [lia|]); set_solver.
Qed.

Lemma normalized_elem u s :
  u ∈ s -> isJsSpace u = false -> caseless u -> u ∈ normalizeProgramName s.
Proof. intros ???. unfold normalizeProgramName. apply toLowerCase_elem; [by apply trim_elem|done]. Qed.

Lemma includes_elem s u : includes s [u] = true -> u ∈ s.
Proof.
  induction s as [|v s IH]; simpl; [done|]. intros [H|H]%orb_true_iff; [|right; by apply IH].
  destruct s; apply andb_true_iff in H as [H _]; apply Z.eqb_eq in H; subst; left.
Qed.

(** A program name without path characters was written without them. *)
Lemma plain_program value :
  slash ∉ normalizeProgramName value -> backslash ∉ normalizeProgramName value ->
  0x3a ∉ normalizeProgramName value -> hasExecutablePathSyntax value = false.
Proof.
  intros H1 H2 H3. unfold hasExecutablePathSyntax. apply orb_false_iff. split; [apply orb_false_iff; split|].
  - apply not_true_iff_false. intros Hi%includes_elem. apply H1. apply normalized_elem; [done|done|].
    unfold caseless, slash. lia.
  - apply not_true_iff_false. intros Hi%includes_elem. apply H2. apply normalized_elem; [done|done|].
    unfold caseless, backslash. lia.
  - destruct value as [|u [|v r]]; simpl; try done. destruct (Z.eqb_spec v 0x3a) as [->|]; [|by rewrite andb_false_r].
    exfalso. apply H3. apply normalized_elem; [right; left|done|]. unfold caseless. lia.
Qed.

(** ** Inversion of the hard denials *)

Lemma hard_deny_effect action d : evaluateHardDeny action = Some d -> pd_effect d = deny_effect.
Proof. unfold evaluateHardDeny. intros H. repeat (case_match; try by simplify_eq). Qed.

Record not_hard_denied (action : CommandActionIdentity) : Prop := {
  nd_path : hasExecutablePathSyntax (ca_logicalExecutable action) = false;
  nd_network : forall a, a ∈ ca_argv action -> isNetworkValue a = false;
  nd_external : forall a, a ∈ ca_argv action -> isExternalPathArgument a = false;
  nd_registered : normalizeProgramName (ca_logicalExecutable action) ∈ REGISTERED_EXECUTABLES;
  nd_git : normalizeProgramName (ca_logicalExecutable action) = js "git" ->
             forall s, findGitSubcommand (ca_argv action) = Some s -> s ∉ DANGEROUS_GIT_SUBCOMMANDS;
  nd_node : normalizeProgramName (ca_logicalExecutable action) = js "node" ->
             forall a, a ∈ ca_argv action -> isNodeDynamicCodeArgument a = false;
  nd_package : findPackageMutationSubcommand (normalizeProgramName (ca_logicalExecutable action))
                 (ca_argv action) = None;
}.

Lemma hard_deny_none action : evaluateHardDeny action = None <-> not_hard_denied action.
Proof.
  unfold evaluateHardDeny. set (prog := normalizeProgramName (ca_logicalExecutable action)).
  split.
  - intros H. destruct (hasExecutablePathSyntax _) eqn:E1; [done|]. destruct (has INTERPRETERS prog) eqn:E2; [done|].
    destruct (has DELETE_EXECUTABLES prog); [done|]. destruct (has PRIVILEGE_EXECUTABLES prog); [done|].
    destruct (has NETWORK_EXECUTABLES prog || existsb isNetworkValue (ca_argv action)) eqn:E3; [done|].
    apply orb_false_iff in E3 as [_ E3].
    destruct (existsb isExternalPathArgument (ca_argv action)) eqn:E4; [done|].
    destruct ((prog === js "git") && _) eqn:E5; [done|]. destruct ((prog === js "node") && _) eqn:E6; [done|].
    destruct (findPackageMutationSubcommand prog (ca_argv action)) eqn:E7; [done|].
    destruct (has REGISTERED_EXECUTABLES prog) eqn:E8; [|done].
    split; try done.
    + by apply existsb_false.
    + by apply existsb_false.
    + by apply has_spec.
    + intros Hg s Hs. fold prog in Hg. rewrite bool_decide_eq_true_2, Hs in E5 by done. simpl in E5.
      intros Hin%has_spec. congruence.
    + intros Hn. fold prog in Hn. rewrite bool_decide_eq_true_2 in E6 by done. by apply existsb_false.
  - intros [E1 E2 E3 E4 E5 E6 E7]. fold prog in E4, E5, E6, E7. rewrite E1.
    assert (Hdisj : forall l, (forall x, x ∈ REGISTERED_EXECUTABLES -> has l x = false) -> has l prog = false)
      by (intros l Hl; by apply Hl).
    assert (Hreg : forall l, forallb (fun x => negb (has l x)) REGISTERED_EXECUTABLES = true -> has l prog = false).
    { intros l Hl. apply Hdisj. intros x Hx. rewrite forallb_forall in Hl. setoid_rewrite <-list_elem_of_In in Hl.
      by apply negb_true_iff, Hl. }
    rewrite (Hreg INTERPRETERS), (Hreg DELETE_EXECUTABLES), (Hreg PRIVILEGE_EXECUTABLES), (Hreg NETWORK_EXECUTABLES)
      by (vm_compute; reflexivity).
    rewrite (proj2 (existsb_false _ _) E2), (proj2 (existsb_false _ _) E3). simpl.
    assert ((prog === js "git") && match findGitSubcommand (ca_argv action) with
      Some s => has DANGEROUS_GIT_SUBCOMMANDS s | None => false end = false) as ->.
    { case_bool_decide as Hg; [|done]. simpl. destruct (findGitSubcommand _) as [s|]; [|done].
      unfold has. apply bool_decide_eq_false_2. by apply E5. }
    assert ((prog === js "node") && existsb isNodeDynamicCodeArgument (ca_argv action) = false) as ->.
    { case_bool_decide as Hn; [|done]. simpl. by apply existsb_false, E6. }
    rewrite E7. apply has_spec in E4. by rewrite E4.
Qed.

(** ** What runs without asking *)

(** The argv shapes the default policy allows. *)
Inductive allowed_shape : jstring -> list jstring -> Prop :=
| allowed_status : allowed_shape (js "git") [js "status"]
| allowed_diff : allowed_shape (js "git") [js "diff"; js "--no-ext-diff"]
| allowed_diff_paths p ps :
    Forall (fun a => a <> [] /\ isNetworkValue a = false /\ isExternalPathArgument a = false) (p :: ps) ->
    allowed_shape (js "git") (js "diff" :: js "--no-ext-diff" :: js "--" :: p :: ps)
| allowed_version : allowed_shape (js "rg") [js "--version"].

Lemma safe_diff_spec argv :
  isSafeGitDiffShape argv = true <->
  argv = [js "diff"; js "--no-ext-diff"] \/
  exists p ps, argv = js "diff" :: js "--no-ext-diff" :: js "--" :: p :: ps /\ Forall (fun a => a <> []) (p :: ps).
Proof.
  unfold isSafeGitDiffShape. case_bool_decide as E; [by split; [left|]|].
  assert (Hps : forall l, forallb (fun pathspec : jstring => (0 <? length pathspec)%nat) l = true <->
    Forall (fun a => a <> []) l).
  { intros l. rewrite forallb_forall, list.Forall_forall. setoid_rewrite <-list_elem_of_In.
    split; intros H a Ha; specialize (H a Ha); destruct a; done. }
  split.
  - intros H. destruct ((length argv <? 4)%nat || _ || _ || _) eqn:Eb; [done|].
    rewrite !orb_false_iff, !negb_false_iff, !bool_decide_eq_true, Nat.ltb_ge in Eb. destruct Eb as [[[Hl H0] H1] H2].
    destruct argv as [|a [|b [|c [|p ps]]]]; simpl in *; try lia. simplify_eq.
    right. exists p, ps. split; [done|]. by apply Hps.
  - intros [->|(p & ps & -> & Hf)]; [done|]. exact (proj2 (Hps (p :: ps)) Hf).
Qed.

Lemma allowed_not_denied (action : CommandActionIdentity) :
  allowed_shape (normalizeProgramName (ca_logicalExecutable action)) (ca_argv action) -> not_hard_denied action.
Proof.
  intros H.
  assert (Hprog : normalizeProgramName (ca_logicalExecutable action) = js "git" \/
                  normalizeProgramName (ca_logicalExecutable action) = js "rg")
    by (destruct H; auto).
  assert (Hplain : hasExecutablePathSyntax (ca_logicalExecutable action) = false).
  { destruct Hprog as [E|E]; apply plain_program; rewrite E; apply (bool_decide_eq_true_1 (_ ∉ _));
      vm_compute; reflexivity. }
  remember (normalizeProgramName (ca_logicalExecutable action)) as prog eqn:Eprog.
  remember (ca_argv action) as argv eqn:Eargv.
  assert (Hargs : forall a, a ∈ argv -> isNetworkValue a = false /\ isExternalPathArgument a = false).
  { destruct H as [| |p ps Hf|]; intros a; rewrite ?elem_of_cons, ?elem_of_nil.
    all: repeat match goal with |- _ \/ _ -> _ => intros [->|Ha]; [split; vm_compute; reflexivity|revert Ha] end.
    all: try done.
    intros Ha. rewrite list.Forall_forall in Hf. apply (Hf a). by apply elem_of_cons. }
  split; rewrite <-?Eprog, <-?Eargv; try done.
  - intros a Ha. by apply Hargs.
  - intros a Ha. by apply Hargs.
  - apply has_spec. destruct Hprog as [->| ->]; vm_compute; reflexivity.
  - intros _ s Hs. destruct H; vm_compute in Hs; (discriminate Hs || injection Hs as <-);
      apply (bool_decide_eq_true_1 (_ ∉ _)); vm_compute; reflexivity.
  - intros Hn. exfalso. destruct Hprog as [Hp|Hp]; by rewrite Hp in Hn.
  - destruct Hprog as [->| ->]; vm_compute; reflexivity.
Qed.

(** What the default policy lets run without asking: exactly the commands
    whose program is git with argv [status], [diff --no-ext-diff] or
    [diff --no-ext-diff --] and pathspecs that are not empty, not URLs and
    stay in the workspace, and [rg --version].  Nothing else, and no MCP
    action. *)
Lemma default_policy_allows_exactly action :
  pd_effect (defaultPermissionPolicy action) = allow_effect <->
  exists command, action = CommandAction command /\
    allowed_shape (normalizeProgramName (ca_logicalExecutable command)) (ca_argv command).
Proof.
  split.
  - destruct action as [command|]; simpl; [|done].
    destruct (evaluateHardDeny command) as [d|] eqn:Ed; [by rewrite (hard_deny_effect _ _ Ed)|].
    apply hard_deny_none in Ed. destruct Ed as [_ En Ee _ _ _ _].
    destruct (evaluateExplicitAllow command) as [d|] eqn:Ea;
      [|unfold evaluateDefaultAskOrUnknown; by destruct (isRegisteredExecutable _)].
    intros _. exists command. split; [done|]. unfold evaluateExplicitAllow in Ea.
    destruct ((_ === js "git") && (_ === [js "status"])) eqn:E1.
    { apply andb_true_iff in E1 as [->%bool_decide_eq_true_1 ->%bool_decide_eq_true_1]. constructor. }
    destruct ((_ === js "git") && isSafeGitDiffShape _) eqn:E2.
    { apply andb_true_iff in E2 as [->%bool_decide_eq_true_1 [E2|(p & ps & E2 & Hne)]%safe_diff_spec];
        rewrite E2; [constructor|]. constructor. rewrite E2 in En, Ee.
      apply list.Forall_forall. intros a Ha. rewrite list.Forall_forall in Hne.
      split; [by apply Hne|]. split; [apply En|apply Ee]; rewrite !elem_of_cons in *; tauto. }
    destruct ((_ === js "rg") && _) eqn:E3; [|done].
    apply andb_true_iff in E3 as [->%bool_decide_eq_true_1 ->%bool_decide_eq_true_1]. constructor.
  - intros (command & -> & Hs). simpl.
    rewrite (proj2 (hard_deny_none command)) by (by apply allowed_not_denied).
    unfold evaluateExplicitAllow. destruct Hs as [| |p ps Hf|]; try (vm_compute; reflexivity).
    rewrite (proj2 (safe_diff_spec _)); [by vm_compute|]. right. exists p, ps. split; [done|].
    eapply list.Forall_impl; [exact Hf|]. by intros a [? _].
Qed.

(** ** What is not denied *)

Lemma candidate_inside argument candidate base :
  isExternalPathArgument argument = false -> candidate ∈ argumentCandidates argument ->
  candidate <> [] -> startsWith candidate (js "-") = false ->
  exists rest, resolveFrom base (replaceUnit backslash slash candidate) = base ++ rest.
Proof.
  intros H Hin Hne Hd. unfold isExternalPathArgument in H. rewrite existsb_false in H.
  specialize (H _ Hin). cbv zeta in H.
  rewrite bool_decide_eq_false_2, Hd in H by done. simpl in H.
  destruct (startsWith (replaceUnit _ _ candidate) [slash]) eqn:E; [done|]. simpl in H.
  destruct (hasDriveLetter _); [done|]. destruct (win32IsAbsolute _); [done|].
  destruct (posixIsAbsolute candidate); [done|]. by apply not_climbing_inside.
Qed.

Lemma default_deny_local action context :
  pd_effect (defaultPermissionPolicy (CommandAction action)) = deny_effect ->
  localFreeOnlyPermissionPolicy (CommandAction action) context = defaultPermissionPolicy (CommandAction action).
Proof.
  simpl. destruct (evaluateHardDeny action) as [d|] eqn:Ed; [done|]. intros H. exfalso. revert H.
  apply hard_deny_none in Ed. destruct Ed as [_ _ _ Er _ _ _]. apply has_spec in Er.
  unfold evaluateExplicitAllow, evaluateDefaultAskOrUnknown, isRegisteredExecutable. rewrite Er.
  repeat case_match; simplify_eq/=; discriminate.
Qed.

Lemma not_denied action context :
  pd_effect (defaultPermissionPolicy (CommandAction action)) <> deny_effect \/
  pd_effect (localFreeOnlyPermissionPolicy (CommandAction action) context) <> deny_effect ->
  not_hard_denied action.
Proof.
  intros H. apply hard_deny_none. destruct (evaluateHardDeny action) as [d|] eqn:Ed; [|done].
  apply hard_deny_effect in Ed as E. exfalso. simpl in H. rewrite Ed in H. by destruct H.
Qed.

(** A command that either policy does not deny keeps inside the workspace
    lexically: its program is a registered one written without a path, no
    argument (nor what follows its first [=]) is a URL, and every one of them
    that is not an option, with backslashes read as slashes, resolves under
    the directory it is resolved from, whatever that directory is. *)
Theorem permitted_arguments_stay_inside command context :
  pd_effect (defaultPermissionPolicy (CommandAction command)) <> deny_effect \/
  pd_effect (localFreeOnlyPermissionPolicy (CommandAction command) context) <> deny_effect ->
  normalizeProgramName (ca_logicalExecutable command) ∈ REGISTERED_EXECUTABLES /\
  hasExecutablePathSyntax (ca_logicalExecutable command) = false /\
  forall argument candidate, argument ∈ ca_argv command -> candidate ∈ argumentCandidates argument ->
    isNetworkValue argument = false /\
    (candidate <> [] -> startsWith candidate (js "-") = false ->
     forall base, exists rest, resolveFrom base (replaceUnit backslash slash candidate) = base ++ rest).
Proof.
  intros H. apply not_denied in H as [Hp Hn He Hr _ _ _]. split; [done|]. split; [done|].
  intros argument candidate Ha Hc. split; [by apply Hn|]. intros. eapply candidate_inside; eauto.
Qed.

(** The local-free policy only narrows: it never lets anything run without
    asking; what the default policy denies it denies by the same rule; and it
    asks only for a command that runs in the Docker sandbox or is a fixture
    command whose digest is in the trusted review set, for an MCP start whose
    digest is reviewed or frozen, or for a primitive of a server that is
    reviewed or was started. *)
Theorem local_free_asks_only_reviewed action context :
  pd_effect (localFreeOnlyPermissionPolicy action context) <> allow_effect /\
  match action with
  | CommandAction command =>
      (pd_effect (defaultPermissionPolicy action) = deny_effect ->
       localFreeOnlyPermissionPolicy action context = defaultPermissionPolicy action) /\
      (pd_effect (localFreeOnlyPermissionPolicy action context) = ask_effect <->
       not_hard_denied command /\
       (ca_dockerEnvironment command = true \/
        isPhase6ReviewedFixtureShape command = true /\
        ca_actionSha256 command ∈ pc_reviewedLocalActionSha256 context))
  | McpAction (McpServerStart start) =>
      let digest := msa_actionSha256 start in
      pd_effect (localFreeOnlyPermissionPolicy action context) = ask_effect <->
      digest ∈ pc_reviewedOfflineMcpActionSha256 context \/ digest ∈ pc_frozenCapabilityMcpActionSha256 context
  | McpAction (McpToolCall {| mta_serverId := serverId |} | McpResourceRead {| mra_serverId := serverId |} |
               McpPromptGet {| mpa_serverId := serverId |}) =>
      pd_effect (localFreeOnlyPermissionPolicy action context) = ask_effect <->
      serverId ∈ pc_reviewedOfflineMcpServerIds context \/ serverId ∈ pc_startedMcpServerIds context
  end.
Proof.
  destruct action as [command|[start|[]|[]|[]]].
  - assert (Hd : forall d, evaluateHardDeny command = Some d -> pd_effect d = deny_effect)
      by (intros; by eapply hard_deny_effect).
    split; [|split; [apply default_deny_local|]]; simpl;
      rewrite <-?hard_deny_none; destruct (evaluateHardDeny command) as [d|].
    + by rewrite (Hd d eq_refl).
    + repeat case_match; done.
    + rewrite (Hd d eq_refl). intuition discriminate.
    + rewrite <-has_spec. destruct (ca_dockerEnvironment command); simpl; [tauto|].
      destruct (isPhase6ReviewedFixtureShape command); simpl; [|intuition discriminate].
      destruct (has _ _); simpl; intuition discriminate.
  - simpl. rewrite <-!has_spec. destruct (has _ (msa_actionSha256 start)), (has _ (msa_actionSha256 start)); simpl;
      intuition discriminate.
  - simpl. unfold evaluateReviewedServer. rewrite <-!has_spec.
    destruct (has _ mta_serverId), (has _ mta_serverId); simpl; intuition discriminate.
  - simpl. unfold evaluateReviewedServer. rewrite <-!has_spec.
    destruct (has _ mra_serverId), (has _ mra_serverId); simpl; intuition discriminate.
  - simpl. unfold evaluateReviewedServer. rewrite <-!has_spec.
    destruct (has _ mpa_serverId), (has _ mpa_serverId); simpl; intuition discriminate.
Qed.

(** ** Git options that take a separate argument

    [findGitSubcommand] knows three options whose argument is the next word.
    Git has more: after [--work-tree] the path is taken for the subcommand, so
    a [reset] behind it is not seen and the command is asked, not denied. *)

Definition gitCommand (argv : list jstring) : CommandActionIdentity := {|
  ca_normalized := {|
  ca_argv := argv;
  ca_binary := {| bf_canonicalIdentity := js "git"; bf_bytesSha256 := []; bf_version := js "2" |};
  ca_canonicalCwd := js ".";
  ca_environmentPolicy := {| ep_id := js "e"; ep_variableNames := []; ep_version := js "1" |};
  ca_executionEnvironment := None;
  ca_executionInputs := {| ei_lockfileSha256 := None; ei_manifestSha256 := None; ei_runnerConfigHashes := [] |};
  ca_lifecycleScripts := None; ca_logicalExecutable := js "git"; ca_outputLimitBytes := 1000;
  ca_packageManager := None; ca_purpose := purpose_inspect; ca_timeoutMs := 1000 |};
  ca_actionSha256 := js "d"; ca_executionInputsSha256 := js "i" |}.

Example git_reset_denied :
  pd_ruleId (defaultPermissionPolicy (CommandAction (gitCommand [js "-C"; js "sub"; js "reset"; js "--hard"])))
    = "command.deny.dangerous-git.v1"%string.
Proof. vm_compute. reflexivity. Qed.

Example git_reset_behind_work_tree_asked :
  pd_effect (defaultPermissionPolicy
    (CommandAction (gitCommand [js "--work-tree"; js "."; js "reset"; js "--hard"]))) = ask_effect.
Proof. vm_compute. reflexivity. Qed.

Lemma permitted_arguments_stay_inside_witness :
  exists rest, resolveFrom [js "home"; js "ws"] (js "src/../lib") = [js "home"; js "ws"] ++ rest.
Proof.
  assert (Hnd : pd_effect (defaultPermissionPolicy (CommandAction
    (gitCommand [js "diff"; js "--no-ext-diff"; js "--"; js "src/../lib"]))) <> deny_effect)
    by (vm_compute; discriminate).
  destruct (permitted_arguments_stay_inside _ {| pc_reviewedLocalActionSha256 := [];
    pc_reviewedOfflineMcpActionSha256 := []; pc_frozenCapabilityMcpActionSha256 := [];
    pc_reviewedOfflineMcpServerIds := []; pc_startedMcpServerIds := [] |} (or_introl Hnd)) as (_ & _ & H).
  destruct (H (js "src/../lib") (js "src/../lib")) as [_ Hr].
  - right. right. right. left.
  - left.
  - exact (Hr ltac:(discriminate) ltac:(reflexivity) [js "home"; js "ws"]).
Defined.
