(* ===== verification/Utf8.v ===== *)
(** * UTF-8

    Node's [TextDecoder("utf-8", { fatal: true })] and [Buffer.from(_, "utf8")]:
    bytes to JavaScript strings and back.  The decoder drops a leading byte
    order mark, as [TextDecoder] does by default. *)

From S2P Require Import Prelude JsString.
#[local] Open Scope Z_scope.

Definition isCont (b : Z) : bool := (0x80 <=? b) && (b <=? 0xbf).

(** The scalar values of well-formed UTF-8; [None] where the decoder throws. *)
Fixpoint decodeScalars (bs : list Z) : option (list Z) :=
  match bs with
  | [] => Some []
  | b0 :: r0 =>
      if (0 <=? b0) && (b0 <=? 0x7f) then (cons b0) <$> decodeScalars r0
      else if (0xc2 <=? b0) && (b0 <=? 0xdf) then
        match r0 with
        | b1 :: r1 => if isCont b1 then (cons ((b0 - 0xc0) * 0x40 + (b1 - 0x80))) <$> decodeScalars r1 else None
        | [] => None
        end
      else if (0xe0 <=? b0) && (b0 <=? 0xef) then
        match r0 with
        | b1 :: b2 :: r2 =>
            if isCont b1 && isCont b2 && ((0xe0 <? b0) || (0xa0 <=? b1)) && (negb (b0 =? 0xed) || (b1 <=? 0x9f))
            then (cons ((b0 - 0xe0) * 0x1000 + (b1 - 0x80) * 0x40 + (b2 - 0x80))) <$> decodeScalars r2
            else None
        | _ => None
        end
      else if (0xf0 <=? b0) && (b0 <=? 0xf4) then
        match r0 with
        | b1 :: b2 :: b3 :: r3 =>
            if isCont b1 && isCont b2 && isCont b3 && ((0xf0 <? b0) || (0x90 <=? b1)) &&
               (negb (b0 =? 0xf4) || (b1 <=? 0x8f))
            then (cons ((b0 - 0xf0) * 0x40000 + (b1 - 0x80) * 0x1000 + (b2 - 0x80) * 0x40 + (b3 - 0x80)))
                   <$> decodeScalars r3
            else None
        | _ => None
        end
      else None
  end.

(** The UTF-16 code units of a scalar value. *)
Definition units (c : Z) : jstring :=
  if c <? 0x10000 then [c] else [0xd800 + (c - 0x10000) / 0x400; 0xdc00 + (c - 0x10000) mod 0x400].

(** The UTF-8 bytes of a code point; a lone surrogate is written as U+FFFD. *)
Definition encodeCodePoint (c : Z) : list Z :=
  if c <? 0x80 then [c]
  else if c <? 0x800 then [0xc0 + c / 0x40; 0x80 + c mod 0x40]
  else if (0xd800 <=? c) && (c <=? 0xdfff) then [0xef; 0xbf; 0xbd]
  else if c <? 0x10000 then [0xe0 + c / 0x1000; 0x80 + (c / 0x40) mod 0x40; 0x80 + c mod 0x40]
  else [0xf0 + c / 0x40000; 0x80 + (c / 0x1000) mod 0x40; 0x80 + (c / 0x40) mod 0x40; 0x80 + c mod 0x40].

(** [Buffer.from(s, "utf8")] *)
Definition encodeUtf8 (s : jstring) : list Z := concat (encodeCodePoint <$> codePoints s).

Definition BOM : list Z := [0xef; 0xbb; 0xbf].

Definition dropBom (cs : list Z) : list Z :=
  match cs with c :: cs' => if c =? 0xfeff then cs' else cs | [] => [] end.

(** [new TextDecoder("utf-8", { fatal: true }).decode(bytes)] *)
Definition textDecode (bs : list Z) : option jstring :=
  (fun cs => concat (units <$> dropBom cs)) <$> decodeScalars bs.

(** ** Decoding, then encoding *)

Definition isScalar (c : Z) : Prop := (0 <= c < 0xd800) \/ (0xdfff < c <= 0x10ffff).

Lemma codePoints_units c s : isScalar c -> codePoints (units c ++ s) = c :: codePoints s.
Proof.
  intros H. unfold units. destruct (Z.ltb_spec c 0x10000); simpl.
  - unfold isHighSurrogate. replace ((0xd800 <=? c) && (c <=? 0xdbff)) with false; [done|].
    symmetry. apply andb_false_iff. rewrite !Z.leb_gt. unfold isScalar in H. lia.
  - unfold isScalar in H. pose proof (Z.mod_pos_bound (c - 0x10000) 0x400).
    pose proof (Z.div_mod (c - 0x10000) 0x400).
    assert (0 <= (c - 0x10000) / 0x400 <= 0x3ff) by (split; [apply Z.div_pos; lia|apply Z.lt_succ_r, Z.div_lt_upper_bound; lia]).
    unfold isHighSurrogate, isLowSurrogate.
    rewrite !(proj2 (Z.leb_le _ _)) by lia. simpl. f_equal. lia.
Qed.

Lemma encode_units cs : Forall isScalar cs -> encodeUtf8 (concat (units <$> cs)) = concat (encodeCodePoint <$> cs).
Proof.
  intros H. unfold encodeUtf8. f_equal. f_equal. induction H as [|c cs Hc _ IH]; [done|].
  by rewrite fmap_cons, concat_cons, codePoints_units, IH.
Qed.

Lemma digits2 a b : 0 <= b < 0x40 -> (a * 0x40 + b) / 0x40 = a /\ (a * 0x40 + b) mod 0x40 = b.
Proof.
  intros Hb. split; [rewrite Z.div_add_l by lia; rewrite Z.div_small; lia|].
  rewrite Z.add_comm, Z.mod_add by lia. by apply Z.mod_small.
Qed.

Lemma isCont_spec b : isCont b = true <-> 0x80 <= b <= 0xbf.
Proof. unfold isCont. rewrite andb_true_iff, !Z.leb_le. lia. Qed.

(** One encoded scalar value. *)
Lemma encode2 b0 b1 : 0xc2 <= b0 <= 0xdf -> isCont b1 = true ->
  let c := (b0 - 0xc0) * 0x40 + (b1 - 0x80) in isScalar c /\ encodeCodePoint c = [b0; b1].
Proof.
  intros H0 H1%isCont_spec c. destruct (digits2 (b0 - 0xc0) (b1 - 0x80)) as [Hd Hm]; [lia|]. fold c in Hd, Hm.
  split; [unfold isScalar; lia|]. unfold encodeCodePoint.
  destruct (Z.ltb_spec c 0x80); [lia|]. destruct (Z.ltb_spec c 0x800); [|lia].
  rewrite Hd, Hm. f_equal; [lia|]. f_equal. lia.
Qed.

Lemma encode3 b0 b1 b2 : 0xe0 <= b0 <= 0xef -> isCont b1 = true -> isCont b2 = true ->
  (0xe0 < b0 \/ 0xa0 <= b1) -> (b0 <> 0xed \/ b1 <= 0x9f) ->
  let c := (b0 - 0xe0) * 0x1000 + (b1 - 0x80) * 0x40 + (b2 - 0x80) in
  isScalar c /\ encodeCodePoint c = [b0; b1; b2].
Proof.
  intros H0 H1%isCont_spec H2%isCont_spec Hlo Hsur c.
  destruct (digits2 ((b0 - 0xe0) * 0x40 + (b1 - 0x80)) (b2 - 0x80)) as [Hd Hm]; [lia|].
  destruct (digits2 (b0 - 0xe0) (b1 - 0x80)) as [Hd1 Hm1]; [lia|].
  assert (Ec : c = ((b0 - 0xe0) * 0x40 + (b1 - 0x80)) * 0x40 + (b2 - 0x80)) by (unfold c; lia).
  rewrite <-Ec in Hd, Hm. split; [unfold isScalar; lia|]. unfold encodeCodePoint.
  destruct (Z.ltb_spec c 0x80); [lia|]. destruct (Z.ltb_spec c 0x800); [lia|].
  destruct ((0xd800 <=? c) && (c <=? 0xdfff)) eqn:E; [rewrite andb_true_iff, !Z.leb_le in E; lia|].
  destruct (Z.ltb_spec c 0x10000); [|lia].
  replace (c / 0x1000) with (c / 0x40 / 0x40) by (rewrite Z.div_div by lia; done).
  rewrite Hd, Hd1, Hm1, Hm. repeat f_equal; lia.
Qed.

Lemma encode4 b0 b1 b2 b3 : 0xf0 <= b0 <= 0xf4 -> isCont b1 = true -> isCont b2 = true -> isCont b3 = true ->
  (0xf0 < b0 \/ 0x90 <= b1) -> (b0 <> 0xf4 \/ b1 <= 0x8f) ->
  let c := (b0 - 0xf0) * 0x40000 + (b1 - 0x80) * 0x1000 + (b2 - 0x80) * 0x40 + (b3 - 0x80) in
  isScalar c /\ encodeCodePoint c = [b0; b1; b2; b3].
Proof.
  intros H0 H1%isCont_spec H2%isCont_spec H3%isCont_spec Hlo Hhi c.
  set (d := (b0 - 0xf0) * 0x40 + (b1 - 0x80)). set (e := d * 0x40 + (b2 - 0x80)).
  destruct (digits2 e (b3 - 0x80)) as [Hd Hm]; [lia|].
  destruct (digits2 d (b2 - 0x80)) as [Hd1 Hm1]; [lia|]. fold e in Hd1, Hm1.
  destruct (digits2 (b0 - 0xf0) (b1 - 0x80)) as [Hd2 Hm2]; [lia|]. fold d in Hd2, Hm2.
  assert (Ec : c = e * 0x40 + (b3 - 0x80)) by (unfold c, e, d; lia). rewrite <-Ec in Hd, Hm.
  split; [unfold isScalar; lia|]. unfold encodeCodePoint.
  destruct (Z.ltb_spec c 0x80); [lia|]. destruct (Z.ltb_spec c 0x800); [lia|].
  destruct ((0xd800 <=? c) && (c <=? 0xdfff)) eqn:E; [rewrite andb_true_iff, !Z.leb_le in E; lia|].
  destruct (Z.ltb_spec c 0x10000); [lia|].
  replace (c / 0x40000) with (c / 0x40 / 0x40 / 0x40) by (rewrite !Z.div_div by lia; done).
  replace (c / 0x1000) with (c / 0x40 / 0x40) by (rewrite Z.div_div by lia; done).
  rewrite Hd, Hd1, Hd2, Hm2, Hm1, Hm. repeat f_equal; lia.
Qed.

Lemma decodeScalars_encode bs cs :
  decodeScalars bs = Some cs -> Forall isScalar cs /\ concat (encodeCodePoint <$> cs) = bs.
Proof.
  assert (H : forall n bs cs, (length bs <= n)%nat -> decodeScalars bs = Some cs ->
    Forall isScalar cs /\ concat (encodeCodePoint <$> cs) = bs); [|by eapply H].
  clear. intros n. induction n as [|n IH]; intros [|b0 r0] cs Hl H; simpl in Hl; try lia;
    [by injection H as <-..|]. simpl in H.
  destruct ((0 <=? b0) && (b0 <=? 0x7f)) eqn:E0.
  { apply fmap_Some in H as (cs' & H & ->). destruct (IH r0 cs' ltac:(lia) H) as [Hs He].
    rewrite andb_true_iff, !Z.leb_le in E0. split; [constructor; [unfold isScalar; lia|done]|].
    rewrite fmap_cons, concat_cons, He. unfold encodeCodePoint. by rewrite (proj2 (Z.ltb_lt _ _)) by lia. }
  destruct ((0xc2 <=? b0) && (b0 <=? 0xdf)) eqn:E1.
  { destruct r0 as [|b1 r1]; [done|]. destruct (isCont b1) eqn:C1; [|done].
    apply fmap_Some in H as (cs' & H & ->). destruct (IH r1 cs' ltac:(simpl in Hl; lia) H) as [Hs He].
    rewrite andb_true_iff, !Z.leb_le in E1. destruct (encode2 b0 b1 ltac:(lia) C1) as [Hc Ec].
    split; [by constructor|]. by rewrite fmap_cons, concat_cons, Ec, He. }
  destruct ((0xe0 <=? b0) && (b0 <=? 0xef)) eqn:E2.
  { destruct r0 as [|b1 [|b2 r2]]; [done..|]. destruct (_ && _) eqn:C in H; [|done].
    apply fmap_Some in H as (cs' & H & ->). destruct (IH r2 cs' ltac:(simpl in Hl; lia) H) as [Hs He].
    rewrite !andb_true_iff, !orb_true_iff, negb_true_iff, Z.eqb_neq, Z.ltb_lt, !Z.leb_le in C.
    rewrite andb_true_iff, !Z.leb_le in E2. destruct C as [[[C1 C2] C3] C4].
    destruct (encode3 b0 b1 b2 ltac:(lia) C1 C2 C3 C4) as [Hc Ec].
    split; [by constructor|]. by rewrite fmap_cons, concat_cons, Ec, He. }
  destruct ((0xf0 <=? b0) && (b0 <=? 0xf4)) eqn:E3; [|done].
  destruct r0 as [|b1 [|b2 [|b3 r3]]]; [done..|]. destruct (_ && _) eqn:C in H; [|done].
  apply fmap_Some in H as (cs' & H & ->). destruct (IH r3 cs' ltac:(simpl in Hl; lia) H) as [Hs He].
  rewrite !andb_true_iff, !orb_true_iff, negb_true_iff, Z.eqb_neq, Z.ltb_lt, !Z.leb_le in C.
  rewrite andb_true_iff, !Z.leb_le in E3. destruct C as [[[[C1 C2] C3] C4] C5].
  destruct (encode4 b0 b1 b2 b3 ltac:(lia) C1 C2 C3 C4 C5) as [Hc Ec].
  split; [by constructor|]. by rewrite fmap_cons, concat_cons, Ec, He.
Qed.

(** Decoded text encodes to the same bytes, less a leading byte order mark. *)
Lemma textDecode_encode bs s : textDecode bs = Some s ->
  (~ (exists r, bs = BOM ++ r) /\ encodeUtf8 s = bs) \/ (exists r, bs = BOM ++ r /\ encodeUtf8 s = r).
Proof.
  intros H. apply fmap_Some in H as (cs & H & ->). apply decodeScalars_encode in H as [Hs <-].
  destruct cs as [|c cs]; simpl.
  { left. split; [|done]. by intros [r Hr]. }
  apply list.Forall_cons in Hs as [Hc Hs].
  destruct (Z.eqb_spec c 0xfeff) as [->|Hne].
  - right. exists (concat (encodeCodePoint <$> cs)). split; [done|]. by apply encode_units.
  - left. rewrite encode_units by (by constructor). split; [|done]. intros [r Er].
    unfold encodeCodePoint in Er. unfold isScalar in Hc. unfold BOM in Er.
    destruct (Z.ltb_spec c 0x80); [injection Er; lia|].
    destruct (Z.ltb_spec c 0x800).
    { injection Er as E1 _. assert (c / 0x40 < 0x20) by (apply Z.div_lt_upper_bound; lia). lia. }
    destruct ((0xd800 <=? c) && (c <=? 0xdfff)) eqn:E; [rewrite andb_true_iff, !Z.leb_le in E; lia|].
    destruct (Z.ltb_spec c 0x10000).
    + injection Er as E1 E2 E3 _. pose proof (Z.div_mod c 0x40). pose proof (Z.div_mod (c / 0x40) 0x40).
      assert (c / 0x1000 = c / 0x40 / 0x40) as Ed by (by rewrite Z.div_div). rewrite Ed in E1. lia.
    + injection Er as E1 _. assert (0 <= c / 0x40000) by (apply Z.div_pos; lia). lia.
Qed.

(** The byte length the sources check is the length of the encoding. *)
Lemma byteLength_encode s : Forall isUnit16 s -> byteLength s = Z.of_nat (length (encodeUtf8 s)).
Proof.
  assert (H : forall n s, (length s <= n)%nat -> Forall isUnit16 s ->
    byteLength s = Z.of_nat (length (encodeUtf8 s))); [|by eapply H].
  clear. intros n. induction n as [|n IH]; intros [|u r] Hl Hs; simpl in Hl; try lia; [done..|].
  apply list.Forall_cons in Hs as [Hu Hs]. unfold encodeUtf8. simpl. unfold isUnit16 in Hu.
  assert (Hsing : (if u <? 0x80 then 1 else if u <? 0x800 then 2 else 3) = Z.of_nat (length (encodeCodePoint u))).
  { unfold encodeCodePoint. repeat (case_match; simpl; try done); rewrite ?Z.ltb_ge in *; lia. }
  destruct (isHighSurrogate u) eqn:Eh.
  - assert (E3 : length (encodeCodePoint u) = 3%nat).
    { unfold isHighSurrogate in Eh. rewrite andb_true_iff, !Z.leb_le in Eh. unfold encodeCodePoint.
      repeat (case_match; simpl; try done); rewrite ?Z.ltb_lt in *; lia. }
    destruct r as [|v r']; [by rewrite fmap_cons, concat_cons, length_app, E3|].
    apply list.Forall_cons in Hs as [Hv Hs]. unfold isUnit16 in Hv. destruct (isLowSurrogate v) eqn:El.
    + rewrite fmap_cons, concat_cons, length_app. rewrite (IH r') by (simpl in *; lia || done).
      unfold encodeUtf8. unfold isHighSurrogate, isLowSurrogate in *.
      rewrite !andb_true_iff, !Z.leb_le in *.
      unfold encodeCodePoint at 2. repeat (case_match; simpl; try lia);
        rewrite ?Z.ltb_lt, ?andb_true_iff, ?Z.leb_le in *; lia.
    + rewrite (IH (v :: r')) by (simpl in *; try lia; by constructor). unfold encodeUtf8.
      rewrite fmap_cons, concat_cons, length_app, E3. lia.
  - rewrite fmap_cons, concat_cons, length_app, Hsing, (IH r) by (done || lia). unfold encodeUtf8. lia.
Qed.
