(* ===== verification/Patch.v ===== *)
(** * Unified diffs

    [src/changes/unified-diff-parser.ts] and the data of [patch-types.ts]: a
    model's patch text is parsed into files, hunks and lines, or refused with
    a category and a code.  The parser's cursor is the list of lines left; its
    loops over files and hunks take fuel, which [Patch.fuel_enough] bounds. *)

From S2P Require Import Prelude JsString Schemas TaskGraphSchema Permissions.
#[local] Open Scope Z_scope.

Definition MAX_PATCH_BYTES : Z := 16 * 1024.
Definition MAX_PATCH_FILES : Z := 8.
Definition MAX_PATCH_CHANGED_LINES : Z := 2000.
Definition MAX_PATCH_TARGET_BYTES : Z := 1024 * 1024.
Definition MAX_PATCH_PREVIEW_LINES : Z := 200.
Definition MAX_PATCH_PREVIEW_BYTES : Z := 32 * 1024.

Inductive PatchErrorCategory : Type :=
| patch_cancelled | patch_invalid_arguments | patch_limit | patch_not_found | patch_permission | patch_system.

(** [PatchOperationError]; [OutOfFuel] is not an error of the code. *)
Inductive PatchError : Type :=
| PatchOperationError (category : PatchErrorCategory) (code : string)
| OutOfFuel.

Definition invalid {A} (code : string) : result PatchError A := Err (PatchOperationError patch_invalid_arguments code).
Definition limit {A} (code : string) : result PatchError A := Err (PatchOperationError patch_limit code).
Definition invalidIf (b : bool) (code : string) : result PatchError () := if b then invalid code else Ok ().
Definition limitIf (b : bool) (code : string) : result PatchError () := if b then limit code else Ok ().

Inductive HunkLineKind : Type := addition | context | deletion.
#[export] Instance HunkLineKind_eq : EqDecision HunkLineKind.
Proof. solve_decision. Defined.

Record ParsedHunkLine : Type := { hl_kind : HunkLineKind; hl_noNewline : bool; hl_text : jstring }.
#[export] Instance ParsedHunkLine_eq : EqDecision ParsedHunkLine.
Proof. solve_decision. Defined.

Record ParsedHunk : Type := {
  h_lines : list ParsedHunkLine; h_newCount : Z; h_newStart : Z; h_oldCount : Z; h_oldStart : Z }.

Inductive PatchChangeKind : Type := create_change | modify_change.
#[export] Instance PatchChangeKind_eq : EqDecision PatchChangeKind.
Proof. solve_decision. Defined.

Record ParsedFilePatch : Type := {
  fp_addedLines : Z; fp_diff : jstring; fp_hunks : list ParsedHunk; fp_kind : PatchChangeKind;
  fp_path : jstring; fp_removedLines : Z }.

Record ParsedPatch : Type := {
  pp_addedLines : Z; pp_files : list ParsedFilePatch; pp_normalizedPatch : jstring; pp_removedLines : Z }.

Definition newline : Z := 0x0a.
Definition NO_NEWLINE_MARKER : jstring := js "\ No newline at end of file".

(** [normalized.replace(/\n*$/u, "")] *)
Fixpoint dropNewlines (reversed : jstring) : jstring :=
  match reversed with u :: r => if u =? newline then dropNewlines r else reversed | [] => [] end.
Definition trimNewlines (s : jstring) : jstring := reverse (dropNewlines (reverse s)).

(** [normalizePatchText]; [encodeURIComponent] throws on an unpaired surrogate. *)
Definition normalizePatchText (patch : jstring) : result PatchError jstring :=
  _ ← limitIf (MAX_PATCH_BYTES <? byteLength patch) "patch_too_large";
  _ ← invalidIf (bool_decide (0 ∈ patch)) "patch_contains_nul";
  _ ← invalidIf (hasUnpairedSurrogate patch) "patch_invalid_utf8";
  let normalized := replaceCrlf patch in
  _ ← invalidIf (bool_decide (0x0d ∈ normalized)) "patch_invalid_line_endings";
  _ ← invalidIf (length (trim normalized) =? 0)%nat "patch_empty";
  Ok (trimNewlines normalized ++ [newline]).

(** The offsets of [" b/"] in the body, and those that split it into a path
    and the same path. *)
Fixpoint candidatePaths (body before : jstring) : list jstring :=
  (if startsWith body (js " b/") && (reverse before === drop 3 body) then [reverse before] else []) ++
  match body with [] => [] | u :: r => candidatePaths r (u :: before) end.

Definition parseDiffHeader (line : jstring) : result PatchError jstring :=
  let prefix := js "diff --git a/" in
  _ ← invalidIf (negb (startsWith line prefix)) "patch_bad_header";
  match candidatePaths (drop (length prefix) line) [] with
  | [path] => if path === [] then invalid "patch_bad_header" else Ok path
  | _ => invalid "patch_rename_denied"
  end.

Definition prefixedPath (line prefix : jstring) : result PatchError jstring :=
  _ ← invalidIf (negb (startsWith line prefix)) "patch_bad_file_header";
  let value := drop (length prefix) line in
  _ ← invalidIf ((length value =? 0)%nat || bool_decide (0x09 ∈ value)) "patch_bad_file_header";
  Ok value.

(** A leading run of digits, its value, and what follows; at least one digit. *)
Fixpoint takeDigits (s : jstring) (acc : Z) : Z * jstring :=
  match s with
  | u :: r => if isDigit u then takeDigits r (acc * 10 + (u - 0x30)) else (acc, s)
  | [] => (acc, [])
  end.
Definition digits (s : jstring) : option (Z * jstring) :=
  match s with u :: _ => if isDigit u then Some (takeDigits s 0) else None | [] => None end.

(** [(\d+)(?:,(\d+))?]: the start and the count, 1 when there is none. *)
Definition hunkRange (s : jstring) : option (Z * Z * jstring) :=
  '(start, rest) ← digits s;
  match rest with
  | c :: rest' =>
      if c =? 0x2c then
        match digits rest' with
        | Some (count, rest'') => Some (start, count, rest'')
        | None => Some (start, 1, rest)
        end
      else Some (start, 1, rest)
  | [] => Some (start, 1, [])
  end.

(** A fixed text, then the rest. *)
Definition expect (text s : jstring) : option jstring :=
  if startsWith s text then Some (drop (length text) s) else None.

(** [HUNK_HEADER.exec]: old start, old count, new start, new count. *)
Definition hunkHeader (line : jstring) : option (Z * Z * Z * Z) :=
  rest ← expect (js "@@ -") line;
  '(oldStart, oldCount, rest) ← hunkRange rest;
  rest ← expect (js " +") rest;
  '(newStart, newCount, rest) ← hunkRange rest;
  rest ← expect (js " @@") rest;
  match rest with
  | [] => Some (oldStart, oldCount, newStart, newCount)
  | u :: section =>
      if (u =? 0x20) && forallb (fun v => negb (isLineTerminator v)) section
      then Some (oldStart, oldCount, newStart, newCount) else None
  end.

(** The body loop of [parseHunk]; [acc] is the lines read, last first. *)
Fixpoint hunkBody (oldCount newCount : Z) (lines : list jstring) (acc : list ParsedHunkLine) (oldSeen newSeen : Z)
  : result PatchError (list ParsedHunkLine * Z * Z * list jstring) :=
  match lines with
  | [] => Ok (reverse acc, oldSeen, newSeen, [])
  | line :: rest =>
      if line === NO_NEWLINE_MARKER then
        match acc with
        | previous :: acc' =>
            if hl_noNewline previous then invalid "patch_bad_no_newline"
            else hunkBody oldCount newCount rest
                   ({| hl_kind := hl_kind previous; hl_noNewline := true; hl_text := hl_text previous |} :: acc')
                   oldSeen newSeen
        | [] => invalid "patch_bad_no_newline"
        end
      else if (oldSeen =? oldCount) && (newSeen =? newCount) then Ok (reverse acc, oldSeen, newSeen, lines)
      else
        match line with
        | marker :: text =>
            let push kind oldSeen newSeen :=
              if (oldCount <? oldSeen) || (newCount <? newSeen) then invalid "patch_bad_hunk_count"
              else hunkBody oldCount newCount rest
                     ({| hl_kind := kind; hl_noNewline := false; hl_text := text |} :: acc) oldSeen newSeen in
            if marker =? 0x20 then push context (oldSeen + 1) (newSeen + 1)
            else if marker =? 0x2d then push deletion (oldSeen + 1) newSeen
            else if marker =? 0x2b then push addition oldSeen (newSeen + 1)
            else invalid "patch_bad_hunk_line"
        | [] => invalid "patch_bad_hunk_line"
        end
  end.

(** [parseHunk]: the hunk and the lines after it. *)
Definition parseHunk (lines : list jstring) : result PatchError (ParsedHunk * list jstring) :=
  match lines with
  | [] => invalid "patch_bad_hunk"
  | header :: body =>
      match hunkHeader header with
      | None => invalid "patch_bad_hunk"
      | Some (oldStart, oldCount, newStart, newCount) =>
          _ ← invalidIf (existsb (fun n => MAX_SAFE_INTEGER <? n) [oldStart; oldCount; newStart; newCount])
                "patch_bad_hunk";
          _ ← invalidIf (((oldCount =? 0) && (oldStart <? 0)) || ((0 <? oldCount) && (oldStart =? 0)) ||
                         ((newCount =? 0) && (newStart <? 0)) || ((0 <? newCount) && (newStart =? 0)))
                "patch_bad_hunk";
          '(hunkLines, oldSeen, newSeen, rest) ← hunkBody oldCount newCount body [] 0 0;
          _ ← invalidIf ((oldSeen !== oldCount) || (newSeen !== newCount)) "patch_bad_hunk_count";
          _ ← invalidIf (negb (existsb (fun l => hl_kind l !== context) hunkLines)) "patch_empty_hunk";
          _ ← invalidIf match rest with
                        | next :: _ => negb (startsWith next (js "@@ ")) && negb (startsWith next (js "diff --git "))
                        | [] => false
                        end "patch_bad_hunk_count";
          Ok ({| h_lines := hunkLines; h_newCount := newCount; h_newStart := newStart;
                 h_oldCount := oldCount; h_oldStart := oldStart |}, rest)
      end
  end.

Definition deniedPrefixes : list string := [
  "old mode "; "new mode "; "deleted file mode "; "new file mode "; "similarity index ";
  "dissimilarity index "; "rename from "; "rename to "; "copy from "; "copy to "; "Binary files ";
  "Submodule "]%string.
Definition rejectUnsupportedMetadata (line : jstring) : result PatchError () :=
  invalidIf ((line === js "GIT binary patch") || existsb (fun p => startsWith line (js p)) deniedPrefixes)
    "patch_unsupported_metadata".

(** [[^\s.]+], greedily: what follows it, if it is not empty. *)
Fixpoint skipObject (s : jstring) : jstring :=
  match s with u :: r => if isJsSpace u || (u =? 0x2e) then s else skipObject r | [] => [] end.
Definition object (s : jstring) : option jstring :=
  let rest := skipObject s in if (length rest <? length s)%nat then Some rest else None.

(** [/^index [^\s.]+\.\.[^\s.]+$/u.test] *)
Definition isIndexLine (line : jstring) : bool :=
  match (rest ← expect (js "index ") line; rest ← object rest; rest ← expect (js "..") rest; object rest) with
  | Some [] => true
  | _ => false
  end.

(** The metadata loop: the lines from the first that is not [index]. *)
Fixpoint skipMetadata (lines : list jstring) : result PatchError (list jstring) :=
  match lines with
  | [] => Ok []
  | metadata :: rest =>
      _ ← rejectUnsupportedMetadata metadata;
      if negb (startsWith metadata (js "index ")) then Ok lines
      else _ ← invalidIf (negb (isIndexLine metadata)) "patch_bad_index"; skipMetadata rest
  end.

(** [lines[cursor] ?? ""], and [cursor += 1]. *)
Definition lineOr (lines : list jstring) : jstring := match lines with l :: _ => l | [] => [] end.

Definition countKind (k : HunkLineKind) (hunk : ParsedHunk) : Z :=
  Z.of_nat (length (List.filter (fun l => hl_kind l === k) (h_lines hunk))).
Definition countLines (k : HunkLineKind) (hunks : list ParsedHunk) : Z :=
  foldr (fun h n => countKind k h + n) 0 hunks.

(** The hunk loop of a file. *)
Fixpoint parseHunks (fuel : nat) (lines : list jstring) : result PatchError (list ParsedHunk * list jstring) :=
  match lines with
  | [] => Ok ([], [])
  | line :: _ =>
      if startsWith line (js "diff --git ") then Ok ([], lines)
      else match fuel with
           | O => Err OutOfFuel
           | S fuel =>
               _ ← rejectUnsupportedMetadata line;
               '(hunk, rest) ← parseHunk lines;
               '(hunks, rest) ← parseHunks fuel rest;
               Ok (hunk :: hunks, rest)
           end
  end.

Definition fileKind (diffPath oldHeader newHeader : jstring) : result PatchError PatchChangeKind :=
  if oldHeader === js "/dev/null" then
    _ ← invalidIf (newHeader !== js "b/" ++ diffPath) "patch_bad_create_header"; Ok create_change
  else
    _ ← invalidIf (newHeader === js "/dev/null") "patch_delete_denied";
    _ ← invalidIf ((oldHeader !== js "a/" ++ diffPath) || (newHeader !== js "b/" ++ diffPath)) "patch_rename_denied";
    Ok modify_change.

(** One file: the body of the main loop up to [files.push]. *)
Definition parseFile (fuel : nat) (lines : list jstring) : result PatchError (ParsedFilePatch * list jstring) :=
  diffPath ← parseDiffHeader (lineOr lines);
  rest ← skipMetadata (drop 1 lines);
  oldHeader ← prefixedPath (lineOr rest) (js "--- ");
  newHeader ← prefixedPath (lineOr (drop 1 rest)) (js "+++ ");
  kind ← fileKind diffPath oldHeader newHeader;
  '(hunks, rest) ← parseHunks fuel (drop 2 rest);
  _ ← invalidIf (length hunks =? 0)%nat "patch_empty_file";
  let own := take (length lines - length rest) lines in
  Ok ({| fp_addedLines := countLines addition hunks; fp_diff := joinUnit newline own ++ [newline];
         fp_hunks := hunks; fp_kind := kind; fp_path := diffPath;
         fp_removedLines := countLines deletion hunks |}, rest).

(** The main loop: the files so far, and the changed lines counted. *)
Fixpoint parseFiles (fuel : nat) (lines : list jstring) (files : list ParsedFilePatch) (added removed : Z)
  : result PatchError (list ParsedFilePatch * Z * Z) :=
  match lines with
  | [] => Ok (files, added, removed)
  | _ =>
      match fuel with
      | O => Err OutOfFuel
      | S fuel' =>
          '(file, rest) ← parseFile fuel lines;
          let files := files ++ [file] in
          let added := added + fp_addedLines file in
          let removed := removed + fp_removedLines file in
          _ ← limitIf (MAX_PATCH_FILES <? Z.of_nat (length files)) "patch_too_many_files";
          _ ← limitIf (MAX_PATCH_CHANGED_LINES <? added + removed) "patch_too_many_changed_lines";
          parseFiles fuel' rest files added removed
      end
  end.

(** [parseUnifiedDiff] *)
Definition parseUnifiedDiff (patch : jstring) : result PatchError ParsedPatch :=
  normalizedPatch ← normalizePatchText patch;
  let lines := splitUnit newline (removelast normalizedPatch) in
  '(files, added, removed) ← parseFiles (S (length lines)) lines [] 0 0;
  _ ← invalidIf ((length files =? 0)%nat || (added + removed =? 0)) "patch_empty";
  Ok {| pp_addedLines := added; pp_files := files; pp_normalizedPatch := normalizedPatch;
        pp_removedLines := removed |}.
