(* ===== verification/PatchFacts.v ===== *)
(** * What a parsed patch is

    The parser returns on every text, a parsed patch is its text cut into
    files, and every hunk has the lines its header declares. *)

From S2P Require Import Prelude JsString Schemas TaskGraphSchema Permissions Patch.
#[local] Open Scope Z_scope.

Lemma invalidIf_ok b code u : invalidIf b code = Ok u <-> b = false.
Proof. destruct b, u; simpl; naive_solver. Qed.
Lemma limitIf_ok b code u : limitIf b code = Ok u <-> b = false.
Proof. destruct b, u; simpl; naive_solver. Qed.

(** One step of the parser: its result and what it left. *)
Tactic Notation "step" hyp(H) "as" simple_intropattern(x) ident(E) := apply bind_ok in H as (x & E & H).

(** ** Hunk bodies *)

Definition onSide (other : HunkLineKind) (lines : list ParsedHunkLine) : Z :=
  Z.of_nat (length (List.filter (fun l => hl_kind l !== other) lines)).

Lemma onSide_cons k l lines : onSide k (l :: lines) = onSide k lines + (if hl_kind l === k then 0 else 1).
Proof. unfold onSide. simpl. case_bool_decide; simpl; lia. Qed.

Lemma onSide_reverse k lines : onSide k (reverse lines) = onSide k lines.
Proof.
  unfold onSide. f_equal. induction lines as [|l lines IH] using rev_ind; [done|].
  rewrite reverse_snoc, List.filter_app, length_app, <-IH. simpl. case_bool_decide; simpl; lia.
Qed.

(** The lines read by the body loop, and the lines left. *)
Lemma hunkBody_spec oc nc lines acc o n out o' n' rest :
  hunkBody oc nc lines acc o n = Ok (out, o', n', rest) ->
  o = onSide addition acc -> n = onSide deletion acc ->
  o' = onSide addition out /\ n' = onSide deletion out /\ exists used, lines = used ++ rest.
Proof.
  revert acc o n. induction lines as [|line lines IH]; intros acc o n H Ho Hn; simpl in H.
  { injection H as <- <- <- <-. rewrite !onSide_reverse. by split_and!; [..|exists []]. }
  assert (Hcons : forall acc o n, hunkBody oc nc lines acc o n = Ok (out, o', n', rest) ->
    o = onSide addition acc -> n = onSide deletion acc ->
    o' = onSide addition out /\ n' = onSide deletion out /\ exists used, line :: lines = used ++ rest).
  { intros acc1 o1 n1 H1 Ho1 Hn1. destruct (IH _ _ _ H1 Ho1 Hn1) as (? & ? & used & ->).
    split_and!; try done. by exists (line :: used). }
  case_bool_decide as Emark.
  { destruct acc as [|prev acc]; [done|]. destruct (hl_noNewline prev); [done|].
    apply (Hcons _ _ _ H); rewrite onSide_cons in *; simpl; lia. }
  destruct ((o =? oc) && (n =? nc)) eqn:Edone.
  { injection H as <- <- <- <-. rewrite !onSide_reverse. by split_and!; [..|exists []]. }
  destruct line as [|m text]; [done|].
  destruct (m =? 0x20); [|destruct (m =? 0x2d); [|destruct (m =? 0x2b); [|done]]];
    (destruct (_ || _) in H; [done|]); apply (Hcons _ _ _ H); rewrite onSide_cons; simpl; lia.
Qed.

Record hunk_ok (h : ParsedHunk) : Prop := {
  ho_old : onSide addition (h_lines h) = h_oldCount h;
  ho_new : onSide deletion (h_lines h) = h_newCount h;
  ho_change : exists l, l ∈ h_lines h /\ hl_kind l <> context;
  ho_start : (0 < h_oldCount h -> h_oldStart h <> 0) /\ (0 < h_newCount h -> h_newStart h <> 0);
}.

Lemma parseHunk_spec lines h rest :
  parseHunk lines = Ok (h, rest) -> hunk_ok h /\ exists u used, lines = u :: used ++ rest.
Proof.
  unfold parseHunk. destruct lines as [|header body]; [done|].
  destruct (hunkHeader header) as [[[[os oc] ns] nc]|]; [|done]. intros H.
  step H as [] _E1. step H as [] Hpos. step H as [[[out o'] n'] rest'] Hb. step H as [] Hcount. step H as [] Hch.
  step H as [] _E2. injection H as <- <-.
  destruct (hunkBody_spec _ _ _ _ _ _ _ _ _ _ Hb eq_refl eq_refl) as (Ho & Hn & used & ->).
  rewrite invalidIf_ok in Hcount, Hch, Hpos.
  rewrite orb_false_iff, !negb_false_iff, !bool_decide_eq_true in Hcount. destruct Hcount as [-> ->].
  split; [|by exists header, used]. split; simpl; [congruence..| |].
  - apply negb_false_iff in Hch. apply existsb_exists in Hch as (l & Hl & Hk). exists l.
    split; [by apply list_elem_of_In|]. by apply negb_true_iff, bool_decide_eq_false in Hk.
  - rewrite !orb_false_iff, !andb_false_iff, !Z.ltb_ge, !Z.eqb_neq in Hpos. lia.
Qed.

Lemma parseHunks_spec fuel lines hunks rest :
  parseHunks fuel lines = Ok (hunks, rest) -> Forall hunk_ok hunks /\ exists used, lines = used ++ rest.
Proof.
  revert lines hunks rest. induction fuel as [|fuel IH]; intros lines hunks rest H;
    (destruct lines as [|line lines]; [injection H as <- <-; split; [done|by exists []]|]);
    cbn [parseHunks] in H; (destruct (startsWith line _); [injection H as <- <-; split; [done|by exists []]|]); [done|].
  step H as [] _E. step H as [h rest1] Hh. step H as [hs rest2] Hs. injection H as <- <-.
  apply parseHunk_spec in Hh as (Hok & u & used & E). apply IH in Hs as (Hoks & used' & ->).
  split; [by constructor|]. exists (u :: used ++ used'). by rewrite E; simpl; rewrite <-app_assoc.
Qed.

Lemma skipMetadata_spec lines rest : skipMetadata lines = Ok rest -> exists used, lines = used ++ rest.
Proof.
  revert rest. induction lines as [|l lines IH]; intros rest H; [injection H as <-; by exists []|].
  cbn [skipMetadata] in H. step H as [] _E. destruct (negb _); [injection H as <-; by exists []|].
  step H as [] _E2. destruct (IH _ H) as [used ->]. by exists (l :: used).
Qed.

Lemma drop_suffix {A} n (l : list A) : exists used, l = used ++ drop n l.
Proof. exists (take n l). by rewrite take_drop. Qed.

(** A file: its hunks, its counts and the lines it is made of. *)
Record file_ok (f : ParsedFilePatch) : Prop := {
  fo_hunks : fp_hunks f <> [] /\ Forall hunk_ok (fp_hunks f);
  fo_path : fp_path f <> [];
  fo_counts : fp_addedLines f = countLines addition (fp_hunks f) /\
              fp_removedLines f = countLines deletion (fp_hunks f);
}.

(** Lines with their terminators. *)
Definition unlines (ls : list jstring) : jstring := concat ((fun l => l ++ [newline]) <$> ls).

Lemma unlines_join ls : ls <> [] -> joinUnit newline ls ++ [newline] = unlines ls.
Proof.
  unfold unlines. induction ls as [|l ls IH]; [done|]. intros _. destruct ls as [|l' ls].
  - simpl. by rewrite app_nil_r.
  - change (joinUnit newline (l :: l' :: ls)) with (l ++ newline :: joinUnit newline (l' :: ls)).
    rewrite fmap_cons, concat_cons, <-IH, <-!app_assoc by done. done.
Qed.

Lemma parseDiffHeader_path line path : parseDiffHeader line = Ok path -> path <> [].
Proof.
  unfold parseDiffHeader. intros H. step H as [] _E. destruct (candidatePaths _ _) as [|p [|]]; [done| |done].
  case_bool_decide; [done|]. by injection H as <-.
Qed.

Lemma parseFile_spec fuel lines f rest :
  parseFile fuel lines = Ok (f, rest) -> lines <> [] ->
  file_ok f /\ exists used, used <> [] /\ lines = used ++ rest /\ fp_diff f = unlines used.
Proof.
  unfold parseFile. intros H Hne. step H as path Hp. step H as rest1 Hm. step H as old _E1. step H as new _E2.
  step H as kind _E3. step H as [hs rest2] Hh. step H as [] Hz. injection H as <- <-.
  apply invalidIf_ok, Nat.eqb_neq in Hz. apply parseHunks_spec in Hh as (Hok & used & Hu).
  apply skipMetadata_spec in Hm as (used1 & Hu1). destruct (drop_suffix 2 rest1) as [used2 Hu2].
  destruct lines as [|line lines]; [done|]. simpl in Hu1. rewrite drop_0 in Hu1.
  assert (E : line :: lines = (line :: used1 ++ used2 ++ used) ++ rest2)
    by (simpl; rewrite Hu1, Hu2 at 1; rewrite Hu at 1; by rewrite !app_assoc).
  assert (Etake : take (length (line :: lines) - length rest2) (line :: lines) = line :: used1 ++ used2 ++ used).
  { rewrite E, length_app, Nat.add_sub. by rewrite take_app_length. }
  split.
  - split; simpl; [split; [by destruct hs|done]|by eapply parseDiffHeader_path|done].
  - exists (line :: used1 ++ used2 ++ used). split; [done|]. split; [done|].
    cbn [fp_diff]. rewrite Etake. by apply unlines_join.
Qed.

Lemma unlines_app a b : unlines (a ++ b) = unlines a ++ unlines b.
Proof. unfold unlines. by rewrite fmap_app, concat_app. Qed.

Definition sumLines (f : ParsedFilePatch -> Z) (files : list ParsedFilePatch) : Z := foldr (fun x n => f x + n) 0 files.

Lemma sumLines_snoc f files x : sumLines f (files ++ [x]) = sumLines f files + f x.
Proof. induction files as [|y files IH]; simpl; [lia|]. rewrite IH. lia. Qed.

Lemma parseFiles_spec fuel lines files added removed out a r :
  parseFiles fuel lines files added removed = Ok (out, a, r) ->
  Forall file_ok files -> added = sumLines fp_addedLines files -> removed = sumLines fp_removedLines files ->
  Z.of_nat (length files) <= MAX_PATCH_FILES -> added + removed <= MAX_PATCH_CHANGED_LINES ->
  Forall file_ok out /\ a = sumLines fp_addedLines out /\ r = sumLines fp_removedLines out /\
  Z.of_nat (length out) <= MAX_PATCH_FILES /\ a + r <= MAX_PATCH_CHANGED_LINES /\
  concat (fp_diff <$> out) = concat (fp_diff <$> files) ++ unlines lines.
Proof.
  revert lines files added removed.
  induction fuel as [|fuel IH]; intros lines files added removed H Hf Ha Hr Hn Hc;
    (destruct lines as [|line lines];
      [injection H as <- <- <-; by rewrite app_nil_r; split_and!|]); [done|].
  cbn [parseFiles] in H. step H as [f rest] Hp. step H as [] Hlim. step H as [] Hlim2.
  apply limitIf_ok, Z.ltb_ge in Hlim, Hlim2. apply parseFile_spec in Hp as (Hok & used & _ & Eu & Ed); [|done].
  apply IH in H as (? & ? & ? & ? & ? & E); [| |rewrite sumLines_snoc; lia|rewrite sumLines_snoc; lia|done|done].
  - split_and!; try done. rewrite E, fmap_app, concat_app, Eu, unlines_app. simpl. by rewrite Ed, app_nil_r, app_assoc.
  - apply Forall_app. by split; [|constructor].
Qed.

(** ** The parser returns *)

Definition returnsOrRefuses {A} (r : result PatchError A) : Prop := r <> Err OutOfFuel.

Lemma bind_refuses {A B} (m : result PatchError A) (f : A -> result PatchError B) :
  returnsOrRefuses m -> (forall a, m = Ok a -> returnsOrRefuses (f a)) -> returnsOrRefuses (m ≫= f).
Proof. unfold returnsOrRefuses. destruct m; unfold mbind; simpl; naive_solver. Qed.

Lemma invalidIf_refuses b code : returnsOrRefuses (invalidIf b code).
Proof. by destruct b. Qed.
Lemma limitIf_refuses b code : returnsOrRefuses (limitIf b code).
Proof. by destruct b. Qed.

Create HintDb patch_returns.
#[export] Hint Resolve invalidIf_refuses limitIf_refuses : patch_returns.

Ltac refuses :=
  repeat first
    [ apply bind_refuses; [solve [auto with patch_returns]|intros ? ?]
    | match goal with
      | |- returnsOrRefuses (match ?x with _ => _ end) => destruct x
      | |- returnsOrRefuses (if ?x then _ else _) => destruct x
      end
    | discriminate
    | solve [auto with patch_returns] ].

Lemma hunkBody_refuses oc nc lines acc o n : returnsOrRefuses (hunkBody oc nc lines acc o n).
Proof.
  revert acc o n. induction lines as [|line lines IH]; intros acc o n; [done|].
  cbn [hunkBody]. refuses; apply IH.
Qed.
#[export] Hint Resolve hunkBody_refuses : patch_returns.

Lemma parseHunk_refuses lines : returnsOrRefuses (parseHunk lines).
Proof. unfold parseHunk, invalid. refuses. Qed.

Lemma rejectUnsupportedMetadata_refuses line : returnsOrRefuses (rejectUnsupportedMetadata line).
Proof. apply invalidIf_refuses. Qed.
#[export] Hint Resolve parseHunk_refuses rejectUnsupportedMetadata_refuses : patch_returns.

Lemma skipMetadata_refuses lines : returnsOrRefuses (skipMetadata lines).
Proof. induction lines as [|l lines IH]; [done|]. cbn [skipMetadata]. refuses. Qed.

Lemma parseHunks_refuses fuel lines : (length lines <= fuel)%nat -> returnsOrRefuses (parseHunks fuel lines).
Proof.
  revert lines. induction fuel as [|fuel IH]; intros [|line lines] Hl; simpl in Hl; try done; [lia|].
  cbn [parseHunks]. destruct (startsWith _ _); [done|]. apply bind_refuses; [auto with patch_returns|intros _ _].
  apply bind_refuses; [auto with patch_returns|]. intros [h rest] Hh.
  apply parseHunk_spec in Hh as (_ & u & used & E). apply bind_refuses; [|by intros []].
  apply IH. apply (f_equal length) in E. rewrite !length_cons, length_app in E. lia.
Qed.

Lemma prefixedPath_refuses line prefix : returnsOrRefuses (prefixedPath line prefix).
Proof. unfold prefixedPath. refuses. Qed.
Lemma parseDiffHeader_refuses line : returnsOrRefuses (parseDiffHeader line).
Proof. unfold parseDiffHeader, invalid. refuses. Qed.
Lemma fileKind_refuses d o n : returnsOrRefuses (fileKind d o n).
Proof. unfold fileKind. refuses. Qed.
Lemma normalizePatchText_refuses patch : returnsOrRefuses (normalizePatchText patch).
Proof. unfold normalizePatchText. refuses. Qed.
#[export] Hint Resolve skipMetadata_refuses prefixedPath_refuses parseDiffHeader_refuses fileKind_refuses
  normalizePatchText_refuses : patch_returns.

Lemma parseFile_refuses fuel lines : (length lines <= fuel)%nat -> returnsOrRefuses (parseFile fuel lines).
Proof.
  intros Hl. unfold parseFile.
  apply bind_refuses; [auto with patch_returns|intros path _]. apply bind_refuses; [auto with patch_returns|intros rest Hm].
  do 3 (apply bind_refuses; [auto with patch_returns|intros ? _]).
  apply bind_refuses; [|intros [hs rest2] _; refuses].
  apply parseHunks_refuses. apply skipMetadata_spec in Hm as [used E]. apply (f_equal length) in E.
  rewrite length_drop, length_app in E. rewrite length_drop. lia.
Qed.

Lemma parseFiles_refuses fuel lines files a r :
  (length lines <= fuel)%nat -> returnsOrRefuses (parseFiles fuel lines files a r).
Proof.
  revert lines files a r. induction fuel as [|fuel IH]; intros [|line lines] files a r Hl; simpl in Hl; try done; [lia|].
  cbn [parseFiles]. apply bind_refuses; [apply parseFile_refuses; simpl; lia|]. intros [f rest] Hf.
  apply parseFile_spec in Hf as (_ & used & Hu & E & _); [|done].
  do 2 (apply bind_refuses; [auto with patch_returns|intros _ _]). apply IH.
  apply (f_equal length) in E. rewrite length_app in E. simpl in E. destruct used; simpl in *; [done|lia].
Qed.

(** The parser always answers: for every text, [parseUnifiedDiff] returns
    a patch or refuses with a category and a code. The fuel of its model, one
    more than the number of lines, is enough. *)
Theorem parse_always_answers patch :
  (exists p, parseUnifiedDiff patch = Ok p) \/
  exists category code, parseUnifiedDiff patch = Err (PatchOperationError category code).
Proof.
  assert (H : returnsOrRefuses (parseUnifiedDiff patch)).
  { unfold parseUnifiedDiff. apply bind_refuses; [auto with patch_returns|intros text _].
    apply bind_refuses; [apply parseFiles_refuses; lia|]. intros [[files a] r] _. refuses. }
  destruct (parseUnifiedDiff patch) as [p|[category code|]]; [by left; exists p|by right; exists category, code|done].
Qed.

Lemma removelast_snoc {A} (l : list A) x : removelast (l ++ [x]) = l.
Proof. induction l as [|y l IH]; [done|]. simpl. rewrite IH. by destruct l. Qed.

(** A parsed patch is its text. The diffs of its files, in order, are the
    normalised patch; there are between one and eight files and between one
    and two thousand changed lines, counted as they occur in the hunks; every
    file names a path and has hunks, and every hunk changes something, has
    exactly the numbers of old and new lines its header declares, and starts
    at a line when it has any. *)
Theorem parsed_patch_is_its_text patch p :
  parseUnifiedDiff patch = Ok p ->
  concat (fp_diff <$> pp_files p) = pp_normalizedPatch p /\
  1 <= Z.of_nat (length (pp_files p)) <= 8 /\
  0 < pp_addedLines p + pp_removedLines p <= 2000 /\
  pp_addedLines p = sumLines (fun f => countLines addition (fp_hunks f)) (pp_files p) /\
  pp_removedLines p = sumLines (fun f => countLines deletion (fp_hunks f)) (pp_files p) /\
  Forall (fun f => fp_path f <> [] /\ fp_hunks f <> [] /\ Forall hunk_ok (fp_hunks f)) (pp_files p).
Proof.
  unfold parseUnifiedDiff. intros H. step H as text Ht. step H as [[files a] r] Hf. step H as [] He. injection H as <-.
  apply invalidIf_ok, orb_false_iff in He as [Hz He]. apply Nat.eqb_neq in Hz. apply Z.eqb_neq in He.
  apply parseFiles_spec in Hf as (Hok & Ha & Hr & Hn & Hc & E); [|done..].
  unfold MAX_PATCH_FILES, MAX_PATCH_CHANGED_LINES in *. simpl.
  assert (Hsum : forall f g, (forall x, x ∈ files -> f x = g x) -> sumLines f files = sumLines g files).
  { intros f g. clear. induction files as [|x files IH]; intros Hx; simpl; [done|].
    rewrite (Hx x) by set_solver. rewrite IH; [done|set_solver]. }
  rewrite list.Forall_forall in Hok.
  assert (Hcount : 0 <= a /\ 0 <= r).
  { split; [rewrite Ha|rewrite Hr]; (erewrite Hsum; [|intros x Hx; apply (fo_counts x (Hok x Hx))]);
      clear; (induction files as [|x files IH]; simpl; [done|]);
      (assert (Hh : forall k hs, 0 <= countLines k hs)
        by (intros k hs; induction hs as [|h hs IHh]; simpl; unfold countKind; lia));
      pose proof (Hh addition (fp_hunks x)); pose proof (Hh deletion (fp_hunks x)); lia. }
  split_and!; try lia.
  - rewrite E. simpl. rewrite <-unlines_join by apply split_not_nil. rewrite joinUnit_splitUnit.
    unfold normalizePatchText in Ht. do 5 (let E := fresh "E" in step Ht as [] E). injection Ht as <-. by rewrite removelast_snoc.
  - rewrite Ha. apply Hsum. intros x Hx. apply (fo_counts x (Hok x Hx)).
  - rewrite Hr. apply Hsum. intros x Hx. apply (fo_counts x (Hok x Hx)).
  - apply list.Forall_forall. intros x Hx. destruct (Hok x Hx) as [[] ? ?]. done.
Qed.
