(* ===== verification/PatchPlan.v ===== *)
(** * Planning a patch

    [src/changes/patch-planner.ts]: decoding a preimage, applying a parsed
    file patch to it in memory, and the preview shown for approval. Files are
    lists of bytes, their text JavaScript strings. *)

From S2P Require Import Prelude JsString Utf8 Patch PatchFacts.
#[local] Open Scope Z_scope.

Record TextLine : Type := { tl_hasNewline : bool; tl_text : jstring }.
#[export] Instance TextLine_eq : EqDecision TextLine.
Proof. solve_decision. Defined.

(** [decodeText] *)
Definition decodeText (bytes : list Z) : result PatchError jstring :=
  _ ← limitIf (MAX_PATCH_TARGET_BYTES <? Z.of_nat (length bytes)) "patch_target_too_large";
  _ ← invalidIf (bool_decide (0 ∈ bytes)) "patch_binary_target";
  match textDecode bytes with Some text => Ok text | None => invalid "patch_invalid_utf8_target" end.

(** [splitText]: [values.pop()] when the text ends with a newline. *)
Definition splitText (text : jstring) : list TextLine :=
  if text === [] then []
  else
    let values := splitUnit newline text in
    let endsWithNewline := last values === Some [] in
    let values := if endsWithNewline then removelast values else values in
    imap (fun index value => {| tl_hasNewline := endsWithNewline || (index <? length values - 1)%nat;
                                tl_text := value |}) values.

(** [joinText] *)
Definition joinText (lines : list TextLine) : jstring :=
  concat ((fun line => tl_text line ++ (if tl_hasNewline line then [newline] else [])) <$> lines).

Definition expectedLine (line : ParsedHunkLine) : TextLine :=
  {| tl_hasNewline := negb (hl_noNewline line); tl_text := hl_text line |}.

Definition hunkStart (start count : Z) : Z := if count =? 0 then start else start - 1.

(** The body of the loop over the lines of a hunk; the state is the output and
    [sourceCursor]. *)
Definition applyLine (source : list TextLine) (state : list TextLine * nat) (line : ParsedHunkLine)
  : result PatchError (list TextLine * nat) :=
  let '(output, cursor) := state in
  if hl_kind line === addition then Ok (output ++ [expectedLine line], cursor)
  else
    match source !! cursor with
    | Some actual =>
        if actual === expectedLine line
        then Ok (if hl_kind line === context then output ++ [actual] else output, S cursor)
        else invalid "patch_context_mismatch"
    | None => invalid "patch_context_mismatch"
    end.

(** The body of the loop over the hunks. *)
Definition applyHunk (source : list TextLine) (state : list TextLine * nat) (hunk : ParsedHunk)
  : result PatchError (list TextLine * nat) :=
  let '(output, cursor) := state in
  let oldIndex := hunkStart (h_oldStart hunk) (h_oldCount hunk) in
  _ ← invalidIf ((oldIndex <? Z.of_nat cursor) || (Z.of_nat (length source) <? oldIndex)) "patch_hunk_overlap";
  let oldIndex := Z.to_nat oldIndex in
  let output := output ++ take (oldIndex - cursor) (drop cursor source) in
  let expectedNewIndex := hunkStart (h_newStart hunk) (h_newCount hunk) in
  _ ← invalidIf (Z.of_nat (length output) !== expectedNewIndex) "patch_bad_hunk_position";
  foldM (applyLine source) (h_lines hunk) (output, oldIndex).

(** The output lines of [simulatePatch]. *)
Definition simulateLines (hunks : list ParsedHunk) (source : list TextLine) : result PatchError (list TextLine) :=
  '(output, cursor) ← foldM (applyHunk source) hunks ([], 0%nat);
  Ok (output ++ drop cursor source).

(** [simulatePatch]: the bytes of the postimage. *)
Definition simulatePatch (file : ParsedFilePatch) (preimageText : jstring) : result PatchError (list Z) :=
  output ← simulateLines (fp_hunks file) (splitText preimageText);
  let postimage := encodeUtf8 (joinText output) in
  _ ← limitIf (MAX_PATCH_TARGET_BYTES <? Z.of_nat (length postimage)) "patch_target_too_large";
  Ok postimage.

(** [readPreimage] and [simulatePatch], on what reading the file gave. *)
Definition planPostimage (file : ParsedFilePatch) (bytes : list Z) : result PatchError (list Z) :=
  preimageText ← (if fp_kind file === create_change then Ok [] else decodeText bytes);
  simulatePatch file preimageText.

(** [buildPreview]: the lines selected and whether some were left out. *)
Fixpoint previewLoop (lines : list jstring) (selected : list jstring) (bytes : Z) : list jstring * bool :=
  match lines with
  | [] => (selected, false)
  | line :: lines =>
      if MAX_PATCH_PREVIEW_LINES <=? Z.of_nat (length selected) then (selected, true)
      else
        let lineBytes := byteLength (line ++ [newline]) in
        if MAX_PATCH_PREVIEW_BYTES <? bytes + lineBytes then (selected, true)
        else previewLoop lines (selected ++ [line]) (bytes + lineBytes)
  end.
Definition buildPreview (normalizedPatch : jstring) : jstring * bool :=
  let '(selected, truncated) := previewLoop (splitUnit newline normalizedPatch) [] 0 in
  (joinUnit newline selected, truncated).

(** ** What applying a patch means

    The source and the output agree outside the hunks; a hunk replaces its old
    side by its new side, at the positions its header declares. *)

Definition side (other : HunkLineKind) (hunk : ParsedHunk) : list TextLine :=
  expectedLine <$> List.filter (fun l => hl_kind l !== other) (h_lines hunk).
Definition oldSide : ParsedHunk -> list TextLine := side addition.
Definition newSide : ParsedHunk -> list TextLine := side deletion.

Inductive applies : list ParsedHunk -> nat -> nat -> list TextLine -> list TextLine -> Prop :=
| applies_end i j rest : applies [] i j rest rest
| applies_hunk h hs i j gap source output :
    hunkStart (h_oldStart h) (h_oldCount h) = Z.of_nat (i + length gap) ->
    hunkStart (h_newStart h) (h_newCount h) = Z.of_nat (j + length gap) ->
    applies hs (i + length gap + length (oldSide h)) (j + length gap + length (newSide h)) source output ->
    applies (h :: hs) i j (gap ++ oldSide h ++ source) (gap ++ newSide h ++ output).

(** ** Reversal *)

Definition reverseKind (k : HunkLineKind) : HunkLineKind :=
  match k with addition => deletion | deletion => addition | context => context end.
Definition reverseLine (l : ParsedHunkLine) : ParsedHunkLine :=
  {| hl_kind := reverseKind (hl_kind l); hl_noNewline := hl_noNewline l; hl_text := hl_text l |}.
Definition reverseHunk (h : ParsedHunk) : ParsedHunk := {|
  h_lines := reverseLine <$> h_lines h; h_newCount := h_oldCount h; h_newStart := h_oldStart h;
  h_oldCount := h_newCount h; h_oldStart := h_newStart h |}.
Definition reverseFile (f : ParsedFilePatch) : ParsedFilePatch := {|
  fp_addedLines := fp_removedLines f; fp_diff := fp_diff f; fp_hunks := reverseHunk <$> fp_hunks f;
  fp_kind := fp_kind f; fp_path := fp_path f; fp_removedLines := fp_addedLines f |}.

(** Lines that a text can have: only the last may lack its newline, and then it
    is not empty. *)
Fixpoint proper (lines : list TextLine) : Prop :=
  match lines with
  | [] => True
  | [l] => newline ∉ tl_text l /\ (tl_hasNewline l = false -> tl_text l <> [])
  | l :: lines => newline ∉ tl_text l /\ tl_hasNewline l = true /\ proper lines
  end.

(** ** Planned postimages

    The in-memory application of a patch is the declarative one, a reversed
    patch restores the preimage, and the decoded text of a preimage is its
    bytes unless they start with a byte order mark. *)

(** ** Applying hunks *)

Lemma applyLine_ok source output cursor line output' cursor' :
  applyLine source (output, cursor) line = Ok (output', cursor') <->
  (if hl_kind line === addition then cursor' = cursor
   else source !! cursor = Some (expectedLine line) /\ cursor' = S cursor) /\
  output' = output ++ (if hl_kind line === deletion then [] else [expectedLine line]).
Proof.
  unfold applyLine. destruct (hl_kind line) eqn:E; simpl.
  - split; [by intros [= <- <-]|by intros [-> ->]].
  - destruct (source !! cursor) as [a|]; [|split; [done|by intros [[] _]]].
    case_bool_decide as Ea; [subst a|].
    + split; [by intros [= <- <-]|by intros [[_ ->] ->]].
    + split; [done|]. intros [[[= Ha] _] _]. by destruct Ea.
  - destruct (source !! cursor) as [a|]; [|split; [done|by intros [[] _]]].
    case_bool_decide as Ea; [subst a|].
    + split; [intros [= <- <-]; by rewrite app_nil_r|intros [[_ ->] ->]; by rewrite app_nil_r].
    + split; [done|]. intros [[[= Ha] _] _]. by destruct Ea.
Qed.

Definition keep (other : HunkLineKind) (lines : list ParsedHunkLine) : list TextLine :=
  expectedLine <$> List.filter (fun l => hl_kind l !== other) lines.

Lemma keep_cons other l lines :
  keep other (l :: lines) = (if hl_kind l === other then [] else [expectedLine l]) ++ keep other lines.
Proof. unfold keep. simpl. by case_bool_decide. Qed.

(** The lines of a hunk consume its old side and emit its new side. *)
Lemma applyLines_ok source lines output cursor output' cursor' :
  foldM (applyLine source) lines (output, cursor) = Ok (output', cursor') <->
  output' = output ++ keep deletion lines /\ cursor' = (cursor + length (keep addition lines))%nat /\
  (exists rest, drop cursor source = keep addition lines ++ rest).
Proof.
  revert output cursor. induction lines as [|l lines IH]; intros output cursor; cbn [foldM].
  { simpl. rewrite app_nil_r, Nat.add_0_r. split; [intros [= <- <-]; by split_and!; [..|eexists]|by intros (-> & -> & _)]. }
  rewrite !keep_cons. destruct (applyLine source (output, cursor) l) as [[o1 c1]|e] eqn:E.
  - apply applyLine_ok in E as [Hc ->]. cbv iota beta. rewrite IH, <-app_assoc. simpl.
    case_bool_decide as Ek; [subst c1; done|]. destruct Hc as [Hs ->]. simpl.
    rewrite (drop_S _ _ _ Hs). split; intros (-> & -> & rest & Hr); (split; [done|split; [lia|exists rest]]).
    + by rewrite Hr.
    + by simplify_eq.
  - split; [done|]. intros (-> & -> & rest & Hr). exfalso.
    assert (applyLine source (output, cursor) l = Ok (output ++ (if hl_kind l === deletion then [] else [expectedLine l]),
      if hl_kind l === addition then cursor else S cursor)); [|congruence].
    apply applyLine_ok. case_bool_decide; [done|]. split; [|done]. split; [|done].
    rewrite <-(Nat.add_0_r cursor), <-lookup_drop, Hr. done.
Qed.

Lemma applies_cons_inv h hs i j source output :
  applies (h :: hs) i j source output ->
  exists gap src out, source = gap ++ oldSide h ++ src /\ output = gap ++ newSide h ++ out /\
    hunkStart (h_oldStart h) (h_oldCount h) = Z.of_nat (i + length gap) /\
    hunkStart (h_newStart h) (h_newCount h) = Z.of_nat (j + length gap) /\
    applies hs (i + length gap + length (oldSide h)) (j + length gap + length (newSide h)) src out.
Proof. inversion 1; subst. eexists _, _, _. by split_and!. Qed.

Lemma hunks_ok source hunks output cursor result :
  (cursor <= length source)%nat ->
  (exists out' cur', foldM (applyHunk source) hunks (output, cursor) = Ok (out', cur') /\
     result = out' ++ drop cur' source) <->
  exists tail, result = output ++ tail /\ applies hunks cursor (length output) (drop cursor source) tail.
Proof.
  revert output cursor result. induction hunks as [|h hunks IH]; intros output cursor result Hc.
  { split.
    - intros (out' & cur' & [= <- <-] & ->). exists (drop cursor source). split; [done|constructor].
    - intros (tail & -> & Ha). inversion Ha; subst. by exists output, cursor. }
  set (oi := hunkStart (h_oldStart h) (h_oldCount h)). set (ni := hunkStart (h_newStart h) (h_newCount h)).
  split.
  - intros (out' & cur' & H & ->). cbn [foldM] in H.
    destruct (applyHunk source (output, cursor) h) as [[o1 c1]|] eqn:E; [|done].
    unfold applyHunk in E. fold oi ni in E. step E as [] Hpos. step E as [] Hnew.
    apply invalidIf_ok, orb_false_iff in Hpos as [H1 H2]. apply Z.ltb_ge in H1, H2.
    apply invalidIf_ok, negb_false_iff, bool_decide_eq_true_1 in Hnew.
    set (gap := take (Z.to_nat oi - cursor) (drop cursor source)) in *.
    assert (Hg : length gap = (Z.to_nat oi - cursor)%nat) by (unfold gap; rewrite length_take, length_drop; lia).
    apply applyLines_ok in E as (-> & -> & rest & Hrest).
    assert (Hd : drop cursor source = gap ++ oldSide h ++ rest).
    { unfold gap. rewrite <-(take_drop (Z.to_nat oi - cursor) (drop cursor source)) at 1. f_equal.
      rewrite drop_drop. replace (cursor + (Z.to_nat oi - cursor))%nat with (Z.to_nat oi) by lia. exact Hrest. }
    assert (Hlen : (Z.to_nat oi + length (oldSide h) <= length source)%nat).
    { apply (f_equal length) in Hd. rewrite length_drop, !length_app in Hd. lia. }
    assert (Hex : exists out' cur', foldM (applyHunk source) hunks
      ((output ++ gap) ++ keep deletion (h_lines h), (Z.to_nat oi + length (keep addition (h_lines h)))%nat)
      = Ok (out', cur') /\ out' ++ drop cur' source = out' ++ drop cur' source) by eauto.
    assert (Hex' : exists o' c', foldM (applyHunk source) hunks
      ((output ++ gap) ++ keep deletion (h_lines h), (Z.to_nat oi + length (keep addition (h_lines h)))%nat)
      = Ok (o', c') /\ out' ++ drop cur' source = o' ++ drop c' source) by eauto.
    apply IH in Hex' as (tail & Et & Ha); [|exact Hlen].
    exists (gap ++ newSide h ++ tail). split; [rewrite Et; by rewrite <-!app_assoc|].
    rewrite Hd. constructor; [fold oi; lia|fold ni; rewrite length_app in Hnew; lia|].
    rewrite !length_app in Ha.
    assert (Erest : drop (Z.to_nat oi + length (keep addition (h_lines h))) source = rest).
    { rewrite <-drop_drop, Hrest. by rewrite drop_app_length. }
    rewrite Erest in Ha. replace (cursor + length gap)%nat with (Z.to_nat oi) by lia. exact Ha.
  - intros (tail & -> & Ha). apply applies_cons_inv in Ha as (gap & src & out & E3 & -> & Ho & Hn & Ha').
    fold oi ni in Ho, Hn. symmetry in E3.
    assert (Hlen : length (drop cursor source) = (length gap + length (oldSide h) + length src)%nat)
      by (rewrite <-E3, !length_app; lia).
    rewrite length_drop in Hlen.
    assert (Hgap : take (Z.to_nat oi - cursor) (drop cursor source) = gap).
    { rewrite <-E3. replace (Z.to_nat oi - cursor)%nat with (length gap) by lia. by rewrite take_app_length. }
    assert (Hoi : drop (Z.to_nat oi) source = oldSide h ++ src).
    { replace (Z.to_nat oi) with (cursor + length gap)%nat by lia. rewrite <-drop_drop, <-E3. by rewrite drop_app_length. }
    assert (Hstep : applyHunk source (output, cursor) h =
      Ok ((output ++ gap) ++ newSide h, (Z.to_nat oi + length (oldSide h))%nat)).
    { unfold applyHunk. fold oi ni.
      replace ((oi <? Z.of_nat cursor) || (Z.of_nat (length source) <? oi)) with false
        by (symmetry; apply orb_false_iff; rewrite !Z.ltb_ge; lia).
      cbn [invalidIf mbind result_bind]. rewrite Hgap.
      rewrite bool_decide_eq_true_2 by (rewrite length_app; lia). cbn [negb invalidIf].
      apply applyLines_ok. split_and!; [done|done|]. by exists src. }
    cbn [foldM]. rewrite Hstep.
    destruct (proj2 (IH ((output ++ gap) ++ newSide h) (Z.to_nat oi + length (oldSide h))%nat
      ((output ++ gap) ++ newSide h ++ out) ltac:(lia))) as (o' & c' & Hf & He).
    + exists out. split; [by rewrite <-!app_assoc|]. rewrite <-drop_drop, Hoi, drop_app_length, !length_app.
      replace (Z.to_nat oi) with (cursor + length gap)%nat by lia. exact Ha'.
    + exists o', c'. split; [exact Hf|]. by rewrite <-He, <-!app_assoc.
Qed.

(** Applying a patch in memory is what a patch means: [simulateLines]
    returns an output exactly when the source and the output agree outside the
    hunks and every hunk replaces its old side by its new side at the
    positions its header declares. *)
Theorem simulateLines_is_application hunks source output :
  simulateLines hunks source = Ok output <-> applies hunks 0 0 source output.
Proof.
  pose proof (hunks_ok source hunks [] 0 output ltac:(lia)) as H. simpl in H. rewrite drop_0 in H.
  unfold simulateLines. split.
  - intros Hs. step Hs as [out cur] Hf. injection Hs as <-. destruct (proj1 H) as (tail & -> & Ha); [eauto|done].
  - intros Ha. destruct (proj2 H) as (out & cur & Hf & ->); [eauto|]. by rewrite Hf.
Qed.

(** ** Reversal *)

Lemma side_reverse k h : side k (reverseHunk h) = side (reverseKind k) h.
Proof.
  unfold side. simpl. induction (h_lines h) as [|l ls IH]; [done|]. simpl.
  assert ((reverseKind (hl_kind l) === k) = (hl_kind l === reverseKind k)) as ->
    by (apply bool_decide_ext; destruct (hl_kind l), k; split; done).
  destruct (hl_kind l === reverseKind k); simpl; [exact IH|]. f_equal. exact IH.
Qed.

Lemma applies_reverse hs i j source output :
  applies hs i j source output -> applies (reverseHunk <$> hs) j i output source.
Proof.
  induction 1 as [|h hs i j gap source output Ho Hn Ha IH]; [constructor|].
  assert (Eo : oldSide (reverseHunk h) = newSide h) by apply side_reverse.
  assert (En : newSide (reverseHunk h) = oldSide h) by apply side_reverse.
  rewrite <-Eo, <-En. simpl. constructor; [exact Hn|exact Ho|]. by rewrite Eo, En.
Qed.

(** ** Texts and lines *)

Lemma joinText_cons l lines : joinText (l :: lines) = tl_text l ++ (if tl_hasNewline l then [newline] else []) ++ joinText lines.
Proof. unfold joinText. by rewrite fmap_cons, concat_cons, <-app_assoc. Qed.

(** The line texts of a joined text, with the empty last one when it ends in a newline. *)
Lemma split_joinText lines : proper lines -> lines <> [] ->
  splitUnit newline (joinText lines) =
    (tl_text <$> lines) ++ (if default false (tl_hasNewline <$> last lines) then [[]] else []).
Proof.
  induction lines as [|l lines IH]; [done|]. intros Hp _. rewrite joinText_cons. destruct lines as [|l' lines].
  - destruct Hp as [Hl _]. simpl. destruct (tl_hasNewline l); simpl.
    + by rewrite split_app_sep.
    + rewrite app_nil_r. by apply split_plain.
  - destruct Hp as (Hl & -> & Hp). change ([newline] ++ joinText (l' :: lines)) with (newline :: joinText (l' :: lines)).
    rewrite split_app_sep by done. by rewrite (IH Hp ltac:(done)).
Qed.

Lemma proper_last lines l : proper lines -> last lines = Some l ->
  newline ∉ tl_text l /\ (tl_hasNewline l = false -> tl_text l <> []).
Proof.
  revert l. induction lines as [|x lines IH]; intros l Hp Hl; [done|]. destruct lines as [|y lines].
  - injection Hl as ->. exact Hp.
  - apply IH; [apply Hp|done].
Qed.

Lemma proper_nonempty lines : proper lines -> lines <> [] -> joinText lines <> [].
Proof.
  destruct lines as [|l [|l' lines]]; [done| |]; intros Hp _; rewrite joinText_cons.
  - destruct Hp as [_ Hp]. destruct (tl_hasNewline l); [by destruct (tl_text l)|]. rewrite app_nil_r.
    specialize (Hp eq_refl). by destruct (tl_text l).
  - destruct Hp as (_ & -> & _). by destruct (tl_text l).
Qed.

Lemma imap_lines lines (f : nat -> jstring -> TextLine) :
  (forall i l, lines !! i = Some l -> f i (tl_text l) = l) -> imap f (tl_text <$> lines) = lines.
Proof.
  intros H. apply list_eq. intros i. rewrite list_lookup_imap, list_lookup_fmap.
  destruct (lines !! i) as [l|] eqn:E; simpl; [|done]. by rewrite (H i l E).
Qed.

Lemma proper_newline lines i l : proper lines -> lines !! i = Some l -> (S i < length lines)%nat ->
  tl_hasNewline l = true.
Proof.
  revert i. induction lines as [|x lines IH]; intros i Hp Hl Hi; [done|]. destruct lines as [|y lines]; [simpl in Hi; lia|].
  destruct Hp as (_ & Hx & Hp). destruct i as [|i]; [by injection Hl as <-|]. apply (IH i Hp Hl). simpl in *. lia.
Qed.

Lemma removelast_app_one {A} (l : list A) x : removelast (l ++ [x]) = l.
Proof. apply PatchFacts.removelast_snoc. Qed.

(** Splitting a joined text gives back proper lines. *)
Lemma splitText_joinText lines : proper lines -> splitText (joinText lines) = lines.
Proof.
  intros Hp. destruct lines as [|l0 ls]; [done|]. set (lines := l0 :: ls) in *.
  assert (Hne : lines <> []) by done. clearbody lines. unfold splitText.
  rewrite (bool_decide_eq_false_2 _ (proper_nonempty _ Hp Hne)), split_joinText by done. cbv zeta.
  destruct (last lines) as [l|] eqn:El; [|by apply last_None in El].
  assert (Hlook : lines !! (length lines - 1)%nat = Some l)
    by (rewrite <-El, last_lookup; f_equal; lia).
  simpl default. destruct (tl_hasNewline l) eqn:Enl.
  - rewrite last_snoc, bool_decide_eq_true_2, removelast_app_one by done. apply imap_lines. intros i x Hx.
    destruct (decide (S i < length lines)%nat) as [Hi|Hi].
    + pose proof (proper_newline _ _ _ Hp Hx Hi) as E. destruct x. simpl in *. by rewrite E.
    + assert (i = (length lines - 1)%nat) as -> by (apply lookup_lt_Some in Hx; lia).
      rewrite Hx in Hlook. injection Hlook as ->. destruct l. simpl in *. by rewrite Enl.
  - rewrite app_nil_r. destruct (proper_last _ _ Hp El) as [_ Ht].
    assert (Elast : last (tl_text <$> lines) = Some (tl_text l)) by (by rewrite fmap_last, El).
    rewrite Elast. rewrite bool_decide_eq_false_2 by (intros [= E]; by apply Ht). cbn [orb]. apply imap_lines. intros i x Hx.
    rewrite length_fmap. destruct (decide (S i < length lines)%nat) as [Hi|Hi].
    + pose proof (proper_newline _ _ _ Hp Hx Hi) as E. destruct x. simpl in *. rewrite E. f_equal. apply Nat.ltb_lt. lia.
    + assert (i = (length lines - 1)%nat) as -> by (apply lookup_lt_Some in Hx; lia).
      rewrite Hx in Hlook. injection Hlook as ->. destruct l. simpl in *. rewrite Enl. f_equal. apply Nat.ltb_ge. lia.
Qed.

Lemma joinText_all vs (f : nat -> bool) :
  (forall i, (i < length vs)%nat -> f i = true) ->
  joinText (imap (fun i v => {| tl_hasNewline := f i; tl_text := v |}) vs) = unlines vs.
Proof.
  revert f. induction vs as [|v vs IH]; intros f Hf; [done|]. cbn [imap]. rewrite joinText_cons. cbn [tl_text tl_hasNewline].
  rewrite (Hf 0%nat) by (simpl; lia).
  unfold unlines. rewrite fmap_cons, concat_cons, <-app_assoc. do 2 f_equal.
  apply (IH (fun i => f (S i))). intros i Hi. apply Hf. simpl. lia.
Qed.

Lemma joinText_but_last vs (f : nat -> bool) :
  vs <> [] -> (forall i, f i = (i <? length vs - 1)%nat) ->
  joinText (imap (fun i v => {| tl_hasNewline := f i; tl_text := v |}) vs) = joinUnit newline vs.
Proof.
  revert f. induction vs as [|v vs IH]; intros f Hne Hf; [done|]. cbn [imap]. rewrite joinText_cons.
  cbn [tl_text tl_hasNewline]. rewrite (Hf 0%nat). destruct vs as [|v' vs].
  - simpl. by rewrite app_nil_r.
  - change (joinUnit newline (v :: v' :: vs)) with (v ++ newline :: joinUnit newline (v' :: vs)).
    simpl (0 <? _)%nat. f_equal. change (newline :: joinUnit newline (v' :: vs)) with ([newline] ++ joinUnit newline (v' :: vs)).
    f_equal. apply (IH (fun i => f (S i))); [done|]. intros i. rewrite Hf. apply eq_iff_eq_true.
    rewrite !Nat.ltb_lt. simpl. lia.
Qed.

Lemma joinUnit_snoc_empty vs : joinUnit newline (vs ++ [[]]) = unlines vs.
Proof.
  destruct vs as [|v vs]; [done|]. rewrite <-unlines_join by done.
  revert v. induction vs as [|v' vs IH]; intros v; [done|].
  change (joinUnit newline ((v :: v' :: vs) ++ [[]])) with (v ++ newline :: joinUnit newline ((v' :: vs) ++ [[]])).
  change (joinUnit newline (v :: v' :: vs)) with (v ++ newline :: joinUnit newline (v' :: vs)).
  by rewrite IH, <-!app_assoc.
Qed.

Lemma joinText_splitText t : joinText (splitText t) = t.
Proof.
  unfold splitText. case_bool_decide as Et; [by subst|]. cbv zeta.
  pose proof (joinUnit_splitUnit newline t) as Ej. pose proof (split_not_nil newline t) as Hne.
  set (vs := splitUnit newline t) in *. clearbody vs. case_bool_decide as El.
  - assert (Evs : vs = removelast vs ++ [[]]).
    { clear -El. destruct vs as [|v vs] using rev_ind; [done|]. rewrite last_snoc in El. injection El as ->.
      by rewrite removelast_app_one. }
    rewrite (joinText_all _ (fun i => true || _)) by done. by rewrite <-joinUnit_snoc_empty, <-Evs.
  - rewrite <-Ej. by apply joinText_but_last.
Qed.

(** C40: A reversed patch restores the decoded preimage, when its output is
    proper: when a patch applies to a text and its output is lines that a text
    can have ([proper]: the parser does not ensure it,
    [inner_no_newline_joins_lines]), the patch with additions and deletions
    exchanged applies to the output and gives the bytes of the text back.  The
    text is the decoded one; a byte order mark of the file is not part of it
    ([patch_drops_bom]). *)
Theorem reverse_patch_restores file preimage postimage :
  simulatePatch file preimage = Ok postimage ->
  Z.of_nat (length (encodeUtf8 preimage)) <= MAX_PATCH_TARGET_BYTES ->
  exists output, simulateLines (fp_hunks file) (splitText preimage) = Ok output /\
    postimage = encodeUtf8 (joinText output) /\
    (proper output -> simulatePatch (reverseFile file) (joinText output) = Ok (encodeUtf8 preimage)).
Proof.
  intros H Hsize. unfold simulatePatch in H. step H as output Hs. cbv zeta in H. step H as [] _E. injection H as <-.
  exists output. split; [done|]. split; [done|]. intros Hp. unfold simulatePatch, simulateLines.
  rewrite splitText_joinText by done.
  pose proof (hunks_ok (output) (reverseHunk <$> fp_hunks file) [] 0 (splitText preimage) ltac:(lia)) as Hr.
  rewrite drop_0 in Hr. destruct (proj2 Hr) as (out & cur & Hf & E).
  - exists (splitText preimage). split; [done|]. apply (applies_reverse _ 0 0).
    pose proof (hunks_ok (splitText preimage) (fp_hunks file) [] 0 output ltac:(lia)) as Hg. rewrite drop_0 in Hg.
    unfold simulateLines in Hs. step Hs as [o c] Hfold. injection Hs as <-.
    destruct (proj1 Hg) as (tail & -> & Ha); [by eauto|exact Ha].
  - simpl fp_hunks. rewrite Hf. cbn [mbind result_bind]. rewrite <-E, joinText_splitText. cbv zeta.
    assert (MAX_PATCH_TARGET_BYTES <? Z.of_nat (length (encodeUtf8 preimage)) = false) as -> by (by apply Z.ltb_ge).
    done.
Qed.

(** ** Bytes *)

(** The text a preimage is decoded to is its bytes, except that a leading
    byte order mark is dropped: encoding the text again gives the preimage, or
    the preimage without its first three bytes when these are EF BB BF. *)
Theorem decoded_preimage_encodes_back bytes text :
  decodeText bytes = Ok text ->
  Z.of_nat (length bytes) <= MAX_PATCH_TARGET_BYTES /\ 0 ∉ bytes /\
  ((~ (exists r, bytes = BOM ++ r) /\ encodeUtf8 text = bytes) \/
   (exists r, bytes = BOM ++ r /\ encodeUtf8 text = r)).
Proof.
  unfold decodeText. intros H. step H as [] Hs. step H as [] Hn.
  apply limitIf_ok, Z.ltb_ge in Hs. apply invalidIf_ok, bool_decide_eq_false_1 in Hn.
  destruct (textDecode bytes) as [t|] eqn:Et; [|done]. injection H as <-.
  split; [done|]. split; [done|]. by apply textDecode_encode.
Qed.

(** ** Concrete patches *)

Module SamplePatch.
Definition nl : jstring := [newline].
Definition text (lines : list string) : jstring := concat ((fun l => js l ++ nl) <$> lines).
Definition modify : jstring := text
  ["diff --git a/f b/f"; "--- a/f"; "+++ b/f"; "@@ -1,3 +1,3 @@"; " a"; "-b"; "+B"; " c"]%string.
Definition second : jstring := text
  ["diff --git a/f b/f"; "--- a/f"; "+++ b/f"; "@@ -2 +2 @@"; "-b"; "+B"]%string.
(** An added line without a newline, before a kept one. *)
Definition joining : jstring := text
  ["diff --git a/f b/f"; "--- a/f"; "+++ b/f"; "@@ -1 +1,2 @@"; "+x"; "\ No newline at end of file"; " a"]%string.
Definition fileOf (patch : jstring) : option ParsedFilePatch :=
  match parseUnifiedDiff patch with Ok p => head (pp_files p) | Err _ => None end.
End SamplePatch.

(** A patch of the second line removes the byte order mark before the first. *)
Example patch_drops_bom :
  match SamplePatch.fileOf SamplePatch.second with
  | Some file => planPostimage file (BOM ++ SamplePatch.text ["a"; "b"]%string)
  | None => Err OutOfFuel
  end = Ok (SamplePatch.text ["a"; "B"]%string).
Proof. vm_compute. reflexivity. Qed.

(** An added line marked as having no newline is joined to the line after it. *)
Example inner_no_newline_joins_lines :
  match SamplePatch.fileOf SamplePatch.joining with
  | Some file => planPostimage file (SamplePatch.text ["a"]%string)
  | None => Err OutOfFuel
  end = Ok (SamplePatch.text ["xa"]%string).
Proof. vm_compute. reflexivity. Qed.

Lemma reverse_patch_restores_witness :
  exists file, SamplePatch.fileOf SamplePatch.modify = Some file /\
    simulatePatch (reverseFile file) (SamplePatch.text ["a"; "B"; "c"]%string)
      = Ok (SamplePatch.text ["a"; "b"; "c"]%string).
Proof.
  destruct (SamplePatch.fileOf SamplePatch.modify) as [file|] eqn:E; [|by vm_compute in E].
  exists file. split; [reflexivity|].
  destruct (reverse_patch_restores file (SamplePatch.text ["a"; "b"; "c"]%string)
    (SamplePatch.text ["a"; "B"; "c"]%string)) as (output & Ho & _ & H).
  - vm_compute in E. injection E as <-. vm_compute. reflexivity.
  - vm_compute. discriminate.
  - vm_compute in E. injection E as <-. vm_compute in Ho. injection Ho as <-.
    apply H. vm_compute. repeat split; intros Hin; (discriminate Hin || (apply list_elem_of_In in Hin; destruct Hin as [Hin|[]]; discriminate Hin)).
Defined.

Lemma decoded_preimage_encodes_back_witness :
  exists text, decodeText (BOM ++ SamplePatch.text ["a"]%string) = Ok text /\
    encodeUtf8 text = SamplePatch.text ["a"]%string.
Proof.
  destruct (decodeText (BOM ++ SamplePatch.text ["a"]%string)) as [text|] eqn:E; [|by vm_compute in E].
  exists text. split; [reflexivity|].
  destruct (decoded_preimage_encodes_back _ _ E) as (_ & _ & [[Hn _]|(r & Hr & He)]).
  - destruct Hn. by eexists.
  - apply app_inv_head in Hr. by rewrite Hr.
Defined.

Lemma parsed_patch_is_its_text_witness :
  exists p, parseUnifiedDiff SamplePatch.modify = Ok p /\ concat (fp_diff <$> pp_files p) = SamplePatch.modify.
Proof.
  destruct (parseUnifiedDiff SamplePatch.modify) as [p|] eqn:E; [|by vm_compute in E].
  exists p. split; [reflexivity|]. rewrite (proj1 (parsed_patch_is_its_text _ _ E)).
  vm_compute in E. by injection E as <-.
Defined.
