(* ===== verification/SourceSnapshot.v ===== *)
(** * The source state a verification speaks of

    [src/verification/verification-snapshot.ts],
    [src/completion/verification-snapshot.ts], the path test of
    [source-state-digest.ts], the entries of [src/changes/change-journal.ts] and
    the net changes of [run-local-diff-checker.ts].  Reading the working tree is
    I/O: the source state digest is an input.  Unicode normalisation,
    [localeCompare] and SHA-256 are parameters. *)

From S2P Require Import Prelude JsString CanonicalJson Domain Schemas TaskGraphSchema PosixPath Utf8 Patch PatchPlan.
From stdpp Require Import pretty sorting.
#[local] Open Scope Z_scope.

(** ** Data *)

Record SnapshotFileDigest : Type := { sfd_path : jstring; sfd_sha256 : string }.
#[export] Instance SnapshotFileDigest_eq : EqDecision SnapshotFileDigest.
Proof. solve_decision. Defined.

(** [deletedFiles] is always the empty array. *)
Record VerificationSnapshot : Type := {
  vs_changedFiles : list SnapshotFileDigest;
  vs_commandInputs : list SnapshotFileDigest;
  vs_generation : Z;
  vs_gitHeadSha256 : string;
  vs_gitIndexSha256 : string;
  vs_journalSha256 : string;
  vs_packageScriptSha256 : option string;
  vs_sourceStateSha256 : string;
}.
#[export] Instance VerificationSnapshot_eq : EqDecision VerificationSnapshot.
Proof. solve_decision. Defined.

Inductive SourceEntryType : Type := source_file | source_missing | source_symlink.
#[export] Instance SourceEntryType_eq : EqDecision SourceEntryType.
Proof. solve_decision. Defined.

Record SourceFileFingerprint : Type := {
  sff_bytesSha256 : string; sff_path : jstring; sff_type : SourceEntryType }.

Record SourceStateDigest : Type := {
  ssd_files : list SourceFileFingerprint;
  ssd_gitHeadSha256 : string;
  ssd_gitIndexSha256 : string;
  ssd_sourceStateSha256 : string;
}.

Record ChangeJournalEntry : Type := {
  cj_addedLines : Z;
  cj_appliedAt : jstring;
  cj_diff : jstring;
  cj_kind : PatchChangeKind;
  cj_path : jstring;
  cj_planId : string;
  cj_postimage : list Z;
  cj_postimageSha256 : string;
  cj_preimage : list Z;
  cj_preimageSha256 : string;
  cj_removedLines : Z;
}.

(** The errors of the verification sources: the class and its code. *)
Inductive VerificationError : Type :=
| VerificationSnapshotError (code : string)
| SourceStateError (code : string)
| VerificationTrackerError (code : string)
| EncodingTypeError (error : encode_error).
#[export] Instance encode_error_eq : EqDecision encode_error.
Proof. solve_decision. Defined.
#[export] Instance VerificationError_eq : EqDecision VerificationError.
Proof. solve_decision. Defined.

Definition isSha256 (value : string) : bool := sha256Schema (js value).

(** A [Map] built by setting each key in turn. *)
Definition jm_of {A} (key : A -> jstring) (values : list A) : jsmap jstring A :=
  fold_left (fun m v => jm_set (key v) v m) values [].

(** [sort((l, r) => l.path < r.path ? -1 : l.path > r.path ? 1 : 0)] *)
Definition by_path {A} (path : A -> jstring) (a b : A) : Prop := jstring_le (path a) (path b) = true.
#[export] Instance by_path_dec {A} (path : A -> jstring) a b : Decision (by_path path a b).
Proof. unfold by_path. apply _. Defined.

(** [Array.prototype.sort()] on strings, and [[...new Set(l)]]. *)
Definition sortText (l : list jstring) : list jstring := js_sort (by_path id) l.
Definition uniqueInOrder {A} `{EqDecision A} (l : list A) : list A :=
  fold_left (fun acc x => if bool_decide (x ∈ acc) then acc else acc ++ [x]) l [].

Definition kindName (kind : PatchChangeKind) : string :=
  match kind with create_change => "create" | modify_change => "modify" end.

Section Snapshot.
(** [String.prototype.normalize("NFC")] *)
Variable nfc : jstring -> jstring.
(** [createHash("sha256")] on bytes, in hex; on a string, on its UTF-8. *)
Variable sha256Bytes : list Z -> string.
Variable localeLe : jstring -> jstring -> bool.

Definition sha256Text (s : jstring) : string := sha256Bytes (encodeUtf8 s).

(** ** Digests of snapshots *)

Definition digest_le (a b : SnapshotFileDigest) : Prop := localeLe (sfd_path a) (sfd_path b) = true.
#[export] Instance digest_le_dec a b : Decision (digest_le a b).
Proof. unfold digest_le. apply _. Defined.

Definition sortedDigests (entries : list SnapshotFileDigest) : list SnapshotFileDigest :=
  js_sort digest_le entries.

Definition digestJson (d : SnapshotFileDigest) : json :=
  JObj [(js "path", JStr (sfd_path d)); (js "sha256", JStr (js (sfd_sha256 d)))].
Definition optionJson (o : option string) : json :=
  match o with Some s => JStr (js s) | None => JUndefined end.

Definition verificationSnapshotForDigest (snapshot : VerificationSnapshot) : json := JObj [
  (js "changedFiles", JArr (digestJson <$> sortedDigests (vs_changedFiles snapshot)));
  (js "commandInputs", JArr (digestJson <$> sortedDigests (vs_commandInputs snapshot)));
  (js "deletedFiles", JArr []);
  (js "generation", JNum (vs_generation snapshot));
  (js "gitHeadSha256", JStr (js (vs_gitHeadSha256 snapshot)));
  (js "gitIndexSha256", JStr (js (vs_gitIndexSha256 snapshot)));
  (js "journalSha256", JStr (js (vs_journalSha256 snapshot)));
  (js "packageScriptSha256", optionJson (vs_packageScriptSha256 snapshot));
  (js "sourceStateSha256", JStr (js (vs_sourceStateSha256 snapshot)))].

Definition hashVerificationSnapshot (snapshot : VerificationSnapshot) : result encode_error string :=
  sha256Canonical sha256Text (verificationSnapshotForDigest snapshot).

(** Both digests are computed before they are compared; a snapshot without
    [undefined] array entries always has one, see [hash_snapshot_ok]. *)
Definition verificationSnapshotsEqual (left right : VerificationSnapshot) : bool :=
  match hashVerificationSnapshot left, hashVerificationSnapshot right with
  | Ok a, Ok b => a === b
  | _, _ => false
  end.

(** ** Building a snapshot *)

Definition normalizeWorkspaceRelativePath (value : jstring) : result VerificationError jstring :=
  _ ← throw_when ((length value =? 0)%nat || bool_decide (0 ∈ value) || includes value (js "\") ||
                  startsWith value (js "/") || hasDrivePrefix value)
        (SourceStateError "invalid_source_path");
  let components := splitUnit slash (nfc value) in
  _ ← throw_when (existsb (fun c => (length c =? 0)%nat || (c === js ".") || (c === js "..")) components)
        (SourceStateError "invalid_source_path");
  Ok (joinUnit slash components).

(** [addField]: a four-byte big-endian length, then the bytes. *)
Definition uint32BE (n : Z) : list Z := [n / 2 ^ 24 mod 256; n / 2 ^ 16 mod 256; n / 2 ^ 8 mod 256; n mod 256].
Definition addField (value : jstring) : list Z :=
  let bytes := encodeUtf8 value in uint32BE (Z.of_nat (length bytes)) ++ bytes.
Definition hashFields (version : jstring) (fields : list jstring) : string :=
  sha256Bytes (addField version ++ concat (addField <$> fields)).

Definition inconsistent : VerificationError := VerificationSnapshotError "change_journal_inconsistent".
Definition inputsUnknown : VerificationError := VerificationSnapshotError "verification_inputs_unknown".

(** The body of the loop of [validateJournal]. *)
Definition journalFieldsOf (canonicalPath : jstring) (entry : ChangeJournalEntry) : list jstring := [
  canonicalPath; js (kindName (cj_kind entry)); js (cj_planId entry); cj_appliedAt entry;
  js (cj_preimageSha256 entry); js (cj_postimageSha256 entry); js (sha256Text (cj_diff entry));
  js (pretty (cj_addedLines entry)); js (pretty (cj_removedLines entry))].
Definition journalStep (state : jsmap jstring ChangeJournalEntry * list jstring) (entry : ChangeJournalEntry)
  : result VerificationError (jsmap jstring ChangeJournalEntry * list jstring) :=
  let '(latest, journalFields) := state in
  canonicalPath ← normalizeWorkspaceRelativePath (cj_path entry);
  _ ← throw_when (canonicalPath !== cj_path entry) inconsistent;
  _ ← throw_when ((sha256Bytes (cj_preimage entry) !== cj_preimageSha256 entry) ||
                  (sha256Bytes (cj_postimage entry) !== cj_postimageSha256 entry)) inconsistent;
  _ ← throw_when match jm_get canonicalPath latest with
                 | Some previous => cj_postimageSha256 previous !== cj_preimageSha256 entry
                 | None => false
                 end inconsistent;
  Ok (jm_set canonicalPath entry latest, journalFields ++ journalFieldsOf canonicalPath entry).

Definition validateJournal (entries : list ChangeJournalEntry)
  : result VerificationError (list SnapshotFileDigest * string) :=
  '(latest, journalFields) ← foldM journalStep entries ([], []);
  Ok (js_sort (by_path sfd_path)
        ((fun e => {| sfd_path := cj_path e; sfd_sha256 := cj_postimageSha256 e |}) <$> jm_values latest),
      hashFields (js "bornagent-change-journal-v1") journalFields).

Definition collectCommandInputs (paths : list jstring) (sourceState : SourceStateDigest)
  : result VerificationError (list SnapshotFileDigest) :=
  _ ← throw_when (length paths =? 0)%nat inputsUnknown;
  canonicalPaths ← foldM (fun acc path => p ← normalizeWorkspaceRelativePath path; Ok (acc ++ [p])) paths [];
  _ ← throw_when (negb (length (uniqueInOrder canonicalPaths) =? length canonicalPaths)%nat) inputsUnknown;
  let sourceFiles := jm_of sff_path (ssd_files sourceState) in
  commandInputs ← foldM (fun acc path =>
      match jm_get path sourceFiles with
      | Some sourceFile =>
          _ ← throw_when ((sff_type sourceFile !== source_file) || negb (isSha256 (sff_bytesSha256 sourceFile)))
                inputsUnknown;
          Ok (acc ++ [{| sfd_path := path; sfd_sha256 := sff_bytesSha256 sourceFile |}])
      | None => Err inputsUnknown
      end) canonicalPaths [];
  Ok (js_sort (by_path sfd_path) commandInputs).

Record VerificationSnapshotInput : Type := {
  vsi_commandInputPaths : list jstring;
  vsi_generation : Z;
  vsi_journalEntries : list ChangeJournalEntry;
  vsi_packageScriptSha256 : option string;
  vsi_sourceState : SourceStateDigest;
}.

Definition buildVerificationSnapshot (input : VerificationSnapshotInput)
  : result VerificationError VerificationSnapshot :=
  let source := vsi_sourceState input in
  _ ← throw_when ((vsi_generation input <? 0) || (MAX_SAFE_INTEGER <? vsi_generation input))
        (VerificationSnapshotError "invalid_verification_generation");
  _ ← throw_when (existsb (fun value => negb (isSha256 value))
        [ssd_gitHeadSha256 source; ssd_gitIndexSha256 source; ssd_sourceStateSha256 source])
        (VerificationSnapshotError "invalid_source_state_digest");
  _ ← throw_when match vsi_packageScriptSha256 input with Some v => negb (isSha256 v) | None => false end
        inputsUnknown;
  '(changedFiles, journalSha256) ← validateJournal (vsi_journalEntries input);
  commandInputs ← collectCommandInputs (vsi_commandInputPaths input) source;
  Ok {| vs_changedFiles := changedFiles; vs_commandInputs := commandInputs;
        vs_generation := vsi_generation input; vs_gitHeadSha256 := ssd_gitHeadSha256 source;
        vs_gitIndexSha256 := ssd_gitIndexSha256 source; vs_journalSha256 := journalSha256;
        vs_packageScriptSha256 := vsi_packageScriptSha256 input;
        vs_sourceStateSha256 := ssd_sourceStateSha256 source |}.
End Snapshot.
