(* ===== verification/SourceSnapshotFacts.v ===== *)
(** * A digest over UTF-8 bytes binds its canonical value

    Canonical texts have no lone surrogate, because [JSON.stringify] escapes
    them; UTF-8 is injective on such texts.  So [sha256Canonical], which hashes
    bytes, determines the value when the hash has no collision. *)

From S2P Require Import Prelude JsString CanonicalJson Domain CanonicalJsonFacts Schemas Utf8 Patch SourceSnapshot.
From stdpp Require Import pretty.
From stdpp Require Import sorting.
#[local] Open Scope Z_scope.

(** ** Well-formed UTF-16 *)

Definition wellFormed (s : jstring) : Prop := exists cs, Forall isScalar cs /\ s = concat (units <$> cs).

Lemma wellFormed_nil : wellFormed [].
Proof. by exists []. Qed.

Lemma wellFormed_app s t : wellFormed s -> wellFormed t -> wellFormed (s ++ t).
Proof.
  intros (cs & Hc & ->) (ds & Hd & ->). exists (cs ++ ds). split; [by apply Forall_app|].
  by rewrite fmap_app, concat_app.
Qed.

Lemma wellFormed_cons u s : 0 <= u < 0xd800 -> wellFormed s -> wellFormed (u :: s).
Proof.
  intros Hu Hs. change (u :: s) with ([u] ++ s). apply wellFormed_app; [|done].
  exists [u]. split; [constructor; [unfold isScalar; lia|done]|]. unfold units. simpl.
  by rewrite (proj2 (Z.ltb_lt _ _)) by lia.
Qed.

Lemma wellFormed_small s : Forall (fun u => 0 <= u < 0xd800) s -> wellFormed s.
Proof. induction 1; [apply wellFormed_nil|by apply wellFormed_cons]. Qed.

Lemma wellFormed_js a : wellFormed (js a).
Proof.
  apply wellFormed_small. unfold js. apply Forall_fmap, Forall_true. intros c. simpl.
  pose proof (Ascii.N_ascii_bounded c). lia.
Qed.

#[local] Hint Resolve wellFormed_nil wellFormed_app wellFormed_js : wellformed.

Lemma wellFormed_joinUnit c ls :
  0 <= c < 0xd800 -> (forall l, l ∈ ls -> wellFormed l) -> wellFormed (joinUnit c ls).
Proof.
  intros Hc. induction ls as [|l ls IH]; intros H; [apply wellFormed_nil|].
  destruct ls as [|k ls]; [apply H; set_solver|].
  change (joinUnit c (l :: k :: ls)) with (l ++ c :: joinUnit c (k :: ls)).
  apply wellFormed_app; [apply H; set_solver|]. apply wellFormed_cons; [done|]. apply IH. set_solver.
Qed.

(** ** UTF-8 is injective on well-formed text *)

Lemma divmod_bounds a b : 0 < b -> 0 <= a mod b < b.
Proof. intros. by apply Z.mod_pos_bound. Qed.

Lemma decode_encodeCodePoint c bs :
  isScalar c -> decodeScalars (encodeCodePoint c ++ bs) = (cons c) <$> decodeScalars bs.
Proof.
  intros Hc. unfold isScalar in Hc. unfold encodeCodePoint.
  pose proof (Z.div_mod c 0x40 ltac:(lia)). pose proof (Z.mod_pos_bound c 0x40 ltac:(lia)).
  pose proof (Z.div_mod (c / 0x40) 0x40 ltac:(lia)). pose proof (Z.mod_pos_bound (c / 0x40) 0x40 ltac:(lia)).
  assert (E12 : c / 0x1000 = c / 0x40 / 0x40) by (by rewrite Z.div_div).
  pose proof (Z.div_mod (c / 0x1000) 0x40 ltac:(lia)).
  pose proof (Z.mod_pos_bound (c / 0x1000) 0x40 ltac:(lia)).
  assert (E18 : c / 0x40000 = c / 0x1000 / 0x40) by (by rewrite Z.div_div).
  assert (0 <= c / 0x40) by (apply Z.div_pos; lia). assert (0 <= c / 0x1000) by (apply Z.div_pos; lia).
  assert (0 <= c / 0x40000) by (apply Z.div_pos; lia).
  destruct (Z.ltb_spec c 0x80).
  { simpl. by rewrite !(proj2 (Z.leb_le _ _)) by lia. }
  destruct (Z.ltb_spec c 0x800).
  { simpl. unfold isCont.
    rewrite (proj2 (andb_false_iff _ _)) by (right; apply Z.leb_gt; lia).
    rewrite !(proj2 (Z.leb_le _ _)) by lia. simpl. f_equal. f_equal. lia. }
  rewrite (proj2 (andb_false_iff _ _)) by (rewrite !Z.leb_gt; lia).
  destruct (Z.ltb_spec c 0x10000); simpl; unfold isCont.
  - assert (c / 0x1000 <= 0xf) by (apply Z.lt_succ_r, Z.div_lt_upper_bound; lia).
    rewrite (proj2 (andb_false_iff _ _)) by (right; apply Z.leb_gt; lia).
    rewrite (proj2 (andb_false_iff _ _)) by (right; apply Z.leb_gt; lia).
    rewrite !(proj2 (Z.leb_le _ _)) by lia. simpl.
    replace ((0xe0 <? 0xe0 + c / 0x1000) || (0xa0 <=? 0x80 + (c / 0x40) mod 0x40)) with true
      by (symmetry; rewrite orb_true_iff, Z.ltb_lt, Z.leb_le; lia).
    replace (negb (0xe0 + c / 0x1000 =? 0xed) || (0x80 + (c / 0x40) mod 0x40 <=? 0x9f)) with true
      by (symmetry; rewrite orb_true_iff, negb_true_iff, Z.eqb_neq, Z.leb_le; lia).
    simpl. f_equal. f_equal. lia.
  - assert (c / 0x40000 <= 4) by (apply Z.lt_succ_r, Z.div_lt_upper_bound; lia).
    rewrite (proj2 (andb_false_iff _ _)) by (right; apply Z.leb_gt; lia).
    rewrite (proj2 (andb_false_iff _ _)) by (right; apply Z.leb_gt; lia).
    rewrite (proj2 (andb_false_iff _ _)) by (right; apply Z.leb_gt; lia).
    rewrite !(proj2 (Z.leb_le _ _)) by lia. simpl.
    replace ((0xf0 <? 0xf0 + c / 0x40000) || (0x90 <=? 0x80 + (c / 0x1000) mod 0x40)) with true
      by (symmetry; rewrite orb_true_iff, Z.ltb_lt, Z.leb_le; lia).
    replace (negb (0xf0 + c / 0x40000 =? 0xf4) || (0x80 + (c / 0x1000) mod 0x40 <=? 0x8f)) with true
      by (symmetry; rewrite orb_true_iff, negb_true_iff, Z.eqb_neq, Z.leb_le; lia).
    simpl. f_equal. f_equal. lia.
Qed.

Lemma decode_encode_scalars cs :
  Forall isScalar cs -> decodeScalars (concat (encodeCodePoint <$> cs)) = Some cs.
Proof.
  induction 1 as [|c cs Hc _ IH]; [done|].
  by rewrite fmap_cons, concat_cons, decode_encodeCodePoint, IH.
Qed.

Lemma encodeUtf8_inj s t : wellFormed s -> wellFormed t -> encodeUtf8 s = encodeUtf8 t -> s = t.
Proof.
  intros (cs & Hc & ->) (ds & Hd & ->) E. rewrite !encode_units in E by done.
  assert (Some cs = Some ds) as [= ->]; [|done]. by rewrite <-!decode_encode_scalars, E by done.
Qed.

(** ** Canonical texts are well formed *)

Lemma wellFormed_pair u v : isHighSurrogate u = true -> isLowSurrogate v = true -> wellFormed [u; v].
Proof.
  unfold isHighSurrogate, isLowSurrogate. rewrite !andb_true_iff, !Z.leb_le. intros Hu Hv.
  exists [0x10000 + (u - 0xd800) * 0x400 + (v - 0xdc00)].
  split; [constructor; [unfold isScalar; lia|done]|]. simpl. unfold units.
  destruct (Z.ltb_spec (0x10000 + (u - 0xd800) * 0x400 + (v - 0xdc00)) 0x10000); [lia|]. simpl.
  replace (0x10000 + (u - 0xd800) * 0x400 + (v - 0xdc00) - 0x10000) with ((u - 0xd800) * 0x400 + (v - 0xdc00)) by lia.
  rewrite Z.div_add_l, Z.div_small by lia.
  rewrite (Z.add_comm (_ * _) (v - 0xdc00)), Z.mod_add, Z.mod_small by lia.
  f_equal; [lia|]. f_equal. lia.
Qed.

Lemma hexDigit_small d : 0 <= d < 16 -> 0 <= hexDigit d < 0xd800.
Proof. unfold hexDigit. case_match; lia. Qed.

Lemma wellFormed_escape u : wellFormed (unicodeEscape u).
Proof.
  apply wellFormed_small. unfold unicodeEscape.
  repeat constructor; try lia; apply hexDigit_small, Z.mod_pos_bound; lia.
Qed.

Lemma wellFormed_quoteUnit u :
  isUnit16 u -> isHighSurrogate u = false -> isLowSurrogate u = false -> wellFormed (quoteUnit u).
Proof.
  intros Hu Hh Hl. unfold quoteUnit. repeat case_match; try (apply wellFormed_small; repeat constructor; lia).
  { apply wellFormed_escape. }
  unfold isHighSurrogate, isLowSurrogate, isUnit16 in *. rewrite !andb_false_iff, !Z.leb_gt in *.
  exists [u]. split; [constructor; [unfold isScalar; lia|done]|]. simpl. unfold units.
  by rewrite (proj2 (Z.ltb_lt _ _)) by lia.
Qed.

Lemma wellFormed_quoteUnits s : Forall isUnit16 s -> wellFormed (quoteUnits s).
Proof.
  assert (H : forall n s, (length s <= n)%nat -> Forall isUnit16 s -> wellFormed (quoteUnits s));
    [|by eapply H].
  clear. intros n. induction n as [|n IH]; intros [|u r] Hl Hs; simpl in Hl; try lia; [apply wellFormed_nil..|].
  apply list.Forall_cons in Hs as [Hu Hs]. simpl. destruct (isHighSurrogate u) eqn:Eh.
  - destruct r as [|v r']; [apply wellFormed_escape|]. destruct (isLowSurrogate v) eqn:El.
    + apply (wellFormed_app [u; v]); [by apply wellFormed_pair|]. apply IH; [simpl in Hl; lia|].
      by apply list.Forall_cons in Hs as [_ Hs].
    + apply (wellFormed_app (unicodeEscape u)); [apply wellFormed_escape|apply IH; [lia|done]].
  - destruct (isLowSurrogate u) eqn:El.
    + apply (wellFormed_app (unicodeEscape u)); [apply wellFormed_escape|apply IH; [lia|done]].
    + apply wellFormed_app; [by apply wellFormed_quoteUnit|apply IH; [lia|done]].
Qed.

Lemma wellFormed_stringify s : Forall isUnit16 s -> wellFormed (stringifyString s).
Proof.
  intros Hs. unfold stringifyString. apply wellFormed_cons; [lia|].
  apply wellFormed_app; [by apply wellFormed_quoteUnits|]. apply wellFormed_small; repeat constructor; lia.
Qed.

Lemma wellFormed_printCanon v : clean v -> wellFormed (printCanon v).
Proof.
  induction v as [| | | | |l IH|r IH] using json_nested_ind; intros Hc; simpl in Hc.
  - done.
  - apply wellFormed_js.
  - apply wellFormed_js.
  - apply wellFormed_js.
  - by apply wellFormed_stringify.
  - apply (proj1 (clean_JArr _)) in Hc. cbn [printCanon]. apply wellFormed_cons; [lia|].
    apply wellFormed_app; [|apply wellFormed_small; repeat constructor; lia].
    apply wellFormed_joinUnit; [done|]. intros x Hx.
    apply list_elem_of_In, in_map_iff in Hx as (v & <- & Hv%list_elem_of_In).
    rewrite list.Forall_forall in IH, Hc. auto.
  - apply (proj1 (clean_JObj _)) in Hc. cbn [printCanon]. apply wellFormed_cons; [lia|].
    apply wellFormed_app; [|apply wellFormed_small; repeat constructor; lia].
    apply wellFormed_joinUnit; [done|]. intros x Hx.
    apply list_elem_of_In, in_map_iff in Hx as ([k v] & <- & Hv%list_elem_of_In).
    rewrite list.Forall_forall in IH, Hc. specialize (IH _ Hv). specialize (Hc _ Hv) as [Hk Hv'].
    unfold fieldText. cbn [fst snd] in *. apply wellFormed_app; [by apply wellFormed_stringify|].
    apply wellFormed_cons; [done|auto].
Qed.

(** A digest of bytes without collisions binds the value, up to its normal form. *)
Lemma byte_digest_binds (sha256Bytes : list Z -> string) v w h :
  (forall s t, sha256Bytes s = sha256Bytes t -> s = t) ->
  sha256Canonical (fun s => sha256Bytes (encodeUtf8 s)) v = Ok h ->
  sha256Canonical (fun s => sha256Bytes (encodeUtf8 s)) w = Ok h ->
  units16 v -> units16 w -> canon v = canon w.
Proof.
  intros Hinj Hv Hw Uv Uw. apply bind_ok in Hv as (s & Hs & Hv). apply bind_ok in Hw as (t & Ht & Hw).
  injection Hv as <-. injection Hw as Hw. apply Hinj in Hw.
  pose proof (canonicalJson_clean _ _ Hs Uv) as Cv. pose proof (canonicalJson_clean _ _ Ht Uw) as Cw.
  apply canonicalJson_canon in Hs as ->. apply canonicalJson_canon in Ht as ->.
  apply encodeUtf8_inj in Hw; [|by apply wellFormed_printCanon..]. by apply printCanon_inj.
Qed.

(** ** What equal snapshots mean

    Two verification snapshots are equal for the program when their digests
    are; with a collision-free hash that is equality of everything they record.
    A snapshot that was built lists the latest postimage of every journalled
    path. *)

(** ** Values that always encode *)

Fixpoint encodable (v : json) : Prop :=
  match v with
  | JUndefined => False
  | JArr l => fold_right (fun v P => encodable v /\ P) True l
  | JObj r => fold_right (fun '(_, v) P => (isUndefined v = true \/ encodable v) /\ P) True r
  | _ => True
  end.

Lemma encodable_ok v : encodable v -> is_Some (match canonicalJson v with Ok t => Some t | Err _ => None end).
Proof.
  induction v as [| | | | |l IH|r IH] using json_nested_ind; intros H; try done; try (simpl; by eexists).
  - enough (exists t, canonicalJson (JArr l) = Ok t) as [t ->] by eauto. simpl in *.
    enough (exists ts, (fix go l := match l with [] => Ok [] | v :: l => t ← canonicalJson v; ts ← go l; Ok (t :: ts) end) l
      = Ok ts) as [ts ->] by (by eexists).
    induction IH as [|x l Hx _ IHl]; [by eexists|]. destruct H as [H Hl].
    destruct (IHl Hl) as [ts Ets]. destruct (Hx H) as [t Et].
    destruct (canonicalJson x) as [t'|]; [|done]. rewrite Ets. by eexists.
  - enough (exists t, canonicalJson (JObj r) = Ok t) as [t ->] by eauto. simpl in *.
    match goal with |- exists t, (fields ← keepFields ?l; _) = Ok t =>
      enough (exists fields, keepFields l = Ok fields) as [fields ->] by (by eexists) end.
    unfold keepFields. generalize (@nil (jstring * jstring)) at 2.
    induction IH as [|[k x] r Hx _ IHr]; intros acc; [by eexists|]. destruct H as [H Hr]. simpl.
    destruct (isUndefined x) eqn:E; [by apply IHr|]. destruct H as [H|H]; [congruence|].
    destruct (Hx H) as [t Et]. simpl in Et. destruct (canonicalJson x) as [t'|]; [|done]. by apply IHr.
Qed.

Section Facts.
Context (nfc : jstring -> jstring) (sha256Bytes : list Z -> string) (localeLe : jstring -> jstring -> bool).

(** ** Contents *)

(** What two equal snapshots agree on; file lists in locale order. *)
Record sameContents (a b : VerificationSnapshot) : Prop := {
  same_changedFiles : sortedDigests localeLe (vs_changedFiles a) = sortedDigests localeLe (vs_changedFiles b);
  same_commandInputs : sortedDigests localeLe (vs_commandInputs a) = sortedDigests localeLe (vs_commandInputs b);
  same_generation : vs_generation a = vs_generation b;
  same_head : vs_gitHeadSha256 a = vs_gitHeadSha256 b;
  same_index : vs_gitIndexSha256 a = vs_gitIndexSha256 b;
  same_journal : vs_journalSha256 a = vs_journalSha256 b;
  same_script : vs_packageScriptSha256 a = vs_packageScriptSha256 b;
  same_source : vs_sourceStateSha256 a = vs_sourceStateSha256 b;
}.

Definition digest_units (d : SnapshotFileDigest) : Prop := Forall isUnit16 (sfd_path d).
Definition snapshot_units (s : VerificationSnapshot) : Prop :=
  Forall digest_units (vs_changedFiles s) /\ Forall digest_units (vs_commandInputs s).

Lemma hash_snapshot_ok s : exists h, hashVerificationSnapshot sha256Bytes localeLe s = Ok h.
Proof.
  unfold hashVerificationSnapshot, sha256Canonical.
  assert (H : encodable (verificationSnapshotForDigest localeLe s)).
  { assert (Hd : forall l, encodable (JArr (digestJson <$> l))).
    { intros l. induction l; [done|]. split; [|done]. simpl. tauto. }
    unfold verificationSnapshotForDigest. cbn [encodable fold_right].
    split_and!; try (right; apply Hd); try (right; exact I); [|done].
    destruct (vs_packageScriptSha256 s); simpl; auto. }
  destruct (encodable_ok _ H) as [t Ht].
  destruct (canonicalJson (verificationSnapshotForDigest localeLe s)); [by eexists|done].
Qed.

Lemma snapshotsEqual_hash a b : verificationSnapshotsEqual sha256Bytes localeLe a b = true <->
  hashVerificationSnapshot sha256Bytes localeLe a = hashVerificationSnapshot sha256Bytes localeLe b.
Proof.
  unfold verificationSnapshotsEqual. destruct (hash_snapshot_ok a) as [h ->], (hash_snapshot_ok b) as [k ->].
  rewrite bool_decide_eq_true. split; [by intros ->|by injection 1].
Qed.

Lemma canon_digest d : canon (digestJson d) = digestJson d.
Proof. vm_compute. reflexivity. Qed.

Lemma digestJson_inj d e : digestJson d = digestJson e -> d = e.
Proof. destruct d, e. unfold digestJson. simpl. intros [= -> ->%js_inj]. done. Qed.

Lemma digests_inj l k :
  List.map canon (digestJson <$> l) = List.map canon (digestJson <$> k) -> l = k.
Proof.
  revert k. induction l as [|d l IH]; intros [|e k]; [done..|]. cbn [fmap list_fmap List.map].
  rewrite !canon_digest. intros H. inversion H as [[Hp Hs Hl]]. apply js_inj in Hs. apply IH in Hl.
  subst. destruct d, e; simpl in *; congruence.
Qed.

Lemma canon_snapshot c i g h x j p s :
  canon (JObj [(js "changedFiles", JArr c); (js "commandInputs", JArr i); (js "deletedFiles", JArr []);
    (js "generation", JNum g); (js "gitHeadSha256", JStr h); (js "gitIndexSha256", JStr x);
    (js "journalSha256", JStr j); (js "packageScriptSha256", optionJson p); (js "sourceStateSha256", JStr s)]) =
  JObj ([(js "changedFiles", JArr (List.map canon c)); (js "commandInputs", JArr (List.map canon i));
    (js "deletedFiles", JArr []); (js "generation", JNum g); (js "gitHeadSha256", JStr h);
    (js "gitIndexSha256", JStr x); (js "journalSha256", JStr j)] ++
    match p with Some p => [(js "packageScriptSha256", JStr (js p))] | None => [] end ++
    [(js "sourceStateSha256", JStr s)]).
Proof. destruct p as [p|]; vm_compute; reflexivity. Qed.

Lemma snapshot_canon_inj a b :
  canon (verificationSnapshotForDigest localeLe a) = canon (verificationSnapshotForDigest localeLe b) ->
  sameContents a b.
Proof.
  unfold verificationSnapshotForDigest. rewrite !canon_snapshot. intros [= H].
  destruct (vs_packageScriptSha256 a) as [p|] eqn:Ea, (vs_packageScriptSha256 b) as [q|] eqn:Eb;
    simpl in H; simplify_eq; try (injection H as H1 H2 H3 H4 H5 H6); simplify_eq;
    repeat match goal with E : js _ = js _ |- _ => apply js_inj in E end.
  all: constructor; try done; try (by apply digests_inj); congruence.
Qed.

Lemma snapshot_json_units s : snapshot_units s -> units16 (verificationSnapshotForDigest localeLe s).
Proof.
  intros [Hc Hi].
  assert (Hd : forall l, Forall digest_units l -> units16 (JArr (digestJson <$> sortedDigests localeLe l))).
  { intros l Hl. assert (Hs : Forall digest_units (sortedDigests localeLe l)).
    { unfold sortedDigests. by rewrite (js_sort_Permutation _ l). }
    induction Hs as [|d k Hd _ IH]; [done|]. split; [|done]. simpl.
    split_and!; try apply js_units; [done|done]. }
  unfold verificationSnapshotForDigest. cbn [units16 fold_right]. split_and!; try apply js_units; try done;
    try (by apply Hd).
  destruct (vs_packageScriptSha256 s); simpl; [apply js_units|done].
Qed.

Lemma sameContents_hash a b : sameContents a b ->
  hashVerificationSnapshot sha256Bytes localeLe a = hashVerificationSnapshot sha256Bytes localeLe b.
Proof.
  intros [H1 H2 H3 H4 H5 H6 H7 H8]. unfold hashVerificationSnapshot, verificationSnapshotForDigest.
  by rewrite H1, H2, H3, H4, H5, H6, H7, H8.
Qed.

Lemma snapshotsEqual_sameContents a b :
  (forall s t, sha256Bytes s = sha256Bytes t -> s = t) -> snapshot_units a -> snapshot_units b ->
  verificationSnapshotsEqual sha256Bytes localeLe a b = true <-> sameContents a b.
Proof.
  intros Hinj Ua Ub. rewrite snapshotsEqual_hash. split; [|apply sameContents_hash].
  intros H. apply snapshot_canon_inj. destruct (hash_snapshot_ok a) as [h Ha]. rewrite Ha in H.
  eapply (byte_digest_binds sha256Bytes); [done|exact Ha|by symmetry|by apply snapshot_json_units..].
Qed.

Lemma sameContents_changed a b : sameContents a b -> vs_changedFiles a ≡ₚ vs_changedFiles b.
Proof.
  intros [H _ _ _ _ _ _ _]. unfold sortedDigests in H.
  by rewrite <-(js_sort_Permutation (digest_le localeLe) (vs_changedFiles a)), H, js_sort_Permutation.
Qed.
End Facts.
