(* ===== verification/Completion.v ===== *)
(** * When a finish request is accepted

    [src/completion/completion-types.ts], [completion-policy.ts] and the
    bindings of [completion-evidence-bindings.ts]: the evidence a run has
    collected, and the decision on the model's [finish_task].  The fields of a
    verification that no decision reads (environment, sandbox changes) are left
    out. *)

From S2P Require Import Prelude JsString CanonicalJson Domain Schemas Patch SourceSnapshot.
From stdpp Require Import sorting.
#[local] Open Scope Z_scope.

(** ** Data *)

Inductive CompletionReason : Type :=
| verification_missing | verification_failed | verification_stale | verification_inputs_unknown
| diff_check_failed | source_state_changed | change_journal_inconsistent | pending_effect
| task_blocked | completion_signal_required | no_changes_for_coding_task | clarification_required
| plan_approval_required | plan_incomplete.
#[export] Instance CompletionReason_eq : EqDecision CompletionReason.
Proof. solve_decision. Defined.

Definition COMPLETION_REASON_CODES : list CompletionReason := [
  verification_missing; verification_failed; verification_stale; verification_inputs_unknown;
  diff_check_failed; source_state_changed; change_journal_inconsistent; pending_effect;
  task_blocked; completion_signal_required; no_changes_for_coding_task; clarification_required;
  plan_approval_required; plan_incomplete].

Inductive FinishStatus : Type := finish_blocked | finish_completed.
#[export] Instance FinishStatus_eq : EqDecision FinishStatus.
Proof. solve_decision. Defined.
Record FinishTaskInput : Type := { ft_status : FinishStatus; ft_summary : jstring }.

Record ChangedFileEvidence : Type := {
  cfe_addedLines : Z; cfe_kind : PatchChangeKind; cfe_path : jstring; cfe_postimageSha256 : string;
  cfe_preimageSha256 : option string; cfe_removedLines : Z }.

Inductive CheckStatus : Type := check_failed | check_passed | check_not_run.
#[export] Instance CheckStatus_eq : EqDecision CheckStatus.
Proof. solve_decision. Defined.
Record CheckEvidence : Type := {
  ce_checkedPaths : list jstring; ce_detail : jstring; ce_diffSha256 : string; ce_status : CheckStatus }.

Inductive VerificationClassification : Type := vc_build | vc_check | vc_lint | vc_test | vc_typecheck.
#[export] Instance VerificationClassification_eq : EqDecision VerificationClassification.
Proof. solve_decision. Defined.

Record CommandOutputEvidence : Type := {
  coe_artifactRefs : list string; coe_eventRefs : list string; coe_stderrSummary : jstring;
  coe_stdoutSummary : jstring; coe_totalBytes : Z; coe_truncated : bool }.

(** [purpose] has the single type ["verify"]. *)
Record VerificationEvidence : Type := {
  ve_actionSha256 : string;
  ve_afterSnapshot : VerificationSnapshot;
  ve_approved : bool;
  ve_argv : list jstring;
  ve_beforeSnapshot : VerificationSnapshot;
  ve_classification : VerificationClassification;
  ve_completedEventPersisted : bool;
  ve_cwd : jstring;
  ve_durationMs : Z;
  ve_executionId : string;
  ve_exitCode : option Z;
  ve_generationAtCompletion : Z;
  ve_generationAtStart : Z;
  ve_inputsKnown : bool;
  ve_output : CommandOutputEvidence;
  ve_stale : bool;
  ve_verificationId : option string;
}.
#[export] Instance VerificationEvidence_eta : Eta VerificationEvidence := fun r =>
  Build_VerificationEvidence (ve_actionSha256 r) (ve_afterSnapshot r) (ve_approved r) (ve_argv r)
    (ve_beforeSnapshot r) (ve_classification r) (ve_completedEventPersisted r) (ve_cwd r)
    (ve_durationMs r) (ve_executionId r) (ve_exitCode r) (ve_generationAtCompletion r)
    (ve_generationAtStart r) (ve_inputsKnown r) (ve_output r) (ve_stale r) (ve_verificationId r).

Inductive ModelEvidence : Type :=
| LegacyModelEvidence (backend endpointScope kind : string)
| RemoteLiveQualifiedModelEvidence (qualificationCompletedRequestCount qualificationRequestCount
    remoteBillableRequests remoteQualificationRequests : Z)
    (qualificationEvidenceRef qualificationEvidenceSha256 qualificationUsageCapability : string).

Record GoalRevisionAttributionScope : Type := {
  gas_baselineEventId : string; gas_changeEventIds : list string; gas_goalId : string;
  gas_goalRevision : Z; gas_ledgerSha256 : string; gas_sourceRunIds : list string }.

Record CompletionEvidence : Type := {
  cev_attributionScope : option GoalRevisionAttributionScope;
  cev_changedByRun : list ChangedFileEvidence;
  cev_diffCheck : CheckEvidence;
  cev_finalSnapshot : VerificationSnapshot;
  cev_modelEvidence : ModelEvidence;
  cev_modelNarrative : jstring;
  cev_preExistingDirtyPaths : list jstring;
  cev_runId : string;
  cev_sessionId : string;
  cev_verifications : list VerificationEvidence;
}.

Record CompletionActivityState : Type := {
  act_activeApproval : bool; act_activeCommand : bool; act_activePatch : bool;
  act_mutationMutexLocked : bool; act_unknownSideEffect : bool }.
Record ChangeJournalEvidenceState : Type := {
  cjs_consistent : bool; cjs_postimagesMatchDisk : bool; cjs_readable : bool }.

Record CompletionState : Type := {
  cs_attributionScope : option GoalRevisionAttributionScope;
  cs_activity : CompletionActivityState;
  cs_changedByRun : list ChangedFileEvidence;
  cs_diffCheck : CheckEvidence;
  cs_finalSnapshot : option VerificationSnapshot;
  cs_generation : Z;
  cs_journal : ChangeJournalEvidenceState;
  cs_modelEvidence : ModelEvidence;
  cs_preExistingDirtyPaths : list jstring;
  cs_runId : string;
  cs_sessionId : string;
  cs_verifications : list VerificationEvidence;
  cs_verificationInputsUnknown : option bool;
}.

Inductive CompletionDecision : Type :=
| accept (evidence : CompletionEvidence)
| continue_with (reasons : list CompletionReason)
| incomplete (reason : CompletionReason).

(** The [TypeError] of a summary that is not 1..2000 NUL-free characters. *)
Inductive CompletionError : Type := InvalidSummary.

(** ** The policy *)

Definition reasonIndex (r : CompletionReason) : nat :=
  match list_find (eq r) COMPLETION_REASON_CODES with Some (i, _) => i | None => 0 end.
Definition reason_le (a b : CompletionReason) : Prop := (reasonIndex a <= reasonIndex b)%nat.
#[export] Instance reason_le_dec a b : Decision (reason_le a b).
Proof. unfold reason_le. apply _. Defined.

(** [reasons] is a [Set]: its elements in the order they were added. *)
Definition addReason (b : bool) (r : CompletionReason) (reasons : list CompletionReason) : list CompletionReason :=
  if b && negb (bool_decide (r ∈ reasons)) then reasons ++ [r] else reasons.
Definition orderedReasons (reasons : list CompletionReason) : list CompletionReason :=
  js_sort reason_le reasons.

Definition isCurrentVerification (generation : Z) (v : VerificationEvidence) : bool :=
  (ve_generationAtStart v =? generation) && (ve_generationAtCompletion v =? generation).

Definition hasPendingEffect (state : CompletionState) : bool :=
  act_activeApproval (cs_activity state) || act_activeCommand (cs_activity state) ||
  act_activePatch (cs_activity state) || act_mutationMutexLocked (cs_activity state) ||
  act_unknownSideEffect (cs_activity state).

(** [`${path}\0${sha256}`] *)
Definition fileKey (path : jstring) (sha256 : string) : jstring := path ++ 0 :: js sha256.

Definition journalMatchesSnapshot (state : CompletionState) : bool :=
  match cs_finalSnapshot state with
  | None => true
  | Some snapshot =>
      let journalFiles :=
        sortText ((fun e => fileKey (cfe_path e) (cfe_postimageSha256 e)) <$> cs_changedByRun state) in
      let snapshotFiles :=
        sortText ((fun e => fileKey (sfd_path e) (sfd_sha256 e)) <$> vs_changedFiles snapshot) in
      (length journalFiles =? length snapshotFiles)%nat && (journalFiles === snapshotFiles)
  end.

Definition assertCandidate (candidate : FinishTaskInput) : result CompletionError () :=
  let characters := Z.of_nat (length (codePoints (ft_summary candidate))) in
  throw_when ((characters <? 1) || (2000 <? characters) || bool_decide (0 ∈ ft_summary candidate))
    InvalidSummary.

Section Policy.
Variable sha256Bytes : list Z -> string.
Variable localeLe : jstring -> jstring -> bool.
Notation snapshotsEqual := (verificationSnapshotsEqual sha256Bytes localeLe).

(** The disjunction of the loop over the successful verifications. *)
Definition sourceChanged (generation : Z) (final : VerificationSnapshot) (v : VerificationEvidence) : bool :=
  negb (snapshotsEqual (ve_beforeSnapshot v) (ve_afterSnapshot v)) ||
  negb (snapshotsEqual (ve_afterSnapshot v) final) ||
  negb (vs_generation (ve_beforeSnapshot v) =? generation) ||
  negb (vs_generation (ve_afterSnapshot v) =? generation).

Definition approvedVerifications (state : CompletionState) : list VerificationEvidence :=
  List.filter (fun v => ve_approved v && ve_completedEventPersisted v) (cs_verifications state).
Definition currentVerifications (state : CompletionState) : list VerificationEvidence :=
  List.filter (isCurrentVerification (cs_generation state)) (approvedVerifications state).
Definition currentWithKnownInputs (state : CompletionState) : list VerificationEvidence :=
  List.filter (fun v => ve_inputsKnown v && negb (ve_stale v)) (currentVerifications state).
Definition successfulVerifications (state : CompletionState) : list VerificationEvidence :=
  List.filter (fun v => ve_exitCode v === Some 0) (currentWithKnownInputs state).

(** The reasons collected before the decision, in the order of the code. *)
Definition collectReasons (state : CompletionState) : list CompletionReason :=
  let approved := approvedVerifications state in
  let current := currentVerifications state in
  let known := currentWithKnownInputs state in
  let successful := successfulVerifications state in
  let changedPaths := sortText (uniqueInOrder (cfe_path <$> cs_changedByRun state)) in
  let checkedPaths := sortText (uniqueInOrder (ce_checkedPaths (cs_diffCheck state))) in
  let reasons := addReason (cs_verificationInputsUnknown state === Some true) verification_inputs_unknown [] in
  let reasons := addReason (ce_status (cs_diffCheck state) !== check_passed) diff_check_failed reasons in
  let reasons := addReason (changedPaths !== checkedPaths) diff_check_failed reasons in
  let reasons := addReason (length approved =? 0)%nat verification_missing reasons in
  let reasons := addReason ((0 <? length approved)%nat && (length current =? 0)%nat) verification_stale reasons in
  let reasons := addReason (existsb (fun v => negb (ve_inputsKnown v)) current) verification_inputs_unknown reasons in
  let reasons := addReason (existsb (fun v => (length (vs_commandInputs (ve_beforeSnapshot v)) =? 0)%nat ||
                                     (length (vs_commandInputs (ve_afterSnapshot v)) =? 0)%nat) current)
                   verification_inputs_unknown reasons in
  let reasons := addReason (existsb ve_stale current) verification_stale reasons in
  let reasons := addReason ((0 <? length known)%nat && (length successful =? 0)%nat &&
                            existsb (fun v => ve_exitCode v !== Some 0) known) verification_failed reasons in
  let reasons := addReason ((length successful =? 0)%nat && (length reasons =? 0)%nat)
                   verification_missing reasons in
  match cs_finalSnapshot state with
  | None => addReason true source_state_changed reasons
  | Some final =>
      let reasons := addReason (negb (vs_generation final =? cs_generation state)) verification_stale reasons in
      fold_left (fun reasons v =>
        addReason (sourceChanged (cs_generation state) final v) source_state_changed reasons) successful reasons
  end.

(** [VerifiedCompletionPolicy.evaluate] *)
Definition evaluate (candidate : FinishTaskInput) (state : CompletionState)
  : result CompletionError CompletionDecision :=
  _ ← assertCandidate candidate;
  if ft_status candidate === finish_blocked then Ok (incomplete task_blocked)
  else if hasPendingEffect state then Ok (incomplete pending_effect)
  else if negb (cjs_readable (cs_journal state)) || negb (cjs_consistent (cs_journal state)) ||
          negb (cjs_postimagesMatchDisk (cs_journal state)) || negb (journalMatchesSnapshot state)
       then Ok (incomplete change_journal_inconsistent)
  else if (length (cs_changedByRun state) =? 0)%nat then Ok (continue_with [no_changes_for_coding_task])
  else
    let reasons := collectReasons state in
    if (0 <? length reasons)%nat then Ok (continue_with (orderedReasons reasons))
    else
      match cs_finalSnapshot state with
      | None => Ok (continue_with [source_state_changed])
      | Some finalSnapshot =>
          Ok (accept {|
            cev_attributionScope := cs_attributionScope state;
            cev_changedByRun := cs_changedByRun state;
            cev_diffCheck := cs_diffCheck state;
            cev_finalSnapshot := finalSnapshot;
            cev_modelEvidence := cs_modelEvidence state;
            cev_modelNarrative := ft_summary candidate;
            cev_preExistingDirtyPaths := cs_preExistingDirtyPaths state;
            cev_runId := cs_runId state;
            cev_sessionId := cs_sessionId state;
            cev_verifications := successfulVerifications state |})
      end.
End Policy.

(** ** Bindings of evidence

    [completion-evidence-bindings.ts] and [createIncompleteEvidence] of
    [evidence-ledger.ts]. *)

Definition evidenceChangedPaths (changedByRun : list ChangedFileEvidence) : list jstring :=
  sortText (cfe_path <$> changedByRun).

Record CompletionDiffStat : Type := { cds_added_lines : Z; cds_removed_lines : Z }.
Definition evidenceDiffStat (changedByRun : list ChangedFileEvidence) : CompletionDiffStat := {|
  cds_added_lines := fold_left (fun sum change => sum + cfe_addedLines change) changedByRun 0;
  cds_removed_lines := fold_left (fun sum change => sum + cfe_removedLines change) changedByRun 0 |}.
Definition sameDiffStat (left : option CompletionDiffStat) (right : CompletionDiffStat) : bool :=
  match left with
  | Some l => (cds_added_lines l =? cds_added_lines right) && (cds_removed_lines l =? cds_removed_lines right)
  | None => false
  end.

(** A file of a completed patch: path, postimage, preimage. *)
Record CompletedPatchFile : Type := {
  cpf_path : jstring; cpf_post_sha256 : string; cpf_pre_sha256 : option string }.
Definition netPathStep (paths : jsmap jstring (option string * string)) (file : CompletedPatchFile)
  : jsmap jstring (option string * string) :=
  match jm_get (cpf_path file) paths with
  | None => jm_set (cpf_path file) (cpf_pre_sha256 file, cpf_post_sha256 file) paths
  | Some (first, _) => jm_set (cpf_path file) (first, cpf_post_sha256 file) paths
  end.
Definition netChangedPaths (completions : list (list CompletedPatchFile)) : list jstring :=
  let paths := fold_left (fun paths files => fold_left netPathStep files paths) completions [] in
  sortText (fst <$> List.filter (fun kv : jstring * (option string * string) => kv.2.1 !== Some kv.2.2) paths).

(** [[...l].sort().join("\0")] compared. *)
Definition samePaths (left right : list jstring) : bool :=
  joinUnit 0 (sortText left) === joinUnit 0 (sortText right).

Record IncompleteEvidence : Type := {
  iev_attributionScope : option GoalRevisionAttributionScope;
  iev_changedByRun : list ChangedFileEvidence;
  iev_diffCheck : CheckEvidence;
  iev_finalSnapshot : option VerificationSnapshot;
  iev_modelEvidence : ModelEvidence;
  iev_modelNarrative : jstring;
  iev_preExistingDirtyPaths : list jstring;
  iev_reason : CompletionReason;
  iev_runId : string;
  iev_sessionId : string;
  iev_verifications : list VerificationEvidence;
}.
Definition createIncompleteEvidence (state : CompletionState) (candidate : FinishTaskInput)
  (reason : CompletionReason) : IncompleteEvidence := {|
  iev_attributionScope := cs_attributionScope state; iev_changedByRun := cs_changedByRun state;
  iev_diffCheck := cs_diffCheck state; iev_finalSnapshot := cs_finalSnapshot state;
  iev_modelEvidence := cs_modelEvidence state; iev_modelNarrative := ft_summary candidate;
  iev_preExistingDirtyPaths := cs_preExistingDirtyPaths state; iev_reason := reason;
  iev_runId := cs_runId state; iev_sessionId := cs_sessionId state;
  iev_verifications := cs_verifications state |}.
