(* ===== verification/CompletionFacts.v ===== *)
(** * What an accepted finish request means

    [VerifiedCompletionPolicy.evaluate] accepts exactly the states that carry
    the evidence [acceptable] lists. *)

From S2P Require Import Prelude JsString CanonicalJson Domain CanonicalJsonFacts Schemas Utf8 Patch SourceSnapshot SourceSnapshotFacts Completion.
From stdpp Require Import sorting.
#[local] Open Scope Z_scope.

(** ** Sorting strings *)

Lemma jstring_le_refl a : jstring_le a a = true.
Proof. induction a as [|x a IH]; simpl; [done|]. by rewrite Z.ltb_irrefl. Qed.

Lemma jstring_le_antisym a b : jstring_le a b = true -> jstring_le b a = true -> a = b.
Proof.
  revert b. induction a as [|x a IH]; intros [|y b]; simpl; try done.
  destruct (Z.ltb_spec x y), (Z.ltb_spec y x); try lia; try done.
  intros ??. f_equal; [lia|auto].
Qed.

Lemma jstring_le_trans a b c : jstring_le a b = true -> jstring_le b c = true -> jstring_le a c = true.
Proof.
  revert b c. induction a as [|x a IH]; intros [|y b] [|z c]; simpl; try done.
  destruct (Z.ltb_spec x y), (Z.ltb_spec y x), (Z.ltb_spec y z), (Z.ltb_spec z y),
    (Z.ltb_spec x z), (Z.ltb_spec z x); try lia; try done. apply IH.
Qed.

Lemma jstring_le_total a b : jstring_le a b = true \/ jstring_le b a = true.
Proof.
  revert b. induction a as [|x a IH]; intros [|y b]; simpl; [by left|by left|by right|].
  destruct (Z.ltb_spec x y), (Z.ltb_spec y x); try lia; try (by left); try (by right). apply IH.
Qed.

#[export] Instance by_path_trans {A} (path : A -> jstring) : Transitive (by_path path).
Proof. intros ???. apply jstring_le_trans. Qed.
#[export] Instance by_path_total {A} (path : A -> jstring) : Total (by_path path).
Proof. intros ??. apply jstring_le_total. Qed.

Lemma sortText_Permutation l : sortText l ≡ₚ l.
Proof. apply js_sort_Permutation. Qed.

(** Sorted texts are equal exactly when the texts are the same multiset. *)
Lemma sortText_eq l k : sortText l = sortText k <-> l ≡ₚ k.
Proof.
  split; [intros H; by rewrite <-(sortText_Permutation l), H, sortText_Permutation|].
  intros H. assert (AntiSymm (=) (by_path (A:=jstring) id)) by (intros ??; apply jstring_le_antisym).
  apply (StronglySorted_unique (by_path id)); [by apply StronglySorted_js_sort; apply _..|].
  by rewrite !sortText_Permutation.
Qed.

(** ** Sets of paths *)

Lemma uniqueInOrder_snoc {A} `{EqDecision A} (l : list A) x :
  uniqueInOrder (l ++ [x]) = if bool_decide (x ∈ uniqueInOrder l) then uniqueInOrder l else uniqueInOrder l ++ [x].
Proof. unfold uniqueInOrder. by rewrite fold_left_app. Qed.

Lemma elem_of_uniqueInOrder {A} `{EqDecision A} (l : list A) x : x ∈ uniqueInOrder l <-> x ∈ l.
Proof.
  induction l as [|y l IH] using rev_ind; [done|]. rewrite uniqueInOrder_snoc.
  case_bool_decide as Hy; set_solver.
Qed.

Lemma NoDup_uniqueInOrder {A} `{EqDecision A} (l : list A) : NoDup (uniqueInOrder l).
Proof.
  induction l as [|y l IH] using rev_ind; [constructor|]. rewrite uniqueInOrder_snoc.
  case_bool_decide as Hy; [done|]. apply NoDup_app. split_and!; [done| |apply NoDup_singleton]. set_solver.
Qed.

Lemma samePathSet l k :
  sortText (uniqueInOrder l) = sortText (uniqueInOrder k) <-> forall x, x ∈ l <-> x ∈ k.
Proof.
  rewrite sortText_eq. split.
  - intros H x. by rewrite <-(elem_of_uniqueInOrder l), H, elem_of_uniqueInOrder.
  - intros H. apply NoDup_Permutation; [apply NoDup_uniqueInOrder..|].
    intros x. by rewrite !elem_of_uniqueInOrder.
Qed.

(** ** Reasons *)

Lemma addReason_nil b r reasons : addReason b r reasons = [] <-> b = false /\ reasons = [].
Proof.
  unfold addReason. destruct b; simpl; [|naive_solver].
  destruct reasons as [|x l]; simpl; [naive_solver|]. case_match; naive_solver.
Qed.

Lemma addReason_otherwise b r reasons :
  addReason (b && (length reasons =? 0)%nat) r reasons = [] <-> b = false /\ reasons = [].
Proof. rewrite addReason_nil. destruct b, reasons; simpl; naive_solver. Qed.

Lemma addReasons_nil {A} (f : A -> bool) r l reasons :
  fold_left (fun reasons v => addReason (f v) r reasons) l reasons = [] <->
  reasons = [] /\ forall v, v ∈ l -> f v = false.
Proof.
  revert reasons. induction l as [|v l IH]; intros reasons; simpl; [set_solver|].
  rewrite IH, addReason_nil. set_solver.
Qed.

Lemma length_zero {A} (l : list A) : (length l =? 0)%nat = true <-> l = [].
Proof. destruct l; simpl; naive_solver. Qed.
Lemma length_nonzero {A} (l : list A) : (length l =? 0)%nat = false <-> l <> [].
Proof. destruct l; simpl; naive_solver. Qed.
Lemma length_pos {A} (l : list A) : (0 <? length l)%nat = false <-> l = [].
Proof. destruct l; simpl; naive_solver. Qed.

Section Facts.
Context (sha256Bytes : list Z -> string) (localeLe : jstring -> jstring -> bool).
Notation snapshotsEqual := (verificationSnapshotsEqual sha256Bytes localeLe).

(** ** The evidence of an acceptance *)

(** A finished verification that counts for the present sources. *)
Definition counts (state : CompletionState) (v : VerificationEvidence) : Prop :=
  v ∈ cs_verifications state /\ ve_approved v = true /\ ve_completedEventPersisted v = true /\
  ve_generationAtStart v = cs_generation state /\ ve_generationAtCompletion v = cs_generation state.

(** It ran on the sources that are now final, and did not change them. *)
Definition onFinalSource (state : CompletionState) (final : VerificationSnapshot) (v : VerificationEvidence) : Prop :=
  snapshotsEqual (ve_beforeSnapshot v) (ve_afterSnapshot v) = true /\
  snapshotsEqual (ve_afterSnapshot v) final = true /\
  vs_generation (ve_beforeSnapshot v) = cs_generation state /\
  vs_generation (ve_afterSnapshot v) = cs_generation state.

Record acceptable (candidate : FinishTaskInput) (state : CompletionState) (final : VerificationSnapshot) : Prop := {
  ac_completed : ft_status candidate = finish_completed;
  ac_summary : 1 <= Z.of_nat (length (codePoints (ft_summary candidate))) <= 2000 /\ 0 ∉ ft_summary candidate;
  ac_quiet : hasPendingEffect state = false;
  ac_journal : cs_journal state = {| cjs_consistent := true; cjs_postimagesMatchDisk := true; cjs_readable := true |};
  ac_final : cs_finalSnapshot state = Some final /\ vs_generation final = cs_generation state;
  ac_files : ((fun e => fileKey (cfe_path e) (cfe_postimageSha256 e)) <$> cs_changedByRun state) ≡ₚ
             ((fun e => fileKey (sfd_path e) (sfd_sha256 e)) <$> vs_changedFiles final);
  ac_changed : cs_changedByRun state <> [];
  ac_diff : ce_status (cs_diffCheck state) = check_passed /\
            forall p, p ∈ cfe_path <$> cs_changedByRun state <-> p ∈ ce_checkedPaths (cs_diffCheck state);
  ac_inputs : cs_verificationInputsUnknown state <> Some true;
  ac_current : forall v, counts state v ->
    ve_inputsKnown v = true /\ ve_stale v = false /\
    vs_commandInputs (ve_beforeSnapshot v) <> [] /\ vs_commandInputs (ve_afterSnapshot v) <> [];
  ac_passed : exists v, counts state v /\ ve_exitCode v = Some 0;
  ac_source : forall v, counts state v -> ve_exitCode v = Some 0 -> onFinalSource state final v;
}.

Lemma elem_of_current state v : v ∈ currentVerifications state <-> counts state v.
Proof.
  unfold currentVerifications, approvedVerifications, isCurrentVerification, counts.
  rewrite !list_elem_of_In, !List.filter_In, !andb_true_iff, !Z.eqb_eq. tauto.
Qed.

Lemma elem_of_successful state v :
  (forall v, counts state v -> ve_inputsKnown v = true /\ ve_stale v = false) ->
  v ∈ successfulVerifications state <-> counts state v /\ ve_exitCode v = Some 0.
Proof.
  intros H. unfold successfulVerifications, currentWithKnownInputs.
  rewrite list_elem_of_In, !List.filter_In, <-list_elem_of_In, elem_of_current, bool_decide_eq_true.
  rewrite andb_true_iff, negb_true_iff. naive_solver.
Qed.

Lemma sourceChanged_false state final v :
  sourceChanged sha256Bytes localeLe (cs_generation state) final v = false <-> onFinalSource state final v.
Proof.
  unfold sourceChanged, onFinalSource. rewrite !orb_false_iff, !negb_false_iff, !Z.eqb_eq. tauto.
Qed.

Lemma existsb_length {A} (f : A -> bool) l : existsb f l = true -> l <> [].
Proof. by destruct l. Qed.

(** No reason is collected exactly when the evidence is complete. *)
Lemma collectReasons_nil state final :
  cs_finalSnapshot state = Some final ->
  collectReasons sha256Bytes localeLe state = [] <->
  vs_generation final = cs_generation state /\
  (ce_status (cs_diffCheck state) = check_passed /\
   forall p, p ∈ cfe_path <$> cs_changedByRun state <-> p ∈ ce_checkedPaths (cs_diffCheck state)) /\
  cs_verificationInputsUnknown state <> Some true /\
  (forall v, counts state v -> ve_inputsKnown v = true /\ ve_stale v = false /\
    vs_commandInputs (ve_beforeSnapshot v) <> [] /\ vs_commandInputs (ve_afterSnapshot v) <> []) /\
  (exists v, counts state v /\ ve_exitCode v = Some 0) /\
  (forall v, counts state v -> ve_exitCode v = Some 0 -> onFinalSource state final v).
Proof.
  intros Hf. unfold collectReasons. rewrite Hf, addReasons_nil, addReason_nil, addReason_otherwise, !addReason_nil.
  split.
  - intros [(Hg & Hs & Hfail & Hst & Hin & Hk & Hcur & Hap & Hp & Hd & Hu & _) Hch].
    apply negb_false_iff in Hg, Hp, Hd. apply Z.eqb_eq in Hg. apply bool_decide_eq_true_1 in Hp, Hd.
    apply bool_decide_eq_false_1 in Hu. apply length_nonzero in Hs.
    assert (Hall : forall v, counts state v -> ve_inputsKnown v = true /\ ve_stale v = false /\
      vs_commandInputs (ve_beforeSnapshot v) <> [] /\ vs_commandInputs (ve_afterSnapshot v) <> []).
    { intros v Hv%elem_of_current.
      pose proof (proj1 (existsb_false _ _) Hst v Hv) as H1. pose proof (proj1 (existsb_false _ _) Hk v Hv) as H2.
      pose proof (proj1 (existsb_false _ _) Hin v Hv) as H3. cbn beta in *. apply negb_false_iff in H2.
      apply orb_false_iff in H3 as [H3 H4]. apply length_nonzero in H3, H4. done. }
    assert (Hsucc := fun v => elem_of_successful state v (fun v H => conj (proj1 (Hall v H)) (proj1 (proj2 (Hall v H))))).
    split_and!; try done.
    + by apply samePathSet.
    + destruct (successfulVerifications state) as [|v l] eqn:E; [done|]. exists v. apply Hsucc. set_solver.
    + intros v Hv Hx. apply sourceChanged_false, Hch, Hsucc. done.
  - intros (Hg & [Hd Hp] & Hu & Hall & [w [Hw Hwx]] & Hsrc).
    assert (Hsucc := fun v => elem_of_successful state v (fun v H => conj (proj1 (Hall v H)) (proj1 (proj2 (Hall v H))))).
    assert (Hne : successfulVerifications state <> []).
    { intros E. eapply not_elem_of_nil. rewrite <-E. by apply Hsucc. }
    assert (Hcur : w ∈ currentVerifications state) by by apply elem_of_current.
    assert (Hap : approvedVerifications state <> []).
    { intros E. unfold currentVerifications in Hcur. rewrite E in Hcur. by apply not_elem_of_nil in Hcur. }
    apply length_nonzero in Hne, Hap. rewrite Hne, Hap, andb_false_r. split_and!; try done.
    + by apply negb_false_iff, Z.eqb_eq.
    + apply existsb_false. intros v Hv%elem_of_current. by apply Hall.
    + apply existsb_false. intros v Hv%elem_of_current. apply orb_false_iff. split; apply length_nonzero; by apply Hall.
    + apply existsb_false. intros v Hv%elem_of_current. apply negb_false_iff. by apply Hall.
    + apply andb_false_iff. right. apply length_nonzero. intros E. rewrite E in Hcur. by apply not_elem_of_nil in Hcur.
    + apply negb_false_iff, bool_decide_eq_true, samePathSet. done.
    + by apply negb_false_iff, bool_decide_eq_true.
    + by apply bool_decide_eq_false.
    + intros v [Hv Hx]%Hsucc. by apply sourceChanged_false, Hsrc.
Qed.

Lemma assertCandidate_ok candidate u : assertCandidate candidate = Ok u <->
  1 <= Z.of_nat (length (codePoints (ft_summary candidate))) <= 2000 /\ 0 ∉ ft_summary candidate.
Proof.
  unfold assertCandidate. rewrite throw_when_ok, !orb_false_iff, !Z.ltb_ge, bool_decide_eq_false. naive_solver lia.
Qed.

Lemma journalMatches_ok state final : cs_finalSnapshot state = Some final ->
  journalMatchesSnapshot state = true <->
  ((fun e => fileKey (cfe_path e) (cfe_postimageSha256 e)) <$> cs_changedByRun state) ≡ₚ
  ((fun e => fileKey (sfd_path e) (sfd_sha256 e)) <$> vs_changedFiles final).
Proof.
  intros Hf. unfold journalMatchesSnapshot. rewrite Hf, andb_true_iff, Nat.eqb_eq, bool_decide_eq_true, sortText_eq.
  split; [by intros []|]. intros H. split; [|done]. by rewrite !sortText_Permutation, H.
Qed.

(** The evidence that is accepted. *)
Definition acceptedEvidence (candidate : FinishTaskInput) (state : CompletionState) (final : VerificationSnapshot)
  : CompletionEvidence := {|
  cev_attributionScope := cs_attributionScope state; cev_changedByRun := cs_changedByRun state;
  cev_diffCheck := cs_diffCheck state; cev_finalSnapshot := final; cev_modelEvidence := cs_modelEvidence state;
  cev_modelNarrative := ft_summary candidate; cev_preExistingDirtyPaths := cs_preExistingDirtyPaths state;
  cev_runId := cs_runId state; cev_sessionId := cs_sessionId state;
  cev_verifications := List.filter (fun v => isCurrentVerification (cs_generation state) v && ve_approved v &&
    ve_completedEventPersisted v && (ve_exitCode v === Some 0)) (cs_verifications state) |}.

Lemma filter_filter {A} (f g : A -> bool) l : List.filter f (List.filter g l) = List.filter (fun x => f x && g x) l.
Proof.
  induction l as [|x l IH]; simpl; [done|]. destruct (g x) eqn:Eg; simpl; [|by rewrite andb_false_r].
  rewrite andb_true_r. destruct (f x); by rewrite IH.
Qed.

Lemma filter_ext_elem {A} (f g : A -> bool) l : (forall x, x ∈ l -> f x = g x) -> List.filter f l = List.filter g l.
Proof.
  induction l as [|x l IH]; intros H; simpl; [done|]. rewrite (H x), IH; [done|set_solver|set_solver].
Qed.

Lemma successful_filter state :
  (forall v, counts state v -> ve_inputsKnown v = true /\ ve_stale v = false) ->
  successfulVerifications state =
  List.filter (fun v => isCurrentVerification (cs_generation state) v && ve_approved v &&
    ve_completedEventPersisted v && (ve_exitCode v === Some 0)) (cs_verifications state).
Proof.
  intros H. unfold successfulVerifications, currentWithKnownInputs, currentVerifications, approvedVerifications.
  rewrite !filter_filter. apply filter_ext_elem. intros v Hv.
  assert (Hc := H v). unfold counts, isCurrentVerification in *.
  destruct (ve_generationAtStart v =? cs_generation state) eqn:E1, (ve_generationAtCompletion v =? cs_generation state) eqn:E2,
    (ve_approved v), (ve_completedEventPersisted v); rewrite ?andb_false_r, ?andb_true_r; simpl; try done.
  apply Z.eqb_eq in E1, E2. destruct Hc as [-> ->]; [done|]. by rewrite andb_true_r.
Qed.

(** The policy accepts exactly the complete states. *)
Lemma evaluate_accepts candidate state evidence :
  evaluate sha256Bytes localeLe candidate state = Ok (accept evidence) <->
  exists final, acceptable candidate state final /\ evidence = acceptedEvidence candidate state final.
Proof.
  unfold evaluate. split.
  - intros H. apply bind_ok in H as (u & Hu & H). apply assertCandidate_ok in Hu.
    destruct (bool_decide (ft_status candidate = finish_blocked)) eqn:Es; [done|].
    destruct (hasPendingEffect state) eqn:Eq; [done|].
    destruct (_ || _) eqn:Ej in H; [done|]. rewrite !orb_false_iff, !negb_false_iff in Ej.
    destruct Ej as [[[Er Ec] Ed] Em]. destruct (length (cs_changedByRun state) =? 0)%nat eqn:El; [done|].
    destruct (0 <? length (collectReasons _ _ _))%nat eqn:Ecr in H; [done|]. apply length_pos in Ecr.
    destruct (cs_finalSnapshot state) as [final|] eqn:Ef; [|done]. injection H as <-. exists final.
    pose proof (proj1 (collectReasons_nil state final Ef) Ecr) as (Hg & Hd & Hi & Hcur & Hp & Hs).
    split.
    + constructor; try done.
      * apply bool_decide_eq_false_1 in Es. by destruct (ft_status candidate).
      * destruct (cs_journal state); simpl in *; congruence.
      * by apply journalMatches_ok.
      * by apply length_nonzero.
    + unfold acceptedEvidence. rewrite <-successful_filter; [done|]. intros v Hv. by destruct (Hcur v Hv) as (? & ? & _).
  - intros (final & [] & ->). destruct ac_final0 as [Hf Hg].
    rewrite (proj2 (assertCandidate_ok candidate ()) ac_summary0). cbn [mbind result_bind].
    rewrite ac_completed0, ac_quiet0, ac_journal0. simpl.
    rewrite (proj2 (journalMatches_ok state final Hf) ac_files0). simpl.
    rewrite (proj2 (length_nonzero _) ac_changed0).
    rewrite (proj2 (collectReasons_nil state final Hf)) by done. simpl. rewrite Hf.
    unfold acceptedEvidence. rewrite <-successful_filter; [done|].
    intros v Hv. by destruct (ac_current0 v Hv) as (? & ? & _).
Qed.
(** The policy accepts exactly the finish requests whose state is
    complete: nothing is pending, the journal is consistent and is what the
    final snapshot lists, the diff check passed on exactly the changed paths,
    and every verification of the present generation knew its inputs and is not
    stale, one of them exited with 0, and those that did ran on the final
    sources without changing them; the evidence names these. *)
Theorem evaluate_accepts_exactly candidate state evidence :
  evaluate sha256Bytes localeLe candidate state = Ok (accept evidence) <->
  exists final, acceptable candidate state final /\ evidence = acceptedEvidence candidate state final.
Proof. apply evaluate_accepts. Qed.
End Facts.
