(* ===== verification/Verification.v ===== *)
(** * Verification of a run's changes

    [src/verification/verification-tracker.ts]: which verification commands
    were started and completed on which generation of the sources; and the
    classifier of [verification-command-classifier.ts], which decides whether an
    approved command counts as one.  Every applied patch starts a generation. *)

From S2P Require Import Prelude JsString CanonicalJson Domain Schemas TaskGraphSchema PosixPath Permissions Patch SourceSnapshot Completion.
#[local] Open Scope Z_scope.

(** ** Data *)

Inductive VerificationStaleReason : Type := generation_changed | generation_marked_stale | stale_source_state_changed.
#[export] Instance VerificationStaleReason_eq : EqDecision VerificationStaleReason.
Proof. solve_decision. Defined.
Inductive VerificationStatus : Type := vst_failed | vst_passed | vst_stale.
#[export] Instance VerificationStatus_eq : EqDecision VerificationStatus.
Proof. solve_decision. Defined.
Inductive ExecutionTermination : Type :=
| term_cancelled | cleanup_failed | term_exit | output_limit_exceeded | term_signal | spawn_error | term_stale | term_timeout.
#[export] Instance ExecutionTermination_eq : EqDecision ExecutionTermination.
Proof. solve_decision. Defined.

Record VerificationStartedRecord : Type := {
  vsr_actionSha256 : string;
  vsr_beforeSnapshot : VerificationSnapshot;
  vsr_beforeSnapshotSha256 : string;
  vsr_commandExecutionId : string;
  vsr_generation : Z;
  vsr_kind : VerificationClassification;
  vsr_verificationId : string;
}.

Record VerificationCompletedRecord : Type := {
  vcr_started : VerificationStartedRecord;
  vcr_afterSnapshot : VerificationSnapshot;
  vcr_afterSnapshotSha256 : string;
  vcr_completedGeneration : Z;
  vcr_durationMs : Z;
  vcr_exitCode : option Z;
  vcr_staleReasons : list VerificationStaleReason;
  vcr_status : VerificationStatus;
  vcr_termination : ExecutionTermination;
}.

Record StartVerificationInput : Type := {
  svi_actionSha256 : string;
  svi_beforeSnapshot : VerificationSnapshot;
  svi_commandExecutionId : string;
  svi_kind : VerificationClassification;
  svi_verificationId : string;
}.

Record CompleteVerificationInput : Type := {
  cvi_afterSnapshot : VerificationSnapshot;
  cvi_durationMs : Z;
  cvi_exitCode : option Z;
  cvi_termination : ExecutionTermination;
  cvi_verificationId : string;
}.

(** The fields of [VerificationTracker]. *)
Record VerificationTracker : Type := {
  vt_generation : Z;
  vt_active : gmap string VerificationStartedRecord;
  vt_completed : list VerificationCompletedRecord;
  vt_seenIds : gset string;
  vt_staleGenerations : gset Z;
}.
#[export] Instance VerificationTracker_eta : Eta VerificationTracker := fun r =>
  Build_VerificationTracker (vt_generation r) (vt_active r) (vt_completed r) (vt_seenIds r) (vt_staleGenerations r).

Definition emptyTracker : VerificationTracker := {|
  vt_generation := 0; vt_active := ∅; vt_completed := []; vt_seenIds := ∅; vt_staleGenerations := ∅ |}.

Definition isIdentifier (value : string) : bool :=
  (1 <=? String.length value)%nat && (String.length value <=? 128)%nat && negb (bool_decide (0 ∈ js value)).

Section Tracker.
Variable sha256Bytes : list Z -> string.
Variable localeLe : jstring -> jstring -> bool.
Notation snapshotSha256 := (hashVerificationSnapshot sha256Bytes localeLe).
Notation snapshotsEqual := (verificationSnapshotsEqual sha256Bytes localeLe).

Definition encoded {A} (r : result encode_error A) : result VerificationError A :=
  match r with Ok a => Ok a | Err e => Err (EncodingTypeError e) end.

Definition activeCount (t : VerificationTracker) : nat := size (vt_active t).

Definition recordPatchApplied (t : VerificationTracker) : result VerificationError VerificationTracker :=
  _ ← throw_when (vt_generation t =? MAX_SAFE_INTEGER) (VerificationTrackerError "verification_generation_exhausted");
  Ok (t <| vt_generation := vt_generation t + 1 |>).

Definition markCurrentGenerationStale (t : VerificationTracker) : VerificationTracker :=
  t <| vt_staleGenerations := {[vt_generation t]} ∪ vt_staleGenerations t |>.

Definition start (input : StartVerificationInput) (t : VerificationTracker)
  : result VerificationError (VerificationStartedRecord * VerificationTracker) :=
  _ ← throw_when (negb (isIdentifier (svi_verificationId input)) ||
                  negb (isIdentifier (svi_commandExecutionId input)) ||
                  negb (isSha256 (svi_actionSha256 input)))
        (VerificationTrackerError "invalid_verification_start");
  _ ← throw_when (bool_decide (svi_verificationId input ∈ vt_seenIds t))
        (VerificationTrackerError "duplicate_verification_id");
  _ ← throw_when (negb (vs_generation (svi_beforeSnapshot input) =? vt_generation t))
        (VerificationTrackerError "verification_generation_mismatch");
  beforeSnapshotSha256 ← encoded (snapshotSha256 (svi_beforeSnapshot input));
  let started := {|
    vsr_actionSha256 := svi_actionSha256 input;
    vsr_beforeSnapshot := svi_beforeSnapshot input;
    vsr_beforeSnapshotSha256 := beforeSnapshotSha256;
    vsr_commandExecutionId := svi_commandExecutionId input;
    vsr_generation := vt_generation t;
    vsr_kind := svi_kind input;
    vsr_verificationId := svi_verificationId input |} in
  Ok (started, t <| vt_seenIds := {[svi_verificationId input]} ∪ vt_seenIds t |>
                 <| vt_active := <[svi_verificationId input := started]> (vt_active t) |>).

(** [staleReasons] of a completion; no reason is pushed twice. *)
Definition staleReasonsOf (t : VerificationTracker) (started : VerificationStartedRecord)
  (afterSnapshot : VerificationSnapshot) : list VerificationStaleReason :=
  (if negb (vsr_generation started =? vt_generation t) ||
      negb (vs_generation afterSnapshot =? vsr_generation started) then [generation_changed] else []) ++
  (if bool_decide (vsr_generation started ∈ vt_staleGenerations t) then [generation_marked_stale] else []) ++
  (if snapshotsEqual (vsr_beforeSnapshot started) afterSnapshot then [] else [stale_source_state_changed]).

Definition complete (input : CompleteVerificationInput) (t : VerificationTracker)
  : result VerificationError (VerificationCompletedRecord * VerificationTracker) :=
  match vt_active t !! cvi_verificationId input with
  | None => Err (VerificationTrackerError "verification_not_active")
  | Some started =>
      let unsafe n := (n <? 0) || (MAX_SAFE_INTEGER <? n) in
      _ ← throw_when (unsafe (cvi_durationMs input) ||
                      match cvi_exitCode input with Some n => unsafe n | None => false end)
            (VerificationTrackerError "invalid_verification_result");
      let staleReasons := staleReasonsOf t started (cvi_afterSnapshot input) in
      let status :=
        if (0 <? length staleReasons)%nat then vst_stale
        else if (cvi_termination input === term_exit) && (cvi_exitCode input === Some 0) then vst_passed
        else vst_failed in
      afterSnapshotSha256 ← encoded (snapshotSha256 (cvi_afterSnapshot input));
      let completed := {|
        vcr_started := started;
        vcr_afterSnapshot := cvi_afterSnapshot input;
        vcr_afterSnapshotSha256 := afterSnapshotSha256;
        vcr_completedGeneration := vt_generation t;
        vcr_durationMs := cvi_durationMs input;
        vcr_exitCode := cvi_exitCode input;
        vcr_staleReasons := staleReasons;
        vcr_status := status;
        vcr_termination := cvi_termination input |} in
      Ok (completed, t <| vt_active := delete (cvi_verificationId input) (vt_active t) |>
                       <| vt_completed := vt_completed t ++ [completed] |>)
  end.

Definition successfulCurrent (completionSnapshot : VerificationSnapshot) (t : VerificationTracker)
  : list VerificationCompletedRecord :=
  if negb (vs_generation completionSnapshot =? vt_generation t) then []
  else List.filter (fun record =>
         (vcr_status record === vst_passed) &&
         (vsr_generation (vcr_started record) =? vt_generation t) &&
         negb (bool_decide (vsr_generation (vcr_started record) ∈ vt_staleGenerations t)) &&
         snapshotsEqual (vcr_afterSnapshot record) completionSnapshot) (vt_completed t).
End Tracker.

(** ** The classifier *)

Record ApprovedCommandForVerification : Type := {
  acv_actionSha256 : string; acv_approved : bool; acv_args : list jstring; acv_cwd : jstring;
  acv_logicalExecutable : jstring; acv_purpose : CommandPurpose }.

Record RegistryVerificationClassification : Type := {
  rvc_inputPaths : list jstring; rvc_kind : VerificationClassification;
  rvc_packageScriptSha256 : option string }.

Inductive IneligibleReason : Type :=
| command_not_approved | command_not_classified | command_not_verify_purpose | inputs_unknown.
Inductive VerificationClassificationResult : Type :=
| Eligible (classification : RegistryVerificationClassification)
| Ineligible (reason : IneligibleReason).

Section Classifier.
Variable nfc : jstring -> jstring.

Definition canonicalInputPath (path : jstring) : option jstring :=
  if (length path =? 0)%nat || bool_decide (0 ∈ path) || includes path (js "\") ||
     startsWith path (js "/") || hasDrivePrefix path then None
  else
    let components := splitUnit slash (nfc path) in
    if existsb (fun c => (length c =? 0)%nat || (c === js ".") || (c === js "..")) components then None
    else Some (joinUnit slash components).

(** [VerificationCommandClassifier.classify], on what the registry adapter
    answers. *)
Definition classify (command : ApprovedCommandForVerification)
  (adapter : ApprovedCommandForVerification -> option RegistryVerificationClassification)
  : VerificationClassificationResult :=
  if negb (acv_approved command) || negb (isSha256 (acv_actionSha256 command)) then Ineligible command_not_approved
  else if acv_purpose command !== purpose_verify then Ineligible command_not_verify_purpose
  else
    match adapter command with
    | None => Ineligible command_not_classified
    | Some classified =>
        let canonicalPaths := canonicalInputPath <$> rvc_inputPaths classified in
        if (length canonicalPaths =? 0)%nat || existsb (fun p => p === None) canonicalPaths ||
           negb (length (uniqueInOrder canonicalPaths) =? length canonicalPaths)%nat ||
           match rvc_packageScriptSha256 classified with Some v => negb (isSha256 v) | None => false end
        then Ineligible inputs_unknown
        else Eligible {| rvc_inputPaths := omap id canonicalPaths; rvc_kind := rvc_kind classified;
                         rvc_packageScriptSha256 := rvc_packageScriptSha256 classified |}
    end.
End Classifier.
