(* ===== verification/RunLocalDiff.v ===== *)
(** * The run-local diff check

    [src/verification/run-local-diff-checker.ts]: the net change of a run's
    journal, and the check that Git's diff of it applies.  What Git and the
    temporary directory answer is an input of [check]. *)

From S2P Require Import Prelude JsString CanonicalJson Schemas PosixPath Utf8 Patch PatchPlan SourceSnapshot.
From stdpp Require Import sorting.
#[local] Open Scope Z_scope.

Inductive RunLocalDiffErrorCode : Type :=
| diff_apply_check_failed | diff_generation_failed | diff_postimage_mismatch | journal_inconsistent
| no_run_local_changes | unsupported_run_local_binary.
#[export] Instance RunLocalDiffErrorCode_eq : EqDecision RunLocalDiffErrorCode.
Proof. solve_decision. Defined.

Record RunLocalDiffFileStat : Type := { rfs_addedLines : Z; rfs_path : jstring; rfs_removedLines : Z }.

(** [detail] is a message; it is left out. *)
Record RunLocalDiffCheckResult : Type := {
  rld_addedLines : Z;
  rld_checkedPaths : list jstring;
  rld_diffSha256 : string;
  rld_errorCode : option RunLocalDiffErrorCode;
  rld_exactDiff : jstring;
  rld_fileStats : list RunLocalDiffFileStat;
  rld_passed : bool;
  rld_removedLines : Z;
}.

Record NetJournalChange : Type := {
  njc_kind : PatchChangeKind; njc_path : jstring; njc_postimage : list Z;
  njc_postimageSha256 : string; njc_preimage : list Z }.

(** [{ first, latest }]: the journal's first and latest entry of a path. *)
Definition FirstLatest : Type := ChangeJournalEntry * ChangeJournalEntry.

(** The texts of Git's diff. *)

(** [s.replaceAll(from, to)] for a non-empty [from]; [fuel] bounds the length. *)
Fixpoint replaceAllFrom (fuel : nat) (from to s : jstring) : jstring :=
  match fuel, s with
  | O, _ => s
  | _, [] => []
  | S fuel, u :: r =>
      if startsWith s from then to ++ replaceAllFrom fuel from to (drop (length from) s)
      else u :: replaceAllFrom fuel from to r
  end.
Definition replaceAllText (from to : string) (s : jstring) : jstring :=
  replaceAllFrom (S (length s)) (js from) (js to) s.

Definition normalizeLine (state : bool * list jstring) (line : jstring) : bool * list jstring :=
  let '(inHunk, out) := state in
  let header := startsWith line (js "diff --git ") in
  if negb header && startsWith line (js "@@") then (true, out ++ [line])
  else
    let inHunk := if header then false else inHunk in
    if inHunk || (negb header && negb (startsWith line (js "--- ")) && negb (startsWith line (js "+++ ")))
    then (inHunk, out ++ [line])
    else (inHunk, out ++ [replaceAllText "b/after/" "b/" (replaceAllText "b/before/" "b/"
                            (replaceAllText "a/after/" "a/" (replaceAllText "a/before/" "a/" line)))]).
Definition normalizeDirectoryDiff (diff : jstring) : jstring :=
  joinUnit newline (fold_left normalizeLine (splitUnit newline diff) (false, [])).2.

Definition statLine (state : bool * Z * Z) (line : jstring) : bool * Z * Z :=
  let '(inHunk, added, removed) := state in
  if startsWith line (js "diff --git ") then (false, added, removed)
  else if startsWith line (js "@@") then (true, added, removed)
  else if negb inHunk then state
  else if startsWith line (js "+") then (inHunk, added + 1, removed)
  else if startsWith line (js "-") then (inHunk, added, removed + 1)
  else state.
Definition diffStat (diff : jstring) : Z * Z :=
  let '(_, added, removed) := fold_left statLine (splitUnit newline diff) (false, 0, 0) in (added, removed).

(** [perFileDiffStat]; the state is the section, counted from one, [inHunk] and
    the statistics; [None] where it throws. *)
Definition fileStatLine (state : nat * bool * list RunLocalDiffFileStat) (line : jstring)
  : result () (nat * bool * list RunLocalDiffFileStat) :=
  let '(section, inHunk, stats) := state in
  if startsWith line (js "diff --git ") then Ok (S section, false, stats)
  else if startsWith line (js "@@") then Ok (section, true, stats)
  else if negb inHunk then Ok state
  else
    match section with
    | S i =>
        match stats !! i with
        | Some current =>
            let added := if startsWith line (js "+") then 1 else 0 in
            let removed := if negb (startsWith line (js "+")) && startsWith line (js "-") then 1 else 0 in
            Ok (section, inHunk, <[i := {| rfs_addedLines := rfs_addedLines current + added;
                                           rfs_path := rfs_path current;
                                           rfs_removedLines := rfs_removedLines current + removed |}]> stats)
        | None => Err ()
        end
    | O => Err ()
    end.
Definition perFileDiffStat (diff : jstring) (paths : list jstring) : result () (list RunLocalDiffFileStat) :=
  '(section, _, stats) ← foldM fileStatLine (splitUnit newline diff)
     (0%nat, false, (fun path => {| rfs_addedLines := 0; rfs_path := path; rfs_removedLines := 0 |}) <$> paths);
  _ ← throw_when (negb (section =? length paths)%nat) ();
  Ok stats.

(** What the fixed Git commands and the files of the temporary directory give:
    the exit codes and output of [git diff], [git apply --check] and
    [git apply], and the replayed bytes of a path. *)
Record IsolatedReplay : Type := {
  ir_generatedExit : Z;
  ir_generatedStdout : list Z;
  ir_applicableExit : Z;
  ir_applyExit : Z;
  ir_replayed : jstring -> option (list Z);
}.

Section Check.
Variable nfc : jstring -> jstring.
Variable sha256Bytes : list Z -> string.
Notation sha256Text := (sha256Text sha256Bytes).

(** [.git] and [.bornagent] and what is below them. *)
Definition isInternalPath (path : jstring) : bool :=
  let path := toLowerCase path in
  (path === js ".git") || startsWith path (js ".git/") ||
  (path === js ".bornagent") || startsWith path (js ".bornagent/").

(** The body of the loop of [netChanges]. *)
Definition netStep (grouped : jsmap jstring FirstLatest) (entry : ChangeJournalEntry)
  : result RunLocalDiffErrorCode (jsmap jstring FirstLatest) :=
  match normalizeWorkspaceRelativePath nfc (cj_path entry) with
  | Err _ => Err journal_inconsistent
  | Ok path =>
      _ ← throw_when ((path !== cj_path entry) || isInternalPath path ||
                      (sha256Bytes (cj_preimage entry) !== cj_preimageSha256 entry) ||
                      (sha256Bytes (cj_postimage entry) !== cj_postimageSha256 entry)) journal_inconsistent;
      _ ← throw_when (bool_decide (0 ∈ cj_preimage entry) || bool_decide (0 ∈ cj_postimage entry))
            unsupported_run_local_binary;
      match jm_get path grouped with
      | None =>
          _ ← throw_when ((cj_kind entry === create_change) && negb (length (cj_preimage entry) =? 0)%nat)
                journal_inconsistent;
          Ok (jm_set path (entry, entry) grouped)
      | Some (first, latest) =>
          _ ← throw_when (cj_postimageSha256 latest !== cj_preimageSha256 entry) journal_inconsistent;
          Ok (jm_set path (first, entry) grouped)
      end
  end.

Definition netChange (kv : jstring * FirstLatest) : NetJournalChange := {|
  njc_kind := cj_kind kv.2.1; njc_path := kv.1; njc_postimage := cj_postimage kv.2.2;
  njc_postimageSha256 := cj_postimageSha256 kv.2.2; njc_preimage := cj_preimage kv.2.1 |}.

Definition netChanges (entries : list ChangeJournalEntry) : result RunLocalDiffErrorCode (list NetJournalChange) :=
  grouped ← foldM netStep entries [];
  Ok (js_sort (by_path njc_path)
        (List.filter (fun change => njc_preimage change !== njc_postimage change) (netChange <$> grouped))).

Definition failed (code : RunLocalDiffErrorCode) (checkedPaths : list jstring) (exactDiff : jstring)
  : RunLocalDiffCheckResult := {|
  rld_addedLines := 0; rld_checkedPaths := checkedPaths; rld_diffSha256 := sha256Text exactDiff;
  rld_errorCode := Some code; rld_exactDiff := exactDiff; rld_fileStats := []; rld_passed := false;
  rld_removedLines := 0 |}.

(** The loop over the replayed files: the first that cannot be read, which is
    caught as [diff_generation_failed], or is not its postimage. *)
Fixpoint replayError (replay : IsolatedReplay) (changes : list NetJournalChange) : option RunLocalDiffErrorCode :=
  match changes with
  | [] => None
  | change :: changes =>
      match ir_replayed replay (njc_path change) with
      | None => Some diff_generation_failed
      | Some replayed =>
          if sha256Bytes replayed !== njc_postimageSha256 change then Some diff_postimage_mismatch
          else replayError replay changes
      end
  end.

(** [RunLocalDiffChecker.check] *)
Definition check (replay : IsolatedReplay) (entries : list ChangeJournalEntry) : RunLocalDiffCheckResult :=
  match netChanges entries with
  | Err code => failed code [] []
  | Ok changes =>
      let checkedPaths := njc_path <$> changes in
      if (length checkedPaths =? 0)%nat then failed no_run_local_changes [] []
      else if negb (ir_generatedExit replay =? 1) then failed diff_generation_failed checkedPaths []
      else
        match textDecode (ir_generatedStdout replay) with
        | None => failed diff_generation_failed checkedPaths []
        | Some stdout =>
            let exactDiff := normalizeDirectoryDiff stdout in
            if negb (ir_applicableExit replay =? 0) then failed diff_apply_check_failed checkedPaths exactDiff
            else if negb (ir_applyExit replay =? 0) then failed diff_apply_check_failed checkedPaths exactDiff
            else
              match replayError replay changes with
              | Some diff_generation_failed => failed diff_generation_failed checkedPaths []
              | Some code => failed code checkedPaths exactDiff
              | None =>
                  match perFileDiffStat exactDiff checkedPaths with
                  | Err _ => failed diff_generation_failed checkedPaths []
                  | Ok fileStats =>
                      {| rld_addedLines := (diffStat exactDiff).1; rld_checkedPaths := checkedPaths;
                         rld_diffSha256 := sha256Text exactDiff; rld_errorCode := None;
                         rld_exactDiff := exactDiff; rld_fileStats := fileStats; rld_passed := true;
                         rld_removedLines := (diffStat exactDiff).2 |}
                  end
              end
        end
  end.
End Check.
