(* ===== verification/CompletionRuntime.v ===== *)
(** * The completion runtime of a run

    [src/completion/phase7-completion-runtime.ts] with the journal of
    [src/changes/change-journal.ts]: the operations through which tools report
    patches and verification commands, and the state handed to the completion
    policy.  The agent loop runs one tool call at a time, so each operation is a
    step; what the disk, Git, the classifier and the event publisher answer is an
    argument of the step. *)

From S2P Require Import Prelude JsString CanonicalJson Domain Schemas TaskGraphSchema Permissions Patch PatchPlan SourceSnapshot.
From S2P Require Import Completion Verification RunLocalDiff.
From stdpp Require Import sorting.
#[local] Open Scope Z_scope.

(** ** Data *)

(** What [recordAppliedPlan] reads of a planned file change. *)
Record PlannedFileChange : Type := {
  pfc_addedLines : Z; pfc_diff : jstring; pfc_kind : PatchChangeKind; pfc_relativePath : jstring;
  pfc_postimage : list Z; pfc_postimageSha256 : string; pfc_preimage : list Z;
  pfc_preimageSha256 : string; pfc_removedLines : Z }.
Record PatchPlan : Type := { plan_id : string; plan_files : list PlannedFileChange }.

(** What the runtime reads of a prepared execution and of its result. *)
Record PreparedExecution : Type := {
  pe_actionSha256 : string; pe_argv : list jstring; pe_canonicalCwd : jstring;
  pe_logicalExecutable : jstring; pe_purpose : CommandPurpose }.
Record ExecutionResult : Type := {
  er_durationMs : Z; er_exitCode : option Z; er_stderr : jstring; er_stderrBytes : Z;
  er_stdout : jstring; er_stdoutBytes : Z; er_termination : ExecutionTermination; er_truncated : bool }.

Record ActiveVerificationContext : Type := {
  avc_classification : RegistryVerificationClassification;
  avc_prepared : PreparedExecution;
  avc_started : VerificationStartedRecord }.

(** The fields of [Phase7CompletionRuntime] that never change. *)
Record RuntimeOptions : Type := {
  ro_modelEvidence : ModelEvidence; ro_preExistingDirtyPaths : list jstring;
  ro_runId : string; ro_sessionId : string }.

(** Those that change, and the journal it shares with the patch applier. *)
Record Phase7CompletionRuntime : Type := {
  rt_journal : list ChangeJournalEntry;
  rt_tracker : VerificationTracker;
  rt_verifications : list VerificationEvidence;
  rt_verificationInputsUnknown : bool;
}.
#[export] Instance Phase7CompletionRuntime_eta : Eta Phase7CompletionRuntime := fun r =>
  Build_Phase7CompletionRuntime (rt_journal r) (rt_tracker r) (rt_verifications r)
    (rt_verificationInputsUnknown r).

(** [Phase7CompletionRuntime.create], on a journal seeded or empty. *)
Definition initialRuntime (seed : list ChangeJournalEntry) : Phase7CompletionRuntime := {|
  rt_journal := seed; rt_tracker := emptyTracker; rt_verifications := [];
  rt_verificationInputsUnknown := false |}.

(** [FatalToolExecutionError("storage")] when an event could not be persisted. *)
Inductive RuntimeError : Type :=
| Verification (error : VerificationError)
| StorageError (workspaceMayHaveChanged : bool).

(** A step: what it returns or throws, and the state it leaves. *)
Definition step (A : Type) : Type := result RuntimeError A * Phase7CompletionRuntime.
Definition thrown {A} (e : VerificationError) (rt : Phase7CompletionRuntime) : step A := (Err (Verification e), rt).

(** [recordAppliedPlan] *)
Definition recordAppliedPlan (plan : PatchPlan) (appliedAt : jstring) (recorded : list ChangeJournalEntry)
  : list ChangeJournalEntry :=
  recorded ++ ((fun file => {|
    cj_addedLines := pfc_addedLines file; cj_appliedAt := appliedAt; cj_diff := pfc_diff file;
    cj_kind := pfc_kind file; cj_path := pfc_relativePath file; cj_planId := plan_id plan;
    cj_postimage := pfc_postimage file; cj_postimageSha256 := pfc_postimageSha256 file;
    cj_preimage := pfc_preimage file; cj_preimageSha256 := pfc_preimageSha256 file;
    cj_removedLines := pfc_removedLines file |}) <$> plan_files plan).

(** [summarize]: the first 1024 code points, with normalised line ends. *)
Fixpoint takeCodePoints (n : nat) (s : jstring) : jstring :=
  match n, s with
  | O, _ | _, [] => []
  | S n, u :: r =>
      match r with
      | v :: r' => if isHighSurrogate u && isLowSurrogate v then u :: v :: takeCodePoints n r'
                   else u :: takeCodePoints n r
      | [] => [u]
      end
  end.
Definition summarize (value : jstring) : jstring :=
  takeCodePoints 1024 (replaceUnit 0x0d newline (replaceCrlf value)).

Section Runtime.
Variable nfc : jstring -> jstring.
Variable sha256Bytes : list Z -> string.
Variable localeLe : jstring -> jstring -> bool.
Variable options : RuntimeOptions.

(** ** Operations *)

(** The applier records a plan in the journal... *)
Definition journalPlan (plan : PatchPlan) (appliedAt : jstring) (rt : Phase7CompletionRuntime)
  : Phase7CompletionRuntime := rt <| rt_journal ::= recordAppliedPlan plan appliedAt |>.

(** ...and the patch tool reports it applied: [recordPatchApplied]. *)
Definition patchApplied (rt : Phase7CompletionRuntime) : step () :=
  match recordPatchApplied (rt_tracker rt) with
  | Ok tracker => (Ok (), rt <| rt_tracker := tracker |>)
  | Err e => thrown e rt
  end.

(** [snapshot], on the source state read from disk, which may fail. *)
Definition takeSnapshot (classification : RegistryVerificationClassification)
  (sourceState : result VerificationError SourceStateDigest) (rt : Phase7CompletionRuntime)
  : result VerificationError VerificationSnapshot :=
  sourceState ← sourceState;
  buildVerificationSnapshot nfc sha256Bytes {|
    vsi_commandInputPaths := rvc_inputPaths classification;
    vsi_generation := vt_generation (rt_tracker rt);
    vsi_journalEntries := rt_journal rt;
    vsi_packageScriptSha256 := rvc_packageScriptSha256 classification;
    vsi_sourceState := sourceState |}.

(** [prepareVerification] *)
Definition prepareVerification (prepared : PreparedExecution)
  (classification : option RegistryVerificationClassification)
  (sourceState : result VerificationError SourceStateDigest) (commandExecutionId randomUUID : string)
  (rt : Phase7CompletionRuntime) : step (option ActiveVerificationContext) :=
  if pe_purpose prepared !== purpose_verify then (Ok None, rt)
  else
    match classification with
    | Some classification =>
        if (length (rvc_inputPaths classification) =? 0)%nat
        then (Ok None, rt <| rt_verificationInputsUnknown := true |>)
        else
          let rt := rt <| rt_verificationInputsUnknown := false |> in
          match takeSnapshot classification sourceState rt with
          | Err e => thrown e rt
          | Ok beforeSnapshot =>
              match start sha256Bytes localeLe {|
                      svi_actionSha256 := pe_actionSha256 prepared;
                      svi_beforeSnapshot := beforeSnapshot;
                      svi_commandExecutionId := commandExecutionId;
                      svi_kind := rvc_kind classification;
                      svi_verificationId := randomUUID |} (rt_tracker rt) with
              | Err e => thrown e rt
              | Ok (started, tracker) =>
                  (Ok (Some {| avc_classification := classification; avc_prepared := prepared;
                               avc_started := started |}),
                   rt <| rt_tracker := tracker |>)
              end
          end
    | None => (Ok None, rt <| rt_verificationInputsUnknown := true |>)
    end.

(** The evidence [completeVerification] keeps of a completed verification. *)
Definition verificationEvidence (context : ActiveVerificationContext) (result : ExecutionResult)
  (completed : VerificationCompletedRecord) : VerificationEvidence := {|
  ve_actionSha256 := vsr_actionSha256 (vcr_started completed);
  ve_afterSnapshot := vcr_afterSnapshot completed;
  ve_approved := true;
  ve_argv := pe_logicalExecutable (avc_prepared context) :: pe_argv (avc_prepared context);
  ve_beforeSnapshot := vsr_beforeSnapshot (vcr_started completed);
  ve_classification := vsr_kind (vcr_started completed);
  ve_completedEventPersisted := true;
  ve_cwd := pe_canonicalCwd (avc_prepared context);
  ve_durationMs := vcr_durationMs completed;
  ve_executionId := vsr_commandExecutionId (vcr_started completed);
  ve_exitCode := if vcr_termination completed === term_exit then vcr_exitCode completed else None;
  ve_generationAtCompletion := vcr_completedGeneration completed;
  ve_generationAtStart := vsr_generation (vcr_started completed);
  ve_inputsKnown := true;
  ve_output := {|
    coe_artifactRefs := [];
    coe_eventRefs := [("command:" +:+ vsr_commandExecutionId (vcr_started completed))%string];
    coe_stderrSummary := summarize (er_stderr result);
    coe_stdoutSummary := summarize (er_stdout result);
    coe_totalBytes := er_stderrBytes result + er_stdoutBytes result;
    coe_truncated := er_truncated result |};
  ve_stale := vcr_status completed === vst_stale;
  ve_verificationId := Some (vsr_verificationId (vcr_started completed)) |}.

(** [completeVerification]; [published] is whether the event was persisted. *)
Definition completeVerification (context : ActiveVerificationContext) (result : ExecutionResult)
  (sourceState : Prelude.result VerificationError SourceStateDigest) (published : bool)
  (rt : Phase7CompletionRuntime) : step () :=
  match takeSnapshot (avc_classification context) sourceState rt with
  | Err e => thrown e rt
  | Ok afterSnapshot =>
      match complete sha256Bytes localeLe {|
              cvi_afterSnapshot := afterSnapshot; cvi_durationMs := er_durationMs result;
              cvi_exitCode := er_exitCode result; cvi_termination := er_termination result;
              cvi_verificationId := vsr_verificationId (avc_started context) |} (rt_tracker rt) with
      | Err e => thrown e rt
      | Ok (completed, tracker) =>
          let rt := rt <| rt_tracker := tracker |> in
          if published then
            (Ok (), rt <| rt_verifications := rt_verifications rt ++ [verificationEvidence context result completed] |>)
          else (Err (StorageError (0 <? length (rt_journal rt))%nat), rt)
      end
  end.

(** ** The state for the policy *)

(** [aggregateJournal] *)
Definition groupStep (grouped : jsmap jstring FirstLatest) (entry : ChangeJournalEntry) : jsmap jstring FirstLatest :=
  match jm_get (cj_path entry) grouped with
  | None => jm_set (cj_path entry) (entry, entry) grouped
  | Some (first, _) => jm_set (cj_path entry) (first, entry) grouped
  end.
Definition group_le (a b : jstring * FirstLatest) : Prop := localeLe a.1 b.1 = true.
#[export] Instance group_le_dec a b : Decision (group_le a b).
Proof. unfold group_le. apply _. Defined.
Definition aggregateJournal (entries : list ChangeJournalEntry) (fileStats : list RunLocalDiffFileStat)
  : list ChangedFileEvidence :=
  let exactStats := jm_of rfs_path fileStats in
  (fun '(path, (first, latest)) =>
     let stat := jm_get path exactStats in
     {| cfe_addedLines := default 0 (rfs_addedLines <$> stat);
        cfe_kind := cj_kind first;
        cfe_path := path;
        cfe_postimageSha256 := cj_postimageSha256 latest;
        cfe_preimageSha256 := if cj_kind first === create_change then None else Some (cj_preimageSha256 first);
        cfe_removedLines := default 0 (rfs_removedLines <$> stat) |}) <$>
  js_sort group_le
    (List.filter (fun kv : jstring * FirstLatest => cj_preimage kv.2.1 !== cj_postimage kv.2.2)
       (fold_left groupStep entries [])).

(** [postimagesMatchDisk], on the bytes read for each path. *)
Definition postimagesMatchDisk (disk : jstring -> option (list Z)) (entries : list ChangeJournalEntry) : bool :=
  forallb (fun entry => match disk (cj_path entry) with
                        | Some bytes => sha256Bytes bytes === cj_postimageSha256 entry
                        | None => false
                        end) (jm_values (jm_of cj_path entries)).

(** What [state] observes: the attribution scope, the isolated diff replay, the
    working tree and its digest. *)
Record Observation : Type := {
  ob_attributionScope : option GoalRevisionAttributionScope;
  ob_replay : IsolatedReplay;
  ob_disk : jstring -> option (list Z);
  ob_sourceState : result VerificationError SourceStateDigest;
  ob_detail : jstring;
}.

(** The latest verification completed on the current generation. *)
Definition latestCurrent (rt : Phase7CompletionRuntime) : option VerificationEvidence :=
  snd <$> list_find (fun v => ve_generationAtCompletion v = vt_generation (rt_tracker rt))
            (reverse (rt_verifications rt)).

Definition classificationOf (v : VerificationEvidence) : RegistryVerificationClassification := {|
  rvc_inputPaths := sfd_path <$> vs_commandInputs (ve_afterSnapshot v);
  rvc_kind := ve_classification v;
  rvc_packageScriptSha256 := vs_packageScriptSha256 (ve_afterSnapshot v) |}.

(** [state] *)
Definition completionState (ob : Observation) (rt : Phase7CompletionRuntime) : CompletionState :=
  let entries := rt_journal rt in
  let diff := check nfc sha256Bytes (ob_replay ob) entries in
  let finalSnapshot :=
    latest ← latestCurrent rt;
    match takeSnapshot (classificationOf latest) (ob_sourceState ob) rt with
    | Ok snapshot => Some snapshot
    | Err _ => None
    end in
  {| cs_attributionScope := ob_attributionScope ob;
     cs_activity := {| act_activeApproval := false; act_activeCommand := (0 <? activeCount (rt_tracker rt))%nat;
                       act_activePatch := false; act_mutationMutexLocked := false;
                       act_unknownSideEffect := false |};
     cs_changedByRun := aggregateJournal entries (rld_fileStats diff);
     cs_diffCheck := {| ce_checkedPaths := rld_checkedPaths diff; ce_detail := ob_detail ob;
                        ce_diffSha256 := rld_diffSha256 diff;
                        ce_status := if rld_passed diff then check_passed else check_failed |};
     cs_finalSnapshot := finalSnapshot;
     cs_generation := vt_generation (rt_tracker rt);
     cs_journal := {| cjs_consistent := rld_errorCode diff !== Some journal_inconsistent;
                      cjs_postimagesMatchDisk := postimagesMatchDisk (ob_disk ob) entries;
                      cjs_readable := true |};
     cs_modelEvidence := ro_modelEvidence options;
     cs_preExistingDirtyPaths := ro_preExistingDirtyPaths options;
     cs_runId := ro_runId options;
     cs_sessionId := ro_sessionId options;
     cs_verifications :=
       (fun v => if rt_verificationInputsUnknown rt then v <| ve_inputsKnown := false |> else v)
         <$> rt_verifications rt;
     cs_verificationInputsUnknown := Some (rt_verificationInputsUnknown rt) |}.

(** ** Steps of a run

    Paths are JavaScript strings: sequences of 16-bit units. *)

Definition units_all (paths : list jstring) : Prop := Forall (Forall isUnit16) paths.

Inductive runtime_step : Phase7CompletionRuntime -> Phase7CompletionRuntime -> Prop :=
| step_journal plan at_ rt :
    units_all (pfc_relativePath <$> plan_files plan) -> runtime_step rt (journalPlan plan at_ rt)
| step_patch rt : runtime_step rt (patchApplied rt).2
| step_prepare prepared cls source execution uuid rt :
    (forall c, cls = Some c -> units_all (rvc_inputPaths c)) ->
    runtime_step rt (prepareVerification prepared cls source execution uuid rt).2
| step_complete context result source published rt :
    units_all (rvc_inputPaths (avc_classification context)) ->
    runtime_step rt (completeVerification context result source published rt).2.
End Runtime.
