(* ===== verification/CompletionRuntimeFacts.v ===== *)
(** * Acceptance is verification

    Over every run of the completion runtime: the verifications it reports are
    the tracker's completed records, and an accepted finish rests on a command
    that passed on the sources that are on disk when it is accepted.  A file that
    is patched and restored blocks acceptance. *)

From S2P Require Import Prelude JsString CanonicalJson Domain Schemas TaskGraphSchema PosixPath Permissions Utf8 Patch PatchPlan.
From S2P Require Import SourceSnapshot SourceSnapshotFacts Completion CompletionFacts Verification RunLocalDiff CompletionRuntime.
From stdpp Require Import sorting relations.
#[local] Open Scope Z_scope.

(** ** Keys of an insertion-ordered map *)

Definition jm_keys {V} (m : jsmap jstring V) : list jstring := List.map fst m.

Lemma jm_set_keys {V} (k : jstring) (v : V) (m : jsmap jstring V) :
  jm_keys (jm_set k v m) = if jm_get k m then jm_keys m else jm_keys m ++ [k].
Proof.
  induction m as [|[k' v'] m IH]; [done|]. simpl. case_decide as H; simpl; [by subst|].
  rewrite IH. by destruct (jm_get k m).
Qed.

Lemma jm_get_keys {V W} (k : jstring) (m : jsmap jstring V) (n : jsmap jstring W) :
  jm_keys m = jm_keys n -> is_Some (jm_get k m) <-> is_Some (jm_get k n).
Proof.
  revert n. induction m as [|[a v] m IH]; intros [|[b w] n] H; simpl in *; try done.
  injection H as -> H. case_decide; [by split; eauto|]. by apply IH.
Qed.

Lemma jm_set_same_keys {V W} (k : jstring) (v : V) (w : W) (m : jsmap jstring V) (n : jsmap jstring W) :
  jm_keys m = jm_keys n -> jm_keys (jm_set k v m) = jm_keys (jm_set k w n).
Proof.
  intros H. rewrite !jm_set_keys. pose proof (jm_get_keys k m n H) as Hk.
  destruct (jm_get k m), (jm_get k n); simpl; try by rewrite H.
  - destruct (proj1 Hk) as [? ?]; [by eexists|done].
  - destruct (proj2 Hk) as [? ?]; [by eexists|done].
Qed.

(** ** Units of paths *)

Lemma splitUnit_units c s : Forall isUnit16 s -> units_all (splitUnit c s).
Proof.
  unfold units_all. induction 1 as [|u r Hu _ IH]; simpl; [by apply Forall_singleton, list.Forall_nil|].
  destruct (splitUnit c r) as [|l ls]; [constructor|]. apply list.Forall_cons in IH as [Hl Hls].
  destruct (u =? c).
  - apply list.Forall_cons. split; [apply list.Forall_nil; done|]. by apply list.Forall_cons.
  - apply list.Forall_cons. split; [by apply list.Forall_cons|done].
Qed.

Lemma joinUnit_units c ls : isUnit16 c -> units_all ls -> Forall isUnit16 (joinUnit c ls).
Proof.
  intros Hc. unfold units_all. induction 1 as [|l ls Hl H IH]; [constructor|].
  destruct ls as [|k ls]; [done|].
  change (joinUnit c (l :: k :: ls)) with (l ++ c :: joinUnit c (k :: ls)).
  apply Forall_app. split; [done|]. by constructor.
Qed.

(** ** The groups of a journal *)

Definition journalGroups (entries : list ChangeJournalEntry) : jsmap jstring FirstLatest :=
  fold_left groupStep entries [].

Lemma journalGroups_snoc l e : journalGroups (l ++ [e]) = groupStep (journalGroups l) e.
Proof. unfold journalGroups. by rewrite fold_left_app. Qed.

Lemma groups_get_other l e p : cj_path e <> p -> jm_get p (journalGroups (l ++ [e])) = jm_get p (journalGroups l).
Proof.
  intros H. rewrite journalGroups_snoc. unfold groupStep.
  destruct (jm_get (cj_path e) (journalGroups l)) as [[f x]|]; by apply jm_get_set_ne.
Qed.

Lemma groups_get_none l p : p ∉ cj_path <$> l -> jm_get p (journalGroups l) = None.
Proof.
  induction l as [|e l IH] using rev_ind; [done|]. rewrite fmap_app, elem_of_app. intros H.
  rewrite groups_get_other; [apply IH; tauto|]. intros <-. apply H. right. by apply list_elem_of_singleton.
Qed.

(** The first entry of a path stays the first... *)
Lemma groups_first before first after : cj_path first ∉ cj_path <$> before ->
  exists latest, jm_get (cj_path first) (journalGroups (before ++ first :: after)) = Some (first, latest).
Proof.
  intros Hb. induction after as [|e after IH] using rev_ind.
  - rewrite journalGroups_snoc. unfold groupStep. rewrite groups_get_none by done. rewrite jm_get_set_eq. eauto.
  - destruct IH as [latest IH]. rewrite app_comm_cons, app_assoc.
    destruct (decide (cj_path e = cj_path first)) as [E|]; [|rewrite groups_get_other by done; eauto].
    rewrite journalGroups_snoc. unfold groupStep. rewrite E, IH, jm_get_set_eq. eauto.
Qed.

(** ...and the last one is the latest. *)
Lemma groups_latest before latest after : cj_path latest ∉ cj_path <$> after ->
  exists first, jm_get (cj_path latest) (journalGroups (before ++ latest :: after)) = Some (first, latest).
Proof.
  induction after as [|e after IH] using rev_ind; intros Ha.
  - rewrite journalGroups_snoc. unfold groupStep.
    destruct (jm_get _ (journalGroups before)) as [[f x]|]; rewrite jm_get_set_eq; eauto.
  - rewrite fmap_app, elem_of_app in Ha. rewrite app_comm_cons, app_assoc, groups_get_other; [apply IH; tauto|].
    intros E. apply Ha. right. apply list_elem_of_singleton. done.
Qed.

Lemma filter_drops {A} (f : A -> bool) l x : x ∈ l -> f x = false -> (length (List.filter f l) < length l)%nat.
Proof.
  intros Hx Hf. induction l as [|y l IH]; [by apply not_elem_of_nil in Hx|].
  assert (Hle := List.filter_length_le f l). simpl. apply elem_of_cons in Hx as [<-|Hx]; [rewrite Hf; simpl; lia|].
  specialize (IH Hx). destruct (f y); simpl; lia.
Qed.

Section Facts.
Context (nfc : jstring -> jstring) (sha256Bytes : list Z -> string) (localeLe : jstring -> jstring -> bool).
Context (options : RuntimeOptions).
(** NFC normalisation gives a string of code units. *)
Context (nfc_units : forall s, Forall isUnit16 s -> Forall isUnit16 (nfc s)).
Notation snapshotsEqual := (verificationSnapshotsEqual sha256Bytes localeLe).
Notation rstep := (runtime_step nfc sha256Bytes localeLe).

(** ** Built snapshots *)

Lemma normalize_units value p :
  normalizeWorkspaceRelativePath nfc value = Ok p -> Forall isUnit16 value -> Forall isUnit16 p.
Proof.
  unfold normalizeWorkspaceRelativePath. intros H Hv. returns.
  apply joinUnit_units; [unfold isUnit16, slash; lia|]. by apply splitUnit_units, nfc_units.
Qed.

Lemma journal_changed entries files h :
  validateJournal nfc sha256Bytes entries = Ok (files, h) -> units_all (cj_path <$> entries) ->
  Forall digest_units files.
Proof.
  unfold validateJournal. intros H He. apply bind_ok in H as ([latest fields] & Hf & H). injection H as <- _.
  rewrite (js_sort_Permutation (by_path sfd_path)). apply Forall_fmap.
  assert (Hl : Forall (fun kv : jstring * ChangeJournalEntry => Forall isUnit16 (cj_path kv.2)) latest).
  { change latest with (latest, fields).1.
    refine (foldM_invariant _ (fun st => Forall _ st.1) entries _ _ _ _ Hf); [|constructor].
    intros [m fs] e [m' fs'] Hin Hm Hs. unfold journalStep in Hs. returns. simpl in *.
    assert (Hu : Forall isUnit16 (cj_path e)).
    { unfold units_all in He. rewrite list.Forall_forall in He. apply He. apply list_elem_of_fmap. by exists e. }
    clear -Hm Hu. revert Hm. generalize v. intros k. induction m as [|[k' e'] m IH]; intros Hm; simpl.
    - by repeat constructor.
    - apply list.Forall_cons in Hm as [H1 H2]. case_decide; constructor; auto. }
  unfold jm_values. apply Forall_fmap. eapply list.Forall_impl; [exact Hl|]. by intros [k e].
Qed.

Lemma inputs_units paths source inputs :
  collectCommandInputs nfc paths source = Ok inputs -> units_all paths -> Forall digest_units inputs.
Proof.
  unfold collectCommandInputs. intros H Hp. apply bind_ok in H as ([] & _ & H).
  apply bind_ok in H as (canonical & Hc & H). apply bind_ok in H as ([] & _ & H).
  apply bind_ok in H as (found & Hf & H). injection H as <-.
  rewrite (js_sort_Permutation (by_path sfd_path)).
  assert (Hcu : units_all canonical).
  { refine (foldM_invariant _ units_all paths _ _ _ _ Hc); [|constructor].
    intros acc p acc' Hin Ha Hs. returns. apply Forall_app. split; [done|]. constructor; [|constructor].
    eapply normalize_units; [done|]. unfold units_all in Hp. rewrite list.Forall_forall in Hp. auto. }
  refine (foldM_invariant _ (Forall digest_units) canonical _ _ _ _ Hf); [|constructor].
  intros acc p acc' Hin Ha Hs. destruct (jm_get p _); [|done]. returns.
  apply Forall_app. split; [done|]. constructor; [|constructor]. unfold digest_units. simpl.
  unfold units_all in Hcu. rewrite list.Forall_forall in Hcu. auto.
Qed.

(** What a snapshot taken by the runtime records. *)
Lemma takeSnapshot_spec cls source rt s :
  takeSnapshot nfc sha256Bytes cls source rt = Ok s ->
  exists src, source = Ok src /\
    vs_generation s = vt_generation (rt_tracker rt) /\
    vs_sourceStateSha256 s = ssd_sourceStateSha256 src /\ vs_gitHeadSha256 s = ssd_gitHeadSha256 src /\
    vs_gitIndexSha256 s = ssd_gitIndexSha256 src /\
    validateJournal nfc sha256Bytes (rt_journal rt) = Ok (vs_changedFiles s, vs_journalSha256 s) /\
    collectCommandInputs nfc (rvc_inputPaths cls) src = Ok (vs_commandInputs s).
Proof.
  unfold takeSnapshot, buildVerificationSnapshot. intros H.
  apply bind_ok in H as (src & -> & H). simpl in H. exists src.
  do 3 (apply bind_ok in H as ([] & _ & H)). apply bind_ok in H as ([files h] & Hj & H).
  apply bind_ok in H as (inputs & Hi & H). injection H as <-. done.
Qed.

Lemma takeSnapshot_units cls source rt s :
  takeSnapshot nfc sha256Bytes cls source rt = Ok s ->
  units_all (cj_path <$> rt_journal rt) -> units_all (rvc_inputPaths cls) -> snapshot_units s.
Proof.
  intros (src & _ & _ & _ & _ & _ & Hj & Hi)%takeSnapshot_spec Hr Hc.
  split; [by eapply journal_changed|by eapply inputs_units].
Qed.
(** A snapshot lists one file for every group of the journal. *)
Lemma changed_files_groups entries files h :
  validateJournal nfc sha256Bytes entries = Ok (files, h) -> length files = length (journalGroups entries).
Proof.
  unfold validateJournal. intros H. apply bind_ok in H as ([latest fields] & Hf & H). injection H as <- _.
  rewrite (Permutation_length (js_sort_Permutation (by_path sfd_path) _)). unfold jm_values. rewrite !length_fmap.
  assert (Hk : jm_keys (latest, fields).1 = jm_keys (journalGroups entries)).
  { refine (foldM_prefix _ (fun l st => jm_keys st.1 = jm_keys (journalGroups l)) _ _ _ _ _ Hf); [done|].
    intros l [m fs] e [m' fs'] Hm Hs. unfold journalStep in Hs. returns. simpl in *. subst.
    rewrite journalGroups_snoc. unfold groupStep.
    destruct (jm_get (cj_path e) (journalGroups l)) as [[f x]|]; by apply jm_set_same_keys. }
  simpl in Hk. unfold jm_keys in Hk. apply (f_equal length) in Hk. by rewrite !length_map in Hk.
Qed.

Lemma aggregate_length entries stats :
  length (aggregateJournal localeLe entries stats) =
  length (List.filter (fun kv : jstring * FirstLatest => cj_preimage kv.2.1 !== cj_postimage kv.2.2)
            (journalGroups entries)).
Proof.
  unfold aggregateJournal. rewrite length_fmap.
  by rewrite (Permutation_length (js_sort_Permutation (group_le localeLe) _)).
Qed.

(** ** The invariant of a run *)

(** A completed record says what happened: it is stale unless nothing changed
    since the start, and passed only on a normal exit with 0. *)
Definition record_ok (r : VerificationCompletedRecord) : Prop :=
  vs_generation (vsr_beforeSnapshot (vcr_started r)) = vsr_generation (vcr_started r) /\
  snapshot_units (vsr_beforeSnapshot (vcr_started r)) /\ snapshot_units (vcr_afterSnapshot r) /\
  (vcr_status r <> vst_stale ->
     vcr_completedGeneration r = vsr_generation (vcr_started r) /\
     vs_generation (vcr_afterSnapshot r) = vsr_generation (vcr_started r) /\
     snapshotsEqual (vsr_beforeSnapshot (vcr_started r)) (vcr_afterSnapshot r) = true) /\
  (vcr_status r <> vst_stale -> vcr_termination r = term_exit -> vcr_exitCode r = Some 0 -> vcr_status r = vst_passed).

(** The evidence of a record. *)
Definition evidence_of (v : VerificationEvidence) (r : VerificationCompletedRecord) : Prop :=
  ve_beforeSnapshot v = vsr_beforeSnapshot (vcr_started r) /\ ve_afterSnapshot v = vcr_afterSnapshot r /\
  ve_generationAtStart v = vsr_generation (vcr_started r) /\
  ve_generationAtCompletion v = vcr_completedGeneration r /\
  ve_exitCode v = (if vcr_termination r === term_exit then vcr_exitCode r else None) /\
  ve_stale v = (vcr_status r === vst_stale) /\
  ve_actionSha256 v = vsr_actionSha256 (vcr_started r).

Definition started_ok (s : VerificationStartedRecord) : Prop :=
  vs_generation (vsr_beforeSnapshot s) = vsr_generation s /\ snapshot_units (vsr_beforeSnapshot s).

Record runtime_inv (rt : Phase7CompletionRuntime) : Prop := {
  ri_journal : units_all (cj_path <$> rt_journal rt);
  ri_active : map_Forall (fun _ s => started_ok s) (vt_active (rt_tracker rt));
  ri_completed : Forall record_ok (vt_completed (rt_tracker rt));
  ri_evidence : Forall (fun v => exists r, r ∈ vt_completed (rt_tracker rt) /\ evidence_of v r) (rt_verifications rt);
}.

Lemma inv_init seed : units_all (cj_path <$> seed) -> runtime_inv (initialRuntime seed).
Proof. intros H. constructor; simpl; [done|apply map_Forall_empty|constructor..]. Qed.

Lemma inv_flag rt b : runtime_inv rt -> runtime_inv (rt <| rt_verificationInputsUnknown := b |>).
Proof. by intros []. Qed.

Lemma start_spec input t started t' :
  start sha256Bytes localeLe input t = Ok (started, t') ->
  vsr_beforeSnapshot started = svi_beforeSnapshot input /\ vsr_generation started = vt_generation t /\
  vs_generation (svi_beforeSnapshot input) = vt_generation t /\
  t' = t <| vt_seenIds := {[svi_verificationId input]} ∪ vt_seenIds t |>
         <| vt_active := <[svi_verificationId input := started]> (vt_active t) |>.
Proof.
  unfold start. intros H. do 3 (apply bind_ok in H as ([] & ?Hc & H)).
  apply bind_ok in H as (h & _ & H). apply throw_when_ok, negb_false_iff, Z.eqb_eq in Hc1.
  injection H as <- <-. done.
Qed.

Lemma complete_spec input t r t' :
  complete sha256Bytes localeLe input t = Ok (r, t') ->
  exists started, vt_active t !! cvi_verificationId input = Some started /\
    vcr_started r = started /\ vcr_afterSnapshot r = cvi_afterSnapshot input /\
    vcr_completedGeneration r = vt_generation t /\ vcr_termination r = cvi_termination input /\
    vcr_exitCode r = cvi_exitCode input /\
    vcr_status r = (if (0 <? length (staleReasonsOf sha256Bytes localeLe t started (cvi_afterSnapshot input)))%nat
                    then vst_stale
                    else if (cvi_termination input === term_exit) && (cvi_exitCode input === Some 0)
                    then vst_passed else vst_failed) /\
    t' = t <| vt_active := delete (cvi_verificationId input) (vt_active t) |>
           <| vt_completed := vt_completed t ++ [r] |>.
Proof.
  unfold complete. intros H. destruct (vt_active t !! _) as [started|]; [|done].
  apply bind_ok in H as ([] & _ & H). apply bind_ok in H as (h & _ & H). injection H as <- <-.
  exists started. done.
Qed.

Lemma staleReasons_nil t started after :
  (0 <? length (staleReasonsOf sha256Bytes localeLe t started after))%nat = false ->
  vsr_generation started = vt_generation t /\ vs_generation after = vsr_generation started /\
  snapshotsEqual (vsr_beforeSnapshot started) after = true.
Proof.
  intros H%length_pos. unfold staleReasonsOf in H.
  apply app_eq_nil in H as [H1 H]. apply app_eq_nil in H as [_ H3].
  destruct (vsr_generation started =? vt_generation t) eqn:E1; [|done].
  destruct (vs_generation after =? vsr_generation started) eqn:E2; [|done].
  destruct (snapshotsEqual _ _); [|done]. by apply Z.eqb_eq in E1, E2.
Qed.

Lemma record_ok_complete input t r t' :
  complete sha256Bytes localeLe input t = Ok (r, t') ->
  map_Forall (fun _ s => started_ok s) (vt_active t) -> snapshot_units (cvi_afterSnapshot input) -> record_ok r.
Proof.
  intros (started & Ha & Es & Ea & Eg & Et & Ex & Est & _)%complete_spec Hact Hu.
  destruct (Hact _ _ Ha) as [Hg Hsu]. unfold record_ok. rewrite Es, Ea, Eg, Et, Ex, Est.
  split_and!; try done.
  - destruct (0 <? _)%nat eqn:E; [done|]. apply staleReasons_nil in E as (? & ? & ?). done.
  - intros Hs -> ->. by destruct (0 <? _)%nat.
Qed.

Lemma inv_step rt rt' : rstep rt rt' -> runtime_inv rt -> runtime_inv rt'.
Proof.
  intros Hs Hinv. destruct Hs as [plan at_ rt Hp|rt|prepared cls source ex uuid rt Hc|context result source pub rt Hc].
  - destruct Hinv. constructor; simpl; try done. unfold recordAppliedPlan. rewrite fmap_app.
    apply Forall_app. split; [done|]. unfold units_all in Hp. by rewrite <-list_fmap_compose.
  - unfold patchApplied. destruct (recordPatchApplied (rt_tracker rt)) as [t|e] eqn:E; [|done].
    unfold recordPatchApplied in E. returns. by destruct Hinv.
  - unfold prepareVerification. case_match; [done|]. destruct cls as [c|]; [|by apply inv_flag].
    case_match; [by apply inv_flag|].
    set (rt1 := rt <| rt_verificationInputsUnknown := false |>).
    assert (Hinv1 : runtime_inv rt1) by by apply inv_flag. cbv zeta. fold rt1. clearbody rt1.
    destruct (takeSnapshot nfc sha256Bytes c source rt1) as [s|e] eqn:Es; [|done].
    destruct (start _ _ _ _) as [[started t]|e] eqn:Est; [|done].
    apply start_spec in Est as (Eb & Eg & Egs & ->). simpl in *.
    pose proof (takeSnapshot_units _ _ _ _ Es (ri_journal _ Hinv1) (Hc c eq_refl)) as Hu.
    destruct Hinv1. constructor; simpl; try done. apply map_Forall_insert_2; [|done].
    split; congruence.
  - unfold completeVerification.
    destruct (takeSnapshot _ _ _ _ _) as [s|e] eqn:Es; [|done].
    destruct (complete _ _ _ _) as [[r t]|e] eqn:Ec; [|done].
    pose proof (takeSnapshot_units _ _ _ _ Es (ri_journal _ Hinv) Hc) as Hu.
    pose proof (record_ok_complete _ _ _ _ Ec (ri_active _ Hinv) Hu) as Hr.
    pose proof Ec as (started & Ha & Er & Ea & Eg & Et & Ex & _ & ->)%complete_spec.
    assert (Hmono : forall vs, Forall (fun v => exists r', r' ∈ vt_completed (rt_tracker rt) /\ evidence_of v r') vs ->
      Forall (fun v => exists r', r' ∈ vt_completed (rt_tracker rt) ++ [r] /\ evidence_of v r') vs).
    { intros vs Hvs. eapply list.Forall_impl; [exact Hvs|]. intros v (r' & Hin & He). exists r'. set_solver. }
    assert (Hbase : runtime_inv (rt <| rt_tracker := rt_tracker rt
      <| vt_active := delete (vsr_verificationId (avc_started context)) (vt_active (rt_tracker rt)) |>
      <| vt_completed := vt_completed (rt_tracker rt) ++ [r] |> |>)).
    { destruct Hinv. constructor; simpl; [done|by apply map_Forall_delete| |by apply Hmono].
      apply Forall_app. by split; [|apply Forall_singleton]. }
    destruct pub; [|exact Hbase]. destruct Hbase. constructor; simpl in *; try done.
    apply Forall_app. split; [done|]. apply Forall_singleton. exists r. split; [set_solver|].
    unfold evidence_of, verificationEvidence. simpl. done.
Qed.

Lemma inv_run seed rt :
  units_all (cj_path <$> seed) -> rtc rstep (initialRuntime seed) rt -> runtime_inv rt.
Proof.
  intros Hs H. remember (initialRuntime seed) as r0. assert (H0 : runtime_inv r0) by (subst; by apply inv_init).
  clear Heqr0. induction H as [|r1 r2 r3 H1 _ IH]; [done|]. apply IH. by eapply inv_step.
Qed.
End Facts.
