(* ===== verification/CompletionProperties.v ===== *)
(** * The completion runtime: the properties

    An accepted finish is verified on the final sources; a file that was patched
    and then restored makes every later finish inconsistent. *)

From S2P Require Import Prelude JsString CanonicalJson Domain Schemas TaskGraphSchema PosixPath Permissions Utf8 Patch PatchPlan.
From S2P Require Import SourceSnapshot SourceSnapshotFacts Completion CompletionFacts Verification RunLocalDiff.
From S2P Require Import CompletionRuntime CompletionRuntimeFacts.
From stdpp Require Import sorting relations.
#[local] Open Scope Z_scope.

Section Properties.
Context (nfc : jstring -> jstring) (sha256Bytes : list Z -> string) (localeLe : jstring -> jstring -> bool).
Context (options : RuntimeOptions).
Notation runtimeState := (completionState nfc sha256Bytes localeLe options).

(** ** The final snapshot *)

Lemma final_snapshot ob rt final : cs_finalSnapshot (runtimeState ob rt) = Some final ->
  exists latest, latest ∈ rt_verifications rt /\
    takeSnapshot nfc sha256Bytes (classificationOf latest) (ob_sourceState ob) rt = Ok final.
Proof.
  simpl. intros H. apply bind_Some in H as (latest & Hl & H).
  destruct (takeSnapshot _ _ _ _ _) as [s|] eqn:E; [|done]. injection H as <-. exists latest. split; [|done].
  unfold latestCurrent in Hl. apply fmap_Some in Hl as ([i v] & Hv & ->). apply list_find_Some in Hv as (Hi & _).
  apply list_elem_of_lookup_2 in Hi. by rewrite elem_of_reverse in Hi.
Qed.

(** A verification that counts is one of the runtime's own. *)
Lemma counted_verification ob rt v : counts (runtimeState ob rt) v -> ve_inputsKnown v = true ->
  exists w, w ∈ rt_verifications rt /\ (forall r, evidence_of w r -> evidence_of v r).
Proof.
  intros [Hin _] Hk. simpl in Hin. apply list_elem_of_fmap in Hin as (w & -> & Hw). exists w. split; [done|].
  intros r Hr. destruct (rt_verificationInputsUnknown rt); [|done]. exact Hr.
Qed.
End Properties.

(** C6: An accepted finish is verified: over every run of the completion
    runtime, when the policy accepts, a verification command has been started on
    the present generation, exited normally with 0 and is recorded as passed,
    and the sources, Git head and index, journal and inputs recorded before and
    after it are those of the final snapshot, taken from the working tree at the
    decision (with a hash that does not collide). *)
Theorem accepted_finish_is_verified nfc sha256Bytes localeLe options seed rt ob candidate evidence :
  (forall s t, sha256Bytes s = sha256Bytes t -> s = t) ->
  (forall s, Forall isUnit16 s -> Forall isUnit16 (nfc s)) ->
  units_all (cj_path <$> seed) ->
  rtc (runtime_step nfc sha256Bytes localeLe) (initialRuntime seed) rt ->
  evaluate sha256Bytes localeLe candidate (completionState nfc sha256Bytes localeLe options ob rt)
    = Ok (accept evidence) ->
  exists source r, ob_sourceState ob = Ok source /\ r ∈ vt_completed (rt_tracker rt) /\
    vcr_status r = vst_passed /\ vcr_termination r = term_exit /\ vcr_exitCode r = Some 0 /\
    vsr_generation (vcr_started r) = vt_generation (rt_tracker rt) /\
    sameContents localeLe (vsr_beforeSnapshot (vcr_started r)) (cev_finalSnapshot evidence) /\
    sameContents localeLe (vcr_afterSnapshot r) (cev_finalSnapshot evidence) /\
    vs_sourceStateSha256 (cev_finalSnapshot evidence) = ssd_sourceStateSha256 source /\
    validateJournal nfc sha256Bytes (rt_journal rt) =
      Ok (vs_changedFiles (cev_finalSnapshot evidence), vs_journalSha256 (cev_finalSnapshot evidence)).
Proof.
  intros Hinj Hnfc Hseed Hrun Hacc. pose proof (inv_run _ _ _ Hnfc _ _ Hseed Hrun) as Hinv.
  apply evaluate_accepts in Hacc as (final & Hacc & ->). destruct Hacc as [? ? ? ? [Hf Hg] ? ? ? ? Hcur Hpass Hsrc].
  destruct Hpass as (v & Hv & Hx). destruct (Hcur v Hv) as (Hk & Hst & _). destruct (Hsrc v Hv Hx) as (Hba & Haf & _).
  destruct (final_snapshot _ _ _ _ _ _ _ Hf) as (latest & Hlin & Hsnap).
  pose proof (ri_evidence _ _ _ Hinv) as Hev. rewrite list.Forall_forall in Hev.
  pose proof (ri_completed _ _ _ Hinv) as Hrec. rewrite list.Forall_forall in Hrec.
  assert (Hfu : snapshot_units final).
  { destruct (Hev _ Hlin) as (rl & Hrl & (_ & Eafter & _)). destruct (Hrec _ Hrl) as (_ & _ & [_ Hu] & _).
    eapply takeSnapshot_units; [exact Hnfc|exact Hsnap|exact (ri_journal _ _ _ Hinv)|].
    unfold classificationOf. simpl. rewrite Eafter. unfold units_all. by apply Forall_fmap. }
  destruct (counted_verification _ _ _ _ _ _ _ Hv Hk) as (w & Hw & Hevid).
  destruct (Hev _ Hw) as (r & Hr & Hwr%Hevid). destruct Hwr as (Eb & Ea & Egs & Egc & Ex & Es & _).
  destruct (Hrec _ Hr) as (_ & Hub & Hua & _ & Hpassed).
  assert (Hns : vcr_status r <> vst_stale).
  { intros E. rewrite Es, E in Hst. by rewrite bool_decide_eq_true_2 in Hst. }
  rewrite Ex in Hx. destruct (bool_decide (vcr_termination r = term_exit)) eqn:Hterm; [|done].
  apply bool_decide_eq_true_1 in Hterm.
  destruct (takeSnapshot_spec _ _ _ _ _ _ Hsnap) as (source & Hsource & _ & Hss & _ & _ & Hj & _).
  destruct Hv as (_ & _ & _ & Hgs & _). simpl in Hgs. rewrite Eb, Ea in Hba. rewrite Ea in Haf.
  apply (snapshotsEqual_sameContents sha256Bytes localeLe _ _ Hinj Hub Hua) in Hba.
  apply (snapshotsEqual_sameContents sha256Bytes localeLe _ _ Hinj Hua Hfu) in Haf.
  exists source, r. simpl. split_and!; try done; [by apply Hpassed|congruence|].
  destruct Hba, Haf. constructor; congruence.
Qed.

(** A restored file blocks completion: when the latest postimage of a
    journalled path is its first preimage - the run patched a file and put it
    back - the net changes leave the file out but the snapshot still lists it,
    so with a final snapshot every finish is incomplete with
    [change_journal_inconsistent], whatever the other files and verifications. *)
Theorem restored_file_blocks_completion nfc sha256Bytes localeLe options rt ob candidate final
    before first rest front latest after :
  rt_journal rt = before ++ first :: rest -> cj_path first ∉ cj_path <$> before ->
  rt_journal rt = front ++ latest :: after -> cj_path latest ∉ cj_path <$> after ->
  cj_path latest = cj_path first -> cj_postimage latest = cj_preimage first ->
  let state := completionState nfc sha256Bytes localeLe options ob rt in
  cs_finalSnapshot state = Some final -> assertCandidate candidate = Ok () ->
  ft_status candidate = finish_completed -> activeCount (rt_tracker rt) = 0%nat ->
  evaluate sha256Bytes localeLe candidate state = Ok (incomplete change_journal_inconsistent).
Proof.
  intros Ej Hb Ej' Ha Ep Ei state Hf Hc Hs Hact. unfold evaluate. rewrite Hc. cbn [mbind result_bind]. rewrite Hs.
  rewrite bool_decide_eq_false_2 by done.
  assert (hasPendingEffect state = false) as -> by (unfold hasPendingEffect, state; simpl; by rewrite Hact).
  assert (journalMatchesSnapshot state = false) as ->; [|by rewrite !orb_true_r].
  unfold journalMatchesSnapshot. rewrite Hf. apply andb_false_iff. left. apply Nat.eqb_neq.
  rewrite !(Permutation_length (sortText_Permutation _)), !length_fmap.
  destruct (final_snapshot _ _ _ _ _ _ _ Hf) as (w & _ & Hsnap).
  destruct (takeSnapshot_spec _ _ _ _ _ _ Hsnap) as (src & _ & _ & _ & _ & _ & Hj & _).
  rewrite (changed_files_groups _ _ _ _ _ Hj). unfold state. simpl. rewrite aggregate_length.
  destruct (groups_first before first rest Hb) as [x Hx]. destruct (groups_latest front latest after Ha) as [y Hy].
  rewrite <-Ej in Hx. rewrite <-Ej', Ep, Hx in Hy. injection Hy as <- ->.
  apply jm_get_elem in Hx. assert (length (List.filter
    (fun kv : jstring * FirstLatest => cj_preimage kv.2.1 !== cj_postimage kv.2.2) (journalGroups (rt_journal rt)))
    < length (journalGroups (rt_journal rt)))%nat; [|lia].
  eapply filter_drops; [exact Hx|]. simpl. apply negb_false_iff. by rewrite Ei, bool_decide_eq_true_2.
Qed.

(** ** A concrete run *)

Module SampleRun.
Definition hash : list Z -> string := standInHash.
Definition digest : string := "0123456789abcdef0123456789abcdef0123456789abcdef0123456789abcdef".

(** A file change; [plan] patches [src/a.ts] from [a] to [b]. *)
Definition change (path : string) (pre post : list Z) : PlannedFileChange := {|
  pfc_addedLines := 1; pfc_diff := js "d"; pfc_kind := modify_change; pfc_relativePath := js path;
  pfc_postimage := post; pfc_postimageSha256 := hash post; pfc_preimage := pre;
  pfc_preimageSha256 := hash pre; pfc_removedLines := 1 |}.
Definition plan (path : string) (pre post : list Z) : PatchPlan :=
  {| plan_id := "p"; plan_files := [change path pre post] |}.

Definition source : SourceStateDigest := {|
  ssd_files := [{| sff_bytesSha256 := digest; sff_path := js "t.ts"; sff_type := source_file |}];
  ssd_gitHeadSha256 := digest; ssd_gitIndexSha256 := digest; ssd_sourceStateSha256 := digest |}.
Definition classification : RegistryVerificationClassification := {|
  rvc_inputPaths := [js "t.ts"]; rvc_kind := vc_test; rvc_packageScriptSha256 := None |}.
Definition prepared : PreparedExecution := {|
  pe_actionSha256 := digest; pe_argv := [js "test"]; pe_canonicalCwd := js "."; pe_logicalExecutable := js "pnpm";
  pe_purpose := purpose_verify |}.
Definition exited : ExecutionResult := {|
  er_durationMs := 5; er_exitCode := Some 0; er_stderr := []; er_stderrBytes := 0; er_stdout := js "ok";
  er_stdoutBytes := 2; er_termination := term_exit; er_truncated := false |}.
Definition options : RuntimeOptions := {|
  ro_modelEvidence := LegacyModelEvidence "fake" "in_process" "contract_verified";
  ro_preExistingDirtyPaths := []; ro_runId := "r"; ro_sessionId := "s" |}.

(** The patches are applied, then the tests are started and pass. *)
Definition apply_plan (rt : Phase7CompletionRuntime) (p : PatchPlan) : Phase7CompletionRuntime :=
  (patchApplied (journalPlan p (js "t0") rt)).2.
Definition patched (plans : list PatchPlan) : Phase7CompletionRuntime := fold_left apply_plan plans (initialRuntime []).
Definition prepare (rt : Phase7CompletionRuntime) :=
  prepareVerification id hash jstring_le prepared (Some classification) (Ok source) "x" "v" rt.
Definition verified (rt : Phase7CompletionRuntime) : Phase7CompletionRuntime :=
  match (prepare rt).1 with
  | Ok (Some active) => (completeVerification id hash jstring_le active exited (Ok source) true (prepare rt).2).2
  | _ => rt
  end.

Definition diffText (files : list string) : list Z :=
  encodeUtf8 (joinUnit newline (concat ((fun f => [js ("diff --git a/before/" +:+ f +:+ " b/after/" +:+ f);
    js "@@ -1 +1 @@"; js "-a"; js "+b"]) <$> files))).
Definition observation (files : list string) (disk : list (jstring * list Z)) : Observation := {|
  ob_attributionScope := None;
  ob_replay := {| ir_generatedExit := 1; ir_generatedStdout := diffText files; ir_applicableExit := 0;
                  ir_applyExit := 0; ir_replayed := fun p => jm_get p disk |};
  ob_disk := fun p => jm_get p disk; ob_sourceState := Ok source; ob_detail := [] |}.
Definition finish : FinishTaskInput := {| ft_status := finish_completed; ft_summary := js "done" |}.
Definition decide_ (files : list string) (disk : list (jstring * list Z)) (rt : Phase7CompletionRuntime) :=
  evaluate hash jstring_le finish (completionState id hash jstring_le options (observation files disk) rt).

(** The journal entry of such a change. *)
Definition entry (path : string) (pre post : list Z) : ChangeJournalEntry := {|
  cj_addedLines := 1; cj_appliedAt := js "t0"; cj_diff := js "d"; cj_kind := modify_change; cj_path := js path;
  cj_planId := "p"; cj_postimage := post; cj_postimageSha256 := hash post; cj_preimage := pre;
  cj_preimageSha256 := hash pre; cj_removedLines := 1 |}.

Definition one : Phase7CompletionRuntime := verified (patched [plan "src/a.ts" [0x61] [0x62]]).
Definition restored : Phase7CompletionRuntime :=
  verified (patched [plan "src/a.ts" [0x61] [0x62]; plan "src/b.ts" [0x61] [0x62]; plan "src/a.ts" [0x62] [0x61]]).

Lemma runtime_step_apply rt path pre post :
  rtc (runtime_step id hash jstring_le) rt (apply_plan rt (plan path pre post)).
Proof.
  eapply rtc_l; [apply step_journal|apply rtc_once, step_patch]. apply Forall_singleton, js_units.
Qed.

Lemma runtime_step_verified rt : rtc (runtime_step id hash jstring_le) rt (verified rt).
Proof.
  unfold verified. destruct (prepare rt).1 as [[active|]|e] eqn:E; try done.
  assert (Hu : units_all (rvc_inputPaths classification)) by apply Forall_singleton, js_units.
  assert (Hc : avc_classification active = classification).
  { unfold prepare, prepareVerification in E. simpl in E. destruct (buildVerificationSnapshot _ _ _); [|done].
    destruct (start _ _ _ _) as [[started t]|]; [|done]. injection E as <-. done. }
  eapply rtc_l; [|apply rtc_once, step_complete; by rewrite Hc].
  apply step_prepare. by intros c [= <-].
Qed.
End SampleRun.

Example sample_accepts : match SampleRun.decide_ ["src/a.ts"] [(js "src/a.ts", [0x62])] SampleRun.one with
  | Ok (accept _) => true | _ => false end = true.
Proof. vm_compute. reflexivity. Qed.
Example sample_restored : SampleRun.decide_ ["src/b.ts"] [(js "src/a.ts", [0x61]); (js "src/b.ts", [0x62])] SampleRun.restored
  = Ok (incomplete change_journal_inconsistent).
Proof. vm_compute. reflexivity. Qed.

Lemma accepted_finish_is_verified_witness :
  exists evidence r, SampleRun.decide_ ["src/a.ts"] [(js "src/a.ts", [0x62])] SampleRun.one = Ok (accept evidence) /\
    r ∈ vt_completed (rt_tracker SampleRun.one) /\ vcr_status r = vst_passed /\
    sameContents jstring_le (vcr_afterSnapshot r) (cev_finalSnapshot evidence).
Proof.
  destruct (SampleRun.decide_ ["src/a.ts"] [(js "src/a.ts", [0x62])] SampleRun.one) as [[evidence| |]|] eqn:E;
    [|by vm_compute in E..].
  destruct (accepted_finish_is_verified id SampleRun.hash jstring_le SampleRun.options [] SampleRun.one
    (SampleRun.observation ["src/a.ts"] [(js "src/a.ts", [0x62])]) SampleRun.finish evidence)
    as (source & r & _ & Hr & Hst & _ & _ & _ & _ & Hsame & _).
  - exact standInHash_inj.
  - done.
  - by apply list.Forall_nil.
  - etrans; [apply SampleRun.runtime_step_apply|apply SampleRun.runtime_step_verified].
  - exact E.
  - exists evidence, r. exact (conj eq_refl (conj Hr (conj Hst Hsame))).
Defined.

Lemma restored_file_blocks_completion_witness :
  SampleRun.decide_ ["src/b.ts"] [(js "src/a.ts", [0x61]); (js "src/b.ts", [0x62])] SampleRun.restored
  = Ok (incomplete change_journal_inconsistent).
Proof.
  destruct (cs_finalSnapshot (completionState id SampleRun.hash jstring_le SampleRun.options
    (SampleRun.observation ["src/b.ts"] [(js "src/a.ts", [0x61]); (js "src/b.ts", [0x62])]) SampleRun.restored))
    as [final|] eqn:Ef; [|by vm_compute in Ef].
  refine (restored_file_blocks_completion id SampleRun.hash jstring_le SampleRun.options SampleRun.restored
    (SampleRun.observation ["src/b.ts"] [(js "src/a.ts", [0x61]); (js "src/b.ts", [0x62])]) SampleRun.finish final
    [] (SampleRun.entry "src/a.ts" [0x61] [0x62])
    [SampleRun.entry "src/b.ts" [0x61] [0x62]; SampleRun.entry "src/a.ts" [0x62] [0x61]]
    [SampleRun.entry "src/a.ts" [0x61] [0x62]; SampleRun.entry "src/b.ts" [0x61] [0x62]]
    (SampleRun.entry "src/a.ts" [0x62] [0x61]) [] _ _ _ _ _ _ Ef _ _ _).
  all: try (vm_compute; reflexivity).
  all: apply not_elem_of_nil.
Defined.
