(* ===== verification/CollaborativeCompletion.v ===== *)
(** * Completion of collaborative runs

    [src/completion/collaborative-completion-policy.ts]: the policy of runs that
    work on a goal wraps the verified one, and accepts only when the run's goal
    and plan are the current ones, the plan is ready and no delegated work is
    open.  The task state it reads is the projection of [TaskState.v]; of the
    delegation projection it keeps the fields the policy reads. *)

From S2P Require Import Prelude JsString CanonicalJson CanonicalJsonFacts Domain Events EventLog TaskState TaskStateFacts TaskStateProperties.
From S2P Require Import Utf8 SourceSnapshot Completion.
#[local] Open Scope Z_scope.

(** ** Data *)

Record GoalChangeLedgerProjection : Type := {
  gcl_baselineEventId : string; gcl_goalId : string; gcl_goalRevision : Z; gcl_ledgerSha256 : string;
  gcl_recordEventIds : list string; gcl_sourceRunIds : list string }.

(** [goalChangeAttributionScope] *)
Definition goalChangeAttributionScope (projection : GoalChangeLedgerProjection) : GoalRevisionAttributionScope := {|
  gas_baselineEventId := gcl_baselineEventId projection;
  gas_changeEventIds := gcl_recordEventIds projection;
  gas_goalId := gcl_goalId projection;
  gas_goalRevision := gcl_goalRevision projection;
  gas_ledgerSha256 := gcl_ledgerSha256 projection;
  gas_sourceRunIds := gcl_sourceRunIds projection |}.

Definition scopeJson (scope : GoalRevisionAttributionScope) : json := JObj [
  (js "baselineEventId", JStr (js (gas_baselineEventId scope)));
  (js "changeEventIds", JArr ((fun i => JStr (js i)) <$> gas_changeEventIds scope));
  (js "goalId", JStr (js (gas_goalId scope)));
  (js "goalRevision", JNum (gas_goalRevision scope));
  (js "kind", JStr (js "goal_revision"));
  (js "ledgerSha256", JStr (js (gas_ledgerSha256 scope)));
  (js "sourceRunIds", JArr ((fun i => JStr (js i)) <$> gas_sourceRunIds scope))].

(** The fields of [Phase16RunBinding] that are compared. *)
Record RunBinding : Type := {
  rb_goal_id : string; rb_goal_revision : Z; rb_plan_id : option string;
  rb_plan_revision : option Z; rb_plan_sha256 : option string }.

Inductive DelegationStatus : Type :=
| dlg_draft | dlg_approved | dlg_queued | dlg_active | dlg_waiting_approval | dlg_cancelling
| dlg_reconciling | dlg_receipt_ready | dlg_accepted | dlg_failed | dlg_blocked | dlg_cancelled
| dlg_stale | dlg_rejected | dlg_superseded.
#[export] Instance DelegationStatus_eq : EqDecision DelegationStatus.
Proof. solve_decision. Defined.

(** [receipt]: whether it succeeded, its acceptance, its claims verified. *)
Record DelegationReceipt : Type := {
  drc_succeeded : bool; drc_acceptedEventId : option string; drc_claimsVerified : list bool }.
Record DelegationRevision : Type := {
  drv_status : DelegationStatus; drv_binding : RunBinding; drv_hasEnvelope : bool;
  drv_attempts : nat; drv_receipt : option DelegationReceipt }.
Record DelegationProjection : Type := {
  dpr_revisions : list DelegationRevision; dpr_heldBudget : list (option Z); dpr_activeActorSlots : nat }.

(** ** The policy *)

(** The statuses of a delegation that has been started. *)
Definition startedStatuses : list DelegationStatus := [
  dlg_queued; dlg_active; dlg_waiting_approval; dlg_cancelling; dlg_reconciling; dlg_receipt_ready;
  dlg_accepted; dlg_failed; dlg_blocked; dlg_cancelled; dlg_stale].

#[export] Instance RunBinding_eq : EqDecision RunBinding.
Proof. solve_decision. Defined.

Definition requiredDelegation (binding : RunBinding) (revision : DelegationRevision) : bool :=
  (drv_status revision !== dlg_superseded) && (drv_status revision !== dlg_rejected) &&
  (drv_binding revision === binding) &&
  (drv_hasEnvelope revision || (0 <? drv_attempts revision)%nat || bool_decide (drv_status revision ∈ startedStatuses)).

Definition unresolvedDelegation (revision : DelegationRevision) : bool :=
  (drv_status revision !== dlg_accepted) ||
  match drv_receipt revision with
  | None => true
  | Some receipt => negb (drc_succeeded receipt) || (drc_acceptedEventId receipt === None) ||
                    existsb negb (drc_claimsVerified receipt)
  end.

(** The delegation guard: the run still has delegated work. *)
Definition delegationsOpen (binding : RunBinding) (delegations : DelegationProjection) : bool :=
  existsb unresolvedDelegation (List.filter (requiredDelegation binding) (dpr_revisions delegations)) ||
  existsb (fun held => match held with Some n => 0 <? n | None => false end) (dpr_heldBudget delegations) ||
  (0 <? dpr_activeActorSlots delegations)%nat.

Section Policy.
Variable sha256Bytes : list Z -> string.
Notation scopeSha256 := (fun scope => sha256Canonical (sha256Text sha256Bytes) (scopeJson scope)).

(** [exactPlan]: the plan the reference names. *)
Definition isExactPlan (current : PlanRevisionRef) (plan : PlanRevisionProjection) : bool :=
  (pc_goalId (mp_content (prp_plan plan)) === prr_goalId current) &&
  (pc_goalRevision (mp_content (prp_plan plan)) =? prr_goalRevision current) &&
  (pc_planId (mp_content (prp_plan plan)) === prr_planId current) &&
  (pc_revision (mp_content (prp_plan plan)) =? prr_revision current) &&
  (mp_planSha256 (prp_plan plan) === prr_planSha256 current).

(** [CollaborativeCompletionPolicy.evaluate], on what the base policy decides. *)
Definition collaborativeEvaluate (base : result CompletionError CompletionDecision)
  (goalChanges : GoalChangeLedgerProjection) (runBinding : RunBinding) (task : TaskStateProjection)
  (delegations : option DelegationProjection) (state : CompletionState)
  : result CompletionError CompletionDecision :=
  let expectedScope := goalChangeAttributionScope goalChanges in
  if match cs_attributionScope state with
     | Some scope => negb match scopeSha256 scope, scopeSha256 expectedScope with
                          | Ok a, Ok b => a === b | _, _ => false end
     | None => true
     end
  then Ok (incomplete change_journal_inconsistent)
  else
    decision ← base;
    match decision with
    | accept _ =>
        let activeGoal := List.find (fun goal => Some (gc_goalId (mg_content goal)) === tsp_activeGoalId task)
                            (tsp_goals task) in
        if match activeGoal with
           | Some goal => (mg_status goal !== goal_active) ||
                          (gc_goalId (mg_content goal) !== rb_goal_id runBinding) ||
                          negb (gc_revision (mg_content goal) =? rb_goal_revision runBinding)
           | None => true
           end
        then Ok (incomplete plan_incomplete)
        else
          match tsp_currentApprovedPlan task with
          | None => Ok decision
          | Some current =>
              if (rb_plan_id runBinding !== Some (prr_planId current)) ||
                 (rb_plan_revision runBinding !== Some (prr_revision current)) ||
                 (rb_plan_sha256 runBinding !== Some (prr_planSha256 current)) ||
                 match List.find (isExactPlan current) (tsp_plans task) with
                 | Some plan => mp_status (prp_plan plan) !== plan_active
                 | None => true
                 end || negb (tsp_readyForCompletion task)
              then Ok (incomplete plan_incomplete)
              else
                match delegations with
                | Some delegations => if delegationsOpen runBinding delegations then Ok (incomplete plan_incomplete)
                                      else Ok decision
                | None => Ok decision
                end
          end
    | _ => Ok decision
    end.
End Policy.

(** ** Properties *)

(** A guard that did not stop the computation. *)
Ltac passes H E := match type of H with (if ?g then _ else _) = _ => destruct g eqn:E; [done|] end.

Lemma find_some_elem {A} (f : A -> bool) l x : List.find f l = Some x -> x ∈ l /\ f x = true.
Proof. intros [H1 H2]%find_some. by rewrite list_elem_of_In. Qed.

(** *** The digest of a scope *)

Lemma canon_texts (l : list string) :
  List.map canon ((fun i => JStr (js i)) <$> l) = (fun i => JStr (js i)) <$> l.
Proof. induction l as [|i l IH]; [done|]. cbn [fmap list_fmap List.map]. by rewrite IH. Qed.

Lemma canon_scope b c g n l s :
  canon (JObj [(js "baselineEventId", JStr b); (js "changeEventIds", JArr c); (js "goalId", JStr g);
    (js "goalRevision", JNum n); (js "kind", JStr (js "goal_revision")); (js "ledgerSha256", JStr l);
    (js "sourceRunIds", JArr s)]) =
  JObj [(js "baselineEventId", JStr b); (js "changeEventIds", JArr (List.map canon c)); (js "goalId", JStr g);
    (js "goalRevision", JNum n); (js "kind", JStr (js "goal_revision")); (js "ledgerSha256", JStr l);
    (js "sourceRunIds", JArr (List.map canon s))].
Proof. vm_compute. reflexivity. Qed.

Lemma scopeJson_canon scope : canon (scopeJson scope) = scopeJson scope.
Proof. unfold scopeJson. by rewrite canon_scope, !canon_texts. Qed.

Lemma scopeJson_units16 scope : units16 (scopeJson scope).
Proof.
  assert (Hl : forall l : list string, units16 (JArr ((fun i => JStr (js i)) <$> l))).
  { induction l as [|i l IH]; [done|]. split; [apply js_units|exact IH]. }
  cbn [scopeJson units16 fold_right]. split_and!; try apply js_units; try apply Hl; done.
Qed.

Lemma texts_inj (l k : list string) : (fun i => JStr (js i)) <$> l = (fun i => JStr (js i)) <$> k -> l = k.
Proof.
  revert k. induction l as [|i l IH]; intros [|j k]; [done..|]. cbn [fmap list_fmap]. intros [= H%js_inj Hl].
  by rewrite H, (IH _ Hl).
Qed.

Lemma scopeJson_inj s s' : scopeJson s = scopeJson s' -> s = s'.
Proof.
  destruct s, s'. unfold scopeJson. simpl. intros H. injection H as H1 H2 H3 H4 H5 H6.
  apply texts_inj in H2, H6. apply js_inj in H1, H3, H5. by subst.
Qed.

(** Scopes with one canonical text are one scope. *)
Lemma scope_text_binds s s' t :
  canonicalJson (scopeJson s) = Ok t -> canonicalJson (scopeJson s') = Ok t -> s = s'.
Proof.
  intros H H'. apply scopeJson_inj. rewrite <-(scopeJson_canon s), <-(scopeJson_canon s').
  eapply canonicalJson_injective; eauto using scopeJson_units16.
Qed.

Lemma sha256Canonical_text sha256 v h : sha256Canonical sha256 v = Ok h -> exists t, canonicalJson v = Ok t /\ sha256 t = h.
Proof. unfold sha256Canonical. intros (t & Ht & [= <-])%bind_ok. by exists t. Qed.

(** What the scope guard lets pass. *)
Lemma scope_guard sha256Bytes scope own :
  match sha256Canonical (sha256Text sha256Bytes) (scopeJson scope),
        sha256Canonical (sha256Text sha256Bytes) (scopeJson own) with
  | Ok a, Ok b => a === b | _, _ => false end = true ->
  exists scope' t u, Some scope = Some scope' /\ canonicalJson (scopeJson scope') = Ok t /\
    canonicalJson (scopeJson own) = Ok u /\ sha256Text sha256Bytes t = sha256Text sha256Bytes u /\
    (t = u -> scope' = own).
Proof.
  intros H. destruct (sha256Canonical _ (scopeJson scope)) as [a|] eqn:Ea; [|done].
  destruct (sha256Canonical _ (scopeJson own)) as [b|] eqn:Eb; [|done]. apply bool_decide_eq_true_1 in H as <-.
  apply sha256Canonical_text in Ea as (t & Ht & Ha), Eb as (u & Hu & Hb). exists scope, t, u.
  split_and!; [done..|congruence|]. intros <-. by eapply scope_text_binds.
Qed.

(** C7: A collaborative acceptance completes the plan: on the projection of a
    log, the policy accepts only what the base policy accepts, for the
    attribution scope of the run's own change ledger (the digests of the two
    scopes are equal, so they are one scope unless two texts collide), for the active
    goal revision the run is bound to, and when a plan is approved it is the
    run's plan, it is active, all its required items are completed and its
    optional ones are done or skipped, and no delegated work is open. *)
Theorem collaborative_acceptance_completes_plan sha256 sha256Bytes events task base goalChanges binding
    delegations state evidence :
  project sha256 events = Ok task ->
  collaborativeEvaluate sha256Bytes base goalChanges binding task delegations state = Ok (accept evidence) ->
  base = Ok (accept evidence) /\
  (exists scope t u, cs_attributionScope state = Some scope /\
     canonicalJson (scopeJson scope) = Ok t /\
     canonicalJson (scopeJson (goalChangeAttributionScope goalChanges)) = Ok u /\
     sha256Text sha256Bytes t = sha256Text sha256Bytes u /\
     (t = u -> scope = goalChangeAttributionScope goalChanges)) /\
  (exists goal, goal ∈ tsp_goals task /\ mg_status goal = goal_active /\
     tsp_activeGoalId task = Some (gc_goalId (mg_content goal)) /\
     gc_goalId (mg_content goal) = rb_goal_id binding /\
     gc_revision (mg_content goal) = rb_goal_revision binding) /\
  (forall current, tsp_currentApprovedPlan task = Some current ->
     (exists i plan, planAt task i = Some plan /\ mp_status plan = plan_active /\ planRef plan = current /\
        rb_plan_id binding = Some (pc_planId (mp_content plan)) /\
        rb_plan_revision binding = Some (pc_revision (mp_content plan)) /\
        rb_plan_sha256 binding = Some (mp_planSha256 plan) /\
        forall item, item ∈ mp_items plan ->
          mi_status item = item_completed \/
          (mi_status item = item_skipped /\ pi_required (mi_content item) = false)) /\
     (forall open, delegations = Some open -> delegationsOpen binding open = false)).
Proof.
  intros Hp H. destruct (project_run _ _ _ Hp) as (st & Hrun & Eg & Ep & Ea & Ec & _ & Er).
  pose proof (runProjector_inv _ _ _ Hrun) as [_ Hplans].
  unfold collaborativeEvaluate in H. passes H Escope.
  destruct (cs_attributionScope state) as [scope|]; [|done]. apply negb_false_iff in Escope.
  assert (Hscope : exists scope' t u, Some scope = Some scope' /\
     canonicalJson (scopeJson scope') = Ok t /\
     canonicalJson (scopeJson (goalChangeAttributionScope goalChanges)) = Ok u /\
     sha256Text sha256Bytes t = sha256Text sha256Bytes u /\
     (t = u -> scope' = goalChangeAttributionScope goalChanges)) by by apply scope_guard.
  clear Escope.
  apply bind_ok in H as (decision & Hbase & H). destruct decision as [ev| |]; [|done..].
  passes H Egoal. destruct (List.find _ (tsp_goals task)) as [goal|] eqn:Efind; [|done].
  apply find_some_elem in Efind as [Hgoal Hid]. apply bool_decide_eq_true_1 in Hid.
  apply orb_false_iff in Egoal as [[Hact Hgid]%orb_false_iff Hrev].
  apply negb_false_iff in Hact, Hgid, Hrev. apply bool_decide_eq_true_1 in Hact, Hgid. apply Z.eqb_eq in Hrev.
  assert (Hgoals : exists goal, goal ∈ tsp_goals task /\ mg_status goal = goal_active /\
     tsp_activeGoalId task = Some (gc_goalId (mg_content goal)) /\
     gc_goalId (mg_content goal) = rb_goal_id binding /\ gc_revision (mg_content goal) = rb_goal_revision binding)
    by (exists goal; done).
  destruct (tsp_currentApprovedPlan task) as [current|]; [|split_and!; [congruence|done..]].
  passes H Eplan. apply orb_false_iff in Eplan as [[[[E1 E2]%orb_false_iff E3]%orb_false_iff E4]%orb_false_iff E5].
  apply negb_false_iff in E1, E2, E3, E5. apply bool_decide_eq_true_1 in E1, E2, E3.
  destruct (List.find _ (tsp_plans task)) as [plan|] eqn:Efp; [|done].
  apply find_some_elem in Efp as [Hplan Hexact]. apply negb_false_iff, bool_decide_eq_true_1 in E4.
  assert (Hres : ev = evidence /\
    forall o, delegations = Some o -> delegationsOpen binding o = false).
  { destruct delegations as [d|]; [|split; [by injection H|done]]. passes H Ed. split; [by injection H|]. by intros o [= <-]. }
  destruct Hres as [-> Hopen]. do 3 (split; [done|]). intros current' [= <-]. split; [|done].
  assert (Hpr : plan = planProjection (prp_plan plan) /\ prp_plan plan ∈ plans st).
  { rewrite Ep in Hplan. apply list_elem_of_fmap in Hplan as (q & -> & Hq). done. }
  destruct Hpr as [_ [i Hi]%list_elem_of_lookup_1].
  assert (Href : planRef (prp_plan plan) = current).
  { unfold isExactPlan in Hexact. rewrite !andb_true_iff, !bool_decide_eq_true, !Z.eqb_eq in Hexact.
    destruct Hexact as [[[[? ?] ?] ?] ?], current. unfold planRef. simpl in *. congruence. }
  exists i, (prp_plan plan). rewrite (planAt_run task st) by done. rewrite <-Href in E1, E2, E3.
  split_and!; try done. intros item Hitem.
  assert (Hcur : getCurrent st = Some (prp_plan plan)).
  { unfold getCurrent, derefPlan. by rewrite (pi_active _ _ Hplans i _ Hi E4). }
  rewrite Er, Hcur in E5. apply andb_true_iff in E5 as [_ E5]. unfold planReady in E5.
  rewrite forallb_forall in E5. specialize (E5 item (proj1 (list_elem_of_In _ _) Hitem)).
  destruct (pi_required (mi_content item)); [left; by apply bool_decide_eq_true_1 in E5|].
  apply orb_true_iff in E5 as [E5|E5]; apply bool_decide_eq_true_1 in E5; auto.
Qed.

(** A run that has done its plan. *)
Module SampleGoalRun.
Definition ledger : GoalChangeLedgerProjection := {|
  gcl_baselineEventId := "b"; gcl_goalId := "g1"; gcl_goalRevision := 1; gcl_ledgerSha256 := "l";
  gcl_recordEventIds := ["c"]; gcl_sourceRunIds := ["r1"] |}.
Definition binding : RunBinding := {|
  rb_goal_id := "g1"; rb_goal_revision := 1; rb_plan_id := Some "p1"; rb_plan_revision := Some 1;
  rb_plan_sha256 := Some Sample.digest |}.
Definition snapshot : VerificationSnapshot := {|
  vs_changedFiles := []; vs_commandInputs := []; vs_generation := 1; vs_gitHeadSha256 := "h";
  vs_gitIndexSha256 := "i"; vs_journalSha256 := "j"; vs_packageScriptSha256 := None; vs_sourceStateSha256 := "s" |}.
Definition diffCheck : CheckEvidence :=
  {| ce_checkedPaths := []; ce_detail := []; ce_diffSha256 := "d"; ce_status := check_passed |}.
Definition evidence : CompletionEvidence := {|
  cev_attributionScope := Some (goalChangeAttributionScope ledger); cev_changedByRun := [];
  cev_diffCheck := diffCheck; cev_finalSnapshot := snapshot;
  cev_modelEvidence := LegacyModelEvidence "fake" "in_process" "contract_verified";
  cev_modelNarrative := js "done"; cev_preExistingDirtyPaths := []; cev_runId := "r1"; cev_sessionId := "s1";
  cev_verifications := [] |}.
Definition state : CompletionState := {|
  cs_attributionScope := Some (goalChangeAttributionScope ledger);
  cs_activity := {| act_activeApproval := false; act_activeCommand := false; act_activePatch := false;
                    act_mutationMutexLocked := false; act_unknownSideEffect := false |};
  cs_changedByRun := []; cs_diffCheck := diffCheck; cs_finalSnapshot := Some snapshot; cs_generation := 1;
  cs_journal := {| cjs_consistent := true; cjs_postimagesMatchDisk := true; cjs_readable := true |};
  cs_modelEvidence := cev_modelEvidence evidence; cs_preExistingDirtyPaths := []; cs_runId := "r1";
  cs_sessionId := "s1"; cs_verifications := []; cs_verificationInputsUnknown := Some false |}.
Definition decided (task : TaskStateProjection) :=
  collaborativeEvaluate standInHash (Ok (accept evidence)) ledger binding task None state.
End SampleGoalRun.

Lemma collaborative_acceptance_completes_plan_witness :
  exists task i plan, project Sample.hash (take 13 Sample.log) = Ok task /\
    SampleGoalRun.decided task = Ok (accept SampleGoalRun.evidence) /\
    planAt task i = Some plan /\ mp_status plan = plan_active /\
    forall item, item ∈ mp_items plan -> mi_status item = item_completed \/
      (mi_status item = item_skipped /\ pi_required (mi_content item) = false).
Proof.
  destruct (project Sample.hash (take 13 Sample.log)) as [task|] eqn:E; [|by vm_compute in E].
  assert (Hd : match project Sample.hash (take 13 Sample.log) with
               | Ok t => SampleGoalRun.decided t = Ok (accept SampleGoalRun.evidence)
               | Err _ => False end) by (vm_compute; reflexivity).
  rewrite E in Hd.
  assert (Hc : match project Sample.hash (take 13 Sample.log) with
               | Ok t => is_Some (tsp_currentApprovedPlan t) | Err _ => False end) by (vm_compute; eauto).
  rewrite E in Hc. destruct Hc as [current Hc].
  destruct (collaborative_acceptance_completes_plan Sample.hash standInHash (take 13 Sample.log) task _ _ _ _ _ _ E Hd)
    as (_ & _ & _ & H). destruct (H current Hc) as [(i & plan & Hp & Hs & _ & _ & _ & _ & Hi) _].
  exists task, i, plan. exact (conj eq_refl (conj Hd (conj Hp (conj Hs Hi)))).
Defined.
