(* ===== verification/Scheduler.v ===== *)
(** * The deterministic scheduler

    [src/scheduling/deterministic-task-scheduler.ts]: which node is admitted
    next, what the scheduler appends when an attempt is admitted, waits or
    ends, and when it stops. Each operation is given as the events it appends
    to the log, in order, on the projections it reads; the durable writer
    ([Writer.v]) checks and projects them one by one. The loop around the
    operations awaits the executor, whose results are arguments here. *)

From S2P Require Import Prelude JsString CanonicalJson Domain Events TaskState TaskGraphSchema TaskGraph TaskExecution.
From stdpp Require Import sorting.
#[local] Open Scope Z_scope.

Inductive SchedulerError : Type :=
| task_graph_not_approved | task_scheduler_busy | task_workspace_mode_unavailable | task_waiting_for_user
| task_graph_invalid | task_effect_reconciliation_required.

(** [TaskAttemptExecutionResultV1]: the result of an attempt; its receipt is
    two optional fields, and a wait carries its reason. *)
Record TaskAttemptExecutionResult : Type := {
  ter_budget : TaskBudgetCounters;
  ter_receiptArtifactId : option string;
  ter_receiptSha256 : option string;
  ter_terminal : AttemptTerminal;
  ter_usageCompleteness : UsageCompleteness;
  ter_waitingForUser : option string;
}.

(** [AdmittedTaskAttemptV1] *)
Record AdmittedTaskAttempt : Type := {
  ata_attemptId : string;
  ata_attemptNumber : Z;
  ata_node : TaskNodeSpec;
  ata_runId : string;
  ata_schedulerLeaseNonceSha256 : string;
}.

(** [exactFields] *)
Definition exactFields (graph : MutableRevision) : GraphRef := {|
  gr_graph_id := mr_graphId graph; gr_graph_revision := mr_revision graph;
  gr_graph_sha256 := mr_graphSha256 graph |}.

Definition graphEvent (p : TaskExecutionProjection) (g : GraphEvent) : SessionData :=
  GraphEventData (exactFields (xp_graph p)) g.

(** [#ensureStarted]: the lease and the start of a queued graph. *)
Definition ensureStarted (leaseSha256 : string) (execution : TaskExecutionProjection)
  : result SchedulerError (list SessionData) :=
  if xp_status execution === g_running then Ok []
  else
    _ ← throw_when (xp_status execution !== g_queued) task_scheduler_busy;
    Ok [graphEvent execution (SchedulerLeaseAcquired leaseSha256);
        graphEvent execution (GraphStarted leaseSha256)].

Section Scheduler.
Context (localeLe : jstring -> jstring -> bool).

(** ** Admission *)

(** What [#admit] returns: no attempt, or the admitted one; and the events. *)
Definition Admission : Type := option AdmittedTaskAttempt * list SessionData.

(** The two events appended when the budget cannot hold the node. *)
Definition exhaustedEvents (current : TaskExecutionProjection) (selected : MutableNode) : list SessionData :=
  let held := reservationForTaskNode (mn_node selected) in
  [graphEvent current (BudgetExhausted (exhaustedCounter (xp_budget current) held) (Some (tn_nodeId (mn_node selected))));
   graphEvent current (GraphTerminal (Some "task_budget_exhausted"%string) gt_blocked)].

(** [#admit], on the projection the scheduler has read and on the [current]
    one of the final fence; [binding] is the prepared workspace. *)
Definition admitNext (supports : TaskNodeSpec -> bool) (attemptId runId : string) (binding : option string)
    (aborted : bool) (execution current : TaskExecutionProjection) : result SchedulerError Admission :=
  match head (deterministicReadyQueue localeLe execution) with
  | None => Ok (None, [])
  | Some selected =>
      let node := mn_node selected in
      _ ← throw_when (negb (supports node)) task_workspace_mode_unavailable;
      let held := reservationForTaskNode node in
      if negb (taskBudgetCanReserve (xp_budget execution) held)
      then Ok (None, exhaustedEvents current selected)
      else
        let attemptNumber := Z.of_nat (length (mn_attempts selected)) + 1 in
        match xp_lease execution with
        | None => Err task_scheduler_busy
        | Some lease =>
            _ ← throw_when (xorb (ws_mode (tn_workspace node) === origin_read_only) (binding === None))
                  task_workspace_mode_unavailable;
            if aborted && match xp_activeAttempt current with None => true | Some _ => false end &&
               (xp_status current === g_cancelled)
            then Ok (None, [])
            else
              _ ← throw_when ((head (xp_readyNodeIds current) !== Some (tn_nodeId node)) ||
                              match xp_activeAttempt current with None => false | Some _ => true end)
                    task_scheduler_busy;
              _ ← throw_when aborted task_waiting_for_user;
              match mn_nextAttemptOrigin selected with
              | None => Err task_graph_invalid
              | Some origin =>
                  Ok (Some {| ata_attemptId := attemptId; ata_attemptNumber := attemptNumber; ata_node := node;
                              ata_runId := runId; ata_schedulerLeaseNonceSha256 := lease |},
                      (if binding === None then []
                       else [SessionOther "task_worktree.lease.acquired"%string]) ++
                      [graphEvent current (AttemptRequested {|
                         arq_attempt_id := attemptId; arq_attempt_number := attemptNumber;
                         arq_node_id := tn_nodeId node; arq_reservation := held; arq_retry_origin := origin;
                         arq_workspace_binding := binding |})])
              end
        end
  end.

(** ** The end of an attempt *)

(** The inner function [visit]: does [id] depend on [root]? It recurses along
    the dependencies without marking what it has seen, so [fuel] is the stack. *)
Fixpoint someM {A} (f : A -> option bool) (l : list A) : option bool :=
  match l with
  | [] => Some false
  | a :: l => match f a with Some true => Some true | Some false => someM f l | None => None end
  end.

Definition findNode (nodes : list (string * MutableNode)) (id : string) : option MutableNode :=
  snd <$> List.find (fun candidate => candidate.1 === id) nodes.

Fixpoint visitRoot (fuel : nat) (nodes : list (string * MutableNode)) (root id : string) : option bool :=
  match fuel with
  | O => None
  | S fuel =>
      if id === root then Some true
      else match findNode nodes id with
           | Some found => someM (visitRoot fuel nodes root) (tn_dependsOn (mn_node found))
           | None => Some false
           end
  end.

(** The [filter] with a predicate that may overflow the stack. *)
Fixpoint filterM {A} (f : A -> option bool) (l : list A) : option (list A) :=
  match l with
  | [] => Some []
  | a :: l =>
      match f a, filterM f l with
      | Some b, Some k => Some (if b then a :: k else k)
      | _, _ => None
      end
  end.

Definition blockerStatuses : list TaskNodeExecutionStatus := [n_blocked; n_cancelled; n_failed; n_skipped].

(** [[...new Set(roots)].sort()] *)
Definition sortedSet (roots : list string) : list string :=
  js_sort (fun a b => jstring_le (js a) (js b) = true) (remove_dups roots).

(** The body of the loop over the nodes that are left: the roots that keep
    [node] from running, and the skip it gets when there are some. *)
Definition skipEvent (fuel : nat) (next : TaskExecutionProjection) (blockerNodeIds : list string)
    (node : MutableNode) : option (list GraphEvent) :=
  roots ← filterM (fun root => someM (visitRoot fuel (xp_nodes next) root) (tn_dependsOn (mn_node node)))
            blockerNodeIds;
  Some (if (0 <? length roots)%nat then [NodeSkipped (tn_nodeId (mn_node node)) (sortedSet roots)] else []).

Definition idsWith (statuses : list TaskNodeExecutionStatus) (nodes : list (string * MutableNode)) : list string :=
  fst <$> List.filter (fun candidate => bool_decide (mn_status candidate.2 ∈ statuses)) nodes.
Definition nodesLeft (nodes : list (string * MutableNode)) : list MutableNode :=
  snd <$> List.filter (fun candidate => bool_decide (mn_status candidate.2 ∈ [n_pending; n_ready])) nodes.

(** What [#terminal] appends after the terminal of the attempt, on the
    projection [next] that follows it. The code reads the projection again
    after each skip, but only the nodes' dependencies, which never change. *)
Definition followUp (fuel : nat) (next : TaskExecutionProjection) (terminal : AttemptTerminal)
  : option (list GraphEvent) :=
  if (terminal !== t_succeeded) && (length (xp_readyNodeIds next) =? 0)%nat then
    skips ← mapM (skipEvent fuel next (idsWith blockerStatuses (xp_nodes next))) (nodesLeft (xp_nodes next));
    Some (concat skips ++ [GraphTerminal (terminalBlocker terminal) (terminalStatus terminal)])
  else if (terminal === t_succeeded) &&
          forallb (fun candidate => mn_status candidate.2 === n_succeeded) (xp_nodes next) then
    let requiresIntegration :=
      existsb (fun candidate => ws_mode (tn_workspace (mn_node candidate.2)) !== origin_read_only) (xp_nodes next) in
    Some [GraphTerminal None (if requiresIntegration then gt_awaiting_integration else gt_completed)]
  else Some [].

(** The budget of the terminal event: the executor's, and the bytes of the
    receipt the scheduler itself persisted. *)
Definition chargeReceipt (receiptBytes : option Z) (budget : TaskBudgetCounters) : TaskBudgetCounters :=
  match receiptBytes with
  | None => budget
  | Some bytes => {|
      bc_attempts := bc_attempts budget; bc_durationMs := bc_durationMs budget;
      bc_modelSteps := bc_modelSteps budget; bc_commandExecutions := bc_commandExecutions budget;
      bc_commandOutputBytes := bc_commandOutputBytes budget; bc_changedFiles := bc_changedFiles budget;
      bc_changedBytes := bc_changedBytes budget; bc_artifactBytes := bc_artifactBytes budget + bytes;
      bc_reportedTokens := bc_reportedTokens budget |}
  end.

Definition isActive (execution : TaskExecutionProjection) (admitted : AdmittedTaskAttempt) : bool :=
  match xp_activeAttempt execution with
  | Some active => ma_attemptId active === ata_attemptId admitted
  | None => false
  end.

Definition releaseLease (execution : TaskExecutionProjection) : list SessionData :=
  match xp_activeAttempt execution with
  | Some active => if ma_workspaceBinding active === None then []
                   else [SessionOther "task_worktree.lease.released"%string]
  | None => []
  end.

(** [#terminal] up to [refreshExecution]: the terminal of the attempt.
    [receiptBytes] is the size of the receipt artifact, when one is persisted. *)
Definition terminalEvents (admitted : AdmittedTaskAttempt) (res : TaskAttemptExecutionResult) (receiptBytes : Z)
    (execution : TaskExecutionProjection) : result SchedulerError (list SessionData) :=
  _ ← throw_when (negb (isActive execution admitted)) task_scheduler_busy;
  let persists := (ter_receiptArtifactId res === None) && (ter_receiptSha256 res === None) in
  _ ← throw_when (xorb (ter_receiptArtifactId res === None) (ter_receiptSha256 res === None))
        task_effect_reconciliation_required;
  Ok (graphEvent execution (AttemptTerminated {|
        atd_attempt_id := ata_attemptId admitted;
        atd_budget := chargeReceipt (if persists then Some receiptBytes else None) (ter_budget res);
        atd_usage_completeness := ter_usageCompleteness res;
        atd_node_id := tn_nodeId (ata_node admitted);
        atd_terminal := ter_terminal res |}) :: releaseLease execution).

(** [#waiting]: a wait is known to precede every effect, so the attempt ends
    as an infrastructure failure and the lease is given back. *)
Definition waitingEvents (admitted : AdmittedTaskAttempt) (res : TaskAttemptExecutionResult) (reason : string)
    (receiptBytes : Z) (execution : TaskExecutionProjection) : result SchedulerError (list SessionData) :=
  _ ← throw_when (negb (isActive execution admitted)) task_scheduler_busy;
  Ok ([graphEvent execution (AttemptWaitingForUser (ata_attemptId admitted) (tn_nodeId (ata_node admitted)));
       graphEvent execution (AttemptTerminated {|
         atd_attempt_id := ata_attemptId admitted;
         atd_budget := chargeReceipt (Some receiptBytes) (ter_budget res);
         atd_usage_completeness := ter_usageCompleteness res;
         atd_node_id := tn_nodeId (ata_node admitted);
         atd_terminal := t_pre_effect_infrastructure_failure |})] ++
      releaseLease execution ++
      [graphEvent execution (SchedulerLeaseRecovered (ata_schedulerLeaseNonceSha256 admitted));
       graphEvent execution (GraphWaitingForUser reason)]).

(** What an executor that cannot start gives: the [catch] of [run]. *)
Definition startFailure (admitted : AdmittedTaskAttempt) : TaskAttemptExecutionResult := {|
  ter_budget := zeroConsumption (reservationForTaskNode (ata_node admitted));
  ter_receiptArtifactId := None; ter_receiptSha256 := None;
  ter_terminal := t_pre_effect_infrastructure_failure; ter_usageCompleteness := usage_none;
  ter_waitingForUser := None |}.

(** ** The end of a run *)

Inductive StopReason : Type := stop_blocked | stop_cancelled | stop_completed | stop_failed | stop_waiting_for_user.

(** The [stopReason] of the two returns of [run]. *)
Definition stopReason (status : TaskGraphStatus) : StopReason :=
  match status with
  | g_completed => stop_completed
  | g_cancelled => stop_cancelled
  | g_failed => stop_failed
  | g_waiting_for_user => stop_waiting_for_user
  | _ => stop_blocked
  end.

(** The statuses after an attempt that end the loop. *)
Definition endsRun (status : TaskGraphStatus) : bool :=
  bool_decide (status ∈ [g_blocked; g_cancelled; g_completed; g_failed; g_waiting_for_user; g_awaiting_integration]).
End Scheduler.
