(* ===== verification/SchedulerFacts.v ===== *)
(** * Facts about the deterministic scheduler

    What the projection of a log says of the state it was made from, the
    search for the nodes that keep a node from running, and why a graph in
    which nothing is ready has such nodes. *)

From S2P Require Import Prelude JsString CanonicalJson Domain Events TaskState TaskGraphSchema TaskGraphTopology TaskGraph TaskExecution TaskExecutionFacts TaskExecutionProperties Scheduler.
From stdpp Require Import sorting.
#[local] Open Scope Z_scope.

(** ** The nodes of a state *)

Section Nodes.
Context (target : GraphRef) (content : TaskGraphRevisionContent) (log : list DecodedStoredEvent) (st : ExecState).
Context (Hrun : runExec target content log = Ok st).
Context (Hids : NoDup (tn_nodeId <$> tg_nodes content)).

Lemma same_spec a b :
  a ∈ tg_nodes content -> b ∈ tg_nodes content -> tn_nodeId a = tn_nodeId b -> a = b.
Proof.
  intros Ha Hb E. apply list_elem_of_lookup in Ha as [i Hi], Hb as [j Hj].
  assert (i = j) as ->; [|congruence].
  eapply (NoDup_lookup _ _ _ (tn_nodeId a) Hids); rewrite list_lookup_fmap; [by rewrite Hi|by rewrite Hj, E].
Qed.

Lemma node_spec id n :
  xs_nodes st !! id = Some n -> jm_get id (depsOf (tg_nodes content)) = Some (mn_node n).
Proof.
  intros Hn. destruct (runExec_key _ _ _ _ _ _ Hrun Hn) as [Hk Hin].
  destruct (depsOf_elem _ _ Hin) as [m Hm]. rewrite Hk in Hm.
  destruct (depsOf_Some _ _ _ Hm) as [Hm1 Hm2]. rewrite Hm. f_equal. apply same_spec; congruence.
Qed.

Lemma node_dependsOn id n d :
  xs_nodes st !! id = Some n -> d ∈ tn_dependsOn (mn_node n) -> dependsOn (depsOf (tg_nodes content)) id d.
Proof. intros Hn Hd. exists (mn_node n). split; [by apply node_spec|done]. Qed.

Lemma dependsOn_node id d :
  dependsOn (depsOf (tg_nodes content)) id d ->
  exists n, xs_nodes st !! id = Some n /\ d ∈ tn_dependsOn (mn_node n).
Proof.
  intros (spec & Hs & Hd). destruct (depsOf_Some _ _ _ Hs) as [Hin <-].
  destruct (runExec_nodes _ _ _ _ spec Hrun Hin) as [n Hn]. exists n. split; [done|].
  apply node_spec in Hn. rewrite Hn in Hs. by injection Hs as <-.
Qed.
End Nodes.

(** ** The nodes of a projection *)

(** [nodes] lists the nodes of the state, each under its id. *)
Definition lists_nodes (content : TaskGraphRevisionContent) (st : ExecState) (nodes : list (string * MutableNode))
  : Prop :=
  (forall id n, (id, n) ∈ nodes -> xs_nodes st !! id = Some n) /\
  (forall id n, xs_nodes st !! id = Some n -> (id, n) ∈ nodes).

Lemma lists_nodesInOrder target content log st st' :
  runExec target content log = Ok st ->
  (forall id, mn_node <$> xs_nodes st' !! id = mn_node <$> xs_nodes st !! id) ->
  lists_nodes content st' (nodesInOrder content st').
Proof.
  intros Hrun Hs. split.
  - intros id n (spec & _ & Hn)%list_elem_of_omap. destruct (xs_nodes st' !! tn_nodeId spec) eqn:E; [|done].
    by injection Hn as <- <-.
  - intros id n Hn. specialize (Hs id). rewrite Hn in Hs. destruct (xs_nodes st !! id) as [m|] eqn:Hm; [|done].
    destruct (runExec_key _ _ _ _ _ _ Hrun Hm) as [Hk Hin]. apply list_elem_of_omap. exists (mn_node m).
    split; [done|]. by rewrite Hk, Hn.
Qed.

Lemma findNode_spec content st nodes id :
  lists_nodes content st nodes -> findNode nodes id = xs_nodes st !! id.
Proof.
  intros [Hl Hr]. unfold findNode. destruct (List.find _ nodes) as [[i n]|] eqn:E; simpl.
  - apply List.find_some in E as [Hin Hi]. apply bool_decide_eq_true_1 in Hi. simpl in Hi. subst i.
    symmetry. by apply Hl, list_elem_of_In.
  - destruct (xs_nodes st !! id) as [n|] eqn:Hn; [|done]. apply Hr, list_elem_of_In in Hn.
    by apply (List.find_none _ _ E), bool_decide_eq_false in Hn.
Qed.

(** The projected nodes: those of the state, the ready ones marked. *)
Definition projected (ready : list string) (st : ExecState) : ExecState :=
  foldl (fun st id => updateNode id (fun n => n <| mn_status := n_ready |>) st) st ready.

Lemma projected_lookup ready st id :
  xs_nodes (projected ready st) !! id =
  (fun n => if bool_decide (id ∈ ready) then n <| mn_status := n_ready |> else n) <$> xs_nodes st !! id.
Proof. apply mark_ready. Qed.

Lemma projected_nodes target content log st ready :
  runExec target content log = Ok st ->
  lists_nodes content (projected ready st) (nodesInOrder content (projected ready st)).
Proof.
  intros Hrun. eapply lists_nodesInOrder; [exact Hrun|]. intros id. rewrite projected_lookup.
  destruct (xs_nodes st !! id); simpl; [|done]. by case_bool_decide.
Qed.

(** ** The search for blocking roots *)

Lemma someM_spec {A} (f : A -> option bool) (P : A -> Prop) l :
  (forall a, a ∈ l -> exists b, f a = Some b /\ (b = true <-> P a)) ->
  exists b, someM f l = Some b /\ (b = true <-> exists a, a ∈ l /\ P a).
Proof.
  induction l as [|a l IH]; intros H; simpl; [exists false; set_solver|].
  destruct (H a) as (b & -> & Hb); [by left|]. destruct b.
  - exists true. split; [done|]. split; [|done]. intros _. exists a. split; [by left|by apply Hb].
  - destruct IH as (b & Hb' & Hbs); [intros; apply H; by right|]. exists b. split; [done|]. rewrite Hbs.
    assert (~ P a) by (intros HP; by apply Hb in HP). set_solver.
Qed.

Lemma filterM_spec {A} (f : A -> option bool) (P : A -> Prop) l :
  (forall a, a ∈ l -> exists b, f a = Some b /\ (b = true <-> P a)) ->
  exists k, filterM f l = Some k /\ forall a, a ∈ k <-> a ∈ l /\ P a.
Proof.
  induction l as [|a l IH]; intros H; simpl; [exists []; set_solver|].
  destruct (H a) as (b & -> & Hb); [by left|].
  destruct IH as (k & -> & Hk); [intros; apply H; by right|]. eexists. split; [done|].
  intros c. destruct b; [assert (P a) by (by apply Hb)|assert (~ P a) by (intros HP; by apply Hb in HP)];
    rewrite ?elem_of_cons, Hk; naive_solver.
Qed.

(** [visit] finds out whether a node is the root or depends on it. *)
Lemma visitRoot_spec byId nodes root fuel id :
  (forall i d, dependsOn byId i d <-> exists n, findNode nodes i = Some n /\ d ∈ tn_dependsOn (mn_node n)) ->
  (forall k, dep_chain byId id k -> k <= Z.of_nat fuel) ->
  exists b, visitRoot fuel nodes root id = Some b /\ (b = true <-> rtc (dependsOn byId) id root).
Proof.
  intros Hd. revert id. induction fuel as [|fuel IH]; intros id Hc.
  { specialize (Hc 1 (dep_one _ _)). lia. }
  simpl. case_bool_decide as Hid; [subst; exists true; by split|].
  destruct (findNode nodes id) as [n|] eqn:Hn.
  - destruct (someM_spec (visitRoot fuel nodes root) (fun d => rtc (dependsOn byId) d root) (tn_dependsOn (mn_node n)))
      as (b & Hb & Hbs).
    + intros d Hdn. apply IH. intros k Hk.
      assert (dependsOn byId id d) by (apply Hd; eauto). specialize (Hc (k + 1) (dep_cons _ _ _ _ H Hk)). lia.
    + exists b. split; [done|]. rewrite Hbs. split.
      * intros (d & Hdn & Hr). eapply rtc_l; [|exact Hr]. apply Hd. eauto.
      * intros [?|(d & Hxd & Hr)]%rtc_inv; [done|]. apply Hd in Hxd as (n' & Hn' & ?). exists d. naive_solver.
  - exists false. split; [done|]. split; [done|]. intros [?|(d & Hid' & _)]%rtc_inv; [done|].
    apply Hd in Hid' as (? & ? & _). congruence.
Qed.

(** ** When nothing is ready *)

Record accepted_content (content : TaskGraphRevisionContent) : Prop := {
  ac_ids : NoDup (tn_nodeId <$> tg_nodes content);
  ac_depth : forall id k, dep_chain (depsOf (tg_nodes content)) id k -> k <= MAX_TASK_GRAPH_DEPTH;
  ac_deps : forall node d, node ∈ tg_nodes content -> d ∈ tn_dependsOn node -> d ∈ tn_nodeId <$> tg_nodes content;
  ac_budget : taskGraphBudgetSchema (tg_graphBudget content) = true;
}.

Lemma schema_accepts isUuid localeLower fuel content :
  taskGraphRevisionContentSchema isUuid localeLower fuel content = Ok () -> accepted_content content.
Proof.
  intros H. destruct (schema_wellformed _ _ _ _ H) as (Hi & _ & _ & Hd & Hn).
  split; [done|done| |].
  - intros node d Hin Hd'. rewrite list.Forall_forall in Hn. destruct (Hn node Hin) as [Hdeps _]. by apply Hdeps.
  - unfold taskGraphRevisionContentSchema in H. destruct (graphFields _ _ content) eqn:Hf; [|done].
    unfold graphFields in Hf. by apply andb_true_iff in Hf as [_ ?].
Qed.

Lemma blocker_statuses s : s ∈ blockerStatuses <-> match s with n_blocked | n_cancelled | n_failed | n_skipped => True | _ => False end.
Proof. unfold blockerStatuses. rewrite !elem_of_cons, elem_of_nil. destruct s; intuition discriminate. Qed.

Section Idle.
Context (target : GraphRef) (content : TaskGraphRevisionContent) (log : list DecodedStoredEvent) (st : ExecState).
Context (Hrun : runExec target content log = Ok st) (Hc : accepted_content content).
Context (Hidle : xs_active st = None).
Notation byId := (depsOf (tg_nodes content)).

Lemma idle_status id n :
  xs_nodes st !! id = Some n -> mn_status n = n_pending \/ mn_status n = n_succeeded \/ mn_status n ∈ blockerStatuses.
Proof.
  intros Hn. pose proof (runExec_inv _ _ _ _ (ac_budget _ Hc) Hrun) as Hi.
  pose proof (xi_ready _ _ Hi id n Hn). rewrite blocker_statuses.
  destruct (decide (busy (mn_status n))) as [Hb|Hb].
  - destruct (xi_busy _ _ Hi id n Hn Hb) as (x & Hx & _). unfold activeAttempt in Hx. by rewrite Hidle in Hx.
  - rewrite busy_spec in Hb. destruct (mn_status n); tauto.
Qed.

(** A node that waits although nothing is ready depends on one that failed,
    was blocked, cancelled or skipped. *)
Lemma waiting_root id n :
  (forall i m, xs_nodes st !! i = Some m -> isReady st m = false) ->
  xs_nodes st !! id = Some n -> mn_status n = n_pending ->
  exists root m d, d ∈ tn_dependsOn (mn_node n) /\ rtc (dependsOn byId) d root /\
    xs_nodes st !! root = Some m /\ mn_status m ∈ blockerStatuses.
Proof.
  intros Hnone. pose proof (ac_depth _ Hc id) as Hb. remember (Z.to_nat MAX_TASK_GRAPH_DEPTH) as k eqn:Ek.
  assert (Hk : forall m, dep_chain byId id m -> m <= Z.of_nat k) by (intros m Hm; specialize (Hb m Hm); lia).
  clear Hb Ek. revert id n Hk. induction k as [|k IH]; intros id n Hk Hn Hs.
  { specialize (Hk 1 (dep_one _ _)). lia. }
  specialize (Hnone id n Hn) as Hr. unfold isReady in Hr. rewrite bool_decide_eq_true_2 in Hr by done. simpl in Hr.
  destruct (existsb (fun d => negb (nodeStatus st d === Some n_succeeded)) (tn_dependsOn (mn_node n))) eqn:He.
  2:{ exfalso. rewrite existsb_false in He.
      enough (forallb (fun d => nodeStatus st d === Some n_succeeded) (tn_dependsOn (mn_node n)) = true) by congruence.
      apply forallb_forall. intros d Hd%list_elem_of_In. by apply negb_false_iff, He. }
  apply existsb_exists in He as (d & Hd%list_elem_of_In & Hsd%negb_true_iff%bool_decide_eq_false).
  destruct (runExec_key _ _ _ _ _ _ Hrun Hn) as [_ Hin].
  destruct (proj1 (list_elem_of_fmap _ _ _) (ac_deps _ Hc _ _ Hin Hd)) as (spec & -> & Hspec).
  destruct (runExec_nodes _ _ _ _ spec Hrun Hspec) as [m Hm].
  unfold nodeStatus in Hsd. rewrite Hm in Hsd. simpl in Hsd.
  pose proof (node_dependsOn _ _ _ _ Hrun (ac_ids _ Hc) _ _ _ Hn Hd) as Hdep.
  destruct (idle_status _ _ Hm) as [Hp|[Hp|Hp]]; [|congruence|by exists (tn_nodeId spec), m, (tn_nodeId spec)].
  destruct (IH (tn_nodeId spec) m) as (root & m' & d' & Hd' & Hr' & Hroot); [|done|done|].
  - intros j Hj. specialize (Hk (j + 1) (dep_cons _ _ _ _ Hdep Hj)). lia.
  - exists root, m', (tn_nodeId spec). split; [done|]. split; [|done].
    eapply rtc_l; [|exact Hr']. eapply node_dependsOn; [exact Hrun|apply (ac_ids _ Hc)|exact Hm|exact Hd'].
Qed.
End Idle.

(** ** The next attempt's origin *)

(** A node that may be attempted again says why. *)
Definition origin_inv (st : ExecState) : Prop :=
  forall id n, xs_nodes st !! id = Some n -> mn_status n = n_pending -> mn_nextAttemptOrigin n <> None.

Lemma origin_alter st (nodes : gmap string MutableNode) f i :
  origin_inv st -> nodes = alter f i (xs_nodes st) ->
  (forall n, xs_nodes st !! i = Some n -> mn_status (f n) = n_pending -> mn_nextAttemptOrigin (f n) <> None) ->
  forall id n, nodes !! id = Some n -> mn_status n = n_pending -> mn_nextAttemptOrigin n <> None.
Proof. intros Ho -> Hf id n [[-> (m & Hm & ->)]|[_ Hn]]%alter_Some; [by apply Hf|by apply (Ho id)]. Qed.

Lemma exec_event_origin budget event g st st' :
  exec_event budget event g st = Ok st' -> origin_inv st -> origin_inv st'.
Proof.
  intros H Ho. destruct g; simpl in H.
  all: unfold requestAttempt, terminateAttempt, requestRetry, skipNode in H.
  all: repeat match type of H with
       | match ?o with Some _ => _ | None => _ end = Ok _ => destruct o eqn:?; [|try discriminate H]
       | mbind _ _ = Ok _ => apply bind_ok in H as (? & ? & H)
       end.
  all: try (injection H as <-; first [exact Ho |
         intros id n; simpl; refine (origin_alter _ _ _ _ Ho eq_refl _ id n);
         intros ? ?; simpl; repeat case_match; simpl; try done; by destruct (atd_terminal _)]).
  all: try (destruct blocker_code; by injection H as <-).
Qed.

Lemma runExec_origin target content log st : runExec target content log = Ok st -> origin_inv st.
Proof.
  apply (foldM_invariant _ origin_inv).
  - intros x e y _ Ho H. unfold exec_step in H. destruct (scope e) as [|[]]; try (injection H as <-; exact Ho).
    case_match; [by eapply exec_event_origin|by injection H as <-].
  - intros id n (spec & _ & _ & ->)%init_nodes. done.
Qed.

(** A cancellation is remembered only when it was requested. *)
Lemma runExec_cancel target content log st :
  runExec target content log = Ok st -> xs_cancelRequested st = true ->
  exists e, e ∈ log /\ scope e = SessionScope (GraphEventData target GraphCancelRequested).
Proof.
  apply (foldM_prefix _ (fun l st => xs_cancelRequested st = true ->
    exists e, e ∈ l /\ scope e = SessionScope (GraphEventData target GraphCancelRequested))); [done|].
  intros k x e y IH H Hy.
  assert (Hold : xs_cancelRequested x = true -> exists e0, e0 ∈ k ++ [e] /\
    scope e0 = SessionScope (GraphEventData target GraphCancelRequested)).
  { intros (e0 & He & Hs)%IH. exists e0. split; [set_solver|done]. }
  unfold exec_step in H. destruct (scope e) as [|[]] eqn:Hsc; try (injection H as <-; by auto).
  case_bool_decide as Ht; [subst|injection H as <-; by auto].
  destruct event; simpl in H; unfold requestAttempt, terminateAttempt, requestRetry, skipNode in H;
    repeat match type of H with
    | match ?o with Some _ => _ | None => _ end = Ok _ => destruct o; [|try discriminate H]
    | mbind _ _ = Ok _ => apply bind_ok in H as (? & ? & H)
    end; try (injection H as <-; by auto).
  - exists e. split; [set_solver|exact Hsc].
  - destruct blocker_code; injection H as <-; by auto.
Qed.

(** ** What a projection shows of its state *)

Record shows (content : TaskGraphRevisionContent) (target : GraphRef) (st : ExecState)
    (p : TaskExecutionProjection) : Prop := {
  sh_active : xp_activeAttempt p = activeAttempt st;
  sh_blocker : xp_blocker p = xs_blocker st;
  sh_lease : xp_lease p = xs_lease st;
  sh_attempts : xp_attempts p = xs_attempts st;
  sh_target : exactFields (xp_graph p) = target;
  sh_content : mr_content (xp_graph p) = content;
  sh_status : xp_status p = mr_status (xp_graph p);
  sh_nodes : xp_nodes p = nodesInOrder content (projected (xp_readyNodeIds p) st);
  sh_consumed : bp_consumed (xp_budget p) = xs_consumed st;
  sh_reserved : bp_reserved (xp_budget p) = xs_reserved st;
  sh_limits : bp_limits (xp_budget p) = limits (tg_graphBudget content);
}.

Lemma mark_other ready st :
  let st' := projected ready st in
  xs_attempts st' = xs_attempts st /\ xs_active st' = xs_active st /\ xs_blocker st' = xs_blocker st /\
  xs_lease st' = xs_lease st /\ xs_consumed st' = xs_consumed st /\ xs_reserved st' = xs_reserved st.
Proof. revert st. unfold projected. induction ready as [|r ready IH]; intros st; simpl; [done|]. apply (IH (updateNode r _ st)). Qed.

Lemma projectExecution_shows localeLe log revisions p :
  projectExecution localeLe log revisions = Ok (Some p) ->
  exists st, xp_graph p ∈ revisions /\
    runExec (exactFields (xp_graph p)) (mr_content (xp_graph p)) log = Ok st /\
    shows (mr_content (xp_graph p)) (exactFields (xp_graph p)) st p /\
    xp_readyNodeIds p = readyNodes localeLe (mr_content (xp_graph p)) (xp_status p) st.
Proof.
  unfold projectExecution. intros H. destruct (executionGraph log revisions) as [graph|] eqn:Hg; [|done].
  apply executionGraph_elem in Hg. apply bind_ok in H as (st & Hst & H). destruct (xs_enqueue st); [|done].
  cbv zeta in H. apply bind_ok in H as (rem & _ & H). injection H as <-. exists st.
  destruct (mark_other (readyNodes localeLe (mr_content graph) (mr_status graph) st) st)
    as (Ea & Ec & Eb & El & Eu & Er). unfold projected in *.
  split_and!; [done|exact Hst| |done].
  assert (Hact : forall s', xs_active s' = xs_active st -> xs_attempts s' = xs_attempts st ->
    activeAttempt s' = activeAttempt st) by (intros s' E1 E2; unfold activeAttempt; by rewrite E1, E2).
  split; first [done | exact (Hact _ Ec Ea)].
Qed.

Section Projection.
Context (localeLe : jstring -> jstring -> bool) (log : list DecodedStoredEvent) (p : TaskExecutionProjection)
  (content : TaskGraphRevisionContent) (target : GraphRef) (st : ExecState).
Context (Hrun : runExec target content log = Ok st) (Hs : shows content target st p).
Context (Hready : xp_readyNodeIds p = readyNodes localeLe content (xp_status p) st).

Lemma shows_active : taskGraphBudgetSchema (tg_graphBudget content) = true ->
  (xp_activeAttempt p = None <-> xs_active st = None).
Proof.
  intros Hb. rewrite (sh_active _ _ _ _ Hs). unfold activeAttempt.
  destruct (xs_active st) as [a|] eqn:Ha; [|done].
  destruct (xi_active _ _ (runExec_inv _ _ _ _ Hb Hrun) a Ha) as (x & n & -> & _). done.
Qed.

(** The projector looked for ready nodes. *)
Definition open_for_work : Prop :=
  xp_activeAttempt p = None /\ xp_blocker p = None /\ xp_status p ∈ [g_queued; g_running] /\
  ~ exists e, e ∈ log /\ scope e = SessionScope (GraphEventData target GraphCancelRequested).

Lemma ready_spec id :
  taskGraphBudgetSchema (tg_graphBudget content) = true -> open_for_work ->
  id ∈ xp_readyNodeIds p <-> exists n, xs_nodes st !! id = Some n /\ isReady st n = true.
Proof.
  intros Hb (Ha%(shows_active Hb) & Hbl & Hst & Hcan). rewrite (sh_blocker _ _ _ _ Hs) in Hbl.
  assert (Hcr : xs_cancelRequested st = false).
  { apply not_true_iff_false. intros E. by apply Hcan, (runExec_cancel _ _ _ _ Hrun). }
  rewrite Hready. unfold readyNodes. rewrite Ha, Hbl, Hcr, (bool_decide_eq_true_2 (_ ∈ _)) by done. simpl.
  rewrite list_elem_of_fmap. setoid_rewrite elem_js_sort_filter. split.
  - intros (n & -> & Hn & Hr). apply list_elem_of_fmap in Hn as ([i m] & -> & Hm).
    apply list_elem_of_omap in Hm as (spec & _ & Hm). simpl in *.
    destruct (xs_nodes st !! tn_nodeId spec) as [y|] eqn:Hy; [|done]. injection Hm as <- ->.
    destruct (runExec_key _ _ _ _ _ _ Hrun Hy) as [Hk _]. exists m. by rewrite Hk.
  - intros (n & Hn & Hr). destruct (runExec_key _ _ _ _ _ _ Hrun Hn) as [Hk Hin]. exists n. split; [done|].
    split; [|done]. apply list_elem_of_fmap. exists (id, n). split; [done|]. apply list_elem_of_omap.
    exists (mn_node n). split; [done|]. by rewrite Hk, Hn.
Qed.

(** The projected node is the state's, marked when it is ready. *)
Lemma shown_node id n :
  (id, n) ∈ xp_nodes p <-> exists m, xs_nodes st !! id = Some m /\
    n = if bool_decide (id ∈ xp_readyNodeIds p) then m <| mn_status := n_ready |> else m.
Proof.
  rewrite (sh_nodes _ _ _ _ Hs). destruct (projected_nodes _ _ _ _ (xp_readyNodeIds p) Hrun) as [Hl Hr]. split.
  - intros Hin%Hl. rewrite projected_lookup in Hin. destruct (xs_nodes st !! id) as [m|]; [|done].
    simpl in Hin. injection Hin as <-. by exists m.
  - intros (m & Hm & ->). apply Hr. by rewrite projected_lookup, Hm.
Qed.
End Projection.
