(* ===== verification/JsonParseFacts.v ===== *)
(** * What JSON.parse answers

    The parser answers on every text, and gives a canonical text back its
    value. *)

From S2P Require Import Prelude JsString CanonicalJson CanonicalJsonFacts JsonParse.
From stdpp Require Import pretty sorting.
#[local] Open Scope Z_scope.

(** ** Termination *)

Lemma syntax_ok {A} (o : option A) a : syntax o = Ok a <-> o = Some a.
Proof. destruct o; simpl; naive_solver. Qed.

Lemma syntax_fuel {A} (o : option A) : syntax o <> Err OutOfFuel.
Proof. by destruct o. Qed.

Lemma skipSpace_length s : (length (skipSpace s) <= length s)%nat.
Proof. induction s as [|u r IH]; simpl; [done|]. case_match; simpl; lia. Qed.

Lemma parseString_length n t s k :
  (length t <= n)%nat -> parseString t = Some (s, k) -> (length k < length t)%nat.
Proof.
  revert t s k. induction n as [|n IH]; intros [|u r] s k Hn H; simpl in *; try done; [lia|].
  destruct (u =? 0x22); [by simplify_eq; simpl; lia|].
  assert (Hrec : forall r' (g : jstring -> jstring),
    (length r' <= length r)%nat -> ('(s, k) ← parseString r'; Some (g s, k)) = Some (s, k) ->
    (length k < S (length r))%nat).
  { intros r' g Hr Hg. apply bind_Some in Hg as ([s' k'] & Hp & Hg). simplify_eq/=.
    apply IH in Hp; lia. }
  destruct (u =? 0x5c); [|destruct (u <? 0x20); [done|by eapply (Hrec r (cons u))]].
  destruct r as [|e r1]; [done|]. destruct (e =? 0x75).
  - destruct r1 as [|a [|b [|c [|d r2]]]]; try done.
    do 4 (apply bind_Some in H as (? & _ & H)). eapply (Hrec r2 (cons _)); [simpl; lia|exact H].
  - apply bind_Some in H as (x & _ & H). eapply (Hrec r1 (cons _)); [simpl; lia|exact H].
Qed.

Lemma digitRun_length s : (length (digitRun s).2 <= length s)%nat /\ (length (digitRun s).1 + length (digitRun s).2 = length s)%nat.
Proof.
  induction s as [|u r IH]; simpl; [done|]. destruct (isDigit u); [|simpl; lia].
  destruct (digitRun r) as [d k]. simpl in *. lia.
Qed.

Lemma parseUnsigned_length s t k : parseUnsigned s = Some (t, k) -> (length k < length s)%nat.
Proof.
  unfold parseUnsigned. intros H. apply bind_Some in H as ([i s1] & Hi & H).
  apply bind_Some in H as ([f s2] & Hf & H). apply bind_Some in H as ([e s3] & He & H). simplify_eq.
  assert (Hlt : (length s1 < length s)%nat).
  { unfold integerPart in Hi. destruct s as [|u r]; [done|]. destruct (u =? 0x30); [by simplify_eq; simpl; lia|].
    destruct (isDigit u) eqn:Hu; [|done]. simpl in Hi. rewrite Hu in Hi. pose proof (digitRun_length r).
    destruct (digitRun r). simplify_eq. simpl in *. lia. }
  assert (Hle : (length s2 <= length s1)%nat).
  { unfold fractionPart in Hf. destruct s1 as [|u r]; [by simplify_eq|]. destruct (u =? 0x2e); [|by simplify_eq].
    pose proof (digitRun_length r). destruct (digitRun r). destruct (length _ =? 0)%nat; simplify_eq. simpl in *. lia. }
  assert (Hle' : (length k <= length s2)%nat); [|lia].
  unfold exponentPart in He. destruct s2 as [|u r]; [by simplify_eq|].
  destruct (_ || _); [|by simplify_eq].
  destruct r as [|v r']; [done|]. destruct ((v =? 0x2b) || (v =? 0x2d)).
  - pose proof (digitRun_length r'). destruct (digitRun r'). destruct (length _ =? 0)%nat; simplify_eq. simpl in *. lia.
  - pose proof (digitRun_length (v :: r')). destruct (digitRun (v :: r')).
    destruct (length _ =? 0)%nat; simplify_eq. simpl in *. lia.
Qed.

Lemma parseNumber_length s t k : parseNumber s = Some (t, k) -> (length k < length s)%nat.
Proof.
  unfold parseNumber. destruct s as [|u r]; [done|]. destruct (u =? 0x2d); [|apply parseUnsigned_length].
  intros H. apply bind_Some in H as ([t' k'] & H & ?). simplify_eq. apply parseUnsigned_length in H. simpl. lia.
Qed.

Lemma startsWith_drop s t : startsWith s t = true -> t <> [] -> (length (drop (length t) s) < length s)%nat.
Proof.
  intros (r & ->)%startsWith_spec Ht. rewrite drop_app_length, length_app. destruct t; simpl in *; [done|lia].
Qed.

Lemma parseLiteral_length s v k : parseLiteral literals s = Some (v, k) -> (length k < length s)%nat.
Proof.
  cbn [parseLiteral literals]. repeat (case_match; [intros; simplify_eq; by apply startsWith_drop|]). done.
Qed.

(** A value, an element or a member consumes text. *)
Lemma parse_length fuel :
  (forall s v k, parseValue fuel s = Ok (v, k) -> (length k < length s)%nat) /\
  (forall s l v k, parseElements fuel s l = Ok (v, k) -> (length k < length s)%nat) /\
  (forall s l v k, parseMembers fuel s l = Ok (v, k) -> (length k < length s)%nat).
Proof.
  induction fuel as [|fuel (IHv & IHe & IHm)]; [done|]. split_and!.
  - intros s v k H. cbn [parseValue] in H. pose proof (skipSpace_length s) as Hs.
    destruct (skipSpace s) as [|u r]; [done|]. simpl in Hs. pose proof (skipSpace_length r) as Hr.
    destruct (u =? 0x22).
    { apply bind_ok in H as ([t k'] & H%syntax_ok & ?). simplify_eq. apply (parseString_length _ _ _ _ (le_n _)) in H. lia. }
    destruct (u =? 0x5b).
    { destruct (skipSpace r) as [|w k']; [done|]. simpl in Hr.
      destruct (w =? 0x5d); [simplify_eq; lia|apply IHe in H; lia]. }
    destruct (u =? 0x7b).
    { destruct (skipSpace r) as [|w k']; [done|]. simpl in Hr.
      destruct (w =? 0x7d); [simplify_eq; lia|apply IHm in H; lia]. }
    destruct (_ || _).
    { apply bind_ok in H as ([t k'] & H%syntax_ok & ?). simplify_eq. apply parseNumber_length in H. simpl in H. lia. }
    apply syntax_ok, parseLiteral_length in H. simpl in H. lia.
  - intros s l v k H. cbn [parseElements] in H. apply bind_ok in H as ([w k1] & Hw%IHv & H).
    pose proof (skipSpace_length k1) as Hs. destruct (skipSpace k1) as [|u r]; [done|]. simpl in Hs.
    destruct (u =? comma); [apply IHe in H; lia|]. destruct (u =? 0x5d); [simplify_eq; lia|done].
  - intros s l v k H. cbn [parseMembers] in H. pose proof (skipSpace_length s) as Hs.
    destruct (skipSpace s) as [|q r]; [done|]. simpl in Hs. destruct (q =? 0x22); [|done].
    apply bind_ok in H as ([key k1] & Hk%syntax_ok & H). apply (parseString_length _ _ _ _ (le_n _)) in Hk.
    pose proof (skipSpace_length k1) as Hs1. destruct (skipSpace k1) as [|c k2]; [done|]. simpl in Hs1.
    destruct (c =? colon); [|done]. apply bind_ok in H as ([w k3] & Hw%IHv & H).
    pose proof (skipSpace_length k3) as Hs3. destruct (skipSpace k3) as [|u k4]; [done|]. simpl in Hs3.
    destruct (u =? comma); [apply IHm in H; lia|]. destruct (u =? 0x7d); [simplify_eq; lia|done].
Qed.

Lemma bind_fuel {A B} (r : result json_error A) (f : A -> result json_error B) :
  r <> Err OutOfFuel -> (forall a, r = Ok a -> f a <> Err OutOfFuel) -> r ≫= f <> Err OutOfFuel.
Proof. intros H Hf. destruct r as [a|[]]; simpl; [by apply Hf|done|done]. Qed.

(** A level of nesting costs two units of fuel and at least one of text. *)
Lemma parse_fuel fuel :
  (forall s, (2 * length s < fuel)%nat -> parseValue fuel s <> Err OutOfFuel) /\
  (forall s l, (2 * length s + 1 < fuel)%nat -> parseElements fuel s l <> Err OutOfFuel) /\
  (forall s l, (2 * length s + 1 < fuel)%nat -> parseMembers fuel s l <> Err OutOfFuel).
Proof.
  induction fuel as [|fuel (IHv & IHe & IHm)]; [split_and!; intros; lia|]. split_and!.
  - intros s Hf. cbn [parseValue]. pose proof (skipSpace_length s) as Hs.
    destruct (skipSpace s) as [|u r]; [done|]. simpl in Hs.
    destruct (u =? 0x22); [apply bind_fuel; [apply syntax_fuel|by intros []]|].
    destruct (u =? 0x5b).
    { destruct (skipSpace r) as [|w k']; [done|]. destruct (w =? 0x5d); [done|apply IHe; lia]. }
    destruct (u =? 0x7b).
    { destruct (skipSpace r) as [|w k']; [done|]. destruct (w =? 0x7d); [done|apply IHm; lia]. }
    destruct (_ || _); [apply bind_fuel; [apply syntax_fuel|by intros []]|apply syntax_fuel].
  - intros s l Hf. cbn [parseElements]. apply bind_fuel; [apply IHv; lia|]. intros [w k1] Hw.
    apply parse_length in Hw. pose proof (skipSpace_length k1) as Hs.
    destruct (skipSpace k1) as [|u r]; [done|]. simpl in Hs.
    destruct (u =? comma); [apply IHe; lia|by destruct (u =? 0x5d)].
  - intros s l Hf. cbn [parseMembers]. pose proof (skipSpace_length s) as Hs.
    destruct (skipSpace s) as [|q r]; [done|]. simpl in Hs. destruct (q =? 0x22); [|done].
    apply bind_fuel; [apply syntax_fuel|]. intros [key k1] Hk%syntax_ok. apply (parseString_length _ _ _ _ (le_n _)) in Hk.
    pose proof (skipSpace_length k1) as Hs1. destruct (skipSpace k1) as [|c k2]; [done|]. simpl in Hs1.
    destruct (c =? colon); [|done]. apply bind_fuel; [apply IHv; lia|]. intros [w k3] Hw. apply parse_length in Hw.
    pose proof (skipSpace_length k3) as Hs3. destruct (skipSpace k3) as [|u k4]; [done|]. simpl in Hs3.
    destruct (u =? comma); [apply IHm; lia|by destruct (u =? 0x7d)].
Qed.

(** The fuel of [jsonParse] suffices: it gives a value or a syntax error. *)
Theorem jsonParse_answers text : jsonParse text <> Err OutOfFuel.
Proof.
  unfold jsonParse. apply bind_fuel; [apply parse_fuel; lia|]. intros [v k] _. by destruct (skipSpace k).
Qed.

(** ** Canonical texts parse back *)

Lemma hexValue_hexDigit d : 0 <= d < 16 -> hexValue (hexDigit d) = Some d.
Proof.
  intros. unfold hexValue, hexDigit, isDigit.
  destruct (Z.ltb_spec d 10).
  - rewrite (proj2 (andb_true_iff _ _)) by lia. f_equal. lia.
  - rewrite (proj2 (andb_false_iff _ _)) by lia. rewrite (proj2 (andb_true_iff _ _)) by lia. f_equal. lia.
Qed.

Lemma parse_unicodeEscape u t :
  isUnit16 u -> parseString (unicodeEscape u ++ t) = '(s, k) ← parseString t; Some (u :: s, k).
Proof.
  intros Hu. unfold unicodeEscape, isUnit16 in *. cbn [app parseString].
  rewrite !hexValue_hexDigit by (apply Z.mod_pos_bound; lia). cbn.
  replace (4096 * ((u / 4096) mod 16) + 256 * ((u / 256) mod 16) + 16 * ((u / 16) mod 16) + u mod 16)
    with u by (Z.to_euclidean_division_equations; lia).
  done.
Qed.

Lemma parse_quoteUnit u t :
  isUnit16 u -> parseString (quoteUnit u ++ t) = '(s, k) ← parseString t; Some (u :: s, k).
Proof.
  intros Hu. unfold quoteUnit.
  repeat match goal with |- context [u =? ?c] => destruct (Z.eqb_spec u c); [by subst|] end.
  destruct (Z.ltb_spec u 0x20); [by apply parse_unicodeEscape|]. cbn [app parseString].
  rewrite !(proj2 (Z.eqb_neq _ _)) by done. by rewrite (proj2 (Z.ltb_ge _ _)).
Qed.

Lemma parse_raw u t :
  isHighSurrogate u = true \/ isLowSurrogate u = true ->
  parseString (u :: t) = '(s, k) ← parseString t; Some (u :: s, k).
Proof.
  unfold isHighSurrogate, isLowSurrogate. intros Hu. cbn [parseString].
  rewrite !(proj2 (Z.eqb_neq _ _)) by lia. by rewrite (proj2 (Z.ltb_ge _ _)) by lia.
Qed.

Lemma parse_quoteUnits s k :
  Forall isUnit16 s -> parseString (quoteUnits s ++ 0x22 :: k) = Some (s, k).
Proof.
  remember (length s) as n eqn:Hn. revert s Hn.
  induction n as [n IH] using lt_wf_ind. intros s Hn Hs. destruct Hs as [|u r Hu Hr]; [done|].
  assert (IH1 : parseString (quoteUnits r ++ 0x22 :: k) = Some (r, k))
    by (eapply IH; [|reflexivity|done]; simpl in Hn; lia).
  cbn [quoteUnits]. destruct (isHighSurrogate u) eqn:Eu.
  - destruct r as [|v r']; [by rewrite parse_unicodeEscape by done|].
    destruct (isLowSurrogate v) eqn:Ev.
    + rewrite <-!app_comm_cons, !parse_raw by auto. inversion_clear Hr.
      rewrite (IH (length r')); [done|simpl in Hn; lia|done|done].
    + by rewrite <-app_assoc, parse_unicodeEscape, IH1 by done.
  - destruct (isLowSurrogate u).
    + by rewrite <-app_assoc, parse_unicodeEscape, IH1 by done.
    + by rewrite <-app_assoc, parse_quoteUnit, IH1 by done.
Qed.

(** *** Numbers *)

Definition digit (u : Z) : Prop := 0x30 <= u <= 0x39.

Lemma isDigit_true u : digit u -> isDigit u = true.
Proof. unfold digit, isDigit. lia. Qed.

Lemma pretty_N_go_digits n s :
  n <> 0%N -> Forall digit (js s) ->
  exists u r, js (pretty_N_go n s) = u :: r /\ digit u /\ u <> 0x30 /\ Forall digit r.
Proof.
  revert s. induction n as [n IH] using (well_founded_induction N.lt_wf_0). intros s Hn Hs.
  rewrite pretty_N_go_step by lia. set (c := pretty_N_char (n `mod` 10)).
  assert (Hlt : (n `mod` 10 < 10)%N) by by apply N.mod_lt.
  assert (Hc : exists u, js (String c s) = u :: js s /\ digit u /\ ((n `mod` 10)%N <> 0%N -> u <> 0x30)).
  { exists (Z.of_N (Ascii.N_of_ascii c)). split; [done|].
    subst c. clear IH Hs. revert Hlt. generalize (n `mod` 10)%N. intros m Hm.
    assert (Hd : In m [0; 1; 2; 3; 4; 5; 6; 7; 8; 9]%N) by (simpl; lia). unfold digit.
    repeat (destruct Hd as [<-|Hd]; [split; [vm_compute; split; discriminate|intros; try done; vm_compute; discriminate]|]).
    destruct Hd. }
  destruct Hc as (u & Hu & Hdu & Hnz). destruct (decide (n `div` 10 = 0)%N) as [E|Hq].
  - rewrite E, pretty_N_go_0, Hu. exists u, (js s). split_and!; try done. apply Hnz.
    pose proof (N.div_mod n 10 ltac:(done)). lia.
  - apply IH; [apply N.div_lt; lia|done|]. rewrite Hu. by constructor.
Qed.

(** A number token: a sign, then digits without a leading zero. *)
Lemma stringifyNumber_shape n : exists sign u r,
  stringifyNumber n = sign ++ u :: r /\ (sign = [] \/ sign = [0x2d]) /\ digit u /\ Forall digit r /\
  (u = 0x30 -> r = []).
Proof.
  assert (Hp : forall p : positive, exists u r, js (pretty p) = u :: r /\ digit u /\ u <> 0x30 /\ Forall digit r).
  { intros p. unfold pretty, pretty_positive, pretty, pretty_N. simpl. apply pretty_N_go_digits; [done|constructor]. }
  unfold stringifyNumber. destruct n as [|p|p].
  - exists [], 0x30, []. unfold digit. split_and!; auto; lia.
  - destruct (Hp p) as (u & r & E & ? & ? & ?). exists [], u, r. split_and!; auto; try lia; exact E.
  - destruct (Hp p) as (u & r & E & ? & ? & ?). exists [0x2d], u, r. split_and!; auto; [|lia].
    unfold pretty at 1, pretty_Z. rewrite js_app, E. done.
Qed.

Lemma digitRun_app d k : Forall digit d -> delimited k -> digitRun (d ++ k) = (d, k).
Proof.
  intros Hd Hk. induction Hd as [|u d Hu Hd IH]; cbn [app digitRun].
  - destruct k as [|u k]; [done|]. unfold delimited, comma in Hk. cbn [digitRun].
    by replace (isDigit u) with false by (unfold isDigit; lia).
  - by rewrite isDigit_true, IH.
Qed.

Lemma delimited_not k : delimited k -> match k with [] => True | u :: _ =>
  (u =? 0x2e) = false /\ (u =? 0x65) = false /\ (u =? 0x45) = false end.
Proof. unfold delimited, comma. destruct k; [done|]. intros. split_and!; lia. Qed.

Lemma parseNumber_stringify n k : delimited k -> parseNumber (stringifyNumber n ++ k) = Some (stringifyNumber n, k).
Proof.
  intros Hk. destruct (stringifyNumber_shape n) as (sign & u & r & -> & Hsign & Hu & Hr & Hz).
  assert (Hun : parseUnsigned ((u :: r) ++ k) = Some (u :: r, k)).
  { unfold parseUnsigned.
    assert (Hi : integerPart ((u :: r) ++ k) = Some (u :: r, k)).
    { unfold integerPart. cbn [app]. destruct (Z.eqb_spec u 0x30) as [->|]; [by rewrite Hz|].
      rewrite isDigit_true by done. f_equal. apply (digitRun_app (u :: r)); [by constructor|done]. }
    rewrite Hi. cbn -[fractionPart exponentPart]. apply delimited_not in Hk.
    assert (Hf : fractionPart k = Some ([], k)) by (destruct k as [|v k]; [done|]; simpl; by destruct Hk as (-> & _)).
    assert (He : exponentPart k = Some ([], k)) by (destruct k as [|v k]; [done|]; simpl; by destruct Hk as (_ & -> & ->)).
    rewrite Hf. cbn -[exponentPart]. rewrite He. simpl. by rewrite app_nil_r. }
  rewrite <-app_assoc. unfold parseNumber. destruct Hsign as [-> | ->]; cbn [app] in *.
  - replace (u =? 0x2d) with false by (unfold digit in Hu; lia). exact Hun.
  - simpl. by rewrite Hun.
Qed.

(** *** Values *)

(** The value a canonical text denotes: its numbers are their tokens. *)
Fixpoint parsedValue (v : json) : jvalue :=
  match v with
  | JUndefined | JNull => VNull
  | JBool b => VBool b
  | JNum n => VNumber (stringifyNumber n)
  | JStr s => VString s
  | JArr l => VArray (List.map parsedValue l)
  | JObj r => VObject (List.map (fun '(k, v) => (k, parsedValue v)) r)
  end.

(** No object names a property twice. *)
Fixpoint distinctKeys (v : json) : Prop :=
  match v with
  | JUndefined | JNull | JBool _ | JNum _ | JStr _ => True
  | JArr l => fold_right (fun v P => distinctKeys v /\ P) True l
  | JObj r => NoDup (fst <$> r) /\ fold_right (fun '(k, v) P => distinctKeys v /\ P) True r
  end.

Lemma distinctKeys_JArr l : distinctKeys (JArr l) <-> Forall distinctKeys l.
Proof. simpl. induction l as [|v l IH]; simpl; [by split|]. by rewrite Forall_cons, IH. Qed.

Lemma distinctKeys_JObj r :
  distinctKeys (JObj r) <-> NoDup (fst <$> r) /\ Forall (fun kv => distinctKeys kv.2) r.
Proof.
  simpl. f_equiv. induction r as [|[k v] r IH]; simpl; [by split|]. by rewrite Forall_cons, IH.
Qed.

(** With enough fuel, the text of [v] parses to [parsedValue v]. *)
Definition parses_back (v : json) : Prop :=
  forall fuel k, delimited k -> (2 * length (printCanon v ++ k) < fuel)%nat ->
  parseValue fuel (printCanon v ++ k) = Ok (parsedValue v, k).

Lemma skipSpace_plain u r : isJsonSpace u = false -> skipSpace (u :: r) = u :: r.
Proof. intros H. cbn [skipSpace]. by rewrite H. Qed.

Lemma parse_elements v l fuel (k : jstring) entries :
  Forall parses_back (v :: l) -> Forall clean (v :: l) ->
  (2 * length (joinUnit comma (List.map printCanon (v :: l)) ++ 0x5d%Z :: k) + 1 < fuel)%nat ->
  parseElements fuel (joinUnit comma (List.map printCanon (v :: l)) ++ 0x5d :: k) entries =
  Ok (VArray (entries ++ List.map parsedValue (v :: l)), k).
Proof.
  revert v fuel entries. induction l as [|w l IH]; intros v fuel entries Hb Hc Hf;
    inversion_clear Hb as [|?? Hv Hl]; inversion_clear Hc as [|?? Hcv Hcl];
    (destruct fuel as [|fuel]; [lia|]); cbn [parseElements].
  - cbn [List.map joinUnit] in *. rewrite Hv; [|unfold delimited; auto|lia].
    change (Ok ?a ≫= ?f) with (f a); cbv beta iota.
    rewrite skipSpace_plain by done. done.
  - change (joinUnit comma (List.map printCanon (v :: w :: l)))
      with (printCanon v ++ comma :: joinUnit comma (List.map printCanon (w :: l))) in *.
    rewrite <-app_assoc in *. cbn [app] in *.
    rewrite Hv; [|unfold delimited; auto|lia].
    change (Ok ?a ≫= ?f) with (f a); cbv beta iota.
    rewrite skipSpace_plain by done. rewrite Z.eqb_refl.
    rewrite IH; [by rewrite <-app_assoc|done|done|].
    rewrite length_app in Hf. cbn [length] in Hf. lia.
Qed.

Lemma fieldText_app kv k : fieldText kv ++ k = 0x22 :: quoteUnits kv.1 ++ 0x22 :: colon :: kv.2 ++ k.
Proof. unfold fieldText, stringifyString. by rewrite <-!app_comm_cons, <-!app_assoc. Qed.

(** One property: its key and its value, up to what follows. *)
Lemma parse_member fuel x v (k : jstring) record :
  parses_back v -> Forall isUnit16 x -> delimited k ->
  (2 * length (fieldText (x, printCanon v) ++ k) < fuel)%nat ->
  parseMembers (S fuel) (fieldText (x, printCanon v) ++ k) record =
  match skipSpace k with
  | u :: k => if u =? comma then parseMembers fuel k (jm_set x (parsedValue v) record)
              else if u =? 0x7d then Ok (VObject (jm_set x (parsedValue v) record), k)
              else Err SyntaxError
  | [] => Err SyntaxError
  end.
Proof.
  intros Hv Hx Hk Hf. rewrite fieldText_app in *. cbn [parseMembers fst snd].
  rewrite skipSpace_plain by done. cbn [Z.eqb Pos.eqb]. rewrite parse_quoteUnits by done. cbn [syntax].
  change (Ok ?a ≫= ?f) with (f a); cbv beta iota. rewrite skipSpace_plain by done. rewrite Z.eqb_refl.
  rewrite Hv; [done|done|]. cbn [fst snd length] in Hf. rewrite length_app in Hf. cbn [length] in Hf. lia.
Qed.

Notation member_text := (fun '(k, v) => fieldText (k, printCanon v)).

Lemma parse_members x v r fuel (k : jstring) record :
  Forall (fun kv => parses_back kv.2) ((x, v) :: r) ->
  Forall (fun kv => Forall isUnit16 kv.1 /\ clean kv.2) ((x, v) :: r) ->
  NoDup ((fst <$> record) ++ (fst <$> (x, v) :: r)) ->
  (2 * length (joinUnit comma (List.map member_text ((x, v) :: r)) ++ 0x7d%Z :: k) + 1 < fuel)%nat ->
  parseMembers fuel (joinUnit comma (List.map member_text ((x, v) :: r)) ++ 0x7d :: k) record =
  Ok (VObject (record ++ List.map (fun '(k, v) => (k, parsedValue v)) ((x, v) :: r)), k).
Proof.
  revert x v fuel record. induction r as [|[y w] r IH]; intros x v fuel record Hb Hc Hd Hf;
    inversion_clear Hb as [|?? Hv Hl]; inversion_clear Hc as [|?? [Hx Hcv] Hcl];
    (destruct fuel as [|fuel]; [lia|]); cbn [fst snd] in *;
    (assert (Hfresh : x ∉ fst <$> record) by (intros Hin; apply NoDup_app in Hd as (_ & Hd & _); by apply (Hd x Hin); left)).
  - change (joinUnit comma (List.map member_text [(x, v)])) with (fieldText (x, printCanon v)) in *.
    rewrite parse_member; [|done|done|unfold delimited; auto|lia].
    rewrite skipSpace_plain by done. cbn. by rewrite jm_set_absent.
  - change (joinUnit comma (List.map member_text ((x, v) :: (y, w) :: r)))
      with (fieldText (x, printCanon v) ++ comma :: joinUnit comma (List.map member_text ((y, w) :: r))) in *.
    rewrite <-app_assoc in *. cbn [app] in *.
    rewrite parse_member; [|done|done|unfold delimited; auto|lia].
    rewrite skipSpace_plain by done. rewrite Z.eqb_refl, jm_set_absent by done.
    rewrite IH; [by rewrite <-app_assoc|done|done| |].
    + rewrite fmap_app, <-app_assoc. exact Hd.
    + rewrite length_app in Hf. cbn [length] in Hf. lia.
Qed.

(** What follows a text and the head of the value, for the dispatch of [parseValue]. *)
Lemma numeric_dispatch u : numeric u ->
  isJsonSpace u = false /\ (u =? 0x22) = false /\ (u =? 0x5b) = false /\ (u =? 0x7b) = false /\
  ((u =? 0x2d) || isDigit u) = true.
Proof. unfold numeric, isJsonSpace, isDigit. intros. split_and!; lia. Qed.

Lemma printCanon_parses v : clean v -> distinctKeys v -> parses_back v.
Proof.
  induction v as [| |b|n|s|l IH|r IH] using json_nested_ind; intros Hc Hd fuel k Hk Hf;
    (destruct fuel as [|fuel]; [lia|]); [done|by destruct k|by destruct b, k| | | |].
  - destruct (stringifyNumber_head n) as (u & t & E & (Hs & H1 & H2 & H3 & H4)%numeric_dispatch).
    cbn [parseValue printCanon]. rewrite E. cbn [app]. rewrite skipSpace_plain by done.
    rewrite H1, H2, H3, H4. rewrite app_comm_cons, <-E, parseNumber_stringify by done. done.
  - cbn [parseValue printCanon]. unfold stringifyString. cbn [app]. rewrite skipSpace_plain by done.
    cbn [Z.eqb Pos.eqb]. rewrite <-app_assoc. cbn [app]. by rewrite parse_quoteUnits.
  - apply clean_JArr in Hc. apply distinctKeys_JArr in Hd.
    assert (Hb : Forall parses_back l).
    { rewrite Forall_forall in *. intros x Hx. by apply IH; [|apply Hc|apply Hd]. }
    cbn [parseValue printCanon] in *. cbn [app] in *. rewrite <-app_assoc in *. cbn [app] in *.
    rewrite skipSpace_plain by done. cbn [Z.eqb Pos.eqb]. destruct l as [|v l]; [reflexivity|].
    assert (Hh : exists u t, joinUnit comma (List.map printCanon (v :: l)) ++ 0x5d :: k = u :: t /\
                             isJsonSpace u = false /\ u <> 0x5d).
    { destruct (printCanon_head v) as (u & t & E & Hu); [by inversion Hc|].
      assert (isJsonSpace u = false) as Hsp.
      { destruct Hu as (_ & _ & _ & Hu). unfold isJsonSpace. destruct v as [| |[]| | | |]; try (subst u; done); [done|].
        by apply numeric_dispatch in Hu as (? & _). }
      cbn [List.map]. rewrite joinUnit_cons, E. do 2 eexists. split; [reflexivity|]. naive_solver. }
    destruct Hh as (u & t & E & Hu & Hne). rewrite E, skipSpace_plain by done.
    rewrite (proj2 (Z.eqb_neq _ _)) by done. rewrite <-E, parse_elements; [done|done|done|]. cbn [length] in Hf. lia.
  - apply clean_JObj in Hc. apply distinctKeys_JObj in Hd as [Hn Hd].
    assert (Hb : Forall (fun kv => parses_back kv.2) r).
    { rewrite Forall_forall in *. intros x Hx. apply IH; [done|by apply Hc|by apply Hd]. }
    cbn [parseValue printCanon] in *. cbn [app] in *. rewrite <-app_assoc in *. cbn [app] in *.
    rewrite skipSpace_plain by done. cbn [Z.eqb Pos.eqb]. destruct r as [|[x v] r]; [reflexivity|].
    assert (Hh : exists t, joinUnit comma (List.map member_text ((x, v) :: r)) ++ 0x7d :: k = 0x22 :: t).
    { destruct r as [|[y w] r]; eexists; reflexivity. }
    destruct Hh as (t & E). rewrite E, skipSpace_plain by done. cbn [Z.eqb Pos.eqb].
    rewrite <-E, parse_members; [done|done|done|exact Hn|]. cbn [length] in Hf. lia.
Qed.

(** The keys of the normal form are those of the value. *)
Lemma distinctKeys_canon v : distinctKeys v -> distinctKeys (canon v).
Proof.
  induction v as [| |b|n|s|l IH|r IH] using json_nested_ind; intros Hd; try done.
  - apply distinctKeys_JArr in Hd. cbn [canon]. apply distinctKeys_JArr.
    apply list.Forall_forall. intros x (y & -> & Hy)%list_elem_of_fmap.
    rewrite Forall_forall in *. apply IH; [done|by apply Hd].
  - apply distinctKeys_JObj in Hd as [Hn Hd]. cbn [canon]. apply distinctKeys_JObj.
    rewrite (js_sort_Permutation key_le). split.
    + clear Hd IH. induction r as [|[k v] r IH]; [constructor|]. cbn [fmap list_fmap fst] in Hn.
      apply NoDup_cons in Hn as [Hk Hn]. cbn [List.map List.filter].
      destruct (negb _); [|by apply IH]. cbn [fmap list_fmap fst]. apply NoDup_cons. split; [|by apply IH].
      intros Hin. apply Hk. apply list_elem_of_fmap in Hin as ([k' v'] & -> & Hin). simpl.
      apply list_elem_of_In, filter_In in Hin as [Hin _]. apply in_map_iff in Hin as ([k1 v1] & ? & Hin). simplify_eq.
      apply list_elem_of_fmap. exists (k', v1). split; [done|]. by apply list_elem_of_In.
    + apply list.Forall_forall. intros kv Hin. apply list_elem_of_In, filter_In in Hin as [Hin _].
      apply in_map_iff in Hin as ([k1 v1] & <- & Hin). apply list_elem_of_In in Hin.
      rewrite Forall_forall in *. by apply (IH (k1, v1)); [|apply (Hd (k1, v1))].
Qed.

(** What [canonicalJson] writes is JSON of the same value. *)
Lemma canonicalJson_parses v t :
  canonicalJson v = Ok t -> units16 v -> distinctKeys v -> jsonParse t = Ok (parsedValue (canon v)).
Proof.
  intros Ht Hu Hd. pose proof (canonicalJson_clean v t Ht Hu) as Hc.
  apply canonicalJson_canon in Ht as ->. unfold jsonParse.
  pose proof (printCanon_parses _ Hc (distinctKeys_canon v Hd) (S (2 * length (printCanon (canon v)))) [] I) as H.
  rewrite app_nil_r in H. rewrite H by lia. done.
Qed.

(** C38: Canonical JSON of a value without fractions is JSON of the same value.
    For a value whose numbers are safe integers (the only ones that [JNum]
    stands for), whose objects name no property twice and whose strings are
    UTF-16, the text [canonicalJson] writes is accepted by [JSON.parse], which
    gives back the value with its undefined properties dropped, its keys sorted
    and its integers in decimal. *)
Theorem parse_canonicalJson v t :
  canonicalJson v = Ok t -> units16 v -> distinctKeys v -> jsonParse t = Ok (parsedValue (canon v)).
Proof. apply canonicalJson_parses. Qed.

Lemma parse_canonicalJson_witness :
  jsonParse (quoted "{`a`:[1,null],`b`:`x`}") =
  Ok (VObject [(js "a", VArray [VNumber (js "1"); VNull]); (js "b", VString (js "x"))]).
Proof.
  refine (parse_canonicalJson
    (JObj [(js "b", JStr (js "x")); (js "u", JUndefined); (js "a", JArr [JNum 1; JNull])]) _ _ _ _).
  - vm_compute. reflexivity.
  - cbn. split_and!; try done; repeat constructor; done.
  - cbn. split_and!; try done. repeat constructor; set_solver.
Defined.
