(* ===== verification/RunEvents.v ===== *)
(** * The events of a run

    [src/events/run-event.ts] and [run-event-schema.ts]: the payloads the
    publisher of a run reads, and the refinements their schemas put on more than
    one field.  The format of a single field (UUIDs, digests, lengths) and the
    fields that neither the publisher nor a refinement reads are left out;
    optional fields are options. *)

From S2P Require Import Prelude JsString Domain Events Schemas Permissions Patch SourceSnapshot Completion Verification.
#[local] Open Scope Z_scope.

(** ** Enumerations *)

Inductive RunCommand : Type := command_agent | command_chat.
#[export] Instance RunCommand_eq : EqDecision RunCommand.
Proof. solve_decision. Defined.
Inductive TaskProfile : Type := profile_read_only | profile_coding.
#[export] Instance TaskProfile_eq : EqDecision TaskProfile.
Proof. solve_decision. Defined.
Inductive ResumeMode : Type := resume_exact | resume_canonical_degraded.
#[export] Instance ResumeMode_eq : EqDecision ResumeMode.
Proof. solve_decision. Defined.
Inductive ResumeCapability : Type := capability_exact_checkpoint | capability_canonical_only | capability_none.
#[export] Instance ResumeCapability_eq : EqDecision ResumeCapability.
Proof. solve_decision. Defined.
Inductive TextVisibility : Type := visible_user | visible_internal_candidate.
#[export] Instance TextVisibility_eq : EqDecision TextVisibility.
Proof. solve_decision. Defined.
Inductive StepInput : Type := input_inherited_tool_result | input_user_task | input_tool_result.
#[export] Instance StepInput_eq : EqDecision StepInput.
Proof. solve_decision. Defined.
Inductive StepOutcome : Type := outcome_final | outcome_tool_call.
#[export] Instance StepOutcome_eq : EqDecision StepOutcome.
Proof. solve_decision. Defined.
Inductive ToolStatus : Type := tool_error | tool_success.
#[export] Instance ToolStatus_eq : EqDecision ToolStatus.
Proof. solve_decision. Defined.
Inductive ToolErrorCategory : Type :=
| error_cancelled | error_invalid_arguments | error_limit | error_not_found | error_permission | error_system
| error_tool.
#[export] Instance ToolErrorCategory_eq : EqDecision ToolErrorCategory.
Proof. solve_decision. Defined.
Inductive ApprovalDecision : Type := approval_approved | approval_cancelled | approval_denied.
#[export] Instance ApprovalDecision_eq : EqDecision ApprovalDecision.
Proof. solve_decision. Defined.
Inductive OutputChannel : Type := channel_stdout | channel_stderr.
#[export] Instance OutputChannel_eq : EqDecision OutputChannel.
Proof. solve_decision. Defined.
Inductive CommandExecutor : Type := executor_local | executor_docker.
#[export] Instance CommandExecutor_eq : EqDecision CommandExecutor.
Proof. solve_decision. Defined.
Inductive CompletionEffect : Type := effect_accept | effect_continue | effect_error | effect_incomplete.
#[export] Instance CompletionEffect_eq : EqDecision CompletionEffect.
Proof. solve_decision. Defined.
Inductive AgentBudgetReason : Type :=
| max_steps | max_duration | max_tokens | max_tool_output | context_estimate_overflow
| context_protected_overflow | context_unsafe_compaction | repeated_tool_call.
#[export] Instance AgentBudgetReason_eq : EqDecision AgentBudgetReason.
Proof. solve_decision. Defined.
Inductive CompletionMode : Type := mode_model_final | mode_plan_ready | mode_verified_finish_task.
#[export] Instance CompletionMode_eq : EqDecision CompletionMode.
Proof. solve_decision. Defined.

(** ** Payloads *)

Record RunStartedPayload : Type := {
  rst_command : RunCommand; rst_model : string; rst_provider : string;
  rst_resume_mode : option ResumeMode; rst_resume_of_run_id : option string;
  rst_task_profile : option TaskProfile }.

(** [backendCapabilitiesSchema], but for [usage]; [streaming] is always true. *)
Inductive CancellationCapability : Type := cancellation_abort_signal | cancellation_unsupported.
#[export] Instance CancellationCapability_eq : EqDecision CancellationCapability.
Proof. solve_decision. Defined.
Inductive ReasoningCapability : Type := reasoning_opaque_passthrough | reasoning_none.
#[export] Instance ReasoningCapability_eq : EqDecision ReasoningCapability.
Proof. solve_decision. Defined.
Inductive ToolsCapability : Type := tools_strict | tools_best_effort | tools_none.
#[export] Instance ToolsCapability_eq : EqDecision ToolsCapability.
Proof. solve_decision. Defined.

Record BackendSelectedPayload : Type := {
  bs_adapter : string; bs_adapter_version : string; bs_cancellation : CancellationCapability;
  bs_checkpoint_codec_version : option string; bs_config_fingerprint : string; bs_model : string;
  bs_provider : string; bs_reasoning : ReasoningCapability; bs_resume_capability : option ResumeCapability;
  bs_tools : ToolsCapability; bs_usage : UsageCompleteness }.

Record TextDeltaPayload : Type := { td_delta : jstring; td_visibility : option TextVisibility }.

Record AgentStepStartedPayload : Type := { ass_input_kind : StepInput; ass_step : Z }.

(** The three shapes of [model.usage]; a [null] count is [None]. *)
Inductive ModelUsageData : Type :=
| LegacyUsage (step : Z) (cached_input_tokens : option Z) (input_tokens output_tokens total_tokens : Z)
| CompleteUsage (step : Z) (provider : string) (cache_read_tokens : option Z)
    (input_tokens output_tokens total_tokens : Z)
| PartialUsage (step : Z) (provider : string) (cache_read_tokens : option Z)
    (input_tokens output_tokens total_tokens : option Z).

Record AgentStepCompletedPayload : Type := {
  asc_outcome : StepOutcome; asc_step : Z; asc_text_chars : Z; asc_tool_call_id : option string }.

Record UsagePayload : Type := {
  us_cached_input_tokens : option Z; us_input_tokens : Z; us_model_turns : option Z; us_output_tokens : Z;
  us_total_tokens : Z; us_usage_incomplete : option bool }.

Record ToolCallRequestedPayload : Type := {
  tcr_arguments_json : jstring; tcr_call_id : string; tcr_provider_response_id : option string; tcr_step : Z;
  tcr_tool_name : string }.

Record ToolCallCompletedPayload : Type := {
  tcc_call_id : string; tcc_error_category : option ToolErrorCategory; tcc_error_code : option string;
  tcc_output : jstring; tcc_retryable : option bool; tcc_status : ToolStatus; tcc_step : Z;
  tcc_tool_name : string; tcc_truncated : bool }.
#[export] Instance ToolCallCompletedPayload_eq : EqDecision ToolCallCompletedPayload.
Proof. solve_decision. Defined.

(** What a resumed run is given for a call that completed in the run before it. *)
Record RecoveredToolObservation : Type := {
  rto_errorCategory : option ToolErrorCategory; rto_errorCode : option string; rto_output : jstring;
  rto_retryable : option bool; rto_status : ToolStatus; rto_truncated : bool }.
#[export] Instance RecoveredToolObservation_eq : EqDecision RecoveredToolObservation.
Proof. solve_decision. Defined.

Record PatchPlanCreatedPayload : Type := {
  ppc_call_id : string; ppc_plan_id : string; ppc_rule_manifest_sha256 : option string;
  ppc_rule_scope_set_sha256 : option string; ppc_step : Z }.

(** The action an approval is about, in the request and in the decision. *)
Inductive ApprovalAction : Type :=
| ApplyPatchAction (action_sha256 : option string) (plan_id : string)
    (rule_manifest_sha256 rule_scope_set_sha256 : option string)
| RunCommandAction (action_sha256 : string).

Record ApprovalRequestedPayload : Type := {
  arp_action : ApprovalAction; arp_approval_request_id : string; arp_call_id : string; arp_step : Z }.
Record ApprovalDecidedPayload : Type := {
  adp_action : ApprovalAction; adp_approval_request_id : string; adp_call_id : string;
  adp_decision : ApprovalDecision; adp_step : Z }.

Record PatchFileStarted : Type := {
  pfs_kind : PatchChangeKind; pfs_path : jstring; pfs_post_sha256 : option string;
  pfs_pre_sha256 : option string }.
Record PatchFileCompleted : Type := {
  pfd_kind : PatchChangeKind; pfd_path : jstring; pfd_post_sha256 : string; pfd_pre_sha256 : option string }.
Record PatchApplyStartedPayload : Type := {
  pas_approval_request_id : string; pas_call_id : string; pas_files : list PatchFileStarted;
  pas_plan_id : string; pas_rule_manifest_sha256 : option string; pas_rule_scope_set_sha256 : option string;
  pas_step : Z }.
Record PatchApplyCompletedPayload : Type := {
  pac_added_lines : Z; pac_removed_lines : Z; pac_approval_request_id : string; pac_call_id : string; pac_files : list PatchFileCompleted;
  pac_plan_id : string; pac_rule_manifest_sha256 : option string; pac_rule_scope_set_sha256 : option string;
  pac_step : Z }.

Record PermissionEvaluatedPayload : Type := {
  pev_action_sha256 : string; pev_call_id : string; pev_effect : PermissionEffect;
  pev_reason_code : option string; pev_step : Z }.

(** [commandEventIdentity] *)
Record CommandIdentity : Type := {
  ci_action_sha256 : string; ci_call_id : string; ci_execution_id : string; ci_executor : CommandExecutor;
  ci_step : Z }.
Record CommandRequestedPayload : Type := {
  crq_id : CommandIdentity; crq_approval_request_id : option string; crq_cwd : jstring;
  crq_executable : jstring; crq_purpose : CommandPurpose; crq_redacted_argv : list jstring }.
Record CommandOutputPayload : Type := {
  cop_id : CommandIdentity; cop_bytes : Z; cop_channel : OutputChannel; cop_chunk : jstring;
  cop_chunk_index : Z }.
Record CommandCompletedPayload : Type := {
  ccp_id : CommandIdentity; ccp_cleanup_verified : bool; ccp_duration_ms : Z; ccp_error_code : option string;
  ccp_exit_code : option Z;
  ccp_signal : option jstring; ccp_stderr_bytes : Z; ccp_stdout_bytes : Z;
  ccp_termination : ExecutionTermination; ccp_total_bytes : Z; ccp_truncated : bool }.

(** [verificationIdentity] *)
Record VerificationIdentity : Type := {
  vid_action_sha256 : string; vid_call_id : string; vid_command_execution_id : string; vid_step : Z;
  vid_verification_id : string }.
Record VerificationStartedPayload : Type := {
  vsp_id : VerificationIdentity; vsp_generation : Z; vsp_kind : VerificationClassification;
  vsp_snapshot_sha256 : string }.
Record VerificationCompletedPayload : Type := {
  vcp_id : VerificationIdentity; vcp_after_snapshot_sha256 : string; vcp_before_snapshot_sha256 : string;
  vcp_completed_generation : Z; vcp_duration_ms : Z; vcp_exit_code : option Z; vcp_stale : bool;
  vcp_stale_reasons : list VerificationStaleReason; vcp_started_generation : Z;
  vcp_status : VerificationStatus }.

Record CompletionCandidatePayload : Type := {
  ccd_call_id : string; ccd_candidate_sha256 : string; ccd_status : FinishStatus; ccd_step : Z;
  ccd_summary : jstring }.

(** [PersistedCompletionEvidence]: the outcome is the kind of its evidence. *)
Inductive PersistedEvidence : Type :=
| CompletedEvidence (evidence : CompletionEvidence)
| IncompletedEvidence (evidence : IncompleteEvidence).
Record CompletionEvidencePayload : Type := {
  cep_evidence : PersistedEvidence; cep_evidence_sha256 : string; cep_report_sha256 : string }.

Record CompletionEvaluatedPayload : Type := {
  cvp_call_id : string; cvp_candidate_sha256 : string; cvp_changed_paths : list jstring;
  cvp_diff_stat : option CompletionDiffStat; cvp_effect : CompletionEffect; cvp_error_code : option string;
  cvp_evidence_sha256 : option string; cvp_reasons : list CompletionReason;
  cvp_report_sha256 : option string; cvp_step : Z; cvp_verification_ids : list string }.

Record RunCompletedPayload : Type := {
  rcp_completion_mode : option CompletionMode; rcp_evidence_sha256 : option string;
  rcp_model_turns : option Z; rcp_output_chars : Z; rcp_report_sha256 : option string;
  rcp_steps : option Z; rcp_tool_calls : option Z }.
Record RunIncompletePayload : Type := {
  rip_evidence_sha256 : option string; rip_output_chars : Z; rip_reason : CompletionReason;
  rip_report_sha256 : option string; rip_steps : Z; rip_tool_calls : Z }.
(** The counts of [run.failed] and [run.cancelled]. *)
Record RunStoppedPayload : Type := {
  rsp_output_chars : option Z; rsp_steps : option Z; rsp_tool_calls : option Z }.
Record RunBudgetExceededPayload : Type := {
  rbe_limit : Z; rbe_observed : Z; rbe_output_chars : Z; rbe_reason : AgentBudgetReason; rbe_steps : Z;
  rbe_tool_calls : Z }.

(** [RunEventDraft], by its [type]. *)
Inductive RunEventDraft : Type :=
| ev_run_started (data : RunStartedPayload)
| ev_backend_selected (data : BackendSelectedPayload)
| ev_text_delta (data : TextDeltaPayload)
| ev_agent_step_started (data : AgentStepStartedPayload)
| ev_model_usage (data : ModelUsageData)
| ev_agent_step_completed (data : AgentStepCompletedPayload)
| ev_usage (data : UsagePayload)
| ev_tool_call_requested (data : ToolCallRequestedPayload)
| ev_tool_call_completed (data : ToolCallCompletedPayload)
| ev_patch_plan_created (data : PatchPlanCreatedPayload)
| ev_approval_requested (data : ApprovalRequestedPayload)
| ev_approval_decided (data : ApprovalDecidedPayload)
| ev_patch_apply_started (data : PatchApplyStartedPayload)
| ev_patch_apply_completed (data : PatchApplyCompletedPayload)
| ev_permission_evaluated (data : PermissionEvaluatedPayload)
| ev_command_requested (data : CommandRequestedPayload)
| ev_command_started (data : CommandIdentity)
| ev_command_output (data : CommandOutputPayload)
| ev_command_completed (data : CommandCompletedPayload)
| ev_verification_started (data : VerificationStartedPayload)
| ev_verification_completed (data : VerificationCompletedPayload)
| ev_completion_evidence (data : CompletionEvidencePayload)
| ev_completion_candidate (data : CompletionCandidatePayload)
| ev_completion_evaluated (data : CompletionEvaluatedPayload)
| ev_run_completed (data : RunCompletedPayload)
| ev_run_incomplete (data : RunIncompletePayload)
| ev_run_failed (data : RunStoppedPayload)
| ev_run_cancelled (data : RunStoppedPayload)
| ev_run_budget_exceeded (data : RunBudgetExceededPayload).

(** [RunEvent]: a draft in its envelope. *)
Record RunEvent : Type := { re_event_id : string; re_seq : Z; re_draft : RunEventDraft }.

(** ** Reading a payload *)

Definition usageStep (data : ModelUsageData) : Z :=
  match data with LegacyUsage step _ _ _ _ | CompleteUsage step _ _ _ _ _ | PartialUsage step _ _ _ _ _ => step end.
Definition isPhase8ModelUsageData (data : ModelUsageData) : bool :=
  match data with LegacyUsage _ _ _ _ _ => false | _ => true end.
Definition isTerminalRunEvent (draft : RunEventDraft) : bool :=
  match draft with
  | ev_run_completed _ | ev_run_incomplete _ | ev_run_failed _ | ev_run_cancelled _
  | ev_run_budget_exceeded _ => true
  | _ => false
  end.

Definition evidenceChanges (evidence : PersistedEvidence) : list ChangedFileEvidence :=
  match evidence with CompletedEvidence e => cev_changedByRun e | IncompletedEvidence e => iev_changedByRun e end.
Definition evidenceVerifications (evidence : PersistedEvidence) : list VerificationEvidence :=
  match evidence with CompletedEvidence e => cev_verifications e | IncompletedEvidence e => iev_verifications e end.
Definition evidenceNarrative (evidence : PersistedEvidence) : jstring :=
  match evidence with CompletedEvidence e => cev_modelNarrative e | IncompletedEvidence e => iev_modelNarrative e end.
Definition evidenceRunId (evidence : PersistedEvidence) : string :=
  match evidence with CompletedEvidence e => cev_runId e | IncompletedEvidence e => iev_runId e end.
Definition evidenceSessionId (evidence : PersistedEvidence) : string :=
  match evidence with CompletedEvidence e => cev_sessionId e | IncompletedEvidence e => iev_sessionId e end.
Definition evidenceScope (evidence : PersistedEvidence) : option GoalRevisionAttributionScope :=
  match evidence with
  | CompletedEvidence e => cev_attributionScope e
  | IncompletedEvidence e => iev_attributionScope e
  end.

(** ** Refinements of the schemas *)

Notation present o := (match o with Some _ => true | None => false end) (only parsing).

Definition agentStepCompletedSchema (d : AgentStepCompletedPayload) : bool :=
  negb (((asc_outcome d === outcome_tool_call) && negb (present (asc_tool_call_id d))) ||
        ((asc_outcome d === outcome_final) && present (asc_tool_call_id d))).

Definition toolCallCompletedSchema (d : ToolCallCompletedPayload) : bool :=
  let fields := [present (tcc_error_category d); present (tcc_error_code d); present (tcc_retryable d)] in
  negb (((tcc_status d === tool_error) && existsb negb fields) ||
        ((tcc_status d === tool_success) && existsb id fields)).

Definition permissionEvaluatedSchema (d : PermissionEvaluatedPayload) : bool :=
  negb (((pev_effect d === allow_effect) && present (pev_reason_code d)) ||
        ((pev_effect d !== allow_effect) && negb (present (pev_reason_code d)))).

Definition commandExecutionRequestedSchema (d : CommandRequestedPayload) : bool :=
  head (crq_redacted_argv d) === Some (crq_executable d).

Definition commandOutputSchema (d : CommandOutputPayload) : bool :=
  (0 <? length (cop_chunk d))%nat && (cop_bytes d =? byteLength (cop_chunk d)).

Definition commandCompletedSchema (d : CommandCompletedPayload) : bool :=
  let exitShape := present (ccp_exit_code d) && negb (present (ccp_signal d)) in
  let signalShape := negb (present (ccp_exit_code d)) && present (ccp_signal d) in
  let conflictingObservedTermination := present (ccp_exit_code d) && present (ccp_signal d) in
  (ccp_total_bytes d =? ccp_stdout_bytes d + ccp_stderr_bytes d) &&
  negb (((ccp_termination d === term_exit) && negb exitShape) ||
        ((ccp_termination d === term_signal) && negb signalShape) ||
        ((ccp_termination d !== term_exit) && (ccp_termination d !== term_signal) &&
         conflictingObservedTermination)) &&
  (ccp_termination d !== term_stale).

Definition verificationCompletedSchema (d : VerificationCompletedPayload) : bool :=
  let snapshotChanged := vcp_before_snapshot_sha256 d !== vcp_after_snapshot_sha256 d in
  let generationChanged := negb (vcp_started_generation d =? vcp_completed_generation d) in
  let shouldBeStale := snapshotChanged || generationChanged || (0 <? length (vcp_stale_reasons d))%nat in
  eqb (vcp_stale d) shouldBeStale && eqb (vcp_status d === vst_stale) (vcp_stale d) &&
  negb ((vcp_status d === vst_passed) && ((vcp_exit_code d !== Some 0) || vcp_stale d)) &&
  negb ((vcp_status d === vst_failed) && ((vcp_exit_code d === Some 0) || vcp_stale d)) &&
  eqb (bool_decide (generation_changed ∈ vcp_stale_reasons d)) generationChanged &&
  eqb (bool_decide (stale_source_state_changed ∈ vcp_stale_reasons d)) snapshotChanged &&
  bool_decide (NoDup (vcp_stale_reasons d)).

Definition completionEvaluatedSchema (d : CompletionEvaluatedPayload) : bool :=
  let hasEvidence := present (cvp_evidence_sha256 d) in
  let hasReport := present (cvp_report_sha256 d) in
  let empty {A} (l : list A) := (length l =? 0)%nat in
  eqb hasEvidence hasReport &&
  eqb (cvp_effect d === effect_error) (present (cvp_error_code d)) &&
  negb ((cvp_effect d === effect_accept) &&
        (negb (empty (cvp_reasons d)) || negb hasEvidence || negb hasReport || empty (cvp_verification_ids d) ||
         empty (cvp_changed_paths d) || negb (present (cvp_diff_stat d)))) &&
  negb ((cvp_effect d === effect_continue) && (empty (cvp_reasons d) || hasEvidence || hasReport)) &&
  negb ((cvp_effect d === effect_incomplete) &&
        (empty (cvp_reasons d) || negb hasEvidence || negb hasReport || negb (present (cvp_diff_stat d)))) &&
  negb ((cvp_effect d === effect_error) &&
        (negb (empty (cvp_reasons d)) || hasEvidence || hasReport || negb (empty (cvp_changed_paths d)) ||
         present (cvp_diff_stat d) || negb (empty (cvp_verification_ids d)))) &&
  bool_decide (NoDup (cvp_reasons d)) && bool_decide (NoDup (cvp_verification_ids d)) &&
  bool_decide (NoDup (cvp_changed_paths d)).

Definition runCompletedSchema (d : RunCompletedPayload) : bool :=
  let hasEvidence := present (rcp_evidence_sha256 d) in
  let hasReport := present (rcp_report_sha256 d) in
  eqb hasEvidence hasReport &&
  negb ((rcp_completion_mode d === Some mode_verified_finish_task) && (negb hasEvidence || negb hasReport)) &&
  negb (((rcp_completion_mode d === Some mode_model_final) || (rcp_completion_mode d === Some mode_plan_ready)) &&
        (hasEvidence || hasReport)).

Definition runIncompleteSchema (d : RunIncompletePayload) : bool :=
  eqb (present (rip_evidence_sha256 d)) (present (rip_report_sha256 d)).

(** The refinements of [runEventSchema]. *)
Definition runEventSchema (draft : RunEventDraft) : bool :=
  match draft with
  | ev_agent_step_completed d => agentStepCompletedSchema d
  | ev_tool_call_completed d => toolCallCompletedSchema d
  | ev_permission_evaluated d => permissionEvaluatedSchema d
  | ev_command_requested d => commandExecutionRequestedSchema d
  | ev_command_output d => commandOutputSchema d
  | ev_command_completed d => commandCompletedSchema d
  | ev_verification_completed d => verificationCompletedSchema d
  | ev_completion_evaluated d => completionEvaluatedSchema d
  | ev_run_completed d => runCompletedSchema d
  | ev_run_incomplete d => runIncompleteSchema d
  | _ => true
  end.
