(* ===== verification/RunLog.v ===== *)
(** * The run events of a session log

    [src/events/event-decoder-registry.ts], [stored-event-v2.ts] and
    [context/context-event-schema.ts]: the decoded events of the runs of a
    session, as the readers of a log see them: the events a publisher writes,
    and those that are written beside it.  Events of the session scope are not
    in the list; the readers skip them.  A type that no modelled reader looks at
    is [log_other]. *)

From S2P Require Import Prelude JsString Domain Events Patch Completion RunEvents.
#[local] Open Scope Z_scope.

(** ** Payloads *)

Record CheckpointCreatedPayload : Type := {
  chk_adapter : string; chk_adapter_version : string; chk_bytes : Z; chk_checkpoint_id : string;
  chk_codec_version : string; chk_model : string; chk_provider : string; chk_ref : string;
  chk_sha256 : string; chk_turn : Z }.

Record CanonicalBoundaryPayload : Type := { cbd_pending_call : bool; cbd_turn : Z }.

Record PendingCallAdoptedPayload : Type := {
  pad_call_id : string; pad_checkpoint_id : string; pad_source_call_id : string; pad_source_run_id : string;
  pad_step : Z; pad_tool_name : string }.

(** [tool.call.recovered]: the fields of a completion, and the run it is from. *)
Record ToolCallRecoveredPayload : Type := {
  trc_result : ToolCallCompletedPayload; trc_source_run_id : string }.

Record ContextEstimatePayload : Type := {
  cxe_absolute_input_tokens : Z; cxe_compaction_target_tokens : Z; cxe_epoch : Z;
  cxe_estimated_input_tokens : Z; cxe_step : Z }.
Record ContextCompactionPayload : Type := {
  cxc_estimated_input_tokens : Z; cxc_from_epoch : Z; cxc_step : Z; cxc_target_input_tokens : Z;
  cxc_to_epoch : Z }.
Record ContextPlanPayload : Type := {
  cxp_canonical_context_sha256 : string; cxp_compacted : bool; cxp_epoch : Z;
  cxp_estimated_input_tokens : Z; cxp_step : Z }.
Record ModelRequestEncodedPayload : Type := {
  mre_canonical_context_sha256 : string; mre_epoch : Z; mre_step : Z }.
Record ContextFailurePayload : Type := {
  cxf_epoch : Z; cxf_estimated_input_tokens : Z; cxf_limit_input_tokens : Z; cxf_reason : AgentBudgetReason;
  cxf_step : Z }.

(** The context events; the last one stands for the events of the repository
    that only mark a run as one with a durable context. *)
Inductive ContextEvent : Type :=
| context_estimate_created (data : ContextEstimatePayload)
| context_compaction_started (data : ContextCompactionPayload)
| context_plan_created (data : ContextPlanPayload)
| model_request_encoded (data : ModelRequestEncodedPayload)
| context_compaction_failed (data : ContextFailurePayload)
| context_repository_observed.

Record McpCallIdentity : Type := {
  mci_action_sha256 : string; mci_call_id : string; mci_server_id : string; mci_step : Z }.
Record McpCallCompletedPayload : Type := {
  mcc_id : McpCallIdentity; mcc_artifact_ref : option string; mcc_bytes : Z; mcc_mapper_version : string;
  mcc_observation : jstring; mcc_observation_sha256 : string; mcc_status : ToolStatus; mcc_truncated : bool }.

Inductive McpEvent : Type :=
| mcp_server_start_requested (server_id action_sha256 : string)
| mcp_server_start_failed (server_id : string)
| mcp_server_start_effect_unknown (server_id action_sha256 : string)
| mcp_server_started (server_id action_sha256 process_identity_sha256 : string)
| mcp_server_stopped (server_id : string)
| mcp_tool_call_started (data : McpCallIdentity)
| mcp_tool_call_effect_unknown (data : McpCallIdentity)
| mcp_tool_call_completed (data : McpCallCompletedPayload).

(** ** Events *)

Inductive RunLogData : Type :=
| log_event (draft : RunEventDraft)
| log_checkpoint (data : CheckpointCreatedPayload)
| log_boundary (data : CanonicalBoundaryPayload)
| log_adopted (data : PendingCallAdoptedPayload)
| log_recovered (data : ToolCallRecoveredPayload)
| log_context (event : ContextEvent)
| log_mcp (event : McpEvent)
| log_other (type : string).

(** [DecodedRunEvent] *)
Record DecodedRunEvent : Type := {
  de_sessionId : string; de_runId : string; de_runSeq : Z; de_sessionSeq : Z; de_data : RunLogData }.

Notation logged d := (log_event d) (only parsing).

Definition draftOf (event : DecodedRunEvent) : option RunEventDraft :=
  match de_data event with log_event draft => Some draft | _ => None end.

(** ** State machines over the runs of a log

    The readers of a session log keep a state for each run: [run.started] makes
    it, and every later event of the run changes it, or is refused when there is
    none.  [run_invariant] is the induction that all of them share: what holds
    of a run state and the log up to it, for every run. *)

(** ** What the log says *)

(** An event of the run [r] with [data] stands in [k] after [pre]. *)
Definition at_run (k pre : list DecodedRunEvent) (r : string) (data : RunLogData) : Prop :=
  exists event post, k = pre ++ event :: post /\ de_runId event = r /\ de_data event = data.

Lemma at_run_app k k' pre r data : at_run k pre r data -> at_run (k ++ k') pre r data.
Proof. intros (event & post & -> & Hr & Hd). exists event, (post ++ k'). by rewrite <-app_assoc. Qed.
Lemma at_run_last k x : at_run (k ++ [x]) k (de_runId x) (de_data x).
Proof. by exists x, []. Qed.

(** A split of a log with one more event. *)
Lemma split_snoc {A} (k pre post : list A) x y :
  k ++ [x] = pre ++ y :: post ->
  (post = [] /\ pre = k /\ y = x) \/ (exists post', post = post' ++ [x] /\ k = pre ++ y :: post').
Proof.
  destruct post as [|z post _] using rev_ind; intros H.
  - left. by apply app_inj_tail in H as [-> ->].
  - right. exists post. rewrite app_comm_cons, app_assoc in H. by apply app_inj_tail in H as [-> ->].
Qed.

Lemma at_run_snoc k x pre r data :
  at_run (k ++ [x]) pre r data -> (pre = k /\ de_runId x = r /\ de_data x = data) \/ at_run k pre r data.
Proof.
  intros (event & post & [(-> & -> & ->)|(post' & -> & ->)]%split_snoc & Hr & Hd); [by left|].
  right. by exists event, post'.
Qed.

(** The runs that the log starts. *)
Definition runStarts (k : list DecodedRunEvent) : list string :=
  omap (fun event => match de_data event with log_event (ev_run_started _) => Some (de_runId event) | _ => None end) k.
Lemma runStarts_app k k' : runStarts (k ++ k') = runStarts k ++ runStarts k'.
Proof. apply omap_app. Qed.

Definition isRunStart (data : RunLogData) : bool :=
  match data with log_event (ev_run_started _) => true | _ => false end.

Lemma runStarts_one x : runStarts [x] = if isRunStart (de_data x) then [de_runId x] else [].
Proof. unfold runStarts. cbn. by destruct (de_data x) as [[]| | | | | | |]. Qed.

(** ** The induction *)

Section Fold.
Context {M S Error : Type} (step : M -> DecodedRunEvent -> result Error M) (runsOf : M -> gmap string S) (initial : M).
Context (P : list DecodedRunEvent -> string -> S -> Prop).
Hypothesis initial_empty : runsOf initial = ∅.

(** An event of another run keeps it. *)
Hypothesis P_other : forall k x r s, de_runId x <> r -> P k r s -> P (k ++ [x]) r s.
(** The start of a run makes it. *)
Hypothesis P_start : forall m x m' k, isRunStart (de_data x) = true -> step m x = Ok m' ->
  (forall event, event ∈ k -> de_runId event <> de_runId x) ->
  exists s, runsOf m' = <[de_runId x := s]> (runsOf m) /\ P (k ++ [x]) (de_runId x) s.
(** An event of the run keeps it. *)
Hypothesis P_step : forall m x m' k, isRunStart (de_data x) = false -> step m x = Ok m' ->
  (forall r s, runsOf m !! r = Some s -> P k r s) ->
  exists s s', runsOf m !! de_runId x = Some s /\ runsOf m' = <[de_runId x := s']> (runsOf m) /\
    P (k ++ [x]) (de_runId x) s'.

Definition runs_inv (k : list DecodedRunEvent) (m : M) : Prop :=
  NoDup (runStarts k) -> forall r,
  match runsOf m !! r with
  | Some s => r ∈ runStarts k /\ P k r s
  | None => forall event, event ∈ k -> de_runId event <> r
  end.

Lemma runs_inv_step k m x m' : runs_inv k m -> step m x = Ok m' -> runs_inv (k ++ [x]) m'.
Proof.
  intros Hk Hstep Hnd r. rewrite runStarts_app, runStarts_one in Hnd. pose proof Hnd as (Hn1 & Hn2 & _)%list.NoDup_app.
  specialize (Hk Hn1). rewrite runStarts_app, runStarts_one. destruct (isRunStart (de_data x)) eqn:Ex.
  - assert (Hnew : forall event, event ∈ k -> de_runId event <> de_runId x).
    { specialize (Hk (de_runId x)). destruct (runsOf m !! de_runId x); [|done]. destruct Hk as [Hin _].
      destruct (Hn2 _ Hin). set_solver. }
    destruct (P_start m x m' k Ex Hstep Hnew) as (s & -> & Hs).
    destruct (decide (de_runId x = r)) as [<-|Hr]; [rewrite lookup_insert_eq; split; [set_solver|done]|].
    rewrite lookup_insert_ne by done. specialize (Hk r). destruct (runsOf m !! r) as [s'|]; [|set_solver].
    destruct Hk as [Hin Hs']. split; [set_solver|by apply P_other].
  - rewrite app_nil_r. assert (Hruns : forall r s, runsOf m !! r = Some s -> P k r s).
    { intros r' s' Hr'. specialize (Hk r'). rewrite Hr' in Hk. apply Hk. }
    destruct (P_step m x m' k Ex Hstep Hruns) as (s & s' & Hs & -> & Hs').
    destruct (decide (de_runId x = r)) as [<-|Hr].
    + rewrite lookup_insert_eq. specialize (Hk (de_runId x)). rewrite Hs in Hk. split; [apply Hk|done].
    + rewrite lookup_insert_ne by done. specialize (Hk r). destruct (runsOf m !! r) as [s1|]; [|set_solver].
      destruct Hk as [Hin Hs1]. split; [done|by apply P_other].
Qed.

(** What holds of every run of an accepted log. *)
Lemma run_invariant events m : foldM step events initial = Ok m -> runs_inv events m.
Proof.
  apply foldM_prefix with (I := runs_inv); [|intros; by eapply runs_inv_step].
  intros _ r. rewrite initial_empty, lookup_empty. set_solver.
Qed.

(** An event of an accepted log, with the states of the runs before it. *)
Lemma run_event events m pre x post :
  foldM step events initial = Ok m -> NoDup (runStarts events) -> events = pre ++ x :: post ->
  exists mid mid', foldM step pre initial = Ok mid /\ step mid x = Ok mid' /\
    forall r s, runsOf mid !! r = Some s -> P pre r s.
Proof.
  intros Hm Hnd ->. rewrite foldM_app in Hm. apply bind_ok in Hm as (mid & Hpre & Hm). cbn in Hm.
  destruct (step mid x) as [mid'|] eqn:Ex; [|done]. exists mid, mid'. split_and!; [done..|]. intros r s Hr.
  rewrite runStarts_app in Hnd. apply list.NoDup_app in Hnd as (Hnd & _ & _).
  pose proof (run_invariant _ _ Hpre Hnd r) as H. rewrite Hr in H. apply H.
Qed.
End Fold.
