(* ===== verification/EventPublisher.v ===== *)
(** * The event publisher of a run

    [src/events/event-publisher.ts] and [verification-evidence-binding.ts]: the
    state machine through which every event of a run reaches the session log.
    [publish] validates a draft against the state, stamps and writes it, and
    only then applies it.  An agent run awaits each publication before the next
    one, so an operation is one step; the writer's answer, the renderer's and
    the attribution callback's are its inputs.  Maps that the source iterates
    are insertion-ordered, the others are finite maps. *)

From S2P Require Import Prelude JsString CanonicalJson Domain Events Schemas Permissions Patch SourceSnapshot Completion Verification CompletionRuntime CollaborativeCompletion JsonParse RunEvents.
From stdpp Require Import sorting.
#[local] Open Scope Z_scope.

(** ** State *)

Record AgentStepState : Type := {
  as_completed : bool; as_modelUsage : option ModelUsageData; as_outcome : option StepOutcome;
  as_textChars : Z; as_toolCallId : option string }.
#[export] Instance AgentStepState_eta : Eta AgentStepState := fun r =>
  Build_AgentStepState (as_completed r) (as_modelUsage r) (as_outcome r) (as_textChars r) (as_toolCallId r).

Record ToolCallState : Type := {
  tc_argumentsJson : jstring; tc_completed : bool; tc_name : string; tc_step : Z }.
#[export] Instance ToolCallState_eta : Eta ToolCallState := fun r =>
  Build_ToolCallState (tc_argumentsJson r) (tc_completed r) (tc_name r) (tc_step r).

Record PatchPlanState : Type := {
  pp_planId : string; pp_ruleManifestSha256 : option string; pp_ruleScopeSetSha256 : option string;
  pp_step : Z }.

Inductive ActionKind : Type := action_apply_patch | action_run_command.
#[export] Instance ActionKind_eq : EqDecision ActionKind.
Proof. solve_decision. Defined.

Record ApprovalState : Type := {
  ap_actionKind : ActionKind; ap_actionSha256 : string; ap_callId : string;
  ap_decision : option ApprovalDecision; ap_requestId : string; ap_planId : option string;
  ap_ruleManifestSha256 : option string; ap_ruleScopeSetSha256 : option string; ap_step : Z }.
#[export] Instance ApprovalState_eta : Eta ApprovalState := fun r =>
  Build_ApprovalState (ap_actionKind r) (ap_actionSha256 r) (ap_callId r) (ap_decision r) (ap_requestId r)
    (ap_planId r) (ap_ruleManifestSha256 r) (ap_ruleScopeSetSha256 r) (ap_step r).

Record PatchApplyState : Type := {
  pa_approvalRequestId : string; pa_completed : bool; pa_completedData : option PatchApplyCompletedPayload;
  pa_files : list PatchFileStarted; pa_planId : string; pa_ruleManifestSha256 : option string;
  pa_ruleScopeSetSha256 : option string; pa_step : Z }.
#[export] Instance PatchApplyState_eta : Eta PatchApplyState := fun r =>
  Build_PatchApplyState (pa_approvalRequestId r) (pa_completed r) (pa_completedData r) (pa_files r)
    (pa_planId r) (pa_ruleManifestSha256 r) (pa_ruleScopeSetSha256 r) (pa_step r).

Record PermissionState : Type := { pm_actionSha256 : string; pm_effect : PermissionEffect; pm_step : Z }.

Record CommandExecutionState : Type := {
  cx_actionSha256 : string; cx_callId : string; cx_cleanupVerified : option bool; cx_completed : bool;
  cx_completedData : option CommandCompletedPayload; cx_executionId : string;
  cx_output : list CommandOutputPayload; cx_purpose : CommandPurpose;
  cx_requestedData : CommandRequestedPayload; cx_step : Z; cx_stderrBytes : Z; cx_stderrChunks : Z;
  cx_stdoutBytes : Z; cx_stdoutChunks : Z; cx_started : bool }.
#[export] Instance CommandExecutionState_eta : Eta CommandExecutionState := fun r =>
  Build_CommandExecutionState (cx_actionSha256 r) (cx_callId r) (cx_cleanupVerified r) (cx_completed r)
    (cx_completedData r) (cx_executionId r) (cx_output r) (cx_purpose r) (cx_requestedData r) (cx_step r)
    (cx_stderrBytes r) (cx_stderrChunks r) (cx_stdoutBytes r) (cx_stdoutChunks r) (cx_started r).

Record VerificationState : Type := {
  vf_completed : option VerificationCompletedPayload; vf_started : VerificationStartedPayload }.
#[export] Instance VerificationState_eta : Eta VerificationState := fun r =>
  Build_VerificationState (vf_completed r) (vf_started r).

Record CompletionCandidateState : Type := {
  cc_candidate : CompletionCandidatePayload; cc_evaluated : option CompletionEvaluatedPayload }.
#[export] Instance CompletionCandidateState_eta : Eta CompletionCandidateState := fun r =>
  Build_CompletionCandidateState (cc_candidate r) (cc_evaluated r).

Record EventPublisher : Type := {
  activeAgentStep : option Z;
  adoptedCalls : gset string;
  approvals : jsmap string ApprovalState;
  agentSteps : jsmap Z AgentStepState;
  command : option RunCommand;
  backendSelected : option BackendSelectedPayload;
  startedModel : option string;
  startedProvider : option string;
  taskProfile : option TaskProfile;
  taskProfileExplicit : bool;
  phase16AgentMode : option AgentMode;
  outputChars : Z;
  seq : Z;
  started : bool;
  terminal : bool;
  toolCalls : jsmap string ToolCallState;
  commandExecutions : jsmap string CommandExecutionState;
  commandExecutionsByCall : gmap string string;
  completionCandidates : gmap string CompletionCandidateState;
  completionEvidence : gmap string CompletionEvidencePayload;
  patchApplies : jsmap string PatchApplyState;
  patchPlans : gmap string PatchPlanState;
  permissions : gmap string PermissionState;
  recoveredCallData : gmap string ToolCallCompletedPayload;
  resumeMode : option ResumeMode;
  resumeOfRunId : option string;
  persistedEvents : list RunEvent;
  verifications : jsmap string VerificationState;
  usagePublished : bool;
  verificationGeneration : Z;
}.
#[export] Instance EventPublisher_eta : Eta EventPublisher := fun r =>
  Build_EventPublisher (activeAgentStep r) (adoptedCalls r) (approvals r) (agentSteps r) (command r)
    (backendSelected r) (startedModel r) (startedProvider r) (taskProfile r) (taskProfileExplicit r)
    (phase16AgentMode r) (outputChars r) (seq r) (started r) (terminal r) (toolCalls r) (commandExecutions r)
    (commandExecutionsByCall r) (completionCandidates r) (completionEvidence r) (patchApplies r)
    (patchPlans r) (permissions r) (recoveredCallData r) (resumeMode r) (resumeOfRunId r)
    (persistedEvents r) (verifications r) (usagePublished r) (verificationGeneration r).

Definition initialPublisher : EventPublisher := {|
  activeAgentStep := None; adoptedCalls := ∅; approvals := []; agentSteps := []; command := None;
  backendSelected := None; startedModel := None; startedProvider := None; taskProfile := None;
  taskProfileExplicit := false; phase16AgentMode := None; outputChars := 0; seq := 0; started := false;
  terminal := false; toolCalls := []; commandExecutions := []; commandExecutionsByCall := ∅;
  completionCandidates := ∅; completionEvidence := ∅; patchApplies := []; patchPlans := ∅;
  permissions := ∅; recoveredCallData := ∅; resumeMode := None; resumeOfRunId := None;
  persistedEvents := []; verifications := []; usagePublished := false; verificationGeneration := 0 |}.

(** The [Error] of a refused transition with its message, the [ZodError] of a
    payload, the failed write, a failed canonical encoding, and what the
    renderer throws. *)
Inductive PublishError : Type :=
| TransitionRefused (message : string)
| SchemaRefused
| EventPersistenceError
| EncodingFailed (error : encode_error)
| RenderFailed.

Definition refuse_when (b : bool) (message : string) : result PublishError () :=
  throw_when b (TransitionRefused message).
Definition encoded {A} (r : result encode_error A) : result PublishError A :=
  match r with Ok a => Ok a | Err e => Err (EncodingFailed e) end.

(** What [completionAttribution] answers at the time of the call. *)
Record CompletionAttribution : Type := {
  ca_changedPaths : list jstring; ca_scope : GoalRevisionAttributionScope }.

(** ** Helpers of the module *)

Definition approvalActionSha256 (action : ApprovalAction) : string :=
  match action with
  | ApplyPatchAction action_sha256 plan_id _ _ => default plan_id action_sha256
  | RunCommandAction action_sha256 => action_sha256
  end.
Definition approvalActionKind (action : ApprovalAction) : ActionKind :=
  match action with ApplyPatchAction _ _ _ _ => action_apply_patch | RunCommandAction _ => action_run_command end.

Definition REGISTRY_PRE_EXECUTION_ERROR_CODES : list string :=
  ["arguments_schema_mismatch"; "arguments_too_large"; "invalid_arguments_json"; "tool_cancelled"]%string.

Definition isPreExecutionToolError (data : ToolCallCompletedPayload) : bool :=
  (tcc_status data === tool_error) &&
  ((tcc_error_category data === Some error_permission) ||
   match tcc_error_code data with
   | Some code => bool_decide (code ∈ REGISTRY_PRE_EXECUTION_ERROR_CODES)
   | None => false
   end).

(** Every field the event has is compared. *)
Definition recoveredCompletionMatches (recovered completed : ToolCallCompletedPayload) : bool :=
  recovered === completed.

Definition fileMatches (expected : PatchFileStarted) (actual : PatchFileCompleted) : bool :=
  (pfd_kind actual === pfs_kind expected) && (pfd_path actual === pfs_path expected) &&
  (pfd_pre_sha256 actual === pfs_pre_sha256 expected) &&
  match pfs_post_sha256 expected with Some post => pfd_post_sha256 actual === post | None => true end.
Fixpoint patchCompletionMatchesStarted (started : list PatchFileStarted) (completed : list PatchFileCompleted)
  : bool :=
  match started, completed with
  | [], [] => true
  | expected :: started, actual :: completed =>
      fileMatches expected actual && patchCompletionMatchesStarted started completed
  | _, _ => false
  end.

Definition finishStatusText (status : FinishStatus) : jstring :=
  match status with finish_blocked => js "blocked" | finish_completed => js "completed" end.
Definition isText (v : option jvalue) (text : jstring) : bool :=
  match v with Some (VString s) => s === text | _ => false end.
Definition finishArgumentsMatch (argumentsJson : jstring) (candidate : CompletionCandidatePayload) : bool :=
  match jsonParse argumentsJson with
  | Ok (VObject record) =>
      (joinUnit comma (sortText (fst <$> record)) === js "status,summary") &&
      isText (jm_get (js "status") record) (finishStatusText (ccd_status candidate)) &&
      isText (jm_get (js "summary") record) (ccd_summary candidate)
  | _ => false
  end.

(** ** Getters *)

Definition completedToolCalls (st : EventPublisher) : Z :=
  Z.of_nat (length (List.filter tc_completed (jm_values (toolCalls st)))).
Definition stepCount (st : EventPublisher) : Z := Z.of_nat (length (agentSteps st)).

Section Publisher.
(** [createHash("sha256")] on bytes, and [localeCompare] as an order. *)
Variable sha256Bytes : list Z -> string.
Variable localeLe : jstring -> jstring -> bool.
Variables runId sessionId : string.

Definition patchActionSha256 (planId : string) (ruleManifestSha256 ruleScopeSetSha256 : option string)
  : result PublishError string :=
  match ruleManifestSha256, ruleScopeSetSha256 with
  | None, None => Ok planId
  | Some manifest, Some scopes =>
      encoded (sha256Canonical (sha256Text sha256Bytes) (JObj [
        (js "actionKind", JStr (js "apply_patch")); (js "manifestSha256", JStr (js manifest));
        (js "planId", JStr (js planId)); (js "ruleScopeSetSha256", JStr (js scopes))]))
  | _, _ => Err (TransitionRefused "patch rule scope identity is incomplete")
  end.

Definition completionChangedPaths (attribution : option CompletionAttribution) (st : EventPublisher)
  : list jstring :=
  match attribution with
  | Some a => ca_changedPaths a
  | None =>
      netChangedPaths (omap (fun apply =>
        data ← pa_completedData apply;
        Some ((fun file => {| cpf_path := pfd_path file; cpf_post_sha256 := pfd_post_sha256 file;
                              cpf_pre_sha256 := pfd_pre_sha256 file |}) <$> pac_files data))
        (jm_values (patchApplies st)))
  end.

Definition completionScopeMatches (attribution : option CompletionAttribution)
  (scope : option GoalRevisionAttributionScope) : result PublishError bool :=
  match attribution, scope with
  | None, None => Ok true
  | None, Some _ | Some _, None => Ok false
  | Some expected, Some scope =>
      a ← encoded (sha256Canonical (sha256Text sha256Bytes) (scopeJson scope));
      b ← encoded (sha256Canonical (sha256Text sha256Bytes) (scopeJson (ca_scope expected)));
      Ok (a === b)
  end.

(** ** Verification evidence

    [verification-evidence-binding.ts]. *)

Record VerificationEventFacts : Type := {
  vef_commandCompleted : CommandCompletedPayload; vef_commandOutput : list CommandOutputPayload;
  vef_commandRequested : CommandRequestedPayload; vef_verificationCompleted : VerificationCompletedPayload;
  vef_verificationStarted : VerificationStartedPayload }.

Definition completionVerificationIdsMatch (evidence : PersistedEvidence) (verificationIds : list string) : bool :=
  (ve_verificationId <$> evidenceVerifications evidence) === (Some <$> verificationIds).

Definition channelText (channel : OutputChannel) (output : list CommandOutputPayload) : jstring :=
  concat (cop_chunk <$> List.filter (fun event => cop_channel event === channel) output).

(** The comparisons that need no digest. *)
Definition verificationFieldsMatch (evidence : VerificationEvidence) (facts : VerificationEventFacts)
    (hasCompletedUnclassifiedVerification : bool) : bool :=
  let requested := vef_commandRequested facts in
  let completed := vef_commandCompleted facts in
  let vstarted := vef_verificationStarted facts in
  let vcompleted := vef_verificationCompleted facts in
  (ve_actionSha256 evidence === ci_action_sha256 (crq_id requested)) &&
  (ve_actionSha256 evidence === vid_action_sha256 (vsp_id vstarted)) &&
  (ve_actionSha256 evidence === vid_action_sha256 (vcp_id vcompleted)) &&
  ve_approved evidence &&
  (ve_argv evidence === crq_redacted_argv requested) &&
  (ve_cwd evidence === crq_cwd requested) &&
  (ve_classification evidence === vsp_kind vstarted) &&
  ve_completedEventPersisted evidence &&
  (ve_durationMs evidence =? ccp_duration_ms completed) &&
  (ve_durationMs evidence =? vcp_duration_ms vcompleted) &&
  (ve_executionId evidence === ci_execution_id (crq_id requested)) &&
  (ve_executionId evidence === vid_command_execution_id (vsp_id vstarted)) &&
  (ve_executionId evidence === vid_command_execution_id (vcp_id vcompleted)) &&
  (ve_exitCode evidence === vcp_exit_code vcompleted) &&
  (ve_generationAtStart evidence =? vsp_generation vstarted) &&
  (ve_generationAtStart evidence =? vcp_started_generation vcompleted) &&
  (ve_generationAtCompletion evidence =? vcp_completed_generation vcompleted) &&
  (ve_inputsKnown evidence || hasCompletedUnclassifiedVerification) &&
  (length (coe_artifactRefs (ve_output evidence)) =? 0)%nat &&
  (coe_eventRefs (ve_output evidence) === [("command:" +:+ ci_execution_id (crq_id requested))%string]) &&
  (coe_stderrSummary (ve_output evidence) === summarize (channelText channel_stderr (vef_commandOutput facts))) &&
  (coe_stdoutSummary (ve_output evidence) === summarize (channelText channel_stdout (vef_commandOutput facts))) &&
  (coe_totalBytes (ve_output evidence) =? ccp_total_bytes completed) &&
  eqb (coe_truncated (ve_output evidence)) (ccp_truncated completed) &&
  (crq_purpose requested === purpose_verify) &&
  eqb (ve_stale evidence) (vcp_stale vcompleted).

Definition verificationMatchesEvents (resolve : string -> option VerificationEventFacts)
    (hasCompletedUnclassifiedVerification : bool) (evidence : VerificationEvidence) : result PublishError bool :=
  match ve_verificationId evidence ≫= resolve with
  | None => Ok false
  | Some facts =>
      if verificationFieldsMatch evidence facts hasCompletedUnclassifiedVerification then
        before ← encoded (hashVerificationSnapshot sha256Bytes localeLe (ve_beforeSnapshot evidence));
        after ← encoded (hashVerificationSnapshot sha256Bytes localeLe (ve_afterSnapshot evidence));
        Ok ((before === vsp_snapshot_sha256 (vef_verificationStarted facts)) &&
            (before === vcp_before_snapshot_sha256 (vef_verificationCompleted facts)) &&
            (after === vcp_after_snapshot_sha256 (vef_verificationCompleted facts)))
      else Ok false
  end.

(** [every], which stops at the first verification that does not match. *)
Fixpoint completionVerificationsMatchEvents (resolve : string -> option VerificationEventFacts)
    (hasCompletedUnclassifiedVerification : bool) (evidence : list VerificationEvidence)
  : result PublishError bool :=
  match evidence with
  | [] => Ok true
  | v :: evidence =>
      b ← verificationMatchesEvents resolve hasCompletedUnclassifiedVerification v;
      if b : bool then completionVerificationsMatchEvents resolve hasCompletedUnclassifiedVerification evidence
      else Ok false
  end.

(** The facts of a verification the publisher has seen. *)
Definition resolveVerification (st : EventPublisher) (verificationId : string)
  : option VerificationEventFacts :=
  verification ← jm_get verificationId (verifications st);
  execution ← jm_get (vid_command_execution_id (vsp_id (vf_started verification))) (commandExecutions st);
  completed ← vf_completed verification;
  commandCompleted ← cx_completedData execution;
  Some {| vef_commandCompleted := commandCompleted; vef_commandOutput := cx_output execution;
          vef_commandRequested := cx_requestedData execution; vef_verificationCompleted := completed;
          vef_verificationStarted := vf_started verification |}.

(** ** Agent transitions: one definition for each event type *)

Definition callCompleted (st : EventPublisher) (callId : string) : bool :=
  match jm_get callId (toolCalls st) with Some call => tc_completed call | None => false end.

(** [call] is a pending call of the tool [name] in the step [step]. *)
Definition pendingCall (st : EventPublisher) (callId name : string) (step : Z) : bool :=
  match jm_get callId (toolCalls st) with
  | Some call => (tc_name call === name) && negb (tc_completed call) && (tc_step call =? step)
  | None => false
  end.

Definition validateAgentStepStarted (d : AgentStepStartedPayload) (st : EventPublisher) : result PublishError () :=
  _ ← refuse_when ((activeAgentStep st !== None) || negb (ass_step d =? stepCount st + 1))
        "agent step must start at the next step";
  _ ← (if ass_step d =? 1 then
         let inheritedReady := existsb (callCompleted st) (elements (adoptedCalls st)) in
         refuse_when ((ass_input_kind d !== input_user_task) &&
                      negb ((ass_input_kind d === input_inherited_tool_result) &&
                            (resumeMode st === Some resume_exact) && inheritedReady))
           "first agent step must consume the user task or an adopted tool result"
       else Ok ());
  if 1 <? ass_step d then
    _ ← refuse_when (ass_input_kind d !== input_tool_result) "later agent steps must consume a tool result";
    let previous := jm_get (ass_step d - 1) (agentSteps st) in
    refuse_when
      (negb match previous with
            | Some step => as_completed step && (as_outcome step === Some outcome_tool_call) &&
                           match as_toolCallId step with Some callId => callCompleted st callId | None => false end
            | None => false
            end) "tool_result step requires a completed previous tool call"
  else Ok ().

Definition validateTextDelta (d : TextDeltaPayload) (st : EventPublisher) : result PublishError () :=
  _ ← refuse_when (activeAgentStep st === None) "agent text delta requires an active step";
  refuse_when (((taskProfile st === Some profile_coding) && (td_visibility d !== Some visible_internal_candidate)) ||
               ((taskProfile st === Some profile_read_only) && (td_visibility d === Some visible_internal_candidate)))
    "text delta visibility does not match task profile".

Definition validateModelUsage (d : ModelUsageData) (st : EventPublisher) : result PublishError () :=
  _ ← refuse_when ((activeAgentStep st !== Some (usageStep d)) ||
                   match jm_get (usageStep d) (agentSteps st) with
                   | Some step => match as_modelUsage step with Some _ => true | None => false end
                   | None => true
                   end) "model usage must appear once in its active step";
  let matches := fun provider completeness =>
    match backendSelected st with
    | Some backend => (provider === bs_provider backend) && (completeness === bs_usage backend)
    | None => false
    end in
  refuse_when (negb match d with
                    | LegacyUsage _ _ _ _ _ => false
                    | CompleteUsage _ provider _ _ _ _ => matches provider usage_complete
                    | PartialUsage _ provider _ _ _ _ => matches provider usage_partial
                    end) "new model usage must match the selected backend capability".

Definition validateAgentStepCompleted (d : AgentStepCompletedPayload) (st : EventPublisher) : result PublishError () :=
  match jm_get (asc_step d) (agentSteps st) with
  | Some step =>
      _ ← refuse_when ((activeAgentStep st !== Some (asc_step d)) || as_completed step)
            "agent step completion must match one active step";
      refuse_when (negb (asc_text_chars d =? as_textChars step))
        "agent step text_chars does not match text deltas"
  | None => Err (TransitionRefused "agent step completion must match one active step")
  end.

Definition validateToolCallRequested (d : ToolCallRequestedPayload) (st : EventPublisher) : result PublishError () :=
  refuse_when (negb match jm_get (tcr_step d) (agentSteps st) with
                    | Some step => as_completed step && (as_outcome step === Some outcome_tool_call) &&
                                   (as_toolCallId step === Some (tcr_call_id d))
                    | None => false
                    end) "agent tool request must match a tool_call step".

Definition validatePatchPlanCreated (d : PatchPlanCreatedPayload) (st : EventPublisher) : result PublishError () :=
  refuse_when (negb (pendingCall st (ppc_call_id d) "apply_patch" (ppc_step d)) ||
               match patchPlans st !! ppc_call_id d with Some _ => true | None => false end)
    "patch plan must match one pending apply_patch call".

Definition validatePermissionEvaluated (d : PermissionEvaluatedPayload) (st : EventPublisher) : result PublishError () :=
  refuse_when (negb (pendingCall st (pev_call_id d) "run_command" (pev_step d)) ||
               match permissions st !! pev_call_id d with Some _ => true | None => false end)
    "permission evaluation must match one pending run_command call".

Definition validateApprovalRequested (d : ApprovalRequestedPayload) (st : EventPublisher) : result PublishError () :=
  _ ← refuse_when (jm_has (arp_approval_request_id d) (approvals st)) "approval request id must be unique";
  _ ← refuse_when (existsb (fun approval => ap_callId approval === arp_call_id d) (jm_values (approvals st)))
        "tool call can request approval only once";
  match arp_action d with
  | ApplyPatchAction action_sha256 plan_id manifest scopes =>
      match patchPlans st !! arp_call_id d with
      | Some plan =>
          _ ← refuse_when ((pp_planId plan !== plan_id) || negb (pp_step plan =? arp_step d) ||
                           (pp_ruleManifestSha256 plan !== manifest) || (pp_ruleScopeSetSha256 plan !== scopes))
                "approval request must match one patch plan";
          match action_sha256 with
          | Some action =>
              expected ← patchActionSha256 (pp_planId plan) (pp_ruleManifestSha256 plan) (pp_ruleScopeSetSha256 plan);
              refuse_when (action !== expected) "approval request must match one patch plan"
          | None => Ok ()
          end
      | None => Err (TransitionRefused "approval request must match one patch plan")
      end
  | RunCommandAction action_sha256 =>
      refuse_when (negb (pendingCall st (arp_call_id d) "run_command" (arp_step d)) ||
                   negb match permissions st !! arp_call_id d with
                        | Some permission => (pm_effect permission === ask_effect) &&
                                             (pm_step permission =? arp_step d) &&
                                             (pm_actionSha256 permission === action_sha256)
                        | None => false
                        end) "command approval request must match an ask decision"
  end.

Definition validateApprovalDecided (d : ApprovalDecidedPayload) (st : EventPublisher) : result PublishError () :=
  match jm_get (adp_approval_request_id d) (approvals st) with
  | Some approval =>
      _ ← refuse_when ((ap_decision approval !== None) ||
                       (ap_actionKind approval !== approvalActionKind (adp_action d)) ||
                       (ap_callId approval !== adp_call_id d) ||
                       (ap_actionSha256 approval !== approvalActionSha256 (adp_action d)) ||
                       negb (ap_step approval =? adp_step d)) "approval decision must match one pending request";
      match adp_action d with
      | ApplyPatchAction _ plan_id _ _ =>
          refuse_when (ap_planId approval !== Some plan_id) "approval decision must match its patch plan"
      | RunCommandAction _ => Ok ()
      end
  | None => Err (TransitionRefused "approval decision must match one pending request")
  end.

Definition validatePatchApplyStarted (d : PatchApplyStartedPayload) (st : EventPublisher) : result PublishError () :=
  refuse_when
    (negb match jm_get (pas_approval_request_id d) (approvals st) with
          | Some approval =>
              (ap_decision approval === Some approval_approved) && (ap_callId approval === pas_call_id d) &&
              (ap_planId approval === Some (pas_plan_id d)) && (ap_step approval =? pas_step d) &&
              (ap_ruleManifestSha256 approval === pas_rule_manifest_sha256 d) &&
              (ap_ruleScopeSetSha256 approval === pas_rule_scope_set_sha256 d)
          | None => false
          end || jm_has (pas_call_id d) (patchApplies st)) "patch apply must follow its approved request".

Definition validatePatchApplyCompleted (d : PatchApplyCompletedPayload) (st : EventPublisher) : result PublishError () :=
  refuse_when
    (negb match jm_get (pac_call_id d) (patchApplies st) with
          | Some apply =>
              negb (pa_completed apply) && (pa_approvalRequestId apply === pac_approval_request_id d) &&
              (pa_planId apply === pac_plan_id d) && (pa_step apply =? pac_step d) &&
              (pa_ruleManifestSha256 apply === pac_rule_manifest_sha256 d) &&
              (pa_ruleScopeSetSha256 apply === pac_rule_scope_set_sha256 d) &&
              patchCompletionMatchesStarted (pa_files apply) (pac_files d)
          | None => false
          end) "patch completion must match one started apply".

(** The execution is the one the event's identity names. *)
Definition sameExecution (execution : CommandExecutionState) (id : CommandIdentity) : bool :=
  (cx_callId execution === ci_call_id id) && (cx_step execution =? ci_step id) &&
  (cx_actionSha256 execution === ci_action_sha256 id) &&
  (ci_executor (crq_id (cx_requestedData execution)) === ci_executor id).

Definition validateCommandRequested (d : CommandRequestedPayload) (st : EventPublisher) : result PublishError () :=
  let id := crq_id d in
  let approval := List.find (fun candidate => (ap_callId candidate === ci_call_id id) &&
                                              (ap_actionKind candidate === action_run_command))
                    (jm_values (approvals st)) in
  refuse_when
    (negb (pendingCall st (ci_call_id id) "run_command" (ci_step id)) ||
     negb match permissions st !! ci_call_id id with
          | Some permission =>
              (pm_effect permission !== deny_effect) && (pm_step permission =? ci_step id) &&
              (pm_actionSha256 permission === ci_action_sha256 id) &&
              (if pm_effect permission === ask_effect then
                 match approval with
                 | Some a => (ap_decision a === Some approval_approved) &&
                             (crq_approval_request_id d === Some (ap_requestId a)) &&
                             (ap_actionSha256 a === ci_action_sha256 id)
                 | None => false
                 end
               else crq_approval_request_id d === None)
          | None => false
          end ||
     jm_has (ci_execution_id id) (commandExecutions st) ||
     match commandExecutionsByCall st !! ci_call_id id with Some _ => true | None => false end)
    "command execution request lacks matching permission".

Definition validateCommandStarted (id : CommandIdentity) (st : EventPublisher) : result PublishError () :=
  refuse_when
    (negb match jm_get (ci_execution_id id) (commandExecutions st) with
          | Some execution => negb (cx_started execution) && negb (cx_completed execution) && sameExecution execution id
          | None => false
          end) "command start must match one execution request".

Definition channelChunks (channel : OutputChannel) (execution : CommandExecutionState) : Z :=
  match channel with channel_stdout => cx_stdoutChunks execution | channel_stderr => cx_stderrChunks execution end.

Definition validateCommandOutput (d : CommandOutputPayload) (st : EventPublisher) : result PublishError () :=
  refuse_when
    (negb match jm_get (ci_execution_id (cop_id d)) (commandExecutions st) with
          | Some execution =>
              cx_started execution && negb (cx_completed execution) && sameExecution execution (cop_id d) &&
              (cop_chunk_index d =? channelChunks (cop_channel d) execution)
          | None => false
          end) "command output must be contiguous for one active execution".

Definition validateCommandCompleted (d : CommandCompletedPayload) (st : EventPublisher) : result PublishError () :=
  refuse_when
    (negb match jm_get (ci_execution_id (ccp_id d)) (commandExecutions st) with
          | Some execution =>
              let completedBeforeStart :=
                negb (cx_started execution) &&
                ((ccp_termination d === spawn_error) || (ccp_termination d === term_cancelled)) &&
                (ccp_stdout_bytes d =? 0) && (ccp_stderr_bytes d =? 0) in
              (cx_started execution || completedBeforeStart) && negb (cx_completed execution) &&
              sameExecution execution (ccp_id d) &&
              (cx_stdoutBytes execution =? ccp_stdout_bytes d) && (cx_stderrBytes execution =? ccp_stderr_bytes d)
          | None => false
          end) "command completion must match one active execution and its bytes".

Definition validateVerificationStarted (d : VerificationStartedPayload) (st : EventPublisher) : result PublishError () :=
  let id := vsp_id d in
  refuse_when
    ((taskProfile st !== Some profile_coding) ||
     negb match jm_get (vid_command_execution_id id) (commandExecutions st) with
          | Some execution =>
              (cx_purpose execution === purpose_verify) && negb (cx_started execution) &&
              negb (cx_completed execution) && (cx_callId execution === vid_call_id id) &&
              (cx_step execution =? vid_step id) && (cx_actionSha256 execution === vid_action_sha256 id)
          | None => false
          end ||
     negb (vsp_generation d =? verificationGeneration st) ||
     jm_has (vid_verification_id id) (verifications st))
    "verification start must match one approved pending verify command".

(** The exit code counts only when the command ended by itself. *)
Definition observedExitCode (completed : CommandCompletedPayload) : option Z :=
  if ccp_termination completed === term_exit then ccp_exit_code completed else None.

Definition validateVerificationCompleted (d : VerificationCompletedPayload) (st : EventPublisher) : result PublishError () :=
  let id := vcp_id d in
  refuse_when
    (negb match jm_get (vid_verification_id id) (verifications st),
                jm_get (vid_command_execution_id id) (commandExecutions st) with
          | Some verification, Some execution =>
              match cx_completedData execution with
              | Some completed =>
                  let begun := vf_started verification in
                  (match vf_completed verification with None => true | Some _ => false end) &&
                  (cx_cleanupVerified execution === Some true) &&
                  (vid_call_id (vsp_id begun) === vid_call_id id) && (vid_step (vsp_id begun) =? vid_step id) &&
                  (vid_command_execution_id (vsp_id begun) === vid_command_execution_id id) &&
                  (vid_action_sha256 (vsp_id begun) === vid_action_sha256 id) &&
                  (vsp_generation begun =? vcp_started_generation d) &&
                  (vcp_completed_generation d =? verificationGeneration st) &&
                  (vsp_snapshot_sha256 begun === vcp_before_snapshot_sha256 d) &&
                  (ccp_duration_ms completed =? vcp_duration_ms d) &&
                  (observedExitCode completed === vcp_exit_code d) &&
                  negb ((vcp_status d === vst_passed) && (ccp_termination completed !== term_exit))
              | None => false
              end
          | _, _ => false
          end) "verification completion does not match command and start evidence".

Definition validateCompletionEvidence (attribution : option CompletionAttribution) (d : CompletionEvidencePayload)
    (st : EventPublisher) : result PublishError () :=
  let evidence := cep_evidence d in
  _ ← refuse_when ((taskProfile st !== Some profile_coding) || (evidenceRunId evidence !== runId) ||
                   (evidenceSessionId evidence !== sessionId) ||
                   match completionEvidence st !! cep_evidence_sha256 d with Some _ => true | None => false end)
        "completion evidence must be a unique projection for this run";
  let mismatch := "completion evidence does not match its attributed change journal"%string in
  _ ← refuse_when (negb (samePaths (completionChangedPaths attribution st)
                           (evidenceChangedPaths (evidenceChanges evidence)))) mismatch;
  scoped ← completionScopeMatches attribution (evidenceScope evidence);
  _ ← refuse_when (negb scoped) mismatch;
  let classifiedExecutions :=
    (fun v => vid_command_execution_id (vsp_id (vf_started v))) <$> jm_values (verifications st) in
  let hasCompletedUnclassifiedVerification :=
    existsb (fun execution => (cx_purpose execution === purpose_verify) &&
      match cx_completedData execution with Some _ => true | None => false end &&
      (cx_cleanupVerified execution === Some true) && callCompleted st (cx_callId execution) &&
      negb (bool_decide (cx_executionId execution ∈ classifiedExecutions))) (jm_values (commandExecutions st)) in
  matches ← completionVerificationsMatchEvents (resolveVerification st) hasCompletedUnclassifiedVerification
              (evidenceVerifications evidence);
  refuse_when (negb matches) "completion verification evidence does not match events".

Definition validateCompletionCandidate (d : CompletionCandidatePayload) (st : EventPublisher) : result PublishError () :=
  refuse_when
    ((taskProfile st !== Some profile_coding) ||
     negb (pendingCall st (ccd_call_id d) "finish_task" (ccd_step d)) ||
     match completionCandidates st !! ccd_call_id d with Some _ => true | None => false end ||
     negb match jm_get (ccd_call_id d) (toolCalls st) with
          | Some call => finishArgumentsMatch (tc_argumentsJson call) d
          | None => false
          end) "completion candidate must match one pending finish_task call".

Definition evidenceOutcomeIs (evidence : PersistedEvidence) (effect : CompletionEffect) : bool :=
  match evidence with
  | CompletedEvidence _ => effect === effect_accept
  | IncompletedEvidence _ => effect !== effect_accept
  end.
Definition evidenceReasonIn (evidence : PersistedEvidence) (reasons : list CompletionReason) : bool :=
  match evidence with
  | CompletedEvidence _ => true
  | IncompletedEvidence e => bool_decide (iev_reason e ∈ reasons)
  end.

(** The verification passed on the sources of the current generation. *)
Definition currentlyPassed (st : EventPublisher) (verificationId : string) : bool :=
  match jm_get verificationId (verifications st) ≫= vf_completed with
  | Some v => (vcp_status v === vst_passed) && negb (vcp_stale v) &&
              (vcp_completed_generation v =? verificationGeneration st)
  | None => false
  end.

Definition validateCompletionEvaluated (attribution : option CompletionAttribution) (d : CompletionEvaluatedPayload)
    (st : EventPublisher) : result PublishError () :=
  let pending := "completion evaluation must match one pending candidate"%string in
  match completionCandidates st !! cvp_call_id d with
  | None => Err (TransitionRefused pending)
  | Some completion =>
      _ ← refuse_when ((match cc_evaluated completion with Some _ => true | None => false end) ||
                       callCompleted st (cvp_call_id d) ||
                       negb (ccd_step (cc_candidate completion) =? cvp_step d) ||
                       (ccd_candidate_sha256 (cc_candidate completion) !== cvp_candidate_sha256 d)) pending;
      _ ← refuse_when ((ccd_status (cc_candidate completion) === finish_blocked) &&
                       (cvp_effect d !== effect_error) &&
                       ((cvp_effect d !== effect_incomplete) || bool_decide (task_blocked ∉ cvp_reasons d)))
            "blocked finish candidate must evaluate to task_blocked";
      _ ← refuse_when ((cvp_effect d !== effect_error) &&
                       negb (samePaths (completionChangedPaths attribution st) (cvp_changed_paths d)))
            "completion changed paths do not match patch journal";
      let evidence := cvp_evidence_sha256 d ≫= (fun sha => completionEvidence st !! sha) in
      _ ← (if (cvp_effect d !== effect_continue) && (cvp_effect d !== effect_error) then
             match evidence with
             | None => Err (TransitionRefused "completion evaluation lacks matching persisted evidence")
             | Some e =>
                 let persisted := cep_evidence e in
                 _ ← refuse_when (negb (evidenceOutcomeIs persisted (cvp_effect d)) ||
                                  (Some (cep_report_sha256 e) !== cvp_report_sha256 d) ||
                                  (evidenceNarrative persisted !== ccd_summary (cc_candidate completion)) ||
                                  negb (evidenceReasonIn persisted (cvp_reasons d)))
                       "completion evaluation lacks matching persisted evidence";
                 _ ← refuse_when (negb (samePaths (cvp_changed_paths d)
                                          (evidenceChangedPaths (evidenceChanges persisted))))
                       "completion changed paths do not match persisted evidence";
                 refuse_when (negb (sameDiffStat (cvp_diff_stat d) (evidenceDiffStat (evidenceChanges persisted))))
                   "completion diff stat does not match persisted evidence"
             end
           else Ok ());
      if cvp_effect d === effect_accept then
        refuse_when (negb match evidence with
                          | Some e => completionVerificationIdsMatch (cep_evidence e) (cvp_verification_ids d)
                          | None => false
                          end || (length (cvp_verification_ids d) =? 0)%nat ||
                     negb (forallb (currentlyPassed st) (cvp_verification_ids d)))
          "accepted completion references invalid verification evidence"
      else Ok ()
  end.

(** ** Usage and terminals *)

Definition usageInput (u : ModelUsageData) : option Z :=
  match u with LegacyUsage _ _ i _ _ | CompleteUsage _ _ _ i _ _ => Some i | PartialUsage _ _ _ i _ _ => i end.
Definition usageOutput (u : ModelUsageData) : option Z :=
  match u with LegacyUsage _ _ _ o _ | CompleteUsage _ _ _ _ o _ => Some o | PartialUsage _ _ _ _ o _ => o end.
Definition usageTotal (u : ModelUsageData) : option Z :=
  match u with LegacyUsage _ _ _ _ t | CompleteUsage _ _ _ _ _ t => Some t | PartialUsage _ _ _ _ _ t => t end.
Definition usageIsPartial (u : ModelUsageData) : bool :=
  match u with PartialUsage _ _ _ _ _ _ => true | _ => false end.
Definition sumOf (values : list (option Z)) : Z := fold_left (fun sum value => sum + default 0 value) values 0.

(** The [cache_read_tokens] of the new shapes, the cached tokens of the old one. *)
Definition phase8Cached (usages : list ModelUsageData) : list (option Z) :=
  omap (fun u => match u with
                 | LegacyUsage _ _ _ _ _ => None
                 | CompleteUsage _ _ cached _ _ _ | PartialUsage _ _ cached _ _ _ => Some cached
                 end) usages.
Definition legacyCached (usages : list ModelUsageData) : list Z :=
  omap (fun u => match u with LegacyUsage _ cached _ _ _ => cached | _ => None end) usages.
Definition expectedCached (usages : list ModelUsageData) : option Z :=
  if (0 <? length (phase8Cached usages))%nat then
    if forallb (fun value => match value with Some _ => true | None => false end) (phase8Cached usages)
    then Some (sumOf (phase8Cached usages)) else None
  else if (length (legacyCached usages) =? 0)%nat then None
  else Some (sumOf (Some <$> legacyCached usages)).

Definition validateUsage (d : UsagePayload) (st : EventPublisher) : result PublishError () :=
  _ ← refuse_when (activeAgentStep st !== None) "run usage cannot appear inside an agent step";
  let usages := as_modelUsage <$> jm_values (agentSteps st) in
  let known := omap id usages in
  _ ← refuse_when (existsb (fun usage => match usage with None => true | Some _ => false end) usages)
        "agent run usage requires usage for every step";
  _ ← refuse_when (existsb usageIsPartial known) "run usage requires complete model usage events";
  refuse_when (negb (us_input_tokens d =? sumOf (usageInput <$> known)) ||
               negb (us_output_tokens d =? sumOf (usageOutput <$> known)) ||
               negb (us_total_tokens d =? sumOf (usageTotal <$> known)) ||
               (us_model_turns d !== Some (Z.of_nat (length known))) ||
               (us_cached_input_tokens d !== expectedCached known) ||
               (us_usage_incomplete d === Some true))
    "run usage does not match model usage events".

Definition finalStep (st : EventPublisher) : option AgentStepState := jm_get (stepCount st) (agentSteps st).
Definition evaluatedOf (st : EventPublisher) (callId : option string) : option CompletionEvaluatedPayload :=
  callId ← callId; candidate ← completionCandidates st !! callId; cc_evaluated candidate.
Definition toolOf (st : EventPublisher) (callId : option string) : option ToolCallState :=
  callId ← callId; jm_get callId (toolCalls st).

(** The mode the run was started in allows this way to complete. *)
Definition modeMismatch (mode : option CompletionMode) (st : EventPublisher) : bool :=
  ((phase16AgentMode st === Some mode_plan) && (mode !== Some mode_plan_ready)) ||
  ((phase16AgentMode st === Some mode_build) && (mode !== Some mode_verified_finish_task)) ||
  ((phase16AgentMode st === None) && (taskProfile st === Some profile_coding) &&
   (mode !== Some mode_verified_finish_task)) ||
  ((phase16AgentMode st === None) && (taskProfile st === Some profile_read_only) &&
   ((taskProfileExplicit st && (mode !== Some mode_model_final)) || (mode === Some mode_verified_finish_task))).

Definition validateRunCompleted (d : RunCompletedPayload) (st : EventPublisher) : result PublishError () :=
  let evidence := "agent completion does not match completed step evidence"%string in
  match finalStep st with
  | None => Err (TransitionRefused evidence)
  | Some step =>
      _ ← refuse_when ((activeAgentStep st !== None) || negb (as_completed step) ||
                       (rcp_steps d !== Some (stepCount st)) || (rcp_model_turns d !== Some (stepCount st)) ||
                       negb (usagePublished st)) evidence;
      _ ← refuse_when (modeMismatch (rcp_completion_mode d) st) "completion mode does not match task profile";
      if rcp_completion_mode d === Some mode_verified_finish_task then
        refuse_when
          (negb match toolOf st (as_toolCallId step), evaluatedOf st (as_toolCallId step) with
                | Some tool, Some completion =>
                    (as_outcome step === Some outcome_tool_call) && (tc_name tool === "finish_task"%string) &&
                    tc_completed tool && (cvp_effect completion === effect_accept) &&
                    (cvp_evidence_sha256 completion === rcp_evidence_sha256 d) &&
                    (cvp_report_sha256 completion === rcp_report_sha256 d)
                | _, _ => false
                end) "verified completion lacks accepted finish_task evidence"
      else refuse_when (as_outcome step !== Some outcome_final)
             "model-final completion requires a final agent step"
  end.

Definition validateRunIncomplete (d : RunIncompletePayload) (st : EventPublisher) : result PublishError () :=
  let step := finalStep st in
  _ ← refuse_when ((activeAgentStep st !== None) || negb (rip_steps d =? stepCount st) ||
                   negb (rip_tool_calls d =? completedToolCalls st) ||
                   (negb (usagePublished st) &&
                    negb ((rip_reason d === plan_approval_required) && (stepCount st =? 0))))
        "run.incomplete counts do not match agent evidence";
  _ ← match rip_evidence_sha256 d with
      | None => Ok ()
      | Some sha =>
          refuse_when (negb match completionEvidence st !! sha with
                            | Some e => match cep_evidence e with
                                        | IncompletedEvidence i =>
                                            (Some (cep_report_sha256 e) === rip_report_sha256 d) &&
                                            (iev_reason i === rip_reason d)
                                        | CompletedEvidence _ => false
                                        end
                            | None => false
                            end) "run.incomplete lacks matching persisted evidence"
      end;
  let outcome := step ≫= as_outcome in
  let callId := step ≫= as_toolCallId in
  _ ← refuse_when ((rip_reason d === completion_signal_required) &&
                   ((taskProfile st !== Some profile_coding) || (outcome !== Some outcome_final)))
        "completion signal terminal requires a coding model final";
  _ ← (if (outcome === Some outcome_tool_call) &&
          (tc_name <$> toolOf st callId === Some "finish_task"%string) then
         refuse_when (negb match evaluatedOf st callId with
                           | Some completion =>
                               (cvp_effect completion === effect_incomplete) &&
                               bool_decide (rip_reason d ∈ cvp_reasons completion) &&
                               (cvp_evidence_sha256 completion === rip_evidence_sha256 d) &&
                               (cvp_report_sha256 completion === rip_report_sha256 d)
                           | None => false
                           end) "run.incomplete does not match finish_task evidence"
       else Ok ());
  if rip_reason d === task_blocked then
    refuse_when (negb ((outcome === Some outcome_tool_call) &&
                       match evaluatedOf st callId with
                       | Some completion => (cvp_effect completion === effect_incomplete) &&
                                            bool_decide (task_blocked ∈ cvp_reasons completion)
                       | None => false
                       end &&
                       match toolOf st callId with Some tool => tc_completed tool | None => false end))
      "task_blocked terminal lacks matching finish_task evidence"
  else Ok ().

Definition validateRunBudgetExceeded (d : RunBudgetExceededPayload) (st : EventPublisher) : result PublishError () :=
  refuse_when (negb (rbe_steps d =? stepCount st) || negb (rbe_tool_calls d =? completedToolCalls st))
    "budget terminal counts do not match agent events".

(** An optional count, when given, is the publisher's. *)
Definition countMatches (given : option Z) (actual : Z) : bool :=
  match given with Some n => n =? actual | None => true end.

Definition validateRunStopped (d : RunStoppedPayload) (st : EventPublisher) : result PublishError () :=
  refuse_when (negb (countMatches (rsp_steps d) (stepCount st)) ||
               negb (countMatches (rsp_tool_calls d) (completedToolCalls st)))
    "agent terminal counts do not match agent events".

Definition validateAgentTransition (attribution : option CompletionAttribution) (draft : RunEventDraft)
    (st : EventPublisher) : result PublishError () :=
  match draft with
  | ev_agent_step_started d => validateAgentStepStarted d st
  | ev_text_delta d => validateTextDelta d st
  | ev_model_usage d => validateModelUsage d st
  | ev_agent_step_completed d => validateAgentStepCompleted d st
  | ev_tool_call_requested d => validateToolCallRequested d st
  | ev_patch_plan_created d => validatePatchPlanCreated d st
  | ev_permission_evaluated d => validatePermissionEvaluated d st
  | ev_approval_requested d => validateApprovalRequested d st
  | ev_approval_decided d => validateApprovalDecided d st
  | ev_patch_apply_started d => validatePatchApplyStarted d st
  | ev_patch_apply_completed d => validatePatchApplyCompleted d st
  | ev_command_requested d => validateCommandRequested d st
  | ev_command_started d => validateCommandStarted d st
  | ev_command_output d => validateCommandOutput d st
  | ev_command_completed d => validateCommandCompleted d st
  | ev_verification_started d => validateVerificationStarted d st
  | ev_verification_completed d => validateVerificationCompleted d st
  | ev_completion_evidence d => validateCompletionEvidence attribution d st
  | ev_completion_candidate d => validateCompletionCandidate d st
  | ev_completion_evaluated d => validateCompletionEvaluated attribution d st
  | ev_usage d => validateUsage d st
  | ev_run_completed d => validateRunCompleted d st
  | ev_run_incomplete d => validateRunIncomplete d st
  | ev_run_budget_exceeded d => validateRunBudgetExceeded d st
  | ev_run_failed d | ev_run_cancelled d => validateRunStopped d st
  | ev_run_started _ | ev_backend_selected _ | ev_tool_call_completed _ => Ok ()
  end.

(** The event types a chat run never publishes. *)
Definition isAgentEvent (draft : RunEventDraft) : bool :=
  match draft with
  | ev_agent_step_started _ | ev_agent_step_completed _ | ev_approval_decided _ | ev_approval_requested _
  | ev_completion_candidate _ | ev_completion_evidence _ | ev_completion_evaluated _ | ev_command_completed _
  | ev_command_requested _ | ev_command_output _ | ev_command_started _ | ev_model_usage _
  | ev_patch_apply_completed _ | ev_patch_apply_started _ | ev_patch_plan_created _
  | ev_permission_evaluated _ | ev_run_budget_exceeded _ | ev_run_incomplete _
  | ev_verification_completed _ | ev_verification_started _ => true
  | _ => false
  end.

(** The result of a tool call against the call and what it did. *)
Definition validateToolCallCompleted (d : ToolCallCompletedPayload) (st : EventPublisher) : result PublishError () :=
  let callId := tcc_call_id d in
  let pending := "tool result must match one pending tool call"%string in
  match jm_get callId (toolCalls st) with
  | None => Err (TransitionRefused pending)
  | Some requested =>
      let recoveredData := recoveredCallData st !! callId in
      let recovered := match recoveredData with Some _ => true | None => false end in
      _ ← refuse_when (tc_completed requested || (tc_name requested !== tcc_tool_name d) ||
                       negb (tc_step requested =? tcc_step d)) pending;
      _ ← refuse_when match recoveredData with
                      | Some r => negb (recoveredCompletionMatches r d)
                      | None => false
                      end "tool result must match its recovered observation";
      _ ← refuse_when ((tc_name requested === "apply_patch"%string) && (tcc_status d === tool_success) &&
                       negb recovered &&
                       negb match jm_get callId (patchApplies st) with
                            | Some apply => pa_completed apply
                            | None => false
                            end) "successful apply_patch result requires completed apply evidence";
      let isCommand := tc_name requested === "run_command"%string in
      let permission := permissions st !! callId in
      let execution := executionId ← commandExecutionsByCall st !! callId; jm_get executionId (commandExecutions st) in
      _ ← refuse_when (isCommand && negb recovered &&
                       match permission with None => true | Some _ => false end &&
                       negb (isPreExecutionToolError d)) "run_command result requires permission evidence";
      _ ← refuse_when (isCommand && negb recovered &&
                       match permission with Some p => pm_effect p === ask_effect | None => false end &&
                       negb (existsb (fun approval =>
                         (ap_callId approval === callId) && (ap_actionKind approval === action_run_command) &&
                         (ap_decision approval !== None)) (jm_values (approvals st))))
            "run_command result requires an approval decision";
      _ ← refuse_when (isCommand && match execution with Some x => negb (cx_completed x) | None => false end)
            "run_command result cannot precede command completion";
      _ ← refuse_when (isCommand && negb recovered && (tcc_status d === tool_success) &&
                       negb match execution with
                            | Some x => cx_completed x && (cx_cleanupVerified x === Some true)
                            | None => false
                            end) "successful run_command result requires completed command evidence";
      if (tc_name requested === "finish_task"%string) && negb recovered then
        match evaluatedOf st (Some callId) with
        | None => Err (TransitionRefused "finish_task result requires a completion evaluation")
        | Some evaluated =>
            let failedWith code := (tcc_status d === tool_error) && (tcc_error_code d === Some code) in
            refuse_when (negb match cvp_effect evaluated with
                              | effect_continue => failedWith "completion_rejected"%string
                              | effect_error => failedWith "completion_evaluation_failed"%string
                              | _ => tcc_status d === tool_success
                              end) "finish_task result does not match completion effect"
        end
      else Ok ()
  end.

(** The checks of the terminals that do not depend on the command. *)
Definition outputCharsOf (draft : RunEventDraft) : option Z :=
  match draft with
  | ev_run_completed d => Some (rcp_output_chars d)
  | ev_run_failed d | ev_run_cancelled d => rsp_output_chars d
  | ev_run_budget_exceeded d => Some (rbe_output_chars d)
  | ev_run_incomplete d => Some (rip_output_chars d)
  | _ => None
  end.
Definition hasPendingCall (st : EventPublisher) : bool :=
  existsb (fun call => negb (tc_completed call)) (jm_values (toolCalls st)).
Definition validateTerminal (draft : RunEventDraft) (st : EventPublisher) : result PublishError () :=
  _ ← refuse_when (negb (countMatches (outputCharsOf draft) (outputChars st)))
        "output_chars does not match text deltas";
  match draft with
  | ev_run_completed d =>
      _ ← refuse_when (hasPendingCall st) "completed run cannot contain an interrupted tool call";
      _ ← refuse_when (negb (countMatches (rcp_tool_calls d) (completedToolCalls st)))
            "run.completed tool_calls does not match tool events";
      refuse_when (existsb (fun execution => negb (cx_completed execution) ||
                                             (cx_cleanupVerified execution !== Some true))
                     (jm_values (commandExecutions st)))
        "completed run cannot contain an unknown command effect"
  | ev_run_incomplete _ =>
      refuse_when (hasPendingCall st) "incomplete run cannot contain an unmatched tool call"
  | _ => Ok ()
  end.

Definition validateTransition (attribution : option CompletionAttribution) (draft : RunEventDraft)
    (st : EventPublisher) : result PublishError () :=
  let isStart := match draft with ev_run_started _ => true | _ => false end in
  let isBackend := match draft with ev_backend_selected _ => true | _ => false end in
  let selected := match backendSelected st with Some _ => true | None => false end in
  _ ← refuse_when (terminal st) "cannot publish after terminal event";
  _ ← refuse_when (negb (started st) && negb isStart) "run.started must be the first event";
  _ ← refuse_when (started st && isStart) "run.started can only be published once";
  _ ← refuse_when (started st && negb selected && negb isBackend)
        "backend.selected must immediately follow run.started";
  match draft with
  | ev_backend_selected d =>
      _ ← refuse_when selected "backend.selected can only be published once";
      refuse_when ((Some (bs_provider d) !== startedProvider st) || (Some (bs_model d) !== startedModel st))
        "backend.selected must match run.started identity"
  | _ =>
      _ ← refuse_when (match draft with ev_usage _ => usagePublished st | _ => false end)
            "usage can only be published once";
      _ ← (if command st === Some command_agent then validateAgentTransition attribution draft st
           else refuse_when ((command st === Some command_chat) && isAgentEvent draft)
                  "chat run cannot publish agent events");
      _ ← refuse_when ((command st === Some command_chat) &&
                       match draft with
                       | ev_run_completed d => rcp_completion_mode d === Some mode_verified_finish_task
                       | _ => false
                       end) "chat run cannot claim verified finish_task completion";
      _ ← match draft with
          | ev_tool_call_requested d =>
              refuse_when (jm_has (tcr_call_id d) (toolCalls st)) "tool call id must be unique"
          | ev_tool_call_completed d => validateToolCallCompleted d st
          | _ => Ok ()
          end;
      validateTerminal draft st
  end.
End Publisher.

(** ** Applying a persisted event *)

Definition newExecution (d : CommandRequestedPayload) : CommandExecutionState := {|
  cx_actionSha256 := ci_action_sha256 (crq_id d); cx_callId := ci_call_id (crq_id d);
  cx_cleanupVerified := None; cx_completed := false; cx_completedData := None;
  cx_executionId := ci_execution_id (crq_id d); cx_output := []; cx_purpose := crq_purpose d;
  cx_requestedData := d; cx_step := ci_step (crq_id d); cx_stderrBytes := 0; cx_stderrChunks := 0;
  cx_stdoutBytes := 0; cx_stdoutChunks := 0; cx_started := false |}.

Definition newApproval (d : ApprovalRequestedPayload) : ApprovalState := {|
  ap_actionKind := approvalActionKind (arp_action d); ap_actionSha256 := approvalActionSha256 (arp_action d);
  ap_callId := arp_call_id d; ap_decision := None; ap_requestId := arp_approval_request_id d;
  ap_planId := match arp_action d with ApplyPatchAction _ plan_id _ _ => Some plan_id | RunCommandAction _ => None end;
  ap_ruleManifestSha256 := match arp_action d with ApplyPatchAction _ _ m _ => m | RunCommandAction _ => None end;
  ap_ruleScopeSetSha256 := match arp_action d with ApplyPatchAction _ _ _ s => s | RunCommandAction _ => None end;
  ap_step := arp_step d |}.

Definition addOutput (d : CommandOutputPayload) (execution : CommandExecutionState) : CommandExecutionState :=
  let execution := execution <| cx_output ::= fun output => output ++ [d] |> in
  match cop_channel d with
  | channel_stdout => execution <| cx_stdoutBytes ::= Z.add (cop_bytes d) |> <| cx_stdoutChunks ::= Z.succ |>
  | channel_stderr => execution <| cx_stderrBytes ::= Z.add (cop_bytes d) |> <| cx_stderrChunks ::= Z.succ |>
  end.

(** The change an event makes, apart from [seq] and [terminal]. *)
Definition applyEvent (draft : RunEventDraft) (st : EventPublisher) : EventPublisher :=
  match draft with
  | ev_run_started d =>
      let st := st <| started := true |> <| command := Some (rst_command d) |>
                   <| startedModel := Some (rst_model d) |> <| startedProvider := Some (rst_provider d) |>
                   <| resumeMode := rst_resume_mode d |> <| resumeOfRunId := rst_resume_of_run_id d |> in
      if rst_command d === command_agent then
        st <| taskProfile := Some (default profile_read_only (rst_task_profile d)) |>
           <| taskProfileExplicit := match rst_task_profile d with Some _ => true | None => false end |>
      else st
  | ev_backend_selected d => st <| backendSelected := Some d |>
  | ev_text_delta d =>
      let chars := Z.of_nat (length (td_delta d)) in
      let st := st <| outputChars ::= Z.add chars |> in
      match activeAgentStep st with
      | Some step => st <| agentSteps ::= jm_alter (fun s => s <| as_textChars ::= Z.add chars |>) step |>
      | None => st
      end
  | ev_agent_step_started d =>
      st <| agentSteps ::= jm_set (ass_step d)
              {| as_completed := false; as_modelUsage := None; as_outcome := None; as_textChars := 0;
                 as_toolCallId := None |} |>
         <| activeAgentStep := Some (ass_step d) |>
  | ev_model_usage d => st <| agentSteps ::= jm_alter (fun s => s <| as_modelUsage := Some d |>) (usageStep d) |>
  | ev_agent_step_completed d =>
      st <| agentSteps ::= jm_alter (fun s =>
              let s := s <| as_completed := true |> <| as_outcome := Some (asc_outcome d) |> in
              match asc_tool_call_id d with Some callId => s <| as_toolCallId := Some callId |> | None => s end)
              (asc_step d) |>
         <| activeAgentStep := None |>
  | ev_usage _ => st <| usagePublished := true |>
  | ev_tool_call_requested d =>
      st <| toolCalls ::= jm_set (tcr_call_id d)
              {| tc_argumentsJson := tcr_arguments_json d; tc_completed := false; tc_name := tcr_tool_name d;
                 tc_step := tcr_step d |} |>
  | ev_tool_call_completed d =>
      st <| toolCalls ::= jm_alter (fun call => call <| tc_completed := true |>) (tcc_call_id d) |>
  | ev_patch_plan_created d =>
      st <| patchPlans ::= <[ppc_call_id d := {| pp_planId := ppc_plan_id d;
              pp_ruleManifestSha256 := ppc_rule_manifest_sha256 d;
              pp_ruleScopeSetSha256 := ppc_rule_scope_set_sha256 d; pp_step := ppc_step d |}]> |>
  | ev_permission_evaluated d =>
      st <| permissions ::= <[pev_call_id d := {| pm_actionSha256 := pev_action_sha256 d;
              pm_effect := pev_effect d; pm_step := pev_step d |}]> |>
  | ev_approval_requested d => st <| approvals ::= jm_set (arp_approval_request_id d) (newApproval d) |>
  | ev_approval_decided d =>
      st <| approvals ::= jm_alter (fun a => a <| ap_decision := Some (adp_decision d) |>)
              (adp_approval_request_id d) |>
  | ev_patch_apply_started d =>
      st <| patchApplies ::= jm_set (pas_call_id d)
              {| pa_approvalRequestId := pas_approval_request_id d; pa_completed := false;
                 pa_completedData := None; pa_files := pas_files d; pa_planId := pas_plan_id d;
                 pa_ruleManifestSha256 := pas_rule_manifest_sha256 d;
                 pa_ruleScopeSetSha256 := pas_rule_scope_set_sha256 d; pa_step := pas_step d |} |>
  | ev_patch_apply_completed d =>
      match jm_get (pac_call_id d) (patchApplies st) with
      | Some apply =>
          st <| patchApplies ::= jm_set (pac_call_id d)
                  (apply <| pa_completed := true |> <| pa_completedData := Some d |>) |>
             <| verificationGeneration ::= Z.succ |>
      | None => st
      end
  | ev_command_requested d =>
      st <| commandExecutions ::= jm_set (ci_execution_id (crq_id d)) (newExecution d) |>
         <| commandExecutionsByCall ::= <[ci_call_id (crq_id d) := ci_execution_id (crq_id d)]> |>
  | ev_command_started id =>
      st <| commandExecutions ::= jm_alter (fun x => x <| cx_started := true |>) (ci_execution_id id) |>
  | ev_command_output d => st <| commandExecutions ::= jm_alter (addOutput d) (ci_execution_id (cop_id d)) |>
  | ev_command_completed d =>
      st <| commandExecutions ::= jm_alter (fun x =>
              x <| cx_completed := true |> <| cx_completedData := Some d |>
                <| cx_cleanupVerified := Some (ccp_cleanup_verified d) |>) (ci_execution_id (ccp_id d)) |>
  | ev_verification_started d =>
      st <| verifications ::= jm_set (vid_verification_id (vsp_id d)) {| vf_completed := None; vf_started := d |} |>
  | ev_verification_completed d =>
      st <| verifications ::= jm_alter (fun v => v <| vf_completed := Some d |>) (vid_verification_id (vcp_id d)) |>
  | ev_completion_candidate d =>
      st <| completionCandidates ::= <[ccd_call_id d := {| cc_candidate := d; cc_evaluated := None |}]> |>
  | ev_completion_evidence d => st <| completionEvidence ::= <[cep_evidence_sha256 d := d]> |>
  | ev_completion_evaluated d =>
      st <| completionCandidates ::= alter (fun c => c <| cc_evaluated := Some d |>) (cvp_call_id d) |>
  | ev_run_completed _ | ev_run_incomplete _ | ev_run_failed _ | ev_run_cancelled _ | ev_run_budget_exceeded _ => st
  end.

Definition applyTransition (event : RunEvent) (st : EventPublisher) : EventPublisher :=
  let st := applyEvent (re_draft event) (st <| seq := re_seq event |>) in
  if isTerminalRunEvent (re_draft event) then st <| terminal := true |> else st.

(** ** Operations *)

(** What the writer answers: it has no such method, it fails, or the event is
    durable under an id. *)
Inductive WriterAnswer : Type := writer_unsupported | writer_failed | writer_durable (eventId : string).

Section Operations.
Variable sha256Bytes : list Z -> string.
Variable localeLe : jstring -> jstring -> bool.
Variables runId sessionId : string.
Notation validate := (validateTransition sha256Bytes localeLe runId sessionId).

(** The validated and stamped event. *)
Definition stamp (attribution : option CompletionAttribution) (eventId : string) (draft : RunEventDraft)
    (st : EventPublisher) : result PublishError RunEvent :=
  _ ← validate attribution draft st;
  _ ← throw_when (negb (runEventSchema draft)) SchemaRefused;
  Ok {| re_event_id := eventId; re_seq := seq st + 1; re_draft := draft |}.

(** The durable event is applied and rendered; the renderer may fail. *)
Definition advance (rendered : bool) (event : RunEvent) (st : EventPublisher)
  : result PublishError RunEvent * EventPublisher :=
  let st := applyTransition event st <| persistedEvents ::= fun events => events ++ [event] |> in
  (if rendered then Ok event else Err RenderFailed, st).

Definition publish (attribution : option CompletionAttribution) (eventId : string) (written rendered : bool)
    (draft : RunEventDraft) (st : EventPublisher) : result PublishError RunEvent * EventPublisher :=
  match stamp attribution eventId draft st with
  | Err e => (Err e, st)
  | Ok event => if written then advance rendered event st else (Err EventPersistenceError, st)
  end.

(** [publishPhase16RunStarted], and with [None] [publishDelegatedChildRunStarted]:
    the run is started through a method of the writer that binds it. *)
Definition publishBoundRunStarted (agentMode : option AgentMode) (eventId : string) (written : bool)
    (supported rendered : bool) (data : RunStartedPayload) (st : EventPublisher)
  : result PublishError RunEvent * EventPublisher :=
  match validate None (ev_run_started data) st with
  | Err e => (Err e, st)
  | Ok _ =>
      if negb supported then (Err EventPersistenceError, st)
      else match stamp None eventId (ev_run_started data) st with
           | Err e => (Err e, st)
           | Ok event =>
               if negb written then (Err EventPersistenceError, st)
               else
                 let '(answer, st) := advance rendered event st in
                 (answer, match agentMode with Some mode => st <| phase16AgentMode := Some mode |> | None => st end)
           end
  end.

Definition publishGoalChangeEvent (answer : WriterAnswer) (st : EventPublisher)
  : result PublishError () * EventPublisher :=
  if negb (started st) || terminal st || (phase16AgentMode st !== Some mode_build) ||
     match backendSelected st with None => true | Some _ => false end
  then (Err EventPersistenceError, st)
  else match answer with
       | writer_durable _ => (Ok (), st <| seq ::= Z.succ |>)
       | _ => (Err EventPersistenceError, st)
       end.

Record PendingCallAdopted : Type := {
  pca_call_id : string; pca_source_run_id : string; pca_step : Z; pca_tool_name : string }.

Definition adoptPendingCall (answer : WriterAnswer) (data : PendingCallAdopted) (argumentsJson : jstring)
    (st : EventPublisher) : result PublishError string * EventPublisher :=
  if negb (started st) ||
     match backendSelected st with
     | Some backend => bs_resume_capability backend !== Some capability_exact_checkpoint
     | None => true
     end || (resumeMode st !== Some resume_exact) ||
     (resumeOfRunId st !== Some (pca_source_run_id data)) || negb (stepCount st =? 0) ||
     jm_has (pca_call_id data) (toolCalls st)
  then (Err (TransitionRefused "pending call adoption is not valid for this run"), st)
  else match answer with
       | writer_unsupported => (Err (TransitionRefused "pending call adoption is not valid for this run"), st)
       | writer_failed => (Err EventPersistenceError, st)
       | writer_durable eventId =>
           (Ok eventId,
            st <| toolCalls ::= jm_set (pca_call_id data)
                    {| tc_argumentsJson := argumentsJson; tc_completed := false; tc_name := pca_tool_name data;
                       tc_step := pca_step data |} |>
               <| adoptedCalls ::= union {[pca_call_id data]} |>)
       end.

Definition recoverAdoptedCall (answer : WriterAnswer) (data : ToolCallCompletedPayload) (st : EventPublisher)
  : result PublishError () * EventPublisher :=
  let refused := Err (TransitionRefused "recovered result does not match an adopted call") in
  match jm_get (tcc_call_id data) (toolCalls st) with
  | Some call =>
      if tc_completed call || (tc_name call !== tcc_tool_name data) || negb (tc_step call =? tcc_step data) ||
         match recoveredCallData st !! tcc_call_id data with Some _ => true | None => false end
      then (refused, st)
      else match answer with
           | writer_unsupported => (refused, st)
           | writer_failed => (Err EventPersistenceError, st)
           | writer_durable _ => (Ok (), st <| recoveredCallData ::= <[tcc_call_id data := data]> |>)
           end
  | None => (refused, st)
  end.

(** ** The verifications that hold now *)

Record CurrentVerificationCommandFact : Type := {
  cvf_actionSha256 : string; cvf_command : jstring; cvf_evidenceEventIds : list string;
  cvf_sourceSnapshotSha256 : string; cvf_verificationId : string }.

Definition isEvidenceOf (executionId verificationId : string) (event : RunEvent) : bool :=
  match re_draft event with
  | ev_command_requested d => ci_execution_id (crq_id d) === executionId
  | ev_command_completed d => ci_execution_id (ccp_id d) === executionId
  | ev_verification_started d => vid_verification_id (vsp_id d) === verificationId
  | ev_verification_completed d => vid_verification_id (vcp_id d) === verificationId
  | _ => false
  end.

Definition currentFact (st : EventPublisher) (entry : string * VerificationState)
  : option CurrentVerificationCommandFact :=
  let '(verificationId, verification) := entry in
  completed ← vf_completed verification;
  execution ← jm_get (vid_command_execution_id (vsp_id (vf_started verification))) (commandExecutions st);
  commandCompleted ← cx_completedData execution;
  if (vcp_status completed !== vst_passed) || vcp_stale completed ||
     negb (vcp_completed_generation completed =? verificationGeneration st) ||
     negb (vcp_started_generation completed =? verificationGeneration st) ||
     negb (cx_completed execution) || (cx_cleanupVerified execution !== Some true) ||
     (cx_purpose execution !== purpose_verify) ||
     (cx_actionSha256 execution !== vid_action_sha256 (vcp_id completed)) ||
     (ccp_exit_code commandCompleted !== Some 0) || (ccp_termination commandCompleted !== term_exit)
  then None
  else
    let evidenceEventIds :=
      re_event_id <$> List.filter (isEvidenceOf (cx_executionId execution) verificationId) (persistedEvents st) in
    if negb (length evidenceEventIds =? 4)%nat then None
    else Some {|
      cvf_actionSha256 := vid_action_sha256 (vcp_id completed);
      cvf_command := joinUnit 0x20 (crq_redacted_argv (cx_requestedData execution));
      cvf_evidenceEventIds := evidenceEventIds;
      cvf_sourceSnapshotSha256 := vcp_after_snapshot_sha256 completed;
      cvf_verificationId := verificationId |}.

Definition fact_le (a b : CurrentVerificationCommandFact) : Prop :=
  (if localeLe (cvf_command a) (cvf_command b) then
     if localeLe (cvf_command b) (cvf_command a)
     then localeLe (js (cvf_verificationId a)) (js (cvf_verificationId b)) else true
   else false) = true.
#[export] Instance fact_le_dec a b : Decision (fact_le a b).
Proof. unfold fact_le. apply _. Defined.

Definition currentVerificationCommandFacts (st : EventPublisher) : list CurrentVerificationCommandFact :=
  js_sort fact_le (omap (currentFact st) (verifications st)).

(** ** The runs of a publisher *)

Inductive publisher_step : EventPublisher -> EventPublisher -> Prop :=
| step_publish attribution eventId written rendered draft st :
    publisher_step st (publish attribution eventId written rendered draft st).2
| step_bound_start agentMode eventId written supported rendered data st :
    publisher_step st (publishBoundRunStarted agentMode eventId written supported rendered data st).2
| step_goal_change answer st : publisher_step st (publishGoalChangeEvent answer st).2
| step_adopt answer data argumentsJson st : publisher_step st (adoptPendingCall answer data argumentsJson st).2
| step_recover answer data st : publisher_step st (recoverAdoptedCall answer data st).2.

Definition publisher_reachable : EventPublisher -> Prop := rtc publisher_step initialPublisher.
End Operations.
