(* ===== verification/EventPublisherFacts.v ===== *)
(** * What the publisher's state says of its log

    Every reachable state of the publisher of [EventPublisher.v] describes the
    events it has persisted: where each entry of its maps comes from, and what
    its counters count.  Each event was accepted by a reachable state whose log
    is the part before it ([publisher_history]). *)

From S2P Require Import Prelude JsString CanonicalJson Domain Events Schemas Permissions Patch SourceSnapshot Completion Verification CompletionRuntime CollaborativeCompletion JsonParse RunEvents EventPublisher.
#[local] Open Scope Z_scope.

(** The persisted events without their envelopes. *)
Definition log (st : EventPublisher) : list RunEventDraft := re_draft <$> persistedEvents st.

(** The state after a durable event. *)
Definition posted (event : RunEvent) (st : EventPublisher) : EventPublisher :=
  applyTransition event st <| persistedEvents ::= fun events => events ++ [event] |>.

(** ** What each kind of event changes *)

Ltac field_cases :=
  intros; unfold posted, applyTransition;
  match goal with |- context [re_draft ?event] => destruct (re_draft event) end;
  cbn; repeat (case_match; cbn); reflexivity.

Lemma posted_log event st : log (posted event st) = log st ++ [re_draft event].
Proof.
  unfold log. replace (persistedEvents (posted event st)) with (persistedEvents st ++ [event]); [by rewrite fmap_app|].
  unfold posted, applyTransition. destruct (re_draft event); cbn; repeat (case_match; cbn); reflexivity.
Qed.

Lemma posted_started event st : started (posted event st) =
  match re_draft event with ev_run_started _ => true | _ => started st end.
Proof. field_cases. Qed.
Lemma posted_backend event st : backendSelected (posted event st) =
  match re_draft event with ev_backend_selected d => Some d | _ => backendSelected st end.
Proof. field_cases. Qed.
Lemma posted_command event st : command (posted event st) =
  match re_draft event with ev_run_started d => Some (rst_command d) | _ => command st end.
Proof. field_cases. Qed.
Lemma posted_terminal event st : terminal (posted event st) = isTerminalRunEvent (re_draft event) || terminal st.
Proof. field_cases. Qed.
Lemma posted_permissions event st : permissions (posted event st) =
  match re_draft event with
  | ev_permission_evaluated d =>
      <[pev_call_id d := {| pm_actionSha256 := pev_action_sha256 d; pm_effect := pev_effect d;
                            pm_step := pev_step d |}]> (permissions st)
  | _ => permissions st
  end.
Proof. field_cases. Qed.
Lemma posted_plans event st : patchPlans (posted event st) =
  match re_draft event with
  | ev_patch_plan_created d =>
      <[ppc_call_id d := {| pp_planId := ppc_plan_id d; pp_ruleManifestSha256 := ppc_rule_manifest_sha256 d;
          pp_ruleScopeSetSha256 := ppc_rule_scope_set_sha256 d; pp_step := ppc_step d |}]> (patchPlans st)
  | _ => patchPlans st
  end.
Proof. field_cases. Qed.
Lemma posted_approvals event st : approvals (posted event st) =
  match re_draft event with
  | ev_approval_requested d => jm_set (arp_approval_request_id d) (newApproval d) (approvals st)
  | ev_approval_decided d =>
      jm_alter (fun a => a <| ap_decision := Some (adp_decision d) |>) (adp_approval_request_id d) (approvals st)
  | _ => approvals st
  end.
Proof. field_cases. Qed.
Lemma posted_executions event st : commandExecutions (posted event st) =
  match re_draft event with
  | ev_command_requested d => jm_set (ci_execution_id (crq_id d)) (newExecution d) (commandExecutions st)
  | ev_command_started id =>
      jm_alter (fun x => x <| cx_started := true |>) (ci_execution_id id) (commandExecutions st)
  | ev_command_output d => jm_alter (addOutput d) (ci_execution_id (cop_id d)) (commandExecutions st)
  | ev_command_completed d =>
      jm_alter (fun x => x <| cx_completed := true |> <| cx_completedData := Some d |>
        <| cx_cleanupVerified := Some (ccp_cleanup_verified d) |>) (ci_execution_id (ccp_id d)) (commandExecutions st)
  | _ => commandExecutions st
  end.
Proof. field_cases. Qed.
Lemma posted_verifications event st : verifications (posted event st) =
  match re_draft event with
  | ev_verification_started d =>
      jm_set (vid_verification_id (vsp_id d)) {| vf_completed := None; vf_started := d |} (verifications st)
  | ev_verification_completed d =>
      jm_alter (fun v => v <| vf_completed := Some d |>) (vid_verification_id (vcp_id d)) (verifications st)
  | _ => verifications st
  end.
Proof. field_cases. Qed.
Lemma posted_candidates event st : completionCandidates (posted event st) =
  match re_draft event with
  | ev_completion_candidate d =>
      <[ccd_call_id d := {| cc_candidate := d; cc_evaluated := None |}]> (completionCandidates st)
  | ev_completion_evaluated d =>
      alter (fun c => c <| cc_evaluated := Some d |>) (cvp_call_id d) (completionCandidates st)
  | _ => completionCandidates st
  end.
Proof. field_cases. Qed.
Lemma posted_evidence event st : completionEvidence (posted event st) =
  match re_draft event with
  | ev_completion_evidence d => <[cep_evidence_sha256 d := d]> (completionEvidence st)
  | _ => completionEvidence st
  end.
Proof. field_cases. Qed.
Lemma posted_toolCalls event st : toolCalls (posted event st) =
  match re_draft event with
  | ev_tool_call_requested d =>
      jm_set (tcr_call_id d) {| tc_argumentsJson := tcr_arguments_json d; tc_completed := false;
                                tc_name := tcr_tool_name d; tc_step := tcr_step d |} (toolCalls st)
  | ev_tool_call_completed d =>
      jm_alter (fun call => call <| tc_completed := true |>) (tcc_call_id d) (toolCalls st)
  | _ => toolCalls st
  end.
Proof. field_cases. Qed.
Lemma posted_outputChars event st : outputChars (posted event st) =
  match re_draft event with
  | ev_text_delta d => Z.of_nat (length (td_delta d)) + outputChars st
  | _ => outputChars st
  end.
Proof. field_cases. Qed.
Lemma posted_active event st : activeAgentStep (posted event st) =
  match re_draft event with
  | ev_agent_step_started d => Some (ass_step d)
  | ev_agent_step_completed _ => None
  | _ => activeAgentStep st
  end.
Proof. field_cases. Qed.
Lemma posted_agentSteps event st : agentSteps (posted event st) =
  match re_draft event with
  | ev_text_delta d =>
      match activeAgentStep st with
      | Some step => jm_alter (fun s => s <| as_textChars ::= Z.add (Z.of_nat (length (td_delta d))) |>) step
                       (agentSteps st)
      | None => agentSteps st
      end
  | ev_agent_step_started d =>
      jm_set (ass_step d) {| as_completed := false; as_modelUsage := None; as_outcome := None; as_textChars := 0;
                             as_toolCallId := None |} (agentSteps st)
  | ev_model_usage d => jm_alter (fun s => s <| as_modelUsage := Some d |>) (usageStep d) (agentSteps st)
  | ev_agent_step_completed d =>
      jm_alter (fun s =>
        let s := s <| as_completed := true |> <| as_outcome := Some (asc_outcome d) |> in
        match asc_tool_call_id d with Some callId => s <| as_toolCallId := Some callId |> | None => s end)
        (asc_step d) (agentSteps st)
  | _ => agentSteps st
  end.
Proof. field_cases. Qed.

Lemma refuse_when_ok b message u : refuse_when b message = Ok u <-> b = false.
Proof. apply throw_when_ok. Qed.

Section Publisher.
Context (sha256Bytes : list Z -> string) (localeLe : jstring -> jstring -> bool) (runId sessionId : string).
Notation validate := (validateTransition sha256Bytes localeLe runId sessionId).
Notation reachable := (publisher_reachable sha256Bytes localeLe runId sessionId).
Notation pstep := (publisher_step sha256Bytes localeLe runId sessionId).

(** The publisher lets [draft] through. *)
Definition accepts (st : EventPublisher) (draft : RunEventDraft) : Prop :=
  exists attribution, validate attribution draft st = Ok () /\ runEventSchema draft = true.

(** The operations that persist no event of the run protocol. *)
Inductive quiet : EventPublisher -> EventPublisher -> Prop :=
| quiet_refl st : quiet st st
| quiet_mode mode st : quiet st (st <| phase16AgentMode := Some mode |>)
| quiet_goal_change st : quiet st (st <| seq ::= Z.succ |>)
| quiet_adopt data argumentsJson st :
    started st = true -> resumeMode st = Some resume_exact -> stepCount st = 0 ->
    jm_get (pca_call_id data) (toolCalls st) = None ->
    quiet st (st <| toolCalls ::= jm_set (pca_call_id data)
                     {| tc_argumentsJson := argumentsJson; tc_completed := false; tc_name := pca_tool_name data;
                        tc_step := pca_step data |} |>
                 <| adoptedCalls ::= union {[pca_call_id data]} |>)
| quiet_recover data st : quiet st (st <| recoveredCallData ::= <[tcc_call_id data := data]> |>).

Lemma stamp_ok attribution eventId draft st event :
  stamp sha256Bytes localeLe runId sessionId attribution eventId draft st = Ok event ->
  accepts st draft /\ event = {| re_event_id := eventId; re_seq := seq st + 1; re_draft := draft |}.
Proof.
  unfold stamp. intros H. apply bind_ok in H as ([] & Hv & H). apply bind_ok in H as (u & Hs%throw_when_ok & H).
  apply negb_false_iff in Hs. simplify_eq. split; [by exists attribution|done].
Qed.

(** A step posts an accepted event, is quiet, or does both. *)
Lemma publisher_step_cases st st' :
  pstep st st' ->
  (exists event mid, accepts st (re_draft event) /\ re_seq event = seq st + 1 /\
                     mid = posted event st /\ quiet mid st') \/ quiet st st'.
Proof.
  intros [attribution eventId written rendered draft s|agentMode eventId written supported rendered data s
         |answer s|answer data argumentsJson s|answer data s].
  - unfold publish. destruct (stamp _ _ _ _ _ _ _ _) as [event|] eqn:E; [|right; constructor].
    apply stamp_ok in E as [H ->]. destruct written; [|right; constructor].
    left. eexists {| re_event_id := eventId; re_seq := seq s + 1; re_draft := draft |}, _. split_and!; [exact H|reflexivity..|apply quiet_refl].
  - unfold publishBoundRunStarted. destruct (validate _ _ _); [|right; constructor].
    destruct supported; [|right; constructor]. cbn [negb].
    destruct (stamp _ _ _ _ _ _ _ _) as [event|] eqn:E; [|right; constructor].
    apply stamp_ok in E as [H ->]. destruct written; [|right; constructor].
    left. eexists {| re_event_id := eventId; re_seq := seq s + 1; re_draft := ev_run_started data |}, _. split_and!; [exact H|reflexivity..|].
    destruct agentMode as [m|]; [exact (quiet_mode m (posted _ s))|exact (quiet_refl (posted _ s))].
  - right. unfold publishGoalChangeEvent. destruct (_ || _); [constructor|]. destruct answer; constructor.
  - right. unfold adoptPendingCall. destruct (_ || _) eqn:E; [constructor|].
    destruct answer; [constructor..|]. cbn [snd]. rewrite !orb_false_iff in E.
    destruct E as (((((Hs & _) & Hm) & _) & Hn) & Hh). apply quiet_adopt.
    + by apply negb_false_iff in Hs.
    + by apply negb_false_iff, bool_decide_eq_true in Hm.
    + apply negb_false_iff in Hn. lia.
    + by apply jm_has_false.
  - right. unfold recoverAdoptedCall. destruct (jm_get _ _); [|constructor].
    destruct (_ || _); [constructor|]. destruct answer; constructor.
Qed.

Lemma posted_step st event :
  accepts st (re_draft event) -> re_seq event = seq st + 1 -> pstep st (posted event st).
Proof.
  intros (attribution & Hv & Hs) Hseq.
  assert (posted event st = (publish sha256Bytes localeLe runId sessionId attribution (re_event_id event) true true
                               (re_draft event) st).2) as ->; [|constructor].
  unfold publish, stamp. rewrite Hv, Hs. cbn. destruct event as [id s draft]. cbn in *. by rewrite Hseq.
Qed.

(** Induction over the events of a run. *)
Lemma reachable_inv (P : EventPublisher -> Prop) :
  P initialPublisher ->
  (forall st event, reachable st -> P st -> accepts st (re_draft event) -> P (posted event st)) ->
  (forall st st', reachable st -> P st -> quiet st st' -> P st') ->
  forall st, reachable st -> P st.
Proof.
  intros Hinit Hpost Hquiet. apply (rtc_ind_r (fun st => P st) initialPublisher); [done|].
  intros st st' Hst Hstep IH. apply publisher_step_cases in Hstep as [(event & mid & Ha & Hseq & -> & Hq)|Hq];
    [|by eapply Hquiet].
  eapply Hquiet; [|by apply Hpost|exact Hq].
  eapply rtc_r; [exact Hst|]. by apply posted_step.
Qed.

(** An event of the log was accepted by the state whose log ends before it. *)
Lemma publisher_history_adopted st pre draft post :
  reachable st -> log st = pre ++ draft :: post ->
  exists st', reachable st' /\ log st' = pre /\ accepts st' draft /\ adoptedCalls st' ⊆ adoptedCalls st.
Proof.
  intros Hst. revert pre draft post. revert st Hst. apply (reachable_inv (fun st => forall pre draft post,
    log st = pre ++ draft :: post ->
    exists st', reachable st' /\ log st' = pre /\ accepts st' draft /\ adoptedCalls st' ⊆ adoptedCalls st)).
  - intros [] ? ? H; discriminate H.
  - intros st event Hst IH Ha pre draft post H. rewrite posted_log in H.
    assert (Had : adoptedCalls (posted event st) = adoptedCalls st) by field_cases. rewrite Had.
    destruct post as [|x post _] using rev_ind.
    + apply app_inj_tail in H as [<- <-]. eauto.
    + rewrite app_comm_cons, app_assoc in H. apply app_inj_tail in H as [H _]. by eapply IH.
  - intros st st' Hst IH Hq pre draft post H.
    destruct (IH pre draft post) as (s & ? & ? & ? & Hs); [by destruct Hq|].
    exists s. split_and!; [done..|]. destruct Hq; cbn; set_solver.
Qed.

Lemma publisher_history st pre draft post :
  reachable st -> log st = pre ++ draft :: post ->
  exists st', reachable st' /\ log st' = pre /\ accepts st' draft.
Proof. intros Hst Hl. destruct (publisher_history_adopted _ _ _ _ Hst Hl) as (s & ? & ? & ? & _). eauto. Qed.

(** ** Where the entries of the maps come from *)

(** An entry that an event makes, and that later events keep or replace, is the
    work of an event of the log. *)
Lemma reachable_sourced {K V} (get : EventPublisher -> K -> option V) (source : K -> V -> RunEventDraft -> Prop) :
  (forall k, get initialPublisher k = None) ->
  (forall st event k v, reachable st -> accepts st (re_draft event) -> get (posted event st) k = Some v ->
     source k v (re_draft event) \/
     exists v0, get st k = Some v0 /\ forall e, source k v0 e -> source k v e) ->
  (forall st st' k, quiet st st' -> get st' k = get st k) ->
  forall st k v, reachable st -> get st k = Some v -> exists e, e ∈ log st /\ source k v e.
Proof.
  intros Hinit Hpost Hquiet st k v Hst. revert k v. revert st Hst. apply (reachable_inv (fun st => forall k v,
    get st k = Some v -> exists e, e ∈ log st /\ source k v e)).
  - intros k v Hk. by rewrite Hinit in Hk.
  - intros st event Hst IH Ha k v Hk. rewrite posted_log.
    apply Hpost in Hk as [Hk|(v0 & Hk & Hv)]; [|apply IH in Hk as (e & He & Hs)|done|done].
    + exists (re_draft event). split; [|done]. apply elem_of_app. right. by left.
    + exists e. split; [apply elem_of_app; by left|by apply Hv].
  - intros st st' Hst IH Hq k v Hk. rewrite (Hquiet _ _ _ Hq) in Hk. apply IH in Hk as (e & He & Hs).
    exists e. split; [by destruct Hq|done].
Qed.

Lemma permission_source st c p :
  reachable st -> permissions st !! c = Some p -> exists d, ev_permission_evaluated d ∈ log st /\
    pev_call_id d = c /\ p = {| pm_actionSha256 := pev_action_sha256 d; pm_effect := pev_effect d; pm_step := pev_step d |}.
Proof.
  intros Hst Hp. destruct (reachable_sourced (fun st c => permissions st !! c) (fun c p e => match e with
    | ev_permission_evaluated d => pev_call_id d = c /\
        p = {| pm_actionSha256 := pev_action_sha256 d; pm_effect := pev_effect d; pm_step := pev_step d |}
    | _ => False end)) with (st := st) (k := c) (v := p) as (e & He & Hs); [done| | |done|done|].
  - intros s event k v _ _ Hk. rewrite posted_permissions in Hk.
    destruct (re_draft event); try (right; by eauto).
    apply lookup_insert_Some in Hk as [[<- <-]|[_ Hk]]; [by left|right; by eauto].
  - intros s s' k Hq. by destruct Hq.
  - destruct e; try done. by eauto.
Qed.

Lemma plan_source st c p :
  reachable st -> patchPlans st !! c = Some p -> exists d, ev_patch_plan_created d ∈ log st /\ ppc_call_id d = c /\
    p = {| pp_planId := ppc_plan_id d; pp_ruleManifestSha256 := ppc_rule_manifest_sha256 d;
           pp_ruleScopeSetSha256 := ppc_rule_scope_set_sha256 d; pp_step := ppc_step d |}.
Proof.
  intros Hst Hp. destruct (reachable_sourced (fun st c => patchPlans st !! c) (fun c p e => match e with
    | ev_patch_plan_created d => ppc_call_id d = c /\
        p = {| pp_planId := ppc_plan_id d; pp_ruleManifestSha256 := ppc_rule_manifest_sha256 d;
               pp_ruleScopeSetSha256 := ppc_rule_scope_set_sha256 d; pp_step := ppc_step d |}
    | _ => False end)) with (st := st) (k := c) (v := p) as (e & He & Hs); [done| | |done|done|].
  - intros s event k v _ _ Hk. rewrite posted_plans in Hk.
    destruct (re_draft event); try (right; by eauto).
    apply lookup_insert_Some in Hk as [[<- <-]|[_ Hk]]; [by left|right; by eauto].
  - intros s s' k Hq. by destruct Hq.
  - destruct e; try done. by eauto.
Qed.

(** An approval is the one its request opened, up to the decision. *)
Lemma approval_source st id a :
  reachable st -> jm_get id (approvals st) = Some a -> exists d, ev_approval_requested d ∈ log st /\
    arp_approval_request_id d = id /\ a <| ap_decision := None |> = newApproval d.
Proof.
  intros Hst Hp. destruct (reachable_sourced (fun st id => jm_get id (approvals st)) (fun id a e => match e with
    | ev_approval_requested d => arp_approval_request_id d = id /\ a <| ap_decision := None |> = newApproval d
    | _ => False end)) with (st := st) (k := id) (v := a) as (e & He & Hs); [done| | |done|done|].
  - intros s event k v _ _ Hk. rewrite posted_approvals in Hk.
    destruct (re_draft event); try (right; by eauto).
    + apply jm_set_Some in Hk as [[<- ->]|[_ Hk]]; [by left|right; by eauto].
    + apply jm_alter_Some in Hk as [[<- (v0 & Hk & ->)]|[_ Hk]]; right; [|by eauto].
      exists v0. split; [done|]. by intros [].
  - intros s s' k Hq. by destruct Hq.
  - destruct e; try done. by eauto.
Qed.

(** What a draft must be to be accepted as an agent event. *)
Lemma accepts_checks st draft :
  accepts st draft -> terminal st = false /\ runEventSchema draft = true /\
  exists attribution, validate attribution draft st = Ok ().
Proof.
  intros (attribution & Hv & Hs). split_and!; [|done|eauto]. unfold validateTransition in Hv.
  apply bind_ok in Hv as (u & Ht%refuse_when_ok & _). done.
Qed.

(** An event type that only agent runs publish was validated as one. *)
Lemma accepts_agent st draft :
  accepts st draft -> isAgentEvent draft = true -> command st <> None ->
  exists attribution,
    validateAgentTransition sha256Bytes localeLe runId sessionId attribution draft st = Ok ().
Proof.
  intros (attribution & Hv & _) Hagent Hc. exists attribution. unfold validateTransition in Hv.
  do 4 (apply bind_ok in Hv as (? & _ & Hv)).
  destruct draft; try done; apply bind_ok in Hv as (? & _ & Hv); apply bind_ok in Hv as ([] & Hv & _);
    (destruct (command st) as [[]|]; [exact Hv|by apply refuse_when_ok in Hv|done]).
Qed.

Lemma command_known st : reachable st -> started st = true <-> command st <> None.
Proof.
  revert st. apply reachable_inv; [done| |].
  - intros st event Hst IH Ha. rewrite posted_started, posted_command. destruct (re_draft event); done.
  - intros st st' Hst IH Hq. by destruct Hq.
Qed.

Lemma accepts_started st draft :
  accepts st draft -> match draft with ev_run_started _ => False | _ => True end -> started st = true.
Proof.
  intros (attribution & Hv & _) Hd. unfold validateTransition in Hv.
  apply bind_ok in Hv as (? & _ & Hv). apply bind_ok in Hv as (? & Hs%refuse_when_ok & _).
  destruct (started st); [done|]. by destruct draft.
Qed.

Lemma accepted_as_agent st draft :
  reachable st -> accepts st draft -> isAgentEvent draft = true ->
  exists attribution,
    validateAgentTransition sha256Bytes localeLe runId sessionId attribution draft st = Ok ().
Proof.
  intros Hst Ha Hd. apply accepts_agent; [done|done|]. apply command_known; [done|].
  eapply accepts_started; [done|]. by destruct draft.
Qed.

(** A decision that is recorded was made on the action of its request. *)
Lemma decision_source st id a dec :
  reachable st -> jm_get id (approvals st) = Some a -> ap_decision a = Some dec ->
  exists d, ev_approval_decided d ∈ log st /\ adp_approval_request_id d = id /\ adp_decision d = dec /\
    adp_call_id d = ap_callId a /\ approvalActionSha256 (adp_action d) = ap_actionSha256 a /\
    match adp_action d with ApplyPatchAction _ plan _ _ => ap_planId a = Some plan
                          | RunCommandAction _ => ap_actionKind a = action_run_command end.
Proof.
  intros Hst Hid Hdec.
  destruct (reachable_sourced
    (fun st id => a ← jm_get id (approvals st); dec ← ap_decision a; Some (a, dec))
    (fun id '(a, dec) e => match e with
    | ev_approval_decided d => adp_approval_request_id d = id /\ adp_decision d = dec /\
        adp_call_id d = ap_callId a /\ approvalActionSha256 (adp_action d) = ap_actionSha256 a /\
        match adp_action d with ApplyPatchAction _ plan _ _ => ap_planId a = Some plan
                              | RunCommandAction _ => ap_actionKind a = action_run_command end
    | _ => False end)) with (st := st) (k := id) (v := (a, dec)) as (e & He & Hs); [done| | |done| |].
  - intros s event k [a' dec'] Hr Ha Hk. rewrite posted_approvals in Hk.
    destruct (re_draft event) eqn:Hd; try (right; by eauto).
    + destruct (jm_get k (jm_set _ _ _)) as [a1|] eqn:E; [|done]. cbn in Hk.
      apply jm_set_Some in E as [[<- ->]|[_ E]]; [done|]. right. rewrite E. cbn. by eauto.
    + destruct (jm_get k (jm_alter _ _ _)) as [a1|] eqn:E; [|done]. cbn in Hk.
      apply jm_alter_Some in E as [[<- (a0 & E & ->)]|[_ E]]; [|right; rewrite E; cbn; by eauto].
      left. cbn in Hk. simplify_eq. apply accepted_as_agent in Ha as (attribution & Hv); [|done..].
      cbn in Hv. unfold validateApprovalDecided in Hv. rewrite E in Hv.
      apply bind_ok in Hv as (? & Hb%refuse_when_ok & Hv). rewrite !orb_false_iff, !negb_false_iff in Hb.
      destruct Hb as ((((_ & Hkind) & Hcall) & Hsha) & _). apply bool_decide_eq_true in Hkind, Hcall, Hsha. cbn.
      split_and!; [done..|]. destruct (adp_action data); [|done].
      apply refuse_when_ok in Hv. by apply negb_false_iff, bool_decide_eq_true in Hv.
  - intros s s' k Hq. by destruct Hq.
  - cbn. by rewrite Hid; cbn; rewrite Hdec.
  - destruct e; try done. by eauto.
Qed.

(** The fixed part of an execution is its request. *)
Lemma execution_source st x ex :
  reachable st -> jm_get x (commandExecutions st) = Some ex -> exists d, ev_command_requested d ∈ log st /\
    ci_execution_id (crq_id d) = x /\ cx_requestedData ex = d /\ cx_executionId ex = x /\
    cx_callId ex = ci_call_id (crq_id d) /\ cx_actionSha256 ex = ci_action_sha256 (crq_id d) /\
    cx_purpose ex = crq_purpose d.
Proof.
  intros Hst Hx. destruct (reachable_sourced (fun st x => jm_get x (commandExecutions st)) (fun x ex e => match e with
    | ev_command_requested d => ci_execution_id (crq_id d) = x /\ cx_requestedData ex = d /\ cx_executionId ex = x /\
        cx_callId ex = ci_call_id (crq_id d) /\ cx_actionSha256 ex = ci_action_sha256 (crq_id d) /\
        cx_purpose ex = crq_purpose d
    | _ => False end)) with (st := st) (k := x) (v := ex) as (e & He & Hs); [done| | |done|done|].
  - intros s event k v _ _ Hk. rewrite posted_executions in Hk.
    destruct (re_draft event); try (right; by eauto);
      try (apply jm_alter_Some in Hk as [[<- (v0 & Hk & ->)]|[_ Hk]]; right; [|by eauto];
           exists v0; split; [done|]; intros []; try done; unfold addOutput; case_match; done).
    + apply jm_set_Some in Hk as [[<- ->]|[_ Hk]]; [by left|right; by eauto].
  - intros s s' k Hq. by destruct Hq.
  - destruct e; try done. by eauto.
Qed.

(** A completed execution was completed by an event that says so. *)
Lemma completion_source st x ex c :
  reachable st -> jm_get x (commandExecutions st) = Some ex -> cx_completedData ex = Some c ->
  ev_command_completed c ∈ log st /\ ci_execution_id (ccp_id c) = x /\
  cx_cleanupVerified ex = Some (ccp_cleanup_verified c).
Proof.
  intros Hst Hx Hc. destruct (reachable_sourced
    (fun st x => ex ← jm_get x (commandExecutions st); c ← cx_completedData ex; Some (cx_cleanupVerified ex, c))
    (fun x '(cleanup, c) e => e = ev_command_completed c /\ ci_execution_id (ccp_id c) = x /\
       cleanup = Some (ccp_cleanup_verified c))) with (st := st) (k := x) (v := (cx_cleanupVerified ex, c))
    as (e & He & -> & ?); [done| | |done| |done].
  - intros s event k [cleanup c'] _ _ Hk. rewrite posted_executions in Hk.
    destruct (re_draft event); try (right; by eauto);
      (destruct (jm_get k _) as [ex1|] eqn:E; [|done]); cbn in Hk.
    + apply jm_set_Some in E as [[<- ->]|[_ E]]; [done|]. right. rewrite E. cbn. by eauto.
    + apply jm_alter_Some in E as [[<- (a0 & E & ->)]|[_ E]]; right; rewrite E; cbn; by eauto.
    + apply jm_alter_Some in E as [[<- (a0 & E & ->)]|[_ E]]; right; rewrite E; cbn; [|by eauto].
      unfold addOutput in Hk. destruct (cop_channel data); by eauto.
    + apply jm_alter_Some in E as [[<- (a0 & E & ->)]|[_ E]]; [|right; rewrite E; cbn; by eauto].
      left. cbn in Hk. by simplify_eq.
  - intros s s' k Hq. by destruct Hq.
  - cbn. by rewrite Hx; cbn; rewrite Hc.
Qed.

Lemma verification_started_source st v vs :
  reachable st -> jm_get v (verifications st) = Some vs ->
  ev_verification_started (vf_started vs) ∈ log st /\ vid_verification_id (vsp_id (vf_started vs)) = v.
Proof.
  intros Hst Hv. destruct (reachable_sourced (fun st v => jm_get v (verifications st))
    (fun v vs e => e = ev_verification_started (vf_started vs) /\ vid_verification_id (vsp_id (vf_started vs)) = v))
    with (st := st) (k := v) (v := vs) as (e & He & -> & ?); [done| | |done|done|done].
  - intros s event k w _ _ Hk. rewrite posted_verifications in Hk.
    destruct (re_draft event); try (right; by eauto).
    + apply jm_set_Some in Hk as [[<- ->]|[_ Hk]]; [by left|right; by eauto].
    + apply jm_alter_Some in Hk as [[<- (v0 & Hk & ->)]|[_ Hk]]; right; by eauto.
  - intros s s' k Hq. by destruct Hq.
Qed.

Lemma verification_completed_source st v vs c :
  reachable st -> jm_get v (verifications st) = Some vs -> vf_completed vs = Some c ->
  ev_verification_completed c ∈ log st /\ vid_verification_id (vcp_id c) = v.
Proof.
  intros Hst Hv Hc. destruct (reachable_sourced (fun st v => vs ← jm_get v (verifications st); vf_completed vs)
    (fun v c e => e = ev_verification_completed c /\ vid_verification_id (vcp_id c) = v))
    with (st := st) (k := v) (v := c) as (e & He & -> & ?); [done| | |done|cbn; by rewrite Hv|done].
  - intros s event k w _ _ Hk. rewrite posted_verifications in Hk.
    destruct (re_draft event); try (right; by eauto);
      (destruct (jm_get k _) as [vs1|] eqn:E; [|done]); cbn in Hk.
    + apply jm_set_Some in E as [[<- ->]|[_ E]]; [done|]. right. rewrite E. cbn. by eauto.
    + apply jm_alter_Some in E as [[<- (a0 & E & ->)]|[_ E]]; [|right; rewrite E; cbn; by eauto].
      left. cbn in Hk. by simplify_eq.
  - intros s s' k Hq. by destruct Hq.
Qed.

Lemma evaluated_source st c e :
  reachable st -> evaluatedOf st (Some c) = Some e -> ev_completion_evaluated e ∈ log st /\ cvp_call_id e = c.
Proof.
  intros Hst He. destruct (reachable_sourced (fun st c => evaluatedOf st (Some c))
    (fun c e ev => ev = ev_completion_evaluated e /\ cvp_call_id e = c))
    with (st := st) (k := c) (v := e) as (ev & Hin & -> & ?); [done| | |done|done|done].
  - intros s event k w _ _ Hk. unfold evaluatedOf in *. rewrite posted_candidates in Hk. cbn [mbind option_bind] in *.
    destruct (re_draft event); try (right; by eauto); (destruct (_ !! k) as [c1|] eqn:E in Hk; [|done]); cbn in Hk.
    + apply lookup_insert_Some in E as [[<- <-]|[_ E]]; [done|]. right. rewrite E. cbn. by eauto.
    + apply lookup_alter_Some in E as [(<- & c0 & E & ->)|[_ E]]; [|right; rewrite E; cbn; by eauto].
      left. cbn in Hk. by simplify_eq.
  - intros s s' k Hq. by destruct Hq.
Qed.

Lemma evidence_source st sha e :
  reachable st -> completionEvidence st !! sha = Some e ->
  ev_completion_evidence e ∈ log st /\ cep_evidence_sha256 e = sha.
Proof.
  intros Hst He. destruct (reachable_sourced (fun st sha => completionEvidence st !! sha)
    (fun sha e ev => ev = ev_completion_evidence e /\ cep_evidence_sha256 e = sha))
    with (st := st) (k := sha) (v := e) as (ev & Hin & -> & ?); [done| | |done|done|done].
  - intros s event k w _ _ Hk. rewrite posted_evidence in Hk. destruct (re_draft event); try (right; by eauto).
    apply lookup_insert_Some in Hk as [[<- <-]|[_ Hk]]; [by left|right; by eauto].
  - intros s s' k Hq. by destruct Hq.
Qed.

(** ** The order of a run *)

Lemma started_log st : reachable st -> started st = true <-> log st <> [].
Proof.
  revert st. apply reachable_inv; [done| |].
  - intros st event Hst IH Ha. rewrite posted_started, posted_log.
    assert (log st ++ [re_draft event] <> []) by by destruct (log st).
    split; [done|]. intros _. destruct (re_draft event) eqn:Hd; try done; by apply (accepts_started st _ Ha).
  - intros st st' Hst IH Hq. by destruct Hq.
Qed.

Lemma accepts_order st draft :
  accepts st draft ->
  (started st = false <-> exists d, draft = ev_run_started d) /\
  (started st = true -> backendSelected st = None <-> exists d, draft = ev_backend_selected d).
Proof.
  intros (attribution & Hv & _). unfold validateTransition in Hv.
  apply bind_ok in Hv as (? & _ & Hv). apply bind_ok in Hv as (? & H1%refuse_when_ok & Hv).
  apply bind_ok in Hv as (? & H2%refuse_when_ok & Hv). apply bind_ok in Hv as (? & H3%refuse_when_ok & Hv).
  split.
  - destruct (started st), draft; cbn in H1, H2; naive_solver.
  - intros Hs. rewrite Hs in H3. split.
    + intros Hb. rewrite Hb in H3. destruct draft; cbn in H3; naive_solver.
    + intros [d ->]. apply bind_ok in Hv as (? & H4%refuse_when_ok & _). by destruct (backendSelected st).
Qed.

Lemma backend_log st : reachable st -> backendSelected st <> None <-> (1 < length (log st))%nat.
Proof.
  revert st. apply reachable_inv; [split; [done|cbn; lia]| |].
  - intros st event Hst IH Ha. rewrite posted_backend, posted_log, length_app. cbn [length].
    pose proof (accepts_order st _ Ha) as [Hstart Hback]. pose proof (started_log st Hst) as Hlog.
    destruct (started st) eqn:Es.
    + destruct (log st) as [|x l] eqn:El; [by destruct (proj1 Hlog eq_refl)|]. cbn [length] in *.
      destruct (re_draft event) eqn:Hd; try (split; [intros _; lia|done]);
        (split; [intros _; lia|]; intros _ Hn; apply Hback in Hn as [? ?]; [done|done]).
    + destruct Hstart as [Hstart _]. destruct Hstart as [d Hd]; [done|]. rewrite Hd.
      destruct (log st) as [|x l] eqn:El.
      * cbn. rewrite IH. cbn. lia.
      * assert (false = true) by (apply Hlog; done). done.
  - intros st st' Hst IH Hq. by destruct Hq.
Qed.

Lemma terminal_log st : reachable st -> terminal st = true <-> Exists (fun e => isTerminalRunEvent e = true) (log st).
Proof.
  revert st. apply reachable_inv.
  - split; [done|]. intros H. inversion H.
  - intros st event Hst IH Ha. rewrite posted_terminal, posted_log, Exists_app, orb_true_iff, IH, Exists_cons.
    rewrite Exists_nil. tauto.
  - intros st st' Hst IH Hq. by destruct Hq.
Qed.

(** ** What the log already holds *)

Lemma approvals_NoDup st : reachable st -> NoDup (fst <$> approvals st).
Proof.
  revert st. apply reachable_inv; [constructor| |].
  - intros st event Hst IH Ha. rewrite posted_approvals.
    destruct (re_draft event); try done; [by apply jm_set_NoDup|by rewrite jm_alter_keys].
  - intros st st' Hst IH Hq. by destruct Hq.
Qed.

(** A key that an event sets stays set. *)
Lemma reachable_logged (has : EventPublisher -> string -> Prop) (key : RunEventDraft -> option string) :
  (forall st event k, reachable st -> accepts st (re_draft event) ->
     key (re_draft event) = Some k \/ has st k -> has (posted event st) k) ->
  (forall st st' k, quiet st st' -> has st k -> has st' k) ->
  forall st e k, reachable st -> e ∈ log st -> key e = Some k -> has st k.
Proof.
  intros Hpost Hquiet st e k Hst. revert e k. revert st Hst.
  apply (reachable_inv (fun st => forall e k, e ∈ log st -> key e = Some k -> has st k)).
  - intros e k He. by apply not_elem_of_nil in He.
  - intros st event Hst IH Ha e k. rewrite posted_log. intros [He| ->%list_elem_of_singleton]%elem_of_app Hk.
    + apply Hpost; [done|done|]. right. by eapply IH.
    + apply Hpost; [done|done|]. by left.
  - intros st st' Hst IH Hq e k He Hk. eapply Hquiet; [done|]. eapply IH; [|done]. by destruct Hq.
Qed.

Lemma command_logged st d :
  reachable st -> ev_command_requested d ∈ log st ->
  is_Some (commandExecutionsByCall st !! ci_call_id (crq_id d)) /\
  is_Some (jm_get (ci_execution_id (crq_id d)) (commandExecutions st)).
Proof.
  intros Hst Hd. split.
  - eapply (reachable_logged (fun st k => is_Some (commandExecutionsByCall st !! k))
      (fun e => match e with ev_command_requested d => Some (ci_call_id (crq_id d)) | _ => None end));
      [| |exact Hst|exact Hd|done].
    + intros s event k _ _. assert (commandExecutionsByCall (posted event s) = match re_draft event with
        | ev_command_requested d => <[ci_call_id (crq_id d) := ci_execution_id (crq_id d)]> (commandExecutionsByCall s)
        | _ => commandExecutionsByCall s end) as -> by field_cases.
      destruct (re_draft event); try (intros [?|?]; done). rewrite lookup_insert_is_Some'. naive_solver.
    + intros s s' k Hq. by destruct Hq.
  - eapply (reachable_logged (fun st k => is_Some (jm_get k (commandExecutions st)))
      (fun e => match e with ev_command_requested d => Some (ci_execution_id (crq_id d)) | _ => None end));
      [| |exact Hst|exact Hd|done].
    + intros s event k _ _. rewrite posted_executions, !jm_get_elem_of.
      destruct (re_draft event); try (intros [?|?]; done); try (rewrite jm_alter_keys; by intros [?|?]).
      intros H. rewrite <-jm_get_elem_of in *. rewrite jm_get_set. case_decide; [by eauto|].
      destruct H as [H|H]; [by simplify_eq|done].
    + intros s s' k Hq. by destruct Hq.
Qed.

Lemma apply_logged st d :
  reachable st -> ev_patch_apply_started d ∈ log st -> is_Some (jm_get (pas_call_id d) (patchApplies st)).
Proof.
  intros Hst Hd. eapply (reachable_logged (fun st k => is_Some (jm_get k (patchApplies st)))
      (fun e => match e with ev_patch_apply_started d => Some (pas_call_id d) | _ => None end));
      [| |exact Hst|exact Hd|done].
  - intros s event k _ _. assert (patchApplies (posted event s) = match re_draft event with
        | ev_patch_apply_started d => jm_set (pas_call_id d)
              {| pa_approvalRequestId := pas_approval_request_id d; pa_completed := false;
                 pa_completedData := None; pa_files := pas_files d; pa_planId := pas_plan_id d;
                 pa_ruleManifestSha256 := pas_rule_manifest_sha256 d;
                 pa_ruleScopeSetSha256 := pas_rule_scope_set_sha256 d; pa_step := pas_step d |} (patchApplies s)
        | ev_patch_apply_completed d =>
            jm_alter (fun a => a <| pa_completed := true |> <| pa_completedData := Some d |>) (pac_call_id d)
              (patchApplies s)
        | _ => patchApplies s end) as -> by (unfold jm_alter; field_cases).
    rewrite !jm_get_elem_of. destruct (re_draft event); try (intros [?|?]; done).
    + rewrite <-!jm_get_elem_of, jm_get_set. intros Hk. case_decide; [by eauto|].
      destruct Hk as [Hk|Hk]; [by simplify_eq|done].
    + rewrite jm_alter_keys. by intros [?|?].
  - intros s s' k Hq. by destruct Hq.
Qed.

(** ** Counters *)

Definition countOf (p : RunEventDraft -> bool) (l : list RunEventDraft) : Z := Z.of_nat (length (List.filter p l)).

Lemma countOf_snoc p l e : countOf p (l ++ [e]) = countOf p l + (if p e then 1 else 0).
Proof. unfold countOf. rewrite List.filter_app, length_app. cbn. destruct (p e); cbn; lia. Qed.

Lemma countOf_app p l k : countOf p (l ++ k) = countOf p l + countOf p k.
Proof. unfold countOf. rewrite List.filter_app, length_app. lia. Qed.

Lemma countOf_zero p l : countOf p l = 0 -> forall e, e ∈ l -> p e = false.
Proof.
  unfold countOf. intros H e He. apply not_true_is_false. intros Hp.
  assert (e ∈ List.filter p l) as Hin by by apply list_elem_of_In, filter_In; split; [apply list_elem_of_In|].
  destruct (List.filter p l); [by apply not_elem_of_nil in Hin|cbn in H; lia].
Qed.

Definition isPatchCompleted (e : RunEventDraft) : bool :=
  match e with ev_patch_apply_completed _ => true | _ => false end.

(** A generation is a number of applied patches. *)
Lemma generation_log st : reachable st -> verificationGeneration st = countOf isPatchCompleted (log st).
Proof.
  revert st. apply reachable_inv; [done| |].
  - intros st event Hst IH Ha. rewrite posted_log, countOf_snoc, <-IH.
    assert (verificationGeneration (posted event st) = match re_draft event with
      | ev_patch_apply_completed d => match jm_get (pac_call_id d) (patchApplies st) with
                                      | Some _ => Z.succ (verificationGeneration st)
                                      | None => verificationGeneration st end
      | _ => verificationGeneration st end) as -> by field_cases.
    destruct (re_draft event) eqn:Hd; cbn; try lia.
    apply accepted_as_agent in Ha as (attribution & Hv); [|done..]. cbn in Hv. apply refuse_when_ok, negb_false_iff in Hv.
    destruct (jm_get _ _); [lia|done].
  - intros st st' Hst IH Hq. by destruct Hq.
Qed.

(** *** Text *)

Definition deltaChars (e : RunEventDraft) : Z :=
  match e with ev_text_delta d => Z.of_nat (length (td_delta d)) | _ => 0 end.
Definition sumBy (f : RunEventDraft -> Z) (l : list RunEventDraft) : Z := fold_right (fun e n => f e + n) 0 l.

Lemma sumBy_app f l k : sumBy f (l ++ k) = sumBy f l + sumBy f k.
Proof. unfold sumBy. induction l as [|e l IH]; cbn [app fold_right]; lia. Qed.

Lemma outputChars_log st : reachable st -> outputChars st = sumBy deltaChars (log st).
Proof.
  revert st. apply reachable_inv; [done| |].
  - intros st event Hst IH Ha. rewrite posted_log, sumBy_app, posted_outputChars, <-IH. cbn.
    destruct (re_draft event); cbn; lia.
  - intros st st' Hst IH Hq. by destruct Hq.
Qed.

(** *** Steps *)

Definition isStepStarted (e : RunEventDraft) : bool := match e with ev_agent_step_started _ => true | _ => false end.
Definition usageEvent (e : RunEventDraft) : option ModelUsageData :=
  match e with ev_model_usage d => Some d | _ => None end.

(** Steps are numbered from 1; only the last can be active; their usages are the
    usage events, in order. *)
Record steps_inv (st : EventPublisher) : Prop := {
  si_keys : fst <$> agentSteps st = seqZ 1 (stepCount st);
  si_count : stepCount st = countOf isStepStarted (log st);
  si_active : forall n, activeAgentStep st = Some n -> n = stepCount st /\ 0 < n;
  si_usage : omap as_modelUsage (jm_values (agentSteps st)) = omap usageEvent (log st);
}.

Lemma agentSteps_split st n :
  steps_inv st -> n = stepCount st -> 0 < n -> exists l s,
    agentSteps st = l ++ [(n, s)] /\ n ∉ fst <$> l.
Proof.
  intros [Hk _ _ _] Hn Hpos. unfold stepCount in *.
  destruct (agentSteps st) as [|[k s] l _] eqn:E using rev_ind; [cbn in *; lia|].
  rewrite length_app, fmap_app in Hk. cbn [length fmap list_fmap fst] in Hk.
  rewrite length_app in Hn. cbn [length] in Hn.
  rewrite Nat.add_1_r in *. rewrite seqZ_S in Hk. apply app_inj_tail in Hk as [Hk ->].
  exists l, s. replace n with (1 + Z.of_nat (length l)) by lia. split; [done|].
  rewrite Hk, elem_of_seqZ. lia.
Qed.

Lemma jm_alter_last {V} (f : V -> V) (k : Z) l v :
  k ∉ fst <$> l -> jm_alter f k (l ++ [(k, v)]) = l ++ [(k, f v)].
Proof.
  intros Hk. unfold jm_alter.
  assert (Hget : forall l' : jsmap Z V, k ∉ fst <$> l' -> jm_get k (l' ++ [(k, v)]) = Some v /\
    forall w, jm_set k w (l' ++ [(k, v)]) = l' ++ [(k, w)]).
  { intros l'. induction l' as [|[k' v'] l' IH]; cbn [app jm_get jm_set fmap list_fmap fst]; intros Hk'.
    - split; [|intros w]; by case_decide.
    - assert (k <> k') by set_solver. destruct IH as [-> IH]; [set_solver|].
      split; [|intros w]; (case_decide; [done|]); [done|]. by rewrite IH. }
  destruct (Hget l Hk) as [-> H]. apply H.
Qed.

Lemma omap_values_snoc (l : jsmap Z AgentStepState) k s :
  omap as_modelUsage (jm_values (l ++ [(k, s)])) =
  omap as_modelUsage (jm_values l) ++ match as_modelUsage s with Some u => [u] | None => [] end.
Proof. unfold jm_values. rewrite fmap_app, omap_app. cbn. by destruct (as_modelUsage s). Qed.

(** An assignment that keeps the usages keeps the list of usages. *)
Lemma omap_values_alter (f : AgentStepState -> AgentStepState) k (m : jsmap Z AgentStepState) :
  (forall s, as_modelUsage (f s) = as_modelUsage s) ->
  omap as_modelUsage (jm_values (jm_alter f k m)) = omap as_modelUsage (jm_values m).
Proof.
  intros Hf. unfold jm_alter. destruct (jm_get k m) as [v|] eqn:E; [|done].
  revert v E. induction m as [|[k' v'] m IH]; intros v E; [done|]. cbn [jm_get jm_set] in *. unfold jm_values in *.
  case_decide.
  - simplify_eq. cbn. by rewrite Hf.
  - cbn. by rewrite (IH v E).
Qed.

Lemma steps_inv_alter f k st st' event :
  steps_inv st -> (forall s, as_modelUsage (f s) = as_modelUsage s) ->
  agentSteps st' = jm_alter f k (agentSteps st) -> log st' = log st ++ [event] ->
  isStepStarted event = false -> usageEvent event = None ->
  (activeAgentStep st' = activeAgentStep st \/ activeAgentStep st' = None) -> steps_inv st'.
Proof.
  intros [Hk Hc Ha Hu] Hf Hs Hl He He' Hact.
  assert (Hn : stepCount st' = stepCount st).
  { unfold stepCount. rewrite Hs, <-!(length_fmap fst), jm_alter_keys. done. }
  split.
  - rewrite Hs, jm_alter_keys, Hn. done.
  - rewrite Hn, Hl, countOf_snoc, He, <-Hc. lia.
  - rewrite Hn. intros n Hn'. apply Ha. destruct Hact as [Hact|Hact]; congruence.
  - rewrite Hs, omap_values_alter by done. rewrite Hl, omap_app. cbn. by rewrite He', app_nil_r.
Qed.

Lemma steps_inv_same st st' event :
  steps_inv st -> agentSteps st' = agentSteps st -> activeAgentStep st' = activeAgentStep st ->
  log st' = log st ++ [event] -> isStepStarted event = false -> usageEvent event = None -> steps_inv st'.
Proof.
  intros [Hk Hc Ha Hu] Hs Hact Hl He He'. split; unfold stepCount in *; rewrite Hs; try done.
  - by rewrite Hl, countOf_snoc, He, <-Hc, Z.add_0_r.
  - by rewrite Hact.
  - rewrite Hl, omap_app. cbn. by rewrite He', app_nil_r.
Qed.

Lemma steps_inv_started d st st' :
  steps_inv st -> validateAgentStepStarted d st = Ok () -> log st' = log st ++ [ev_agent_step_started d] ->
  agentSteps st' = jm_set (ass_step d) {| as_completed := false; as_modelUsage := None; as_outcome := None;
                                          as_textChars := 0; as_toolCallId := None |} (agentSteps st) ->
  activeAgentStep st' = Some (ass_step d) -> steps_inv st'.
Proof.
  intros [Hk Hc Ha Hu] Hv Hl Hs Hact. unfold validateAgentStepStarted in Hv.
  apply bind_ok in Hv as (u & Hb%refuse_when_ok & _). apply orb_false_iff in Hb as [_ Hstep%negb_false_iff].
  apply Z.eqb_eq in Hstep.
  assert (Hnone : jm_get (ass_step d) (agentSteps st) = None).
  { destruct (jm_get _ _) eqn:E; [|done]. assert (ass_step d ∈ fst <$> agentSteps st) as Hin by by apply jm_get_elem_of; eauto.
    rewrite Hk, elem_of_seqZ in Hin. lia. }
  rewrite jm_set_new_keys in Hs by done.
  assert (Hn : stepCount st' = stepCount st + 1) by (unfold stepCount; rewrite Hs, length_app; cbn; lia).
  split.
  - rewrite Hn, Hs, fmap_app, Hk. unfold stepCount. replace (Z.of_nat (length (agentSteps st)) + 1)
      with (Z.of_nat (S (length (agentSteps st)))) by lia. rewrite seqZ_S. f_equal. cbn. f_equal.
    unfold stepCount in Hstep. lia.
  - rewrite Hn, Hl, countOf_snoc, <-Hc. done.
  - intros n Hn'. rewrite Hact in Hn'. simplify_eq. unfold stepCount in *. lia.
  - rewrite Hs, omap_values_snoc, Hl, omap_app, Hu. done.
Qed.

Lemma steps_inv_usage d st st' :
  steps_inv st -> validateModelUsage d st = Ok () -> log st' = log st ++ [ev_model_usage d] ->
  agentSteps st' = jm_alter (fun s => s <| as_modelUsage := Some d |>) (usageStep d) (agentSteps st) ->
  activeAgentStep st' = activeAgentStep st -> steps_inv st'.
Proof.
  intros Hinv Hv Hl Hs Hact. unfold validateModelUsage in Hv. apply bind_ok in Hv as (u & Hb%refuse_when_ok & _).
  apply orb_false_iff in Hb as [Hactive%negb_false_iff%bool_decide_eq_true Hstep].
  destruct (si_active _ Hinv _ Hactive) as [Hlast Hpos].
  destruct (agentSteps_split st (usageStep d) Hinv Hlast Hpos) as (l & s & El & Hfresh).
  pose proof (jm_alter_last (fun s => s) (usageStep d) l s Hfresh) as _.
  destruct Hinv as [Hk Hc Ha Hu].
  assert (Hn : stepCount st' = stepCount st).
  { unfold stepCount. rewrite Hs, <-!(length_fmap fst), jm_alter_keys. done. }
  assert (Hus : as_modelUsage s = None).
  { assert (Hg : jm_get (usageStep d) (agentSteps st) = Some s).
    { rewrite El. clear -Hfresh. induction l as [|[k v] l IH]; cbn [app jm_get]; [by case_decide|].
      cbn [fmap list_fmap fst] in Hfresh. case_decide; [set_solver|]. apply IH. set_solver. }
    rewrite Hg in Hstep. by destruct (as_modelUsage s). }
  split.
  - by rewrite Hs, jm_alter_keys, Hn.
  - rewrite Hn, Hl, countOf_snoc, <-Hc. cbn. lia.
  - rewrite Hn, Hact. done.
  - rewrite Hs, El, jm_alter_last by done. rewrite omap_values_snoc, Hl, omap_app, <-Hu, El, omap_values_snoc, Hus.
    cbn. by rewrite app_nil_r.
Qed.

Lemma steps_log st : reachable st -> steps_inv st.
Proof.
  revert st. apply reachable_inv.
  - split; cbn; try done.
  - intros st event Hst IH Ha.
    pose proof (posted_agentSteps event st) as Hs. pose proof (posted_active event st) as Hact.
    pose proof (posted_log event st) as Hl.
    destruct (re_draft event) eqn:Hd; try (by eapply steps_inv_same).
    + destruct (activeAgentStep st) as [k|] eqn:E; [|by eapply steps_inv_same; try done; congruence].
      eapply steps_inv_alter; [exact IH| |exact Hs|exact Hl|done|done|left; congruence]. done.
    + apply accepted_as_agent in Ha as (attribution & Hv); [|done..]. by eapply steps_inv_started.
    + apply accepted_as_agent in Ha as (attribution & Hv); [|done..]. by eapply steps_inv_usage.
    + eapply steps_inv_alter; [exact IH| |exact Hs|exact Hl|done|done|by right].
      intros s. cbn. by destruct (asc_tool_call_id data).
  - intros st st' Hst [Hk Hc Ha Hu] Hq. by destruct Hq.
Qed.

(** ** Tool calls *)

Definition isToolCompleted (e : RunEventDraft) : bool := match e with ev_tool_call_completed _ => true | _ => false end.

Lemma accepts_tool st draft :
  accepts st draft ->
  match draft with
  | ev_tool_call_requested d => jm_get (tcr_call_id d) (toolCalls st) = None
  | ev_tool_call_completed d => validateToolCallCompleted d st = Ok ()
  | _ => True
  end.
Proof.
  intros (attribution & Hv & _). unfold validateTransition in Hv.
  do 4 (apply bind_ok in Hv as (? & _ & Hv)). destruct draft; try done;
    do 3 (apply bind_ok in Hv as (? & _ & Hv)); apply bind_ok in Hv as ([] & Hv & _).
  - apply refuse_when_ok in Hv. by apply jm_has_false.
  - exact Hv.
Qed.

Record tools_inv (st : EventPublisher) : Prop := {
  ti_nodup : NoDup (fst <$> toolCalls st);
  ti_source : forall c call, jm_get c (toolCalls st) = Some call -> c ∈ adoptedCalls st \/
    exists d, ev_tool_call_requested d ∈ log st /\ tcr_call_id d = c /\ tcr_tool_name d = tc_name call /\
              tcr_step d = tc_step call;
  ti_completed : forall c call, jm_get c (toolCalls st) = Some call ->
    tc_completed call = true <-> exists d, ev_tool_call_completed d ∈ log st /\ tcc_call_id d = c;
  ti_requests : forall d, ev_tool_call_requested d ∈ log st -> is_Some (jm_get (tcr_call_id d) (toolCalls st));
  ti_results : forall d, ev_tool_call_completed d ∈ log st -> is_Some (jm_get (tcc_call_id d) (toolCalls st));
  ti_count : completedToolCalls st = countOf isToolCompleted (log st);
}.

(** A new call is pending. *)
Lemma tools_inv_new st st' c call events :
  tools_inv st -> jm_get c (toolCalls st) = None -> toolCalls st' = jm_set c call (toolCalls st) ->
  tc_completed call = false -> log st' = log st ++ events -> adoptedCalls st ⊆ adoptedCalls st' ->
  (events = [] /\ c ∈ adoptedCalls st' \/
   exists d, events = [ev_tool_call_requested d] /\ tcr_call_id d = c /\ tcr_tool_name d = tc_name call /\
             tcr_step d = tc_step call) -> tools_inv st'.
Proof.
  intros [Hn Hs Hc Hreq Hres Hcount] Hnew Ht Hcall Hl Had Hev.
  assert (Hcompleted : forall d, ev_tool_call_completed d ∈ log st' <-> ev_tool_call_completed d ∈ log st).
  { intros d. rewrite Hl, elem_of_app. destruct Hev as [[-> _]|(d' & -> & _)]; set_solver. }
  split.
  - rewrite Ht. by apply jm_set_NoDup.
  - intros k v. rewrite Ht, Hl. intros [[<- ->]|[Hne Hk]]%jm_set_Some.
    + destruct Hev as [[_ ?]|(d & -> & ?)]; [by left|]. right. exists d. split; [set_solver|done].
    + destruct (Hs _ _ Hk) as [Hin|(d & Hd & ?)]; [left; set_solver|]. right. exists d. split; [set_solver|done].
  - intros k v. rewrite Ht. setoid_rewrite Hcompleted. intros [[<- ->]|[Hne Hk]]%jm_set_Some; [|by apply Hc].
    rewrite Hcall. split; [done|]. intros (d & Hd & E). apply Hres in Hd as [? Hd]. congruence.
  - intros d. rewrite Ht, jm_get_set, Hl. intros Hd. case_decide as E; [by eauto|].
    apply elem_of_app in Hd as [Hd|Hd]; [by apply Hreq|].
    destruct Hev as [[-> _]|(d' & -> & E' & _)]; [by apply not_elem_of_nil in Hd|].
    apply list_elem_of_singleton in Hd. simplify_eq.
  - intros d Hd. rewrite Ht, jm_get_set. case_decide; [by eauto|]. apply Hres. by apply Hcompleted.
  - unfold completedToolCalls in *. rewrite Ht, jm_set_new_keys by done. unfold jm_values in *.
    rewrite fmap_app, List.filter_app, length_app. cbn. rewrite Hcall, Hl, countOf_app. cbn.
    replace (countOf isToolCompleted events) with 0; [lia|].
    destruct Hev as [[-> _]|(d & -> & _)]; reflexivity.
Qed.

Lemma filter_completed_alter (f : ToolCallState -> ToolCallState) (c : string) call m :
  jm_get c m = Some call -> tc_completed call = false -> (forall x, tc_completed (f x) = true) ->
  length (List.filter tc_completed (jm_values (jm_alter f c m))) =
  S (length (List.filter tc_completed (jm_values m))).
Proof.
  intros Hc Hp Hf. unfold jm_alter. rewrite Hc. revert Hc. unfold jm_values.
  induction m as [|[k v] m IH]; cbn [jm_get jm_set]; [done|]. case_decide; intros Hc.
  - simplify_eq. cbn. by rewrite Hp, Hf.
  - cbn. destruct (tc_completed v); cbn; by rewrite IH.
Qed.

Lemma tools_inv_completed d st st' :
  tools_inv st -> validateToolCallCompleted d st = Ok () -> log st' = log st ++ [ev_tool_call_completed d] ->
  toolCalls st' = jm_alter (fun call => call <| tc_completed := true |>) (tcc_call_id d) (toolCalls st) ->
  adoptedCalls st' = adoptedCalls st -> tools_inv st'.
Proof.
  intros [Hn Hs Hc Hreq Hres Hcount] Hv Hl Ht Had.
  unfold validateToolCallCompleted in Hv. destruct (jm_get (tcc_call_id d) (toolCalls st)) as [call|] eqn:Ecall; [|done].
  apply bind_ok in Hv as (u & Hb%refuse_when_ok & _). rewrite !orb_false_iff in Hb. destruct Hb as ((Hpend & _) & _).
  split.
  - by rewrite Ht, jm_alter_keys.
  - intros k v. rewrite Ht, Had, Hl. intros [[<- (v0 & Hk & ->)]|[_ Hk]]%jm_alter_Some;
      (destruct (Hs _ _ Hk) as [?|(d' & Hd & ?)]; [by left|]; right; exists d'; split; [set_solver|done]).
  - intros k v. rewrite Ht, Hl. intros [[<- (v0 & Hk & ->)]|[Hne Hk]]%jm_alter_Some.
    + split; [|done]. intros _. exists d. split; [set_solver|done].
    + rewrite (Hc _ _ Hk). split; intros (d' & Hd & E); exists d'; (split; [|done]); [set_solver|].
      apply elem_of_app in Hd as [Hd|Hd]; [done|]. apply list_elem_of_singleton in Hd. simplify_eq.
  - intros d'. rewrite Ht, Hl. intros Hd. apply jm_get_elem_of. rewrite jm_alter_keys. apply jm_get_elem_of, Hreq. set_solver.
  - intros d'. rewrite Ht, Hl. intros [Hd|Hd]%elem_of_app; apply jm_get_elem_of; rewrite jm_alter_keys; apply jm_get_elem_of.
    + by apply Hres.
    + apply list_elem_of_singleton in Hd. simplify_eq. by eauto.
  - unfold completedToolCalls in *. rewrite Ht, Hl, countOf_snoc, <-Hcount.
    erewrite filter_completed_alter by done. cbn. lia.
Qed.

Lemma tools_inv_same st st' e :
  tools_inv st -> toolCalls st' = toolCalls st -> adoptedCalls st' = adoptedCalls st -> log st' = log st ++ [e] ->
  isToolCompleted e = false -> match e with ev_tool_call_requested _ => False | _ => True end -> tools_inv st'.
Proof.
  intros [Hn Hs Hc Hreq Hres Hcount] Ht Had Hl He He'.
  assert (Hin : forall x, x ∈ log st' -> x ∈ log st \/ x = e) by (intros x; rewrite Hl; set_solver).
  assert (Hin' : forall x, x ∈ log st -> x ∈ log st') by (intros x; rewrite Hl; set_solver).
  split; unfold completedToolCalls in *; rewrite Ht; try done.
  - intros c call Hk. rewrite Had. destruct (Hs _ _ Hk) as [?|(d & Hd & ?)]; [by left|]. right. eauto.
  - intros c call Hk. rewrite (Hc _ _ Hk). split; intros (d & Hd & ?); exists d; (split; [|done]); [by eauto|].
    apply Hin in Hd as [Hd|<-]; [done|]. done.
  - intros d Hd. apply Hin in Hd as [Hd|<-]; [by apply Hreq|done].
  - intros d Hd. apply Hin in Hd as [Hd|<-]; [by apply Hres|done].
  - by rewrite Hl, countOf_snoc, He, Hcount, Z.add_0_r.
Qed.

Lemma tools_log st : reachable st -> tools_inv st.
Proof.
  revert st. apply reachable_inv.
  - split; cbn; try done; [constructor|..]; set_solver.
  - intros st event Hst IH Ha.
    pose proof (posted_toolCalls event st) as Ht. pose proof (posted_log event st) as Hl.
    assert (Had : adoptedCalls (posted event st) = adoptedCalls st) by field_cases.
    apply accepts_tool in Ha. destruct (re_draft event) eqn:Hd; try (by eapply tools_inv_same).
    + eapply tools_inv_new; [exact IH|exact Ha|exact Ht|done|exact Hl|by rewrite Had|]. right. by exists data.
    + by eapply tools_inv_completed.
  - intros st st' Hst Hinv Hq. destruct Hq; try (destruct Hinv; by split).
    eapply (tools_inv_new _ _ _ _ []); [exact Hinv|eassumption|reflexivity|done|by rewrite app_nil_r|cbn; set_solver|].
    left. split; [done|]. cbn. set_solver.
Qed.

(** ** Command output *)

(** The output events of an execution, those of one channel, and their bytes. *)
Definition outputOf (x : string) (e : RunEventDraft) : option CommandOutputPayload :=
  match e with
  | ev_command_output d => if ci_execution_id (cop_id d) === x then Some d else None
  | _ => None
  end.
Definition onChannel (channel : OutputChannel) (output : list CommandOutputPayload) : list CommandOutputPayload :=
  List.filter (fun d => cop_channel d === channel) output.
Definition chunkBytes (output : list CommandOutputPayload) : Z :=
  fold_right (fun d n => byteLength (cop_chunk d) + n) 0 output.

Definition channelBytesOf (channel : OutputChannel) (ex : CommandExecutionState) : Z :=
  match channel with channel_stdout => cx_stdoutBytes ex | channel_stderr => cx_stderrBytes ex end.

Lemma onChannel_snoc channel l d :
  onChannel channel (l ++ [d]) = onChannel channel l ++ (if cop_channel d === channel then [d] else []).
Proof. unfold onChannel. rewrite List.filter_app. done. Qed.

Lemma chunkBytes_app l k : chunkBytes (l ++ k) = chunkBytes l + chunkBytes k.
Proof. unfold chunkBytes. induction l as [|d l IH]; cbn [app fold_right]; lia. Qed.

(** An execution has its output; each channel's chunks are numbered from 0 and
    its bytes are those of its chunks. *)
Definition output_inv (output : list CommandOutputPayload) (ex : CommandExecutionState) : Prop :=
  cx_output ex = output /\ forall channel,
    channelBytesOf channel ex = chunkBytes (onChannel channel output) /\
    channelChunks channel ex = Z.of_nat (length (onChannel channel output)) /\
    cop_chunk_index <$> onChannel channel output = seqZ 0 (Z.of_nat (length (onChannel channel output))).

Definition executions_inv (st : EventPublisher) : Prop :=
  forall x, match jm_get x (commandExecutions st) with
            | Some ex => output_inv (omap (outputOf x) (log st)) ex
            | None => omap (outputOf x) (log st) = []
            end.

Lemma output_inv_add d output ex :
  output_inv output ex -> cop_chunk_index d = channelChunks (cop_channel d) ex ->
  cop_bytes d = byteLength (cop_chunk d) -> output_inv (output ++ [d]) (addOutput d ex).
Proof.
  intros [Ho Hch] Hi Hb. split.
  - unfold addOutput. destruct (cop_channel d); cbn; by rewrite Ho.
  - intros channel. rewrite onChannel_snoc. destruct (Hch channel) as (H1 & H2 & H3).
    case_bool_decide as Hc; [subst channel|].
    + rewrite chunkBytes_app, length_app, fmap_app. cbn [length chunkBytes fold_right fmap list_fmap].
      split_and!.
      * unfold addOutput. destruct (cop_channel d); cbn in *; lia.
      * unfold addOutput. destruct (cop_channel d); cbn in *; lia.
      * rewrite H3, Nat.add_1_r, seqZ_S. f_equal. f_equal. rewrite Hi, H2. lia.
    + rewrite app_nil_r. split_and!; [| |exact H3];
        unfold addOutput; destruct (cop_channel d), channel; cbn in *; congruence.
Qed.

Lemma omap_outputOf_snoc x l e :
  omap (outputOf x) (l ++ [e]) = omap (outputOf x) l ++ match outputOf x e with Some d => [d] | None => [] end.
Proof. rewrite omap_app. cbn. by destruct (outputOf x e). Qed.

Lemma executions_log st : reachable st -> executions_inv st.
Proof.
  revert st. apply reachable_inv; [done| |].
  - intros st event Hst IH Ha x. rewrite posted_executions, posted_log, omap_outputOf_snoc.
    specialize (IH x). destruct (re_draft event) eqn:Hd; cbn [outputOf]; rewrite ?app_nil_r; try exact IH.
    + rewrite jm_get_set. case_decide as E; [|exact IH]. subst x.
      apply accepted_as_agent in Ha as (attribution & Hv); [|done..]. cbn in Hv. apply refuse_when_ok in Hv.
      rewrite !orb_false_iff in Hv. destruct Hv as ((_ & Hx%jm_has_false) & _). rewrite Hx in IH. rewrite IH.
      split; [done|]. by intros [].
    + rewrite jm_get_alter. case_decide as E; [|exact IH]. destruct (jm_get x _); [|exact IH].
      cbn. destruct IH as [Ho Hch]. split; [done|]. intros []; apply (Hch channel_stdout) || apply (Hch channel_stderr).
    + apply accepts_checks in Ha as Hcheck. destruct Hcheck as (_ & Hschema & _).
      apply accepted_as_agent in Ha as (attribution & Hv); [|done..]. cbn in Hv. apply refuse_when_ok, negb_false_iff in Hv.
      rewrite jm_get_alter. case_bool_decide as E.
      * rewrite decide_True by done. rewrite E in Hv. destruct (jm_get x _) as [ex|]; [|done]. cbn.
        rewrite !andb_true_iff in Hv. destruct Hv as (_ & Hi%Z.eqb_eq). cbn in Hschema. unfold commandOutputSchema in Hschema.
        apply andb_true_iff in Hschema as [_ Hb%Z.eqb_eq]. by apply output_inv_add.
      * rewrite decide_False, app_nil_r by done. exact IH.
    + rewrite jm_get_alter. case_decide as E; [|exact IH]. destruct (jm_get x _); [|exact IH].
      cbn. destruct IH as [Ho Hch]. split; [done|]. intros []; apply (Hch channel_stdout) || apply (Hch channel_stderr).
  - intros st st' Hst IH Hq. by destruct Hq.
Qed.

(** ** Settled runs *)

Lemma completed_data st x ex :
  reachable st -> jm_get x (commandExecutions st) = Some ex -> cx_completed ex = true -> is_Some (cx_completedData ex).
Proof.
  intros Hst. revert x ex. revert st Hst. apply (reachable_inv (fun st => forall x ex,
    jm_get x (commandExecutions st) = Some ex -> cx_completed ex = true -> is_Some (cx_completedData ex))).
  - done.
  - intros st event Hst IH Ha x ex. rewrite posted_executions.
    destruct (re_draft event); try (by apply IH).
    + by intros [[<- ->]|[_ Hk]]%jm_set_Some; [|by eapply IH].
    + intros [[<- (v0 & Hk & ->)]|[_ Hk]]%jm_alter_Some; cbn; by eapply IH.
    + intros [[<- (v0 & Hk & ->)]|[_ Hk]]%jm_alter_Some; [|by eapply IH].
      unfold addOutput. destruct (cop_channel data); cbn; by eapply IH.
    + intros [[<- (v0 & Hk & ->)]|[_ Hk]]%jm_alter_Some; [|by eapply IH]. by eauto.
  - intros st st' Hst IH Hq. by destruct Hq.
Qed.

Lemma command_log st r l :
  reachable st -> log st = ev_run_started r :: l -> command st = Some (rst_command r).
Proof.
  intros Hst. revert r l. revert st Hst. apply (reachable_inv (fun st => forall r l,
    log st = ev_run_started r :: l -> command st = Some (rst_command r))).
  - done.
  - intros st event Hst IH Ha r l. rewrite posted_log, posted_command.
    pose proof (accepts_order st _ Ha) as [Hstart _]. pose proof (started_log st Hst) as Hlog.
    destruct (log st) as [|e l'] eqn:E; cbn [app]; intros Hl.
    + injection Hl as Hd _. by rewrite Hd.
    + injection Hl as -> _. destruct (re_draft event) eqn:Hd; try (by eapply IH).
      assert (started st = false) as Hf by (apply Hstart; eauto). assert (started st = true) by by apply Hlog. congruence.
  - intros st st' Hst IH Hq. by destruct Hq.
Qed.

Lemma onChannel_bytes output :
  chunkBytes output = chunkBytes (onChannel channel_stdout output) + chunkBytes (onChannel channel_stderr output).
Proof.
  unfold chunkBytes, onChannel in *. induction output as [|d l IH]; [done|]. cbn [List.filter fold_right].
  destruct (cop_channel d); cbn [fold_right]; [rewrite bool_decide_eq_true_2, bool_decide_eq_false_2 by done
    |rewrite bool_decide_eq_false_2, bool_decide_eq_true_2 by done]; cbn [fold_right]; lia.
Qed.

(** The checks of a completed run that do not depend on its kind. *)
Lemma accepts_terminal st d :
  accepts st (ev_run_completed d) ->
  (rcp_output_chars d =? outputChars st) = true /\ hasPendingCall st = false /\
  countMatches (rcp_tool_calls d) (completedToolCalls st) = true /\
  existsb (fun execution => negb (cx_completed execution) || (cx_cleanupVerified execution !== Some true))
    (jm_values (commandExecutions st)) = false.
Proof.
  intros (attribution & Hv & _). unfold validateTransition in Hv. do 8 (apply bind_ok in Hv as (? & _ & Hv)).
  unfold validateTerminal in Hv. apply bind_ok in Hv as (? & H1%refuse_when_ok%negb_false_iff & Hv).
  apply bind_ok in Hv as (? & H2%refuse_when_ok & Hv). apply bind_ok in Hv as (? & H3%refuse_when_ok%negb_false_iff & Hv).
  apply refuse_when_ok in Hv. done.
Qed.

(** A run that completes as verified ended in an accepted [finish_task] call. *)
Lemma accepts_verified st d :
  reachable st -> accepts st (ev_run_completed d) -> rcp_completion_mode d = Some mode_verified_finish_task ->
  exists step, match toolOf st (as_toolCallId step), evaluatedOf st (as_toolCallId step) with
    | Some tool, Some completion =>
        (as_outcome step === Some outcome_tool_call) && (tc_name tool === "finish_task"%string) && tc_completed tool &&
        (cvp_effect completion === effect_accept) && (cvp_evidence_sha256 completion === rcp_evidence_sha256 d) &&
        (cvp_report_sha256 completion === rcp_report_sha256 d)
    | _, _ => false
    end = true.
Proof.
  intros Hst Ha Hmode. pose proof (accepts_started _ _ Ha I) as Hs. apply (command_known _ Hst) in Hs.
  destruct Ha as (attribution & Hv & _). unfold validateTransition in Hv. do 5 (apply bind_ok in Hv as (? & _ & Hv)).
  apply bind_ok in Hv as (u & Hagent & Hv). apply bind_ok in Hv as (? & Hchat%refuse_when_ok & _).
  rewrite Hmode in Hchat. destruct (command st) as [[]|]; [|done|done]. cbn in Hagent.
  unfold validateRunCompleted in Hagent. destruct (finalStep st) as [step|]; [|done]. exists step.
  do 2 (apply bind_ok in Hagent as (? & _ & Hagent)). rewrite Hmode, bool_decide_eq_true_2 in Hagent by done.
  by apply refuse_when_ok, negb_false_iff in Hagent.
Qed.

Lemma verifications_NoDup st : reachable st -> NoDup (fst <$> verifications st).
Proof.
  revert st. apply reachable_inv; [constructor| |].
  - intros st event Hst IH Ha. rewrite posted_verifications.
    destruct (re_draft event); try done; [by apply jm_set_NoDup|by rewrite jm_alter_keys].
  - intros st st' Hst IH Hq. by destruct Hq.
Qed.
End Publisher.
