(* ===== verification/EventPublisherProperties.v ===== *)
(** * The event publisher: the properties

    What the events of every run say, whatever the agent asks the publisher to
    publish: the order of a run, commands and patches only after the decisions
    that permit them, results that match their requests, counts that match the
    events, and a verified completion that rests on verifications that passed. *)

From S2P Require Import Prelude JsString CanonicalJson Domain Events Schemas Permissions Patch SourceSnapshot Completion Verification CompletionRuntime CollaborativeCompletion JsonParse RunEvents EventPublisher EventPublisherFacts.
From stdpp Require Import sorting.
#[local] Open Scope Z_scope.

Section Properties.
Context (sha256Bytes : list Z -> string) (localeLe : jstring -> jstring -> bool) (runId sessionId : string).
Notation reachable := (publisher_reachable sha256Bytes localeLe runId sessionId).

(** A run is bracketed. Every event of a run's log stands where the protocol
    has it: [run.started] is the first event and only the first,
    [backend.selected] is the second and only the second, and a terminal event
    is the last. *)
Theorem run_log_is_bracketed st pre draft post :
  publisher_reachable sha256Bytes localeLe runId sessionId st -> log st = pre ++ draft :: post ->
  ((exists d, draft = ev_run_started d) <-> pre = []) /\
  ((exists d, draft = ev_backend_selected d) <-> length pre = 1%nat) /\
  (isTerminalRunEvent draft = true -> post = []).
Proof.
  intros Hst Hlog.
  destruct (publisher_history _ _ _ _ _ _ _ _ Hst Hlog) as (s & Hs & Hpre & Ha).
  pose proof (accepts_order _ _ _ _ _ _ Ha) as [Hstart Hback].
  pose proof (started_log _ _ _ _ _ Hs) as Hsl. pose proof (backend_log _ _ _ _ _ Hs) as Hbl. rewrite Hpre in *.
  split_and!.
  - rewrite <-Hstart. destruct (started s), pre; naive_solver.
  - destruct (started s) eqn:Es.
    + rewrite <-Hback by done. destruct pre as [|x [|y pre]]; cbn [length] in *.
      * by destruct (proj1 Hsl eq_refl).
      * split; [done|]. intros _. destruct (backendSelected s); [|done].
        assert (1 < 1)%nat by by apply Hbl. lia.
      * split; [|lia]. intros Hn. destruct (proj2 Hbl); [lia|done].
    + destruct Hstart as [Hstart _]. destruct Hstart as [d ->]; [done|].
      destruct pre; [split; [by intros []|done]|]. assert (false = true) by by apply Hsl. done.
  - intros Ht. destruct post as [|draft' post]; [done|]. exfalso.
    rewrite (app_assoc pre [draft]) in Hlog || (change (draft :: draft' :: post) with ([draft] ++ draft' :: post) in Hlog;
      rewrite app_assoc in Hlog).
    destruct (publisher_history _ _ _ _ _ _ _ _ Hst Hlog) as (s' & Hs' & Hpre' & (Ht' & _)%accepts_checks).
    assert (terminal s' = true); [|congruence]. apply (terminal_log _ _ _ _ _ Hs'). rewrite Hpre'.
    apply Exists_app. right. by apply Exists_cons_hd.
Qed.

(** ** Commands *)

(** An approval of the action that a user has given: requested and decided. *)
Definition approved_command (pre : list RunEventDraft) (id : CommandIdentity) (requestId : string) : Prop :=
  exists request decision,
    ev_approval_requested request ∈ pre /\ arp_approval_request_id request = requestId /\
    arp_call_id request = ci_call_id id /\ arp_action request = RunCommandAction (ci_action_sha256 id) /\
    ev_approval_decided decision ∈ pre /\ adp_approval_request_id decision = requestId /\
    adp_action decision = RunCommandAction (ci_action_sha256 id) /\ adp_decision decision = approval_approved.

(** C9: No command without permission. When a command execution is requested,
    the permission policy has decided on exactly this action digest for this
    call: it allowed it, or it asked and the user approved a request for the
    same digest. No other execution was requested for the call. *)
Theorem commands_are_permitted st pre d post :
  publisher_reachable sha256Bytes localeLe runId sessionId st -> log st = pre ++ ev_command_requested d :: post ->
  exists permission, ev_permission_evaluated permission ∈ pre /\
    pev_call_id permission = ci_call_id (crq_id d) /\
    pev_action_sha256 permission = ci_action_sha256 (crq_id d) /\
    (pev_effect permission = allow_effect /\ crq_approval_request_id d = None \/
     pev_effect permission = ask_effect /\ exists requestId,
       crq_approval_request_id d = Some requestId /\ approved_command pre (crq_id d) requestId) /\
    forall d', ev_command_requested d' ∈ pre -> ci_call_id (crq_id d') <> ci_call_id (crq_id d).
Proof.
  intros Hst Hlog. destruct (publisher_history _ _ _ _ _ _ _ _ Hst Hlog) as (s & Hs & <- & Ha).
  destruct (accepted_as_agent _ _ _ _ _ _ Hs Ha eq_refl) as (attribution & Hv). cbn in Hv.
  apply refuse_when_ok in Hv. rewrite !orb_false_iff, !negb_false_iff in Hv.
  destruct Hv as (((_ & Hp) & _) & Hfresh).
  destruct (permissions s !! ci_call_id (crq_id d)) as [p|] eqn:Ep; [|done].
  destruct (permission_source _ _ _ _ _ _ _ Hs Ep) as (e & He & Hc & ->). cbn in Hp.
  rewrite !andb_true_iff, !bool_decide_eq_true in Hp. destruct Hp as (((Hdeny & _) & Hsha) & Hask).
  exists e. split_and!; [done..| |].
  - destruct (pev_effect e) eqn:Eff; cbn in Hask, Hdeny; [left; by apply bool_decide_eq_true in Hask| |done].
    right. split; [done|]. rewrite (bool_decide_eq_true_2 _ eq_refl) in Hask. destruct (List.find _ _) as [a|] eqn:Ef; [|done].
    rewrite !andb_true_iff, !bool_decide_eq_true in Hask. destruct Hask as ((Hdec & Hreq) & Hact).
    apply find_some in Ef as [Hin Hf]. apply list_elem_of_In in Hin.
    apply andb_true_iff in Hf as [Hcall%bool_decide_eq_true Hkind%bool_decide_eq_true].
    apply jm_values_get in Hin as (id & Hid); [|by eapply approvals_NoDup].
    destruct (approval_source _ _ _ _ _ _ _ Hs Hid) as (r & Hr & Hrid & Ha').
    destruct (decision_source _ _ _ _ _ _ _ _ Hs Hid Hdec) as (dd & Hdd & Hddid & Hdecided & Hddcall & Hddsha & Hddact).
    pose proof (f_equal ap_actionKind Ha') as Ek. pose proof (f_equal ap_actionSha256 Ha') as Es.
    pose proof (f_equal ap_callId Ha') as Ec. pose proof (f_equal ap_requestId Ha') as Eid.
    pose proof (f_equal ap_planId Ha') as Epl.
    unfold newApproval in *. cbn in Ek, Es, Ec, Eid, Epl.
    assert (Hra : arp_action r = RunCommandAction (ci_action_sha256 (crq_id d))).
    { destruct (arp_action r); cbn in Ek, Es; [congruence|]. by rewrite <-Es, Hact. }
    exists id. rewrite Hra in *. cbn in *. split; [congruence|]. exists r, dd. split_and!; try congruence; [done..|].
    destruct (adp_action dd); cbn in *; congruence.
  - intros d' Hd' E. destruct (command_logged _ _ _ _ _ _ Hs Hd') as [[x Hx] _]. rewrite E in Hx. by rewrite Hx in Hfresh.
Qed.

(** C10: No patch without approval. When a patch starts to be applied, its plan
    was shown for this call, an approval of exactly this plan with its rule
    scopes was requested and the user approved it. No other patch was started for
    the call. *)
Theorem patches_are_approved st pre d post :
  publisher_reachable sha256Bytes localeLe runId sessionId st -> log st = pre ++ ev_patch_apply_started d :: post ->
  exists plan request decision,
    ev_patch_plan_created plan ∈ pre /\ ppc_call_id plan = pas_call_id d /\ ppc_plan_id plan = pas_plan_id d /\
    ppc_rule_manifest_sha256 plan = pas_rule_manifest_sha256 d /\
    ppc_rule_scope_set_sha256 plan = pas_rule_scope_set_sha256 d /\
    ev_approval_requested request ∈ pre /\ arp_approval_request_id request = pas_approval_request_id d /\
    arp_call_id request = pas_call_id d /\
    (exists sha, arp_action request =
       ApplyPatchAction sha (pas_plan_id d) (pas_rule_manifest_sha256 d) (pas_rule_scope_set_sha256 d)) /\
    ev_approval_decided decision ∈ pre /\ adp_approval_request_id decision = pas_approval_request_id d /\
    (exists sha m s, adp_action decision = ApplyPatchAction sha (pas_plan_id d) m s) /\
    adp_decision decision = approval_approved /\
    forall d', ev_patch_apply_started d' ∈ pre -> pas_call_id d' <> pas_call_id d.
Proof.
  intros Hst Hlog. destruct (publisher_history _ _ _ _ _ _ _ _ Hst Hlog) as (s & Hs & <- & Ha).
  destruct (accepted_as_agent _ _ _ _ _ _ Hs Ha eq_refl) as (attribution & Hv). cbn in Hv.
  apply refuse_when_ok in Hv. rewrite !orb_false_iff, !negb_false_iff in Hv. destruct Hv as (Hap & Hfresh).
  destruct (jm_get _ (approvals s)) as [a|] eqn:Hid; [|done].
  rewrite !andb_true_iff, !bool_decide_eq_true in Hap. destruct Hap as (((((Hdec & Hcall) & Hplan) & _) & Hm) & Hsc).
  destruct (approval_source _ _ _ _ _ _ _ Hs Hid) as (r & Hr & Hrid & Ha').
  destruct (decision_source _ _ _ _ _ _ _ _ Hs Hid Hdec) as (dd & Hdd & Hddid & Hdecided & Hddcall & Hddsha & Hddact).
  pose proof (f_equal ap_planId Ha') as Epl. pose proof (f_equal ap_actionKind Ha') as Ek.
  pose proof (f_equal ap_callId Ha') as Ec. pose proof (f_equal ap_ruleManifestSha256 Ha') as Em.
  pose proof (f_equal ap_ruleScopeSetSha256 Ha') as Esc. unfold newApproval in *. cbn in Epl, Ek, Ec, Em, Esc.
  destruct (arp_action r) as [sha plan m sc|] eqn:Er; cbn in *; [|congruence].
  (* the request was checked against the plan *)
  apply list_elem_of_split in Hr as (l1 & l2 & El).
  destruct (publisher_history _ _ _ _ _ _ _ _ Hs El) as (s1 & Hs1 & Hl1 & Ha1).
  destruct (accepted_as_agent _ _ _ _ _ _ Hs1 Ha1 eq_refl) as (attribution1 & Hv1). cbn in Hv1.
  unfold validateApprovalRequested in Hv1. do 2 (apply bind_ok in Hv1 as (? & _ & Hv1)). rewrite Er in Hv1.
  destruct (patchPlans s1 !! arp_call_id r) as [p|] eqn:Ep; [|done].
  apply bind_ok in Hv1 as (? & Hv1%refuse_when_ok & _). rewrite !orb_false_iff, !negb_false_iff in Hv1.
  rewrite !bool_decide_eq_true in Hv1. destruct Hv1 as (((Hpp & _) & Hpm) & Hps).
  destruct (plan_source _ _ _ _ _ _ _ Hs1 Ep) as (e & He & Hec & ->). cbn in Hpp, Hpm, Hps.
  exists e, r, dd. split_and!; try congruence; try done.
  - rewrite El, <-Hl1. apply elem_of_app. by left.
  - rewrite El. apply elem_of_app. right. by left.
  - exists sha. rewrite Er. congruence.
  - destruct (adp_action dd) as [sh pl mf sc1|]; [|congruence]. exists sh, mf, sc1. congruence.
  - intros d' Hd' E. destruct (apply_logged _ _ _ _ _ _ Hs Hd') as [app Hx]. rewrite E in Hx.
    apply jm_has_false in Hfresh. congruence.
Qed.

(** ** Results, output and counts *)

(** Results match requests. A tool result answers a call the model made in
    this run, with the same tool in the same step, or a call the run adopted from
    the one it resumes; and no call is answered twice. *)
Theorem results_match_requests st pre d post :
  publisher_reachable sha256Bytes localeLe runId sessionId st -> log st = pre ++ ev_tool_call_completed d :: post ->
  (tcc_call_id d ∈ adoptedCalls st \/
   exists request, ev_tool_call_requested request ∈ pre /\ tcr_call_id request = tcc_call_id d /\
     tcr_tool_name request = tcc_tool_name d /\ tcr_step request = tcc_step d) /\
  forall d', ev_tool_call_completed d' ∈ pre -> tcc_call_id d' <> tcc_call_id d.
Proof.
  intros Hst Hlog. destruct (publisher_history_adopted _ _ _ _ _ _ _ _ Hst Hlog) as (s & Hs & <- & Ha & Had).
  apply accepts_tool in Ha. cbn in Ha. unfold validateToolCallCompleted in Ha.
  destruct (tools_log _ _ _ _ _ Hs) as [_ Hsource Hcompleted _ _ _].
  destruct (jm_get _ (toolCalls s)) as [call|] eqn:Ec; [|done].
  apply bind_ok in Ha as (u & Hb%refuse_when_ok & _). rewrite !orb_false_iff, !negb_false_iff in Hb.
  destruct Hb as ((Hpend & Hname%bool_decide_eq_true) & Hstep%Z.eqb_eq). split.
  - destruct (Hsource _ _ Ec) as [Hin|(r & Hr & ? & ? & ?)]; [left; set_solver|]. right. exists r. split_and!; congruence || done.
  - intros d' Hd' E. assert (tc_completed call = true); [|congruence]. apply (Hcompleted _ _ Ec). eauto.
Qed.

(** Command output is accounted for. The bytes a command's completion
    reports on each channel are the UTF-8 bytes of the chunks published for it,
    whose indices count from 0, and its total is their sum. *)
Theorem command_output_is_accounted st pre d post :
  publisher_reachable sha256Bytes localeLe runId sessionId st -> log st = pre ++ ev_command_completed d :: post ->
  let output := omap (outputOf (ci_execution_id (ccp_id d))) pre in
  ccp_stdout_bytes d = chunkBytes (onChannel channel_stdout output) /\
  ccp_stderr_bytes d = chunkBytes (onChannel channel_stderr output) /\
  ccp_total_bytes d = chunkBytes output /\
  forall channel, cop_chunk_index <$> onChannel channel output = seqZ 0 (Z.of_nat (length (onChannel channel output))).
Proof.
  intros Hst Hlog output. destruct (publisher_history _ _ _ _ _ _ _ _ Hst Hlog) as (s & Hs & Hpre & Ha).
  apply accepts_checks in Ha as Hcheck. destruct Hcheck as (_ & Hschema & _).
  destruct (accepted_as_agent _ _ _ _ _ _ Hs Ha eq_refl) as (attribution & Hv). cbn in Hv.
  apply refuse_when_ok, negb_false_iff in Hv. pose proof (executions_log _ _ _ _ _ Hs (ci_execution_id (ccp_id d))) as Hx.
  destruct (jm_get _ _) as [ex|]; [|done]. rewrite !andb_true_iff, !Z.eqb_eq in Hv. destruct Hv as ((_ & Hout) & Herr).
  destruct Hx as [_ Hch]. rewrite Hpre in Hch. fold output in Hch.
  destruct (Hch channel_stdout) as (H1 & _). destruct (Hch channel_stderr) as (H2 & _). cbn in H1, H2.
  cbn in Hschema. unfold commandCompletedSchema in Hschema. rewrite !andb_true_iff, Z.eqb_eq in Hschema.
  destruct Hschema as ((Htotal & _) & _). rewrite (onChannel_bytes output). split_and!; [congruence..|lia|apply Hch].
Qed.

(** Usage is what the model reported. The usage an agent run publishes is the
    sum of the usage events of its steps, one for each step. *)
Theorem run_usage_is_the_sum st r pre d post :
  publisher_reachable sha256Bytes localeLe runId sessionId st ->
  log st = ev_run_started r :: pre ++ ev_usage d :: post -> rst_command r = command_agent ->
  let usages := omap usageEvent pre in
  us_input_tokens d = sumOf (usageInput <$> usages) /\ us_output_tokens d = sumOf (usageOutput <$> usages) /\
  us_total_tokens d = sumOf (usageTotal <$> usages) /\
  us_model_turns d = Some (Z.of_nat (length usages)) /\ Z.of_nat (length usages) = countOf isStepStarted pre /\
  forall u, u ∈ usages -> usageIsPartial u = false.
Proof.
  intros Hst Hlog Hr usages. rewrite (app_comm_cons pre) in Hlog.
  destruct (publisher_history _ _ _ _ _ _ _ _ Hst Hlog) as (s & Hs & Hpre & Ha).
  pose proof (command_log _ _ _ _ _ _ _ Hs Hpre) as Hcommand. rewrite Hr in Hcommand.
  destruct Ha as (attribution & Hv & _). unfold validateTransition in Hv.
  do 4 (apply bind_ok in Hv as (? & _ & Hv)). cbn in Hv. rewrite Hcommand in Hv.
  apply bind_ok in Hv as (? & _ & Hv). apply bind_ok in Hv as ([] & Hv & _). cbn in Hv. unfold validateUsage in Hv.
  destruct (steps_log _ _ _ _ _ Hs) as [_ Hcount _ Husage]. rewrite Hpre in Hcount, Husage.
  assert (Hknown : omap id (as_modelUsage <$> jm_values (agentSteps s)) = usages).
  { unfold usages. change (omap usageEvent pre) with (omap usageEvent (ev_run_started r :: pre)). rewrite <-Husage.
    clear. induction (jm_values (agentSteps s)) as [|x l IH]; [done|]. cbn. destruct (as_modelUsage x); cbn; by rewrite IH. }
  apply bind_ok in Hv as (? & _ & Hv). apply bind_ok in Hv as (? & Hall%refuse_when_ok & Hv).
  apply bind_ok in Hv as (? & Hpartial%refuse_when_ok & Hv). apply refuse_when_ok in Hv. rewrite Hknown in Hv, Hpartial.
  rewrite !orb_false_iff, !negb_false_iff, !Z.eqb_eq, bool_decide_eq_true in Hv.
  destruct Hv as (((((Hi & Ho) & Ht) & Hm) & _) & _). split_and!; [done..| |by apply existsb_false].
  replace (countOf isStepStarted pre) with (stepCount s) by (rewrite Hcount; reflexivity).
  rewrite <-Hknown. unfold stepCount. f_equal. rewrite existsb_false in Hall. clear -Hall.
  unfold jm_values in *. induction (agentSteps s) as [|[k x] l IH]; [done|]. cbn in *.
  pose proof (Hall (as_modelUsage x) ltac:(by left)) as Hx. destruct (as_modelUsage x); [|done]. cbn. f_equal.
  apply IH. intros y Hy. apply Hall. by right.
Qed.

(** A completed run is settled. When a run completes, every tool call of its
    log has its result, every command that was requested has completed with its
    processes gone, and the text and tool counts it reports are those of its
    log. *)
Theorem completed_run_is_settled st pre d post :
  publisher_reachable sha256Bytes localeLe runId sessionId st -> log st = pre ++ ev_run_completed d :: post ->
  (forall request, ev_tool_call_requested request ∈ pre ->
     exists result, ev_tool_call_completed result ∈ pre /\ tcc_call_id result = tcr_call_id request) /\
  (forall request, ev_command_requested request ∈ pre ->
     exists completed, ev_command_completed completed ∈ pre /\
       ci_execution_id (ccp_id completed) = ci_execution_id (crq_id request) /\ ccp_cleanup_verified completed = true) /\
  rcp_output_chars d = sumBy deltaChars pre /\
  (forall n, rcp_tool_calls d = Some n -> n = countOf isToolCompleted pre).
Proof.
  intros Hst Hlog. destruct (publisher_history _ _ _ _ _ _ _ _ Hst Hlog) as (s & Hs & <- & Ha).
  apply accepts_terminal in Ha as (Hchars%Z.eqb_eq & Hcalls & Htools & Hcommands).
  pose proof (tools_log _ _ _ _ _ Hs) as [Hnodup _ Hcompleted Hrequests _ Hcount]. split_and!.
  - intros request Hr. destruct (Hrequests _ Hr) as [call Hcall].
    destruct (proj1 (Hcompleted _ _ Hcall)) as (result & ? & ?); [|by eauto].
    unfold hasPendingCall in Hcalls. rewrite existsb_false in Hcalls.
    by apply negb_false_iff, Hcalls, (jm_get_values _ _ _ Hcall).
  - intros request Hr. destruct (command_logged _ _ _ _ _ _ Hs Hr) as [_ [ex Hex]].
    rewrite existsb_false in Hcommands. pose proof (Hcommands ex (jm_get_values _ _ _ Hex)) as Hx.
    apply orb_false_iff in Hx as [Hx1%negb_false_iff Hx2%negb_false_iff%bool_decide_eq_true].
    destruct (completed_data _ _ _ _ _ _ _ Hs Hex Hx1) as [c Hc].
    destruct (completion_source _ _ _ _ _ _ _ _ Hs Hex Hc) as (? & ? & Hclean). exists c. split_and!; congruence || done.
  - rewrite Hchars. by eapply outputChars_log.
  - intros n Hn. rewrite Hn in Htools. cbn in Htools. apply Z.eqb_eq in Htools. congruence.
Qed.

(** ** Verified completion *)

(** A verification that counts: it began after the last patch of [pre], its
    command was requested as a verification, ended by itself with exit code 0
    and left no process behind. *)
Definition verified_after_last_patch (pre : list RunEventDraft) (verificationId : string) : Prop :=
  exists before begun after completed request ended,
    pre = before ++ ev_verification_started begun :: after /\ vid_verification_id (vsp_id begun) = verificationId /\
    (forall patch, ev_patch_apply_completed patch ∉ after) /\
    ev_verification_completed completed ∈ pre /\ vid_verification_id (vcp_id completed) = verificationId /\
    vcp_status completed = vst_passed /\
    vcp_before_snapshot_sha256 completed = vcp_after_snapshot_sha256 completed /\
    ev_command_requested request ∈ pre /\
    ci_execution_id (crq_id request) = vid_command_execution_id (vcp_id completed) /\
    crq_purpose request = purpose_verify /\
    ev_command_completed ended ∈ pre /\ ci_execution_id (ccp_id ended) = vid_command_execution_id (vcp_id completed) /\
    ccp_termination ended = term_exit /\ ccp_exit_code ended = Some 0 /\ ccp_cleanup_verified ended = true.

Lemma passed_schema c :
  verificationCompletedSchema c = true -> vcp_status c = vst_passed ->
  vcp_exit_code c = Some 0 /\ vcp_started_generation c = vcp_completed_generation c /\
  vcp_before_snapshot_sha256 c = vcp_after_snapshot_sha256 c.
Proof.
  unfold verificationCompletedSchema. intros H Hp. rewrite !andb_true_iff in H.
  destruct H as ((((((Hstale & _) & Hpass) & _) & _) & _) & _).
  apply negb_true_iff in Hpass. rewrite Hp, bool_decide_eq_true_2 in Hpass by done. cbn in Hpass.
  apply orb_false_iff in Hpass as [Hexit%negb_false_iff%bool_decide_eq_true Hs]. split; [done|].
  rewrite Hs in Hstale. apply eqb_prop in Hstale. symmetry in Hstale. rewrite !orb_false_iff in Hstale.
  destruct Hstale as ((Hsnap & Hgen) & _). apply negb_false_iff in Hsnap, Hgen.
  apply bool_decide_eq_true in Hsnap. by apply Z.eqb_eq in Hgen.
Qed.

Lemma current_verification s id :
  reachable s -> currentlyPassed s id = true -> verified_after_last_patch (log s) id.
Proof.
  intros Hs Hid. unfold currentlyPassed in Hid. destruct (jm_get id (verifications s)) as [vs|] eqn:Ev; [|done].
  cbn in Hid. destruct (vf_completed vs) as [c|] eqn:Ec; [|done].
  rewrite !andb_true_iff, Z.eqb_eq, bool_decide_eq_true in Hid. destruct Hid as ((Hpassed & _) & Hgen).
  destruct (verification_completed_source _ _ _ _ _ _ _ _ Hs Ev Ec) as [Hc Hcid].
  pose proof Hc as Hc0. apply list_elem_of_split in Hc as (l1 & l2 & El).
  destruct (publisher_history _ _ _ _ _ _ _ _ Hs El) as (s1 & Hs1 & Hl1 & Ha1).
  apply accepts_checks in Ha1 as Hcheck. destruct Hcheck as (_ & Hschema & _). cbn in Hschema.
  destruct (passed_schema c Hschema Hpassed) as (Hexit & Hgens & Hsnap).
  destruct (accepted_as_agent _ _ _ _ _ _ Hs1 Ha1 eq_refl) as (attribution & Hv). cbn in Hv.
  apply refuse_when_ok, negb_false_iff in Hv. rewrite Hcid in Hv.
  destruct (jm_get id (verifications s1)) as [v1|] eqn:Ev1; [|done].
  destruct (jm_get _ (commandExecutions s1)) as [ex|] eqn:Eex; [|done].
  destruct (cx_completedData ex) as [ended|] eqn:Eend; [|done]. rewrite !andb_true_iff, !Z.eqb_eq, !bool_decide_eq_true in Hv.
  destruct Hv as (((((((((((_ & Hclean) & _) & _) & Hexec) & _) & Hstart) & Hnow) & _) & _) & Hcode) & _).
  destruct (verification_started_source _ _ _ _ _ _ _ Hs1 Ev1) as [Hbegun Hbid].
  destruct (completion_source _ _ _ _ _ _ _ _ Hs1 Eex Eend) as (Hended & Hendid & Hclean').
  rewrite Hclean in Hclean'. injection Hclean' as Hclean'.
  apply list_elem_of_split in Hbegun as (b1 & b2 & Eb).
  destruct (publisher_history _ _ _ _ _ _ _ _ Hs1 Eb) as (s2 & Hs2 & Hl2 & Ha2).
  destruct (accepted_as_agent _ _ _ _ _ _ Hs2 Ha2 eq_refl) as (attribution2 & Hv2). cbn in Hv2.
  apply refuse_when_ok in Hv2. rewrite !orb_false_iff, !negb_false_iff, Z.eqb_eq in Hv2.
  destruct Hv2 as (((_ & Hx2) & Hgen2) & _). rewrite Hexec in Hx2.
  destruct (jm_get _ (commandExecutions s2)) as [ex2|] eqn:Eex2; [|done].
  rewrite !andb_true_iff, bool_decide_eq_true in Hx2. destruct Hx2 as (((((Hpurpose & _) & _) & _) & _) & _).
  destruct (execution_source _ _ _ _ _ _ _ Hs2 Eex2) as (request & Hreq & Hreqid & _ & _ & _ & _ & Hp).
  assert (Hlog : log s = b1 ++ ev_verification_started (vf_started v1) :: (b2 ++ ev_verification_completed c :: l2)).
  { rewrite El, <-Hl1, Eb, <-app_assoc. done. }
  unfold observedExitCode in Hcode. destruct (ccp_termination ended === term_exit) eqn:Eterm; [|congruence].
  apply bool_decide_eq_true in Eterm.
  assert (Hin1 : forall e, e ∈ log s1 -> e ∈ log s) by (intros e; rewrite El, Hl1; set_solver).
  assert (Hin2 : forall e, e ∈ log s2 -> e ∈ log s) by (intros e He; rewrite Hlog, <-Hl2; set_solver).
  exists b1, (vf_started v1), (b2 ++ ev_verification_completed c :: l2), c, request, ended.
  split_and!; try done; try congruence; [|by apply Hin2|by apply Hin1].
  intros patch Hpatch. rewrite (generation_log _ _ _ _ _ Hs), Hlog in Hgen. rewrite (generation_log _ _ _ _ _ Hs2), Hl2 in Hgen2.
  rewrite countOf_app in Hgen. change (ev_verification_started (vf_started v1) :: b2 ++ ev_verification_completed c :: l2)
    with ([ev_verification_started (vf_started v1)] ++ b2 ++ ev_verification_completed c :: l2) in Hgen.
  rewrite countOf_app in Hgen. cbn in Hgen.
  assert (Hzero : countOf isPatchCompleted (b2 ++ ev_verification_completed c :: l2) = 0) by (change (countOf _ [_]) with 0 in Hgen; lia).
  by apply (countOf_zero _ _ Hzero) in Hpatch.
Qed.

(** An accepted evaluation of a finish request, on the log [before] it. *)
Definition accepted_evaluation (before : list RunEventDraft) (evaluated : CompletionEvaluatedPayload) : Prop :=
  cvp_effect evaluated = effect_accept /\ cvp_verification_ids evaluated <> [] /\
  (exists evidence e, ev_completion_evidence evidence ∈ before /\
     cvp_evidence_sha256 evaluated = Some (cep_evidence_sha256 evidence) /\
     cvp_report_sha256 evaluated = Some (cep_report_sha256 evidence) /\
     cep_evidence evidence = CompletedEvidence e /\ cev_runId e = runId /\ cev_sessionId e = sessionId /\
     ve_verificationId <$> cev_verifications e = Some <$> cvp_verification_ids evaluated) /\
  forall id, id ∈ cvp_verification_ids evaluated -> verified_after_last_patch before id.

Lemma evaluation_accepted st before evaluated after :
  reachable st -> log st = before ++ ev_completion_evaluated evaluated :: after ->
  cvp_effect evaluated = effect_accept -> accepted_evaluation before evaluated.
Proof.
  intros Hst Hlog Heffect. destruct (publisher_history _ _ _ _ _ _ _ _ Hst Hlog) as (s & Hs & <- & Ha).
  destruct (accepted_as_agent _ _ _ _ _ _ Hs Ha eq_refl) as (attribution & Hv). cbn in Hv.
  unfold validateCompletionEvaluated in Hv. destruct (completionCandidates s !! _) as [candidate|]; [|done].
  do 3 (apply bind_ok in Hv as (? & _ & Hv)). apply bind_ok in Hv as (? & Hev & Hv). rewrite Heffect in Hev, Hv.
  rewrite bool_decide_eq_true_2 in Hv by done. cbn in Hev.
  destruct (cvp_evidence_sha256 evaluated) as [sha|] eqn:Esha; [|done]. cbn in Hev, Hv.
  destruct (completionEvidence s !! sha) as [evidence|] eqn:Ee; [|done].
  destruct (evidence_source _ _ _ _ _ _ _ Hs Ee) as [Hin Hsha].
  apply bind_ok in Hev as (? & Hmatch%refuse_when_ok & _). rewrite !orb_false_iff, !negb_false_iff in Hmatch.
  destruct Hmatch as (((Houtcome & Hreport) & _) & _). apply bool_decide_eq_true in Hreport.
  apply refuse_when_ok in Hv. rewrite !orb_false_iff, !negb_false_iff in Hv. destruct Hv as ((Hids & Hne) & Hcurrent).
  assert (Hkind : exists e, cep_evidence evidence = CompletedEvidence e).
  { destruct (cep_evidence evidence) as [e|e]; [by exists e|]. by cbn in Houtcome. }
  destruct Hkind as [e He]. split; [done|]. split; [by destruct (cvp_verification_ids evaluated)|]. split.
  - pose proof Hin as Hin0. apply list_elem_of_split in Hin as (l1 & l2 & El).
    destruct (publisher_history _ _ _ _ _ _ _ _ Hs El) as (s1 & Hs1 & Hl1 & Ha1).
    destruct (accepted_as_agent _ _ _ _ _ _ Hs1 Ha1 eq_refl) as (attribution1 & Hv1). cbn in Hv1.
    unfold validateCompletionEvidence in Hv1. apply bind_ok in Hv1 as (? & Hv1%refuse_when_ok & _).
    rewrite !orb_false_iff, !negb_false_iff in Hv1. destruct Hv1 as (((_ & Hrun) & Hsession) & _).
    apply bool_decide_eq_true in Hrun, Hsession. rewrite He in Hrun, Hsession. cbn in Hrun, Hsession.
    exists evidence, e. split_and!; try done; [congruence|].
    unfold completionVerificationIdsMatch in Hids. rewrite He in Hids. by apply bool_decide_eq_true in Hids.
  - intros id Hid. rewrite forallb_forall in Hcurrent. apply current_verification; [done|].
    by apply Hcurrent, list_elem_of_In.
Qed.

(** C8: A verified completion is verified. When a run completes as verified, an
    evaluation of its finish request accepted the very evidence and report the
    terminal names; the evidence is a completed one of this run and session and
    was persisted before; and each verification the evaluation cites, of which
    there is at least one and which are those of the evidence, began after the
    last patch applied before the evaluation and passed.  A patch between the
    evaluation and the terminal is not excluded ([late_patch_passes]). *)
Theorem verified_completion_is_evidenced st pre d post :
  publisher_reachable sha256Bytes localeLe runId sessionId st -> log st = pre ++ ev_run_completed d :: post ->
  rcp_completion_mode d = Some mode_verified_finish_task ->
  exists before evaluated after, pre = before ++ ev_completion_evaluated evaluated :: after /\
    accepted_evaluation before evaluated /\
    cvp_evidence_sha256 evaluated = rcp_evidence_sha256 d /\ cvp_report_sha256 evaluated = rcp_report_sha256 d.
Proof.
  intros Hst Hlog Hmode. destruct (publisher_history _ _ _ _ _ _ _ _ Hst Hlog) as (s & Hs & <- & Ha).
  apply accepts_verified in Ha as (step & Hfinal); [|done|done].
  destruct (toolOf s (as_toolCallId step)) as [tool|]; [|done].
  destruct (evaluatedOf s (as_toolCallId step)) as [evaluated|] eqn:Ee; [|done].
  rewrite !andb_true_iff, !bool_decide_eq_true in Hfinal. destruct Hfinal as ((((_ & _) & Heffect) & Hsha) & Hreport).
  destruct (as_toolCallId step) as [callId|]; [|done].
  destruct (evaluated_source _ _ _ _ _ _ _ Hs Ee) as [Hin _].
  apply list_elem_of_split in Hin as (before & after & El). exists before, evaluated, after.
  split_and!; try done. by eapply evaluation_accepted.
Qed.

(** ** The facts a completion gate reads *)

(** Current facts are verifications that hold. Each fact
    [currentVerificationCommandFacts] gives, for the completion of plan items, is
    a verification that began after the last patch of the log and passed; and its
    four evidence ids are those of persisted events. *)
Theorem current_facts_are_verified st fact :
  publisher_reachable sha256Bytes localeLe runId sessionId st ->
  fact ∈ currentVerificationCommandFacts localeLe st ->
  verified_after_last_patch (log st) (cvf_verificationId fact) /\
  length (cvf_evidenceEventIds fact) = 4%nat /\
  forall id, id ∈ cvf_evidenceEventIds fact -> id ∈ re_event_id <$> persistedEvents st.
Proof.
  intros Hst Hfact. unfold currentVerificationCommandFacts in Hfact. rewrite (js_sort_Permutation _) in Hfact.
  apply list_elem_of_omap in Hfact as ([id vs] & Hin & Hf). unfold currentFact in Hf.
  apply bind_Some in Hf as (c & Hc & Hf). apply bind_Some in Hf as (ex & Hex & Hf).
  apply bind_Some in Hf as (cc & Hcc & Hf). destruct (_ || _) eqn:Eb in Hf; [done|].
  destruct (negb _) eqn:El in Hf; [done|]. simplify_eq. cbn. rewrite !orb_false_iff, !negb_false_iff in Eb.
  destruct Eb as (((((((((Hp & Hs) & Hg) & _) & _) & _) & _) & _) & _) & _). split_and!.
  - apply current_verification; [done|]. unfold currentlyPassed.
    rewrite (jm_get_NoDup _ _ _ (verifications_NoDup _ _ _ _ _ Hst) Hin). cbn. rewrite Hc.
    by rewrite Hp, Hs, Hg.
  - by apply negb_false_iff, Nat.eqb_eq in El.
  - intros i Hi. apply list_elem_of_fmap in Hi as (e & -> & He). apply list_elem_of_fmap. exists e. split; [done|].
    apply list_elem_of_In, filter_In in He as [He _]. by apply list_elem_of_In.
Qed.
End Properties.

(** ** A run that completes as verified

    The concrete run on which the theorems of [EventPublisherProperties.v] are
    instantiated: a patch is approved and applied, a test passes, and the finish
    request is accepted.  Two examples show what the publisher lets through. *)

Module SampleRun.
Definition publishOne (draft : RunEventDraft) (st : EventPublisher) : EventPublisher :=
  (publish standInHash jstring_le "run" "session" None "event" true true draft st).2.
Definition publishAll (drafts : list RunEventDraft) (st : EventPublisher) : EventPublisher :=
  fold_left (fun st draft => publishOne draft st) drafts st.
Notation reachable := (publisher_reachable standInHash jstring_le "run" "session").

Lemma publishAll_reachable drafts st : reachable st -> reachable (publishAll drafts st).
Proof.
  revert st. induction drafts as [|draft drafts IH]; intros st Hst; [done|]. cbn [publishAll fold_left].
  apply IH. eapply rtc_r; [exact Hst|constructor].
Qed.

(** ** The events *)

Definition sampleBackend : BackendSelectedPayload := {|
  bs_adapter := "a"; bs_adapter_version := "1"; bs_cancellation := cancellation_abort_signal;
  bs_checkpoint_codec_version := None; bs_config_fingerprint := "f"; bs_model := "m"; bs_provider := "p";
  bs_reasoning := reasoning_none; bs_resume_capability := None; bs_tools := tools_strict;
  bs_usage := usage_complete |}.

Definition start : list RunEventDraft := [
  ev_run_started {| rst_command := command_agent; rst_model := "m"; rst_provider := "p"; rst_resume_mode := None;
                    rst_resume_of_run_id := None; rst_task_profile := Some profile_coding |};
  ev_backend_selected sampleBackend].

(** A step of the model that ends in the tool call [callId]. *)
Definition toolStep (step : Z) (input : StepInput) (callId name : string) (arguments : jstring) : list RunEventDraft := [
  ev_agent_step_started {| ass_input_kind := input; ass_step := step |};
  ev_text_delta {| td_delta := js "working"; td_visibility := Some visible_internal_candidate |};
  ev_model_usage (CompleteUsage step "p" None 10 5 15);
  ev_agent_step_completed {| asc_outcome := outcome_tool_call; asc_step := step; asc_text_chars := 7;
                             asc_tool_call_id := Some callId |};
  ev_tool_call_requested {| tcr_arguments_json := arguments; tcr_call_id := callId; tcr_provider_response_id := None; tcr_step := step; tcr_tool_name := name |}].

Definition result (step : Z) (callId name : string) : RunEventDraft :=
  ev_tool_call_completed {| tcc_call_id := callId; tcc_error_category := None; tcc_error_code := None; tcc_output := js "ok";
    tcc_retryable := None; tcc_status := tool_success; tcc_step := step; tcc_tool_name := name; tcc_truncated := false |}.

(** The patch plan [plan] of the call [callId] is shown and approved as [request]. *)
Definition patchAsked (step : Z) (callId plan request : string) : list RunEventDraft := [
  ev_patch_plan_created {| ppc_call_id := callId; ppc_plan_id := plan; ppc_rule_manifest_sha256 := None;
                           ppc_rule_scope_set_sha256 := None; ppc_step := step |};
  ev_approval_requested {| arp_action := ApplyPatchAction None plan None None; arp_approval_request_id := request;
                           arp_call_id := callId; arp_step := step |};
  ev_approval_decided {| adp_action := ApplyPatchAction None plan None None; adp_approval_request_id := request;
                         adp_call_id := callId; adp_decision := approval_approved; adp_step := step |}].
Definition applyStarted (step : Z) (callId plan request : string) : PatchApplyStartedPayload := {|
  pas_approval_request_id := request; pas_call_id := callId;
  pas_files := [{| pfs_kind := modify_change; pfs_path := js "a.ts"; pfs_post_sha256 := None; pfs_pre_sha256 := Some "before"%string |}];
  pas_plan_id := plan; pas_rule_manifest_sha256 := None; pas_rule_scope_set_sha256 := None; pas_step := step |}.
Definition applyCompleted (step : Z) (callId plan request : string) : RunEventDraft := ev_patch_apply_completed {|
  pac_added_lines := 3; pac_removed_lines := 1; pac_approval_request_id := request; pac_call_id := callId;
  pac_files := [{| pfd_kind := modify_change; pfd_path := js "a.ts"; pfd_post_sha256 := "after"; pfd_pre_sha256 := Some "before"%string |}];
  pac_plan_id := plan; pac_rule_manifest_sha256 := None; pac_rule_scope_set_sha256 := None; pac_step := step |}.

Definition commandAsked (step : Z) : list RunEventDraft := [
  ev_permission_evaluated {| pev_action_sha256 := "act"; pev_call_id := "c2"; pev_effect := ask_effect;
                             pev_reason_code := Some "reviewed"%string; pev_step := step |};
  ev_approval_requested {| arp_action := RunCommandAction "act"; arp_approval_request_id := "a2"; arp_call_id := "c2"; arp_step := step |};
  ev_approval_decided {| adp_action := RunCommandAction "act"; adp_approval_request_id := "a2"; adp_call_id := "c2";
                         adp_decision := approval_approved; adp_step := step |}].
Definition identity (step : Z) : CommandIdentity := {|
  ci_action_sha256 := "act"; ci_call_id := "c2"; ci_execution_id := "x2"; ci_executor := executor_local; ci_step := step |}.
Definition commandRequested (step : Z) : CommandRequestedPayload := {|
  crq_id := identity step; crq_approval_request_id := Some "a2"%string; crq_cwd := js "."; crq_executable := js "npm";
  crq_purpose := purpose_verify; crq_redacted_argv := [js "npm"; js "test"] |}.

Definition snapshot : VerificationSnapshot := {|
  vs_changedFiles := [{| sfd_path := js "a.ts"; sfd_sha256 := "after" |}]; vs_commandInputs := [];
  vs_generation := 1; vs_gitHeadSha256 := "head"; vs_gitIndexSha256 := "index"; vs_journalSha256 := "journal";
  vs_packageScriptSha256 := None; vs_sourceStateSha256 := "source" |}.
Definition snapshotSha : string :=
  match hashVerificationSnapshot standInHash jstring_le snapshot with Ok sha => sha | Err _ => "" end.

Definition verificationIdentity (step : Z) : VerificationIdentity := {|
  vid_action_sha256 := "act"; vid_call_id := "c2"; vid_command_execution_id := "x2"; vid_step := step;
  vid_verification_id := "v2" |}.
Definition commandRun (step : Z) : list RunEventDraft := [
  ev_verification_started {| vsp_id := verificationIdentity step; vsp_generation := 1; vsp_kind := vc_test; vsp_snapshot_sha256 := snapshotSha |};
  ev_command_started (identity step);
  ev_command_output {| cop_id := identity step; cop_bytes := 2; cop_channel := channel_stdout; cop_chunk := js "ok"; cop_chunk_index := 0 |}].
Definition commandCompleted (step : Z) : CommandCompletedPayload := {|
  ccp_id := identity step; ccp_cleanup_verified := true; ccp_duration_ms := 9; ccp_error_code := None; ccp_exit_code := Some 0; ccp_signal := None;
  ccp_stderr_bytes := 0; ccp_stdout_bytes := 2; ccp_termination := term_exit; ccp_total_bytes := 2; ccp_truncated := false |}.
Definition verificationCompleted (step : Z) : RunEventDraft := ev_verification_completed {|
  vcp_id := verificationIdentity step; vcp_after_snapshot_sha256 := snapshotSha; vcp_before_snapshot_sha256 := snapshotSha;
  vcp_completed_generation := 1; vcp_duration_ms := 9; vcp_exit_code := Some 0; vcp_stale := false; vcp_stale_reasons := [];
  vcp_started_generation := 1; vcp_status := vst_passed |}.

Definition verification : VerificationEvidence := {|
  ve_actionSha256 := "act"; ve_afterSnapshot := snapshot; ve_approved := true; ve_argv := [js "npm"; js "test"];
  ve_beforeSnapshot := snapshot; ve_classification := vc_test; ve_completedEventPersisted := true; ve_cwd := js ".";
  ve_durationMs := 9; ve_executionId := "x2"; ve_exitCode := Some 0; ve_generationAtCompletion := 1;
  ve_generationAtStart := 1; ve_inputsKnown := true;
  ve_output := {| coe_artifactRefs := []; coe_eventRefs := ["command:x2"%string]; coe_stderrSummary := [];
                  coe_stdoutSummary := js "ok"; coe_totalBytes := 2; coe_truncated := false |};
  ve_stale := false; ve_verificationId := Some "v2"%string |}.
Definition evidence : CompletionEvidence := {|
  cev_attributionScope := None;
  cev_changedByRun := [{| cfe_addedLines := 1; cfe_kind := modify_change; cfe_path := js "a.ts"; cfe_postimageSha256 := "after";
                          cfe_preimageSha256 := Some "before"%string; cfe_removedLines := 0 |}];
  cev_diffCheck := {| ce_checkedPaths := [js "a.ts"]; ce_detail := []; ce_diffSha256 := "diff"; ce_status := check_passed |};
  cev_finalSnapshot := snapshot; cev_modelEvidence := LegacyModelEvidence "fake" "in_process" "contract_verified";
  cev_modelNarrative := js "done"; cev_preExistingDirtyPaths := []; cev_runId := "run"; cev_sessionId := "session";
  cev_verifications := [verification] |}.

Definition finishAsked (step : Z) : list RunEventDraft := [
  ev_completion_candidate {| ccd_call_id := "c3"; ccd_candidate_sha256 := "cand"; ccd_status := finish_completed; ccd_step := step;
                             ccd_summary := js "done" |};
  ev_completion_evidence {| cep_evidence := CompletedEvidence evidence; cep_evidence_sha256 := "ev"; cep_report_sha256 := "report" |}].
Definition evaluated (step : Z) : CompletionEvaluatedPayload := {|
  cvp_call_id := "c3"; cvp_candidate_sha256 := "cand"; cvp_changed_paths := [js "a.ts"];
  cvp_diff_stat := Some {| cds_added_lines := 1; cds_removed_lines := 0 |}; cvp_effect := effect_accept; cvp_error_code := None;
  cvp_evidence_sha256 := Some "ev"%string; cvp_reasons := []; cvp_report_sha256 := Some "report"%string; cvp_step := step;
  cvp_verification_ids := ["v2"%string] |}.
Definition usage (steps : Z) : UsagePayload := {|
  us_cached_input_tokens := None; us_input_tokens := 10 * steps; us_model_turns := Some steps; us_output_tokens := 5 * steps;
  us_total_tokens := 15 * steps;
  us_usage_incomplete := None |}.
Definition runCompleted (steps : Z) : RunCompletedPayload := {|
  rcp_completion_mode := Some mode_verified_finish_task; rcp_evidence_sha256 := Some "ev"%string; rcp_model_turns := Some steps;
  rcp_output_chars := 7 * steps; rcp_report_sha256 := Some "report"%string; rcp_steps := Some steps; rcp_tool_calls := Some steps |}.

(** ** The run, in parts *)

Definition finishArguments : jstring := quoted "{`status`:`completed`,`summary`:`done`}".
Definition upToPatch := start ++ toolStep 1 input_user_task "c1" "apply_patch" (js "{}") ++ patchAsked 1 "c1" "plan" "a1".
Definition patchDone := [
  ev_patch_apply_started (applyStarted 1 "c1" "plan" "a1"); applyCompleted 1 "c1" "plan" "a1"; result 1 "c1" "apply_patch"].
Definition commandStep (step : Z) := toolStep step input_tool_result "c2" "run_command" (js "{}") ++ commandAsked step.
Definition upToCommand := upToPatch ++ patchDone ++ commandStep 2.
Definition commandRan (step : Z) := ev_command_requested (commandRequested step) :: commandRun step.
Definition upToExit := upToCommand ++ commandRan 2.
Definition commandEnded (step : Z) := [
  ev_command_completed (commandCompleted step); verificationCompleted step; result step "c2" "run_command"].
Definition finishStep (step : Z) := toolStep step input_tool_result "c3" "finish_task" finishArguments ++ finishAsked step.
Definition upToEvaluation := upToExit ++ commandEnded 2 ++ finishStep 3.
Definition finished (step : Z) := [ev_completion_evaluated (evaluated step); result step "c3" "finish_task"].
Definition upToUsage := upToEvaluation ++ finished 3.
Definition upToEnd := upToUsage ++ [ev_usage (usage 3)].
Definition events := upToEnd ++ [ev_run_completed (runCompleted 3)].

Definition final : EventPublisher := publishAll events initialPublisher.

Lemma final_reachable : reachable final.
Proof. apply publishAll_reachable. constructor. Qed.

(** Every event of the run was accepted. *)
Lemma final_log : log final = events.
Proof. vm_compute. reflexivity. Qed.
End SampleRun.

(** ** The properties on the sample run *)

Lemma sample_split pre draft post :
  SampleRun.events = pre ++ draft :: post -> log SampleRun.final = pre ++ draft :: post.
Proof. intros <-. apply SampleRun.final_log. Qed.

Lemma run_log_is_bracketed_witness :
  ((exists d, ev_run_completed (SampleRun.runCompleted 3) = ev_run_started d) <-> SampleRun.upToEnd = []) /\
  ((exists d, ev_run_completed (SampleRun.runCompleted 3) = ev_backend_selected d) <-> length SampleRun.upToEnd = 1%nat) /\
  (isTerminalRunEvent (ev_run_completed (SampleRun.runCompleted 3)) = true -> [] = @nil RunEventDraft).
Proof.
  apply (run_log_is_bracketed standInHash jstring_le "run" "session" SampleRun.final).
  - apply SampleRun.final_reachable.
  - apply sample_split. reflexivity.
Defined.

Lemma commands_are_permitted_witness :
  exists permission, ev_permission_evaluated permission ∈ SampleRun.upToCommand /\ pev_effect permission = ask_effect /\
    approved_command SampleRun.upToCommand (SampleRun.identity 2) "a2".
Proof.
  destruct (commands_are_permitted standInHash jstring_le "run" "session" SampleRun.final SampleRun.upToCommand
    (SampleRun.commandRequested 2)
    (SampleRun.commandRun 2 ++ SampleRun.commandEnded 2 ++ SampleRun.finishStep 3 ++ SampleRun.finished 3 ++
     [ev_usage (SampleRun.usage 3); ev_run_completed (SampleRun.runCompleted 3)]))
    as (p & Hp & _ & _ & [[_ Hnone]|(Hask & id & Hid & Happ)] & _).
  - apply SampleRun.final_reachable.
  - apply sample_split. reflexivity.
  - discriminate Hnone.
  - injection Hid as <-. exists p. exact (conj Hp (conj Hask Happ)).
Defined.

Lemma patches_are_approved_witness :
  exists plan, ev_patch_plan_created plan ∈ SampleRun.upToPatch /\ ppc_plan_id plan = "plan"%string.
Proof.
  destruct (patches_are_approved standInHash jstring_le "run" "session" SampleRun.final SampleRun.upToPatch
    (SampleRun.applyStarted 1 "c1" "plan" "a1")
    (drop (S (length SampleRun.upToPatch)) SampleRun.events)) as (plan & _ & _ & Hp & _ & Hid & _).
  - apply SampleRun.final_reachable.
  - apply sample_split. reflexivity.
  - exact (ex_intro _ plan (conj Hp Hid)).
Defined.

Lemma results_match_requests_witness :
  Forall (fun e => match e with ev_tool_call_completed d' => tcc_call_id d' <> "c3"%string | _ => True end)
    (SampleRun.upToEvaluation ++ [ev_completion_evaluated (SampleRun.evaluated 3)]).
Proof.
  apply list.Forall_forall. intros e He. destruct e; try exact I.
  exact (proj2 (results_match_requests standInHash jstring_le "run" "session" SampleRun.final
    (SampleRun.upToEvaluation ++ [ev_completion_evaluated (SampleRun.evaluated 3)])
    {| tcc_call_id := "c3"; tcc_error_category := None; tcc_error_code := None; tcc_output := js "ok";
       tcc_retryable := None; tcc_status := tool_success; tcc_step := 3; tcc_tool_name := "finish_task"; tcc_truncated := false |}
    [ev_usage (SampleRun.usage 3); ev_run_completed (SampleRun.runCompleted 3)]
    SampleRun.final_reachable (sample_split _ _ _ eq_refl)) data He).
Defined.

Lemma command_output_is_accounted_witness :
  2 = chunkBytes (onChannel channel_stdout (omap (outputOf "x2") SampleRun.upToExit)).
Proof.
  exact (proj1 (command_output_is_accounted standInHash jstring_le "run" "session" SampleRun.final SampleRun.upToExit
    (SampleRun.commandCompleted 2) (drop (S (length SampleRun.upToExit)) SampleRun.events)
    SampleRun.final_reachable (sample_split _ _ _ eq_refl))).
Defined.

Lemma completed_run_is_settled_witness :
  21 = sumBy deltaChars SampleRun.upToEnd /\ 3 = countOf isToolCompleted SampleRun.upToEnd.
Proof.
  destruct (completed_run_is_settled standInHash jstring_le "run" "session" SampleRun.final SampleRun.upToEnd
    (SampleRun.runCompleted 3) [] SampleRun.final_reachable (sample_split _ _ _ eq_refl)) as (_ & _ & Hchars & Htools).
  exact (conj Hchars (Htools 3 eq_refl)).
Defined.

Lemma only_evaluation evaluated :
  ev_completion_evaluated evaluated ∈ SampleRun.upToEnd -> evaluated = SampleRun.evaluated 3.
Proof.
  assert (Hone : omap (fun e => match e with ev_completion_evaluated d => Some d | _ => None end) SampleRun.upToEnd =
                 [SampleRun.evaluated 3]) by (vm_compute; reflexivity).
  intros Hin. apply list_elem_of_singleton. rewrite <-Hone. apply list_elem_of_omap. by exists (ev_completion_evaluated evaluated).
Qed.

Lemma verified_completion_is_evidenced_witness :
  exists before, accepted_evaluation "run" "session" before (SampleRun.evaluated 3).
Proof.
  destruct (verified_completion_is_evidenced standInHash jstring_le "run" "session" SampleRun.final SampleRun.upToEnd
    (SampleRun.runCompleted 3) [] SampleRun.final_reachable (sample_split _ _ _ eq_refl) eq_refl)
    as (before & evaluated & after & Hpre & Hev & _).
  exists before. assert (evaluated = SampleRun.evaluated 3) as <-; [|exact Hev].
  assert (Hin : ev_completion_evaluated evaluated ∈ SampleRun.upToEnd)
    by (rewrite Hpre; apply elem_of_app; right; left).
  apply only_evaluation in Hin. exact Hin.
Defined.

(** ** What the publisher lets through *)

(** A patch that was approved can be applied after the finish request was
    accepted: neither its start nor its completion asks for a pending call. The
    run below ends its second patch call with an error, verifies, has its finish
    request accepted, applies the second patch, and completes as verified. *)
Definition lateApply := [
  ev_patch_apply_started (SampleRun.applyStarted 2 "c4" "late" "a4"); SampleRun.applyCompleted 2 "c4" "late" "a4"].
Definition lateRun := SampleRun.upToPatch ++ SampleRun.patchDone ++
  SampleRun.toolStep 2 input_tool_result "c4" "apply_patch" (js "{}") ++ SampleRun.patchAsked 2 "c4" "late" "a4" ++
  [ev_tool_call_completed {| tcc_call_id := "c4"; tcc_error_category := Some error_tool;
     tcc_error_code := Some "patch_apply_failed"%string; tcc_output := []; tcc_retryable := Some false;
     tcc_status := tool_error; tcc_step := 2; tcc_tool_name := "apply_patch"; tcc_truncated := false |}] ++
  SampleRun.commandStep 3 ++ SampleRun.commandRan 3 ++ SampleRun.commandEnded 3 ++ SampleRun.finishStep 4 ++
  SampleRun.finished 4 ++ lateApply ++ [ev_usage (SampleRun.usage 4); ev_run_completed (SampleRun.runCompleted 4)].
Example late_patch_passes :
  log (SampleRun.publishAll lateRun initialPublisher) = lateRun /\
  verificationGeneration (SampleRun.publishAll lateRun initialPublisher) = 2.
Proof. vm_compute. split; reflexivity. Qed.

(** [recoverAdoptedCall] takes a result for a call that was requested in this run
    and never adopted; the result then needs no evidence of an applied patch. *)
Definition recoveredPatch : ToolCallCompletedPayload := {|
  tcc_call_id := "c1"; tcc_error_category := None; tcc_error_code := None; tcc_output := js "ok"; tcc_retryable := None;
  tcc_status := tool_success; tcc_step := 1; tcc_tool_name := "apply_patch"; tcc_truncated := false |}.
Example requested_call_is_recovered :
  let st := SampleRun.publishAll SampleRun.upToPatch initialPublisher in
  let recovered := recoverAdoptedCall (writer_durable "e") recoveredPatch st in
  adoptedCalls st = ∅ /\ recovered.1 = Ok () /\
  log (SampleRun.publishOne (ev_tool_call_completed recoveredPatch) recovered.2) =
    SampleRun.upToPatch ++ [ev_tool_call_completed recoveredPatch] /\
  log (SampleRun.publishOne (ev_tool_call_completed recoveredPatch) st) = SampleRun.upToPatch.
Proof. vm_compute. split_and!; reflexivity. Qed.
