(* ===== verification/ToolErrors.v ===== *)
(** * Redaction and tool errors

    [src/security/redact.ts]: the text the agent lets out is freed of the known
    secrets and of what looks like a credential.  [src/tools/tool-errors.ts] and
    [tool-types.ts]: the value an executed tool answers with, and the text of an
    error.  A regular expression is the length of its match at a position, given
    the unit before it; it is replaced from left to right. *)

From S2P Require Import Prelude JsString CanonicalJson Domain Completion JsonParse RunEvents.
#[local] Open Scope Z_scope.

(** ** Replacement *)

(** [value.replace(pattern, text)] with a global pattern. [skip] units of the
    last match are still to be dropped. *)
Fixpoint replaceMatches (matchAt : option Z -> jstring -> option nat) (text : jstring) (before : option Z)
    (skip : nat) (s : jstring) : jstring :=
  match s with
  | [] => []
  | u :: r =>
      match skip with
      | S skip => replaceMatches matchAt text (Some u) skip r
      | O =>
          match matchAt before s with
          | Some (S n) => text ++ replaceMatches matchAt text (Some u) n r
          | _ => u :: replaceMatches matchAt text (Some u) 0 r
          end
      end
  end.

(** [value.replaceAll(literal, text)] with a literal that is not empty. *)
Definition replaceAll (literal text s : jstring) : jstring :=
  replaceMatches (fun _ rest => if startsWith rest literal then Some (length literal) else None) text None 0 s.

(** ** The patterns *)

Definition isWordUnit (u : Z) : bool := isAsciiLetter u || isDigit u || (u =? 0x5f).
Definition isTokenUnit (u : Z) : bool := isAsciiLetter u || isDigit u || bool_decide (u ∈ js "._~+/=-").
Definition isKeyUnit (u : Z) : bool := isWordUnit u || (u =? 0x2d).

(** The length of the longest prefix of units in a class. *)
Fixpoint run (cls : Z -> bool) (s : jstring) : nat :=
  match s with [] => 0 | u :: r => if cls u then S (run cls r) else 0 end.
(** A literal, with [fold] applied to the text; what follows it. *)
Definition after (fold : jstring -> jstring) (literal s : jstring) : option jstring :=
  if bool_decide (fold (take (length literal) s) = literal) then Some (drop (length literal) s) else None.
(** [cls{least,}]: what follows the longest run. *)
Definition atLeast (least : nat) (cls : Z -> bool) (s : jstring) : option jstring :=
  if (least <=? run cls s)%nat then Some (drop (run cls s) s) else None.
(** [\b] before a word unit. *)
Definition wordStart (before : option Z) : bool :=
  match before with Some u => negb (isWordUnit u) | None => true end.
Definition matched (s : jstring) (rest : option jstring) : option nat :=
  rest ← rest; Some (length s - length rest)%nat.

Definition AUTHORIZATION_BEARER (before : option Z) (s : jstring) : option nat :=
  matched s (
    r ← after toLowerCase (js "authorization") s; r ← atLeast 0 isJsSpace r; r ← after id (js ":") r;
    r ← atLeast 0 isJsSpace r; r ← after toLowerCase (js "bearer") r; r ← atLeast 1 isJsSpace r;
    atLeast 1 (fun u => negb (isJsSpace u)) r).
Definition BEARER_TOKEN (before : option Z) (s : jstring) : option nat :=
  if wordStart before then
    matched s (r ← after id (js "Bearer") s; r ← atLeast 1 isJsSpace r; atLeast 8 isTokenUnit r)
  else None.
Definition OPENAI_STYLE_TOKEN (before : option Z) (s : jstring) : option nat :=
  if wordStart before then matched s (r ← after id (js "sk-") s; atLeast 8 isKeyUnit r) else None.

Definition redactSensitiveText (value : jstring) (secrets : list (option jstring)) : jstring :=
  let redacted := fold_left (fun redacted secret =>
    match secret with
    | Some (u :: r) => replaceAll (u :: r) (js "[redacted]") redacted
    | _ => redacted
    end) secrets value in
  replaceMatches OPENAI_STYLE_TOKEN (js "[redacted]") None 0
    (replaceMatches BEARER_TOKEN (js "Bearer [redacted]") None 0
      (replaceMatches AUTHORIZATION_BEARER (js "Authorization: Bearer [redacted]") None 0 redacted)).

Example redact_ex :
  redactSensitiveText (js "key hunter2, AUTHORIZATION :bearer abc; Bearer 12345678 task-12345678 sk-1234567890")
    [None; Some (js "hunter2")] =
  js "key [redacted], Authorization: Bearer [redacted] Bearer [redacted] task-12345678 [redacted]".
Proof. vm_compute. reflexivity. Qed.

(** ** Tool answers *)

Definition MAX_TOOL_ARGUMENT_BYTES : Z := 16 * 1024.
Definition MAX_TOOL_OUTPUT_BYTES : Z := 64 * 1024.

Record ToolError : Type := {
  te_category : ToolErrorCategory; te_code : string; te_message : jstring; te_retryable : bool }.

(** The [incomplete] member of [CompletionControlSignal]. *)
Record IncompleteSignal : Type := {
  is_evidenceSha256 : string; is_reason : CompletionReason; is_reportJson : jstring;
  is_reportSha256 : string; is_reportText : jstring }.

(** [ToolControlSignal]: a completion decision, or a proposed plan revision. *)
Inductive ToolControlSignal : Type :=
| control_accept (evidenceSha256 reportSha256 : string) (reportJson reportText : jstring)
| control_continue (reasons : list CompletionReason)
| control_incomplete (signal : IncompleteSignal)
| control_plan_revision_proposed (planId : string) (revision : Z) (sha256 : string).

(** A result is [ok] when it has no error. *)
Record ToolExecution : Type := {
  tx_error : option ToolError; tx_control : option ToolControlSignal; tx_output : jstring;
  tx_truncated : bool }.
Definition tx_ok (execution : ToolExecution) : bool :=
  match tx_error execution with None => true | Some _ => false end.

Definition categoryText (category : ToolErrorCategory) : string :=
  match category with
  | error_cancelled => "cancelled" | error_invalid_arguments => "invalid_arguments" | error_limit => "limit"
  | error_not_found => "not_found" | error_permission => "permission" | error_system => "system"
  | error_tool => "tool"
  end.

(** [JSON.stringify({ error, ok: false })] *)
Definition errorJson (error : ToolError) : jstring :=
  quoted "{`error`:{`category`:" ++ stringifyString (js (categoryText (te_category error))) ++
  quoted ",`code`:" ++ stringifyString (js (te_code error)) ++
  quoted ",`message`:" ++ stringifyString (te_message error) ++
  quoted ",`retryable`:" ++ js (if te_retryable error then "true" else "false") ++
  quoted "},`ok`:false}".

Definition failedExecution (error : ToolError) : ToolExecution :=
  {| tx_error := Some error; tx_control := None; tx_output := errorJson error; tx_truncated := false |}.

(** The error that replaces one that is too large has no secret in it, so it is
    redacted to itself. *)
Definition tooLargeError : ToolError := {|
  te_category := error_system; te_code := "tool_error_too_large"; te_message := js "tool error is too large";
  te_retryable := false |}.
Definition serializeToolError (error : ToolError) (secrets : list (option jstring)) : ToolExecution :=
  let safeError := {| te_category := te_category error; te_code := te_code error;
                      te_message := redactSensitiveText (te_message error) secrets;
                      te_retryable := te_retryable error |} in
  if MAX_TOOL_OUTPUT_BYTES <? byteLength (errorJson safeError) then failedExecution tooLargeError
  else failedExecution safeError.

Example tooLarge_is_small :
  redactSensitiveText (te_message tooLargeError) [] = te_message tooLargeError /\
  byteLength (errorJson tooLargeError) < MAX_TOOL_OUTPUT_BYTES.
Proof. split; vm_compute; reflexivity. Qed.

(** ** Text for the terminal

    [src/presentation/terminal-sanitizer.ts]: what comes from outside loses its
    control sequences before it is measured, rendered or shown to a model.  The
    consuming functions of the source return the index after a sequence; here
    they return the rest of the text.  [no_control_survives] is what the module
    is for: no text, however it is cut, leaves a control unit in the output. *)

Definition ESC : Z := 0x1b.
Definition DELETE : Z := 0x7f.
Definition C1_CSI : Z := 0x9b.
Definition C1_ST : Z := 0x9c.
Definition C1_OSC : Z := 0x9d.
Definition CONTROL_STRING_C1 : list Z := [0x90; 0x98; 0x9e; 0x9f].
Definition CONTROL_STRING_ESC_FINAL : list Z := [0x50; 0x58; 0x5e; 0x5f].

Definition between (low high u : Z) : bool := (low <=? u) && (u <=? high).

Fixpoint consumeCsi (s : jstring) : jstring :=
  match s with
  | [] => []
  | code :: r => if between 0x40 0x7e code then r else consumeCsi r
  end.

Fixpoint consumeControlString (bellTerminates : bool) (s : jstring) : jstring :=
  match s with
  | [] => []
  | code :: r =>
      if bellTerminates && (code =? 0x07) then r
      else if code =? C1_ST then r
      else match r with
           | next :: r' => if (code =? ESC) && (next =? 0x5c) then r' else consumeControlString bellTerminates r
           | [] => []
           end
  end.

(** The intermediate units of an escape sequence. *)
Fixpoint consumeIntermediates (s : jstring) : jstring :=
  match s with
  | code :: r => if between 0x20 0x2f code then consumeIntermediates r else s
  | [] => []
  end.

Definition consumeEscSequence (s : jstring) : jstring :=
  match s with
  | [] => []
  | final :: r =>
      if final =? 0x5b then consumeCsi r
      else if final =? 0x5d then consumeControlString true r
      else if bool_decide (final ∈ CONTROL_STRING_ESC_FINAL) then consumeControlString false r
      else if between 0x20 0x2f final then
        match consumeIntermediates s with
        | code :: r' => if between 0x30 0x7e code then r' else code :: r'
        | [] => []
        end
      else if between 0x30 0x7e final then r else s
  end.

(** [stripTerminalControls]; [skip] units of a consumed sequence are still to be
    passed over. *)
Fixpoint stripTerminalControls (replacement : jstring) (tabWidth : nat) (skip : nat) (s : jstring) : jstring :=
  match s with
  | [] => []
  | code :: r =>
      let strip skip := stripTerminalControls replacement tabWidth skip r in
      let after rest := strip (length r - length rest)%nat in
      match skip with
      | S skip => strip skip
      | O =>
          if code =? ESC then after (consumeEscSequence r)
          else if code =? C1_CSI then after (consumeCsi r)
          else if code =? C1_OSC then after (consumeControlString true r)
          else if bool_decide (code ∈ CONTROL_STRING_C1) then after (consumeControlString false r)
          else if code =? C1_ST then strip 0%nat
          else if code =? 0x0d then
            0x0a :: strip (match r with next :: _ => if next =? 0x0a then 1%nat else 0%nat | [] => 0%nat end)
          else if code =? 0x0a then 0x0a :: strip 0%nat
          else if code =? 0x09 then repeat 0x20 tabWidth ++ strip 0%nat
          else if (code <? 0x20) || (code =? DELETE) || between 0x80 0x9f code then replacement ++ strip 0%nat
          else match r with
               | next :: _ =>
                   if isHighSurrogate code && isLowSurrogate next then code :: next :: strip 1%nat
                   else code :: strip 0%nat
               | [] => [code]
               end
      end
  end.

(** The options of [sanitizeTerminalText]; the source takes any number as
    [tabWidth] and refuses one that is no natural number. *)
Record TerminalSanitizerOptions : Type := {
  tso_replacement : option jstring; tso_secrets : list (option jstring); tso_tabWidth : option Z }.
Definition defaultSanitizer (secrets : list (option jstring)) : TerminalSanitizerOptions := {|
  tso_replacement := None; tso_secrets := secrets; tso_tabWidth := None |}.

Inductive SanitizerError : Type := SanitizerOptionsInvalid.

Definition sanitizeTerminalText (value : jstring) (options : TerminalSanitizerOptions) : result SanitizerError jstring :=
  let replacement := default [0xfffd] (tso_replacement options) in
  let tabWidth := default 4 (tso_tabWidth options) in
  if (tabWidth <? 0) || (length replacement =? 0)%nat then Err SanitizerOptionsInvalid
  else
    let redactedBefore := redactSensitiveText value (tso_secrets options) in
    let sanitized := stripTerminalControls replacement (Z.to_nat tabWidth) 0 redactedBefore in
    Ok (redactSensitiveText sanitized (tso_secrets options)).

Example sanitize_ex :
  sanitizeTerminalText ([ESC] ++ js "]0;title" ++ [7] ++ js "a" ++ [ESC] ++ js "[31mb" ++ [9; 13; 10; 0x9b] ++
                        js "2Jc" ++ [ESC; 0x90] ++ js "x") (defaultSanitizer []) =
  Ok (js "ab    " ++ [10] ++ js "c").
Proof. vm_compute. reflexivity. Qed.

(** ** No control unit is left *)

(** What may be in the output: line feeds and units that control nothing. *)
Definition plainUnit (u : Z) : bool :=
  (u =? 0x0a) || negb ((u <? 0x20) || (u =? DELETE) || between 0x80 0x9f u).

Lemma Forall_replaceMatches (P : Z -> Prop) matchAt text before skip s :
  Forall P text -> Forall P s -> Forall P (replaceMatches matchAt text before skip s).
Proof.
  intros Ht. revert before skip. induction s as [|u r IH]; intros before skip Hs; [constructor|].
  apply list.Forall_cons in Hs as [Hu Hr]. cbn [replaceMatches]. destruct skip as [|skip]; [|by apply IH].
  destruct (matchAt before (u :: r)) as [[|n]|]; [|apply list.Forall_app; split; [done|]|]; try constructor; auto.
Qed.

Definition redactionUnits : jstring := js "[redacted] Bearer Authorization: ".

(** Redaction adds no unit but those of its own words. *)
Lemma Forall_redact (P : Z -> Prop) value secrets :
  Forall P redactionUnits -> Forall P value -> Forall P (redactSensitiveText value secrets).
Proof.
  intros Hw Hv. rewrite list.Forall_forall in Hw.
  assert (Hword : forall s, forallb (fun u => bool_decide (u ∈ redactionUnits)) (js s) = true -> Forall P (js s)).
  { intros s Hs. apply list.Forall_forall. intros u Hu. apply Hw.
    by apply (proj1 (forallb_forall _ _)) with (x := u) in Hs; [apply bool_decide_eq_true_1 in Hs|apply list_elem_of_In]. }
  unfold redactSensitiveText. do 3 (apply Forall_replaceMatches; [by apply Hword|]).
  revert value Hv. induction secrets as [|secret secrets IH]; intros value Hv; [done|]. cbn [fold_left].
  apply IH. destruct secret as [[|u r]|]; [done| |done]. apply Forall_replaceMatches; [by apply Hword|done].
Qed.

Lemma Forall_strip (P : Z -> Prop) replacement tabWidth skip s :
  Forall P replacement -> P 0x0a -> P 0x20 ->
  (forall u, u ∈ s -> plainUnit u = true -> P u) -> Forall P (stripTerminalControls replacement tabWidth skip s).
Proof.
  intros Hr Hlf Hsp. revert skip. induction s as [|code r IH]; intros skip Hs; [constructor|].
  assert (IH' : forall skip, Forall P (stripTerminalControls replacement tabWidth skip r)).
  { intros k. apply IH. intros u Hu. apply Hs. by right. }
  assert (Hlow : forall next, isLowSurrogate next = true -> plainUnit next = true).
  { unfold isLowSurrogate, plainUnit, DELETE, between. intros next. lia. }
  cbn [stripTerminalControls]. destruct skip as [|skip]; [|done].
  destruct (code =? ESC) eqn:E1; [done|]. destruct (code =? C1_CSI) eqn:E2; [done|].
  destruct (code =? C1_OSC) eqn:E3; [done|]. destruct (bool_decide _); [done|].
  destruct (code =? C1_ST) eqn:E4; [done|]. destruct (code =? 0x0d) eqn:E5; [by constructor|].
  destruct (code =? 0x0a) eqn:E6; [by constructor|]. destruct (code =? 0x09) eqn:E7.
  { apply list.Forall_app. split; [|done]. apply list.Forall_forall. intros u Hu.
    apply list_elem_of_In, repeat_spec in Hu. by subst. }
  destruct ((code <? 0x20) || (code =? DELETE) || between 0x80 0x9f code) eqn:E8; [by apply list.Forall_app|].
  assert (Hcode : P code) by (apply Hs; [by left|]; unfold plainUnit; by rewrite E8, orb_true_r).
  destruct r as [|next r]; [by repeat constructor|].
  destruct (isHighSurrogate code && isLowSurrogate next) eqn:E9; [|by constructor].
  apply andb_true_iff in E9 as [_ E9]. repeat constructor; [done|apply Hs; [set_solver|by apply Hlow]|apply IH'].
Qed.

(** Text sanitised for the terminal has no control unit but line feeds,
    whatever the input: no escape sequence, control string, carriage return,
    C0, C1 or delete unit is left of it, and redaction, which runs before and
    after, brings none back. *)
Theorem no_control_survives value options text :
  forallb plainUnit (default [0xfffd] (tso_replacement options)) = true ->
  sanitizeTerminalText value options = Ok text -> Forall (fun u => plainUnit u = true) text.
Proof.
  intros Hr H. unfold sanitizeTerminalText in H. destruct (_ || _); [done|]. injection H as <-.
  apply Forall_redact; [by apply list.Forall_forall; intros u; vm_compute redactionUnits; set_solver|].
  apply Forall_strip; [|done..]. apply list.Forall_forall. intros u Hu. by eapply forallb_forall, list_elem_of_In.
Qed.

Lemma no_control_survives_witness :
  Forall (fun u => plainUnit u = true) (js "ab    " ++ [10] ++ js "c").
Proof.
  apply (no_control_survives
    ([ESC] ++ js "]0;title" ++ [7] ++ js "a" ++ [ESC] ++ js "[31mb" ++ [9; 13; 10; 0x9b] ++ js "2Jc" ++ [ESC; 0x90] ++ js "x")
    (defaultSanitizer [])); vm_compute; reflexivity.
Defined.
