(* ===== verification/AgentLoop.v ===== *)
(** * The agent loop

    [src/agent/agent-loop.ts] with its [budget-tracker.ts] and
    [repetition-detector.ts]: the orchestration of a run, from the first model
    request to the terminal event.  The loop's state is explicit; a call out of
    it (clock, model, tools, hooks, log) is an operation of [LoopDeps] on a
    world of any type [W].  The loop is aborted only while it awaits, so each
    awaited call is followed by the timers and signals that fired meanwhile.
    Events go through the publisher of [EventPublisher.v].  Of the fields that no
  modelled code reads (durations of tool calls, provider response ids) none is
  kept. *)

From S2P Require Import Prelude JsString CanonicalJson Domain Events TaskState Patch SourceSnapshot Completion JsonParse RunEvents EventPublisher ToolErrors.
From Stdlib Require Import QArith Qround.
From stdpp Require Import sorting.
#[local] Open Scope Z_scope.

(** ** The budget tracker *)

Record AgentLoopConfig : Type := {
  maxDurationMs : Z; maxSteps : Z; maxTokens : Z; maxToolOutputBytes : Z; requestTimeoutMs : Z;
  reportFormatJson : bool; profile : option TaskProfile }.

Record BudgetSnapshot : Type := {
  bg_elapsedMs : Z; bg_steps : Z; bg_toolOutputBytes : Z; bg_totalTokens : Z }.
Record BudgetExceeded : Type := { bx_limit : Z; bx_observed : Z; bx_reason : AgentBudgetReason }.
Record RemainingBudget : Type := { rb_durationMs : Z; rb_tokens : Z; rb_toolOutputBytes : Z }.

(** [steps], [toolOutputBytes] and [totalTokens]. *)
Record BudgetTracker : Type := { bt_steps : Z; bt_toolOutputBytes : Z; bt_totalTokens : Z }.
#[export] Instance BudgetTracker_eta : Eta BudgetTracker := fun r =>
  Build_BudgetTracker (bt_steps r) (bt_toolOutputBytes r) (bt_totalTokens r).

(** [Math.max(0, Math.round(now - startedAt))] *)
Definition roundedSince (startedAt now : Q) : Z := Z.max 0 (Qfloor (now - startedAt + (1 # 2))).

Definition snapshotAt (elapsedMs : Z) (budget : BudgetTracker) : BudgetSnapshot := {|
  bg_elapsedMs := elapsedMs; bg_steps := bt_steps budget; bg_toolOutputBytes := bt_toolOutputBytes budget;
  bg_totalTokens := bt_totalTokens budget |}.

Definition remaining (config : AgentLoopConfig) (s : BudgetSnapshot) : RemainingBudget := {|
  rb_durationMs := Z.max 0 (maxDurationMs config - bg_elapsedMs s);
  rb_tokens := Z.max 0 (maxTokens config - bg_totalTokens s);
  rb_toolOutputBytes := Z.max 0 (maxToolOutputBytes config - bg_toolOutputBytes s) |}.

(** The first limit reached, in the order of the list. *)
Fixpoint firstReached (limits : list (Z * Z * AgentBudgetReason)) : option BudgetExceeded :=
  match limits with
  | [] => None
  | (observed, limit, reason) :: limits =>
      if limit <=? observed then Some {| bx_limit := limit; bx_observed := observed; bx_reason := reason |}
      else firstReached limits
  end.

Section Checks.
Variables (config : AgentLoopConfig) (s : BudgetSnapshot).
Definition durationLimit : Z * Z * AgentBudgetReason := (bg_elapsedMs s, maxDurationMs config, max_duration).
Definition stepLimit : Z * Z * AgentBudgetReason := (bg_steps s, maxSteps config, max_steps).
Definition tokenLimit : Z * Z * AgentBudgetReason := (bg_totalTokens s, maxTokens config, max_tokens).
Definition outputLimit : Z * Z * AgentBudgetReason :=
  (bg_toolOutputBytes s, maxToolOutputBytes config, max_tool_output).

Definition checkBeforeStep : option BudgetExceeded :=
  firstReached [durationLimit; stepLimit; tokenLimit; outputLimit].
Definition checkAfterModelForMoreWork : option BudgetExceeded := firstReached [durationLimit; tokenLimit].
Definition checkAfterToolOutput : option BudgetExceeded := firstReached [durationLimit; tokenLimit; outputLimit].
End Checks.

(** ** The repetition detector *)

Section Fingerprint.
Variable sha256Bytes : list Z -> string.
Variable localeLe : jstring -> jstring -> bool.
(** [JSON.stringify(Number(token))], the language's text of a number. *)
Variable numberText : jstring -> jstring.

Definition locale_key_le (a b : jstring * jstring) : Prop := localeLe a.1 b.1 = true.
#[export] Instance locale_key_le_dec a b : Decision (locale_key_le a b).
Proof. unfold locale_key_le. apply _. Defined.

(** The module's own [canonicalJson]: keys in the locale's order. *)
Fixpoint localeCanonicalJson (value : jvalue) : jstring :=
  match value with
  | VNull => js "null"
  | VBool b => js (if b then "true" else "false")
  | VNumber token => numberText token
  | VString s => stringifyString s
  | VArray entries => 0x5b :: joinUnit comma (localeCanonicalJson <$> entries) ++ [0x5d]
  | VObject record =>
      0x7b :: joinUnit comma (fieldText <$> js_sort locale_key_le
                ((fun '(key, v) => (key, localeCanonicalJson v)) <$> record)) ++ [0x7d]
  end.

Definition toolCallFingerprint (toolName : string) (argumentsJson : jstring) : string :=
  sha256Text sha256Bytes (js toolName ++ 0x0a ::
    match jsonParse argumentsJson with Ok parsed => localeCanonicalJson parsed | Err _ => argumentsJson end).

Record RepetitionDetector : Type := { consecutiveCount : Z; previousFingerprint : option string }.
Record RepetitionObservation : Type := { ro_blocked : bool; ro_count : Z; ro_fingerprint : string }.

Definition observe (toolName : string) (argumentsJson : jstring) (detector : RepetitionDetector)
  : RepetitionObservation * RepetitionDetector :=
  let fingerprint := toolCallFingerprint toolName argumentsJson in
  let count := if Some fingerprint === previousFingerprint detector then consecutiveCount detector + 1 else 1 in
  ({| ro_blocked := 3 <=? count; ro_count := count; ro_fingerprint := fingerprint |},
   {| consecutiveCount := count; previousFingerprint := Some fingerprint |}).
End Fingerprint.

(** ** The model and its turns *)

Inductive ProviderFailureCategory : Type :=
| provider_authentication | provider_permission | provider_rate_limit | provider_quota | provider_network
| provider_timeout | provider_invalid_request | provider_model_not_found | provider_protocol
| provider_cancelled.
#[export] Instance ProviderFailureCategory_eq : EqDecision ProviderFailureCategory.
Proof. solve_decision. Defined.
Record ProviderFailure : Type := {
  pf_category : ProviderFailureCategory; pf_code : string; pf_message : jstring; pf_retryable : bool }.

Record CompleteModelUsage : Type := {
  cmu_cacheReadTokens : option Z; cmu_cacheWriteTokens : option Z; cmu_inputTokens : Z; cmu_outputTokens : Z;
  cmu_totalTokens : Z }.
(** The counts of a partial usage are never read. *)
Inductive ModelUsage : Type := complete_usage (usage : CompleteModelUsage) | partial_usage.

Record ModelToolCall : Type := { mtc_argumentsJson : jstring; mtc_callId : string; mtc_name : string }.

Inductive TurnOutcome : Type := turn_text | turn_tool_calls.
#[export] Instance TurnOutcome_eq : EqDecision TurnOutcome.
Proof. solve_decision. Defined.

(** What fires while the loop awaits: the user's signal, the deadline of the
    run, the timeout of the current request. *)
Inductive Fired : Type := fired_user | fired_deadline | fired_request_timeout.
Inductive RunAbortReason : Type := abort_max_duration | abort_user.
#[export] Instance RunAbortReason_eq : EqDecision RunAbortReason.
Proof. solve_decision. Defined.

Section Types.
(** [BackendContinuation] is opaque to the core. *)
Context {Continuation : Type}.

Inductive ModelEvent : Type :=
| text_delta (text : jstring)
| tool_call_delta (argumentsDelta : jstring) (callId name : string)
| turn_usage (usage : ModelUsage)
| turn_completed (continuation : Continuation) (outcome : TurnOutcome) (providerRequestId : option string)
| turn_failed (error : ProviderFailure).

(** The signals of one request, with what fires before each of them.  A stream
    is finite: the timeout of the request ends every stream. *)
Inductive ModelStream : Type :=
| stream_signal (fired : list Fired) (signal : ModelEvent) (rest : ModelStream)
| stream_end (fired : list Fired)
| stream_throws.

Inductive ModelTurnInput : Type :=
| user_prompt (text : jstring)
| resume_prompt (continuation : Continuation) (text : jstring)
| tool_result (callId : string) (continuation : Continuation) (output : jstring).

(** [instructions] and [tools] are those of the run; the canonical context is
    what the context controller adds. *)
Record ModelTurnRequest : Type := {
  mtr_input : ModelTurnInput; mtr_canonicalContext : option jstring; mtr_timeoutMs : Z }.

Record CompletedTurn : Type := {
  ct_call : option ModelToolCall; ct_continuation : Continuation; ct_providerResponseId : option string;
  ct_sawNonWhitespaceText : bool; ct_textChars : Z; ct_usage : option ModelUsage }.
Inductive TurnResult : Type :=
| turn_is_completed (turn : CompletedTurn)
| turn_is_failed (error : ProviderFailure)
| turn_is_aborted.
End Types.
Arguments ModelEvent : clear implicits.
Arguments ModelStream : clear implicits.
Arguments ModelTurnInput : clear implicits.
Arguments ModelTurnRequest : clear implicits.
Arguments CompletedTurn : clear implicits.
Arguments TurnResult : clear implicits.

Definition protocolFailure (code message : string) : ProviderFailure := {|
  pf_category := provider_protocol; pf_code := code; pf_message := js message; pf_retryable := false |}.
Definition providerExitCode (error : ProviderFailure) : Z :=
  if pf_category error === provider_authentication then 4
  else if pf_category error === provider_timeout then 6 else 5.

(** [/^[a-z][a-z0-9_]{0,63}$/u] *)
Definition isToolName (name : string) : bool :=
  match js name with
  | u :: r => (0x61 <=? u) && (u <=? 0x7a) && (length r <=? 63)%nat &&
              forallb (fun v => ((0x61 <=? v) && (v <=? 0x7a)) || isDigit v || (v =? 0x5f)) r
  | [] => false
  end.

(** ** The terminal of a run *)

Inductive AgentTerminal : Type :=
| terminal_completed
| terminal_failed (exitCode : Z)
| terminal_budget_exceeded (reason : AgentBudgetReason)
| terminal_incomplete (reason : CompletionReason)
| terminal_cancelled.
Definition terminalExitCode (t : AgentTerminal) : Z :=
  match t with
  | terminal_completed => 0 | terminal_failed exitCode => exitCode | terminal_budget_exceeded _ => 7
  | terminal_incomplete _ => 8 | terminal_cancelled => 130
  end.

(** The fields of the terminal event that the publisher does not read. *)
Inductive FailureCategory : Type := failure_internal | failure_provider (category : ProviderFailureCategory).
Inductive TerminalDetail : Type :=
| detail_duration (durationMs : Z)
| detail_failure (category : FailureCategory) (code : string) (durationMs : Z) (message : jstring)
    (retryable : bool).

Record AgentLoopOutcome : Type := {
  lo_completionReport : option jstring; lo_terminal : AgentTerminal; lo_terminalEvent : RunEventDraft;
  lo_detail : TerminalDetail }.

Inductive FatalToolKind : Type :=
| ambiguous_command_state | ambiguous_mcp_state | ambiguous_patch_state | fatal_storage | fatal_user_cancelled.
#[export] Instance FatalToolKind_eq : EqDecision FatalToolKind.
Proof. solve_decision. Defined.

(** What a tool throws; its failed writes and everything else it lets out. *)
Inductive ToolFault : Type :=
| fatal_tool_error (kind : FatalToolKind) (workspaceMayHaveChanged : bool)
| tool_persistence_error
| tool_exception.

(** What leaves the loop as an exception. *)
Inductive LoopError : Type :=
| publish_error (error : PublishError)
| tool_fault (fault : ToolFault)
| stream_exception
| context_exception
| boundary_exception
| completion_exception
| hook_exception.

(** ** What the loop is given *)

Record ToolInvocation : Type := {
  tinv_argumentsJson : jstring; tinv_callId : string; tinv_name : string; tinv_originEventId : string;
  tinv_step : Z }.
Inductive ToolAnswer : Type := tool_returned (execution : ToolExecution) | tool_threw (fault : ToolFault).

Inductive ContextAnswer (Request : Type) : Type :=
| context_prepared (request : Request)
| context_over_budget (reason : AgentBudgetReason) (estimatedTokens limitTokens : Z)
| context_threw.
Arguments context_prepared {Request} request.
Arguments context_over_budget {Request} reason estimatedTokens limitTokens.
Arguments context_threw {Request}.

Record InheritedAgentCall (Continuation : Type) : Type := {
  ihc_argumentsJson : jstring; ihc_callId : string; ihc_continuation : Continuation;
  ihc_recovered : option RecoveredToolObservation; ihc_sourceRunId : string; ihc_step : Z;
  ihc_toolName : string }.
Arguments ihc_argumentsJson {Continuation}.
Arguments ihc_callId {Continuation}.
Arguments ihc_continuation {Continuation}.
Arguments ihc_recovered {Continuation}.
Arguments ihc_sourceRunId {Continuation}.
Arguments ihc_step {Continuation}.
Arguments ihc_toolName {Continuation}.

(** The answer of the log, and the attribution of the run's completion at the
    time of the call. *)
Record WriteAnswer : Type := {
  wa_attribution : option CompletionAttribution; wa_eventId : string; wa_written : bool; wa_rendered : bool }.

(** [AgentLoopDeps] and the clock, over a world [W]. Tools and the completion
    runtime publish events themselves, so they act on the publisher as well. *)
Record LoopDeps (W Continuation : Type) : Type := {
  d_now : W -> Q * W;
  d_fired : W -> list Fired * W;
  d_write : RunEventDraft -> W -> WriteAnswer * W;
  d_persist : W -> WriterAnswer * W;
  d_runTurn : ModelTurnRequest Continuation -> W -> ModelStream Continuation * W;
  d_provider : string;
  d_usage : UsageCompleteness;
  d_prepare : option (ModelTurnInput Continuation -> Z -> W -> ContextAnswer (ModelTurnRequest Continuation) * W);
  d_execute : ToolInvocation -> bool -> EventPublisher -> W -> ToolAnswer * EventPublisher * W;
  d_createIncomplete : option (EventPublisher -> W -> option IncompleteSignal * EventPublisher * W);
  d_persistTurnBoundary : option (Continuation -> bool -> Z -> EventPublisher -> W -> bool * W);
  d_beforeVerifiedRunCompleted : option (string -> string -> string -> W -> bool * W);
  d_hostEmergency : W -> bool;
  d_agentMode : option AgentMode;
  d_taskState : option (W -> TaskStateProjection);
  d_secrets : list (option jstring);
  d_initialInput : option (ModelTurnInput Continuation);
  d_inheritedCall : option (InheritedAgentCall Continuation) }.
Arguments d_now {W Continuation}.
Arguments d_fired {W Continuation}.
Arguments d_write {W Continuation}.
Arguments d_persist {W Continuation}.
Arguments d_runTurn {W Continuation}.
Arguments d_provider {W Continuation}.
Arguments d_usage {W Continuation}.
Arguments d_prepare {W Continuation}.
Arguments d_execute {W Continuation}.
Arguments d_createIncomplete {W Continuation}.
Arguments d_persistTurnBoundary {W Continuation}.
Arguments d_beforeVerifiedRunCompleted {W Continuation}.
Arguments d_hostEmergency {W Continuation}.
Arguments d_agentMode {W Continuation}.
Arguments d_taskState {W Continuation}.
Arguments d_secrets {W Continuation}.
Arguments d_initialInput {W Continuation}.
Arguments d_inheritedCall {W Continuation}.

(** ** The state of the loop *)

Record LoopState (W Continuation : Type) : Type := {
  publisher : EventPublisher;
  world : W;
  budget : BudgetTracker;
  repetition : RepetitionDetector;
  usages : list CompleteModelUsage;
  runAbortReason : option RunAbortReason;
  aggregateUsagePublished : bool;
  pendingInput : ModelTurnInput Continuation;
  firstInputKind : StepInput;
}.
Arguments publisher {W Continuation}.
Arguments world {W Continuation}.
Arguments budget {W Continuation}.
Arguments repetition {W Continuation}.
Arguments usages {W Continuation}.
Arguments runAbortReason {W Continuation}.
Arguments aggregateUsagePublished {W Continuation}.
Arguments pendingInput {W Continuation}.
Arguments firstInputKind {W Continuation}.
#[export] Instance LoopState_eta {W Continuation} : Eta (LoopState W Continuation) := fun r =>
  Build_LoopState W Continuation (publisher r) (world r) (budget r) (repetition r) (usages r) (runAbortReason r)
    (aggregateUsagePublished r) (pendingInput r) (firstInputKind r).

(** A statement goes on with a value, returns the outcome of the run, or
    throws. *)
Inductive Exec (A : Type) : Type :=
| Next (a : A)
| Return (outcome : AgentLoopOutcome)
| Throw (error : LoopError).
Arguments Next {A} a.
Arguments Return {A} outcome.
Arguments Throw {A} error.

Section Loop.
Context {W Continuation : Type}.
Notation State := (LoopState W Continuation).

Definition Loop (A : Type) : Type := State -> Exec A * State.
#[export] Instance Loop_ret : MRet Loop := fun A a st => (Next a, st).
#[export] Instance Loop_bind : MBind Loop := fun A B f m st =>
  match m st with
  | (Next a, st) => f a st
  | (Return outcome, st) => (Return outcome, st)
  | (Throw e, st) => (Throw e, st)
  end.

Definition gets {A} (f : State -> A) : Loop A := fun st => (Next (f st), st).
Definition update (f : State -> State) : Loop () := fun st => (Next (), f st).
Definition returns {A} (outcome : AgentLoopOutcome) : Loop A := fun st => (Return outcome, st).
Definition throws {A} (e : LoopError) : Loop A := fun st => (Throw e, st).
(** A call that acts on the world alone. *)
Definition outside {A} (f : W -> A * W) : Loop A := fun st =>
  let '(a, w) := f (world st) in (Next a, st <| world := w |>).
Definition unless {A} (o : option A) (f : A -> Loop ()) : Loop () :=
  match o with Some a => f a | None => mret () end.

Context (sha256Bytes : list Z -> string) (localeLe : jstring -> jstring -> bool)
  (numberText : jstring -> jstring) (runId sessionId : string).
Context (deps : LoopDeps W Continuation) (config : AgentLoopConfig) (startedAt : Q).

Definition taskProfileOf : TaskProfile := default profile_read_only (profile config).

(** *** Time and aborts *)

Definition elapsedMs : Loop Z := t ← outside (d_now deps); mret (roundedSince startedAt t).
Definition budgetSnapshot : Loop BudgetSnapshot := e ← elapsedMs; gets (fun st => snapshotAt e (budget st)).

(** [abortRun]: the first reason stays. *)
Definition abortRun (reason : RunAbortReason) (st : State) : State :=
  match runAbortReason st with Some _ => st | None => st <| runAbortReason := Some reason |> end.
Definition aborted (st : State) : bool := match runAbortReason st with Some _ => true | None => false end.

(** What fired while the loop awaited; a request's timer is gone between
    requests. *)
Definition onFired (fired : Fired) (st : State) : State :=
  match fired with
  | fired_user => abortRun abort_user st
  | fired_deadline => abortRun abort_max_duration st
  | fired_request_timeout => st
  end.
Definition await : Loop () := fired ← outside (d_fired deps); update (fun st => fold_left (fun st e => onFired e st) fired st).

(** During a request: whether it has timed out. *)
Definition onFiredInTurn (timedOut : bool) (fired : Fired) (st : State) : bool * State :=
  match fired with
  | fired_request_timeout => (timedOut || negb (aborted st), st)
  | _ => (timedOut, onFired fired st)
  end.
Fixpoint firedInTurn (timedOut : bool) (fired : list Fired) (st : State) : bool * State :=
  match fired with
  | [] => (timedOut, st)
  | e :: fired => let '(timedOut, st) := onFiredInTurn timedOut e st in firedInTurn timedOut fired st
  end.
Definition awaitInTurn (timedOut : bool) (fired : list Fired) : Loop bool := fun st =>
  let '(timedOut, st) := firedInTurn timedOut fired st in (Next timedOut, st).

(** *** Publishing *)

(** The publication itself, and as the loop awaits it. *)
Definition publishing (draft : RunEventDraft) : Loop RunEvent := fun st =>
  let '(answer, w) := d_write deps draft (world st) in
  let '(published, p) := publish sha256Bytes localeLe runId sessionId (wa_attribution answer) (wa_eventId answer)
                           (wa_written answer) (wa_rendered answer) draft (publisher st) in
  let st := st <| world := w |> <| publisher := p |> in
  match published with Ok event => (Next event, st) | Err e => (Throw (publish_error e), st) end.
Definition publishDraft (draft : RunEventDraft) : Loop RunEvent :=
  event ← publishing draft; _ ← await; mret event.

Definition aggregateUsage (usages : list CompleteModelUsage) : UsagePayload :=
  let total f := fold_left (fun sum usage => sum + f usage) usages 0 in
  let cached := cmu_cacheReadTokens <$> usages in
  {| us_cached_input_tokens :=
       if existsb (fun value => value === None) cached then None
       else Some (fold_left (fun sum value => sum + default 0 value) cached 0);
     us_input_tokens := total cmu_inputTokens; us_model_turns := Some (Z.of_nat (length usages));
     us_output_tokens := total cmu_outputTokens; us_total_tokens := total cmu_totalTokens;
     us_usage_incomplete := None |}.

Definition publishAggregateUsage : Loop () :=
  st ← gets id;
  if aggregateUsagePublished st || (length (usages st) =? 0)%nat ||
     negb (Z.of_nat (length (usages st)) =? stepCount (publisher st))
  then mret ()
  else
    _ ← publishDraft (ev_usage (aggregateUsage (usages st)));
    update (fun st => st <| aggregateUsagePublished := true |>).

(** *** The terminals

    The outcome is returned with its event, which the owner of the run
    publishes. *)

Definition outcomeOf (terminal : AgentTerminal) (event : RunEventDraft) (detail : TerminalDetail)
  : AgentLoopOutcome := {|
  lo_completionReport := None; lo_terminal := terminal; lo_terminalEvent := event; lo_detail := detail |}.
Definition stoppedData (s : BudgetSnapshot) (p : EventPublisher) : RunStoppedPayload := {|
  rsp_output_chars := Some (outputChars p); rsp_steps := Some (bg_steps s);
  rsp_tool_calls := Some (completedToolCalls p) |}.

Definition failedWith {A} (exitCode : Z) (category : FailureCategory) (code : string) (message : jstring)
    (retryable : bool) : Loop A :=
  s ← budgetSnapshot;
  p ← gets publisher;
  returns (outcomeOf (terminal_failed exitCode) (ev_run_failed (stoppedData s p))
            (detail_failure category code (bg_elapsedMs s) message retryable)).

Definition publishFailure {A} (error : ProviderFailure) : Loop A :=
  failedWith (providerExitCode error) (failure_provider (pf_category error)) (pf_code error)
    (redactSensitiveText (pf_message error) (d_secrets deps)) (pf_retryable error).

Definition publishInternalFailure {A} (code : string) (message : jstring) (retryable : bool) : Loop A :=
  _ ← publishAggregateUsage;
  failedWith 1 failure_internal code (redactSensitiveText message (d_secrets deps)) retryable.

Definition publishCancelled {A} : Loop A :=
  _ ← publishAggregateUsage;
  s ← budgetSnapshot;
  st ← gets id;
  if d_hostEmergency deps (world st) then
    returns (outcomeOf (terminal_failed 1) (ev_run_failed (stoppedData s (publisher st)))
              (detail_failure failure_internal "tui_surface_fatal" (bg_elapsedMs s)
                (js "TUI surface failed while this exact Host owner was active") false))
  else
    returns (outcomeOf terminal_cancelled (ev_run_cancelled (stoppedData s (publisher st)))
              (detail_duration (bg_elapsedMs s))).

Definition publishBudget {A} (exceeded : BudgetExceeded) : Loop A :=
  _ ← publishAggregateUsage;
  s ← budgetSnapshot;
  p ← gets publisher;
  let observed := if bx_reason exceeded === max_duration
                  then Z.max (bx_limit exceeded) (Z.max (bx_observed exceeded) (bg_elapsedMs s))
                  else bx_observed exceeded in
  let duration := if bx_reason exceeded === max_duration then observed else bg_elapsedMs s in
  returns (outcomeOf (terminal_budget_exceeded (bx_reason exceeded))
            (ev_run_budget_exceeded {| rbe_limit := bx_limit exceeded; rbe_observed := observed;
              rbe_output_chars := outputChars p; rbe_reason := bx_reason exceeded; rbe_steps := bg_steps s;
              rbe_tool_calls := completedToolCalls p |})
            (detail_duration duration)).

Definition publishIncomplete {A} (reason : CompletionReason) (control : option IncompleteSignal) : Loop A :=
  _ ← publishAggregateUsage;
  s ← budgetSnapshot;
  p ← gets publisher;
  returns {|
    lo_completionReport := (fun c => if reportFormatJson config then is_reportJson c else is_reportText c) <$> control;
    lo_terminal := terminal_incomplete reason;
    lo_terminalEvent := ev_run_incomplete {|
      rip_evidence_sha256 := is_evidenceSha256 <$> control; rip_output_chars := outputChars p;
      rip_reason := reason; rip_report_sha256 := is_reportSha256 <$> control; rip_steps := bg_steps s;
      rip_tool_calls := completedToolCalls p |};
    lo_detail := detail_duration (bg_elapsedMs s) |}.

(** [if (runAbortReason === "user") ... if (runAbortReason === "max_duration") ...] *)
Definition returnWhenAborted : Loop () :=
  reason ← gets runAbortReason;
  match reason with
  | Some abort_user => publishCancelled
  | Some abort_max_duration =>
      observed ← elapsedMs;
      publishBudget {| bx_limit := maxDurationMs config; bx_observed := observed; bx_reason := max_duration |}
  | None => mret ()
  end.

(** *** One model turn *)

Record TurnState : Type := {
  calls : jsmap string ModelToolCall; turnUsage : option ModelUsage; sawNonWhitespaceText : bool;
  textChars : Z }.
#[export] Instance TurnState_eta : Eta TurnState := fun r =>
  Build_TurnState (calls r) (turnUsage r) (sawNonWhitespaceText r) (textChars r).
Definition emptyTurn : TurnState :=
  {| calls := []; turnUsage := None; sawNonWhitespaceText := false; textChars := 0 |}.

(** The end of a turn the provider completed. *)
Definition completeTurn (continuation : Continuation) (outcome : TurnOutcome) (providerRequestId : option string)
    (turn : TurnState) : TurnResult Continuation :=
  let mismatch message := turn_is_failed (protocolFailure "protocol_capability_mismatch" message) in
  let usageMismatch :=
    match d_usage deps, turnUsage turn with
    | usage_none, Some _ => true
    | usage_none, None => false
    | _, None => true
    | declared, Some (complete_usage _) => declared !== usage_complete
    | declared, Some partial_usage => declared !== usage_partial
    end in
  if usageMismatch then mismatch "backend usage events do not match its declared capability"%string
  else if ((outcome === turn_text) && negb (length (calls turn) =? 0)%nat) ||
          ((outcome === turn_tool_calls) && (length (calls turn) =? 0)%nat)
  then mismatch "backend terminal outcome does not match streamed tool calls"%string
  else if (1 <? length (calls turn))%nat
  then turn_is_failed (protocolFailure "multiple_tool_calls" "provider returned more than one tool call")
  else turn_is_completed {|
    ct_call := head (jm_values (calls turn)); ct_continuation := continuation;
    ct_providerResponseId := providerRequestId; ct_sawNonWhitespaceText := sawNonWhitespaceText turn;
    ct_textChars := textChars turn; ct_usage := turnUsage turn |}.

Definition visibility : TextVisibility :=
  if taskProfileOf === profile_coding then visible_internal_candidate else visible_user.

(** The result, and whether the request has timed out. *)
Fixpoint consumeModelTurn (stream : ModelStream Continuation) (timedOut : bool) (turn : TurnState)
  : Loop (TurnResult Continuation * bool) :=
  match stream with
  | stream_throws => throws stream_exception
  | stream_end fired =>
      timedOut ← awaitInTurn timedOut fired;
      stop ← gets aborted;
      mret (if stop || timedOut then turn_is_aborted
            else turn_is_failed (protocolFailure "stream_ended_without_terminal"
                                   "provider stream ended without a terminal event"), timedOut)
  | stream_signal fired signal rest =>
      timedOut ← awaitInTurn timedOut fired;
      stop ← gets aborted;
      if (stop : bool) || timedOut then mret (turn_is_aborted, timedOut)
      else match signal with
      | text_delta text =>
          if (length text =? 0)%nat then consumeModelTurn rest timedOut turn
          else
            let turn := turn <| sawNonWhitespaceText ::= orb (negb (length (trim text) =? 0)%nat) |>
                             <| textChars ::= Z.add (Z.of_nat (length text)) |> in
            _ ← publishing (ev_text_delta {| td_delta := text; td_visibility := Some visibility |});
            fired ← outside (d_fired deps);
            timedOut ← awaitInTurn timedOut fired;
            consumeModelTurn rest timedOut turn
      | tool_call_delta argumentsDelta callId name =>
          let current := jm_get callId (calls turn) in
          if match current with Some call => mtc_name call !== name | None => false end
          then mret (turn_is_failed (protocolFailure "tool_call_name_changed"
                                       "provider changed a tool name while streaming one call"), timedOut)
          else
            let argumentsJson := default [] (mtc_argumentsJson <$> current) ++ argumentsDelta in
            consumeModelTurn rest timedOut (turn <| calls ::= jm_set callId
              {| mtc_argumentsJson := argumentsJson; mtc_callId := callId; mtc_name := name |} |>)
      | turn_usage usage =>
          match turnUsage turn with
          | Some _ => mret (turn_is_failed (protocolFailure "duplicate_turn_usage"
                              "provider returned usage more than once in one model turn"), timedOut)
          | None => consumeModelTurn rest timedOut (turn <| turnUsage := Some usage |>)
          end
      | turn_failed error => mret (turn_is_failed error, timedOut)
      | turn_completed continuation outcome providerRequestId =>
          mret (completeTurn continuation outcome providerRequestId turn, timedOut)
      end
  end.

(** *** The result of a tool call *)

Definition toolCompletedData (callId toolName : string) (execution : ToolExecution) (step : Z)
  : ToolCallCompletedPayload := {|
  tcc_call_id := callId; tcc_error_category := te_category <$> tx_error execution;
  tcc_error_code := te_code <$> tx_error execution; tcc_output := tx_output execution;
  tcc_retryable := te_retryable <$> tx_error execution;
  tcc_status := if tx_ok execution then tool_success else tool_error; tcc_step := step;
  tcc_tool_name := toolName; tcc_truncated := tx_truncated execution |}.

(** The hook before a verified completion, which may throw. *)
Definition beforeVerifiedRunCompleted (callId evidence report : string) : Loop () :=
  match d_beforeVerifiedRunCompleted deps with
  | Some hook => ok ← outside (hook callId evidence report); _ ← await;
                 if ok : bool then mret () else throws hook_exception
  | None => mret ()
  end.

Definition completedOutcome (mode : CompletionMode) (evidence report : option string) (text : option jstring)
    (durationMs steps : Z) (p : EventPublisher) : AgentLoopOutcome := {|
  lo_completionReport := text; lo_terminal := terminal_completed;
  lo_terminalEvent := ev_run_completed {|
    rcp_completion_mode := Some mode; rcp_evidence_sha256 := evidence; rcp_model_turns := Some steps;
    rcp_output_chars := outputChars p; rcp_report_sha256 := report; rcp_steps := Some steps;
    rcp_tool_calls := Some (completedToolCalls p) |};
  lo_detail := detail_duration durationMs |}.

(** The steps the terminal of an accepted finish reports: those of the budget,
    and none for an inherited call. *)
Definition acceptedFinish (inherited : bool) (callId evidence report : string) (reportJson reportText : jstring)
  : Loop () :=
  _ ← publishAggregateUsage;
  _ ← beforeVerifiedRunCompleted callId evidence report;
  duration ← elapsedMs;
  steps ← (if inherited then mret 0 else turns ← budgetSnapshot; s ← budgetSnapshot; mret (bg_steps s));
  p ← gets publisher;
  returns (completedOutcome mode_verified_finish_task (Some evidence) (Some report)
             (Some (if reportFormatJson config then reportJson else reportText)) duration steps p).

(** From the durable result of a call to the input of the next step. *)
Definition settleCall (inherited : bool) (callId toolName : string) (continuation : Continuation)
    (execution : ToolExecution) : Loop () :=
  _ ← returnWhenAborted;
  let isFinish := toolName === "finish_task"%string in
  _ ← match tx_control execution with
      | Some (control_plan_revision_proposed _ _ _) =>
          if (toolName !== "update_plan"%string) || negb (tx_ok execution) then
            publishInternalFailure "unexpected_tool_control"
              (js "plan mutation control did not come from a successful update_plan call") false
          else publishIncomplete plan_approval_required None
      | Some _ =>
          if negb isFinish then
            publishInternalFailure "unexpected_tool_control"
              (js "a non-control tool returned a completion signal") false
          else mret ()
      | None => mret ()
      end;
  _ ← match tx_error execution with
      | Some error =>
          if te_category error === error_system then
            publishInternalFailure (te_code error) (te_message error) (te_retryable error)
          else mret ()
      | None => mret ()
      end;
  _ ← match tx_control execution with
      | None =>
          if isFinish then
            publishInternalFailure "missing_completion_control"
              (js "finish_task did not return a completion decision") false
          else mret ()
      | Some (control_accept evidence report reportJson reportText) =>
          acceptedFinish inherited callId evidence report reportJson reportText
      | Some (control_incomplete signal) => publishIncomplete (is_reason signal) (Some signal)
      | Some _ => mret ()
      end;
  _ ← match tx_error execution with
      | Some error =>
          if te_category error === error_cancelled then
            publishInternalFailure "unexpected_tool_cancellation"
              (js "tool execution was cancelled without a run cancellation reason") false
          else mret ()
      | None => mret ()
      end;
  _ ← update (fun st => st <| budget ::= fun b => b <| bt_toolOutputBytes ::= Z.add (byteLength (tx_output execution)) |> |>);
  s ← budgetSnapshot;
  _ ← unless (checkAfterToolOutput config s) publishBudget;
  update (fun st => st <| pendingInput := tool_result callId continuation (tx_output execution) |>).

(** [deps.tools.execute] *)
Definition executeTool (invocation : ToolInvocation) : Loop ToolAnswer := fun st =>
  let '(answer, p, w) := d_execute deps invocation (aborted st) (publisher st) (world st) in
  (_ ← await; mret answer) (st <| world := w |> <| publisher := p |>).

(** *** The call a resumed run inherits *)

Definition adopting (call : InheritedAgentCall Continuation) : Loop string := fun st =>
  let '(answer, w) := d_persist deps (world st) in
  let '(adopted, p) := adoptPendingCall answer {| pca_call_id := ihc_callId call;
      pca_source_run_id := ihc_sourceRunId call; pca_step := ihc_step call; pca_tool_name := ihc_toolName call |}
    (ihc_argumentsJson call) (publisher st) in
  let st := st <| world := w |> <| publisher := p |> in
  match adopted with Ok eventId => (_ ← await; mret eventId) st | Err e => (Throw (publish_error e), st) end.

Definition recovering (data : ToolCallCompletedPayload) : Loop () := fun st =>
  let '(answer, w) := d_persist deps (world st) in
  let '(recovered, p) := recoverAdoptedCall answer data (publisher st) in
  let st := st <| world := w |> <| publisher := p |> in
  match recovered with Ok _ => await st | Err e => (Throw (publish_error e), st) end.

Definition recoveredExecution (o : RecoveredToolObservation) : ToolExecution := {|
  tx_error :=
    if rto_status o === tool_success then None
    else Some {| te_category := default error_system (rto_errorCategory o);
                 te_code := default "recovered_tool_error"%string (rto_errorCode o);
                 te_message := js "recovered durable tool result";
                 te_retryable := default false (rto_retryable o) |};
  tx_control := None; tx_output := rto_output o; tx_truncated := rto_truncated o |}.

Definition inheritCall (call : InheritedAgentCall Continuation) : Loop () :=
  originEventId ← adopting call;
  inheritedStartedAt ← outside (d_now deps);
  execution ← match ihc_recovered call with
    | None =>
        answer ← executeTool {| tinv_argumentsJson := ihc_argumentsJson call; tinv_callId := ihc_callId call;
          tinv_name := ihc_toolName call; tinv_originEventId := originEventId; tinv_step := ihc_step call |};
        match answer with tool_returned execution => mret execution | tool_threw fault => throws (tool_fault fault) end
    | Some observation =>
        let execution := recoveredExecution observation in
        _ ← recovering (toolCompletedData (ihc_callId call) (ihc_toolName call) execution (ihc_step call));
        mret execution
    end;
  finishedAt ← outside (d_now deps);
  _ ← publishDraft (ev_tool_call_completed
        (toolCompletedData (ihc_callId call) (ihc_toolName call) execution (ihc_step call)));
  _ ← settleCall true (ihc_callId call) (ihc_toolName call) (ihc_continuation call) execution;
  update (fun st => st <| firstInputKind := input_inherited_tool_result |>).

(** *** One step of the loop *)

(** The request for the next turn, by the context controller if there is one. *)
Definition prepareRequest (nextStep : Z) : Loop (ModelTurnRequest Continuation) :=
  input ← gets pendingInput;
  match d_prepare deps with
  | None => mret {| mtr_input := input; mtr_canonicalContext := None; mtr_timeoutMs := requestTimeoutMs config |}
  | Some prepare =>
      answer ← outside (prepare input nextStep);
      _ ← await;
      match answer with
      | context_prepared request => mret request
      | context_over_budget reason estimatedTokens limitTokens =>
          publishBudget {| bx_limit := limitTokens; bx_observed := estimatedTokens; bx_reason := reason |}
      | context_threw => throws context_exception
      end
  end.

Definition beginStep : Loop Z :=
  _ ← update (fun st => st <| budget ::= fun b => b <| bt_steps ::= Z.succ |> |>);
  gets (fun st => bt_steps (budget st)).

(** A turn that did not complete ends the run. *)
Definition unfinishedTurn {A} (result : TurnResult Continuation) (timedOut : bool)
    (next : CompletedTurn Continuation -> Loop A) : Loop A :=
  match result with
  | turn_is_completed turn => next turn
  | turn_is_failed error => publishFailure error
  | turn_is_aborted =>
      _ ← returnWhenAborted;
      if timedOut then
        failedWith 6 (failure_provider provider_timeout) "request_timeout" (js "request timed out after " ++ stringifyNumber (requestTimeoutMs config) ++ js " ms") true
      else publishInternalFailure "unexpected_abort" (js "model turn was aborted unexpectedly") false
  end.

Definition persistTurnBoundary (continuation : Continuation) (pendingCall : bool) (turn : Z) : Loop () :=
  match d_persistTurnBoundary deps with
  | Some persist =>
      p ← gets publisher;
      ok ← outside (persist continuation pendingCall turn p);
      _ ← await;
      if ok : bool then mret () else throws boundary_exception
  | None => mret ()
  end.

Definition completedRun (mode : CompletionMode) : Loop () :=
  _ ← publishAggregateUsage;
  duration ← elapsedMs;
  turns ← budgetSnapshot;
  s ← budgetSnapshot;
  p ← gets publisher;
  returns (completedOutcome mode None None None duration (bg_steps s) p).

(** The plan under review or approved is that of the active goal. *)
Definition hasReviewablePlan (state : TaskStateProjection) : bool :=
  match List.find (fun goal => Some (gc_goalId (mg_content goal)) === tsp_activeGoalId state) (tsp_goals state) with
  | Some goal =>
      let ofGoal ref := prr_goalId <$> ref === Some (gc_goalId (mg_content goal)) in
      (mg_status goal === goal_active) && (ofGoal (tsp_pendingDraft state) || ofGoal (tsp_currentApprovedPlan state))
  | None => false
  end.

(** A turn without a tool call. *)
Definition finalTurn (step : Z) (turn : CompletedTurn Continuation) : Loop () :=
  _ ← persistTurnBoundary (ct_continuation turn) false step;
  _ ← (if ct_sawNonWhitespaceText turn then mret ()
       else publishFailure (protocolFailure "empty_model_output" "provider completed without final text"));
  _ ← returnWhenAborted;
  if d_agentMode deps === Some mode_plan then
    w ← gets world;
    match (fun state => state w) <$> d_taskState deps with
    | None => publishInternalFailure "task_state_unavailable"
                (js "Plan mode requires a durable task-state projection") false
    | Some state =>
        if hasReviewablePlan state then completedRun mode_plan_ready
        else publishIncomplete clarification_required None
    end
  else if taskProfileOf === profile_coding then
    match d_createIncomplete deps with
    | None => publishIncomplete completion_signal_required None
    | Some createIncomplete =>
        control ← (fun st => let '(control, p, w) := createIncomplete (publisher st) (world st) in
                     (Next control, st <| world := w |> <| publisher := p |>));
        _ ← await;
        match control with
        | Some control => publishIncomplete completion_signal_required (Some control)
        | None => throws completion_exception
        end
    end
  else completedRun mode_model_final.

Definition repeatedCallError : ToolError := {|
  te_category := error_limit; te_code := "repeated_call_blocked";
  te_message := js "identical tool call was blocked before execution"; te_retryable := false |}.

Definition cancelledExecution : ToolExecution :=
  serializeToolError {| te_category := error_cancelled; te_code := "tool_cancelled";
    te_message := js "tool execution was cancelled"; te_retryable := false |} (d_secrets deps).

(** A cancelled approval that changed nothing closes its call; every other
    exception leaves the loop. *)
Definition answered (answer : ToolAnswer) : Loop ToolExecution :=
  match answer with
  | tool_returned execution => mret execution
  | tool_threw (fatal_tool_error fatal_user_cancelled false) =>
      _ ← update (abortRun abort_user);
      mret cancelledExecution
  | tool_threw fault => throws (tool_fault fault)
  end.

Definition safeToolArguments (argumentsJson : jstring) : jstring :=
  let redacted := redactSensitiveText argumentsJson (d_secrets deps) in
  if byteLength redacted <=? MAX_TOOL_ARGUMENT_BYTES then redacted
  else quoted "{`omitted`:`arguments_too_large`}".

(** A turn with a tool call, from the checks before its request on. *)
Definition toolTurn (step : Z) (continuation : Continuation) (providerResponseId : option string) (call : ModelToolCall)
  : Loop () :=
  _ ← returnWhenAborted;
  s ← budgetSnapshot;
  _ ← unless (checkAfterModelForMoreWork config s) publishBudget;
  detector ← gets repetition;
  let '(repeated, detector) := observe sha256Bytes localeLe numberText (mtc_name call) (mtc_argumentsJson call) detector in
  _ ← update (fun st => st <| repetition := detector |>);
  requestedEvent ← publishDraft (ev_tool_call_requested {|
    tcr_arguments_json := safeToolArguments (mtc_argumentsJson call); tcr_call_id := mtc_callId call;
    tcr_provider_response_id := providerResponseId; tcr_step := step; tcr_tool_name := mtc_name call |});
  _ ← persistTurnBoundary continuation true step;
  if ro_blocked repeated then
    _ ← publishDraft (ev_tool_call_completed
          (toolCompletedData (mtc_callId call) (mtc_name call) (failedExecution repeatedCallError) step));
    publishBudget {| bx_limit := 3; bx_observed := ro_count repeated; bx_reason := repeated_tool_call |}
  else
    toolStartedAt ← outside (d_now deps);
    answer ← executeTool {| tinv_argumentsJson := mtc_argumentsJson call; tinv_callId := mtc_callId call;
      tinv_name := mtc_name call; tinv_originEventId := re_event_id requestedEvent; tinv_step := step |};
    execution ← answered answer;
    finishedAt ← outside (d_now deps);
    _ ← publishDraft (ev_tool_call_completed (toolCompletedData (mtc_callId call) (mtc_name call) execution step));
    settleCall false (mtc_callId call) (mtc_name call) continuation execution.

(** The completed turn: its usage, the end of its step, and what it asks for. *)
Definition completedTurn (step : Z) (turn : CompletedTurn Continuation) : Loop () :=
  match ct_usage turn with
  | Some (complete_usage usage) =>
      _ ← update (fun st => st <| budget ::= fun b => b <| bt_totalTokens ::= Z.add (cmu_totalTokens usage) |> |>
                               <| usages ::= fun l => l ++ [usage] |>);
      _ ← publishDraft (ev_model_usage (CompleteUsage step (d_provider deps) (cmu_cacheReadTokens usage)
            (cmu_inputTokens usage) (cmu_outputTokens usage) (cmu_totalTokens usage)));
      let completed outcome callId := ev_agent_step_completed {|
        asc_outcome := outcome; asc_step := step; asc_text_chars := ct_textChars turn;
        asc_tool_call_id := callId |} in
      match ct_call turn with
      | Some call =>
          if negb (isToolName (mtc_name call)) || (String.length (mtc_callId call) =? 0)%nat ||
             (200 <? String.length (mtc_callId call))%nat
          then publishFailure (protocolFailure "invalid_tool_call" "provider returned invalid tool call metadata")
          else
            finishedAt ← outside (d_now deps);
            _ ← publishDraft (completed outcome_tool_call (Some (mtc_callId call)));
            toolTurn step (ct_continuation turn) (ct_providerResponseId turn) call
      | None =>
          finishedAt ← outside (d_now deps);
          _ ← publishDraft (completed outcome_final None);
          finalTurn step turn
      end
  | _ => publishFailure (protocolFailure "protocol_capability_mismatch"
           "backend did not provide complete usage required by the selected capability")
  end.

(** The body of [while (true)]. *)
Definition loopStep : Loop () :=
  _ ← returnWhenAborted;
  s ← budgetSnapshot;
  _ ← unless (checkBeforeStep config s) publishBudget;
  s ← budgetSnapshot;
  request ← prepareRequest (bg_steps s + 1);
  step ← beginStep;
  left ← budgetSnapshot;
  input_kind ← (if step =? 1 then gets firstInputKind else mret input_tool_result);
  _ ← publishDraft (ev_agent_step_started {| ass_input_kind := input_kind; ass_step := step |});
  stepStartedAt ← outside (d_now deps);
  stream ← outside (d_runTurn deps request);
  '(result, timedOut) ← consumeModelTurn stream false emptyTurn;
  unfinishedTurn result timedOut (completedTurn step).

(** *** The run *)

(** [OutOfSteps] is not an answer of the loop: [loop_answers] shows that
    [maxSteps + 1] iterations are enough. *)
Inductive LoopAnswer : Type :=
| LoopReturned (outcome : AgentLoopOutcome)
| LoopThrew (error : LoopError)
| OutOfSteps.

Fixpoint iterate (fuel : nat) (st : State) : LoopAnswer * State :=
  match fuel with
  | O => (OutOfSteps, st)
  | S fuel =>
      match loopStep st with
      | (Next _, st) => iterate fuel st
      | (Return outcome, st) => (LoopReturned outcome, st)
      | (Throw e, st) => (LoopThrew e, st)
      end
  end.

(** The state before the first request, with the run's signal as it is. *)
Definition initialState (task : jstring) (signalAborted : bool) (p : EventPublisher) (w : W) : State := {|
  publisher := p; world := w; budget := {| bt_steps := 0; bt_toolOutputBytes := 0; bt_totalTokens := 0 |};
  repetition := {| consecutiveCount := 0; previousFingerprint := None |}; usages := [];
  runAbortReason := if signalAborted then Some abort_user else None; aggregateUsagePublished := false;
  pendingInput := default (user_prompt task) (d_initialInput deps); firstInputKind := input_user_task |}.

Definition runAgentLoop (task : jstring) (signalAborted : bool) (p : EventPublisher) (w : W) : LoopAnswer * State :=
  let prologue := _ ← elapsedMs; unless (d_inheritedCall deps) inheritCall in
  match prologue (initialState task signalAborted p w) with
  | (Next _, st) => iterate (S (Z.to_nat (maxSteps config))) st
  | (Return outcome, st) => (LoopReturned outcome, st)
  | (Throw e, st) => (LoopThrew e, st)
  end.
End Loop.
