(* ===== verification/AgentLoopFacts.v ===== *)
(** * Reasoning about the agent loop

    Weakest preconditions for the statements of [AgentLoop.v], the number of
    iterations the loop takes, and what a publication, an awaited call and the
    end of a run do to the loop's state. *)

From S2P Require Import Prelude JsString CanonicalJson Domain Events TaskState Patch SourceSnapshot Completion JsonParse RunEvents EventPublisher EventPublisherFacts ToolErrors AgentLoop.
From Stdlib Require Import QArith.
#[local] Open Scope Z_scope.

(** ** Weakest preconditions *)

Section Logic.
Context {W Continuation : Type}.
Notation State := (LoopState W Continuation).
Notation Loop := (@Loop W Continuation).

(** [m] goes on in [Q], returns in [R], and throws in [E]. *)
Definition wp {A} (m : Loop A) (Q : A -> State -> Prop) (R : AgentLoopOutcome -> State -> Prop)
    (E : LoopError -> Prop) (st : State) : Prop :=
  match m st with
  | (Next a, st') => Q a st'
  | (Return outcome, st') => R outcome st'
  | (Throw e, _) => E e
  end.

Section Rules.
Context (R : AgentLoopOutcome -> State -> Prop) (E : LoopError -> Prop).

Lemma wp_ret {A} (a : A) Q st : Q a st -> wp (mret a) Q R E st.
Proof. done. Qed.
Lemma wp_gets {A} (f : State -> A) Q st : Q (f st) st -> wp (gets f) Q R E st.
Proof. done. Qed.
Lemma wp_update f Q st : Q () (f st) -> wp (update f) Q R E st.
Proof. done. Qed.
Lemma wp_returns {A} outcome (Q : A -> State -> Prop) st : R outcome st -> wp (returns outcome) Q R E st.
Proof. done. Qed.
Lemma wp_throws {A} e (Q : A -> State -> Prop) st : E e -> wp (throws e) Q R E st.
Proof. done. Qed.
Lemma wp_outside {A} (f : W -> A * W) Q st :
  (forall a w, f (world st) = (a, w) -> Q a (st <| world := w |>)) -> wp (outside f) Q R E st.
Proof. unfold wp, outside. intros H. destruct (f (world st)) as [a w] eqn:Hf. by apply H. Qed.

Lemma wp_bind {A B} (m : Loop A) (f : A -> Loop B) Q st :
  wp m (fun a => wp (f a) Q R E) R E st -> wp (m ≫= f) Q R E st.
Proof. unfold wp, mbind, Loop_bind. by destruct (m st) as [[] ?]. Qed.

Lemma wp_mono {A} (m : Loop A) (P Q : A -> State -> Prop) st :
  wp m P R E st -> (forall a st', P a st' -> Q a st') -> wp m Q R E st.
Proof. unfold wp. destruct (m st) as [[] ?]; auto. Qed.

Lemma wp_weaken {A} (m : Loop A) (P Q : A -> State -> Prop) (R' : AgentLoopOutcome -> State -> Prop) (E' : LoopError -> Prop) st :
  wp m P R' E' st -> (forall a st', P a st' -> Q a st') -> (forall o st', R' o st' -> R o st') -> (forall e, E' e -> E e) ->
  wp m Q R E st.
Proof. unfold wp. destruct (m st) as [[] ?]; auto. Qed.

Lemma wp_unless {A} (o : option A) f Q st :
  (o = None -> Q () st) -> (forall a, o = Some a -> wp (f a) Q R E st) -> wp (unless o f) Q R E st.
Proof. destruct o; intros Hn Hs; [by apply Hs|by apply Hn]. Qed.
End Rules.

(** *** What fires changes the reason of the abort only *)

Lemma onFired_state e (st : State) : exists r, onFired e st = st <| runAbortReason := r |>.
Proof. destruct e; cbn; unfold abortRun; destruct st as [? ? ? ? ? [] ? ? ?]; cbn; eexists; reflexivity. Qed.

Lemma fold_fired_state fired (st : State) :
  exists r, fold_left (fun st e => onFired e st) fired st = st <| runAbortReason := r |>.
Proof.
  revert st. induction fired as [|e fired IH]; intros st; [by exists (runAbortReason st); destruct st|].
  cbn [fold_left]. destruct (onFired_state e st) as [r ->]. destruct (IH (st <| runAbortReason := r |>)) as [r' ->].
  by exists r'.
Qed.

Lemma firedInTurn_state fired timedOut (st : State) :
  exists t r, firedInTurn timedOut fired st = (t, st <| runAbortReason := r |>).
Proof.
  revert timedOut st. induction fired as [|e fired IH]; intros timedOut st; cbn [firedInTurn].
  - exists timedOut, (runAbortReason st). by destruct st.
  - destruct (onFiredInTurn timedOut e st) as [t st'] eqn:He.
    assert (exists r, st' = st <| runAbortReason := r |>) as [r ->].
    { unfold onFiredInTurn in He. destruct e; injection He as _ <-;
        [apply (onFired_state fired_user)|apply (onFired_state fired_deadline)|].
      exists (runAbortReason st). by destruct st. }
    destruct (IH t (st <| runAbortReason := r |>)) as (t' & r' & ->). by exists t', r'.
Qed.

Section Awaiting.
Context (deps : LoopDeps W Continuation) (R : AgentLoopOutcome -> State -> Prop) (E : LoopError -> Prop).

Lemma wp_await Q st :
  (forall w r, Q () (st <| world := w |> <| runAbortReason := r |>)) -> wp (await deps) Q R E st.
Proof.
  intros H. apply wp_bind, wp_outside. intros fired w _. apply wp_update.
  destruct (fold_fired_state fired (st <| world := w |>)) as [r ->]. apply H.
Qed.
Lemma wp_awaitInTurn timedOut fired Q st :
  (forall t r, Q t (st <| runAbortReason := r |>)) -> wp (awaitInTurn timedOut fired) Q R E st.
Proof. intros H. unfold wp, awaitInTurn. destruct (firedInTurn_state fired timedOut st) as (t & r & ->). apply H. Qed.

Lemma wp_elapsedMs startedAt Q st :
  (forall e w, Q e (st <| world := w |>)) -> wp (elapsedMs deps startedAt) Q R E st.
Proof. intros H. apply wp_bind, wp_outside. intros t w _. apply wp_ret, H. Qed.
Lemma wp_budgetSnapshot startedAt Q st :
  (forall e w, Q (snapshotAt e (budget st)) (st <| world := w |>)) -> wp (budgetSnapshot deps startedAt) Q R E st.
Proof. intros H. apply wp_bind, wp_elapsedMs. intros e w. apply wp_gets, H. Qed.
End Awaiting.
End Logic.

(** ** The loop takes no more than [maxSteps] turns *)

Section Steps.
Context {W Continuation : Type}.
Notation State := (LoopState W Continuation).
Notation Loop := (@Loop W Continuation).

(** [m] does not start a step. *)
Definition Keeps {A} (m : Loop A) : Prop := forall st, bt_steps (budget (m st).2) = bt_steps (budget st).

Lemma keeps_ret {A} (a : A) : Keeps (mret a).
Proof. done. Qed.
Lemma keeps_gets {A} (f : State -> A) : Keeps (gets f).
Proof. done. Qed.
Lemma keeps_returns {A} o : Keeps (returns o : Loop A).
Proof. done. Qed.
Lemma keeps_throws {A} e : Keeps (throws e : Loop A).
Proof. done. Qed.
Lemma keeps_outside {A} (f : W -> A * W) : Keeps (outside f).
Proof. intros st. unfold outside. by destruct (f (world st)). Qed.
Lemma keeps_bind {A B} (m : Loop A) (f : A -> Loop B) : Keeps m -> (forall a, Keeps (f a)) -> Keeps (m ≫= f).
Proof.
  intros Hm Hf st. unfold mbind, Loop_bind. specialize (Hm st). destruct (m st) as [[a| |] st']; [|exact Hm..].
  by rewrite Hf.
Qed.
Lemma keeps_unless {A} (o : option A) f : (forall a, Keeps (f a)) -> Keeps (unless o f).
Proof. intros Hf. destruct o; [apply Hf|done]. Qed.

Lemma keeps_wp {A} (m : Loop A) R E st (Q : A -> State -> Prop) :
  Keeps m -> (forall o st', bt_steps (budget st') = bt_steps (budget st) -> R o st') -> (forall e, E e) ->
  (forall a st', bt_steps (budget st') = bt_steps (budget st) -> Q a st') -> wp m Q R E st.
Proof. intros Hm HR HE HQ. unfold wp. specialize (Hm st). destruct (m st) as [[a| |] st']; auto. Qed.

(** A statement that starts no step ends with the count it began with. *)
Lemma wp_keeps {A} (m : Loop A) R E st (Q : A -> State -> Prop) :
  Keeps m -> wp m Q R E st -> wp m (fun a st' => Q a st' /\ bt_steps (budget st') = bt_steps (budget st)) R E st.
Proof. intros Hm. unfold wp. specialize (Hm st). destruct (m st) as [[a| |] st']; auto. Qed.
End Steps.
#[export] Hint Resolve keeps_ret keeps_gets keeps_returns keeps_throws keeps_outside : loop_steps.

(** Splits a statement into the calls it makes. *)
Ltac keeps :=
  repeat (match goal with
          | |- Keeps (mbind _ _) => apply keeps_bind; [|intros ?]
          | |- Keeps (unless _ _) => apply keeps_unless; intros ?
          | |- Keeps (match ?x with _ => _ end) => destruct x
          | |- Keeps (let '(_, _) := ?x in _) => destruct x
          | |- Keeps (update _) => intros ?; reflexivity
          end || solve [auto with loop_steps]).

(** No limit of the list is reached. *)
Lemma firstReached_none limits :
  firstReached limits = None -> foldr (fun '(observed, limit, _) rest => observed < limit /\ rest) True limits.
Proof.
  induction limits as [|[[observed limit] reason] limits IH]; cbn [firstReached foldr]; [done|].
  destruct (Z.leb_spec limit observed); [done|]. auto.
Qed.

(** The reason of a limit that is reached is one of the list. *)
Lemma firstReached_reason limits exceeded :
  firstReached limits = Some exceeded -> bx_reason exceeded ∈ limits.*2.
Proof.
  induction limits as [|[[observed limit] reason] limits IH]; cbn [firstReached fmap list_fmap snd]; [done|].
  destruct (limit <=? observed); [intros [= <-]; set_solver|]. set_solver.
Qed.

Section Bound.
Context {W Continuation : Type}.
Notation State := (LoopState W Continuation).
Context (sha256Bytes : list Z -> string) (localeLe : jstring -> jstring -> bool)
  (numberText : jstring -> jstring) (runId sessionId : string).
Context (deps : LoopDeps W Continuation) (config : AgentLoopConfig) (startedAt : Q).

Lemma keeps_await : Keeps (await deps).
Proof.
  intros st. unfold await. apply keeps_bind; [apply keeps_outside|]. intros fired st'. cbn.
  by destruct (fold_fired_state fired st') as [r ->].
Qed.
Lemma keeps_awaitInTurn t fired : Keeps (awaitInTurn (W:=W) (Continuation:=Continuation) t fired).
Proof. intros st. unfold awaitInTurn. by destruct (firedInTurn_state fired t st) as (t' & r & ->). Qed.
Lemma keeps_elapsedMs : Keeps (elapsedMs deps startedAt).
Proof. unfold elapsedMs. keeps. Qed.
Lemma keeps_budgetSnapshot : Keeps (budgetSnapshot deps startedAt).
Proof. unfold budgetSnapshot. keeps. apply keeps_elapsedMs. Qed.
Lemma keeps_publishing draft : Keeps (publishing sha256Bytes localeLe runId sessionId deps draft).
Proof.
  intros st. unfold publishing. destruct (d_write _ _ _) as [answer w]. destruct (publish _ _ _ _ _ _ _ _ _ _) as [published p].
  by destruct published.
Qed.
Hint Resolve keeps_await keeps_awaitInTurn keeps_elapsedMs keeps_budgetSnapshot keeps_publishing : loop_steps.
Lemma keeps_publishDraft draft : Keeps (publishDraft sha256Bytes localeLe runId sessionId deps draft).
Proof. unfold publishDraft. keeps. Qed.
Hint Resolve keeps_publishDraft : loop_steps.
Lemma keeps_publishAggregateUsage : Keeps (publishAggregateUsage sha256Bytes localeLe runId sessionId deps).
Proof. unfold publishAggregateUsage. keeps. Qed.
Hint Resolve keeps_publishAggregateUsage : loop_steps.
Lemma keeps_failedWith {A} exitCode category code message retryable :
  Keeps (failedWith deps startedAt exitCode category code message retryable : Loop A).
Proof. unfold failedWith. keeps. Qed.
Hint Resolve keeps_failedWith : loop_steps.
Lemma keeps_publishFailure {A} error : Keeps (publishFailure deps startedAt error : Loop A).
Proof. unfold publishFailure. keeps. Qed.
Lemma keeps_publishInternalFailure {A} code message retryable :
  Keeps (publishInternalFailure sha256Bytes localeLe runId sessionId deps startedAt code message retryable : Loop A).
Proof. unfold publishInternalFailure. keeps. Qed.
Lemma keeps_publishCancelled {A} :
  Keeps (publishCancelled sha256Bytes localeLe runId sessionId deps startedAt : Loop A).
Proof. unfold publishCancelled. keeps. Qed.
Lemma keeps_publishBudget {A} exceeded :
  Keeps (publishBudget sha256Bytes localeLe runId sessionId deps startedAt exceeded : Loop A).
Proof. unfold publishBudget. keeps. Qed.
Lemma keeps_publishIncomplete {A} reason control :
  Keeps (publishIncomplete sha256Bytes localeLe runId sessionId deps config startedAt reason control : Loop A).
Proof. unfold publishIncomplete. keeps. Qed.
Hint Resolve keeps_publishFailure keeps_publishInternalFailure keeps_publishCancelled keeps_publishBudget
  keeps_publishIncomplete : loop_steps.
Lemma keeps_returnWhenAborted :
  Keeps (returnWhenAborted sha256Bytes localeLe runId sessionId deps config startedAt).
Proof. unfold returnWhenAborted. keeps. Qed.
Hint Resolve keeps_returnWhenAborted : loop_steps.

Lemma keeps_consumeModelTurn stream timedOut turn :
  Keeps (consumeModelTurn sha256Bytes localeLe runId sessionId deps config stream timedOut turn).
Proof.
  revert timedOut turn. induction stream as [fired signal rest IH|fired|]; intros timedOut turn; cbn [consumeModelTurn]; keeps.
Qed.
Lemma keeps_executeTool invocation : Keeps (executeTool deps invocation).
Proof.
  intros st. unfold executeTool. destruct (d_execute _ _ _ _ _) as [[answer p] w].
  assert (Keeps (_ ← await deps; mret answer)) as -> by keeps. done.
Qed.
Hint Resolve keeps_consumeModelTurn keeps_executeTool : loop_steps.
Lemma keeps_settleCall inherited callId toolName continuation execution :
  Keeps (settleCall sha256Bytes localeLe runId sessionId deps config startedAt inherited callId toolName continuation execution).
Proof. unfold settleCall, acceptedFinish, beforeVerifiedRunCompleted. keeps. Qed.
Lemma keeps_adopting call : Keeps (adopting deps call).
Proof.
  intros st. unfold adopting. destruct (d_persist _ _) as [answer w]. destruct (adoptPendingCall _ _ _ _) as [adopted p].
  destruct adopted; [|done]. assert (Keeps (_ ← await deps; mret value)) as -> by keeps. done.
Qed.
Lemma keeps_recovering data : Keeps (recovering deps data).
Proof.
  intros st. unfold recovering. destruct (d_persist _ _) as [answer w]. destruct (recoverAdoptedCall _ _ _) as [recovered p].
  destruct recovered; [|done]. by rewrite keeps_await.
Qed.
Hint Resolve keeps_settleCall keeps_adopting keeps_recovering : loop_steps.
Lemma keeps_inheritCall call :
  Keeps (inheritCall sha256Bytes localeLe runId sessionId deps config startedAt call).
Proof. unfold inheritCall. keeps. Qed.
Lemma keeps_persistTurnBoundary continuation pendingCall turn : Keeps (persistTurnBoundary deps continuation pendingCall turn).
Proof. unfold persistTurnBoundary. keeps. Qed.
Lemma keeps_completedRun mode : Keeps (completedRun sha256Bytes localeLe runId sessionId deps startedAt mode).
Proof. unfold completedRun. keeps. Qed.
Hint Resolve keeps_inheritCall keeps_persistTurnBoundary keeps_completedRun : loop_steps.
Lemma keeps_finalTurn step turn : Keeps (finalTurn sha256Bytes localeLe runId sessionId deps config startedAt step turn).
Proof.
  unfold finalTurn. keeps.
  intros st. destruct (_ (publisher st) (world st)) as [[? ?] ?]. done.
Qed.
Lemma keeps_answered answer : Keeps (answered deps answer).
Proof.
  unfold answered. keeps. intros st. unfold update, abortRun. by destruct (runAbortReason st).
Qed.
Hint Resolve keeps_finalTurn keeps_answered : loop_steps.
Lemma keeps_toolTurn step continuation response call :
  Keeps (toolTurn sha256Bytes localeLe numberText runId sessionId deps config startedAt step continuation response call).
Proof. unfold toolTurn. keeps. Qed.
Hint Resolve keeps_toolTurn : loop_steps.
Lemma keeps_completedTurn step turn :
  Keeps (completedTurn sha256Bytes localeLe numberText runId sessionId deps config startedAt step turn).
Proof. unfold completedTurn. keeps. Qed.
Lemma keeps_prepareRequest nextStep :
  Keeps (prepareRequest sha256Bytes localeLe runId sessionId deps config startedAt nextStep).
Proof. unfold prepareRequest. keeps. Qed.
Hint Resolve keeps_completedTurn keeps_prepareRequest : loop_steps.

(** An iteration starts at most one more step, and only below the limit; one that
    goes on has started it. *)
Lemma loopStep_counts st :
  wp (loopStep sha256Bytes localeLe numberText runId sessionId deps config startedAt)
    (fun _ st' => bt_steps (budget st') = bt_steps (budget st) + 1 /\ bt_steps (budget st) < maxSteps config)
    (fun _ st' => bt_steps (budget st') <= Z.max (bt_steps (budget st)) (maxSteps config)) (fun _ => True) st.
Proof.
  set (R := fun (_ : AgentLoopOutcome) (st' : State) => _).
  assert (Hk : forall A (m : @Loop W Continuation A) s Q, Keeps m ->
            bt_steps (budget s) <= Z.max (bt_steps (budget st)) (maxSteps config) ->
            (forall a s', bt_steps (budget s') = bt_steps (budget s) -> Q a s') -> wp m Q R (fun _ => True) s).
  { intros A m s Q Hm Hs HQ. apply keeps_wp; [done|unfold R; intros; lia|done|done]. }
  unfold loopStep. apply wp_bind, Hk; [apply keeps_returnWhenAborted|lia|]. intros _ s1 H1.
  apply wp_bind, wp_budgetSnapshot. intros e w. apply wp_bind, wp_unless.
  2:{ intros exceeded _. unfold publishBudget. apply wp_bind, Hk; [apply keeps_publishAggregateUsage|cbn; lia|]. intros _ s2 H2.
      apply wp_bind, wp_budgetSnapshot. intros e2 w2. apply wp_bind, wp_gets. apply wp_returns. unfold R. cbn in *. lia. }
  intros Hcheck. assert (Hlt : bt_steps (budget st) < maxSteps config).
  { apply firstReached_none in Hcheck. cbn in Hcheck. rewrite H1 in Hcheck. tauto. }
  apply wp_bind, wp_budgetSnapshot. intros e3 w3. apply wp_bind, Hk; [apply keeps_prepareRequest|cbn; lia|]. intros request s2 H2.
  apply wp_bind. unfold beginStep. apply wp_bind, wp_update, wp_gets.
  apply Hk.
  - keeps; apply keeps_budgetSnapshot || apply keeps_publishDraft || apply keeps_consumeModelTurn || idtac.
    unfold unfinishedTurn. keeps;
      apply keeps_completedTurn || apply keeps_publishFailure || apply keeps_returnWhenAborted || apply keeps_failedWith
      || apply keeps_publishInternalFailure.
  - cbn in *. lia.
  - intros [] s' Hs'. cbn in *. lia.
Qed.

Lemma iterate_answers fuel st :
  (0 < fuel)%nat -> maxSteps config - bt_steps (budget st) < Z.of_nat fuel ->
  let '(answer, st') := iterate sha256Bytes localeLe numberText runId sessionId deps config startedAt fuel st in
  match answer with
  | LoopReturned _ => bt_steps (budget st') <= Z.max (bt_steps (budget st)) (maxSteps config)
  | LoopThrew _ => True
  | OutOfSteps => False
  end.
Proof.
  revert st. induction fuel as [|fuel IH]; intros st Hpos Hfuel; [lia|]. cbn [iterate].
  pose proof (loopStep_counts st) as Hstep. unfold wp in Hstep.
  destruct (loopStep _ _ _ _ _ _ _ _ st) as [[[]| |] st']; [|done..]. destruct Hstep as [Hs Hlt].
  specialize (IH st' ltac:(lia) ltac:(lia)). destruct (iterate _ _ _ _ _ _ _ _ fuel st') as [[] st'']; [lia|done..].
Qed.

End Bound.
