(* ===== verification/AgentLoopProtocol.v ===== *)
(** * The protocol between the loop, the tools and the publisher

    What the tools of a run promise to the agent loop ([ToolContract]), the
    state of the publisher in each phase of a step, and that the publisher
    accepts what the loop publishes in that phase. *)

From S2P Require Import Prelude JsString CanonicalJson Domain Events TaskState Patch SourceSnapshot Completion Verification JsonParse RunEvents EventPublisher EventPublisherFacts ToolErrors AgentLoop AgentLoopFacts.
From Stdlib Require Import QArith.
#[local] Open Scope Z_scope.

(** ** What tools publish *)

(** The event types that the tools and the completion runtime publish. *)
Definition isToolEvent (draft : RunEventDraft) : bool :=
  match draft with
  | ev_patch_plan_created _ | ev_approval_requested _ | ev_approval_decided _ | ev_patch_apply_started _
  | ev_patch_apply_completed _ | ev_permission_evaluated _ | ev_command_requested _ | ev_command_started _
  | ev_command_output _ | ev_command_completed _ | ev_verification_started _ | ev_verification_completed _
  | ev_completion_evidence _ | ev_completion_candidate _ | ev_completion_evaluated _ => true
  | _ => false
  end.

(** The part of the publisher that only the loop's own events change. *)
Definition loopView (p : EventPublisher) :=
  (started p, terminal p, command p, backendSelected p, taskProfile p, taskProfileExplicit p, phase16AgentMode p,
   activeAgentStep p, agentSteps p, outputChars p, toolCalls p, usagePublished p, recoveredCallData p).

(** Every command execution has ended, and is known to have been cleaned up. *)
Definition commandsSettled (p : EventPublisher) : Prop :=
  existsb (fun execution => negb (cx_completed execution) || (cx_cleanupVerified execution !== Some true))
    (jm_values (commandExecutions p)) = false.

Section Protocol.
Context {W Continuation : Type}.
Notation State := (LoopState W Continuation).
Context (sha256Bytes : list Z -> string) (localeLe : jstring -> jstring -> bool) (runId sessionId : string).
Notation reachable := (publisher_reachable sha256Bytes localeLe runId sessionId).
Notation validate := (validateTransition sha256Bytes localeLe runId sessionId).

Inductive tool_publication : EventPublisher -> EventPublisher -> Prop :=
| tool_publishes attribution eventId written rendered draft p :
    isToolEvent draft = true ->
    tool_publication p (publish sha256Bytes localeLe runId sessionId attribution eventId written rendered draft p).2.

Lemma tool_publication_view p p' : tool_publication p p' -> loopView p' = loopView p.
Proof.
  intros [attribution eventId written rendered draft q Hd]. unfold publish.
  destruct (stamp _ _ _ _ _ _ _ _) as [event|] eqn:Hs; [|done]. destruct written; [|done].
  apply stamp_ok in Hs as [_ ->]. unfold advance, loopView. cbn [snd].
  destruct draft; try discriminate Hd; cbn; repeat (case_match; cbn); reflexivity.
Qed.

Lemma tool_publications_view p p' : rtc tool_publication p p' -> loopView p' = loopView p.
Proof. induction 1 as [|p q r H _ IH]; [done|]. by rewrite IH, (tool_publication_view _ _ H). Qed.

Lemma tool_publications_reachable p p' : rtc tool_publication p p' -> reachable p -> reachable p'.
Proof.
  induction 1 as [|p q r H _ IH]; [done|]. intros Hp. apply IH. destruct H. eapply rtc_r; [exact Hp|constructor].
Qed.

(** ** The contract of the tools *)

(** Nothing is on record about the call. *)
Definition untouched (p : EventPublisher) (callId : string) : Prop :=
  permissions p !! callId = None /\ commandExecutionsByCall p !! callId = None /\
  completionCandidates p !! callId = None /\ recoveredCallData p !! callId = None.

(** The evaluation of a finish request that was accepted, or not, on evidence
    that is on record. *)
Definition acceptedOn (p : EventPublisher) (callId evidence report : string) : Prop :=
  exists completion, evaluatedOf p (Some callId) = Some completion /\ cvp_effect completion = effect_accept /\
    cvp_evidence_sha256 completion = Some evidence /\ cvp_report_sha256 completion = Some report.
Definition evidenceOnRecord (p : EventPublisher) (reason : CompletionReason) (signal : IncompleteSignal) : Prop :=
  exists e i, completionEvidence p !! is_evidenceSha256 signal = Some e /\ cep_evidence e = IncompletedEvidence i /\
    cep_report_sha256 e = is_reportSha256 signal /\ iev_reason i = reason.
Definition incompleteOn (p : EventPublisher) (callId : string) (signal : IncompleteSignal) : Prop :=
  evidenceOnRecord p (is_reason signal) signal /\ is_reason signal <> completion_signal_required /\
  exists completion, evaluatedOf p (Some callId) = Some completion /\ cvp_effect completion = effect_incomplete /\
    is_reason signal ∈ cvp_reasons completion /\ cvp_evidence_sha256 completion = Some (is_evidenceSha256 signal) /\
    cvp_report_sha256 completion = Some (is_reportSha256 signal).

(** The tool call ends in [execution]: it returns it, or its approval was
    cancelled before it had an effect. *)
Definition endsIn (deps : LoopDeps W Continuation) (answer : ToolAnswer) (execution : ToolExecution) : Prop :=
  answer = tool_returned execution \/
  answer = tool_threw (fatal_tool_error fatal_user_cancelled false) /\ execution = cancelledExecution deps.

(** What the registry of tools promises the loop: a tool publishes events of its
    own kinds only; when it returns, its commands have ended and the publisher
    takes its result, except that of a [finish_task] which was not evaluated; a
    completion signal is the one on record. *)
Class ToolContract (deps : LoopDeps W Continuation) (config : AgentLoopConfig) : Prop := {
  contract_publishes : forall invocation stop p w answer p' w',
    d_execute deps invocation stop p w = (answer, p', w') -> rtc tool_publication p p';
  contract_settles : forall invocation stop p w answer p' w' execution,
    d_execute deps invocation stop p w = (answer, p', w') -> endsIn deps answer execution ->
    commandsSettled p -> commandsSettled p';
  contract_result : forall invocation stop p w answer p' w' execution,
    d_execute deps invocation stop p w = (answer, p', w') -> endsIn deps answer execution ->
    reachable p -> pendingCall p (tinv_callId invocation) (tinv_name invocation) (tinv_step invocation) = true ->
    untouched p (tinv_callId invocation) ->
    validateToolCallCompleted
      (toolCompletedData (tinv_callId invocation) (tinv_name invocation) execution (tinv_step invocation)) p' = Ok ()
    \/ tinv_name invocation = "finish_task"%string /\ evaluatedOf p' (Some (tinv_callId invocation)) = None;
  contract_accepts : forall invocation stop p w p' w' execution evidence report reportJson reportText,
    d_execute deps invocation stop p w = (tool_returned execution, p', w') ->
    tx_control execution = Some (control_accept evidence report reportJson reportText) ->
    tinv_name invocation = "finish_task"%string ->
    acceptedOn p' (tinv_callId invocation) evidence report /\ taskProfileOf config = profile_coding /\
    d_agentMode deps <> Some mode_plan;
  contract_incomplete : forall invocation stop p w p' w' execution signal,
    d_execute deps invocation stop p w = (tool_returned execution, p', w') ->
    tx_control execution = Some (control_incomplete signal) ->
    tinv_name invocation = "finish_task"%string -> incompleteOn p' (tinv_callId invocation) signal;
  contract_creates : forall createIncomplete p w signal p' w',
    d_createIncomplete deps = Some createIncomplete ->
    createIncomplete p w = (Some signal, p', w') ->
    rtc tool_publication p p' /\ (commandsSettled p -> commandsSettled p') /\
    evidenceOnRecord p' completion_signal_required signal
}.

(** ** The publisher of the run *)

(** ** Calls nothing is on record about *)

(** What is on record about a call came after its request. *)
Record evidenced (p : EventPublisher) : Prop := {
  ev_permissions : forall c x, permissions p !! c = Some x -> is_Some (jm_get c (toolCalls p));
  ev_executions : forall c x, commandExecutionsByCall p !! c = Some x -> is_Some (jm_get c (toolCalls p));
  ev_candidates : forall c x, completionCandidates p !! c = Some x -> is_Some (jm_get c (toolCalls p)) }.

Lemma pendingCall_present p c name step : pendingCall p c name step = true -> is_Some (jm_get c (toolCalls p)).
Proof. unfold pendingCall. by destruct (jm_get c (toolCalls p)). Qed.

Lemma calls_stay event p c : is_Some (jm_get c (toolCalls p)) -> is_Some (jm_get c (toolCalls (posted event p))).
Proof.
  intros [call Hc]. rewrite posted_toolCalls. destruct (re_draft event); try by eexists.
  - rewrite jm_get_set. case_decide; by eexists.
  - rewrite jm_get_alter, Hc. case_decide; by eexists.
Qed.

(** The events that put something on record about a call. *)
Definition recordsOn (draft : RunEventDraft) : option string :=
  match draft with
  | ev_permission_evaluated d => Some (pev_call_id d)
  | ev_command_requested d => Some (ci_call_id (crq_id d))
  | ev_completion_candidate d => Some (ccd_call_id d)
  | _ => None
  end.

Lemma records_pending p draft c :
  reachable p -> accepts sha256Bytes localeLe runId sessionId p draft -> recordsOn draft = Some c ->
  is_Some (jm_get c (toolCalls p)).
Proof.
  intros Hp Ha Hr.
  assert (exists attribution, validateAgentTransition sha256Bytes localeLe runId sessionId attribution draft p = Ok ())
    as (attribution & Hv) by (destruct draft; try discriminate Hr; by eapply accepted_as_agent).
  destruct draft; try discriminate Hr; cbn [validateAgentTransition recordsOn] in *; injection Hr as <-.
  - unfold validatePermissionEvaluated in Hv. apply refuse_when_ok, orb_false_iff in Hv as [H%negb_false_iff _].
    by eapply pendingCall_present.
  - unfold validateCommandRequested in Hv. apply refuse_when_ok in Hv. rewrite !orb_false_iff in Hv.
    destruct Hv as [[[H%negb_false_iff _] _] _]. by eapply pendingCall_present.
  - unfold validateCompletionCandidate in Hv. apply refuse_when_ok in Hv. rewrite !orb_false_iff in Hv.
    destruct Hv as [[[_ H%negb_false_iff] _] _]. by eapply pendingCall_present.
Qed.

Lemma posted_byCall event p : commandExecutionsByCall (posted event p) =
  match re_draft event with
  | ev_command_requested d => <[ci_call_id (crq_id d) := ci_execution_id (crq_id d)]> (commandExecutionsByCall p)
  | _ => commandExecutionsByCall p
  end.
Proof. field_cases. Qed.

(** A map of calls that only the events of [recordsOn] add to. *)
Lemma record_stays {V} (m m' : gmap string V) event p :
  reachable p -> accepts sha256Bytes localeLe runId sessionId p (re_draft event) ->
  (forall c x, m !! c = Some x -> is_Some (jm_get c (toolCalls p))) ->
  (forall c, is_Some (m' !! c) -> is_Some (m !! c) \/ recordsOn (re_draft event) = Some c) ->
  forall c x, m' !! c = Some x -> is_Some (jm_get c (toolCalls (posted event p))).
Proof.
  intros Hp Ha Hm Hm' c x Hx. apply calls_stay. destruct (Hm' c) as [[y Hy]|Hr]; [by eexists| |].
  - by eapply Hm.
  - by eapply records_pending.
Qed.

Lemma reachable_evidenced p : reachable p -> evidenced p.
Proof.
  revert p. apply reachable_inv.
  - split; intros c x; cbn; rewrite lookup_empty; done.
  - intros p event Hp [H1 H2 H3] Ha. split; (eapply record_stays; [exact Hp|exact Ha|eassumption|]).
    + rewrite posted_permissions. intros c. destruct (re_draft event); try (by left). cbn [recordsOn].
      destruct (decide (c = pev_call_id data)) as [->|]; [by right|]. left. by rewrite lookup_insert_ne in * by done.
    + rewrite posted_byCall. intros c. destruct (re_draft event); try (by left). cbn [recordsOn].
      destruct (decide (c = ci_call_id (crq_id data))) as [->|]; [by right|]. left. by rewrite lookup_insert_ne in * by done.
    + rewrite posted_candidates. intros c. destruct (re_draft event); try (by left).
      * cbn [recordsOn]. destruct (decide (c = ccd_call_id data)) as [->|]; [by right|].
        left. by rewrite lookup_insert_ne in * by done.
      * left. rewrite lookup_alter_is_Some in *. done.
  - intros p p' _ [H1 H2 H3] Hq. destruct Hq; try done.
    split; cbn; intros c x Hx; rewrite jm_get_set; case_decide; eauto.
Qed.

Lemma fresh_untouched p c :
  reachable p -> recoveredCallData p = ∅ -> jm_get c (toolCalls p) = None -> untouched p c.
Proof.
  intros [H1 H2 H3]%reachable_evidenced Hrec Hc.
  assert (Hno : forall V (m : gmap string V), (forall c x, m !! c = Some x -> is_Some (jm_get c (toolCalls p))) -> m !! c = None).
  { intros V m Hm. destruct (m !! c) eqn:E; [|done]. apply Hm in E. rewrite Hc in E. by destruct E. }
  split_and!; [by apply Hno..|]. by rewrite Hrec, lookup_empty.
Qed.

Section Run.
Context (deps : LoopDeps W Continuation) (config : AgentLoopConfig).

(** The run has been started in the mode that the loop works in. *)
Definition modeFits (p : EventPublisher) : Prop :=
  if bool_decide (d_agentMode deps = Some mode_plan) then phase16AgentMode p = Some mode_plan
  else if bool_decide (taskProfileOf config = profile_coding) then phase16AgentMode p <> Some mode_plan
  else phase16AgentMode p = None.

Record Fit (p : EventPublisher) : Prop := {
  fit_reachable : reachable p;
  fit_started : started p = true;
  fit_open : terminal p = false;
  fit_command : command p = Some command_agent;
  fit_backend : exists b, backendSelected p = Some b /\ bs_provider b = d_provider deps /\ bs_usage b = usage_complete;
  fit_profile : taskProfile p = Some (taskProfileOf config);
  fit_mode : modeFits p;
  fit_recovered : recoveredCallData p = ∅ }.

Lemma fit_view p p' : reachable p' -> loopView p' = loopView p -> Fit p -> Fit p'.
Proof.
  unfold loopView. intros Hr Hv [? ? ? ? (b & Hb & ?) ? Hm ?].
  injection Hv as ????????????. split; try first [done|congruence].
  - exists b. split; [congruence|done].
  - unfold modeFits in *. repeat case_bool_decide; congruence.
Qed.

(** A publication within the run. *)
Definition inRun (draft : RunEventDraft) : bool :=
  match draft with ev_run_started _ | ev_backend_selected _ => false | _ => true end.

(** The checks that are left for an event of the loop. *)
Lemma transition_ok attribution draft p :
  Fit p -> inRun draft = true ->
  match draft with ev_usage _ => usagePublished p = false | _ => True end ->
  validateAgentTransition sha256Bytes localeLe runId sessionId attribution draft p = Ok () ->
  match draft with
  | ev_tool_call_requested d => jm_get (tcr_call_id d) (toolCalls p) = None
  | ev_tool_call_completed d => validateToolCallCompleted d p = Ok ()
  | _ => True
  end ->
  validateTerminal draft p = Ok () -> validate attribution draft p = Ok ().
Proof.
  intros [_ Hs Ho Hc (b & Hb & _) _ _ _] Hin Hu Ha Ht Hterm. unfold validateTransition. rewrite Hs, Ho, Hc, Hb.
  rewrite (bool_decide_eq_true_2 (Some command_agent = Some command_agent)), Ha by done.
  rewrite (bool_decide_eq_false_2 (Some command_agent = Some command_chat)) by done.
  destruct draft; try discriminate Hin; cbn in Hterm |- *; try rewrite Hu; cbn; try done.
  - apply jm_has_false in Ht. by rewrite Ht.
  - by rewrite Ht.
Qed.

(** The run goes on after an event of the loop. *)
Lemma fit_posted p event :
  Fit p -> accepts sha256Bytes localeLe runId sessionId p (re_draft event) -> re_seq event = seq p + 1 ->
  inRun (re_draft event) = true -> isTerminalRunEvent (re_draft event) = false -> Fit (posted event p).
Proof.
  intros [Hr Hs Ho Hc Hb Hp Hm Hrec] Ha Hseq Hin Hterm.
  pose proof (posted_started event p) as Es. pose proof (posted_terminal event p) as Et.
  pose proof (posted_command event p) as Ec. pose proof (posted_backend event p) as Eb.
  assert (taskProfile (posted event p) = taskProfile p /\ phase16AgentMode (posted event p) = phase16AgentMode p /\
          recoveredCallData (posted event p) = recoveredCallData p) as (Ep & Em & Er).
  { unfold posted, applyTransition. destruct (re_draft event); try discriminate Hin; cbn; repeat (case_match; cbn); done. }
  split.
  - eapply rtc_r; [exact Hr|]. by apply posted_step.
  - rewrite Es. by destruct (re_draft event).
  - by rewrite Et, Hterm, Ho.
  - rewrite Ec. destruct (re_draft event); done.
  - rewrite Eb. destruct (re_draft event); done.
  - by rewrite Ep.
  - unfold modeFits. by rewrite Em.
  - by rewrite Er.
Qed.

(** ** The phases of a step *)

Definition completeUsage (step : Z) (usage : CompleteModelUsage) : ModelUsageData :=
  CompleteUsage step (d_provider deps) (cmu_cacheReadTokens usage) (cmu_inputTokens usage) (cmu_outputTokens usage)
    (cmu_totalTokens usage).
Definition usedAs (usage : CompleteModelUsage) (s : AgentStepState) : Prop :=
  exists step, as_modelUsage s = Some (completeUsage step usage).

(** The steps in [l] used [us]. *)
Record closed (us : list CompleteModelUsage) (l : jsmap Z AgentStepState) : Prop := {
  closed_keys : fst <$> l = seqZ 1 (Z.of_nat (length us));
  closed_usages : Forall2 usedAs us (jm_values l) }.

Definition openStep (chars : Z) (usage : option ModelUsageData) : AgentStepState := {|
  as_completed := false; as_modelUsage := usage; as_outcome := None; as_textChars := chars; as_toolCallId := None |}.

(** Between two steps, or in one with so many characters. *)
Record Calm (us : list CompleteModelUsage) (p : EventPublisher) : Prop := {
  calm_fit : Fit p; calm_active : activeAgentStep p = None; calm_closed : closed us (agentSteps p) }.
Record InTurn (us : list CompleteModelUsage) (chars : Z) (usage : option ModelUsageData) (p : EventPublisher)
  : Prop := {
  turn_fit : Fit p;
  turn_active : activeAgentStep p = Some (Z.of_nat (length us) + 1);
  turn_steps : exists l, closed us l /\ agentSteps p = l ++ [(Z.of_nat (length us) + 1, openStep chars usage)] }.

(** The last step ended in [outcome]. *)
Definition endedIn (p : EventPublisher) (outcome : StepOutcome) (callId : option string) : Prop :=
  exists s, finalStep p = Some s /\ as_completed s = true /\ as_outcome s = Some outcome /\ as_toolCallId s = callId.

Lemma closed_fresh us l : closed us l -> Z.of_nat (length us) + 1 ∉ fst <$> l.
Proof. intros [Hk _]. rewrite Hk, elem_of_seqZ. lia. Qed.
Lemma closed_length us l : closed us l -> length l = length us.
Proof. intros [_ Hu%Forall2_length]. unfold jm_values in Hu. by rewrite length_fmap in Hu. Qed.

Lemma jm_get_last {V} (k : Z) (v : V) l : k ∉ fst <$> l -> jm_get k (l ++ [(k, v)]) = Some v.
Proof.
  induction l as [|[k' v'] l IH]; cbn [app jm_get fmap list_fmap fst]; intros Hk; [by case_decide|].
  case_decide; [set_solver|]. apply IH. set_solver.
Qed.

Lemma calm_count us p : Calm us p -> stepCount p = Z.of_nat (length us).
Proof. intros [_ _ Hc]. unfold stepCount. by rewrite (closed_length _ _ Hc). Qed.
Lemma turn_count us c u p : InTurn us c u p -> stepCount p = Z.of_nat (length us) + 1.
Proof.
  intros [_ _ (l & Hc & Hs)]. unfold stepCount. rewrite Hs, length_app, (closed_length _ _ Hc). cbn. lia.
Qed.
Lemma turn_open us c u p : InTurn us c u p ->
  jm_get (Z.of_nat (length us) + 1) (agentSteps p) = Some (openStep c u).
Proof. intros [_ _ (l & Hc & ->)]. by apply jm_get_last, closed_fresh. Qed.

(** An alteration of the open step. *)
Lemma turn_altered us c u p p' f c' u' :
  InTurn us c u p -> Fit p' -> activeAgentStep p' = activeAgentStep p ->
  agentSteps p' = jm_alter f (Z.of_nat (length us) + 1) (agentSteps p) ->
  f (openStep c u) = openStep c' u' -> InTurn us c' u' p'.
Proof.
  intros [_ Ha (l & Hc & Hs)] Hf Ha' Hs' Hopen. split; [done|by rewrite Ha'|]. exists l. split; [done|].
  by rewrite Hs', Hs, jm_alter_last, Hopen by (by apply closed_fresh).
Qed.

Lemma closed_snoc us l usage step s :
  closed us l -> as_modelUsage s = Some (completeUsage step usage) ->
  closed (us ++ [usage]) (l ++ [(Z.of_nat (length us) + 1, s)]).
Proof.
  intros [Hk Hu] Hs. split.
  - rewrite fmap_app, Hk, length_app. cbn. replace (Z.of_nat (length us + 1)) with (Z.of_nat (S (length us))) by lia.
    rewrite seqZ_S. f_equal. f_equal. lia.
  - unfold jm_values. rewrite fmap_app. apply Forall2_app; [done|]. constructor; [|constructor]. by exists step.
Qed.

(** *** What the publisher takes in each phase *)

(** Whatever the attribution of the completion is at the time. *)
Definition takes (p : EventPublisher) (draft : RunEventDraft) : Prop :=
  (forall attribution, validate attribution draft p = Ok ()) /\ runEventSchema draft = true.

(** The state after [draft] with its stamp. *)
Definition after (eventId : string) (draft : RunEventDraft) (p : EventPublisher) : EventPublisher :=
  posted {| re_event_id := eventId; re_seq := seq p + 1; re_draft := draft |} p.

Lemma fit_after eventId draft p :
  Fit p -> takes p draft -> inRun draft = true -> isTerminalRunEvent draft = false -> Fit (after eventId draft p).
Proof.
  intros Hf [Hv Hs] Hin Ht. apply fit_posted; [done| |done..]. exists None. by split.
Qed.

(** The events of a step leave calls, commands and the usage of the run alone. *)
Definition isStepEvent (draft : RunEventDraft) : bool :=
  match draft with
  | ev_text_delta _ | ev_agent_step_started _ | ev_model_usage _ | ev_agent_step_completed _ => true
  | _ => false
  end.
Lemma after_step eventId draft p :
  isStepEvent draft = true ->
  usagePublished (after eventId draft p) = usagePublished p /\ toolCalls (after eventId draft p) = toolCalls p /\
  commandExecutions (after eventId draft p) = commandExecutions p.
Proof.
  unfold after, posted, applyTransition. intros Hd. destruct draft; try discriminate Hd; cbn; repeat (case_match; cbn); done.
Qed.

(** A step can start: it is the first, or the last one ended in a call that has
    its result. *)
Definition mayStart (us : list CompleteModelUsage) (kind : StepInput) (p : EventPublisher) : Prop :=
  match us with
  | [] => kind = input_user_task
  | _ :: _ => kind = input_tool_result /\
      exists callId, endedIn p outcome_tool_call (Some callId) /\ callCompleted p callId = true
  end.

Lemma step_taken us kind p :
  Calm us p -> mayStart us kind p ->
  takes p (ev_agent_step_started {| ass_input_kind := kind; ass_step := Z.of_nat (length us) + 1 |}).
Proof.
  intros Hc Hk. pose proof (calm_count _ _ Hc) as Hn. destruct Hc as [Hf Ha _]. split; [|done]. intros attribution.
  apply transition_ok; try done. cbn [validateAgentTransition]. unfold validateAgentStepStarted. cbn [ass_step ass_input_kind].
  rewrite Ha, Hn, Z.eqb_refl. destruct us as [|u us]; cbn [mayStart] in Hk; [by rewrite Hk|].
  destruct Hk as [-> (callId & (s & Hs & H1 & H2 & H3) & Hcall)]. unfold finalStep in Hs. rewrite Hn in Hs.
  assert (Hpos : 0 < Z.of_nat (length (u :: us))) by (cbn [length]; lia).
  revert Hs Hpos. generalize (Z.of_nat (length (u :: us))). intros n Hs Hpos.
  assert ((n + 1 =? 1) = false) as -> by lia. assert ((1 <? n + 1) = true) as -> by lia.
  replace (n + 1 - 1) with n by lia. rewrite Hs. cbn. by rewrite H1, H2, H3, Hcall.
Qed.

Lemma step_posted us kind eventId p :
  let draft := ev_agent_step_started {| ass_input_kind := kind; ass_step := Z.of_nat (length us) + 1 |} in
  Calm us p -> takes p draft -> InTurn us 0 None (after eventId draft p).
Proof.
  intros draft Hc Ht. split; [by apply fit_after; [apply Hc|..]|done|]. exists (agentSteps p).
  split; [apply Hc|]. unfold after. rewrite posted_agentSteps. cbn [re_draft draft ass_step].
  rewrite jm_set_absent; [done|]. apply closed_fresh, Hc.
Qed.

Lemma text_taken us c text p :
  InTurn us c None p -> takes p (ev_text_delta {| td_delta := text; td_visibility := Some (visibility config) |}).
Proof.
  intros [Hf Ha _]. split; [|done]. intros attribution. apply transition_ok; try done.
  cbn [validateAgentTransition]. unfold validateTextDelta, visibility. rewrite Ha, (fit_profile _ Hf). cbn.
  by destruct (taskProfileOf config).
Qed.
Lemma text_posted us c d eventId p :
  InTurn us c None p -> takes p (ev_text_delta d) ->
  InTurn us (Z.of_nat (length (td_delta d)) + c) None (after eventId (ev_text_delta d) p).
Proof.
  intros Ht Htake. eapply turn_altered; [exact Ht|apply fit_after; [apply Ht|done..]|unfold after; by rewrite posted_active| |].
  - unfold after. rewrite posted_agentSteps. cbn [re_draft]. by rewrite (turn_active _ _ _ _ Ht).
  - done.
Qed.

Lemma usage_taken us c usage p :
  InTurn us c None p -> takes p (ev_model_usage (completeUsage (Z.of_nat (length us) + 1) usage)).
Proof.
  intros Ht. pose proof (turn_open _ _ _ _ Ht) as Ho. destruct Ht as [Hf Ha _]. split; [|done]. intros attribution.
  apply transition_ok; try done. cbn [validateAgentTransition]. unfold validateModelUsage, completeUsage. cbn [usageStep].
  rewrite Ha, Ho. destruct (fit_backend _ Hf) as (b & -> & -> & ->). cbn.
  rewrite !bool_decide_eq_true_2 by done. done.
Qed.
Lemma usage_posted us c usage eventId p :
  let draft := ev_model_usage (completeUsage (Z.of_nat (length us) + 1) usage) in
  InTurn us c None p -> takes p draft ->
  InTurn us c (Some (completeUsage (Z.of_nat (length us) + 1) usage)) (after eventId draft p).
Proof.
  intros draft Ht Htake. eapply turn_altered; [exact Ht|apply fit_after; [apply Ht|done..]|unfold after; by rewrite posted_active| |].
  - unfold after. by rewrite posted_agentSteps.
  - done.
Qed.

Definition stepCompleted (us : list CompleteModelUsage) (c : Z) (outcome : StepOutcome) (callId : option string)
  : RunEventDraft := ev_agent_step_completed {|
    asc_outcome := outcome; asc_step := Z.of_nat (length us) + 1; asc_text_chars := c; asc_tool_call_id := callId |}.

Lemma stepCompleted_taken us c u outcome callId p :
  InTurn us c u p -> (outcome = outcome_tool_call /\ is_Some callId \/ outcome = outcome_final /\ callId = None) ->
  takes p (stepCompleted us c outcome callId).
Proof.
  intros Ht Ho. pose proof (turn_open _ _ _ _ Ht) as Hopen. destruct Ht as [Hf Ha _]. split.
  - intros attribution. apply transition_ok; try done. cbn [validateAgentTransition stepCompleted].
    unfold validateAgentStepCompleted. cbn [asc_step asc_text_chars]. rewrite Hopen, Ha. cbn.
    rewrite bool_decide_eq_true_2 by done. cbn. by rewrite Z.eqb_refl.
  - by destruct Ho as [[-> [x ->]]|[-> ->]].
Qed.
Lemma stepCompleted_posted us c usage outcome callId eventId p :
  let draft := stepCompleted us c outcome callId in
  InTurn us c (Some (completeUsage (Z.of_nat (length us) + 1) usage)) p -> takes p draft ->
  Calm (us ++ [usage]) (after eventId draft p) /\ endedIn (after eventId draft p) outcome callId.
Proof.
  intros draft Ht Htake. pose proof (turn_count _ _ _ _ Ht) as Hn. destruct Ht as [Hf Ha (l & Hc & Hs)].
  assert (Hsteps : exists s, agentSteps (after eventId draft p) = l ++ [(Z.of_nat (length us) + 1, s)] /\
    as_completed s = true /\ as_outcome s = Some outcome /\ as_toolCallId s = callId /\
    as_modelUsage s = Some (completeUsage (Z.of_nat (length us) + 1) usage)).
  { eexists. split; [unfold after; rewrite posted_agentSteps; cbn [re_draft draft stepCompleted asc_step];
      rewrite Hs, jm_alter_last by (by apply closed_fresh); reflexivity|]. by destruct callId. }
  destruct Hsteps as (s & Hl & H1 & H2 & H3 & H4). split.
  - split; [by apply fit_after|done|]. rewrite Hl. by eapply closed_snoc.
  - exists s. split; [|done]. unfold finalStep, stepCount. rewrite Hl, length_app, (closed_length _ _ Hc). cbn.
    replace (Z.of_nat (length us + 1)) with (Z.of_nat (length us) + 1) by lia. by apply jm_get_last, closed_fresh.
Qed.

(** *** The aggregate usage *)

Lemma used_known us vs :
  Forall2 usedAs us vs ->
  exists known, as_modelUsage <$> vs = Some <$> known /\ Forall2 (fun u k => exists step, k = completeUsage step u) us known.
Proof.
  induction 1 as [|u s us vs [step Hs] _ (known & Hk & Hf)]; [by exists []|].
  exists (completeUsage step u :: known). split; [cbn; by rewrite Hs, Hk|]. constructor; [by exists step|done].
Qed.

Lemma known_fmap {A} (f : ModelUsageData -> A) (g : CompleteModelUsage -> A) us known :
  (forall step u, f (completeUsage step u) = g u) ->
  Forall2 (fun u k => exists step, k = completeUsage step u) us known -> f <$> known = g <$> us.
Proof. intros Hfg. induction 1 as [|u k us known [step ->] _ IH]; [done|]. cbn. by rewrite Hfg, IH. Qed.

Lemma fold_left_fmap {A B C} (f : C -> B -> C) (g : A -> B) l c :
  fold_left f (g <$> l) c = fold_left (fun c a => f c (g a)) l c.
Proof. revert c. induction l as [|a l IH]; intros c; [done|]. apply IH. Qed.

Lemma omap_id_Some {A} (l : list A) : omap id (Some <$> l) = l.
Proof. induction l as [|a l IH]; [done|]. cbn. by rewrite IH. Qed.

Lemma sumOf_total f us : sumOf ((fun u => Some (f u)) <$> us) = fold_left (fun sum (u : CompleteModelUsage) => sum + f u) us 0.
Proof. unfold sumOf. by rewrite fold_left_fmap. Qed.

Lemma known_cached us known :
  us <> [] -> Forall2 (fun u k => exists step, k = completeUsage step u) us known ->
  expectedCached known = us_cached_input_tokens (aggregateUsage us).
Proof.
  intros Hne Hk. assert (Hc : phase8Cached known = cmu_cacheReadTokens <$> us).
  { clear Hne. induction Hk as [|u k us known [step ->] _ IH]; [done|]. cbn. f_equal. exact IH. }
  unfold expectedCached. rewrite Hc, length_fmap. destruct us as [|u us]; [done|]. cbn [length Nat.ltb Nat.leb].
  unfold aggregateUsage. cbn [us_cached_input_tokens].
  assert (forall l : list (option Z), forallb (fun v => match v with Some _ => true | None => false end) l =
    negb (existsb (fun v => v === None) l)) as ->.
  { induction l as [|[v|] l IH]; [done|exact IH|done]. }
  by destruct (existsb _ _).
Qed.

Lemma aggregate_taken us p :
  Calm us p -> us <> [] -> usagePublished p = false -> takes p (ev_usage (aggregateUsage us)).
Proof.
  intros [Hf Ha [_ Hu]] Hne Hpub. split; [|done]. intros attribution. apply transition_ok; try done.
  cbn [validateAgentTransition]. unfold validateUsage. rewrite Ha.
  apply used_known in Hu as (known & -> & Hk). rewrite omap_id_Some.
  assert (existsb (fun usage : option ModelUsageData => match usage with None => true | Some _ => false end) (Some <$> known)
    = false) as -> by (clear; induction known; done).
  assert (existsb usageIsPartial known = false) as ->.
  { clear -Hk. induction Hk as [|u k us known [step ->] _ IH]; done. }
  rewrite (known_fmap usageInput (fun u => Some (cmu_inputTokens u)) us known), !sumOf_total by done.
  rewrite (known_fmap usageOutput (fun u => Some (cmu_outputTokens u)) us known), !sumOf_total by done.
  rewrite (known_fmap usageTotal (fun u => Some (cmu_totalTokens u)) us known), !sumOf_total by done.
  rewrite (known_cached us known) by done. rewrite <-(Forall2_length Hk).
  cbn [aggregateUsage us_input_tokens us_output_tokens us_total_tokens us_model_turns us_usage_incomplete].
  rewrite !Z.eqb_refl, !bool_decide_eq_true_2 by done. done.
Qed.
Lemma aggregate_posted us d eventId p :
  Calm us p -> takes p (ev_usage d) -> Calm us (after eventId (ev_usage d) p).
Proof.
  intros [Hf Ha Hc] Htake. split.
  - by apply fit_after.
  - unfold after. by rewrite posted_active.
  - unfold after. by rewrite posted_agentSteps.
Qed.

(** *** Tool calls *)

(** Every call, or every call but [c], has its result. *)
Definition allAnswered (p : EventPublisher) : Prop :=
  forall c call, jm_get c (toolCalls p) = Some call -> tc_completed call = true.
Definition onlyPending (p : EventPublisher) (c : string) : Prop :=
  forall c' call, jm_get c' (toolCalls p) = Some call -> c' <> c -> tc_completed call = true.

Lemma allAnswered_has p : reachable p -> allAnswered p -> hasPendingCall p = false.
Proof.
  intros Hp Ha. apply existsb_false. intros call Hin.
  apply jm_values_get in Hin as [c Hc]; [|by apply (tools_log _ _ _ _ _ Hp)]. by rewrite (Ha _ _ Hc).
Qed.

Definition requested (c name : string) (arguments : jstring) (response : option string) (step : Z) : RunEventDraft :=
  ev_tool_call_requested {| tcr_arguments_json := arguments; tcr_call_id := c;
    tcr_provider_response_id := response; tcr_step := step; tcr_tool_name := name |}.

(** The id of a call is new, or the request is refused for it. *)
Lemma requested_taken us p c name arguments response :
  Calm us p -> endedIn p outcome_tool_call (Some c) ->
  if jm_has c (toolCalls p)
  then forall attribution, validate attribution (requested c name arguments response (Z.of_nat (length us))) p =
         Err (TransitionRefused "tool call id must be unique")
  else takes p (requested c name arguments response (Z.of_nat (length us))).
Proof.
  intros Hc (s & Hs & H1 & H2 & H3). pose proof (calm_count _ _ Hc) as Hn. destruct Hc as [Hf _ _].
  unfold finalStep in Hs. rewrite Hn in Hs.
  assert (Hv : validateToolCallRequested {| tcr_arguments_json := arguments; tcr_call_id := c;
            tcr_provider_response_id := response; tcr_step := Z.of_nat (length us); tcr_tool_name := name |} p = Ok ()).
  { unfold validateToolCallRequested. cbn [tcr_step tcr_call_id]. rewrite Hs, H1, H2, H3.
    rewrite !bool_decide_eq_true_2 by done. done. }
  destruct (jm_has c (toolCalls p)) eqn:Hhas.
  - intros attribution. destruct Hf as [_ Hst Ho Hcmd (b & Hb & _) _ _ _]. unfold validateTransition, requested.
    rewrite Hst, Ho, Hcmd, Hb. cbn [validateAgentTransition]. rewrite Hv. cbn. by rewrite Hhas.
  - split; [|done]. intros attribution. apply transition_ok; try done. cbn. by apply jm_has_false.
Qed.

Lemma requested_posted us p c name arguments response eventId :
  let draft := requested c name arguments response (Z.of_nat (length us)) in
  Calm us p -> endedIn p outcome_tool_call (Some c) -> allAnswered p -> jm_get c (toolCalls p) = None -> takes p draft ->
  Calm us (after eventId draft p) /\ endedIn (after eventId draft p) outcome_tool_call (Some c) /\
  onlyPending (after eventId draft p) c /\ pendingCall (after eventId draft p) c name (Z.of_nat (length us)) = true /\
  untouched (after eventId draft p) c.
Proof.
  intros draft [Hf Ha Hc] He Hall Hfresh Htake. pose proof (fresh_untouched _ _ (fit_reachable _ Hf) (fit_recovered _ Hf) Hfresh) as Hu.
  assert (Hcalls : toolCalls (after eventId draft p) = jm_set c {| tc_argumentsJson := arguments; tc_completed := false;
            tc_name := name; tc_step := Z.of_nat (length us) |} (toolCalls p)) by (unfold after; by rewrite posted_toolCalls).
  split_and!.
  - split; [by apply fit_after|done|done].
  - exact He.
  - intros c' call. rewrite Hcalls, jm_get_set. case_decide; [by subst|]. intros Hc' _. by eapply Hall.
  - unfold pendingCall. rewrite Hcalls, jm_get_set_eq. cbn. by rewrite bool_decide_eq_true_2, Z.eqb_refl.
  - exact Hu.
Qed.

Lemma completedSchema_ok c name execution step :
  toolCallCompletedSchema (toolCompletedData c name execution step) = true.
Proof. unfold toolCallCompletedSchema, toolCompletedData, tx_ok. cbn. by destruct (tx_error execution). Qed.

Lemma result_taken p c name execution step :
  Fit p -> validateToolCallCompleted (toolCompletedData c name execution step) p = Ok () ->
  takes p (ev_tool_call_completed (toolCompletedData c name execution step)).
Proof. intros Hf Hv. split; [|apply completedSchema_ok]. intros attribution. by apply transition_ok. Qed.
Lemma result_refused p d e :
  Fit p -> validateToolCallCompleted d p = Err e -> forall attribution, validate attribution (ev_tool_call_completed d) p = Err e.
Proof.
  intros [_ Hs Ho Hc (b & Hb & _) _ _ _] Hv attribution. unfold validateTransition. rewrite Hs, Ho, Hc, Hb. cbn. by rewrite Hv.
Qed.

Lemma result_posted us p d eventId :
  let draft := ev_tool_call_completed d in
  Calm us p -> onlyPending p (tcc_call_id d) -> is_Some (jm_get (tcc_call_id d) (toolCalls p)) -> takes p draft ->
  Calm us (after eventId draft p) /\ allAnswered (after eventId draft p) /\
  callCompleted (after eventId draft p) (tcc_call_id d) = true.
Proof.
  intros draft [Hf Ha Hc] Hp [call Hcall] Htake.
  assert (Hcalls : toolCalls (after eventId draft p) =
    jm_alter (fun call => call <| tc_completed := true |>) (tcc_call_id d) (toolCalls p)) by (unfold after; by rewrite posted_toolCalls).
  split_and!.
  - split; [by apply fit_after|done|done].
  - intros c call'. rewrite Hcalls, jm_get_alter. case_decide; [|by intros Hc'; apply (Hp c)].
    intros (x & _ & ->)%fmap_Some. done.
  - unfold callCompleted. by rewrite Hcalls, jm_get_alter, decide_True, Hcall by done.
Qed.

(** The refusals the publisher has for what the loop publishes. *)
Definition needsPermission : string := "run_command result requires permission evidence".
Definition needsEvaluation : string := "finish_task result requires a completion evaluation".

Lemma pending_checks p c name step :
  pendingCall p c name step = true ->
  exists call, jm_get c (toolCalls p) = Some call /\ tc_name call = name /\
    tc_completed call || (tc_name call !== name) || negb (tc_step call =? step) = false.
Proof.
  unfold pendingCall. destruct (jm_get c (toolCalls p)) as [call|]; [|done]. rewrite !andb_true_iff.
  intros [[Hn%bool_decide_eq_true Hc%negb_true_iff] Hs]. exists call. split_and!; [done..|].
  by rewrite Hc, Hs, Hn, bool_decide_eq_true_2.
Qed.

(** A finish that was not evaluated has no result. *)
Lemma unevaluated_refused p c step execution :
  pendingCall p c "finish_task" step = true -> recoveredCallData p !! c = None -> evaluatedOf p (Some c) = None ->
  validateToolCallCompleted (toolCompletedData c "finish_task" execution step) p = Err (TransitionRefused needsEvaluation).
Proof.
  intros Hp Hr He. apply pending_checks in Hp as (call & Hc & Hn & Hchk).
  unfold validateToolCallCompleted. cbn [tcc_call_id tcc_tool_name tcc_step tcc_status toolCompletedData].
  rewrite Hc, Hr, Hchk, Hn, He. done.
Qed.

(** The result of a call that was blocked before anything happened. *)
Lemma blocked_result p c name step :
  pendingCall p c name step = true -> untouched p c ->
  validateToolCallCompleted (toolCompletedData c name (failedExecution repeatedCallError) step) p =
  if bool_decide (name = "run_command"%string) then Err (TransitionRefused needsPermission)
  else if bool_decide (name = "finish_task"%string) then Err (TransitionRefused needsEvaluation) else Ok ().
Proof.
  intros Hp (Hperm & Hex & Hcand & Hrec). pose proof Hp as Hp'.
  apply pending_checks in Hp as (call & Hc & Hn & Hchk).
  unfold validateToolCallCompleted. cbn [tcc_call_id tcc_tool_name tcc_step tcc_status toolCompletedData tx_ok failedExecution tx_error].
  rewrite Hc, Hrec, Hchk, Hn, Hperm, Hex. cbn.
  destruct (bool_decide (name = "apply_patch"%string)), (bool_decide (name = "run_command"%string)) eqn:E; try done;
    cbn; destruct (bool_decide (name = "finish_task"%string)); try done; cbn; by rewrite Hcand.
Qed.

(** *** The terminals *)

Lemma stopped_taken p s :
  Fit p -> bg_steps s = stepCount p ->
  takes p (ev_run_failed (stoppedData s p)) /\ takes p (ev_run_cancelled (stoppedData s p)).
Proof.
  intros Hf Hs. split; (split; [|done]); intros attribution; apply transition_ok; try done; cbn;
    unfold validateRunStopped, validateTerminal; cbn; by rewrite ?Hs, ?Z.eqb_refl.
Qed.

Lemma budget_taken p s limit observed reason :
  Fit p -> bg_steps s = stepCount p ->
  takes p (ev_run_budget_exceeded {| rbe_limit := limit; rbe_observed := observed; rbe_output_chars := outputChars p;
    rbe_reason := reason; rbe_steps := bg_steps s; rbe_tool_calls := completedToolCalls p |}).
Proof.
  intros Hf Hs. split; [|done]. intros attribution. apply transition_ok; try done; cbn;
    unfold validateRunBudgetExceeded, validateTerminal; cbn; by rewrite ?Hs, ?Z.eqb_refl.
Qed.

(** One statement after another. *)
Lemma then_ok {E A B} (m : result E A) (f : A -> result E B) a r : m = Ok a -> f a = r -> m ≫= f = r.
Proof. intros -> <-. done. Qed.

Definition incompleteData (reason : CompletionReason) (control : option IncompleteSignal) (steps : Z)
    (p : EventPublisher) : RunIncompletePayload := {|
  rip_evidence_sha256 := is_evidenceSha256 <$> control; rip_output_chars := outputChars p; rip_reason := reason;
  rip_report_sha256 := is_reportSha256 <$> control; rip_steps := steps; rip_tool_calls := completedToolCalls p |}.

(** The run may end incomplete for this reason. *)
Definition mayBeIncomplete (p : EventPublisher) (reason : CompletionReason) (control : option IncompleteSignal) : Prop :=
  match control with Some signal => evidenceOnRecord p reason signal | None => True end /\
  ((exists callId, endedIn p outcome_tool_call (Some callId) /\ callCompleted p callId = true /\
      reason <> completion_signal_required /\
      (if bool_decide (tc_name <$> toolOf p (Some callId) = Some "finish_task"%string)
       then exists signal, control = Some signal /\ is_reason signal = reason /\ incompleteOn p callId signal
       else reason <> task_blocked)) \/
   endedIn p outcome_final None /\ reason <> task_blocked /\
   (reason = completion_signal_required -> taskProfileOf config = profile_coding)).

Lemma evidence_check p reason control steps :
  match control with Some signal => evidenceOnRecord p reason signal | None => True end ->
  match rip_evidence_sha256 (incompleteData reason control steps p) with
  | None => Ok ()
  | Some sha =>
      refuse_when (negb match completionEvidence p !! sha with
                        | Some e => match cep_evidence e with
                                    | IncompletedEvidence i =>
                                        (Some (cep_report_sha256 e) === rip_report_sha256 (incompleteData reason control steps p)) &&
                                        (iev_reason i === reason)
                                    | CompletedEvidence _ => false
                                    end
                        | None => false
                        end) "run.incomplete lacks matching persisted evidence"
  end = Ok ().
Proof.
  destruct control as [signal|]; [|done]. intros (e & i & He & Hi & Hr & Hreason). cbn. rewrite He, Hi, Hr, Hreason.
  by rewrite !bool_decide_eq_true_2.
Qed.

Lemma incomplete_taken us p reason control :
  Calm us p -> usagePublished p = true -> allAnswered p -> mayBeIncomplete p reason control ->
  takes p (ev_run_incomplete (incompleteData reason control (stepCount p) p)).
Proof.
  intros [Hf Ha _] Hpub Hall [Hev Hend]. split; [|by destruct control]. intros attribution.
  apply transition_ok; try done; cbn [validateAgentTransition].
  2:{ unfold validateTerminal. cbn. by rewrite Z.eqb_refl, (allAnswered_has _ (fit_reachable _ Hf) Hall). }
  unfold validateRunIncomplete. apply (then_ok _ _ ()).
  { cbn. by rewrite Ha, !Z.eqb_refl, Hpub. }
  apply (then_ok _ _ ()); [exact (evidence_check p reason control (stepCount p) Hev)|].
  cbn [rip_reason incompleteData].
  destruct Hend as [(callId & (s & Hs & H1 & H2 & H3) & Hcall & Hreason & Hfin)|((s & Hs & H1 & H2 & H3) & Hnb & Hcs)];
    rewrite Hs; cbn [mbind option_bind]; rewrite H2, H3.
  - apply (then_ok _ _ ()); [by rewrite (bool_decide_eq_false_2 (reason = completion_signal_required))|].
    rewrite (bool_decide_eq_true_2 (Some outcome_tool_call = _)) by done. case_bool_decide as Ht; cbn [andb].
    + destruct Hfin as (signal & -> & <- & _ & _ & completion & He & Heff & Hin & Hsha & Hrep).
      rewrite He, Heff. apply (then_ok _ _ ()).
      { cbn. by rewrite Hsha, Hrep, !bool_decide_eq_true_2. }
      case_bool_decide as Htb; [|done]. rewrite Htb in Hin. unfold callCompleted in Hcall. unfold toolOf. cbn.
      destruct (jm_get callId (toolCalls p)) as [call|]; [|done]. by rewrite Hcall, !bool_decide_eq_true_2.
    + cbn. by rewrite bool_decide_eq_false_2.
  - apply (then_ok _ _ ()).
    { case_bool_decide as Hr; [|done]. rewrite (fit_profile _ Hf), (Hcs Hr), !bool_decide_eq_true_2 by done. done. }
    cbn. by rewrite (bool_decide_eq_false_2 (reason = task_blocked)).
Qed.

(** The run may complete in this mode. *)
Definition mayComplete (p : EventPublisher) (mode : CompletionMode) (evidence report : option string) : Prop :=
  match mode with
  | mode_verified_finish_task =>
      exists callId e r, endedIn p outcome_tool_call (Some callId) /\ callCompleted p callId = true /\
        tc_name <$> toolOf p (Some callId) = Some "finish_task"%string /\ acceptedOn p callId e r /\
        evidence = Some e /\ report = Some r /\ taskProfileOf config = profile_coding /\ d_agentMode deps <> Some mode_plan
  | mode_plan_ready => endedIn p outcome_final None /\ evidence = None /\ report = None /\ d_agentMode deps = Some mode_plan
  | mode_model_final => endedIn p outcome_final None /\ evidence = None /\ report = None /\
      d_agentMode deps <> Some mode_plan /\ taskProfileOf config <> profile_coding
  end.

Definition completedData (mode : CompletionMode) (evidence report : option string) (p : EventPublisher)
  : RunCompletedPayload := {|
  rcp_completion_mode := Some mode; rcp_evidence_sha256 := evidence; rcp_model_turns := Some (stepCount p);
  rcp_output_chars := outputChars p; rcp_report_sha256 := report; rcp_steps := Some (stepCount p);
  rcp_tool_calls := Some (completedToolCalls p) |}.

Lemma mode_ok p mode evidence report :
  Fit p -> mayComplete p mode evidence report -> modeMismatch (Some mode) p = false.
Proof.
  intros Hf Hm. pose proof (fit_mode _ Hf) as Hmode. unfold modeFits in Hmode. unfold modeMismatch.
  rewrite (fit_profile _ Hf). destruct mode; cbn [mayComplete] in Hm.
  - destruct Hm as (_ & _ & _ & Hp & Hc). rewrite !bool_decide_eq_false_2 in Hmode by done. rewrite Hmode.
    destruct (taskProfileOf config); [|done]. cbn. by destruct (taskProfileExplicit p).
  - destruct Hm as (_ & _ & _ & Hp). rewrite bool_decide_eq_true_2 in Hmode by done. by rewrite Hmode.
  - destruct Hm as (callId & e & r & _ & _ & _ & _ & _ & _ & Hc & Hp).
    rewrite bool_decide_eq_false_2, bool_decide_eq_true_2 in Hmode by done. rewrite Hc.
    destruct (phase16AgentMode p) as [[]|]; done.
Qed.

Lemma completed_taken us p mode evidence report :
  Calm us p -> usagePublished p = true -> allAnswered p -> commandsSettled p -> mayComplete p mode evidence report ->
  takes p (ev_run_completed (completedData mode evidence report p)).
Proof.
  intros [Hf Ha _] Hpub Hall Hset Hm. pose proof (mode_ok _ _ _ _ Hf Hm) as Hmode.
  assert (exists s outcome callId, finalStep p = Some s /\ as_completed s = true /\ as_outcome s = Some outcome /\
    as_toolCallId s = callId) as (s & outcome & callId & Hs & H1 & H2 & H3).
  { destruct mode; cbn [mayComplete] in Hm; firstorder eauto 10. }
  split.
  - intros attribution. apply transition_ok; try done; cbn [validateAgentTransition].
    2:{ unfold validateTerminal. cbn. rewrite !Z.eqb_refl, (allAnswered_has _ (fit_reachable _ Hf) Hall). cbn. by rewrite Hset. }
    unfold validateRunCompleted. rewrite Hs. cbn [completedData rcp_steps rcp_model_turns rcp_completion_mode].
    rewrite Ha, H1, Hpub, Hmode, (bool_decide_eq_true_2 (@None Z = None)),
      (bool_decide_eq_true_2 (Some (stepCount p) = Some (stepCount p))) by done. cbn.
    destruct mode; cbn [mayComplete] in Hm.
    + destruct Hm as ((s' & Hs' & _ & H2' & _) & _). rewrite Hs in Hs'. injection Hs' as <-. by rewrite H2'.
    + destruct Hm as ((s' & Hs' & _ & H2' & _) & _). rewrite Hs in Hs'. injection Hs' as <-. by rewrite H2'.
    + destruct Hm as (c & e & r & (s' & Hs' & _ & H2' & H3') & Hc & Ht & (completion & He & Heff & Hse & Hsr) & -> & -> & _).
      rewrite Hs in Hs'. injection Hs' as <-. rewrite H3'. unfold callCompleted in Hc.
      destruct (toolOf p (Some c)) as [tool|] eqn:Htool; [|done]. cbn in Htool. rewrite Htool in Hc.
      injection Ht as Ht. rewrite He, H2', Ht, Hc, Heff, Hse, Hsr. cbn. by rewrite !bool_decide_eq_true_2.
  - destruct mode; cbn [mayComplete] in Hm.
    + by destruct Hm as (_ & -> & -> & _).
    + by destruct Hm as (_ & -> & -> & _).
    + by destruct Hm as (c & e & r & _ & _ & _ & _ & -> & -> & _).
Qed.
End Run.
End Protocol.
