(* ===== verification/AgentLoopAccepted.v ===== *)
(** * The loop keeps to the publisher's protocol

    Each statement of [AgentLoop.v], from the phase of the step it runs in: what
    it publishes is accepted, and when it ends the run the publisher will take
    the terminal event. *)

From S2P Require Import Prelude JsString CanonicalJson Domain Events TaskState Patch SourceSnapshot Completion Verification JsonParse RunEvents EventPublisher EventPublisherFacts ToolErrors AgentLoop AgentLoopFacts AgentLoopProtocol.
From Stdlib Require Import QArith.
#[local] Open Scope Z_scope.

Definition duplicateCallId : string := "tool call id must be unique".

(** What may leave the loop: no refusal of a publication but for the id of a
    call, or the result of a call that never reached its tool. *)
Definition allowed (e : LoopError) : Prop :=
  match e with
  | publish_error (TransitionRefused message) => message ∈ [duplicateCallId; needsPermission; needsEvaluation]
  | publish_error EventPersistenceError | publish_error RenderFailed => True
  | publish_error _ => False
  | _ => True
  end.

Section Accepted.
Context {W Continuation : Type}.
Notation State := (LoopState W Continuation).
Context (sha256Bytes : list Z -> string) (localeLe : jstring -> jstring -> bool)
  (runId sessionId : string).
Context (deps : LoopDeps W Continuation) (config : AgentLoopConfig) (startedAt : Q).
Notation Calm := (Calm sha256Bytes localeLe runId sessionId deps config).
Notation InTurn := (InTurn sha256Bytes localeLe runId sessionId deps config).
Notation Fit := (Fit sha256Bytes localeLe runId sessionId deps config).
Notation takes := (takes sha256Bytes localeLe runId sessionId).
Notation validate := (validateTransition sha256Bytes localeLe runId sessionId).

(** The outcome has a terminal event, which the publisher takes. *)
Definition ends (outcome : AgentLoopOutcome) (st : State) : Prop :=
  isTerminalRunEvent (lo_terminalEvent outcome) = true /\ takes (publisher st) (lo_terminalEvent outcome).
Notation safe m Q st := (wp m Q ends allowed st).

(** ** Publications *)

Lemma safe_publishing draft (st : State) Q :
  takes (publisher st) draft ->
  (forall event id w, re_event_id event = id ->
    Q event (st <| world := w |> <| publisher := after id draft (publisher st) |>)) ->
  safe (publishing sha256Bytes localeLe runId sessionId deps draft) Q st.
Proof.
  intros [Hv Hs] HQ. unfold wp, publishing. destruct (d_write deps draft (world st)) as [answer w].
  unfold publish, stamp. rewrite (Hv (wa_attribution answer)), Hs. cbn [mbind result_bind negb throw_when].
  destruct (wa_written answer); [|done]. unfold advance. destruct (wa_rendered answer); [|done].
  by apply (HQ {| re_event_id := wa_eventId answer; re_seq := seq (publisher st) + 1; re_draft := draft |}).
Qed.

Lemma refused_publishing draft (st : State) Q e :
  (forall attribution, validate attribution draft (publisher st) = Err e) -> allowed (publish_error e) ->
  safe (publishing sha256Bytes localeLe runId sessionId deps draft) Q st.
Proof.
  intros Hv He. unfold wp, publishing. destruct (d_write deps draft (world st)) as [answer w].
  unfold publish, stamp. by rewrite (Hv (wa_attribution answer)).
Qed.

Lemma safe_publish draft (st : State) Q :
  takes (publisher st) draft ->
  (forall event id w r, re_event_id event = id ->
    Q event (st <| world := w |> <| publisher := after id draft (publisher st) |> <| runAbortReason := r |>)) ->
  safe (publishDraft sha256Bytes localeLe runId sessionId deps draft) Q st.
Proof.
  intros Ht HQ. unfold publishDraft. apply wp_bind, safe_publishing; [done|]. intros event id w Hid.
  apply wp_bind, wp_await. intros w' r. apply wp_ret. by apply HQ.
Qed.
Lemma refused_publish draft (st : State) Q e :
  (forall attribution, validate attribution draft (publisher st) = Err e) -> allowed (publish_error e) ->
  safe (publishDraft sha256Bytes localeLe runId sessionId deps draft) Q st.
Proof. intros Hv He. unfold publishDraft. apply wp_bind. by eapply refused_publishing. Qed.

(** ** The end of a run *)

(** The counts of the loop are those of the publisher. *)
Record counted (steps : Z) (p : EventPublisher) : Prop := {
  cn_fit : Fit p; cn_steps : steps = stepCount p }.
(** And the usage of the run can be published, or will not be. *)
Record stoppable (us : list CompleteModelUsage) (flag : bool) (steps : Z) (p : EventPublisher) : Prop := {
  sp_counted : counted steps p; sp_flag : flag = false; sp_published : usagePublished p = false;
  sp_usages : Calm us p \/ Z.of_nat (length us) <> stepCount p }.

(** The step has ended and its commands have. *)
Record atRest (us : list CompleteModelUsage) (flag : bool) (steps : Z) (p : EventPublisher) : Prop := {
  ar_calm : Calm us p; ar_steps : steps = Z.of_nat (length us); ar_flag : flag = false;
  ar_published : usagePublished p = false; ar_settled : commandsSettled p }.

Notation Counted st := (counted (bt_steps (budget st)) (publisher st)).
Notation Stoppable st :=
  (stoppable (usages st) (aggregateUsagePublished st) (bt_steps (budget st)) (publisher st)).
Notation AtRest st := (atRest (usages st) (aggregateUsagePublished st) (bt_steps (budget st)) (publisher st)).

Lemma rest_stoppable us flag steps p : atRest us flag steps p -> stoppable us flag steps p.
Proof.
  intros [Hc Hs Hf Hp _]. split; [|done|done|by left]. split; [apply Hc|]. by rewrite Hs, (calm_count _ _ _ _ _ _ _ _ Hc).
Qed.

(** The aggregate usage is published once, of a run that has steps. *)
Lemma safe_aggregate_calm (st : State) Q :
  AtRest st -> usages st <> [] ->
  (forall id w r, Q () (st <| world := w |> <| publisher := after id (ev_usage (aggregateUsage (usages st))) (publisher st) |>
                           <| runAbortReason := r |> <| aggregateUsagePublished := true |>)) ->
  safe (publishAggregateUsage sha256Bytes localeLe runId sessionId deps) Q st.
Proof.
  intros [Hc Hs Hf Hp _] Hne HQ. unfold publishAggregateUsage. apply wp_bind, wp_gets. cbn [id]. rewrite Hf.
  destruct (usages st) as [|u us] eqn:Eu; [done|]. rewrite (calm_count _ _ _ _ _ _ _ _ Hc), Z.eqb_refl. cbn [orb negb length Nat.eqb].
  apply wp_bind, safe_publish; [by eapply aggregate_taken|]. intros event id w r _. apply wp_update, HQ.
Qed.

Lemma safe_aggregate (st : State) Q :
  Stoppable st -> (forall st' : State, Counted st' -> Q () st') ->
  safe (publishAggregateUsage sha256Bytes localeLe runId sessionId deps) Q st.
Proof.
  intros [[Hfit Hs] Hf Hp Hu] HQ. unfold publishAggregateUsage. apply wp_bind, wp_gets. cbn [id]. rewrite Hf. cbn [orb].
  destruct (_ || _) eqn:Hskip; [by apply wp_ret, HQ|]. apply orb_false_iff in Hskip as [Hne%Nat.eqb_neq Hn%negb_false_iff].
  destruct Hu as [Hc|?]; [|lia]. assert (usages st <> []) by (intros E; by rewrite E in Hne).
  pose proof (aggregate_taken _ _ _ _ _ _ _ _ Hc ltac:(done) Hp) as Ht.
  apply wp_bind, safe_publish; [done|]. intros event id w r _. apply wp_update, HQ. split; cbn.
  - apply (aggregate_posted _ _ _ _ _ _ _ _ _ _ Hc Ht).
  - exact Hs.
Qed.

Section Stops.
Context {A : Type} (Q : A -> State -> Prop).

Lemma safe_failedWith exitCode category code message retryable (st : State) :
  Counted st -> safe (failedWith deps startedAt exitCode category code message retryable) Q st.
Proof.
  intros [Hf Hs]. unfold failedWith. apply wp_bind, wp_budgetSnapshot. intros e w. apply wp_bind, wp_gets, wp_returns.
  split; [done|]. eapply stopped_taken; [exact Hf|exact Hs].
Qed.
Lemma safe_publishFailure error (st : State) : Counted st -> safe (publishFailure deps startedAt error) Q st.
Proof. apply safe_failedWith. Qed.
Lemma safe_publishInternalFailure code message retryable (st : State) :
  Stoppable st ->
  safe (publishInternalFailure sha256Bytes localeLe runId sessionId deps startedAt code message retryable) Q st.
Proof.
  intros Hst. unfold publishInternalFailure. apply wp_bind, safe_aggregate; [done|]. intros st' Hst'. by apply safe_failedWith.
Qed.
Lemma safe_publishCancelled (st : State) :
  Stoppable st -> safe (publishCancelled sha256Bytes localeLe runId sessionId deps startedAt) Q st.
Proof.
  intros Hst. unfold publishCancelled. apply wp_bind, safe_aggregate; [done|]. intros st' [Hf Hs].
  apply wp_bind, wp_budgetSnapshot. intros e w. apply wp_bind, wp_gets.
  destruct (d_hostEmergency _ _); apply wp_returns; (split; [done|]; eapply stopped_taken; [exact Hf|exact Hs]).
Qed.
Lemma safe_publishBudget exceeded (st : State) :
  Stoppable st -> safe (publishBudget sha256Bytes localeLe runId sessionId deps startedAt exceeded) Q st.
Proof.
  intros Hst. unfold publishBudget. apply wp_bind, safe_aggregate; [done|]. intros st' [Hf Hs].
  apply wp_bind, wp_budgetSnapshot. intros e w. apply wp_bind, wp_gets, wp_returns.
  split; [done|]. eapply budget_taken; [exact Hf|exact Hs].
Qed.

(** The events that end a run leave everything but the usage as it was. *)
Lemma safe_publishIncomplete reason control (st : State) :
  AtRest st -> usages st <> [] -> allAnswered (publisher st) ->
  mayBeIncomplete config (publisher st) reason control ->
  safe (publishIncomplete sha256Bytes localeLe runId sessionId deps config startedAt reason control) Q st.
Proof.
  intros Hr Hne Hall Hm. pose proof Hr as [Hc Hs _ Hp _]. pose proof (aggregate_taken _ _ _ _ _ _ _ _ Hc Hne Hp) as Ht.
  unfold publishIncomplete. apply wp_bind, safe_aggregate_calm; [done..|]. intros id w r.
  apply wp_bind, wp_budgetSnapshot. intros e w'. apply wp_bind, wp_gets, wp_returns. split; [done|]. cbn.
  pose proof (aggregate_posted _ _ _ _ _ _ _ _ id _ Hc Ht) as Hc'.
  rewrite Hs, <-(calm_count _ _ _ _ _ _ _ _ Hc').
  exact (incomplete_taken _ _ _ _ _ _ _ _ reason control Hc' eq_refl Hall Hm).
Qed.

(** A run that completes, up to what happens before its terminal. *)
Lemma completed_ends mode evidence report text duration us p p' id st :
  Calm us p -> takes p (ev_usage (aggregateUsage us)) -> allAnswered p -> commandsSettled p ->
  mayComplete deps config p mode evidence report -> p' = after id (ev_usage (aggregateUsage us)) p ->
  publisher st = p' ->
  ends (completedOutcome mode evidence report text duration (Z.of_nat (length us)) p') st.
Proof.
  intros Hc Ht Hall Hset Hm -> Hst. split; [done|]. rewrite Hst.
  pose proof (aggregate_posted _ _ _ _ _ _ _ _ id _ Hc Ht) as Hc'. cbn [completedOutcome lo_terminalEvent].
  rewrite <-(calm_count _ _ _ _ _ _ _ _ Hc').
  exact (completed_taken _ _ _ _ _ _ _ _ mode evidence report Hc' eq_refl Hall Hset Hm).
Qed.
End Stops.

Lemma safe_returnWhenAborted (st : State) Q :
  Stoppable st -> Q () st ->
  safe (returnWhenAborted sha256Bytes localeLe runId sessionId deps config startedAt) Q st.
Proof.
  intros Hst HQ. unfold returnWhenAborted. apply wp_bind, wp_gets. destruct (runAbortReason st) as [[]|].
  - apply wp_bind, wp_elapsedMs. intros e w. by apply safe_publishBudget.
  - by apply safe_publishCancelled.
  - by apply wp_ret.
Qed.

(** ** The model's turn *)

(** A request is being answered, [chars] characters of text so far. *)
Record turning (us : list CompleteModelUsage) (flag : bool) (steps chars : Z) (p : EventPublisher) : Prop := {
  tu_turn : InTurn us chars None p; tu_steps : steps = Z.of_nat (length us) + 1; tu_flag : flag = false;
  tu_published : usagePublished p = false; tu_settled : commandsSettled p; tu_answered : allAnswered p }.
Notation Turning st chars :=
  (turning (usages st) (aggregateUsagePublished st) (bt_steps (budget st)) chars (publisher st)).

Lemma answered_same p p' : toolCalls p' = toolCalls p -> allAnswered p -> allAnswered p'.
Proof. unfold allAnswered. by intros ->. Qed.
Lemma settled_same p p' : commandExecutions p' = commandExecutions p -> commandsSettled p -> commandsSettled p'.
Proof. unfold commandsSettled. by intros ->. Qed.

Lemma turning_after us flag steps chars chars' eventId draft p :
  turning us flag steps chars p -> InTurn us chars' None (after eventId draft p) -> isStepEvent draft = true ->
  turning us flag steps chars' (after eventId draft p).
Proof.
  intros [_ Hs Hf Hp Hset Ha] Ht Hd. destruct (after_step eventId _ p Hd) as (Eu & Et & Ex).
  split; [done..|by rewrite Eu|by eapply settled_same|by eapply answered_same].
Qed.

Lemma turn_counted us flag steps chars p : turning us flag steps chars p -> counted steps p.
Proof. intros [Ht Hs _ _ _ _]. split; [apply Ht|]. by rewrite Hs, (turn_count _ _ _ _ _ _ _ _ _ _ Ht). Qed.
Lemma turn_stoppable us flag steps chars p : turning us flag steps chars p -> stoppable us flag steps p.
Proof.
  intros Ht. split; [by eapply turn_counted|apply Ht..|]. right.
  rewrite (turn_count _ _ _ _ _ _ _ _ _ _ (tu_turn _ _ _ _ _ Ht)). lia.
Qed.

Lemma completeTurn_chars continuation outcome providerRequestId turn t :
  completeTurn deps continuation outcome providerRequestId turn = turn_is_completed t -> ct_textChars t = textChars turn.
Proof. unfold completeTurn. intros H. repeat case_match; try discriminate H; injection H as <-; done. Qed.

Lemma safe_consumeModelTurn stream timedOut turn (st : State) :
  Turning st (textChars turn) ->
  safe (consumeModelTurn sha256Bytes localeLe runId sessionId deps config stream timedOut turn)
    (fun '(result, _) st' => exists chars, Turning st' chars /\
       match result with turn_is_completed t => ct_textChars t = chars | _ => True end) st.
Proof.
  revert timedOut turn st. induction stream as [fired signal rest IH|fired|]; intros timedOut turn st Ht; cbn [consumeModelTurn].
  - apply wp_bind, wp_awaitInTurn. intros t r. apply wp_bind, wp_gets. destruct (_ || t); [apply wp_ret; by eauto|].
    destruct signal as [text|argumentsDelta callId name|usage|continuation outcome providerRequestId|error].
    + destruct (length text =? 0)%nat; [by apply IH|].
      pose proof (text_taken _ _ _ _ _ _ _ _ text _ (tu_turn _ _ _ _ _ Ht)) as Htake.
      apply wp_bind, safe_publishing; [done|]. intros event id w _. apply wp_bind, wp_outside. intros fired' w' _.
      apply wp_bind, wp_awaitInTurn. intros t' r'. apply IH. eapply turning_after; [exact Ht| |done].
      exact (text_posted _ _ _ _ _ _ _ _ _ id _ (tu_turn _ _ _ _ _ Ht) Htake).
    + destruct (match jm_get callId (calls turn) with Some call => mtc_name call !== name | None => false end);
        [apply wp_ret; by eauto|]. by apply IH.
    + destruct (turnUsage turn); [apply wp_ret; by eauto|]. by apply IH.
    + apply wp_ret. exists (textChars turn). split; [done|]. destruct (completeTurn _ _ _ _ _) eqn:E; try done.
      by apply completeTurn_chars in E.
    + apply wp_ret. by eauto.
  - apply wp_bind, wp_awaitInTurn. intros t r. apply wp_bind, wp_gets, wp_ret. exists (textChars turn). split; [done|].
    by destruct (_ || t).
  - by apply wp_throws.
Qed.

(** ** Between two turns *)

(** The last turn asked for the call [callId], which has its result. *)
Record settled (us : list CompleteModelUsage) (flag : bool) (steps : Z) (callId : string) (p : EventPublisher) : Prop := {
  st_rest : atRest us flag steps p; st_some : us <> []; st_answered : allAnswered p;
  st_ended : endedIn p outcome_tool_call (Some callId); st_completed : callCompleted p callId = true }.
Notation Settled st callId :=
  (settled (usages st) (aggregateUsagePublished st) (bt_steps (budget st)) callId (publisher st)).

(** The control of a finished tool call is on record. *)
Definition controlOn (p : EventPublisher) (callId toolName : string) (execution : ToolExecution) : Prop :=
  match tx_control execution with
  | Some (control_accept evidence report _ _) => toolName = "finish_task"%string ->
      acceptedOn p callId evidence report /\ taskProfileOf config = profile_coding /\ d_agentMode deps <> Some mode_plan
  | Some (control_incomplete signal) => toolName = "finish_task"%string -> incompleteOn p callId signal
  | _ => True
  end.

Lemma safe_acceptedFinish callId evidence report reportJson reportText (st : State) Q :
  Settled st callId -> tc_name <$> toolOf (publisher st) (Some callId) = Some "finish_task"%string ->
  acceptedOn (publisher st) callId evidence report -> taskProfileOf config = profile_coding ->
  d_agentMode deps <> Some mode_plan ->
  safe (acceptedFinish sha256Bytes localeLe runId sessionId deps config startedAt false callId evidence report reportJson reportText) Q st.
Proof.
  intros [Hr Hne Hall He Hcall] Hname Hacc Hcoding Hmode. pose proof Hr as [Hc Hs _ Hp Hset].
  pose proof (aggregate_taken _ _ _ _ _ _ _ _ Hc Hne Hp) as Ht. unfold acceptedFinish.
  apply wp_bind, safe_aggregate_calm; [done..|]. intros id w r.
  assert (Hend : forall duration w' r',
    ends (completedOutcome mode_verified_finish_task (Some evidence) (Some report)
            (Some (if reportFormatJson config then reportJson else reportText)) duration (bt_steps (budget st))
            (after id (ev_usage (aggregateUsage (usages st))) (publisher st)))
      (st <| world := w |> <| publisher := after id (ev_usage (aggregateUsage (usages st))) (publisher st) |>
          <| runAbortReason := r |> <| aggregateUsagePublished := true |> <| world := w' |> <| runAbortReason := r' |>)).
  { intros duration w' r'. rewrite Hs. eapply completed_ends; [exact Hc|exact Ht|exact Hall|exact Hset| |reflexivity|reflexivity].
    exists callId, evidence, report. done. }
  unfold beforeVerifiedRunCompleted. destruct (d_beforeVerifiedRunCompleted deps) as [hook|].
  - apply wp_bind, wp_bind, wp_outside. intros ok w1 _. apply wp_bind, wp_await. intros w2 r2.
    destruct ok; [|by apply wp_throws]. apply wp_ret, wp_bind, wp_elapsedMs. intros duration w3.
    apply wp_bind, wp_bind, wp_budgetSnapshot. intros e4 w4. apply wp_bind, wp_budgetSnapshot. intros e5 w5. apply wp_ret.
    apply wp_bind, wp_gets, wp_returns. exact (Hend duration w5 r2).
  - apply wp_bind, wp_ret, wp_bind, wp_elapsedMs. intros duration w3.
    apply wp_bind, wp_bind, wp_budgetSnapshot. intros e4 w4. apply wp_bind, wp_budgetSnapshot. intros e5 w5. apply wp_ret.
    apply wp_bind, wp_gets, wp_returns. exact (Hend duration w5 r).
Qed.

Lemma safe_settleCall callId toolName continuation execution (st : State) Q :
  Settled st callId -> tc_name <$> toolOf (publisher st) (Some callId) = Some toolName ->
  controlOn (publisher st) callId toolName execution ->
  (forall st' : State, Settled st' callId -> Q () st') ->
  safe (settleCall sha256Bytes localeLe runId sessionId deps config startedAt false callId toolName continuation execution) Q st.
Proof.
  unfold controlOn. intros Hst Hname Hctl HQ. pose proof (rest_stoppable _ _ _ _ (st_rest _ _ _ _ _ Hst)) as Hstop. unfold settleCall.
  apply wp_bind, safe_returnWhenAborted; [done|].
  assert (Hinc : forall reason control, tc_name <$> toolOf (publisher st) (Some callId) <> Some "finish_task"%string ->
    control = None -> reason <> completion_signal_required -> reason <> task_blocked ->
    forall Q' : () -> State -> Prop, safe (publishIncomplete sha256Bytes localeLe runId sessionId deps config startedAt reason control) Q' st).
  { intros reason control Hn -> Hr1 Hr2 Q'. destruct Hst as [Hr Hne Hall He Hcall].
    apply safe_publishIncomplete; [done..|]. split; [done|]. left. exists callId. rewrite bool_decide_eq_false_2 by done. done. }
  apply wp_bind.
  (* the plan mutation, and a control of another tool *)
  eapply wp_mono with (P := fun _ st' => st' = st /\ (tx_control execution <> None -> toolName = "finish_task"%string)).
  { destruct (tx_control execution) as [[]|] eqn:Ec; try (by apply wp_ret).
    1-3: destruct (bool_decide (toolName = "finish_task"%string)) eqn:Ef;
      [apply wp_ret; by apply bool_decide_eq_true in Ef|by apply safe_publishInternalFailure].
    destruct (_ || _) eqn:Eu; [by apply safe_publishInternalFailure|]. apply orb_false_iff in Eu as [Eu%negb_false_iff%bool_decide_eq_true _].
    apply Hinc; try done. rewrite Hname, Eu. done. }
  intros _ st' [-> Hfin]. apply wp_bind.
  eapply wp_mono with (P := fun _ st' => st' = st).
  { destruct (tx_error execution) as [error|]; [|by apply wp_ret]. destruct (_ === _); [by apply safe_publishInternalFailure|by apply wp_ret]. }
  intros _ st' ->. apply wp_bind. eapply wp_mono with (P := fun _ st' => st' = st).
  { destruct (tx_control execution) as [[evidence report reportJson reportText|reasons|signal|]|] eqn:Ec; try (by apply wp_ret).
    - specialize (Hfin ltac:(done)). rewrite Hfin in Hname. destruct (Hctl Hfin) as (Hacc & Hcoding & Hmode).
      by apply safe_acceptedFinish.
    - specialize (Hfin ltac:(done)). rewrite Hfin in Hname. pose proof (Hctl Hfin) as Hon. destruct Hst as [Hr Hne Hall He Hcall].
      apply safe_publishIncomplete; [done..|]. split; [apply Hon|]. left. exists callId.
      split; [done|]. split; [done|]. split; [apply Hon|]. rewrite bool_decide_eq_true_2 by done. by exists signal.
    - destruct (_ === _); [by apply safe_publishInternalFailure|by apply wp_ret]. }
  intros _ st' ->. apply wp_bind. eapply wp_mono with (P := fun _ st' => st' = st).
  { destruct (tx_error execution) as [error|]; [|by apply wp_ret]. destruct (_ === _); [by apply safe_publishInternalFailure|by apply wp_ret]. }
  intros _ st' ->. apply wp_bind, wp_update, wp_bind, wp_budgetSnapshot. intros e w. apply wp_bind, wp_unless.
  - intros _. apply wp_update, HQ. exact Hst.
  - intros exceeded _. apply safe_publishBudget. exact Hstop.
Qed.

(** ** What the tools leave as it was *)

Lemma tools_keep p p' :
  rtc (tool_publication sha256Bytes localeLe runId sessionId) p p' ->
  activeAgentStep p' = activeAgentStep p /\ agentSteps p' = agentSteps p /\ toolCalls p' = toolCalls p /\
  usagePublished p' = usagePublished p /\ recoveredCallData p' = recoveredCallData p.
Proof. intros Hv%tool_publications_view. unfold loopView in Hv. by injection Hv. Qed.

Lemma tools_calm us p p' :
  rtc (tool_publication sha256Bytes localeLe runId sessionId) p p' -> Calm us p -> Calm us p'.
Proof.
  intros Hp [Hf Ha Hc]. destruct (tools_keep _ _ Hp) as (Ea & Es & _). split; [|congruence|by rewrite Es].
  eapply fit_view; [|by eapply tool_publications_view|exact Hf]. eapply tool_publications_reachable; [exact Hp|apply Hf].
Qed.
Lemma tools_ended p p' outcome callId :
  rtc (tool_publication sha256Bytes localeLe runId sessionId) p p' -> endedIn p outcome callId -> endedIn p' outcome callId.
Proof.
  intros Hp%tools_keep. destruct Hp as (_ & Es & _). unfold endedIn, finalStep, stepCount. by rewrite Es.
Qed.
Lemma tools_rest us flag steps p p' :
  rtc (tool_publication sha256Bytes localeLe runId sessionId) p p' -> (commandsSettled p -> commandsSettled p') ->
  atRest us flag steps p -> atRest us flag steps p'.
Proof.
  intros Hp Hs [Hc Hn Hf Hu Hset]. destruct (tools_keep _ _ Hp) as (_ & _ & _ & Eu & _).
  split; [by eapply tools_calm|done|done|congruence|by apply Hs].
Qed.

(** ** A turn without a call *)

Lemma safe_persistTurnBoundary continuation pendingCall turn (st : State) Q :
  Q () st -> (forall w r, Q () (st <| world := w |> <| runAbortReason := r |>)) ->
  safe (persistTurnBoundary deps continuation pendingCall turn) Q st.
Proof.
  intros H0 H1. unfold persistTurnBoundary. destruct (d_persistTurnBoundary deps) as [persist|]; [|by apply wp_ret].
  apply wp_bind, wp_gets, wp_bind, wp_outside. intros ok w _. apply wp_bind, wp_await. intros w' r.
  destruct ok; [apply wp_ret, H1|by apply wp_throws].
Qed.

(** The state in which a final turn ends the run. *)
Record ending (us : list CompleteModelUsage) (flag : bool) (steps : Z) (p : EventPublisher) : Prop := {
  en_rest : atRest us flag steps p; en_some : us <> []; en_answered : allAnswered p;
  en_ended : endedIn p outcome_final None }.
Notation Ending st := (ending (usages st) (aggregateUsagePublished st) (bt_steps (budget st)) (publisher st)).

Lemma safe_completedRun mode (st : State) Q :
  Ending st -> mayComplete deps config (publisher st) mode None None ->
  safe (completedRun sha256Bytes localeLe runId sessionId deps startedAt mode) Q st.
Proof.
  intros [Hr Hne Hall _] Hm. pose proof Hr as [Hc Hs _ Hp Hset].
  pose proof (aggregate_taken _ _ _ _ _ _ _ _ Hc Hne Hp) as Ht. unfold completedRun.
  apply wp_bind, safe_aggregate_calm; [done..|]. intros id w r. apply wp_bind, wp_elapsedMs. intros duration w1.
  apply wp_bind, wp_budgetSnapshot. intros e2 w2. apply wp_bind, wp_budgetSnapshot. intros e3 w3.
  apply wp_bind, wp_gets, wp_returns. cbn [bg_steps snapshotAt]. cbn. rewrite Hs.
  eapply completed_ends; [exact Hc|exact Ht|exact Hall|exact Hset|exact Hm|reflexivity|reflexivity].
Qed.

Lemma final_incomplete reason control (st : State) Q :
  Ending st -> match control with Some signal => evidenceOnRecord (publisher st) reason signal | None => True end ->
  reason <> task_blocked -> (reason = completion_signal_required -> taskProfileOf config = profile_coding) ->
  safe (publishIncomplete sha256Bytes localeLe runId sessionId deps config startedAt reason control) (Q : () -> State -> Prop) st.
Proof.
  intros [Hr Hne Hall He] Hev Hnb Hcs. apply safe_publishIncomplete; [done..|]. split; [done|]. right. done.
Qed.

(** ** A turn with a call *)

Lemma safe_executeTool invocation (st : State) Q :
  (forall answer p' w' w r,
     d_execute deps invocation (aborted st) (publisher st) (world st) = (answer, p', w') ->
     Q answer (st <| world := w' |> <| publisher := p' |> <| world := w |> <| runAbortReason := r |>)) ->
  safe (executeTool deps invocation) Q st.
Proof.
  intros HQ. unfold wp, executeTool. destruct (d_execute _ _ _ _ _) as [[answer p'] w'] eqn:E.
  change (safe (_ ← await deps; mret answer) Q (st <| world := w' |> <| publisher := p' |>)).
  apply wp_bind, wp_await. intros w r. apply wp_ret. by apply HQ.
Qed.

(** The call ends in an execution, or its exception leaves the loop. *)
Lemma safe_answered answer (st : State) Q :
  (forall execution r, endsIn deps answer execution -> Q execution (st <| runAbortReason := r |>)) ->
  safe (answered deps answer) Q st.
Proof.
  intros HQ. unfold answered. destruct answer as [execution|[kind changed| |]]; [|try by apply wp_throws..].
  - apply wp_ret. specialize (HQ execution (runAbortReason st) ltac:(by left)). by destruct st.
  - destruct kind; try by apply wp_throws. destruct changed; [by apply wp_throws|].
    apply wp_bind, wp_update, wp_ret. unfold abortRun. destruct (runAbortReason st) as [r|] eqn:E.
    + specialize (HQ (cancelledExecution deps) (Some r) ltac:(by right)). destruct st; cbn in *. by rewrite E.
    + apply HQ. by right.
Qed.

(** The state in which a call has been requested. *)
Record calling (us : list CompleteModelUsage) (flag : bool) (steps : Z) (callId name : string) (p : EventPublisher)
  : Prop := {
  ca_rest : atRest us flag steps p; ca_some : us <> []; ca_ended : endedIn p outcome_tool_call (Some callId);
  ca_only : onlyPending p callId; ca_pending : pendingCall p callId name (Z.of_nat (length us)) = true }.
Notation Calling st callId name :=
  (calling (usages st) (aggregateUsagePublished st) (bt_steps (budget st)) callId name (publisher st)).

Lemma result_settles us flag steps callId name execution eventId p :
  let draft := ev_tool_call_completed (toolCompletedData callId name execution (Z.of_nat (length us))) in
  calling us flag steps callId name p -> takes p draft ->
  settled us flag steps callId (after eventId draft p) /\
  tc_name <$> toolOf (after eventId draft p) (Some callId) = Some name.
Proof.
  intros draft [[Hc Hs Hf Hp Hset] Hne He Honly Hpend] Ht.
  pose proof (pending_checks _ _ _ _ Hpend) as (call & Hcall & Hname & _).
  edestruct (result_posted sha256Bytes localeLe runId sessionId deps config us p
    (toolCompletedData callId name execution (Z.of_nat (length us))) eventId) as (Hc' & Hall & Hdone);
    [exact Hc|exact Honly|by eexists|exact Ht|].
  split; [by split|]. unfold toolOf. cbn [mbind option_bind]. unfold after. rewrite posted_toolCalls. cbn [re_draft draft].
  rewrite jm_get_alter. cbn [tcc_call_id toolCompletedData]. rewrite decide_True by done. rewrite Hcall. cbn. by rewrite Hname.
Qed.

Lemma tools_calling us flag steps callId name p p' :
  rtc (tool_publication sha256Bytes localeLe runId sessionId) p p' -> (commandsSettled p -> commandsSettled p') ->
  calling us flag steps callId name p -> calling us flag steps callId name p'.
Proof.
  intros Hp Hset [Hr Hne He Ho Hpend]. destruct (tools_keep _ _ Hp) as (_ & _ & Et & _).
  split; [by eapply tools_rest|done|by eapply tools_ended| |].
  - unfold onlyPending. by rewrite Et.
  - unfold pendingCall. by rewrite Et.
Qed.

(** The result leaves what is on record about the evaluation. *)
Lemma control_after p callId name execution eventId d :
  controlOn p callId name execution -> controlOn (after eventId (ev_tool_call_completed d) p) callId name execution.
Proof.
  unfold controlOn, acceptedOn, incompleteOn, evidenceOnRecord, evaluatedOf, after.
  by rewrite posted_candidates, posted_evidence.
Qed.

(** The result of the call is accepted, or refused for want of an evaluation. *)
Lemma safe_result callId name continuation execution step (st : State) Q :
  Calling st callId name -> step = Z.of_nat (length (usages st)) ->
  validateToolCallCompleted (toolCompletedData callId name execution step) (publisher st) = Ok () \/
    name = "finish_task"%string /\ evaluatedOf (publisher st) (Some callId) = None ->
  controlOn (publisher st) callId name execution ->
  (forall st' : State, Settled st' callId -> Q () st') ->
  safe (_ ← publishDraft sha256Bytes localeLe runId sessionId deps
          (ev_tool_call_completed (toolCompletedData callId name execution step));
        settleCall sha256Bytes localeLe runId sessionId deps config startedAt false callId name continuation execution) Q st.
Proof.
  intros Hst -> Hv Hctl HQ. pose proof (calm_fit _ _ _ _ _ _ _ _ (ar_calm _ _ _ _ (ca_rest _ _ _ _ _ _ Hst))) as Hf.
  apply wp_bind. destruct Hv as [Hv|[-> Hev]].
  - pose proof (result_taken _ _ _ _ _ _ _ _ _ _ _ Hf Hv) as Ht. apply safe_publish; [done|]. intros event id w r _.
    destruct (result_settles _ _ _ _ _ _ id _ Hst Ht) as [Hset Hname]. apply safe_settleCall; [exact Hset|exact Hname| |exact HQ].
    by apply control_after.
  - eapply refused_publish; [eapply result_refused; [exact Hf|]; apply unevaluated_refused; [apply Hst| |done]|].
    + by rewrite (fit_recovered _ _ _ _ _ _ _ Hf), lookup_empty.
    + cbn. set_solver.
Qed.

(** The step has ended in a call that is to be requested. *)
Record called (us : list CompleteModelUsage) (flag : bool) (steps : Z) (callId : string) (p : EventPublisher) : Prop := {
  cd_rest : atRest us flag steps p; cd_some : us <> []; cd_answered : allAnswered p;
  cd_ended : endedIn p outcome_tool_call (Some callId) }.
Notation Called st callId :=
  (called (usages st) (aggregateUsagePublished st) (bt_steps (budget st)) callId (publisher st)).

Lemma safe_request callId name arguments response step (st : State) Q :
  Called st callId -> step = Z.of_nat (length (usages st)) ->
  (forall event (st' : State), Calling st' callId name -> untouched (publisher st') callId -> usages st' = usages st -> Q event st') ->
  safe (publishDraft sha256Bytes localeLe runId sessionId deps (ev_tool_call_requested {|
          tcr_arguments_json := arguments; tcr_call_id := callId;
          tcr_provider_response_id := response; tcr_step := step; tcr_tool_name := name |})) Q st.
Proof.
  intros [Hr Hne Hall He] -> HQ. pose proof Hr as [Hc Hs Hf Hp Hset].
  pose proof (requested_taken _ _ _ _ _ _ _ _ callId name arguments response Hc He) as Ht.
  destruct (jm_has callId (toolCalls (publisher st))) eqn:Hhas.
  - eapply refused_publish; [exact Ht|]. cbn. unfold duplicateCallId. set_solver.
  - apply jm_has_false in Hhas. apply safe_publish; [exact Ht|]. intros event id w r _.
    destruct (requested_posted _ _ _ _ _ _ _ _ callId name arguments response id Hc He Hall Hhas Ht) as (Hc' & He' & Ho & Hpend & Hu).
    apply HQ; [|exact Hu|done]. split; [|done..]. split; [exact Hc'|done|done|exact Hp|exact Hset].
Qed.

Notation blockedResult callId name step :=
  (publishDraft sha256Bytes localeLe runId sessionId deps
     (ev_tool_call_completed (toolCompletedData callId name (failedExecution repeatedCallError) step))).

(** The publisher refuses the result of a blocked call that needs evidence. *)
Lemma blocked_refused callId name step (st : State) Q :
  Calling st callId name -> untouched (publisher st) callId -> step = Z.of_nat (length (usages st)) ->
  name = "run_command"%string \/ name = "finish_task"%string -> safe (blockedResult callId name step) Q st.
Proof.
  intros Hst Hu -> Hname. pose proof (calm_fit _ _ _ _ _ _ _ _ (ar_calm _ _ _ _ (ca_rest _ _ _ _ _ _ Hst))) as Hf.
  pose proof (blocked_result _ _ _ _ (ca_pending _ _ _ _ _ _ Hst) Hu) as Hb.
  destruct Hname as [-> | ->]; vm_compute bool_decide in Hb;
    (eapply refused_publish; [eapply result_refused; [exact Hf|exact Hb]|cbn; set_solver]).
Qed.

(** The third of three identical calls is not executed. *)
Lemma safe_blocked callId name exceeded step (st : State) (Q : () -> State -> Prop) :
  Calling st callId name -> untouched (publisher st) callId -> step = Z.of_nat (length (usages st)) ->
  safe (_ ← blockedResult callId name step;
        publishBudget sha256Bytes localeLe runId sessionId deps startedAt exceeded) Q st.
Proof.
  intros Hst Hu ->. pose proof (calm_fit _ _ _ _ _ _ _ _ (ar_calm _ _ _ _ (ca_rest _ _ _ _ _ _ Hst))) as Hf.
  pose proof (blocked_result _ _ _ _ (ca_pending _ _ _ _ _ _ Hst) Hu) as Hb. apply wp_bind.
  destruct (decide (name = "run_command"%string)) as [Hn|Hn1]; [apply blocked_refused; auto|].
  destruct (decide (name = "finish_task"%string)) as [Hn|Hn2]; [apply blocked_refused; auto|].
  rewrite !bool_decide_eq_false_2 in Hb by done.
  pose proof (result_taken _ _ _ _ _ _ _ _ _ _ _ Hf Hb) as Ht. apply safe_publish; [done|]. intros event id w r _.
  destruct (result_settles _ _ _ _ _ _ id _ Hst Ht) as [Hset _]. apply safe_publishBudget, rest_stoppable, Hset.
Qed.

(** ** The tools keep their contract *)

Context (numberText : jstring -> jstring).
Context {contract : ToolContract sha256Bytes localeLe runId sessionId deps config}.

Lemma safe_finalTurn step turn (st : State) Q :
  Ending st -> safe (finalTurn sha256Bytes localeLe runId sessionId deps config startedAt step turn) Q st.
Proof.
  intros Hst. unfold finalTurn. apply wp_bind.
  eapply wp_mono with (P := fun _ st' => Ending st'); [by apply safe_persistTurnBoundary|].
  clear st Hst. intros _ st Hst. pose proof (rest_stoppable _ _ _ _ (en_rest _ _ _ _ Hst)) as Hstop. apply wp_bind.
  eapply wp_mono with (P := fun _ st' => st' = st).
  { destruct (ct_sawNonWhitespaceText turn); [by apply wp_ret|]. apply safe_publishFailure, Hstop. }
  intros _ st' ->. apply wp_bind, safe_returnWhenAborted; [done|].
  destruct (bool_decide (d_agentMode deps = Some mode_plan)) eqn:Emode.
  - apply bool_decide_eq_true in Emode. apply wp_bind, wp_gets. destruct (_ <$> d_taskState deps) as [state|].
    + destruct (hasReviewablePlan state); [|by apply final_incomplete].
      apply safe_completedRun; [done|]. split; [apply Hst|done].
    + by apply safe_publishInternalFailure.
  - apply bool_decide_eq_false in Emode. case_bool_decide as Eprofile.
    + destruct (d_createIncomplete deps) as [createIncomplete|] eqn:Ec; [|by apply final_incomplete].
      apply wp_bind. unfold wp. destruct (createIncomplete (publisher st) (world st)) as [[control p] w] eqn:Ecall.
      change (safe (_ ← await deps;
         match control with
         | Some c => publishIncomplete sha256Bytes localeLe runId sessionId deps config startedAt completion_signal_required (Some c)
         | None => throws completion_exception
         end) Q (st <| world := w |> <| publisher := p |>)).
      apply wp_bind, wp_await. intros w' r. destruct control as [signal|]; [|by apply wp_throws].
      destruct (@contract_creates _ _ _ _ _ _ _ _ contract createIncomplete _ _ signal p w Ec Ecall) as (Hpub & Hset & Hev). destruct Hst as [Hr Hne Hall He].
      apply final_incomplete; try done. split; [by eapply tools_rest|done| |by eapply tools_ended].
      eapply answered_same; [|exact Hall]. apply (tools_keep _ _ Hpub).
    + apply safe_completedRun; [done|]. split; [apply Hst|done].
Qed.

(** The control that a tool returns is on record when it ends. *)
Lemma control_on invocation stop p w answer p' w' execution :
  d_execute deps invocation stop p w = (answer, p', w') -> endsIn deps answer execution ->
  controlOn p' (tinv_callId invocation) (tinv_name invocation) execution.
Proof.
  intros Hx [->|[_ ->]]; [|by unfold controlOn, cancelledExecution, serializeToolError, failedExecution; repeat case_match]. unfold controlOn. destruct (tx_control execution) as [[]|] eqn:Ec; try done; intros Hn.
  - by eapply (@contract_accepts _ _ _ _ _ _ _ _ contract).
  - by eapply (@contract_incomplete _ _ _ _ _ _ _ _ contract).
Qed.

Lemma safe_toolTurn step continuation response call (st : State) Q :
  Called st (mtc_callId call) -> step = Z.of_nat (length (usages st)) ->
  (forall st' : State, Settled st' (mtc_callId call) -> Q () st') ->
  safe (toolTurn sha256Bytes localeLe numberText runId sessionId deps config startedAt step continuation response call) Q st.
Proof.
  intros Hst Hstep HQ. pose proof (rest_stoppable _ _ _ _ (cd_rest _ _ _ _ _ Hst)) as Hstop. unfold toolTurn.
  apply wp_bind, safe_returnWhenAborted; [done|]. apply wp_bind, wp_budgetSnapshot. intros e w.
  apply wp_bind, wp_unless; [intros _|intros exceeded _; by apply safe_publishBudget].
  apply wp_bind, wp_gets. destruct (observe _ _ _ _ _ _) as [repeated detector]. apply wp_bind, wp_update.
  apply wp_bind, safe_request; [exact Hst|exact Hstep|]. intros requestedEvent st1 H1 Hu1 E1. cbn in E1. rewrite <-E1 in Hstep.
  apply wp_bind. eapply wp_mono with (P := fun _ st' => Calling st' (mtc_callId call) (mtc_name call) /\
    untouched (publisher st') (mtc_callId call) /\ usages st' = usages st1); [by apply safe_persistTurnBoundary|].
  intros _ st2 (H2 & Hu2 & E2). rewrite <-E2 in Hstep. clear st st1 Hst Hstop H1 Hu1 E1 E2.
  destruct (ro_blocked repeated); [by apply safe_blocked|].
  apply wp_bind, wp_outside. intros toolStartedAt w1 _. apply wp_bind, safe_executeTool. intros answer p' w2 w3 r Hx.
  apply wp_bind, safe_answered. intros execution r' Hend. apply wp_bind, wp_outside. intros finishedAt w4 _.
  pose proof (@contract_publishes _ _ _ _ _ _ _ _ contract _ _ _ _ _ _ _ Hx) as Hpub.
  pose proof (@contract_settles _ _ _ _ _ _ _ _ contract _ _ _ _ _ _ _ _ Hx Hend) as Hset.
  pose proof (control_on _ _ _ _ _ _ _ _ Hx Hend) as Hctl. cbn in Hctl, Hpub, Hset.
  eapply safe_result; [by eapply tools_calling|exact Hstep| |exact Hctl|exact HQ].
  eapply (@contract_result _ _ _ _ _ _ _ _ contract _ _ _ _ _ _ _ _ Hx Hend); cbn; [apply H2| |exact Hu2].
  rewrite Hstep. apply H2.
Qed.

(** ** The end of a step *)

(** The usage of the turn has been published, the step has not ended. *)
Record used (us : list CompleteModelUsage) (usage : CompleteModelUsage) (flag : bool) (steps chars : Z)
    (p : EventPublisher) : Prop := {
  ud_turn : InTurn us chars (Some (completeUsage deps (Z.of_nat (length us) + 1) usage)) p;
  ud_steps : steps = Z.of_nat (length us) + 1; ud_flag : flag = false; ud_published : usagePublished p = false;
  ud_settled : commandsSettled p; ud_answered : allAnswered p }.

Lemma used_counted us usage flag steps chars p : used us usage flag steps chars p -> counted steps p.
Proof. intros [Ht Hs _ _ _ _]. split; [apply Ht|]. by rewrite Hs, (turn_count _ _ _ _ _ _ _ _ _ _ Ht). Qed.

Lemma safe_usage us usage step chars (st : State) Q :
  turning us (aggregateUsagePublished st) (bt_steps (budget st)) chars (publisher st) ->
  step = Z.of_nat (length us) + 1 ->
  (forall event (st' : State), usages st' = usages st ->
     used us usage (aggregateUsagePublished st') (bt_steps (budget st')) chars (publisher st') -> Q event st') ->
  safe (publishDraft sha256Bytes localeLe runId sessionId deps (ev_model_usage (completeUsage deps step usage))) Q st.
Proof.
  intros [Ht Hs Hf Hp Hset Ha] -> HQ. pose proof (usage_taken _ _ _ _ _ _ _ _ usage _ Ht) as Htake.
  apply safe_publish; [done|]. intros event id w r _. apply HQ; [done|].
  destruct (after_step id (ev_model_usage (completeUsage deps (Z.of_nat (length us) + 1) usage)) (publisher st) eq_refl)
    as (Eu & Et & Ex).
  split; [exact (usage_posted _ _ _ _ _ _ _ _ usage id _ Ht Htake)|done|done|by rewrite <-Hp, <-Eu| |].
  - by eapply settled_same.
  - by eapply answered_same.
Qed.

Lemma safe_stepCompleted us usage step chars outcome callId (st : State) Q :
  used us usage (aggregateUsagePublished st) (bt_steps (budget st)) chars (publisher st) ->
  usages st = us ++ [usage] -> step = Z.of_nat (length us) + 1 ->
  (outcome = outcome_tool_call /\ is_Some callId \/ outcome = outcome_final /\ callId = None) ->
  (forall event (st' : State), usages st' = usages st -> usages st' <> [] -> AtRest st' -> allAnswered (publisher st') ->
     endedIn (publisher st') outcome callId -> Q event st') ->
  safe (publishDraft sha256Bytes localeLe runId sessionId deps (ev_agent_step_completed {|
          asc_outcome := outcome; asc_step := step; asc_text_chars := chars; asc_tool_call_id := callId |})) Q st.
Proof.
  intros [Ht Hs Hf Hp Hset Ha] Hus -> Hend HQ. pose proof (stepCompleted_taken _ _ _ _ _ _ _ _ _ outcome callId _ Ht Hend) as Htake.
  apply safe_publish; [exact Htake|]. intros event id w r _.
  destruct (stepCompleted_posted _ _ _ _ _ _ _ _ _ outcome callId id _ Ht Htake) as [Hc He].
  destruct (after_step id (stepCompleted us chars outcome callId) (publisher st) eq_refl) as (Eu & Et & Ex).
  apply HQ; cbn; [done|rewrite Hus; by destruct us| | |exact He].
  - rewrite Hus. split; [exact Hc|rewrite Hs, length_app; cbn; lia|done|by rewrite <-Hp, <-Eu|]. by eapply settled_same.
  - by eapply answered_same.
Qed.

Lemma safe_completedTurn step turn (st : State) Q :
  Turning st (ct_textChars turn) -> step = Z.of_nat (length (usages st)) + 1 ->
  (forall callId (st' : State), Settled st' callId -> Q () st') ->
  safe (completedTurn sha256Bytes localeLe numberText runId sessionId deps config startedAt step turn) Q st.
Proof.
  intros Hst Hstep HQ. unfold completedTurn.
  destruct (ct_usage turn) as [[usage|]|]; [|apply safe_publishFailure; by eapply turn_counted..].
  apply wp_bind, wp_update, wp_bind. eapply safe_usage; [exact Hst|exact Hstep|]. intros event st1 E1 H1. cbn in E1.
  destruct (ct_call turn) as [call|].
  - destruct (_ || _); [apply safe_publishFailure; by eapply used_counted|].
    apply wp_bind, wp_outside. intros finishedAt w1 _. apply wp_bind.
    eapply safe_stepCompleted; [exact H1|exact E1|exact Hstep|by left; eauto|].
    intros event2 st2 E2 Hne Hr Hall He. cbn in E2. apply safe_toolTurn; [by split| |by apply HQ].
    rewrite E2, E1, length_app, Hstep. cbn. lia.
  - apply wp_bind, wp_outside. intros finishedAt w1 _. apply wp_bind.
    eapply safe_stepCompleted; [exact H1|exact E1|exact Hstep|by right|].
    intros event2 st2 E2 Hne Hr Hall He. by apply safe_finalTurn.
Qed.

(** ** The loop *)

(** The state at the head of the loop, after so many steps. *)
Definition headed (steps : Z) (st : State) : Prop :=
  atRest (usages st) (aggregateUsagePublished st) steps (publisher st) /\ allAnswered (publisher st) /\
  (usages st = [] /\ firstInputKind st = input_user_task \/
   exists callId, settled (usages st) (aggregateUsagePublished st) steps callId (publisher st)).

Lemma safe_prepareRequest nextStep (st : State) Q :
  Stoppable st -> (forall request w r, Q request (st <| world := w |> <| runAbortReason := r |>)) ->
  safe (prepareRequest sha256Bytes localeLe runId sessionId deps config startedAt nextStep) Q st.
Proof.
  intros Hst HQ. unfold prepareRequest. apply wp_bind, wp_gets. destruct (d_prepare deps) as [prepare|].
  - apply wp_bind, wp_outside. intros answer w _. apply wp_bind, wp_await. intros w' r.
    destruct answer; [apply wp_ret, HQ|by apply safe_publishBudget|by apply wp_throws].
  - apply wp_ret. specialize (HQ {| mtr_input := pendingInput st; mtr_canonicalContext := None;
      mtr_timeoutMs := requestTimeoutMs config |} (world st) (runAbortReason st)). by destruct st.
Qed.

Lemma safe_inputKind step (st : State) Q :
  headed (step - 1) st ->
  (forall kind, mayStart (usages st) kind (publisher st) -> Q kind st) ->
  safe (if step =? 1 then gets firstInputKind else mret input_tool_result) Q st.
Proof.
  intros ([Hc Hs _ _ _] & _ & [[Hus Hkind]|[callId [_ Hne _ He Hdone]]]) HQ.
  - rewrite Hus in Hs. cbn in Hs. assert ((step =? 1) = true) as -> by lia. apply wp_gets, HQ. by rewrite Hus.
  - assert ((step =? 1) = false) as ->.
    { apply Z.eqb_neq. destruct (usages st) as [|u us]; [done|]. cbn [length] in Hs. lia. }
    apply wp_ret, HQ. destruct (usages st); [done|]. split; [done|]. by exists callId.
Qed.

Lemma safe_stepStarted kind step (st : State) Q :
  headed (step - 1) st -> mayStart (usages st) kind (publisher st) ->
  (forall event (st' : State), usages st' = usages st -> budget st' = budget st ->
     turning (usages st') (aggregateUsagePublished st') step 0 (publisher st') -> Q event st') ->
  safe (publishDraft sha256Bytes localeLe runId sessionId deps
          (ev_agent_step_started {| ass_input_kind := kind; ass_step := step |})) Q st.
Proof.
  intros ([Hc Hs Hf Hp Hset] & Hall & _) Hk HQ. assert (step = Z.of_nat (length (usages st)) + 1) as -> by lia.
  pose proof (step_taken _ _ _ _ _ _ _ kind _ Hc Hk) as Ht.
  apply safe_publish; [done|]. intros event id w r _. apply HQ; [done..|].
  destruct (after_step id (ev_agent_step_started {| ass_input_kind := kind; ass_step := Z.of_nat (length (usages st)) + 1 |})
    (publisher st) eq_refl) as (Eu & Et & Ex).
  split; [exact (step_posted _ _ _ _ _ _ _ kind id _ Hc Ht)|done|done|by rewrite <-Hp, <-Eu| |].
  - by eapply settled_same.
  - by eapply answered_same.
Qed.

Lemma safe_unfinishedTurn {A} result timedOut next chars (st : State) (Q : A -> State -> Prop) :
  Turning st chars -> (forall turn, result = turn_is_completed turn -> safe (next turn) Q st) ->
  safe (unfinishedTurn sha256Bytes localeLe runId sessionId deps config startedAt result timedOut next) Q st.
Proof.
  intros Hst HQ. pose proof (turn_stoppable _ _ _ _ _ Hst) as Hstop. unfold unfinishedTurn.
  destruct result as [turn|error|]; [by apply HQ|apply safe_publishFailure, Hstop|].
  apply wp_bind, safe_returnWhenAborted; [done|]. destruct timedOut; [apply safe_failedWith, Hstop|by apply safe_publishInternalFailure].
Qed.

Lemma safe_loopStep (st : State) :
  headed (bt_steps (budget st)) st ->
  safe (loopStep sha256Bytes localeLe numberText runId sessionId deps config startedAt)
    (fun _ st' => headed (bt_steps (budget st')) st') st.
Proof.
  intros Hst. pose proof (rest_stoppable _ _ _ _ (proj1 Hst)) as Hstop. unfold loopStep.
  apply wp_bind, safe_returnWhenAborted; [done|]. apply wp_bind, wp_budgetSnapshot. intros e w.
  apply wp_bind, wp_unless; [intros _|intros exceeded _; by apply safe_publishBudget].
  apply wp_bind, wp_budgetSnapshot. intros e1 w1. apply wp_bind, safe_prepareRequest; [done|]. intros request w2 r2.
  apply wp_bind. unfold beginStep. apply wp_bind, wp_update, wp_gets.
  apply wp_bind, wp_budgetSnapshot. intros e3 w3. cbn.
  assert (Hst' : headed (Z.succ (bt_steps (budget st)) - 1) st) by (by replace (Z.succ (bt_steps (budget st)) - 1) with (bt_steps (budget st)) by lia).
  apply wp_bind, safe_inputKind; [exact Hst'|]. intros kind Hk.
  apply wp_bind, (safe_stepStarted kind); [exact Hst'|exact Hk|]. intros event st4 E4 B4 H4.
  apply wp_bind, wp_outside. intros t w5 _. apply wp_bind, wp_outside. intros stream w6 _.
  apply wp_bind. eapply wp_mono.
  { apply wp_keeps; [apply keeps_consumeModelTurn|]. apply safe_consumeModelTurn. cbn. rewrite B4. exact H4. }
  intros [result timedOut] st5 [(chars & H5 & Hchars) B5]. eapply safe_unfinishedTurn; [exact H5|].
  intros turn ->. rewrite <-Hchars in H5. apply safe_completedTurn; [exact H5| |].
  - rewrite <-(tu_steps _ _ _ _ _ H5), B5. cbn. by rewrite B4.
  - intros callId st6 H6. split; [apply H6|]. split; [apply H6|]. right. by exists callId.
Qed.

Lemma safe_iterate fuel (st : State) :
  headed (bt_steps (budget st)) st ->
  let '(answer, st') := iterate sha256Bytes localeLe numberText runId sessionId deps config startedAt fuel st in
  match answer with LoopReturned outcome => ends outcome st' | LoopThrew e => allowed e | OutOfSteps => True end.
Proof.
  revert st. induction fuel as [|fuel IH]; intros st Hst; [done|]. cbn [iterate].
  pose proof (safe_loopStep st Hst) as Hstep. unfold wp in Hstep.
  destruct (loopStep _ _ _ _ _ _ _ _ st) as [[[]| |] st']; [by apply IH|done..].
Qed.
End Accepted.
