(* ===== verification/AgentLoopProperties.v ===== *)
(** * What the agent loop guarantees

    A run ends within its limit of steps, with a terminal event that the
    publisher takes; when the repetition detector blocks a call; and the two ends
    of a run that the publisher never takes. *)

From S2P Require Import Prelude JsString CanonicalJson Domain Events TaskState Schemas Permissions Patch SourceSnapshot Completion Verification JsonParse RunEvents EventPublisher EventPublisherFacts EventPublisherProperties ToolErrors AgentLoop AgentLoopFacts AgentLoopProtocol AgentLoopAccepted.
From Stdlib Require Import QArith.
#[local] Open Scope Z_scope.

(** ** The repetition detector *)

Section Repetition.
Context (sha256Bytes : list Z -> string) (localeLe : jstring -> jstring -> bool) (numberText : jstring -> jstring).
Notation fingerprint call := (toolCallFingerprint sha256Bytes localeLe numberText (mtc_name call) (mtc_argumentsJson call)).

Definition newDetector : RepetitionDetector := {| consecutiveCount := 0; previousFingerprint := None |}.
Definition observed (calls : list ModelToolCall) : RepetitionDetector :=
  fold_left (fun d call => (observe sha256Bytes localeLe numberText (mtc_name call) (mtc_argumentsJson call) d).2) calls
    newDetector.

Lemma observed_snoc calls call : observed (calls ++ [call]) =
  (observe sha256Bytes localeLe numberText (mtc_name call) (mtc_argumentsJson call) (observed calls)).2.
Proof. unfold observed. by rewrite fold_left_app. Qed.

Lemma observed_previous calls call : previousFingerprint (observed (calls ++ [call])) = Some (fingerprint call).
Proof. by rewrite observed_snoc. Qed.
Lemma observed_counts calls : 0 <= consecutiveCount (observed calls).
Proof.
  induction calls as [|call calls IH] using rev_ind; [done|]. rewrite observed_snoc. cbn. case_bool_decide; lia.
Qed.
Lemma observed_positive calls call : 1 <= consecutiveCount (observed (calls ++ [call])).
Proof. rewrite observed_snoc. cbn. pose proof (observed_counts calls). case_bool_decide; lia. Qed.

(** The count is over [n] exactly when the call before is the same and its count
    is at least [n]. *)
Lemma observed_more n calls call : 1 <= n ->
  n < consecutiveCount (observed (calls ++ [call])) <->
  exists before previous, calls = before ++ [previous] /\ fingerprint previous = fingerprint call /\
    n <= consecutiveCount (observed calls).
Proof.
  intros Hn. rewrite observed_snoc. cbn. destruct calls as [|previous before _] using rev_ind.
  - rewrite bool_decide_eq_false_2 by done. split; [lia|]. by intros ([] & ? & ? & _).
  - rewrite observed_previous. case_bool_decide as E.
    + injection E as E. split; [intros H; exists before, previous; split_and!; [done..|lia]|].
      intros (b & q & _ & _ & H). lia.
    + split; [lia|]. intros (b & q & (_ & <-)%app_inj_tail & H & _). by rewrite H in E.
Qed.

(** The repetition detector blocks a tool call exactly when it is at least the third
    in a row with one fingerprint: the two calls just before it have its tool name
    and its arguments up to the order of their keys. *)
Theorem third_repetition_is_blocked calls call :
  ro_blocked (observe sha256Bytes localeLe numberText (mtc_name call) (mtc_argumentsJson call) (observed calls)).1 = true <->
  exists before first second, calls = before ++ [first; second] /\
    fingerprint first = fingerprint call /\ fingerprint second = fingerprint call.
Proof.
  assert (ro_blocked (observe sha256Bytes localeLe numberText (mtc_name call) (mtc_argumentsJson call) (observed calls)).1 =
          (3 <=? consecutiveCount (observed (calls ++ [call])))) as -> by (by rewrite observed_snoc).
  rewrite Z.leb_le. transitivity (2 < consecutiveCount (observed (calls ++ [call]))); [lia|].
  rewrite observed_more by lia. split.
  - intros (before & second & -> & H2 & Hc). assert (1 < consecutiveCount (observed (before ++ [second]))) as Hlt by lia.
    apply observed_more in Hlt as (before' & first & -> & H1 & _); [|lia]. exists before', first, second.
    rewrite <-app_assoc. by rewrite H1.
  - intros (before & first & second & -> & H1 & H2). exists (before ++ [first]), second.
    rewrite <-app_assoc. split_and!; [done..|]. assert (1 < consecutiveCount (observed ((before ++ [first]) ++ [second]))).
    { apply observed_more; [lia|]. exists before, first. split_and!; [done|congruence|]. apply observed_positive. }
    rewrite <-app_assoc in *. cbn in *. lia.
Qed.
End Repetition.

(** ** A run *)

Section Runs.
Context {W Continuation : Type}.
Notation State := (LoopState W Continuation).
Context (sha256Bytes : list Z -> string) (localeLe : jstring -> jstring -> bool)
  (numberText : jstring -> jstring) (runId sessionId : string).
Context (deps : LoopDeps W Continuation) (config : AgentLoopConfig) (startedAt : Q).
Notation run := (runAgentLoop sha256Bytes localeLe numberText runId sessionId deps config startedAt).
Notation Fit := (Fit sha256Bytes localeLe runId sessionId deps config).

Lemma prologue_wp task signalAborted p w R E Q :
  (forall o st', bt_steps (budget st') = 0 -> R o st') -> (forall e, E e) ->
  (forall st' : State, bt_steps (budget st') = 0 -> Q () st') ->
  wp (_ ← elapsedMs deps startedAt;
      unless (d_inheritedCall deps) (inheritCall sha256Bytes localeLe runId sessionId deps config startedAt))
    Q R E (initialState deps task signalAborted p w).
Proof.
  intros HR HE HQ. apply keeps_wp; [|auto..|intros []; auto]. keeps; [apply keeps_elapsedMs|apply keeps_inheritCall].
Qed.

(** C34: the agent loop ends: [maxSteps + 1] iterations always reach an outcome or an
    exception, whatever the model, the tools and the log answer, and a run that returns
    has made at most [maxSteps] requests to the model. *)
Theorem loop_answers task signalAborted p w :
  let '(answer, st) := run task signalAborted p w in
  match answer with
  | LoopReturned _ => bt_steps (budget st) <= Z.max 0 (maxSteps config)
  | LoopThrew _ => True
  | OutOfSteps => False
  end.
Proof.
  unfold runAgentLoop.
  pose proof (prologue_wp task signalAborted p w (fun _ st => bt_steps (budget st) <= Z.max 0 (maxSteps config))
    (fun _ => True) (fun _ st => bt_steps (budget st) = 0) ltac:(intros; cbn in *; lia) ltac:(done) ltac:(done)) as Hp.
  unfold wp in Hp. destruct (mbind (M:=Loop) _ _ _) as [[[]| |] st]; [|done..].
  pose proof (iterate_answers sha256Bytes localeLe numberText runId sessionId deps config startedAt
    (S (Z.to_nat (maxSteps config))) st ltac:(lia) ltac:(lia)) as Hi. rewrite Hp in Hi. exact Hi.
Qed.

(** A run that has been started and has selected its backend, and nothing else. *)
Record freshRun (p : EventPublisher) : Prop := {
  fr_fit : Fit p; fr_active : activeAgentStep p = None; fr_steps : agentSteps p = []; fr_calls : toolCalls p = [];
  fr_usage : usagePublished p = false; fr_commands : commandExecutions p = [] }.

Lemma fresh_headed task signalAborted p w :
  freshRun p -> headed sha256Bytes localeLe runId sessionId deps config 0 (initialState deps task signalAborted p w).
Proof.
  intros [Hf Ha Hs Hc Hu Hx]. split; [split; try done|split; [|by left]].
  - split; [done..|]. cbn. rewrite Hs. by split.
  - unfold commandsSettled. cbn. by rewrite Hx.
  - intros c call. cbn. by rewrite Hc.
Qed.

(** C29: the loop and the event publisher agree: in a run without an inherited call, with tools
    that keep their contract, every event the loop publishes is accepted, up to the
    id of a call the model used twice and the result of a call that was
    answered before its tool ran; when the run returns, the publisher takes its terminal
    event and the run is over. *)
Theorem loop_keeps_protocol {contract : ToolContract sha256Bytes localeLe runId sessionId deps config}
    task signalAborted p w :
  freshRun p -> d_inheritedCall deps = None ->
  let '(answer, st) := run task signalAborted p w in
  match answer with
  | LoopReturned outcome => forall attribution eventId, exists event p',
      publish sha256Bytes localeLe runId sessionId attribution eventId true true (lo_terminalEvent outcome) (publisher st)
        = (Ok event, p') /\ terminal p' = true
  | LoopThrew e => allowed e
  | OutOfSteps => False
  end.
Proof.
  intros Hp Hi. unfold runAgentLoop.
  assert (Hpro : wp (_ ← elapsedMs deps startedAt;
      unless (d_inheritedCall deps) (inheritCall sha256Bytes localeLe runId sessionId deps config startedAt))
    (fun _ st => exists w', st = initialState deps task signalAborted p w') (fun _ _ => False) (fun _ => False)
    (initialState deps task signalAborted p w)).
  { apply wp_bind, wp_elapsedMs. intros e w'. rewrite Hi. apply wp_ret. by exists w'. }
  unfold wp in Hpro. destruct (mbind (M:=Loop) _ _ _) as [[[]| |] st]; [|done..].
  destruct Hpro as [w' ->].
  pose proof (iterate_answers sha256Bytes localeLe numberText runId sessionId deps config startedAt
    (S (Z.to_nat (maxSteps config))) (initialState deps task signalAborted p w') ltac:(lia) ltac:(cbn; lia)) as Hends.
  pose proof (safe_iterate sha256Bytes localeLe runId sessionId deps config startedAt numberText
    (S (Z.to_nat (maxSteps config))) _ (fresh_headed task signalAborted p w' Hp)) as Hsafe.
  destruct (iterate _ _ _ _ _ _ _ _ _ _) as [answer st]. destruct answer as [outcome|e|]; [|done..].
  intros attribution eventId. destruct Hsafe as [Hterm [Hv Hs]]. unfold publish, stamp. rewrite (Hv attribution), Hs.
  exists {| re_event_id := eventId; re_seq := seq (publisher st) + 1; re_draft := lo_terminalEvent outcome |}.
  eexists. split; [reflexivity|]. etransitivity; [exact (posted_terminal {| re_event_id := eventId;
    re_seq := seq (publisher st) + 1; re_draft := lo_terminalEvent outcome |} (publisher st))|]. by cbn; rewrite Hterm.
Qed.

(** ** Stops the publisher does not take *)

(** A statement that publishes, and one that ends the run. *)
Definition Silent {A} (m : @Loop W Continuation A) : Prop :=
  forall st, wp m (fun _ _ => True) (fun _ _ => False) (fun _ => True) st.
Definition Stops {A} (terminals : AgentTerminal -> Prop) (m : @Loop W Continuation A) : Prop :=
  forall st, wp m (fun _ _ => False) (fun o _ => terminals (lo_terminal o)) (fun _ => True) st.

Lemma silent_publishing draft : Silent (publishing sha256Bytes localeLe runId sessionId deps draft).
Proof.
  intros st. unfold wp, publishing. destruct (d_write _ _ _) as [answer w]. destruct (publish _ _ _ _ _ _ _ _ _ _) as [published p].
  by destruct published.
Qed.
Lemma silent_publishDraft draft : Silent (publishDraft sha256Bytes localeLe runId sessionId deps draft).
Proof.
  intros st. apply wp_bind. eapply wp_mono; [apply silent_publishing|]. intros event st' _.
  apply wp_bind, wp_await. intros w r. by apply wp_ret.
Qed.
Lemma silent_aggregate : Silent (publishAggregateUsage sha256Bytes localeLe runId sessionId deps).
Proof.
  intros st. unfold publishAggregateUsage. apply wp_bind, wp_gets. destruct (_ || _); [by apply wp_ret|].
  apply wp_bind. eapply wp_mono; [apply silent_publishDraft|]. intros event st' _. by apply wp_update.
Qed.

(** What ends a run after its usage has been published. *)
Lemma stops_after_aggregate {A} (terminals : AgentTerminal -> Prop) (m : @Loop W Continuation A) :
  Stops terminals m -> Stops terminals (_ ← publishAggregateUsage sha256Bytes localeLe runId sessionId deps; m).
Proof.
  intros Hm st. apply wp_bind. eapply wp_weaken; [apply silent_aggregate|intros [] st' _; apply Hm|done|done].
Qed.
Lemma stops_publishBudget {A} exceeded : Stops (fun t => t = terminal_budget_exceeded (bx_reason exceeded))
  (publishBudget sha256Bytes localeLe runId sessionId deps startedAt exceeded : Loop A).
Proof.
  apply stops_after_aggregate. intros st. apply wp_bind, wp_budgetSnapshot. intros e w. apply wp_bind, wp_gets. by apply wp_returns.
Qed.
Lemma stops_publishCancelled {A} : Stops (fun t => t = terminal_cancelled \/ t = terminal_failed 1)
  (publishCancelled sha256Bytes localeLe runId sessionId deps startedAt : Loop A).
Proof.
  apply stops_after_aggregate. intros st. apply wp_bind, wp_budgetSnapshot. intros e w. apply wp_bind, wp_gets.
  destruct (d_hostEmergency _ _); apply wp_returns; auto.
Qed.
Lemma stops_internalFailure {A} code message retryable : Stops (fun t => t = terminal_failed 1)
  (publishInternalFailure sha256Bytes localeLe runId sessionId deps startedAt code message retryable : Loop A).
Proof.
  apply stops_after_aggregate. intros st. apply wp_bind, wp_budgetSnapshot. intros e w. apply wp_bind, wp_gets. by apply wp_returns.
Qed.
Lemma stops_publishIncomplete {A} reason control : Stops (fun t => t = terminal_incomplete reason)
  (publishIncomplete sha256Bytes localeLe runId sessionId deps config startedAt reason control : Loop A).
Proof.
  apply stops_after_aggregate. intros st. apply wp_bind, wp_budgetSnapshot. intros e w. apply wp_bind, wp_gets. by apply wp_returns.
Qed.

(** An abort ends the run, or it goes on as it was. *)
Lemma wp_returnWhenAborted (R : AgentLoopOutcome -> State -> Prop) (Q : () -> State -> Prop) st :
  (forall o st', lo_terminal o ∈ [terminal_cancelled; terminal_failed 1; terminal_budget_exceeded max_duration] -> R o st') ->
  Q () st -> wp (returnWhenAborted sha256Bytes localeLe runId sessionId deps config startedAt) Q R (fun _ => True) st.
Proof.
  intros HR HQ. unfold returnWhenAborted. apply wp_bind, wp_gets. destruct (runAbortReason st) as [[]|]; [| |by apply wp_ret].
  - apply wp_bind, wp_elapsedMs. intros e w. eapply wp_weaken; [apply stops_publishBudget|done| |done].
    intros o st' Ho. apply HR. rewrite Ho. set_solver.
  - eapply wp_weaken; [apply stops_publishCancelled|done| |done]. intros o st' Ho. apply HR. set_solver.
Qed.

Lemma wp_stops {A} terminals (m : @Loop W Continuation A) (R : AgentLoopOutcome -> State -> Prop) (Q : A -> State -> Prop) st :
  Stops terminals m -> (forall o st', terminals (lo_terminal o) -> R o st') -> wp m Q R (fun _ => True) st.
Proof. intros Hm HR. eapply wp_weaken; [apply Hm|done|exact HR|done]. Qed.

Lemma wp_silent {A} (m : @Loop W Continuation A) (R R' : AgentLoopOutcome -> State -> Prop) (E : LoopError -> Prop)
    (Q : A -> State -> Prop) st : Silent m -> wp m Q R' E st -> wp m Q R (fun _ => True) st.
Proof. intros Hm. specialize (Hm st). unfold wp in *. by destruct (m st) as [[] ?]. Qed.
Lemma silent_boundary continuation pendingCall turn : Silent (persistTurnBoundary deps continuation pendingCall turn).
Proof.
  intros st. unfold persistTurnBoundary. destruct (d_persistTurnBoundary deps); [|by apply wp_ret].
  apply wp_bind, wp_gets, wp_bind, wp_outside. intros ok w _. apply wp_bind, wp_await. intros w' r.
  destruct ok; [by apply wp_ret|by apply wp_throws].
Qed.

(** The loop answers the third of three identical calls of run_command or finish_task with the
    error repeated_call_blocked, which the publisher refuses for want of the evidence
    that only an executed call has: such a run never ends as budget_exceeded with
    repeated_tool_call, but by an exception. *)
Theorem blocked_command_is_refused step continuation response call st :
  called sha256Bytes localeLe runId sessionId deps config (usages st) (aggregateUsagePublished st)
    (bt_steps (budget st)) (mtc_callId call) (publisher st) ->
  step = Z.of_nat (length (usages st)) ->
  mtc_name call = "run_command"%string \/ mtc_name call = "finish_task"%string ->
  ro_blocked (observe sha256Bytes localeLe numberText (mtc_name call) (mtc_argumentsJson call) (repetition st)).1 = true ->
  match toolTurn sha256Bytes localeLe numberText runId sessionId deps config startedAt step continuation response call st with
  | (Next _, _) => False
  | (Return outcome, _) => lo_terminal outcome <> terminal_budget_exceeded repeated_tool_call
  | (Throw _, _) => True
  end.
Proof.
  intros Hst Hstep Hname Hblocked.
  change (wp (toolTurn sha256Bytes localeLe numberText runId sessionId deps config startedAt step continuation response call)
    (fun _ _ => False) (fun o _ => lo_terminal o <> terminal_budget_exceeded repeated_tool_call) (fun _ => True) st).
  unfold toolTurn. apply wp_bind, wp_returnWhenAborted; [intros o st' Ho E; rewrite E in Ho; set_solver|].
  apply wp_bind, wp_budgetSnapshot. intros e w. apply wp_bind, wp_unless.
  2:{ intros exceeded Hx. eapply wp_stops; [apply stops_publishBudget|]. intros o st' Ho E. rewrite Ho in E.
      injection E as E. apply firstReached_reason in Hx. rewrite E in Hx. cbn in Hx. set_solver. }
  intros _. apply wp_bind, wp_gets. cbn [repetition]. destruct (observe _ _ _ _ _ _) as [repeated detector] eqn:Eo.
  apply wp_bind, wp_update, wp_bind. cbn in Hblocked.
  eapply wp_silent; [apply silent_publishDraft|]. eapply (safe_request sha256Bytes localeLe runId sessionId deps config); [exact Hst|exact Hstep|].
  intros event st1 H1 Hu1 E1. apply wp_bind.
  eapply wp_silent; [apply silent_boundary|].
  eapply wp_mono with (P := fun _ st' => calling sha256Bytes localeLe runId sessionId deps config (usages st')
      (aggregateUsagePublished st') (bt_steps (budget st')) (mtc_callId call) (mtc_name call) (publisher st') /\
    untouched (publisher st') (mtc_callId call) /\ usages st' = usages st1); [by apply (safe_persistTurnBoundary sha256Bytes localeLe runId sessionId deps)|].
  intros _ st2 (H2 & Hu2 & E2). rewrite Hblocked.
  apply wp_bind. eapply wp_silent; [apply silent_publishDraft|]. eapply (blocked_refused sha256Bytes localeLe runId sessionId deps config); [done..|rewrite E2, E1; exact Hstep|done].
Qed.

Definition noCompletedStep : PublishError := TransitionRefused "agent completion does not match completed step evidence".

(** A run without a step cannot complete. *)
Lemma unstepped_completion mode evidence report text duration steps p attribution :
  Fit p -> agentSteps p = [] ->
  validateTransition sha256Bytes localeLe runId sessionId attribution
    (lo_terminalEvent (completedOutcome mode evidence report text duration steps p)) p = Err noCompletedStep.
Proof.
  intros [_ Hs Ho Hc (b & Hb & _) _ _ _] Hsteps. unfold validateTransition. rewrite Hs, Ho, Hc, Hb. cbn.
  unfold validateRunCompleted, finalStep. by rewrite Hsteps.
Qed.

Lemma inherited_completion callId evidence report reportJson reportText Q st :
  Fit (publisher st) -> agentSteps (publisher st) = [] -> usages st = [] ->
  wp (acceptedFinish sha256Bytes localeLe runId sessionId deps config startedAt true callId evidence report reportJson reportText)
    Q (fun o st' => lo_terminal o = terminal_completed -> forall attribution,
         validateTransition sha256Bytes localeLe runId sessionId attribution (lo_terminalEvent o) (publisher st') =
           Err noCompletedStep) (fun _ => True) st.
Proof.
  intros Hf Hs Hus. unfold acceptedFinish. apply wp_bind. unfold publishAggregateUsage. apply wp_bind, wp_gets. cbn [id].
  rewrite Hus. rewrite orb_true_r. apply wp_ret, wp_bind.
  eapply wp_mono with (P := fun _ st' => publisher st' = publisher st).
  { unfold beforeVerifiedRunCompleted. destruct (d_beforeVerifiedRunCompleted deps); [|by apply wp_ret].
    apply wp_bind, wp_outside. intros ok w _. apply wp_bind, wp_await. intros w' r. destruct ok; [by apply wp_ret|by apply wp_throws]. }
  intros _ st' E. apply wp_bind, wp_elapsedMs. intros duration w. apply wp_bind, wp_ret, wp_bind, wp_gets, wp_returns.
  intros _ attribution. apply unstepped_completion; cbn; by rewrite E.
Qed.

(** A resumed run whose inherited finish_task is accepted never completes: the loop reports
    the terminal of the run before its first step, with no step and no usage
    of its own, and the publisher refuses it. *)
Theorem resumed_finish_never_completes callId continuation execution st :
  Fit (publisher st) -> agentSteps (publisher st) = [] -> usages st = [] ->
  match settleCall sha256Bytes localeLe runId sessionId deps config startedAt true callId "finish_task" continuation
          execution st with
  | (Return outcome, st') => lo_terminal outcome = terminal_completed -> forall attribution,
      validateTransition sha256Bytes localeLe runId sessionId attribution (lo_terminalEvent outcome) (publisher st') =
        Err noCompletedStep
  | _ => True
  end.
Proof.
  intros Hf Hs Hus. set (R := fun (o : AgentLoopOutcome) (st' : State) => lo_terminal o = terminal_completed -> forall attribution,
      validateTransition sha256Bytes localeLe runId sessionId attribution (lo_terminalEvent o) (publisher st') =
        Err noCompletedStep).
  enough (H : wp (settleCall sha256Bytes localeLe runId sessionId deps config startedAt true callId "finish_task" continuation
          execution) (fun _ _ => True) R (fun _ => True) st).
  { unfold wp in H. by destruct (settleCall _ _ _ _ _ _ _ _ _ _ _ _ st) as [[] ?]. }
  unfold settleCall. apply wp_bind, wp_returnWhenAborted; [intros o st' Ho E; rewrite E in Ho; set_solver|].
  assert (Hinternal : forall A code message retryable (Q' : A -> State -> Prop), wp (publishInternalFailure sha256Bytes localeLe
    runId sessionId deps startedAt code message retryable) Q' R (fun _ => True) st).
  { intros. eapply wp_stops; [apply stops_internalFailure|]. intros o st' Ho E. by rewrite E in Ho. }
  assert (Hincomplete : forall A reason control (Q' : A -> State -> Prop), wp (publishIncomplete sha256Bytes localeLe
    runId sessionId deps config startedAt reason control) Q' R (fun _ => True) st).
  { intros. eapply wp_stops; [apply stops_publishIncomplete|]. intros o st' Ho E. by rewrite E in Ho. }
  assert (Herror : forall category code message retryable, wp (match tx_error execution with
      | Some error => if te_category error === category then publishInternalFailure sha256Bytes localeLe
          runId sessionId deps startedAt (code error) (message error) (retryable error) else mret ()
      | None => mret () end) (fun _ st' => st' = st) R (fun _ => True) st).
  { intros. destruct (tx_error execution) as [error|]; [|by apply wp_ret]. destruct (_ === _); [apply Hinternal|by apply wp_ret]. }
  apply wp_bind. eapply wp_mono with (P := fun _ st' => st' = st).
  { destruct (tx_control execution) as [[]|]; try by apply wp_ret. destruct (_ || _); [apply Hinternal|apply Hincomplete]. }
  intros _ st' ->. apply wp_bind. eapply wp_mono; [apply (Herror error_system te_code te_message te_retryable)|].
  intros _ st' ->. apply wp_bind. eapply wp_mono with (P := fun _ st' => st' = st).
  { destruct (tx_control execution) as [[evidence report reportJson reportText| |signal|]|]; [|by apply wp_ret|apply Hincomplete|by apply wp_ret|apply Hinternal].
    apply (inherited_completion callId evidence report reportJson reportText (fun _ st' => st' = st) st Hf Hs Hus). }
  intros _ st' ->. apply wp_bind. eapply wp_mono; [apply (Herror error_cancelled (fun _ => _) (fun _ => _) (fun _ => _))|].
  intros _ st' ->. apply wp_bind, wp_update, wp_bind, wp_budgetSnapshot. intros e w. apply wp_bind, wp_unless.
  - intros _. by apply wp_update.
  - intros exceeded _. eapply wp_stops; [apply stops_publishBudget|]. intros o st' Ho E. by rewrite E in Ho.
Qed.
End Runs.

(** ** Runs of the loop

    Concrete model turns, tools and logs on which the theorems of
    [AgentLoopProperties.v] are instantiated: a run that reads a file and answers,
    one that repeats a denied command, and one that resumes in an accepted
    finish. *)

Module SampleLoop.
(** The world is the turns the model has left. *)
Definition World : Type := list (ModelStream ()).

Definition usage : CompleteModelUsage := {|
  cmu_cacheReadTokens := None; cmu_cacheWriteTokens := None; cmu_inputTokens := 10; cmu_outputTokens := 5; cmu_totalTokens := 15 |}.
Definition callTurn (callId name arguments : string) : ModelStream () :=
  stream_signal [] (text_delta (js "working")) (stream_signal [] (tool_call_delta (quoted arguments) callId name)
    (stream_signal [] (turn_usage (complete_usage usage)) (stream_signal [] (turn_completed () turn_tool_calls None) (stream_end [])))).
Definition textTurn : ModelStream () :=
  stream_signal [] (text_delta (js "done")) (stream_signal [] (turn_usage (complete_usage usage))
    (stream_signal [] (turn_completed () turn_text None) (stream_end []))).

Definition written : WriteAnswer := {| wa_attribution := None; wa_eventId := "event"; wa_written := true; wa_rendered := true |}.
Definition fileRead : ToolExecution := {| tx_error := None; tx_control := None; tx_output := js "text"; tx_truncated := false |}.

(** The tools: one that reads, everything else by [execute]. *)
Definition deps (execute : ToolInvocation -> bool -> EventPublisher -> World -> ToolAnswer * EventPublisher * World)
  : LoopDeps World () := {|
  d_now := fun w => (0%Q, w); d_fired := fun w => ([], w); d_write := fun _ w => (written, w);
  d_persist := fun w => (writer_durable "event", w);
  d_runTurn := fun _ w => match w with turn :: w => (turn, w) | [] => (stream_end [], []) end;
  d_provider := "p"; d_usage := usage_complete; d_prepare := None;
  d_execute := fun invocation stop p w =>
    if tinv_name invocation === "read_file"%string then (tool_returned fileRead, p, w) else execute invocation stop p w;
  d_createIncomplete := None; d_persistTurnBoundary := None; d_beforeVerifiedRunCompleted := None;
  d_hostEmergency := fun _ => false; d_agentMode := None; d_taskState := None; d_secrets := []; d_initialInput := None;
  d_inheritedCall := None |}.
Definition config (profile : TaskProfile) : AgentLoopConfig := {|
  maxDurationMs := 60000; maxSteps := 8; maxTokens := 100000; maxToolOutputBytes := 100000; requestTimeoutMs := 1000;
  reportFormatJson := false; AgentLoop.profile := Some profile |}.

(** A run of [command] that has selected its backend. *)
Definition started (profile : TaskProfile) : EventPublisher := SampleRun.publishAll [
  ev_run_started {| rst_command := command_agent; rst_model := "m"; rst_provider := "p"; rst_resume_mode := None;
                    rst_resume_of_run_id := None; rst_task_profile := Some profile |};
  ev_backend_selected SampleRun.sampleBackend]
  initialPublisher.
Notation run execute profile turns := (runAgentLoop standInHash jstring_le id "run" "session" (deps execute) (config profile)
  0%Q (js "task") false (started profile) turns).

(** Every other tool throws. *)
Definition unknownTool (invocation : ToolInvocation) (stop : bool) (p : EventPublisher) (w : World)
  : ToolAnswer * EventPublisher * World := (tool_threw tool_exception, p, w).
(** Commands are denied by the policy. *)
Definition deniedTool (invocation : ToolInvocation) (stop : bool) (p : EventPublisher) (w : World)
  : ToolAnswer * EventPublisher * World :=
  (tool_returned (failedExecution {| te_category := error_permission; te_code := "permission_denied"; te_message := js "denied";
                                     te_retryable := false |}),
   SampleRun.publishOne (ev_permission_evaluated {| pev_action_sha256 := "act"; pev_call_id := tinv_callId invocation;
     pev_effect := deny_effect; pev_reason_code := Some "hard_deny"%string; pev_step := tinv_step invocation |}) p, w).

Definition threeCommands : World := [callTurn "c1" "run_command" "{}"; callTurn "c2" "run_command" "{}"; callTurn "c3" "run_command" "{}"].
End SampleLoop.
Import SampleLoop.


(** The file is read and the run completes with the answer. *)
Example file_run_completes :
  (run unknownTool profile_read_only [callTurn "c1" "read_file" "{}"; textTurn]).1 =
    LoopReturned (completedOutcome mode_model_final None None None 0 2
      (run unknownTool profile_read_only [callTurn "c1" "read_file" "{}"; textTurn]).2.(publisher)).
Proof. vm_compute. reflexivity. Qed.

(** The third identical command ends the run by an exception, not as
    [budget_exceeded]. *)
Example blocked_command_throws :
  (run deniedTool profile_read_only threeCommands).1 = LoopThrew (publish_error (TransitionRefused needsPermission)).
Proof. vm_compute. reflexivity. Qed.

(** ** The hypotheses hold of these runs *)

Notation reads := (deps unknownTool).

Lemma started_fresh profile : freshRun standInHash jstring_le "run" "session" reads (config profile) (started profile).
Proof.
  split; [split|destruct profile; reflexivity..].
  - apply SampleRun.publishAll_reachable. apply rtc_refl.
  - by destruct profile.
  - by destruct profile.
  - by destruct profile.
  - exists SampleRun.sampleBackend. by destruct profile.
  - by destruct profile.
  - by destruct profile.
  - by destruct profile.
Qed.

Lemma reads_execute invocation stop p w answer p' w' :
  d_execute reads invocation stop p w = (answer, p', w') ->
  p' = p /\ (tinv_name invocation = "read_file"%string /\ answer = tool_returned fileRead \/ answer = tool_threw tool_exception).
Proof. cbn. case_bool_decide; intros [= <- <- <-]; auto. Qed.

(** The file that was read is the result of its call. *)
Lemma reads_result p callId step :
  pendingCall p callId "read_file" step = true -> untouched p callId ->
  validateToolCallCompleted (toolCompletedData callId "read_file" fileRead step) p = Ok ().
Proof.
  intros (call & Hc & Hn & Hchk)%pending_checks (_ & _ & _ & Hrec). unfold validateToolCallCompleted.
  cbn [tcc_call_id tcc_tool_name tcc_step toolCompletedData]. by rewrite Hc, Hrec, Hchk, Hn.
Qed.

#[export] Instance reads_contract profile : ToolContract standInHash jstring_le "run" "session" reads (config profile).
Proof.
  split.
  - intros * [-> _]%reads_execute. apply rtc_refl.
  - by intros * [-> _]%reads_execute.
  - intros invocation * [-> Hx]%reads_execute Hend _ Hp Hu. destruct Hx as [[Hn ->]| ->]; [|by destruct Hend as [Hend|[Hend _]]].
    destruct Hend as [Hend|[Hend _]]; [injection Hend as <-|done]. left. rewrite Hn in *. by apply reads_result.
  - intros * [-> Hx]%reads_execute Hc. destruct Hx as [[_ Hx]|Hx]; [injection Hx as ->|]; done.
  - intros * [-> Hx]%reads_execute Hc. destruct Hx as [[_ Hx]|Hx]; [injection Hx as ->|]; done.
  - done.
Qed.

Lemma loop_keeps_protocol_witness : exists outcome st,
  run unknownTool profile_read_only [callTurn "c1" "read_file" "{}"; textTurn] = (LoopReturned outcome, st) /\
  exists event p', publish standInHash jstring_le "run" "session" None "last" true true (lo_terminalEvent outcome) (publisher st)
    = (Ok event, p') /\ terminal p' = true.
Proof.
  pose proof (loop_keeps_protocol standInHash jstring_le id "run" "session" reads (config profile_read_only) 0%Q (js "task") false
    (started profile_read_only) [callTurn "c1" "read_file" "{}"; textTurn] (started_fresh _) eq_refl) as H.
  pose proof file_run_completes as Hrun.
  destruct (run unknownTool profile_read_only [callTurn "c1" "read_file" "{}"; textTurn]) as [answer st].
  cbn in Hrun. subst answer. eexists _, st. split; [reflexivity|]. exact (H None "last"%string).
Defined.

(** The step has asked for the command a third time. *)
Definition thirdAsked : EventPublisher := SampleRun.publishAll [
  ev_agent_step_started {| ass_input_kind := input_user_task; ass_step := 1 |};
  ev_model_usage (CompleteUsage 1 "p" None 10 5 15);
  ev_agent_step_completed {| asc_outcome := outcome_tool_call; asc_step := 1; asc_text_chars := 0; asc_tool_call_id := Some "c3"%string |}]
  (started profile_read_only).
Definition commandCall : ModelToolCall := {| mtc_argumentsJson := js "{}"; mtc_callId := "c3"; mtc_name := "run_command" |}.
Definition thirdState : LoopState World () := {|
  publisher := thirdAsked; world := []; budget := {| bt_steps := 1; bt_toolOutputBytes := 0; bt_totalTokens := 15 |};
  repetition := observed standInHash jstring_le id [commandCall; commandCall]; usages := [usage]; runAbortReason := None;
  aggregateUsagePublished := false; pendingInput := user_prompt []; firstInputKind := input_user_task |}.

Lemma thirdAsked_fit : Fit standInHash jstring_le "run" "session" reads (config profile_read_only) thirdAsked.
Proof.
  split; [|try reflexivity..].
  - apply SampleRun.publishAll_reachable, SampleRun.publishAll_reachable, rtc_refl.
  - exists SampleRun.sampleBackend. done.
Qed.

Lemma thirdAsked_called : called standInHash jstring_le "run" "session" reads (config profile_read_only)
  [usage] false 1 "c3" thirdAsked.
Proof.
  split; [split; [|done..]|done| |].
  - split; [exact thirdAsked_fit|done|]. split; [done|]. constructor; [|constructor]. by exists 1.
  - intros c call. by vm_compute.
  - eexists. by vm_compute.
Qed.

Lemma blocked_command_is_refused_witness :
  match toolTurn standInHash jstring_le id "run" "session" reads (config profile_read_only) 0%Q 1 () None commandCall thirdState with
  | (Next _, _) => False
  | (Return outcome, _) => lo_terminal outcome <> terminal_budget_exceeded repeated_tool_call
  | (Throw _, _) => True
  end.
Proof.
  apply (blocked_command_is_refused standInHash jstring_le id "run" "session" reads (config profile_read_only)).
  - exact thirdAsked_called.
  - reflexivity.
  - by left.
  - vm_compute. reflexivity.
Defined.

(** The inherited finish was accepted; the run itself has no step. *)
Definition acceptedFinishOf : ToolExecution := {|
  tx_error := None; tx_control := Some (control_accept "e" "r" (js "{}") (js "done")); tx_output := js "accepted";
  tx_truncated := false |}.
Notation resumed := (settleCall standInHash jstring_le "run" "session" reads (config profile_coding) 0%Q true "c1" "finish_task" ()
  acceptedFinishOf (initialState reads (js "task") false (started profile_coding) [])).
Lemma resumed_finish_never_completes_witness : exists outcome st,
  resumed = (Return outcome, st) /\ lo_terminal outcome = terminal_completed /\
  validateTransition standInHash jstring_le "run" "session" None (lo_terminalEvent outcome) (publisher st) = Err noCompletedStep.
Proof.
  pose proof (resumed_finish_never_completes standInHash jstring_le "run" "session" reads (config profile_coding) 0%Q "c1" ()
    acceptedFinishOf (initialState reads (js "task") false (started profile_coding) [])
    (fr_fit _ _ _ _ _ _ _ (started_fresh profile_coding)) eq_refl eq_refl) as H.
  destruct resumed as [answer st] eqn:E. vm_compute in E. injection E as <- <-.
  eexists _, _. split; [reflexivity|]. split; [reflexivity|]. exact (H eq_refl None).
Defined.
