(* ===== verification/RunTerminator.v ===== *)
(** * The end of a run

    [src/agent/run-terminator.ts]: the owner of the terminal publication, as the
    segments of its asynchronous method between two awaits, interleaved with
    everything else that happens to the publisher; the classification of what
    escapes the loop; and the end of the command in
    [agent-execution-service.ts], from the loop's answer to the exit code. *)

From S2P Require Import Prelude JsString CanonicalJson Domain Events TaskState Patch SourceSnapshot Completion Verification JsonParse RunEvents EventPublisher EventPublisherFacts ToolErrors AgentLoop.
From Stdlib Require Import QArith.
#[local] Open Scope Z_scope.

(** ** The terminator *)

Inductive RunTerminationState : Type := terminator_open | publishing_terminal | terminal_published | persistence_failed.
#[export] Instance RunTerminationState_eq : EqDecision RunTerminationState.
Proof. solve_decision. Defined.

(** Where a call of [terminate] waits: for the hook, or for the publisher. *)
Inductive Stage : Type := before_terminal | publication.

(** [currentState], [skipBeforeTerminalOnce], and the call that is waiting. *)
Record RunTerminator : Type := {
  currentState : RunTerminationState;
  skipBeforeTerminalOnce : bool;
  waiting : option (Stage * RunEventDraft) }.
#[export] Instance RunTerminator_eta : Eta RunTerminator := fun r =>
  Build_RunTerminator (currentState r) (skipBeforeTerminalOnce r) (waiting r).

Definition newTerminator : RunTerminator :=
  {| currentState := terminator_open; skipBeforeTerminalOnce := false; waiting := None |}.

Definition markPersistenceFailed (t : RunTerminator) : RunTerminator :=
  if currentState t === terminal_published then t else t <| currentState := persistence_failed |>.

(** [terminate] up to its first await, or the state that refuses the call. *)
Definition terminate (event : RunEventDraft) (t : RunTerminator) : option RunTerminationState * RunTerminator :=
  if currentState t !== terminator_open then (Some (currentState t), t)
  else if skipBeforeTerminalOnce t then
    (None, {| currentState := publishing_terminal; skipBeforeTerminalOnce := false; waiting := Some (publication, event) |})
  else
    (None, t <| currentState := publishing_terminal |> <| waiting := Some (before_terminal, event) |>).

(** The hook has returned, or thrown. *)
Definition hookSettled (failed : bool) (t : RunTerminator) : RunTerminator :=
  match waiting t with
  | Some (before_terminal, event) =>
      if failed then {| currentState := terminator_open; skipBeforeTerminalOnce := true; waiting := None |}
      else t <| waiting := Some (publication, event) |>
  | _ => t
  end.

Section Terminator.
Context (sha256Bytes : list Z -> string) (localeLe : jstring -> jstring -> bool) (runId sessionId : string).
Notation reachable := (publisher_reachable sha256Bytes localeLe runId sessionId).
Notation pstep := (publisher_step sha256Bytes localeLe runId sessionId).

(** The publication has settled, with the log's answer. *)
Definition publicationSettled (answer : WriteAnswer) (t : RunTerminator) (p : EventPublisher)
  : result PublishError () * RunTerminator * EventPublisher :=
  match waiting t with
  | Some (publication, event) =>
      let '(published, p) := publish sha256Bytes localeLe runId sessionId (wa_attribution answer) (wa_eventId answer)
                               (wa_written answer) (wa_rendered answer) event p in
      match published with
      | Ok _ => (Ok (), t <| currentState := terminal_published |> <| waiting := None |>, p)
      | Err e =>
          let state :=
            if terminal p then terminal_published
            else match e with EventPersistenceError => persistence_failed | _ => terminator_open end in
          (Err e, t <| currentState := state |> <| waiting := None |>, p)
      end
  | _ => (Ok (), t, p)
  end.

(** What can happen between two turns of the event loop. *)
Inductive terminator_step : RunTerminator * EventPublisher -> RunTerminator * EventPublisher -> Prop :=
| step_terminate event t p : isTerminalRunEvent event = true ->
    terminator_step (t, p) ((terminate event t).2, p)
| step_hook failed t p : terminator_step (t, p) (hookSettled failed t, p)
| step_publication answer t p :
    terminator_step (t, p) ((publicationSettled answer t p).1.2, (publicationSettled answer t p).2)
| step_mark t p : terminator_step (t, p) (markPersistenceFailed t, p)
| step_other t p p' : pstep p p' -> terminator_step (t, p) (t, p').

(** ** What escapes the loop *)

Inductive RunError : Type :=
| run_persistence_error
| run_fatal_tool (kind : FatalToolKind) (workspaceMayHaveChanged : bool)
| run_hook_error
| run_mcp_error
| run_memory_error
| run_exception.

Inductive RunExecutionErrorClassification : Type :=
| class_persistence
| class_storage (workspaceMayHaveChanged : bool)
| class_host_surface_fatal
| class_user_cancelled
| class_ambiguous_effect (effect : FatalToolKind)
| class_hook | class_mcp | class_memory_disclosure | class_internal.

Definition classifyRunExecutionError (error : RunError) (hostSurfaceFatal wasUserCancelled : bool)
  : RunExecutionErrorClassification :=
  let other :=
    match error with
    | run_hook_error => class_hook
    | run_mcp_error => class_mcp
    | run_memory_error => class_memory_disclosure
    | _ => if wasUserCancelled then class_user_cancelled else class_internal
    end in
  match error with
  | run_persistence_error => class_persistence
  | run_fatal_tool fatal_storage changed => class_storage changed
  | _ =>
      if hostSurfaceFatal then class_host_surface_fatal
      else match error with
           | run_fatal_tool fatal_user_cancelled _ => class_user_cancelled
           | run_fatal_tool kind _ => class_ambiguous_effect kind
           | _ => other
           end
  end.

(** ** From the loop's answer to the exit code *)

(** One use of the terminator: what its hook throws, if it runs and does, and the
    log's answer. *)
Record TerminateInputs : Type := { ti_hook : option RunError; ti_answer : WriteAnswer }.

Inductive TerminateError : Type :=
| terminate_unavailable (state : RunTerminationState)
| terminate_hook (error : RunError)
| terminate_publish (error : PublishError).

(** [await terminator.terminate(...)] with nothing in between. *)
Definition terminateNow (inputs : TerminateInputs) (event : RunEventDraft) (t : RunTerminator) (p : EventPublisher)
  : result TerminateError () * RunTerminator * EventPublisher :=
  match terminate event t with
  | (Some state, t) => (Err (terminate_unavailable state), t, p)
  | (None, t) =>
      match waiting t, ti_hook inputs with
      | Some (before_terminal, _), Some error => (Err (terminate_hook error), hookSettled true t, p)
      | _, _ =>
          let '(answer, t, p) := publicationSettled (ti_answer inputs) (hookSettled false t) p in
          (match answer with Ok _ => Ok () | Err e => Err (terminate_publish e) end, t, p)
      end
  end.

(** What the command observes while it ends. *)
Record EndInputs : Type := {
  ei_first : TerminateInputs; ei_fallback : TerminateInputs;
  ei_hostSurfaceFatal : bool; ei_wasUserCancelled : bool; ei_steps : Z;
  ei_runtimeClosed : bool; ei_reportProjected : bool; ei_writerClosed : bool }.

(** The payloads of the terminals that stand for an error. *)
Definition fallbackStopped (inputs : EndInputs) (p : EventPublisher) : RunStoppedPayload := {|
  rsp_output_chars := Some (outputChars p); rsp_steps := Some (ei_steps inputs);
  rsp_tool_calls := Some (completedToolCalls p) |}.
Definition fallbackIncomplete (inputs : EndInputs) (p : EventPublisher) : RunIncompletePayload := {|
  rip_evidence_sha256 := None; rip_output_chars := outputChars p; rip_reason := task_blocked;
  rip_report_sha256 := None; rip_steps := ei_steps inputs; rip_tool_calls := completedToolCalls p |}.

(** [publishFallback]: whether the terminal was published. *)
Definition publishFallback (inputs : EndInputs) (event : RunEventDraft) (t : RunTerminator) (p : EventPublisher)
  : bool * EventPublisher :=
  let '(answer, _, p) := terminateNow (ei_fallback inputs) event t p in
  (match answer with Ok _ => true | Err _ => false end, p).

(** The body of the [catch]. *)
Definition endWithError (inputs : EndInputs) (error : RunError) (t : RunTerminator) (p : EventPublisher)
  : Z * EventPublisher :=
  let failed := ev_run_failed (fallbackStopped inputs p) in
  match classifyRunExecutionError error (ei_hostSurfaceFatal inputs) (ei_wasUserCancelled inputs) with
  | class_persistence | class_storage _ => (1, p)
  | class_user_cancelled =>
      let '(published, p) := publishFallback inputs (ev_run_cancelled (fallbackStopped inputs p)) t p in
      (if published then 130 else 1, p)
  | class_hook =>
      let '(published, p) := publishFallback inputs (ev_run_incomplete (fallbackIncomplete inputs p)) t p in
      (if published then 8 else 1, p)
  | class_host_surface_fatal | class_ambiguous_effect _ | class_mcp | class_memory_disclosure | class_internal =>
      (1, (publishFallback inputs failed t p).2)
  end.

Definition runErrorOf (e : TerminateError) : RunError :=
  match e with
  | terminate_hook error => error
  | terminate_publish EventPersistenceError => run_persistence_error
  | _ => run_exception
  end.

(** The loop returned an outcome, or an error escaped it or the set-up before. *)
Definition endOfRun (inputs : EndInputs) (answer : AgentLoopOutcome + RunError) (p : EventPublisher)
  : Z * EventPublisher :=
  let '(exitCode, p) :=
    match answer with
    | inl outcome =>
        match terminateNow (ei_first inputs) (lo_terminalEvent outcome) newTerminator p with
        | (Ok _, _, p) => (terminalExitCode (lo_terminal outcome), p)
        | (Err e, t, p) => endWithError inputs (runErrorOf e) t p
        end
    | inr error => endWithError inputs error newTerminator p
    end in
  (if ei_runtimeClosed inputs && ei_reportProjected inputs && ei_writerClosed inputs then exitCode else 1, p).
End Terminator.
