(* ===== verification/RunTerminatorProperties.v ===== *)
(** * The outcome of the loop and its terminal event

    Every outcome the agent loop returns has the terminal event of its kind; the
    invariant of the terminator. *)

From S2P Require Import Prelude JsString CanonicalJson Domain Events TaskState Schemas Patch SourceSnapshot Completion Verification JsonParse RunEvents EventPublisher EventPublisherFacts EventPublisherProperties ToolErrors AgentLoop AgentLoopFacts AgentLoopProtocol AgentLoopProperties RunTerminator.
From Stdlib Require Import QArith.
#[local] Open Scope Z_scope.

(** ** Outcomes *)

(** The exit code of the command is the one of the terminal event. *)
Definition exitCodeFits (code : Z) (event : RunEventDraft) : Prop :=
  match event with
  | ev_run_completed _ => code = 0
  | ev_run_failed _ => code ∈ [1; 4; 5; 6]
  | ev_run_budget_exceeded _ => code = 7
  | ev_run_incomplete _ => code = 8
  | ev_run_cancelled _ => code = 130
  | _ => False
  end.
Definition agrees (outcome : AgentLoopOutcome) : Prop :=
  exitCodeFits (terminalExitCode (lo_terminal outcome)) (lo_terminalEvent outcome).

Lemma fits_terminal code event : exitCodeFits code event -> isTerminalRunEvent event = true.
Proof. by destruct event. Qed.

Section Outcomes.
Context {W Continuation : Type}.
Notation State := (LoopState W Continuation).
Notation Loop := (@Loop W Continuation).

Definition Agrees {A} (m : Loop A) : Prop :=
  forall st, wp m (fun _ _ => True) (fun o _ => agrees o) (fun _ => True) st.

Lemma agrees_ret {A} (a : A) : Agrees (mret a).
Proof. done. Qed.
Lemma agrees_gets {A} (f : State -> A) : Agrees (gets f).
Proof. done. Qed.
Lemma agrees_update f : Agrees (update f).
Proof. done. Qed.
Lemma agrees_throws {A} e : Agrees (throws e : Loop A).
Proof. done. Qed.
Lemma agrees_returns {A} o : agrees o -> Agrees (returns o : Loop A).
Proof. by intros Ho st. Qed.
Lemma agrees_outside {A} (f : W -> A * W) : Agrees (outside f).
Proof. intros st. by apply wp_outside. Qed.
Lemma agrees_bind {A B} (m : Loop A) (f : A -> Loop B) : Agrees m -> (forall a, Agrees (f a)) -> Agrees (m ≫= f).
Proof. intros Hm Hf st. apply wp_bind. eapply wp_mono; [apply Hm|]. intros a st' _. apply Hf. Qed.
Lemma agrees_unless {A} (o : option A) f : (forall a, Agrees (f a)) -> Agrees (unless o f).
Proof. intros Hf. destruct o; [apply Hf|done]. Qed.
End Outcomes.
#[export] Hint Resolve agrees_ret agrees_gets agrees_update agrees_throws agrees_outside : loop_outcomes.

Ltac agreeing :=
  repeat (match goal with
          | |- Agrees (mbind _ _) => apply agrees_bind; [|intros ?]
          | |- Agrees (unless _ _) => apply agrees_unless; intros ?
          | |- Agrees (match ?x with _ => _ end) => destruct x
          | |- Agrees (let '(_, _) := ?x in _) => destruct x
          | |- Agrees (returns _) => apply agrees_returns; try done
          end || solve [auto with loop_outcomes]).

Section LoopOutcomes.
Context {W Continuation : Type}.
Notation State := (LoopState W Continuation).
Context (sha256Bytes : list Z -> string) (localeLe : jstring -> jstring -> bool)
  (numberText : jstring -> jstring) (runId sessionId : string).
Context (deps : LoopDeps W Continuation) (config : AgentLoopConfig) (startedAt : Q).

Lemma agrees_await : Agrees (await deps).
Proof. unfold await. agreeing. Qed.
Lemma agrees_awaitInTurn t fired : Agrees (awaitInTurn (W:=W) (Continuation:=Continuation) t fired).
Proof. intros st. by apply wp_awaitInTurn. Qed.
Lemma agrees_elapsedMs : Agrees (elapsedMs deps startedAt).
Proof. unfold elapsedMs. agreeing. Qed.
Hint Resolve agrees_await agrees_awaitInTurn agrees_elapsedMs : loop_outcomes.
Lemma agrees_budgetSnapshot : Agrees (budgetSnapshot deps startedAt).
Proof. unfold budgetSnapshot. agreeing. Qed.
Lemma agrees_publishing draft : Agrees (publishing sha256Bytes localeLe runId sessionId deps draft).
Proof.
  intros st. unfold wp, publishing. destruct (d_write _ _ _) as [answer w]. destruct (publish _ _ _ _ _ _ _ _ _ _) as [published p].
  by destruct published.
Qed.
Hint Resolve agrees_budgetSnapshot agrees_publishing : loop_outcomes.
Lemma agrees_publishDraft draft : Agrees (publishDraft sha256Bytes localeLe runId sessionId deps draft).
Proof. unfold publishDraft. agreeing. Qed.
Hint Resolve agrees_publishDraft : loop_outcomes.
Lemma agrees_publishAggregateUsage : Agrees (publishAggregateUsage sha256Bytes localeLe runId sessionId deps).
Proof. unfold publishAggregateUsage. agreeing. Qed.
Hint Resolve agrees_publishAggregateUsage : loop_outcomes.
Lemma agrees_failedWith {A} exitCode category code message retryable :
  exitCode ∈ [1; 4; 5; 6] -> Agrees (failedWith deps startedAt exitCode category code message retryable : Loop A).
Proof. intros. unfold failedWith. agreeing. Qed.
Lemma agrees_publishFailure {A} error : Agrees (publishFailure deps startedAt error : Loop A).
Proof.
  apply agrees_failedWith. unfold providerExitCode. repeat case_bool_decide; set_solver.
Qed.
Lemma agrees_publishInternalFailure {A} code message retryable :
  Agrees (publishInternalFailure sha256Bytes localeLe runId sessionId deps startedAt code message retryable : Loop A).
Proof. unfold publishInternalFailure. agreeing. apply agrees_failedWith. set_solver. Qed.
Lemma agrees_publishCancelled {A} :
  Agrees (publishCancelled sha256Bytes localeLe runId sessionId deps startedAt : Loop A).
Proof. unfold publishCancelled. agreeing. unfold agrees. cbn. set_solver. Qed.
Lemma agrees_publishBudget {A} exceeded :
  Agrees (publishBudget sha256Bytes localeLe runId sessionId deps startedAt exceeded : Loop A).
Proof. unfold publishBudget. agreeing. Qed.
Lemma agrees_publishIncomplete {A} reason control :
  Agrees (publishIncomplete sha256Bytes localeLe runId sessionId deps config startedAt reason control : Loop A).
Proof. unfold publishIncomplete. agreeing. Qed.
Hint Resolve agrees_publishFailure agrees_publishInternalFailure agrees_publishCancelled agrees_publishBudget
  agrees_publishIncomplete : loop_outcomes.
Lemma agrees_returnWhenAborted :
  Agrees (returnWhenAborted sha256Bytes localeLe runId sessionId deps config startedAt).
Proof. unfold returnWhenAborted. agreeing. Qed.
Hint Resolve agrees_returnWhenAborted : loop_outcomes.
Lemma agrees_consumeModelTurn stream timedOut turn :
  Agrees (consumeModelTurn sha256Bytes localeLe runId sessionId deps config stream timedOut turn).
Proof.
  revert timedOut turn. induction stream as [fired signal rest IH|fired|]; intros timedOut turn; cbn [consumeModelTurn]; agreeing.
Qed.
Lemma agrees_executeTool invocation : Agrees (executeTool deps invocation).
Proof.
  intros st. unfold wp, executeTool. destruct (d_execute _ _ _ _ _) as [[answer p] w].
  change (wp (_ ← await deps; mret answer) (fun _ _ => True) (fun o _ => agrees o) (fun _ => True)
            (st <| world := w |> <| publisher := p |>)).
  by apply wp_bind, wp_await.
Qed.
Hint Resolve agrees_consumeModelTurn agrees_executeTool : loop_outcomes.
Lemma agrees_settleCall inherited callId toolName continuation execution :
  Agrees (settleCall sha256Bytes localeLe runId sessionId deps config startedAt inherited callId toolName continuation execution).
Proof. unfold settleCall, acceptedFinish, beforeVerifiedRunCompleted. agreeing. Qed.
Lemma agrees_adopting call : Agrees (adopting deps call).
Proof.
  intros st. unfold wp, adopting. destruct (d_persist _ _) as [answer w]. destruct (adoptPendingCall _ _ _ _) as [adopted p].
  destruct adopted as [eventId|]; [|done].
  change (wp (_ ← await deps; mret eventId) (fun _ _ => True) (fun o _ => agrees o) (fun _ => True)
            (st <| world := w |> <| publisher := p |>)).
  by apply wp_bind, wp_await.
Qed.
Lemma agrees_recovering data : Agrees (recovering deps data).
Proof.
  intros st. unfold wp, recovering. destruct (d_persist _ _) as [answer w]. destruct (recoverAdoptedCall _ _ _) as [recovered p].
  destruct recovered; [|done]. apply agrees_await.
Qed.
Hint Resolve agrees_settleCall agrees_adopting agrees_recovering : loop_outcomes.
Lemma agrees_inheritCall call :
  Agrees (inheritCall sha256Bytes localeLe runId sessionId deps config startedAt call).
Proof. unfold inheritCall. agreeing. Qed.
Lemma agrees_persistTurnBoundary continuation pendingCall turn : Agrees (persistTurnBoundary deps continuation pendingCall turn).
Proof. unfold persistTurnBoundary. agreeing. Qed.
Lemma agrees_completedRun mode : Agrees (completedRun sha256Bytes localeLe runId sessionId deps startedAt mode).
Proof. unfold completedRun. agreeing. Qed.
Hint Resolve agrees_inheritCall agrees_persistTurnBoundary agrees_completedRun : loop_outcomes.
Lemma agrees_finalTurn step turn : Agrees (finalTurn sha256Bytes localeLe runId sessionId deps config startedAt step turn).
Proof.
  unfold finalTurn. agreeing.
  intros st. unfold wp. by destruct (_ (publisher st) (world st)) as [[? ?] ?].
Qed.
Lemma agrees_answered answer : Agrees (answered deps answer).
Proof. unfold answered. agreeing. Qed.
Hint Resolve agrees_finalTurn agrees_answered : loop_outcomes.
Lemma agrees_toolTurn step continuation response call :
  Agrees (toolTurn sha256Bytes localeLe numberText runId sessionId deps config startedAt step continuation response call).
Proof. unfold toolTurn. agreeing. Qed.
Hint Resolve agrees_toolTurn : loop_outcomes.
Lemma agrees_completedTurn step turn :
  Agrees (completedTurn sha256Bytes localeLe numberText runId sessionId deps config startedAt step turn).
Proof. unfold completedTurn. agreeing. Qed.
Lemma agrees_prepareRequest nextStep :
  Agrees (prepareRequest sha256Bytes localeLe runId sessionId deps config startedAt nextStep).
Proof. unfold prepareRequest. agreeing. Qed.
Hint Resolve agrees_completedTurn agrees_prepareRequest : loop_outcomes.
Lemma agrees_loopStep : Agrees (loopStep sha256Bytes localeLe numberText runId sessionId deps config startedAt).
Proof. unfold loopStep, beginStep, unfinishedTurn. agreeing. apply agrees_failedWith. set_solver. Qed.

(** An outcome of the loop agrees with its event. *)
Lemma loop_outcome_agrees task signalAborted p w outcome st :
  runAgentLoop sha256Bytes localeLe numberText runId sessionId deps config startedAt task signalAborted p w =
    (LoopReturned outcome, st) -> agrees outcome.
Proof.
  unfold runAgentLoop.
  assert (Hp : Agrees (_ ← elapsedMs deps startedAt;
      unless (d_inheritedCall deps) (inheritCall sha256Bytes localeLe runId sessionId deps config startedAt))) by agreeing.
  specialize (Hp (initialState deps task signalAborted p w)). unfold wp in Hp.
  destruct (mbind (M:=Loop) _ _ _) as [[[]| |] st0]; [|by intros [= <- _]|done]. clear Hp.
  generalize (S (Z.to_nat (maxSteps config))). intros fuel. revert st0.
  induction fuel as [|fuel IH]; intros st0; cbn [iterate]; [done|].
  pose proof (agrees_loopStep st0) as Hs. unfold wp in Hs.
  destruct (loopStep _ _ _ _ _ _ _ _ st0) as [[[]| |] st1]; [apply IH|by intros [= <- _]|done].
Qed.
End LoopOutcomes.

(** ** What the end of a run guarantees

    The terminator publishes at most one terminal and none after a failed write;
    the exit code of the command is that of the terminal event which is the last
    of the log; and the one terminal that is never published. *)

Section Ends.
Context (sha256Bytes : list Z -> string) (localeLe : jstring -> jstring -> bool) (runId sessionId : string).
Notation reachable := (publisher_reachable sha256Bytes localeLe runId sessionId).
Notation publish := (publish sha256Bytes localeLe runId sessionId).
Notation settled := (publicationSettled sha256Bytes localeLe runId sessionId).
Notation tstep := (terminator_step sha256Bytes localeLe runId sessionId).

(** ** Publications *)

Lemma publish_cases attribution eventId written rendered draft p r p' :
  publish attribution eventId written rendered draft p = (r, p') ->
  p' = p /\ (exists e, r = Err e) \/
  log p' = log p ++ [draft] /\ terminal p' = isTerminalRunEvent draft || terminal p.
Proof.
  unfold EventPublisher.publish. destruct (stamp _ _ _ _ _ _ _ _) as [event|e] eqn:Hs; [|intros [= <- <-]; left; eauto].
  apply stamp_ok in Hs as [_ ->]. destruct written; [|intros [= <- <-]; left; eauto].
  unfold advance. set (event := {| re_event_id := eventId; re_seq := seq p + 1; re_draft := draft |}).
  intros [= <- <-]. right. split; [exact (posted_log event p)|exact (posted_terminal event p)].
Qed.

(** The terminal flag stays. *)
Lemma step_terminal p p' : publisher_step sha256Bytes localeLe runId sessionId p p' -> terminal p = true -> terminal p' = true.
Proof.
  intros Hs Ht. apply publisher_step_cases in Hs as [(event & mid & _ & _ & -> & Hq)|Hq].
  - assert (terminal (posted event p) = true) as Hm by (by rewrite posted_terminal, Ht, orb_true_r). by destruct Hq.
  - by destruct Hq.
Qed.

(** ** The terminator *)

(** A call that waits has a terminal event; nobody else is publishing; what is
    published is durable. *)
Record sound (t : RunTerminator) (p : EventPublisher) : Prop := {
  so_waiting : forall stage event, waiting t = Some (stage, event) ->
    isTerminalRunEvent event = true /\ (currentState t = publishing_terminal \/ currentState t = persistence_failed);
  so_idle : waiting t = None -> currentState t <> publishing_terminal;
  so_published : currentState t = terminal_published -> terminal p = true }.

Lemma settled_sound answer t p : sound t p -> sound (settled answer t p).1.2 (settled answer t p).2.
Proof.
  intros Hso. unfold publicationSettled. destruct (waiting t) as [[[] event]|] eqn:Ew; [done| |done].
  apply (so_waiting _ _ Hso) in Ew as [Hterm _].
  destruct (publish _ _ _ _ event p) as [r p'] eqn:Ep. pose proof (publish_cases _ _ _ _ _ _ _ _ Ep) as Hc.
  destruct r as [e|e].
  - destruct Hc as [[_ [? ?]]|[_ Ht]]; [done|]. rewrite Hterm in Ht. by split.
  - destruct (terminal p') eqn:Et; [by split|]. split; cbn; [done|by destruct e|by destruct e].
Qed.

Lemma tstep_sound s s' : tstep s s' -> sound s.1 s.2 -> sound s'.1 s'.2.
Proof.
  intros Hs. destruct Hs as [event t p He|failed t p|answer t p|t p|t p p' Hp]; cbn [fst snd]; intros Hso; pose proof Hso as [Hw Hi Hp0].
  - unfold terminate. case_bool_decide as Ho; cbn [negb]; [|done].
    destruct (skipBeforeTerminalOnce t); (split; cbn; [|done|done]); intros stage event' [= <- <-]; auto.
  - unfold hookSettled. destruct (waiting t) as [[[] event]|] eqn:Ew; [|done|done]. destruct failed; [by split|].
    apply (so_waiting _ _ Hso) in Ew. split; cbn; [by intros ? ? [= <- <-]|done|done].
  - by apply settled_sound.
  - unfold markPersistenceFailed. case_bool_decide; [done|]. split; cbn; [|done|done]. intros stage event Ew.
    split; [by eapply Hw|by right].
  - split; [done|done|]. intros Ht. eapply step_terminal; [exact Hp|auto].
Qed.

Lemma tsteps_sound s s' : rtc tstep s s' -> sound s.1 s.2 -> sound s'.1 s'.2.
Proof. induction 1 as [|s1 s2 s3 H _ IH]; [done|]. intros Hs. apply IH. by eapply tstep_sound. Qed.

(** The terminator is at rest in a state that refuses every call. *)
Definition final (t : RunTerminator) : Prop :=
  waiting t = None /\ (currentState t = terminal_published \/ currentState t = persistence_failed).

Lemma tstep_final s s' : tstep s s' -> final s.1 -> final s'.1 /\ currentState s'.1 = currentState s.1.
Proof.
  intros Hs. destruct Hs as [event t p He|failed t p|answer t p|t p|t p p' Hp]; cbn [fst]; intros Hf; pose proof Hf as [Hw Hc].
  - unfold terminate. case_bool_decide as Ho; cbn [negb]; [by destruct Hc; congruence|done].
  - unfold hookSettled. by rewrite Hw.
  - unfold publicationSettled. by rewrite Hw.
  - unfold markPersistenceFailed. case_bool_decide; [done|]. destruct Hc as [|Hc]; [done|]. rewrite Hc.
    split; [split; [done|by right]|done].
  - done.
Qed.
Lemma tsteps_final s s' : rtc tstep s s' -> final s.1 -> final s'.1 /\ currentState s'.1 = currentState s.1.
Proof.
  induction 1 as [|s1 s2 s3 H _ IH]; [done|]. intros Hs. apply tstep_final in H as [Hf E]; [|done]. rewrite <-E. by apply IH.
Qed.

(** Once a terminal publication has settled, durably or by a failed write, the
    terminator never publishes again: whatever happens next, every later call of
    terminate is refused; and what it reports as published is in the publisher. *)
Theorem settled_terminator_is_final p0 t p event answer r t' p' s :
  rtc tstep (newTerminator, p0) (t, p) -> waiting t = Some (publication, event) ->
  settled answer t p = (r, t', p') -> r = Ok () \/ r = Err EventPersistenceError \/ terminal p' = true ->
  rtc tstep (t', p') s ->
  (forall again, (terminate again s.1).1 = Some (currentState t')) /\ waiting s.1 = None /\
  (currentState t' = terminal_published -> terminal s.2 = true).
Proof.
  intros Hr Ew Hset Hcase Hs. assert (Hso : sound t p) by (apply (tsteps_sound _ _ Hr); by split).
  pose proof (settled_sound answer t p Hso) as Hso'. rewrite Hset in Hso'. cbn in Hso'.
  assert (Hfin : final t').
  { unfold publicationSettled in Hset. rewrite Ew in Hset. destruct (publish _ _ _ _ event p) as [r1 p1].
    destruct r1 as [e|e]; injection Hset as <- <- <-; (split; [done|]); cbn; [by left|].
    destruct (terminal p1) eqn:Et; [by left|]. destruct Hcase as [?|[[= ->]|?]]; [done|by right|done]. }
  destruct (tsteps_final _ _ Hs Hfin) as [[Hw Hc] E]. split; [|split; [done|]].
  - intros again. unfold terminate. cbn in E. rewrite E. case_bool_decide as Ho; [|done]. destruct Hfin as [_ []]; congruence.
  - intros Hpub. apply (tsteps_sound _ _ Hs Hso'). cbn in *. congruence.
Qed.

(** ** The exit code *)

Notation now := (terminateNow sha256Bytes localeLe runId sessionId).
Notation endRun := (endOfRun sha256Bytes localeLe runId sessionId).

(** A call that is taken publishes its event; one that throws has published nothing,
    or no call is taken any more. *)
Lemma now_cases inputs event t p r t' p' :
  now inputs event t p = (r, t', p') -> isTerminalRunEvent event = true ->
  match r with
  | Ok _ => log p' = log p ++ [event] /\ terminal p' = true
  | Err _ => p' = p \/ currentState t' = terminal_published
  end.
Proof.
  unfold terminateNow, terminate. intros H Hterm. case_bool_decide as Ho; cbn [negb] in H; [|injection H as <- <- <-; by left].
  assert (Hpub : forall t1 (rest : result PublishError () * RunTerminator * EventPublisher), waiting t1 = Some (publication, event) ->
    settled (ti_answer inputs) t1 p = rest ->
    (let '(answer, t, p) := rest in (match answer with Ok _ => Ok () | Err e => Err (terminate_publish e) end, t, p)) = (r, t', p') ->
    match r with Ok _ => log p' = log p ++ [event] /\ terminal p' = true | Err _ => p' = p \/ currentState t' = terminal_published end).
  { intros t1 rest Ew Hset. unfold publicationSettled in Hset. rewrite Ew in Hset.
    destruct (publish _ _ _ _ event p) as [r1 p1] eqn:Ep. apply publish_cases in Ep.
    destruct r1 as [e|e]; rewrite <-Hset; intros [= <- <- <-].
    - destruct Ep as [[_ [? ?]]|[El Et]]; [done|]. by rewrite Et, Hterm.
    - destruct Ep as [[-> _]|[_ Et]]; [by left|]. right. cbn. by rewrite Et, Hterm. }
  destruct (skipBeforeTerminalOnce t); cbn [waiting] in H.
  - eapply Hpub; [|reflexivity|exact H]. done.
  - destruct (ti_hook inputs); [injection H as <- <- <-; by left|]. eapply Hpub; [|reflexivity|exact H]. done.
Qed.

Lemma now_refused inputs event t p : currentState t <> terminator_open ->
  now inputs event t p = (Err (terminate_unavailable (currentState t)), t, p).
Proof. intros Ho. unfold terminateNow, terminate. by rewrite bool_decide_eq_false_2. Qed.

(** What is published after an error is the last event, with its exit code. *)
Lemma endWithError_cases inputs error t p code p' :
  endWithError sha256Bytes localeLe runId sessionId inputs error t p = (code, p') ->
  code = 1 \/ currentState t = terminator_open /\
    exists event, log p' = log p ++ [event] /\ terminal p' = true /\ exitCodeFits code event.
Proof.
  assert (Hf : forall fits event published, publishFallback sha256Bytes localeLe runId sessionId inputs event t p = (published, p') ->
    (if published : bool then fits else 1) = code -> exitCodeFits fits event -> code = 1 \/ currentState t = terminator_open /\
    exists event, log p' = log p ++ [event] /\ terminal p' = true /\ exitCodeFits code event).
  { intros fits event published Hpub <- Hfits. unfold publishFallback in Hpub.
    destruct (now _ event t p) as [[r t1] p1] eqn:En. injection Hpub as <- <-. destruct r as [[]|e]; [|by left].
    right. split.
    - destruct (decide (currentState t = terminator_open)) as [|Ho]; [done|]. by rewrite now_refused in En.
    - apply now_cases in En as [El Et]; [|by eapply fits_terminal]. by exists event. }
  unfold endWithError. destruct (classifyRunExecutionError _ _ _); try (intros [= <- _]; by left).
  - destruct (publishFallback _ _ _ _ _ _ _ _) as [published p1] eqn:Ep. intros [= Hc <-]. by eapply Hf.
  - destruct (publishFallback _ _ _ _ _ _ _ _) as [published p1] eqn:Ep. intros [= Hc <-]. by eapply Hf.
Qed.

(** C30: the exit code of the command is durable: unless it is 1, the
    last event of the log is the terminal event of that exit code (0 for a completed run, 7 over
    budget, 8 incomplete, 130 cancelled, 4 to 6 for a failed provider), whatever the model, the tools, the
    hooks and the log answer. *)
Theorem exit_code_is_durable {W Continuation} numberText (deps : LoopDeps W Continuation) config startedAt
    task signalAborted p w answer st inputs error code p' :
  runAgentLoop sha256Bytes localeLe numberText runId sessionId deps config startedAt task signalAborted p w = (answer, st) ->
  endRun inputs (match answer with LoopReturned outcome => inl outcome | _ => inr error end) (publisher st) = (code, p') ->
  code <> 1 ->
  exists event, log p' = log (publisher st) ++ [event] /\ terminal p' = true /\ exitCodeFits code event.
Proof.
  intros Hrun Hend Hcode. unfold endOfRun in Hend.
  destruct (match match answer with LoopReturned outcome => inl outcome | _ => inr error end with inl _ => _ | inr _ => _ end)
    as [code1 p1] eqn:Ecode. injection Hend as Hc <-.
  assert (code1 = code) as -> by (destruct (_ && _); congruence). clear Hc.
  assert (Herr : endWithError sha256Bytes localeLe runId sessionId inputs error newTerminator (publisher st) = (code, p1) ->
    exists event, log p1 = log (publisher st) ++ [event] /\ terminal p1 = true /\ exitCodeFits code event).
  { intros He. apply endWithError_cases in He as [?|[_ He]]; [done|exact He]. }
  destruct answer as [outcome| |]; [|by apply Herr..].
  apply loop_outcome_agrees in Hrun. unfold agrees in Hrun.
  destruct (now _ _ newTerminator (publisher st)) as [[r t1] p2] eqn:En.
  apply now_cases in En; [|by eapply fits_terminal]. destruct r as [[]|e].
  - injection Ecode as <- <-. destruct En as [El Et]. eauto.
  - apply endWithError_cases in Ecode as [?|[Ho He]]; [done|]. destruct En as [->|Hp]; [exact He|congruence].
Qed.

(** ** The terminal of a failed hook *)

(** A candidate belongs to a call of [finish_task]. *)
Lemma candidate_tool p : reachable p -> forall c x, completionCandidates p !! c = Some x ->
  exists call, jm_get c (toolCalls p) = Some call /\ tc_name call = "finish_task"%string.
Proof.
  revert p. apply (reachable_inv _ _ _ _ (fun p => forall c x, completionCandidates p !! c = Some x ->
    exists call, jm_get c (toolCalls p) = Some call /\ tc_name call = "finish_task"%string)).
  - intros c x. cbn. by rewrite lookup_empty.
  - intros p event Hp IH Ha c x. rewrite posted_candidates, posted_toolCalls.
    assert (Hkeep : forall m : gmap string CompletionCandidateState, m = completionCandidates p -> m !! c = Some x ->
      exists call, jm_get c (toolCalls p) = Some call /\ tc_name call = "finish_task"%string) by (intros m -> Hx; by eapply IH).
    destruct (re_draft event) eqn:Ed; try (by apply Hkeep).
    + intros Hx. destruct (Hkeep _ eq_refl Hx) as (call & Hc & Hn). exists call. split; [|done].
      rewrite jm_get_set_ne; [done|]. intros <-. destruct Ha as (attribution & Hv & _). unfold validateTransition in Hv.
      do 4 (apply bind_ok in Hv as (? & _ & Hv)). do 3 (apply bind_ok in Hv as (? & _ & Hv)).
      apply bind_ok in Hv as (? & Hv%refuse_when_ok & _). apply jm_has_false in Hv. congruence.
    + intros Hx. destruct (Hkeep _ eq_refl Hx) as (call & Hc & Hn). rewrite jm_get_alter. case_decide as Hd; [|by exists call].
      subst. rewrite Hc. by eexists.
    + intros Hx. destruct (decide (ccd_call_id data = c)) as [<-|]; [|rewrite lookup_insert_ne in Hx by done; by eapply IH].
      destruct (accepted_as_agent _ _ _ _ _ _ Hp Ha ltac:(done)) as (attribution & Hv%refuse_when_ok).
      rewrite !orb_false_iff in Hv. destruct Hv as [[[_ Hv%negb_false_iff] _] _]. unfold pendingCall in Hv.
      destruct (jm_get _ (toolCalls p)) as [call|]; [|done]. rewrite !andb_true_iff in Hv.
      destruct Hv as [[Hn%bool_decide_eq_true _] _]. eauto.
    + intros Hx. apply lookup_alter_Some in Hx as [(<- & x0 & Hx & _)|[_ Hx]]; by eapply IH.
  - intros p p' Hp IH Hq c x. destruct Hq; cbn; try apply IH. intros Hx.
    destruct (IH _ _ Hx) as (call & Hc & Hn). exists call. split; [|done]. rewrite jm_get_set_ne; [done|congruence].
Qed.

(** An evaluation that ends the run names its evidence. *)
Lemma incomplete_evidence p c e :
  reachable p -> evaluatedOf p (Some c) = Some e -> cvp_effect e = effect_incomplete -> cvp_evidence_sha256 e <> None.
Proof.
  intros Hp He Heff Hnone. destruct (evaluated_source _ _ _ _ _ _ _ Hp He) as [Hin _].
  apply list_elem_of_split in Hin as (pre & post & El).
  destruct (publisher_history _ _ _ _ _ _ _ _ Hp El) as (s & Hs & _ & Ha).
  destruct (accepted_as_agent _ _ _ _ _ _ Hs Ha ltac:(done)) as (attribution & Hv). cbn in Hv. unfold validateCompletionEvaluated in Hv.
  destruct (completionCandidates s !! _); [|done]. do 3 (apply bind_ok in Hv as (? & _ & Hv)). rewrite Heff, Hnone in Hv. done.
Qed.

Lemma blocked_terminal_refused attribution p d :
  reachable p -> command p = Some command_agent -> rip_reason d = task_blocked -> rip_evidence_sha256 d = None ->
  validateTransition sha256Bytes localeLe runId sessionId attribution (ev_run_incomplete d) p <> Ok ().
Proof.
  intros Hp Hc Hr He Hv. unfold validateTransition in Hv. do 4 (apply bind_ok in Hv as (? & _ & Hv)).
  apply bind_ok in Hv as (? & _ & Hv). apply bind_ok in Hv as ([] & Hv & _). rewrite Hc, bool_decide_eq_true_2 in Hv by done.
  cbn [validateAgentTransition] in Hv. unfold validateRunIncomplete in Hv. rewrite He, Hr in Hv.
  do 3 (apply bind_ok in Hv as ([] & _ & Hv)). apply bind_ok in Hv as ([] & Hfin & Hv).
  rewrite bool_decide_eq_true_2 in Hv by done. apply refuse_when_ok, negb_false_iff in Hv. rewrite !andb_true_iff in Hv.
  destruct Hv as [[Ho Hev] _]. rewrite Ho in Hfin. cbn in Hfin.
  destruct (finalStep p ≫= as_toolCallId) as [c|]; [|done].
  destruct (evaluatedOf p (Some c)) as [e|] eqn:Ee; [|done]. apply andb_true_iff in Hev as [Heff%bool_decide_eq_true _].
  pose proof (incomplete_evidence _ _ _ Hp Ee Heff) as Hne. unfold evaluatedOf in Ee. cbn in Ee.
  destruct (completionCandidates p !! c) as [cand|] eqn:Ex; [|done]. destruct (candidate_tool _ Hp _ _ Ex) as (call & Hcall & Hn).
  unfold toolOf in Hfin. cbn in Hfin. rewrite Hcall in Hfin. cbn in Hfin. rewrite Hn in Hfin. cbn in Hfin.
  apply refuse_when_ok, negb_false_iff in Hfin. rewrite !andb_true_iff, !bool_decide_eq_true in Hfin. by destruct Hfin as [[_ Hs] _].
Qed.

(** A terminal that the publisher refuses leaves it as it was. *)
Lemma now_not_taken inputs event t p r t' p' :
  (forall attribution, validateTransition sha256Bytes localeLe runId sessionId attribution event p <> Ok ()) ->
  now inputs event t p = (r, t', p') -> (exists e, r = Err e) /\ p' = p.
Proof.
  intros Hv. assert (Hpub : forall answer t1 r1 t2 p2, waiting t1 = Some (publication, event) ->
    settled answer t1 p = (r1, t2, p2) -> (exists e, r1 = Err e) /\ p2 = p).
  { intros answer t1 r1 t2 p2 Hw. unfold publicationSettled. rewrite Hw. unfold EventPublisher.publish, stamp.
    destruct (validateTransition _ _ _ _ (wa_attribution answer) event p) as [[]|e] eqn:E; [by apply Hv in E|].
    cbn. intros [= <- <- <-]. eauto. }
  unfold terminateNow, terminate. case_bool_decide; cbn [negb]; [|intros [= <- <- <-]; eauto].
  destruct (skipBeforeTerminalOnce t); cbn [waiting].
  - destruct (settled _ _ p) as [[r1 t2] p2] eqn:Es. apply Hpub in Es as [[e ->] ->]; [|done]. intros [= <- _ <-]. eauto.
  - destruct (ti_hook inputs); [intros [= <- <- <-]; eauto|].
    destruct (settled _ _ p) as [[r1 t2] p2] eqn:Es. apply Hpub in Es as [[e ->] ->]; [|done]. intros [= <- _ <-]. eauto.
Qed.

(** When a lifecycle hook fails, at the terminal or before, the terminal event that stands for
    it (incomplete, task_blocked) names no evidence, and the publisher takes no such event in any state: the run
    ends without a terminal event in its log and with exit code 1, never with the exit code 8 of a blocked task. *)
Theorem failed_hook_leaves_no_terminal inputs answer p code p' :
  reachable p -> command p = Some command_agent -> ei_hostSurfaceFatal inputs = false ->
  match answer with
  | inl _ => ti_hook (ei_first inputs) = Some run_hook_error
  | inr error => error = run_hook_error
  end ->
  endRun inputs answer p = (code, p') -> code = 1 /\ log p' = log p.
Proof.
  intros Hp Hc Hhost Hfail. assert (Herr : forall t,
    endWithError sha256Bytes localeLe runId sessionId inputs run_hook_error t p = (1, p)).
  { intros t. unfold endWithError. cbn [classifyRunExecutionError]. rewrite Hhost. unfold publishFallback.
    destruct (now _ _ t p) as [[r t1] p1] eqn:En. apply now_not_taken in En as [[e ->] ->]; [done|].
    intros attribution. by apply blocked_terminal_refused. }
  assert (Hend : (match answer with
    | inl outcome => match now (ei_first inputs) (lo_terminalEvent outcome) newTerminator p with
                     | (Ok _, _, p) => (terminalExitCode (lo_terminal outcome), p)
                     | (Err e, t, p) => endWithError sha256Bytes localeLe runId sessionId inputs (runErrorOf e) t p
                     end
    | inr error => endWithError sha256Bytes localeLe runId sessionId inputs error newTerminator p end) = (1, p)).
  { destruct answer as [outcome|error]; [|by subst]. rename Hfail into Hhook.
    unfold terminateNow, terminate. cbn. rewrite Hhook. cbn. apply Herr. }
  unfold endOfRun. rewrite Hend. intros [= <- <-]. split; [by destruct (_ && _)|done].
Qed.
End Ends.

(** ** Ends of runs

    The runs of [AgentLoopProperties.v] taken to their exit code, and two that the
    theorems of [RunTerminatorProperties.v] are about: a failed write, and a hook
    that denies the start of the run. *)

Import SampleLoop.

Definition takenBy (written : bool) : TerminateInputs := {|
  ti_hook := None;
  ti_answer := {| wa_attribution := None; wa_eventId := "last"; wa_written := written; wa_rendered := true |} |}.
Definition inputs (hook : option RunError) : EndInputs := {|
  ei_first := {| ti_hook := hook; ti_answer := ti_answer (takenBy true) |}; ei_fallback := takenBy true;
  ei_hostSurfaceFatal := false; ei_wasUserCancelled := false; ei_steps := 0; ei_runtimeClosed := true;
  ei_reportProjected := true; ei_writerClosed := true |}.
Notation endRun := (endOfRun standInHash jstring_le "run" "session").
Notation fileRun := (run unknownTool profile_read_only [callTurn "c1" "read_file" "{}"; textTurn]).

(** The run completes with exit code 0; when its terminal hook fails it has no
    terminal, and a hook that fails leaves exit code 1. *)
Example file_run_exits :
  let '(answer, st) := fileRun in
  match answer with
  | LoopReturned outcome =>
      let '(code, p) := endRun (inputs None) (inl outcome) (publisher st) in
      let '(blocked, q) := endRun (inputs (Some run_hook_error)) (inl outcome) (publisher st) in
      (code, terminal p, blocked, terminal q) = (0, true, 1, false)
  | _ => False
  end.
Proof. vm_compute. reflexivity. Qed.

Lemma exit_code_is_durable_witness : exists answer st code p,
  fileRun = (answer, st) /\
  endRun (inputs None) (match answer with LoopReturned outcome => inl outcome | _ => inr run_exception end) (publisher st) = (code, p) /\
  code = 0 /\ exists event, log p = log (publisher st) ++ [event] /\ terminal p = true /\ exitCodeFits code event.
Proof.
  destruct fileRun as [answer st] eqn:Erun.
  destruct (endRun (inputs None) (match answer with LoopReturned outcome => inl outcome | _ => inr run_exception end) (publisher st))
    as [code p] eqn:Eend.
  exists answer, st, code, p. split; [done|]. split; [exact Eend|].
  assert (code = 0) as Hcode.
  { vm_compute in Erun. injection Erun as <- <-. vm_compute in Eend. by injection Eend as <- _. }
  split; [exact Hcode|].
  apply (exit_code_is_durable standInHash jstring_le "run" "session" id (deps unknownTool) (config profile_read_only) 0%Q
    (js "task") false (started profile_read_only) [callTurn "c1" "read_file" "{}"; textTurn] answer st (inputs None) run_exception
    code p Erun Eend). by rewrite Hcode.
Defined.

(** The terminal of a run that failed at once; its write fails. *)
Definition failedAtOnce : RunEventDraft :=
  ev_run_failed {| rsp_output_chars := Some 0; rsp_steps := Some 0; rsp_tool_calls := Some 0 |}.
Definition waitingTerminator : RunTerminator := hookSettled false (terminate failedAtOnce newTerminator).2.

Lemma waitingTerminator_reached :
  rtc (terminator_step standInHash jstring_le "run" "session") (newTerminator, started profile_read_only)
    (waitingTerminator, started profile_read_only).
Proof. eapply rtc_l; [by apply (step_terminate _ _ _ _ failedAtOnce)|]. apply rtc_once. by apply (step_hook _ _ _ _ false). Qed.

Notation failedWrite := (publicationSettled standInHash jstring_le "run" "session" (ti_answer (takenBy false)) waitingTerminator
  (started profile_read_only)).
Lemma settled_terminator_is_final_witness :
  failedWrite.1.1 = Err EventPersistenceError /\
  (terminate failedAtOnce failedWrite.1.2).1 = Some persistence_failed.
Proof.
  assert (E : failedWrite = (Err EventPersistenceError, newTerminator <| currentState := persistence_failed |>, started profile_read_only))
    by (vm_compute; reflexivity).
  destruct (settled_terminator_is_final standInHash jstring_le "run" "session" (started profile_read_only) waitingTerminator
    (started profile_read_only) failedAtOnce (ti_answer (takenBy false)) _ _ _ (newTerminator <| currentState := persistence_failed |>, started profile_read_only)
    waitingTerminator_reached eq_refl E) as [H _]; [right; by left|apply rtc_refl|].
  rewrite E. split; [reflexivity|]. exact (H failedAtOnce).
Defined.

(** The mark of a persistence failure is lost when the hook fails. *)
Example mark_during_hook_is_lost :
  currentState (hookSettled true (markPersistenceFailed (terminate failedAtOnce newTerminator).2)) = terminator_open.
Proof. reflexivity. Qed.

Lemma failed_hook_leaves_no_terminal_witness : exists code p,
  endRun (inputs None) (inr run_hook_error) (started profile_coding) = (code, p) /\ code = 1 /\ log p = log (started profile_coding).
Proof.
  destruct (endRun (inputs None) (inr run_hook_error) (started profile_coding)) as [code p] eqn:E.
  exists code, p. split; [reflexivity|].
  apply (failed_hook_leaves_no_terminal standInHash jstring_le "run" "session" (inputs None) (inr run_hook_error)
    (started profile_coding) code p).
  - apply SampleRun.publishAll_reachable, rtc_refl.
  - reflexivity.
  - reflexivity.
  - reflexivity.
  - exact E.
Defined.
