(* ===== verification/McpResult.v ===== *)
(** * Results of MCP tools

    [src/mcp/mcp-result-mapper.ts]: the text of a result, bounded, becomes a
    JSON observation; [recoverDurableMappedMcpResult] accepts an observation
    that is read back from the log.  The result of a server is a JSON value, as
    its transport decoded it. *)

From S2P Require Import Prelude JsString CanonicalJson CanonicalJsonFacts SourceSnapshot Completion JsonParse JsonParseFacts RunEvents ToolErrors.
#[local] Open Scope Z_scope.

Definition MCP_RESULT_MAPPER_VERSION : string := "mcp-text-result-v1".
Definition MAX_MCP_RESULT_SOURCE_BYTES : Z := 4 * 1024 * 1024.
Definition MAX_MCP_RESULT_ITEMS : nat := 256.

(** The codes of [McpCoreError], what a step of the mapper throws besides, and
    a search that did not end, which [search_ends] excludes. *)
Inductive McpError : Type :=
| mcp_result_limit | mcp_result_invalid | mcp_result_content_unsupported
| mcp_sanitizer_failed | mcp_encoding_failed | mcp_search_out_of_fuel.

Record MappedMcpResult : Type := {
  mmr_bytes : Z; mmr_mapperVersion : string; mmr_observation : jstring; mmr_observationSha256 : string;
  mmr_status : ToolStatus; mmr_truncated : bool }.

(** [plainRecord]: a decoded object has no accessor and the usual prototype. *)
Definition plainRecord (value : jvalue) : option (jsmap jstring jvalue) :=
  match value with
  | VObject record =>
      if existsb (fun key => bool_decide (key ∈ [js "__proto__"; js "constructor"; js "prototype"])) (fst <$> record)
      then None else Some record
  | _ => None
  end.

Definition structuredContentIsNonempty (value : option jvalue) : bool :=
  match value with
  | None | Some VNull => false
  | Some (VArray entries) => (0 <? length entries)%nat
  | Some (VObject record) => (0 <? length record)%nat
  | Some _ => true
  end.

(** ** The bounded observation *)

Definition observationValue (texts : list jstring) (isError truncated : bool) : json :=
  JObj [(js "is_error", JBool isError); (js "ok", JBool (negb isError)); (js "text", JArr (JStr <$> texts));
        (js "truncated", JBool truncated); (js "version", JStr (js MCP_RESULT_MAPPER_VERSION))].

Definition observationJson (texts : list jstring) (isError truncated : bool) : result McpError jstring :=
  match canonicalJson (observationValue texts isError truncated) with
  | Ok text => Ok text
  | Err _ => Err mcp_encoding_failed
  end.

(** [characters.slice(0, n).join("")] of the characters of [s]. *)
Fixpoint firstCharacters (n : nat) (s : jstring) : jstring :=
  match n, s with
  | O, _ | _, [] => []
  | S n, u :: r =>
      match r with
      | v :: r' => if isHighSurrogate u && isLowSurrogate v then u :: v :: firstCharacters n r'
                   else u :: firstCharacters n r
      | [] => [u]
      end
  end.

Fixpoint takeCharacters (texts : list jstring) (remaining : Z) : list jstring :=
  match texts with
  | [] => []
  | text :: texts =>
      if remaining <=? 0 then [] :: takeCharacters texts remaining
      else firstCharacters (Z.to_nat remaining) text
             :: takeCharacters texts (remaining - Z.of_nat (length (codePoints text)))
  end.

(** The binary search for the longest texts that fit. *)
Fixpoint searchBound (fuel : nat) (texts : list jstring) (isError : bool) (maximumBytes low high : Z) (best : jstring)
  : result McpError jstring :=
  if high <? low then Ok best
  else match fuel with
       | O => Err mcp_search_out_of_fuel
       | S fuel =>
           let middle := (low + high) / 2 in
           candidate ← observationJson (takeCharacters texts middle) isError true;
           if byteLength candidate <=? maximumBytes
           then searchBound fuel texts isError maximumBytes (middle + 1) high candidate
           else searchBound fuel texts isError maximumBytes low (middle - 1) best
       end.

Definition totalCharacters (texts : list jstring) : Z :=
  fold_left (fun total text => total + Z.of_nat (length (codePoints text))) texts 0.

Definition boundedObservation (texts : list jstring) (isError : bool) (maximumBytes : Z)
  : result McpError (jstring * bool) :=
  complete ← observationJson texts isError false;
  if byteLength complete <=? maximumBytes then Ok (complete, false)
  else
    empty ← observationJson ((fun _ => []) <$> texts) isError true;
    _ ← throw_when (maximumBytes <? byteLength empty) mcp_result_limit;
    best ← searchBound (S (Z.to_nat (totalCharacters texts))) texts isError maximumBytes 0 (totalCharacters texts) empty;
    Ok (best, true).

(** ** The mapper *)

(** The text of one content item, if it is a text item. *)
Definition itemText (item : jvalue) : option jstring :=
  record ← plainRecord item;
  if existsb (fun key => (key !== js "type") && (key !== js "text")) (fst <$> record) then None
  else match jm_get (js "type") record, jm_get (js "text") record with
       | Some (VString type), Some (VString text) => if type === js "text" then Some text else None
       | _, _ => None
       end.

Section Mapper.
Variable sha256 : jstring -> string.

Definition addItem (secrets : list (option jstring)) (acc : Z * list jstring) (item : jvalue)
  : result McpError (Z * list jstring) :=
  match itemText item with
  | None => Err mcp_result_content_unsupported
  | Some text =>
      let sourceBytes := acc.1 + byteLength text in
      _ ← throw_when (MAX_MCP_RESULT_SOURCE_BYTES <? sourceBytes) mcp_result_limit;
      match sanitizeTerminalText text (defaultSanitizer secrets) with
      | Ok sanitized => Ok (sourceBytes, acc.2 ++ [sanitized])
      | Err _ => Err mcp_sanitizer_failed
      end
  end.

Definition mapMcpTextResult (input : jvalue) (maxObservationBytes : Z) (secrets : list (option jstring))
  : result McpError MappedMcpResult :=
  _ ← throw_when (maxObservationBytes <=? 0) mcp_result_limit;
  match plainRecord input with
  | None => Err mcp_result_invalid
  | Some record =>
      _ ← throw_when (existsb (fun key => negb (bool_decide (key ∈ [js "content"; js "isError"; js "structuredContent"])))
                        (fst <$> record)) mcp_result_content_unsupported;
      _ ← throw_when (structuredContentIsNonempty (jm_get (js "structuredContent") record))
            mcp_result_content_unsupported;
      match jm_get (js "content") record with
      | Some (VArray content) =>
          _ ← throw_when (MAX_MCP_RESULT_ITEMS <? length content)%nat mcp_result_invalid;
          isError ← (match jm_get (js "isError") record with
                     | None => Ok false
                     | Some (VBool isError) => Ok isError
                     | Some _ => Err mcp_result_invalid
                     end : result McpError bool);
          collected ← foldM (addItem secrets) content (0, []);
          let texts := collected.2 in
          '(observation, truncated) ← boundedObservation texts isError maxObservationBytes;
          Ok {| mmr_bytes := byteLength observation; mmr_mapperVersion := MCP_RESULT_MAPPER_VERSION;
                mmr_observation := observation; mmr_observationSha256 := sha256 observation;
                mmr_status := if isError : bool then tool_error else tool_success; mmr_truncated := truncated |}
      | _ => Err mcp_result_invalid
      end
  end.

(** The members of a durable observation agree with what the event says. *)
Definition observationMatches (record : jsmap jstring jvalue) (status : ToolStatus) (truncated : bool) : bool :=
  let isBool key b := match jm_get (js key) record with Some (VBool b') => eqb b b' | _ => false end in
  (joinUnit comma (sortText (fst <$> record)) === js "is_error,ok,text,truncated,version") &&
  match jm_get (js "text") record with
  | Some (VArray entries) => forallb (fun entry => match entry with VString _ => true | _ => false end) entries
  | _ => false
  end &&
  match jm_get (js "version") record with
  | Some (VString version) => version === js MCP_RESULT_MAPPER_VERSION
  | _ => false
  end &&
  isBool "truncated"%string truncated && isBool "is_error"%string (status === tool_error) &&
  isBool "ok"%string (status === tool_success).

(** What the log says of a completed call, back as a result. *)
Definition recoverDurableMappedMcpResult (input : MappedMcpResult) : result McpError MappedMcpResult :=
  _ ← throw_when ((mmr_mapperVersion input !== MCP_RESULT_MAPPER_VERSION) ||
                  negb (mmr_bytes input =? byteLength (mmr_observation input)) ||
                  (mmr_observationSha256 input !== sha256 (mmr_observation input))) mcp_result_invalid;
  match jsonParse (mmr_observation input) with
  | Err _ => Err mcp_result_invalid
  | Ok decoded =>
      match plainRecord decoded with
      | None => Err mcp_result_invalid
      | Some record =>
          _ ← throw_when (negb (observationMatches record (mmr_status input) (mmr_truncated input))) mcp_result_invalid;
          Ok {| mmr_bytes := mmr_bytes input; mmr_mapperVersion := MCP_RESULT_MAPPER_VERSION;
                mmr_observation := mmr_observation input; mmr_observationSha256 := mmr_observationSha256 input;
                mmr_status := mmr_status input; mmr_truncated := mmr_truncated input |}
      end
  end.
End Mapper.

(** ** The observation fits and parses back *)

Lemma array_encodes l : Forall (fun v => exists t, canonicalJson v = Ok t) l -> exists t, canonicalJson (JArr l) = Ok t.
Proof.
  induction 1 as [|v l [u Hv] _ [t Ht]]; [by eexists|]. cbn [canonicalJson] in *.
  apply bind_ok in Ht as (ts & Hts & _). rewrite Hv, Hts. by eexists.
Qed.

Lemma texts_encode texts : exists t, canonicalJson (JArr (JStr <$> texts)) = Ok t.
Proof. apply array_encodes, Forall_fmap, list.Forall_true. intros text. by eexists. Qed.

Lemma observation_encodes texts isError truncated : exists t, canonicalJson (observationValue texts isError truncated) = Ok t.
Proof.
  unfold observationValue. destruct (texts_encode texts) as [t Ht].
  assert (Hu : isUndefined (JArr (JStr <$> texts)) = false) by done.
  revert Hu Ht. generalize (JArr (JStr <$> texts)). intros v Hu Ht. cbn [canonicalJson]. rewrite Ht.
  cbn [keepFields foldM isUndefined]. rewrite Hu. by eexists.
Qed.

Lemma observation_canon texts isError truncated :
  canon (observationValue texts isError truncated) = observationValue texts isError truncated.
Proof.
  assert (E : List.map canon (JStr <$> texts) = JStr <$> texts).
  { induction texts as [|text texts IH]; [done|]. cbn [fmap list_fmap List.map]. by rewrite IH. }
  assert (Hs : forall l, canon (JObj [(js "is_error", JBool isError); (js "ok", JBool (negb isError)); (js "text", JArr l);
      (js "truncated", JBool truncated); (js "version", JStr (js MCP_RESULT_MAPPER_VERSION))]) =
    JObj [(js "is_error", JBool isError); (js "ok", JBool (negb isError)); (js "text", JArr (List.map canon l));
      (js "truncated", JBool truncated); (js "version", JStr (js MCP_RESULT_MAPPER_VERSION))])
    by (intros l; vm_compute; reflexivity).
  unfold observationValue. by rewrite Hs, E.
Qed.

Lemma observation_ok texts isError truncated text :
  observationJson texts isError truncated = Ok text <->
  canonicalJson (observationValue texts isError truncated) = Ok text.
Proof. unfold observationJson. destruct (canonicalJson _); naive_solver. Qed.

Lemma observation_always texts isError truncated : exists text, observationJson texts isError truncated = Ok text.
Proof.
  destruct (observation_encodes texts isError truncated) as [t Ht]. exists t. by apply observation_ok.
Qed.

#[local] Notation units := (Forall (Forall isUnit16)).

Lemma observation_parses texts isError truncated text :
  units texts -> observationJson texts isError truncated = Ok text ->
  jsonParse text = Ok (VObject [(js "is_error", VBool isError); (js "ok", VBool (negb isError));
    (js "text", VArray (VString <$> texts)); (js "truncated", VBool truncated);
    (js "version", VString (js MCP_RESULT_MAPPER_VERSION))]).
Proof.
  intros Hu Ht%observation_ok. apply canonicalJson_parses in Ht.
  - rewrite Ht, observation_canon. unfold observationValue. cbn [parsedValue List.map].
    do 5 f_equal. f_equal. f_equal. by rewrite <-list_fmap_compose.
  - cbn [units16 fold_right observationValue]. split_and!; try done; try apply js_units.
    clear Ht. induction Hu; cbn [fold_right fmap list_fmap units16]; by split.
  - unfold observationValue. apply distinctKeys_JObj. split.
    + apply (bool_decide_unpack _). vm_compute. done.
    + repeat constructor. cbn [snd]. apply distinctKeys_JArr. apply list.Forall_forall. by intros v (text' & -> & _)%list_elem_of_fmap.
Qed.

Lemma firstCharacters_units n s : Forall isUnit16 s -> Forall isUnit16 (firstCharacters n s).
Proof.
  revert s. induction n as [|n IH]; intros s Hs; [constructor|]. destruct s as [|u [|v r]]; [constructor|done|].
  cbn [firstCharacters]. inversion Hs as [|? ? Hu Hr]; subst. inversion Hr as [|? ? Hv Hr']; subst.
  destruct (_ && _); (constructor; [done|]); [constructor; [done|]|]; by apply IH.
Qed.
Lemma takeCharacters_units texts remaining : units texts -> units (takeCharacters texts remaining).
Proof.
  intros H. revert remaining. induction H as [|text texts Ht _ IH]; intros remaining; [constructor|]. cbn [takeCharacters].
  destruct (remaining <=? 0); constructor; auto using firstCharacters_units.
Qed.

(** What the bounded observation is: of some texts, and within the bound. *)
Definition observes (isError truncated : bool) (maximumBytes : Z) (text : jstring) : Prop :=
  byteLength text <= maximumBytes /\
  exists texts, units texts /\ observationJson texts isError truncated = Ok text.

Lemma searchBound_ok fuel texts isError maximumBytes low high best :
  units texts -> observes isError true maximumBytes best -> 0 <= low -> (Z.to_nat (high - low + 1) <= fuel)%nat ->
  exists text, searchBound fuel texts isError maximumBytes low high best = Ok text /\ observes isError true maximumBytes text.
Proof.
  intros Hu. revert low high best. induction fuel as [|fuel IH]; intros low high best Hb Hlow Hfuel; cbn [searchBound].
  { destruct (Z.ltb_spec high low); [by exists best|lia]. }
  destruct (Z.ltb_spec high low); [by exists best|]. set (middle := (low + high) / 2).
  assert (low <= middle <= high) by (unfold middle; split; [apply Z.div_le_lower_bound|apply Z.div_le_upper_bound]; lia).
  destruct (observation_always (takeCharacters texts middle) isError true) as [candidate Hc]. rewrite Hc. cbn [mbind result_bind].
  destruct (Z.leb_spec (byteLength candidate) maximumBytes).
  - apply IH; [|lia..]. split; [done|]. exists (takeCharacters texts middle). split; [by apply takeCharacters_units|done].
  - apply IH; [done|lia..].
Qed.

Lemma totalCharacters_nonneg texts : 0 <= totalCharacters texts.
Proof.
  unfold totalCharacters. assert (H : forall n, 0 <= n ->
    0 <= fold_left (fun total text => total + Z.of_nat (length (codePoints text))) texts n); [|by apply H].
  induction texts as [|text texts IH]; intros n Hn; [done|]. apply IH. lia.
Qed.

Lemma bounded_ok texts isError maximumBytes :
  units texts ->
  match boundedObservation texts isError maximumBytes with
  | Ok (text, truncated) => observes isError truncated maximumBytes text
  | Err e => e = mcp_result_limit
  end.
Proof.
  intros Hu. unfold boundedObservation. destruct (observation_always texts isError false) as [complete Hc]. rewrite Hc.
  cbn [mbind result_bind]. destruct (Z.leb_spec (byteLength complete) maximumBytes); [split; [done|by exists texts]|].
  destruct (observation_always ((fun _ => []) <$> texts) isError true) as [empty He]. rewrite He. cbn [mbind result_bind].
  destruct (Z.ltb_spec maximumBytes (byteLength empty)); [done|]. cbn [throw_when mbind result_bind].
  pose proof (totalCharacters_nonneg texts).
  destruct (searchBound_ok (S (Z.to_nat (totalCharacters texts))) texts isError maximumBytes 0 (totalCharacters texts) empty)
    as (text & -> & Ht); [done| |lia..|exact Ht].
  split; [lia|]. exists ((fun _ => []) <$> texts). split; [|done]. apply Forall_fmap, list.Forall_true. intros ?. constructor.
Qed.

(** The texts of the items of a result are strings of JavaScript. *)
Definition itemsUnits16 (input : jvalue) : Prop :=
  forall record content item text, plainRecord input = Some record ->
  jm_get (js "content") record = Some (VArray content) -> item ∈ content -> itemText item = Some text -> Forall isUnit16 text.

Lemma sanitized_units secrets text sanitized :
  Forall isUnit16 text -> sanitizeTerminalText text (defaultSanitizer secrets) = Ok sanitized -> Forall isUnit16 sanitized.
Proof.
  intros Ht H. unfold sanitizeTerminalText in H. cbn in H. injection H as <-.
  assert (Hw : Forall isUnit16 redactionUnits) by apply js_units. apply Forall_redact; [done|].
  apply Forall_strip; [repeat constructor; done|done|done|]. intros u Hu _. eapply Forall_redact in Ht; [|done].
  rewrite list.Forall_forall in Ht. by eapply Ht.
Qed.

Lemma mapped_matches texts isError truncated :
  observationMatches [(js "is_error", VBool isError); (js "ok", VBool (negb isError)); (js "text", VArray (VString <$> texts));
    (js "truncated", VBool truncated); (js "version", VString (js MCP_RESULT_MAPPER_VERSION))]
    (if isError then tool_error else tool_success) truncated = true.
Proof.
  assert (Ht : forallb (fun entry => match entry with VString _ => true | _ => false end) (VString <$> texts) = true)
    by (apply forallb_forall; intros v (text & -> & _)%list_elem_of_In%list_elem_of_fmap; done).
  unfold observationMatches. revert Ht. generalize (VString <$> texts). intros l Hl.
  replace (jm_get (js "text") _) with (Some (VArray l)) by (vm_compute; reflexivity). cbv beta iota zeta. rewrite Hl.
  destruct isError, truncated; vm_compute; reflexivity.
Qed.

Section MapperFacts.
Variable sha256 : jstring -> string.

Lemma items_units secrets content bytes texts :
  (forall item text, item ∈ content -> itemText item = Some text -> Forall isUnit16 text) ->
  foldM (addItem secrets) content (0, []) = Ok (bytes, texts) -> units texts.
Proof.
  intros Hc H. change (units (bytes, texts).2). revert H. apply foldM_invariant with (I := fun acc => units acc.2); [|constructor].
  intros [n acc] item [n' acc'] Hin Hacc H. cbn [snd] in *. unfold addItem in H.
  destruct (itemText item) as [text|] eqn:Ei; [|done]. apply bind_ok in H as (? & _ & H).
  destruct (sanitizeTerminalText text _) as [sanitized|] eqn:Es; [|done].
  injection H as <- <-. apply list.Forall_app. split; [done|]. constructor; [|constructor].
  eapply sanitized_units; [|exact Es]. by eapply Hc.
Qed.

(** What is recorded of a completed MCP call can be recovered: every result the
    mapper returns is accepted by [recoverDurableMappedMcpResult], which gives
    back the same result, and its observation is within the bound of the
    caller. *)
Theorem mapped_result_is_recovered input maxObservationBytes secrets mapped :
  itemsUnits16 input ->
  mapMcpTextResult sha256 input maxObservationBytes secrets = Ok mapped ->
  recoverDurableMappedMcpResult sha256 mapped = Ok mapped /\ mmr_bytes mapped <= maxObservationBytes.
Proof.
  intros Hu H. unfold mapMcpTextResult in H. apply bind_ok in H as (_ & _ & H).
  destruct (plainRecord input) as [record|] eqn:Ep; [|done]. do 2 apply bind_ok in H as (_ & _ & H).
  destruct (jm_get (js "content") record) as [[| | | |content|]|] eqn:Ec; try done. apply bind_ok in H as (_ & _ & H).
  apply bind_ok in H as (isError & _ & H). apply bind_ok in H as ([bytes texts] & Htexts & H).
  apply bind_ok in H as ([text truncated] & Hb & H). cbn [snd] in *. injection H as <-.
  assert (Ht : units texts) by (eapply items_units; [|done]; intros; by eapply Hu).
  pose proof (bounded_ok texts isError maxObservationBytes Ht) as Hbound. rewrite Hb in Hbound.
  destruct Hbound as (Hlen & texts' & Hu' & Ho). split; [|done]. unfold recoverDurableMappedMcpResult.
  cbn [mmr_mapperVersion mmr_bytes mmr_observation mmr_observationSha256 mmr_status mmr_truncated].
  rewrite !(bool_decide_eq_true_2 (_ = _)) by done. rewrite Z.eqb_refl. cbn [negb orb throw_when mbind result_bind].
  rewrite (observation_parses _ _ _ _ Hu' Ho).
  replace (plainRecord _) with (Some [(js "is_error", VBool isError); (js "ok", VBool (negb isError));
    (js "text", VArray (VString <$> texts')); (js "truncated", VBool truncated);
    (js "version", VString (js MCP_RESULT_MAPPER_VERSION))]) by (vm_compute; reflexivity).
  by rewrite mapped_matches.
Qed.
End MapperFacts.

Definition sampleResult : jvalue := VObject [
  (js "content", VArray [VObject [(js "type", VString (js "text")); (js "text", VString (js "hello from the server"))]])].

Lemma mapped_result_is_recovered_witness : exists mapped,
  mapMcpTextResult standInHash sampleResult 100 [] = Ok mapped /\ mmr_truncated mapped = true /\
  recoverDurableMappedMcpResult standInHash mapped = Ok mapped /\ mmr_bytes mapped <= 100.
Proof.
  eexists. split; [vm_compute; reflexivity|]. split; [reflexivity|].
  apply (mapped_result_is_recovered standInHash sampleResult 100 []).
  - intros record content item text E Ec Hin Ht. vm_compute in E. injection E as <-. vm_compute in Ec. injection Ec as <-.
    apply list_elem_of_singleton in Hin as ->. vm_compute in Ht. injection Ht as <-. repeat constructor; done.
  - vm_compute. reflexivity.
Defined.
