(* ===== verification/ContextSemantics.v ===== *)
(** * The context events of a session

    [src/context/context-event-semantics.ts]: the state machine that the writer
    and every reader of a log run over the context events of all runs: an
    estimate, at most one compaction, a plan and the encoded request of each
    step, before the step may start.  The state of a run lives in a map by run
    id; the state of a step is an object that events assign to. *)

From S2P Require Import Prelude JsString Domain Events Patch Completion RunEvents RunLog.
#[local] Open Scope Z_scope.

Record ContextStepState : Type := {
  cs_compaction : option ContextCompactionPayload; cs_encoded : option ModelRequestEncodedPayload;
  cs_estimate : option ContextEstimatePayload; cs_failure : option ContextFailurePayload;
  cs_plan : option ContextPlanPayload }.
#[export] Instance ContextStepState_eta : Eta ContextStepState := fun r =>
  Build_ContextStepState (cs_compaction r) (cs_encoded r) (cs_estimate r) (cs_failure r) (cs_plan r).
Definition emptyStep : ContextStepState := {|
  cs_compaction := None; cs_encoded := None; cs_estimate := None; cs_failure := None; cs_plan := None |}.

Record ContextRunState : Type := {
  cr_epoch : Z; cr_phase10Observed : bool; cr_startedSteps : gset Z; cr_steps : jsmap Z ContextStepState }.
#[export] Instance ContextRunState_eta : Eta ContextRunState := fun r =>
  Build_ContextRunState (cr_epoch r) (cr_phase10Observed r) (cr_startedSteps r) (cr_steps r).

(** The state of the loop over the log. *)
Record ContextSemantics : Type := { cxs_runs : gmap string ContextRunState; cxs_sessionEpoch : Z }.
#[export] Instance ContextSemantics_eta : Eta ContextSemantics := fun r =>
  Build_ContextSemantics (cxs_runs r) (cxs_sessionEpoch r).
Definition noContext : ContextSemantics := {| cxs_runs := ∅; cxs_sessionEpoch := 0 |}.

Record ContextEventSemanticError : Type := { cse_message : string; cse_runId : string; cse_sessionSeq : Z }.

Notation present o := (match o with Some _ => true | None => false end) (only parsing).

Definition stepOf (state : ContextRunState) (step : Z) : ContextStepState :=
  default emptyStep (jm_get step (cr_steps state)).
Definition setStep (step : Z) (value : ContextStepState) (state : ContextRunState) : ContextRunState :=
  state <| cr_steps ::= jm_set step value |>.

Definition contextBudgetReason (reason : AgentBudgetReason) : bool :=
  bool_decide (reason ∈ [context_estimate_overflow; context_protected_overflow; context_unsafe_compaction]).

Section Event.
Variables runId : string.
Variable sessionSeq : Z.

Definition refuse {A} (message : string) : result ContextEventSemanticError A :=
  Err {| cse_message := message; cse_runId := runId; cse_sessionSeq := sessionSeq |}.
Definition refuseWhen (b : bool) (message : string) : result ContextEventSemanticError () :=
  if b then refuse message else Ok ().

Definition activatePhase10 (state : ContextRunState) : result ContextEventSemanticError ContextRunState :=
  _ ← refuseWhen (existsb (fun step => negb (present (jm_get step (cr_steps state) ≫= cs_encoded)))
                    (elements (cr_startedSteps state)))
        "Phase 10 run contains an agent step without a durable encoded request";
  Ok (state <| cr_phase10Observed := true |>).

Definition onEstimate (d : ContextEstimatePayload) (state : ContextRunState)
  : result ContextEventSemanticError ContextRunState :=
  let step := stepOf state (cxe_step d) in
  _ ← refuseWhen (present (cs_estimate step) || negb (cxe_epoch d =? cr_epoch state))
        "context estimate duplicates a step or uses a stale epoch";
  Ok (setStep (cxe_step d) (step <| cs_estimate := Some d |>) state).

Definition onCompaction (d : ContextCompactionPayload) (state : ContextRunState)
  : result ContextEventSemanticError ContextRunState :=
  let step := stepOf state (cxc_step d) in
  _ ← refuseWhen
        (match cs_estimate step with
         | None => true
         | Some estimate =>
             present (cs_compaction step) || present (cs_plan step) ||
             negb (cxc_from_epoch d =? cr_epoch state) || negb (cxc_to_epoch d =? cr_epoch state + 1) ||
             negb (cxc_estimated_input_tokens d =? cxe_estimated_input_tokens estimate) ||
             negb (cxc_target_input_tokens d =? cxe_compaction_target_tokens estimate)
         end) "context compaction does not match its durable estimate";
  Ok (setStep (cxc_step d) (step <| cs_compaction := Some d |>) state).

(** With the epoch of the plan, which becomes that of the run and the session. *)
Definition onPlan (d : ContextPlanPayload) (state : ContextRunState)
  : result ContextEventSemanticError ContextRunState :=
  let step := stepOf state (cxp_step d) in
  let expectedEpoch := if present (cs_compaction step) then cr_epoch state + 1 else cr_epoch state in
  _ ← refuseWhen
        (match cs_estimate step with
         | None => true
         | Some estimate =>
             present (cs_plan step) || present (cs_failure step) || negb (cxp_epoch d =? expectedEpoch) ||
             negb (eqb (cxp_compacted d) (present (cs_compaction step))) ||
             (cxe_absolute_input_tokens estimate <? cxp_estimated_input_tokens d)
         end) "context plan does not match its estimate/compaction epoch";
  Ok (setStep (cxp_step d) (step <| cs_plan := Some d |>) state <| cr_epoch := cxp_epoch d |>).

Definition onEncoded (d : ModelRequestEncodedPayload) (state : ContextRunState)
  : result ContextEventSemanticError ContextRunState :=
  let step := stepOf state (mre_step d) in
  _ ← refuseWhen
        (match cs_plan step with
         | None => true
         | Some plan =>
             present (cs_encoded step) || present (cs_failure step) || negb (mre_epoch d =? cxp_epoch plan) ||
             (mre_canonical_context_sha256 d !== cxp_canonical_context_sha256 plan)
         end) "encoded model request has no matching durable context plan";
  Ok (setStep (mre_step d) (step <| cs_encoded := Some d |>) state).

Definition onFailure (d : ContextFailurePayload) (state : ContextRunState)
  : result ContextEventSemanticError ContextRunState :=
  let step := stepOf state (cxf_step d) in
  _ ← refuseWhen
        (match cs_estimate step with
         | None => true
         | Some estimate =>
             present (cs_failure step) || present (cs_plan step) || present (cs_encoded step) ||
             negb (cxf_epoch d =? cxe_epoch estimate)
         end) "context failure has no matching unplanned estimate";
  Ok (setStep (cxf_step d) (step <| cs_failure := Some d |>) state).

Definition onStepStarted (d : AgentStepStartedPayload) (state : ContextRunState)
  : result ContextEventSemanticError ContextRunState :=
  let state := state <| cr_startedSteps ::= union {[ass_step d]} |> in
  _ ← refuseWhen (cr_phase10Observed state && negb (present (jm_get (ass_step d) (cr_steps state) ≫= cs_encoded)))
        "agent step started before model.request.encoded was durable";
  Ok state.

Definition onBudgetExceeded (d : RunBudgetExceededPayload) (state : ContextRunState)
  : result ContextEventSemanticError ContextRunState :=
  if negb (contextBudgetReason (rbe_reason d)) then Ok state
  else
    let failure := last (omap cs_failure (jm_values (cr_steps state))) in
    _ ← refuseWhen
          (match failure with
           | None => true
           | Some failure =>
               (cxf_reason failure !== rbe_reason d) || negb (cxf_limit_input_tokens failure =? rbe_limit d) ||
               negb (cxf_estimated_input_tokens failure =? rbe_observed d)
           end) "context budget terminal does not match compaction failure";
    Ok state.

Definition onContextEvent (event : ContextEvent) (state : ContextRunState)
  : result ContextEventSemanticError ContextRunState :=
  state ← activatePhase10 state;
  match event with
  | context_repository_observed => Ok state
  | context_estimate_created d => onEstimate d state
  | context_compaction_started d => onCompaction d state
  | context_plan_created d => onPlan d state
  | model_request_encoded d => onEncoded d state
  | context_compaction_failed d => onFailure d state
  end.

(** What an event does to the state of its run. *)
Definition onRunEvent (data : RunLogData) (state : ContextRunState)
  : result ContextEventSemanticError ContextRunState :=
  match data with
  | log_context event => onContextEvent event state
  | log_event (ev_agent_step_started d) => onStepStarted d state
  | log_event (ev_run_budget_exceeded d) => onBudgetExceeded d state
  | _ => Ok state
  end.
End Event.

(** A plan also moves the epoch that the next run starts in. *)
Definition sessionEpochAfter (data : RunLogData) (epoch : Z) : Z :=
  match data with log_context (context_plan_created d) => cxp_epoch d | _ => epoch end.

Definition contextEvent (state : ContextSemantics) (event : DecodedRunEvent)
  : result ContextEventSemanticError ContextSemantics :=
  match de_data event with
  | log_event (ev_run_started _) =>
      Ok (state <| cxs_runs ::= <[de_runId event := {| cr_epoch := cxs_sessionEpoch state;
            cr_phase10Observed := false; cr_startedSteps := ∅; cr_steps := [] |}]> |>)
  | data =>
      match cxs_runs state !! de_runId event with
      | None => refuse (de_runId event) (de_sessionSeq event) "context event has no run.started"
      | Some run =>
          run ← onRunEvent (de_runId event) (de_sessionSeq event) data run;
          Ok (state <| cxs_runs ::= <[de_runId event := run]> |>
                    <| cxs_sessionEpoch ::= sessionEpochAfter data |>)
      end
  end.

Definition assertPhase10ContextEventSemantics (events : list DecodedRunEvent)
  : result ContextEventSemanticError ContextSemantics :=
  foldM contextEvent events noContext.

(** ** A step starts from a durable request

    What [assertPhase10ContextEventSemantics] promises of the logs it accepts:
    in a run with context events, every step that starts has its request on
    record before it, made from a plan on record before that, within the
    capacity of an estimate on record before that. *)

(** ** What the log says *)

Definition estimated (k : list DecodedRunEvent) (r : string) (step : Z) (e : ContextEstimatePayload) : Prop :=
  exists pre, at_run k pre r (log_context (context_estimate_created e)) /\ cxe_step e = step.
Definition planned (k : list DecodedRunEvent) (r : string) (step : Z) (e : ContextEstimatePayload)
    (p : ContextPlanPayload) : Prop :=
  exists pre, at_run k pre r (log_context (context_plan_created p)) /\ cxp_step p = step /\
    estimated pre r step e /\ cxp_estimated_input_tokens p <= cxe_absolute_input_tokens e.
Definition requested (k : list DecodedRunEvent) (r : string) (step : Z) (e : ContextEstimatePayload)
    (p : ContextPlanPayload) (q : ModelRequestEncodedPayload) : Prop :=
  exists pre, at_run k pre r (log_context (model_request_encoded q)) /\ mre_step q = step /\
    planned pre r step e p /\ mre_epoch q = cxp_epoch p /\
    mre_canonical_context_sha256 q = cxp_canonical_context_sha256 p.

Definition isContextEvent (data : RunLogData) : bool := match data with log_context _ => true | _ => false end.

Lemma estimated_app k k' r n e : estimated k r n e -> estimated (k ++ k') r n e.
Proof. intros (pre & H & Hn). exists pre. split; [by apply at_run_app|done]. Qed.
Lemma planned_app k k' r n e p : planned k r n e p -> planned (k ++ k') r n e p.
Proof. intros (pre & H & Hp). exists pre. split; [by apply at_run_app|done]. Qed.
Lemma requested_app k k' r n e p q : requested k r n e p q -> requested (k ++ k') r n e p q.
Proof. intros (pre & H & Hq). exists pre. split; [by apply at_run_app|done]. Qed.

(** ** The invariant *)

Record step_on_record (k : list DecodedRunEvent) (r : string) (n : Z) (step : ContextStepState) : Prop := {
  so_estimate e : cs_estimate step = Some e -> estimated k r n e;
  so_plan p : cs_plan step = Some p -> exists e, planned k r n e p;
  so_encoded q : cs_encoded step = Some q -> exists e p, requested k r n e p q }.

Definition startsStep (event : DecodedRunEvent) (r : string) (n : Z) : Prop :=
  de_runId event = r /\ exists d, de_data event = log_event (ev_agent_step_started d) /\ ass_step d = n.

Record run_on_record (k : list DecodedRunEvent) (r : string) (state : ContextRunState) : Prop := {
  ro_steps n step : jm_get n (cr_steps state) = Some step -> step_on_record k r n step;
  ro_quiet : cr_phase10Observed state = false -> cr_steps state = [];
  ro_observed event : event ∈ k -> de_runId event = r -> isContextEvent (de_data event) = true ->
    cr_phase10Observed state = true;
  ro_started event n : event ∈ k -> startsStep event r n -> n ∈ cr_startedSteps state;
  ro_ready pre event post n : cr_phase10Observed state = true -> k = pre ++ event :: post -> startsStep event r n ->
    exists e p q, requested pre r n e p q }.

Lemma step_on_record_app k k' r n step : step_on_record k r n step -> step_on_record (k ++ k') r n step.
Proof.
  intros [He Hp Hq]. split.
  - intros e H. by apply estimated_app, He.
  - intros p H. destruct (Hp p H) as [e ?]. exists e. by apply planned_app.
  - intros q H. destruct (Hq q H) as (e & p & ?). exists e, p. by apply requested_app.
Qed.

Lemma empty_on_record k r n : step_on_record k r n emptyStep.
Proof. by split. Qed.

(** An event of another run. *)
Lemma run_on_record_other k x r state :
  de_runId x <> r -> run_on_record k r state -> run_on_record (k ++ [x]) r state.
Proof.
  intros Hx [Hsteps Hquiet Hobs Hst Hready]. split; [|done| | |].
  - intros n step H. by apply step_on_record_app, Hsteps.
  - intros event [Hin| ->%list_elem_of_singleton]%elem_of_app Hr; [by apply (Hobs event)|done].
  - intros event n [Hin| ->%list_elem_of_singleton]%elem_of_app [Hr Hd]; [by apply (Hst event)|done].
  - intros pre event post n Ho [(_ & _ & ->)|(post' & _ & ->)]%split_snoc [Hr Hd]; [done|].
    by eapply (Hready pre event post').
Qed.

Lemma stepOf_on_record k r state n : run_on_record k r state -> step_on_record k r n (stepOf state n).
Proof.
  intros H. unfold stepOf. destruct (jm_get n (cr_steps state)) as [step|] eqn:E; [by eapply ro_steps|apply empty_on_record].
Qed.

(** ** Every event keeps it *)

Lemma refuseWhen_ok r s b message u : refuseWhen r s b message = Ok u -> b = false.
Proof. by destruct b. Qed.

(** A context event of an active run, which may set its steps. *)
Lemma run_on_record_context k x state steps epoch :
  isContextEvent (de_data x) = true -> run_on_record k (de_runId x) state ->
  (cr_phase10Observed state = false -> cr_startedSteps state = ∅) ->
  (forall n step, jm_get n steps = Some step -> step_on_record (k ++ [x]) (de_runId x) n step) ->
  run_on_record (k ++ [x]) (de_runId x)
    {| cr_epoch := epoch; cr_phase10Observed := true; cr_startedSteps := cr_startedSteps state; cr_steps := steps |}.
Proof.
  intros Hx [Hsteps Hquiet Hobs Hst Hready] Hidle Hnew. split; cbn; [exact Hnew|done|done| |].
  - intros event m [Hin| ->%list_elem_of_singleton]%elem_of_app Hd; [by apply (Hst event)|].
    destruct Hd as [_ (d & E & _)]. by rewrite E in Hx.
  - intros pre event post m _ [(_ & _ & ->)|(post' & _ & ->)]%split_snoc Hd.
    { destruct Hd as [_ (d & E & _)]. by rewrite E in Hx. }
    destruct (cr_phase10Observed state) eqn:Eo; [by eapply (Hready pre event post')|].
    assert (m ∈ cr_startedSteps state) as Hm by (apply (Hst event); [set_solver|done]).
    rewrite Hidle in Hm by done. set_solver.
Qed.

Lemma activate_ok k r seq state state' :
  run_on_record k r state -> activatePhase10 r seq state = Ok state' ->
  state' = state <| cr_phase10Observed := true |> /\ (cr_phase10Observed state = false -> cr_startedSteps state = ∅).
Proof.
  intros H Ha. apply bind_ok in Ha as (u & Hu%refuseWhen_ok & [= <-]). split; [done|]. intros Hq.
  rewrite (ro_quiet _ _ _ H Hq), existsb_false in Hu. apply set_eq. intros n. split; [|set_solver].
  intros Hn%elem_of_elements. by apply Hu in Hn.
Qed.

(** The step a context event assigns to, after it. *)
Lemma assigned k x state n value m step :
  run_on_record k (de_runId x) state -> step_on_record (k ++ [x]) (de_runId x) n value ->
  jm_get m (jm_set n value (cr_steps state)) = Some step -> step_on_record (k ++ [x]) (de_runId x) m step.
Proof. intros H Hv [[-> ->]|[_ Hm]]%jm_set_Some; [done|]. by apply step_on_record_app, (ro_steps _ _ _ H). Qed.

Lemma context_on_record k x event state state' :
  de_data x = log_context event -> run_on_record k (de_runId x) state ->
  onContextEvent (de_runId x) (de_sessionSeq x) event state = Ok state' -> run_on_record (k ++ [x]) (de_runId x) state'.
Proof.
  intros Hx Hs H. apply bind_ok in H as (state1 & Ha & H). destruct (activate_ok _ _ _ _ _ Hs Ha) as [-> Hidle].
  assert (Hc : isContextEvent (de_data x) = true) by (by rewrite Hx).
  pose proof (at_run_last k x) as Hlast. rewrite Hx in Hlast.
  destruct event as [d|d|d|d|d|]; [apply bind_ok in H as (u & Hr%refuseWhen_ok & [= <-])..|injection H as <-].
  all: (apply (run_on_record_context k x state); [exact Hc|exact Hs|exact Hidle|]).
  6: { intros n step Hn. by apply step_on_record_app, (ro_steps _ _ _ Hs). }
  all: (intros n step; apply (assigned k x state); [exact Hs|]).
  - destruct (step_on_record_app _ [x] _ _ _ (stepOf_on_record _ _ _ (cxe_step d) Hs)) as [_ Hp Hq]. split; [|exact Hp|exact Hq].
    intros e [= <-]. by exists k.
  - destruct (step_on_record_app _ [x] _ _ _ (stepOf_on_record _ _ _ (cxc_step d) Hs)) as [He Hp Hq]. by split.
  - destruct (stepOf_on_record _ _ _ (cxp_step d) Hs) as [He _ _].
    destruct (step_on_record_app _ [x] _ _ _ (stepOf_on_record _ _ _ (cxp_step d) Hs)) as [He' _ Hq]. split; [exact He'| |exact Hq].
    intros p [= <-]. change (stepOf (state <| cr_phase10Observed := true |>)) with (stepOf state) in Hr.
    destruct (cs_estimate (stepOf state (cxp_step d))) as [e|]; [|done]. rewrite !orb_false_iff, Z.ltb_ge in Hr.
    exists e, k. split_and!; [done..|by apply He|lia].
  - destruct (stepOf_on_record _ _ _ (mre_step d) Hs) as [_ Hp _].
    destruct (step_on_record_app _ [x] _ _ _ (stepOf_on_record _ _ _ (mre_step d) Hs)) as [He' Hp' _]. split; [exact He'|exact Hp'|].
    intros q [= <-]. change (stepOf (state <| cr_phase10Observed := true |>)) with (stepOf state) in Hr.
    destruct (cs_plan (stepOf state (mre_step d))) as [p|]; [|done].
    rewrite !orb_false_iff, !negb_false_iff, Z.eqb_eq, bool_decide_eq_true in Hr. destruct (Hp p eq_refl) as [e ?].
    exists e, p, k. split_and!; tauto.
  - destruct (step_on_record_app _ [x] _ _ _ (stepOf_on_record _ _ _ (cxf_step d) Hs)) as [He Hp Hq]. by split.
Qed.

Lemma start_on_record k x d state state' :
  de_data x = log_event (ev_agent_step_started d) -> run_on_record k (de_runId x) state ->
  onStepStarted (de_runId x) (de_sessionSeq x) d state = Ok state' -> run_on_record (k ++ [x]) (de_runId x) state'.
Proof.
  intros Hx Hs H. apply bind_ok in H as (u & Hr%refuseWhen_ok & [= <-]). cbn in Hr.
  pose proof Hs as [Hsteps Hquiet Hobs Hst Hready]. split; cbn.
  - intros n step Hn. by apply step_on_record_app, Hsteps.
  - exact Hquiet.
  - intros event [Hin| ->%list_elem_of_singleton]%elem_of_app Hrun Hc; [by apply (Hobs event)|]. by rewrite Hx in Hc.
  - intros event n [Hin| ->%list_elem_of_singleton]%elem_of_app Hd; [apply elem_of_union; right; by apply (Hst event)|].
    destruct Hd as [_ (d' & E & <-)]. rewrite Hx in E. injection E as <-. set_solver.
  - intros pre event post n Ho [(_ & -> & ->)|(post' & _ & ->)]%split_snoc Hd; [|by eapply (Hready pre event post')].
    destruct Hd as [_ (d' & E & <-)]. rewrite Hx in E. injection E as <-. rewrite Ho in Hr. cbn in Hr.
    destruct (jm_get (ass_step d) (cr_steps state)) as [step|] eqn:Es; [|done]. cbn in Hr.
    destruct (cs_encoded step) as [q|] eqn:Eq; [|done]. destruct (so_encoded _ _ _ _ (Hsteps _ _ Es) q Eq) as (e & p & ?). by exists e, p, q.
Qed.

(** An event that leaves the state alone. *)
Lemma same_on_record k x state :
  isContextEvent (de_data x) = false -> (forall n, ~ startsStep x (de_runId x) n) ->
  run_on_record k (de_runId x) state -> run_on_record (k ++ [x]) (de_runId x) state.
Proof.
  intros Hc Hn [Hsteps Hquiet Hobs Hst Hready]. split.
  - intros n step H. by apply step_on_record_app, Hsteps.
  - exact Hquiet.
  - intros event [Hin| ->%list_elem_of_singleton]%elem_of_app Hr Hx; [by apply (Hobs event)|by rewrite Hc in Hx].
  - intros event n [Hin| ->%list_elem_of_singleton]%elem_of_app Hd; [by apply (Hst event)|by destruct (Hn n)].
  - intros pre event post n Ho [(_ & _ & ->)|(post' & _ & ->)]%split_snoc Hd; [by destruct (Hn n)|by eapply (Hready pre event post')].
Qed.

Lemma run_event_on_record k x state state' :
  run_on_record k (de_runId x) state -> onRunEvent (de_runId x) (de_sessionSeq x) (de_data x) state = Ok state' ->
  run_on_record (k ++ [x]) (de_runId x) state'.
Proof.
  intros Hs H. destruct (de_data x) as [draft|d|d|d|d|event|event|type] eqn:Ex.
  2-5,7-8: (injection H as <-; apply same_on_record; [by rewrite Ex|intros n [_ (d' & E & _)]; by rewrite Ex in E|done]).
  2: by eapply context_on_record.
  destruct draft; try (injection H as <-; apply same_on_record; [by rewrite Ex|intros n [_ (d' & E & _)]; by rewrite Ex in E|done]).
  - by eapply start_on_record.
  - cbn [onRunEvent] in H. unfold onBudgetExceeded in H. destruct (negb _).
    + injection H as <-. apply same_on_record; [by rewrite Ex|intros n [_ (d' & E & _)]; by rewrite Ex in E|done].
    + apply bind_ok in H as (? & _ & [= <-]). apply same_on_record; [by rewrite Ex|intros n [_ (d' & E & _)]; by rewrite Ex in E|done].
Qed.

(** ** The session *)

Lemma started_on_record k x epoch :
  isRunStart (de_data x) = true -> (forall event, event ∈ k -> de_runId event <> de_runId x) ->
  run_on_record (k ++ [x]) (de_runId x)
    {| cr_epoch := epoch; cr_phase10Observed := false; cr_startedSteps := ∅; cr_steps := [] |}.
Proof.
  intros Hx Hnew. split; cbn; try done.
  - intros event [Hin| ->%list_elem_of_singleton]%elem_of_app Hrun Hc; [by apply Hnew in Hin|].
    destruct (de_data x) as [[]| | | | | | |]; done.
  - intros event n [Hin| ->%list_elem_of_singleton]%elem_of_app [Hrun (d & E & _)]; [by apply Hnew in Hin|by rewrite E in Hx].
Qed.

Lemma accepted_on_record events state :
  assertPhase10ContextEventSemantics events = Ok state -> runs_inv cxs_runs run_on_record events state.
Proof.
  apply (run_invariant contextEvent cxs_runs noContext run_on_record); [done|exact run_on_record_other| |].
  - intros m x m' k Hx H Hnew. unfold contextEvent in H. eexists. split; [|by apply started_on_record].
    destruct (de_data x) as [[]| | | | | | |]; try done. by injection H as <-.
  - intros m x m' k Hx H Hk.
    assert (H' : exists run run', cxs_runs m !! de_runId x = Some run /\
      onRunEvent (de_runId x) (de_sessionSeq x) (de_data x) run = Ok run' /\ cxs_runs m' = <[de_runId x := run']> (cxs_runs m)).
    { unfold contextEvent in H. destruct (de_data x) as [[]| | | | | | |]; try done;
        (destruct (cxs_runs m !! de_runId x) as [run|]; [|done]);
        apply bind_ok in H as (run' & Hrun & [= <-]); by exists run, run'. }
    destruct H' as (run & run' & Hrun & Hev & ->). exists run, run'. split_and!; [done..|].
    eapply run_event_on_record; [by apply Hk|done].
Qed.

(** In a log that the writer accepts, a step of a run with context events starts
    only after its request is on record: before the step stands the encoded
    request of that step, before it the plan it encodes, of the same epoch and
    digest, and before that the estimate whose capacity the plan is within.  A
    run id is started once, which the decoder of the log makes sure of. *)
Theorem step_starts_from_durable_request events state pre event post d :
  assertPhase10ContextEventSemantics events = Ok state -> NoDup (runStarts events) ->
  events = pre ++ event :: post -> de_data event = log_event (ev_agent_step_started d) ->
  (exists other, other ∈ events /\ de_runId other = de_runId event /\ isContextEvent (de_data other) = true) ->
  exists e p q, requested pre (de_runId event) (ass_step d) e p q.
Proof.
  intros Ha Hnd Hsplit Hd (other & Hin & Hrun & Hc). pose proof (accepted_on_record _ _ Ha Hnd (de_runId event)) as H.
  destruct (cxs_runs state !! de_runId event) as [run|]; [|by apply H in Hin]. destruct H as [_ H].
  eapply (ro_ready _ _ _ H); [by eapply ro_observed|exact Hsplit|]. split; [done|]. by exists d.
Qed.

(** ** A run of one step *)

Definition contextLog (data : list RunLogData) : list DecodedRunEvent :=
  imap (fun i data => {| de_sessionId := "s"; de_runId := "r"; de_runSeq := Z.of_nat (S i);
                         de_sessionSeq := Z.of_nat (S i); de_data := data |}) data.
Definition firstStep : AgentStepStartedPayload := {| ass_input_kind := input_user_task; ass_step := 1 |}.
Definition preparedRun : list RunLogData := [
  log_event (ev_run_started {| rst_command := command_agent; rst_model := "m"; rst_provider := "p"; rst_resume_mode := None;
                               rst_resume_of_run_id := None; rst_task_profile := None |});
  log_context (context_estimate_created {| cxe_absolute_input_tokens := 100; cxe_compaction_target_tokens := 50;
    cxe_epoch := 0; cxe_estimated_input_tokens := 80; cxe_step := 1 |});
  log_context (context_compaction_started {| cxc_estimated_input_tokens := 80; cxc_from_epoch := 0; cxc_step := 1;
    cxc_target_input_tokens := 50; cxc_to_epoch := 1 |});
  log_context (context_plan_created {| cxp_canonical_context_sha256 := "h"; cxp_compacted := true; cxp_epoch := 1;
    cxp_estimated_input_tokens := 48; cxp_step := 1 |});
  log_context (model_request_encoded {| mre_canonical_context_sha256 := "h"; mre_epoch := 1; mre_step := 1 |})].

Lemma step_starts_from_durable_request_witness :
  exists e p q, requested (contextLog preparedRun) "r" 1 e p q.
Proof.
  eapply (step_starts_from_durable_request (contextLog (preparedRun ++ [log_event (ev_agent_step_started firstStep)])) _ _
    {| de_sessionId := "s"; de_runId := "r"; de_runSeq := 6; de_sessionSeq := 6;
       de_data := log_event (ev_agent_step_started firstStep) |} [] firstStep).
  - vm_compute. reflexivity.
  - apply (bool_decide_unpack _). vm_compute. exact I.
  - reflexivity.
  - reflexivity.
  - exists {| de_sessionId := "s"; de_runId := "r"; de_runSeq := 2; de_sessionSeq := 2; de_data := log_context (context_estimate_created
      {| cxe_absolute_input_tokens := 100; cxe_compaction_target_tokens := 50;
         cxe_epoch := 0; cxe_estimated_input_tokens := 80; cxe_step := 1 |}) |}.
    split; [|done]. cbn. right. by left.
Defined.

(** A step that starts without its request is refused. *)
Example unprepared_step : is_ok (assertPhase10ContextEventSemantics
  (contextLog (take 4 preparedRun ++ [log_event (ev_agent_step_started firstStep)]))) = false.
Proof. vm_compute. reflexivity. Qed.
