(* ===== verification/PendingEffects.v ===== *)
(** * The pending effects of a run

    [src/resume/pending-effect-ledger.ts]: what a run that ended, or crashed,
    has left behind, read from its log: calls without a result, patches and
    commands whose effect is not known, and effects that completed without the
    result of their call.  A key [runId\0localId] is a pair; the Maps that the
    source iterates keep their order. *)

From S2P Require Import Prelude JsString CanonicalJson Domain Events Utf8 Patch SourceSnapshot Completion Verification JsonParse RunEvents RunLog EventPublisher ToolErrors McpResult.
#[local] Open Scope Z_scope.

(** [map.delete(key)] *)
Definition jm_delete {K V} `{EqDecision K} (k : K) (m : jsmap K V) : jsmap K V :=
  List.filter (fun kv => negb (bool_decide (kv.1 = k))) m.

(** [JSON.stringify]: the properties in their order, undefined ones dropped. *)
Fixpoint jsonStringify (value : json) : jstring :=
  match value with
  | JUndefined | JNull => js "null"
  | JBool b => js (if b then "true" else "false")
  | JNum n => stringifyNumber n
  | JStr s => stringifyString s
  | JArr entries => 0x5b :: joinUnit comma (List.map jsonStringify entries) ++ [0x5d]
  | JObj record =>
      0x7b :: joinUnit comma
        (List.flat_map (fun '(k, v) => if isUndefined v then [] else [fieldText (k, jsonStringify v)]) record) ++ [0x7d]
  end.

(** ** Data ([resume-types.ts]) *)

Inductive PendingToolKind : Type :=
| kind_read_only | kind_apply_patch | kind_run_command | kind_finish_task | kind_mcp | kind_unknown.
#[export] Instance PendingToolKind_eq : EqDecision PendingToolKind.
Proof. solve_decision. Defined.

Record ApprovalExpiry : Type := {
  ae_actionKind : ActionKind; ae_actionSha256 : option string; ae_approvalRequestId : string;
  ae_callId : string; ae_decision : option ApprovalDecision; ae_sourceRunId : string }.

Record PendingToolCall : Type := {
  ptc_argumentsJson : jstring; ptc_callId : string; ptc_kind : PendingToolKind;
  ptc_providerResponseId : option string; ptc_sourceRunId : string; ptc_step : Z; ptc_toolName : string }.

Record PendingPatchFile : Type := {
  ppf_kind : PatchChangeKind; ppf_path : jstring; ppf_postSha256 : option string; ppf_preSha256 : option string }.
Record PendingPatchEffect : Type := {
  ppe_approvalRequestId : string; ppe_callId : string; ppe_files : list PendingPatchFile; ppe_planId : string;
  ppe_sourceRunId : string; ppe_step : Z }.

Inductive CommandStage : Type := stage_requested | stage_started.
Record UnknownCommandEffect : Type := {
  uce_actionSha256 : string; uce_callId : string; uce_executionId : string; uce_sourceRunId : string;
  uce_stage : CommandStage; uce_step : Z }.

Inductive EffectKind : Type := effect_patch | effect_command | effect_mcp.
#[export] Instance EffectKind_eq : EqDecision EffectKind.
Proof. solve_decision. Defined.
Record RecoveredInnerEffect : Type := {
  rie_callId : string; rie_effectId : string; rie_kind : EffectKind; rie_observation : RecoveredToolObservation;
  rie_sourceRunId : string; rie_step : Z }.

Inductive McpStage : Type := mcp_requested | mcp_started | mcp_effect_unknown.
Record UnknownMcpCallEffect : Type := {
  umc_actionSha256 : string; umc_callId : string; umc_serverId : string; umc_sourceRunId : string;
  umc_stage : McpStage; umc_step : Z }.
Record UnknownMcpServerEffect : Type := {
  ums_actionSha256 : string; ums_processIdentitySha256 : option string; ums_serverId : string;
  ums_sourceRunId : string; ums_stage : McpStage }.

Record PendingEffectLedger : Type := {
  pel_approvalsToExpire : list ApprovalExpiry; pel_pendingPatches : list PendingPatchEffect;
  pel_pendingToolCalls : list PendingToolCall; pel_recoveredInnerEffects : list RecoveredInnerEffect;
  pel_unknownCommands : list UnknownCommandEffect; pel_unknownMcpCalls : list UnknownMcpCallEffect;
  pel_unknownMcpServers : list UnknownMcpServerEffect }.
#[export] Instance PendingEffectLedger_eta : Eta PendingEffectLedger := fun r =>
  Build_PendingEffectLedger (pel_approvalsToExpire r) (pel_pendingPatches r) (pel_pendingToolCalls r)
    (pel_recoveredInnerEffects r) (pel_unknownCommands r) (pel_unknownMcpCalls r) (pel_unknownMcpServers r).

(** ** The observation of a completed command *)

Definition MAX_COMMAND_TOOL_OUTPUT_BYTES : Z := 1114112.
Definition OMITTED_SUFFIX : jstring := 0x0a :: js "[bornagent: output omitted to fit observation limit]".

(** The chunks of the two channels, in order. *)
Record CommandOutputAccumulator : Type := { coa_stderr : list jstring; coa_stdout : list jstring }.
#[export] Instance CommandOutputAccumulator_eta : Eta CommandOutputAccumulator := fun r =>
  Build_CommandOutputAccumulator (coa_stderr r) (coa_stdout r).
Definition noOutput : CommandOutputAccumulator := {| coa_stderr := []; coa_stdout := [] |}.
Definition channelOf (channel : OutputChannel) (output : CommandOutputAccumulator) : list jstring :=
  match channel with channel_stdout => coa_stdout output | channel_stderr => coa_stderr output end.
Definition pushChunk (channel : OutputChannel) (chunk : jstring) (output : CommandOutputAccumulator)
  : CommandOutputAccumulator :=
  match channel with
  | channel_stdout => output <| coa_stdout ::= fun chunks => chunks ++ [chunk] |>
  | channel_stderr => output <| coa_stderr ::= fun chunks => chunks ++ [chunk] |>
  end.

(** What the module throws; [fitting_out_of_fuel] stands for a loop that does
    not end. *)
Inductive RecoveryError : Type :=
| output_bytes_differ | observation_metadata_too_large | output_without_request | output_out_of_order
| completion_without_output | adopted_call_without_request | mcp_artifact_unverified
| mcp_result_unverified (error : McpError) | fitting_out_of_fuel.

(** The characters of [s] that fit in [maxBytes], from the left. *)
Fixpoint takeBytes (maxBytes : Z) (characters : list Z) : jstring :=
  match characters with
  | [] => []
  | c :: characters =>
      let bytes := byteLength (units c) in
      if maxBytes <? bytes then [] else units c ++ takeBytes (maxBytes - bytes) characters
  end.
Definition truncateUtf8 (value : jstring) (maxBytes : Z) : jstring :=
  if byteLength value <=? maxBytes then value else takeBytes maxBytes (codePoints value).

Record CommandError : Type := {
  cme_category : ToolErrorCategory; cme_code : string; cme_message : string; cme_retryable : bool }.
Definition commandError (termination : ExecutionTermination) : option CommandError :=
  let error category code message := Some {| cme_category := category; cme_code := code; cme_message := message;
                                             cme_retryable := false |} in
  match termination with
  | term_exit | term_signal | term_stale => None
  | term_cancelled => error error_cancelled "command_cancelled" "command execution was cancelled"
  | output_limit_exceeded =>
      error error_limit "command_output_limit_exceeded" "command output reached the configured limit"
  | term_timeout => error error_limit "command_timeout" "command reached the configured timeout"
  | spawn_error => error error_tool "command_spawn_failed" "command could not be started"
  | cleanup_failed =>
      error error_system "command_cleanup_failed" "command process tree cleanup could not be verified"
  end%string.

Definition terminationText (termination : ExecutionTermination) : string :=
  match termination with
  | term_cancelled => "cancelled" | cleanup_failed => "cleanup_failed" | term_exit => "exit"
  | output_limit_exceeded => "output_limit_exceeded" | term_signal => "signal" | spawn_error => "spawn_error"
  | term_stale => "stale" | term_timeout => "timeout"
  end.
Definition optional {A} (f : A -> json) (value : option A) : json :=
  match value with Some a => f a | None => JUndefined end.
Definition nullable {A} (f : A -> json) (value : option A) : json :=
  match value with Some a => f a | None => JNull end.
Definition jtext (s : string) : json := JStr (js s).

(** The observation with the given output. *)
Definition serializeCommand (completed : CommandCompletedPayload) (stdout stderr : jstring) (truncated : bool)
  : jstring :=
  let error := commandError (ccp_termination completed) in
  jsonStringify (JObj [
    (js "cleanup_verified", JBool (ccp_cleanup_verified completed));
    (js "duration_ms", JNum (ccp_duration_ms completed));
    (js "error_code", optional jtext (ccp_error_code completed));
    (js "exit_code", nullable JNum (ccp_exit_code completed));
    (js "signal", nullable JStr (ccp_signal completed));
    (js "stderr", JStr stderr);
    (js "stdout", JStr stdout);
    (js "termination", jtext (terminationText (ccp_termination completed)));
    (js "truncated", JBool truncated);
    (js "error", optional (fun e => JObj [
       (js "category", jtext (categoryText (cme_category e))); (js "code", jtext (cme_code e));
       (js "message", jtext (cme_message e)); (js "retryable", JBool (cme_retryable e))]) error);
    (js "ok", JBool (match error with None => true | Some _ => false end))]).

(** The loop that shortens the longer channel until the observation fits. *)
Fixpoint fitCommand (fuel : nat) (completed : CommandCompletedPayload) (stdout stderr : jstring) (truncated : bool)
  : result RecoveryError (jstring * bool) :=
  let text := serializeCommand completed stdout stderr truncated in
  if byteLength text <=? MAX_COMMAND_TOOL_OUTPUT_BYTES then Ok (text, truncated)
  else
    let trimStdout := byteLength stderr <=? byteLength stdout in
    let selected := if trimStdout then stdout else stderr in
    if (length selected =? 0)%nat then Err observation_metadata_too_large
    else match fuel with
         | O => Err fitting_out_of_fuel
         | S fuel =>
             let targetBytes := Z.max 0 (byteLength selected * 3 / 4) in
             let shortened :=
               truncateUtf8 selected (Z.max 0 (targetBytes - byteLength OMITTED_SUFFIX)) ++ OMITTED_SUFFIX in
             if trimStdout then fitCommand fuel completed shortened stderr true
             else fitCommand fuel completed stdout shortened true
         end.

Definition recoverCommandToolObservation (completed : CommandCompletedPayload) (chunks : CommandOutputAccumulator)
  : result RecoveryError RecoveredToolObservation :=
  let stdout := concat (coa_stdout chunks) in
  let stderr := concat (coa_stderr chunks) in
  if negb (byteLength stdout =? ccp_stdout_bytes completed) || negb (byteLength stderr =? ccp_stderr_bytes completed) ||
     negb (ccp_total_bytes completed =? ccp_stdout_bytes completed + ccp_stderr_bytes completed)
  then Err output_bytes_differ
  else
    let error := commandError (ccp_termination completed) in
    '(output, truncated) ← fitCommand (Z.to_nat (ccp_total_bytes completed)) completed stdout stderr
                             (ccp_truncated completed);
    Ok {| rto_errorCategory := cme_category <$> error; rto_errorCode := cme_code <$> error; rto_output := output;
          rto_retryable := cme_retryable <$> error;
          rto_status := match error with None => tool_success | Some _ => tool_error end;
          rto_truncated := truncated |}.

Definition recoverPatchToolObservation (completed : PatchApplyCompletedPayload) : RecoveredToolObservation := {|
  rto_errorCategory := None; rto_errorCode := None;
  rto_output := jsonStringify (JObj [
    (js "approved", JBool true);
    (js "files", JArr ((fun file => JObj [
       (js "kind", jtext (kindName (pfd_kind file))); (js "path", JStr (pfd_path file));
       (js "post_sha256", jtext (pfd_post_sha256 file)); (js "pre_sha256", nullable jtext (pfd_pre_sha256 file))])
       <$> pac_files completed));
    (js "plan_id", jtext (pac_plan_id completed));
    (js "stats", JObj [(js "added_lines", JNum (pac_added_lines completed));
                       (js "removed_lines", JNum (pac_removed_lines completed))]);
    (js "ok", JBool true)]);
  rto_retryable := None; rto_status := tool_success; rto_truncated := false |}.

(** ** The ledger *)

Definition RunKey : Type := (string * string).

Definition pendingToolKind (toolName : string) : PendingToolKind :=
  if startsWith (js toolName) (js "mcp__") then kind_mcp
  else if toolName === "apply_patch"%string then kind_apply_patch
  else if toolName === "run_command"%string then kind_run_command
  else if toolName === "finish_task"%string then kind_finish_task
  else if bool_decide (toolName ∈ ["list_files"; "read_file"; "search"]%string) then kind_read_only
  else kind_unknown.

(** The maps and sets of [reconstructPendingEffectLedger]. *)
Record LedgerState : Type := {
  ls_approvals : jsmap string ApprovalExpiry;
  ls_commandEffects : jsmap RunKey UnknownCommandEffect;
  ls_completedCommands : gset RunKey;
  ls_completedPatches : gset RunKey;
  ls_commandOutputs : gmap RunKey CommandOutputAccumulator;
  ls_innerEffects : jsmap (EffectKind * RunKey) RecoveredInnerEffect;
  ls_patchStarts : jsmap RunKey PendingPatchEffect;
  ls_pendingCalls : jsmap RunKey PendingToolCall;
  ls_completedCalls : gset RunKey }.
#[export] Instance LedgerState_eta : Eta LedgerState := fun r =>
  Build_LedgerState (ls_approvals r) (ls_commandEffects r) (ls_completedCommands r) (ls_completedPatches r)
    (ls_commandOutputs r) (ls_innerEffects r) (ls_patchStarts r) (ls_pendingCalls r) (ls_completedCalls r).
Definition emptyLedger : LedgerState := {|
  ls_approvals := []; ls_commandEffects := []; ls_completedCommands := ∅; ls_completedPatches := ∅;
  ls_commandOutputs := ∅; ls_innerEffects := []; ls_patchStarts := []; ls_pendingCalls := [];
  ls_completedCalls := ∅ |}.

(** [event.data.action_sha256] of an approval, which a patch may leave out. *)
Definition approvalSha (action : ApprovalAction) : option string :=
  match action with ApplyPatchAction sha _ _ _ => sha | RunCommandAction sha => Some sha end.

Definition pendingCallOf (runId : string) (d : ToolCallRequestedPayload) : PendingToolCall := {|
  ptc_argumentsJson := tcr_arguments_json d; ptc_callId := tcr_call_id d; ptc_kind := pendingToolKind (tcr_tool_name d);
  ptc_providerResponseId := tcr_provider_response_id d; ptc_sourceRunId := runId; ptc_step := tcr_step d;
  ptc_toolName := tcr_tool_name d |}.
Definition pendingPatchOf (runId : string) (d : PatchApplyStartedPayload) : PendingPatchEffect := {|
  ppe_approvalRequestId := pas_approval_request_id d; ppe_callId := pas_call_id d;
  ppe_files := (fun file => {| ppf_kind := pfs_kind file; ppf_path := pfs_path file;
                               ppf_postSha256 := pfs_post_sha256 file; ppf_preSha256 := pfs_pre_sha256 file |})
               <$> pas_files d;
  ppe_planId := pas_plan_id d; ppe_sourceRunId := runId; ppe_step := pas_step d |}.
Definition commandEffectOf (runId : string) (id : CommandIdentity) (stage : CommandStage) : UnknownCommandEffect := {|
  uce_actionSha256 := ci_action_sha256 id; uce_callId := ci_call_id id; uce_executionId := ci_execution_id id;
  uce_sourceRunId := runId; uce_stage := stage; uce_step := ci_step id |}.

(** One event of the run [runId]. *)
Definition ledgerEvent (st : LedgerState) (event : string * RunEventDraft) : result RecoveryError LedgerState :=
  let '(runId, draft) := event in
  match draft with
  | ev_approval_requested d =>
      Ok (st <| ls_approvals ::= jm_set (arp_approval_request_id d) {|
            ae_actionKind := approvalActionKind (arp_action d); ae_actionSha256 := approvalSha (arp_action d);
            ae_approvalRequestId := arp_approval_request_id d; ae_callId := arp_call_id d; ae_decision := None;
            ae_sourceRunId := runId |} |>)
  | ev_approval_decided d =>
      let previous := jm_get (adp_approval_request_id d) (ls_approvals st) in
      Ok (st <| ls_approvals ::= jm_set (adp_approval_request_id d) {|
            ae_actionKind := approvalActionKind (adp_action d);
            ae_actionSha256 := match approvalSha (adp_action d) with
                               | Some sha => Some sha
                               | None => previous ≫= ae_actionSha256
                               end;
            ae_approvalRequestId := adp_approval_request_id d; ae_callId := adp_call_id d;
            ae_decision := Some (adp_decision d);
            ae_sourceRunId := default runId (ae_sourceRunId <$> previous) |} |>)
  | ev_tool_call_requested d =>
      Ok (st <| ls_pendingCalls ::= jm_set (runId, tcr_call_id d) (pendingCallOf runId d) |>)
  | ev_tool_call_completed d =>
      let key := (runId, tcc_call_id d) in
      Ok (st <| ls_completedCalls ::= union {[key]} |> <| ls_pendingCalls ::= jm_delete key |>)
  | ev_patch_apply_started d =>
      Ok (st <| ls_patchStarts ::= jm_set (runId, pas_plan_id d) (pendingPatchOf runId d) |>)
  | ev_patch_apply_completed d =>
      let key := (runId, pac_plan_id d) in
      Ok (st <| ls_completedPatches ::= union {[key]} |> <| ls_patchStarts ::= jm_delete key |>
             <| ls_innerEffects ::= jm_set (effect_patch, key) {|
                  rie_callId := pac_call_id d; rie_effectId := pac_plan_id d; rie_kind := effect_patch;
                  rie_observation := recoverPatchToolObservation d; rie_sourceRunId := runId;
                  rie_step := pac_step d |} |>)
  | ev_command_requested d =>
      let key := (runId, ci_execution_id (crq_id d)) in
      Ok (st <| ls_commandEffects ::= jm_set key (commandEffectOf runId (crq_id d) stage_requested) |>
             <| ls_commandOutputs ::= <[key := noOutput]> |>)
  | ev_command_started id =>
      let key := (runId, ci_execution_id id) in
      let sourceRunId := default runId (uce_sourceRunId <$> jm_get key (ls_commandEffects st)) in
      Ok (st <| ls_commandEffects ::= jm_set key (commandEffectOf sourceRunId id stage_started) |>)
  | ev_command_output d =>
      let key := (runId, ci_execution_id (cop_id d)) in
      match ls_commandOutputs st !! key with
      | None => Err output_without_request
      | Some output =>
          _ ← throw_when (negb (cop_chunk_index d =? Z.of_nat (length (channelOf (cop_channel d) output)))) output_out_of_order;
          Ok (st <| ls_commandOutputs ::= <[key := pushChunk (cop_channel d) (cop_chunk d) output]> |>)
      end
  | ev_command_completed d =>
      let key := (runId, ci_execution_id (ccp_id d)) in
      match ls_commandOutputs st !! key with
      | None => Err completion_without_output
      | Some output =>
          if negb (ccp_cleanup_verified d) || (ccp_termination d === cleanup_failed) then Ok st
          else
            observation ← recoverCommandToolObservation d output;
            Ok (st <| ls_completedCommands ::= union {[key]} |> <| ls_commandEffects ::= jm_delete key |>
                   <| ls_innerEffects ::= jm_set (effect_command, key) {|
                        rie_callId := ci_call_id (ccp_id d); rie_effectId := ci_execution_id (ccp_id d);
                        rie_kind := effect_command; rie_observation := observation; rie_sourceRunId := runId;
                        rie_step := ci_step (ccp_id d) |} |>)
      end
  | _ => Ok st
  end.

Definition ledgerOf (st : LedgerState) : PendingEffectLedger := {|
  pel_approvalsToExpire := jm_values (ls_approvals st);
  pel_pendingPatches :=
    List.filter (fun effect => negb (bool_decide ((ppe_sourceRunId effect, ppe_planId effect) ∈ ls_completedPatches st)))
      (jm_values (ls_patchStarts st));
  pel_pendingToolCalls := jm_values (ls_pendingCalls st);
  pel_recoveredInnerEffects :=
    List.filter (fun effect => negb (bool_decide ((rie_sourceRunId effect, rie_callId effect) ∈ ls_completedCalls st)))
      (jm_values (ls_innerEffects st));
  pel_unknownCommands :=
    List.filter (fun effect =>
      negb (bool_decide ((uce_sourceRunId effect, uce_executionId effect) ∈ ls_completedCommands st)))
      (jm_values (ls_commandEffects st));
  pel_unknownMcpCalls := []; pel_unknownMcpServers := [] |}.

Definition reconstructPendingEffectLedger (events : list (string * RunEventDraft))
  : result RecoveryError PendingEffectLedger :=
  st ← foldM ledgerEvent events emptyLedger;
  Ok (ledgerOf st).

(** ** The events of a run, as the ledger reads them *)

(** [legacyDomainEvents] of [commands/sessions.ts]: the adoption of a call is
    read as its request; the other events that a publisher does not write are
    dropped. [runs] are the runs of the session with their events. *)
Definition legacyDomainEvent (runs : list (string * list DecodedRunEvent)) (event : DecodedRunEvent)
  : result RecoveryError (list (string * RunEventDraft)) :=
  match de_data event with
  | log_adopted d =>
      let source := List.find (fun run => run.1 === pad_source_run_id d) runs in
      let requests := omap (fun candidate => match de_data candidate with
                                             | log_event (ev_tool_call_requested r) =>
                                                 if tcr_call_id r === pad_source_call_id d then Some r else None
                                             | _ => None
                                             end) (default [] (snd <$> source)) in
      match head requests with
      | None => Err adopted_call_without_request
      | Some r => Ok [(de_runId event, ev_tool_call_requested {|
                         tcr_arguments_json := tcr_arguments_json r; tcr_call_id := pad_call_id d;
                         tcr_provider_response_id := tcr_provider_response_id r; tcr_step := tcr_step r;
                         tcr_tool_name := tcr_tool_name r |})]
      end
  | log_event (ev_run_completed d) =>
      let mode := if rcp_completion_mode d === Some mode_plan_ready then Some mode_model_final
                  else rcp_completion_mode d in
      Ok [(de_runId event, ev_run_completed {|
        rcp_completion_mode := mode; rcp_evidence_sha256 := rcp_evidence_sha256 d;
        rcp_model_turns := rcp_model_turns d; rcp_output_chars := rcp_output_chars d;
        rcp_report_sha256 := rcp_report_sha256 d; rcp_steps := rcp_steps d; rcp_tool_calls := rcp_tool_calls d |})]
  | log_event draft => Ok [(de_runId event, draft)]
  | _ => Ok []
  end.

Definition legacyDomainEvents (runs : list (string * list DecodedRunEvent)) (events : list DecodedRunEvent)
  : result RecoveryError (list (string * RunEventDraft)) :=
  foldM (fun acc event => more ← legacyDomainEvent runs event; Ok (acc ++ more)) events [].

(** ** MCP *)

Record McpLedgerState : Type := {
  ml_servers : jsmap RunKey UnknownMcpServerEffect; ml_calls : jsmap RunKey UnknownMcpCallEffect;
  ml_recovered : list RecoveredInnerEffect }.
#[export] Instance McpLedgerState_eta : Eta McpLedgerState := fun r =>
  Build_McpLedgerState (ml_servers r) (ml_calls r) (ml_recovered r).

Section Mcp.
Variable sha256 : jstring -> string.

Definition mcpCallEffect (runId : string) (d : McpCallIdentity) (stage : McpStage) : UnknownMcpCallEffect := {|
  umc_actionSha256 := mci_action_sha256 d; umc_callId := mci_call_id d; umc_serverId := mci_server_id d;
  umc_sourceRunId := runId; umc_stage := stage; umc_step := mci_step d |}.

Definition recoverMcpCall (runId : string) (d : McpCallCompletedPayload) : result RecoveryError RecoveredInnerEffect :=
  _ ← throw_when (match mcc_artifact_ref d with Some _ => true | None => false end) mcp_artifact_unverified;
  match recoverDurableMappedMcpResult sha256 {|
          mmr_bytes := mcc_bytes d; mmr_mapperVersion := mcc_mapper_version d; mmr_observation := mcc_observation d;
          mmr_observationSha256 := mcc_observation_sha256 d; mmr_status := mcc_status d;
          mmr_truncated := mcc_truncated d |} with
  | Err e => Err (mcp_result_unverified e)
  | Ok mapped =>
      let failed := mmr_status mapped !== tool_success in
      Ok {| rie_callId := mci_call_id (mcc_id d); rie_effectId := mci_action_sha256 (mcc_id d); rie_kind := effect_mcp;
            rie_observation := {|
              rto_errorCategory := if failed then Some error_tool else None;
              rto_errorCode := if failed then Some "mcp_tool_error"%string else None;
              rto_output := mmr_observation mapped; rto_retryable := if failed then Some false else None;
              rto_status := if failed then tool_error else tool_success; rto_truncated := mmr_truncated mapped |};
            rie_sourceRunId := runId; rie_step := mci_step (mcc_id d) |}
  end.

Definition mcpEvent (completedOuterCalls : gset RunKey) (st : McpLedgerState) (event : DecodedRunEvent)
  : result RecoveryError McpLedgerState :=
  let runId := de_runId event in
  match de_data event with
  | log_mcp (mcp_server_start_requested server_id action_sha256) =>
      Ok (st <| ml_servers ::= jm_set (runId, server_id) {| ums_actionSha256 := action_sha256;
            ums_processIdentitySha256 := None; ums_serverId := server_id; ums_sourceRunId := runId;
            ums_stage := mcp_requested |} |>)
  | log_mcp (mcp_server_start_failed server_id) | log_mcp (mcp_server_stopped server_id) =>
      Ok (st <| ml_servers ::= jm_delete (runId, server_id) |>)
  | log_mcp (mcp_server_start_effect_unknown server_id action_sha256) =>
      let previous := jm_get (runId, server_id) (ml_servers st) in
      Ok (st <| ml_servers ::= jm_set (runId, server_id) {| ums_actionSha256 := action_sha256;
            ums_processIdentitySha256 := previous ≫= ums_processIdentitySha256; ums_serverId := server_id;
            ums_sourceRunId := runId; ums_stage := mcp_effect_unknown |} |>)
  | log_mcp (mcp_server_started server_id action_sha256 process_identity_sha256) =>
      Ok (st <| ml_servers ::= jm_set (runId, server_id) {| ums_actionSha256 := action_sha256;
            ums_processIdentitySha256 := Some process_identity_sha256; ums_serverId := server_id;
            ums_sourceRunId := runId; ums_stage := mcp_started |} |>)
  | log_mcp (mcp_tool_call_started d) =>
      Ok (st <| ml_calls ::= jm_set (runId, mci_call_id d) (mcpCallEffect runId d mcp_started) |>)
  | log_mcp (mcp_tool_call_effect_unknown d) =>
      Ok (st <| ml_calls ::= jm_set (runId, mci_call_id d) (mcpCallEffect runId d mcp_effect_unknown) |>)
  | log_mcp (mcp_tool_call_completed d) =>
      let key := (runId, mci_call_id (mcc_id d)) in
      let st := st <| ml_calls ::= jm_delete key |> in
      if bool_decide (key ∈ completedOuterCalls) then Ok st
      else effect ← recoverMcpCall runId d; Ok (st <| ml_recovered ::= fun recovered => recovered ++ [effect] |>)
  | _ => Ok st
  end.

Definition mergeMcpPendingEffects (ledger : PendingEffectLedger) (events : list DecodedRunEvent)
  : result RecoveryError PendingEffectLedger :=
  let completedOuterCalls : gset RunKey := list_to_set (omap (fun event => match de_data event with
    | log_event (ev_tool_call_completed d) => Some (de_runId event, tcc_call_id d) | _ => None end) events) in
  st ← foldM (mcpEvent completedOuterCalls) events
         {| ml_servers := []; ml_calls := []; ml_recovered := pel_recoveredInnerEffects ledger |};
  Ok (ledger <| pel_recoveredInnerEffects := ml_recovered st |> <| pel_unknownMcpCalls := jm_values (ml_calls st) |>
             <| pel_unknownMcpServers := jm_values (ml_servers st) |>).

(** The ledger of the last run of a session ([commands/sessions.ts]). *)
Definition sessionLedger (runs : list (string * list DecodedRunEvent)) (events : list DecodedRunEvent)
  : result RecoveryError PendingEffectLedger :=
  domain ← legacyDomainEvents runs events;
  ledger ← reconstructPendingEffectLedger domain;
  mergeMcpPendingEffects ledger events.
End Mcp.
