(* ===== verification/RunSemantics.v ===== *)
(** * The runs of a session, as one state machine

    [src/events/phase9-run-event-semantics.ts]: the check that the writer makes
    of every prospective log and that every reader repeats.  It follows the
    turn boundaries and checkpoints of each run, and the adoption of a pending
    call of one run by the run that resumes it: the call that is adopted, the
    checkpoint it is adopted from, and the result it may be given.  Run states
    live in a map by run id; only the state of the event's run changes.  The
    context events, which the function checks first, are in
    [ContextSemantics]. *)

From S2P Require Import Prelude JsString Domain Events Patch Completion Verification RunEvents RunLog ContextSemantics PendingEffects.
#[local] Open Scope Z_scope.

(** ** State *)

Record InnerEffect : Type := { ie_kind : EffectKind; ie_observation : RecoveredToolObservation; ie_sessionSeq : Z }.

(** An event kept with its place in the session. *)
Record Placed (A : Type) : Type := { pl_data : A; pl_sessionSeq : Z }.
Arguments pl_data {A} _.
Arguments pl_sessionSeq {A} _.
Arguments Build_Placed {A} _ _.

Record RunSemanticState : Type := {
  rs_adoptions : gmap string PendingCallAdoptedPayload;
  rs_backend : option BackendSelectedPayload;
  rs_checkpoints : gmap string (Placed CheckpointCreatedPayload);
  rs_checkpointCalls : gmap string (option (Placed ToolCallRequestedPayload));
  rs_commandOutputs : gmap string CommandOutputAccumulator;
  rs_completedCalls : gmap string (Placed ToolCallCompletedPayload);
  rs_innerEffects : gmap string (list InnerEffect);
  rs_lastBoundaryTurn : Z;
  rs_latestCheckpointId : option string;
  rs_pendingCalls : jsmap string (Placed ToolCallRequestedPayload);
  rs_recoveredAdoptions : gset string;
  rs_recoveredEvents : gmap string ToolCallRecoveredPayload;
  rs_resolvedAdoptions : gset string;
  rs_started : RunStartedPayload }.
#[export] Instance RunSemanticState_eta : Eta RunSemanticState := fun r =>
  Build_RunSemanticState (rs_adoptions r) (rs_backend r) (rs_checkpoints r) (rs_checkpointCalls r)
    (rs_commandOutputs r) (rs_completedCalls r) (rs_innerEffects r) (rs_lastBoundaryTurn r)
    (rs_latestCheckpointId r) (rs_pendingCalls r) (rs_recoveredAdoptions r) (rs_recoveredEvents r)
    (rs_resolvedAdoptions r) (rs_started r).

Definition startedState (d : RunStartedPayload) : RunSemanticState := {|
  rs_adoptions := ∅; rs_backend := None; rs_checkpoints := ∅; rs_checkpointCalls := ∅; rs_commandOutputs := ∅;
  rs_completedCalls := ∅; rs_innerEffects := ∅; rs_lastBoundaryTurn := 0; rs_latestCheckpointId := None;
  rs_pendingCalls := []; rs_recoveredAdoptions := ∅; rs_recoveredEvents := ∅; rs_resolvedAdoptions := ∅;
  rs_started := d |}.

(** The state of the loop: the runs and the checkpoint ids of the session. *)
Record RunSemantics : Type := { sem_runs : gmap string RunSemanticState; sem_checkpointIds : gset string }.
#[export] Instance RunSemantics_eta : Eta RunSemantics := fun r =>
  Build_RunSemantics (sem_runs r) (sem_checkpointIds r).

Inductive Phase9RunEventSemanticErrorCode : Type :=
| adoption_invalid | backend_capability_mismatch | checkpoint_identity_mismatch | recovered_effect_mismatch
| turn_sequence_invalid.

(** [Phase9RunEventSemanticError], and the error of the context events. *)
Inductive SemanticError : Type :=
| semantic_error (code : Phase9RunEventSemanticErrorCode) (message : string) (runId : string) (sessionSeq : Z)
| context_error (error : ContextEventSemanticError).

Notation present o := (match o with Some _ => true | None => false end) (only parsing).

Section Event.
Variables runId : string.
Variable sessionSeq : Z.

Definition fail {A} (code : Phase9RunEventSemanticErrorCode) (message : string) : result SemanticError A :=
  Err (semantic_error code message runId sessionSeq).
Definition failWhen (b : bool) (code : Phase9RunEventSemanticErrorCode) (message : string) : result SemanticError () :=
  if b then fail code message else Ok ().

Definition requireBackend (state : RunSemanticState) : result SemanticError BackendSelectedPayload :=
  match rs_backend state with
  | None => fail backend_capability_mismatch "Phase 9 event has no selected backend"
  | Some backend => Ok backend
  end.

Definition assertExactBackendDeclaration (backend : BackendSelectedPayload) : result SemanticError () :=
  failWhen ((bs_resume_capability backend !== Some capability_exact_checkpoint) ||
            negb (present (bs_checkpoint_codec_version backend)))
    backend_capability_mismatch "exact resume event requires an exact-checkpoint backend and codec".

Definition advanceTurn (turn : Z) (state : RunSemanticState) : result SemanticError RunSemanticState :=
  _ ← failWhen (negb (turn =? rs_lastBoundaryTurn state + 1)) turn_sequence_invalid "backend boundary turn is not the next one";
  Ok (state <| rs_lastBoundaryTurn := turn |>).

(** The checkpoint was made by this backend. *)
Definition checkpointOf (backend : BackendSelectedPayload) (checkpoint : CheckpointCreatedPayload) : bool :=
  (chk_adapter checkpoint === bs_adapter backend) && (chk_adapter_version checkpoint === bs_adapter_version backend) &&
  (Some (chk_codec_version checkpoint) === bs_checkpoint_codec_version backend) &&
  (chk_model checkpoint === bs_model backend) && (chk_provider checkpoint === bs_provider backend).

Definition assertPendingBoundary (turn : Z) (declaredPending : option bool) (state : RunSemanticState)
  : result SemanticError (option (Placed ToolCallRequestedPayload)) :=
  let pending := jm_values (rs_pendingCalls state) in
  _ ← failWhen (1 <? length pending)%nat turn_sequence_invalid
        "backend boundary cannot contain multiple unresolved tool calls";
  let call := head pending in
  _ ← failWhen (match call with Some c => negb (tcr_step (pl_data c) =? turn) | None => false end)
        turn_sequence_invalid "backend boundary turn does not match its unresolved tool call";
  _ ← failWhen (match declaredPending with Some declared => negb (eqb declared (present call)) | None => false end)
        turn_sequence_invalid "canonical boundary pending_call does not match the durable call ledger";
  Ok call.

Definition appendInnerEffect (callId : string) (effect : InnerEffect) (state : RunSemanticState) : RunSemanticState :=
  state <| rs_innerEffects ::= fun effects => <[callId := default [] (effects !! callId) ++ [effect]]> effects |>.

Section Adoption.
Variable runs : gmap string RunSemanticState.

Definition assertAdoption (d : PendingCallAdoptedPayload) (state : RunSemanticState)
  : result SemanticError RunSemanticState :=
  backend ← requireBackend state;
  _ ← assertExactBackendDeclaration backend;
  _ ← failWhen ((rst_resume_mode (rs_started state) !== Some resume_exact) ||
                (rst_resume_of_run_id (rs_started state) !== Some (pad_source_run_id d)) ||
                (pad_call_id d !== pad_source_call_id d))
        adoption_invalid "pending call adoption does not match the exact resume source";
  match (if pad_source_run_id d === runId then None else runs !! pad_source_run_id d) with
  | None => fail adoption_invalid "pending call adoption source run is invalid"
  | Some source =>
      match rs_checkpointCalls source !! pad_checkpoint_id d with
      | Some (Some sourceCall) =>
          _ ← failWhen (negb (tcr_step (pl_data sourceCall) =? pad_step d) ||
                        (tcr_call_id (pl_data sourceCall) !== pad_source_call_id d) ||
                        (tcr_tool_name (pl_data sourceCall) !== pad_tool_name d))
                adoption_invalid "pending call adoption does not match the call pending at its checkpoint";
          match rs_checkpoints source !! pad_checkpoint_id d with
          | None => fail adoption_invalid "pending call adoption does not reference the source call checkpoint"
          | Some checkpoint =>
              _ ← failWhen ((rs_latestCheckpointId source !== Some (chk_checkpoint_id (pl_data checkpoint))) ||
                            negb (chk_turn (pl_data checkpoint) =? tcr_step (pl_data sourceCall)) ||
                            (pl_sessionSeq checkpoint <=? pl_sessionSeq sourceCall))
                    adoption_invalid "pending call adoption does not reference the source call checkpoint";
              _ ← failWhen (negb (checkpointOf backend (pl_data checkpoint)))
                    adoption_invalid "adopted checkpoint is incompatible with the current backend";
              _ ← failWhen (present (rs_adoptions state !! pad_call_id d))
                    adoption_invalid "pending call was adopted more than once";
              Ok (state <| rs_adoptions ::= <[pad_call_id d := d]> |>)
          end
      | _ => fail adoption_invalid "pending call adoption does not match the call pending at its checkpoint"
      end
  end.

Definition recoveredMatchesObservation (recovered : ToolCallCompletedPayload) (observation : RecoveredToolObservation)
  : bool :=
  (tcc_error_category recovered === rto_errorCategory observation) &&
  (tcc_error_code recovered === rto_errorCode observation) && (tcc_output recovered === rto_output observation) &&
  (tcc_retryable recovered === rto_retryable observation) && (tcc_status recovered === rto_status observation) &&
  eqb (tcc_truncated recovered) (rto_truncated observation).

(** The tool whose effect it is; the source names a command for any effect that
    is no patch. *)
Definition expectedTool (effect : InnerEffect) : string :=
  if ie_kind effect === effect_patch then "apply_patch" else "run_command".

Definition assertRecoveredEffect (d : ToolCallRecoveredPayload) (state : RunSemanticState)
  : result SemanticError RunSemanticState :=
  let callId := tcc_call_id (trc_result d) in
  let recovered := Ok (state <| rs_recoveredAdoptions ::= union {[callId]} |> <| rs_recoveredEvents ::= <[callId := d]> |>) in
  match rs_adoptions state !! callId with
  | None => fail recovered_effect_mismatch "recovered tool result has no matching adopted pending call"
  | Some adoption =>
      _ ← failWhen (bool_decide (callId ∈ rs_resolvedAdoptions state) ||
                    (pad_source_run_id adoption !== trc_source_run_id d) ||
                    negb (pad_step adoption =? tcc_step (trc_result d)) ||
                    (pad_tool_name adoption !== tcc_tool_name (trc_result d)))
            recovered_effect_mismatch "recovered tool result has no matching adopted pending call";
      let source := runs !! trc_source_run_id d in
      match source ≫= (fun source => rs_completedCalls source !! pad_source_call_id adoption) with
      | Some sourceCompletion =>
          _ ← failWhen (match source ≫= (fun source => rs_checkpoints source !! pad_checkpoint_id adoption) with
                        | None => true
                        | Some checkpoint =>
                            (pl_sessionSeq sourceCompletion <=? pl_sessionSeq checkpoint) ||
                            (trc_result d !== pl_data sourceCompletion)
                        end)
                recovered_effect_mismatch "recovered tool result differs from the durable source observation";
          recovered
      | None =>
          match default [] (source ≫= (fun source => rs_innerEffects source !! pad_source_call_id adoption)) with
          | [effect] =>
              _ ← failWhen ((tcc_tool_name (trc_result d) !== expectedTool effect) ||
                            negb (recoveredMatchesObservation (trc_result d) (ie_observation effect)))
                    recovered_effect_mismatch "recovered tool result tool does not match the completed source effect";
              recovered
          | _ => fail recovered_effect_mismatch
                   "recovered tool result does not match exactly one completed source effect"
          end
      end
  end.

Definition onToolCompleted (d : ToolCallCompletedPayload) (state : RunSemanticState)
  : result SemanticError RunSemanticState :=
  let callId := tcc_call_id d in
  state ← match rs_adoptions state !! callId with
          | None => Ok state
          | Some adoption =>
              let source := runs !! pad_source_run_id adoption in
              let sourceEffects := default [] (source ≫= (fun source => rs_innerEffects source !! pad_source_call_id adoption)) in
              let sourceCompletion := source ≫= (fun source => rs_completedCalls source !! pad_source_call_id adoption) in
              _ ← failWhen (bool_decide (callId ∈ rs_resolvedAdoptions state) || negb (pad_step adoption =? tcc_step d) ||
                            (pad_tool_name adoption !== tcc_tool_name d))
                    adoption_invalid "completed adopted call does not match its adoption event";
              _ ← failWhen (((0 <? length sourceEffects)%nat || present sourceCompletion) &&
                            negb (bool_decide (callId ∈ rs_recoveredAdoptions state)))
                    recovered_effect_mismatch "a completed source side effect must be recovered, never re-executed";
              _ ← failWhen (bool_decide (callId ∈ rs_recoveredAdoptions state) && (tcc_status d === tool_success) &&
                            present (tcc_error_code d))
                    recovered_effect_mismatch "recovered success contains error metadata";
              _ ← failWhen (match rs_recoveredEvents state !! callId with
                            | Some recovered => trc_result recovered !== d
                            | None => false
                            end)
                    recovered_effect_mismatch "outer tool completion differs from its recovered observation";
              Ok (state <| rs_resolvedAdoptions ::= union {[callId]} |>)
          end;
  Ok (state <| rs_completedCalls ::= <[callId := Build_Placed d sessionSeq]> |> <| rs_pendingCalls ::= jm_delete callId |>).
End Adoption.

Definition onBackendSelected (d : BackendSelectedPayload) (state : RunSemanticState)
  : result SemanticError RunSemanticState :=
  let exact := bs_resume_capability d === Some capability_exact_checkpoint in
  _ ← failWhen (exact && negb (present (bs_checkpoint_codec_version d))) backend_capability_mismatch
        "exact-checkpoint backend must declare a checkpoint codec";
  _ ← failWhen (negb exact && present (bs_checkpoint_codec_version d)) backend_capability_mismatch
        "non-exact backend must not declare a checkpoint codec";
  Ok (state <| rs_backend := Some d |>).

Definition onCommandOutput (d : CommandOutputPayload) (state : RunSemanticState)
  : result SemanticError RunSemanticState :=
  match rs_commandOutputs state !! ci_execution_id (cop_id d) with
  | None => fail recovered_effect_mismatch "command output has no durable execution request"
  | Some output =>
      Ok (state <| rs_commandOutputs ::= <[ci_execution_id (cop_id d) := pushChunk (cop_channel d) (cop_chunk d) output]> |>)
  end.

Definition onCommandCompleted (d : CommandCompletedPayload) (state : RunSemanticState)
  : result SemanticError RunSemanticState :=
  if ccp_cleanup_verified d && (ccp_termination d !== cleanup_failed) then
    match rs_commandOutputs state !! ci_execution_id (ccp_id d) with
    | None => fail recovered_effect_mismatch "command completion does not match reconstructable output"
    | Some output =>
        match recoverCommandToolObservation d output with
        | Err _ => fail recovered_effect_mismatch "completed command output cannot be reconstructed exactly"
        | Ok observation =>
            Ok (appendInnerEffect (ci_call_id (ccp_id d))
                  {| ie_kind := effect_command; ie_observation := observation; ie_sessionSeq := sessionSeq |} state)
        end
    end
  else Ok state.

Definition onBoundary (d : CanonicalBoundaryPayload) (state : RunSemanticState)
  : result SemanticError RunSemanticState :=
  backend ← requireBackend state;
  _ ← failWhen (bs_resume_capability backend !== Some capability_canonical_only) backend_capability_mismatch
        "canonical boundary requires a canonical-only backend";
  state ← advanceTurn (cbd_turn d) state;
  _ ← assertPendingBoundary (cbd_turn d) (Some (cbd_pending_call d)) state;
  Ok state.

Definition onCheckpoint (checkpointIds : gset string) (d : CheckpointCreatedPayload) (state : RunSemanticState)
  : result SemanticError RunSemanticState :=
  backend ← requireBackend state;
  _ ← assertExactBackendDeclaration backend;
  _ ← failWhen (negb (checkpointOf backend d)) checkpoint_identity_mismatch
        "checkpoint identity does not match backend.selected";
  state ← advanceTurn (chk_turn d) state;
  checkpointCall ← assertPendingBoundary (chk_turn d) None state;
  _ ← failWhen (bool_decide (chk_checkpoint_id d ∈ checkpointIds)) checkpoint_identity_mismatch
        "checkpoint id is duplicated in the session";
  Ok (state <| rs_checkpoints ::= <[chk_checkpoint_id d := Build_Placed d sessionSeq]> |>
            <| rs_checkpointCalls ::= <[chk_checkpoint_id d := checkpointCall]> |>
            <| rs_latestCheckpointId := Some (chk_checkpoint_id d) |>).

(** One event of a started run. *)
Definition semanticStep (runs : gmap string RunSemanticState) (checkpointIds : gset string) (data : RunLogData)
    (state : RunSemanticState) : result SemanticError RunSemanticState :=
  match data with
  | log_event (ev_backend_selected d) => onBackendSelected d state
  | log_event (ev_tool_call_requested d) =>
      Ok (state <| rs_pendingCalls ::= jm_set (tcr_call_id d) (Build_Placed d sessionSeq) |>)
  | log_event (ev_tool_call_completed d) => onToolCompleted runs d state
  | log_event (ev_patch_apply_completed d) =>
      Ok (appendInnerEffect (pac_call_id d)
            {| ie_kind := effect_patch; ie_observation := recoverPatchToolObservation d; ie_sessionSeq := sessionSeq |} state)
  | log_event (ev_command_requested d) =>
      Ok (state <| rs_commandOutputs ::= <[ci_execution_id (crq_id d) := noOutput]> |>)
  | log_event (ev_command_output d) => onCommandOutput d state
  | log_event (ev_command_completed d) => onCommandCompleted d state
  | log_boundary d => onBoundary d state
  | log_checkpoint d => onCheckpoint checkpointIds d state
  | log_adopted d => assertAdoption runs d state
  | log_recovered d => assertRecoveredEffect runs d state
  | _ => Ok state
  end.
End Event.

Definition semanticEvent (st : RunSemantics) (event : DecodedRunEvent) : result SemanticError RunSemantics :=
  match de_data event with
  | log_event (ev_run_started d) => Ok (st <| sem_runs ::= <[de_runId event := startedState d]> |>)
  | data =>
      match sem_runs st !! de_runId event with
      | None => fail (de_runId event) (de_sessionSeq event) backend_capability_mismatch "run has no run.started event"
      | Some state =>
          state ← semanticStep (de_runId event) (de_sessionSeq event) (sem_runs st) (sem_checkpointIds st) data state;
          Ok (st <| sem_runs ::= <[de_runId event := state]> |>
                 <| sem_checkpointIds ::= fun ids =>
                      match data with log_checkpoint d => {[chk_checkpoint_id d]} ∪ ids | _ => ids end |>)
      end
  end.

Definition assertPhase9RunEventSemantics (events : list DecodedRunEvent) : result SemanticError RunSemantics :=
  _ ← match assertPhase10ContextEventSemantics events with Ok _ => Ok () | Err e => Err (context_error e) end;
  foldM semanticEvent events {| sem_runs := ∅; sem_checkpointIds := ∅ |}.
