(* ===== verification/RunSemanticsFacts.v ===== *)
(** * What a resumed run may answer

    [assertPhase9RunEventSemantics] keeps, of every run, what its log says of
    adopted calls, results and completed effects ([run_facts]); from it,
    [completed_effect_is_recovered]: an effect that completed before the crash is
    never executed again in its call's name. *)

From S2P Require Import Prelude JsString Domain Events Patch Completion Verification RunEvents RunLog ContextSemantics PendingEffects RunSemantics.
#[local] Open Scope Z_scope.

(** ** What the log says *)

Definition cleanlyCompleted (d : CommandCompletedPayload) : bool :=
  ccp_cleanup_verified d && (ccp_termination d !== cleanup_failed).

(** The event completes an effect of the call, or the call itself. *)
Definition completesEffect (data : RunLogData) : option string :=
  match data with
  | log_event (ev_patch_apply_completed d) => Some (pac_call_id d)
  | log_event (ev_command_completed d) => if cleanlyCompleted d then Some (ci_call_id (ccp_id d)) else None
  | log_event (ev_tool_call_completed d) => Some (tcc_call_id d)
  | _ => None
  end.

(** [effect] is that of a completion on record. *)
Definition durable_effect (k : list DecodedRunEvent) (r c : string) (effect : InnerEffect) : Prop :=
  (exists pre d, at_run k pre r (log_event (ev_patch_apply_completed d)) /\ pac_call_id d = c /\
     ie_kind effect = effect_patch /\ ie_observation effect = recoverPatchToolObservation d) \/
  (exists pre d output, at_run k pre r (log_event (ev_command_completed d)) /\ ci_call_id (ccp_id d) = c /\
     cleanlyCompleted d = true /\ ie_kind effect = effect_command /\
     recoverCommandToolObservation d output = Ok (ie_observation effect)).

(** The recovered result is the durable result of the adopted call, or the
    observation of its durable effect. *)
Definition recovered_from (k : list DecodedRunEvent) (r : string) (recovered : ToolCallRecoveredPayload) : Prop :=
  exists pre a, at_run k pre r (log_adopted a) /\ pad_call_id a = tcc_call_id (trc_result recovered) /\
    pad_source_run_id a = trc_source_run_id recovered /\
    ((exists pre', at_run k pre' (pad_source_run_id a) (log_event (ev_tool_call_completed (trc_result recovered)))) \/
     (exists effect, durable_effect k (pad_source_run_id a) (pad_source_call_id a) effect /\
        tcc_tool_name (trc_result recovered) = expectedTool effect /\
        recoveredMatchesObservation (trc_result recovered) (ie_observation effect) = true)).

Lemma durable_effect_app k k' r c effect : durable_effect k r c effect -> durable_effect (k ++ k') r c effect.
Proof.
  intros [(pre & d & H & Hd)|(pre & d & output & H & Hd)]; [left|right].
  - exists pre, d. split; [by apply at_run_app|done].
  - exists pre, d, output. split; [by apply at_run_app|done].
Qed.
Lemma recovered_from_app k k' r recovered : recovered_from k r recovered -> recovered_from (k ++ k') r recovered.
Proof.
  intros (pre & a & H & Hc & Hs & Hd). exists pre, a. split_and!; [by apply at_run_app|done|done|].
  destruct Hd as [[pre' Hd]|(effect & He & Hm)]; [left; exists pre'; by apply at_run_app|right].
  exists effect. split; [by apply durable_effect_app|done].
Qed.

(** ** The invariant *)

Record run_facts (k : list DecodedRunEvent) (r : string) (s : RunSemanticState) : Prop := {
  rf_adopted c a : rs_adoptions s !! c = Some a -> pad_call_id a = c /\ exists pre, at_run k pre r (log_adopted a);
  rf_adoption pre a : at_run k pre r (log_adopted a) -> rs_adoptions s !! pad_call_id a = Some a;
  rf_completed c p : rs_completedCalls s !! c = Some p ->
    exists pre, at_run k pre r (log_event (ev_tool_call_completed (pl_data p)));
  rf_completion pre d : at_run k pre r (log_event (ev_tool_call_completed d)) ->
    is_Some (rs_completedCalls s !! tcc_call_id d);
  rf_durable c effect : effect ∈ default [] (rs_innerEffects s !! c) -> durable_effect k r c effect;
  rf_effect pre data c : at_run k pre r data -> completesEffect data = Some c ->
    (0 <? length (default [] (rs_innerEffects s !! c)))%nat || present (rs_completedCalls s !! c) = true;
  rf_resolved c : c ∈ rs_recoveredAdoptions s -> is_Some (rs_recoveredEvents s !! c);
  rf_recovered c d : rs_recoveredEvents s !! c = Some d ->
    exists pre, at_run k pre r (log_recovered d) /\ recovered_from pre r d }.

(** An event that completes nothing and adopts nothing. *)
Definition isNeutral (data : RunLogData) : bool :=
  match data with
  | log_adopted _ | log_recovered _ => false
  | data => match completesEffect data with Some _ => false | None => true end
  end.

Lemma facts_keep k x r s s' :
  run_facts k r s -> de_runId x <> r \/ isNeutral (de_data x) = true ->
  rs_adoptions s' = rs_adoptions s -> rs_completedCalls s' = rs_completedCalls s ->
  rs_innerEffects s' = rs_innerEffects s -> rs_recoveredAdoptions s' = rs_recoveredAdoptions s ->
  rs_recoveredEvents s' = rs_recoveredEvents s -> run_facts (k ++ [x]) r s'.
Proof.
  intros [F1 F2 F3 F4 F5 F6 F7 F8] Hx E1 E2 E3 E4 E5.
  assert (Hold : forall pre data, at_run (k ++ [x]) pre r data -> isNeutral data = false -> at_run k pre r data).
  { intros pre data [(-> & Hr & Hd)|H]%at_run_snoc Hn; [|done]. destruct Hx as [Hx|Hx]; congruence. }
  split; rewrite ?E1, ?E2, ?E3, ?E4, ?E5.
  - intros c a Ha. destruct (F1 c a Ha) as (Hc & pre & H). split; [done|]. exists pre. by apply at_run_app.
  - intros pre a H%Hold; [by eapply F2|done].
  - intros c p Hp. destruct (F3 c p Hp) as (pre & H). exists pre. by apply at_run_app.
  - intros pre d H%Hold; [by eapply F4|done].
  - intros c effect He. by apply durable_effect_app, F5.
  - intros pre data c H Hc. eapply F6; [apply Hold; [exact H|]|exact Hc].
    unfold isNeutral. rewrite Hc. by destruct data.
  - exact F7.
  - intros c d Hd. destruct (F8 c d Hd) as (pre & H & Hf). exists pre. split; [by apply at_run_app|done].
Qed.

(** ** The events that change it *)

Lemma failWhen_ok r seq b code message u : failWhen r seq b code message = Ok u -> b = false.
Proof. by destruct b. Qed.

Ltac passes H := repeat match type of H with
  | mbind _ _ = Ok _ => let u := fresh "u" in let Hu := fresh "Hcheck" in
      apply bind_ok in H as (u & Hu & H); try apply failWhen_ok in Hu
  end.

Lemma adoption_ok r seq runs d s s' :
  assertAdoption r seq runs d s = Ok s' ->
  rs_adoptions s !! pad_call_id d = None /\ s' = s <| rs_adoptions ::= <[pad_call_id d := d]> |>.
Proof.
  unfold assertAdoption. intros H. passes H. destruct (if pad_source_run_id d === r then None else runs !! pad_source_run_id d) as [source|]; [|done].
  destruct (rs_checkpointCalls source !! _) as [[call|]|]; try done. passes H.
  destruct (rs_checkpoints source !! _) as [checkpoint|]; [|done]. passes H. injection H as <-. split; [|done].
  by destruct (rs_adoptions s !! pad_call_id d).
Qed.

Lemma facts_adoption k x d s :
  de_data x = log_adopted d -> run_facts k (de_runId x) s -> rs_adoptions s !! pad_call_id d = None ->
  run_facts (k ++ [x]) (de_runId x) (s <| rs_adoptions ::= <[pad_call_id d := d]> |>).
Proof.
  intros Hx [F1 F2 F3 F4 F5 F6 F7 F8] Hnew. pose proof (at_run_last k x) as Hlast. rewrite Hx in Hlast.
  assert (Hold : forall pre data, at_run (k ++ [x]) pre (de_runId x) data -> data <> log_adopted d -> at_run k pre (de_runId x) data).
  { intros pre data [(-> & Hr & Hd)|H]%at_run_snoc Hn; [congruence|done]. }
  split; cbn.
  - intros c a [[<- <-]|[Hc Ha]]%lookup_insert_Some; [split; [done|by exists k]|].
    destruct (F1 c a Ha) as (E & pre & H). split; [done|]. exists pre. by apply at_run_app.
  - intros pre a [(-> & _ & Hd)|H]%at_run_snoc.
    + rewrite Hx in Hd. injection Hd as ->. apply lookup_insert_eq.
    + specialize (F2 _ _ H). rewrite lookup_insert_ne; [done|]. intros E. rewrite E in Hnew. congruence.
  - intros c p Hp. destruct (F3 c p Hp) as (pre & H). exists pre. by apply at_run_app.
  - intros pre d' H%Hold; [by eapply F4|done].
  - intros c effect He. by apply durable_effect_app, F5.
  - intros pre data c H Hc. eapply F6; [apply Hold; [exact H|]|exact Hc]. by intros ->.
  - exact F7.
  - intros c d' Hd. destruct (F8 c d' Hd) as (pre & H & Hf). exists pre. split; [by apply at_run_app|done].
Qed.

(** A result of a call, which may be an adopted one. *)
Lemma completed_ok r seq runs d s s' :
  onToolCompleted r seq runs d s = Ok s' ->
  rs_adoptions s' = rs_adoptions s /\ rs_completedCalls s' = <[tcc_call_id d := Build_Placed d seq]> (rs_completedCalls s) /\
  rs_innerEffects s' = rs_innerEffects s /\ rs_recoveredAdoptions s' = rs_recoveredAdoptions s /\
  rs_recoveredEvents s' = rs_recoveredEvents s /\
  forall a, rs_adoptions s !! tcc_call_id d = Some a ->
    ((0 <? length (default [] (runs !! pad_source_run_id a ≫= (fun source => rs_innerEffects source !! pad_source_call_id a))))%nat ||
     present (runs !! pad_source_run_id a ≫= (fun source => rs_completedCalls source !! pad_source_call_id a)) = true ->
     tcc_call_id d ∈ rs_recoveredAdoptions s) /\
    (forall recovered, rs_recoveredEvents s !! tcc_call_id d = Some recovered -> trc_result recovered = d).
Proof.
  unfold onToolCompleted. intros H. apply bind_ok in H as (s1 & H1 & [= <-]).
  destruct (rs_adoptions s !! tcc_call_id d) as [adoption|] eqn:Ea; [|injection H1 as <-; by split_and!].
  passes H1. injection H1 as <-. split_and!; [done..|]. intros a [= <-]. split.
  - intros He. rewrite He in Hcheck0. cbn in Hcheck0. by apply negb_false_iff, bool_decide_eq_true in Hcheck0.
  - intros recovered Hr. rewrite Hr in Hcheck2. by apply negb_false_iff, bool_decide_eq_true in Hcheck2.
Qed.

Lemma facts_completed k x d s s' :
  de_data x = log_event (ev_tool_call_completed d) -> run_facts k (de_runId x) s ->
  rs_adoptions s' = rs_adoptions s ->
  rs_completedCalls s' = <[tcc_call_id d := Build_Placed d (de_sessionSeq x)]> (rs_completedCalls s) ->
  rs_innerEffects s' = rs_innerEffects s -> rs_recoveredAdoptions s' = rs_recoveredAdoptions s ->
  rs_recoveredEvents s' = rs_recoveredEvents s -> run_facts (k ++ [x]) (de_runId x) s'.
Proof.
  intros Hx [F1 F2 F3 F4 F5 F6 F7 F8] E1 E2 E3 E4 E5. pose proof (at_run_last k x) as Hlast. rewrite Hx in Hlast.
  split; rewrite ?E1, ?E2, ?E3, ?E4, ?E5.
  - intros c a Ha. destruct (F1 c a Ha) as (Hc & pre & H). split; [done|]. exists pre. by apply at_run_app.
  - intros pre a [(-> & _ & Hd)|H]%at_run_snoc; [congruence|by eapply F2].
  - intros c p [[_ <-]|[_ Hp]]%lookup_insert_Some; [by exists k|]. destruct (F3 c p Hp) as (pre & H). exists pre. by apply at_run_app.
  - intros pre d' [(-> & _ & Hd)|H]%at_run_snoc.
    + rewrite Hx in Hd. injection Hd as ->. rewrite lookup_insert_eq. by eexists.
    + apply lookup_insert_is_Some'. right. by eapply F4.
  - intros c effect He. by apply durable_effect_app, F5.
  - intros pre data c [(-> & _ & Hd)|H]%at_run_snoc Hc.
    + rewrite <-Hd, Hx in Hc. injection Hc as <-. rewrite lookup_insert_eq. by rewrite orb_true_r.
    + specialize (F6 _ _ _ H Hc). destruct (decide (tcc_call_id d = c)) as [<-|Hne]; [rewrite lookup_insert_eq; by rewrite orb_true_r|].
      by rewrite lookup_insert_ne.
  - exact F7.
  - intros c d' Hd. destruct (F8 c d' Hd) as (pre & H & Hf). exists pre. split; [by apply at_run_app|done].
Qed.

(** A completed effect. *)
Lemma facts_effect k x c effect s :
  completesEffect (de_data x) = Some c -> (forall d, de_data x <> log_event (ev_tool_call_completed d)) ->
  run_facts k (de_runId x) s -> durable_effect (k ++ [x]) (de_runId x) c effect ->
  run_facts (k ++ [x]) (de_runId x) (appendInnerEffect c effect s).
Proof.
  intros Hx Hno [F1 F2 F3 F4 F5 F6 F7 F8] Heffect. split; cbn.
  - intros c' a Ha. destruct (F1 c' a Ha) as (Hc & pre & H). split; [done|]. exists pre. by apply at_run_app.
  - intros pre a [(-> & _ & Hd)|H]%at_run_snoc; [by rewrite Hd in Hx|by eapply F2].
  - intros c' p Hp. destruct (F3 c' p Hp) as (pre & H). exists pre. by apply at_run_app.
  - intros pre d [(-> & _ & Hd)|H]%at_run_snoc; [by destruct (Hno d)|by eapply F4].
  - intros c' e He. destruct (decide (c = c')) as [<-|Hne].
    + rewrite lookup_insert_eq in He. cbn in He. apply elem_of_app in He as [He| ->%list_elem_of_singleton]; [|done].
      by apply durable_effect_app, F5.
    + rewrite lookup_insert_ne in He by done. by apply durable_effect_app, F5.
  - intros pre data c' [(-> & _ & Hd)|H]%at_run_snoc Hc.
    + rewrite <-Hd, Hx in Hc. injection Hc as <-. rewrite lookup_insert_eq. cbn. by rewrite length_app, Nat.add_1_r.
    + specialize (F6 _ _ _ H Hc). destruct (decide (c = c')) as [<-|Hne]; [|by rewrite lookup_insert_ne].
      rewrite lookup_insert_eq. cbn. by rewrite length_app, Nat.add_1_r.
  - exact F7.
  - intros c' d' Hd. destruct (F8 c' d' Hd) as (pre & H & Hf). exists pre. split; [by apply at_run_app|done].
Qed.

(** A recovered result, with what the log says of the source run. *)
Lemma recovery_ok k r seq runs d s s' :
  (forall r s, runs !! r = Some s -> run_facts k r s) -> run_facts k r s ->
  assertRecoveredEffect r seq runs d s = Ok s' ->
  s' = s <| rs_recoveredAdoptions ::= union {[tcc_call_id (trc_result d)]} |>
         <| rs_recoveredEvents ::= <[tcc_call_id (trc_result d) := d]> |> /\ recovered_from k r d.
Proof.
  intros Hruns Hs H. unfold assertRecoveredEffect in H.
  destruct (rs_adoptions s !! _) as [a|] eqn:Ea; [|done]. apply bind_ok in H as (u & Hu%failWhen_ok & H).
  rewrite !orb_false_iff, !negb_false_iff, bool_decide_eq_true, Z.eqb_eq in Hu. destruct Hu as (((_ & Hsource) & _) & _).
  destruct (rf_adopted _ _ _ Hs _ _ Ea) as (Hc & pre & Hat).
  rewrite <-Hsource in H. destruct (runs !! pad_source_run_id a) as [source|] eqn:Er; [|done]. cbn [mbind option_bind] in H.
  destruct (rs_completedCalls source !! pad_source_call_id a) as [completion|] eqn:Ec.
  - apply bind_ok in H as (u' & Hm%failWhen_ok & [= <-]). split; [done|]. exists pre, a. split_and!; [done..|]. left.
    destruct (rs_checkpoints source !! _) as [checkpoint|]; [|done].
    apply orb_false_iff in Hm as [_ Hm%negb_false_iff%bool_decide_eq_true]. rewrite Hm.
    exact (rf_completed _ _ _ (Hruns _ _ Er) _ _ Ec).
  - destruct (default [] (rs_innerEffects source !! pad_source_call_id a)) as [|effect [|]] eqn:Ee; try done.
    apply bind_ok in H as (u' & Hm%failWhen_ok & [= <-]). split; [done|]. exists pre, a. split_and!; [done..|]. right.
    apply orb_false_iff in Hm as [Ht%negb_false_iff%bool_decide_eq_true Hm%negb_false_iff]. exists effect. split_and!; [|done..].
    apply (rf_durable _ _ _ (Hruns _ _ Er)). rewrite Ee. by left.
Qed.

Lemma facts_recovery k x d s :
  de_data x = log_recovered d -> run_facts k (de_runId x) s -> recovered_from k (de_runId x) d ->
  run_facts (k ++ [x]) (de_runId x)
    (s <| rs_recoveredAdoptions ::= union {[tcc_call_id (trc_result d)]} |>
       <| rs_recoveredEvents ::= <[tcc_call_id (trc_result d) := d]> |>).
Proof.
  intros Hx [F1 F2 F3 F4 F5 F6 F7 F8] Hfrom. pose proof (at_run_last k x) as Hlast. rewrite Hx in Hlast. split; cbn.
  - intros c a Ha. destruct (F1 c a Ha) as (Hc & pre & H). split; [done|]. exists pre. by apply at_run_app.
  - intros pre a [(-> & _ & Hd)|H]%at_run_snoc; [congruence|by eapply F2].
  - intros c p Hp. destruct (F3 c p Hp) as (pre & H). exists pre. by apply at_run_app.
  - intros pre d' [(-> & _ & Hd)|H]%at_run_snoc; [congruence|by eapply F4].
  - intros c effect He. by apply durable_effect_app, F5.
  - intros pre data c [(-> & _ & Hd)|H]%at_run_snoc Hc; [by rewrite <-Hd, Hx in Hc|by eapply F6].
  - intros c [->%elem_of_singleton|Hc]%elem_of_union; [rewrite lookup_insert_eq; by eexists|].
    apply lookup_insert_is_Some'. right. by apply F7.
  - intros c d' [[_ <-]|[_ Hd]]%lookup_insert_Some; [by exists k|].
    destruct (F8 c d' Hd) as (pre & H & Hf). exists pre. split; [by apply at_run_app|done].
Qed.

Lemma facts_step k x seq runs ids s s' :
  isRunStart (de_data x) = false -> seq = de_sessionSeq x -> (forall r s, runs !! r = Some s -> run_facts k r s) ->
  run_facts k (de_runId x) s -> semanticStep (de_runId x) seq runs ids (de_data x) s = Ok s' ->
  run_facts (k ++ [x]) (de_runId x) s'.
Proof.
  intros Hn -> Hruns Hs H. pose proof (at_run_last k x) as Hlast.
  destruct (de_data x) as [draft|d|d|d|d|event|event|type] eqn:Ex.
  2: { cbn in H. unfold onCheckpoint in H. passes H. injection H as <-. unfold advanceTurn in Hcheck2. passes Hcheck2.
       injection Hcheck2 as <-. eapply facts_keep; [exact Hs|right; by rewrite Ex|done..]. }
  2: { cbn in H. unfold onBoundary in H. passes H. injection H as <-. unfold advanceTurn in Hcheck1. passes Hcheck1.
       injection Hcheck1 as <-. eapply facts_keep; [exact Hs|right; by rewrite Ex|done..]. }
  2: { apply adoption_ok in H as [Hnew ->]. by apply facts_adoption. }
  2: { destruct (recovery_ok _ _ _ _ _ _ _ Hruns Hs H) as [-> Hfrom]. by apply facts_recovery. }
  2-4: (injection H as <-; eapply facts_keep; [exact Hs|right; by rewrite Ex|done..]).
  destruct draft; try done;
    try (injection H as <-; eapply facts_keep; [exact Hs|right; by rewrite Ex|done..]).
  - cbn in H. unfold onBackendSelected in H. passes H. injection H as <-.
    eapply facts_keep; [exact Hs|right; by rewrite Ex|done..].
  - apply completed_ok in H as (E1 & E2 & E3 & E4 & E5 & _). by eapply facts_completed.
  - injection H as <-. apply facts_effect; [by rewrite Ex|by intros d; rewrite Ex|done|].
    left. exists k, data. by split_and!.
  - cbn in H. unfold onCommandOutput in H. destruct (_ !! _); [|done]. injection H as <-.
    eapply facts_keep; [exact Hs|right; by rewrite Ex|done..].
  - cbn in H. unfold onCommandCompleted in H. destruct (ccp_cleanup_verified data && _) eqn:Ec.
    + destruct (rs_commandOutputs s !! _) as [output|]; [|done].
      destruct (recoverCommandToolObservation data output) as [observation|] eqn:Eo; [|done]. injection H as <-.
      apply facts_effect; [rewrite Ex; cbn; unfold cleanlyCompleted; by rewrite Ec|by intros d; rewrite Ex|done|].
      right. exists k, data, output. by split_and!.
    + injection H as <-. eapply facts_keep; [exact Hs|right; rewrite Ex; cbn; unfold cleanlyCompleted; by rewrite Ec|done..].
Qed.

(** ** The session *)

Notation semantics := (foldM semanticEvent).
Notation noRuns := {| sem_runs := ∅; sem_checkpointIds := ∅ |}.

Lemma facts_other k x r s : de_runId x <> r -> run_facts k r s -> run_facts (k ++ [x]) r s.
Proof. intros Hx Hs. by eapply facts_keep; [exact Hs|left|..]. Qed.

Lemma facts_start m x m' k :
  isRunStart (de_data x) = true -> semanticEvent m x = Ok m' -> (forall event, event ∈ k -> de_runId event <> de_runId x) ->
  exists s, sem_runs m' = <[de_runId x := s]> (sem_runs m) /\ run_facts (k ++ [x]) (de_runId x) s.
Proof.
  intros Hx H Hnew. unfold semanticEvent in H. destruct (de_data x) as [[d| | | | | | | | | | | | | | | | | | | | | | | | | | | |]| | | | | | |] eqn:Ex; try done.
  injection H as <-. eexists. split; [done|].
  assert (Hno : forall pre data, at_run (k ++ [x]) pre (de_runId x) data -> data = log_event (ev_run_started d)).
  { intros pre data [(_ & _ & <-)|(event & post & -> & Hr & _)]%at_run_snoc; [done|]. edestruct Hnew; [|exact Hr]. set_solver. }
  split; cbn; try (intros *; rewrite lookup_empty; (done || set_solver)); try (by intros ? ? ?%Hno).
Qed.

Lemma facts_event m x m' k :
  isRunStart (de_data x) = false -> semanticEvent m x = Ok m' -> (forall r s, sem_runs m !! r = Some s -> run_facts k r s) ->
  exists s s', sem_runs m !! de_runId x = Some s /\ sem_runs m' = <[de_runId x := s']> (sem_runs m) /\
    run_facts (k ++ [x]) (de_runId x) s'.
Proof.
  intros Hx H Hruns.
  assert (H' : exists s s', sem_runs m !! de_runId x = Some s /\
    semanticStep (de_runId x) (de_sessionSeq x) (sem_runs m) (sem_checkpointIds m) (de_data x) s = Ok s' /\
    sem_runs m' = <[de_runId x := s']> (sem_runs m)).
  { unfold semanticEvent in H. destruct (de_data x) as [[]| | | | | | |]; try done;
      (destruct (sem_runs m !! de_runId x) as [s|]; [|done]);
      apply bind_ok in H as (s' & Hs & [= <-]); by exists s, s'. }
  destruct H' as (s & s' & Hr & Hstep & ->). exists s, s'. split_and!; [done..|]. eapply facts_step; try done. by apply Hruns.
Qed.

Lemma accepted_semantics events st :
  assertPhase9RunEventSemantics events = Ok st -> semantics events noRuns = Ok st.
Proof. intros H. by apply bind_ok in H as (_ & _ & H). Qed.

(** C23: A patch, a command or a result that completed before a crash is not
    done again. A call of one run may be adopted by the run that resumes it. If
    the source run has on record that the call's patch was applied, that its
    command completed with a verified cleanup, or the result itself, then in
    every log the writer accepts the adopted call completes only with a
    recovered result that is on record before it, which is the durable result of
    the source or the observation of its one durable effect.  The completion of
    an MCP call is no such effect: this check does not read it. *)
Theorem completed_effect_is_recovered events st pre event post d pre1 a pre2 data :
  assertPhase9RunEventSemantics events = Ok st -> NoDup (runStarts events) ->
  events = pre ++ event :: post -> de_data event = log_event (ev_tool_call_completed d) ->
  at_run pre pre1 (de_runId event) (log_adopted a) -> pad_call_id a = tcc_call_id d ->
  at_run pre pre2 (pad_source_run_id a) data -> completesEffect data = Some (pad_source_call_id a) ->
  exists pre' recovered, at_run pre pre' (de_runId event) (log_recovered recovered) /\ trc_result recovered = d /\
    recovered_from pre' (de_runId event) recovered.
Proof.
  intros Hst%accepted_semantics Hnd Hsplit Hd Ha Hcall Heffect Hc.
  destruct (run_event semanticEvent sem_runs noRuns run_facts eq_refl facts_other facts_start facts_event
    _ _ _ _ _ Hst Hnd Hsplit) as (mid & mid' & Hpre & Hstep & Hfacts).
  assert (Hndpre : NoDup (runStarts pre)) by (rewrite Hsplit, runStarts_app in Hnd; by apply list.NoDup_app in Hnd as (? & _)).
  pose proof (run_invariant semanticEvent sem_runs noRuns run_facts eq_refl facts_other facts_start facts_event _ _ Hpre Hndpre) as Hinv.
  unfold semanticEvent in Hstep. rewrite Hd in Hstep.
  destruct (sem_runs mid !! de_runId event) as [s|] eqn:Er; [|done]. apply bind_ok in Hstep as (s' & Hs & _).
  pose proof (Hfacts _ _ Er) as F. apply completed_ok in Hs as (_ & _ & _ & _ & _ & Hs).
  pose proof (rf_adoption _ _ _ F _ _ Ha) as Hadopt. rewrite Hcall in Hadopt. destruct (Hs a Hadopt) as [Hrec Hsame].
  specialize (Hinv (pad_source_run_id a)). destruct (sem_runs mid !! pad_source_run_id a) as [source|].
  2: { destruct Heffect as (e & rest & -> & Hr & _). edestruct Hinv; [|exact Hr]. set_solver. }
  destruct Hinv as [_ Fs]. pose proof (rf_effect _ _ _ Fs _ _ _ Heffect Hc) as He. cbn in Hrec. specialize (Hrec He).
  apply (rf_resolved _ _ _ F) in Hrec as [recovered Hr]. destruct (rf_recovered _ _ _ F _ _ Hr) as (pre' & Hat & Hfrom).
  exists pre', recovered. split_and!; [done|by apply Hsame|done].
Qed.

(** Only a patch and a command can be recovered from their effect. A recovered
    result of any other tool, an MCP tool included, is accepted only if the
    source run has that very result on record: the observation that
    [mergeMcpPendingEffects] recovers of an MCP call whose result is not on
    record is refused by the writer. *)
Theorem other_tools_recover_only_results events st pre event post d :
  assertPhase9RunEventSemantics events = Ok st -> NoDup (runStarts events) ->
  events = pre ++ event :: post -> de_data event = log_recovered d ->
  tcc_tool_name (trc_result d) <> "apply_patch"%string -> tcc_tool_name (trc_result d) <> "run_command"%string ->
  exists pre', at_run pre pre' (trc_source_run_id d) (log_event (ev_tool_call_completed (trc_result d))).
Proof.
  intros Hst%accepted_semantics Hnd Hsplit Hd Hp Hc.
  destruct (run_event semanticEvent sem_runs noRuns run_facts eq_refl facts_other facts_start facts_event
    _ _ _ _ _ Hst Hnd Hsplit) as (mid & mid' & _ & Hstep & Hfacts).
  unfold semanticEvent in Hstep. rewrite Hd in Hstep.
  destruct (sem_runs mid !! de_runId event) as [s|] eqn:Er; [|done]. apply bind_ok in Hstep as (s' & Hs & _).
  destruct (recovery_ok _ _ _ _ _ _ _ Hfacts (Hfacts _ _ Er) Hs) as [_ (pre1 & a & _ & _ & Hsource & [Ho|(effect & _ & Ht & _)])].
  - by rewrite Hsource in Ho.
  - unfold expectedTool in Ht. by destruct (ie_kind effect === effect_patch).
Qed.

(** ** A resumed run *)

Module SampleResume.
Definition exactBackend : BackendSelectedPayload := {|
  bs_adapter := "a"; bs_adapter_version := "1"; bs_cancellation := cancellation_abort_signal;
  bs_checkpoint_codec_version := Some "k1"%string; bs_config_fingerprint := "f"; bs_model := "m"; bs_provider := "p";
  bs_reasoning := reasoning_none; bs_resume_capability := Some capability_exact_checkpoint; bs_tools := tools_strict;
  bs_usage := usage_complete |}.
Definition start (source : option string) : RunLogData := log_event (ev_run_started {|
  rst_command := command_agent; rst_model := "m"; rst_provider := "p";
  rst_resume_mode := match source with Some _ => Some resume_exact | None => None end;
  rst_resume_of_run_id := source; rst_task_profile := None |}).
Definition request (tool : string) : RunLogData := log_event (ev_tool_call_requested {|
  tcr_arguments_json := js "{}"; tcr_call_id := "c"; tcr_provider_response_id := None; tcr_step := 1; tcr_tool_name := tool |}).
Definition checkpoint : RunLogData := log_checkpoint {|
  chk_adapter := "a"; chk_adapter_version := "1"; chk_bytes := 10; chk_checkpoint_id := "k"; chk_codec_version := "k1";
  chk_model := "m"; chk_provider := "p"; chk_ref := "ref"; chk_sha256 := "h"; chk_turn := 1 |}.
Definition patched : PatchApplyCompletedPayload := {|
  pac_added_lines := 2; pac_removed_lines := 0; pac_approval_request_id := "a1"; pac_call_id := "c"; pac_files := [];
  pac_plan_id := "plan"; pac_rule_manifest_sha256 := None; pac_rule_scope_set_sha256 := None; pac_step := 1 |}.
Definition adoption (tool : string) : PendingCallAdoptedPayload := {|
  pad_call_id := "c"; pad_checkpoint_id := "k"; pad_source_call_id := "c"; pad_source_run_id := "r1"; pad_step := 1;
  pad_tool_name := tool |}.
Definition recoveredResult (tool : string) (output : jstring) : ToolCallCompletedPayload := {|
  tcc_call_id := "c"; tcc_error_category := None; tcc_error_code := None; tcc_output := output; tcc_retryable := None;
  tcc_status := tool_success; tcc_step := 1; tcc_tool_name := tool; tcc_truncated := false |}.
Definition patchResult : ToolCallCompletedPayload :=
  recoveredResult "apply_patch" (rto_output (recoverPatchToolObservation patched)).

Definition place (i : nat) (entry : string * RunLogData) : DecodedRunEvent := {|
  de_sessionId := "s"; de_runId := entry.1; de_runSeq := Z.of_nat (S i); de_sessionSeq := Z.of_nat (S i);
  de_data := entry.2 |}.
(** The first run crashes after its patch is on disk; the second one adopts the
    call and recovers its result. *)
Definition before : list (string * RunLogData) := [
  ("r1", start None); ("r1", log_event (ev_backend_selected exactBackend)); ("r1", request "apply_patch");
  ("r1", checkpoint); ("r1", log_event (ev_patch_apply_completed patched));
  ("r2", start (Some "r1")); ("r2", log_event (ev_backend_selected exactBackend));
  ("r2", log_adopted (adoption "apply_patch"));
  ("r2", log_recovered {| trc_result := patchResult; trc_source_run_id := "r1" |})]%string.
Definition session (more : list (string * RunLogData)) : list DecodedRunEvent := imap place (before ++ more).
Definition completion : string * RunLogData := ("r2"%string, log_event (ev_tool_call_completed patchResult)).

Lemma completed_effect_is_recovered_witness : exists pre' recovered,
  at_run (session []) pre' "r2" (log_recovered recovered) /\ trc_result recovered = patchResult /\
  recovered_from pre' "r2" recovered.
Proof.
  eapply (completed_effect_is_recovered (session [completion]) _ (session []) (place 9 completion) [] patchResult
    (imap place (take 7 before)) (adoption "apply_patch") (imap place (take 4 before)) (log_event (ev_patch_apply_completed patched))).
  - vm_compute. reflexivity.
  - apply (bool_decide_unpack _). vm_compute. exact I.
  - reflexivity.
  - reflexivity.
  - by exists (place 7 ("r2"%string, log_adopted (adoption "apply_patch"))), (drop 8 (session [])).
  - reflexivity.
  - by exists (place 4 ("r1"%string, log_event (ev_patch_apply_completed patched))), (drop 5 (session [])).
  - reflexivity.
Defined.

(** Without the recovery, or with another result, the log is refused. *)
Example executed_again_is_refused :
  is_ok (assertPhase9RunEventSemantics (imap place (take 8 before ++ [completion]))) = false /\
  is_ok (assertPhase9RunEventSemantics (session [("r2"%string, log_event (ev_tool_call_completed
    (recoveredResult "apply_patch" (js "other"))))])) = false.
Proof. split; vm_compute; reflexivity. Qed.

(** A read whose result is on record may be recovered; a call that has only an
    effect of another kind may not. *)
Definition readResult : ToolCallCompletedPayload := recoveredResult "read_file" (js "text").
Definition readSession (source : list (string * RunLogData)) : list (string * RunLogData) :=
  [("r1", start None); ("r1", log_event (ev_backend_selected exactBackend)); ("r1", request "read_file"); ("r1", checkpoint)]%string
  ++ source ++ [("r2", start (Some "r1")); ("r2", log_event (ev_backend_selected exactBackend));
                ("r2", log_adopted (adoption "read_file"))]%string.
Definition readRecovered : string * RunLogData :=
  ("r2"%string, log_recovered {| trc_result := readResult; trc_source_run_id := "r1" |}).
Definition readDone : list (string * RunLogData) := [("r1"%string, log_event (ev_tool_call_completed readResult))].

Lemma other_tools_recover_only_results_witness : exists pre',
  at_run (imap place (readSession readDone)) pre' "r1" (log_event (ev_tool_call_completed readResult)).
Proof.
  eapply (other_tools_recover_only_results (imap place (readSession readDone ++ [readRecovered])) _ _ (place 8 readRecovered) []
    {| trc_result := readResult; trc_source_run_id := "r1" |}).
  - vm_compute. reflexivity.
  - apply (bool_decide_unpack _). vm_compute. exact I.
  - reflexivity.
  - reflexivity.
  - done.
  - done.
Defined.
Example nothing_to_recover : is_ok (assertPhase9RunEventSemantics (imap place (readSession [] ++ [readRecovered]))) = false.
Proof. vm_compute. reflexivity. Qed.
End SampleResume.
