(* ===== verification/ResumeEvidence.v ===== *)
(** * What a resume compares

    [src/resume/workspace-resume-fingerprint.ts]: the identity of a workspace,
    of its backend and of the policies, stored in a checkpoint and compared on
    resume.  [src/resume/patch-reconciler.ts]: what the files of a started patch
    say about it. *)

From S2P Require Import Prelude JsString CanonicalJson Domain CanonicalJsonFacts Events Utf8 Patch SourceSnapshot SourceSnapshotFacts Completion RunEvents RunLog PendingEffects.
#[local] Open Scope Z_scope.

(** ** Fingerprints *)

(** [BackendIdentity] of [model/model-backend.ts] *)
Inductive ProviderId : Type := provider_anthropic | provider_deepseek | provider_ollama | provider_openai.
#[export] Instance ProviderId_eq : EqDecision ProviderId.
Proof. solve_decision. Defined.
Definition providerText (provider : ProviderId) : string :=
  match provider with
  | provider_anthropic => "anthropic" | provider_deepseek => "deepseek" | provider_ollama => "ollama"
  | provider_openai => "openai"
  end.
(** The check of [restoreWorkspaceResumeFingerprint] that makes a string one. *)
Definition asProvider (provider : string) : option ProviderId :=
  List.find (fun p => providerText p === provider)
    [provider_anthropic; provider_deepseek; provider_ollama; provider_openai].

Record BackendIdentity : Type := {
  bid_adapter : string; bid_adapterVersion : string; bid_configFingerprint : string; bid_model : string;
  bid_provider : ProviderId }.
#[export] Instance BackendIdentity_eq : EqDecision BackendIdentity.
Proof. solve_decision. Defined.

Record WorkspaceResumeFingerprint : Type := {
  wrf_backend : BackendIdentity; wrf_capabilitySnapshotSha256 : option string; wrf_canonicalRootIdentity : string;
  wrf_checkpointCodecVersion : option string; wrf_completionSchemaSha256 : string; wrf_policySha256 : string;
  wrf_gitHeadSha256 : string; wrf_gitIndexSha256 : string; wrf_sourceStateSha256 : string;
  wrf_systemInstructionsSha256 : string; wrf_taskProfile : TaskProfile; wrf_toolSchemaSha256 : string }.
#[export] Instance WorkspaceResumeFingerprint_eq : EqDecision WorkspaceResumeFingerprint.
Proof. solve_decision. Defined.

(** The fingerprint as an event stores it. *)
Record PersistedWorkspaceResumeFingerprint : Type := {
  pwf_adapter : string; pwf_adapter_version : string; pwf_config_fingerprint : string; pwf_model : string;
  pwf_provider : string; pwf_canonical_root_identity : string; pwf_capability_snapshot_sha256 : option string;
  pwf_checkpoint_codec_version : option string; pwf_completion_schema_sha256 : string; pwf_policy_sha256 : string;
  pwf_git_head_sha256 : string; pwf_git_index_sha256 : string; pwf_source_state_sha256 : string;
  pwf_system_instructions_sha256 : string; pwf_task_profile : TaskProfile; pwf_tool_schema_sha256 : string }.

Definition persistWorkspaceResumeFingerprint (f : WorkspaceResumeFingerprint) : PersistedWorkspaceResumeFingerprint := {|
  pwf_adapter := bid_adapter (wrf_backend f); pwf_adapter_version := bid_adapterVersion (wrf_backend f);
  pwf_config_fingerprint := bid_configFingerprint (wrf_backend f); pwf_model := bid_model (wrf_backend f);
  pwf_provider := providerText (bid_provider (wrf_backend f));
  pwf_canonical_root_identity := wrf_canonicalRootIdentity f;
  pwf_capability_snapshot_sha256 := wrf_capabilitySnapshotSha256 f;
  pwf_checkpoint_codec_version := wrf_checkpointCodecVersion f;
  pwf_completion_schema_sha256 := wrf_completionSchemaSha256 f; pwf_policy_sha256 := wrf_policySha256 f;
  pwf_git_head_sha256 := wrf_gitHeadSha256 f; pwf_git_index_sha256 := wrf_gitIndexSha256 f;
  pwf_source_state_sha256 := wrf_sourceStateSha256 f;
  pwf_system_instructions_sha256 := wrf_systemInstructionsSha256 f; pwf_task_profile := wrf_taskProfile f;
  pwf_tool_schema_sha256 := wrf_toolSchemaSha256 f |}.

(** [None] when the provider is not one of the four. *)
Definition restoreWorkspaceResumeFingerprint (p : PersistedWorkspaceResumeFingerprint)
  : option WorkspaceResumeFingerprint :=
  provider ← asProvider (pwf_provider p);
  Some {|
    wrf_backend := {| bid_adapter := pwf_adapter p; bid_adapterVersion := pwf_adapter_version p;
                      bid_configFingerprint := pwf_config_fingerprint p; bid_model := pwf_model p;
                      bid_provider := provider |};
    wrf_capabilitySnapshotSha256 := pwf_capability_snapshot_sha256 p;
    wrf_canonicalRootIdentity := pwf_canonical_root_identity p;
    wrf_checkpointCodecVersion := pwf_checkpoint_codec_version p;
    wrf_completionSchemaSha256 := pwf_completion_schema_sha256 p; wrf_policySha256 := pwf_policy_sha256 p;
    wrf_gitHeadSha256 := pwf_git_head_sha256 p; wrf_gitIndexSha256 := pwf_git_index_sha256 p;
    wrf_sourceStateSha256 := pwf_source_state_sha256 p;
    wrf_systemInstructionsSha256 := pwf_system_instructions_sha256 p; wrf_taskProfile := pwf_task_profile p;
    wrf_toolSchemaSha256 := pwf_tool_schema_sha256 p |}.

Definition profileText (profile : TaskProfile) : string :=
  match profile with profile_read_only => "read-only" | profile_coding => "coding" end.

Definition persistedFingerprintJson (p : PersistedWorkspaceResumeFingerprint) : json := JObj ([
  (js "backend", JObj [
    (js "adapter", jtext (pwf_adapter p)); (js "adapter_version", jtext (pwf_adapter_version p));
    (js "config_fingerprint", jtext (pwf_config_fingerprint p)); (js "model", jtext (pwf_model p));
    (js "provider", jtext (pwf_provider p))]);
  (js "canonical_root_identity", jtext (pwf_canonical_root_identity p))] ++
  match pwf_capability_snapshot_sha256 p with
  | None => [] | Some sha => [(js "capability_snapshot_sha256", jtext sha)]
  end ++ [
  (js "checkpoint_codec_version", nullable jtext (pwf_checkpoint_codec_version p));
  (js "completion_schema_sha256", jtext (pwf_completion_schema_sha256 p));
  (js "policy_sha256", jtext (pwf_policy_sha256 p));
  (js "source_state", JObj [
    (js "git_head_sha256", jtext (pwf_git_head_sha256 p)); (js "git_index_sha256", jtext (pwf_git_index_sha256 p));
    (js "source_state_sha256", jtext (pwf_source_state_sha256 p))]);
  (js "system_instructions_sha256", jtext (pwf_system_instructions_sha256 p));
  (js "task_profile", jtext (profileText (pwf_task_profile p)));
  (js "tool_schema_sha256", jtext (pwf_tool_schema_sha256 p))]).

Definition workspaceResumeFingerprintSha256 (sha256Bytes : list Z -> string) (f : WorkspaceResumeFingerprint)
  : result encode_error string :=
  sha256Canonical (sha256Text sha256Bytes) (persistedFingerprintJson (persistWorkspaceResumeFingerprint f)).

(** ** Mismatches *)

Inductive ResumeFingerprintMismatchKind : Type := mismatch_exact_only | mismatch_hard.
#[export] Instance ResumeFingerprintMismatchKind_eq : EqDecision ResumeFingerprintMismatchKind.
Proof. solve_decision. Defined.
Record ResumeFingerprintMismatch : Type := { rfm_field : string; rfm_kind : ResumeFingerprintMismatchKind }.

Definition compareField {A} `{EqDecision A} (field : string) (expected current : A)
    (kind : ResumeFingerprintMismatchKind) (mismatches : list ResumeFingerprintMismatch) : list ResumeFingerprintMismatch :=
  if expected !== current then mismatches ++ [{| rfm_field := field; rfm_kind := kind |}] else mismatches.

Definition compareWorkspaceResumeFingerprints (expected current : WorkspaceResumeFingerprint)
  : list ResumeFingerprintMismatch :=
  let compare {A} `{EqDecision A} field (get : WorkspaceResumeFingerprint -> A) kind :=
    compareField field (get expected) (get current) kind in
  compare "capability_snapshot" wrf_capabilitySnapshotSha256 mismatch_exact_only
  (compare "tool_schema" wrf_toolSchemaSha256 mismatch_exact_only
  (compare "completion_schema" wrf_completionSchemaSha256 mismatch_exact_only
  (compare "policy" wrf_policySha256 mismatch_exact_only
  (compare "system_instructions" wrf_systemInstructionsSha256 mismatch_exact_only
  (compare "task_profile" wrf_taskProfile mismatch_exact_only
  (compare "git_index" wrf_gitIndexSha256 mismatch_exact_only
  (compare "git_head" wrf_gitHeadSha256 mismatch_exact_only
  (compare "source_state" wrf_sourceStateSha256 mismatch_exact_only
  (compare "checkpoint_codec_version" wrf_checkpointCodecVersion mismatch_exact_only
  (compare "backend.config_fingerprint" (fun f => bid_configFingerprint (wrf_backend f)) mismatch_exact_only
  (compare "backend.adapter_version" (fun f => bid_adapterVersion (wrf_backend f)) mismatch_exact_only
  (compare "backend.adapter" (fun f => bid_adapter (wrf_backend f)) mismatch_hard
  (compare "backend.model" (fun f => bid_model (wrf_backend f)) mismatch_hard
  (compare "backend.provider" (fun f => bid_provider (wrf_backend f)) mismatch_hard
  (compare "canonical_root_identity" wrf_canonicalRootIdentity mismatch_hard [])))))))))))))))%string.

(** ** Patches *)

Inductive PatchFileObservation : Type :=
| observed_file (path : jstring) (bytesSha256 : string)
| observed_missing (path : jstring)
| observed_other (path : jstring)
| observed_symlink (path : jstring)
| observed_unreadable (path : jstring).
Definition observationPath (observation : PatchFileObservation) : jstring :=
  match observation with
  | observed_file path _ | observed_missing path | observed_other path | observed_symlink path
  | observed_unreadable path => path
  end.

Inductive PatchReconciliationBlockReason : Type :=
| reconcile_duplicate_path | invalid_hash_evidence | missing_observation | missing_postimage_hash | missing_target
| mixed_state | symlink_target | third_state | unreadable_target | unsupported_target.
Definition blockReasonText (reason : PatchReconciliationBlockReason) : string :=
  match reason with
  | reconcile_duplicate_path => "duplicate_path" | invalid_hash_evidence => "invalid_hash_evidence"
  | missing_observation => "missing_observation" | missing_postimage_hash => "missing_postimage_hash"
  | missing_target => "missing_target" | mixed_state => "mixed_state" | symlink_target => "symlink_target"
  | third_state => "third_state" | unreadable_target => "unreadable_target"
  | unsupported_target => "unsupported_target"
  end.

Record ReconciledPatchFile : Type := {
  rpf_kind : PatchChangeKind; rpf_path : jstring; rpf_postSha256 : string; rpf_preSha256 : option string }.

Inductive PatchObserved : Type := patch_applied | patch_not_applied.
#[export] Instance PatchObserved_eq : EqDecision PatchObserved.
Proof. solve_decision. Defined.

Inductive PatchReconciliation : Type :=
| patch_reconciled (planId : string) (observed : PatchObserved) (files : list ReconciledPatchFile)
| patch_blocked (planId : string) (reason : PatchReconciliationBlockReason) (details : list jstring).
Definition reconciliationPlan (reconciliation : PatchReconciliation) : string :=
  match reconciliation with patch_reconciled planId _ _ | patch_blocked planId _ _ => planId end.

Inductive PatchState : Type := state_post | state_pre.
#[export] Instance PatchState_eq : EqDecision PatchState.
Proof. solve_decision. Defined.

(** The body of the loop over the files: the state that the file is in. *)
Definition reconcileFile (observedByPath : jsmap jstring PatchFileObservation) (file : PendingPatchFile)
  : result PatchReconciliationBlockReason (PatchState * ReconciledPatchFile) :=
  match ppf_postSha256 file with
  | None => Err missing_postimage_hash
  | Some post =>
      if ppf_preSha256 file === Some post then Err invalid_hash_evidence
      else
        let journal := {| rpf_kind := ppf_kind file; rpf_path := ppf_path file; rpf_postSha256 := post;
                          rpf_preSha256 := ppf_preSha256 file |} in
        match jm_get (ppf_path file) observedByPath with
        | None => Err missing_observation
        | Some (observed_symlink _) => Err symlink_target
        | Some (observed_unreadable _) => Err unreadable_target
        | Some (observed_other _) => Err unsupported_target
        | Some (observed_missing _) =>
            if (ppf_preSha256 file === None) && (ppf_kind file === create_change) then Ok (state_pre, journal)
            else Err missing_target
        | Some (observed_file _ bytesSha256) =>
            if bytesSha256 === post then Ok (state_post, journal)
            else if ppf_preSha256 file === Some bytesSha256 then Ok (state_pre, journal)
            else Err third_state
        end
  end.

(** The loop; a refusal names the path of its file. *)
Fixpoint reconcileFiles (observedByPath : jsmap jstring PatchFileObservation) (files : list PendingPatchFile)
  : result (PatchReconciliationBlockReason * jstring) (list (PatchState * ReconciledPatchFile)) :=
  match files with
  | [] => Ok []
  | file :: files =>
      match reconcileFile observedByPath file with
      | Err reason => Err (reason, ppf_path file)
      | Ok state => rest ← reconcileFiles observedByPath files; Ok (state :: rest)
      end
  end.

(** The observations by their path, or a path that is observed twice. *)
Fixpoint indexObservations (observations : list PatchFileObservation) (observedByPath : jsmap jstring PatchFileObservation)
  : result jstring (jsmap jstring PatchFileObservation) :=
  match observations with
  | [] => Ok observedByPath
  | observation :: observations =>
      if jm_has (observationPath observation) observedByPath then Err (observationPath observation)
      else indexObservations observations (jm_set (observationPath observation) observation observedByPath)
  end.

Definition reconcilePendingPatch (effect : PendingPatchEffect) (observations : list PatchFileObservation)
  : PatchReconciliation :=
  let blocked := patch_blocked (ppe_planId effect) in
  if negb (bool_decide (NoDup (ppf_path <$> ppe_files effect)))
  then blocked reconcile_duplicate_path [js "patch start contains duplicate paths"]
  else
    match indexObservations observations [] with
    | Err path => blocked reconcile_duplicate_path [js "more than one observation was supplied for " ++ path]
    | Ok observedByPath =>
        match reconcileFiles observedByPath (ppe_files effect) with
        | Err (reason, path) => blocked reason [path]
        | Ok states =>
            match states with
            | [] => blocked mixed_state []
            | (state, _) :: _ =>
                if forallb (fun s => s.1 === state) states then
                  patch_reconciled (ppe_planId effect)
                    (if state === state_post then patch_applied else patch_not_applied) (snd <$> states)
                else blocked mixed_state (ppf_path <$> ppe_files effect)
            end
        end
    end.

(** [observe] reads the file at a path. *)
Definition reconcilePendingPatchFromReader (effect : PendingPatchEffect) (observe : jstring -> PatchFileObservation)
  : PatchReconciliation :=
  reconcilePendingPatch effect (observe ∘ ppf_path <$> ppe_files effect).

(** ** What the evidence of a resume proves

    A fingerprint is bound by its digest and survives its event; a patch is
    reconciled exactly when all of its files are in one of their two states. *)

(** ** Comparing fingerprints *)

Lemma compareField_spec {A} `{EqDecision A} field (a b : A) kind mismatches :
  compareField field a b kind mismatches =
  if decide (a = b) then mismatches else mismatches ++ [{| rfm_field := field; rfm_kind := kind |}].
Proof. unfold compareField. case_bool_decide; by case_decide. Qed.

(** The fields that a new run may not change. *)
Definition sameBackend (a b : WorkspaceResumeFingerprint) : Prop :=
  wrf_canonicalRootIdentity a = wrf_canonicalRootIdentity b /\
  bid_provider (wrf_backend a) = bid_provider (wrf_backend b) /\
  bid_model (wrf_backend a) = bid_model (wrf_backend b) /\ bid_adapter (wrf_backend a) = bid_adapter (wrf_backend b).

Lemma snoc_not_nil {A} (l : list A) x : l ++ [x] <> [].
Proof. by destruct l. Qed.

Lemma hard_app l k :
  List.filter (fun mismatch => rfm_kind mismatch === mismatch_hard) (l ++ k) =
  List.filter (fun mismatch => rfm_kind mismatch === mismatch_hard) l ++
  List.filter (fun mismatch => rfm_kind mismatch === mismatch_hard) k.
Proof. apply List.filter_app. Qed.

Lemma compareField_hard {A} `{EqDecision A} field (a b : A) mismatches :
  List.filter (fun mismatch => rfm_kind mismatch === mismatch_hard)
    (compareField field a b mismatch_exact_only mismatches) =
  List.filter (fun mismatch => rfm_kind mismatch === mismatch_hard) mismatches.
Proof.
  rewrite compareField_spec. case_decide; [done|]. rewrite hard_app. cbn. by rewrite app_nil_r.
Qed.
Lemma compareField_nil {A} `{EqDecision A} field (a b : A) kind mismatches :
  compareField field a b kind mismatches = [] <-> a = b /\ mismatches = [].
Proof.
  rewrite compareField_spec. case_decide; [naive_solver|]. split; [by intros []%snoc_not_nil|naive_solver].
Qed.
Lemma compareField_hard_nil {A} `{EqDecision A} field (a b : A) mismatches :
  List.filter (fun mismatch => rfm_kind mismatch === mismatch_hard)
    (compareField field a b mismatch_hard mismatches) = [] <->
  a = b /\ List.filter (fun mismatch => rfm_kind mismatch === mismatch_hard) mismatches = [].
Proof.
  rewrite compareField_spec. case_decide; [naive_solver|]. rewrite hard_app.
  split; [by intros []%snoc_not_nil|naive_solver].
Qed.

Lemma compare_hard a b :
  List.filter (fun mismatch => rfm_kind mismatch === mismatch_hard) (compareWorkspaceResumeFingerprints a b) = [] <->
  sameBackend a b.
Proof.
  unfold compareWorkspaceResumeFingerprints, sameBackend. cbv zeta. rewrite !compareField_hard, !compareField_hard_nil.
  cbn [List.filter]. naive_solver.
Qed.

Lemma compare_nil a b : compareWorkspaceResumeFingerprints a b = [] <-> a = b.
Proof.
  unfold compareWorkspaceResumeFingerprints. cbv zeta. rewrite !compareField_nil. split; [|by intros ->].
  destruct a as [[]], b as [[]]. cbn. intros H. destruct_and!. by subst.
Qed.

(** ** Storing fingerprints *)

Lemma asProvider_text p : asProvider (providerText p) = Some p.
Proof. by destruct p. Qed.

Lemma restore_persist f : restoreWorkspaceResumeFingerprint (persistWorkspaceResumeFingerprint f) = Some f.
Proof.
  unfold restoreWorkspaceResumeFingerprint. cbn [pwf_provider persistWorkspaceResumeFingerprint].
  rewrite asProvider_text. by destruct f as [[]].
Qed.

Lemma canon_persisted p : canon (persistedFingerprintJson p) = persistedFingerprintJson p.
Proof. destruct p as [?????? [] [] ??????? ?]; vm_compute; reflexivity. Qed.

Lemma persisted_units p : units16 (persistedFingerprintJson p).
Proof.
  unfold persistedFingerprintJson. destruct (pwf_capability_snapshot_sha256 p), (pwf_checkpoint_codec_version p);
    cbn [app nullable]; unfold jtext; cbn [units16 fold_right]; split_and!; try apply js_units; done.
Qed.

Lemma persisted_encodes p : encodable (persistedFingerprintJson p).
Proof.
  unfold persistedFingerprintJson. destruct (pwf_capability_snapshot_sha256 p), (pwf_checkpoint_codec_version p);
    cbn [app nullable]; unfold jtext; cbn [encodable fold_right]; split_and!; auto; right; split_and!; auto.
Qed.

Ltac same_texts := repeat match goal with E : js _ = js _ |- _ => apply js_inj in E end.

Lemma profileText_inj a b : profileText a = profileText b -> a = b.
Proof. by destruct a, b. Qed.
Lemma providerText_inj a b : providerText a = providerText b -> a = b.
Proof. by destruct a, b. Qed.

Lemma persisted_inj p q : persistedFingerprintJson p = persistedFingerprintJson q -> p = q.
Proof.
  destruct p as [?????? [] [] ??????? ?], q as [?????? [] [] ??????? ?]; cbn; intros H; try (by simplify_eq);
    simplify_eq; same_texts; subst; f_equal; auto using profileText_inj.
Qed.

Lemma persist_inj a b : persistWorkspaceResumeFingerprint a = persistWorkspaceResumeFingerprint b -> a = b.
Proof.
  intros H. apply (f_equal restoreWorkspaceResumeFingerprint) in H. rewrite !restore_persist in H. by injection H.
Qed.

Lemma fingerprint_digest sha256Bytes f : exists h, workspaceResumeFingerprintSha256 sha256Bytes f = Ok h.
Proof.
  unfold workspaceResumeFingerprintSha256, sha256Canonical.
  destruct (encodable_ok _ (persisted_encodes (persistWorkspaceResumeFingerprint f))) as [t Ht].
  destruct (canonicalJson _); [by eexists|done].
Qed.

(** The digest that a run stores binds the whole fingerprint.  It is always
    defined, a stored fingerprint is read back as it was, and with a hash without
    collisions two fingerprints with the same digest have no mismatch. *)
Theorem fingerprint_digest_binds sha256Bytes :
  (forall s t : list Z, sha256Bytes s = sha256Bytes t -> s = t) -> forall f g,
  restoreWorkspaceResumeFingerprint (persistWorkspaceResumeFingerprint f) = Some f /\
  (workspaceResumeFingerprintSha256 sha256Bytes f = workspaceResumeFingerprintSha256 sha256Bytes g <->
   compareWorkspaceResumeFingerprints f g = []).
Proof.
  intros Hinj f g. split; [apply restore_persist|]. rewrite compare_nil. split; [|by intros ->]. intros H.
  destruct (fingerprint_digest sha256Bytes f) as [h Hf]. rewrite Hf in H. symmetry in H.
  pose proof (byte_digest_binds sha256Bytes _ _ _ Hinj Hf H (persisted_units _) (persisted_units _)) as Hc.
  rewrite !canon_persisted in Hc. by apply persist_inj, persisted_inj.
Qed.

(** ** Patches *)

(** The file is as the patch found it, or as the patch leaves it. *)
Definition untouched (file : PendingPatchFile) (observation : PatchFileObservation) : Prop :=
  match observation with
  | observed_missing _ => ppf_preSha256 file = None /\ ppf_kind file = create_change
  | observed_file _ sha => ppf_preSha256 file = Some sha
  | _ => False
  end.
Definition landed (file : PendingPatchFile) (observation : PatchFileObservation) : Prop :=
  match observation with observed_file _ sha => ppf_postSha256 file = Some sha | _ => False end.
Definition inState (state : PatchState) (file : PendingPatchFile) (observation : PatchFileObservation) : Prop :=
  match state with state_post => landed file observation | state_pre => untouched file observation end.
(** The hashes of the start tell the two states apart. *)
Definition distinguishable (file : PendingPatchFile) : Prop :=
  ppf_postSha256 file <> None /\ ppf_preSha256 file <> ppf_postSha256 file.

Lemma reconcileFile_spec byPath file observation state :
  jm_get (ppf_path file) byPath = Some observation ->
  (exists journal, reconcileFile byPath file = Ok (state, journal)) <->
  distinguishable file /\ inState state file observation.
Proof.
  intros Hobs. unfold reconcileFile, distinguishable. destruct (ppf_postSha256 file) as [post|] eqn:Epost; [|naive_solver].
  case_bool_decide as Epre; [naive_solver|]. rewrite Hobs.
  destruct observation as [path sha|path|path|path|path]; destruct state; cbn [inState landed untouched];
    rewrite ?Epost; repeat case_bool_decide; cbn [andb]; naive_solver.
Qed.

Lemma reconcileFiles_ok byPath files states :
  reconcileFiles byPath files = Ok states <->
  Forall2 (fun file state => reconcileFile byPath file = Ok state) files states.
Proof.
  revert states. induction files as [|file files IH]; intros states; cbn.
  { split; [intros; by simplify_eq|by inversion 1]. }
  split.
  - destruct (reconcileFile byPath file) as [state|] eqn:E; [|done]. intros (rest & Hr & H)%bind_ok. simplify_eq.
    constructor; [done|by apply IH].
  - inversion 1 as [|? state ? rest H1 H2]; subst. rewrite H1. apply IH in H2. by rewrite H2.
Qed.

Lemma indexObservations_ok observations byPath :
  NoDup (observationPath <$> observations) ->
  (forall o, o ∈ observations -> jm_get (observationPath o) byPath = None) ->
  exists m, indexObservations observations byPath = Ok m /\
    (forall o, o ∈ observations -> jm_get (observationPath o) m = Some o) /\
    (forall path, path ∉ observationPath <$> observations -> jm_get path m = jm_get path byPath).
Proof.
  revert byPath. induction observations as [|o l IH]; intros byPath Hn Hfree; cbn.
  { exists byPath. split_and!; [done|by intros ? ?%not_elem_of_nil|done]. }
  rewrite fmap_cons in Hn. apply list.NoDup_cons in Hn as [Ho Hn].
  rewrite (proj2 (jm_has_false _ _)) by (apply Hfree; set_solver).
  destruct (IH (jm_set (observationPath o) o byPath) Hn) as (m & Hm & Hin & Hout).
  { intros o' Ho'. rewrite jm_get_set_ne; [apply Hfree; set_solver|]. intros E. apply Ho. rewrite E.
    apply list_elem_of_fmap. by exists o'. }
  exists m. split_and!; [done| |].
  - intros o' [->|Ho']%elem_of_cons; [|by apply Hin]. rewrite Hout by done. apply jm_get_set_eq.
  - intros path Hp. rewrite Hout by set_solver. apply jm_get_set_ne. set_solver.
Qed.

Lemma states_all byPath files (observe : jstring -> PatchFileObservation) state :
  (forall file, file ∈ files -> jm_get (ppf_path file) byPath = Some (observe (ppf_path file))) ->
  (forall file, file ∈ files -> distinguishable file /\ inState state file (observe (ppf_path file))) <->
  exists states, reconcileFiles byPath files = Ok states /\ Forall (fun s => s.1 = state) states.
Proof.
  intros Hobs. split.
  - intros Hall. enough (exists states, Forall2 (fun file s => reconcileFile byPath file = Ok s) files states /\
      Forall (fun s => s.1 = state) states) as (states & ?%reconcileFiles_ok & ?) by by exists states.
    induction files as [|file files IH]; [by exists []|]. destruct IH as (states & ? & ?);
      [intros f Hf; apply Hobs; by right|intros f Hf; apply Hall; by right|].
    destruct (proj2 (reconcileFile_spec byPath file _ state (Hobs file ltac:(by left))) (Hall file ltac:(by left)))
      as [journal ?]. exists ((state, journal) :: states). by split; constructor.
  - intros (states & Hs%reconcileFiles_ok & Hstates) file Hin. apply (reconcileFile_spec byPath); [by apply Hobs|].
    apply list_elem_of_lookup in Hin as [i Hi]. destruct (Forall2_lookup_l _ _ _ _ _ Hs Hi) as ([s journal] & Hj & Hr).
    exists journal. rewrite Hr. f_equal. f_equal. by apply (Forall_lookup_1 _ _ _ _ Hstates Hj).
Qed.

Definition observedOf (state : PatchState) : PatchObserved :=
  match state with state_post => patch_applied | state_pre => patch_not_applied end.

Lemma observedOf_inj a b : observedOf a = observedOf b -> a = b.
Proof. by destruct a, b. Qed.

(** The reconciliation of a started patch is decided by its files.  It is
    "not applied" exactly when every file is still as the patch found it, and
    "applied" exactly when every file is as the patch leaves it; a patch between
    the two, without hashes that tell them apart, without files or with one path
    twice is in neither state. *)
Theorem patch_reconciled_iff (observe : jstring -> PatchFileObservation) effect state :
  (forall path, observationPath (observe path) = path) ->
  (exists files, reconcilePendingPatchFromReader effect observe =
     patch_reconciled (ppe_planId effect) (observedOf state) files) <->
  NoDup (ppf_path <$> ppe_files effect) /\ ppe_files effect <> [] /\
  forall file, file ∈ ppe_files effect -> distinguishable file /\ inState state file (observe (ppf_path file)).
Proof.
  intros Hreader. unfold reconcilePendingPatchFromReader, reconcilePendingPatch.
  destruct (decide (NoDup (ppf_path <$> ppe_files effect))) as [Hn|Hn];
    [rewrite bool_decide_eq_true_2 by done|rewrite bool_decide_eq_false_2 by done; cbn [negb]; naive_solver].
  assert (Hpaths : observationPath <$> (observe ∘ ppf_path <$> ppe_files effect) = ppf_path <$> ppe_files effect).
  { rewrite <-list_fmap_compose. apply list_fmap_ext. intros i file _. cbn. apply Hreader. }
  destruct (indexObservations_ok (observe ∘ ppf_path <$> ppe_files effect) []) as (byPath & -> & Hin & _);
    [by rewrite Hpaths|done|]. cbn [negb].
  assert (Hobs : forall file, file ∈ ppe_files effect -> jm_get (ppf_path file) byPath = Some (observe (ppf_path file))).
  { intros file Hf. rewrite <-(Hreader (ppf_path file)) at 1. apply Hin. apply list_elem_of_fmap. by exists file. }
  rewrite (states_all byPath _ observe state Hobs). destruct (reconcileFiles byPath _) as [states|[reason path]] eqn:Es.
  - assert (Hempty : ppe_files effect = [] <-> states = []).
    { apply reconcileFiles_ok, Forall2_length in Es. by destruct (ppe_files effect), states. }
    destruct states as [|[s j] states]; [naive_solver|]. destruct (forallb _ _) eqn:Ef.
    + assert (Hall : Forall (fun t => t.1 = s) ((s, j) :: states)).
      { apply Forall_forall. intros t Ht. rewrite forallb_forall in Ef. by apply Ef, bool_decide_eq_true_1 in Ht. }
      replace (if s === state_post then patch_applied else patch_not_applied) with (observedOf s) by by destruct s.
      split.
      * intros [files [= E%observedOf_inj _]]. subst s. split_and!; [done|naive_solver|by eexists].
      * intros (_ & _ & states' & [= <-] & Hs). inversion Hs; simplify_eq/=. by eexists.
    + split; [by intros [? ?]|]. intros (_ & _ & states' & [= <-] & Hs). exfalso. apply not_true_iff_false in Ef.
      apply Ef, forallb_forall. intros t Ht. apply bool_decide_eq_true_2. rewrite Forall_forall in Hs.
      rewrite (Hs t Ht). symmetry. by apply (Hs (s, j) (or_introl eq_refl)).
  - naive_solver.
Qed.
