(* ===== verification/PendingEffectsFacts.v ===== *)
(** * What the ledger of a run says about its log

    An effect that the log starts is in the ledger until the log completes it; an
    effect that the log completes is kept as recovered until its call has a
    result.  The last part is about the recovered observation of a command, which
    fits its limits. *)

From S2P Require Import Prelude JsString CanonicalJson Domain CanonicalJsonFacts Events Utf8 Patch SourceSnapshot Completion Verification JsonParse RunEvents RunLog EventPublisher ToolErrors McpResult PendingEffects.
#[local] Open Scope Z_scope.

(** ** Maps *)

Section Delete.
Context {K : Type} `{EqDecision K} {V : Type}.
Implicit Types (m : jsmap K V).

Lemma jm_get_delete k k' m : jm_get k' (jm_delete k m) = if decide (k' = k) then None else jm_get k' m.
Proof.
  unfold jm_delete. induction m as [|[k1 v] m IH]; cbn [List.filter jm_get]; [by case_decide|].
  cbn [fst]. case_bool_decide as E1; cbn [negb jm_get]; rewrite IH; repeat case_decide; congruence.
Qed.
Lemma jm_delete_keys k m : fst <$> jm_delete k m = List.filter (fun k' => negb (bool_decide (k' = k))) (fst <$> m).
Proof.
  unfold jm_delete. induction m as [|[k1 v] m IH]; [done|]. cbn. case_bool_decide; cbn; [done|]. by f_equal.
Qed.
Lemma jm_delete_NoDup k m : NoDup (fst <$> m) -> NoDup (fst <$> jm_delete k m).
Proof.
  rewrite jm_delete_keys. induction 1 as [|k' l Hk _ IH]; cbn; [constructor|].
  destruct (negb _); [|done]. constructor; [|done]. rewrite list_elem_of_In, filter_In, <-list_elem_of_In. by intros [? _].
Qed.

(** A map of objects that carry their own key. *)
Definition keyed (key : V -> K) (m : jsmap K V) : Prop := forall k v, (k, v) ∈ m -> key v = k.
Lemma keyed_set key k v m : keyed key m -> key v = k -> keyed key (jm_set k v m).
Proof.
  intros Hm Hv k' v' Hin. induction m as [|[k1 v1] m IH]; cbn [jm_set] in Hin.
  - apply list_elem_of_singleton in Hin. by simplify_eq.
  - assert (H1 : key v1 = k1) by (apply Hm; set_solver). assert (Hm' : keyed key m) by (intros ???; apply Hm; set_solver).
    case_decide; apply elem_of_cons in Hin as [?|Hin]; simplify_eq; [done|by apply Hm'|done|by apply IH].
Qed.
Lemma keyed_delete key k m : keyed key m -> keyed key (jm_delete k m).
Proof. intros Hm k' v. unfold jm_delete. rewrite list_elem_of_In, filter_In, <-list_elem_of_In. intros [? _]. by apply Hm. Qed.
Lemma keyed_get key k v m : keyed key m -> jm_get k m = Some v -> key v = k.
Proof. intros Hm Hv%jm_get_elem. by apply Hm. Qed.
End Delete.

(** ** One event *)

Definition callKey (call : PendingToolCall) : RunKey := (ptc_sourceRunId call, ptc_callId call).
Definition patchKey (effect : PendingPatchEffect) : RunKey := (ppe_sourceRunId effect, ppe_planId effect).
Definition commandKey (effect : UnknownCommandEffect) : RunKey := (uce_sourceRunId effect, uce_executionId effect).

(** The effect that an event starts, completes, or answers. *)
Inductive LedgerMark : Type := mark_call | mark_patch | mark_command.
#[export] Instance LedgerMark_eq : EqDecision LedgerMark.
Proof. solve_decision. Defined.

Definition opens (event : string * RunEventDraft) : option (LedgerMark * RunKey) :=
  match event.2 with
  | ev_tool_call_requested d => Some (mark_call, (event.1, tcr_call_id d))
  | ev_patch_apply_started d => Some (mark_patch, (event.1, pas_plan_id d))
  | ev_command_requested d => Some (mark_command, (event.1, ci_execution_id (crq_id d)))
  | ev_command_started id => Some (mark_command, (event.1, ci_execution_id id))
  | _ => None
  end.
(** A command is over when its process tree is known to be gone. *)
Definition cleanCommand (d : CommandCompletedPayload) : bool :=
  ccp_cleanup_verified d && (ccp_termination d !== cleanup_failed).
Definition closes (event : string * RunEventDraft) : option (LedgerMark * RunKey) :=
  match event.2 with
  | ev_tool_call_completed d => Some (mark_call, (event.1, tcc_call_id d))
  | ev_patch_apply_completed d => Some (mark_patch, (event.1, pac_plan_id d))
  | ev_command_completed d =>
      if cleanCommand d then Some (mark_command, (event.1, ci_execution_id (ccp_id d))) else None
  | _ => None
  end.
(** The effect that an event completes, with its call. *)
Definition effectOf (event : string * RunEventDraft) : option ((EffectKind * RunKey) * string) :=
  match event.2 with
  | ev_patch_apply_completed d => Some ((effect_patch, (event.1, pac_plan_id d)), pac_call_id d)
  | ev_command_completed d =>
      if cleanCommand d then Some ((effect_command, (event.1, ci_execution_id (ccp_id d))), ci_call_id (ccp_id d))
      else None
  | _ => None
  end.

(** The output of a command: the chunks since its last request. *)
Definition outputStep (key : RunKey) (output : CommandOutputAccumulator) (event : string * RunEventDraft)
  : CommandOutputAccumulator :=
  match event.2 with
  | ev_command_requested d => if decide ((event.1, ci_execution_id (crq_id d)) = key) then noOutput else output
  | ev_command_output d =>
      if decide ((event.1, ci_execution_id (cop_id d)) = key) then pushChunk (cop_channel d) (cop_chunk d) output
      else output
  | _ => output
  end.
Definition outputBefore (events : list (string * RunEventDraft)) (key : RunKey) : CommandOutputAccumulator :=
  foldl (outputStep key) noOutput events.
(** The observation that the completion of an effect leaves, after [before]. *)
Definition effectResult (before : list (string * RunEventDraft)) (event : string * RunEventDraft)
    (observation : RecoveredToolObservation) : Prop :=
  match event.2 with
  | ev_patch_apply_completed d => observation = recoverPatchToolObservation d
  | ev_command_completed d =>
      recoverCommandToolObservation d (outputBefore before (event.1, ci_execution_id (ccp_id d))) = Ok observation
  | _ => False
  end.

(** The two tables of a mark: what is open, and what was closed. *)
Definition isOpen (mark : LedgerMark) (key : RunKey) (st : LedgerState) : Prop :=
  match mark with
  | mark_call => is_Some (jm_get key (ls_pendingCalls st))
  | mark_patch => is_Some (jm_get key (ls_patchStarts st))
  | mark_command => is_Some (jm_get key (ls_commandEffects st))
  end.
Definition closedSet (mark : LedgerMark) (st : LedgerState) : gset RunKey :=
  match mark with
  | mark_call => ls_completedCalls st
  | mark_patch => ls_completedPatches st
  | mark_command => ls_completedCommands st
  end.

Record tables (st : LedgerState) : Prop := {
  tb_calls : keyed callKey (ls_pendingCalls st);
  tb_patches : keyed patchKey (ls_patchStarts st);
  tb_commands : keyed commandKey (ls_commandEffects st);
  tb_inner : keyed (fun e => (rie_kind e, (rie_sourceRunId e, rie_effectId e))) (ls_innerEffects st) }.

Lemma is_Some_get_set {V} (k k' : RunKey) (v : V) m :
  is_Some (jm_get k' (jm_set k v m)) <-> k = k' \/ is_Some (jm_get k' m).
Proof. rewrite jm_get_set. case_decide; naive_solver. Qed.

(** The branches of one event. *)
Ltac ledger_cases H :=
  match type of H with
  | ledgerEvent _ (_, ?draft) = Ok _ =>
      destruct draft; cbn [ledgerEvent] in H;
      repeat match type of H with context [match ?x with _ => _ end] => destruct x eqn:?; try done end;
      returns; cbn
  end.

Lemma ledgerEvent_tables st r draft st' : ledgerEvent st (r, draft) = Ok st' -> tables st -> tables st'.
Proof.
  intros H [Hc Hp Hm Hi]. ledger_cases H; try done; split; cbn; try done;
    try (by apply keyed_delete); try (by apply keyed_set).
  apply keyed_set; [done|]. unfold commandKey. cbn. destruct (jm_get _ _) as [e|] eqn:E; [|done]. cbn.
  apply (keyed_get _ _ _ _ Hm) in E. unfold commandKey in E. by simplify_eq.
Qed.

Lemma ledgerEvent_opens st r draft st' mark key :
  ledgerEvent st (r, draft) = Ok st' ->
  (opens (r, draft) = Some (mark, key) \/ isOpen mark key st) ->
  isOpen mark key st' \/ key ∈ closedSet mark st'.
Proof.
  intros H Hopen. destruct mark; ledger_cases H; (destruct Hopen as [Hopen|Hopen]; cbn in Hopen; simplify_eq);
    try (by left);
    rewrite ?is_Some_get_set; try (by left); try (by left; right); try (by left; left);
    match goal with |- is_Some (jm_get ?k (jm_delete ?k' _)) \/ _ =>
      destruct (decide (k = k')) as [->|?]; [right; set_solver|left; rewrite jm_get_delete; by case_decide] end.
Qed.

Lemma cleanCommand_intro d :
  ccp_cleanup_verified d = true -> ccp_termination d <> cleanup_failed -> cleanCommand d = true.
Proof. intros Hv Ht. unfold cleanCommand. rewrite Hv. by case_bool_decide. Qed.
Lemma cleanCommand_elim d :
  cleanCommand d = true -> negb (ccp_cleanup_verified d) || (ccp_termination d === cleanup_failed) = false.
Proof. unfold cleanCommand. by destruct (ccp_cleanup_verified d); [case_bool_decide|]. Qed.

Lemma ledgerEvent_closes st r draft st' mark key :
  ledgerEvent st (r, draft) = Ok st' ->
  key ∈ closedSet mark st' -> key ∈ closedSet mark st \/ closes (r, draft) = Some (mark, key).
Proof.
  intros H Hclosed. ledger_cases H; destruct mark; cbn in *; try (by left);
    apply elem_of_union in Hclosed as [->%elem_of_singleton|?]; try (by left); try (by right).
  right. unfold closes. cbn. by rewrite cleanCommand_intro.
Qed.

Lemma ledgerEvent_still_closed st r draft st' mark key :
  ledgerEvent st (r, draft) = Ok st' -> key ∈ closedSet mark st -> key ∈ closedSet mark st'.
Proof. intros H Hc. destruct mark; ledger_cases H; cbn in *; set_solver. Qed.

(** The outputs that a state keeps are those of the events read so far. *)
Definition outputsOf (events : list (string * RunEventDraft)) (st : LedgerState) : Prop :=
  forall key output, ls_commandOutputs st !! key = Some output -> output = outputBefore events key.
Lemma ledgerEvent_outputs st r draft st' events :
  ledgerEvent st (r, draft) = Ok st' -> outputsOf events st -> outputsOf (events ++ [(r, draft)]) st'.
Proof.
  intros H Ho key output. unfold outputBefore. rewrite foldl_snoc. specialize (Ho key). fold (outputBefore events key).
  ledger_cases H; unfold outputStep; cbn; try apply Ho;
    rewrite lookup_insert; case_decide as Hk; rewrite ?decide_True, ?decide_False by done; try apply Ho;
    intros [= <-]; [done|]. f_equal. apply Ho. by rewrite <-Hk.
Qed.

Lemma ledgerEvent_effect st r draft st' events key call :
  ledgerEvent st (r, draft) = Ok st' -> outputsOf events st -> effectOf (r, draft) = Some (key, call) ->
  exists e, jm_get key (ls_innerEffects st') = Some e /\ rie_callId e = call /\
    effectResult events (r, draft) (rie_observation e).
Proof.
  intros H Ho He. unfold effectOf in He. destruct draft; cbn in He; try done.
  - cbn in H. simplify_eq. cbn. rewrite jm_get_set_eq. by eexists.
  - destruct (cleanCommand _) eqn:Ec; [|done]. simplify_eq. cbn in H.
    destruct (_ !! _) as [output|] eqn:Eo; [|done]. rewrite (cleanCommand_elim _ Ec) in H. apply Ho in Eo as ->.
    apply bind_ok in H as (observation & Hobs & H). simplify_eq. cbn. rewrite jm_get_set_eq. by eexists.
Qed.
Lemma ledgerEvent_keeps st r draft st' key :
  ledgerEvent st (r, draft) = Ok st' -> (forall call, effectOf (r, draft) <> Some (key, call)) ->
  jm_get key (ls_innerEffects st') = jm_get key (ls_innerEffects st).
Proof.
  intros H He. ledger_cases H; try done; rewrite jm_get_set; case_decide as Hk; try done;
    edestruct He; unfold effectOf; cbn; rewrite ?cleanCommand_intro by done; by rewrite Hk.
Qed.

(** ** The events of a run *)

Section Fold.
Context (l : list (string * RunEventDraft)) (st : LedgerState) (Hl : foldM ledgerEvent l emptyLedger = Ok st).

Lemma ledger_tables : tables st.
Proof.
  revert Hl. apply foldM_invariant; [|by split; intros ???%not_elem_of_nil].
  intros x [r draft] y _ Hx H. by eapply ledgerEvent_tables.
Qed.

Lemma ledger_opened x mark key : x ∈ l -> opens x = Some (mark, key) -> isOpen mark key st \/ key ∈ closedSet mark st.
Proof.
  refine (foldM_prefix ledgerEvent
    (fun l st => x ∈ l -> opens x = Some (mark, key) -> isOpen mark key st \/ key ∈ closedSet mark st) _ l st _ _ Hl);
    [by intros ?%not_elem_of_nil|].
  intros k st0 [r draft] st1 IH Hstep Hin Hx. apply elem_of_app in Hin as [Hin| ->%list_elem_of_singleton].
  - destruct (IH Hin Hx) as [Ho|Hc]; [eapply (ledgerEvent_opens st0 r draft); [done|by right]|].
    right. by eapply ledgerEvent_still_closed.
  - eapply (ledgerEvent_opens st0 r draft); [done|by left].
Qed.

Lemma ledger_closed mark key : key ∈ closedSet mark st -> exists x, x ∈ l /\ closes x = Some (mark, key).
Proof.
  refine (foldM_prefix ledgerEvent
    (fun l st => key ∈ closedSet mark st -> exists x, x ∈ l /\ closes x = Some (mark, key)) _ l st _ _ Hl);
    [by destruct mark|].
  intros k st0 [r draft] st1 IH Hstep Hin. destruct (ledgerEvent_closes _ _ _ _ _ _ Hstep Hin) as [Hc|Hc].
  - destruct (IH Hc) as (x & Hx & ?). exists x. set_solver.
  - eexists. split; [by apply elem_of_app; right; apply list_elem_of_singleton|done].
Qed.

Lemma ledger_effect pre x post key call :
  l = pre ++ x :: post -> effectOf x = Some (key, call) -> (forall y c, y ∈ post -> effectOf y <> Some (key, c)) ->
  exists e, jm_get key (ls_innerEffects st) = Some e /\ rie_callId e = call /\ effectResult pre x (rie_observation e).
Proof.
  revert post. refine (proj2 (foldM_prefix ledgerEvent (fun l st => outputsOf l st /\ forall post, l = pre ++ x :: post ->
    effectOf x = Some (key, call) -> (forall y c, y ∈ post -> effectOf y <> Some (key, c)) ->
    exists e, jm_get key (ls_innerEffects st) = Some e /\ rie_callId e = call /\
      effectResult pre x (rie_observation e)) _ l st _ _ Hl));
    [split; [done|by intros post ?%app_cons_not_nil]|].
  intros k st0 [r draft] st1 [Ho IH] Hstep. split; [by eapply ledgerEvent_outputs|]. intros post Hk Hx Hpost.
  apply split_snoc in Hk as [(-> & -> & ->)|(post' & -> & ->)]; [by eapply ledgerEvent_effect|].
  rewrite (ledgerEvent_keeps _ _ _ _ key Hstep); [|intros c; apply Hpost; set_solver].
  apply (IH post'); [done..|]. intros y c Hy. apply Hpost. set_solver.
Qed.

(** What is started is open in the ledger or complete in the log. *)
Lemma ledger_started x mark key :
  x ∈ l -> opens x = Some (mark, key) ->
  (exists y, y ∈ l /\ closes y = Some (mark, key)) \/ (isOpen mark key st /\ key ∉ closedSet mark st).
Proof.
  intros Hx Ho. destruct (decide (key ∈ closedSet mark st)) as [Hc|Hc]; [left; by apply ledger_closed|].
  right. split; [|done]. by destruct (ledger_opened x mark key Hx Ho).
Qed.

Lemma pending_patch_listed key :
  isOpen mark_patch key st -> key ∉ closedSet mark_patch st ->
  exists e, e ∈ pel_pendingPatches (ledgerOf st) /\ patchKey e = key.
Proof.
  intros [e He] Hc. exists e. pose proof (keyed_get _ _ _ _ (tb_patches _ ledger_tables) He) as Hk. split; [|done].
  cbn. rewrite list_elem_of_In, filter_In, <-list_elem_of_In. split; [by eapply jm_get_values|].
  unfold patchKey in Hk. rewrite Hk. by apply negb_true_iff, bool_decide_eq_false_2.
Qed.
Lemma unknown_command_listed key :
  isOpen mark_command key st -> key ∉ closedSet mark_command st ->
  exists e, e ∈ pel_unknownCommands (ledgerOf st) /\ commandKey e = key.
Proof.
  intros [e He] Hc. exists e. pose proof (keyed_get _ _ _ _ (tb_commands _ ledger_tables) He) as Hk. split; [|done].
  cbn. rewrite list_elem_of_In, filter_In, <-list_elem_of_In. split; [by eapply jm_get_values|].
  unfold commandKey in Hk. rewrite Hk. by apply negb_true_iff, bool_decide_eq_false_2.
Qed.
Lemma pending_call_listed key :
  isOpen mark_call key st -> exists e, e ∈ pel_pendingToolCalls (ledgerOf st) /\ callKey e = key.
Proof.
  intros [e He]. exists e. split; [by eapply jm_get_values|]. by eapply keyed_get; [apply (tb_calls _ ledger_tables)|].
Qed.
Lemma inner_effect_listed kind key call e :
  jm_get (kind, key) (ls_innerEffects st) = Some e -> rie_callId e = call ->
  (exists y, y ∈ l /\ closes y = Some (mark_call, (key.1, call))) \/
  (e ∈ pel_recoveredInnerEffects (ledgerOf st) /\ rie_sourceRunId e = key.1).
Proof.
  intros He <-. pose proof (keyed_get _ _ _ _ (tb_inner _ ledger_tables) He) as Hk. cbn in Hk. simplify_eq. cbn.
  destruct (decide ((rie_sourceRunId e, rie_callId e) ∈ ls_completedCalls st)) as [Hc|Hc].
  { left. by apply ledger_closed. }
  right. split; [|done]. rewrite list_elem_of_In, filter_In, <-list_elem_of_In.
  split; [by eapply jm_get_values|]. by apply negb_true_iff, bool_decide_eq_false_2.
Qed.
End Fold.

(** ** The recovered observation of a command fits

    [fitCommand] shortens the output of a command until its observation is at
    most [MAX_COMMAND_TOOL_OUTPUT_BYTES], which is also the bound the schema
    puts on a recovered result.  The loop ends: a channel of more than 70 bytes
    shrinks by a quarter, and below that the observation fits. *)

(** ** Bytes of concatenated text *)

Lemma byteLength_cons_le u s : byteLength s + 1 <= byteLength (u :: s) <= byteLength s + 3.
Proof.
  cbn [byteLength]. destruct (isHighSurrogate u).
  - destruct s as [|v r]; [cbn; lia|]. destruct (isLowSurrogate v) eqn:E; [|lia]. cbn [byteLength].
    assert (isHighSurrogate v = false) as -> by (unfold isHighSurrogate, isLowSurrogate in *; lia).
    assert ((v <? 0x80) = false /\ (v <? 0x800) = false) as [-> ->] by (unfold isLowSurrogate in E; lia). lia.
  - repeat case_match; lia.
Qed.

(** Text appended to [a] does not join a surrogate of [a]. *)
Definition startsClosed (b : jstring) : bool := match b with u :: _ => negb (isLowSurrogate u) | [] => true end.

Lemma byteLength_induction (P : jstring -> Prop) :
  P [] -> (forall u, P [u]) -> (forall u v r, P r -> P (v :: r) -> P (u :: v :: r)) -> forall s, P s.
Proof.
  intros H0 H1 H2. assert (H : forall n s, (length s <= n)%nat -> P s); [|intros s; by apply (H (length s))].
  induction n as [|n IH]; intros [|u [|v r]] Hl; cbn in Hl; try done; try lia. apply H2; apply IH; cbn; lia.
Qed.

Lemma byteLength_two u v r :
  byteLength (u :: v :: r) =
  if isHighSurrogate u && isLowSurrogate v then 4 + byteLength r else byteLength [u] + byteLength (v :: r).
Proof.
  destruct (isHighSurrogate u) eqn:Eu; cbn [andb].
  - destruct (isLowSurrogate v) eqn:Ev; cbn [byteLength]; rewrite Eu, Ev; done.
  - cbn [byteLength]. rewrite Eu. lia.
Qed.

Lemma byteLength_app_closed a b : startsClosed b = true -> byteLength (a ++ b) = byteLength a + byteLength b.
Proof.
  intros Hb. induction a as [|u|u v r IHr IHv] using byteLength_induction; [done| |].
  - destruct b as [|w b]; [cbn [app byteLength]; lia|]. cbn in Hb. apply negb_true_iff in Hb. cbn [app].
    rewrite byteLength_two, Hb, andb_false_r. done.
  - cbn [app] in *. rewrite !byteLength_two. destruct (_ && _); lia.
Qed.

Lemma byteLength_app_le a b : byteLength (a ++ b) <= byteLength a + byteLength b.
Proof.
  induction a as [|u|u v r IHr IHv] using byteLength_induction; [cbn; lia| |].
  - destruct b as [|w b]; [cbn [app byteLength]; lia|]. cbn [app]. rewrite byteLength_two.
    destruct (isHighSurrogate u && isLowSurrogate w) eqn:E; [|lia]. apply andb_true_iff in E as [Eu _].
    pose proof (byteLength_cons_le w b). assert (byteLength [u] = 3) by (cbn; by rewrite Eu). lia.
  - cbn [app] in *. rewrite !byteLength_two. destruct (_ && _); lia.
Qed.

(** A chunk that ends between two characters. *)
Definition endsClosed (a : jstring) : bool := match last a with Some u => negb (isHighSurrogate u) | None => true end.

Lemma byteLength_app_ends a b : endsClosed a = true -> byteLength (a ++ b) = byteLength a + byteLength b.
Proof.
  intros Ha. induction a as [|u|u v r IHr IHv] using byteLength_induction; [done| |].
  - unfold endsClosed in Ha. cbn in Ha. apply negb_true_iff in Ha. destruct b as [|w b]; [cbn [app byteLength]; lia|].
    cbn [app]. by rewrite byteLength_two, Ha.
  - assert (Hv : endsClosed (v :: r) = true) by exact Ha. specialize (IHv Hv). cbn [app] in *. rewrite !byteLength_two.
    destruct (isHighSurrogate u && isLowSurrogate v); [|lia]. rewrite IHr; [lia|]. destruct r as [|w r]; [done|]. exact Ha.
Qed.

Lemma byteLength_concat chunks :
  Forall (fun chunk => endsClosed chunk = true) chunks ->
  byteLength (concat chunks) = fold_right (fun chunk n => byteLength chunk + n) 0 chunks.
Proof. induction 1 as [|chunk chunks H _ IH]; [done|]. cbn [concat fold_right]. by rewrite byteLength_app_ends, IH. Qed.

(** ** Quoting grows text at most six times *)

Lemma byteLength_quoteUnit u : byteLength (quoteUnit u) <= 6 * byteLength [u] /\ byteLength (unicodeEscape u) = 6.
Proof.
  assert (Hx : byteLength (unicodeEscape u) = 6).
  { unfold unicodeEscape. pose proof (Z.mod_pos_bound (u / 4096) 16). pose proof (Z.mod_pos_bound (u / 256) 16).
    pose proof (Z.mod_pos_bound (u / 16) 16). pose proof (Z.mod_pos_bound u 16).
    assert (Hd : forall d r, 0 <= d < 16 -> byteLength (hexDigit d :: r) = 1 + byteLength r).
    { intros d r Hd. cbn [byteLength]. unfold isHighSurrogate, hexDigit. destruct (Z.ltb_spec d 10);
        rewrite (proj2 (Z.leb_gt 0xd800 _)) by lia; cbn [andb]; rewrite (proj2 (Z.ltb_lt _ 0x80)) by lia; done. }
    change (byteLength (0x5c :: 0x75 :: hexDigit (u / 4096 mod 16) :: hexDigit (u / 256 mod 16) :: hexDigit (u / 16 mod 16) :: [hexDigit (u mod 16)]))
      with (1 + (1 + byteLength (hexDigit (u / 4096 mod 16) :: hexDigit (u / 256 mod 16) :: hexDigit (u / 16 mod 16) :: [hexDigit (u mod 16)]))).
    rewrite !Hd by lia. done. }
  split; [|done]. pose proof (byteLength_cons_le u []) as Hu. change (byteLength []) with 0 in Hu.
  unfold quoteUnit. repeat (case_match; [first [rewrite Hx; lia|transitivity 6; [by vm_compute|lia]]|]). lia.
Qed.

Lemma startsClosed_quoteUnits s : startsClosed (quoteUnits s) = true.
Proof.
  destruct s as [|u r]; [done|]. cbn [quoteUnits]. destruct (isHighSurrogate u) eqn:Eh.
  - destruct r as [|v r]; [done|]. destruct (isLowSurrogate v); [|done]. cbn.
    unfold isHighSurrogate, isLowSurrogate in *. lia.
  - destruct (isLowSurrogate u) eqn:El; [done|]. unfold quoteUnit. repeat (case_match; [done|]). cbn. by rewrite El.
Qed.

Lemma byteLength_quoteUnits s : byteLength (quoteUnits s) <= 6 * byteLength s.
Proof.
  induction s as [|u|u v r IHr IHv] using byteLength_induction; [cbn; lia| |].
  - destruct (byteLength_quoteUnit u) as [H1 H2]. cbn [quoteUnits]. pose proof (byteLength_cons_le u []) as Hu.
    change (byteLength []) with 0 in Hu. destruct (isHighSurrogate u); [lia|].
    destruct (isLowSurrogate u); rewrite app_nil_r; lia.
  - destruct (byteLength_quoteUnit u) as [H1 H2]. pose proof (byteLength_cons_le u []) as Hu. change (byteLength []) with 0 in Hu.
    rewrite byteLength_two. remember (v :: r) as s eqn:Es. cbn [quoteUnits].
    destruct (isHighSurrogate u) eqn:Eh; cbn [andb]; subst s.
    + destruct (isLowSurrogate v) eqn:El; cbn [andb].
      * rewrite byteLength_two, Eh, El. cbn [andb]. lia.
      * rewrite byteLength_app_closed by apply startsClosed_quoteUnits. lia.
    + destruct (isLowSurrogate u); rewrite byteLength_app_closed by apply startsClosed_quoteUnits; lia.
Qed.

(** ** The shape of the observation *)

Lemma joinUnit_app c l k : l <> [] -> k <> [] -> joinUnit c (l ++ k) = joinUnit c l ++ c :: joinUnit c k.
Proof.
  intros Hl Hk. induction l as [|x l IH]; [done|]. destruct l as [|y l].
  - destruct k; [done|]. done.
  - change (joinUnit c ((x :: y :: l) ++ k)) with (x ++ c :: joinUnit c ((y :: l) ++ k)). rewrite IH by done.
    change (joinUnit c (x :: y :: l)) with (x ++ c :: joinUnit c (y :: l)). by rewrite <-app_assoc.
Qed.

(** The observation is text of the metadata around the two channels. *)
Lemma serialize_shape completed truncated : exists P Q R,
  startsClosed Q = true /\ startsClosed R = true /\
  forall stdout stderr, serializeCommand completed stdout stderr truncated =
    P ++ quoteUnits stderr ++ Q ++ quoteUnits stdout ++ R.
Proof.
  unfold serializeCommand. set (error := commandError _).
  set (texts := List.flat_map (fun '(k, v) => if isUndefined v then [] else [fieldText (k, jsonStringify v)])).
  set (before := [(js "cleanup_verified", JBool (ccp_cleanup_verified completed)); (js "duration_ms", JNum (ccp_duration_ms completed));
    (js "error_code", optional jtext (ccp_error_code completed)); (js "exit_code", nullable JNum (ccp_exit_code completed));
    (js "signal", nullable JStr (ccp_signal completed))]).
  set (after := [(js "termination", jtext (terminationText (ccp_termination completed))); (js "truncated", JBool truncated);
    (js "error", optional (fun e => JObj [
       (js "category", jtext (categoryText (cme_category e))); (js "code", jtext (cme_code e));
       (js "message", jtext (cme_message e)); (js "retryable", JBool (cme_retryable e))]) error);
    (js "ok", JBool (match error with None => true | Some _ => false end))]).
  assert (Hb : texts before <> []) by done. assert (Ha : texts after <> []) by done.
  exists (0x7b :: joinUnit comma (texts before) ++ comma :: stringifyString (js "stderr") ++ [colon; 0x22]),
    (0x22 :: comma :: stringifyString (js "stdout") ++ [colon; 0x22]),
    (0x22 :: comma :: joinUnit comma (texts after) ++ [0x7d]).
  split_and!; [done..|]. intros stdout stderr.
  transitivity (0x7b :: joinUnit comma (texts (before ++ [(js "stderr", JStr stderr); (js "stdout", JStr stdout)] ++ after)) ++ [0x7d]);
    [reflexivity|].
  assert (Htexts : texts (before ++ [(js "stderr", JStr stderr); (js "stdout", JStr stdout)] ++ after) =
    texts before ++ [fieldText (js "stderr", stringifyString stderr); fieldText (js "stdout", stringifyString stdout)] ++ texts after)
    by (unfold texts; rewrite !flat_map_app; done).
  rewrite Htexts, !joinUnit_app by done. cbn [joinUnit]. unfold fieldText. cbn [fst snd].
  change (stringifyString stderr) with (0x22 :: quoteUnits stderr ++ [0x22]).
  change (stringifyString stdout) with (0x22 :: quoteUnits stdout ++ [0x22]).
  generalize (stringifyString (js "stderr")), (stringifyString (js "stdout")), (joinUnit comma (texts before)),
    (joinUnit comma (texts after)), (quoteUnits stderr), (quoteUnits stdout). clear.
  intros l1 l2 l3 l4 l5 l6. repeat (rewrite <-app_assoc || cbn [app]). done.
Qed.

Lemma serialize_bytes completed stdout stderr truncated :
  byteLength (serializeCommand completed stdout stderr truncated) <=
  byteLength (serializeCommand completed [] [] truncated) + 6 * (byteLength stdout + byteLength stderr).
Proof.
  destruct (serialize_shape completed truncated) as (P & Q & R & HQ & HR & Hs). rewrite !Hs. cbn [quoteUnits app].
  pose proof (byteLength_quoteUnits stdout). pose proof (byteLength_quoteUnits stderr).
  rewrite (byteLength_app_closed P (Q ++ R)), (byteLength_app_closed Q R) by (done || by destruct Q).
  pose proof (byteLength_app_le P (quoteUnits stderr ++ Q ++ quoteUnits stdout ++ R)).
  pose proof (byteLength_app_le (quoteUnits stderr) (Q ++ quoteUnits stdout ++ R)).
  pose proof (byteLength_app_le Q (quoteUnits stdout ++ R)). pose proof (byteLength_app_le (quoteUnits stdout) R). lia.
Qed.

(** ** The loop *)

Lemma takeBytes_bytes maxBytes characters : 0 <= maxBytes -> byteLength (takeBytes maxBytes characters) <= maxBytes.
Proof.
  revert maxBytes. induction characters as [|c characters IH]; intros maxBytes Hm; [cbn; lia|]. cbn [takeBytes].
  destruct (Z.ltb_spec maxBytes (byteLength (units c))); [cbn; lia|].
  pose proof (byteLength_app_le (units c) (takeBytes (maxBytes - byteLength (units c)) characters)).
  specialize (IH (maxBytes - byteLength (units c))). lia.
Qed.

Lemma truncateUtf8_bytes value maxBytes : 0 <= maxBytes -> byteLength (truncateUtf8 value maxBytes) <= maxBytes.
Proof.
  intros Hm. unfold truncateUtf8. destruct (Z.leb_spec (byteLength value) maxBytes); [done|by apply takeBytes_bytes].
Qed.

(** What the schema allows besides output is far below the limit. *)
Definition smallMetadata (completed : CommandCompletedPayload) : Prop :=
  forall truncated, byteLength (serializeCommand completed [] [] truncated) <= 65536.

Lemma shortened_bytes selected :
  70 < byteLength selected ->
  byteLength (truncateUtf8 selected (Z.max 0 (Z.max 0 (byteLength selected * 3 / 4) - byteLength OMITTED_SUFFIX)) ++ OMITTED_SUFFIX)
    < byteLength selected.
Proof.
  intros H. assert (Hs : byteLength OMITTED_SUFFIX = 53) by (vm_compute; reflexivity).
  set (bound := Z.max 0 _). pose proof (truncateUtf8_bytes selected bound ltac:(lia)).
  pose proof (byteLength_app_le (truncateUtf8 selected bound) OMITTED_SUFFIX).
  assert (byteLength selected * 3 / 4 < byteLength selected) by (apply Z.div_lt_upper_bound; lia).
  assert (53 <= byteLength selected * 3 / 4) by (apply Z.div_le_lower_bound; lia). unfold bound in *. lia.
Qed.

Lemma nonempty_bytes s : 0 < byteLength s -> (length s =? 0)%nat = false.
Proof. by destruct s. Qed.

Lemma fitCommand_ok fuel completed stdout stderr truncated :
  smallMetadata completed -> byteLength stdout + byteLength stderr <= Z.of_nat fuel ->
  exists text truncated', fitCommand fuel completed stdout stderr truncated = Ok (text, truncated') /\
    byteLength text <= MAX_COMMAND_TOOL_OUTPUT_BYTES /\
    (if byteLength (serializeCommand completed stdout stderr truncated) <=? MAX_COMMAND_TOOL_OUTPUT_BYTES
     then text = serializeCommand completed stdout stderr truncated /\ truncated' = truncated else truncated' = true).
Proof.
  intros Hm. revert stdout stderr truncated. induction fuel as [|fuel IH]; intros stdout stderr truncated Hf; cbn [fitCommand].
  - destruct (Z.leb_spec (byteLength (serializeCommand completed stdout stderr truncated)) MAX_COMMAND_TOOL_OUTPUT_BYTES) as [|Hbig];
      [by eexists _, _|]. pose proof (serialize_bytes completed stdout stderr truncated). specialize (Hm truncated).
    unfold MAX_COMMAND_TOOL_OUTPUT_BYTES in Hbig. lia.
  - destruct (Z.leb_spec (byteLength (serializeCommand completed stdout stderr truncated)) MAX_COMMAND_TOOL_OUTPUT_BYTES) as [|Hbig];
      [by eexists _, _|]. pose proof (serialize_bytes completed stdout stderr truncated) as Hbytes. specialize (Hm truncated) as Hmt.
    unfold MAX_COMMAND_TOOL_OUTPUT_BYTES in Hbig.
    assert (Hnext : forall out err, byteLength out + byteLength err < byteLength stdout + byteLength stderr ->
      exists text truncated', fitCommand fuel completed out err true = Ok (text, truncated') /\
        byteLength text <= MAX_COMMAND_TOOL_OUTPUT_BYTES /\ truncated' = true).
    { intros out err Hlt. destruct (IH out err true ltac:(lia)) as (text & t & -> & Hlen & Ht). exists text, t.
      split_and!; [done..|]. destruct (_ <=? _); naive_solver. }
    destruct (Z.leb_spec (byteLength stderr) (byteLength stdout)) as [Ho|Ho].
    + rewrite nonempty_bytes by lia. apply Hnext. pose proof (shortened_bytes stdout ltac:(lia)). lia.
    + rewrite nonempty_bytes by lia. apply Hnext. pose proof (shortened_bytes stderr ltac:(lia)). lia.
Qed.

(** The observation of a completed command is recovered and fits. When the byte
    counts of the completion are those of its chunks, no chunk ends inside a
    character and the rest of the event is as small as its schema keeps it,
    recovery answers: with the whole output when that fits the limit, else
    with output that is shortened and marked as truncated. *)
Theorem recovered_command_fits completed chunks :
  Forall (fun chunk => endsClosed chunk = true) (coa_stdout chunks) ->
  Forall (fun chunk => endsClosed chunk = true) (coa_stderr chunks) ->
  ccp_stdout_bytes completed = fold_right (fun chunk n => byteLength chunk + n) 0 (coa_stdout chunks) ->
  ccp_stderr_bytes completed = fold_right (fun chunk n => byteLength chunk + n) 0 (coa_stderr chunks) ->
  ccp_total_bytes completed = ccp_stdout_bytes completed + ccp_stderr_bytes completed ->
  smallMetadata completed ->
  let whole := serializeCommand completed (concat (coa_stdout chunks)) (concat (coa_stderr chunks)) (ccp_truncated completed) in
  exists observation, recoverCommandToolObservation completed chunks = Ok observation /\
    byteLength (rto_output observation) <= MAX_COMMAND_TOOL_OUTPUT_BYTES /\
    if byteLength whole <=? MAX_COMMAND_TOOL_OUTPUT_BYTES
    then rto_output observation = whole /\ rto_truncated observation = ccp_truncated completed
    else rto_truncated observation = true.
Proof.
  intros Hso Hse Ho He Ht Hm whole. unfold recoverCommandToolObservation.
  rewrite !byteLength_concat, <-Ho, <-He, Ht, !Z.eqb_refl by done. cbn [negb orb].
  destruct (fitCommand_ok (Z.to_nat (ccp_stdout_bytes completed + ccp_stderr_bytes completed)) completed
    (concat (coa_stdout chunks)) (concat (coa_stderr chunks)) (ccp_truncated completed)) as (text & t & Hfit & Hlen & Hwhole); [done| |].
  { rewrite !byteLength_concat, <-Ho, <-He by done. lia. }
  rewrite Hfit. cbn [mbind result_bind]. eexists. split; [done|]. split; [done|]. exact Hwhole.
Qed.

Definition sampleCommand (stdoutBytes : Z) : CommandCompletedPayload := {|
  ccp_id := {| ci_action_sha256 := "act"; ci_call_id := "c"; ci_execution_id := "x"; ci_executor := executor_local; ci_step := 1 |};
  ccp_cleanup_verified := true; ccp_duration_ms := 9; ccp_error_code := Some "slow"%string; ccp_exit_code := None;
  ccp_signal := Some (js "SIGTERM"); ccp_stderr_bytes := 3; ccp_stdout_bytes := stdoutBytes; ccp_termination := term_timeout;
  ccp_total_bytes := stdoutBytes + 3; ccp_truncated := false |}.
Definition sampleChunks : CommandOutputAccumulator := {| coa_stderr := [js "no"; [0x22]]; coa_stdout := [[0xd83d; 0xde00]] |}.

Lemma recovered_command_fits_witness : exists observation,
  recoverCommandToolObservation (sampleCommand 4) sampleChunks = Ok observation /\
  byteLength (rto_output observation) <= MAX_COMMAND_TOOL_OUTPUT_BYTES /\
  rto_output observation = serializeCommand (sampleCommand 4) [0xd83d; 0xde00] (js "no" ++ [0x22]) false /\
  rto_truncated observation = false.
Proof.
  apply (recovered_command_fits (sampleCommand 4) sampleChunks); [repeat constructor..|reflexivity|reflexivity|reflexivity|].
  intros []; vm_compute; discriminate.
Defined.

(** A chunk that ends inside a character is not recovered: its bytes are counted
    as those of a replacement character. *)
Example split_character_is_lost :
  let chunks := {| coa_stderr := [js "no"; [0x22]]; coa_stdout := [[0xd83d]; [0xde00]] |} in
  recoverCommandToolObservation (sampleCommand 6) chunks = Err output_bytes_differ.
Proof. vm_compute. reflexivity. Qed.
