(* ===== verification/SessionLedger.v ===== *)
(** * The ledger of the last run of a session

    [sessionLedger] composes the reading of [commands/sessions.ts] with the two
    ledgers.  Here: what an entry of the log, or its absence from the ledger,
    means for the log itself. *)

From S2P Require Import Prelude JsString Domain Events Utf8 Patch Completion Verification RunEvents RunLog EventPublisher ToolErrors McpResult PendingEffects PendingEffectsFacts.
#[local] Open Scope Z_scope.

(** ** What the log says *)

Definition logged (events : list DecodedRunEvent) (runId : string) (data : RunLogData) : Prop :=
  exists event, event ∈ events /\ de_runId event = runId /\ de_data event = data.

Definition answered (events : list DecodedRunEvent) (runId call : string) : Prop :=
  exists d, logged events runId (log_event (ev_tool_call_completed d)) /\ tcc_call_id d = call.
Definition patchCompleted (events : list DecodedRunEvent) (runId plan : string) : Prop :=
  exists d, logged events runId (log_event (ev_patch_apply_completed d)) /\ pac_plan_id d = plan.
Definition commandCompleted (events : list DecodedRunEvent) (runId execution : string) : Prop :=
  exists d, logged events runId (log_event (ev_command_completed d)) /\
    ci_execution_id (ccp_id d) = execution /\ cleanCommand d = true.
Definition mcpCompleted (events : list DecodedRunEvent) (runId call : string) : Prop :=
  exists d, logged events runId (log_mcp (mcp_tool_call_completed d)) /\ mci_call_id (mcc_id d) = call.
(** A call of the run: requested by it, or adopted from the run before. *)
Definition called (events : list DecodedRunEvent) (runId call : string) : Prop :=
  (exists d, logged events runId (log_event (ev_tool_call_requested d)) /\ tcr_call_id d = call) \/
  (exists d, logged events runId (log_adopted d) /\ pad_call_id d = call).

(** The effect of a patch or command that an event completes, with its call. *)
Definition effectAt (event : DecodedRunEvent) : option ((EffectKind * RunKey) * string) :=
  match de_data event with log_event draft => effectOf (de_runId event, draft) | _ => None end.

(** The domain events of the log as they are. *)
Definition draftsOf (events : list DecodedRunEvent) : list (string * RunEventDraft) :=
  omap (fun event => match de_data event with log_event draft => Some (de_runId event, draft) | _ => None end) events.
(** The observation that the completion of a patch or command leaves. *)
Definition resultAt (before : list DecodedRunEvent) (event : DecodedRunEvent) (observation : RecoveredToolObservation)
  : Prop :=
  match de_data event with
  | log_event draft => effectResult (draftsOf before) (de_runId event, draft) observation
  | _ => False
  end.

(** ** The domain events *)

Lemma foldM_collect {E A B} (f : A -> result E (list B)) l acc :
  foldM (fun acc x => more ← f x; Ok (acc ++ more)) l acc =
  (rest ← foldM (fun acc x => more ← f x; Ok (acc ++ more)) l []; Ok (acc ++ rest)).
Proof.
  revert acc. induction l as [|x l IH]; intros acc; cbn; [by rewrite app_nil_r|].
  destruct (f x) as [more|]; cbn; [|done]. rewrite (IH (acc ++ more)), (IH more).
  destruct (foldM _ l []); cbn; [|done]. by rewrite app_assoc.
Qed.

Lemma legacy_split runs pre x post domain :
  legacyDomainEvents runs (pre ++ x :: post) = Ok domain ->
  exists a b c, legacyDomainEvents runs pre = Ok a /\ legacyDomainEvent runs x = Ok b /\
    legacyDomainEvents runs post = Ok c /\ domain = a ++ b ++ c.
Proof.
  unfold legacyDomainEvents. rewrite foldM_app. intros (a & Ha & H)%bind_ok. cbn in H.
  destruct (legacyDomainEvent runs x) as [b|]; cbn in H; [|done]. rewrite foldM_collect in H.
  apply bind_ok in H as (c & Hc & H). simplify_eq. exists a, b, c. by rewrite app_assoc.
Qed.

(** What an event is read as. *)
Lemma legacy_event runs x b y :
  legacyDomainEvent runs x = Ok b -> y ∈ b ->
  y.1 = de_runId x /\
  (de_data x = log_event y.2 \/ (exists d, y.2 = ev_run_completed d) \/ (exists d, y.2 = ev_tool_call_requested d)).
Proof.
  unfold legacyDomainEvent. destruct (de_data x) as [[]| | |d| | | |]; intros H Hy; simplify_eq; try (by set_solver);
    try (apply list_elem_of_singleton in Hy as ->; cbn; split; [done|]; by eauto).
  destruct (head _); [|done]. simplify_eq. apply list_elem_of_singleton in Hy as ->. cbn. split; [done|]. eauto.
Qed.

Lemma legacy_read runs events domain x y b :
  legacyDomainEvents runs events = Ok domain -> x ∈ events -> legacyDomainEvent runs x = Ok b -> y ∈ b -> y ∈ domain.
Proof.
  intros H (pre & post & ->)%list_elem_of_split Hb Hy. apply legacy_split in H as (a & b' & c & _ & Hb' & _ & ->).
  rewrite Hb in Hb'. simplify_eq. set_solver.
Qed.

Lemma legacy_from runs events domain y :
  legacyDomainEvents runs events = Ok domain -> y ∈ domain ->
  exists x b, x ∈ events /\ legacyDomainEvent runs x = Ok b /\ y ∈ b.
Proof.
  intros H. refine (foldM_prefix (fun acc event => more ← legacyDomainEvent runs event; Ok (acc ++ more))
    (fun events domain => y ∈ domain -> exists x b, x ∈ events /\ legacyDomainEvent runs x = Ok b /\ y ∈ b)
    _ events domain _ _ H); [by intros ?%not_elem_of_nil|].
  intros k acc x acc' IH Hstep Hy. apply bind_ok in Hstep as (b & Hb & Hstep). simplify_eq.
  apply elem_of_app in Hy as [Hy|Hy]; [destruct (IH Hy) as (x' & b' & ? & ?); exists x', b'; set_solver|].
  exists x, b. set_solver.
Qed.

(** Everything that closes or completes an effect is in the log as it is. *)
Lemma legacy_closes runs events domain y mark key :
  legacyDomainEvents runs events = Ok domain -> y ∈ domain -> closes y = Some (mark, key) ->
  logged events y.1 (log_event y.2).
Proof.
  intros H Hy Hc. destruct (legacy_from _ _ _ _ H Hy) as (x & b & Hx & Hb & Hyb).
  destruct (legacy_event _ _ _ _ Hb Hyb) as (Hr & [Hd|[[d Hd]|[d Hd]]]); [by exists x| |];
    unfold closes in Hc; by rewrite Hd in Hc.
Qed.
Lemma legacy_effect runs x b y key call :
  legacyDomainEvent runs x = Ok b -> y ∈ b -> effectOf y = Some (key, call) -> effectAt x = Some (key, call).
Proof.
  intros Hb Hyb He. destruct (legacy_event _ _ _ _ Hb Hyb) as (Hr & [Hd|[[d Hd]|[d Hd]]]).
  - unfold effectAt. rewrite Hd, <-Hr. by destruct y.
  - unfold effectOf in He. by rewrite Hd in He.
  - unfold effectOf in He. by rewrite Hd in He.
Qed.

(** What the reading changes is not the output of a command. *)
Lemma legacy_output runs events domain key :
  legacyDomainEvents runs events = Ok domain -> outputBefore domain key = outputBefore (draftsOf events) key.
Proof.
  refine (foldM_prefix (fun acc event => more ← legacyDomainEvent runs event; Ok (acc ++ more))
    (fun events domain => outputBefore domain key = outputBefore (draftsOf events) key) _ events domain _ _);
    [done|].
  intros k acc x acc' IH Hstep. apply bind_ok in Hstep as (b & Hb & Hstep). simplify_eq.
  unfold outputBefore, draftsOf in *. rewrite omap_app, !foldl_app, IH. unfold legacyDomainEvent in Hb. cbn.
  destruct (de_data x) as [draft| | | | | | |]; try (by simplify_eq).
  - by destruct draft; simplify_eq.
  - destruct (head _); by simplify_eq.
Qed.

(** A draft that is neither a request nor a completion of the run is kept. *)
Lemma legacy_keeps runs x draft :
  de_data x = log_event draft -> (forall d, draft <> ev_run_completed d) ->
  legacyDomainEvent runs x = Ok [(de_runId x, draft)].
Proof. intros Hd Hn. unfold legacyDomainEvent. rewrite Hd. destruct draft; try done. by edestruct Hn. Qed.

(** ** The ledger of the domain events *)

Section Ledger.
Context (runs : list (string * list DecodedRunEvent)) (events : list DecodedRunEvent).
Context (domain : list (string * RunEventDraft)) (st : LedgerState).
Context (Hdomain : legacyDomainEvents runs events = Ok domain) (Hst : foldM ledgerEvent domain emptyLedger = Ok st).

Lemma domain_in r draft :
  logged events r (log_event draft) -> (forall d, draft <> ev_run_completed d) -> (r, draft) ∈ domain.
Proof.
  intros (x & Hx & <- & Hd) Hn. eapply legacy_read; [done|exact Hx|by apply legacy_keeps|]. set_solver.
Qed.

Lemma domain_called r call : called events r call ->
  exists y, y ∈ domain /\ opens y = Some (mark_call, (r, call)).
Proof.
  intros [(d & Hd & <-)|(d & (x & Hx & <- & Hd) & <-)].
  - eexists. split; [by apply domain_in|done].
  - destruct (list_elem_of_split _ _ Hx) as (pre & post & Hsplit). rewrite Hsplit in Hdomain.
    destruct (legacy_split _ _ _ _ _ Hdomain) as (a & b & c & _ & Hb & _ & ->).
    unfold legacyDomainEvent in Hb. rewrite Hd in Hb. destruct (head _); [|done]. simplify_eq.
    eexists. split; [rewrite elem_of_app; right; cbn; left|]. done.
Qed.

Lemma closes_logged y mark key : y ∈ domain -> closes y = Some (mark, key) ->
  match mark with
  | mark_call => answered events key.1 key.2
  | mark_patch => patchCompleted events key.1 key.2
  | mark_command => commandCompleted events key.1 key.2
  end.
Proof.
  intros Hy Hc. pose proof (legacy_closes _ _ _ _ _ _ Hdomain Hy Hc) as Hl. unfold closes in Hc.
  destruct y as [r []]; cbn in *; try done; [| |destruct (cleanCommand _) eqn:Ec; [|done]]; simplify_eq; cbn; by eexists.
Qed.

Lemma call_settled r call : called events r call ->
  answered events r call \/ exists c, c ∈ pel_pendingToolCalls (ledgerOf st) /\ callKey c = (r, call).
Proof.
  intros (y & Hy & Ho)%domain_called.
  destruct (ledger_started _ _ Hst _ _ _ Hy Ho) as [(z & Hz & Hc)|[Hop _]].
  - left. by apply (closes_logged z mark_call (r, call)).
  - right. by apply (pending_call_listed _ _ Hst).
Qed.
Lemma patch_settled r d : logged events r (log_event (ev_patch_apply_started d)) ->
  patchCompleted events r (pas_plan_id d) \/
  exists e, e ∈ pel_pendingPatches (ledgerOf st) /\ patchKey e = (r, pas_plan_id d).
Proof.
  intros Hl. pose proof (domain_in _ _ Hl ltac:(done)) as Hy.
  destruct (ledger_started _ _ Hst _ mark_patch (r, pas_plan_id d) Hy eq_refl) as [(z & Hz & Hc)|[Hop Hn]].
  - left. by apply (closes_logged z mark_patch (r, pas_plan_id d)).
  - right. by apply (pending_patch_listed _ _ Hst).
Qed.
Lemma command_settled r d : logged events r (log_event (ev_command_requested d)) ->
  commandCompleted events r (ci_execution_id (crq_id d)) \/
  exists e, e ∈ pel_unknownCommands (ledgerOf st) /\ commandKey e = (r, ci_execution_id (crq_id d)).
Proof.
  intros Hl. pose proof (domain_in _ _ Hl ltac:(done)) as Hy.
  destruct (ledger_started _ _ Hst _ mark_command (r, ci_execution_id (crq_id d)) Hy eq_refl) as [(z & Hz & Hc)|[Hop Hn]].
  - left. by apply (closes_logged z mark_command (r, ci_execution_id (crq_id d))).
  - right. by apply (unknown_command_listed _ _ Hst).
Qed.

(** The last completion of an effect has a result, or is a recovered effect. *)
Lemma effect_settled pre x post key call :
  events = pre ++ x :: post -> effectAt x = Some (key, call) ->
  (forall y c, y ∈ post -> effectAt y <> Some (key, c)) ->
  answered events (de_runId x) call \/
  exists e, e ∈ pel_recoveredInnerEffects (ledgerOf st) /\ rie_callId e = call /\ rie_sourceRunId e = de_runId x /\
    resultAt pre x (rie_observation e).
Proof.
  intros Hsplit Hx Hpost. pose proof Hdomain as Hread. rewrite Hsplit in Hread.
  destruct (legacy_split _ _ _ _ _ Hread) as (a & b & c & Ha & Hb & Hc & Hcat).
  assert (exists draft, de_data x = log_event draft /\ effectOf (de_runId x, draft) = Some (key, call)) as (draft & Hd & He).
  { unfold effectAt in Hx. destruct (de_data x); try done. by eexists. }
  rewrite (legacy_keeps runs x draft Hd) in Hb by (intros ? ->; done). injection Hb as <-.
  destruct (ledger_effect _ _ Hst a (de_runId x, draft) c key call Hcat He) as (e & Hget & Hcall & Hres).
  { intros y c' Hy Hey. destruct (legacy_from _ _ _ _ Hc Hy) as (x' & b' & Hx' & Hb' & Hyb).
    apply (Hpost x' c' Hx'). by eapply legacy_effect. }
  assert (Hr : key.2.1 = de_runId x).
  { unfold effectOf in He. cbn in He. destruct draft; try done; [|destruct (cleanCommand _); [|done]]; by simplify_eq. }
  destruct key as [kind key]. rewrite <-Hr.
  destruct (inner_effect_listed _ _ Hst kind key call e Hget Hcall) as [(y & Hy & Hcl)|[Hrec Hrun]]; [left|right].
  2:{ exists e. split_and!; [done..|]. unfold resultAt. rewrite Hd. unfold effectResult in *. cbn in *.
      destruct draft; try done. by rewrite <-(legacy_output _ _ _ _ Ha). }
  by apply (closes_logged y mark_call (key.1, call)).
Qed.
End Ledger.

(** ** MCP *)

Section Mcp.
Context (sha256 : jstring -> string).

Definition mcpKey (call : UnknownMcpCallEffect) : RunKey := (umc_sourceRunId call, umc_callId call).
Definition mcpStarted (data : RunLogData) : option string :=
  match data with
  | log_mcp (mcp_tool_call_started d | mcp_tool_call_effect_unknown d) => Some (mci_call_id d)
  | _ => None
  end.

Lemma recoverMcpCall_says r d e :
  recoverMcpCall sha256 r d = Ok e -> rie_callId e = mci_call_id (mcc_id d) /\ rie_sourceRunId e = r.
Proof.
  unfold recoverMcpCall. intros (? & _ & H)%bind_ok. destruct (recoverDurableMappedMcpResult _ _); [|done].
  by simplify_eq.
Qed.

(** The branches of one event of the MCP ledger. *)
Ltac mcp_cases H :=
  unfold mcpEvent in H;
  match type of H with context [match de_data ?x with _ => _ end] =>
    destruct (de_data x) as [| | | | | |[]|] eqn:?; try case_bool_decide; returns; simpl end.

Lemma mcpEvent_keyed outer st x st' :
  mcpEvent sha256 outer st x = Ok st' -> keyed mcpKey (ml_calls st) -> keyed mcpKey (ml_calls st').
Proof. intros H Hk. mcp_cases H; try done; try (by apply keyed_delete); by apply keyed_set. Qed.

Lemma mcpEvent_open outer st x st' r call :
  mcpEvent sha256 outer st x = Ok st' ->
  (de_runId x = r /\ mcpStarted (de_data x) = Some call) \/ is_Some (jm_get (r, call) (ml_calls st)) ->
  is_Some (jm_get (r, call) (ml_calls st')) \/ mcpCompleted [x] r call.
Proof.
  assert (Hdel : forall d (k : jsmap RunKey UnknownMcpCallEffect), de_data x = log_mcp (mcp_tool_call_completed d) -> is_Some (jm_get (r, call) k) ->
    is_Some (jm_get (r, call) (jm_delete (de_runId x, mci_call_id (mcc_id d)) k)) \/ mcpCompleted [x] r call).
  { intros d k Hd Hk. rewrite jm_get_delete. case_decide as Heq; [|by left]. right. simplify_eq.
    exists d. split; [|done]. exists x. set_solver. }
  intros H Hopen. mcp_cases H; (destruct Hopen as [[Hr Hs]|Hopen]; [|]); simpl in *; try done; simplify_eq;
    rewrite ?is_Some_get_set; try (by left); try (by left; left); try (by left; right); by apply Hdel.
Qed.

Lemma mcpEvent_recovered outer st x st' e :
  mcpEvent sha256 outer st x = Ok st' -> e ∈ ml_recovered st -> e ∈ ml_recovered st'.
Proof. intros H He. mcp_cases H; set_solver. Qed.
Lemma mcpEvent_completed outer st x st' d :
  mcpEvent sha256 outer st x = Ok st' -> de_data x = log_mcp (mcp_tool_call_completed d) ->
  (de_runId x, mci_call_id (mcc_id d)) ∈ outer \/
  exists e, e ∈ ml_recovered st' /\ recoverMcpCall sha256 (de_runId x) d = Ok e.
Proof.
  intros H Hd. unfold mcpEvent in H. rewrite Hd in H. case_bool_decide; [by left|]. right. returns.
  match goal with H : recoverMcpCall _ _ _ = Ok ?e |- _ => exists e; split; [set_solver|done] end.
Qed.

Lemma mcpCompleted_app k k' r call : mcpCompleted k r call \/ mcpCompleted k' r call -> mcpCompleted (k ++ k') r call.
Proof. intros [(d & (x & Hx & ? & ?) & ?)|(d & (x & Hx & ? & ?) & ?)]; exists d; (split; [|done]); exists x; set_solver. Qed.

Section Merge.
Context (ledger ledger' : PendingEffectLedger) (events : list DecodedRunEvent).
Context (Hmerge : mergeMcpPendingEffects sha256 ledger events = Ok ledger').

Lemma merge_keeps :
  pel_pendingToolCalls ledger' = pel_pendingToolCalls ledger /\ pel_pendingPatches ledger' = pel_pendingPatches ledger /\
  pel_unknownCommands ledger' = pel_unknownCommands ledger /\
  (forall e, e ∈ pel_recoveredInnerEffects ledger -> e ∈ pel_recoveredInnerEffects ledger').
Proof.
  unfold mergeMcpPendingEffects in Hmerge. apply bind_ok in Hmerge as (st & Hst & H). simplify_eq. cbn.
  split_and!; [done..|]. intros e He. refine (foldM_invariant _ (fun st => e ∈ ml_recovered st) events _ st _ He Hst).
  intros st1 x st2 _ H Hstep. by eapply mcpEvent_recovered.
Qed.

Lemma mcp_settled r data call : logged events r data -> mcpStarted data = Some call ->
  mcpCompleted events r call \/ exists c, c ∈ pel_unknownMcpCalls ledger' /\ mcpKey c = (r, call).
Proof.
  intros (x & Hx & Hr & Hd) Hs. unfold mergeMcpPendingEffects in Hmerge.
  apply bind_ok in Hmerge as (st & Hst & H). simplify_eq. cbn.
  assert (Hk : keyed mcpKey (ml_calls st)).
  { refine (foldM_invariant _ (fun st => keyed mcpKey (ml_calls st)) events _ st _ _ Hst);
      [|by intros ???%not_elem_of_nil]. intros ???? Hk Hstep. exact (mcpEvent_keyed _ _ _ _ Hstep Hk). }
  enough (is_Some (jm_get (de_runId x, call) (ml_calls st)) \/ mcpCompleted events (de_runId x) call) as [[c Hc]|Hc].
  { right. exists c. split; [by eapply jm_get_values|]. by eapply keyed_get. }
  { by left. }
  revert Hx. refine (foldM_prefix _ (fun k st => x ∈ k ->
    is_Some (jm_get (de_runId x, call) (ml_calls st)) \/ mcpCompleted k (de_runId x) call) _ events st _ _ Hst);
    [by intros ?%not_elem_of_nil|].
  intros k st0 y st1 IH Hstep Hin. apply elem_of_app in Hin as [Hin| ->%list_elem_of_singleton].
  - destruct (IH Hin) as [Ho|Hc]; [|right; by apply mcpCompleted_app; left].
    destruct (mcpEvent_open _ _ _ _ _ _ Hstep (or_intror Ho)); [by left|right; by apply mcpCompleted_app; right].
  - destruct (mcpEvent_open _ _ _ _ (de_runId y) call Hstep); [by left|by left|].
    right. by apply mcpCompleted_app; right.
Qed.

Lemma mcp_effect_settled r d : logged events r (log_mcp (mcp_tool_call_completed d)) ->
  answered events r (mci_call_id (mcc_id d)) \/
  exists e, e ∈ pel_recoveredInnerEffects ledger' /\ recoverMcpCall sha256 r d = Ok e.
Proof.
  intros (x & Hx & <- & Hd). unfold mergeMcpPendingEffects in Hmerge.
  apply bind_ok in Hmerge as (st & Hst & H). simplify_eq. cbn.
  match type of Hst with foldM (mcpEvent _ ?outer) _ _ = _ => set (outerCalls := outer) in Hst end.
  enough ((de_runId x, mci_call_id (mcc_id d)) ∈ outerCalls \/
    exists e, e ∈ ml_recovered st /\ recoverMcpCall sha256 (de_runId x) d = Ok e)
    as [Hin|?]; [left| by right|].
  { apply elem_of_list_to_set, list_elem_of_omap in Hin as (y & Hy & Hyd).
    destruct (de_data y) as [[]| | | | | | |] eqn:Ey; try done. simplify_eq. eexists. split; [by exists y|done]. }
  revert Hx. refine (foldM_prefix _ (fun k st => x ∈ k -> (de_runId x, mci_call_id (mcc_id d)) ∈ outerCalls \/
    exists e, e ∈ ml_recovered st /\ recoverMcpCall sha256 (de_runId x) d = Ok e)
    _ events st _ _ Hst); [by intros ?%not_elem_of_nil|].
  intros k st0 y st1 IH Hstep Hin. apply elem_of_app in Hin as [Hin| ->%list_elem_of_singleton].
  - destruct (IH Hin) as [?|(e & He & ?)]; [by left|right]. exists e. split; [by eapply mcpEvent_recovered|done].
  - by eapply mcpEvent_completed.
Qed.
End Merge.

(** ** The ledger of the session *)

(** Whatever the log starts is complete in the log, or in the ledger. *)
Record ledgerCovers (events : list DecodedRunEvent) (ledger : PendingEffectLedger) : Prop := {
  covers_call r call : called events r call ->
    answered events r call \/ exists c, c ∈ pel_pendingToolCalls ledger /\ callKey c = (r, call);
  covers_patch r d : logged events r (log_event (ev_patch_apply_started d)) ->
    patchCompleted events r (pas_plan_id d) \/
    exists e, e ∈ pel_pendingPatches ledger /\ patchKey e = (r, pas_plan_id d);
  covers_command r d : logged events r (log_event (ev_command_requested d)) ->
    commandCompleted events r (ci_execution_id (crq_id d)) \/
    exists e, e ∈ pel_unknownCommands ledger /\ commandKey e = (r, ci_execution_id (crq_id d));
  covers_mcp r data call : logged events r data -> mcpStarted data = Some call ->
    mcpCompleted events r call \/ exists c, c ∈ pel_unknownMcpCalls ledger /\ mcpKey c = (r, call);
  covers_effect pre x post key call :
    events = pre ++ x :: post -> effectAt x = Some (key, call) ->
    (forall y c, y ∈ post -> effectAt y <> Some (key, c)) ->
    answered events (de_runId x) call \/
    exists e, e ∈ pel_recoveredInnerEffects ledger /\ rie_callId e = call /\ rie_sourceRunId e = de_runId x /\
      resultAt pre x (rie_observation e);
  covers_mcp_effect r d : logged events r (log_mcp (mcp_tool_call_completed d)) ->
    answered events r (mci_call_id (mcc_id d)) \/
    exists e, e ∈ pel_recoveredInnerEffects ledger /\ recoverMcpCall sha256 r d = Ok e }.

Lemma sessionLedger_covers runs events ledger :
  sessionLedger sha256 runs events = Ok ledger -> ledgerCovers events ledger.
Proof.
  unfold sessionLedger. intros (domain & Hdomain & (ledger0 & Hledger & Hmerge)%bind_ok)%bind_ok.
  unfold reconstructPendingEffectLedger in Hledger. apply bind_ok in Hledger as (st & Hst & H). simplify_eq.
  destruct (merge_keeps _ _ _ Hmerge) as (Hcalls & Hpatches & Hcommands & Hrecovered).
  split.
  - intros r call Hc. rewrite Hcalls. by eapply call_settled.
  - intros r d Hd. rewrite Hpatches. by eapply patch_settled.
  - intros r d Hd. rewrite Hcommands. by eapply command_settled.
  - by eapply mcp_settled.
  - intros pre x post key call Hs Hx Hpost.
    destruct (effect_settled _ _ _ _ Hdomain Hst pre x post key call Hs Hx Hpost) as [?|(e & He & ?)]; [by left|].
    right. exists e. split; [by apply Hrecovered|done].
  - intros r d Hd. by eapply mcp_effect_settled.
Qed.
End Mcp.
