(* ===== verification/BackendProjection.v ===== *)
(** * The state of a backend in a run that ended

    [src/resume/backend-resume-projection-builder.ts] with the declarations of
    [model/backend-resume.ts] and [model-backend.ts]: from the events of a run,
    whether its transcript ends at a closed boundary, and the latest checkpoint,
    read and verified by the store, with the call it waits for.  The second part
    says what a projection tells of its run. *)

From S2P Require Import Prelude JsString CanonicalJson Domain Events Utf8 Patch Completion Verification RunEvents RunLog EventPublisher ToolErrors McpResult PendingEffects ResumeEvidence PendingEffectsFacts SessionLedger.
#[local] Open Scope Z_scope.

(** ** Backends *)

(** [BackendCheckpointCodec]; [decode] may throw, or return what is not a
    continuation ([None]). *)
Record BackendCheckpointCodec (Continuation : Type) : Type := {
  bcc_codecVersion : string; bcc_provider : ProviderId; bcc_encode : Continuation -> result string (list Z);
  bcc_decode : list Z -> BackendIdentity -> result string (option Continuation) }.
Arguments bcc_codecVersion {_} _.
Arguments bcc_provider {_} _.
Arguments bcc_encode {_} _ _.
Arguments bcc_decode {_} _ _ _.

Inductive BackendResumeDeclaration (Continuation : Type) : Type :=
| declares_exact_checkpoint (checkpointCodec : BackendCheckpointCodec Continuation) (supportsCanonicalDegradedResume : bool)
| declares_canonical_only
| declares_none.
Arguments declares_exact_checkpoint {_} _ _.
Arguments declares_canonical_only {_}.
Arguments declares_none {_}.

Definition declaredCapability {C} (resume : BackendResumeDeclaration C) : ResumeCapability :=
  match resume with
  | declares_exact_checkpoint _ _ => capability_exact_checkpoint
  | declares_canonical_only => capability_canonical_only
  | declares_none => capability_none
  end.
Definition supportsCanonicalDegradedResume {C} (resume : BackendResumeDeclaration C) : bool :=
  match resume with
  | declares_exact_checkpoint _ supports => supports | declares_canonical_only => true | declares_none => false
  end.

(** [ModelCapabilities]; [streaming] is always true. *)
Record ModelCapabilities : Type := {
  mcap_cancellation : CancellationCapability; mcap_reasoning : ReasoningCapability; mcap_tools : ToolsCapability;
  mcap_usage : UsageCompleteness }.

Record ModelBackend (Continuation : Type) : Type := {
  mb_capabilities : ModelCapabilities; mb_identity : BackendIdentity; mb_resume : BackendResumeDeclaration Continuation }.
Arguments mb_capabilities {_} _.
Arguments mb_identity {_} _.
Arguments mb_resume {_} _.

(** ** Data *)

Record StoredCheckpointRef : Type := {
  scr_adapter : string; scr_adapterVersion : string; scr_bytes : Z; scr_checkpointId : string;
  scr_codecVersion : string; scr_configFingerprint : string; scr_model : string; scr_provider : ProviderId;
  scr_relativeRef : string; scr_runId : string; scr_sessionId : string; scr_sha256 : string; scr_turnNumber : Z }.

(** [vcp_object] is the identity of the object, which [locallyVerifiedCheckpoints]
    keeps. *)
Record VerifiedCheckpointProjection : Type := {
  vck_object : positive; vck_adapter : string; vck_adapterVersion : string; vck_artifactBytes : Z;
  vck_artifactSha256 : string; vck_checkpointId : string; vck_codecVersion : string; vck_model : string;
  vck_provider : ProviderId; vck_relativeRef : string; vck_turnNumber : Z }.

Record CheckpointPendingCall : Type := {
  cpc_call : PendingToolCall; cpc_recoveredObservation : option RecoveredToolObservation }.

Record BackendResumeProjection : Type := {
  brp_canonicalBoundaryClosed : bool; brp_capability : ResumeCapability;
  brp_checkpoint : option VerifiedCheckpointProjection; brp_checkpointPendingCall : option CheckpointPendingCall;
  brp_exactCheckpointUsable : bool; brp_identity : BackendIdentity; brp_supportsCanonicalDegradedResume : bool }.

Inductive BackendResumeProjectionBuildErrorCode : Type :=
| backend_capabilities_mismatch | backend_identity_mismatch | backend_selection_ambiguous
| backend_selection_missing | canonical_boundary_sequence_invalid | checkpoint_codec_mismatch
| checkpoint_decode_invalid | checkpoint_event_unexpected | checkpoint_identity_mismatch
| checkpoint_sequence_invalid | checkpoint_verification_failed | resume_capability_mismatch
| resume_capability_missing | resume_event_unexpected | run_event_set_invalid.

(** The module's [WeakSet] and the identities of the objects it made. *)
Record VerifiedCheckpoints : Type := { vcs_next : positive; vcs_objects : gset positive }.
Definition isLocallyVerifiedCheckpointProjection (verified : VerifiedCheckpoints)
    (checkpoint : VerifiedCheckpointProjection) : bool :=
  bool_decide (vck_object checkpoint ∈ vcs_objects verified).

(** ** Reading the events *)

Definition sameIdentity (selected : BackendSelectedPayload) (identity : BackendIdentity) : bool :=
  (bs_adapter selected === bid_adapter identity) && (bs_adapter_version selected === bid_adapterVersion identity) &&
  (bs_config_fingerprint selected === bid_configFingerprint identity) && (bs_model selected === bid_model identity) &&
  (bs_provider selected === providerText (bid_provider identity)).

Definition sameCapabilities (selected : BackendSelectedPayload) (current : ModelCapabilities) : bool :=
  (bs_cancellation selected === mcap_cancellation current) && (bs_reasoning selected === mcap_reasoning current) &&
  (bs_tools selected === mcap_tools current) && (bs_usage selected === mcap_usage current).

Definition isRunStarted (event : DecodedRunEvent) : bool :=
  match de_data event with log_event (ev_run_started _) => true | _ => false end.

Fixpoint contiguous (sessionId runId : string) (expectedRunSeq : Z) (events : list DecodedRunEvent) : bool :=
  match events with
  | [] => true
  | event :: events =>
      (de_sessionId event === sessionId) && (de_runId event === runId) && (de_runSeq event =? expectedRunSeq) &&
      contiguous sessionId runId (expectedRunSeq + 1) events
  end.
Definition oneRun (events : list DecodedRunEvent) : bool :=
  match events with
  | [] => false
  | first :: _ => isRunStarted first && contiguous (de_sessionId first) (de_runId first) 1 events
  end.

Fixpoint increasingTurns (previousTurn : Z) (turns : list Z) : bool :=
  match turns with
  | [] => true
  | turn :: turns => negb (turn <=? previousTurn) && increasingTurns turn turns
  end.

(** [pendingToolKind] of this module: it has no case for the tools of MCP. *)
Definition projectedToolKind (toolName : string) : PendingToolKind :=
  if toolName === "apply_patch"%string then kind_apply_patch
  else if toolName === "run_command"%string then kind_run_command
  else if toolName === "finish_task"%string then kind_finish_task
  else if bool_decide (toolName ∈ ["list_files"; "read_file"; "search"]%string) then kind_read_only
  else kind_unknown.

Definition pendingCallFromEvent (runId : string) (d : ToolCallRequestedPayload) : PendingToolCall := {|
  ptc_argumentsJson := tcr_arguments_json d; ptc_callId := tcr_call_id d;
  ptc_kind := projectedToolKind (tcr_tool_name d); ptc_providerResponseId := tcr_provider_response_id d;
  ptc_sourceRunId := runId; ptc_step := tcr_step d; ptc_toolName := tcr_tool_name d |}.

Definition recoveredObservationFromEvent (d : ToolCallCompletedPayload) : RecoveredToolObservation := {|
  rto_errorCategory := tcc_error_category d; rto_errorCode := tcc_error_code d; rto_output := tcc_output d;
  rto_retryable := tcc_retryable d; rto_status := tcc_status d; rto_truncated := tcc_truncated d |}.

(** *** The canonical boundary *)

Record BoundaryState : Type := {
  bst_pendingCalls : gset string; bst_awaitingToolRequest : option (string * Z); bst_modelTurnOpen : bool }.
#[export] Instance BoundaryState_eta : Eta BoundaryState := fun r =>
  Build_BoundaryState (bst_pendingCalls r) (bst_awaitingToolRequest r) (bst_modelTurnOpen r).
Definition boundaryStart : BoundaryState := {|
  bst_pendingCalls := ∅; bst_awaitingToolRequest := None; bst_modelTurnOpen := false |}.

Definition boundaryEvent (st : BoundaryState) (event : DecodedRunEvent) : BoundaryState :=
  match de_data event with
  | log_event (ev_agent_step_started _) => st <| bst_modelTurnOpen := true |>
  | log_event (ev_agent_step_completed d) =>
      st <| bst_modelTurnOpen := false |>
         <| bst_awaitingToolRequest :=
              if asc_outcome d === outcome_tool_call then (fun callId => (callId, asc_step d)) <$> asc_tool_call_id d
              else None |>
  | log_event (ev_tool_call_requested d) =>
      st <| bst_awaitingToolRequest ::= fun awaiting =>
              if awaiting === Some (tcr_call_id d, tcr_step d) then None else awaiting |>
         <| bst_pendingCalls ::= union {[tcr_call_id d]} |>
  | log_adopted d => st <| bst_pendingCalls ::= union {[pad_call_id d]} |>
  | log_event (ev_tool_call_completed d) =>
      st <| bst_pendingCalls ::= fun pending => pending ∖ {[tcc_call_id d]} |>
  | log_event (ev_run_cancelled _) => st <| bst_modelTurnOpen := false |> <| bst_awaitingToolRequest := None |>
  | _ => st
  end.
Definition boundaryClosed (st : BoundaryState) : bool :=
  negb (bst_modelTurnOpen st) && (bst_awaitingToolRequest st === None) && (bst_pendingCalls st === ∅).
Definition canonicalBoundaryIsClosed (events : list DecodedRunEvent) : bool :=
  boundaryClosed (foldl boundaryEvent boundaryStart events).

(** *** The latest checkpoint *)

Definition unresolvedEvent (unresolved : jsmap string (string * ToolCallRequestedPayload)) (event : DecodedRunEvent)
  : jsmap string (string * ToolCallRequestedPayload) :=
  match de_data event with
  | log_event (ev_tool_call_requested d) => jm_set (tcr_call_id d) (de_runId event, d) unresolved
  | log_event (ev_tool_call_completed d) => jm_delete (tcc_call_id d) unresolved
  | _ => unresolved
  end.
Definition providerEvent (event : DecodedRunEvent) : bool :=
  match de_data event with
  | log_event (ev_agent_step_started _ | ev_agent_step_completed _ | ev_model_usage _ | ev_text_delta _
              | ev_tool_call_requested _) => true
  | _ => false
  end.
Definition completionsOf (events : list DecodedRunEvent) : list ToolCallCompletedPayload :=
  omap (fun event => match de_data event with log_event (ev_tool_call_completed d) => Some d | _ => None end) events.

(** [before] ends with the event of the checkpoint. *)
Definition callStateAt (before after : list DecodedRunEvent) : option CheckpointPendingCall * bool :=
  let unresolved := foldl unresolvedEvent [] before in
  if (1 <? length unresolved)%nat then (None, false)
  else
    let providerAdvanced := existsb providerEvent after in
    match head (jm_values unresolved) with
    | None => (None, negb providerAdvanced && (length (completionsOf after) =? 0)%nat)
    | Some (runId, requested) =>
        let completions := List.filter (fun d => tcc_call_id d === tcr_call_id requested) (completionsOf after) in
        if (1 <? length completions)%nat then (None, false)
        else (Some {| cpc_call := pendingCallFromEvent runId requested;
                      cpc_recoveredObservation := recoveredObservationFromEvent <$> head completions |},
              negb providerAdvanced)
    end.
(** [events.indexOf(checkpoint)]: the events of one run differ in their number. *)
Definition checkpointCallState (events : list DecodedRunEvent) (checkpoint : DecodedRunEvent)
  : option CheckpointPendingCall * bool :=
  match list_find (fun event => de_runSeq event = de_runSeq checkpoint) events with
  | None => (None, false)
  | Some (index, _) => callStateAt (take (S index) events) (drop (S index) events)
  end.

(** ** The builder *)

Section Build.
Context {Continuation : Type}.
(** [checkpointStore.readExact] *)
Variable readExact : BackendCheckpointCodec Continuation -> BackendIdentity -> StoredCheckpointRef ->
  result string (option Continuation).

Definition checkpointMatches (d : CheckpointCreatedPayload) (selected : BackendSelectedPayload)
    (codec : BackendCheckpointCodec Continuation) : bool :=
  (chk_adapter d === bs_adapter selected) && (chk_adapter_version d === bs_adapter_version selected) &&
  (chk_codec_version d === bcc_codecVersion codec) && (chk_model d === bs_model selected) &&
  (chk_provider d === bs_provider selected).

Definition checkpointReference (event : DecodedRunEvent) (d : CheckpointCreatedPayload)
    (selected : BackendSelectedPayload) (identity : BackendIdentity) : StoredCheckpointRef := {|
  scr_adapter := chk_adapter d; scr_adapterVersion := chk_adapter_version d; scr_bytes := chk_bytes d;
  scr_checkpointId := chk_checkpoint_id d; scr_codecVersion := chk_codec_version d;
  scr_configFingerprint := bs_config_fingerprint selected; scr_model := chk_model d;
  scr_provider := bid_provider identity; scr_relativeRef := chk_ref d; scr_runId := de_runId event;
  scr_sessionId := de_sessionId event; scr_sha256 := chk_sha256 d; scr_turnNumber := chk_turn d |}.

Definition projectionFromReference (reference : StoredCheckpointRef) (verified : VerifiedCheckpoints)
  : VerifiedCheckpointProjection * VerifiedCheckpoints :=
  ({| vck_object := vcs_next verified; vck_adapter := scr_adapter reference;
      vck_adapterVersion := scr_adapterVersion reference; vck_artifactBytes := scr_bytes reference;
      vck_artifactSha256 := scr_sha256 reference; vck_checkpointId := scr_checkpointId reference;
      vck_codecVersion := scr_codecVersion reference; vck_model := scr_model reference;
      vck_provider := scr_provider reference; vck_relativeRef := scr_relativeRef reference;
      vck_turnNumber := scr_turnNumber reference |},
   {| vcs_next := Pos.succ (vcs_next verified); vcs_objects := {[vcs_next verified]} ∪ vcs_objects verified |}).

Definition baseProjection (backend : ModelBackend Continuation) (canonicalBoundaryClosed : bool)
    (checkpoint : option VerifiedCheckpointProjection) (checkpointPendingCall : option CheckpointPendingCall)
    (exactCheckpointUsable : bool) : BackendResumeProjection := {|
  brp_canonicalBoundaryClosed := canonicalBoundaryClosed; brp_capability := declaredCapability (mb_resume backend);
  brp_checkpoint := checkpoint; brp_checkpointPendingCall := checkpointPendingCall;
  brp_exactCheckpointUsable := exactCheckpointUsable; brp_identity := mb_identity backend;
  brp_supportsCanonicalDegradedResume := supportsCanonicalDegradedResume (mb_resume backend) |}.

Definition selections (events : list DecodedRunEvent) : list BackendSelectedPayload :=
  omap (fun event => match de_data event with log_event (ev_backend_selected d) => Some d | _ => None end) events.
Definition checkpoints (events : list DecodedRunEvent) : list (DecodedRunEvent * CheckpointCreatedPayload) :=
  omap (fun event => match de_data event with log_checkpoint d => Some (event, d) | _ => None end) events.
Definition boundaries (events : list DecodedRunEvent) : list CanonicalBoundaryPayload :=
  omap (fun event => match de_data event with log_boundary d => Some d | _ => None end) events.
Definition isRunCancelled (event : DecodedRunEvent) : bool :=
  match de_data event with log_event (ev_run_cancelled _) => true | _ => false end.

(** The checks before the capabilities part: the selection of the run. *)
Definition selectedBackend (backend : ModelBackend Continuation) (events : list DecodedRunEvent)
  : result BackendResumeProjectionBuildErrorCode BackendSelectedPayload :=
  _ ← throw_when (negb (oneRun events)) run_event_set_invalid;
  match selections events with
  | [] => Err backend_selection_missing
  | _ :: _ :: _ => Err backend_selection_ambiguous
  | [selected] =>
      _ ← throw_when (negb (sameIdentity selected (mb_identity backend))) backend_identity_mismatch;
      _ ← throw_when (negb (sameCapabilities selected (mb_capabilities backend))) backend_capabilities_mismatch;
      match bs_resume_capability selected with
      | None => Err resume_capability_missing
      | Some capability =>
          _ ← throw_when (capability !== declaredCapability (mb_resume backend)) resume_capability_mismatch;
          Ok selected
      end
  end.

(** The result, and the verified objects after it. *)
Definition buildProjection (backend : ModelBackend Continuation) (events : list DecodedRunEvent)
    (verified : VerifiedCheckpoints)
  : result BackendResumeProjectionBuildErrorCode
      (option Continuation * BackendResumeProjection * VerifiedCheckpoints) :=
  selected ← selectedBackend backend events;
  let checkpointEvents := checkpoints events in
  let canonicalEvents := boundaries events in
  _ ← throw_when (negb (increasingTurns 0 (chk_turn ∘ snd <$> checkpointEvents))) checkpoint_sequence_invalid;
  _ ← throw_when (negb (increasingTurns 0 (cbd_turn <$> canonicalEvents))) canonical_boundary_sequence_invalid;
  match mb_resume backend with
  | declares_none =>
      _ ← throw_when ((0 <? length checkpointEvents)%nat || (0 <? length canonicalEvents)%nat) resume_event_unexpected;
      _ ← throw_when (bs_checkpoint_codec_version selected !== None) checkpoint_codec_mismatch;
      Ok (None, baseProjection backend false None None false, verified)
  | declares_canonical_only =>
      _ ← throw_when (0 <? length checkpointEvents)%nat checkpoint_event_unexpected;
      _ ← throw_when (bs_checkpoint_codec_version selected !== None) checkpoint_codec_mismatch;
      let cancelledAtTerminal := default false (isRunCancelled <$> last events) in
      Ok (None, baseProjection backend
                  (((0 <? length canonicalEvents)%nat || cancelledAtTerminal) && canonicalBoundaryIsClosed events)
                  None None false, verified)
  | declares_exact_checkpoint codec _ =>
      _ ← throw_when ((bs_checkpoint_codec_version selected !== Some (bcc_codecVersion codec)) ||
                      (bcc_provider codec !== bid_provider (mb_identity backend))) checkpoint_codec_mismatch;
      _ ← throw_when (negb (forallb (fun c => checkpointMatches c.2 selected codec) checkpointEvents))
            checkpoint_identity_mismatch;
      match last checkpointEvents with
      | None => Ok (None, baseProjection backend (canonicalBoundaryIsClosed events) None None false, verified)
      | Some (event, latest) =>
          let reference := checkpointReference event latest selected (mb_identity backend) in
          match readExact codec (mb_identity backend) reference with
          | Err _ => Err checkpoint_verification_failed
          | Ok None => Err checkpoint_decode_invalid
          | Ok (Some continuation) =>
              let '(checkpoint, verified) := projectionFromReference reference verified in
              let '(pendingCall, usable) := checkpointCallState events event in
              Ok (Some continuation,
                  baseProjection backend (canonicalBoundaryIsClosed events) (Some checkpoint) pendingCall usable,
                  verified)
          end
      end
  end.
End Build.

(** ** What the projection of a backend says about its run

    The canonical boundary and the ledger agree on the calls that wait for a
    result; a checkpoint that is usable is the last thing the model did. *)

(** ** The waiting calls *)

Lemma ledgerEvent_pending st r draft st' :
  ledgerEvent st (r, draft) = Ok st' ->
  ls_pendingCalls st' =
  match draft with
  | ev_tool_call_requested d => jm_set (r, tcr_call_id d) (pendingCallOf r d) (ls_pendingCalls st)
  | ev_tool_call_completed d => jm_delete (r, tcc_call_id d) (ls_pendingCalls st)
  | _ => ls_pendingCalls st
  end.
Proof. intros H. by ledger_cases H. Qed.

(** The ledger and the boundary wait for the same calls of the run [R]. *)
Definition pendingAgree (R : string) (pending : jsmap RunKey PendingToolCall) (st : BoundaryState) : Prop :=
  (forall k, is_Some (jm_get k pending) -> k.1 = R) /\
  forall c, is_Some (jm_get (R, c) pending) <-> c ∈ bst_pendingCalls st.

Lemma pendingAgree_set R pending st st' c v :
  pendingAgree R pending st -> bst_pendingCalls st' = {[c]} ∪ bst_pendingCalls st ->
  pendingAgree R (jm_set (R, c) v pending) st'.
Proof.
  intros [Hr Hp] Hst. split.
  - intros k. rewrite is_Some_get_set. intros [<-|?]; [done|by apply Hr].
  - intros c'. rewrite is_Some_get_set, Hst, elem_of_union, elem_of_singleton, Hp. naive_solver.
Qed.
Lemma pendingAgree_delete R pending st st' c :
  pendingAgree R pending st -> bst_pendingCalls st' = bst_pendingCalls st ∖ {[c]} ->
  pendingAgree R (jm_delete (R, c) pending) st'.
Proof.
  intros [Hr Hp] Hst. split.
  - intros k. rewrite jm_get_delete. case_decide; [by intros []|]. apply Hr.
  - intros c'. rewrite jm_get_delete, Hst, elem_of_difference, elem_of_singleton, <-Hp.
    case_decide as E; [|naive_solver]. simplify_eq. split; [by intros []|naive_solver].
Qed.

Lemma pendingAgree_step R runs x b st st' bs :
  de_runId x = R -> legacyDomainEvent runs x = Ok b -> foldM ledgerEvent b st = Ok st' ->
  pendingAgree R (ls_pendingCalls st) bs -> pendingAgree R (ls_pendingCalls st') (boundaryEvent bs x).
Proof.
  intros HR Hb Hst Hagree. unfold legacyDomainEvent in Hb. unfold boundaryEvent.
  destruct (de_data x) as [draft| | |d| | | |] eqn:Ed; try (by simplify_eq; cbn in Hst; simplify_eq).
  - assert (Hone : foldM ledgerEvent [(R, draft)] st = Ok st' \/ exists d, draft = ev_run_completed d).
    { destruct draft; simplify_eq; eauto. }
    destruct Hone as [Hone|[d ->]].
    + cbn [foldM] in Hone. destruct (ledgerEvent st (R, draft)) as [st1|] eqn:E; [|done]. simplify_eq.
      rewrite (ledgerEvent_pending _ _ _ _ E). destruct draft; try done;
        [by eapply pendingAgree_set|by eapply pendingAgree_delete].
    + simplify_eq. cbn in Hst. simplify_eq. done.
  - destruct (head _) as [r|]; [|done]. simplify_eq. cbn in Hst. simplify_eq. by eapply pendingAgree_set.
Qed.

Lemma pending_agree R runs events domain st :
  (forall x, x ∈ events -> de_runId x = R) ->
  legacyDomainEvents runs events = Ok domain -> foldM ledgerEvent domain emptyLedger = Ok st ->
  pendingAgree R (ls_pendingCalls st) (foldl boundaryEvent boundaryStart events).
Proof.
  revert domain st. induction events as [|x events IH] using rev_ind; intros domain st HR Hd Hst.
  { cbn in Hd. simplify_eq. cbn in Hst. simplify_eq. split; [by intros k []|]. intros c. cbn. split; [by intros []|set_solver]. }
  unfold legacyDomainEvents in Hd. rewrite foldM_app in Hd. apply bind_ok in Hd as (a & Ha & Hd). cbn in Hd.
  destruct (legacyDomainEvent runs x) as [b|] eqn:Eb; cbn in Hd; [|done]. simplify_eq.
  rewrite foldM_app in Hst. apply bind_ok in Hst as (st0 & Hst0 & Hst). rewrite foldl_snoc.
  eapply pendingAgree_step; [|done|done|].
  - apply HR. set_solver.
  - eapply IH; [|done|done]. intros y Hy. apply HR. set_solver.
Qed.

(** At a closed boundary no call waits. *)
Lemma closed_boundary_pending R runs events domain st :
  (forall x, x ∈ events -> de_runId x = R) ->
  legacyDomainEvents runs events = Ok domain -> foldM ledgerEvent domain emptyLedger = Ok st ->
  canonicalBoundaryIsClosed events = true -> ls_pendingCalls st = [].
Proof.
  intros HR Hd Hst Hc. destruct (pending_agree R _ _ _ _ HR Hd Hst) as [Hr Hp].
  unfold canonicalBoundaryIsClosed, boundaryClosed in Hc. returns.
  destruct (ls_pendingCalls st) as [|[[r c] v] m] eqn:E; [done|]. exfalso.
  assert (Hv : is_Some (jm_get (r, c) (((r, c), v) :: m))) by (cbn; case_decide; naive_solver).
  pose proof (Hr _ Hv) as Hrr. cbn in Hrr. subst r. apply Hp in Hv. set_solver.
Qed.

(** ** One run *)

Lemma contiguous_runs session run n events :
  contiguous session run n events = true ->
  forall i x, events !! i = Some x -> de_runId x = run /\ de_runSeq x = n + Z.of_nat i.
Proof.
  revert n. induction events as [|y events IH]; intros n H i x; cbn in H; [by rewrite lookup_nil|].
  returns. destruct i as [|i]; cbn; [intros ?; simplify_eq; split; [done|lia]|].
  intros Hx. destruct (IH (n + 1) ltac:(done) i x Hx). split; [done|lia].
Qed.

Lemma oneRun_runs events : oneRun events = true -> exists R, forall x, x ∈ events -> de_runId x = R.
Proof.
  unfold oneRun. destruct events as [|first events]; [done|]. intros [_ H]%andb_true_iff. exists (de_runId first).
  intros x [i Hi]%list_elem_of_lookup. by destruct (contiguous_runs _ _ _ _ H i x Hi).
Qed.

(** The events of one run differ in their number. *)
Lemma oneRun_find events before x after :
  oneRun events = true -> events = before ++ x :: after ->
  list_find (fun event => de_runSeq event = de_runSeq x) events = Some (length before, x).
Proof.
  unfold oneRun. intros H Hs. destruct events as [|first events']; [done|]. apply andb_true_iff in H as [_ H].
  pose proof (contiguous_runs _ _ _ _ H) as Hseq.
  assert (Hx : (first :: events') !! length before = Some x) by (rewrite Hs; by apply list_lookup_middle).
  apply list_find_Some. split_and!; [done|done|]. intros j y Hy Hj Heq.
  destruct (Hseq _ _ Hx) as [_ H1], (Hseq _ _ Hy) as [_ H2]. lia.
Qed.

(** ** The builder *)

Lemma last_checkpoint_split events event d :
  last (checkpoints events) = Some (event, d) ->
  exists before after, events = before ++ event :: after /\ de_data event = log_checkpoint d /\
    forall x d', x ∈ after -> de_data x <> log_checkpoint d'.
Proof.
  induction events as [|x events IH] using rev_ind; [done|]. unfold checkpoints. rewrite omap_app. cbn.
  destruct (de_data x) as [|d'| | | | | |] eqn:Ed;
    try (rewrite app_nil_r; intros (before & after & -> & Hd & Ha)%IH; exists before, (after ++ [x]);
      rewrite <-app_assoc; split_and!; [done..|]; intros y d' [Hy| ->%list_elem_of_singleton]%elem_of_app;
      [by apply Ha|by rewrite Ed]).
  rewrite last_snoc. intros H. simplify_eq. exists events, []. split_and!; [done..|]. by intros y d' ?%not_elem_of_nil.
Qed.

Section Build.
Context {Continuation : Type}.
Context (readExact : BackendCheckpointCodec Continuation -> BackendIdentity -> StoredCheckpointRef ->
  result string (option Continuation)).

Lemma selectedBackend_one (backend : ModelBackend Continuation) events selected :
  selectedBackend backend events = Ok selected -> oneRun events = true /\ sameIdentity selected (mb_identity backend) = true.
Proof.
  unfold selectedBackend. intros (? & Ho & H)%bind_ok. returns.
  destruct (selections events) as [|s [|]]; [done| |done]. apply bind_ok in H as (? & Hi & H). returns.
  destruct (bs_resume_capability s); [|done]. by returns.
Qed.

(** What a projection is built from. *)
Lemma buildProjection_spec (backend : ModelBackend Continuation) events verified c projection verified' :
  buildProjection readExact backend events verified = Ok (c, projection, verified') ->
  oneRun events = true /\ brp_identity projection = mb_identity backend /\
  (brp_canonicalBoundaryClosed projection = true -> canonicalBoundaryIsClosed events = true) /\
  match brp_checkpoint projection with
  | None => c = None /\ brp_checkpointPendingCall projection = None /\ brp_exactCheckpointUsable projection = false
  | Some checkpoint => exists codec supports selected before event d after,
      mb_resume backend = declares_exact_checkpoint codec supports /\
      sameIdentity selected (mb_identity backend) = true /\
      events = before ++ event :: after /\ de_data event = log_checkpoint d /\
      (forall x d', x ∈ after -> de_data x <> log_checkpoint d') /\
      checkpointMatches d selected codec = true /\
      (let reference := checkpointReference event d selected (mb_identity backend) in
       readExact codec (mb_identity backend) reference = Ok c /\ c <> None /\
       (checkpoint, verified') = projectionFromReference reference verified) /\
      callStateAt (before ++ [event]) after =
        (brp_checkpointPendingCall projection, brp_exactCheckpointUsable projection)
  end.
Proof.
  unfold buildProjection. intros H. apply bind_ok in H as (selected & Hsel & H).
  pose proof (selectedBackend_one _ _ _ Hsel) as [Hone Hid].
  apply bind_ok in H as (? & _ & H). apply bind_ok in H as (? & _ & H).
  destruct (mb_resume backend) as [codec supports| |] eqn:Er.
  - apply bind_ok in H as (? & _ & H). apply bind_ok in H as (? & Hm & H). apply throw_when_ok, negb_false_iff in Hm.
    destruct (last (checkpoints events)) as [[event d]|] eqn:El; [|by simplify_eq].
    destruct (readExact _ _ _) as [[k|]|] eqn:Ek; try done.
    destruct (projectionFromReference _ _) as [checkpoint v] eqn:Ep.
    destruct (checkpointCallState events event) as [pending usable] eqn:Es. simplify_eq. cbn.
    split_and!; [done..|].
    destruct (last_checkpoint_split events event d El) as (before & after & Hsplit & Hd & Hafter).
    exists codec, supports, selected, before, event, d, after. split_and!; try done.
    + rewrite forallb_forall in Hm. apply (Hm (event, d)). apply list_elem_of_In. by apply last_Some_elem_of in El.
    + unfold checkpointCallState in Es. rewrite (oneRun_find _ _ _ _ Hone Hsplit) in Es. rewrite <-Es, Hsplit.
      rewrite (cons_middle event before after), (app_assoc before [event] after), take_app_length', drop_app_length';
        [done|rewrite length_app; cbn; lia..].
  - apply bind_ok in H as (? & _ & H). apply bind_ok in H as (? & _ & H). simplify_eq. cbn. split_and!; try done.
    by intros [_ ?]%andb_true_iff.
  - apply bind_ok in H as (? & _ & H). apply bind_ok in H as (? & _ & H). by simplify_eq.
Qed.
End Build.

(** ** The ledger of the same run *)

Lemma closed_boundary_ledger sha256 runs events ledger :
  oneRun events = true -> sessionLedger sha256 runs events = Ok ledger ->
  canonicalBoundaryIsClosed events = true -> pel_pendingToolCalls ledger = [].
Proof.
  intros [R HR]%oneRun_runs H Hc. unfold sessionLedger in H.
  apply bind_ok in H as (domain & Hd & (ledger0 & Hl & Hm)%bind_ok). apply bind_ok in Hl as (st & Hst & Hl). simplify_eq.
  destruct (merge_keeps _ _ _ _ Hm) as (-> & _). cbn. by rewrite (closed_boundary_pending R _ _ _ _ HR Hd Hst Hc).
Qed.

Lemma callStateAt_usable before after pendingCall :
  callStateAt before after = (pendingCall, true) -> existsb providerEvent after = false.
Proof.
  unfold callStateAt. destruct (1 <? _)%nat; [done|]. destruct (head _) as [[r d]|].
  - destruct (1 <? _)%nat; [done|]. intros [= _ H]. by apply negb_true_iff in H.
  - intros [= _ [H _]%andb_true_iff]. by apply negb_true_iff in H.
Qed.

(** An observation that the checkpoint's call has is in the log. *)
Lemma callStateAt_observed before after c usable observation :
  callStateAt before after = (Some c, usable) -> cpc_recoveredObservation c = Some observation ->
  exists x d, x ∈ after /\ de_data x = log_event (ev_tool_call_completed d) /\ tcc_call_id d = ptc_callId (cpc_call c).
Proof.
  unfold callStateAt. destruct (1 <? _)%nat; [done|]. destruct (head _) as [[r requested]|]; [|done].
  destruct (List.filter _ _) as [|d l] eqn:El; (destruct (1 <? _)%nat; [done|]); intros [= <- _]; [done|]. cbn. intros _.
  assert (Hd : d ∈ List.filter (fun d => tcc_call_id d === tcr_call_id requested) (completionsOf after))
    by (rewrite El; left).
  rewrite list_elem_of_In, filter_In, <-list_elem_of_In in Hd. destruct Hd as [Hd He]. returns.
  apply list_elem_of_omap in Hd as (x & Hx & Hxd). destruct (de_data x) as [[]| | | | | | |] eqn:Ex; try done. simplify_eq.
  by exists x, d.
Qed.

Lemma checkpoint_call_answered {C} readExact (backend : ModelBackend C) events verified continuation projection verified' run c observation :
  buildProjection readExact backend events verified = Ok (continuation, projection, verified') ->
  brp_checkpointPendingCall projection = Some c -> cpc_recoveredObservation c = Some observation ->
  (forall x, x ∈ events -> de_runId x = run) -> answered events run (ptc_callId (cpc_call c)).
Proof.
  intros (_ & _ & _ & H)%buildProjection_spec Hc Ho Hrun. destruct (brp_checkpoint projection).
  - destruct H as (codec & supports & selected & before & event & d & after & _ & _ & -> & _ & _ & _ & _ & Hs).
    rewrite Hc in Hs. destruct (callStateAt_observed _ _ _ _ _ Hs Ho) as (x & d' & Hx & Hd & Hid).
    exists d'. split; [|done]. exists x. split_and!; [set_solver|apply Hrun; set_solver|done].
  - destruct H as (_ & H & _). congruence.
Qed.
