(* ===== verification/ResumePlanner.v ===== *)
(** * Planning a resume

    [src/resume/resume-planner.ts]: from the ledger of the effects of a run, the
    state of its backend, the two fingerprints and the reconciled patches, either
    a plan for a new run or the reasons against one. *)

From S2P Require Import Prelude JsString Domain Events Utf8 Patch Completion RunEvents RunLog PendingEffects ResumeEvidence BackendProjection.
#[local] Open Scope Z_scope.

(** ** Data *)

Inductive ResumableRunState : Type :=
| source_interrupted | source_cancelled | source_incomplete | source_budget_exceeded | source_completed | source_failed.
#[export] Instance ResumableRunState_eq : EqDecision ResumableRunState.
Proof. solve_decision. Defined.

Inductive ResumeBlockReason : Type :=
| backend_adapter_mismatch | backend_model_mismatch | backend_provider_mismatch | backend_resume_unsupported
| canonical_boundary_open | checkpoint_corrupt | checkpoint_incompatible | checkpoint_missing
| completed_run_requires_message | degraded_resume_requires_confirmation | failed_run_not_recoverable
| multiple_pending_calls | pending_call_requires_exact_checkpoint | pending_command_effect_unknown
| pending_mcp_effect_unknown | pending_patch_ambiguous | run_id_collision | workspace_root_mismatch.
#[export] Instance ResumeBlockReason_eq : EqDecision ResumeBlockReason.
Proof. solve_decision. Defined.

Record ResumePlannerInput : Type := {
  rpi_allowDegradedResume : bool; rpi_approvedPlanContinuation : option bool; rpi_backend : BackendResumeProjection;
  rpi_currentFingerprint : WorkspaceResumeFingerprint; rpi_expectedFingerprint : WorkspaceResumeFingerprint;
  rpi_failedRunRecoverable : option bool; rpi_ledger : PendingEffectLedger; rpi_message : option jstring;
  rpi_patchReconciliations : list PatchReconciliation; rpi_sessionId : string; rpi_sourceRunId : string;
  rpi_sourceRunState : ResumableRunState }.

Record ResumeReconciliationFact : Type := { rcf_callId : string; rcf_observed : PatchObserved; rcf_planId : string }.

Record ReadyResumePlan : Type := {
  rrp_approvalsToExpire : list ApprovalExpiry; rrp_fingerprintMismatches : list string;
  rrp_inheritedPendingCall : option PendingToolCall; rrp_mode : ResumeMode; rrp_newRunId : string;
  rrp_recoveredInnerEffect : option RecoveredInnerEffect;
  rrp_recoveredToolObservation : option RecoveredToolObservation;
  rrp_reconciliations : list ResumeReconciliationFact; rrp_resumeOfRunId : string; rrp_sessionId : string }.

Record BlockedResumePlan : Type := {
  brs_details : list string; brs_offeredMode : option ResumeMode; brs_reasons : list ResumeBlockReason;
  brs_resumeOfRunId : string; brs_sessionId : string }.

Inductive ResumePlan : Type := plan_ready (plan : ReadyResumePlan) | plan_blocked (plan : BlockedResumePlan).

Record PlanningBlock : Type := { pbl_detail : string; pbl_reason : ResumeBlockReason }.
#[export] Instance PlanningBlock_eq : EqDecision PlanningBlock.
Proof. solve_decision. Defined.

(** ** Helpers *)

Definition addBlock (reason : ResumeBlockReason) (detail : string) (blocks : list PlanningBlock) : list PlanningBlock :=
  if existsb (fun block => (pbl_reason block === reason) && (pbl_detail block === detail)) blocks then blocks
  else blocks ++ [{| pbl_detail := detail; pbl_reason := reason |}].

(** [[...new Set(values)]] *)
Definition distinct {A} `{EqDecision A} (values : list A) : list A :=
  foldl (fun seen value => if bool_decide (value ∈ seen) then seen else seen ++ [value]) [] values.

Definition hardReason (field : string) : ResumeBlockReason :=
  if field === "canonical_root_identity"%string then workspace_root_mismatch
  else if field === "backend.provider"%string then backend_provider_mismatch
  else if field === "backend.model"%string then backend_model_mismatch
  else backend_adapter_mismatch.
Definition addHardFingerprintBlocks (mismatches : list ResumeFingerprintMismatch) (blocks : list PlanningBlock)
  : list PlanningBlock :=
  foldl (fun blocks mismatch => addBlock (hardReason (rfm_field mismatch)) (rfm_field mismatch) blocks) blocks
    (List.filter (fun mismatch => rfm_kind mismatch === mismatch_hard) mismatches).

Section Planner.
(** The verified objects of the projection builder, and [createRunId]. *)
Variable verified : VerifiedCheckpoints.
Variable createRunId : string.

Definition checkpointIsCompatible (input : ResumePlannerInput) : bool :=
  match brp_checkpoint (rpi_backend input) with
  | None => false
  | Some checkpoint =>
      let current := brp_identity (rpi_backend input) in
      isLocallyVerifiedCheckpointProjection verified checkpoint &&
      (vck_provider checkpoint === bid_provider current) && (vck_model checkpoint === bid_model current) &&
      (vck_adapter checkpoint === bid_adapter current) &&
      (vck_adapterVersion checkpoint === bid_adapterVersion current) &&
      (Some (vck_codecVersion checkpoint) === wrf_checkpointCodecVersion (rpi_currentFingerprint input))
  end.

(** [new Map(entries)]: the last entry of a key. *)
Definition reconciliationByPlan (reconciliations : list PatchReconciliation) : jsmap string PatchReconciliation :=
  foldl (fun m reconciliation => jm_set (reconciliationPlan reconciliation) reconciliation m) [] reconciliations.

Definition patchFact (byPlan : jsmap string PatchReconciliation) (effect : PendingPatchEffect)
  : result string ResumeReconciliationFact :=
  let ambiguous why := Err (ppe_planId effect ++ ":" ++ why)%string in
  match jm_get (ppe_planId effect) byPlan with
  | None => ambiguous "missing_reconciliation"%string
  | Some (patch_blocked _ reason _) => ambiguous (blockReasonText reason)
  | Some (patch_reconciled _ patch_applied _) => ambiguous "applied_effect_requires_recovered_journal"%string
  | Some (patch_reconciled _ patch_not_applied _) =>
      Ok {| rcf_callId := ppe_callId effect; rcf_observed := patch_not_applied; rcf_planId := ppe_planId effect |}
  end.
Definition collectPatchFact (byPlan : jsmap string PatchReconciliation)
    (state : list PlanningBlock * list ResumeReconciliationFact) (effect : PendingPatchEffect)
  : list PlanningBlock * list ResumeReconciliationFact :=
  let '(blocks, facts) := state in
  match patchFact byPlan effect with
  | Err detail => (addBlock pending_patch_ambiguous detail blocks, facts)
  | Ok fact => (blocks, facts ++ [fact])
  end.
Definition collectPatchFacts (input : ResumePlannerInput) (blocks : list PlanningBlock)
  : list PlanningBlock * list ResumeReconciliationFact :=
  foldl (collectPatchFact (reconciliationByPlan (rpi_patchReconciliations input))) (blocks, [])
    (pel_pendingPatches (rpi_ledger input)).

Definition blockedPlan (sessionId sourceRunId : string) (blocks : list PlanningBlock) (offeredMode : option ResumeMode)
  : ResumePlan :=
  plan_blocked {| brs_details := pbl_detail <$> blocks; brs_offeredMode := offeredMode;
                  brs_reasons := distinct (pbl_reason <$> blocks); brs_resumeOfRunId := sourceRunId;
                  brs_sessionId := sessionId |}.

(** ** The preflight *)

Definition commandStageText (stage : CommandStage) : string :=
  match stage with stage_requested => "requested" | stage_started => "started" end.
Definition mcpStageText (stage : McpStage) : string :=
  match stage with
  | mcp_requested => "requested" | mcp_started => "started" | mcp_effect_unknown => "effect_unknown"
  end.

(** A recovered effect that is not of the pending call. *)
Definition strayEffect (ledger : PendingEffectLedger) : bool :=
  match head (pel_recoveredInnerEffects ledger) with
  | None => false
  | Some recovered =>
      match head (pel_pendingToolCalls ledger) with
      | None => true
      | Some pendingCall =>
          (rie_callId recovered !== ptc_callId pendingCall) ||
          (rie_sourceRunId recovered !== ptc_sourceRunId pendingCall)
      end
  end.

Definition preflightBlocks (ledger : PendingEffectLedger) : list PlanningBlock :=
  let multiple (b : bool) detail blocks := if b then addBlock multiple_pending_calls detail blocks else blocks in
  multiple (strayEffect ledger) "completed inner effect does not match the inherited provider call"%string
  (multiple (1 <? length (pel_recoveredInnerEffects ledger))%nat
     "more than one completed inner effect lacks an outer observation"%string
  (multiple (1 <? length (pel_pendingToolCalls ledger))%nat
     "more than one inherited provider call is unresolved"%string
  (foldl (fun blocks call =>
            addBlock pending_mcp_effect_unknown
              (umc_serverId call ++ ":" ++ umc_callId call ++ ":" ++ mcpStageText (umc_stage call))%string blocks)
     (foldl (fun blocks server =>
               addBlock pending_mcp_effect_unknown
                 (ums_serverId server ++ ":" ++ mcpStageText (ums_stage server))%string blocks)
        (foldl (fun blocks command =>
                  addBlock pending_command_effect_unknown
                    (uce_executionId command ++ ":" ++ commandStageText (uce_stage command))%string blocks)
           [] (pel_unknownCommands ledger))
        (pel_unknownMcpServers ledger))
     (pel_unknownMcpCalls ledger)))).

Definition preflightPendingEffects (ledger : PendingEffectLedger) (sessionId sourceRunId : string)
  : option ResumePlan :=
  match preflightBlocks ledger with
  | [] => None
  | blocks => Some (blockedPlan sessionId sourceRunId blocks None)
  end.

(** ** The plan *)

(** The comparison of [samePendingCall]. *)
Definition sameCall (a b : PendingToolCall) : bool :=
  (ptc_callId a === ptc_callId b) && (ptc_sourceRunId a === ptc_sourceRunId b) && (ptc_step a =? ptc_step b) &&
  (ptc_toolName a === ptc_toolName b) && (ptc_argumentsJson a === ptc_argumentsJson b).

(** No message, or [message.trim().length === 0]. *)
Definition blankMessage (message : option jstring) : bool :=
  match message with None => true | Some m => (length (trim m) =? 0)%nat end.

(** The blocks up to the first return of [plan], and the patch facts. *)
Definition planningBlocks (input : ResumePlannerInput) : list PlanningBlock * list ResumeReconciliationFact :=
  let blocks :=
    if (rpi_sourceRunState input === source_completed) && (rpi_approvedPlanContinuation input !== Some true) &&
       blankMessage (rpi_message input)
    then addBlock completed_run_requires_message "completed run needs a new user message" [] else [] in
  let blocks :=
    if (rpi_sourceRunState input === source_failed) && (rpi_failedRunRecoverable input !== Some true)
    then addBlock failed_run_not_recoverable "failed run category is not recoverable" blocks else blocks in
  let mismatches := compareWorkspaceResumeFingerprints (rpi_expectedFingerprint input) (rpi_currentFingerprint input) in
  let blocks := addHardFingerprintBlocks mismatches blocks in
  let '(blocks, facts) := collectPatchFacts input blocks in
  let blocks :=
    match head (pel_pendingToolCalls (rpi_ledger input)), cpc_call <$> brp_checkpointPendingCall (rpi_backend input) with
    | Some a, Some b =>
        if sameCall a b then blocks
        else addBlock multiple_pending_calls "checkpoint pending call does not match the durable effect ledger" blocks
    | _, _ => blocks
    end in
  (blocks, facts).

Definition inheritedCall (input : ResumePlannerInput) : option PendingToolCall :=
  match cpc_call <$> brp_checkpointPendingCall (rpi_backend input) with
  | Some call => Some call
  | None => head (pel_pendingToolCalls (rpi_ledger input))
  end.
Definition recoveredObservation (input : ResumePlannerInput) : option RecoveredToolObservation :=
  match brp_checkpointPendingCall (rpi_backend input) ≫= cpc_recoveredObservation with
  | Some observation => Some observation
  | None => rie_observation <$> head (pel_recoveredInnerEffects (rpi_ledger input))
  end.

(** Why the checkpoint does not do; [Ok] says whether it is ready. *)
Definition exactCheckpoint (input : ResumePlannerInput) (exactFingerprintCompatible : bool)
  : list PlanningBlock * bool :=
  let blocked reason detail := (addBlock reason detail [], false) in
  match brp_capability (rpi_backend input) with
  | capability_exact_checkpoint =>
      match brp_checkpoint (rpi_backend input) with
      | None => blocked checkpoint_missing "no checkpoint artifact is referenced"%string
      | Some checkpoint =>
          if negb (isLocallyVerifiedCheckpointProjection verified checkpoint)
          then blocked checkpoint_corrupt "checkpoint was not verified by the local projection builder"%string
          else if negb (checkpointIsCompatible input)
          then blocked checkpoint_incompatible "checkpoint backend identity or codec does not match"%string
          else if negb (brp_exactCheckpointUsable (rpi_backend input))
          then blocked canonical_boundary_open
                 "latest exact checkpoint was superseded by an uncheckpointed model turn"%string
          else if ((ptc_kind <$> inheritedCall input) === Some kind_finish_task) && (recoveredObservation input !== None)
          then blocked checkpoint_incompatible "completed finish_task requires explicit canonical re-evaluation"%string
          else ([], exactFingerprintCompatible)
      end
  | capability_none =>
      blocked backend_resume_unsupported "selected backend declares resume capability none"%string
  | capability_canonical_only => ([], false)
  end.

Definition readyPlan (input : ResumePlannerInput) (mode : ResumeMode) (mismatches : list string)
    (pendingCall : option PendingToolCall) (effect : option RecoveredInnerEffect)
    (observation : option RecoveredToolObservation) (facts : list ResumeReconciliationFact) : ResumePlan :=
  plan_ready {| rrp_approvalsToExpire := pel_approvalsToExpire (rpi_ledger input);
    rrp_fingerprintMismatches := mismatches; rrp_inheritedPendingCall := pendingCall; rrp_mode := mode;
    rrp_newRunId := createRunId; rrp_recoveredInnerEffect := effect; rrp_recoveredToolObservation := observation;
    rrp_reconciliations := facts; rrp_resumeOfRunId := rpi_sourceRunId input; rrp_sessionId := rpi_sessionId input |}.

(** [plan]. *)
Definition planResume (input : ResumePlannerInput) : ResumePlan :=
  match preflightPendingEffects (rpi_ledger input) (rpi_sessionId input) (rpi_sourceRunId input) with
  | Some blocked => blocked
  | None =>
      let blockedBy blocks offered := blockedPlan (rpi_sessionId input) (rpi_sourceRunId input) blocks offered in
      let mismatches :=
        compareWorkspaceResumeFingerprints (rpi_expectedFingerprint input) (rpi_currentFingerprint input) in
      let '(blocks, facts) := planningBlocks input in
      let pendingCall := inheritedCall input in
      let observation := recoveredObservation input in
      match blocks with
      | _ :: _ => blockedBy blocks None
      | [] =>
          let exactFingerprintCompatible :=
            negb (existsb (fun mismatch => rfm_kind mismatch === mismatch_exact_only) mismatches) in
          let '(blocks, exactCheckpointReady) := exactCheckpoint input exactFingerprintCompatible in
          if exactCheckpointReady then
            if createRunId === rpi_sourceRunId input
            then blockedBy (addBlock run_id_collision "new run id equals source run id" blocks) None
            else readyPlan input resume_exact [] pendingCall (head (pel_recoveredInnerEffects (rpi_ledger input)))
                   observation facts
          else if (pendingCall !== None) && (observation === None)
          then blockedBy (addBlock pending_call_requires_exact_checkpoint
                            "an unresolved provider call can only be adopted from exact state" blocks) None
          else if negb (brp_canonicalBoundaryClosed (rpi_backend input))
          then blockedBy (addBlock canonical_boundary_open
                            "canonical transcript ends inside a model or tool turn" blocks) None
          else if negb (brp_supportsCanonicalDegradedResume (rpi_backend input))
          then blockedBy (if brp_capability (rpi_backend input) !== capability_none
                          then addBlock backend_resume_unsupported
                                 "backend does not support canonical degraded resume" blocks
                          else blocks) None
          else if negb (rpi_allowDegradedResume input)
          then blockedBy (addBlock degraded_resume_requires_confirmation
                            "canonical degraded resume requires explicit confirmation" blocks)
                 (Some resume_canonical_degraded)
          else if createRunId === rpi_sourceRunId input
          then blockedBy (addBlock run_id_collision "new run id equals source run id" blocks) None
          else readyPlan input resume_canonical_degraded (rfm_field <$> mismatches) None None None facts
      end
  end.
End Planner.
