(* ===== verification/ResumeProperties.v ===== *)
(** * What a resume plan is based on

    The blocks of the planner, the comparison of fingerprints, and the two
    readings of the calls of a run: the ledger's and the canonical boundary's. *)

From S2P Require Import Prelude JsString CanonicalJson Domain Events Permissions Utf8 Patch Completion Verification RunEvents RunLog EventPublisher ToolErrors McpResult PendingEffects ResumeEvidence PendingEffectsFacts SessionLedger BackendProjection ResumePlanner.
#[local] Open Scope Z_scope.

(** ** Blocks *)

Lemma addBlock_not_nil reason detail blocks : addBlock reason detail blocks <> [].
Proof. unfold addBlock. destruct (existsb _ blocks) eqn:E; [by destruct blocks|by destruct blocks]. Qed.

Lemma foldl_addBlock_nil {A} (reason : A -> ResumeBlockReason) (detail : A -> string) l blocks :
  foldl (fun blocks x => addBlock (reason x) (detail x) blocks) blocks l = [] -> l = [] /\ blocks = [].
Proof.
  revert blocks. induction l as [|x l IH]; intros blocks H; cbn in H; [done|].
  apply IH in H as [_ []%addBlock_not_nil].
Qed.

Lemma distinct_not_nil {A} `{EqDecision A} (values : list A) : values <> [] -> distinct values <> [].
Proof.
  destruct values as [|x values]; [done|]. intros _. unfold distinct. cbn.
  enough (forall seen, seen <> [] -> foldl (fun seen value => if bool_decide (value ∈ seen) then seen else seen ++ [value])
    seen values <> []) as H by by apply H.
  induction values as [|y values IH]; intros seen Hs; cbn; [done|]. apply IH.
  case_bool_decide; [done|]. by destruct seen.
Qed.

Lemma preflight_clear ledger :
  preflightBlocks ledger = [] ->
  pel_unknownCommands ledger = [] /\ pel_unknownMcpServers ledger = [] /\ pel_unknownMcpCalls ledger = [] /\
  (length (pel_pendingToolCalls ledger) <= 1)%nat /\ (length (pel_recoveredInnerEffects ledger) <= 1)%nat /\
  strayEffect ledger = false.
Proof.
  unfold preflightBlocks. intros H.
  destruct (strayEffect ledger); [by apply addBlock_not_nil in H|].
  destruct (Nat.ltb_spec 1 (length (pel_recoveredInnerEffects ledger))); [by apply addBlock_not_nil in H|].
  destruct (Nat.ltb_spec 1 (length (pel_pendingToolCalls ledger))); [by apply addBlock_not_nil in H|].
  apply (foldl_addBlock_nil (fun _ => _)) in H as [Hcalls H].
  apply (foldl_addBlock_nil (fun _ => _)) in H as [Hservers H].
  by apply (foldl_addBlock_nil (fun _ => _)) in H as [Hcommands _].
Qed.

Lemma preflight_ok ledger sessionId runId : preflightPendingEffects ledger sessionId runId = None -> preflightBlocks ledger = [].
Proof. unfold preflightPendingEffects. by destruct (preflightBlocks ledger). Qed.

(** ** Fingerprints *)

Lemma addHard_nil mismatches blocks :
  addHardFingerprintBlocks mismatches blocks = [] ->
  List.filter (fun mismatch => rfm_kind mismatch === mismatch_hard) mismatches = [] /\ blocks = [].
Proof. apply foldl_addBlock_nil. Qed.

(** Without hard and exact-only mismatches there are none. *)
Lemma no_mismatch mismatches :
  List.filter (fun mismatch => rfm_kind mismatch === mismatch_hard) mismatches = [] ->
  existsb (fun mismatch => rfm_kind mismatch === mismatch_exact_only) mismatches = false -> mismatches = [].
Proof. destruct mismatches as [|[field []] l]; [done| |]; done. Qed.

(** ** Patches *)

Lemma collectPatchFact_nil byPlan l blocks facts0 facts :
  foldl (collectPatchFact byPlan) (blocks, facts0) l = ([], facts) ->
  blocks = [] /\ exists more, facts = facts0 ++ more /\ patchFact byPlan <$> l = Ok <$> more.
Proof.
  revert blocks facts0. induction l as [|effect l IH]; intros blocks facts0; cbn.
  { intros [= -> ->]. split; [done|]. exists []. by rewrite app_nil_r. }
  destruct (patchFact byPlan effect) as [fact|detail]; intros (Hb & more & -> & Hl)%IH.
  - split; [done|]. exists (fact :: more). rewrite <-app_assoc. cbn. by rewrite Hl.
  - by apply addBlock_not_nil in Hb.
Qed.
Lemma collectPatchFacts_nil input blocks facts :
  collectPatchFacts input blocks = ([], facts) ->
  blocks = [] /\
  patchFact (reconciliationByPlan (rpi_patchReconciliations input)) <$> pel_pendingPatches (rpi_ledger input) = Ok <$> facts.
Proof. by intros (Hb & more & -> & Hl)%collectPatchFact_nil. Qed.

Lemma patchFact_ok byPlan effect fact :
  patchFact byPlan effect = Ok fact ->
  rcf_planId fact = ppe_planId effect /\ rcf_callId fact = ppe_callId effect /\ rcf_observed fact = patch_not_applied /\
  exists planId files, jm_get (ppe_planId effect) byPlan = Some (patch_reconciled planId patch_not_applied files).
Proof.
  unfold patchFact. destruct (jm_get _ _) as [[planId [] files|]|]; try done. intros H. simplify_eq. split_and!; by eauto.
Qed.

Lemma reconciliationByPlan_get l planId r :
  jm_get planId (reconciliationByPlan l) = Some r -> r ∈ l /\ reconciliationPlan r = planId.
Proof.
  unfold reconciliationByPlan. induction l as [|x l IH] using rev_ind; [done|]. rewrite foldl_snoc.
  intros [[<- ->]|[_ H]]%jm_set_Some; [set_solver|]. apply IH in H. set_solver.
Qed.

(** ** The plan *)

Section Planner.
Context (verified : VerifiedCheckpoints) (createRunId : string).

(** What a plan that is ready has passed. *)
Record planReady (input : ResumePlannerInput) (plan : ReadyResumePlan) : Prop := {
  ready_preflight : preflightBlocks (rpi_ledger input) = [];
  ready_blocks : planningBlocks input = ([], rrp_reconciliations plan);
  ready_new_run : rrp_newRunId plan = createRunId /\ createRunId <> rpi_sourceRunId input;
  ready_mode :
    (rrp_mode plan = resume_exact /\
     exactCheckpoint verified input (negb (existsb (fun mismatch => rfm_kind mismatch === mismatch_exact_only)
       (compareWorkspaceResumeFingerprints (rpi_expectedFingerprint input) (rpi_currentFingerprint input)))) = ([], true) /\
     rrp_inheritedPendingCall plan = inheritedCall input /\
     rrp_recoveredInnerEffect plan = head (pel_recoveredInnerEffects (rpi_ledger input)) /\
     rrp_recoveredToolObservation plan = recoveredObservation input) \/
    (rrp_mode plan = resume_canonical_degraded /\
     (inheritedCall input = None \/ recoveredObservation input <> None) /\
     brp_canonicalBoundaryClosed (rpi_backend input) = true /\
     brp_supportsCanonicalDegradedResume (rpi_backend input) = true /\ rpi_allowDegradedResume input = true /\
     rrp_inheritedPendingCall plan = None /\ rrp_recoveredToolObservation plan = None /\
     rrp_fingerprintMismatches plan =
       rfm_field <$> compareWorkspaceResumeFingerprints (rpi_expectedFingerprint input) (rpi_currentFingerprint input)) }.

Lemma exactCheckpoint_ready input compatible blocks :
  exactCheckpoint verified input compatible = (blocks, true) ->
  blocks = [] /\ compatible = true /\ brp_exactCheckpointUsable (rpi_backend input) = true /\
  checkpointIsCompatible verified input = true /\ ~ (ptc_kind <$> inheritedCall input = Some kind_finish_task /\ recoveredObservation input <> None).
Proof.
  unfold exactCheckpoint. destruct (brp_capability _); try done. destruct (brp_checkpoint _) as [c|] eqn:E; [|done].
  destruct (isLocallyVerifiedCheckpointProjection _ _); cbn; [|done].
  destruct (checkpointIsCompatible _ _); cbn; [|done]. destruct (brp_exactCheckpointUsable _); cbn; [|done].
  destruct (bool_decide (ptc_kind <$> inheritedCall input = _)) eqn:Ek; cbn.
  - destruct (bool_decide (recoveredObservation input = None)) eqn:Eo; cbn; [|done]. intros [= <- ->]. returns. naive_solver.
  - intros [= <- ->]. returns. naive_solver.
Qed.

Lemma planResume_ready input plan :
  planResume verified createRunId input = plan_ready plan -> planReady input plan.
Proof.
  unfold planResume. intros H.
  destruct (preflightPendingEffects _ _ _) eqn:Epre; [unfold preflightPendingEffects in Epre; by destruct (preflightBlocks _); simplify_eq|].
  apply preflight_ok in Epre. destruct (planningBlocks input) as [[|block blocks] facts] eqn:Eb; [|done].
  destruct (exactCheckpoint _ _ _) as [blocks []] eqn:Ex.
  - pose proof Ex as (-> & _)%exactCheckpoint_ready. case_bool_decide; [done|]. unfold readyPlan in H.
    injection H as <-. split; cbn; try done. left. by split_and!.
  - destruct (_ && _) eqn:Ec in H; [done|].
    destruct (brp_canonicalBoundaryClosed _) eqn:Ebc; cbn [negb] in H; [|done].
    destruct (brp_supportsCanonicalDegradedResume _) eqn:Es; cbn [negb] in H; [|done].
    destruct (rpi_allowDegradedResume _) eqn:Ea; cbn [negb] in H; [|done].
    case_bool_decide; [done|]. injection H as <-. split; cbn; try done. right. split_and!; try done.
    apply andb_false_iff in Ec as [Ec|Ec]; returns; [by left|by right].
Qed.
End Planner.

(** What [planningBlocks] without a block means. *)
Lemma planningBlocks_clear input facts :
  planningBlocks input = ([], facts) ->
  sameBackend (rpi_expectedFingerprint input) (rpi_currentFingerprint input) /\
  patchFact (reconciliationByPlan (rpi_patchReconciliations input)) <$> pel_pendingPatches (rpi_ledger input) = Ok <$> facts /\
  (forall a b, head (pel_pendingToolCalls (rpi_ledger input)) = Some a ->
     cpc_call <$> brp_checkpointPendingCall (rpi_backend input) = Some b -> sameCall a b = true) /\
  (rpi_sourceRunState input = source_completed -> rpi_approvedPlanContinuation input <> Some true ->
     blankMessage (rpi_message input) = false) /\
  (rpi_sourceRunState input = source_failed -> rpi_failedRunRecoverable input = Some true).
Proof.
  unfold planningBlocks. destruct (collectPatchFacts _ _) as [blocks facts'] eqn:Ec. intros H.
  assert (blocks = [] /\ facts' = facts /\ (forall a b, head (pel_pendingToolCalls (rpi_ledger input)) = Some a ->
     cpc_call <$> brp_checkpointPendingCall (rpi_backend input) = Some b -> sameCall a b = true)) as (-> & -> & Hsame).
  { destruct (head _) as [a|], (cpc_call <$> _) as [b|]; try (by simplify_eq).
    destruct (sameCall a b) eqn:Es; [|by injection H as []%addBlock_not_nil]. simplify_eq. naive_solver. }
  apply collectPatchFacts_nil in Ec as [Hblocks Hfacts]. apply addHard_nil in Hblocks as [Hhard%compare_hard Hblocks].
  split_and!; [done..| |].
  - intros Hs Hc. revert Hblocks. rewrite (bool_decide_eq_true_2 _ Hs), (bool_decide_eq_false_2 _ Hc). cbn.
    destruct (blankMessage _); [|done]. by destruct (_ && _); [intros []%addBlock_not_nil|].
  - intros Hs. revert Hblocks. rewrite (bool_decide_eq_true_2 _ Hs). destruct (decide (rpi_failedRunRecoverable input = Some true)); [done|].
    rewrite (bool_decide_eq_false_2 (_ = Some true)) by done. by intros []%addBlock_not_nil.
Qed.

(** ** The pieces of a plan *)

#[export] Instance ResumePlannerInput_eta : Eta ResumePlannerInput := fun r =>
  Build_ResumePlannerInput (rpi_allowDegradedResume r) (rpi_approvedPlanContinuation r) (rpi_backend r)
    (rpi_currentFingerprint r) (rpi_expectedFingerprint r) (rpi_failedRunRecoverable r) (rpi_ledger r) (rpi_message r)
    (rpi_patchReconciliations r) (rpi_sessionId r) (rpi_sourceRunId r) (rpi_sourceRunState r).

Lemma facts_of_patch byPlan (pending : list PendingPatchEffect) (facts : list ResumeReconciliationFact) e :
  patchFact byPlan <$> pending = Ok <$> facts -> e ∈ pending ->
  exists fact, fact ∈ facts /\ patchFact byPlan e = Ok fact.
Proof.
  intros H He. assert (Hin : patchFact byPlan e ∈ patchFact byPlan <$> pending) by (apply list_elem_of_fmap; eauto).
  rewrite H in Hin. apply list_elem_of_fmap in Hin as (fact & Hf & Hin). by exists fact.
Qed.

Lemma singleton_head {A} (l : list A) x : (length l <= 1)%nat -> x ∈ l -> head l = Some x.
Proof. destruct l as [|y [|]]; cbn; [by intros _ ?%not_elem_of_nil|by intros _ ->%list_elem_of_singleton|lia]. Qed.

Lemma sameCall_id a b : sameCall a b = true -> ptc_callId a = ptc_callId b.
Proof. unfold sameCall. intros H. by returns. Qed.

(** An effect without a result is of the one call that waits. *)
Lemma strayEffect_pending ledger e :
  strayEffect ledger = false -> (length (pel_recoveredInnerEffects ledger) <= 1)%nat ->
  e ∈ pel_recoveredInnerEffects ledger ->
  exists k, k ∈ pel_pendingToolCalls ledger /\ ptc_callId k = rie_callId e.
Proof.
  unfold strayEffect. intros H Hl He. rewrite (singleton_head _ _ Hl He) in H.
  destruct (pel_pendingToolCalls ledger) as [|k l]; cbn in H; [done|]. returns. exists k. split; [set_solver|done].
Qed.

Lemma inheritedCall_pending input k :
  (length (pel_pendingToolCalls (rpi_ledger input)) <= 1)%nat ->
  (forall a b, head (pel_pendingToolCalls (rpi_ledger input)) = Some a ->
     cpc_call <$> brp_checkpointPendingCall (rpi_backend input) = Some b -> sameCall a b = true) ->
  k ∈ pel_pendingToolCalls (rpi_ledger input) -> ptc_callId <$> inheritedCall input = Some (ptc_callId k).
Proof.
  intros Hl Hsame Hk. pose proof (singleton_head _ _ Hl Hk) as Hhead. unfold inheritedCall. rewrite Hhead in *.
  destruct (cpc_call <$> _) as [b|]; cbn; [|done]. by rewrite (sameCall_id _ _ (Hsame _ _ eq_refl eq_refl)).
Qed.

Lemma recoveredObservation_effect input e :
  head (pel_recoveredInnerEffects (rpi_ledger input)) = Some e ->
  recoveredObservation input = Some (rie_observation e) \/
  exists c observation, brp_checkpointPendingCall (rpi_backend input) = Some c /\
    cpc_recoveredObservation c = Some observation.
Proof.
  unfold recoveredObservation. intros ->. destruct (brp_checkpointPendingCall _) as [c|]; cbn; [|by left].
  destruct (cpc_recoveredObservation c) as [observation|] eqn:E; [right; by exists c, observation|by left].
Qed.

Section Outcome.
Context (verified : VerifiedCheckpoints) (createRunId : string).

Lemma planResume_source input plan : planResume verified createRunId input = plan_ready plan ->
  rrp_resumeOfRunId plan = rpi_sourceRunId input /\ rrp_sessionId plan = rpi_sessionId input.
Proof.
  unfold planResume. destruct (preflightPendingEffects _ _ _) eqn:E.
  { unfold preflightPendingEffects in E. destruct (preflightBlocks _); [done|]. by simplify_eq. }
  destruct (planningBlocks input) as [[|] facts]; [|done]. destruct (exactCheckpoint _ _ _) as [blocks []];
    repeat case_match; try done; intros Hp; by injection Hp as <-.
Qed.

Lemma blockedPlan_reasons session run blocks offered refused :
  blockedPlan session run blocks offered = plan_blocked refused -> blocks <> [] ->
  brs_reasons refused <> [] /\ brs_offeredMode refused = offered.
Proof. intros [= <-] Hb. split; [|done]. cbn. apply distinct_not_nil. by destruct blocks. Qed.

(** A canonical-only or exact backend is refused with a block, and so is none. *)
Lemma exactCheckpoint_none input compatible blocks :
  exactCheckpoint verified input compatible = (blocks, false) ->
  brp_capability (rpi_backend input) = capability_none -> blocks <> [].
Proof. unfold exactCheckpoint. intros H Hc. rewrite Hc in H. injection H as <-. apply addBlock_not_nil. Qed.

Lemma planResume_blocked input refused :
  planResume verified createRunId input = plan_blocked refused -> brs_reasons refused <> [].
Proof.
  unfold planResume. destruct (preflightPendingEffects _ _ _) eqn:E.
  { intros ->. unfold preflightPendingEffects in E. destruct (preflightBlocks _) eqn:Eb; [done|].
    simplify_eq. by eapply blockedPlan_reasons. }
  destruct (planningBlocks input) as [[|block blocks] facts] eqn:Eb; [|intros H; by eapply blockedPlan_reasons].
  destruct (exactCheckpoint _ _ _) as [blocks []] eqn:Ex.
  - case_bool_decide; [|done]. intros Hb. eapply blockedPlan_reasons; [done|apply addBlock_not_nil].
  - repeat (case_match; try done); intros H'; eapply blockedPlan_reasons; try done; try apply addBlock_not_nil.
    eapply exactCheckpoint_none; [done|]. by returns.
Qed.

Lemma blockedPlan_offered session run blocks refused :
  blockedPlan session run blocks None = plan_blocked refused -> ~ brs_offeredMode refused <> None.
Proof. intros [= <-]. by intros []. Qed.

(** What is known when the transcript is offered. *)
Lemma planResume_offered input refused :
  planResume verified createRunId input = plan_blocked refused -> brs_offeredMode refused <> None ->
  preflightPendingEffects (rpi_ledger input) (rpi_sessionId input) (rpi_sourceRunId input) = None /\
  exists facts, planningBlocks input = ([], facts) /\
  exists blocks, exactCheckpoint verified input (negb (existsb (fun mismatch => rfm_kind mismatch === mismatch_exact_only)
       (compareWorkspaceResumeFingerprints (rpi_expectedFingerprint input) (rpi_currentFingerprint input)))) = (blocks, false) /\
  (inheritedCall input !== None) && (recoveredObservation input === None) = false /\
  brp_canonicalBoundaryClosed (rpi_backend input) = true /\
  brp_supportsCanonicalDegradedResume (rpi_backend input) = true.
Proof.
  unfold planResume. destruct (preflightPendingEffects _ _ _) eqn:E.
  { intros ->. unfold preflightPendingEffects in E. destruct (preflightBlocks _); [done|]. injection E as <-. by intros []. }
  destruct (planningBlocks input) as [[|block blocks] facts]; [|intros Hb Ho; by destruct (blockedPlan_offered _ _ _ _ Hb Ho)].
  destruct (exactCheckpoint _ _ _) as [blocks []].
  - case_bool_decide; [|done]. intros Hb Ho; by destruct (blockedPlan_offered _ _ _ _ Hb Ho).
  - destruct (_ && _) eqn:Ec; [intros Hb Ho; by destruct (blockedPlan_offered _ _ _ _ Hb Ho)|].
    destruct (brp_canonicalBoundaryClosed _); [|intros Hb Ho; by destruct (blockedPlan_offered _ _ _ _ Hb Ho)].
    destruct (brp_supportsCanonicalDegradedResume _); [|intros Hb Ho; by destruct (blockedPlan_offered _ _ _ _ Hb Ho)].
    intros _ _. split; [done|]. exists facts. split; [done|]. by exists blocks.
Qed.
End Outcome.

(** ** Resuming a run

    What a plan that is ready guarantees about the run before it, whatever its
    log holds. *)

(** ** Effects *)

(** C20: a plan that is ready leaves no effect of the run before it open: every
    command that was requested has completed with its processes gone, every MCP
    call that was started has completed, and every patch that was started either
    has completed or is planned as one that the files show was not applied. *)
Theorem ready_plan_settles_effects sha256 runs events verified createRunId input plan :
  sessionLedger sha256 runs events = Ok (rpi_ledger input) ->
  planResume verified createRunId input = plan_ready plan ->
  (forall r d, logged events r (log_event (ev_command_requested d)) ->
     commandCompleted events r (ci_execution_id (crq_id d))) /\
  (forall r d, logged events r (log_mcp (mcp_tool_call_started d)) -> mcpCompleted events r (mci_call_id d)) /\
  (forall r d, logged events r (log_event (ev_patch_apply_started d)) ->
     patchCompleted events r (pas_plan_id d) \/
     exists fact planId files, fact ∈ rrp_reconciliations plan /\ rcf_planId fact = pas_plan_id d /\
       rcf_observed fact = patch_not_applied /\
       patch_reconciled planId patch_not_applied files ∈ rpi_patchReconciliations input).
Proof.
  intros Hledger [Hpre Hblocks _ _]%planResume_ready. pose proof (sessionLedger_covers _ _ _ _ Hledger) as Hcovers.
  apply preflight_clear in Hpre as (Hcommands & _ & Hcalls & _). apply planningBlocks_clear in Hblocks as (_ & Hfacts & _).
  split_and!.
  - intros r d Hd. destruct (covers_command _ _ _ Hcovers r d Hd) as [?|(e & He & _)]; [done|].
    rewrite Hcommands in He. by apply not_elem_of_nil in He.
  - intros r d Hd. destruct (covers_mcp _ _ _ Hcovers r _ _ Hd eq_refl) as [?|(e & He & _)]; [done|].
    rewrite Hcalls in He. by apply not_elem_of_nil in He.
  - intros r d Hd. destruct (covers_patch _ _ _ Hcovers r d Hd) as [?|(e & He & Hk)]; [by left|right].
    destruct (facts_of_patch _ _ _ _ Hfacts He) as (fact & Hin & Hfact).
    apply patchFact_ok in Hfact as (Hplan & _ & Hobs & planId & files & [Hr _]%reconciliationByPlan_get).
    unfold patchKey in Hk. simplify_eq. exists fact, planId, files. split_and!; congruence.
Qed.

(** C21: no call of the run before is lost, and none is answered twice.  A call
    without a result is the one that an exact plan takes over; a patch, a command
    or an MCP call that completed has the result of its call in the log, or the
    plan takes that call over with the observation of this very effect, which is
    what recovery makes of its completion (and of the output logged before it),
    so that it is not carried out again.  A degraded plan therefore has none of
    either. *)
Theorem ready_plan_keeps_calls {C} readExact sha256 runs events (backend : ModelBackend C) verified c verified' createRunId input plan :
  sessionLedger sha256 runs events = Ok (rpi_ledger input) ->
  buildProjection readExact backend events verified = Ok (c, rpi_backend input, verified') ->
  planResume verified' createRunId input = plan_ready plan ->
  let takenOver call := rrp_mode plan = resume_exact /\ ptc_callId <$> rrp_inheritedPendingCall plan = Some call in
  (forall r call, called events r call -> answered events r call \/ takenOver call) /\
  (forall pre x post key call, events = pre ++ x :: post -> effectAt x = Some (key, call) ->
     (forall y c, y ∈ post -> effectAt y <> Some (key, c)) ->
     answered events (de_runId x) call \/
     takenOver call /\ exists observation, resultAt pre x observation /\
       rrp_recoveredToolObservation plan = Some observation) /\
  (forall r d, logged events r (log_mcp (mcp_tool_call_completed d)) ->
     answered events r (mci_call_id (mcc_id d)) \/
     takenOver (mci_call_id (mcc_id d)) /\ exists effect, recoverMcpCall sha256 r d = Ok effect /\
       rrp_recoveredToolObservation plan = Some (rie_observation effect)).
Proof.
  intros Hledger Hbuild [Hpre Hblocks _ Hmode]%planResume_ready takenOver.
  pose proof (sessionLedger_covers _ _ _ _ Hledger) as Hcovers.
  apply preflight_clear in Hpre as (_ & _ & _ & Hpending & Hrecovered & Hstray).
  apply planningBlocks_clear in Hblocks as (_ & _ & Hsame & _).
  pose proof Hbuild as (Hone & _ & Hclosed & _)%buildProjection_spec. destruct (oneRun_runs _ Hone) as [R HR].
  assert (Hcall : forall k, k ∈ pel_pendingToolCalls (rpi_ledger input) -> takenOver (ptc_callId k)).
  { intros k Hk. destruct Hmode as [(Hm & _ & Hi & _)|(_ & _ & Hbc & _)].
    - split; [done|]. rewrite Hi. by apply inheritedCall_pending.
    - rewrite (closed_boundary_ledger _ _ _ _ Hone Hledger (Hclosed Hbc)) in Hk. by apply not_elem_of_nil in Hk. }
  assert (Heffect : forall e, e ∈ pel_recoveredInnerEffects (rpi_ledger input) ->
    answered events R (rie_callId e) \/
    takenOver (rie_callId e) /\ rrp_recoveredToolObservation plan = Some (rie_observation e)).
  { intros e He. destruct (strayEffect_pending _ e Hstray Hrecovered He) as (k & Hk & Hid).
    destruct (Hcall k Hk) as [Hm Hi]. rewrite Hid in Hi.
    destruct Hmode as [(_ & _ & _ & _ & ->)|(Hm' & _)]; [|congruence].
    destruct (recoveredObservation_effect input e (singleton_head _ _ Hrecovered He)) as [->|(p & o & Hp & Ho)];
      [right; by split|left].
    assert (Hsid : ptc_callId k = ptc_callId (cpc_call p))
      by (apply sameCall_id, Hsame; [by apply singleton_head|by rewrite Hp]).
    rewrite <-Hid, Hsid. by eapply checkpoint_call_answered. }
  split_and!.
  - intros r call Hcalled. destruct (covers_call _ _ _ Hcovers r call Hcalled) as [?|(k & Hk & Hkey)]; [by left|right].
    unfold callKey in Hkey. simplify_eq. by apply Hcall.
  - intros pre x post key call Hs Hx Hp. rewrite (HR x) by (rewrite Hs; set_solver).
    destruct (covers_effect _ _ _ Hcovers _ _ _ _ _ Hs Hx Hp) as [Ha|(e & He & <- & _ & Hres)].
    + left. by rewrite (HR x) in Ha by (rewrite Hs; set_solver).
    + destruct (Heffect e He) as [?|[? ?]]; [by left|right]. split; [done|]. by exists (rie_observation e).
  - intros r d Hd. destruct (covers_mcp_effect _ _ _ Hcovers r d Hd) as [?|(e & He & Hrec)]; [by left|].
    assert (r = R) as -> by (destruct Hd as (y & Hy & <- & _); by apply HR).
    pose proof (recoverMcpCall_says _ _ _ _ Hrec) as [Hid _]. rewrite <-Hid.
    destruct (Heffect e He) as [?|[? ?]]; [by left|right]. split; [done|]. by exists e.
Qed.

(** ** Modes *)

(** C22: an exact plan continues from the state that the model was left in.  The
    two fingerprints are equal in every field; the checkpoint is the last one of
    the run, was read from the store for this backend, and the model did
    nothing after it; the new run has its own id. *)
Theorem exact_plan_is_identical {C} readExact events (backend : ModelBackend C) verified c verified' createRunId input plan :
  buildProjection readExact backend events verified = Ok (c, rpi_backend input, verified') ->
  planResume verified' createRunId input = plan_ready plan -> rrp_mode plan = resume_exact ->
  rpi_expectedFingerprint input = rpi_currentFingerprint input /\ rrp_newRunId plan <> rrp_resumeOfRunId plan /\
  exists codec supports before event d after continuation,
    mb_resume backend = declares_exact_checkpoint codec supports /\
    events = before ++ event :: after /\ de_data event = log_checkpoint d /\
    (forall x d', x ∈ after -> de_data x <> log_checkpoint d') /\
    existsb providerEvent after = false /\
    c = Some continuation /\
    (exists selected, readExact codec (mb_identity backend) (checkpointReference event d selected (mb_identity backend))
       = Ok (Some continuation)) /\
    chk_adapter d = bid_adapter (mb_identity backend) /\ chk_model d = bid_model (mb_identity backend) /\
    Some (chk_codec_version d) = wrf_checkpointCodecVersion (rpi_currentFingerprint input).
Proof.
  intros Hbuild Hplan Hm. pose proof (planResume_source _ _ _ _ Hplan) as [Hsource _].
  apply planResume_ready in Hplan as [_ Hblocks [Hnew Hne] Hmode]. destruct Hmode as [(_ & Hx & _)|(Hm' & _)]; [|congruence].
  apply exactCheckpoint_ready in Hx as (_ & Hcompat & Husable & Hck & _). apply negb_true_iff in Hcompat.
  apply planningBlocks_clear in Hblocks as (Hhard & _). apply buildProjection_spec in Hbuild as (_ & Hid & _ & Hproj).
  split; [apply compare_nil, no_mismatch; [by apply compare_hard|done]|]. split; [congruence|].
  unfold checkpointIsCompatible in Hck. destruct (brp_checkpoint (rpi_backend input)) as [checkpoint|]; [|done].
  destruct Hproj as (codec & supports & selected & before & event & d & after & Hr & Hsel & Hs & Hd & Hlast & Hmatch & Hread & Hstate).
  cbv zeta in Hread. destruct Hread as (Hread & Hc & Hp). destruct c as [continuation|]; [|done]. injection Hp as -> _.
  rewrite Hid in Hck. cbn in Hck. returns. rewrite Husable in Hstate. apply callStateAt_usable in Hstate.
  exists codec, supports, before, event, d, after, continuation. split_and!; try done. by exists selected.
Qed.

(** The transcript alone is used only with the consent of the user, at a
    closed boundary and for the same workspace, provider, model and adapter; the
    plan names every field in which the fingerprints differ. *)
Theorem degraded_plan_has_consent verified createRunId input plan :
  planResume verified createRunId input = plan_ready plan -> rrp_mode plan = resume_canonical_degraded ->
  rpi_allowDegradedResume input = true /\ brp_canonicalBoundaryClosed (rpi_backend input) = true /\
  brp_supportsCanonicalDegradedResume (rpi_backend input) = true /\
  sameBackend (rpi_expectedFingerprint input) (rpi_currentFingerprint input) /\
  (rrp_fingerprintMismatches plan = [] <-> rpi_expectedFingerprint input = rpi_currentFingerprint input) /\
  rrp_newRunId plan <> rrp_resumeOfRunId plan.
Proof.
  intros Hplan Hm. pose proof (planResume_source _ _ _ _ Hplan) as [Hsource _].
  apply planResume_ready in Hplan as [_ Hblocks [Hnew Hne] Hmode]. apply planningBlocks_clear in Hblocks as (Hhard & _).
  destruct Hmode as [(Hm' & _)|(_ & _ & Hc & Hs & Ha & _ & _ & ->)]; [congruence|].
  split_and!; try done; [|congruence]. rewrite <-compare_nil. by destruct (compareWorkspaceResumeFingerprints _ _).
Qed.

(** A plan that is refused says why, and offers the transcript only where the
    consent is all that is missing: with it, the plan is ready. *)
Theorem refused_plan_has_reasons verified createRunId input refused :
  planResume verified createRunId input = plan_blocked refused ->
  brs_reasons refused <> [] /\
  (brs_offeredMode refused <> None -> createRunId <> rpi_sourceRunId input ->
   exists plan, planResume verified createRunId (input <| rpi_allowDegradedResume := true |>) = plan_ready plan /\
     rrp_mode plan = resume_canonical_degraded).
Proof.
  intros H. split; [by apply (planResume_blocked _ _ _ _ H)|]. intros Ho Hne.
  destruct (planResume_offered _ _ _ _ H Ho) as (Hpre & facts & Hblocks & blocks & Hx & Hcall & Hc & Hs).
  unfold planResume. change (preflightPendingEffects _ _ _) with (preflightPendingEffects (rpi_ledger input) (rpi_sessionId input) (rpi_sourceRunId input)).
  change (planningBlocks _) with (planningBlocks input).
  change (exactCheckpoint verified _) with (exactCheckpoint verified input).
  change (inheritedCall _) with (inheritedCall input). change (recoveredObservation _) with (recoveredObservation input).
  cbn [rpi_backend rpi_expectedFingerprint rpi_currentFingerprint rpi_allowDegradedResume modify].
  rewrite Hpre, Hblocks, Hx, Hcall. cbn. rewrite Hc, Hs. cbn. rewrite bool_decide_eq_false_2 by done. by eexists.
Qed.

(** ** Two sample resumes

    A run that crashed after a command, before the result of its call; and a
    run that crashed while a patch was started, whose files are untouched. *)

Module SamplePlan.
(** ** The backend and its store *)

Definition identity : BackendIdentity := {|
  bid_adapter := "a"; bid_adapterVersion := "1"; bid_configFingerprint := "f"; bid_model := "m";
  bid_provider := provider_openai |}.
Definition codec : BackendCheckpointCodec jstring := {|
  bcc_codecVersion := "k1"; bcc_provider := provider_openai; bcc_encode := fun c => Ok c;
  bcc_decode := fun bytes _ => Ok (Some bytes) |}.
Definition backend : ModelBackend jstring := {|
  mb_capabilities := {| mcap_cancellation := cancellation_abort_signal; mcap_reasoning := reasoning_none;
                        mcap_tools := tools_strict; mcap_usage := usage_complete |};
  mb_identity := identity; mb_resume := declares_exact_checkpoint codec true |}.
Definition readExact (codec : BackendCheckpointCodec jstring) (identity : BackendIdentity) (reference : StoredCheckpointRef)
  : result string (option jstring) := bcc_decode codec (js "state") identity.
Definition nothingVerified : VerifiedCheckpoints := {| vcs_next := 1; vcs_objects := ∅ |}.

Definition fingerprint : WorkspaceResumeFingerprint := {|
  wrf_backend := identity; wrf_capabilitySnapshotSha256 := None; wrf_canonicalRootIdentity := "root";
  wrf_checkpointCodecVersion := Some "k1"%string; wrf_completionSchemaSha256 := "c"; wrf_policySha256 := "p";
  wrf_gitHeadSha256 := "h"; wrf_gitIndexSha256 := "i"; wrf_sourceStateSha256 := "s";
  wrf_systemInstructionsSha256 := "n"; wrf_taskProfile := profile_coding; wrf_toolSchemaSha256 := "t" |}.
Definition changedWorkspace : WorkspaceResumeFingerprint := {|
  wrf_backend := identity; wrf_capabilitySnapshotSha256 := None; wrf_canonicalRootIdentity := "root";
  wrf_checkpointCodecVersion := Some "k1"%string; wrf_completionSchemaSha256 := "c"; wrf_policySha256 := "p";
  wrf_gitHeadSha256 := "h2"; wrf_gitIndexSha256 := "i"; wrf_sourceStateSha256 := "s2";
  wrf_systemInstructionsSha256 := "n"; wrf_taskProfile := profile_coding; wrf_toolSchemaSha256 := "t" |}.

(** ** The events *)

Definition start : RunLogData := log_event (ev_run_started {|
  rst_command := command_agent; rst_model := "m"; rst_provider := "openai"; rst_resume_mode := None;
  rst_resume_of_run_id := None; rst_task_profile := Some profile_coding |}).
Definition selected : RunLogData := log_event (ev_backend_selected {|
  bs_adapter := "a"; bs_adapter_version := "1"; bs_cancellation := cancellation_abort_signal;
  bs_checkpoint_codec_version := Some "k1"%string; bs_config_fingerprint := "f"; bs_model := "m"; bs_provider := "openai";
  bs_reasoning := reasoning_none; bs_resume_capability := Some capability_exact_checkpoint; bs_tools := tools_strict;
  bs_usage := usage_complete |}).
(** A step that ends in a call of [tool]; the checkpoint is taken after it. *)
Definition step (tool : string) : list RunLogData := [
  log_event (ev_agent_step_started {| ass_input_kind := input_user_task; ass_step := 1 |});
  log_event (ev_agent_step_completed {| asc_outcome := outcome_tool_call; asc_step := 1; asc_text_chars := 0;
                                        asc_tool_call_id := Some "c"%string |});
  log_event (ev_tool_call_requested {| tcr_arguments_json := js "{}"; tcr_call_id := "c"; tcr_provider_response_id := None;
                                       tcr_step := 1; tcr_tool_name := tool |});
  log_checkpoint {| chk_adapter := "a"; chk_adapter_version := "1"; chk_bytes := 5; chk_checkpoint_id := "k";
                    chk_codec_version := "k1"; chk_model := "m"; chk_provider := "openai"; chk_ref := "ref";
                    chk_sha256 := "h"; chk_turn := 1 |}].
Definition command : CommandIdentity := {|
  ci_action_sha256 := "act"; ci_call_id := "c"; ci_execution_id := "x"; ci_executor := executor_local; ci_step := 1 |}.
Definition requested : CommandRequestedPayload := {|
  crq_id := command; crq_approval_request_id := None; crq_cwd := js "."; crq_executable := js "make"; crq_purpose := purpose_verify;
  crq_redacted_argv := [js "make"] |}.
Definition completed : CommandCompletedPayload := {|
  ccp_id := command; ccp_cleanup_verified := true; ccp_duration_ms := 3; ccp_error_code := None; ccp_exit_code := Some 0;
  ccp_signal := None; ccp_stderr_bytes := 0; ccp_stdout_bytes := 2; ccp_termination := term_exit; ccp_total_bytes := 2;
  ccp_truncated := false |}.
Definition commandEvents : list RunLogData := [
  log_event (ev_command_requested requested); log_event (ev_command_started command);
  log_event (ev_command_output {| cop_id := command; cop_bytes := 2; cop_channel := channel_stdout; cop_chunk := js "ok";
                                  cop_chunk_index := 0 |});
  log_event (ev_command_completed completed)].
Definition patchStart : PatchApplyStartedPayload := {|
  pas_approval_request_id := "a1"; pas_call_id := "c";
  pas_files := [{| pfs_kind := modify_change; pfs_path := js "a.ts"; pfs_post_sha256 := Some "after"%string;
                   pfs_pre_sha256 := Some "before"%string |}];
  pas_plan_id := "plan"; pas_rule_manifest_sha256 := None; pas_rule_scope_set_sha256 := None; pas_step := 1 |}.

Definition place (i : nat) (data : RunLogData) : DecodedRunEvent := {|
  de_sessionId := "s"; de_runId := "r1"; de_runSeq := Z.of_nat (S i); de_sessionSeq := Z.of_nat (S i); de_data := data |}.
Definition run (tool : string) (more : list RunLogData) : list DecodedRunEvent :=
  imap place (start :: selected :: step tool ++ more).
Definition commandRun : list DecodedRunEvent := run "run_command" commandEvents.
Definition patchRun : list DecodedRunEvent := run "apply_patch" [log_event (ev_patch_apply_started patchStart)].
(** The same call of a read, with its result. *)
Definition answeredRun : list DecodedRunEvent := run "read_file" [log_event (ev_tool_call_completed {|
  tcc_call_id := "c"; tcc_error_category := None; tcc_error_code := None; tcc_output := js "text"; tcc_retryable := None;
  tcc_status := tool_success; tcc_step := 1; tcc_tool_name := "read_file"; tcc_truncated := false |})].

(** ** The plans *)

Definition observe (path : jstring) : PatchFileObservation := observed_file path "before".
Definition ledgerOfRun (events : list DecodedRunEvent) : PendingEffectLedger :=
  match sessionLedger (fun s => standInHash s) [("r1"%string, events)] events with
  | Ok ledger => ledger
  | Err _ => {| pel_approvalsToExpire := []; pel_pendingPatches := []; pel_pendingToolCalls := [];
                pel_recoveredInnerEffects := []; pel_unknownCommands := []; pel_unknownMcpCalls := [];
                pel_unknownMcpServers := [] |}
  end.
Definition projectionOf (events : list DecodedRunEvent) : option jstring * BackendResumeProjection * VerifiedCheckpoints :=
  match buildProjection readExact backend events nothingVerified with
  | Ok built => built
  | Err _ => (None, baseProjection backend false None None false, nothingVerified)
  end.
Definition input (events : list DecodedRunEvent) (current : WorkspaceResumeFingerprint) (allow : bool)
  : ResumePlannerInput := {|
  rpi_allowDegradedResume := allow; rpi_approvedPlanContinuation := None; rpi_backend := (projectionOf events).1.2;
  rpi_currentFingerprint := current; rpi_expectedFingerprint := fingerprint; rpi_failedRunRecoverable := None;
  rpi_ledger := ledgerOfRun events; rpi_message := None;
  rpi_patchReconciliations := (fun effect => reconcilePendingPatchFromReader effect observe) <$> pel_pendingPatches (ledgerOfRun events);
  rpi_sessionId := "s"; rpi_sourceRunId := "r1"; rpi_sourceRunState := source_interrupted |}.
Definition planOf (events : list DecodedRunEvent) (current : WorkspaceResumeFingerprint) (allow : bool) : ResumePlan :=
  planResume (projectionOf events).2 "r2" (input events current allow).

(** The first run continues with the observation of its command. *)
Example command_plan : match planOf commandRun fingerprint false with
  | plan_ready plan => rrp_mode plan = resume_exact /\ ptc_callId <$> rrp_inheritedPendingCall plan = Some "c"%string /\
      is_Some (rrp_recoveredToolObservation plan)
  | plan_blocked _ => False
  end.
Proof. vm_compute. by eauto. Qed.

(** In a workspace that changed the call cannot be taken over. *)
Example changed_command_plan :
  match planOf commandRun changedWorkspace true with
  | plan_ready _ => False | plan_blocked refused => brs_reasons refused = [canonical_boundary_open]
  end.
Proof. vm_compute. reflexivity. Qed.

Definition readyPlanOf (events : list DecodedRunEvent) (current : WorkspaceResumeFingerprint) (allow : bool)
  : option ReadyResumePlan :=
  match planOf events current allow with plan_ready plan => Some plan | plan_blocked _ => None end.
Lemma readyPlanOf_ready events current allow plan :
  readyPlanOf events current allow = Some plan ->
  planResume (projectionOf events).2 "r2" (input events current allow) = plan_ready plan.
Proof. unfold readyPlanOf, planOf. destruct (planResume _ _ _); [by intros [= ->]|done]. Qed.

(** ** The witnesses *)

Lemma ready_plan_settles_effects_witness :
  commandCompleted commandRun "r1" "x" /\
  exists plan, readyPlanOf patchRun fingerprint false = Some plan /\
    (patchCompleted patchRun "r1" "plan" \/ exists fact planId files, fact ∈ rrp_reconciliations plan /\
       rcf_planId fact = "plan"%string /\ rcf_observed fact = patch_not_applied /\
       patch_reconciled planId patch_not_applied files ∈ rpi_patchReconciliations (input patchRun fingerprint false)).
Proof.
  split.
  - destruct (readyPlanOf commandRun fingerprint false) as [plan|] eqn:E; [|vm_compute in E; discriminate].
    eapply (ready_plan_settles_effects standInHash [("r1"%string, commandRun)] commandRun) with (d := requested);
      [|exact (readyPlanOf_ready _ _ _ _ E)|].
    + vm_compute. reflexivity.
    + exists (place 6 (log_event (ev_command_requested requested))). split_and!; [|done|done].
      apply (list_elem_of_lookup_2 _ 6). vm_compute. reflexivity.
  - destruct (readyPlanOf patchRun fingerprint false) as [plan|] eqn:E; [|vm_compute in E; discriminate].
    exists plan. split; [done|].
    eapply (ready_plan_settles_effects standInHash [("r1"%string, patchRun)] patchRun _ _
      (input patchRun fingerprint false) plan) with (d := patchStart);
      [|exact (readyPlanOf_ready _ _ _ _ E)|].
    + vm_compute. reflexivity.
    + exists (place 6 (log_event (ev_patch_apply_started patchStart))). split_and!; [|done|done].
      apply (list_elem_of_lookup_2 _ 6). vm_compute. reflexivity.
Defined.

Lemma ready_plan_keeps_calls_witness : exists plan, readyPlanOf commandRun fingerprint false = Some plan /\
  (answered commandRun "r1" "c" \/
   (rrp_mode plan = resume_exact /\ ptc_callId <$> rrp_inheritedPendingCall plan = Some "c"%string) /\
   exists observation,
     resultAt (take 9 commandRun) (place 9 (log_event (ev_command_completed completed))) observation /\
     rrp_recoveredToolObservation plan = Some observation).
Proof.
  destruct (readyPlanOf commandRun fingerprint false) as [plan|] eqn:E; [|vm_compute in E; discriminate].
  exists plan. split; [done|].
  eapply (ready_plan_keeps_calls readExact standInHash [("r1"%string, commandRun)] commandRun backend nothingVerified _ _ "r2"
    (input commandRun fingerprint false) plan) with
    (pre := take 9 commandRun) (x := place 9 (log_event (ev_command_completed completed))) (post := []);
    [|vm_compute; reflexivity|exact (readyPlanOf_ready _ _ _ _ E)|vm_compute; reflexivity|vm_compute; reflexivity|].
  - vm_compute. reflexivity.
  - by intros y c ?%not_elem_of_nil.
Defined.

Lemma exact_plan_is_identical_witness : exists plan, readyPlanOf commandRun fingerprint false = Some plan /\
  rrp_newRunId plan <> rrp_resumeOfRunId plan.
Proof.
  destruct (readyPlanOf commandRun fingerprint false) as [plan|] eqn:E; [|vm_compute in E; discriminate].
  exists plan. split; [done|].
  eapply (exact_plan_is_identical readExact commandRun backend nothingVerified _ _ "r2" (input commandRun fingerprint false) plan);
    [vm_compute; reflexivity|exact (readyPlanOf_ready _ _ _ _ E)|].
  vm_compute in E. by injection E as <-.
Defined.

Lemma degraded_plan_has_consent_witness : exists plan, readyPlanOf answeredRun changedWorkspace true = Some plan /\
  rrp_fingerprintMismatches plan <> [].
Proof.
  destruct (readyPlanOf answeredRun changedWorkspace true) as [plan|] eqn:E; [|vm_compute in E; discriminate].
  exists plan. split; [done|]. intros Hm.
  eapply (degraded_plan_has_consent _ _ _ _ (readyPlanOf_ready _ _ _ _ E)) in Hm; [discriminate Hm|].
  vm_compute in E. by injection E as <-.
Defined.

(** Without the consent the transcript is offered. *)
Lemma refused_plan_has_reasons_witness : exists refused plan,
  planOf answeredRun changedWorkspace false = plan_blocked refused /\ brs_reasons refused <> [] /\
  planResume (projectionOf answeredRun).2 "r2"
    (input answeredRun changedWorkspace false <| rpi_allowDegradedResume := true |>) = plan_ready plan.
Proof.
  destruct (planOf answeredRun changedWorkspace false) as [plan|refused] eqn:E; [vm_compute in E; discriminate|].
  destruct (refused_plan_has_reasons _ _ _ _ E) as [Hr Ho]. destruct Ho as (plan & Hplan & _).
  - vm_compute in E. injection E as <-. discriminate.
  - discriminate.
  - by exists refused, plan.
Defined.

Lemma patch_reconciled_iff_witness : forall file, file ∈ ppe_files (pendingPatchOf "r1" patchStart) ->
  distinguishable file /\ inState state_pre file (observe (ppf_path file)).
Proof.
  apply (patch_reconciled_iff observe (pendingPatchOf "r1" patchStart) state_pre); [done|].
  eexists. vm_compute. reflexivity.
Defined.

Lemma fingerprint_digest_binds_witness :
  compareWorkspaceResumeFingerprints fingerprint changedWorkspace <> [] /\
  workspaceResumeFingerprintSha256 standInHash fingerprint <> workspaceResumeFingerprintSha256 standInHash changedWorkspace.
Proof.
  assert (H : compareWorkspaceResumeFingerprints fingerprint changedWorkspace <> []) by (vm_compute; discriminate).
  split; [exact H|]. intros E. apply H.
  by apply (fingerprint_digest_binds standInHash standInHash_inj fingerprint changedWorkspace).
Defined.
End SamplePlan.
