(* ===== verification/CheckpointStore.v ===== *)
(** * The store of checkpoints

    [src/checkpoints/checkpoint-store.ts] with the identifiers of
    [sessions/session-path-policy.ts] and the rename of
    [sessions/rename-durability.ts]: the private artifact of a checkpoint is
    written under a name of its own, moved to its final name and read back; it is
    read only by the backend that wrote it, and only with the bytes of its
    reference.  A disk maps the paths of regular files and links; the checks of
    the directories and of the lock are answers of the environment. *)

From S2P Require Import Prelude JsString CanonicalJson Domain Events Utf8 Patch Completion Verification RunEvents RunLog PendingEffects ResumeEvidence BackendProjection.
From Stdlib Require Import Ascii.
#[local] Open Scope Z_scope.

(** ** Identifiers *)

Definition isLowerHex (c : ascii) : bool :=
  let n := Z.of_N (N_of_ascii c) in ((48 <=? n) && (n <=? 57)) || ((97 <=? n) && (n <=? 102)).

(** [/^[0-9a-f]{64}$/] *)
Definition isSha256 (s : string) : bool :=
  let l := String.list_ascii_of_string s in (length l =? 64)%nat && forallb isLowerHex l.

(** The groups of [CANONICAL_UUID], by the position of a character. *)
Definition uuidPosition (i : nat) (c : ascii) : bool :=
  if bool_decide (i ∈ [8; 13; 18; 23]%nat) then c === "-"%char
  else if (i =? 14)%nat then bool_decide (c ∈ String.list_ascii_of_string "12345678")
  else if (i =? 19)%nat then bool_decide (c ∈ String.list_ascii_of_string "89ab")
  else isLowerHex c.
Definition isCanonicalUuid (s : string) : bool :=
  let l := String.list_ascii_of_string s in (length l =? 36)%nat && forallb id (imap uuidPosition l).

(** ** The disk *)

Inductive ArtifactKind : Type := artifact_file | artifact_link | artifact_other.
#[export] Instance ArtifactKind_eq : EqDecision ArtifactKind.
Proof. solve_decision. Defined.
(** [art_private]: the mode gives nothing to the group or to others. *)
Record Artifact : Type := { art_bytes : list Z; art_kind : ArtifactKind; art_private : bool }.
#[export] Instance Artifact_eq : EqDecision Artifact.
Proof. solve_decision. Defined.
Notation Disk := (gmap string Artifact).

Inductive CheckpointStoreError : Type :=
| checkpoint_exists | checkpoint_hash_mismatch | store_identity_mismatch | checkpoint_invalid_reference
| checkpoint_private_mode_unverified | checkpoint_readback_mismatch | checkpoint_size_invalid
| checkpoint_write_incomplete | invalid_id | turn_number_invalid | lock_not_owned | paths_unsafe
| codec_failed (message : string) | file_exists | file_missing | installed_identity_invalid
| installed_readback_mismatch.

(** What the process is told from outside: the platform, whether the directories
    of a session can be prepared and are safe, whether the lock is owned at a
    check, whether a write was complete, and a fresh identifier. *)
Record StoreEnvironment : Type := {
  sen_win32 : bool; sen_directoriesSafe : string -> bool; sen_lockSession : string; sen_lockOwned : nat -> bool;
  sen_writeComplete : bool; sen_randomId : string; sen_workspace : string; sen_maximumBytes : Z }.

(** A computation on the disk that may throw. *)
Definition StoreM (A : Type) : Type := Disk -> result CheckpointStoreError A * Disk.
Definition store_ret {A} (a : A) : StoreM A := fun disk => (Ok a, disk).
Definition store_throw {A} (e : CheckpointStoreError) : StoreM A := fun disk => (Err e, disk).
Definition store_bind {A B} (m : StoreM A) (f : A -> StoreM B) : StoreM B :=
  fun disk => match m disk with (Ok a, disk) => f a disk | (Err e, disk) => (Err e, disk) end.
Definition require (b : bool) (e : CheckpointStoreError) : StoreM () := if b then store_ret () else store_throw e.
Definition readDisk : StoreM Disk := fun disk => (Ok disk, disk).
Definition setFile (path : string) (artifact : Artifact) : StoreM () := fun disk => (Ok (), <[path := artifact]> disk).
Declare Scope store_scope.
Notation "'let!' x := m 'in' k" := (store_bind m (fun x => k)) (at level 200, x pattern, right associativity) : store_scope.
Notation "m ;! k" := (store_bind m (fun _ => k)) (at level 100, right associativity) : store_scope.
#[local] Open Scope store_scope.

Section Store.
Context {Continuation : Type}.
Variable sha256 : list Z -> string.
Variable env : StoreEnvironment.

Definition checkpointDirectory (sessionId : string) : string :=
  (sen_workspace env ++ "/.bornagent/checkpoints/" ++ sessionId)%string.
Definition checkpointPath (sessionId checkpointId : string) : string :=
  (checkpointDirectory sessionId ++ "/" ++ checkpointId ++ ".bin")%string.
Definition temporaryPath (sessionId checkpointId tempId : string) : string :=
  (checkpointDirectory sessionId ++ "/" ++ checkpointId ++ "." ++ tempId ++ ".tmp")%string.
Definition relativeReference (sessionId checkpointId : string) : string :=
  (".bornagent/checkpoints/" ++ sessionId ++ "/" ++ checkpointId ++ ".bin")%string.

(** The verifier of Node: nothing can be verified on Windows. *)
Definition requirePreflight : StoreM () := require (negb (sen_win32 env)) checkpoint_private_mode_unverified.
Definition requireFilePrivate (path : string) : StoreM () :=
  let! disk := readDisk in
  match disk !! path with
  | None => store_throw file_missing
  | Some artifact => require (negb (sen_win32 env) && art_private artifact) checkpoint_private_mode_unverified
  end.
Definition assertOwned (check : nat) : StoreM () := require (sen_lockOwned env check) lock_not_owned.
Definition assertPathsSafe (sessionId : string) : StoreM () := require (sen_directoriesSafe env sessionId) paths_unsafe.

Definition assertMissing (path : string) : StoreM () :=
  let! disk := readDisk in require (disk !! path === None) checkpoint_exists.
(** The artifact itself is a regular file and no link; that no directory above
    it is a link or leaves the workspace, which the code asks again here with
    [assertContained] and [realpath], is part of [sen_directoriesSafe]. *)
Definition assertSafeArtifact (path : string) : StoreM () :=
  let! disk := readDisk in
  match disk !! path with
  | None => store_throw file_missing
  | Some artifact => require (art_kind artifact === artifact_file) checkpoint_invalid_reference
  end.
Definition readFile (path : string) : StoreM (list Z) :=
  let! disk := readDisk in
  match disk !! path with None => store_throw file_missing | Some artifact => store_ret (art_bytes artifact) end.

(** [open(path, "wx")] and the complete write; an incomplete write leaves the
    file behind. *)
Definition writeNew (path : string) (bytes : list Z) : StoreM () :=
  let! disk := readDisk in
  require (disk !! path === None) file_exists ;!
  (if sen_writeComplete env
   then setFile path {| art_bytes := bytes; art_kind := artifact_file; art_private := true |}
   else setFile path {| art_bytes := []; art_kind := artifact_file; art_private := true |} ;!
        store_throw checkpoint_write_incomplete).

(** [NodeRenameDurabilityPort.install] *)
Definition install (tempPath targetPath : string) (expectedBytes : list Z) : StoreM () :=
  let! disk := readDisk in
  match disk !! tempPath with
  | None => store_throw file_missing
  | Some artifact =>
      (fun disk => (Ok (), <[targetPath := artifact]> (delete tempPath disk))) ;!
      require (art_kind artifact === artifact_file) installed_identity_invalid ;!
      let! readback := readFile targetPath in
      require (readback === expectedBytes) installed_readback_mismatch
  end.

Record CheckpointWriteContext : Type := {
  cwc_checkpointId : string; cwc_runId : string; cwc_sessionId : string; cwc_turnNumber : Z }.
Record ExactCheckpointWriteRequest : Type := {
  cwr_codec : BackendCheckpointCodec Continuation; cwr_context : CheckpointWriteContext;
  cwr_continuation : Continuation; cwr_identity : BackendIdentity }.

(** [Number.isSafeInteger(n) && n > 0] *)
Definition positiveSafe (n : Z) : bool := (0 <? n) && (n <=? 9007199254740991).

Definition validateWriteRequest (request : ExactCheckpointWriteRequest) : StoreM () :=
  let context := cwr_context request in
  require (isCanonicalUuid (cwc_checkpointId context) && isCanonicalUuid (cwc_runId context) &&
           isCanonicalUuid (cwc_sessionId context)) invalid_id ;!
  require (positiveSafe (cwc_turnNumber context)) turn_number_invalid ;!
  require ((bcc_provider (cwr_codec request) === bid_provider (cwr_identity request)) &&
           (cwc_sessionId context === sen_lockSession env) &&
           negb (String.length (bcc_codecVersion (cwr_codec request)) =? 0)%nat) store_identity_mismatch.

Definition storedReference (request : ExactCheckpointWriteRequest) (bytes : list Z) : StoredCheckpointRef :=
  let context := cwr_context request in
  let identity := cwr_identity request in {|
  scr_adapter := bid_adapter identity; scr_adapterVersion := bid_adapterVersion identity;
  scr_bytes := Z.of_nat (length bytes); scr_checkpointId := cwc_checkpointId context;
  scr_codecVersion := bcc_codecVersion (cwr_codec request); scr_configFingerprint := bid_configFingerprint identity;
  scr_model := bid_model identity; scr_provider := bid_provider identity;
  scr_relativeRef := relativeReference (cwc_sessionId context) (cwc_checkpointId context);
  scr_runId := cwc_runId context; scr_sessionId := cwc_sessionId context; scr_sha256 := sha256 bytes;
  scr_turnNumber := cwc_turnNumber context |}.

Definition writeExact (request : ExactCheckpointWriteRequest) : StoreM StoredCheckpointRef :=
  let sessionId := cwc_sessionId (cwr_context request) in
  let checkpointId := cwc_checkpointId (cwr_context request) in
  validateWriteRequest request ;!
  assertOwned 0 ;!
  requirePreflight ;!
  assertPathsSafe sessionId ;!
  match bcc_encode (cwr_codec request) (cwr_continuation request) with
  | Err message => store_throw (codec_failed message)
  | Ok bytes =>
      require ((0 <? Z.of_nat (length bytes)) && (Z.of_nat (length bytes) <=? sen_maximumBytes env)) checkpoint_size_invalid ;!
      require (isCanonicalUuid (sen_randomId env)) invalid_id ;!
      let finalPath := checkpointPath sessionId checkpointId in
      let tempPath := temporaryPath sessionId checkpointId (sen_randomId env) in
      assertMissing finalPath ;!
      writeNew tempPath bytes ;!
      requireFilePrivate tempPath ;!
      assertOwned 1 ;!
      assertPathsSafe sessionId ;!
      assertMissing finalPath ;!
      install tempPath finalPath bytes ;!
      assertSafeArtifact finalPath ;!
      requireFilePrivate finalPath ;!
      let! readback := readFile finalPath in
      require ((readback === bytes) && (sha256 readback === sha256 bytes)) checkpoint_readback_mismatch ;!
      assertOwned 2 ;!
      store_ret (storedReference request bytes)
  end.

Definition validateReference (reference : StoredCheckpointRef) : StoreM () :=
  require (isCanonicalUuid (scr_checkpointId reference) && isCanonicalUuid (scr_runId reference) &&
           isCanonicalUuid (scr_sessionId reference) && isSha256 (scr_sha256 reference) &&
           positiveSafe (scr_bytes reference) && (scr_bytes reference <=? sen_maximumBytes env) &&
           positiveSafe (scr_turnNumber reference)) checkpoint_invalid_reference.

Definition referenceIdentity (identity : BackendIdentity) (reference : StoredCheckpointRef) : bool :=
  (bid_adapter identity === scr_adapter reference) && (bid_adapterVersion identity === scr_adapterVersion reference) &&
  (bid_configFingerprint identity === scr_configFingerprint reference) && (bid_model identity === scr_model reference) &&
  (bid_provider identity === scr_provider reference).

(** [readExact] up to the codec: the verified bytes. *)
Definition readArtifact (codec : BackendCheckpointCodec Continuation) (identity : BackendIdentity)
    (reference : StoredCheckpointRef) : StoreM (list Z) :=
  let path := checkpointPath (scr_sessionId reference) (scr_checkpointId reference) in
  validateReference reference ;!
  require ((bcc_provider codec === scr_provider reference) && (bcc_codecVersion codec === scr_codecVersion reference) &&
           referenceIdentity identity reference) store_identity_mismatch ;!
  requirePreflight ;!
  assertPathsSafe (scr_sessionId reference) ;!
  require (scr_relativeRef reference === relativeReference (scr_sessionId reference) (scr_checkpointId reference))
    checkpoint_invalid_reference ;!
  assertPathsSafe (scr_sessionId reference) ;!
  assertSafeArtifact path ;!
  requireFilePrivate path ;!
  let! bytes := readFile path in
  require ((Z.of_nat (length bytes) =? scr_bytes reference) && (sha256 bytes === scr_sha256 reference))
    checkpoint_hash_mismatch ;!
  store_ret bytes.
Definition readExact (codec : BackendCheckpointCodec Continuation) (identity : BackendIdentity)
    (reference : StoredCheckpointRef) : StoreM (option Continuation) :=
  let! bytes := readArtifact codec identity reference in
  match bcc_decode codec bytes identity with
  | Err message => store_throw (codec_failed message)
  | Ok continuation => store_ret continuation
  end.
End Store.

#[local] Open Scope store_scope.

(** ** What the store of checkpoints guarantees

    A checkpoint that was written is read back; writing one changes no file that
    was there; what is read has the bytes of its reference. *)

(** ** Computations that returned *)

Lemma store_bind_ok {A B} (m : StoreM A) (f : A -> StoreM B) disk b disk' :
  store_bind m f disk = (Ok b, disk') -> exists a disk1, m disk = (Ok a, disk1) /\ f a disk1 = (Ok b, disk').
Proof. unfold store_bind. destruct (m disk) as [[a|e] disk1]; [by exists a, disk1|done]. Qed.
Lemma require_ok b e disk u disk' : require b e disk = (Ok u, disk') -> b = true /\ disk' = disk.
Proof. unfold require. destruct b; intros H; by inversion H. Qed.

(** [stores H] inverts the statements of a computation that returned. *)
Ltac stores1 H :=
  match type of H with
  | store_bind _ _ _ = (Ok _, _) =>
      let a := fresh "a" in let d := fresh "disk" in let Hm := fresh "Hm" in
      apply store_bind_ok in H as (a & d & Hm & H); stores1 Hm; stores1 H
  | require _ _ _ = (Ok _, _) => let E := fresh "E" in apply require_ok in H as [E H]; subst
  | readDisk _ = (Ok _, _) => inversion H; subst; clear H
  | store_ret _ _ = (Ok _, _) => inversion H; subst; clear H
  | store_throw _ _ = (Ok _, _) => discriminate H
  | _ => idtac
  end.
Ltac stores H :=
  repeat (progress (stores1 H);
    try match type of H with (match ?x with _ => _ end) _ = (Ok _, _) => destruct x eqn:?; stores1 H end).

(** [wp I Q m disk]: from [disk], [m] leaves a disk with [I] on every path, and
    returns only with [Q]. *)
Definition wp {A} (I : Disk -> Prop) (Q : A -> Disk -> Prop) (m : StoreM A) (disk : Disk) : Prop :=
  match m disk with (Ok a, disk) => I disk /\ Q a disk | (Err _, disk) => I disk end.

Section Wp.
Context (I : Disk -> Prop).

Lemma store_wp_bind {A B} (m : StoreM A) (f : A -> StoreM B) Q disk :
  wp I (fun a disk => wp I Q (f a) disk) m disk -> wp I Q (store_bind m f) disk.
Proof. unfold wp, store_bind. destruct (m disk) as [[a|e] disk1]; [|done]. by intros [_ H]. Qed.
Lemma wp_require b e (Q : () -> Disk -> Prop) disk : I disk -> (b = true -> Q () disk) -> wp I Q (require b e) disk.
Proof. unfold wp, require. destruct b; cbn; auto. Qed.
Lemma store_wp_ret {A} (a : A) (Q : A -> Disk -> Prop) disk : I disk -> Q a disk -> wp I Q (store_ret a) disk.
Proof. done. Qed.
Lemma wp_throw {A} e (Q : A -> Disk -> Prop) disk : I disk -> wp I Q (store_throw e) disk.
Proof. done. Qed.
Lemma wp_readDisk (Q : Disk -> Disk -> Prop) disk : I disk -> Q disk disk -> wp I Q readDisk disk.
Proof. done. Qed.
Lemma wp_setFile path artifact (Q : () -> Disk -> Prop) disk :
  I (<[path := artifact]> disk) -> Q () (<[path := artifact]> disk) -> wp I Q (setFile path artifact) disk.
Proof. done. Qed.
End Wp.

Section Facts.
Context {Continuation : Type}.
Context (sha256 : list Z -> string) (env : StoreEnvironment).

(** ** The checks *)

Section Checks.
Context (I : Disk -> Prop).

Lemma wp_private path (Q : () -> Disk -> Prop) disk :
  I disk -> (forall a, disk !! path = Some a -> art_private a = true -> Q () disk) -> wp I Q (requireFilePrivate env path) disk.
Proof.
  intros HI HQ. apply store_wp_bind, wp_readDisk; [done|]. destruct (disk !! path) as [a|] eqn:E; [|by apply wp_throw].
  apply wp_require; [done|]. intros [_ Ha]%andb_true_iff. eauto.
Qed.
Lemma wp_missing path (Q : () -> Disk -> Prop) disk :
  I disk -> (disk !! path = None -> Q () disk) -> wp I Q (assertMissing path) disk.
Proof.
  intros HI HQ. apply store_wp_bind, wp_readDisk; [done|]. apply wp_require; [done|]. intros H%bool_decide_eq_true_1. auto.
Qed.
Lemma wp_safeArtifact path (Q : () -> Disk -> Prop) disk :
  I disk -> (forall a, disk !! path = Some a -> art_kind a = artifact_file -> Q () disk) -> wp I Q (assertSafeArtifact path) disk.
Proof.
  intros HI HQ. apply store_wp_bind, wp_readDisk; [done|]. destruct (disk !! path) as [a|] eqn:E; [|by apply wp_throw].
  apply wp_require; [done|]. intros H%bool_decide_eq_true_1. eauto.
Qed.
Lemma wp_readFile path (Q : list Z -> Disk -> Prop) disk :
  I disk -> (forall a, disk !! path = Some a -> Q (art_bytes a) disk) -> wp I Q (readFile path) disk.
Proof.
  intros HI HQ. apply store_wp_bind, wp_readDisk; [done|]. destruct (disk !! path) as [a|] eqn:E; [|by apply wp_throw].
  apply store_wp_ret; eauto.
Qed.
Lemma wp_validate (request : ExactCheckpointWriteRequest (Continuation:=Continuation)) (Q : () -> Disk -> Prop) disk :
  I disk ->
  (isCanonicalUuid (cwc_checkpointId (cwr_context request)) && isCanonicalUuid (cwc_runId (cwr_context request)) &&
     isCanonicalUuid (cwc_sessionId (cwr_context request)) = true ->
   positiveSafe (cwc_turnNumber (cwr_context request)) = true ->
   bcc_provider (cwr_codec request) = bid_provider (cwr_identity request) -> Q () disk) ->
  wp I Q (validateWriteRequest env request) disk.
Proof.
  intros HI HQ. apply store_wp_bind, wp_require; [done|]. intros Hid. apply store_wp_bind, wp_require; [done|]. intros Ht.
  apply wp_require; [done|]. intros Hp. apply HQ; [done|done|]. by returns.
Qed.
End Checks.

(** The steps that write: a new temporary file, moved to a final path. *)
Lemma wp_write {A} I tempPath finalPath bytes (k : StoreM A) (Q : A -> Disk -> Prop) disk sessionId :
  let new := {| art_bytes := bytes; art_kind := artifact_file; art_private := true |} in
  I disk ->
  (disk !! tempPath = None -> forall a, I (<[tempPath := a]> disk)) ->
  (disk !! tempPath = None -> disk !! finalPath = None -> tempPath <> finalPath ->
     I (<[finalPath := new]> (delete tempPath (<[tempPath := new]> disk))) /\
     wp I Q k (<[finalPath := new]> (delete tempPath (<[tempPath := new]> disk)))) ->
  wp I Q (writeNew env tempPath bytes ;! requireFilePrivate env tempPath ;! assertOwned env 1 ;!
          assertPathsSafe env sessionId ;! assertMissing finalPath ;! install tempPath finalPath bytes ;! k) disk.
Proof.
  intros new HI Htemp Hfinal. apply store_wp_bind. unfold writeNew. apply store_wp_bind, wp_readDisk; [done|].
  apply store_wp_bind, wp_require; [done|]. intros Ht%bool_decide_eq_true_1. specialize (Htemp Ht).
  destruct (sen_writeComplete env); [|by apply store_wp_bind, wp_setFile; [|apply wp_throw]].
  apply wp_setFile; [done|]. apply store_wp_bind, wp_private; [done|]. intros _ _ _.
  apply store_wp_bind, wp_require; [done|]. intros _. apply store_wp_bind, wp_require; [done|]. intros _.
  apply store_wp_bind, wp_missing; [done|]. intros Hf.
  assert (Hne : tempPath <> finalPath) by (intros <-; by rewrite lookup_insert_eq in Hf).
  rewrite lookup_insert_ne in Hf by done. destruct (Hfinal Ht Hf Hne) as [HI' HQ].
  apply store_wp_bind. unfold install. apply store_wp_bind, wp_readDisk; [done|]. rewrite lookup_insert_eq.
  apply store_wp_bind. split; [done|]. apply store_wp_bind, wp_require; [done|]. intros _.
  apply store_wp_bind, wp_readFile; [done|]. intros a Ha. by apply wp_require.
Qed.

(** What a write that returned has done. *)
Lemma wp_writeExact I (request : ExactCheckpointWriteRequest (Continuation:=Continuation)) disk :
  let sessionId := cwc_sessionId (cwr_context request) in
  let finalPath := checkpointPath env sessionId (cwc_checkpointId (cwr_context request)) in
  let tempPath := temporaryPath env sessionId (cwc_checkpointId (cwr_context request)) (sen_randomId env) in
  I disk ->
  (forall bytes, bcc_encode (cwr_codec request) (cwr_continuation request) = Ok bytes ->
     let new := {| art_bytes := bytes; art_kind := artifact_file; art_private := true |} in
     disk !! tempPath = None ->
     (forall a, I (<[tempPath := a]> disk)) /\
     (disk !! finalPath = None -> tempPath <> finalPath ->
        I (<[finalPath := new]> (delete tempPath (<[tempPath := new]> disk))))) ->
  wp I (fun reference disk' => exists bytes,
     let new := {| art_bytes := bytes; art_kind := artifact_file; art_private := true |} in
     bcc_encode (cwr_codec request) (cwr_continuation request) = Ok bytes /\
     reference = storedReference sha256 request bytes /\
     disk' = <[finalPath := new]> (delete tempPath (<[tempPath := new]> disk)) /\
     isCanonicalUuid (cwc_checkpointId (cwr_context request)) && isCanonicalUuid (cwc_runId (cwr_context request)) &&
       isCanonicalUuid sessionId = true /\
     positiveSafe (cwc_turnNumber (cwr_context request)) = true /\
     bcc_provider (cwr_codec request) = bid_provider (cwr_identity request) /\
     0 < Z.of_nat (length bytes) <= sen_maximumBytes env /\ sen_win32 env = false /\
     sen_directoriesSafe env sessionId = true)
    (writeExact sha256 env request) disk.
Proof.
  intros sessionId finalPath tempPath HI Hnew. unfold writeExact.
  apply store_wp_bind, wp_validate; [done|]. intros Hids Hturn Hprovider. apply store_wp_bind, wp_require; [done|]. intros _.
  apply store_wp_bind, wp_require; [done|]. intros Hwin%negb_true_iff. apply store_wp_bind, wp_require; [done|]. intros Hdir.
  destruct (bcc_encode _ _) as [bytes|message] eqn:Eb; [|by apply wp_throw].
  specialize (Hnew bytes eq_refl). cbv zeta in Hnew.
  apply store_wp_bind, wp_require; [done|]. intros [Hpos%Z.ltb_lt Hmax%Z.leb_le]%andb_true_iff.
  apply store_wp_bind, wp_require; [done|]. intros _. apply store_wp_bind, wp_missing; [done|]. intros _.
  apply wp_write; [done|by intros Ht; apply Hnew|]. intros Ht Hf Hne. destruct (Hnew Ht) as [_ HI'].
  specialize (HI' Hf Hne). split; [done|]. apply store_wp_bind, wp_safeArtifact; [done|]. intros _ _ _.
  apply store_wp_bind, wp_private; [done|]. intros _ _ _. apply store_wp_bind, wp_readFile; [done|]. intros a _.
  apply store_wp_bind, wp_require; [done|]. intros _. apply store_wp_bind, wp_require; [done|]. intros _.
  apply store_wp_ret; [done|]. exists bytes. by split_and!.
Qed.
End Facts.

(** ** Computations that return *)

Lemma run_bind {A B} (m : StoreM A) (f : A -> StoreM B) disk a disk1 :
  m disk = (Ok a, disk1) -> store_bind m f disk = f a disk1.
Proof. unfold store_bind. by intros ->. Qed.
Lemma run_require {A} b e (k : StoreM A) disk : b = true -> store_bind (require b e) (fun _ => k) disk = k disk.
Proof. by intros ->. Qed.
Lemma run_safe path disk a : disk !! path = Some a -> art_kind a = artifact_file -> assertSafeArtifact path disk = (Ok (), disk).
Proof. intros Hp Hk. unfold assertSafeArtifact, store_bind. cbn. rewrite Hp. unfold require. by rewrite bool_decide_eq_true_2. Qed.
Lemma run_private env path disk a :
  disk !! path = Some a -> art_private a = true -> sen_win32 env = false -> requireFilePrivate env path disk = (Ok (), disk).
Proof. intros Hp Ha Hw. unfold requireFilePrivate, store_bind. cbn. by rewrite Hp, Ha, Hw. Qed.
Lemma run_read path disk a : disk !! path = Some a -> readFile path disk = (Ok (art_bytes a), disk).
Proof. intros Hp. unfold readFile, store_bind. cbn. by rewrite Hp. Qed.

Lemma identity_ext a b :
  bid_adapter a = bid_adapter b -> bid_adapterVersion a = bid_adapterVersion b ->
  bid_configFingerprint a = bid_configFingerprint b -> bid_model a = bid_model b -> bid_provider a = bid_provider b -> a = b.
Proof. destruct a, b. cbn. congruence. Qed.

(** ** Properties *)

(** Writing a checkpoint overwrites nothing.  Whether it succeeds or fails, at
    any step, every file that was on the disk is there as it was; a checkpoint
    that exists is never replaced. *)
Theorem checkpoint_write_keeps_files {C} sha256 env (request : ExactCheckpointWriteRequest (Continuation:=C)) disk path artifact :
  disk !! path = Some artifact -> (writeExact sha256 env request disk).2 !! path = Some artifact.
Proof.
  intros Hp. pose proof (wp_writeExact sha256 env (fun disk => disk !! path = Some artifact) request disk Hp) as H.
  unfold wp in H. destruct (writeExact _ _ _ _) as [[reference|e] disk']; [apply H|apply H].
  all: intros bytes _ Ht; split; [intros a; rewrite lookup_insert_ne; congruence|];
    intros Hf Hne; rewrite lookup_insert_ne, lookup_delete_ne, lookup_insert_ne; congruence.
Qed.

(** C28: a checkpoint that was written is read back.  With the reference that the
    write returned, the codec and the identity that wrote it, the store reads
    the bytes that were encoded and hands them to the codec; it reads nothing
    for a backend of another identity. *)
Theorem checkpoint_round_trip {C} sha256 env (request : ExactCheckpointWriteRequest (Continuation:=C)) disk reference disk' :
  (forall bytes, isSha256 (sha256 bytes) = true) -> sen_maximumBytes env <= 9007199254740991 ->
  writeExact sha256 env request disk = (Ok reference, disk') ->
  exists bytes, bcc_encode (cwr_codec request) (cwr_continuation request) = Ok bytes /\
    readExact sha256 env (cwr_codec request) (cwr_identity request) reference disk' =
      (match bcc_decode (cwr_codec request) bytes (cwr_identity request) with
       | Ok continuation => Ok continuation | Err message => Err (codec_failed message) end, disk') /\
    forall identity, identity <> cwr_identity request ->
      readExact sha256 env (cwr_codec request) identity reference disk' = (Err store_identity_mismatch, disk').
Proof.
  intros Hsha Hmax Hw. pose proof (wp_writeExact sha256 env (fun _ => True) request disk I) as H. unfold wp in H.
  rewrite Hw in H. destruct H as (_ & bytes & He & -> & -> & Hids & Hturn & Hprovider & Hbytes & Hwin & Hdir); [done|].
  exists bytes. split; [done|].
  assert (Hvalid : forall k : StoreM (list Z), store_bind (validateReference env (storedReference sha256 request bytes)) (fun _ => k) = k).
  { intros k. unfold validateReference. cbn. rewrite Hids, Hturn, Hsha. unfold positiveSafe.
    rewrite (proj2 (Z.ltb_lt _ _)), !(proj2 (Z.leb_le _ _)) by lia. done. }
  split.
  - unfold readExact. erewrite run_bind.
    2: { unfold readArtifact. rewrite Hvalid. unfold referenceIdentity, requirePreflight, assertPathsSafe.
         rewrite run_require by (cbn; by rewrite !bool_decide_eq_true_2).
         rewrite run_require by (by rewrite Hwin). rewrite run_require by done.
         rewrite run_require by (by apply bool_decide_eq_true_2). rewrite run_require by done.
         erewrite run_bind by (eapply run_safe; [apply lookup_insert_eq|done]).
         erewrite run_bind by (eapply run_private; [apply lookup_insert_eq|done|done]).
         erewrite run_bind by (apply run_read, lookup_insert_eq).
         rewrite run_require by (cbn [art_bytes scr_bytes scr_sha256 storedReference];
           by rewrite Z.eqb_refl, bool_decide_eq_true_2). reflexivity. }
    cbn [art_bytes]. by destruct (bcc_decode _ _ _).
  - intros identity Hid. unfold readExact, readArtifact. rewrite Hvalid.
    destruct (referenceIdentity identity (storedReference sha256 request bytes)) eqn:E.
    + exfalso. apply Hid. unfold referenceIdentity in E. cbn in E. returns. by apply identity_ext.
    + rewrite andb_false_r. done.
Qed.

(** What is read from a checkpoint is what its reference says: a private
    regular file under the canonical path of the session, with the size and the
    digest of the reference, of the same backend and codec.  Reading changes
    nothing. *)
Theorem checkpoint_read_is_verified {C} sha256 env (codec : BackendCheckpointCodec C) identity reference disk c disk' :
  readExact sha256 env codec identity reference disk = (Ok c, disk') ->
  disk' = disk /\ exists artifact,
    disk !! checkpointPath env (scr_sessionId reference) (scr_checkpointId reference) = Some artifact /\
    art_kind artifact = artifact_file /\ art_private artifact = true /\
    Z.of_nat (length (art_bytes artifact)) = scr_bytes reference /\ sha256 (art_bytes artifact) = scr_sha256 reference /\
    bcc_decode codec (art_bytes artifact) identity = Ok c /\
    bid_provider identity = scr_provider reference /\ bid_model identity = scr_model reference /\
    bid_adapter identity = scr_adapter reference /\ bid_configFingerprint identity = scr_configFingerprint reference /\
    bcc_codecVersion codec = scr_codecVersion reference /\
    scr_relativeRef reference = relativeReference (scr_sessionId reference) (scr_checkpointId reference).
Proof.
  intros H. enough (Hwp : wp (fun d => d = disk) (fun c' d => exists artifact,
    disk !! checkpointPath env (scr_sessionId reference) (scr_checkpointId reference) = Some artifact /\
    art_kind artifact = artifact_file /\ art_private artifact = true /\
    Z.of_nat (length (art_bytes artifact)) = scr_bytes reference /\ sha256 (art_bytes artifact) = scr_sha256 reference /\
    bcc_decode codec (art_bytes artifact) identity = Ok c' /\
    bid_provider identity = scr_provider reference /\ bid_model identity = scr_model reference /\
    bid_adapter identity = scr_adapter reference /\ bid_configFingerprint identity = scr_configFingerprint reference /\
    bcc_codecVersion codec = scr_codecVersion reference /\
    scr_relativeRef reference = relativeReference (scr_sessionId reference) (scr_checkpointId reference))
    (readExact sha256 env codec identity reference) disk).
  { unfold wp in Hwp. by rewrite H in Hwp. }
  unfold readExact, readArtifact. apply store_wp_bind, store_wp_bind, wp_require; [done|]. intros _.
  apply store_wp_bind, wp_require; [done|]. intros Hid. apply store_wp_bind, wp_require; [done|]. intros _.
  apply store_wp_bind, wp_require; [done|]. intros _. apply store_wp_bind, wp_require; [done|]. intros Hrel%bool_decide_eq_true_1.
  apply store_wp_bind, wp_require; [done|]. intros _. apply store_wp_bind, wp_safeArtifact; [done|]. intros a Ha Hk.
  apply store_wp_bind, wp_private; [done|]. intros a1 Ha1 Hp. apply store_wp_bind, wp_readFile; [done|]. intros a2 Ha2.
  apply store_wp_bind, wp_require; [done|]. intros [Hl%Z.eqb_eq Hs%bool_decide_eq_true_1]%andb_true_iff. simplify_eq.
  apply store_wp_ret; [done|]. destruct (bcc_decode _ _ _) as [c'|] eqn:Ed; [|by apply wp_throw]. apply store_wp_ret; [done|].
  unfold referenceIdentity in Hid. returns. exists a. by split_and!.
Qed.

(** ** A sample checkpoint *)

Module SampleCheckpoint.
Definition identity : BackendIdentity := {|
  bid_adapter := "a"; bid_adapterVersion := "1"; bid_configFingerprint := "f"; bid_model := "m";
  bid_provider := provider_openai |}.
Definition codec : BackendCheckpointCodec (list Z) := {|
  bcc_codecVersion := "k1"; bcc_provider := provider_openai; bcc_encode := fun c => Ok c;
  bcc_decode := fun bytes _ => Ok (Some bytes) |}.
Definition env : StoreEnvironment := {|
  sen_win32 := false; sen_directoriesSafe := fun _ => true; sen_lockSession := "5f0c1f3e-0000-4000-8000-000000000001";
  sen_lockOwned := fun _ => true; sen_writeComplete := true; sen_randomId := "5f0c1f3e-0000-4000-8000-000000000009";
  sen_workspace := "/w"; sen_maximumBytes := 33554432 |}.
Definition context : CheckpointWriteContext := {|
  cwc_checkpointId := "5f0c1f3e-0000-4000-8000-000000000003"; cwc_runId := "5f0c1f3e-0000-4000-8000-000000000002";
  cwc_sessionId := "5f0c1f3e-0000-4000-8000-000000000001"; cwc_turnNumber := 1 |}.
Definition request : ExactCheckpointWriteRequest (Continuation := list Z) := {|
  cwr_codec := codec; cwr_context := context; cwr_continuation := [1; 2; 3]; cwr_identity := identity |}.
Definition digest (bytes : list Z) : string := "00000000000000000000000000000000000000000000000000000000000000ff".
Definition other : Artifact := {| art_bytes := [9]; art_kind := artifact_file; art_private := true |}.
Definition disk : Disk := {["/w/notes" := other]}.
Definition written : result CheckpointStoreError StoredCheckpointRef * Disk := writeExact digest env request disk.

Definition reference : StoredCheckpointRef := storedReference digest request [1; 2; 3].
Definition readBack : result CheckpointStoreError (option (list Z)) * Disk :=
  readExact digest env codec identity reference written.2.

Lemma pair_eq {A B} (p : A * B) a : p.1 = a -> p = (a, p.2).
Proof. by intros <-; destruct p. Qed.
Lemma written_ok : written = (Ok reference, written.2).
Proof. apply pair_eq. vm_compute. reflexivity. Qed.
Lemma readBack_ok : readBack = (Ok (Some [1; 2; 3]), readBack.2).
Proof. apply pair_eq. vm_compute. reflexivity. Qed.

Lemma checkpoint_write_keeps_files_witness : written.2 !! "/w/notes"%string = Some other.
Proof. apply (checkpoint_write_keeps_files digest env request disk). vm_compute. reflexivity. Defined.

Lemma checkpoint_round_trip_witness : exists bytes,
  bcc_encode (cwr_codec request) (cwr_continuation request) = Ok bytes /\
  readExact digest env codec (cwr_identity request) reference written.2 =
    (match bcc_decode codec bytes (cwr_identity request) with
     | Ok continuation => Ok continuation | Err message => Err (codec_failed message) end, written.2).
Proof.
  destruct (checkpoint_round_trip digest env request disk reference written.2) as (bytes & Hb & Hread & _);
    [by intros bytes|vm_compute; discriminate|exact written_ok|]. exists bytes. split; [exact Hb|exact Hread].
Defined.

Lemma checkpoint_read_is_verified_witness : readBack.2 = written.2.
Proof. exact (proj1 (checkpoint_read_is_verified digest env codec identity reference written.2 _ _ readBack_ok)). Defined.
End SampleCheckpoint.
