(* ===== verification/SessionLock.v ===== *)
(** * The lock of a session

    [src/sessions/session-lock.ts] and [process-identity.ts]: the processes of a
    host take, recover and release the lock file of one session.  Every access to
    the file system is a step of its own, in any order with the steps of the
    others; processes start and end at any time.

    A file is an inode with its bytes, and a directory entry names it, so that a
    process keeps writing to a file that another one has renamed.  Closing and
    syncing change nothing.  [lks_displaced] is not part of the program: it
    records the inodes that a recovery renamed although their bytes were not the
    ones it had assessed. *)

From S2P Require Import Prelude JsString ToolErrors CheckpointStore.
#[local] Open Scope Z_scope.

(** ** Data *)

Record ProcessIdentity : Type := { pid_pid : Z; pid_startIdentity : string }.
#[export] Instance ProcessIdentity_eq : EqDecision ProcessIdentity.
Proof. solve_decision. Defined.

(** [createdAt] in milliseconds *)
Record SessionLockRecord : Type := {
  slr_createdAt : Z; slr_hostFingerprint : string; slr_nonce : string; slr_process : ProcessIdentity;
  slr_sessionId : string }.
#[export] Instance SessionLockRecord_eq : EqDecision SessionLockRecord.
Proof. solve_decision. Defined.

(** The bytes of a file: nothing, the text of a record, or anything else. *)
Inductive LockBytes : Type := bytes_empty | bytes_record (record : SessionLockRecord) | bytes_other.
#[export] Instance LockBytes_eq : EqDecision LockBytes.
Proof. solve_decision. Defined.

Inductive SessionLockError : Type :=
| active_session_lock | invalid_session_lock | lock_identity_changed | session_lock_not_owned | lock_too_young
| lock_write_incomplete | unknown_session_lock_owner | lock_readback_mismatch | lock_file_missing | lock_io_error.
#[export] Instance SessionLockError_eq : EqDecision SessionLockError.
Proof. solve_decision. Defined.

Inductive ProcessIdentityProbeResult : Type := probe_different | probe_matching | probe_missing | probe_unknown.
#[export] Instance ProcessIdentityProbeResult_eq : EqDecision ProcessIdentityProbeResult.
Proof. solve_decision. Defined.
Inductive LockDisposition : Type := owner_active | owner_stale | owner_too_young | owner_unknown.
#[export] Instance LockDisposition_eq : EqDecision LockDisposition.
Proof. solve_decision. Defined.

(** [previousNonce] and [staleFileName], which the time and the nonce name. *)
Record SessionLockRecovery : Type := { slv_previousNonce : string; slv_staleFile : Z * string }.

(** Where an acquisition is: the step it makes next, or its outcome. *)
Inductive LockPoint : Type :=
| at_open (attempt : nat) (recovery : option SessionLockRecovery)
| at_write (recovery : option SessionLockRecovery) (inode : positive)
| at_verify (recovery : option SessionLockRecovery) (inode : positive)
| at_cleanup_read (error : SessionLockError)
| at_cleanup_unlink (error : SessionLockError)
| at_read (attempt : nat) (recovery : option SessionLockRecovery)
| at_assess (attempt : nat) (recovery : option SessionLockRecovery) (existing : LockBytes)
| at_reread (attempt : nat) (recovery : option SessionLockRecovery) (existing : LockBytes) (record : SessionLockRecord)
| at_rename (attempt : nat) (recovery : option SessionLockRecovery) (existing : LockBytes) (record : SessionLockRecord)
| at_readback (attempt : nat) (existing : LockBytes) (record : SessionLockRecord) (staleFile : Z * string)
| at_held (recovery : option SessionLockRecovery) (inode : positive)
| at_release (inode : positive)
| at_released
| at_failed (error : SessionLockError).

Record Acquisition : Type := {
  acq_record : SessionLockRecord; acq_allowStaleRecovery : bool; acq_minimumStaleAgeMs : Z; acq_point : LockPoint }.
#[export] Instance Acquisition_eta : Eta Acquisition := fun r =>
  Build_Acquisition (acq_record r) (acq_allowStaleRecovery r) (acq_minimumStaleAgeMs r) (acq_point r).

(** The host: the running processes, every start identity there was, the entry
    of the lock file, the stale files, the bytes of the inodes, and the
    acquisitions by their nonce. *)
Record LockState : Type := {
  lks_running : gmap Z string; lks_started : gset string; lks_lockFile : option positive;
  lks_staleFiles : gmap (Z * string) positive; lks_bytes : gmap positive LockBytes; lks_next : positive;
  lks_acquisitions : gmap string Acquisition; lks_displaced : gset positive }.
#[export] Instance LockState_eta : Eta LockState := fun r =>
  Build_LockState (lks_running r) (lks_started r) (lks_lockFile r) (lks_staleFiles r) (lks_bytes r) (lks_next r)
    (lks_acquisitions r) (lks_displaced r).

Section Lock.
(** The session and the host. *)
Variable sessionId hostFingerprint : string.

(** ** Reading a record *)

Definition lockRecordValid (r : SessionLockRecord) : bool :=
  isSha256 (slr_hostFingerprint r) && (0 <? pid_pid (slr_process r)) &&
  (pid_pid (slr_process r) <=? 9007199254740991) && isSha256 (pid_startIdentity (slr_process r)) &&
  isCanonicalUuid (slr_nonce r) && isCanonicalUuid (slr_sessionId r).
Definition parseLockRecord (bytes : LockBytes) : result SessionLockError SessionLockRecord :=
  match bytes with
  | bytes_record r => if lockRecordValid r then Ok r else Err invalid_session_lock
  | bytes_empty | bytes_other => Err invalid_session_lock
  end.

(** [NodeProcessIdentityProbe.probe] of a process with identity [own]. *)
Definition probeProcess (own : ProcessIdentity) (running : gmap Z string) (identity : ProcessIdentity)
  : ProcessIdentityProbeResult :=
  if negb ((0 <? pid_pid identity) && (pid_pid identity <=? 9007199254740991)) then probe_unknown
  else if pid_pid identity =? pid_pid own
  then if pid_startIdentity identity === pid_startIdentity own then probe_matching else probe_different
  else if running !! pid_pid identity === None then probe_missing else probe_unknown.

Definition assessSessionLockOwner (record : SessionLockRecord) (minimumStaleAgeMs now : Z)
    (processResult : ProcessIdentityProbeResult) : LockDisposition :=
  if slr_hostFingerprint record !== hostFingerprint then owner_unknown
  else match processResult with
       | probe_matching => owner_active
       | probe_missing | probe_different =>
           if now - slr_createdAt record <? minimumStaleAgeMs then owner_too_young else owner_stale
       | probe_unknown => owner_unknown
       end.

Definition fileBytes (st : LockState) (inode : option positive) : option LockBytes :=
  inode ≫= fun inode => lks_bytes st !! inode.

(** [assertOwned], and the check of [removeMatchingLock]. *)
Definition ownsRecord (existing record : SessionLockRecord) : bool :=
  (slr_nonce existing === slr_nonce record) && (slr_sessionId existing === slr_sessionId record) &&
  (pid_startIdentity (slr_process existing) === pid_startIdentity (slr_process record)).
Definition assertOwned (st : LockState) (record : SessionLockRecord) : bool :=
  match parseLockRecord <$> fileBytes st (lks_lockFile st) with
  | Some (Ok existing) => ownsRecord existing record
  | _ => false
  end.

(** ** The steps of an acquisition *)

(** What the step is told: whether its calls succeed, the time, and whether a
    write that failed left the whole text. *)
Record LockOracle : Type := { lo_ok : bool; lo_now : Z; lo_written : bool }.

Definition moveTo (nonce : string) (point : LockPoint) (st : LockState) : LockState :=
  st <| lks_acquisitions ::= alter (fun a => a <| acq_point := point |>) nonce |>.
Definition fail (nonce : string) (error : SessionLockError) : LockState -> LockState := moveTo nonce (at_failed error).
(** The next iteration of the loop, of eight. *)
Definition continueLoop (nonce : string) (attempt : nat) (recovery : option SessionLockRecovery) : LockState -> LockState :=
  if (S attempt <? 8)%nat then moveTo nonce (at_open (S attempt) recovery) else fail nonce unknown_session_lock_owner.

Definition acquireStep (oracle : LockOracle) (nonce : string) (a : Acquisition) (st : LockState) : LockState :=
  match acq_point a with
  | at_open attempt recovery =>
      if negb (lo_ok oracle) then fail nonce lock_io_error st
      else match lks_lockFile st with
           | Some _ => if acq_allowStaleRecovery a then moveTo nonce (at_read attempt recovery) st
                       else fail nonce active_session_lock st
           | None =>
               let inode := lks_next st in
               moveTo nonce (at_write recovery inode)
                 (st <| lks_lockFile := Some inode |> <| lks_bytes ::= <[inode := bytes_empty]> |>
                     <| lks_next := Pos.succ inode |>)
           end
  | at_write recovery inode =>
      if lo_ok oracle
      then moveTo nonce (at_verify recovery inode) (st <| lks_bytes ::= <[inode := bytes_record (acq_record a)]> |>)
      else moveTo nonce (at_cleanup_read lock_write_incomplete)
             (st <| lks_bytes ::= <[inode := if lo_written oracle then bytes_record (acq_record a) else bytes_other]> |>)
  | at_verify recovery inode =>
      if lo_ok oracle then moveTo nonce (at_held recovery inode) st else fail nonce lock_io_error st
  | at_cleanup_read error =>
      if assertOwned st (acq_record a) then moveTo nonce (at_cleanup_unlink error) st else fail nonce error st
  | at_cleanup_unlink error => fail nonce error (st <| lks_lockFile := None |>)
  | at_read attempt recovery =>
      match fileBytes st (lks_lockFile st) with
      | None => fail nonce lock_file_missing st
      | Some existing => moveTo nonce (at_assess attempt recovery existing) st
      end
  | at_assess attempt recovery existing =>
      match parseLockRecord existing with
      | Err error => fail nonce error st
      | Ok record =>
          if slr_sessionId record !== sessionId then fail nonce invalid_session_lock st
          else match assessSessionLockOwner record (acq_minimumStaleAgeMs a) (lo_now oracle)
                       (probeProcess (slr_process (acq_record a)) (lks_running st) (slr_process record)) with
               | owner_active => fail nonce active_session_lock st
               | owner_too_young => fail nonce lock_too_young st
               | owner_unknown => fail nonce unknown_session_lock_owner st
               | owner_stale => moveTo nonce (at_reread attempt recovery existing record) st
               end
      end
  | at_reread attempt recovery existing record =>
      match fileBytes st (lks_lockFile st) with
      | None => fail nonce lock_file_missing st
      | Some current =>
          if current === existing then moveTo nonce (at_rename attempt recovery existing record) st
          else fail nonce lock_identity_changed st
      end
  | at_rename attempt recovery existing record =>
      let staleFile := (lo_now oracle, slr_nonce record) in
      match lks_lockFile st with
      | None => continueLoop nonce attempt recovery st
      | Some inode =>
          moveTo nonce (at_readback attempt existing record staleFile)
            (st <| lks_lockFile := None |> <| lks_staleFiles ::= <[staleFile := inode]> |>
                <| lks_displaced ::= fun displaced =>
                     if fileBytes st (Some inode) === Some existing then displaced else {[inode]} ∪ displaced |>)
      end
  | at_readback attempt existing record staleFile =>
      if negb (lo_ok oracle) then fail nonce lock_io_error st
      else if fileBytes st (lks_staleFiles st !! staleFile) === Some existing
      then continueLoop nonce attempt
             (Some {| slv_previousNonce := slr_nonce record; slv_staleFile := staleFile |}) st
      else fail nonce lock_readback_mismatch st
  | at_held recovery inode =>
      if assertOwned st (acq_record a) then moveTo nonce (at_release inode) st
      else fail nonce session_lock_not_owned st
  | at_release inode =>
      match lks_lockFile st with
      | None => fail nonce lock_file_missing st
      | Some _ => moveTo nonce at_released (st <| lks_lockFile := None |>)
      end
  | at_released | at_failed _ => st
  end.

(** ** The host *)

Inductive LockAction : Type :=
| process_starts (pid : Z) (startIdentity : string)
| process_ends (pid : Z)
| acquire_begins (nonce : string) (pid : Z) (now minimumStaleAgeMs : Z) (allowStaleRecovery : bool)
| acquire_steps (nonce : string) (oracle : LockOracle).

Definition ownerRunning (st : LockState) (record : SessionLockRecord) : bool :=
  lks_running st !! pid_pid (slr_process record) === Some (pid_startIdentity (slr_process record)).

Definition lockAction (action : LockAction) (st : LockState) : option LockState :=
  match action with
  | process_starts pid startIdentity =>
      if (lks_running st !! pid === None) && negb (bool_decide (startIdentity ∈ lks_started st))
      then Some (st <| lks_running ::= <[pid := startIdentity]> |> <| lks_started ::= union {[startIdentity]} |>)
      else None
  | process_ends pid => Some (st <| lks_running ::= delete pid |>)
  | acquire_begins nonce pid now minimumStaleAgeMs allowStaleRecovery =>
      match lks_running st !! pid, lks_acquisitions st !! nonce with
      | Some startIdentity, None =>
          let record := {| slr_createdAt := now; slr_hostFingerprint := hostFingerprint; slr_nonce := nonce;
                           slr_process := {| pid_pid := pid; pid_startIdentity := startIdentity |};
                           slr_sessionId := sessionId |} in
          if lockRecordValid record then
            Some (st <| lks_acquisitions ::= <[nonce := {|
              acq_record := record; acq_allowStaleRecovery := allowStaleRecovery;
              acq_minimumStaleAgeMs := minimumStaleAgeMs; acq_point := at_open 0 None |}]> |>)
          else None
      | _, _ => None
      end
  | acquire_steps nonce oracle =>
      a ← lks_acquisitions st !! nonce;
      if ownerRunning st (acq_record a) then Some (acquireStep oracle nonce a st) else None
  end.

Definition lockStart : LockState := {|
  lks_running := ∅; lks_started := ∅; lks_lockFile := None; lks_staleFiles := ∅; lks_bytes := ∅; lks_next := 1;
  lks_acquisitions := ∅; lks_displaced := ∅ |}.

Inductive lock_step : LockState -> LockState -> Prop :=
| lock_acts action st st' : lockAction action st = Some st' -> lock_step st st'.
Definition lock_reachable : LockState -> Prop := rtc lock_step lockStart.

(** A running process for which [acquire] has returned its lock. *)
Definition holds (st : LockState) (nonce : string) : Prop :=
  exists a recovery inode, lks_acquisitions st !! nonce = Some a /\ ownerRunning st (acq_record a) = true /\
    acq_point a = at_held recovery inode.
End Lock.

(** ** What the lock of a session guarantees

    The invariants of the host: whose bytes a file has, whose lock a recovery
    takes, and where the lock file of a running holder is. *)

(** ** Parts of a point *)

(** The file that an acquisition has created and not given up. *)
Definition pointInode (point : LockPoint) : option positive :=
  match point with
  | at_write _ inode | at_verify _ inode | at_held _ inode | at_release inode => Some inode
  | _ => None
  end.
Definition pointRecovery (point : LockPoint) : option SessionLockRecovery :=
  match point with
  | at_open _ recovery | at_write recovery _ | at_verify recovery _ | at_read _ recovery | at_assess _ recovery _
  | at_reread _ recovery _ _ | at_rename _ recovery _ _ | at_held recovery _ => recovery
  | _ => None
  end.
(** The record that was assessed as stale, with its bytes. *)
Definition pointStale (point : LockPoint) : option (LockBytes * SessionLockRecord) :=
  match point with
  | at_reread _ _ existing record | at_rename _ _ existing record | at_readback _ existing record _ =>
      Some (existing, record)
  | _ => None
  end.

Section Facts.
Context (sessionId hostFingerprint : string).
Notation acquireStep := (acquireStep sessionId hostFingerprint).
Notation lockAction := (lockAction sessionId hostFingerprint).
Notation lock_reachable := (lock_reachable sessionId hostFingerprint).

(** ** The shape of a step *)

(** What a step does to the files. *)
Inductive FileChange : Type :=
| files_same | file_created | file_written (inode : positive) (bytes : LockBytes) | file_unlinked
| file_renamed (staleFile : Z * string) (inode : positive) (existing : LockBytes).
Definition applyChange (change : FileChange) (st : LockState) : LockState :=
  match change with
  | files_same => st
  | file_created => st <| lks_lockFile := Some (lks_next st) |> <| lks_bytes ::= <[lks_next st := bytes_empty]> |>
                       <| lks_next := Pos.succ (lks_next st) |>
  | file_written inode bytes => st <| lks_bytes ::= <[inode := bytes]> |>
  | file_unlinked => st <| lks_lockFile := None |>
  | file_renamed staleFile inode existing =>
      st <| lks_lockFile := None |> <| lks_staleFiles ::= <[staleFile := inode]> |>
         <| lks_displaced ::= fun displaced =>
              if fileBytes st (Some inode) === Some existing then displaced else {[inode]} ∪ displaced |>
  end.

(** The moves of an acquisition, with what each of them knows. *)
Inductive moves (st : LockState) (a : Acquisition) : FileChange -> LockPoint -> Prop :=
| moves_quietly point : pointInode point = None -> pointRecovery point = None \/ pointRecovery point = pointRecovery (acq_point a) ->
    pointStale point = None -> (forall error, point <> at_cleanup_unlink error) ->
    (forall attempt recovery existing, point = at_assess attempt recovery existing -> fileBytes st (lks_lockFile st) = Some existing) ->
    moves st a files_same point
| moves_create attempt recovery : acq_point a = at_open attempt recovery -> lks_lockFile st = None ->
    moves st a file_created (at_write recovery (lks_next st))
| moves_write recovery inode : acq_point a = at_write recovery inode ->
    moves st a (file_written inode (bytes_record (acq_record a))) (at_verify recovery inode)
| moves_write_failed recovery inode bytes error : acq_point a = at_write recovery inode ->
    bytes = bytes_record (acq_record a) \/ bytes = bytes_other ->
    moves st a (file_written inode bytes) (at_cleanup_read error)
| moves_verify recovery inode : acq_point a = at_verify recovery inode -> moves st a files_same (at_held recovery inode)
| moves_cleanup error : assertOwned st (acq_record a) = true -> moves st a files_same (at_cleanup_unlink error)
| moves_cleanup_unlink error error' : acq_point a = at_cleanup_unlink error -> moves st a file_unlinked (at_failed error')
| moves_assess attempt recovery existing record now : acq_point a = at_assess attempt recovery existing ->
    parseLockRecord existing = Ok record ->
    assessSessionLockOwner hostFingerprint record (acq_minimumStaleAgeMs a) now
      (probeProcess (slr_process (acq_record a)) (lks_running st) (slr_process record)) = owner_stale ->
    moves st a files_same (at_reread attempt recovery existing record)
| moves_reread attempt recovery existing record : acq_point a = at_reread attempt recovery existing record ->
    moves st a files_same (at_rename attempt recovery existing record)
| moves_rename attempt recovery existing record staleFile inode : acq_point a = at_rename attempt recovery existing record ->
    lks_lockFile st = Some inode ->
    moves st a (file_renamed staleFile inode existing) (at_readback attempt existing record staleFile)
| moves_recovered attempt existing record staleFile point : acq_point a = at_readback attempt existing record staleFile ->
    pointInode point = None -> pointStale point = None ->
    pointRecovery point = None \/
      pointRecovery point = Some {| slv_previousNonce := slr_nonce record; slv_staleFile := staleFile |} ->
    (forall error, point <> at_cleanup_unlink error) ->
    (forall attempt recovery existing, point <> at_assess attempt recovery existing) ->
    moves st a files_same point
| moves_release recovery inode : acq_point a = at_held recovery inode -> moves st a files_same (at_release inode)
| moves_unlink inode : acq_point a = at_release inode -> moves st a file_unlinked at_released.

Lemma fail_quiet st a error : moves st a files_same (at_failed error).
Proof. apply moves_quietly; naive_solver. Qed.

Lemma acquireStep_moves oracle nonce a st :
  lks_acquisitions st !! nonce = Some a ->
  acquireStep oracle nonce a st = st \/
  exists change point, moves st a change point /\
    acquireStep oracle nonce a st = moveTo nonce point (applyChange change st).
Proof.
  intros _. unfold SessionLock.acquireStep, fail.
  destruct (acq_point a) as [attempt recovery|recovery inode|recovery inode|error|error|attempt recovery|attempt recovery existing
    |attempt recovery existing record|attempt recovery existing record|attempt existing record staleFile|recovery inode|inode| |error] eqn:Ep;
    try (by left); right.
  - destruct (lo_ok oracle); cbn [negb]; [|by exists files_same; eexists; split; [apply fail_quiet|]].
    destruct (lks_lockFile st) as [inode|] eqn:El.
    + destruct (acq_allowStaleRecovery a); [|by exists files_same; eexists; split; [apply fail_quiet|]].
      exists files_same, (at_read attempt recovery). split; [|done]. apply moves_quietly; rewrite ?Ep; cbn; naive_solver.
    + exists file_created, (at_write recovery (lks_next st)). split; [by econstructor|done].
  - destruct (lo_ok oracle); [eexists (file_written _ _), _; split; [by eapply moves_write|done]|].
    exists (file_written inode (if lo_written oracle then bytes_record (acq_record a) else bytes_other)),
      (at_cleanup_read lock_write_incomplete).
    split; [eapply moves_write_failed; [done|destruct (lo_written oracle); auto]|done].
  - destruct (lo_ok oracle); [|by exists files_same; eexists; split; [apply fail_quiet|]].
    exists files_same, (at_held recovery inode). split; [by econstructor|done].
  - destruct (assertOwned st (acq_record a)) eqn:Eo; [|by exists files_same; eexists; split; [apply fail_quiet|]].
    exists files_same, (at_cleanup_unlink error). split; [by constructor|done].
  - exists file_unlinked, (at_failed error). split; [by econstructor|done].
  - destruct (fileBytes st (lks_lockFile st)) as [existing|] eqn:Eb; [|by exists files_same; eexists; split; [apply fail_quiet|]].
    exists files_same, (at_assess attempt recovery existing). split; [|done]. apply moves_quietly; rewrite ?Ep; cbn; naive_solver.
  - destruct (parseLockRecord existing) as [record|error] eqn:Er; [|by exists files_same; eexists; split; [apply fail_quiet|]].
    case_bool_decide; cbn [negb]; [|by exists files_same; eexists; split; [apply fail_quiet|]].
    destruct (assessSessionLockOwner _ _ _ _ _) eqn:Ea; try (by exists files_same; eexists; split; [apply fail_quiet|]).
    exists files_same, (at_reread attempt recovery existing record). split; [by econstructor|done].
  - destruct (fileBytes st (lks_lockFile st)) as [current|]; [|by exists files_same; eexists; split; [apply fail_quiet|]].
    case_bool_decide; [|by exists files_same; eexists; split; [apply fail_quiet|]].
    exists files_same, (at_rename attempt recovery existing record). split; [by econstructor|done].
  - destruct (lks_lockFile st) as [inode|] eqn:El.
    + eexists (file_renamed _ inode existing), _. split; [by econstructor|done].
    + unfold continueLoop, fail. destruct (S attempt <? 8)%nat; (exists files_same; eexists; split; [|done]); [|apply fail_quiet].
      apply moves_quietly; rewrite ?Ep; cbn; naive_solver.
  - destruct (lo_ok oracle); cbn [negb]; [|by exists files_same; eexists; split; [apply fail_quiet|]].
    case_bool_decide; [|by exists files_same; eexists; split; [apply fail_quiet|]].
    unfold continueLoop, fail. destruct (S attempt <? 8)%nat; (exists files_same; eexists; split; [|done]); [|apply fail_quiet].
    eapply moves_recovered; try done. by right.
  - destruct (assertOwned st (acq_record a)) eqn:Eo; [|by exists files_same; eexists; split; [apply fail_quiet|]].
    exists files_same, (at_release inode). split; [by econstructor|done].
  - destruct (lks_lockFile st); [|by exists files_same; eexists; split; [apply fail_quiet|]].
    exists file_unlinked, at_released. split; [by econstructor|done].
Qed.

(** ** The invariant *)

(** The acquisition with the record [r]. *)
Definition recorded (st : LockState) (r : SessionLockRecord) : Prop :=
  exists a, lks_acquisitions st !! slr_nonce r = Some a /\ acq_record a = r.
(** The bytes that the file of a point has. *)
Definition ownBytes (a : Acquisition) : LockBytes :=
  match acq_point a with at_write _ _ => bytes_empty | _ => bytes_record (acq_record a) end.

Record lock_inv (st : LockState) : Prop := {
  inv_key n a : lks_acquisitions st !! n = Some a ->
    slr_nonce (acq_record a) = n /\ lockRecordValid (acq_record a) = true /\
    pid_startIdentity (slr_process (acq_record a)) ∈ lks_started st;
  inv_running pid startIdentity : lks_running st !! pid = Some startIdentity -> startIdentity ∈ lks_started st;
  inv_bytes i r : lks_bytes st !! i = Some (bytes_record r) -> recorded st r;
  inv_existing n a attempt recovery r : lks_acquisitions st !! n = Some a ->
    acq_point a = at_assess attempt recovery (bytes_record r) -> recorded st r;
  inv_next i : is_Some (lks_bytes st !! i) -> (i < lks_next st)%positive;
  inv_inode n a i : lks_acquisitions st !! n = Some a -> pointInode (acq_point a) = Some i ->
    lks_bytes st !! i = Some (ownBytes a);
  inv_unique n a m b i : lks_acquisitions st !! n = Some a -> lks_acquisitions st !! m = Some b ->
    pointInode (acq_point a) = Some i -> pointInode (acq_point b) = Some i -> n = m;
  inv_stale n a existing r : lks_acquisitions st !! n = Some a -> pointStale (acq_point a) = Some (existing, r) ->
    parseLockRecord existing = Ok r /\ recorded st r /\ ownerRunning st r = false;
  inv_recovery n a recovery : lks_acquisitions st !! n = Some a -> pointRecovery (acq_point a) = Some recovery ->
    exists b, lks_acquisitions st !! slv_previousNonce recovery = Some b /\ ownerRunning st (acq_record b) = false;
  inv_lock n a i : lks_displaced st = ∅ -> lks_acquisitions st !! n = Some a -> ownerRunning st (acq_record a) = true ->
    pointInode (acq_point a) = Some i -> lks_lockFile st = Some i;
  inv_cleanup n a error : lks_displaced st = ∅ -> lks_acquisitions st !! n = Some a ->
    ownerRunning st (acq_record a) = true -> acq_point a = at_cleanup_unlink error ->
    exists j, lks_lockFile st = Some j /\ lks_bytes st !! j = Some (bytes_record (acq_record a)) }.

Lemma parse_bytes bytes r : parseLockRecord bytes = Ok r -> bytes = bytes_record r /\ lockRecordValid r = true.
Proof. destruct bytes; cbn; try done. destruct (lockRecordValid record) eqn:E; [|done]. intros. by simplify_eq. Qed.

(** Only its own record satisfies an acquisition. *)
Lemma assertOwned_spec st n a :
  lock_inv st -> lks_acquisitions st !! n = Some a -> assertOwned st (acq_record a) = true ->
  exists j, lks_lockFile st = Some j /\ lks_bytes st !! j = Some (bytes_record (acq_record a)).
Proof.
  intros Hst Ha. unfold assertOwned, fileBytes. destruct (lks_lockFile st) as [j|]; cbn; [|done].
  destruct (lks_bytes st !! j) as [bytes|] eqn:Eb; cbn; [|done]. destruct (parseLockRecord bytes) as [r|] eqn:Er; [|done].
  apply parse_bytes in Er as [-> _]. unfold ownsRecord. intros [[Hn _]%andb_true_iff _]%andb_true_iff.
  apply bool_decide_eq_true_1 in Hn. exists j. split; [done|].
  destruct (inv_bytes _ Hst _ _ Eb) as (a' & Ha' & <-). destruct (inv_key _ Hst _ _ Ha) as [Hna _].
  rewrite Hn, Hna, Ha in Ha'. by simplify_eq.
Qed.

(** ** A step keeps the invariant *)

Section Step.
Context (st : LockState) (nonce : string) (a : Acquisition) (change : FileChange) (point : LockPoint).
Context (Hst : lock_inv st) (Ha : lks_acquisitions st !! nonce = Some a) (Hrun : ownerRunning st (acq_record a) = true).
Context (Hmove : moves st a change point).
Let st' := moveTo nonce point (applyChange change st).

Lemma moved_acquisitions : lks_acquisitions st' = <[nonce := a <| acq_point := point |>]> (lks_acquisitions st).
Proof.
  subst st'. unfold moveTo. cbn. replace (lks_acquisitions (applyChange change st)) with (lks_acquisitions st) by by destruct change.
  apply map_eq. intros m. destruct (decide (m = nonce)) as [->|Hm].
  - by rewrite lookup_alter_eq, Ha, lookup_insert_eq.
  - by rewrite lookup_alter_ne, lookup_insert_ne.
Qed.
Lemma moved_running : lks_running st' = lks_running st /\ lks_started st' = lks_started st.
Proof. by destruct change. Qed.
Lemma moved_ownerRunning r : ownerRunning st' r = ownerRunning st r.
Proof. unfold ownerRunning. by rewrite (proj1 moved_running). Qed.

Lemma moved_lookup m b : lks_acquisitions st' !! m = Some b ->
  (m = nonce /\ b = a <| acq_point := point |>) \/ (m <> nonce /\ lks_acquisitions st !! m = Some b).
Proof.
  rewrite moved_acquisitions. intros [[<- <-]|[Hm Hb]]%lookup_insert_Some; [by left|by right].
Qed.
Lemma moved_record m b : lks_acquisitions st' !! m = Some b ->
  exists b', lks_acquisitions st !! m = Some b' /\ acq_record b' = acq_record b.
Proof. intros [[-> ->]|[_ Hb]]%moved_lookup; [by exists a|by exists b]. Qed.
Lemma kept_record m b : lks_acquisitions st !! m = Some b ->
  exists b', lks_acquisitions st' !! m = Some b' /\ acq_record b' = acq_record b.
Proof.
  intros Hb. rewrite moved_acquisitions. destruct (decide (m = nonce)) as [->|Hm].
  - rewrite lookup_insert_eq. simplify_eq. by eexists.
  - rewrite lookup_insert_ne by done. by eexists.
Qed.
Lemma moved_recorded r : recorded st r -> recorded st' r.
Proof. intros (b & Hb & <-). destruct (kept_record _ _ Hb) as (b' & Hb' & Hr). exists b'. by split. Qed.

(** The bytes of a file after the step: those before it, or what the step wrote. *)
Lemma moved_bytes i bytes : lks_bytes st' !! i = Some bytes ->
  lks_bytes st !! i = Some bytes \/ (i = lks_next st /\ change = file_created /\ bytes = bytes_empty) \/
  (change = file_written i bytes).
Proof.
  destruct change; cbn; auto; intros [[<- <-]|[_ ?]]%lookup_insert_Some; auto.
Qed.
Lemma kept_bytes i : is_Some (lks_bytes st !! i) -> (forall bytes, change <> file_written i bytes) ->
  lks_bytes st' !! i = lks_bytes st !! i.
Proof.
  intros Hi Hw. destruct change as [| |j bytes| |]; cbn; try done.
  - apply lookup_insert_ne. intros <-. apply (inv_next _ Hst) in Hi. lia.
  - apply lookup_insert_ne. intros ->. by edestruct Hw.
Qed.
(** What an acquisition writes to is its own. *)
Lemma written_own i bytes : change = file_written i bytes -> exists recovery, acq_point a = at_write recovery i.
Proof. inversion Hmove; naive_solver. Qed.

Lemma keeps_bytes i r : lks_bytes st' !! i = Some (bytes_record r) -> recorded st' r.
Proof.
  intros [Hb|[(_ & _ & ?)|Hc]]%moved_bytes; [by apply moved_recorded, (inv_bytes _ Hst i)|done|].
  assert (Hr : r = acq_record a) by (inversion Hmove; naive_solver). subst r.
  apply moved_recorded. destruct (inv_key _ Hst _ _ Ha) as [Hn _]. exists a. by rewrite Hn.
Qed.

Lemma keeps_inode m b i : lks_acquisitions st' !! m = Some b -> pointInode (acq_point b) = Some i ->
  lks_bytes st' !! i = Some (ownBytes b).
Proof.
  intros [[-> ->]|[Hm Hb]]%moved_lookup Hi.
  - cbn in Hi. unfold ownBytes. cbn. inversion Hmove; subst; simplify_eq/=;
      try (by rewrite lookup_insert_eq); try congruence.
    all: match goal with H : acq_point a = _ |- _ =>
      pose proof (inv_inode _ Hst nonce a i Ha ltac:(by rewrite H)) as Hb; unfold ownBytes in Hb; by rewrite H in Hb end.
  - pose proof (inv_inode _ Hst m b i Hb Hi) as Hbytes. rewrite kept_bytes; [done|by rewrite Hbytes|].
    intros bytes (recovery & Hp)%written_own. apply Hm. apply (inv_unique _ Hst m b nonce a i Hb Ha Hi). by rewrite Hp.
Qed.

Lemma inode_bound m b i : lks_acquisitions st !! m = Some b -> pointInode (acq_point b) = Some i -> (i < lks_next st)%positive.
Proof. intros Hb Hi. apply (inv_next _ Hst). by rewrite (inv_inode _ Hst m b i Hb Hi). Qed.

(** The file of a point is the one of the point before, or a new one. *)
Lemma moved_inode i : pointInode point = Some i -> pointInode (acq_point a) = Some i \/ i = lks_next st.
Proof.
  intros Hi. inversion Hmove; subst; simplify_eq/=; try congruence; try (by right);
    match goal with H : acq_point a = _ |- _ => rewrite H end; by left.
Qed.

Lemma keeps_unique n b m c i : lks_acquisitions st' !! n = Some b -> lks_acquisitions st' !! m = Some c ->
  pointInode (acq_point b) = Some i -> pointInode (acq_point c) = Some i -> n = m.
Proof.
  intros [[-> ->]|[Hn Hb]]%moved_lookup [[-> ->]|[Hm Hc]]%moved_lookup Hi Hj; cbn in *; [done| | |by eapply (inv_unique _ Hst)].
  - destruct (moved_inode _ Hi) as [Hi'| ->]; [by eapply (inv_unique _ Hst)|]. pose proof (inode_bound _ _ _ Hc Hj). lia.
  - destruct (moved_inode _ Hj) as [Hj'| ->]; [by eapply (inv_unique _ Hst)|]. pose proof (inode_bound _ _ _ Hb Hi). lia.
Qed.

Lemma keeps_existing m b attempt recovery r : lks_acquisitions st' !! m = Some b ->
  acq_point b = at_assess attempt recovery (bytes_record r) -> recorded st' r.
Proof.
  intros [[-> ->]|[Hm Hb]]%moved_lookup Hp; [|by eapply moved_recorded, (inv_existing _ Hst)]. cbn in Hp.
  apply moved_recorded. inversion Hmove; subst; simplify_eq/=; try congruence; try (by exfalso; naive_solver).
  match goal with H : forall attempt recovery existing, _ = _ -> fileBytes _ _ = _ |- _ => specialize (H _ _ _ eq_refl) end.
  unfold fileBytes in *. destruct (lks_lockFile st) as [i|]; [|done]. by eapply (inv_bytes _ Hst).
Qed.

Lemma keeps_next i : is_Some (lks_bytes st' !! i) -> (i < lks_next st')%positive.
Proof.
  intros [bytes [Hb|[(-> & -> & _)|Hc]]%moved_bytes].
  - pose proof (inv_next _ Hst i ltac:(by eexists)). destruct change; cbn; lia.
  - cbn. lia.
  - destruct (written_own _ _ Hc) as [recovery Hp]. pose proof (inode_bound _ _ i Ha ltac:(by rewrite Hp)).
    destruct change; cbn; lia.
Qed.

(** A process that is not running stays so; its record was assessed. *)
Lemma stale_owner record minimum now :
  assessSessionLockOwner hostFingerprint record minimum now
    (probeProcess (slr_process (acq_record a)) (lks_running st) (slr_process record)) = owner_stale ->
  ownerRunning st record = false.
Proof.
  unfold assessSessionLockOwner. destruct (negb _); [done|]. unfold probeProcess. destruct (negb _); [done|].
  destruct (Z.eqb_spec (pid_pid (slr_process record)) (pid_pid (slr_process (acq_record a)))) as [Hpid|Hpid].
  - case_bool_decide as Hid; [done|]. intros _. unfold ownerRunning in *. apply bool_decide_eq_false_2.
    apply bool_decide_eq_true_1 in Hrun. rewrite Hpid, Hrun. congruence.
  - case_bool_decide as Hm; [|done]. intros _. unfold ownerRunning. apply bool_decide_eq_false_2. by rewrite Hm.
Qed.

Lemma keeps_stale m b existing r : lks_acquisitions st' !! m = Some b -> pointStale (acq_point b) = Some (existing, r) ->
  parseLockRecord existing = Ok r /\ recorded st' r /\ ownerRunning st' r = false.
Proof.
  rewrite moved_ownerRunning. intros Hb Hs. enough (parseLockRecord existing = Ok r /\ recorded st r /\ ownerRunning st r = false)
    as (? & ? & ?) by (split_and!; [done|by apply moved_recorded|done]).
  apply moved_lookup in Hb as [[-> ->]|[Hm Hb]]; [|by eapply (inv_stale _ Hst)]. cbn in Hs.
  inversion Hmove; subst; simplify_eq/=; try congruence;
    try (eapply (inv_stale _ Hst); [exact Ha|]; match goal with H : acq_point a = _ |- _ => by rewrite H end).
  match goal with H : parseLockRecord _ = Ok _ |- _ => pose proof H as [-> _]%parse_bytes end.
  split_and!; [done| |by eapply stale_owner]. by eapply (inv_existing _ Hst).
Qed.

Lemma keeps_recovery m b recovery : lks_acquisitions st' !! m = Some b -> pointRecovery (acq_point b) = Some recovery ->
  exists c, lks_acquisitions st' !! slv_previousNonce recovery = Some c /\ ownerRunning st' (acq_record c) = false.
Proof.
  intros Hb Hr. enough (exists c, lks_acquisitions st !! slv_previousNonce recovery = Some c /\ ownerRunning st (acq_record c) = false)
    as (c & Hc & Hd).
  { destruct (kept_record _ _ Hc) as (c' & Hc' & Heq). exists c'. by rewrite moved_ownerRunning, Heq. }
  apply moved_lookup in Hb as [[-> ->]|[Hm Hb]]; [|by eapply (inv_recovery _ Hst)]. cbn in Hr.
  assert (Hkept : pointRecovery (acq_point a) = Some recovery ->
    exists c, lks_acquisitions st !! slv_previousNonce recovery = Some c /\ ownerRunning st (acq_record c) = false)
    by (intros; by eapply (inv_recovery _ Hst)).
  inversion Hmove; subst; simplify_eq/=; try congruence;
    try (apply Hkept; match goal with H : acq_point a = _ |- _ => by rewrite H end).
  - match goal with H : _ \/ _ |- _ => destruct H as [?|Heq] end; [congruence|]. apply Hkept. congruence.
  - match goal with H : _ \/ _ |- _ => destruct H as [?|Heq] end; [congruence|].
    rewrite Hr in Heq. simplify_eq/=.
    match goal with H : acq_point a = at_readback _ _ _ _ |- _ =>
      destruct (inv_stale _ Hst _ _ _ _ Ha ltac:(by rewrite H)) as (_ & (c & Hc & Heq) & Hd) end.
    exists c. by rewrite Heq.
Qed.

(** ** The lock file of a running holder *)

Lemma displaced_before : lks_displaced st' = ∅ -> lks_displaced st = ∅.
Proof. destruct change; cbn; try done. case_bool_decide; [done|]. set_solver. Qed.

(** A running process whose record the lock file has is not recovered from. *)
Lemma renamed_owner staleFile i existing r :
  change = file_renamed staleFile i existing -> lks_displaced st' = ∅ -> lks_lockFile st = Some i /\
  (lks_bytes st !! i = Some (bytes_record r) -> ownerRunning st r = false) /\ lks_bytes st !! i <> Some bytes_empty.
Proof.
  intros Hc Hd. subst change. inversion Hmove; subst. cbn in Hd. case_bool_decide as Hb; [|set_solver].
  destruct (inv_stale _ Hst nonce a existing record Ha) as (Hp & _ & Hdead);
    [match goal with H : acq_point a = at_rename _ _ _ _ |- _ => by rewrite H end|].
  apply parse_bytes in Hp as [-> _]. unfold fileBytes in Hb. cbn in Hb.
  split_and!; [done| |]; rewrite Hb; [|done]. intros ?. by simplify_eq.
Qed.

(** Who unlinks has the lock file. *)
Lemma unlinked_owner : change = file_unlinked -> lks_displaced st = ∅ ->
  (exists i, pointInode (acq_point a) = Some i /\ lks_lockFile st = Some i) \/
  (exists i, lks_lockFile st = Some i /\ lks_bytes st !! i = Some (bytes_record (acq_record a)) /\ pointInode (acq_point a) = None).
Proof.
  intros Hc Hd. inversion Hmove; subst; try done.
  - right. match goal with H : acq_point a = at_cleanup_unlink _ |- _ =>
      destruct (inv_cleanup _ Hst nonce a _ Hd Ha Hrun H) as (i & Hi & Hb); exists i; by rewrite H end.
  - left. match goal with H : acq_point a = at_release _ |- _ =>
      exists inode; rewrite H; split; [done|]; by apply (inv_lock _ Hst nonce a inode Hd Ha Hrun); rewrite H end.
Qed.

(** The record of a running acquisition is not the one of another. *)
Lemma own_record m b : m <> nonce -> lks_acquisitions st !! m = Some b -> acq_record b <> acq_record a.
Proof. intros Hm Hb E. destruct (inv_key _ Hst _ _ Ha) as [H1 _], (inv_key _ Hst _ _ Hb) as [H2 _]. congruence. Qed.

(** The lock file of another running acquisition stays where it is. *)
Lemma lock_stays m b i : lks_displaced st' = ∅ -> m <> nonce -> lks_acquisitions st !! m = Some b ->
  ownerRunning st (acq_record b) = true -> lks_lockFile st = Some i ->
  (pointInode (acq_point b) = Some i \/ lks_bytes st !! i = Some (bytes_record (acq_record b)) /\ pointInode (acq_point b) = None) ->
  lks_lockFile st' = Some i.
Proof.
  intros Hd Hm Hb Hrunb Hlock Hown. pose proof (displaced_before Hd) as Hd0.
  assert (Hbytes : lks_bytes st !! i = Some bytes_empty \/ lks_bytes st !! i = Some (bytes_record (acq_record b))).
  { destruct Hown as [Hi|[Hi _]]; [|by right]. rewrite (inv_inode _ Hst m b i Hb Hi). unfold ownBytes. destruct (acq_point b); auto. }
  assert (Hcases : change = file_created \/ change = file_unlinked \/
    (exists staleFile j existing, change = file_renamed staleFile j existing) \/ lks_lockFile st' = lks_lockFile st)
    by (subst st'; destruct change; cbn; naive_solver).
  destruct Hcases as [Hc|[Hc|[(staleFile & j & existing & Hc)|Hsame]]]; [| | |congruence].
  - exfalso. inversion Hmove; by simplify_eq.
  - exfalso. destruct (unlinked_owner Hc Hd0) as [(j & Hj & Hl)|(j & Hl & Hj & _)]; simplify_eq.
    + destruct Hown as [Hi|[Hi Hn]]; [apply Hm; by eapply (inv_unique _ Hst)|].
      pose proof (inv_inode _ Hst nonce a i Ha Hj) as Hbytes'. rewrite Hi in Hbytes'. unfold ownBytes in Hbytes'.
      apply (own_record m b Hm Hb). destruct (acq_point a); simplify_eq; done.
    + destruct Hbytes as [?|?]; simplify_eq. apply (own_record m b Hm Hb). congruence.
  - exfalso. destruct (renamed_owner staleFile j existing (acq_record b) Hc Hd) as (Hl & Hdead & Hne). simplify_eq.
    destruct Hbytes as [?|Hr]; [done|]. apply Hdead in Hr. congruence.
Qed.

Lemma keeps_lock m b i : lks_displaced st' = ∅ -> lks_acquisitions st' !! m = Some b -> ownerRunning st' (acq_record b) = true ->
  pointInode (acq_point b) = Some i -> lks_lockFile st' = Some i.
Proof.
  rewrite moved_ownerRunning. intros Hd [[-> ->]|[Hm Hb]]%moved_lookup Hrunb Hi.
  - cbn in Hi. pose proof (displaced_before Hd) as Hd0.
    inversion Hmove; subst; simplify_eq/=; try congruence;
      match goal with H : acq_point a = _ |- _ => apply (inv_lock _ Hst nonce a _ Hd0 Ha Hrun); by rewrite H end.
  - pose proof (inv_lock _ Hst m b i (displaced_before Hd) Hb Hrunb Hi) as Hl. eapply lock_stays; eauto.
Qed.

Lemma keeps_cleanup m b error : lks_displaced st' = ∅ -> lks_acquisitions st' !! m = Some b ->
  ownerRunning st' (acq_record b) = true -> acq_point b = at_cleanup_unlink error ->
  exists j, lks_lockFile st' = Some j /\ lks_bytes st' !! j = Some (bytes_record (acq_record b)).
Proof.
  rewrite moved_ownerRunning. intros Hd [[-> ->]|[Hm Hb]]%moved_lookup Hrunb Hp.
  - cbn in Hp. inversion Hmove; subst; simplify_eq/=; try (by exfalso; naive_solver).
    by eapply assertOwned_spec.
  - destruct (inv_cleanup _ Hst m b error (displaced_before Hd) Hb Hrunb Hp) as (j & Hl & Hj). exists j. split.
    + eapply lock_stays; eauto. right. by rewrite Hp.
    + rewrite kept_bytes; [done|by rewrite Hj|]. intros bytes (recovery & Hw)%written_own.
      pose proof (inv_inode _ Hst nonce a j Ha ltac:(by rewrite Hw)) as He. unfold ownBytes in He. rewrite Hw, Hj in He. done.
Qed.

Lemma step_inv : lock_inv st'.
Proof.
  split.
  - intros m b Hb. destruct (moved_record _ _ Hb) as (b' & Hb' & <-). rewrite (proj2 moved_running). by eapply (inv_key _ Hst).
  - rewrite (proj1 moved_running), (proj2 moved_running). apply (inv_running _ Hst).
  - apply keeps_bytes.
  - apply keeps_existing.
  - apply keeps_next.
  - apply keeps_inode.
  - apply keeps_unique.
  - apply keeps_stale.
  - apply keeps_recovery.
  - apply keeps_lock.
  - apply keeps_cleanup.
Qed.
End Step.

(** ** The other actions *)

(** Processes come and go; none comes back. *)
Lemma host_inv st st' :
  lock_inv st -> lks_acquisitions st' = lks_acquisitions st -> lks_bytes st' = lks_bytes st -> lks_next st' = lks_next st ->
  lks_lockFile st' = lks_lockFile st -> lks_displaced st' = lks_displaced st ->
  lks_started st ⊆ lks_started st' ->
  (forall pid startIdentity, lks_running st' !! pid = Some startIdentity -> startIdentity ∈ lks_started st') ->
  (forall pid startIdentity, lks_running st' !! pid = Some startIdentity -> startIdentity ∈ lks_started st ->
     lks_running st !! pid = Some startIdentity) ->
  lock_inv st'.
Proof.
  intros Hst Ha Hb Hn Hl Hd Hs Hr Hback.
  assert (Hlive : forall n a, lks_acquisitions st !! n = Some a -> ownerRunning st' (acq_record a) = true ->
    ownerRunning st (acq_record a) = true).
  { intros n a Hna. unfold ownerRunning. rewrite !bool_decide_eq_true. intros H. apply Hback; [done|].
    by apply (inv_key _ Hst n a Hna). }
  assert (Hdead : forall n a, lks_acquisitions st !! n = Some a -> ownerRunning st (acq_record a) = false ->
    ownerRunning st' (acq_record a) = false).
  { intros n a Hna H. destruct (ownerRunning st' (acq_record a)) eqn:E; [|done]. apply (Hlive n a Hna) in E. congruence. }
  split; unfold recorded; rewrite ?Ha, ?Hb, ?Hn, ?Hl, ?Hd.
  - intros n a Hna. destruct (inv_key _ Hst n a Hna) as (? & ? & ?). split_and!; [done..|set_solver].
  - done.
  - apply (inv_bytes _ Hst).
  - apply (inv_existing _ Hst).
  - apply (inv_next _ Hst).
  - apply (inv_inode _ Hst).
  - apply (inv_unique _ Hst).
  - intros n a existing r Hna Hp. destruct (inv_stale _ Hst n a existing r Hna Hp) as (? & (b & Hb' & <-) & ?).
    split_and!; [done|by exists b|by eapply Hdead].
  - intros n a recovery Hna Hp. destruct (inv_recovery _ Hst n a recovery Hna Hp) as (b & Hb' & ?).
    exists b. split; [done|by eapply Hdead].
  - intros n a i Hd0 Hna Hrun Hp. eapply (inv_lock _ Hst); eauto.
  - intros n a error Hd0 Hna Hrun Hp. eapply (inv_cleanup _ Hst); eauto.
Qed.

Lemma begin_inv st nonce a :
  lock_inv st -> lks_acquisitions st !! nonce = None -> slr_nonce (acq_record a) = nonce ->
  lockRecordValid (acq_record a) = true -> ownerRunning st (acq_record a) = true -> acq_point a = at_open 0 None ->
  lock_inv (st <| lks_acquisitions ::= <[nonce := a]> |>).
Proof.
  intros Hst Hfree Hkey Hvalid Hrun Hp. set (st' := st <| lks_acquisitions ::= <[nonce := a]> |>).
  assert (Hlook : forall m b, lks_acquisitions st' !! m = Some b -> (m = nonce /\ b = a) \/ lks_acquisitions st !! m = Some b).
  { intros m b Hb. cbn in Hb. apply lookup_insert_Some in Hb as [[<- <-]|[_ ?]]; auto. }
  assert (Hkeep : forall m b, lks_acquisitions st !! m = Some b -> lks_acquisitions st' !! m = Some b).
  { intros m b Hb. cbn. rewrite lookup_insert_ne; [done|]. intros ->. congruence. }
  assert (Hrec : forall r, recorded st r -> recorded st' r) by (intros r (b & Hb & <-); exists b; auto).
  split; try apply Hst.
  - intros m b [[-> ->]|Hb]%Hlook; [|by apply (inv_key _ Hst)]. split_and!; [done..|].
    apply (inv_running _ Hst (pid_pid (slr_process (acq_record a)))). by apply bool_decide_eq_true_1 in Hrun.
  - intros i r Hi. by apply Hrec, (inv_bytes _ Hst i).
  - intros m b attempt recovery r [[-> ->]|Hb]%Hlook Hpb; [congruence|]. by eapply Hrec, (inv_existing _ Hst).
  - intros m b i [[-> ->]|Hb]%Hlook Hi; [by rewrite Hp in Hi|by apply (inv_inode _ Hst m)].
  - intros m b n c i [[-> ->]|Hb]%Hlook [[-> ->]|Hc]%Hlook Hi Hj; [done| | |by eapply (inv_unique _ Hst)];
      [by rewrite Hp in Hi|by rewrite Hp in Hj].
  - intros m b existing r [[-> ->]|Hb]%Hlook Hs; [by rewrite Hp in Hs|].
    destruct (inv_stale _ Hst m b existing r Hb Hs) as (? & ? & ?). auto.
  - intros m b recovery [[-> ->]|Hb]%Hlook Hs; [by rewrite Hp in Hs|].
    destruct (inv_recovery _ Hst m b recovery Hb Hs) as (c & Hc & ?). eauto.
  - intros m b i Hd [[-> ->]|Hb]%Hlook Hrb Hi; [by rewrite Hp in Hi|by apply (inv_lock _ Hst m b i)].
  - intros m b error Hd [[-> ->]|Hb]%Hlook Hrb Hi; [congruence|by eapply (inv_cleanup _ Hst)].
Qed.

Lemma lockAction_inv action st st' : lock_inv st -> lockAction action st = Some st' -> lock_inv st'.
Proof.
  intros Hst. destruct action as [pid id|pid|nonce pid now minimum allow|nonce oracle]; cbn [SessionLock.lockAction].
  - destruct (_ && _) eqn:E; [|done]. intros [= <-]. apply andb_true_iff in E as [_ Hnew].
    apply negb_true_iff, bool_decide_eq_false_1 in Hnew. apply (host_inv st); try done; cbn.
    + set_solver.
    + intros p i [[<- <-]|[_ Hi]]%lookup_insert_Some; [set_solver|]. apply (inv_running _ Hst) in Hi. set_solver.
    + by intros p i [[<- <-]|[_ Hi]]%lookup_insert_Some.
  - intros [= <-]. apply (host_inv st); try done; cbn; intros p i [_ Hi]%lookup_delete_Some; [|done].
    by apply (inv_running _ Hst) in Hi.
  - destruct (lks_running st !! pid) as [id|] eqn:Er; [|done]. destruct (lks_acquisitions st !! nonce) eqn:Ea; [done|].
    destruct (lockRecordValid _) eqn:Ev; [|done]. intros [= <-]. apply begin_inv; try done.
    unfold ownerRunning. cbn. by apply bool_decide_eq_true_2.
  - intros (a & Ha & H)%bind_Some. destruct (ownerRunning st (acq_record a)) eqn:Hrun; [|done]. injection H as <-.
    destruct (acquireStep_moves oracle nonce a st Ha) as [->|(change & point & Hmove & ->)]; [done|].
    by apply (step_inv st nonce a).
Qed.

Lemma lock_reachable_inv st : lock_reachable st -> lock_inv st.
Proof.
  apply rtc_ind_r; [split; cbn; try set_solver; intros; by simplify_map_eq|].
  intros st1 st2 _ [action st3 st4 H] Hst. by eapply lockAction_inv.
Qed.
End Facts.

(** ** Properties *)

(** C24: without a race between recoveries the lock is exclusive, whatever the
    order of the steps of the processes and whenever one of them ends: of the
    running processes at most one has the lock, and the lock file is its own. *)
Theorem session_lock_exclusive sessionId hostFingerprint st :
  lock_reachable sessionId hostFingerprint st -> lks_displaced st = ∅ ->
  (forall n a recovery inode, lks_acquisitions st !! n = Some a -> ownerRunning st (acq_record a) = true ->
     acq_point a = at_held recovery inode -> assertOwned st (acq_record a) = true) /\
  forall n m, holds st n -> holds st m -> n = m.
Proof.
  intros Hst%lock_reachable_inv Hd. split.
  - intros n a recovery inode Ha Hrun Hp. pose proof (inv_lock _ Hst n a inode Hd Ha Hrun ltac:(by rewrite Hp)) as Hl.
    pose proof (inv_inode _ Hst n a inode Ha ltac:(by rewrite Hp)) as Hb. unfold ownBytes in Hb. rewrite Hp in Hb.
    unfold assertOwned, fileBytes. rewrite Hl. cbn. rewrite Hb. cbn. destruct (inv_key _ Hst n a Ha) as (_ & -> & _).
    unfold ownsRecord. by rewrite !bool_decide_eq_true_2.
  - intros n m (a & ra & i & Ha & Hra & Hpa) (b & rb & j & Hb & Hrb & Hpb).
    pose proof (inv_lock _ Hst n a i Hd Ha Hra ltac:(by rewrite Hpa)) as Hi.
    pose proof (inv_lock _ Hst m b j Hd Hb Hrb ltac:(by rewrite Hpb)) as Hj.
    rewrite Hi in Hj. injection Hj as <-. eapply (inv_unique _ Hst n a m b i); [done..|by rewrite Hpa|by rewrite Hpb].
Qed.

(** A lock is never recovered from a process that runs.  Whoever has a lock
    that it recovered took it from an acquisition whose process has ended; and
    with or without races, [assertOwned] holds for one acquisition at a time. *)
Theorem recovered_lock_was_stale sessionId hostFingerprint st :
  lock_reachable sessionId hostFingerprint st ->
  (forall n a recovery inode, lks_acquisitions st !! n = Some a -> acq_point a = at_held (Some recovery) inode ->
     exists b, lks_acquisitions st !! slv_previousNonce recovery = Some b /\ ownerRunning st (acq_record b) = false) /\
  (forall n a m b, lks_acquisitions st !! n = Some a -> lks_acquisitions st !! m = Some b ->
     assertOwned st (acq_record a) = true -> assertOwned st (acq_record b) = true -> n = m).
Proof.
  intros Hst%lock_reachable_inv. split.
  - intros n a recovery inode Ha Hp. apply (inv_recovery _ Hst n a); [done|by rewrite Hp].
  - intros n a m b Ha Hb Hoa Hob. destruct (assertOwned_spec st n a Hst Ha Hoa) as (i & Hi & Hra).
    destruct (assertOwned_spec st m b Hst Hb Hob) as (j & Hj & Hrb). simplify_eq.
    destruct (inv_key _ Hst n a Ha) as [<- _], (inv_key _ Hst m b Hb) as [<- _]. congruence.
Qed.

(** ** Sample runs *)

Module SampleLock.
Definition session : string := "5f0c1f3e-0000-4000-8000-000000000001".
Definition host : string := "00000000000000000000000000000000000000000000000000000000000000aa".
Definition identity1 : string := "0000000000000000000000000000000000000000000000000000000000000001".
Definition identity2 : string := "0000000000000000000000000000000000000000000000000000000000000002".
Definition identity3 : string := "0000000000000000000000000000000000000000000000000000000000000003".
Definition identity4 : string := "0000000000000000000000000000000000000000000000000000000000000004".
Definition nonce1 : string := "5f0c1f3e-0000-4000-8000-000000000011".
Definition nonce2 : string := "5f0c1f3e-0000-4000-8000-000000000012".
Definition nonce3 : string := "5f0c1f3e-0000-4000-8000-000000000013".
Definition nonce4 : string := "5f0c1f3e-0000-4000-8000-000000000014".

Definition steps (count : nat) (nonce : string) (now : Z) : list LockAction :=
  repeat (acquire_steps nonce {| lo_ok := true; lo_now := now; lo_written := false |}) count.
Definition runLock (actions : list LockAction) : option LockState :=
  foldl (fun st action => st ≫= lockAction session host action) (Some lockStart) actions.

Lemma runLock_reachable actions st : runLock actions = Some st -> lock_reachable session host st.
Proof.
  unfold runLock. revert st. induction actions as [|action actions IH] using rev_ind; intros st H.
  { injection H as <-. apply rtc_refl. }
  rewrite foldl_snoc in H. apply bind_Some in H as (st1 & H1 & H). eapply rtc_r; [by apply IH|]. by exists action.
Qed.

(** The first process takes the lock and ends. *)
Definition ended : list LockAction :=
  [process_starts 1 identity1; acquire_begins nonce1 1 0 30000 true] ++ steps 3 nonce1 0 ++ [process_ends 1].
(** The second one recovers it: two accesses to find the lock, four to move it,
    three to take it. *)
Definition recovered : list LockAction :=
  ended ++ [process_starts 2 identity2; acquire_begins nonce2 2 40000 30000 true] ++ steps 9 nonce2 40000.

Definition holdsb (st : LockState) (nonce : string) : bool :=
  match lks_acquisitions st !! nonce with
  | Some a => ownerRunning st (acq_record a) && match acq_point a with at_held _ _ => true | _ => false end
  | None => false
  end.
Lemma holdsb_holds st nonce : holdsb st nonce = true -> holds st nonce.
Proof.
  unfold holdsb. destruct (lks_acquisitions st !! nonce) as [a|] eqn:E; [|done]. intros [Hr Hp]%andb_true_iff.
  destruct (acq_point a) eqn:Ep; try done. by repeat eexists.
Qed.

Definition stateAfter (actions : list LockAction) : LockState := default lockStart (runLock actions).

Lemma session_lock_exclusive_witness : holds (stateAfter recovered) nonce2 /\ ~ holds (stateAfter recovered) nonce1.
Proof.
  assert (H2 : holds (stateAfter recovered) nonce2) by (apply holdsb_holds; vm_compute; reflexivity).
  split; [exact H2|]. intros H1.
  enough (nonce1 = nonce2) by discriminate. apply (session_lock_exclusive session host (stateAfter recovered)); [| |exact H1|exact H2].
  - apply (runLock_reachable recovered). vm_compute. reflexivity.
  - vm_compute. reflexivity.
Defined.

Lemma recovered_lock_was_stale_witness :
  exists b, lks_acquisitions (stateAfter recovered) !! nonce1 = Some b /\ ownerRunning (stateAfter recovered) (acq_record b) = false.
Proof.
  assert (Hr : lock_reachable session host (stateAfter recovered)) by (apply (runLock_reachable recovered); vm_compute; reflexivity).
  destruct (lks_acquisitions (stateAfter recovered) !! nonce2) as [a|] eqn:E; [|vm_compute in E; discriminate E].
  apply (proj1 (recovered_lock_was_stale session host _ Hr) nonce2 a
    {| slv_previousNonce := nonce1; slv_staleFile := (40000, nonce1) |} 2%positive E).
  vm_compute in E. injection E as <-. reflexivity.
Defined.

(** ** The race of two recoveries *)

(** The second and the third process both find the lock stale and read it again;
    then the second one moves it away and takes the lock, and the third one moves
    the new lock.  Its readback fails, but the fourth process finds no lock. *)
Definition raced : list LockAction :=
  ended ++ [process_starts 2 identity2; process_starts 3 identity3; process_starts 4 identity4;
            acquire_begins nonce2 2 40000 30000 true; acquire_begins nonce3 3 40000 30000 true;
            acquire_begins nonce4 4 40000 30000 true]
    ++ steps 4 nonce2 40000 ++ steps 4 nonce3 40000 ++ steps 5 nonce2 40000 ++ steps 2 nonce3 40001 ++ steps 3 nonce4 40002.
End SampleLock.

(** C25: the race breaks the lock.  There is a run of the host in which two
    running processes both have the lock of the session at the same time;
    [assertOwned] holds for only one of them. *)
Theorem stale_recovery_race : exists st n m,
  lock_reachable SampleLock.session SampleLock.host st /\ n <> m /\ holds st n /\ holds st m /\
  forall a, lks_acquisitions st !! n = Some a -> assertOwned st (acq_record a) = false.
Proof.
  exists (SampleLock.stateAfter SampleLock.raced), SampleLock.nonce2, SampleLock.nonce4. split_and!.
  - apply (SampleLock.runLock_reachable SampleLock.raced). vm_compute. reflexivity.
  - discriminate.
  - apply SampleLock.holdsb_holds. vm_compute. reflexivity.
  - apply SampleLock.holdsb_holds. vm_compute. reflexivity.
  - intros a Ha. vm_compute in Ha. injection Ha as <-. vm_compute. reflexivity.
Qed.
