(* ===== verification/SessionStore.v ===== *)
(** * The file of a session

    [src/sessions/durable-session-store.ts], [tail-recovery.ts] and
    [read-stored-session.ts]: events are appended to the file of a session as
    lines of JSON, each synced before the next; a writer that opens the file
    repairs a tail that a crash has cut; a reader never repairs.

    A file is its bytes.  Every call to the file system asks the environment for
    its answer: done, or a fault after some of the bytes have landed; what follows
    a fault is an exception or the end of the process, which leave the same files.
    The decoder of the lines is the caller's, with a state of its own.  The checks
    of the lock, of the directories and of the identity of the open file change
    nothing and are answers. *)

From S2P Require Import Prelude JsString Utf8 JsonParse CheckpointStore.
From stdpp Require Import pretty.
#[local] Open Scope Z_scope.

(** ** Errors and answers *)

Inductive SessionStoreError : Type :=
| append_write_incomplete | encoded_line_invalid | session_store_closed | session_store_poisoned
| session_store_poisoned_lock_preserved
| interior_corruption | recovery_readback_mismatch | stored_event_rejected | tail_not_json_object | write_incomplete
| recovery_nonce_invalid | call_failed | renamed_readback_mismatch.
#[export] Instance SessionStoreError_eq : EqDecision SessionStoreError.
Proof. solve_decision. Defined.

(** [io_fault n]: the call throws, or the process ends in it, after [n] bytes
    have landed (for a rename: after it was made, when [n] is not zero). *)
Inductive IoAnswer : Type := io_done | io_fault (landed : nat).

Record World : Type := { wd_files : gmap string (list Z); wd_answers : list IoAnswer }.
#[export] Instance World_eta : Eta World := fun w => Build_World (wd_files w) (wd_answers w).

(** A computation that may throw. *)
Definition SessionM (A : Type) : Type := World -> result SessionStoreError A * World.
#[export] Instance SessionM_ret : MRet SessionM := fun A a w => (Ok a, w).
#[export] Instance SessionM_bind : MBind SessionM :=
  fun A B f m w => match m w with (Ok a, w) => f a w | (Err e, w) => (Err e, w) end.
Definition throw {A} (e : SessionStoreError) : SessionM A := fun w => (Err e, w).
Definition lift {A} (r : result SessionStoreError A) : SessionM A := fun w => (r, w).

(** ** Calls *)

Definition nextAnswer : SessionM IoAnswer := fun w =>
  match wd_answers w with [] => (Ok io_done, w) | a :: rest => (Ok a, w <| wd_answers := rest |>) end.
Definition getFile (path : string) : SessionM (option (list Z)) := fun w => (Ok (wd_files w !! path), w).
Definition putFile (path : string) (bytes : list Z) : SessionM () := fun w =>
  (Ok (), w <| wd_files ::= insert path bytes |>).
Definition removeFile (path : string) : SessionM () := fun w => (Ok (), w <| wd_files ::= delete path |>).

(** A call that changes no file. *)
Definition call : SessionM () :=
  a ← nextAnswer; match a with io_done => mret () | io_fault _ => throw call_failed end.

(** [open(path, "wx")], the write, [sync] and [close]. *)
Definition createFile (path : string) (bytes : list Z) : SessionM () :=
  _ ← call;
  existing ← getFile path;
  match existing with
  | Some _ => throw call_failed
  | None =>
      a ← nextAnswer;
      match a with
      | io_done => putFile path bytes
      | io_fault n => _ ← putFile path (take n bytes); throw write_incomplete
      end
  end.

(** A write at the end of an open file, and [sync]. *)
Definition appendFile (path : string) (bytes : list Z) (incomplete : SessionStoreError) : SessionM () :=
  a ← nextAnswer;
  existing ← getFile path;
  let bytes0 := default [] existing in
  match a with
  | io_done => putFile path (bytes0 ++ bytes)
  | io_fault n => _ ← putFile path (bytes0 ++ take n bytes); throw incomplete
  end.

(** [readFile(path)], of a file that is there. *)
Definition readBack (path : string) : SessionM (list Z) :=
  _ ← call;
  existing ← getFile path;
  match existing with Some bytes => mret bytes | None => throw call_failed end.
Definition expectBytes (path : string) (expected : list Z) (mismatch : SessionStoreError) : SessionM () :=
  readback ← readBack path;
  if readback === expected then mret () else throw mismatch.

(** ** Lines *)

(** The lines that end in a line feed, and the rest. *)
Fixpoint splitLines (source : list Z) : list (list Z) * list Z :=
  match source with
  | [] => ([], [])
  | b :: source =>
      let '(lines, rest) := splitLines source in
      if b =? 0x0a then ([] :: lines, rest)
      else match lines with [] => ([], b :: rest) | line :: lines => ((b :: line) :: lines, rest) end
  end.

Inductive ObjectFailure : Type := not_text | not_json | not_object.

Definition parseUtf8JsonObject (bytes : list Z) : result ObjectFailure (jsmap jstring jvalue) :=
  match textDecode bytes with
  | None => Err not_text
  | Some text =>
      match jsonParse text with
      | Err _ => Err not_json
      | Ok (VObject record) => Ok record
      | Ok _ => Err not_object
      end
  end.

(** What [appendEncodedLine] is given. *)
Inductive Encoded : Type := encoded_text (text : jstring) | encoded_bytes (bytes : list Z).

Definition normalizeEncodedLine (encoded : Encoded) : result SessionStoreError (list Z) :=
  let bytes := match encoded with encoded_text text => encodeUtf8 text | encoded_bytes bytes => bytes end in
  match textDecode bytes with
  | None => Err encoded_line_invalid
  | Some text =>
      _ ← throw_when ((text === []) || bool_decide (0x0a ∈ text) || bool_decide (0x0d ∈ text)) encoded_line_invalid;
      match jsonParse text with
      | Ok (VObject _) => Ok bytes
      | _ => Err encoded_line_invalid
      end
  end.

(** ** Recovering the tail *)

Inductive TailRecoveryKind : Type := tail_none | newline_added | tail_removed.
Record TailRecoveryResult (T : Type) : Type := {
  trr_backupFileName : option string; trr_decoded : list T; trr_kind : TailRecoveryKind; trr_lineCount : Z;
  trr_removedBytes : Z }.
Arguments Build_TailRecoveryResult {T}.
Arguments trr_backupFileName {T}.
Arguments trr_decoded {T}.
Arguments trr_kind {T}.
Arguments trr_lineCount {T}.
Arguments trr_removedBytes {T}.

(** [SessionStoragePaths], of the directory of the sessions. *)
Definition sessionFilePath (directory sessionId : string) : string := (directory ++ "/" ++ sessionId ++ ".jsonl")%string.
Definition recoverySuffix (now : Z) (nonce : string) : string := (pretty now ++ "." ++ nonce)%string.
Definition backupFileName (sessionId suffix : string) : string := (sessionId ++ ".jsonl.corrupt." ++ suffix)%string.
Definition recoveryTempName (sessionId suffix : string) : string :=
  (sessionId ++ ".jsonl.recovery." ++ suffix ++ ".tmp")%string.

Section Store.
(** [StoredLineDecoder<T>]: [decode] throws, or returns the event; it may keep
    what it has seen. *)
Context {T D : Type}.
Variable decode : D -> jsmap jstring jvalue -> Z -> list Z -> option (T * D).
Variable decoder : D.
Variable directory sessionId : string.

Definition decodeCompleteLine (bytes : list Z) (physicalLine : Z) (d : D) : result SessionStoreError (T * D) :=
  _ ← throw_when (length bytes =? 0)%nat interior_corruption;
  match parseUtf8JsonObject bytes with
  | Err _ => Err interior_corruption
  | Ok value => match decode d value physicalLine bytes with Some x => Ok x | None => Err stored_event_rejected end
  end.

(** The events of the completed lines, and the decoder after them. *)
Definition decodeLine (acc : list T * D) (line : list Z) : result SessionStoreError (list T * D) :=
  '(event, d) ← decodeCompleteLine line (Z.of_nat (length acc.1) + 1) acc.2;
  Ok (acc.1 ++ [event], d).
Definition decodeLines (lines : list (list Z)) : result SessionStoreError (list T * D) :=
  foldM decodeLine lines ([], decoder).

Definition writePrivateFile (path : string) (bytes : list Z) : SessionM () :=
  _ ← createFile path bytes; expectBytes path bytes recovery_readback_mismatch.

Definition appendMissingNewline (path : string) (original : list Z) : SessionM () :=
  _ ← call;
  _ ← appendFile path [0x0a] write_incomplete;
  expectBytes path (original ++ [0x0a]) recovery_readback_mismatch.

(** [NodeRenameDurabilityPort.install], within one directory. *)
Definition installFile (tempPath targetPath : string) (expected : list Z) : SessionM () :=
  a ← nextAnswer;
  existing ← getFile tempPath;
  match existing, a with
  | None, _ | _, io_fault O => throw call_failed
  | Some bytes, io_fault (S _) => _ ← removeFile tempPath; _ ← putFile targetPath bytes; throw call_failed
  | Some bytes, io_done =>
      _ ← removeFile tempPath; _ ← putFile targetPath bytes;
      _ ← call;
      _ ← expectBytes targetPath expected renamed_readback_mismatch;
      call
  end.

Definition replaceWithPrefix (sessionPath : string) (prefix : list Z) (tempPath : string) : SessionM () :=
  _ ← writePrivateFile tempPath prefix; installFile tempPath sessionPath prefix.

(** What to do with the bytes after the last line feed: nothing, end the line,
    or remove them. *)
Inductive FinalFragment : Type :=
| fragment_empty
| fragment_complete (event : T)
| fragment_incomplete.

Definition finalFragment (bytes : list Z) (physicalLine : Z) (d : D) : result SessionStoreError FinalFragment :=
  if (length bytes =? 0)%nat then Ok fragment_empty
  else match parseUtf8JsonObject bytes with
       | Err not_object => Err tail_not_json_object
       | Err _ => Ok fragment_incomplete
       | Ok value => match decode d value physicalLine bytes with
                     | Some (event, _) => Ok (fragment_complete event)
                     | None => Err stored_event_rejected
                     end
       end.

Definition noTail (decoded : list T) : TailRecoveryResult T := {|
  trr_backupFileName := None; trr_decoded := decoded; trr_kind := tail_none;
  trr_lineCount := Z.of_nat (length decoded); trr_removedBytes := 0 |}.

(** [recoverSessionTail] at the time [now] with the identifier [nonce]. *)
Definition recoverSessionTail (now : Z) (nonce : string) : SessionM (TailRecoveryResult T) :=
  let path := sessionFilePath directory sessionId in
  _ ← call; _ ← call; _ ← call;
  existing ← getFile path;
  match existing with
  | None | Some [] => mret (noTail [])
  | Some source =>
      let '(lines, fragment) := splitLines source in
      '(decoded, d) ← lift (decodeLines lines);
      final ← lift (finalFragment fragment (Z.of_nat (length decoded) + 1) d);
      match final with
      | fragment_empty => mret (noTail decoded)
      | fragment_complete _ | fragment_incomplete =>
          _ ← lift (throw_when (negb (isCanonicalUuid nonce)) recovery_nonce_invalid);
          let suffix := recoverySuffix now nonce in
          let backup := backupFileName sessionId suffix in
          _ ← writePrivateFile (directory ++ "/" ++ backup)%string source;
          match final with
          | fragment_complete event =>
              _ ← appendMissingNewline path source;
              mret {| trr_backupFileName := Some backup; trr_decoded := decoded ++ [event]; trr_kind := newline_added;
                      trr_lineCount := Z.of_nat (length decoded) + 1; trr_removedBytes := 0 |}
          | _ =>
              _ ← replaceWithPrefix path (take (length source - length fragment) source)
                    (directory ++ "/" ++ recoveryTempName sessionId suffix)%string;
              _ ← call;
              mret {| trr_backupFileName := Some backup; trr_decoded := decoded; trr_kind := tail_removed;
                      trr_lineCount := Z.of_nat (length decoded); trr_removedBytes := Z.of_nat (length fragment) |}
          end
      end
  end.

(** ** The store *)

Record DurableSessionStore : Type := { dss_closed : bool; dss_lineCount : Z; dss_poisoned : bool }.
#[export] Instance DurableSessionStore_eta : Eta DurableSessionStore := fun s =>
  Build_DurableSessionStore (dss_closed s) (dss_lineCount s) (dss_poisoned s).
Record DurableAppendReceipt : Type := { dar_bytes : Z; dar_lineNumber : Z }.

(** [DurableSessionStore.open], once it has the lock. *)
Definition openStore (now : Z) (nonce : string) : SessionM (DurableSessionStore * TailRecoveryResult T) :=
  tailRecovery ← recoverSessionTail now nonce;
  _ ← call;
  let path := sessionFilePath directory sessionId in
  existing ← getFile path;
  _ ← match existing with Some _ => mret () | None => putFile path [] end;
  _ ← call;
  mret ({| dss_closed := false; dss_lineCount := trr_lineCount tailRecovery; dss_poisoned := false |}, tailRecovery).

Definition nextPhysicalLine (store : DurableSessionStore) : Z := dss_lineCount store + 1.

(** [withOwnedLock] *)
Definition withOwnedLock {R} (store : DurableSessionStore) (action : SessionM R) : SessionM R :=
  _ ← lift (throw_when (dss_closed store) session_store_closed);
  _ ← lift (throw_when (dss_poisoned store) session_store_poisoned);
  _ ← call;
  action.

(** [appendEncodedLine]: what is returned or thrown, and the store after it. *)
Definition appendEncodedLine (store : DurableSessionStore) (encoded : Encoded) (w : World)
  : result SessionStoreError DurableAppendReceipt * DurableSessionStore * World :=
  if dss_closed store then (Err session_store_closed, store, w)
  else if dss_poisoned store then (Err session_store_poisoned, store, w)
  else
    match normalizeEncodedLine encoded with
    | Err e => (Err e, store, w)
    | Ok eventBytes =>
        let lineBytes := eventBytes ++ [0x0a] in
        match (_ ← call; appendFile (sessionFilePath directory sessionId) lineBytes append_write_incomplete) w with
        | (Err e, w) => (Err e, store <| dss_poisoned := true |>, w)
        | (Ok _, w) =>
            let store := store <| dss_lineCount ::= Z.add 1 |> in
            (Ok {| dar_bytes := Z.of_nat (length lineBytes); dar_lineNumber := dss_lineCount store |}, store, w)
        end
    end.

(** [close]; the lock of a poisoned store is kept. *)
Definition closeStore (store : DurableSessionStore) (w : World)
  : result SessionStoreError () * DurableSessionStore * World :=
  if dss_closed store then (Ok (), store, w)
  else
    let '(answer, w) := (_ ← call; _ ← lift (throw_when (dss_poisoned store) session_store_poisoned_lock_preserved); call) w in
    (answer, store <| dss_closed := true |>, w).

(** ** The life of a session file *)

(** The files, the store that is open, and every line whose write was begun, with
    whether it was acknowledged. *)
Record SessionLife : Type := {
  slf_files : gmap string (list Z); slf_store : option DurableSessionStore; slf_history : list (list Z * bool) }.

(** What the writer hands to the store is one object in braces, and an event that
    the decoder takes after those of the file. *)
Definition appendable (st : SessionLife) (encoded : Encoded) : Prop :=
  forall line, normalizeEncodedLine encoded = Ok line ->
    (exists text, textDecode line = Some (text ++ [0x7d])) /\
    forall lines, splitLines (default [] (slf_files st !! sessionFilePath directory sessionId)) = (lines, []) ->
      is_ok (decodeLines (lines ++ [line])) = true.

Definition openedStore (answer : result SessionStoreError (DurableSessionStore * TailRecoveryResult T)) : option DurableSessionStore :=
  match answer with Ok (store, _) => Some store | Err _ => None end.
Definition attempt (store : DurableSessionStore) (encoded : Encoded) (answer : result SessionStoreError DurableAppendReceipt)
  : list (list Z * bool) :=
  if dss_closed store || dss_poisoned store then []
  else match normalizeEncodedLine encoded with Ok line => [(line, is_ok answer)] | Err _ => [] end.

(** A process opens the file, appends, closes; it ends at any time, and an end
    inside of an operation is one after its fault. *)
Inductive session_step : SessionLife -> SessionLife -> Prop :=
| session_opens st now nonce answers answer w :
    slf_store st = None ->
    openStore now nonce {| wd_files := slf_files st; wd_answers := answers |} = (answer, w) ->
    session_step st {| slf_files := wd_files w; slf_store := openedStore answer; slf_history := slf_history st |}
| session_appends st store encoded answers answer store' w :
    slf_store st = Some store -> appendable st encoded ->
    appendEncodedLine store encoded {| wd_files := slf_files st; wd_answers := answers |} = (answer, store', w) ->
    session_step st {| slf_files := wd_files w; slf_store := Some store';
                       slf_history := slf_history st ++ attempt store encoded answer |}
| session_closes st store answers answer store' w :
    slf_store st = Some store ->
    closeStore store {| wd_files := slf_files st; wd_answers := answers |} = (answer, store', w) ->
    session_step st {| slf_files := wd_files w; slf_store := Some store'; slf_history := slf_history st |}
| session_ends st :
    session_step st {| slf_files := slf_files st; slf_store := None; slf_history := slf_history st |}.

(** From a session without a file. *)
Definition session_reachable (st : SessionLife) : Prop :=
  exists files, files !! sessionFilePath directory sessionId = None /\
    rtc session_step {| slf_files := files; slf_store := None; slf_history := [] |} st.
End Store.

(** The lines of a history that can be left: every one that was acknowledged, and
    any of the others, in order. *)
Inductive survives : list (list Z * bool) -> list (list Z) -> Prop :=
| survives_nothing : survives [] []
| survives_kept history lines line acknowledged :
    survives history lines -> survives (history ++ [(line, acknowledged)]) (lines ++ [line])
| survives_lost history lines line :
    survives history lines -> survives (history ++ [(line, false)]) lines.

(** ** Reading *)

Definition MAX_SESSION_FILE_BYTES : Z := 64 * 1024 * 1024.

Inductive StoredSessionReadError : Type :=
| session_file_too_large | invalid_utf8 | unterminated_tail | empty_jsonl_line | invalid_json | events_refused.

(** [text.slice(0, -1).split("\n")], each line parsed. *)
Definition parseStoredLine (line : jstring) : result StoredSessionReadError jvalue :=
  _ ← throw_when (length line =? 0)%nat empty_jsonl_line;
  match jsonParse line with Ok value => Ok value | Err _ => Err invalid_json end.

(** [readStoredSession], of the bytes of a regular file. *)
Definition readStoredSession {Event : Type} (decodeStoredEvents : list jvalue -> option (list Event)) (bytes : list Z)
  : result StoredSessionReadError (list Event) :=
  _ ← throw_when (MAX_SESSION_FILE_BYTES <? Z.of_nat (length bytes)) session_file_too_large;
  match textDecode bytes with
  | None => Err invalid_utf8
  | Some text =>
      let '(lines, rest) := splitLines text in
      _ ← throw_when (negb (length rest =? 0)%nat) unterminated_tail;
      values ← foldM (fun values line => value ← parseStoredLine line; Ok (values ++ [value])) lines [];
      match decodeStoredEvents values with Some events => Ok events | None => Err events_refused end
  end.
