(* ===== verification/SessionStoreFacts.v ===== *)
(** * What the file of a session keeps

    Whatever a file holds and wherever a recovery fails, no completed line
    changes and nothing is lost.  Over every sequence of opens, appends, faults
    and ends of the process, the lines that were acknowledged are in the file, in
    order, with at most the line of each append that failed; and a recovery that
    meets no fault succeeds. *)

From S2P Require Import Prelude JsString CanonicalJson Utf8 JsonParse JsonParseFacts CheckpointStore SessionStore.
From stdpp Require Import pretty.
#[local] Open Scope Z_scope.

(** ** Texts that were cut short

    A write that stops in the middle leaves a prefix of its bytes.  Decoding
    UTF-8 and [JSON.parse] read from left to right: when the prefix of an
    accepted text is accepted as well, what is missing is white space after the
    value ([cut_object]). *)

(** *** UTF-8 *)

(** The bytes of the first scalar value are decoded on their own. *)
Lemma decodeScalars_first b bs cs : decodeScalars (b :: bs) = Some cs ->
  exists first rest c cs', b :: bs = first ++ rest /\ first <> [] /\ cs = c :: cs' /\
    decodeScalars rest = Some cs' /\ forall t, decodeScalars (first ++ t) = (cons c) <$> decodeScalars t.
Proof.
  intros H. cbn [decodeScalars] in H.
  repeat match type of H with
  | (if ?x then _ else _) = _ => destruct x eqn:?; [|try done]
  | (match ?x with _ => _ end) = _ => is_var x; destruct x; try done
  end; apply fmap_Some in H as (cs' & H & ->).
  all: [> exists [b] | eexists [b; _] | eexists [b; _; _] | eexists [b; _; _; _]].
  all: eexists _, _, cs'; split; [reflexivity|]; split; [done|]; split; [reflexivity|]; split; [done|].
  all: intros t; cbn [app decodeScalars]; by repeat match goal with H : ?x = _ |- context [?x] => rewrite H end.
Qed.

Lemma decodeScalars_app bs bs' cs :
  decodeScalars bs = Some cs -> decodeScalars (bs ++ bs') = (app cs) <$> decodeScalars bs'.
Proof.
  remember (length bs) as n eqn:Hn. revert bs cs Hn.
  induction (lt_wf n) as [n _ IH]; intros [|b bs] cs Hn H.
  - injection H as <-. simpl. by destruct (decodeScalars bs').
  - apply decodeScalars_first in H as (first & rest & c & cs' & E & Hfirst & -> & Hrest & Hf).
    rewrite E, <-app_assoc, Hf, (IH (length rest)) with (cs := cs'); [|rewrite Hn, E, length_app; destruct first; simpl; [done|lia]|done|done].
    by destruct (decodeScalars bs').
Qed.

Lemma dropBom_app cs cs' : cs <> [] -> dropBom (cs ++ cs') = dropBom cs ++ cs'.
Proof. destruct cs as [|c cs]; [done|]. simpl. by destruct (c =? 0xfeff). Qed.

(** The text of bytes that continue a decoded text. *)
Lemma textDecode_app bs bs' s s' : textDecode bs = Some s -> textDecode (bs ++ bs') = Some s' -> bs <> [] ->
  exists t, s' = s ++ t /\ (bs' <> [] -> t <> []).
Proof.
  unfold textDecode. intros (cs & H & ->)%fmap_Some (cs' & H' & ->)%fmap_Some Hne.
  rewrite (decodeScalars_app _ _ _ H) in H'. apply fmap_Some in H' as (u & Hu & ->).
  assert (cs <> []).
  { intros ->. destruct bs as [|b bs]; [done|]. apply decodeScalars_first in H as (? & ? & ? & ? & _ & _ & ? & _). done. }
  rewrite dropBom_app, fmap_app, concat_app by done. eexists. split; [done|]. intros Hne'.
  destruct bs' as [|b bs']; [done|]. apply decodeScalars_first in Hu as (? & ? & c & ? & _ & _ & -> & _).
  rewrite fmap_cons, concat_cons. unfold units. by destruct (c <? 0x10000).
Qed.

(** A line feed of the bytes is one of the text. *)
Lemma encodeCodePoint_lf c : 0x0a ∈ encodeCodePoint c -> c = 0x0a.
Proof.
  unfold encodeCodePoint. intros H.
  pose proof (Z.mod_pos_bound c 0x40). pose proof (Z.mod_pos_bound (c / 0x40) 0x40).
  pose proof (Z.mod_pos_bound (c / 0x1000) 0x40).
  assert (0x80 <= c -> 0 <= c / 0x40 /\ 0 <= c / 0x1000 /\ 0 <= c / 0x40000) by (intros; split_and!; apply Z.div_pos; lia).
  repeat case_match; rewrite ?Z.ltb_ge, ?Z.ltb_lt in *; set_unfold in H; naive_solver lia.
Qed.

Lemma elem_of_concat_map {A} (f : Z -> list A) x cs : x ∈ concat (f <$> cs) <-> exists c, c ∈ cs /\ x ∈ f c.
Proof. induction cs as [|c cs IH]; simpl; set_solver. Qed.

Lemma textDecode_lf bs s : textDecode bs = Some s -> 0x0a ∈ bs -> 0x0a ∈ s.
Proof.
  unfold textDecode. intros (cs & [Hs <-]%decodeScalars_encode & ->)%fmap_Some.
  intros (c & Hc & ->%encodeCodePoint_lf)%elem_of_concat_map. apply elem_of_concat_map. exists 0x0a. split.
  - destruct cs as [|c cs]; [done|]. simpl. destruct (Z.eqb_spec c 0xfeff); [|done]. set_solver.
  - by unfold units; simpl; set_solver.
Qed.

(** ** JSON *)

Lemma skipSpace_app s u r t : skipSpace s = u :: r -> skipSpace (s ++ t) = u :: r ++ t.
Proof. induction s as [|v s IH]; simpl; [done|]. destruct (isJsonSpace v); [done|]. by intros [= -> ->]. Qed.

Lemma parseString_app n t s k tail : (length t <= n)%nat ->
  parseString t = Some (s, k) -> parseString (t ++ tail) = Some (s, k ++ tail).
Proof.
  revert t s k. induction n as [|n IH]; intros [|u r] s k Hn H; simpl in Hn; try lia; [done..|].
  cbn [parseString app] in *. destruct (u =? 0x22); [by simplify_eq|].
  destruct (u =? 0x5c); [|destruct (u <? 0x20); [done|]; apply bind_Some in H as ([s' k'] & H & ?); simplify_eq;
    by erewrite IH by (exact H || lia)].
  destruct r as [|e r1]; [done|]. cbn [app]. simpl in Hn. destruct (e =? 0x75).
  - destruct r1 as [|a [|b [|c [|d r2]]]]; try done. cbn [app] in *. simpl in Hn.
    repeat (apply bind_Some in H as (? & -> & H); cbn [mbind option_bind] in * ).
    apply bind_Some in H as ([s' k'] & H & ?); simplify_eq. by erewrite IH by (exact H || lia).
  - apply bind_Some in H as (x & -> & H). apply bind_Some in H as ([s' k'] & H & ?); simplify_eq.
    simpl. by erewrite IH by (exact H || lia).
Qed.

(** A number ends before a unit that is there. *)
Lemma digitRun_app_stop s d k tail : digitRun s = (d, k) -> k <> [] -> digitRun (s ++ tail) = (d, k ++ tail).
Proof.
  revert d k. induction s as [|u s IH]; intros d k H Hk; simpl in *; [by simplify_eq|].
  destruct (isDigit u); [|by simplify_eq]. destruct (digitRun s) as [d' k'] eqn:E. simplify_eq.
  by rewrite (IH d' k).
Qed.

Lemma integerPart_app s i k tail : integerPart s = Some (i, k) -> k <> [] -> integerPart (s ++ tail) = Some (i, k ++ tail).
Proof.
  destruct s as [|u s]; [done|]. cbn [integerPart app]. destruct (u =? 0x30); [intros; by simplify_eq|].
  destruct (isDigit u); [|done]. intros [= H] Hk. f_equal. change (u :: s ++ tail) with ((u :: s) ++ tail).
  by apply digitRun_app_stop.
Qed.

Lemma fractionPart_app s f k tail : fractionPart s = Some (f, k) -> k <> [] -> fractionPart (s ++ tail) = Some (f, k ++ tail).
Proof.
  destruct s as [|u s]; [intros; by simplify_eq/=|]. cbn [fractionPart app]. destruct (u =? 0x2e); [|intros; by simplify_eq].
  destruct (digitRun s) as [d r] eqn:E. destruct (length d =? 0)%nat eqn:El; [done|]. intros [= <- <-] Hk.
  by rewrite (digitRun_app_stop _ _ _ tail E Hk), El.
Qed.

Lemma exponentPart_app s e k tail : exponentPart s = Some (e, k) -> k <> [] -> exponentPart (s ++ tail) = Some (e, k ++ tail).
Proof.
  destruct s as [|u s]; [intros; by simplify_eq/=|]. cbn [exponentPart app].
  destruct ((u =? 0x65) || (u =? 0x45)); [|intros; by simplify_eq].
  destruct s as [|v s]; [done|]. cbn [app]. destruct ((v =? 0x2b) || (v =? 0x2d)).
  - destruct (digitRun s) as [d r] eqn:E. destruct (length d =? 0)%nat eqn:El; [done|]. intros [= <- <-] Hk.
    by rewrite (digitRun_app_stop _ _ _ tail E Hk), El.
  - destruct (digitRun (v :: s)) as [d r] eqn:E. destruct (length d =? 0)%nat eqn:El; [done|]. intros [= <- <-] Hk.
    change (v :: s ++ tail) with ((v :: s) ++ tail). by rewrite (digitRun_app_stop _ _ _ tail E Hk), El.
Qed.

Lemma parseUnsigned_app s t k tail : parseUnsigned s = Some (t, k) -> k <> [] -> parseUnsigned (s ++ tail) = Some (t, k ++ tail).
Proof.
  unfold parseUnsigned. intros ([i s1] & Hi & ([f s2] & Hf & ([e s3] & He & ?)%bind_Some)%bind_Some)%bind_Some Hk.
  simplify_eq. assert (s2 <> []) by (intros ->; by simplify_eq/=). assert (s1 <> []) by (intros ->; by simplify_eq/=).
  rewrite (integerPart_app _ _ _ tail Hi) by done. simpl. rewrite (fractionPart_app _ _ _ tail Hf) by done. simpl.
  by rewrite (exponentPart_app _ _ _ tail He).
Qed.

Lemma parseNumber_app s t k tail : parseNumber s = Some (t, k) -> k <> [] -> parseNumber (s ++ tail) = Some (t, k ++ tail).
Proof.
  destruct s as [|u s]; [done|]. cbn [parseNumber app]. destruct (u =? 0x2d).
  - intros ([t' k'] & H & ?)%bind_Some Hk. simplify_eq. by rewrite (parseUnsigned_app _ _ _ tail H).
  - apply (parseUnsigned_app (u :: s)).
Qed.

Lemma parseLiteral_app s v k tail : parseLiteral literals s = Some (v, k) -> parseLiteral literals (s ++ tail) = Some (v, k ++ tail).
Proof.
  unfold literals. cbn [parseLiteral].
  repeat (case_match; [match goal with H : startsWith s _ = true |- _ => apply startsWith_spec in H as (x & ->) end;
    intros; simplify_eq; rewrite drop_app_length, <-app_assoc; generalize (x ++ tail); by intros []|]). done.
Qed.

(** A value that a text starts with is the value of every longer text, unless it
    is a number that ends the text. *)
Definition numberFirst (s : jstring) : bool :=
  match skipSpace s with u :: _ => (u =? 0x2d) || isDigit u | [] => false end.

Lemma parse_app fuel tail :
  (forall fuel' s v k, (fuel <= fuel')%nat -> parseValue fuel s = Ok (v, k) -> k <> [] \/ numberFirst s = false ->
     parseValue fuel' (s ++ tail) = Ok (v, k ++ tail)) /\
  (forall fuel' s l v k, (fuel <= fuel')%nat -> parseElements fuel s l = Ok (v, k) ->
     parseElements fuel' (s ++ tail) l = Ok (v, k ++ tail)) /\
  (forall fuel' s l v k, (fuel <= fuel')%nat -> parseMembers fuel s l = Ok (v, k) ->
     parseMembers fuel' (s ++ tail) l = Ok (v, k ++ tail)).
Proof.
  induction fuel as [|fuel (IHv & IHe & IHm)]; [done|].
  split_and!; intros [|fuel']; try lia.
  - intros s v k Hf H Hk. cbn [parseValue] in *. unfold numberFirst in Hk.
    destruct (skipSpace s) as [|u r] eqn:Es; [done|]. rewrite (skipSpace_app _ _ _ tail Es).
    destruct (u =? 0x22).
    { apply bind_ok in H as ([t k'] & H%syntax_ok & ?). simplify_eq/=. by rewrite (parseString_app _ _ _ _ tail (le_n _) H). }
    destruct (u =? 0x5b).
    { destruct (skipSpace r) as [|w q] eqn:Er; [done|]. rewrite (skipSpace_app _ _ _ tail Er).
      destruct (w =? 0x5d); [by simplify_eq|]. by apply IHe; [lia|]. }
    destruct (u =? 0x7b).
    { destruct (skipSpace r) as [|w q] eqn:Er; [done|]. rewrite (skipSpace_app _ _ _ tail Er).
      destruct (w =? 0x7d); [by simplify_eq|]. by apply IHm; [lia|]. }
    destruct ((u =? 0x2d) || isDigit u).
    + apply bind_ok in H as ([t k'] & H%syntax_ok & E). injection E as <- <-. destruct Hk as [Hk|]; [|done].
      change (u :: r ++ tail) with ((u :: r) ++ tail). by rewrite (parseNumber_app _ _ _ tail H Hk).
    + apply syntax_ok in H. change (u :: r ++ tail) with ((u :: r) ++ tail). by rewrite (parseLiteral_app _ _ _ tail H).
  - intros s l v k Hf H. cbn [parseElements] in *. apply bind_ok in H as ([x k'] & Hx & H).
    destruct (skipSpace k') as [|u r] eqn:Ek; [done|].
    rewrite (IHv fuel' _ _ _ ltac:(lia) Hx) by (left; by intros ->). simpl. rewrite (skipSpace_app _ _ _ tail Ek).
    destruct (u =? comma); [by apply IHe; [lia|]|]. destruct (u =? 0x5d); by simplify_eq.
  - intros s l v k Hf H. cbn [parseMembers] in *. destruct (skipSpace s) as [|u r] eqn:Es; [done|].
    rewrite (skipSpace_app _ _ _ tail Es). destruct (u =? 0x22); [|done].
    apply bind_ok in H as ([key k1] & Hkey%syntax_ok & H). rewrite (parseString_app _ _ _ _ tail (le_n _) Hkey). simpl.
    destruct (skipSpace k1) as [|c k2] eqn:E1; [done|]. rewrite (skipSpace_app _ _ _ tail E1).
    destruct (c =? colon); [|done]. apply bind_ok in H as ([x k3] & Hx & H).
    destruct (skipSpace k3) as [|w q] eqn:E3; [done|].
    rewrite (IHv fuel' _ _ _ ltac:(lia) Hx) by (left; by intros ->). simpl. rewrite (skipSpace_app _ _ _ tail E3).
    destruct (w =? comma); [by apply IHm; [lia|]|]. destruct (w =? 0x7d); by simplify_eq.
Qed.

(** The prefix of a text: the same value, and only space is missing. *)
Lemma cut_object s tail v : jsonParse s = Ok v -> numberFirst s = false -> forall w, jsonParse (s ++ tail) = Ok w ->
  w = v /\ skipSpace tail = [].
Proof.
  unfold jsonParse. intros H Hn w Hw. apply bind_ok in H as ([x k] & Hx & H).
  destruct (skipSpace k) eqn:Ek; [|done]. injection H as ->.
  erewrite (proj1 (parse_app _ tail)) in Hw; [|shelve|exact Hx|by right].
  Unshelve. 2: rewrite length_app; lia. simpl in Hw.
  revert Hw. clear Hx Hn. induction k as [|u k IH]; simpl in *; [destruct (skipSpace tail); by intros [= ->]|].
  destruct (isJsonSpace u); [|done]. by apply IH.
Qed.

(** ** Lines *)

Definition terminated (line : list Z) : list Z := line ++ [0x0a].
Definition encodeLines (lines : list (list Z)) : list Z := concat (terminated <$> lines).
Definition oneLine (line : list Z) : Prop := 0x0a ∉ line.

Lemma encodeLines_app lines lines' : encodeLines (lines ++ lines') = encodeLines lines ++ encodeLines lines'.
Proof. unfold encodeLines. by rewrite fmap_app, concat_app. Qed.
Lemma encodeLines_snoc lines line : encodeLines (lines ++ [line]) = encodeLines lines ++ line ++ [0x0a].
Proof. rewrite encodeLines_app. unfold encodeLines at 2, terminated. simpl. by rewrite app_nil_r. Qed.

Lemma splitLines_spec source lines rest : splitLines source = (lines, rest) ->
  source = encodeLines lines ++ rest /\ Forall oneLine lines /\ oneLine rest.
Proof.
  revert lines rest. induction source as [|b source IH]; simpl; intros lines rest H; [simplify_eq; split_and!; [done..|]; unfold oneLine; set_solver|].
  destruct (splitLines source) as [ls r]. destruct (IH _ _ eq_refl) as (E & Hl & Hr). subst source.
  destruct (Z.eqb_spec b 0x0a) as [->|Hb]; [|destruct ls as [|l ls]]; simplify_eq.
  - split_and!; [done| |done]. constructor; [unfold oneLine; set_solver|done].
  - split_and!; [done..|]. unfold oneLine in *. set_solver.
  - apply list.Forall_cons in Hl as [Hl Hls]. split_and!; [done| |done]. constructor; [unfold oneLine in *; set_solver|done].
Qed.

Lemma splitLines_rest rest : oneLine rest -> splitLines rest = ([], rest).
Proof.
  unfold oneLine. induction rest as [|b rest IH]; [done|]. intros H. simpl. rewrite IH by set_solver.
  destruct (Z.eqb_spec b 0x0a); [set_solver|done].
Qed.

Lemma splitLines_line line source : oneLine line ->
  splitLines (line ++ 0x0a :: source) = (line :: (splitLines source).1, (splitLines source).2).
Proof.
  unfold oneLine. induction line as [|b line IH]; intros H; cbn [app splitLines]; [by destruct (splitLines source)|].
  rewrite IH by set_solver. destruct (Z.eqb_spec b 0x0a); [set_solver|done].
Qed.

Lemma splitLines_encode lines rest : Forall oneLine lines -> oneLine rest -> splitLines (encodeLines lines ++ rest) = (lines, rest).
Proof.
  intros Hl Hr. induction Hl as [|l lines Hl _ IH]; [by apply splitLines_rest|].
  unfold encodeLines. rewrite fmap_cons, concat_cons. unfold terminated at 1. rewrite <-!app_assoc.
  cbn [app]. rewrite splitLines_line by done. fold (encodeLines lines). by rewrite IH.
Qed.

(** ** Computations *)

(** [Q] of what is returned and of the files then, [E] of the files after an
    exception, whatever the environment answers. *)
Definition wps {A} (m : SessionM A) (Q : A -> gmap string (list Z) -> Prop) (E : gmap string (list Z) -> Prop)
    (files : gmap string (list Z)) : Prop :=
  forall answers, match m {| wd_files := files; wd_answers := answers |} with
                  | (Ok a, w) => Q a (wd_files w)
                  | (Err _, w) => E (wd_files w)
                  end.

Lemma wps_ret {A} (a : A) (Q : A -> gmap string (list Z) -> Prop) E files : Q a files -> wps (mret a) Q E files.
Proof. by intros H answers. Qed.
Lemma wps_bind {A B} (m : SessionM A) (k : A -> SessionM B) Q E files :
  wps m (fun a files => wps (k a) Q E files) E files -> wps (m ≫= k) Q E files.
Proof.
  intros H answers. specialize (H answers). unfold mbind, SessionM_bind.
  destruct (m _) as [[a|e] [files' answers']]; [apply H|done].
Qed.
Lemma wps_throw {A} e (Q : A -> gmap string (list Z) -> Prop) (E : gmap string (list Z) -> Prop) files : E files -> wps (throw e) Q E files.
Proof. by intros H answers. Qed.
Lemma wps_lift {A} (r : result SessionStoreError A) Q (E : gmap string (list Z) -> Prop) files :
  (forall a, r = Ok a -> Q a files) -> E files -> wps (lift r) Q E files.
Proof. intros H HE answers. unfold lift. destruct r; [by apply H|done]. Qed.
Lemma wps_getFile path (Q : option (list Z) -> gmap string (list Z) -> Prop) E files : Q (files !! path) files -> wps (getFile path) Q E files.
Proof. by intros H answers. Qed.
Lemma wps_putFile path bytes (Q : () -> gmap string (list Z) -> Prop) E files : Q () (<[path := bytes]> files) -> wps (putFile path bytes) Q E files.
Proof. by intros H answers. Qed.
Lemma wps_removeFile path (Q : () -> gmap string (list Z) -> Prop) E files : Q () (delete path files) -> wps (removeFile path) Q E files.
Proof. by intros H answers. Qed.
Lemma wps_nextAnswer (Q : IoAnswer -> gmap string (list Z) -> Prop) E files : (forall a, Q a files) -> wps nextAnswer Q E files.
Proof. intros H [|a answers]; apply H. Qed.
Lemma wps_call (Q : () -> gmap string (list Z) -> Prop) (E : gmap string (list Z) -> Prop) files : Q () files -> E files -> wps call Q E files.
Proof. by intros HQ HE [|[|n] answers]. Qed.

Lemma wps_mono {A} (m : SessionM A) (Q Q' : A -> gmap string (list Z) -> Prop) (E E' : gmap string (list Z) -> Prop) files :
  wps m Q E files -> (forall a files, Q a files -> Q' a files) -> (forall files, E files -> E' files) -> wps m Q' E' files.
Proof. intros H HQ HE answers. specialize (H answers). destruct (m _) as [[a|e] w]; auto. Qed.

Create HintDb wps.
#[export] Hint Resolve wps_ret wps_throw wps_getFile wps_putFile wps_removeFile wps_call : wps.

(** The calls that change files. *)
Lemma wps_createFile path bytes (Q : () -> gmap string (list Z) -> Prop) (E : gmap string (list Z) -> Prop) files :
  E files ->
  (files !! path = None -> Q () (<[path := bytes]> files) /\ forall n, E (<[path := take n bytes]> files)) ->
  wps (createFile path bytes) Q E files.
Proof.
  intros HE H. apply wps_bind, wps_call; [|done]. apply wps_bind, wps_getFile.
  destruct (files !! path); [by apply wps_throw|]. destruct H as [HQ Hn]; [done|].
  apply wps_bind, wps_nextAnswer. intros [|n]; [by apply wps_putFile|].
  apply wps_bind, wps_putFile, wps_throw, Hn.
Qed.

Lemma wps_appendFile path bytes e (Q : () -> gmap string (list Z) -> Prop) (E : gmap string (list Z) -> Prop) files :
  let old := default [] (files !! path) in
  Q () (<[path := old ++ bytes]> files) -> (forall n, E (<[path := old ++ take n bytes]> files)) ->
  wps (appendFile path bytes e) Q E files.
Proof.
  intros old HQ HE. apply wps_bind, wps_nextAnswer. intros a. apply wps_bind, wps_getFile.
  destruct a as [|n]; [by apply wps_putFile|]. apply wps_bind, wps_putFile, wps_throw, HE.
Qed.

Lemma wps_expectBytes path bytes e (Q : () -> gmap string (list Z) -> Prop) (E : gmap string (list Z) -> Prop) files :
  (files !! path = Some bytes -> Q () files) -> E files -> wps (expectBytes path bytes e) Q E files.
Proof.
  intros HQ HE. apply wps_bind, wps_bind, wps_call; [|done]. apply wps_bind, wps_getFile.
  destruct (files !! path) as [b|]; [|by apply wps_throw]. apply wps_ret.
  case_bool_decide; [subst; by apply wps_ret, HQ|by apply wps_throw].
Qed.

Lemma wps_writePrivateFile path bytes (Q : () -> gmap string (list Z) -> Prop) (E : gmap string (list Z) -> Prop) files :
  E files ->
  (files !! path = None -> Q () (<[path := bytes]> files) /\ forall n, E (<[path := take n bytes]> files)) ->
  wps (writePrivateFile path bytes) Q E files.
Proof.
  intros HE H. apply wps_bind, wps_createFile; [done|]. intros Hnone. destruct (H Hnone) as [HQ Hn]. split; [|done].
  apply wps_expectBytes; [done|]. specialize (Hn (length bytes)). by rewrite firstn_all in Hn.
Qed.

Lemma wps_installFile temp target bytes (Q : () -> gmap string (list Z) -> Prop) (E : gmap string (list Z) -> Prop) files :
  let installed := <[target := bytes]> (delete temp files) in
  files !! temp = Some bytes -> E files -> E installed -> Q () installed ->
  wps (installFile temp target bytes) Q E files.
Proof.
  intros installed Ht HE HE' HQ. apply wps_bind, wps_nextAnswer. intros a. apply wps_bind, wps_getFile. rewrite Ht.
  destruct a as [|[|n]]; [|by apply wps_throw|].
  - apply wps_bind, wps_removeFile, wps_bind, wps_putFile, wps_bind, wps_call; [|done].
    apply wps_bind, wps_expectBytes; [intros _; by apply wps_call|done].
  - apply wps_bind, wps_removeFile, wps_bind, wps_putFile. by apply wps_throw.
Qed.

(** [Q] of what is returned, which something is, when no call fails. *)
Definition wpo {A} (m : SessionM A) (Q : A -> gmap string (list Z) -> Prop) (files : gmap string (list Z)) : Prop :=
  exists a files', m {| wd_files := files; wd_answers := [] |} = (Ok a, {| wd_files := files'; wd_answers := [] |}) /\ Q a files'.

Lemma wpo_ret {A} (a : A) (Q : A -> gmap string (list Z) -> Prop) files : Q a files -> wpo (mret a) Q files.
Proof. intros H. by exists a, files. Qed.
Lemma wpo_bind {A B} (m : SessionM A) (k : A -> SessionM B) Q files :
  wpo m (fun a files => wpo (k a) Q files) files -> wpo (m ≫= k) Q files.
Proof. intros (a & files' & H & b & files'' & H' & HQ). exists b, files''. unfold mbind, SessionM_bind. by rewrite H. Qed.
Lemma wpo_lift {A} (r : result SessionStoreError A) a (Q : A -> gmap string (list Z) -> Prop) files : r = Ok a -> Q a files -> wpo (lift r) Q files.
Proof. intros -> H. by exists a, files. Qed.
Lemma wpo_call (Q : () -> gmap string (list Z) -> Prop) files : Q () files -> wpo call Q files.
Proof. intros H. by exists (), files. Qed.
Lemma wpo_nextAnswer (Q : IoAnswer -> gmap string (list Z) -> Prop) files : Q io_done files -> wpo nextAnswer Q files.
Proof. intros H. by exists io_done, files. Qed.
Lemma wpo_getFile path (Q : option (list Z) -> gmap string (list Z) -> Prop) files : Q (files !! path) files -> wpo (getFile path) Q files.
Proof. intros H. by eexists _, files. Qed.
Lemma wpo_putFile path bytes (Q : () -> gmap string (list Z) -> Prop) files : Q () (<[path := bytes]> files) -> wpo (putFile path bytes) Q files.
Proof. intros H. by eexists (), _. Qed.
Lemma wpo_removeFile path (Q : () -> gmap string (list Z) -> Prop) files : Q () (delete path files) -> wpo (removeFile path) Q files.
Proof. intros H. by eexists (), _. Qed.

Lemma wpo_expectBytes path bytes e (Q : () -> gmap string (list Z) -> Prop) files :
  files !! path = Some bytes -> Q () files -> wpo (expectBytes path bytes e) Q files.
Proof.
  intros H HQ. apply wpo_bind, wpo_bind, wpo_call, wpo_bind, wpo_getFile. rewrite H. apply wpo_ret.
  rewrite bool_decide_eq_true_2 by done. by apply wpo_ret.
Qed.
Lemma wpo_writePrivateFile path bytes (Q : () -> gmap string (list Z) -> Prop) files :
  files !! path = None -> Q () (<[path := bytes]> files) -> wpo (writePrivateFile path bytes) Q files.
Proof.
  intros H HQ. apply wpo_bind, wpo_bind, wpo_call, wpo_bind, wpo_getFile. rewrite H.
  apply wpo_bind, wpo_nextAnswer, wpo_putFile, wpo_expectBytes; [by rewrite lookup_insert_eq|done].
Qed.
Lemma wpo_appendMissingNewline path source (Q : () -> gmap string (list Z) -> Prop) files :
  files !! path = Some source -> Q () (<[path := source ++ [0x0a]]> files) -> wpo (appendMissingNewline path source) Q files.
Proof.
  intros H HQ. apply wpo_bind, wpo_call, wpo_bind, wpo_bind, wpo_nextAnswer, wpo_bind, wpo_getFile. rewrite H.
  apply wpo_putFile, wpo_expectBytes; [by rewrite lookup_insert_eq|done].
Qed.
Lemma wpo_replaceWithPrefix path prefix temp (Q : () -> gmap string (list Z) -> Prop) files :
  files !! temp = None -> Q () (<[path := prefix]> files) -> wpo (replaceWithPrefix path prefix temp) Q files.
Proof.
  intros H HQ. apply wpo_bind, wpo_writePrivateFile; [done|].
  apply wpo_bind, wpo_nextAnswer, wpo_bind, wpo_getFile. rewrite lookup_insert_eq.
  apply wpo_bind, wpo_removeFile, wpo_bind, wpo_putFile, wpo_bind, wpo_call, wpo_bind, wpo_expectBytes; [by rewrite lookup_insert_eq|].
  apply wpo_call. by rewrite delete_insert_id.
Qed.

(** ** Names *)

Lemma file_name_inj directory a b : (directory ++ "/" ++ a)%string = (directory ++ "/" ++ b)%string -> a = b.
Proof. intros H%(inj (String.append directory)). by injection H. Qed.

Lemma backup_name_ne directory sessionId suffix :
  (directory ++ "/" ++ backupFileName sessionId suffix)%string <> sessionFilePath directory sessionId.
Proof. intros H%file_name_inj%(inj (String.append sessionId)). by injection H. Qed.
Lemma temp_name_ne directory sessionId suffix :
  (directory ++ "/" ++ recoveryTempName sessionId suffix)%string <> sessionFilePath directory sessionId.
Proof. intros H%file_name_inj%(inj (String.append sessionId)). by injection H. Qed.
Lemma temp_backup_ne directory sessionId suffix suffix' :
  (directory ++ "/" ++ recoveryTempName sessionId suffix)%string <> (directory ++ "/" ++ backupFileName sessionId suffix')%string.
Proof. intros H%file_name_inj%(inj (String.append sessionId)). by injection H. Qed.

(** ** Recovery *)

Section Recovery.
Context {T D : Type}.
Variable decode : D -> jsmap jstring jvalue -> Z -> list Z -> option (T * D).
Variable decoder : D.
Variable directory sessionId : string.
Notation path := (sessionFilePath directory sessionId).
Notation decodeLines := (decodeLines decode decoder).

Lemma decodeLines_snoc lines line : decodeLines (lines ++ [line]) = decodeLines lines ≫= fun acc => decodeLine decode acc line.
Proof. unfold SessionStore.decodeLines. rewrite foldM_app. cbn [foldM]. destruct (foldM _ _ _); [simpl; by destruct (decodeLine _ _ _)|done]. Qed.

Lemma decodeLines_length lines events d : decodeLines lines = Ok (events, d) -> length events = length lines.
Proof.
  revert events d. induction lines as [|line lines IH] using rev_ind; intros events d H; [by injection H as <- <-|].
  rewrite decodeLines_snoc in H. apply bind_ok in H as ([events' d'] & H' & H). unfold decodeLine in H. simpl in H.
  apply bind_ok in H as ([e d''] & _ & H). injection H as <- <-. rewrite !length_app. simpl. by rewrite (IH _ _ H').
Qed.

(** What a recovery makes of the bytes of the file. *)
Inductive repaired (source : list Z) (files : gmap string (list Z)) : Prop :=
| repaired_unchanged : files !! path = Some source -> repaired source files
| repaired_ended lines rest value :
    splitLines source = (lines, rest) -> parseUtf8JsonObject rest = Ok value ->
    files !! path = Some (source ++ [0x0a]) -> repaired source files
| repaired_cut lines rest name :
    splitLines source = (lines, rest) -> parseUtf8JsonObject rest = Err not_text \/ parseUtf8JsonObject rest = Err not_json ->
    files !! path = Some (encodeLines lines) -> name <> path -> files !! name = Some source -> repaired source files.

Record recovery_keeps (files files' : gmap string (list Z)) : Prop := {
  rk_others name bytes : name <> path -> files !! name = Some bytes -> files' !! name = Some bytes;
  rk_missing : files !! path = None -> files' = files;
  rk_session source : files !! path = Some source -> repaired source files' }.

Definition recovered (files' : gmap string (list Z)) (lineCount : Z) (events : list T) : Prop := exists lines d,
  default [] (files' !! path) = encodeLines lines /\ Forall oneLine lines /\ decodeLines lines = Ok (events, d) /\
  lineCount = Z.of_nat (length lines).

Lemma recovery_keeps_refl files : recovery_keeps files files.
Proof. split; [done|done|]. intros source H. by apply repaired_unchanged. Qed.

Lemma recovery_keeps_intro source files files' : files !! path = Some source -> repaired source files' ->
  (forall name bytes, name <> path -> files !! name = Some bytes -> files' !! name = Some bytes) ->
  recovery_keeps files files'.
Proof. intros Hs Hr Ho. split; [done|congruence|]. intros s Hs'. by simplify_eq. Qed.

(** A name that was not there, beside the file or not. *)
Lemma insert_keeps name bytes (files : gmap string (list Z)) other b :
  files !! name = None -> files !! other = Some b -> <[name := bytes]> files !! other = Some b.
Proof. intros Hn Ho. rewrite lookup_insert_ne; [done|]. intros ->. congruence. Qed.

(** The line feed that was missing. *)
Lemma ended_keeps source lines rest value files backup landed :
  let files1 := <[(directory ++ "/" ++ backup)%string := source]> files in
  files !! path = Some source -> files !! (directory ++ "/" ++ backup)%string = None ->
  (directory ++ "/" ++ backup)%string <> path ->
  splitLines source = (lines, rest) -> parseUtf8JsonObject rest = Ok value ->
  recovery_keeps files (<[path := default [] (files1 !! path) ++ take landed [0x0a]]> files1).
Proof.
  intros files1 Hs Hnone Hne Hsplit Hvalue. unfold files1. rewrite (lookup_insert_ne _ _ _ source Hne), Hs. simpl.
  eapply recovery_keeps_intro; [done| |].
  - destruct landed as [|[|landed]]; simpl; rewrite ?app_nil_r; [by apply repaired_unchanged; rewrite lookup_insert_eq| |];
      (eapply repaired_ended; [done..|by rewrite lookup_insert_eq]).
  - intros other b Hother H. rewrite lookup_insert_ne by done. by apply insert_keeps.
Qed.

(** The prefix that replaced the file. *)
Lemma cut_keeps source lines rest files suffix :
  let backup := (directory ++ "/" ++ backupFileName sessionId suffix)%string in
  let temp := (directory ++ "/" ++ recoveryTempName sessionId suffix)%string in
  let files1 := <[backup := source]> files in
  files !! path = Some source -> files !! backup = None -> files1 !! temp = None -> splitLines source = (lines, rest) ->
  parseUtf8JsonObject rest = Err not_text \/ parseUtf8JsonObject rest = Err not_json ->
  recovery_keeps files (<[path := encodeLines lines]> (delete temp (<[temp := encodeLines lines]> files1))).
Proof.
  intros backup temp files1 Hs Hb Ht Hsplit Hrest. eapply recovery_keeps_intro; [done| |].
  - eapply (repaired_cut _ _ lines rest backup); [done|done|by rewrite lookup_insert_eq|apply backup_name_ne|].
    rewrite lookup_insert_ne by (apply not_eq_sym, backup_name_ne). rewrite delete_insert_id by done.
    unfold files1. by rewrite lookup_insert_eq.
  - intros other b Hother H. rewrite lookup_insert_ne by done. rewrite delete_insert_id by done. by apply insert_keeps.
Qed.

(** The two repairs. *)
Lemma backup_spec source suffix files (k : SessionM (TailRecoveryResult T)) Q :
  let backup := (directory ++ "/" ++ backupFileName sessionId suffix)%string in
  files !! path = Some source ->
  (files !! backup = None -> wps k Q (recovery_keeps files) (<[backup := source]> files)) ->
  wps (_ ← writePrivateFile backup source; k) Q (recovery_keeps files) files.
Proof.
  intros backup Hs Hk. apply wps_bind, wps_writePrivateFile; [apply recovery_keeps_refl|]. intros Hnone.
  split; [by apply Hk|]. intros n. eapply recovery_keeps_intro; [done| |].
  - apply repaired_unchanged. by rewrite lookup_insert_ne by (apply backup_name_ne).
  - intros other b _. by apply insert_keeps.
Qed.

Lemma ended_spec source lines rest value files suffix events event d d' result :
  let backup := (directory ++ "/" ++ backupFileName sessionId suffix)%string in
  files !! path = Some source -> files !! backup = None -> splitLines source = (lines, rest) ->
  parseUtf8JsonObject rest = Ok value -> decodeLines lines = Ok (events, d) ->
  decode d value (Z.of_nat (length events) + 1) rest = Some (event, d') -> rest <> [] ->
  trr_decoded result = events ++ [event] -> trr_lineCount result = Z.of_nat (length events) + 1 ->
  wps (_ ← appendMissingNewline path source; mret result)
    (fun r files' => recovery_keeps files files' /\ recovered files' (trr_lineCount r) (trr_decoded r))
    (recovery_keeps files) (<[backup := source]> files).
Proof.
  intros backup Hs Hnone Hsplit Hvalue Hlines Hevent Hne Hd Hc.
  pose proof (backup_name_ne directory sessionId suffix) as Hb.
  pose proof (fun n => ended_keeps source lines rest value files _ n Hs Hnone Hb Hsplit Hvalue) as Hkeeps.
  assert (Hnow : (<[backup := source]> files : gmap _ _) !! path = Some source) by (by rewrite lookup_insert_ne).
  assert (H0 : recovery_keeps files (<[backup := source]> files)).
  { specialize (Hkeeps 0%nat). simpl in Hkeeps. fold backup in Hkeeps. rewrite app_nil_r, Hnow in Hkeeps. simpl in Hkeeps.
    by rewrite insert_id in Hkeeps. }
  apply wps_bind, wps_bind, wps_call; [|done]. apply wps_bind, wps_appendFile; [|exact Hkeeps].
  apply wps_expectBytes; [intros _|exact (Hkeeps 1%nat)]. apply wps_ret. split; [exact (Hkeeps 1%nat)|].
  exists (lines ++ [rest]), d'. apply splitLines_spec in Hsplit as (-> & Hone & Hrest). rewrite lookup_insert_eq, Hnow. simpl.
  rewrite encodeLines_snoc, <-app_assoc. split_and!; [done|by apply Forall_app_2; [|constructor]| |].
  - rewrite decodeLines_snoc, Hlines, Hd. unfold mbind, result_bind, decodeLine, decodeCompleteLine. simpl.
    destruct rest; [done|]. simpl. by rewrite Hvalue, Hevent.
  - rewrite Hc, length_app, (decodeLines_length _ _ _ Hlines). simpl. lia.
Qed.

Lemma cut_spec source lines rest files suffix events d result :
  let backup := (directory ++ "/" ++ backupFileName sessionId suffix)%string in
  let temp := (directory ++ "/" ++ recoveryTempName sessionId suffix)%string in
  files !! path = Some source -> files !! backup = None -> splitLines source = (lines, rest) ->
  parseUtf8JsonObject rest = Err not_text \/ parseUtf8JsonObject rest = Err not_json ->
  decodeLines lines = Ok (events, d) ->
  trr_decoded result = events -> trr_lineCount result = Z.of_nat (length events) ->
  wps (_ ← replaceWithPrefix path (take (length source - length rest) source) temp; _ ← call; mret result)
    (fun r files' => recovery_keeps files files' /\ recovered files' (trr_lineCount r) (trr_decoded r))
    (recovery_keeps files) (<[backup := source]> files).
Proof.
  intros backup temp Hs Hnone Hsplit Hrest Hlines Hd Hc.
  assert (take (length source - length rest) source = encodeLines lines) as ->.
  { destruct (splitLines_spec _ _ _ Hsplit) as (-> & _ & _). rewrite length_app.
    replace (_ + length rest - length rest)%nat with (length (encodeLines lines)) by lia. apply take_app_length. }
  pose proof (backup_name_ne directory sessionId suffix) as Hb. pose proof (temp_name_ne directory sessionId suffix) as Ht.
  assert (H0 : forall more, (forall name b, files !! name = Some b -> (more : gmap _ _) !! name = Some b) -> recovery_keeps files more).
  { intros more Hmore. eapply recovery_keeps_intro; [done|by apply repaired_unchanged, Hmore|eauto]. }
  apply wps_bind, wps_bind, wps_writePrivateFile; [apply H0; intros; by apply insert_keeps|].
  intros Htemp.
  assert (H1 : forall bytes, recovery_keeps files (<[temp := bytes]> (<[backup := source]> files))).
  { intros bytes. apply H0. intros. by apply insert_keeps, insert_keeps. }
  pose proof (cut_keeps source lines rest files suffix Hs Hnone Htemp Hsplit Hrest) as H2.
  split; [|by intros n]. apply wps_installFile; [by rewrite lookup_insert_eq|done|done|].
  apply wps_bind, wps_call; [|done]. apply wps_ret. split; [done|].
  exists lines, d. rewrite lookup_insert_eq. destruct (splitLines_spec _ _ _ Hsplit) as (_ & Hone & _).
  rewrite Hd, Hc, (decodeLines_length _ _ _ Hlines). done.
Qed.

Lemma recoverSessionTail_spec now nonce files :
  wps (recoverSessionTail decode decoder directory sessionId now nonce)
    (fun r files' => recovery_keeps files files' /\ recovered files' (trr_lineCount r) (trr_decoded r))
    (recovery_keeps files) files.
Proof.
  pose proof (recovery_keeps_refl files) as H0. unfold recoverSessionTail.
  do 3 (apply wps_bind, wps_call; [|done]). apply wps_bind, wps_getFile.
  assert (Hnone : default [] (files !! path) = [] -> wps (mret (noTail []))
    (fun (r : TailRecoveryResult T) files' => recovery_keeps files files' /\ recovered files' (trr_lineCount r) (trr_decoded r))
    (recovery_keeps files) files).
  { intros He. apply wps_ret. split; [done|]. exists [], decoder. rewrite He. by split_and!. }
  destruct (files !! path) as [[|b source]|] eqn:Es; [by apply Hnone| |by apply Hnone]. clear Hnone.
  set (s := b :: source) in *. clearbody s. destruct (splitLines s) as [lines rest] eqn:Hsplit.
  destruct (splitLines_spec _ _ _ Hsplit) as (Hsource & Hone & Hrest).
  apply wps_bind, wps_lift; [|done]. intros [events d] Hlines.
  apply wps_bind, wps_lift; [|done]. intros final Hfinal. unfold finalFragment in Hfinal.
  destruct (length rest =? 0)%nat eqn:Hempty.
  { injection Hfinal as <-. apply Nat.eqb_eq, length_zero_iff_nil in Hempty. subst rest. rewrite app_nil_r in Hsource.
    apply wps_ret. split; [done|]. exists lines, d. rewrite Es. simpl.
    by rewrite (decodeLines_length _ _ _ Hlines). }
  assert (rest <> []) by (by intros ->).
  destruct (parseUtf8JsonObject rest) as [value|[]] eqn:Hvalue; try discriminate Hfinal.
  - destruct (decode d value _ rest) as [[event d']|] eqn:Hevent; [|done]. injection Hfinal as <-.
    apply wps_bind, wps_lift; [|done]. intros _ _. apply backup_spec; [done|]. intros Hb.
    by eapply ended_spec.
  - injection Hfinal as <-. apply wps_bind, wps_lift; [|done]. intros _ _. apply backup_spec; [done|]. intros Hb.
    eapply cut_spec; try done. by left.
  - injection Hfinal as <-. apply wps_bind, wps_lift; [|done]. intros _ _. apply backup_spec; [done|]. intros Hb.
    eapply cut_spec; try done. by right.
Qed.
End Recovery.
