(* ===== verification/SessionStoreProperties.v ===== *)
(** * The file of a session: the properties

    What is left of a session's lines after any sequence of opens, appends,
    faults and ends of the process; that a recovery without a fault succeeds; and
    that a reader reads what a recovery leaves.  [SampleStore] is the file of the
    witnesses. *)

From S2P Require Import Prelude JsString CanonicalJson Utf8 JsonParse JsonParseFacts CheckpointStore SessionStore SessionStoreFacts.
From stdpp Require Import pretty.
#[local] Open Scope Z_scope.

(** ** A line that was cut *)

Lemma skipSpace_brace text : skipSpace (text ++ [0x7d]) <> [].
Proof. induction text as [|u text IH]; simpl; [done|]. by destruct (isJsonSpace u). Qed.

Lemma parsed_object text record : jsonParse text = Ok (VObject record) -> exists rest, skipSpace text = 0x7b :: rest.
Proof.
  unfold jsonParse. intros H. apply bind_ok in H as ([v k] & H & Hv). destruct (skipSpace k); [|done].
  injection Hv as ->. cbn [parseValue] in H. destruct (skipSpace text) as [|u r]; [done|].
  destruct (u =? 0x22) eqn:Eq; [by apply bind_ok in H as ([] & _ & ?)|].
  destruct (u =? 0x5b) eqn:Ea.
  { exfalso. destruct (skipSpace r) as [|w q]; [done|]. destruct (w =? 0x5d); [done|]. clear -H.
    revert H. generalize (2 * length text)%nat. intros fuel. generalize (@nil jvalue). revert r k.
    induction fuel as [|fuel IH]; intros r k entries H; [done|]. cbn [parseElements] in H.
    apply bind_ok in H as ([x k'] & _ & H). destruct (skipSpace k') as [|w' q']; [done|].
    destruct (w' =? comma); [by eapply IH|]. by destruct (w' =? 0x5d). }
  destruct (Z.eqb_spec u 0x7b) as [->|]; [by eexists|].
  destruct ((u =? 0x2d) || isDigit u); [by apply bind_ok in H as ([] & _ & ?)|].
  apply syntax_ok in H. exfalso. clear -H. unfold literals in H. cbn [parseLiteral] in H. by repeat case_match; simplify_eq.
Qed.

(** A line the store takes is one line, and an object. *)
Lemma normalized_line encoded line : normalizeEncodedLine encoded = Ok line ->
  oneLine line /\ line <> [] /\ exists record, parseUtf8JsonObject line = Ok record.
Proof.
  unfold normalizeEncodedLine, parseUtf8JsonObject. intros H. set (bytes := match encoded with encoded_text _ => _ | _ => _ end) in H.
  destruct (textDecode bytes) as [text|] eqn:Et; [|done]. returns.
  destruct (jsonParse text) as [[]|] eqn:Ej; try done. injection H as <-. split_and!.
  - intros Hin. by apply (textDecode_lf _ _ Et) in Hin.
  - intros E. rewrite E in Et. by injection Et as <-.
  - rewrite Et, Ej. by eexists.
Qed.

(** What is there of it before its end is no object, and no other value. *)
Lemma cut_line line text record landed :
  textDecode line = Some (text ++ [0x7d]) -> parseUtf8JsonObject line = Ok record -> (landed < length line)%nat ->
  parseUtf8JsonObject (take landed line) = Err not_text \/ parseUtf8JsonObject (take landed line) = Err not_json.
Proof.
  intros Ht Hr Hl. unfold parseUtf8JsonObject in *. rewrite Ht in Hr.
  destruct (textDecode (take landed line)) as [s|] eqn:Es; [right|by left].
  destruct (jsonParse s) as [v|] eqn:Ev; [exfalso|done].
  destruct (decide (take landed line = [])) as [Hnil|Hnil]; [rewrite Hnil in Es; by injection Es as <-|].
  rewrite <-(take_drop landed line) in Ht. destruct (textDecode_app _ _ _ _ Es Ht Hnil) as (t & E & Hne).
  assert (t <> []) as Htne by (apply Hne; intros H%(f_equal length); rewrite length_drop in H; simpl in H; lia).
  destruct (jsonParse (text ++ [0x7d])) as [w|] eqn:Ew; [|done]. destruct w; try done.
  destruct (parsed_object _ _ Ew) as [rest Hrest].
  assert (numberFirst s = false) as Hn.
  { unfold numberFirst. destruct (skipSpace s) as [|u r] eqn:E'; [done|]. rewrite E, (skipSpace_app _ _ _ t E') in Hrest.
    by injection Hrest as -> _. }
  rewrite E in Ew. destruct (cut_object _ _ _ Ev Hn _ Ew) as [_ Hspace].
  destruct t as [|u t _] using rev_ind; [done|]. rewrite app_assoc in E. apply app_inj_tail in E as [_ <-].
  by apply (skipSpace_brace t).
Qed.

(** ** Reading lines *)

(** A line the store takes, without a byte order mark at its start. *)
Definition readable (line : list Z) : Prop := normalizeEncodedLine (encoded_bytes line) = Ok line /\ take 3 line <> BOM.

Lemma readable_line line : readable line -> exists cs text record,
  decodeScalars line = Some cs /\ cs <> [] /\ dropBom cs = cs /\ text = concat (units <$> cs) /\
  oneLine text /\ text <> [] /\ jsonParse text = Ok (VObject record) /\ parseUtf8JsonObject line = Ok record.
Proof.
  intros [H Hbom]. unfold normalizeEncodedLine in H. cbv beta iota zeta in H. unfold parseUtf8JsonObject.
  destruct (textDecode line) as [text|] eqn:Et; [|done]. returns.
  destruct (jsonParse text) as [[| | | | |record]|] eqn:Ej; try done. pose proof Et as Et'. unfold textDecode in Et'.
  apply fmap_Some in Et' as (cs & Hcs & ->). exists cs, (concat (units <$> dropBom cs)), record.
  assert (cs <> []) by (intros ->; done).
  assert (dropBom cs = cs) as Hdrop.
  { destruct cs as [|c cs]; [done|]. simpl. destruct (Z.eqb_spec c 0xfeff) as [->|]; [exfalso|done].
    apply decodeScalars_encode in Hcs as [_ <-]. by apply Hbom. }
  rewrite Hdrop in *. by rewrite Ej.
Qed.

(** The text of the file is the text of its lines. *)
Lemma decodeScalars_lines lines : Forall readable lines -> exists css,
  decodeScalars (encodeLines lines) = Some (concat ((fun cs => cs ++ [0x0a]) <$> css)) /\
  Forall2 (fun line cs => decodeScalars line = Some cs) lines css.
Proof.
  induction 1 as [|line lines Hline _ (css & H & Hcss)]; [by exists []|].
  destruct (readable_line _ Hline) as (cs & _ & _ & Hcs & _). exists (cs :: css). split; [|by constructor].
  unfold encodeLines, terminated. rewrite !fmap_cons, !concat_cons. fold terminated (encodeLines lines).
  rewrite (decodeScalars_app (line ++ [0x0a]) _ (cs ++ [0x0a])); [by rewrite H|].
  by rewrite (decodeScalars_app _ _ _ Hcs).
Qed.

Lemma textDecode_lines lines : Forall readable lines -> exists texts records,
  textDecode (encodeLines lines) = Some (encodeLines texts) /\ Forall oneLine texts /\
  Forall2 (fun line record => parseUtf8JsonObject line = Ok record) lines records /\
  Forall2 (fun text record => text <> [] /\ jsonParse text = Ok (VObject record)) texts records.
Proof.
  intros Hl. destruct (decodeScalars_lines _ Hl) as (css & Hd & Hcss). unfold textDecode. rewrite Hd. simpl.
  assert (dropBom (concat ((fun cs => cs ++ [0x0a]) <$> css)) = concat ((fun cs => cs ++ [0x0a]) <$> css)) as ->.
  { destruct Hcss as [|line cs lines css Hcs _]; [done|]. apply list.Forall_cons in Hl as [Hline _].
    destruct (readable_line _ Hline) as (cs' & _ & _ & Hcs' & Hne & Hdrop & _). rewrite Hcs in Hcs'. injection Hcs' as <-.
    rewrite fmap_cons, concat_cons, <-app_assoc, dropBom_app by done. by rewrite Hdrop. }
  clear Hd. induction Hcss as [|line cs lines css Hcs _ IH]; [by exists [], []|].
  apply list.Forall_cons in Hl as [Hline Hl]. destruct (IH Hl) as (texts & records & E & Hone & Hp & Hj).
  destruct (readable_line _ Hline) as (cs' & text & record & Hcs' & _ & _ & Htext & Ht1 & Ht2 & Hjson & Hparse).
  rewrite Hcs in Hcs'. injection Hcs' as <-. exists (text :: texts), (record :: records). split_and!; [|by constructor..].
  injection E as E. rewrite !fmap_cons, !concat_cons, !fmap_app, !concat_app, E, <-Htext. simpl. f_equal.
Qed.

Lemma parse_lines texts records values : Forall2 (fun text record => text <> [] /\ jsonParse text = Ok (VObject record)) texts records ->
  foldM (fun values line => value ← parseStoredLine line; Ok (values ++ [value])) texts values = Ok (values ++ (VObject <$> records)).
Proof.
  intros H. revert values. induction H as [|text record texts records [Hne Hj] _ IH]; intros values; [by rewrite app_nil_r|].
  cbn [foldM]. unfold parseStoredLine at 1. destruct text as [|u text]; [done|]. simpl. rewrite Hj. simpl.
  rewrite IH, <-app_assoc. done.
Qed.

(** The reader takes every file of such lines. *)
Lemma readStoredSession_lines {Event : Type} (decodeStoredEvents : list jvalue -> option (list Event)) lines :
  Forall readable lines -> Z.of_nat (length (encodeLines lines)) <= MAX_SESSION_FILE_BYTES -> exists records,
    Forall2 (fun line record => parseUtf8JsonObject line = Ok record) lines records /\
    readStoredSession decodeStoredEvents (encodeLines lines) =
      match decodeStoredEvents (VObject <$> records) with Some events => Ok events | None => Err events_refused end.
Proof.
  intros Hl Hsize. destruct (textDecode_lines _ Hl) as (texts & records & Ht & Hone & Hp & Hj). exists records. split; [done|].
  unfold readStoredSession. rewrite (proj2 (Z.ltb_ge _ _)) by done. simpl. rewrite Ht.
  rewrite <-(app_nil_r (encodeLines texts)), splitLines_encode by (done || (unfold oneLine; set_solver)). simpl.
  by rewrite (parse_lines _ _ _ Hj).
Qed.

(** ** The invariant *)

Section Life.
Context {T D : Type}.
Variable decode : D -> jsmap jstring jvalue -> Z -> list Z -> option (T * D).
Variable decoder : D.
Variable directory sessionId : string.
Notation path := (sessionFilePath directory sessionId).
Notation decodeLines := (decodeLines decode decoder).
Notation openStore := (openStore decode decoder directory sessionId).
Notation session_step := (session_step decode decoder directory sessionId).
Notation session_reachable := (session_reachable decode decoder directory sessionId).

Definition fileBytes (files : gmap string (list Z)) : list Z := default [] (files !! path).

(** The line an append was in, [torn] of it being in the file. *)
Record in_flight (lines : list (list Z)) (line torn : list Z) : Prop := {
  if_prefix : exists landed, (landed <= length line)%nat /\ torn = take landed line;
  if_torn : torn <> [];
  if_line : oneLine line;
  if_object : exists record, parseUtf8JsonObject line = Ok record;
  if_closed : exists text, textDecode line = Some (text ++ [0x7d]);
  if_decodes : is_ok (decodeLines (lines ++ [line])) = true }.

(** What is after the last line feed. *)
Inductive tail_of (history : list (list Z * bool)) (lines : list (list Z)) : list Z -> Prop :=
| tail_empty : survives history lines -> tail_of history lines []
| tail_torn before line torn :
    history = before ++ [(line, false)] -> survives before lines -> in_flight lines line torn -> tail_of history lines torn.

Definition writable (store : option DurableSessionStore) : bool :=
  match store with Some store => negb (dss_closed store) && negb (dss_poisoned store) | None => false end.

Record life_inv (st : SessionLife) : Prop := {
  li_lines : exists lines torn,
    fileBytes (slf_files st) = encodeLines lines ++ torn /\ Forall oneLine lines /\
    is_ok (decodeLines lines) = true /\ tail_of (slf_history st) lines torn /\
    (writable (slf_store st) = true -> torn = []) /\
    forall store, slf_store st = Some store -> writable (Some store) = true -> dss_lineCount store = Z.of_nat (length lines) }.

Lemma in_flight_oneLine lines line torn : in_flight lines line torn -> oneLine torn.
Proof.
  intros [(landed & _ & ->) _ Hone _ _ _]. unfold oneLine in *. intros H. apply Hone.
  rewrite <-(take_drop landed line). set_solver.
Qed.
Lemma tail_oneLine history lines torn : tail_of history lines torn -> oneLine torn.
Proof. intros [|? ? ? _ _ H]; [unfold oneLine; set_solver|by eapply in_flight_oneLine]. Qed.

(** A tail is split off as it is. *)
Lemma fileBytes_split files lines torn history :
  fileBytes files = encodeLines lines ++ torn -> Forall oneLine lines -> tail_of history lines torn ->
  splitLines (fileBytes files) = (lines, torn).
Proof. intros -> Hl Ht. apply splitLines_encode; [done|by eapply tail_oneLine]. Qed.

Lemma tail_whole history lines torn value : tail_of history lines torn -> parseUtf8JsonObject torn = Ok value ->
  survives history (lines ++ [torn]) /\ oneLine torn /\ is_ok (decodeLines (lines ++ [torn])) = true.
Proof.
  intros [|before line torn' -> Hs Hf] Hv; [done|]. pose proof (in_flight_oneLine _ _ _ Hf) as Hone.
  destruct Hf as [(landed & Hle & ->) Ht Hl [record Hr] [text Hc] Hd].
  destruct (decide (landed = length line)) as [->|Hlt].
  - rewrite firstn_all in *. split_and!; [by apply survives_kept|done..].
  - destruct (cut_line line text record landed Hc Hr ltac:(lia)) as [E|E]; by rewrite E in Hv.
Qed.

Lemma tail_lost history lines torn : tail_of history lines torn -> survives history lines.
Proof. intros [|before line torn' -> Hs _]; [done|by apply survives_lost]. Qed.

(** A line that did not arrive, in part or as a whole. *)
Lemma append_torn files lines line encoded landed text :
  Forall oneLine lines -> normalizeEncodedLine encoded = Ok line -> textDecode line = Some (text ++ [0x7d]) ->
  is_ok (decodeLines lines) = true -> is_ok (decodeLines (lines ++ [line])) = true ->
  fileBytes files = encodeLines lines ++ take landed (line ++ [0x0a]) ->
  forall history, survives history lines -> forall store, writable (Some store) = false ->
  life_inv {| slf_files := files; slf_store := Some store; slf_history := history ++ [(line, false)] |}.
Proof.
  intros Hl Hn Ht Hd Hd' Hf history Hs store Hw. destruct (normalized_line _ _ Hn) as (Hone & Hne & record & Hr).
  split. cbn [slf_files slf_history slf_store]. rewrite Hw.
  destruct (decide (landed <= length line)%nat) as [Hle|Hgt].
  - exists lines, (take landed line). rewrite (take_app_le line) in Hf by done. split_and!; try done; [|congruence].
    destruct (decide (take landed line = [])) as [E|E]; [rewrite E; by apply tail_empty, survives_lost|].
    eapply tail_torn; [done..|]. split; try done; eauto.
  - exists (lines ++ [line]), []. rewrite take_ge in Hf by (rewrite length_app; simpl; lia).
    rewrite encodeLines_snoc, app_nil_r. split_and!; try done; [by apply Forall_app_2; [|constructor]|by apply tail_empty, survives_kept|congruence].
Qed.

(** ** Opening *)

Lemma keeps_inv files files' history store :
  life_inv {| slf_files := files; slf_store := store; slf_history := history |} ->
  recovery_keeps directory sessionId files files' ->
  life_inv {| slf_files := files'; slf_store := None; slf_history := history |}.
Proof.
  intros [(lines & torn & Hf & Hl & Hd & Ht & _)] Hk. cbn [slf_files slf_history] in *.
  pose proof (fileBytes_split _ _ _ _ Hf Hl Ht) as Hsplit. unfold fileBytes in *.
  destruct (files !! path) as [source|] eqn:Es; simpl in *.
  - destruct (rk_session _ _ _ _ Hk source Es) as [Hs|ls rest value Hs Hv Hs'|ls rest name Hs Hv Hs' _ _].
    + split. exists lines, torn. unfold fileBytes. cbn [slf_files slf_history]. rewrite Hs. by split_and!.
    + rewrite Hsplit in Hs. injection Hs as <- <-. destruct (tail_whole _ _ _ _ Ht Hv) as (Hk' & Hone & Hd').
      split. exists (lines ++ [torn]), []. unfold fileBytes. cbn [slf_files slf_history]. rewrite Hs', encodeLines_snoc, app_nil_r, app_assoc, <-Hf.
      split_and!; try done; [by apply Forall_app_2; [|constructor]|by apply tail_empty].
    + rewrite Hsplit in Hs. injection Hs as <- <-. split. exists lines, []. unfold fileBytes. cbn [slf_files slf_history].
      rewrite Hs', app_nil_r. split_and!; try done. by eapply tail_empty, tail_lost.
  - rewrite (rk_missing _ _ _ _ Hk Es). split. exists lines, torn. unfold fileBytes. cbn [slf_files slf_history]. rewrite Es. by split_and!.
Qed.

(** The invariant is about the bytes of the file. *)
Lemma life_inv_bytes files files' history :
  fileBytes files' = fileBytes files ->
  life_inv {| slf_files := files; slf_store := None; slf_history := history |} ->
  life_inv {| slf_files := files'; slf_store := None; slf_history := history |}.
Proof. intros E [H]. split. cbn [slf_files slf_history slf_store] in *. by rewrite E. Qed.

Lemma openStore_spec now nonce files :
  wps (openStore now nonce)
    (fun opened files' => exists files1, recovery_keeps directory sessionId files files1 /\
       recovered decode decoder directory sessionId files1 (trr_lineCount opened.2) (trr_decoded opened.2) /\
       fileBytes files' = fileBytes files1 /\ is_Some (files' !! path) /\
       opened.1 = {| dss_closed := false; dss_lineCount := trr_lineCount opened.2; dss_poisoned := false |})
    (fun files' => exists files1, recovery_keeps directory sessionId files files1 /\ fileBytes files' = fileBytes files1) files.
Proof.
  apply wps_bind. eapply wps_mono; [apply recoverSessionTail_spec| |eauto]. intros r files1 [Hk Hr].
  apply wps_bind, wps_call; [|eauto]. apply wps_bind, wps_getFile. destruct (files1 !! path) as [bytes|] eqn:Es.
  - apply wps_bind, wps_ret, wps_bind, wps_call; [|eauto]. apply wps_ret. exists files1. by split_and!.
  - assert (fileBytes (<[path := []]> files1) = fileBytes files1) as E by (unfold fileBytes; by rewrite lookup_insert_eq, Es).
    apply wps_bind, wps_putFile, wps_bind, wps_call; [|eauto]. apply wps_ret. exists files1. split_and!; try done.
    by rewrite lookup_insert_eq.
Qed.

(** What a file that was opened holds: the lines that survived. *)
Lemma opened_lines now nonce answers st opened w :
  life_inv st -> openStore now nonce {| wd_files := slf_files st; wd_answers := answers |} = (Ok opened, w) ->
  exists lines d, survives (slf_history st) lines /\ Forall oneLine lines /\
    wd_files w !! path = Some (encodeLines lines) /\
    decodeLines lines = Ok (trr_decoded opened.2, d) /\
    opened.1 = {| dss_closed := false; dss_lineCount := Z.of_nat (length lines); dss_poisoned := false |}.
Proof.
  destruct st as [files store history]. intros Hinv H. pose proof (openStore_spec now nonce files answers) as Hs.
  cbn [slf_files slf_history] in *. rewrite H in Hs.
  destruct Hs as (files1 & Hk & (lines & d & Hf & Hl & Hd & Hc) & Hbytes & [bytes Hsome] & Hstore).
  destruct (keeps_inv _ _ _ _ Hinv Hk) as [(lines' & torn & Hf' & Hl' & _ & Ht & _)]. cbn [slf_files slf_history] in *.
  pose proof (fileBytes_split _ _ _ _ Hf' Hl' Ht) as Hsplit. unfold fileBytes in *. rewrite Hf in Hsplit.
  rewrite <-(app_nil_r (encodeLines lines)), splitLines_encode in Hsplit by (done || (unfold oneLine; set_solver)).
  injection Hsplit as <- <-. exists lines, d. split_and!; [by eapply tail_lost|done| |done|by rewrite Hstore, Hc].
  rewrite Hsome in *. simpl in Hbytes. by rewrite Hbytes, Hf.
Qed.

Lemma open_inv now nonce answers st answer w : life_inv st ->
  openStore now nonce {| wd_files := slf_files st; wd_answers := answers |} = (answer, w) ->
  life_inv {| slf_files := wd_files w; slf_store := openedStore answer; slf_history := slf_history st |}.
Proof.
  intros Hinv H. destruct answer as [opened|e].
  - destruct (opened_lines _ _ _ _ _ _ Hinv H) as (lines & d & Hs & Hl & Hf & Hd & Hstore).
    split. exists lines, []. unfold fileBytes. cbn [slf_files slf_history slf_store]. rewrite Hf, Hd, app_nil_r.
    split_and!; try done; [by apply tail_empty|]. destruct opened as [store r]. simpl in *. intros store' [= <-] _. by rewrite Hstore.
  - pose proof (openStore_spec now nonce (slf_files st) answers) as Hs. rewrite H in Hs. destruct Hs as (files1 & Hk & E).
    destruct st as [files store history]. cbn [slf_files slf_history] in *.
    eapply life_inv_bytes; [exact E|]. by eapply keeps_inv.
Qed.

(** ** Appending *)

Lemma append_inv st store encoded answers answer store' w : life_inv st -> slf_store st = Some store ->
  appendable decode decoder directory sessionId st encoded ->
  appendEncodedLine directory sessionId store encoded {| wd_files := slf_files st; wd_answers := answers |} = (answer, store', w) ->
  life_inv {| slf_files := wd_files w; slf_store := Some store'; slf_history := slf_history st ++ attempt store encoded answer |}.
Proof.
  destruct st as [files store0 history]. cbn [slf_files slf_store slf_history]. intros Hinv -> Hc H.
  unfold appendEncodedLine in H. unfold attempt.
  destruct (dss_closed store) eqn:Ecl; [injection H as <- <- <-; by rewrite app_nil_r|].
  destruct (dss_poisoned store) eqn:Epo; [injection H as <- <- <-; by rewrite app_nil_r|]. cbn [orb].
  destruct (normalizeEncodedLine encoded) as [line|e] eqn:En; [|injection H as <- <- <-; by rewrite app_nil_r].
  destruct Hinv as [(lines & torn & Hf & Hl & Hd & Ht & Hw & Hcount)]. cbn [slf_files slf_store slf_history] in *.
  assert (writable (Some store) = true) as Hwr by (simpl; by rewrite Ecl, Epo).
  rewrite (Hw Hwr), app_nil_r in Hf. rewrite (Hw Hwr) in Ht. apply tail_lost in Ht.
  destruct (Hc line En) as ([text Htext] & Hdec). specialize (Hcount store eq_refl Hwr).
  assert (is_ok (decodeLines (lines ++ [line])) = true) as Hd'.
  { apply Hdec. cbn [slf_files]. fold (fileBytes files). rewrite Hf, <-(app_nil_r (encodeLines lines)).
    apply splitLines_encode; [done|unfold oneLine; set_solver]. }
  destruct (normalized_line _ _ En) as (Hone & _).
  assert (writable (Some (store <| dss_poisoned := true |>)) = false) as Hpo by (simpl; by rewrite Ecl).
  pose proof (fun files' landed Hb => append_torn files' lines line encoded landed text Hl En Htext Hd Hd' Hb history Ht _ Hpo) as Htorn.
  assert (wps (_ ← call; appendFile path (line ++ [0x0a]) append_write_incomplete)
    (fun _ files' => fileBytes files' = encodeLines lines ++ line ++ [0x0a])
    (fun files' => exists landed, fileBytes files' = encodeLines lines ++ take landed (line ++ [0x0a])) files) as Happend.
  { apply wps_bind, wps_call; [|exists 0%nat; simpl; by rewrite app_nil_r].
    apply wps_appendFile; fold (fileBytes files); rewrite Hf; [|intros n; exists n]; unfold fileBytes; by rewrite lookup_insert_eq. }
  specialize (Happend answers). revert H Happend. generalize ((_ ← call; appendFile path (line ++ [0x0a]) append_write_incomplete) {| wd_files := files; wd_answers := answers |}).
  intros [[[]|e] w'] H Happend; injection H as <- <- <-.
  - split. exists (lines ++ [line]), []. cbn [slf_files slf_store slf_history]. rewrite Happend, encodeLines_snoc, app_nil_r.
    split_and!; try done; [by apply Forall_app_2; [|constructor]|by apply tail_empty, survives_kept|].
    intros store' [= <-] _. simpl. rewrite Hcount, length_app. simpl. lia.
  - destruct Happend as [landed Hb]. by eapply Htorn.
Qed.

Lemma session_step_inv st st' : life_inv st -> session_step st st' -> life_inv st'.
Proof.
  intros Hinv Hstep. destruct Hstep as [st now nonce answers answer w _ H|st store encoded answers answer store' w Hs Hc H|st store answers answer store' w Hs H|st].
  - by eapply open_inv.
  - by eapply append_inv.
  - assert (wd_files w = slf_files st /\ (writable (Some store') = true -> store' = store)) as [-> Hwr].
    { unfold closeStore in H. destruct (dss_closed store) eqn:E; [by injection H as <- <- <-|].
      assert (wd_files w = slf_files st /\ store' = store <| dss_closed := true |>) as [-> ->]; [|by split].
      revert H. destruct (dss_poisoned store); destruct answers as [|[|] [|[|] ?]]; simpl; intros; by simplify_eq/=. }
    destruct Hinv as [(lines & torn & Hf & Hl & Hd & Ht & Hw & Hcount)]. split. exists lines, torn. cbn [slf_files slf_store slf_history].
    rewrite Hs in Hw, Hcount. split_and!; try done; [intros Hw'; pose proof (Hwr Hw'); subst; by apply Hw|].
    intros s Heq Hw'. injection Heq as <-. pose proof (Hwr Hw'). subst store'. by apply Hcount.
  - destruct Hinv as [(lines & torn & Hf & Hl & Hd & Ht & Hw & Hcount)]. split. exists lines, torn. by split_and!.
Qed.

Lemma session_reachable_inv st : session_reachable st -> life_inv st.
Proof.
  intros (files & Hnone & H).
  assert (life_inv {| slf_files := files; slf_store := None; slf_history := [] |}) as H0.
  { split. exists [], []. unfold fileBytes. cbn [slf_files slf_store slf_history]. rewrite Hnone.
    split_and!; try done. apply tail_empty, survives_nothing. }
  revert H0. induction H as [|st st' st'' Hstep _ IH]; [done|]. intros Hinv. by eapply IH, session_step_inv.
Qed.

(** ** The properties *)

(** C17: recovering the tail of a session file, whatever the file holds and wherever
    the recovery fails, changes no other file and loses no byte: the file is left as
    it was, or a line feed ends its last line, which is one whole object, or the
    bytes after the last line feed are removed, when they are no JSON value, and a
    backup holds all of the file. *)
Theorem recovery_loses_nothing now nonce files answers :
  recovery_keeps directory sessionId files
    (wd_files (recoverSessionTail decode decoder directory sessionId now nonce {| wd_files := files; wd_answers := answers |}).2).
Proof.
  pose proof (recoverSessionTail_spec decode decoder directory sessionId now nonce files answers) as H.
  by destruct (recoverSessionTail _ _ _ _ _ _ _) as [[r|e] w]; [destruct H|].
Qed.

(** C15: over every sequence of opens, appends, faults and ends of the process, a
    store that opens holds exactly the lines that survived: every line whose append
    was acknowledged, in order, and of the others whole lines or nothing; it hands
    out their events and counts them. *)
Theorem acknowledged_lines_survive st now nonce answers store recovery w :
  session_reachable st ->
  openStore now nonce {| wd_files := slf_files st; wd_answers := answers |} = (Ok (store, recovery), w) ->
  exists lines d, survives (slf_history st) lines /\
    wd_files w !! path = Some (encodeLines lines) /\
    decodeLines lines = Ok (trr_decoded recovery, d) /\
    dss_lineCount store = Z.of_nat (length lines).
Proof.
  intros Hr%session_reachable_inv H. destruct (opened_lines _ _ _ _ _ _ Hr H) as (lines & d & Hs & _ & Hf & Hd & E).
  exists lines, d. simpl in *. by rewrite E.
Qed.

(** What [recoverSessionTail] does with the tails there can be. *)
Lemma final_of_tail history lines torn events d : tail_of history lines torn -> decodeLines lines = Ok (events, d) ->
  exists final, finalFragment decode torn (Z.of_nat (length events) + 1) d = Ok final.
Proof.
  intros Ht Hd. unfold finalFragment. destruct Ht as [|before line torn _ _ Hf]; [by eexists|].
  destruct Hf as [(landed & Hle & ->) Hne Hone [record Hr] [text Hc] Hdec].
  destruct (take landed line) as [|b torn] eqn:Et; [done|]. rewrite <-Et in *. clear Hne.
  destruct (length (take landed line) =? 0)%nat eqn:El; [rewrite Et in El; discriminate|].
  destruct (decide (landed = length line)) as [->|Hlt].
  - rewrite firstn_all in *. rewrite Hr. rewrite decodeLines_snoc, Hd in Hdec. unfold mbind, result_bind, decodeLine, decodeCompleteLine in Hdec.
    simpl in Hdec. rewrite El in Hdec. simpl in Hdec. rewrite Hr in Hdec.
    destruct (decode d record _ line) as [[event d']|]; [|done]. by eexists.
  - destruct (cut_line line text record landed Hc Hr ltac:(lia)) as [E|E]; rewrite E; by eexists.
Qed.

(** C16: after any sequence of opens, appends, faults and ends of the process the
    next open succeeds, when no call fails and the names of its backup are free: no
    state that a crash leaves is taken for corruption. *)
Theorem recovery_succeeds st now nonce :
  session_reachable st -> isCanonicalUuid nonce = true ->
  slf_files st !! (directory ++ "/" ++ backupFileName sessionId (recoverySuffix now nonce))%string = None ->
  slf_files st !! (directory ++ "/" ++ recoveryTempName sessionId (recoverySuffix now nonce))%string = None ->
  is_ok (openStore now nonce {| wd_files := slf_files st; wd_answers := [] |}).1 = true.
Proof.
  intros [(lines & torn & Hf & Hl & Hd & Ht & _)]%session_reachable_inv Hn Hb Htemp.
  cut (wpo (openStore now nonce) (fun _ _ => True) (slf_files st)); [by intros (a & files & -> & _)|].
  assert (forall r files, wpo (_ ← call; existing ← getFile path;
      _ ← match existing with Some _ => mret () | None => putFile path [] end; _ ← call;
      mret ({| dss_closed := false; dss_lineCount := trr_lineCount (T := T) r; dss_poisoned := false |}, r))
    (fun _ _ => True) files) as Hend.
  { intros r files. apply wpo_bind, wpo_call, wpo_bind, wpo_getFile.
    destruct (files !! path); apply wpo_bind; [apply wpo_ret|apply wpo_putFile]; by apply wpo_bind, wpo_call, wpo_ret. }
  apply wpo_bind. unfold recoverSessionTail. do 3 apply wpo_bind, wpo_call. apply wpo_bind, wpo_getFile.
  destruct (slf_files st !! path) as [[|b source]|] eqn:Es; [by apply wpo_ret| |by apply wpo_ret].
  pose proof (fileBytes_split _ _ _ _ Hf Hl Ht) as Hsplit. unfold fileBytes in Hsplit. rewrite Es in Hsplit. simpl default in Hsplit.
  set (s := b :: source) in *. clearbody s. rewrite Hsplit.
  destruct (decodeLines lines) as [[events d]|] eqn:Ed; [|done]. apply wpo_bind. eapply wpo_lift; [done|].
  destruct (final_of_tail _ _ _ _ _ Ht Ed) as (final & Hfinal). apply wpo_bind. eapply wpo_lift; [exact Hfinal|].
  pose proof (backup_name_ne directory sessionId (recoverySuffix now nonce)) as Hbne.
  pose proof (temp_backup_ne directory sessionId (recoverySuffix now nonce) (recoverySuffix now nonce)) as Htne.
  destruct final as [|event|]; [by apply wpo_ret| |];
    (apply wpo_bind; eapply wpo_lift; [by rewrite Hn|]; apply wpo_bind, wpo_writePrivateFile; [done|]).
  - apply wpo_bind, wpo_appendMissingNewline; [by rewrite lookup_insert_ne|]. by apply wpo_ret.
  - apply wpo_bind, wpo_replaceWithPrefix; [by rewrite lookup_insert_ne|]. by apply wpo_bind, wpo_call, wpo_ret.
Qed.

(** ** Reading what is left *)

Lemma normalize_again encoded line : normalizeEncodedLine encoded = Ok line -> normalizeEncodedLine (encoded_bytes line) = Ok line.
Proof.
  unfold normalizeEncodedLine. cbv beta iota zeta.
  generalize (match encoded with encoded_text text => encodeUtf8 text | encoded_bytes bytes => bytes end). intros bytes H.
  assert (bytes = line) as -> by (destruct (textDecode bytes) as [text|]; [returns; by destruct (jsonParse text) as [[]|]; simplify_eq|done]).
  exact H.
Qed.

Lemma history_normalized st : session_reachable st ->
  Forall (fun entry => normalizeEncodedLine (encoded_bytes entry.1) = Ok entry.1) (slf_history st).
Proof.
  intros (files & _ & H). remember {| slf_files := files; slf_store := None; slf_history := [] |} as st0 eqn:E0.
  assert (Forall (fun entry : list Z * bool => normalizeEncodedLine (encoded_bytes entry.1) = Ok entry.1) (slf_history st0)) as H0
    by (by rewrite E0). clear E0. revert H0. induction H as [|st0 st1 st2 Hstep _ IH]; [done|]. intros H0. apply IH.
  destruct Hstep; cbn [slf_history] in *; try done. apply Forall_app_2; [done|]. unfold attempt.
  destruct (_ || _); [done|]. destruct (normalizeEncodedLine encoded) as [line|] eqn:En; [|done].  constructor; [|done]. by eapply normalize_again.
Qed.

Lemma survives_incl history lines (P : list Z -> Prop) : survives history lines -> Forall (fun entry => P entry.1) history -> Forall P lines.
Proof.
  induction 1 as [|history lines line acknowledged _ IH|history lines line _ IH]; [done| |]; intros [H1 H2]%list.Forall_app.
  - apply Forall_app_2; [by apply IH|]. apply list.Forall_cons in H2 as [H2 _]. by constructor.
  - by apply IH.
Qed.

(** The file that an open leaves is read whole by the reader that never
    repairs: it hands the values of exactly the lines that survived to the event
    decoder, when none of them starts with a byte order mark and the file is not too
    large. *)
Theorem recovered_session_is_readable {Event : Type} (decodeStoredEvents : list jvalue -> option (list Event))
    st now nonce answers opened w :
  session_reachable st ->
  openStore now nonce {| wd_files := slf_files st; wd_answers := answers |} = (Ok opened, w) ->
  Forall (fun entry => take 3 entry.1 <> BOM) (slf_history st) ->
  Z.of_nat (length (fileBytes (wd_files w))) <= MAX_SESSION_FILE_BYTES ->
  exists lines records, survives (slf_history st) lines /\
    Forall2 (fun line record => parseUtf8JsonObject line = Ok record) lines records /\
    readStoredSession decodeStoredEvents (fileBytes (wd_files w)) =
      match decodeStoredEvents (VObject <$> records) with Some events => Ok events | None => Err events_refused end.
Proof.
  intros Hr H Hbom Hsize. destruct (opened_lines _ _ _ _ _ _ (session_reachable_inv _ Hr) H) as (lines & d & Hs & _ & Hf & _ & _).
  unfold fileBytes in *. rewrite Hf in *. simpl in *.
  destruct (readStoredSession_lines decodeStoredEvents lines) as (records & Hp & Hread); [|done|by exists lines, records].
  eapply (survives_incl _ _ readable); [done|]. pose proof (history_normalized _ Hr) as Hn.
  rewrite list.Forall_forall in *. intros entry Hin. split; [by apply Hn|by apply Hbom].
Qed.
End Life.

(** ** A session that was cut *)

(** A session with one acknowledged line; the write of the second one ended after
    five of its bytes, or with all of it but the line feed. *)
Module SampleStore.
Definition countingDecode (seen : Z) (record : jsmap jstring jvalue) (physicalLine : Z) (raw : list Z)
  : option (jsmap jstring jvalue * Z) :=
  if physicalLine =? seen + 1 then Some (record, physicalLine) else None.
Definition sessionName : string := "11111111-1111-4111-8111-111111111111".
Definition nonce : string := "22222222-2222-4222-8222-222222222222".
Definition samplePath : string := sessionFilePath "sessions" sessionName.
Definition first : list Z := quoted "{`seq`:1}".
Definition second : list Z := quoted "{`seq`:2,`text`:`x`}".
Definition openSample (st : SessionLife) := openStore countingDecode 0 "sessions" sessionName 7 nonce
  {| wd_files := slf_files st; wd_answers := [] |}.
Definition afterOpen (st : SessionLife) : SessionLife := {|
  slf_files := wd_files (openSample st).2; slf_store := openedStore (openSample st).1; slf_history := slf_history st |}.
Definition afterAppend (store : DurableSessionStore) (line : list Z) (answers : list IoAnswer) (st : SessionLife) : SessionLife :=
  let '(answer, store', w) := appendEncodedLine "sessions" sessionName store (encoded_bytes line)
    {| wd_files := slf_files st; wd_answers := answers |} in
  {| slf_files := wd_files w; slf_store := Some store'; slf_history := slf_history st ++ attempt store (encoded_bytes line) answer |}.
Definition new : SessionLife := {| slf_files := ∅; slf_store := None; slf_history := [] |}.
Definition empty : DurableSessionStore := {| dss_closed := false; dss_lineCount := 0; dss_poisoned := false |}.
Definition one : DurableSessionStore := {| dss_closed := false; dss_lineCount := 1; dss_poisoned := false |}.
Definition appended : SessionLife := afterAppend empty first [] (afterOpen new).
Definition torn (landed : nat) : SessionLife :=
  let st := afterAppend one second [io_done; io_fault landed] appended in
  {| slf_files := slf_files st; slf_store := None; slf_history := slf_history st |}.

Lemma opens st : slf_store st = None -> session_step countingDecode 0 "sessions" sessionName st (afterOpen st).
Proof. intros H. eapply (session_opens _ _ _ _ st 7 nonce []); [done|apply surjective_pairing]. Qed.
Lemma appends st store line answers text : slf_store st = Some store ->
  textDecode line = Some (text ++ [0x7d]) ->
  is_ok (decodeLines countingDecode 0 ((splitLines (default [] (slf_files st !! samplePath))).1 ++ [line])) = true ->
  session_step countingDecode 0 "sessions" sessionName st (afterAppend store line answers st).
Proof.
  intros Hs Ht Hd. unfold afterAppend. destruct (appendEncodedLine _ _ _ _ _) as [[answer store'] w] eqn:E.
  eapply session_appends; [done| |done]. intros line' Hline.
  assert (line' = line) as ->.
  { revert Hline. unfold normalizeEncodedLine. rewrite Ht. intros H. returns. by destruct (jsonParse _) as [[]|]; simplify_eq. }
  split; [by exists text|]. intros lines Hl. unfold samplePath in Hd. by rewrite Hl in Hd.
Qed.

Lemma torn_reachable landed : session_reachable countingDecode 0 "sessions" sessionName (torn landed).
Proof.
  exists ∅. split; [done|]. eapply rtc_l; [by apply (opens new)|].
  eapply rtc_l; [apply (appends (afterOpen new) empty first [] (quoted "{`seq`:1")); by vm_compute|].
  eapply rtc_l; [apply (appends appended one second [io_done; io_fault landed] (quoted "{`seq`:2,`text`:`x`")); by vm_compute|].
  eapply rtc_l; [apply session_ends|]. apply rtc_refl.
Qed.

(** A cut line goes, and a whole one stays. *)
Example sample_recoveries :
  (fun landed => (fun r => (trr_kind r.2, dss_lineCount r.1, trr_removedBytes r.2)) <$> (openSample (torn landed)).1)
    <$> [0%nat; 5%nat; length second; S (length second)]
  = [Ok (tail_none, 1, 0); Ok (tail_removed, 1, 5); Ok (newline_added, 2, 0); Ok (tail_none, 2, 0)].
Proof. vm_compute. reflexivity. Qed.

Lemma acknowledged_lines_survive_witness : exists store recovery w,
  openSample (torn 5) = (Ok (store, recovery), w) /\
  exists lines d, survives (slf_history (torn 5)) lines /\ wd_files w !! samplePath = Some (encodeLines lines) /\
    decodeLines countingDecode 0 lines = Ok (trr_decoded recovery, d) /\ dss_lineCount store = Z.of_nat (length lines).
Proof.
  destruct (openSample (torn 5)) as [[[store recovery]|e] w] eqn:E; [|vm_compute in E; discriminate E].
  exists store, recovery, w. split; [reflexivity|].
  exact (acknowledged_lines_survive countingDecode 0 "sessions" sessionName (torn 5) 7 nonce [] store recovery w
    (torn_reachable 5) E).
Defined.

Lemma recovery_succeeds_witness : is_ok (openSample (torn 5)).1 = true.
Proof.
  apply (recovery_succeeds countingDecode 0 "sessions" sessionName (torn 5) 7 nonce (torn_reachable 5)); vm_compute; reflexivity.
Defined.

Lemma recovered_session_is_readable_witness : exists opened w,
  openSample (torn 5) = (Ok opened, w) /\
  exists lines records, survives (slf_history (torn 5)) lines /\
    Forall2 (fun line record => parseUtf8JsonObject line = Ok record) lines records /\
    readStoredSession (fun values => Some values) (fileBytes "sessions" sessionName (wd_files w)) = Ok (VObject <$> records).
Proof.
  destruct (openSample (torn 5)) as [[opened|e] w] eqn:E; [|vm_compute in E; discriminate E].
  exists opened, w. split; [reflexivity|].
  apply (recovered_session_is_readable countingDecode 0 "sessions" sessionName (fun values => Some values) (torn 5) 7 nonce [] opened w
    (torn_reachable 5) E).
  - vm_compute. repeat constructor; intros H; discriminate H.
  - vm_compute in E. injection E as _ <-. vm_compute. intros H. discriminate H.
Defined.

(** A line that starts with a byte order mark is taken by the store, decoded by the
    recovery, and refused by the reader when it is not the first one. *)
Example bom_line_is_unreadable :
  normalizeEncodedLine (encoded_bytes (BOM ++ first)) = Ok (BOM ++ first) /\
  is_ok (decodeLines countingDecode 0 [first; BOM ++ first]) = true /\
  readStoredSession (fun values => Some values) (encodeLines [first; BOM ++ first]) = Err invalid_json.
Proof. by vm_compute. Qed.
End SampleStore.
