(* ===== verification/Writer.v ===== *)
(** * The durable writer of a session

    [src/sessions/v2-session-writer.ts]: every event of a session is appended
    by one writer. An append stamps the event with the next sequence numbers,
    projects the prospective log with every projector, hands the line to the
    store of the session file ([SessionStore.v]), and advances its own state
    only after the store has written and synced it; a log on disk is therefore
    one that all projectors accept.  The writer's gate makes the appends of
    concurrent callers a sequence.  The events are the decoded ones; the text
    [JSON.stringify] gives to the envelope of an event is a parameter of which
    nothing is assumed.  The second part is the writer's properties. *)

From S2P Require Import Prelude JsString Domain Events EventLog TaskState TaskGraphSchema TaskGraphTopology TaskGraph TaskGraphFacts TaskExecution TaskExecutionFacts TaskExecutionProperties Utf8 JsonParse SessionStore SessionStoreFacts.
#[local] Open Scope Z_scope.

Inductive WriterError : Type :=
| WriterClosed
| WriterPoisoned
| LogRefused (error : StoredEventDecodeError)
| Phase9Refused
| TaskRefused (error : TaskError)
| GraphRefused (error : GraphProjectionError)
| ExecutionRefused (error : ExecutionError)
| LaterCheckRefused
| StorageFailed (error : SessionStoreError)
| HookFailed.

(** [TaskSchedulerProjectionSnapshotV1], without the worktrees. *)
Record TaskSchedulerProjectionSnapshot : Type := {
  tss_eventCount : Z;
  tss_taskExecution : option TaskExecutionProjection;
  tss_taskGraph : TaskGraphProjection;
}.

(** The fields of [V2SessionWriter] an append reads or changes. *)
Record V2SessionWriter : Type := {
  w_closed : bool;
  w_fatalAfterDurableHookObserved : bool;
  w_decoded : list DecodedStoredEvent;
  w_nextRunSequence : gmap string Z;
  w_taskSchedulerProjection : option TaskSchedulerProjectionSnapshot;
  w_store : DurableSessionStore;
}.
#[export] Instance V2SessionWriter_eta : Eta V2SessionWriter := fun r =>
  Build_V2SessionWriter (w_closed r) (w_fatalAfterDurableHookObserved r) (w_decoded r)
    (w_nextRunSequence r) (w_taskSchedulerProjection r) (w_store r).

(** [this.nextRunSequence.set(event.runId, event.runSeq + 1)] *)
Definition countRun (next : gmap string Z) (event : DecodedStoredEvent) : gmap string Z :=
  match scope event with
  | RunScope runId runSeq _ => <[runId := runSeq + 1]> next
  | SessionScope _ => next
  end.

Section Writer.
Context (isUuid : jstring -> bool) (localeLower : jstring -> jstring) (localeLe : jstring -> jstring -> bool).
Context (sha256 : jstring -> string) (fuel : nat).

(** The checks that are not modelled here: [assertPhase9RunEventSemantics],
    and those of worktrees, background jobs, delegations, the goal change
    ledger and the raw cancel bindings. Nothing is assumed of them. *)
Context (phase9 laterChecks : list DecodedStoredEvent -> bool).

(** The session file, and [JSON.stringify] of the envelope of an event. *)
Context (directory sessionName : string) (stringify : DecodedStoredEvent -> jstring).

(** [TaskGraphProjector.project] and [TaskExecutionProjector.project] on it. *)
Definition projectGraphs (events : list DecodedStoredEvent) : result GraphProjectionError TaskGraphProjection :=
  projectGraph isUuid localeLower localeLe sha256 fuel events.

Definition mapError {E E' A} (f : E -> E') (r : result E A) : result E' A :=
  match r with Ok a => Ok a | Err e => Err (f e) end.

(** The constructor, on the opened store and the decoded log of its file: the
    decoder has already checked every prefix of it. *)
Definition openWriter (store : DurableSessionStore) (decoded : list DecodedStoredEvent) : result WriterError V2SessionWriter :=
  _ ← mapError LogRefused (assertDecodedStoredEventInvariants decoded);
  _ ← throw_when (negb (phase9 decoded)) Phase9Refused;
  Ok {| w_closed := false; w_fatalAfterDurableHookObserved := false; w_decoded := decoded;
        w_nextRunSequence := foldl countRun ∅ decoded; w_taskSchedulerProjection := None;
        w_store := store |}.

(** The sequence numbers [appendEnvelopeOwned] gives to an envelope. *)
Definition stampEnvelope (w : V2SessionWriter) (envelope : DecodedStoredEvent) : DecodedStoredEvent := {|
  eventId := eventId envelope;
  sessionId := sessionId envelope;
  sessionSeq := Z.of_nat (length (w_decoded w)) + 1;
  sourceSchemaVersion := 2;
  scope := match scope envelope with
           | RunScope runId _ data =>
               RunScope runId (match w_nextRunSequence w !! runId with Some n => n | None => 1 end) data
           | SessionScope data => SessionScope data
           end |}.

(** The checks of the prospective log, in order. *)
Definition checkProspective (prospective : list DecodedStoredEvent)
  : result WriterError (TaskGraphProjection * option TaskExecutionProjection) :=
  _ ← mapError LogRefused (assertDecodedStoredEventInvariants prospective);
  _ ← throw_when (negb (phase9 prospective)) Phase9Refused;
  _ ← mapError TaskRefused (project sha256 prospective);
  taskGraph ← mapError GraphRefused (projectGraphs prospective);
  taskExecution ← mapError ExecutionRefused (projectExecution localeLe prospective (tgp_revisions taskGraph));
  _ ← throw_when (negb (laterChecks prospective)) LaterCheckRefused;
  Ok (taskGraph, taskExecution).

(** The writer after the line is on disk. *)
Definition commit (event : DecodedStoredEvent) (taskGraph : TaskGraphProjection)
    (taskExecution : option TaskExecutionProjection) (w : V2SessionWriter) : V2SessionWriter :=
  let decoded := w_decoded w ++ [event] in
  w <| w_decoded := decoded |>
    <| w_taskSchedulerProjection := Some {|
         tss_eventCount := Z.of_nat (length decoded);
         tss_taskExecution := taskExecution; tss_taskGraph := taskGraph |} |>
    <| w_nextRunSequence ::= fun next => countRun next event |>.

(** [appendEnvelopeOwned], with the file system of [world]; [hookReturned] tells
    whether [afterDurableEvent] returned. *)
Definition appendEnvelopeOwned (hookReturned : bool) (input : DecodedStoredEvent) (w : V2SessionWriter) (world : World)
  : result WriterError DecodedStoredEvent * V2SessionWriter * World :=
  if w_closed w then (Err WriterClosed, w, world)
  else if w_fatalAfterDurableHookObserved w then (Err WriterPoisoned, w, world)
  else
    let event := stampEnvelope w input in
    match checkProspective (w_decoded w ++ [event]) with
    | Err e => (Err e, w, world)
    | Ok (taskGraph, taskExecution) =>
        let encoded := encoded_text (stringify event) in
        match appendEncodedLine directory sessionName (w_store w) encoded world with
        | (Err e, store, world) => (Err (StorageFailed e), w <| w_store := store |>, world)
        | (Ok _, store, world) =>
            let w := commit event taskGraph taskExecution (w <| w_store := store |>) in
            if hookReturned then (Ok event, w, world)
            else (Err HookFailed, w <| w_fatalAfterDurableHookObserved := true |>, world)
        end
    end.

(** [close], without the listeners: what the store throws is thrown. *)
Definition closeWriter (w : V2SessionWriter) (world : World)
  : result SessionStoreError () * V2SessionWriter * World :=
  if w_closed w then (Ok (), w, world)
  else
    let '(answer, store, world) := closeStore (w_store w) world in
    (answer, w <| w_closed := true |> <| w_store := store |>, world).

(** [readTaskSchedulerProjection]: [None] when the snapshot is not of the tail. *)
Definition readTaskSchedulerProjection (w : V2SessionWriter)
  : option (option TaskSchedulerProjectionSnapshot) :=
  match w_taskSchedulerProjection w with
  | None => Some None
  | Some snapshot =>
      if (tss_eventCount snapshot !== Z.of_nat (length (w_decoded w))) ||
         (tss_eventCount snapshot !== lastSeq (w_decoded w))
      then None else Some (Some snapshot)
  end.

(** A writer and the files it works on. *)
Record WriterLife : Type := { wl_writer : V2SessionWriter; wl_files : gmap string (list Z) }.

(** The appends and closes of all callers, in the order of the gate; the
    environment gives every call to the file system its answer. *)
Inductive writer_step : WriterLife -> WriterLife -> Prop :=
| ws_append hookReturned input answers s answer w world :
    appendEnvelopeOwned hookReturned input (wl_writer s) {| wd_files := wl_files s; wd_answers := answers |}
      = (answer, w, world) ->
    writer_step s {| wl_writer := w; wl_files := wd_files world |}
| ws_close answers s answer w world :
    closeWriter (wl_writer s) {| wd_files := wl_files s; wd_answers := answers |} = (answer, w, world) ->
    writer_step s {| wl_writer := w; wl_files := wd_files world |}.

(** The bytes of the session file, and the line of an event in it. *)
Definition logFile (files : gmap string (list Z)) : list Z :=
  default [] (files !! sessionFilePath directory sessionName).
Definition storedLine (event : DecodedStoredEvent) : list Z := encodeUtf8 (stringify event).
End Writer.

(** ** What the durable writer guarantees

    Every log a writer can put on disk is accepted by the projectors, appends
    only extend it, and the sequence numbers the writer stamps always fit. *)

(** The projections of a whole log exist, and the budget of its execution is
    accounted for, counter by counter. *)
Record projected isUuid localeLower localeLe sha256 fuel (log : list DecodedStoredEvent) (task : TaskStateProjection)
    (g : TaskGraphProjection) (x : option TaskExecutionProjection) : Prop := {
  pj_task : project sha256 log = Ok task;
  pj_graph : projectGraphs isUuid localeLower localeLe sha256 fuel log = Ok g;
  pj_execution : projectExecution localeLe log (tgp_revisions g) = Ok x;
  pj_budget p i limit : x = Some p -> counters (bp_limits (xp_budget p)) !! i = Some limit ->
    exists c r k, counters (bp_consumed (xp_budget p)) !! i = Some c /\
      counters (bp_reserved (xp_budget p)) !! i = Some r /\
      counters (bp_remaining (xp_budget p)) !! i = Some k /\ accounted limit c r k;
}.

Section Facts.
Context (isUuid : jstring -> bool) (localeLower : jstring -> jstring) (localeLe : jstring -> jstring -> bool).
Context (sha256 : jstring -> string) (fuel : nat) (phase9 laterChecks : list DecodedStoredEvent -> bool).
Context (directory sessionName : string) (stringify : DecodedStoredEvent -> jstring).
Notation append :=
  (appendEnvelopeOwned isUuid localeLower localeLe sha256 fuel phase9 laterChecks directory sessionName stringify).
Notation open_ := (openWriter phase9).
Notation wstep :=
  (writer_step isUuid localeLower localeLe sha256 fuel phase9 laterChecks directory sessionName stringify).
Notation checked := (checkProspective isUuid localeLower localeLe sha256 fuel phase9 laterChecks).
Notation projectGraphs' := (projectGraphs isUuid localeLower localeLe sha256 fuel).
Notation projected' := (projected isUuid localeLower localeLe sha256 fuel).
Notation logFile' := (logFile directory sessionName).
Notation lineOf e := (terminated (storedLine stringify e)).

Lemma mapError_ok {E E' A} (f : E -> E') (r : result E A) a : mapError f r = Ok a <-> r = Ok a.
Proof. destruct r; simpl; naive_solver. Qed.

Lemma checkProspective_ok log g x :
  checked log = Ok (g, x) ->
  assertDecodedStoredEventInvariants log = Ok () /\ is_ok (project sha256 log) = true /\
  projectGraphs' log = Ok g /\ projectExecution localeLe log (tgp_revisions g) = Ok x.
Proof.
  unfold checkProspective. intros H.
  apply bind_ok in H as (u & Hl%mapError_ok & H). apply bind_ok in H as (? & _ & H).
  apply bind_ok in H as (t & Ht%mapError_ok & H). apply bind_ok in H as (g' & Hg%mapError_ok & H).
  apply bind_ok in H as (x' & Hx%mapError_ok & H). apply bind_ok in H as (? & _ & H).
  injection H as <- <-. destruct u. by rewrite Ht.
Qed.

(** *** The store *)

Lemma wps_append_line files line :
  wps (_ ← call; appendFile (sessionFilePath directory sessionName) line append_write_incomplete)
    (fun _ files' => logFile' files' = logFile' files ++ line)
    (fun files' => exists landed, logFile' files' = logFile' files ++ take landed line) files.
Proof.
  apply wps_bind, wps_call; [|exists 0%nat; by rewrite app_nil_r].
  apply wps_appendFile; [|intros n; exists n]; unfold logFile; by rewrite lookup_insert_eq.
Qed.

(** A line is refused before anything is written, or a part of it lands and the
    store is poisoned, or all of it is there and synced. *)
Lemma append_line_cases store text w answer store' w' :
  appendEncodedLine directory sessionName store (encoded_text text) w = (answer, store', w') ->
  (is_ok answer = false /\ store' = store /\ wd_files w' = wd_files w) \/
  (dss_poisoned store = false /\ dss_poisoned store' = negb (is_ok answer) /\
   exists landed, logFile' (wd_files w') = logFile' (wd_files w) ++ take landed (terminated (encodeUtf8 text)) /\
     (is_ok answer = true -> take landed (terminated (encodeUtf8 text)) = terminated (encodeUtf8 text))).
Proof.
  unfold appendEncodedLine. intros H. destruct (dss_closed store); [left; by simplify_eq|].
  destruct (dss_poisoned store) eqn:Hp; [left; by simplify_eq|].
  destruct (normalizeEncodedLine (encoded_text text)) as [bytes|e] eqn:Hn; [|left; by simplify_eq]. right. split; [done|].
  assert (bytes = encodeUtf8 text) as ->.
  { unfold normalizeEncodedLine in Hn. destruct (textDecode _); [|done]. apply bind_ok in Hn as (? & _ & Hn).
    destruct (jsonParse _) as [[]|]; congruence. }
  destruct w as [files answers]. pose proof (wps_append_line files (terminated (encodeUtf8 text)) answers) as Hw.
  unfold terminated, wps in *. cbv zeta in H.
  revert H Hw. simpl wd_files. generalize ((_ ← call; appendFile (sessionFilePath directory sessionName)
    (encodeUtf8 text ++ [0x0a]) append_write_incomplete) {| wd_files := files; wd_answers := answers |}).
  intros [[[]|e] w1] H Hw; injection H as <- <- <-.
  - split; [done|]. exists (length (encodeUtf8 text ++ [0x0a])). by rewrite take_ge.
  - destruct Hw as [landed E]. split; [done|]. by exists landed.
Qed.

Lemma wps_same {A} (m : SessionM A) files answers r w :
  wps m (fun _ f => f = files) (fun f => f = files) files -> m {| wd_files := files; wd_answers := answers |} = (r, w) ->
  wd_files w = files.
Proof. intros H E. specialize (H answers). rewrite E in H. by destruct r. Qed.

Lemma close_store_keeps store world answer store' world' :
  closeStore store world = (answer, store', world') ->
  wd_files world' = wd_files world /\ dss_poisoned store' = dss_poisoned store.
Proof.
  unfold closeStore. intros H. destruct (dss_closed store); [by simplify_eq/=|]. destruct world as [files answers].
  destruct ((call ≫= _) {| wd_files := files; wd_answers := answers |}) as [r w1] eqn:Em.
  injection H as <- <- <-. split; [|done]. eapply wps_same; [|exact Em].
  apply wps_bind, wps_call; [|done]. apply wps_bind, wps_lift; [|done]. intros ? _. by apply wps_call.
Qed.

Lemma close_keeps w world answer w' world' :
  closeWriter w world = (answer, w', world') ->
  wd_files world' = wd_files world /\ w_decoded w' = w_decoded w /\ w_nextRunSequence w' = w_nextRunSequence w /\
  w_taskSchedulerProjection w' = w_taskSchedulerProjection w /\
  dss_poisoned (w_store w') = dss_poisoned (w_store w).
Proof.
  unfold closeWriter. intros H. destruct (w_closed w); [by simplify_eq|].
  destruct (closeStore (w_store w) world) as [[r store] w1] eqn:Em. injection H as <- <- <-.
  by apply close_store_keeps in Em as [? ?].
Qed.

(** *** The outcomes of an append *)

Record committed hookReturned input w world r w' world' : Prop := {
  cm_closed : w_closed w = false;
  cm_fatal : w_fatalAfterDurableHookObserved w = false;
  cm_unpoisoned : dss_poisoned (w_store w) = false /\ dss_poisoned (w_store w') = false;
  cm_checked : exists g x, checked (w_decoded w ++ [stampEnvelope w input]) = Ok (g, x) /\
    w_taskSchedulerProjection w' = Some {| tss_eventCount := Z.of_nat (length (w_decoded w ++ [stampEnvelope w input]));
      tss_taskExecution := x; tss_taskGraph := g |};
  cm_decoded : w_decoded w' = w_decoded w ++ [stampEnvelope w input];
  cm_sequence : w_nextRunSequence w' = countRun (w_nextRunSequence w) (stampEnvelope w input);
  cm_file : logFile' (wd_files world') = logFile' (wd_files world) ++ lineOf (stampEnvelope w input);
  cm_answer : r = (if hookReturned : bool then Ok (stampEnvelope w input) else Err HookFailed);
}.

(** Nothing of the writer but its store changes; what landed is a part of the
    line of a checked event, and the store is poisoned. *)
Record not_committed input w world (r : result WriterError DecodedStoredEvent) w' world' : Prop := {
  nc_answer : is_ok r = false;
  nc_memory : exists store, w' = w <| w_store := store |>;
  nc_file : (w_store w' = w_store w /\ wd_files world' = wd_files world) \/
    (dss_poisoned (w_store w) = false /\ dss_poisoned (w_store w') = true /\
     is_ok (checked (w_decoded w ++ [stampEnvelope w input])) = true /\
     exists landed, logFile' (wd_files world') = logFile' (wd_files world) ++ take landed (lineOf (stampEnvelope w input)));
}.

Lemma append_cases hookReturned input w world r w' world' :
  append hookReturned input w world = (r, w', world') ->
  not_committed input w world r w' world' \/ committed hookReturned input w world r w' world'.
Proof.
  unfold appendEnvelopeOwned. intros H.
  assert (Hsame : exists store, w = w <| w_store := store |>) by (exists (w_store w); by destruct w).
  destruct (w_closed w) eqn:Hc; [left; injection H as <- <- <-; by split; [| |left]|].
  destruct (w_fatalAfterDurableHookObserved w) eqn:Hf; [left; injection H as <- <- <-; by split; [| |left]|].
  destruct (checked _) as [[g x]|] eqn:E; [|left; injection H as <- <- <-; by split; [| |left]].
  destruct (appendEncodedLine _ _ _ _ _) as [[answer store] world1] eqn:Ea.
  apply append_line_cases in Ea as [(Hr & -> & Hw)|(Hp & Hp' & landed & Hl & Hall)].
  - destruct answer; [done|]. left. injection H as <- <- <-. split; [done|by eexists|by left].
  - destruct answer as [receipt|e].
    + right. rewrite Hall in Hl by done. destruct hookReturned; injection H as <- <- <-; split; simpl; eauto.
    + left. injection H as <- <- <-. split; [done|by eexists|]. right. rewrite E. eauto.
Qed.

(** *** The invariant *)

(** [nextRunSequence] holds what the log check would hold. *)
Definition sequences_of (log : list DecodedStoredEvent) (next : gmap string Z) : Prop :=
  forall r, next !! r = match eventsOfRun r log with [] => None | l => Some (Z.of_nat (length l) + 1) end.

Record writer_inv (w : V2SessionWriter) : Prop := {
  wi_log : assertDecodedStoredEventInvariants (w_decoded w) = Ok ();
  wi_sequences : sequences_of (w_decoded w) (w_nextRunSequence w);
  wi_snapshot : forall s, w_taskSchedulerProjection w = Some s ->
    tss_eventCount s = Z.of_nat (length (w_decoded w)) /\
    is_ok (project sha256 (w_decoded w)) = true /\
    projectGraphs' (w_decoded w) = Ok (tss_taskGraph s) /\
    projectExecution localeLe (w_decoded w) (tgp_revisions (tss_taskGraph s)) = Ok (tss_taskExecution s);
}.

(** The run sequence numbers of an accepted log count its events. *)
Lemma sequences_snoc log next event :
  log_wf (log ++ [event]) -> sequences_of log next -> sequences_of (log ++ [event]) (countRun next event).
Proof.
  intros [_ He]%log_wf_snoc Hs r. unfold countRun. rewrite eventsOfRun_snoc. unfold event_ok in He.
  destruct He as (_ & _ & _ & _ & He). destruct (scope event) as [r' n d|d]; [|by rewrite app_nil_r, Hs].
  destruct (decide (r' = r)) as [->|Hr]; [|by rewrite lookup_insert_ne, app_nil_r, Hs].
  rewrite lookup_insert_eq.
  assert (n = Z.of_nat (length (eventsOfRun r log)) + 1) as ->.
  { destruct (decide (eventsOfRun r log = [])) as [E|]; [rewrite E; by destruct He|by destruct He as (_ & _ & -> & _)]. }
  destruct (eventsOfRun r log ++ _) as [|y l] eqn:E; [by apply app_eq_nil in E as [_ ?]|].
  rewrite <-E, length_app. simpl. f_equal. lia.
Qed.

Lemma sequences_fold log : log_wf log -> sequences_of log (foldl countRun ∅ log).
Proof.
  induction log as [|event log IH] using rev_ind; intros H; [done|].
  rewrite foldl_app. simpl. apply sequences_snoc; [done|]. apply IH. by apply log_wf_snoc in H as [? _].
Qed.

Lemma writer_inv_open store decoded w :
  open_ store decoded = Ok w -> writer_inv w /\ w_decoded w = decoded /\ w_store w = store.
Proof.
  unfold openWriter. intros H. apply bind_ok in H as (u & Hl%mapError_ok & H).
  apply bind_ok in H as (? & _ & H). injection H as <-. destruct u. simpl. split_and!; [|done..]. split; simpl; [done| |done].
  apply sequences_fold, assert_log_wf, Hl.
Qed.

Lemma writer_inv_memory w w' :
  w_decoded w' = w_decoded w -> w_nextRunSequence w' = w_nextRunSequence w ->
  w_taskSchedulerProjection w' = w_taskSchedulerProjection w -> writer_inv w -> writer_inv w'.
Proof. intros Ed En Et [Hl Hn Hs]. by split; rewrite ?Ed, ?En, ?Et. Qed.

Lemma writer_inv_step s s' : wstep s s' -> writer_inv (wl_writer s) -> writer_inv (wl_writer s').
Proof.
  intros Hstep Hi. destruct Hstep as [hook input answers s r w world H|answers s r w world H].
  - apply append_cases in H as [[_ [store ->] _]|H]; [by apply (writer_inv_memory (wl_writer s))|].
    destruct H as [_ _ _ (g & x & Hc & Et) Ed En _ _].
    destruct (checkProspective_ok _ _ _ Hc) as (Hl & Hp & Hg & Hx). split; simpl; rewrite ?Ed, ?En, ?Et; [done| |].
    + apply sequences_snoc; [by apply assert_log_wf|apply Hi].
    + intros p [= <-]. by split_and!.
  - apply close_keeps in H as (_ & Ed & En & Et & _). by apply (writer_inv_memory (wl_writer s)).
Qed.

Lemma writer_inv_steps s s' : rtc wstep s s' -> writer_inv (wl_writer s) -> writer_inv (wl_writer s').
Proof. induction 1; eauto using writer_inv_step. Qed.

(** *** What is on disk *)

(** Since [s0] the events [appended] were acknowledged, each after its line was
    synced; [torn] is what a failed append has left behind them. *)
Record disk_inv (s0 s : WriterLife) (appended : list DecodedStoredEvent) (torn : list Z) : Prop := {
  di_decoded : w_decoded (wl_writer s) = w_decoded (wl_writer s0) ++ appended;
  di_file : logFile' (wl_files s) = logFile' (wl_files s0) ++ encodeLines (storedLine stringify <$> appended) ++ torn;
  di_torn : torn = [] \/ dss_poisoned (w_store (wl_writer s)) = true /\
    exists event, torn `prefix_of` lineOf event /\ is_ok (checked (w_decoded (wl_writer s) ++ [event])) = true;
  di_snapshot : appended <> [] -> w_taskSchedulerProjection (wl_writer s) <> None;
}.

Lemma disk_inv_refl s : disk_inv s s [] [].
Proof. split; rewrite ?app_nil_r; auto. Qed.

(** What neither extends the log nor touches the file. *)
Lemma disk_inv_same s0 s s' appended torn :
  w_decoded (wl_writer s') = w_decoded (wl_writer s) -> logFile' (wl_files s') = logFile' (wl_files s) ->
  w_taskSchedulerProjection (wl_writer s') = w_taskSchedulerProjection (wl_writer s) ->
  dss_poisoned (w_store (wl_writer s')) = dss_poisoned (w_store (wl_writer s)) ->
  disk_inv s0 s appended torn -> disk_inv s0 s' appended torn.
Proof. intros Ed Ef Et Ep [Hd Hf Ht Hs]. by split; rewrite ?Ed, ?Ef, ?Et, ?Ep. Qed.

(** A store that still takes lines has no torn line behind it. *)
Lemma disk_inv_whole s0 s appended torn :
  disk_inv s0 s appended torn -> dss_poisoned (w_store (wl_writer s)) = false -> torn = [].
Proof. intros [_ _ [Ht|[Hp _]] _]; congruence. Qed.

Lemma disk_inv_step s0 s s' appended torn :
  wstep s s' -> disk_inv s0 s appended torn -> exists appended' torn', disk_inv s0 s' appended' torn'.
Proof.
  intros Hstep Hi. destruct Hstep as [hook input answers s r w world H|answers s r w world H].
  - apply append_cases in H as [[_ [store ->] [[Es Ef]|(Hp & Hp' & Hc & landed & Ef)]]|H].
    + exists appended, torn. apply (disk_inv_same s0 s); simpl in *; by rewrite ?Es, ?Ef.
    + pose proof (disk_inv_whole _ _ _ _ Hi Hp) as ->. destruct Hi as [Hd Hf _ Hs].
      exists appended. eexists. split; simpl; [done| |right|done].
      * simpl in Ef, Hf. rewrite Ef, Hf, app_nil_r, <-app_assoc. reflexivity.
      * split; [done|]. eexists. split; [apply prefix_take|done].
    + destruct H as [_ _ [Hp Hp'] (g & x & Hc & Et) Ed _ Ef _].
      pose proof (disk_inv_whole _ _ _ _ Hi Hp) as ->. destruct Hi as [Hd Hf _ Hs].
      exists (appended ++ [stampEnvelope (wl_writer s) input]), []. split; simpl; [|..|by left|by rewrite Et].
      * by rewrite Ed, Hd, <-app_assoc.
      * simpl in Ef. rewrite Ef, Hf, app_nil_r, app_nil_r, fmap_app, encodeLines_app, <-app_assoc. f_equal. f_equal.
        unfold encodeLines. simpl. by rewrite app_nil_r.
  - apply close_keeps in H as (Ef & Ed & _ & Et & Ep). exists appended, torn.
    apply (disk_inv_same s0 s); simpl in *; by rewrite ?Ef.
Qed.

Lemma disk_inv_steps s0 s : rtc wstep s0 s -> exists appended torn, disk_inv s0 s appended torn.
Proof.
  revert s. apply rtc_ind_r; [exists [], []; apply disk_inv_refl|].
  intros s s' _ Hs (appended & torn & Hi). by eapply disk_inv_step.
Qed.

Lemma lastSeq_accepted log : log_wf log -> lastSeq log = Z.of_nat (length log).
Proof.
  unfold lastSeq. destruct log as [|event log _] using rev_ind; [done|]. intros [_ [H _]]%log_wf_snoc.
  rewrite last_snoc, H, length_app. simpl. lia.
Qed.

(** The content of every projected graph revision is accepted by the schema. *)
Lemma projectGraphs_schema log g r :
  projectGraphs' log = Ok g -> r ∈ tgp_revisions g ->
  taskGraphRevisionContentSchema isUuid localeLower fuel (mr_content r) = Ok ().
Proof.
  unfold projectGraphs, projectGraph. intros H Hr. apply bind_ok in H as (st & Hst & H). injection H as <-.
  simpl in Hr. destruct (runGraphProjector_ok _ _ _ _ _ _ _ Hst) as [_ Hp].
  apply list_elem_of_lookup in Hr as [i Hi]. destruct (Hp i r Hi) as (_ & content & Hid).
  unfold identity, canonicalTaskGraphIdentity in Hid. destruct (normalizeTaskGraphRevision _ _ _ _ _) as [v|] eqn:Hn; [|done].
  unfold mbind, result_bind in Hid. destruct (CanonicalJson.canonicalJson _); [|done]. injection Hid as -> _.
  by apply normalize_Ok in Hn as (_ & _ & _ & _ & _ & _ & ?).
Qed.

Lemma schema_budget content :
  taskGraphRevisionContentSchema isUuid localeLower fuel content = Ok () ->
  taskGraphBudgetSchema (tg_graphBudget content) = true.
Proof.
  unfold taskGraphRevisionContentSchema. intros H. destruct (graphFields _ _ content) eqn:Hf; [|done].
  unfold graphFields in Hf. repeat (apply andb_true_iff in Hf as [Hf ?]). done.
Qed.

Lemma projectGraphs_budgets log g : projectGraphs' log = Ok g -> validBudgets (tgp_revisions g).
Proof.
  intros H. apply list.Forall_forall. intros r Hr. eapply schema_budget, projectGraphs_schema; done.
Qed.

(** What the projectors promise of a log they accept. *)
Lemma projections_projected log task g x :
  project sha256 log = Ok task -> projectGraphs' log = Ok g ->
  projectExecution localeLe log (tgp_revisions g) = Ok x -> projected' log task g x.
Proof.
  intros Ht Hg Hx. split; [done..|]. intros p i limit -> Hlim.
  destruct (projectExecution_ok _ _ _ _ (projectGraphs_budgets _ _ Hg) Hx)
    as (graph & st & _ & _ & _ & Hi & _ & _ & -> & -> & El & ->).
  rewrite El in Hlim. apply accounted_counters; [apply (xi_budget _ _ Hi)|exact Hlim].
Qed.

Lemma checked_projected log : is_ok (checked log) = true -> log_wf log /\ exists task g x, projected' log task g x.
Proof.
  destruct (checked log) as [[g x]|] eqn:E; [|done]. intros _.
  apply checkProspective_ok in E as (Hl & Hp & Hg & Hx). split; [by apply assert_log_wf|].
  destruct (project sha256 log) as [task|] eqn:Ht; [|done]. exists task, g, x. by apply projections_projected.
Qed.
End Facts.

(** ** The durable writer: the properties

    What holds of every log on disk, whoever appends to it and however the
    appends fail; [SampleWriter] is the session the witnesses use. *)

Section Properties.
Context (isUuid : jstring -> bool) (localeLower : jstring -> jstring) (localeLe : jstring -> jstring -> bool).
Context (sha256 : jstring -> string) (fuel : nat) (phase9 laterChecks : list DecodedStoredEvent -> bool).
Context (directory sessionName : string) (stringify : DecodedStoredEvent -> jstring).

(** C31: A log on disk is one that every projector accepts, and the writer's
    memory is what is on disk.  Whatever sequence of appends and closes follows
    the opening of a session, with whatever failures of checks, file system and
    hook: the writer's log is the one opened followed by the appended events,
    and the session file is the one opened followed by the line of each of
    these, in order, with at most a part of one more line, which only a
    poisoned store leaves, and only of an event whose log passed all checks.
    The log is well-formed, with that event as well; once an event was appended
    the task, graph and execution projections of the whole log exist, the
    projection the writer hands to the scheduler is exactly they, and the
    budget of the execution is accounted for, counter by counter. *)
Theorem durable_log_is_accepted store decoded w0 files0 s :
  openWriter phase9 store decoded = Ok w0 ->
  rtc (writer_step isUuid localeLower localeLe sha256 fuel phase9 laterChecks directory sessionName stringify)
    {| wl_writer := w0; wl_files := files0 |} s ->
  exists appended torn,
    w_decoded (wl_writer s) = decoded ++ appended /\
    logFile directory sessionName (wl_files s) =
      logFile directory sessionName files0 ++ encodeLines (storedLine stringify <$> appended) ++ torn /\
    log_wf (w_decoded (wl_writer s)) /\
    (appended <> [] -> exists task g x,
      projected isUuid localeLower localeLe sha256 fuel (w_decoded (wl_writer s)) task g x /\
      readTaskSchedulerProjection (wl_writer s) = Some (Some {|
        tss_eventCount := Z.of_nat (length (w_decoded (wl_writer s)));
        tss_taskExecution := x; tss_taskGraph := g |})) /\
    (torn = [] \/ dss_poisoned (w_store (wl_writer s)) = true /\
      exists event, torn `prefix_of` terminated (storedLine stringify event) /\
        log_wf (w_decoded (wl_writer s) ++ [event]) /\
        exists task g x, projected isUuid localeLower localeLe sha256 fuel (w_decoded (wl_writer s) ++ [event]) task g x).
Proof.
  intros Ho Hr. apply writer_inv_open with (isUuid := isUuid) (localeLower := localeLower) (localeLe := localeLe)
    (sha256 := sha256) (fuel := fuel) in Ho as (Hi & <- & _).
  destruct (writer_inv_steps _ _ _ _ _ _ _ _ _ _ _ _ Hr Hi) as [Hl _ Hs].
  destruct (disk_inv_steps _ _ _ _ _ _ _ _ _ _ _ _ Hr) as (appended & torn & [Ed Ef Ht Hsnap]).
  apply assert_log_wf in Hl. exists appended, torn. do 3 (split; [done|]). split.
  - intros Ha. destruct (w_taskSchedulerProjection (wl_writer s)) as [p|] eqn:Es; [|by destruct Hsnap].
    destruct (Hs p eq_refl) as (Hc & Hp & Hg & Hx).
    destruct (project sha256 (w_decoded (wl_writer s))) as [task|] eqn:Et; [|done].
    exists task, (tss_taskGraph p), (tss_taskExecution p). split; [by apply projections_projected|].
    unfold readTaskSchedulerProjection. rewrite Es, Hc, lastSeq_accepted, !bool_decide_eq_true_2 by done. simpl.
    rewrite <-Hc. by destruct p.
  - destruct Ht as [->|[Hp (event & Hpre & Hc)]]; [by left|right]. split; [done|]. exists event. split; [done|].
    by eapply checked_projected.
Qed.

(** The last step of a log that is refused. *)
Lemma refused_event w event e :
  assertDecodedStoredEventInvariants (w_decoded w) = Ok () ->
  assertDecodedStoredEventInvariants (w_decoded w ++ [event]) = Err e ->
  exists st, log_inv (w_decoded w) st /\ log_step st event = Err e.
Proof.
  unfold assertDecodedStoredEventInvariants, run_log. intros Hok H. rewrite foldM_app in H.
  destruct (foldM log_step (w_decoded w) log_init) as [st|] eqn:E; [|done].
  exists st. split; [by apply (proj2 (run_log_spec (w_decoded w)))|].
  unfold mbind, result_bind in H. simpl in H. destruct (log_step st event); [done|by injection H as ->].
Qed.

(** The numbers the writer stamps always fit. In every reachable state,
    an append the log check refuses is refused for its content (a duplicate
    id, another session, a run that is unknown, over or not the current one,
    a cancellation that does not match), never for its session or run
    sequence number or its version. *)
Theorem append_numbers_fit store decoded w0 files0 s hookReturned input answers e w' world' :
  openWriter phase9 store decoded = Ok w0 ->
  rtc (writer_step isUuid localeLower localeLe sha256 fuel phase9 laterChecks directory sessionName stringify)
    {| wl_writer := w0; wl_files := files0 |} s ->
  appendEnvelopeOwned isUuid localeLower localeLe sha256 fuel phase9 laterChecks directory sessionName stringify
    hookReturned input (wl_writer s) {| wd_files := wl_files s; wd_answers := answers |}
    = (Err (LogRefused e), w', world') ->
  sde_code e ∈ [duplicate_event_id; session_mismatch; run_started_required; run_reopened;
                event_after_terminal; invalid_event] /\
  sde_eventNumber e = Z.of_nat (length (w_decoded (wl_writer s))) + 1.
Proof.
  intros Ho Hr. apply writer_inv_open with (isUuid := isUuid) (localeLower := localeLower) (localeLe := localeLe)
    (sha256 := sha256) (fuel := fuel) in Ho as (Hi & _).
  destruct (writer_inv_steps _ _ _ _ _ _ _ _ _ _ _ _ Hr Hi) as [Hl Hn _]. clear Hi Hr.
  generalize {| wd_files := wl_files s; wd_answers := answers |}. revert Hl Hn. generalize (wl_writer s). intros w Hl Hn world H.
  unfold appendEnvelopeOwned, checkProspective in H. destruct (w_closed w); [done|].
  destruct (w_fatalAfterDurableHookObserved w); [done|].
  destruct (assertDecodedStoredEventInvariants (w_decoded w ++ [stampEnvelope w input])) as [|e'] eqn:E.
  { exfalso. revert H. unfold mbind, result_bind, throw_when, mapError. intros H. by repeat case_match; simplify_eq. }
  assert (e' = e) as -> by (unfold mbind, result_bind, mapError in H; by injection H).
  destruct (refused_event _ _ _ Hl E) as (st & [Hi _ _ _ _ Hruns] & Hstep).
  unfold log_step, mbind, result_bind, throw_when in Hstep. rewrite Hi in Hstep. simpl in Hstep.
  rewrite (bool_decide_eq_true_2 (_ + 1 = _ + 1)) in Hstep by done. simpl in Hstep.
  case_bool_decide; simpl in Hstep; [|injection Hstep as <-; simpl; split; [set_solver|done]].
  case_bool_decide; simpl in Hstep; [injection Hstep as <-; simpl; split; [set_solver|done]|].
  destruct (scope input) as [r n d|d]; [|done].
  unfold log_run_step, mbind, result_bind, throw_when in Hstep. specialize (Hruns r). specialize (Hn r).
  destruct (ls_runs st !! r) as [rs|]; simpl in Hruns.
  - destruct Hruns as (Hne & Hnext & _). destruct (eventsOfRun r (w_decoded w)) as [|y l] eqn:El; [done|].
    rewrite Hn, Hnext in Hstep. case_bool_decide; simpl in Hstep; [|injection Hstep as <-; simpl; split; [set_solver|done]].
    destruct (terminal rs); [injection Hstep as <-; simpl; split; [set_solver|done]|].
    rewrite bool_decide_eq_true_2 in Hstep by done. simpl in Hstep.
    unfold check_cancellation in Hstep. repeat case_match; simplify_eq; simpl; split; try done; set_solver.
  - rewrite Hruns in Hn. rewrite Hn in Hstep. destruct (isRunStarted d); simpl in Hstep;
      [done|injection Hstep as <-; simpl; split; [set_solver|done]].
Qed.
End Properties.

(** ** A session

    The graph of [GraphLog] is proposed, approved, enqueued and started
    through a writer; in the fifth append the disk fails after five bytes of the
    line, and the append that repeats it is refused. *)
Module SampleWriter.
Definition accept (l : list DecodedStoredEvent) : bool := true.
(** The identifier alone, in an object. *)
Definition stringify (e : DecodedStoredEvent) : jstring :=
  [0x7b; 0x22; 0x69; 0x64; 0x22; 0x3a; 0x22] ++ js (eventId e) ++ [0x22; 0x7d].
Definition store : DurableSessionStore := {| dss_closed := false; dss_lineCount := 0; dss_poisoned := false |}.
Definition opened : V2SessionWriter :=
  match openWriter accept store [] with
  | Ok w => w
  | Err _ => {| w_closed := true; w_fatalAfterDurableHookObserved := true; w_decoded := [];
                w_nextRunSequence := ∅; w_taskSchedulerProjection := None; w_store := store |}
  end.
Notation append := (appendEnvelopeOwned SampleGraph.anyUuid SampleGraph.fold GraphLog.le GraphLog.hash 4 accept accept
  "sessions" "s" stringify).
Definition appends (l : list (list IoAnswer * DecodedStoredEvent)) (s : WriterLife) : WriterLife :=
  foldl (fun s '(answers, input) =>
    let '(_, w, world) := append true input (wl_writer s) {| wd_files := wl_files s; wd_answers := answers |} in
    {| wl_writer := w; wl_files := wd_files world |}) s l.
Definition script : list (list IoAnswer * DecodedStoredEvent) :=
  (pair [] <$> take 4 GraphLog.running) ++ (pair [io_done; io_fault 5] <$> drop 4 GraphLog.running) ++
  (pair [] <$> drop 4 GraphLog.running).
Definition started : WriterLife := {| wl_writer := opened; wl_files := ∅ |}.
Definition enqueued : WriterLife := appends script started.
(** An event of a run nobody started. *)
Definition stray : DecodedStoredEvent := {|
  eventId := "x"; sessionId := "s"; sessionSeq := 77; sourceSchemaVersion := 2; scope := RunScope "r" 9 RunFailed |}.
End SampleWriter.

Lemma sample_writer_steps l s :
  rtc (writer_step SampleGraph.anyUuid SampleGraph.fold GraphLog.le GraphLog.hash 4 SampleWriter.accept
    SampleWriter.accept "sessions" "s" SampleWriter.stringify) s (SampleWriter.appends l s).
Proof.
  revert s. induction l as [|[answers input] l IH]; intros s; [constructor|].
  unfold SampleWriter.appends. cbn [foldl]. destruct (SampleWriter.append _ _ _ _) as [[r w] world] eqn:E.
  eapply rtc_l; [by eapply ws_append|apply IH].
Qed.

Lemma durable_log_is_accepted_witness :
  exists appended torn g p, w_decoded (wl_writer SampleWriter.enqueued) = [] ++ appended /\ length appended = 4%nat /\
    length torn = 5%nat /\ dss_poisoned (w_store (wl_writer SampleWriter.enqueued)) = true /\
    logFile "sessions" "s" (wl_files SampleWriter.enqueued) =
      encodeLines (storedLine SampleWriter.stringify <$> appended) ++ torn /\
    projectGraphs SampleGraph.anyUuid SampleGraph.fold GraphLog.le GraphLog.hash 4
      (w_decoded (wl_writer SampleWriter.enqueued)) = Ok g /\
    projectExecution GraphLog.le (w_decoded (wl_writer SampleWriter.enqueued)) (tgp_revisions g) = Ok (Some p) /\
    xp_status p = g_queued.
Proof.
  destruct (durable_log_is_accepted SampleGraph.anyUuid SampleGraph.fold GraphLog.le GraphLog.hash 4
    SampleWriter.accept SampleWriter.accept "sessions" "s" SampleWriter.stringify SampleWriter.store []
    SampleWriter.opened ∅ SampleWriter.enqueued)
    as (appended & torn & E & Ef & _ & H & _).
  - reflexivity.
  - apply sample_writer_steps.
  - exists appended, torn.
    assert (Ed : appended = w_decoded (wl_writer SampleWriter.enqueued)) by (symmetry; exact E).
    assert (Hn : length appended = 4%nat) by (rewrite Ed; vm_compute; reflexivity).
    assert (Hf : logFile "sessions" "s" (wl_files SampleWriter.enqueued) =
      encodeLines (storedLine SampleWriter.stringify <$> appended) ++ torn) by exact Ef.
    assert (Ht : length torn = 5%nat).
    { apply (f_equal length) in Hf. rewrite length_app, Ed in Hf. vm_compute in Hf. by injection Hf. }
    destruct H as (task & g & x & [_ Hg Hx _] & _); [intros ->; discriminate Hn|].
    assert (Ex : exists p, x = Some p /\ xp_status p = g_queued).
    { clear -Hg Hx. vm_compute in Hg. injection Hg as <-. vm_compute in Hx. injection Hx as <-.
      eexists. split; reflexivity. }
    destruct Ex as (p & -> & Hs). exists g, p.
    exact (conj E (conj Hn (conj Ht (conj eq_refl (conj Hf (conj Hg (conj Hx Hs))))))).
Defined.

Lemma append_numbers_fit_witness :
  exists e world, (SampleWriter.append true SampleWriter.stray (wl_writer SampleWriter.enqueued) world).1.1
      = Err (LogRefused e) /\ sde_code e = run_started_required /\ sde_eventNumber e = 5.
Proof.
  set (world := {| wd_files := wl_files SampleWriter.enqueued; wd_answers := [] |}).
  assert (Hc : match (SampleWriter.append true SampleWriter.stray (wl_writer SampleWriter.enqueued) world).1.1 with
               | Err (LogRefused e) => Some (sde_code e) | _ => None end = Some run_started_required)
    by (vm_compute; reflexivity).
  assert (Hl : length (w_decoded (wl_writer SampleWriter.enqueued)) = 4%nat) by (vm_compute; reflexivity).
  destruct (SampleWriter.append true SampleWriter.stray (wl_writer SampleWriter.enqueued) world) as [[r w'] world'] eqn:E.
  cbn [fst] in *. destruct r as [|e]; [discriminate Hc|]. destruct e as [| |e| | | | | | |]; try discriminate Hc.
  exists e, world. rewrite E. split; [reflexivity|]. split; [by injection Hc|].
  destruct (append_numbers_fit SampleGraph.anyUuid SampleGraph.fold GraphLog.le GraphLog.hash 4
    SampleWriter.accept SampleWriter.accept "sessions" "s" SampleWriter.stringify SampleWriter.store []
    SampleWriter.opened ∅ SampleWriter.enqueued true SampleWriter.stray [] e w' world') as [_ Hn].
  - reflexivity.
  - apply sample_writer_steps.
  - exact E.
  - rewrite Hn, Hl. reflexivity.
Defined.
