(* ===== verification/SchedulerProperties.v ===== *)
(** * The deterministic scheduler: the properties

    The scheduler never waits on a graph in which something can run, its
    requests are the ones the projector accepts, and an attempt that fails
    when nothing else can run closes its graph. [SampleSchedule] is the graph
    of the witnesses. *)

From S2P Require Import Prelude JsString CanonicalJson Domain Events EventLog TaskState TaskGraphSchema TaskGraphTopology TaskGraph TaskGraphFacts TaskExecution TaskExecutionFacts TaskExecutionProperties Writer Scheduler SchedulerFacts.
From stdpp Require Import sorting.
#[local] Open Scope Z_scope.

(** ** What the appended events do *)

(** Events as the writer stamps them for the data the scheduler appends. *)
Definition carries (appended : list DecodedStoredEvent) (events : list SessionData) : Prop :=
  Forall2 (fun e d => scope e = SessionScope d) appended events.

(** A request for a ready node on an idle state that the budget can hold. *)
Lemma requestAttempt_accepted budget event data st m :
  xs_nodes st !! arq_node_id data = Some m -> xs_active st = None -> xs_cancelRequested st = false ->
  isReady st m = true -> arq_attempt_number data = Z.of_nat (length (mn_attempts m)) + 1 ->
  xs_attempts st !! arq_attempt_id data = None ->
  within (xs_consumed st) (addCounters (xs_reserved st) (arq_reservation data)) (limits budget) = true ->
  xorb (ws_mode (tn_workspace (mn_node m)) === origin_read_only) (arq_workspace_binding data === None) = false ->
  exists st' active, requestAttempt budget event data st = Ok st' /\ activeAttempt st' = Some active /\
    ma_attemptId active = arq_attempt_id data /\ ma_nodeId active = arq_node_id data /\
    ma_reservation active = arq_reservation data.
Proof.
  intros Hm Ha Hcr Hr En Hf Hw Hx. unfold requestAttempt. rewrite Hm, Ha, Hcr, Hr, En, Hf, Hw.
  rewrite (bool_decide_eq_true_2 (@None string = None)), (bool_decide_eq_true_2 (_ + 1 = _ + 1)) by done. simpl. simpl in Hx. rewrite Hx. simpl.
  eexists _, _. split; [done|]. unfold activeAttempt. simpl. rewrite lookup_insert_eq. done.
Qed.

(** The two shapes of what [#admit] appends leave the request to process. *)
Lemma carried_request target st budget appended prefix request :
  carries appended ((if (prefix : bool) then [] else [SessionOther "task_worktree.lease.acquired"%string]) ++
    [GraphEventData target (AttemptRequested request)]) ->
  exists e, foldM (exec_step target budget) appended st = requestAttempt budget e request st.
Proof.
  intros H. assert (Hlast : forall e, scope e = SessionScope (GraphEventData target (AttemptRequested request)) ->
    foldM (exec_step target budget) [e] st = requestAttempt budget e request st).
  { intros e He. simpl. unfold exec_step. rewrite He, bool_decide_eq_true_2 by done. simpl.
    by destruct (requestAttempt _ _ _ _). }
  destruct prefix; inversion H as [|e ? l ? He Hl]; subst.
  - inversion Hl; subst. exists e. by apply Hlast.
  - inversion Hl as [|e' ? l' ? He' Hl']; subst. inversion Hl'; subst. exists e'. rewrite <-Hlast by done.
    simpl. unfold exec_step at 1. by rewrite He.
Qed.

(** Skipping pending nodes for roots that failed. *)
Lemma skips_run target budget l (skips : list (string * list string)) st :
  carries l ((fun '(id, roots) => GraphEventData target (NodeSkipped id roots)) <$> skips) ->
  NoDup (fst <$> skips) ->
  (forall id roots, (id, roots) ∈ skips -> exists n, xs_nodes st !! id = Some n /\ mn_status n = n_pending) ->
  (forall id roots root, (id, roots) ∈ skips -> root ∈ roots -> exists m, xs_nodes st !! root = Some m /\
     mn_status m ∈ blockerStatuses) ->
  exists st', foldM (exec_step target budget) l st = Ok st' /\ xs_lease st' = xs_lease st /\
    forall id n, xs_nodes st' !! id = Some n ->
      if decide (id ∈ fst <$> skips) then mn_status n = n_skipped else xs_nodes st !! id = Some n.
Proof.
  revert l st. induction skips as [|[id roots] skips IH]; intros l st Hl Hnd Hpend Hroots.
  { inversion Hl; subst. exists st. split; [done|]. split; [done|]. intros id n Hn. exact Hn. }
  inversion Hl as [|e ? l' ? He Hl']; subst. inversion Hnd as [|? ? Hnin Hnd']; subst.
  destruct (Hpend id roots) as (n & Hn & Hs); [by left|].
  assert (Hstep : exec_step target budget st e = Ok (updateNode id (fun n : MutableNode => n <| mn_status := n_skipped |>
      <| mn_terminalEventId := Some (eventId e) |>) st)).
  { unfold exec_step. rewrite He, bool_decide_eq_true_2 by done. simpl. unfold skipNode. rewrite Hn, Hs.
    rewrite (bool_decide_eq_true_2 (n_pending = n_pending)) by done. simpl.
    assert (existsb (fun i => negb match nodeStatus st i with
      | Some (n_failed | n_blocked | n_cancelled | n_skipped) => true | _ => false end) roots = false) as ->; [|done].
    apply existsb_false. intros r Hr. destruct (Hroots id roots r) as (m & Hm & Hb); [by left|done|].
    unfold nodeStatus. rewrite Hm. simpl. rewrite blocker_statuses in Hb. by destruct (mn_status m). }
  simpl. rewrite Hstep. set (st1 := updateNode _ _ _).
  assert (Hother : forall i, i <> id -> xs_nodes st1 !! i = xs_nodes st !! i)
    by (intros i Hi; unfold st1, updateNode; simpl; by rewrite lookup_alter_ne).
  assert (Hself : exists q, xs_nodes st1 !! id = Some q /\ mn_status q = n_skipped)
    by (unfold st1, updateNode; simpl; rewrite lookup_alter_eq, Hn; simpl; eauto).
  destruct (IH l' st1 Hl' Hnd') as (st' & Hst' & Hlease & Hnodes).
  - intros i rs Hi. rewrite Hother; [by eapply Hpend; right|]. intros ->. destruct Hnin.
    apply list_elem_of_fmap. by exists (id, rs).
  - intros i rs r Hi Hr. destruct (decide (r = id)) as [->|Hne].
    + destruct Hself as (q & Hq & Hqs). exists q. split; [done|]. by rewrite Hqs, blocker_statuses.
    + rewrite Hother by done. eapply Hroots; [by right|done].
  - exists st'. split; [done|]. split; [done|]. intros i q Hq. specialize (Hnodes i q Hq). simpl.
    destruct (decide (i = id)) as [->|Hne].
    + rewrite decide_False in Hnodes by done. rewrite decide_True by by left.
      destruct Hself as (q' & Hq' & ?). congruence.
    + destruct (decide (i ∈ fst <$> skips)); [by rewrite decide_True by (by right)|].
      rewrite decide_False by (by intros [?|?]%elem_of_cons). by rewrite <-Hother.
Qed.

(** ** On the projection of a log *)

Section Projected.
Context (isUuid : jstring -> bool) (localeLower : jstring -> jstring) (localeLe : jstring -> jstring -> bool).
Context (sha256 : jstring -> string) (fuel : nat).
Context (log : list DecodedStoredEvent) (g : TaskGraphProjection) (p : TaskExecutionProjection).
Context (Hg : projectGraphs isUuid localeLower localeLe sha256 fuel log = Ok g).
Context (Hp : projectExecution localeLe log (tgp_revisions g) = Ok (Some p)).
Notation content := (mr_content (xp_graph p)).
Notation target := (exactFields (xp_graph p)).

Lemma projected_state : exists st,
  runExec target content log = Ok st /\ shows content target st p /\
  xp_readyNodeIds p = readyNodes localeLe content (xp_status p) st /\ accepted_content content.
Proof.
  destruct (projectExecution_shows _ _ _ _ Hp) as (st & Hin & Hrun & Hs & Hr). exists st.
  split_and!; [done..|]. eapply schema_accepts, projectGraphs_schema; done.
Qed.

(** The head of the scheduler's queue is the head of the ready list. *)
Lemma queue_head :
  (fun n => tn_nodeId (mn_node n)) <$> head (deterministicReadyQueue localeLe p) = head (xp_readyNodeIds p).
Proof.
  rewrite <-(ready_queue_is_ready_list _ _ _ _ (projectGraphs_budgets _ _ _ _ _ _ _ Hg) Hp).
  by destruct (deterministicReadyQueue localeLe p).
Qed.

(** A queued node is a pending node of the state, with an origin for its
    next attempt and its dependencies done. *)
Lemma queued_node st n :
  runExec target content log = Ok st -> shows content target st p ->
  xp_readyNodeIds p = readyNodes localeLe content (xp_status p) st ->
  n ∈ deterministicReadyQueue localeLe p ->
  exists m, xs_nodes st !! tn_nodeId (mn_node n) = Some m /\ isReady st m = true /\ mn_node m = mn_node n /\
    mn_attempts m = mn_attempts n /\ mn_nextAttemptOrigin m = mn_nextAttemptOrigin n /\
    mn_nextAttemptOrigin n <> None /\ tn_nodeId (mn_node n) ∈ xp_readyNodeIds p.
Proof.
  intros Hrun Hs Hr Hn. unfold deterministicReadyQueue in Hn. rewrite js_sort_Permutation in Hn.
  apply list_elem_of_fmap in Hn as ([id m'] & -> & Hm).
  apply list_elem_of_In, filter_In in Hm as [Hm Hid%bool_decide_eq_true_1].
  apply list_elem_of_In, (shown_node log p _ _ st Hrun Hs) in Hm as (m & Hm & ->).
  destruct (runExec_key _ _ _ _ _ _ Hrun Hm) as [Hk _].
  rewrite bool_decide_eq_true_2 by done. simpl. rewrite Hk. exists m. split; [done|].
  assert (Hrm : isReady st m = true).
  { rewrite Hr in Hid. unfold readyNodes in Hid. case_match; [|by apply not_elem_of_nil in Hid].
    apply list_elem_of_fmap in Hid as (y & -> & Hy%elem_js_sort_filter). destruct Hy as [Hy Hry].
    apply list_elem_of_fmap in Hy as ([i y'] & -> & Hy). apply list_elem_of_omap in Hy as (spec & _ & Hy).
    simpl in *. destruct (xs_nodes st !! tn_nodeId spec) as [z|] eqn:Hz; [|done]. injection Hy as <- ->.
    destruct (runExec_key _ _ _ _ _ _ Hrun Hz) as [Hkz _]. congruence. }
  split; [done|]. do 3 (split; [done|]). split; [|done].
  apply (runExec_origin _ _ _ _ Hrun _ _ Hm). unfold isReady in Hrm. apply andb_true_iff in Hrm as [Hrm _].
  by apply bool_decide_eq_true_1 in Hrm.
Qed.

(** The head of the queue is admitted, or the budget ends the graph. *)
Lemma admit_head supports attemptId runId binding n :
  xp_activeAttempt p = None -> xp_lease p <> None ->
  head (deterministicReadyQueue localeLe p) = Some n ->
  supports (mn_node n) = true -> (ws_mode (tn_workspace (mn_node n)) = origin_read_only <-> binding = None) ->
  (exists attempt events,
     admitNext localeLe supports attemptId runId binding false p p = Ok (Some attempt, events) /\
     ata_node attempt = mn_node n) \/
  admitNext localeLe supports attemptId runId binding false p p = Ok (None, exhaustedEvents p n).
Proof.
  intros Hactive Hlease Hh Hsup Hbind. destruct projected_state as (st & Hrun & Hs & Hr & _).
  pose proof queue_head as Hq. rewrite Hh in Hq. simpl in Hq.
  assert (Hin : n ∈ deterministicReadyQueue localeLe p)
    by (destruct (deterministicReadyQueue _ _); [done|]; injection Hh as ->; by left).
  destruct (queued_node st n Hrun Hs Hr Hin) as (m & _ & _ & _ & _ & _ & Ho & _).
  destruct (mn_nextAttemptOrigin n) as [origin|] eqn:Horg; [|done].
  unfold admitNext. rewrite Hh, Hsup. cbn [negb throw_when mbind result_bind].
  destruct (taskBudgetCanReserve (xp_budget p) (reservationForTaskNode (mn_node n))); [left|by right].
  destruct (xp_lease p) as [lease|]; [|done].
  assert (Hx : xorb (ws_mode (tn_workspace (mn_node n)) === origin_read_only) (binding === None) = false)
    by (repeat case_bool_decide; simpl; naive_solver).
  rewrite Hx, <-Hq, Hactive, (bool_decide_eq_true_2 (Some _ = Some _)), Horg by done. simpl. eauto.
Qed.

(** With an empty queue, no node of the state is ready, no attempt is active,
    and the projection shows the state's nodes as they are. *)
Lemma nothing_ready st :
  runExec target content log = Ok st -> shows content target st p ->
  xp_readyNodeIds p = readyNodes localeLe content (xp_status p) st -> accepted_content content ->
  open_for_work log p target -> xp_readyNodeIds p = [] ->
  (forall i m, xs_nodes st !! i = Some m -> isReady st m = false) /\ xs_active st = None /\
  forall id n, (id, n) ∈ xp_nodes p <-> xs_nodes st !! id = Some n.
Proof.
  intros Hrun Hs Hr Hc Hopen Hnil. split_and!.
  - intros i m Hm. apply not_true_iff_false. intros E.
    assert (i ∈ xp_readyNodeIds p) as Hi
      by (eapply ready_spec; [exact Hrun|exact Hs|exact Hr|apply Hc|exact Hopen|eauto]).
    rewrite Hnil in Hi. by apply not_elem_of_nil in Hi.
  - eapply shows_active; [exact Hrun|exact Hs|apply Hc|apply Hopen].
  - intros id n. rewrite (shown_node log p _ _ st Hrun Hs), Hnil.
    split; [intros (m & ? & ->)|intros ?; exists n; split; [done|]];
      rewrite bool_decide_eq_false_2 by apply not_elem_of_nil; done.
Qed.

(** C32: The scheduler makes progress. On the projection of any log whose
    graph is queued or running, with no active attempt, no blocker and no
    cancellation, by an owner that holds the lease, has an executor for the first
    ready node and the workspace binding that this node's mode needs: the scheduler admits an attempt of the first ready node, or
    ends the graph because its budget cannot hold that node; when it does
    neither, every node has succeeded, or some node has failed or was
    blocked, cancelled or skipped and every node that is left depends on
    such a node. *)
Theorem scheduler_progress supports attemptId runId binding :
  open_for_work log p target -> xp_lease p <> None ->
  (forall n, head (deterministicReadyQueue localeLe p) = Some n ->
     supports (mn_node n) = true /\ (ws_mode (tn_workspace (mn_node n)) = origin_read_only <-> binding = None)) ->
  (exists selected attempt events, head (deterministicReadyQueue localeLe p) = Some selected /\
     admitNext localeLe supports attemptId runId binding false p p = Ok (Some attempt, events) /\
     ata_node attempt = mn_node selected) \/
  (exists selected, head (deterministicReadyQueue localeLe p) = Some selected /\
     admitNext localeLe supports attemptId runId binding false p p = Ok (None, exhaustedEvents p selected)) \/
  (forall id n, (id, n) ∈ xp_nodes p -> mn_status n = n_succeeded) \/
  ((exists id n, (id, n) ∈ xp_nodes p /\ mn_status n ∈ blockerStatuses) /\
   forall id n, (id, n) ∈ xp_nodes p -> mn_status n <> n_succeeded -> mn_status n ∉ blockerStatuses ->
     exists root m, tc (dependsOn (depsOf (tg_nodes content))) id root /\
       (root, m) ∈ xp_nodes p /\ mn_status m ∈ blockerStatuses).
Proof.
  intros Hopen Hlease Hprep. destruct projected_state as (st & Hrun & Hs & Hr & Hc).
  destruct (head (deterministicReadyQueue localeLe p)) as [n|] eqn:Hh.
  { destruct (Hprep n eq_refl) as [Hsup Hbind].
    destruct (admit_head supports attemptId runId binding n (proj1 Hopen) Hlease Hh Hsup Hbind)
      as [(attempt & events & ? & ?)|?]; [left|right; left]; eauto 10. }
  assert (Hnil : xp_readyNodeIds p = [])
    by (pose proof queue_head as Hq; rewrite Hh in Hq; by destruct (xp_readyNodeIds p)).
  destruct (nothing_ready st Hrun Hs Hr Hc Hopen Hnil) as (Hnone & Hidle & Hshow). right; right.
  assert (Hroot : forall id n, (id, n) ∈ xp_nodes p -> mn_status n <> n_succeeded -> mn_status n ∉ blockerStatuses ->
    exists root m, tc (dependsOn (depsOf (tg_nodes content))) id root /\
      (root, m) ∈ xp_nodes p /\ mn_status m ∈ blockerStatuses).
  { intros id n Hn%Hshow H1 H2. destruct (idle_status _ _ _ _ Hrun Hc Hidle _ _ Hn) as [H|[|]]; [|done..].
    destruct (waiting_root _ _ _ _ Hrun Hc Hidle id n Hnone Hn H) as (root & m & d & Hd & Hrt & Hm & Hb).
    exists root, m. split; [|split; [by apply Hshow|done]]. eapply tc_rtc_r; [|exact Hrt]. apply tc_once.
    eapply node_dependsOn; [exact Hrun|apply Hc|exact Hn|exact Hd]. }
  destruct (decide (Exists (fun x => mn_status x.2 <> n_succeeded) (xp_nodes p))) as [He|He].
  - right. split; [|done]. apply list.Exists_exists in He as ([id n] & Hn & Hne). simpl in Hne.
    destruct (decide (mn_status n ∈ blockerStatuses)); [eauto|].
    destruct (Hroot id n Hn Hne) as (root & m & _ & ? & ?); eauto.
  - left. intros id n Hn. destruct (decide (mn_status n = n_succeeded)) as [|Hne]; [done|].
    destruct He. apply list.Exists_exists. by exists (id, n).
Qed.

(** What the scheduler admits, the projector accepts. When [#admit] gives
    an attempt of a fresh id on the projection of a log, the events it appends
    extend the log to one the execution projector accepts, and the attempt is
    the active one there, with the reservation of its node. *)
Theorem admitted_attempt_is_accepted supports attemptId runId binding aborted attempt events appended :
  xp_attempts p !! attemptId = None ->
  admitNext localeLe supports attemptId runId binding aborted p p = Ok (Some attempt, events) ->
  carries appended events ->
  exists st' active, runExec target content (log ++ appended) = Ok st' /\
    activeAttempt st' = Some active /\ ma_attemptId active = attemptId /\
    ma_nodeId active = tn_nodeId (ata_node attempt) /\
    ma_reservation active = reservationForTaskNode (ata_node attempt).
Proof.
  intros Hfresh Hadm Happ. destruct projected_state as (st & Hrun & Hs & Hr & Hc). unfold admitNext in Hadm.
  destruct (head (deterministicReadyQueue localeLe p)) as [n|] eqn:Hh; [|done].
  assert (Hin : n ∈ deterministicReadyQueue localeLe p)
    by (destruct (deterministicReadyQueue _ _); [done|]; injection Hh as ->; by left).
  destruct (queued_node st n Hrun Hs Hr Hin) as (m & Hm & Hrm & Em & Ea & _ & _ & Hid).
  apply bind_ok in Hadm as (? & _ & Hadm).
  destruct (taskBudgetCanReserve (xp_budget p) (reservationForTaskNode (mn_node n))) eqn:Hcan; [|done]. simpl in Hadm.
  destruct (xp_lease p) as [lease|]; [|done]. apply bind_ok in Hadm as (? & Hx%throw_when_ok & Hadm).
  destruct (_ && _ && _); [done|]. apply bind_ok in Hadm as (? & _ & Hadm). apply bind_ok in Hadm as (? & _ & Hadm).
  destruct (mn_nextAttemptOrigin n) as [origin|]; [|done]. injection Hadm as <- <-.
  destruct (carried_request target st (tg_graphBudget content) _ _ _ Happ) as [e He].
  unfold runExec in *. rewrite foldM_app, Hrun. cbn [mbind result_bind]. rewrite He.
  rewrite (canReserve_within _ _ _ _ _ (projectGraphs_budgets _ _ _ _ _ _ _ Hg) Hp) in Hcan.
  rewrite (sh_consumed _ _ _ _ Hs), (sh_reserved _ _ _ _ Hs), (sh_limits _ _ _ _ Hs) in Hcan.
  rewrite (sh_attempts _ _ _ _ Hs) in Hfresh.
  rewrite Hr in Hid. unfold readyNodes in Hid.
  destruct ((xs_active st === None) && _ && _ && _) eqn:Hgate; [|by apply not_elem_of_nil in Hid].
  rewrite !andb_true_iff, negb_true_iff in Hgate. destruct Hgate as [[[Hact%bool_decide_eq_true_1 _] Hcr] _].
  destruct (requestAttempt_accepted (tg_graphBudget content) e {|
      arq_attempt_id := attemptId; arq_attempt_number := Z.of_nat (length (mn_attempts n)) + 1;
      arq_node_id := tn_nodeId (mn_node n); arq_reservation := reservationForTaskNode (mn_node n);
      arq_retry_origin := origin; arq_workspace_binding := binding |} st m) as (st' & active & ? & ? & ?);
    simpl; try done; [by rewrite Ea|by rewrite Em|]. by exists st', active.
Qed.
(** ** Closing a graph *)

(** The ids of the projected nodes are those of the graph, without repetition. *)
Lemma nodesInOrder_ids st : NoDup (tn_nodeId <$> tg_nodes content) -> NoDup (fst <$> nodesInOrder content st).
Proof.
  unfold nodesInOrder. generalize (tg_nodes content). intros specs. induction specs as [|spec specs IH]; [constructor|].
  rewrite fmap_cons, NoDup_cons. intros [Hnin Hnd]. simpl.
  destruct (xs_nodes st !! tn_nodeId spec); simpl; [|by apply IH].
  constructor; [|by apply IH]. intros ([i n] & E & Hin)%list_elem_of_fmap. destruct Hnin. simpl in E.
  apply list_elem_of_omap in Hin as (spec' & Hspec & Hin). apply list_elem_of_fmap. exists spec'. split; [|done].
  destruct (xs_nodes st !! tn_nodeId spec'); [|done]. by injection Hin as <- <-.
Qed.

(** Every node that is left gets a skip with the roots it depends on. *)
Lemma skipEvent_total fuel' st n :
  runExec target content log = Ok st -> accepted_content content ->
  (forall id n, (id, n) ∈ xp_nodes p <-> xs_nodes st !! id = Some n) -> lists_nodes content st (xp_nodes p) ->
  (Z.to_nat MAX_TASK_GRAPH_DEPTH <= fuel')%nat ->
  (exists root m d, d ∈ tn_dependsOn (mn_node n) /\ rtc (dependsOn (depsOf (tg_nodes content))) d root /\
    xs_nodes st !! root = Some m /\ mn_status m ∈ blockerStatuses) ->
  exists roots, skipEvent fuel' p (idsWith blockerStatuses (xp_nodes p)) n
      = Some [NodeSkipped (tn_nodeId (mn_node n)) roots] /\
    forall root, root ∈ roots -> exists m, xs_nodes st !! root = Some m /\ mn_status m ∈ blockerStatuses.
Proof.
  intros Hrun Hc Hshow Hlist Hf (root & m & d & Hd & Hrt & Hm & Hb). unfold skipEvent.
  set (P := fun root => exists d, d ∈ tn_dependsOn (mn_node n) /\ rtc (dependsOn (depsOf (tg_nodes content))) d root).
  assert (Hids : forall r, r ∈ idsWith blockerStatuses (xp_nodes p) <->
    exists q, xs_nodes st !! r = Some q /\ mn_status q ∈ blockerStatuses).
  { intros r. unfold idsWith. rewrite list_elem_of_fmap. split.
    - intros ([i q] & -> & Hq). apply list_elem_of_In, filter_In in Hq as [Hq Hqs%bool_decide_eq_true_1].
      exists q. split; [by apply Hshow, list_elem_of_In|done].
    - intros (q & Hq%Hshow & Hqs). exists (r, q). split; [done|]. apply list_elem_of_In, filter_In.
      split; [by apply list_elem_of_In|by apply bool_decide_eq_true_2]. }
  destruct (filterM_spec (fun root => someM (visitRoot fuel' (xp_nodes p) root) (tn_dependsOn (mn_node n))) P
    (idsWith blockerStatuses (xp_nodes p))) as (roots & Hroots & Hin).
  { intros r _. apply someM_spec. intros d' Hd'. apply (visitRoot_spec (depsOf (tg_nodes content))).
    - intros i j. rewrite (findNode_spec content st) by done. split.
      + eapply dependsOn_node; [exact Hrun|apply Hc].
      + intros (q & Hq & Hj). by eapply node_dependsOn; [exact Hrun|apply Hc|..].
    - intros k Hk. pose proof (ac_depth _ Hc _ _ Hk). lia. }
  rewrite Hroots. cbn [mbind option_bind].
  assert (Hr : root ∈ roots) by (apply Hin; split; [apply Hids; eauto|by exists d]).
  destruct (0 <? length roots)%nat eqn:El; [|destruct roots; [by apply not_elem_of_nil in Hr|done]].
  eexists. split; [done|]. intros r Hrs. unfold sortedSet in Hrs. rewrite js_sort_Permutation, elem_of_remove_dups in Hrs.
  by apply Hids, Hin.
Qed.
(** The skips of all the nodes that are left. *)
Lemma skips_total (f : MutableNode -> option (list GraphEvent)) (Q : list string -> Prop) l :
  (forall n, n ∈ l -> exists roots, f n = Some [NodeSkipped (tn_nodeId (mn_node n)) roots] /\ Q roots) ->
  exists skips : list (string * list string),
    mapM f l = Some ((fun '(id, roots) => [NodeSkipped id roots]) <$> skips) /\
    fst <$> skips = (fun n => tn_nodeId (mn_node n)) <$> l /\ forall id roots, (id, roots) ∈ skips -> Q roots.
Proof.
  induction l as [|n l IH]; intros H; [exists []; split; [done|]; split; [done|]; by intros ? ? ?%not_elem_of_nil|].
  destruct (H n) as (roots & Hn & HQ); [by left|]. destruct IH as (skips & Hs & Hk & HQs); [intros; apply H; by right|].
  exists ((tn_nodeId (mn_node n), roots) :: skips). rewrite !fmap_cons, Hk.
  split; [cbn [mapM]; by rewrite Hn, Hs|]. split; [done|].
  intros id r [[= -> ->]|Hin]%elem_of_cons; [done|by eapply HQs].
Qed.

Lemma concat_skips (skips : list (string * list string)) :
  GraphEventData target <$> concat ((fun '(id, roots) => [NodeSkipped id roots]) <$> skips) =
  (fun '(id, roots) => GraphEventData target (NodeSkipped id roots)) <$> skips.
Proof. induction skips as [|[id roots] skips IH]; simpl; [done|f_equal; exact IH]. Qed.

(** The terminal of an attempt that did not succeed ends the graph. *)
Lemma graphTerminal_step budget st e terminal :
  terminal <> t_succeeded ->
  scope e = SessionScope (GraphEventData target (GraphTerminal (terminalBlocker terminal) (terminalStatus terminal))) ->
  exists st', exec_step target budget st e = Ok st' /\ xs_lease st' = None /\ xs_nodes st' = xs_nodes st.
Proof.
  intros Ht He. unfold exec_step. rewrite He, bool_decide_eq_true_2 by done.
  destruct terminal; try done; simpl; eexists; split; done.
Qed.

(** The nodes that are left when nothing is ready. *)
Lemma nodesLeft_spec st n :
  runExec target content log = Ok st -> accepted_content content -> xs_active st = None ->
  (forall id n, (id, n) ∈ xp_nodes p <-> xs_nodes st !! id = Some n) ->
  n ∈ nodesLeft (xp_nodes p) <-> xs_nodes st !! tn_nodeId (mn_node n) = Some n /\ mn_status n = n_pending.
Proof.
  intros Hrun Hc Hidle Hshow. unfold nodesLeft. rewrite list_elem_of_fmap. split.
  - intros ([id m] & -> & Hm). apply list_elem_of_In, filter_In in Hm as [Hm Hs%bool_decide_eq_true_1].
    apply list_elem_of_In, Hshow in Hm. simpl in *. destruct (runExec_key _ _ _ _ _ _ Hrun Hm) as [-> _].
    split; [done|]. rewrite !elem_of_cons, elem_of_nil in Hs.
    destruct (idle_status _ _ _ _ Hrun Hc Hidle _ _ Hm) as [?|[H|H]]; [done|rewrite H in Hs; naive_solver|].
    rewrite blocker_statuses in H. destruct (mn_status m); naive_solver.
  - intros [Hn Hs]. exists (tn_nodeId (mn_node n), n). split; [done|]. apply list_elem_of_In, filter_In.
    split; [by apply list_elem_of_In, Hshow|]. simpl. rewrite Hs. done.
Qed.

Lemma nodesLeft_ids st :
  shows content target st p -> accepted_content content -> runExec target content log = Ok st ->
  (forall id n, (id, n) ∈ xp_nodes p <-> xs_nodes st !! id = Some n) ->
  NoDup ((fun n => tn_nodeId (mn_node n)) <$> nodesLeft (xp_nodes p)).
Proof.
  intros Hs Hc Hrun Hshow.
  assert (Hnd : NoDup (fst <$> xp_nodes p)) by (rewrite (sh_nodes _ _ _ _ Hs); apply nodesInOrder_ids, Hc).
  unfold nodesLeft. rewrite <-list_fmap_compose.
  assert (Hk : forall x, x ∈ xp_nodes p -> tn_nodeId (mn_node x.2) = x.1).
  { intros [id n] Hx%Hshow. by destruct (runExec_key _ _ _ _ _ _ Hrun Hx). }
  revert Hnd Hk. generalize (xp_nodes p). intros l. induction l as [|[id n] l IH]; intros Hnd Hk; [constructor|].
  rewrite fmap_cons, NoDup_cons in Hnd. destruct Hnd as [Hnin Hnd]. simpl.
  assert (IH' := IH Hnd (fun x Hx => Hk x (list_elem_of_further _ _ _ Hx))).
  case_bool_decide; simpl; [|done]. constructor; [|done]. pose proof (Hk (id, n)) as E. simpl in E.
  rewrite E by by left. intros ([i m] & Ei & Hm)%list_elem_of_fmap. destruct Hnin. apply list_elem_of_fmap.
  apply list_elem_of_In, filter_In in Hm as [Hm _]. apply list_elem_of_In in Hm. exists (i, m). split; [|done].
  rewrite Ei. apply (Hk (i, m)). by right.
Qed.

(** C33: A failure that leaves nothing to run closes the graph. On the
    projection of any log that is open for work and has no ready node, what
    the scheduler appends after an attempt that did not succeed ends with the
    graph's terminal event, the projector accepts all of it, and afterwards
    the lease is free and every node has succeeded or is failed, blocked,
    cancelled or skipped: none is left waiting. *)
Theorem failure_closes_graph fuel' terminal :
  open_for_work log p target -> xp_readyNodeIds p = [] -> terminal <> t_succeeded ->
  (Z.to_nat MAX_TASK_GRAPH_DEPTH <= fuel')%nat ->
  exists events, followUp fuel' p terminal = Some events /\
    last events = Some (GraphTerminal (terminalBlocker terminal) (terminalStatus terminal)) /\
    forall appended, carries appended (GraphEventData target <$> events) ->
      exists st', runExec target content (log ++ appended) = Ok st' /\ xs_lease st' = None /\
        forall id n, xs_nodes st' !! id = Some n -> mn_status n = n_succeeded \/ mn_status n ∈ blockerStatuses.
Proof.
  intros Hopen Hnil Ht Hf. destruct projected_state as (st & Hrun & Hs & Hr & Hc).
  destruct (nothing_ready st Hrun Hs Hr Hc Hopen Hnil) as (Hnone & Hidle & Hshow).
  assert (Hleft := fun n => nodesLeft_spec st n Hrun Hc Hidle Hshow).
  destruct (skips_total (skipEvent fuel' p (idsWith blockerStatuses (xp_nodes p)))
    (fun roots => forall root, root ∈ roots -> exists m, xs_nodes st !! root = Some m /\ mn_status m ∈ blockerStatuses)
    (nodesLeft (xp_nodes p))) as (skips & Hskips & Hids & Hroots).
  { intros n [Hn Hsn]%Hleft. apply (skipEvent_total fuel' st n Hrun Hc Hshow); [|done|].
    - split; intros; by apply Hshow.
    - by eapply waiting_root. }
  unfold followUp. rewrite bool_decide_eq_false_2, Hnil by done. simpl. rewrite Hskips. cbn [mbind option_bind].
  eexists. split; [reflexivity|]. split; [by rewrite last_snoc|]. intros appended Happ.
  rewrite fmap_app, concat_skips in Happ.
  apply Forall2_app_inv_r in Happ as (l1 & l2 & Hl1 & Hl2 & ->).
  inversion Hl2 as [|e ? ? ? He Hnil2]; subst. inversion Hnil2; subst.
  destruct (skips_run target (tg_graphBudget content) l1 skips st Hl1) as (st1 & Hst1 & _ & Hnodes).
  - rewrite Hids. by apply (nodesLeft_ids st).
  - intros id roots Hin. assert (Hid : id ∈ fst <$> skips) by (apply list_elem_of_fmap; by exists (id, roots)).
    rewrite Hids in Hid. apply list_elem_of_fmap in Hid as (n & -> & [Hn ?]%Hleft). eauto.
  - intros id roots root Hin Hroot. by eapply Hroots.
  - destruct (graphTerminal_step (tg_graphBudget content) st1 e terminal Ht He) as (st' & Hst' & Hlease & En).
    exists st'. split; [|split; [done|]].
    + unfold runExec in *. rewrite foldM_app, Hrun. cbn [mbind result_bind]. rewrite foldM_app, Hst1.
      cbn [mbind result_bind foldM]. by rewrite Hst'.
    + intros id n Hn. rewrite En in Hn. specialize (Hnodes id n Hn).
      destruct (decide (id ∈ fst <$> skips)) as [Hin|Hnin]; [right; by rewrite Hnodes, blocker_statuses|].
      destruct (idle_status _ _ _ _ Hrun Hc Hidle _ _ Hnodes) as [Hpend|]; [|done]. destruct Hnin.
      rewrite Hids. apply list_elem_of_fmap. exists n. destruct (runExec_key _ _ _ _ _ _ Hrun Hnodes) as [<- _].
      split; [done|]. by apply Hleft.
Qed.
End Projected.

(** ** The receipt of an attempt *)

(** A consumption beyond the reservation is refused. *)
Lemma within_artifacts used tokens reservation :
  within used (zero tokens) reservation = true -> bc_artifactBytes used <= bc_artifactBytes reservation.
Proof. rewrite within_spec. simpl. lia. Qed.

Lemma chargeReceipt_artifacts bytes budget :
  bc_artifactBytes (chargeReceipt (Some bytes) budget) = bc_artifactBytes budget + bytes.
Proof. done. Qed.

(** A receipt larger than its node's artifact budget cannot be recorded.
    The scheduler persists a receipt for every attempt whose executor gave
    none and charges its bytes to the attempt; when they exceed the node's
    [maxArtifactBytes] - which the schema lets be 0 - the projector refuses
    the terminal event of every result, so the attempt stays active. *)
Theorem oversized_receipt_blocks_terminal localeLe log revisions p admitted res receiptBytes events appended active :
  projectExecution localeLe log revisions = Ok (Some p) ->
  xp_activeAttempt p = Some active ->
  ma_nodeId active = tn_nodeId (ata_node admitted) ->
  ma_reservation active = reservationForTaskNode (ata_node admitted) ->
  ter_receiptArtifactId res = None -> ter_receiptSha256 res = None -> 0 <= bc_artifactBytes (ter_budget res) ->
  maxArtifactBytes (tn_budget (ata_node admitted)) < receiptBytes ->
  terminalEvents admitted res receiptBytes p = Ok events -> carries appended events ->
  runExec (exactFields (xp_graph p)) (mr_content (xp_graph p)) (log ++ appended) = Err consumption_exceeds_reservation.
Proof.
  intros Hp Ha Hnode Hres Hi Hsha Hpos Hbig Ht Happ.
  destruct (projectExecution_shows _ _ _ _ Hp) as (st & _ & Hrun & Hs & _).
  rewrite (sh_active _ _ _ _ Hs) in Ha. unfold terminalEvents in Ht.
  apply bind_ok in Ht as (? & Hact%throw_when_ok%negb_false_iff & Ht). apply bind_ok in Ht as (? & _ & Ht).
  injection Ht as <-. unfold isActive in Hact. rewrite (sh_active _ _ _ _ Hs), Ha in Hact.
  apply bool_decide_eq_true_1 in Hact. inversion Happ as [|e ? l ? He _]; subst.
  unfold runExec in *. rewrite foldM_app, Hrun. cbn [mbind result_bind foldM].
  unfold exec_step at 1. rewrite He. unfold graphEvent. rewrite bool_decide_eq_true_2 by done. cbn [exec_event].
  unfold terminateAttempt, matchesActive. cbn [atd_attempt_id atd_node_id atd_budget].
  rewrite Ha, Hact, Hnode, !bool_decide_eq_true_2 by done. cbn [andb].
  destruct (within _ _ (ma_reservation active)) eqn:Hw; [|done].
  apply within_artifacts in Hw. rewrite chargeReceipt_artifacts, Hres in Hw. simpl in Hw. lia.
Qed.

(** ** Scheduled graphs

    The concrete logs on which the theorems of [SchedulerProperties.v] are
    instantiated, and the graph a failing sibling strands. *)

Module SampleSchedule.
(** [b] is on its own; [c] waits for [a]. *)
Definition stranded : TaskGraphRevisionContent := SampleGraph.graph [
  SampleGraph.node "a" 1 [] managed_worktree; SampleGraph.node "b" 2 [] managed_worktree;
  SampleGraph.node "c" 3 ["a"%string] inherit_predecessor].
(** A node that may not leave artifacts. *)
Definition noArtifacts : TaskNodeSpec := {|
  tn_nodeId := "a"; tn_sequence := 1; tn_title := js "T"; tn_objective := js "O";
  tn_planItemIds := ["item-1"]; tn_dependsOn := [];
  tn_workspace := {| ws_mode := managed_worktree; ws_declaredPathPrefixes := [js "src"] |};
  tn_requiredCapabilities := [];
  tn_budget := {| maxAttempts := 2; maxDurationMs := 60000; maxModelSteps := 10; maxCommandExecutions := 10;
    maxCommandOutputBytes := 1000; maxChangedFiles := 10; maxChangedBytes := 1000; maxArtifactBytes := 0;
    maxReportedTokens := None |};
  tn_retry := {| retry_maxAttempts := 2; retry_automaticOn := [] |}; tn_kind := AgentTaskNode mode_build |}.

Section Log.
Context (content : TaskGraphRevisionContent).
Definition digest : string :=
  match canonicalTaskGraphIdentity SampleGraph.anyUuid SampleGraph.fold GraphLog.le GraphLog.hash 4 content with
  | Ok (_, d, _) => d | Err _ => "" end.
Definition target : GraphRef := {| gr_graph_id := "g"; gr_graph_revision := 1; gr_graph_sha256 := digest |}.
Definition event (id : string) (seq : Z) (d : SessionData) : DecodedStoredEvent := {|
  eventId := id; sessionId := "s"; sessionSeq := seq; sourceSchemaVersion := 2; scope := SessionScope d |}.
Definition step_ (id : string) (seq : Z) (ge : GraphEvent) : DecodedStoredEvent :=
  event id seq (GraphEventData target ge).
Definition running : list DecodedStoredEvent := [
  step_ "e1" 1 (GraphProposed {|
    grd_artifact := {| ar_artifact_id := "a"; ar_bytes := 1; ar_object_ref := "o"; ar_sha256 := digest |};
    grd_binding := tg_binding content; grd_content := content |});
  step_ "e2" 2 (GraphApproved "e1"); step_ "e3" 3 (GraphEnqueued "q" "foreground" "p");
  step_ "e4" 4 (SchedulerLeaseAcquired "n"); step_ "e5" 5 (GraphStarted "n")].
Definition graphs (log : list DecodedStoredEvent) : TaskGraphProjection :=
  match projectGraphs SampleGraph.anyUuid SampleGraph.fold GraphLog.le GraphLog.hash 4 log with
  | Ok g => g
  | Err _ => {| tgp_tracked := false; tgp_currentDraft := None; tgp_currentApproved := None;
                tgp_currentExecution := None; tgp_revisions := []; tgp_lastSessionSeq := 0 |}
  end.
Definition requested (node : TaskNodeSpec) (id : string) : SessionData := GraphEventData target (AttemptRequested {|
  arq_attempt_id := id; arq_attempt_number := 1; arq_node_id := tn_nodeId node;
  arq_reservation := reservationForTaskNode node; arq_retry_origin := retry_initial;
  arq_workspace_binding := Some "w"%string |}).
Definition ended (node : TaskNodeSpec) (id : string) (terminal : AttemptTerminal) : SessionData :=
  GraphEventData target (AttemptTerminated {|
    atd_attempt_id := id; atd_budget := zeroConsumption (reservationForTaskNode node);
    atd_usage_completeness := usage_complete; atd_node_id := tn_nodeId node; atd_terminal := terminal |}).
End Log.

Definition a : TaskNodeSpec := SampleGraph.node "a" 1 [] managed_worktree.
Definition b : TaskNodeSpec := SampleGraph.node "b" 2 [] managed_worktree.
Definition supports (node : TaskNodeSpec) : bool := true.
(** [a] of the chain [a], [b] fails. *)
Definition failed : list DecodedStoredEvent :=
  running SampleGraph.chainGraph ++ [event "e6" 6 (requested SampleGraph.chainGraph a "t1");
    event "e7" 7 (ended SampleGraph.chainGraph a "t1" t_known_failed)].
(** [a] fails first, then [b] succeeds. *)
Definition aFailed : list DecodedStoredEvent :=
  running stranded ++ [event "e6" 6 (requested stranded a "t1"); event "e7" 7 (ended stranded a "t1" t_known_failed)].
Definition bSucceeded : list DecodedStoredEvent :=
  aFailed ++ [event "e8" 8 (requested stranded b "t2"); event "e9" 9 (ended stranded b "t2" t_succeeded)].
(** An attempt of the node without artifacts. *)
Definition tight : TaskGraphRevisionContent := SampleGraph.graph [noArtifacts].
Definition started : list DecodedStoredEvent :=
  running tight ++ [event "e6" 6 (requested tight noArtifacts "t1")].
Definition admitted : AdmittedTaskAttempt := {|
  ata_attemptId := "t1"; ata_attemptNumber := 1; ata_node := noArtifacts; ata_runId := "r1";
  ata_schedulerLeaseNonceSha256 := "n" |}.
Definition projection (log : list DecodedStoredEvent) : result ExecutionError (option TaskExecutionProjection) :=
  projectExecution GraphLog.le log (tgp_revisions (graphs log)).
(** What a projection shows, in short. *)
Definition summary (log : list DecodedStoredEvent) :=
  match projection log with
  | Ok (Some p) => Some (xp_readyNodeIds p, xp_status p, (fun x => (x.1, mn_status x.2)) <$> xp_nodes p,
                         xp_lease p, followUp 16 p t_known_failed, followUp 16 p t_succeeded,
                         admitNext GraphLog.le supports "t9" "r9" (Some "w"%string) false p p)
  | _ => None
  end.
End SampleSchedule.

Lemma sample_graphs log :
  is_ok (projectGraphs SampleGraph.anyUuid SampleGraph.fold GraphLog.le GraphLog.hash 4 log) = true ->
  projectGraphs SampleGraph.anyUuid SampleGraph.fold GraphLog.le GraphLog.hash 4 log
    = Ok (SampleSchedule.graphs log).
Proof. unfold SampleSchedule.graphs. by destruct (projectGraphs _ _ _ _ _ _). Qed.

(** When [a] fails while [b] can still run, nothing is appended; when [b]
    then succeeds, nothing is appended either. [c] waits for ever, the graph
    stays running with its lease held, and the scheduler stops as blocked. *)
Example failed_sibling_strands_graph :
  let last_ log := match SampleSchedule.projection log with Ok (Some p) => Some p | _ => None end in
  (p ← last_ SampleSchedule.aFailed; Some (followUp 16 p t_known_failed, xp_readyNodeIds p))
    = Some (Some [], ["b"%string]) /\
  (p ← last_ SampleSchedule.bSucceeded;
   Some (followUp 16 p t_succeeded, xp_readyNodeIds p, (fun x => mn_status x.2) <$> xp_nodes p, xp_lease p))
    = Some (Some [], [], [n_failed; n_succeeded; n_pending], Some "n"%string) /\
  (p ← last_ SampleSchedule.bSucceeded;
   Some (admitNext GraphLog.le SampleSchedule.supports "t9" "r9" None false p p, xp_status p, stopReason (xp_status p)))
    = Some (Ok (None, []), g_running, stop_blocked).
Proof. vm_compute. done. Qed.

(** ** Witnesses *)

#[export] Instance TaskBudgetCounters_eq : EqDecision TaskBudgetCounters.
Proof. solve_decision. Defined.

(** The conditions of the theorems as a test. *)
Definition openTest (log : list DecodedStoredEvent) (p : TaskExecutionProjection) : bool :=
  match xp_activeAttempt p, xp_blocker p, xp_lease p with None, None, Some _ => true | _, _, _ => false end &&
  bool_decide (xp_status p ∈ [g_queued; g_running]) &&
  forallb (fun e => match scope e with SessionScope (GraphEventData _ GraphCancelRequested) => false | _ => true end) log.

Lemma openTest_spec log p target : openTest log p = true -> open_for_work log p target /\ xp_lease p <> None.
Proof.
  unfold openTest, open_for_work. destruct (xp_activeAttempt p), (xp_blocker p), (xp_lease p); try done.
  intros [Hs%bool_decide_eq_true_1 Hf]%andb_true_iff. split_and!; try done.
  intros (e & He & Hsc). rewrite forallb_forall in Hf. specialize (Hf e (proj1 (list_elem_of_In _ _) He)).
  by rewrite Hsc in Hf.
Qed.

Lemma sample_projection log (test : TaskExecutionProjection -> bool) :
  match SampleSchedule.projection log with Ok (Some p) => test p | _ => false end = true ->
  exists p, projectExecution GraphLog.le log (tgp_revisions (SampleSchedule.graphs log)) = Ok (Some p) /\ test p = true.
Proof. unfold SampleSchedule.projection. destruct (projectExecution _ _ _) as [[p|]|]; try done. eauto. Qed.

Definition unstarted (p : TaskExecutionProjection) : bool :=
  (0 <? length (xp_nodes p))%nat &&
  forallb (fun x => bool_decide (mn_status x.2 ∈ [n_pending; n_ready])) (xp_nodes p).

Lemma unstarted_spec p :
  unstarted p = true ->
  ~ (forall id n, (id, n) ∈ xp_nodes p -> mn_status n = n_succeeded) /\
  ~ exists id n, (id, n) ∈ xp_nodes p /\ mn_status n ∈ blockerStatuses.
Proof.
  unfold unstarted. rewrite andb_true_iff, forallb_forall. intros [Hl Hf].
  assert (Hn : forall id n, (id, n) ∈ xp_nodes p -> mn_status n = n_pending \/ mn_status n = n_ready).
  { intros id n Hin%list_elem_of_In. specialize (Hf _ Hin). apply bool_decide_eq_true_1 in Hf. set_solver. }
  split.
  - destruct (xp_nodes p) as [|[id n] l]; [done|]. intros H. specialize (H id n (list_elem_of_here _ _)).
    destruct (Hn id n (list_elem_of_here _ _)); congruence.
  - intros (id & n & Hin & Hb). rewrite blocker_statuses in Hb. by destruct (Hn id n Hin) as [E|E]; rewrite E in Hb.
Qed.

Lemma scheduler_progress_witness :
  exists p, SampleSchedule.projection (SampleSchedule.running SampleGraph.chainGraph) = Ok (Some p) /\
    exists attempt events, admitNext GraphLog.le SampleSchedule.supports "t1" "r1" (Some "w"%string) false p p
      = Ok (Some attempt, events).
Proof.
  set (log := SampleSchedule.running SampleGraph.chainGraph).
  assert (Hg : is_ok (projectGraphs SampleGraph.anyUuid SampleGraph.fold GraphLog.le GraphLog.hash 4 log) = true)
    by (vm_compute; reflexivity).
  destruct (sample_projection log (fun p => openTest log p && unstarted p &&
    match head (deterministicReadyQueue GraphLog.le p) with
    | Some n => negb (bool_decide (ws_mode (tn_workspace (mn_node n)) = origin_read_only)) | None => false end &&
    match admitNext GraphLog.le SampleSchedule.supports "t1" "r1" (Some "w"%string) false p p with
    | Ok (None, _) => false | _ => true end))
    as (p & Hp & Ht); [vm_compute; reflexivity|].
  rewrite !andb_true_iff in Ht. destruct Ht as [[[Hopen Hun] Hmode] Hadm].
  destruct (openTest_spec log p (exactFields (xp_graph p)) Hopen) as [Ho Hl].
  destruct (unstarted_spec p Hun) as [Hnot Hnone].
  exists p. split; [exact Hp|].
  destruct (scheduler_progress SampleGraph.anyUuid SampleGraph.fold GraphLog.le GraphLog.hash 4 log
    (SampleSchedule.graphs log) p (sample_graphs log Hg) Hp SampleSchedule.supports "t1" "r1" (Some "w"%string)
    Ho Hl) as [(selected & attempt & events & _ & H & _)|[(selected & _ & H)|[H|[H _]]]].
  - intros n Hn. rewrite Hn in Hmode. apply negb_true_iff, bool_decide_eq_false_1 in Hmode.
    split; [reflexivity|]. split; [intros E; destruct (Hmode E)|discriminate].
  - exists attempt, events. exact H.
  - exfalso. rewrite H in Hadm. discriminate Hadm.
  - destruct (Hnot H).
  - destruct (Hnone H).
Defined.

Lemma admitted_attempt_is_accepted_witness :
  exists p attempt events st active,
    SampleSchedule.projection (SampleSchedule.running SampleGraph.chainGraph) = Ok (Some p) /\
    admitNext GraphLog.le SampleSchedule.supports "t1" "r1" (Some "w"%string) false p p = Ok (Some attempt, events) /\
    runExec (exactFields (xp_graph p)) (mr_content (xp_graph p)) (SampleSchedule.running SampleGraph.chainGraph ++
      [SampleSchedule.event "e6" 6 (SessionOther "task_worktree.lease.acquired"%string);
       SampleSchedule.event "e7" 7 (List.last events (SessionOther ""))]) = Ok st /\
    activeAttempt st = Some active /\ ma_attemptId active = "t1"%string.
Proof.
  set (log := SampleSchedule.running SampleGraph.chainGraph).
  assert (Hg : is_ok (projectGraphs SampleGraph.anyUuid SampleGraph.fold GraphLog.le GraphLog.hash 4 log) = true)
    by (vm_compute; reflexivity).
  destruct (sample_projection log (fun p => match xp_attempts p !! "t1"%string with None => true | Some _ => false end &&
    match admitNext GraphLog.le SampleSchedule.supports "t1" "r1" (Some "w"%string) false p p with
    | Ok (Some _, [SessionOther t; _]) => String.eqb t "task_worktree.lease.acquired" | _ => false end))
    as (p & Hp & Ht); [vm_compute; reflexivity|].
  rewrite andb_true_iff in Ht. destruct Ht as [Hf Hadm].
  destruct (admitNext GraphLog.le SampleSchedule.supports "t1" "r1" (Some "w"%string) false p p)
    as [[[attempt|] events]|] eqn:E; [|discriminate Hadm..].
  destruct events as [|d [|d' [|? ?]]]; try (destruct d; discriminate Hadm); try discriminate Hadm.
  destruct d as [| | | | | | | | | | |t]; try discriminate Hadm. apply String.eqb_eq in Hadm. subst t.
  assert (Hfresh : xp_attempts p !! "t1"%string = None) by (destruct (xp_attempts p !! "t1"%string); [discriminate Hf|reflexivity]).
  destruct (admitted_attempt_is_accepted SampleGraph.anyUuid SampleGraph.fold GraphLog.le GraphLog.hash 4 log
    (SampleSchedule.graphs log) p (sample_graphs log Hg) Hp SampleSchedule.supports "t1" "r1" (Some "w"%string)
    false attempt _ [SampleSchedule.event "e6" 6 (SessionOther "task_worktree.lease.acquired"%string);
      SampleSchedule.event "e7" 7 d'] Hfresh E) as (st & active & Hst & Ha & Hi & _).
  - repeat constructor.
  - exists p, attempt, [SessionOther "task_worktree.lease.acquired"%string; d'], st, active.
    exact (conj Hp (conj E (conj Hst (conj Ha Hi)))).
Defined.

Lemma failure_closes_graph_witness :
  exists p events, SampleSchedule.projection SampleSchedule.failed = Ok (Some p) /\
    followUp 16 p t_known_failed = Some events /\ last events = Some (GraphTerminal None gt_failed) /\
    length events = 2%nat.
Proof.
  assert (Hg : is_ok (projectGraphs SampleGraph.anyUuid SampleGraph.fold GraphLog.le GraphLog.hash 4
    SampleSchedule.failed) = true) by (vm_compute; reflexivity).
  destruct (sample_projection SampleSchedule.failed (fun p => openTest SampleSchedule.failed p &&
    (length (xp_readyNodeIds p) =? 0)%nat &&
    match followUp 16 p t_known_failed with Some events => (length events =? 2)%nat | None => false end))
    as (p & Hp & Ht); [vm_compute; reflexivity|].
  rewrite !andb_true_iff in Ht. destruct Ht as [[Hopen Hnil%Nat.eqb_eq%nil_length_inv] Hlen].
  destruct (openTest_spec SampleSchedule.failed p (exactFields (xp_graph p)) Hopen) as [Ho _].
  destruct (failure_closes_graph SampleGraph.anyUuid SampleGraph.fold GraphLog.le GraphLog.hash 4 SampleSchedule.failed
    (SampleSchedule.graphs SampleSchedule.failed) p (sample_graphs SampleSchedule.failed Hg) Hp 16 t_known_failed
    Ho Hnil) as (events & He & Hlast & _); [discriminate|vm_compute; lia|].
  rewrite He in Hlen. apply Nat.eqb_eq in Hlen. exists p, events. exact (conj Hp (conj He (conj Hlast Hlen))).
Defined.

Lemma oversized_receipt_blocks_terminal_witness :
  taskGraphRevisionContentSchema SampleGraph.anyUuid SampleGraph.fold 4 SampleSchedule.tight = Ok () /\
  exists p d, SampleSchedule.projection SampleSchedule.started = Ok (Some p) /\
    terminalEvents SampleSchedule.admitted (startFailure SampleSchedule.admitted) 400 p
      = Ok [d; SessionOther "task_worktree.lease.released"%string] /\
    runExec (exactFields (xp_graph p)) (mr_content (xp_graph p)) (SampleSchedule.started ++
      [SampleSchedule.event "e7" 7 d;
       SampleSchedule.event "e8" 8 (SessionOther "task_worktree.lease.released"%string)])
      = Err consumption_exceeds_reservation.
Proof.
  split; [vm_compute; reflexivity|].
  destruct (sample_projection SampleSchedule.started (fun p =>
    match xp_activeAttempt p with
    | Some active => bool_decide (ma_nodeId active = "a"%string /\
        ma_reservation active = reservationForTaskNode SampleSchedule.noArtifacts)
    | None => false
    end &&
    match terminalEvents SampleSchedule.admitted (startFailure SampleSchedule.admitted) 400 p with
    | Ok [_; SessionOther t] => String.eqb t "task_worktree.lease.released" | _ => false end))
    as (p & Hp & Ht); [vm_compute; reflexivity|].
  rewrite andb_true_iff in Ht. destruct Ht as [Hact Hev].
  destruct (xp_activeAttempt p) as [active|] eqn:Ha; [|discriminate Hact].
  apply bool_decide_eq_true_1 in Hact as [Hn Hr].
  destruct (terminalEvents SampleSchedule.admitted (startFailure SampleSchedule.admitted) 400 p)
    as [events|] eqn:E; [|discriminate Hev].
  destruct events as [|d [|d' [|? ?]]]; try discriminate Hev; [|destruct d'; discriminate Hev].
  destruct d' as [| | | | | | | | | | |t]; try discriminate Hev. apply String.eqb_eq in Hev. subst t.
  exists p, d. split; [exact Hp|]. split; [exact E|].
  refine (oversized_receipt_blocks_terminal GraphLog.le SampleSchedule.started _ p SampleSchedule.admitted
    (startFailure SampleSchedule.admitted) 400 _ _ active Hp Ha Hn Hr eq_refl eq_refl _ _ E _).
  - vm_compute. discriminate.
  - reflexivity.
  - repeat constructor.
Defined.
