(* ===== verification/RunCommandTool.v ===== *)
(** * The command tool and the registry that runs it

    [src/tools/run-command-tool.ts], [src/approvals/command-approval-gate.ts] and
    [ToolRegistry.execute] of [src/tools/tool-registry.ts]: a call of [run_command]
    from its arguments to the observation the model reads.  The tool publishes
    its own events and keeps the verification of the command, so it acts on the
    publisher and on the completion runtime; what the preparer, the policy, the
    user, the hooks, the executor, the disk and the log answer is read from a
    world.  An [await] of the executor's stream is one element of the list of its
    signals; a stream that never ends is not modelled. *)

From S2P Require Import Prelude JsString CanonicalJson Domain Events Schemas TaskGraphSchema Permissions Utf8 Patch SourceSnapshot Completion Verification CompletionRuntime JsonParse RunEvents RunLog EventPublisher ToolErrors AgentLoop McpResult PendingEffects.
#[local] Open Scope Z_scope.

(** ** Data *)

Record RunCommandInput : Type := {
  rci_args : list jstring; rci_cwd : option jstring; rci_executable : jstring; rci_purpose : CommandPurpose;
  rci_timeout_ms : option Z }.
Record ExecutionIntent : Type := {
  ein_args : list jstring; ein_cwd : option jstring; ein_executable : jstring; ein_outputLimitBytes : Z;
  ein_purpose : CommandPurpose; ein_timeoutMs : Z }.

(** What the tool reads of a prepared execution: what the completion runtime
    reads, the executor of its environment evidence, and the review. *)
Record PreparedCommand : Type := {
  pcm_execution : PreparedExecution; pcm_executor : option CommandExecutor;
  pcm_environmentLines : list jstring; pcm_lifecycleScripts : list (jstring * jstring); pcm_warning : jstring }.

(** [ExecutionPreparationError], and everything else the preparer throws. *)
Inductive PreparationFailure : Type :=
| ExecutionPreparationError (code : string) (message : jstring)
| preparation_exception.

Record CommandApprovalRequest : Type := {
  car_actionSha256 : string; car_args : list jstring; car_callId : string; car_cwd : jstring;
  car_executor : CommandExecutor; car_executable : jstring; car_purpose : CommandPurpose;
  car_reviewLines : list jstring; car_riskWarning : jstring; car_step : Z }.
Inductive CommandApprovalMode : Type := approval_mode_ask | approval_mode_deny.

(** [ExecutionResult]: the fields the completion runtime reads, and the others. *)
Record CommandResult : Type := {
  cmr_result : ExecutionResult; cmr_cleanupVerified : bool; cmr_errorCode : option string;
  cmr_signal : option jstring }.
Inductive ExecutionSignal : Type :=
| signal_started
| signal_output (stream : OutputChannel) (chunk : jstring) (chunkBytes : Z)
| signal_completed (result : CommandResult).

Inductive HookAnswer : Type :=
| hook_no_objection
| hook_deny (code : option string) (message : option jstring)
| hook_threw.

Record ToolContext : Type := { tcx_callId : string; tcx_step : Z; tcx_toolName : string }.

(** [ToolRawResult] *)
Inductive ToolRawResult : Type :=
| raw_ok (control : option ToolControlSignal) (preSerializedOutput : option jstring) (truncated : bool)
    (value : jsmap jstring json)
| raw_error (error : ToolError) (control : option ToolControlSignal) (preSerializedOutput : option jstring)
    (truncated : option bool) (value : option (jsmap jstring json)).

Definition toolError (category : ToolErrorCategory) (code : string) (message : jstring) (retryable : bool) : ToolError :=
  {| te_category := category; te_code := code; te_message := message; te_retryable := retryable |}.
Definition failing (category : ToolErrorCategory) (code : string) (message : jstring) (retryable : bool) : ToolRawResult :=
  raw_error (toolError category code message retryable) None None None None.

(** [RunCommandToolOptions], over a world [W]; what a collaborator throws is its
    [None].  A [None] of [co_hooks] or a [false] of [co_verification] is an option
    that was not given. *)
Record RunCommandToolOptions (W : Type) : Type := {
  co_write : RunEventDraft -> W -> WriteAnswer * W;
  co_beforeEffect : W -> bool * W;
  co_prepare : ExecutionIntent -> W -> result PreparationFailure PreparedCommand * W;
  co_evaluate : PreparedCommand -> W -> option PolicyDecision * W;
  co_approvalMode : CommandApprovalMode;
  co_prompt : CommandApprovalRequest -> W -> option ApprovalDecision * W;
  co_beforeHook : option (PreparedCommand -> W -> HookAnswer * W);
  co_afterHook : option (PreparedCommand -> CommandResult -> W -> bool * W);
  co_revalidate : PreparedCommand -> W -> option bool * W;
  co_bindExecutionContext : PreparedCommand -> string -> PreparedCommand;
  co_execute : PreparedCommand -> W -> list ExecutionSignal * bool * W;
  co_randomUUID : W -> string * W;
  co_verification : bool;
  co_classify : PreparedCommand -> W -> option (option RegistryVerificationClassification) * W;
  co_sourceState : W -> result VerificationError SourceStateDigest * W;
  co_defaultTimeoutMs : Z;
  co_maxOutputBytes : Z;
  co_secrets : list (option jstring) }.
Arguments co_write {W}.
Arguments co_beforeEffect {W}.
Arguments co_prepare {W}.
Arguments co_evaluate {W}.
Arguments co_approvalMode {W}.
Arguments co_prompt {W}.
Arguments co_beforeHook {W}.
Arguments co_afterHook {W}.
Arguments co_revalidate {W}.
Arguments co_bindExecutionContext {W}.
Arguments co_execute {W}.
Arguments co_randomUUID {W}.
Arguments co_verification {W}.
Arguments co_classify {W}.
Arguments co_sourceState {W}.
Arguments co_defaultTimeoutMs {W}.
Arguments co_maxOutputBytes {W}.
Arguments co_secrets {W}.

Record ToolState (W : Type) : Type := {
  ts_publisher : EventPublisher; ts_runtime : Phase7CompletionRuntime; ts_world : W }.
Arguments Build_ToolState {W}.
Arguments ts_publisher {W}.
Arguments ts_runtime {W}.
Arguments ts_world {W}.
#[export] Instance ToolState_eta {W} : Eta (ToolState W) := fun r =>
  Build_ToolState (ts_publisher r) (ts_runtime r) (ts_world r).

(** A statement of the tool goes on with a value, returns the result of the
    tool, or throws. *)
Inductive Does (A : Type) : Type :=
| Goes (a : A)
| Gives (raw : ToolRawResult)
| Fails (fault : ToolFault).
Arguments Goes {A} a.
Arguments Gives {A} raw.
Arguments Fails {A} fault.

Definition Tool (W A : Type) : Type := ToolState W -> Does A * ToolState W.
#[export] Instance Tool_ret {W} : MRet (Tool W) := fun A a st => (Goes a, st).
#[export] Instance Tool_bind {W} : MBind (Tool W) := fun A B f m st =>
  match m st with
  | (Goes a, st) => f a st
  | (Gives raw, st) => (Gives raw, st)
  | (Fails fault, st) => (Fails fault, st)
  end.

(** ** Text *)

Definition MAX_EVENT_CHUNK_BYTES : Z := 32 * 1024.

(** A control or bidirectional character is shown as its escape. *)
Definition isDisplayControl (code : Z) : bool :=
  ((0 <=? code) && (code <=? 0x1f)) || ((0x7f <=? code) && (code <=? 0x9f)) ||
  ((0x202a <=? code) && (code <=? 0x202e)) || ((0x2066 <=? code) && (code <=? 0x2069)).
Definition displayCharacter (code : Z) : jstring :=
  if isDisplayControl code then
    if code =? 0x0a then js "\n" else if code =? 0x0d then js "\r" else if code =? 0x09 then js "\t"
    else unicodeEscape code
  else units code.
Definition sanitizeDisplayText (value : jstring) (secrets : list (option jstring)) : jstring :=
  truncateUtf8 (concat (displayCharacter <$> codePoints (redactSensitiveText value secrets))) 4096.

(** [splitEventChunks]: pieces of whole characters, of at most the limit. *)
Fixpoint chunkCharacters (characters : list Z) (current : jstring) (bytes : Z) : list jstring :=
  match characters with
  | [] => if (0 <? length current)%nat then [current] else []
  | c :: characters =>
      let characterBytes := byteLength (units c) in
      if (MAX_EVENT_CHUNK_BYTES <? bytes + characterBytes) && (0 <? length current)%nat
      then current :: chunkCharacters characters (units c) characterBytes
      else chunkCharacters characters (current ++ units c) (bytes + characterBytes)
  end.
Definition splitEventChunks (value : jstring) : list jstring := chunkCharacters (codePoints value) [] 0.

(** ** The observation of a command *)

Definition commandObservation (result : CommandResult) (stdout stderr : jstring) (truncated : bool) : jsmap jstring json :=
  [(js "cleanup_verified", JBool (cmr_cleanupVerified result));
   (js "duration_ms", JNum (er_durationMs (cmr_result result)))] ++
  (match cmr_errorCode result with Some code => [(js "error_code", jtext code)] | None => [] end) ++
  [(js "exit_code", nullable JNum (er_exitCode (cmr_result result)));
   (js "signal", nullable JStr (cmr_signal result));
   (js "stderr", JStr stderr); (js "stdout", JStr stdout);
   (js "termination", jtext (terminationText (er_termination (cmr_result result))));
   (js "truncated", JBool truncated)].

(** [{ category, code, message, retryable }], in the order of [toolError]. *)
Definition toolErrorValue (error : ToolError) : json := JObj [
  (js "category", jtext (categoryText (te_category error))); (js "code", jtext (te_code error));
  (js "message", JStr (te_message error)); (js "retryable", JBool (te_retryable error))].

(** [JSON.stringify({ ...value, ok: true })] and, with an error,
    [JSON.stringify({ ...value, error, ok: false })]. *)
Definition resultText (value : jsmap jstring json) (error : option ToolError) : jstring :=
  jsonStringify (JObj match error with
                      | None => jm_set (js "ok") (JBool true) value
                      | Some e => jm_set (js "ok") (JBool false) (jm_set (js "error") (toolErrorValue e) value)
                      end).

Definition resultError (termination : ExecutionTermination) : option ToolError :=
  let error category code message retryable := Some (toolError category code (js message) retryable) in
  match termination with
  | term_exit | term_signal => None
  | term_cancelled => error error_cancelled "command_cancelled" "command execution was cancelled" false
  | output_limit_exceeded =>
      error error_limit "command_output_limit_exceeded" "command output reached the configured limit" false
  | term_timeout => error error_limit "command_timeout" "command reached its configured timeout" false
  | spawn_error => error error_tool "command_spawn_failed" "command could not be started" false
  | cleanup_failed =>
      error error_system "command_cleanup_failed" "command process tree cleanup could not be verified" false
  | term_stale => error error_permission "command_stale" "command inputs changed after approval" true
  end%string.

(** [fitObservation]: [None] is its exception, or a loop out of fuel. *)
Fixpoint fitObservation (fuel : nat) (result : CommandResult) (error : option ToolError) (stdout stderr : jstring)
    (truncated : bool) : option (jsmap jstring json * bool) :=
  let observation := commandObservation result stdout stderr truncated in
  if byteLength (resultText observation error) <=? MAX_COMMAND_TOOL_OUTPUT_BYTES then Some (observation, truncated)
  else match fuel with
       | O => None
       | S fuel =>
           let trimStdout := byteLength stderr <=? byteLength stdout in
           let selected := if trimStdout then stdout else stderr in
           if (length selected =? 0)%nat then None
           else
             let targetBytes := Z.max 0 (byteLength selected * 3 / 4) in
             let shortened :=
               truncateUtf8 selected (Z.max 0 (targetBytes - byteLength OMITTED_SUFFIX)) ++ OMITTED_SUFFIX in
             if trimStdout then fitObservation fuel result error shortened stderr true
             else fitObservation fuel result error stdout shortened true
       end.
Definition fitted (result : CommandResult) : option (jsmap jstring json * bool) :=
  let r := cmr_result result in
  fitObservation (Z.to_nat (byteLength (er_stdout r) + byteLength (er_stderr r))) result
    (resultError (er_termination r)) (er_stdout r) (er_stderr r) (er_truncated r).

(** The state of the loop over the signals of the executor. *)
Record Execution : Type := {
  exn_started : bool; exn_completed : option CommandResult; exn_outputParts : CommandOutputAccumulator;
  exn_stdoutIndex : Z; exn_stderrIndex : Z }.
#[export] Instance Execution_eta : Eta Execution := fun r =>
  Build_Execution (exn_started r) (exn_completed r) (exn_outputParts r) (exn_stdoutIndex r) (exn_stderrIndex r).
Definition noExecution : Execution := {|
  exn_started := false; exn_completed := None; exn_outputParts := noOutput; exn_stdoutIndex := 0;
  exn_stderrIndex := 0 |}.
Definition chunkIndex (stream : OutputChannel) (execution : Execution) : Z :=
  match stream with channel_stdout => exn_stdoutIndex execution | channel_stderr => exn_stderrIndex execution end.
Definition countChunk (stream : OutputChannel) (execution : Execution) : Execution :=
  match stream with
  | channel_stdout => execution <| exn_stdoutIndex ::= Z.succ |>
  | channel_stderr => execution <| exn_stderrIndex ::= Z.succ |>
  end.

Section Tool.
Context {W : Type}.
Variable nfc : jstring -> jstring.
Variable sha256Bytes : list Z -> string.
Variable localeLe : jstring -> jstring -> bool.
Variables runId sessionId : string.
Variable options : RunCommandToolOptions W.
Notation ToolM := (Tool W).

(** ** Statements *)

Definition outside {A} (f : W -> A * W) : ToolM A := fun st =>
  let '(a, w) := f (ts_world st) in (Goes a, st <| ts_world := w |>).
Definition gives {A} (raw : ToolRawResult) : ToolM A := fun st => (Gives raw, st).
Definition fails {A} (fault : ToolFault) : ToolM A := fun st => (Fails fault, st).
Definition gives_when (b : bool) (raw : ToolRawResult) : ToolM () := if b then gives raw else mret tt.
Definition fails_when (b : bool) (fault : ToolFault) : ToolM () := if b then fails fault else mret tt.
Definition orThrow {A} (o : option A) : ToolM A := match o with Some a => mret a | None => fails tool_exception end.
(** [try { m } catch (error) { throw handler(error) }] *)
Definition catching {A} (handler : ToolFault -> ToolFault) (m : ToolM A) : ToolM A := fun st =>
  match m st with
  | (Fails fault, st) => (Fails (handler fault), st)
  | answer => answer
  end.

(** [publisher.publish(draft)] *)
Definition publishing (draft : RunEventDraft) : ToolM () := fun st =>
  let '(wa, w) := co_write options draft (ts_world st) in
  let '(answer, p) := publish sha256Bytes localeLe runId sessionId (wa_attribution wa) (wa_eventId wa) (wa_written wa)
                        (wa_rendered wa) draft (ts_publisher st) in
  (match answer with
   | Ok _ => Goes tt
   | Err EventPersistenceError => Fails tool_persistence_error
   | Err _ => Fails tool_exception
   end, st <| ts_world := w |> <| ts_publisher := p |>).

Definition publishBoundary (draft : RunEventDraft) (executionAttempted : bool) : ToolM () :=
  catching (fun fault =>
    match fault with
    | tool_persistence_error => fatal_tool_error fatal_storage executionAttempted
    | _ => if executionAttempted then fatal_tool_error ambiguous_command_state true else fault
    end) (publishing draft).

(** ** The approval of a command

    [CommandApprovalGate.request]; the preview of the event is left out. *)

Definition requestApproval (request : CommandApprovalRequest) : ToolM (string * ApprovalDecision) :=
  approvalRequestId ← outside (co_randomUUID options);
  let action := RunCommandAction (car_actionSha256 request) in
  _ ← publishing (ev_approval_requested {|
        arp_action := action; arp_approval_request_id := approvalRequestId; arp_call_id := car_callId request;
        arp_step := car_step request |});
  decision ← match co_approvalMode options with
             | approval_mode_deny => mret approval_denied
             | approval_mode_ask => decision ← outside (co_prompt options request); orThrow decision
             end;
  _ ← publishing (ev_approval_decided {|
        adp_action := action; adp_approval_request_id := approvalRequestId; adp_call_id := car_callId request;
        adp_decision := decision; adp_step := car_step request |});
  mret (approvalRequestId, decision).

(** ** The verification of a command

    The operations of [Phase7CompletionRuntime] that publish. *)

Definition gets {A} (f : ToolState W -> A) : ToolM A := fun st => (Goes (f st), st).
Definition onRuntime {A} (f : Phase7CompletionRuntime -> step A) : ToolM A := fun st =>
  let '(answer, rt) := f (ts_runtime st) in
  (match answer with
   | Ok a => Goes a
   | Err (StorageError workspaceMayHaveChanged) => Fails (fatal_tool_error fatal_storage workspaceMayHaveChanged)
   | Err (Verification _) => Fails tool_exception
   end, st <| ts_runtime := rt |>).

(** [prepareVerification]: the classifier is asked about a command to verify, the
    working tree is read when it knows its inputs, and a snapshot gets an id. *)
Definition preparingVerification (prepared : PreparedCommand) (executionId : string)
  : ToolM (option ActiveVerificationContext) :=
  let prepare classification sourceState uuid :=
    onRuntime (prepareVerification nfc sha256Bytes localeLe (pcm_execution prepared) classification sourceState
                 executionId uuid) in
  let unread := Err (VerificationTrackerError "unread") in
  if pe_purpose (pcm_execution prepared) !== purpose_verify then mret None
  else
    answer ← outside (co_classify options prepared);
    classification ← orThrow answer;
    match classification with
    | Some c =>
        if (length (rvc_inputPaths c) =? 0)%nat then prepare classification unread ""%string
        else
          sourceState ← outside (co_sourceState options);
          rt ← gets ts_runtime;
          uuid ← (if is_ok (takeSnapshot nfc sha256Bytes c sourceState rt) then outside (co_randomUUID options)
                  else mret ""%string);
          prepare classification sourceState uuid
    | None => prepare classification unread ""%string
    end.

(** Its [publish]; [workspaceMayHaveChanged] when the journal has an entry. *)
Definition publishingEvidence (draft : RunEventDraft) : ToolM () :=
  rt ← gets ts_runtime;
  catching (fun fault => match fault with
                         | tool_persistence_error => fatal_tool_error fatal_storage (0 <? length (rt_journal rt))%nat
                         | fault => fault
                         end) (publishing draft).

Definition verificationIdentity (started : VerificationStartedRecord) (context : ToolContext) : VerificationIdentity := {|
  vid_action_sha256 := vsr_actionSha256 started; vid_call_id := tcx_callId context;
  vid_command_execution_id := vsr_commandExecutionId started; vid_step := tcx_step context;
  vid_verification_id := vsr_verificationId started |}.

Definition publishVerificationStarted (verification : ActiveVerificationContext) (context : ToolContext) : ToolM () :=
  let started := avc_started verification in
  publishingEvidence (ev_verification_started {|
    vsp_id := verificationIdentity started context; vsp_generation := vsr_generation started;
    vsp_kind := vsr_kind started; vsp_snapshot_sha256 := vsr_beforeSnapshotSha256 started |}).

(** What the tracker makes of the completed command. *)
Definition completedRecord (verification : ActiveVerificationContext) (result : ExecutionResult)
    (sourceState : Prelude.result VerificationError SourceStateDigest) (rt : Phase7CompletionRuntime)
  : Prelude.result VerificationError VerificationCompletedRecord :=
  afterSnapshot ← takeSnapshot nfc sha256Bytes (avc_classification verification) sourceState rt;
  '(completed, _) ← complete sha256Bytes localeLe {|
      cvi_afterSnapshot := afterSnapshot; cvi_durationMs := er_durationMs result; cvi_exitCode := er_exitCode result;
      cvi_termination := er_termination result;
      cvi_verificationId := vsr_verificationId (avc_started verification) |} (rt_tracker rt);
  Ok completed.

Definition verificationCompletedData (completed : VerificationCompletedRecord) (context : ToolContext)
  : VerificationCompletedPayload := {|
  vcp_id := verificationIdentity (vcr_started completed) context;
  vcp_after_snapshot_sha256 := vcr_afterSnapshotSha256 completed;
  vcp_before_snapshot_sha256 := vsr_beforeSnapshotSha256 (vcr_started completed);
  vcp_completed_generation := vcr_completedGeneration completed; vcp_duration_ms := vcr_durationMs completed;
  vcp_exit_code := if vcr_termination completed === term_exit then vcr_exitCode completed else None;
  vcp_stale := vcr_status completed === vst_stale; vcp_stale_reasons := vcr_staleReasons completed;
  vcp_started_generation := vsr_generation (vcr_started completed); vcp_status := vcr_status completed |}.

Definition keepingEvidence (draft : RunEventDraft) (complete : bool -> Phase7CompletionRuntime -> step ()) : ToolM () :=
  fun st =>
    match publishingEvidence draft st with
    | (Goes _, st) => onRuntime (complete true) st
    | (answer, st) => (answer, st <| ts_runtime ::= fun rt => (complete false rt).2 |>)
    end.

(** [completeVerification]: the evidence is kept when its event was published. *)
Definition completingVerification (verification : ActiveVerificationContext) (result : ExecutionResult)
    (context : ToolContext) : ToolM () :=
  sourceState ← outside (co_sourceState options);
  rt ← gets ts_runtime;
  let complete published := completeVerification nfc sha256Bytes localeLe verification result sourceState published in
  match completedRecord verification result sourceState rt with
  | Err _ => onRuntime (complete false)
  | Ok completed => keepingEvidence (ev_verification_completed (verificationCompletedData completed context)) complete
  end.

(** ** The tool *)

Definition rulesStale : ToolRawResult :=
  failing error_permission "repository_rules_stale"
    (js "repository rules changed after this run was frozen; start a new run") true.
Definition preparationFailure (error : PreparationFailure) : ToolRawResult :=
  match error with
  | ExecutionPreparationError code message => failing error_permission code message false
  | preparation_exception =>
      failing error_system "command_preparation_failed" (js "command could not be prepared") false
  end.

Definition executionIdentity (prepared : PreparedCommand) (executionId : string) (context : ToolContext) : CommandIdentity := {|
  ci_action_sha256 := pe_actionSha256 (pcm_execution prepared); ci_call_id := tcx_callId context;
  ci_execution_id := executionId; ci_executor := default executor_local (pcm_executor prepared);
  ci_step := tcx_step context |}.

Definition beforeEffect : ToolM () :=
  current ← outside (co_beforeEffect options);
  gives_when (negb current) rulesStale.

Definition executionIntent (input : RunCommandInput) : ExecutionIntent := {|
  ein_args := rci_args input; ein_cwd := rci_cwd input; ein_executable := rci_executable input;
  ein_outputLimitBytes := co_maxOutputBytes options; ein_purpose := rci_purpose input;
  ein_timeoutMs := default (co_defaultTimeoutMs options) (rci_timeout_ms input) |}.
Definition preparing (input : RunCommandInput) : ToolM PreparedCommand :=
  answer ← outside (co_prepare options (executionIntent input));
  match answer with Ok prepared => mret prepared | Err error => gives (preparationFailure error) end.

Definition evaluatePermission (prepared : PreparedCommand) (context : ToolContext) : ToolM PolicyDecision :=
  answer ← outside (co_evaluate options prepared);
  decision ← orThrow answer;
  _ ← publishBoundary (ev_permission_evaluated {|
        pev_action_sha256 := pe_actionSha256 (pcm_execution prepared); pev_call_id := tcx_callId context;
        pev_effect := pd_effect decision;
        pev_reason_code := if pd_effect decision === allow_effect then None else pd_reasonCode decision;
        pev_step := tcx_step context |}) false;
  mret decision.

Definition displayArgs (prepared : PreparedCommand) : list jstring :=
  (fun argument => sanitizeDisplayText argument (co_secrets options)) <$> pe_argv (pcm_execution prepared).

(** The approval a command needs that the policy neither allows nor denies. *)
Definition approving (prepared : PreparedCommand) (context : ToolContext) : ToolM string :=
  let execution := pcm_execution prepared in
  '(approvalRequestId, decision) ← catching (fun fault =>
      match fault with tool_persistence_error => fatal_tool_error fatal_storage false | fault => fault end)
    (requestApproval {|
       car_actionSha256 := pe_actionSha256 execution; car_args := displayArgs prepared;
       car_callId := tcx_callId context; car_cwd := pe_canonicalCwd execution;
       car_executor := default executor_local (pcm_executor prepared);
       car_executable := pe_logicalExecutable execution; car_purpose := pe_purpose execution;
       car_reviewLines := (fun line => sanitizeDisplayText line (co_secrets options)) <$>
         pcm_environmentLines prepared ++
         ((fun '(name, body) => name ++ js ": " ++ body) <$> pcm_lifecycleScripts prepared);
       car_riskWarning := pcm_warning prepared; car_step := tcx_step context |});
  match decision with
  | approval_cancelled => fails (fatal_tool_error fatal_user_cancelled false)
  | approval_denied =>
      gives (failing error_permission "command_approval_denied" (js "command was not approved") false)
  | approval_approved => mret approvalRequestId
  end.

Definition beforeHook (prepared : PreparedCommand) : ToolM () :=
  match co_beforeHook options with
  | None => mret tt
  | Some hook =>
      answer ← outside (hook prepared);
      match answer with
      | hook_no_objection => mret tt
      | hook_deny code message =>
          gives (failing error_permission (default "hook_gate_denied"%string code)
                   (default (js "command was denied by a lifecycle Hook") message) false)
      | hook_threw => fails tool_exception
      end
  end.

Definition revalidating (prepared : PreparedCommand) : ToolM () :=
  answer ← outside (co_revalidate options prepared);
  current ← orThrow answer;
  gives_when (negb current)
    (failing error_permission "command_stale" (js "command inputs changed after permission evaluation") true).

(** The snapshot before a command; whatever goes wrong is a result. *)
Definition orSnapshotFailed {A} (m : ToolM A) : ToolM A := fun st =>
  match m st with
  | (Fails _, st) =>
      (Gives (failing error_system "verification_snapshot_failed"
         (js "verification inputs or the source-state snapshot could not be established") false), st)
  | answer => answer
  end.
Definition verifying (prepared : PreparedCommand) (executionId : string) : ToolM (option ActiveVerificationContext) :=
  if co_verification options then orSnapshotFailed (preparingVerification prepared executionId) else mret None.

(** Everything that comes before the command runs: its durable request last. *)
Definition requestCommand (input : RunCommandInput) (context : ToolContext)
  : ToolM (PreparedCommand * CommandIdentity * option ActiveVerificationContext) :=
  _ ← beforeEffect;
  prepared ← preparing input;
  decision ← evaluatePermission prepared context;
  _ ← gives_when (pd_effect decision === deny_effect)
        (failing error_permission "command_denied" (js "command was denied by rule " ++ js (pd_ruleId decision)) false);
  approvalRequestId ← (if pd_effect decision === ask_effect
                       then (id ← approving prepared context; mret (Some id)) else mret None);
  _ ← beforeHook prepared;
  _ ← revalidating prepared;
  _ ← beforeEffect;
  executionId ← outside (co_randomUUID options);
  let bound := co_bindExecutionContext options prepared executionId in
  let identity := executionIdentity bound executionId context in
  verification ← verifying bound executionId;
  _ ← publishBoundary (ev_command_requested {|
        crq_id := identity; crq_approval_request_id := approvalRequestId;
        crq_cwd := pe_canonicalCwd (pcm_execution bound);
        crq_executable := pe_logicalExecutable (pcm_execution bound);
        crq_purpose := pe_purpose (pcm_execution bound);
        crq_redacted_argv := pe_logicalExecutable (pcm_execution bound) :: displayArgs prepared |}) false;
  _ ← match verification with
      | Some active => publishVerificationStarted active context
      | None => mret tt
      end;
  mret (bound, identity, verification).

Definition ambiguous : ToolFault := fatal_tool_error ambiguous_command_state true.

(** One signal of the executor. *)
Fixpoint publishChunks (identity : CommandIdentity) (stream : OutputChannel) (chunks : list jstring) (execution : Execution)
  : ToolM Execution :=
  match chunks with
  | [] => mret execution
  | chunk :: chunks =>
      let execution := execution <| exn_outputParts ::= pushChunk stream chunk |> in
      _ ← publishBoundary (ev_command_output {|
            cop_id := identity; cop_bytes := byteLength chunk; cop_channel := stream; cop_chunk := chunk;
            cop_chunk_index := chunkIndex stream execution |}) true;
      publishChunks identity stream chunks (countChunk stream execution)
  end.
Definition onSignal (identity : CommandIdentity) (signal : ExecutionSignal) (execution : Execution) : ToolM Execution :=
  match exn_completed execution with
  | Some _ => fails tool_exception
  | None =>
      match signal with
      | signal_started =>
          _ ← fails_when (exn_started execution) tool_exception;
          _ ← publishBoundary (ev_command_started identity) true;
          mret (execution <| exn_started := true |>)
      | signal_output stream chunk chunkBytes =>
          _ ← fails_when (negb (exn_started execution)) tool_exception;
          _ ← fails_when (negb (chunkBytes =? byteLength chunk)) tool_exception;
          publishChunks identity stream (splitEventChunks chunk) execution
      | signal_completed result => mret (execution <| exn_completed := Some result |>)
      end
  end.
Fixpoint onSignals (identity : CommandIdentity) (signals : list ExecutionSignal) (execution : Execution) : ToolM Execution :=
  match signals with
  | [] => mret execution
  | signal :: signals => execution ← onSignal identity signal execution; onSignals identity signals execution
  end.

(** The signals up to the end of the stream, or to what it throws. *)
Definition observing (identity : CommandIdentity) (prepared : PreparedCommand) : ToolM Execution :=
  catching (fun fault => match fault with
                         | fatal_tool_error _ _ => fault
                         | _ => ambiguous
                         end)
    ('(signals, threw) ← outside (co_execute options prepared);
     execution ← onSignals identity signals noExecution;
     _ ← fails_when threw tool_exception;
     mret execution).

(** The output the executor reports is the output it emitted. *)
Definition inconsistentEvidence (result : CommandResult) (execution : Execution) : bool :=
  let r := cmr_result result in
  (negb (exn_started execution) && (er_termination r !== spawn_error) && (er_termination r !== term_cancelled)) ||
  (concat (coa_stdout (exn_outputParts execution)) !== er_stdout r) ||
  (concat (coa_stderr (exn_outputParts execution)) !== er_stderr r) ||
  negb (byteLength (er_stdout r) =? er_stdoutBytes r) || negb (byteLength (er_stderr r) =? er_stderrBytes r).

Definition commandCompletedData (identity : CommandIdentity) (result : CommandResult) : CommandCompletedPayload :=
  let r := cmr_result result in {|
  ccp_id := identity; ccp_cleanup_verified := cmr_cleanupVerified result; ccp_duration_ms := er_durationMs r;
  ccp_error_code := cmr_errorCode result; ccp_exit_code := er_exitCode r; ccp_signal := cmr_signal result;
  ccp_stderr_bytes := er_stderrBytes r; ccp_stdout_bytes := er_stdoutBytes r; ccp_termination := er_termination r;
  ccp_total_bytes := er_stdoutBytes r + er_stderrBytes r; ccp_truncated := er_truncated r |}.

(** From the start of the executor to the durable completion. *)
Definition runToCompletion (identity : CommandIdentity) (prepared : PreparedCommand) : ToolM CommandResult :=
  execution ← observing identity prepared;
  match exn_completed execution with
  | None => fails ambiguous
  | Some completed =>
      _ ← fails_when (inconsistentEvidence completed execution) ambiguous;
      _ ← fails_when (er_termination (cmr_result completed) === term_stale) ambiguous;
      _ ← publishBoundary (ev_command_completed (commandCompletedData identity completed)) true;
      mret completed
  end.

(** What is left when the completion is durable. *)
Definition concludeCommand (context : ToolContext) (prepared : PreparedCommand)
    (verification : option ActiveVerificationContext) (completed : CommandResult) : ToolM ToolRawResult :=
  let r := cmr_result completed in
  _ ← fails_when (negb (cmr_cleanupVerified completed) || (er_termination r === cleanup_failed)) ambiguous;
  _ ← match verification with
      | Some active =>
          catching (fun fault => match fault with fatal_tool_error _ _ => fault | _ => ambiguous end)
            (completingVerification active r context)
      | None => mret tt
      end;
  _ ← match co_afterHook options with
      | Some hook => answered ← outside (hook prepared completed); fails_when (negb answered) tool_exception
      | None => mret tt
      end;
  '(observation, truncated) ← orThrow (fitted completed);
  mret match resultError (er_termination r) with
       | None => raw_ok None None truncated observation
       | Some error => raw_error error None None (Some truncated) (Some observation)
       end.

Definition execute (input : RunCommandInput) (context : ToolContext) : ToolM ToolRawResult :=
  '(prepared, identity, verification) ← requestCommand input context;
  completed ← runToCompletion identity prepared;
  concludeCommand context prepared verification completed.

(** The tool with another executor. *)
Definition withExecutor (run : PreparedCommand -> W -> list ExecutionSignal * bool * W) : RunCommandToolOptions W := {|
  co_write := co_write options; co_beforeEffect := co_beforeEffect options; co_prepare := co_prepare options;
  co_evaluate := co_evaluate options; co_approvalMode := co_approvalMode options; co_prompt := co_prompt options;
  co_beforeHook := co_beforeHook options; co_afterHook := co_afterHook options; co_revalidate := co_revalidate options;
  co_bindExecutionContext := co_bindExecutionContext options; co_execute := run;
  co_randomUUID := co_randomUUID options; co_verification := co_verification options;
  co_classify := co_classify options; co_sourceState := co_sourceState options;
  co_defaultTimeoutMs := co_defaultTimeoutMs options; co_maxOutputBytes := co_maxOutputBytes options;
  co_secrets := co_secrets options |}.
End Tool.

(** ** The registry *)

(** [RegisteredTool]; what [parseJson] refuses is a parse error or not. *)
Record RegisteredTool (W : Type) : Type := {
  rg_name : string; rg_maxOutputBytes : option Z; rg_Input : Type;
  rg_parseJson : jstring -> result bool rg_Input;
  rg_execute : rg_Input -> ToolContext -> Tool W ToolRawResult }.
Arguments rg_name {W}.
Arguments rg_maxOutputBytes {W}.
Arguments rg_Input {W}.
Arguments rg_parseJson {W}.
Arguments rg_execute {W}.

(** [createRunCommandTool]; its arguments are parsed by a validator that is
    generated from their schema. *)
Definition createRunCommandTool {W} nfc sha256Bytes localeLe runId sessionId (options : RunCommandToolOptions W)
    (parseJson : jstring -> result bool RunCommandInput) : RegisteredTool W := {|
  rg_name := "run_command"; rg_maxOutputBytes := Some MAX_COMMAND_TOOL_OUTPUT_BYTES; rg_Input := RunCommandInput;
  rg_parseJson := parseJson; rg_execute := execute nfc sha256Bytes localeLe runId sessionId options |}.

Inductive RegistryError : Type :=
| invalid_tool_name (name : string)
| duplicate_tool_name (name : string)
| invalid_output_limit (name : string).

(** [ArtifactOutputMaterializationPort]: the observation the model gets for the
    whole output, and whether it is shortened. *)
Record ToolRegistry (W : Type) : Type := {
  tr_definitions : jsmap string (RegisteredTool W); tr_secrets : list (option jstring);
  tr_artifactOutput : option (Z -> string -> jstring -> W -> option (jstring * bool) * W) }.
Arguments tr_definitions {W}.
Arguments tr_secrets {W}.
Arguments tr_artifactOutput {W}.

Section Registry.
Context {W : Type}.

(** The constructor, on tools whose schemas passed [register]. *)
Definition registerTool (definitions : jsmap string (RegisteredTool W)) (tool : RegisteredTool W)
  : result RegistryError (jsmap string (RegisteredTool W)) :=
  let name := rg_name tool in
  _ ← throw_when (negb (isToolName name)) (invalid_tool_name name);
  _ ← throw_when (jm_has name definitions) (duplicate_tool_name name);
  _ ← throw_when match rg_maxOutputBytes tool with
                 | Some limit => (Z.abs limit >? MAX_SAFE_INTEGER) || (limit <? MAX_TOOL_OUTPUT_BYTES)
                 | None => false
                 end (invalid_output_limit name);
  Ok (jm_set name tool definitions).
Fixpoint registerTools (definitions : jsmap string (RegisteredTool W)) (tools : list (RegisteredTool W))
  : result RegistryError (jsmap string (RegisteredTool W)) :=
  match tools with
  | [] => Ok definitions
  | tool :: tools => definitions ← registerTool definitions tool; registerTools definitions tools
  end.

Variable registry : ToolRegistry W.
Notation St := (ToolState W).

(** What [execute] of the registry does: it answers, or throws. *)
Definition refused (error : ToolError) : ToolAnswer := tool_returned (serializeToolError error (tr_secrets registry)).
Definition contractFailed : ToolError :=
  toolError error_system "tool_output_contract_failed" (js "tool output failed its exact observation contract") false.
Definition outputTooLarge : ToolError :=
  toolError error_system "tool_output_too_large" (js "tool output exceeded the safety limit") false.

Definition materializer (invocation : ToolInvocation) :=
  if tinv_name invocation !== "read_artifact"%string then tr_artifactOutput registry else None.

Definition materializeExecution (invocation : ToolInvocation) (modelObservationBytes : Z) (execution : ToolExecution)
    (st : St) : ToolAnswer * St :=
  match materializer invocation with
  | None => (tool_returned execution, st)
  | Some materialize =>
      let '(answer, w) := materialize modelObservationBytes (tinv_originEventId invocation) (tx_output execution)
                            (ts_world st) in
      (match answer with
       | Some (observation, shortened) =>
           tool_returned {| tx_error := tx_error execution; tx_control := tx_control execution;
                            tx_output := observation; tx_truncated := tx_truncated execution || shortened |}
       | None => tool_threw (fatal_tool_error fatal_storage false)
       end, st <| ts_world := w |>)
  end.

Definition redacted (error : ToolError) : ToolError :=
  {| te_category := te_category error; te_code := te_code error;
     te_message := redactSensitiveText (te_message error) (tr_secrets registry); te_retryable := te_retryable error |}.

(** The answer for the raw result of a tool with an output limit. *)
Definition answerRaw (invocation : ToolInvocation) (outputLimit : Z) (raw : ToolRawResult) (st : St) : ToolAnswer * St :=
  let redact text := redactSensitiveText text (tr_secrets registry) in
  let tooLarge output := (outputLimit <? byteLength output) &&
                         match materializer invocation with Some _ => false | None => true end in
  let answer error control truncated output :=
    materializeExecution invocation outputLimit
      {| tx_error := error; tx_control := control; tx_output := output; tx_truncated := truncated |} st in
  match raw with
  | raw_error error control (Some text) truncated _ =>
      if (redact text !== text) || (outputLimit <? byteLength (redact text)) then (refused contractFailed, st)
      else answer (Some (redacted error)) control (default false truncated) (redact text)
  | raw_error error _ None _ None => (refused error, st)
  | raw_error error control None truncated (Some value) =>
      let output := redact (resultText value (Some (redacted error))) in
      if tooLarge output then (refused outputTooLarge, st)
      else answer (Some (redacted error)) control (default false truncated) output
  | raw_ok control preSerializedOutput truncated value =>
      let text := default (resultText value None) preSerializedOutput in
      if match preSerializedOutput with Some text => redact text !== text | None => false end
      then (refused contractFailed, st)
      else if tooLarge (redact text) then (refused outputTooLarge, st)
      else answer None control truncated (redact text)
  end.

(** Everything but a fatal error of the tool becomes an observation. *)
Definition rawOf (answer : Does ToolRawResult) : result ToolFault ToolRawResult :=
  match answer with
  | Goes raw | Gives raw => Ok raw
  | Fails (fatal_tool_error kind changed) => Err (fatal_tool_error kind changed)
  | Fails _ => Ok (failing error_system "tool_execution_failed" (js "tool execution failed") false)
  end.

Definition registryExecute (invocation : ToolInvocation) (aborted : bool) (st : St) : ToolAnswer * St :=
  if aborted then
    (refused (toolError error_cancelled "tool_cancelled" (js "tool execution was cancelled") false), st)
  else if MAX_TOOL_ARGUMENT_BYTES <? byteLength (tinv_argumentsJson invocation) then
    (refused (toolError error_invalid_arguments "arguments_too_large" (js "tool arguments exceed 16 KiB") false), st)
  else
    match jm_get (tinv_name invocation) (tr_definitions registry) with
    | None =>
        (refused (toolError error_invalid_arguments "unknown_tool"
                    (js "unknown tool: " ++ js (tinv_name invocation)) false), st)
    | Some definition =>
        match rg_parseJson definition (tinv_argumentsJson invocation) with
        | Err invalidJson =>
            (refused (if invalidJson : bool
                      then toolError error_invalid_arguments "invalid_arguments_json"
                             (js "tool arguments must be valid JSON") false
                      else toolError error_invalid_arguments "arguments_schema_mismatch"
                             (js "tool arguments do not match the required schema") false), st)
        | Ok data =>
            let context := {| tcx_callId := tinv_callId invocation; tcx_step := tinv_step invocation;
                              tcx_toolName := tinv_name invocation |} in
            let '(answer, st) := rg_execute definition data context st in
            match rawOf answer with
            | Err fault => (tool_threw fault, st)
            | Ok raw => answerRaw invocation (default MAX_TOOL_OUTPUT_BYTES (rg_maxOutputBytes definition)) raw st
            end
        end
    end.
End Registry.
