(* ===== verification/RunCommandToolFacts.v ===== *)
(** * A program logic for the command tool

    Triples for the statements of [RunCommandTool.v] whose assertions are about the
    publisher; what the publisher has on record about a call while its command is
    permitted, requested, run and completed ([Recorded]); and the specification of
    each part of the tool. *)

From S2P Require Import Prelude JsString CanonicalJson Domain Events Schemas TaskGraphSchema Permissions Utf8 Patch SourceSnapshot Completion Verification CompletionRuntime JsonParse RunEvents RunLog EventPublisher EventPublisherFacts ToolErrors AgentLoop AgentLoopProtocol McpResult PendingEffects RunCommandTool.
#[local] Open Scope Z_scope.

(** ** What is on record about a call *)

Inductive Consent : Type := consent_none | consent_open | consent_given.

(** No permission was evaluated, one that waits for a decision, or neither. *)
Definition consentOf (p : EventPublisher) (callId : string) : Consent :=
  match permissions p !! callId with
  | None => consent_none
  | Some permission =>
      if (pm_effect permission === ask_effect) &&
         negb (existsb (fun approval => (ap_callId approval === callId) &&
                 (ap_actionKind approval === action_run_command) && (ap_decision approval !== None))
                 (jm_values (approvals p)))
      then consent_open else consent_given
  end.

(** The output a state of an execution holds, by channel. *)
Definition outputOf (output : list CommandOutputPayload) : CommandOutputAccumulator :=
  fold_left (fun acc d => pushChunk (cop_channel d) (cop_chunk d) acc) output noOutput.

Lemma jm_alter_snoc {V} (f : V -> V) (k : string) (v : V) (m : jsmap string V) :
  jm_get k m = None -> jm_alter f k (m ++ [(k, v)]) = m ++ [(k, f v)].
Proof.
  intros Hm. rewrite <-(jm_set_new_keys k v m Hm). unfold jm_alter. rewrite jm_get_set_eq.
  rewrite (jm_set_new_keys k v m Hm). revert Hm. induction m as [|[k' v'] m IH]; cbn [app jm_set jm_get].
  - intros _. by rewrite decide_True.
  - case_decide; [done|]. intros Hm. by rewrite IH.
Qed.

Section Facts.
Context {W : Type} (nfc : jstring -> jstring) (sha256Bytes : list Z -> string) (localeLe : jstring -> jstring -> bool).
Context (runId sessionId : string).
Notation reachable := (publisher_reachable sha256Bytes localeLe runId sessionId).
Notation accepts := (accepts sha256Bytes localeLe runId sessionId).
Notation publication := (tool_publication sha256Bytes localeLe runId sessionId).
Notation Assertion := (EventPublisher -> Prop).

(** [base] are the executions of other calls, and [execution] the one of
    [callId], if it has one. *)
Record Recorded (base : jsmap string CommandExecutionState) (callId : string) (consent : Consent)
    (execution : option CommandExecutionState) (p : EventPublisher) : Prop := {
  rec_reachable : reachable p;
  rec_consent : consentOf p callId = consent;
  rec_executions : commandExecutions p =
    base ++ match execution with Some x => [(cx_executionId x, x)] | None => [] end;
  rec_byCall : commandExecutionsByCall p !! callId = cx_executionId <$> execution;
  rec_fresh : forall x, execution = Some x -> jm_get (cx_executionId x) base = None }.

Lemma posted_reachable p event : reachable p -> accepts p (re_draft event) -> re_seq event = seq p + 1 -> reachable (posted event p).
Proof. intros Hp Ha Hs. eapply rtc_r; [exact Hp|]. by apply posted_step. Qed.

Lemma consent_same p p' c : permissions p' = permissions p -> approvals p' = approvals p -> consentOf p' c = consentOf p c.
Proof. unfold consentOf. by intros -> ->. Qed.

Definition addsConsent (draft : RunEventDraft) : bool :=
  match draft with ev_permission_evaluated _ | ev_approval_requested _ | ev_approval_decided _ => true | _ => false end.
Definition addsExecution (draft : RunEventDraft) : bool :=
  match draft with
  | ev_command_requested _ | ev_command_started _ | ev_command_output _ | ev_command_completed _ => true | _ => false
  end.

Lemma consent_posted event p c : addsConsent (re_draft event) = false -> consentOf (posted event p) c = consentOf p c.
Proof.
  intros H. apply consent_same; [rewrite posted_permissions|rewrite posted_approvals]; by destruct (re_draft event).
Qed.

Lemma posted_unrelated base c k x p event :
  Recorded base c k x p -> accepts p (re_draft event) -> re_seq event = seq p + 1 ->
  addsConsent (re_draft event) = false -> addsExecution (re_draft event) = false -> Recorded base c k x (posted event p).
Proof.
  intros [Hr Hc He Hb Hf] Ha Hs Hn Hx. split.
  - by apply posted_reachable.
  - by rewrite consent_posted.
  - rewrite posted_executions. by destruct (re_draft event).
  - rewrite posted_byCall. by destruct (re_draft event).
  - done.
Qed.

(** A change of the execution that keeps its id. *)
Lemma posted_changes base c k x f p event :
  Recorded base c k (Some x) p -> accepts p (re_draft event) -> re_seq event = seq p + 1 ->
  addsConsent (re_draft event) = false -> cx_executionId (f x) = cx_executionId x ->
  commandExecutions (posted event p) = jm_alter f (cx_executionId x) (commandExecutions p) ->
  commandExecutionsByCall (posted event p) = commandExecutionsByCall p ->
  Recorded base c k (Some (f x)) (posted event p).
Proof.
  intros [Hr Hc He Hb Hf] Ha Hs Hn Hid Hx Hby. split.
  - by apply posted_reachable.
  - by rewrite consent_posted.
  - rewrite Hx, He, Hid. apply jm_alter_snoc. by apply Hf.
  - rewrite Hby, Hb. cbn. by rewrite Hid.
  - intros y [= <-]. rewrite Hid. by apply Hf.
Qed.

Lemma accepted_agent p draft :
  reachable p -> accepts p draft -> isAgentEvent draft = true ->
  exists attribution, validateAgentTransition sha256Bytes localeLe runId sessionId attribution draft p = Ok ().
Proof. apply accepted_as_agent. Qed.

Lemma posted_permission base c p event d :
  Recorded base c consent_none None p -> accepts p (re_draft event) -> re_seq event = seq p + 1 ->
  re_draft event = ev_permission_evaluated d -> pev_call_id d = c ->
  exists k, k <> consent_none /\ (pev_effect d <> ask_effect -> k = consent_given) /\ Recorded base c k None (posted event p).
Proof.
  intros [Hr Hc He Hb Hf] Ha Hs Hd <-. exists (consentOf (posted event p) (pev_call_id d)).
  unfold consentOf at 1 2. rewrite posted_permissions, Hd, lookup_insert_eq. cbn [pm_effect]. split_and!.
  - by case_match.
  - intros Hk. by rewrite (bool_decide_eq_false_2 _ Hk).
  - split; [by apply posted_reachable|done| | |done].
    + by rewrite posted_executions, Hd, He.
    + by rewrite posted_byCall, Hd, Hb.
Qed.

Lemma posted_request base c k p event d :
  k <> consent_none -> Recorded base c k None p -> accepts p (re_draft event) -> re_seq event = seq p + 1 ->
  re_draft event = ev_approval_requested d -> exists k, k <> consent_none /\ Recorded base c k None (posted event p).
Proof.
  intros Hk [Hr Hc He Hb Hf] Ha Hs Hd. exists (consentOf (posted event p) c). split.
  - revert Hk. rewrite <-Hc. unfold consentOf. rewrite posted_permissions, Hd. destruct (permissions p !! c); [|done].
    intros _. by case_match.
  - split; [by apply posted_reachable|done| | |done].
    + by rewrite posted_executions, Hd, He.
    + by rewrite posted_byCall, Hd, Hb.
Qed.

Lemma posted_decision base c k p event d action :
  k <> consent_none -> Recorded base c k None p -> accepts p (re_draft event) -> re_seq event = seq p + 1 ->
  re_draft event = ev_approval_decided d -> adp_call_id d = c -> adp_action d = RunCommandAction action ->
  Recorded base c consent_given None (posted event p).
Proof.
  intros Hk [Hr Hc He Hb Hf] Ha Hs Hd Hcall Haction. split; [by apply posted_reachable| | | |done].
  - revert Hk. rewrite <-Hc. unfold consentOf at 1 2. rewrite posted_permissions, Hd.
    destruct (permissions p !! c) as [permission|]; [|done]. intros _.
    destruct (accepted_agent p _ Hr Ha ltac:(by rewrite Hd)) as [attribution Hv]. rewrite Hd in Hv. cbn in Hv.
    unfold validateApprovalDecided in Hv. destruct (jm_get _ (approvals p)) as [approval|] eqn:Hap; [|done].
    apply bind_ok in Hv as (? & Hv%refuse_when_ok & _). rewrite !orb_false_iff in Hv.
    destruct Hv as [[[[_ Hkind] Hcid] _] _]. rewrite Haction in Hkind.
    apply negb_false_iff, bool_decide_eq_true in Hkind. apply negb_false_iff, bool_decide_eq_true in Hcid.
    assert (existsb (fun approval => (ap_callId approval === c) && (ap_actionKind approval === action_run_command) &&
      (ap_decision approval !== None)) (jm_values (approvals (posted event p))) = true) as ->; [|by rewrite andb_false_r].
    apply existsb_exists. exists (approval <| ap_decision := Some (adp_decision d) |>). split.
    + apply list_elem_of_In, (jm_get_values (adp_approval_request_id d)).
      rewrite posted_approvals, Hd, jm_get_alter, decide_True, Hap by done. done.
    + cbn. rewrite Hcid, Hkind, Hcall. by rewrite !bool_decide_eq_true_2.
  - by rewrite posted_executions, Hd, He.
  - by rewrite posted_byCall, Hd, Hb.
Qed.

Lemma posted_requested base c k p event d :
  Recorded base c k None p -> accepts p (re_draft event) -> re_seq event = seq p + 1 ->
  re_draft event = ev_command_requested d -> ci_call_id (crq_id d) = c ->
  Recorded base c k (Some (newExecution d)) (posted event p).
Proof.
  intros [Hr Hc He Hb Hf] Ha Hs Hd <-.
  assert (Hfresh : jm_get (ci_execution_id (crq_id d)) base = None).
  { destruct (accepted_agent p _ Hr Ha ltac:(by rewrite Hd)) as [attribution Hv]. rewrite Hd in Hv. cbn in Hv.
    unfold validateCommandRequested in Hv. apply refuse_when_ok in Hv. rewrite !orb_false_iff in Hv.
    destruct Hv as [[_ Hv%jm_has_false] _]. by rewrite He, app_nil_r in Hv. }
  split; [by apply posted_reachable|by rewrite consent_posted, Hc by (by rewrite Hd)| | |by intros x [= <-]].
  - rewrite posted_executions, Hd, He, app_nil_r. by apply jm_set_new_keys.
  - rewrite posted_byCall, Hd. cbn. by rewrite lookup_insert_eq.
Qed.

(** ** The result of a call *)

(** The publisher takes the result of a command. *)
Lemma recorded_result base c k x p step d :
  pendingCall p c "run_command" step = true -> recoveredCallData p !! c = None -> Recorded base c k x p ->
  tcc_call_id d = c -> tcc_tool_name d = "run_command"%string -> tcc_step d = step ->
  (k = consent_none -> isPreExecutionToolError d = true) -> k <> consent_open ->
  (forall y, x = Some y -> cx_completed y = true) ->
  (tcc_status d = tool_success -> exists y, x = Some y /\ cx_cleanupVerified y = Some true) ->
  validateToolCallCompleted d p = Ok ().
Proof.
  intros Hp Hrec [Hr Hc He Hb Hf] Hid Hname Hstep Hnone Hopen Hdone Hok. unfold validateToolCallCompleted.
  rewrite Hid, Hrec. unfold pendingCall in Hp. destruct (jm_get c (toolCalls p)) as [call|]; [|done].
  rewrite !andb_true_iff in Hp. destruct Hp as [[Hn Hnc] Hst]. apply bool_decide_eq_true in Hn. apply negb_true_iff in Hnc.
  rewrite Hnc, Hn, Hname, Hstep, Hst. cbn [orb negb refuse_when throw_when mbind result_bind].
  assert (Hx : (executionId ← commandExecutionsByCall p !! c; jm_get executionId (commandExecutions p)) = x).
  { rewrite Hb, He. destruct x as [x|]; [|done]. cbn. rewrite <-(jm_set_new_keys _ x base) by (by apply Hf).
    apply jm_get_set_eq. }
  rewrite Hx. unfold consentOf in Hc.
  assert (H1 : (match permissions p !! c with None => true | Some _ => false end && negb (isPreExecutionToolError d)) = false).
  { destruct (permissions p !! c); [done|]. by rewrite Hnone. }
  assert (H2 : (match permissions p !! c with Some q => pm_effect q === ask_effect | None => false end &&
    negb (existsb (fun approval => (ap_callId approval === c) && (ap_actionKind approval === action_run_command) &&
                     (ap_decision approval !== None)) (jm_values (approvals p)))) = false).
  { destruct (permissions p !! c); [|done]. destruct (_ && _); [by subst k|done]. }
  assert (H3 : match x with Some y => negb (cx_completed y) | None => false end = false).
  { destruct x; [|done]. by rewrite Hdone. }
  assert (H4 : ((tcc_status d === tool_success) &&
    negb match x with Some y => cx_completed y && (cx_cleanupVerified y === Some true) | None => false end) = false).
  { destruct (decide (tcc_status d = tool_success)) as [Hs|Hs]; [|by rewrite (bool_decide_eq_false_2 _ Hs)].
    destruct (Hok Hs) as (y & -> & Hcl). rewrite Hdone, Hcl by done. by rewrite andb_false_r. }
  rewrite (bool_decide_eq_true_2 ("run_command" = "run_command")%string) by done.
  rewrite (bool_decide_eq_false_2 ("run_command" = "apply_patch")%string) by done.
  rewrite (bool_decide_eq_false_2 ("run_command" = "finish_task")%string) by done.
  cbn [andb negb refuse_when throw_when mbind result_bind].
  by rewrite H1, H2, H3, H4.
Qed.

(** ** Triples *)

Notation ToolM := (Tool W).

(** The assertion after a value, after a result, after an exception. *)
Definition triple {A} (P : Assertion) (m : ToolM A) (G : A -> Assertion) (R : ToolRawResult -> Assertion)
    (F : ToolFault -> Assertion) : Prop :=
  forall st, P (ts_publisher st) ->
    match m st with
    | (Goes a, st') => G a (ts_publisher st')
    | (Gives raw, st') => R raw (ts_publisher st')
    | (Fails fault, st') => F fault (ts_publisher st')
    end.

Lemma triple_ret {A} (a : A) (P : Assertion) G R F : (forall p, P p -> G a p) -> triple P (mret a) G R F.
Proof. intros H st Hp. by apply H. Qed.

Lemma triple_bind {A B} (m : ToolM A) (f : A -> ToolM B) (P : Assertion) G Q R F :
  triple P m G R F -> (forall a, triple (G a) (f a) Q R F) -> triple P (m ≫= f) Q R F.
Proof.
  intros Hm Hf st Hp. specialize (Hm st Hp). unfold mbind, Tool_bind. destruct (m st) as [[a|raw|fault] st']; [|done..].
  by apply Hf.
Qed.

Lemma triple_conseq {A} (m : ToolM A) (P P' : Assertion) (G G' : A -> Assertion) (R R' : ToolRawResult -> Assertion)
    (F F' : ToolFault -> Assertion) :
  triple P' m G' R' F' -> (forall p, P p -> P' p) -> (forall a p, G' a p -> G a p) ->
  (forall raw p, R' raw p -> R raw p) -> (forall fault p, F' fault p -> F fault p) -> triple P m G R F.
Proof.
  intros Hm HP HG HR HF st Hp. specialize (Hm st (HP _ Hp)). destruct (m st) as [[a|raw|fault] st']; auto.
Qed.

Lemma triple_exists {A X} (m : ToolM A) (P : X -> Assertion) G R F :
  (forall x, triple (P x) m G R F) -> triple (fun p => exists x, P x p) m G R F.
Proof. intros H st [x Hx]. by apply (H x). Qed.

Lemma triple_pure {A} (m : ToolM A) (phi : Prop) (P : Assertion) G R F :
  (phi -> triple P m G R F) -> triple (fun p => phi /\ P p) m G R F.
Proof. intros H st [Hphi Hp]. by apply H. Qed.

Lemma triple_outside {A} (f : W -> A * W) (P : Assertion) R F : triple P (outside f) (fun _ => P) R F.
Proof. intros st Hp. unfold outside. by destruct (f (ts_world st)). Qed.

Lemma triple_gets {A} (f : ToolState W -> A) (P : Assertion) R F : triple P (gets f) (fun _ => P) R F.
Proof. by intros st Hp. Qed.

Lemma triple_gives {A} raw (P : Assertion) G (R : ToolRawResult -> Assertion) F :
  (forall p, P p -> R raw p) -> triple P (gives (A := A) raw) G R F.
Proof. intros H st Hp. by apply H. Qed.

Lemma triple_fails {A} fault (P : Assertion) G R (F : ToolFault -> Assertion) :
  (forall p, P p -> F fault p) -> triple P (fails (A := A) fault) G R F.
Proof. intros H st Hp. by apply H. Qed.

Lemma triple_gives_when b raw (P : Assertion) (R : ToolRawResult -> Assertion) F :
  (b = true -> forall p, P p -> R raw p) -> triple P (gives_when b raw) (fun _ p => b = false /\ P p) R F.
Proof. intros H. destruct b; [apply triple_gives, H; done|by apply triple_ret]. Qed.

Lemma triple_fails_when b fault (P : Assertion) R (F : ToolFault -> Assertion) :
  (b = true -> forall p, P p -> F fault p) -> triple P (fails_when b fault) (fun _ p => b = false /\ P p) R F.
Proof. intros H. destruct b; [apply triple_fails, H; done|by apply triple_ret]. Qed.

Lemma triple_orThrow {A} (o : option A) (P : Assertion) R (F : ToolFault -> Assertion) :
  (forall p, P p -> F tool_exception p) -> triple P (orThrow o) (fun a p => o = Some a /\ P p) R F.
Proof. intros H. destruct o; [by apply triple_ret|by apply triple_fails]. Qed.

Lemma triple_catching {A} handler (m : ToolM A) (P : Assertion) G R (F : ToolFault -> Assertion) :
  triple P m G R (fun fault => F (handler fault)) -> triple P (catching handler m) G R F.
Proof. intros H st Hp. specialize (H st Hp). unfold catching. by destruct (m st) as [[a|raw|fault] st']. Qed.

(** The faults of a publication. *)
Definition publishingFault (fault : ToolFault) : Prop := fault = tool_persistence_error \/ fault = tool_exception.

Context (options : RunCommandToolOptions W).
Notation publishes := (publishing sha256Bytes localeLe runId sessionId options).

Lemma triple_publishing draft (P : Assertion) (G : () -> Assertion) R (F : ToolFault -> Assertion) :
  (forall p event, P p -> accepts p (re_draft event) -> re_seq event = seq p + 1 -> re_draft event = draft ->
     G tt (posted event p) /\ F tool_exception (posted event p)) ->
  (forall p fault, P p -> publishingFault fault -> F fault p) ->
  triple P (publishes draft) G R F.
Proof.
  intros Hposted Hfault st Hp. unfold publishing. destruct (co_write options draft (ts_world st)) as [wa w]. unfold publish.
  destruct (stamp _ _ _ _ _ _ _ _) as [event|e] eqn:Hs; cbn.
  - apply stamp_ok in Hs as [Ha ->].
    destruct (Hposted _ {| re_event_id := wa_eventId wa; re_seq := seq (ts_publisher st) + 1; re_draft := draft |} Hp Ha eq_refl eq_refl) as [Hg Hf].
    destruct (wa_written wa); [|by apply Hfault; [|left]]. destruct (wa_rendered wa); [exact Hg|exact Hf].
  - destruct e; (apply Hfault; [done|]); first [by left|by right].
Qed.

Lemma triple_publishBoundary draft (attempted : bool) (P : Assertion) (G : () -> Assertion) R (F : ToolFault -> Assertion) :
  (forall p event, P p -> accepts p (re_draft event) -> re_seq event = seq p + 1 -> re_draft event = draft ->
     G tt (posted event p) /\ F (if attempted then ambiguous else tool_exception) (posted event p)) ->
  (forall p, P p -> F (fatal_tool_error fatal_storage attempted) p) ->
  (forall p, P p -> F (if attempted then ambiguous else tool_exception) p) ->
  triple P (publishBoundary sha256Bytes localeLe runId sessionId options draft attempted) G R F.
Proof.
  intros Hposted Hstorage Hother. apply triple_catching, triple_publishing.
  - intros p event Hp Ha Hs Hd. by destruct (Hposted p event Hp Ha Hs Hd), attempted.
  - intros p fault Hp [->| ->]; [by apply Hstorage|]. by destruct attempted; apply Hother.
Qed.

(** ** Everything that is kept *)

(** An assertion that holds at every end. *)
Definition keeps {A} (I : Assertion) (m : ToolM A) : Prop := triple I m (fun _ => I) (fun _ => I) (fun _ => I).

Lemma kept_bind {A B} I (m : ToolM A) (f : A -> ToolM B) : keeps I m -> (forall a, keeps I (f a)) -> keeps I (m ≫= f).
Proof. apply triple_bind. Qed.
Lemma kept_ret {A} I (a : A) : keeps I (mret a).
Proof. by apply triple_ret. Qed.
Lemma kept_outside {A} I (f : W -> A * W) : keeps I (outside f).
Proof. apply triple_outside. Qed.
Lemma kept_gets {A} I (f : ToolState W -> A) : keeps I (gets f).
Proof. apply triple_gets. Qed.
Lemma kept_gives {A} I raw : keeps I (gives (A := A) raw).
Proof. by apply triple_gives. Qed.
Lemma kept_fails {A} I fault : keeps I (fails (A := A) fault).
Proof. by apply triple_fails. Qed.
Lemma kept_gives_when I b raw : keeps I (gives_when b raw).
Proof. destruct b; [apply kept_gives|apply kept_ret]. Qed.
Lemma kept_fails_when I b fault : keeps I (fails_when b fault).
Proof. destruct b; [apply kept_fails|apply kept_ret]. Qed.
Lemma kept_orThrow {A} I (o : option A) : keeps I (orThrow o).
Proof. destruct o; [apply kept_ret|apply kept_fails]. Qed.
Lemma kept_catching {A} I handler (m : ToolM A) : keeps I m -> keeps I (catching handler m).
Proof. intros H. by apply triple_catching. Qed.
Lemma kept_onRuntime {A} I (f : Phase7CompletionRuntime -> step A) : keeps I (onRuntime f).
Proof. intros st Hp. unfold onRuntime. destruct (f (ts_runtime st)) as [[a|[]] rt]; done. Qed.
Lemma kept_orSnapshotFailed {A} I (m : ToolM A) : keeps I m -> keeps I (orSnapshotFailed m).
Proof. intros H st Hp. specialize (H st Hp). unfold orSnapshotFailed. by destruct (m st) as [[]]. Qed.
Lemma kept_keepingEvidence I draft complete :
  keeps I (publishingEvidence sha256Bytes localeLe runId sessionId options draft) ->
  keeps I (keepingEvidence sha256Bytes localeLe runId sessionId options draft complete).
Proof.
  intros H st Hp. specialize (H st Hp). unfold keepingEvidence.
  destruct (publishingEvidence _ _ _ _ _ _ _) as [[[]|raw|fault] st']; [by apply kept_onRuntime|done..].
Qed.
End Facts.

Create HintDb keeps discriminated.
#[export] Hint Resolve kept_ret kept_outside kept_gets kept_gives kept_fails kept_gives_when kept_fails_when
  kept_orThrow kept_onRuntime : keeps.

(** The statements of a definition, with its publications as subgoals. *)
Ltac kept_steps :=
  repeat match goal with
    | |- forall _, _ => intro
    | |- keeps _ (mbind _ _) => apply kept_bind
    | |- keeps _ (catching _ _) => apply kept_catching
    | |- keeps _ (orSnapshotFailed _) => apply kept_orSnapshotFailed
    | |- keeps _ (keepingEvidence _ _ _ _ _ _ _) => apply kept_keepingEvidence
    | |- keeps _ (match ?x with _ => _ end) => destruct x
    | |- keeps _ _ => solve [auto with keeps nocore]
    end.

Section Kept.
Context {W : Type} (nfc : jstring -> jstring) (sha256Bytes : list Z -> string) (localeLe : jstring -> jstring -> bool).
Context (runId sessionId : string) (options : RunCommandToolOptions W) (I : EventPublisher -> Prop).
Notation publishes := (publishing sha256Bytes localeLe runId sessionId options).

(** What nothing but publications of the tool's own events changes. *)
Context (Hpublishes : forall draft, isToolEvent draft = true -> keeps I (publishes draft)).

Lemma kept_publishBoundary draft attempted :
  isToolEvent draft = true -> keeps I (publishBoundary sha256Bytes localeLe runId sessionId options draft attempted).
Proof. intros H. by apply kept_catching, Hpublishes. Qed.

Lemma kept_publishingEvidence draft :
  isToolEvent draft = true -> keeps I (publishingEvidence sha256Bytes localeLe runId sessionId options draft).
Proof. intros H. apply kept_bind; [apply kept_gets|]. intros rt. by apply kept_catching, Hpublishes. Qed.

Ltac publications :=
  kept_steps; first [by apply Hpublishes|by apply kept_publishBoundary|by apply kept_publishingEvidence].

Lemma kept_preparingVerification prepared executionId :
  keeps I (preparingVerification nfc sha256Bytes localeLe options prepared executionId).
Proof. unfold preparingVerification. kept_steps. Qed.

Lemma kept_requestCommand input context :
  keeps I (requestCommand nfc sha256Bytes localeLe runId sessionId options input context).
Proof.
  unfold requestCommand, beforeEffect, preparing, evaluatePermission, approving, requestApproval, beforeHook, revalidating,
    verifying, preparingVerification, publishVerificationStarted. publications.
Qed.

Lemma kept_publishChunks identity stream chunks execution :
  keeps I (publishChunks sha256Bytes localeLe runId sessionId options identity stream chunks execution).
Proof. revert execution. induction chunks as [|chunk chunks IH]; intros execution; cbn [publishChunks]; [apply kept_ret|].
  apply kept_bind; [by apply kept_publishBoundary|]. intros _. apply IH. Qed.

Lemma kept_onSignals identity signals execution :
  keeps I (onSignals sha256Bytes localeLe runId sessionId options identity signals execution).
Proof.
  revert execution. induction signals as [|signal signals IH]; intros execution; cbn [onSignals]; [apply kept_ret|].
  apply kept_bind; [|done]. unfold onSignal. kept_steps; [by apply kept_publishBoundary|apply kept_publishChunks].
Qed.

Lemma kept_runToCompletion identity prepared :
  keeps I (runToCompletion sha256Bytes localeLe runId sessionId options identity prepared).
Proof. unfold runToCompletion, observing. kept_steps; [apply kept_onSignals|by apply kept_publishBoundary]. Qed.

Lemma kept_concludeCommand context prepared verification completed :
  keeps I (concludeCommand nfc sha256Bytes localeLe runId sessionId options context prepared verification completed).
Proof. unfold concludeCommand, completingVerification. publications. Qed.

Lemma kept_execute input context : keeps I (execute nfc sha256Bytes localeLe runId sessionId options input context).
Proof.
  unfold execute. kept_steps; [apply kept_requestCommand|apply kept_runToCompletion|apply kept_concludeCommand].
Qed.
End Kept.

(** ** What the tool promises *)

Section Specs.
Context {W : Type} (nfc : jstring -> jstring) (sha256Bytes : list Z -> string) (localeLe : jstring -> jstring -> bool).
Context (runId sessionId : string) (options : RunCommandToolOptions W).
Context (base : jsmap string CommandExecutionState) (context : ToolContext).
Notation callId := (tcx_callId context).
Notation Rec := (Recorded sha256Bytes localeLe runId sessionId base callId).

(** A result before the command is requested; only a preparation that failed for
    an unknown reason is no refusal by permission while none was evaluated. *)
Definition refusalFits (consent : Consent) (raw : ToolRawResult) : Prop :=
  exists error, raw = raw_error error None None None None /\
  match consent with
  | consent_none => te_category error = error_permission \/ te_code error = "command_preparation_failed"%string
  | consent_open => False
  | consent_given => True
  end.
Definition Refused (raw : ToolRawResult) (p : EventPublisher) : Prop :=
  exists consent, Rec consent None p /\ refusalFits consent raw.

(** The approval was cancelled: nothing was requested. *)
Definition Cancelled (fault : ToolFault) (p : EventPublisher) : Prop :=
  fault = fatal_tool_error fatal_user_cancelled false -> Rec consent_given None p.

Lemma failing_fits k category code message retryable :
  k = consent_given \/ k = consent_none /\ category = error_permission -> refusalFits k (failing category code message retryable).
Proof. intros H. eexists. split; [reflexivity|]. destruct H as [->|[-> ->]]; [done|by left]. Qed.

(** A step that publishes nothing, with a value. *)
Lemma silent {A} (m : Tool W A) (P : EventPublisher -> Prop) R F :
  (forall I, keeps I m) -> (forall st, match m st with (Gives _, _) | (Fails (fatal_tool_error _ _), _) => False | _ => True end) ->
  (forall p, P p -> F tool_exception p /\ F tool_persistence_error p) -> triple P m (fun _ => P) R F.
Proof.
  intros Hk Hm HF st Hp. specialize (Hk P st Hp). specialize (Hm st).
  destruct (m st) as [[a|raw|[k b| |]] st']; try done; by apply HF.
Qed.

Lemma spec_beforeEffect k :
  k <> consent_open -> triple (Rec k None) (beforeEffect options) (fun _ => Rec k None) Refused Cancelled.
Proof.
  intros Hk. eapply triple_bind; [apply triple_outside|]. intros current. cbn.
  eapply triple_conseq; [apply triple_gives_when with (R := Refused) (F := Cancelled)|done|by intros ? ? []|done|done].
  intros _ p Hp. exists k. split; [done|]. apply failing_fits. destruct k; naive_solver.
Qed.

Lemma spec_preparing input :
  triple (Rec consent_none None) (preparing options input) (fun _ => Rec consent_none None) Refused Cancelled.
Proof.
  eapply triple_bind; [apply triple_outside|]. intros [prepared|error]; cbn; [by apply triple_ret|].
  apply triple_gives. intros p Hp. exists consent_none. split; [done|]. destruct error as [code message|]; cbn.
  - apply failing_fits. by right.
  - eexists. split; [reflexivity|]. by right.
Qed.

Lemma spec_evaluatePermission prepared :
  triple (Rec consent_none None) (evaluatePermission sha256Bytes localeLe runId sessionId options prepared context)
    (fun decision p => exists k, (k <> consent_none /\ (pd_effect decision <> ask_effect -> k = consent_given)) /\ Rec k None p)
    Refused Cancelled.
Proof.
  eapply triple_bind; [apply triple_outside|]. intros answer.
  eapply triple_bind; [by apply triple_orThrow|]. intros decision. apply triple_pure. intros _.
  eapply (triple_bind _ _ _ (fun _ p => exists k, (k <> consent_none /\ (pd_effect decision <> ask_effect -> k = consent_given)) /\ Rec k None p));
    [|intros []; by apply triple_ret].
  apply triple_publishBoundary; [|done..]. intros p event Hp Ha Hs Hd. split; [|done].
  edestruct posted_permission as (k & Hk & Hg & Hr); [exact Hp|exact Ha|exact Hs|exact Hd|done|].
  exists k. by split_and!.
Qed.

Lemma spec_requestApproval request k :
  car_callId request = callId -> k <> consent_none ->
  triple (Rec k None) (requestApproval sha256Bytes localeLe runId sessionId options request)
    (fun _ => Rec consent_given None) Refused (fun fault _ => publishingFault fault).
Proof.
  intros Hc Hk. eapply triple_bind; [apply triple_outside|]. intros approvalRequestId. cbn.
  eapply (triple_bind _ _ _ (fun _ p => exists k, k <> consent_none /\ Rec k None p)).
  { apply triple_publishing; [|done]. intros p event Hp Ha Hs Hd. split; [by eapply posted_request|by right]. }
  intros _. apply triple_exists. intros k'. apply triple_pure. intros Hk'.
  eapply (triple_bind _ _ _ (fun _ => Rec k' None)).
  { destruct (co_approvalMode options); [|by apply triple_ret]. eapply triple_bind; [apply triple_outside|]. intros decision.
    eapply triple_conseq; [by apply triple_orThrow with (F := fun fault _ => publishingFault fault); right|done|by intros ? ? []|done|done]. }
  intros decision. eapply (triple_bind _ _ _ (fun _ => Rec consent_given None)); [|intros []; by apply triple_ret].
  apply triple_publishing; [|done]. intros p event Hp Ha Hs Hd. split; [|by right].
  eapply posted_decision; [exact Hk'|exact Hp|exact Ha|exact Hs|exact Hd|exact Hc|reflexivity].
Qed.

Lemma spec_approving prepared k :
  k <> consent_none ->
  triple (Rec k None) (approving sha256Bytes localeLe runId sessionId options prepared context)
    (fun _ => Rec consent_given None) Refused Cancelled.
Proof.
  intros Hk. eapply (triple_bind _ _ _ (fun _ => Rec consent_given None)).
  - apply triple_catching. eapply triple_conseq; [by apply (spec_requestApproval _ k)|done|done|done|]. by intros fault p [->| ->].
  - intros [approvalRequestId []]; cbn; [by apply triple_ret|apply triple_fails; by intros p Hp _|].
    apply triple_gives. intros p Hp. exists consent_given. split; [done|]. apply failing_fits. by left.
Qed.

Lemma given_refusal category code message retryable p :
  Rec consent_given None p -> Refused (failing category code message retryable) p.
Proof. intros Hp. exists consent_given. split; [done|]. apply failing_fits. by left. Qed.

Lemma spec_beforeHook prepared :
  triple (Rec consent_given None) (beforeHook options prepared) (fun _ => Rec consent_given None) Refused Cancelled.
Proof.
  unfold beforeHook. destruct (co_beforeHook options) as [hook|]; [|by apply triple_ret].
  eapply triple_bind; [apply triple_outside|].
  intros []; [by apply triple_ret|apply triple_gives, given_refusal|by apply triple_fails].
Qed.

Lemma spec_revalidating prepared :
  triple (Rec consent_given None) (revalidating options prepared) (fun _ => Rec consent_given None) Refused Cancelled.
Proof.
  eapply triple_bind; [apply triple_outside|]. intros answer.
  eapply triple_bind; [by apply triple_orThrow|]. intros current. apply triple_pure. intros _.
  eapply triple_conseq; [apply triple_gives_when with (R := Refused) (F := Cancelled)|done|by intros ? ? []|done|done].
  intros _. apply given_refusal.
Qed.

(** No part of it ends the tool. *)
Lemma preparing_gives_nothing prepared executionId st :
  match preparingVerification nfc sha256Bytes localeLe options prepared executionId st with (Gives _, _) => False | _ => True end.
Proof.
  assert (Hr : forall A (f : Phase7CompletionRuntime -> step A) (s : ToolState W), match onRuntime f s with (Gives _, _) => False | _ => True end).
  { intros A f s. unfold onRuntime. by destruct (f (ts_runtime s)) as [[|[]] rt]. }
  unfold preparingVerification. destruct (_ !== _); [done|]. unfold mbind, Tool_bind, outside at 1.
  destruct (co_classify options prepared (ts_world st)) as [[[c|]|] w]; cbn; [|apply Hr|done].
  destruct (_ =? _)%nat; [apply Hr|]. unfold outside at 1. cbn. destruct (co_sourceState options w) as [source w']. cbn.
  destruct (is_ok _); cbn; [|apply Hr]. unfold outside. cbn. destruct (co_randomUUID options w'). apply Hr.
Qed.

Lemma spec_verifying prepared executionId :
  triple (Rec consent_given None) (verifying nfc sha256Bytes localeLe options prepared executionId)
    (fun _ => Rec consent_given None) Refused Cancelled.
Proof.
  unfold verifying. destruct (co_verification options); [|by apply triple_ret]. intros st Hp.
  pose proof (kept_preparingVerification nfc sha256Bytes localeLe options (Rec consent_given None) prepared executionId st Hp) as Hk.
  pose proof (preparing_gives_nothing prepared executionId st) as Hg. unfold orSnapshotFailed.
  destruct (preparingVerification _ _ _ _ _ _ st) as [[a|raw|fault] st']; [done..|by apply given_refusal].
Qed.

(** Publications that the record of the call does not depend on. *)
Lemma kept_unrelated k x draft :
  addsConsent draft = false -> addsExecution draft = false ->
  keeps (Rec k x) (publishing sha256Bytes localeLe runId sessionId options draft).
Proof.
  intros Hc Hx. apply triple_publishing; [|done]. intros p event Hp Ha Hs Hd.
  split; apply posted_unrelated; first [done|by rewrite Hd].
Qed.

Lemma spec_publishingEvidence k x draft :
  addsConsent draft = false -> addsExecution draft = false ->
  triple (Rec k x) (publishingEvidence sha256Bytes localeLe runId sessionId options draft) (fun _ => Rec k x) Refused Cancelled.
Proof.
  intros Hc Hx. eapply triple_bind; [apply triple_gets|]. intros rt. apply triple_catching, triple_publishing.
  - intros p event Hp Ha Hs Hd. split; [|done]. apply posted_unrelated; first [done|by rewrite Hd].
  - by intros p fault Hp [->| ->].
Qed.

Definition Requested (identity : CommandIdentity) (p : EventPublisher) : Prop :=
  exists d, (crq_id d = identity /\ ci_call_id identity = callId) /\ Rec consent_given (Some (newExecution d)) p.

Lemma spec_requestCommand input :
  triple (Rec consent_none None) (requestCommand nfc sha256Bytes localeLe runId sessionId options input context)
    (fun r => Requested r.1.2) Refused Cancelled.
Proof.
  eapply triple_bind; [by apply spec_beforeEffect|]. intros ?.
  eapply triple_bind; [apply spec_preparing|]. intros prepared.
  eapply triple_bind; [apply spec_evaluatePermission|]. intros decision.
  apply triple_exists. intros k. apply triple_pure. intros [Hk Hg].
  eapply triple_bind.
  { apply triple_gives_when. intros Hdeny p Hp. apply bool_decide_eq_true in Hdeny. rewrite Hg in Hp by congruence.
    by apply given_refusal. }
  intros ?. apply triple_pure. intros _. eapply (triple_bind _ _ _ (fun _ => Rec consent_given None)).
  { destruct (pd_effect decision === ask_effect) eqn:Hask.
    - eapply triple_bind; [by apply spec_approving|]. intros id. by apply triple_ret.
    - apply triple_ret. intros p Hp. apply bool_decide_eq_false in Hask. by rewrite Hg in Hp. }
  intros approvalRequestId.
  eapply triple_bind; [apply spec_beforeHook|]. intros ?.
  eapply triple_bind; [apply spec_revalidating|]. intros ?.
  eapply triple_bind; [by apply spec_beforeEffect|]. intros ?.
  eapply triple_bind; [apply triple_outside|]. intros executionId. cbv zeta.
  set (bound := co_bindExecutionContext _ _ _). set (identity := executionIdentity _ _ _).
  eapply triple_bind; [apply spec_verifying|]. intros verification.
  eapply (triple_bind _ _ _ (fun _ => Requested identity)).
  { apply triple_publishBoundary; [|done..]. intros p event Hp Ha Hs Hd. split; [|done].
    eexists. split; [|eapply posted_requested; [exact Hp|exact Ha|exact Hs|exact Hd|reflexivity]]. done. }
  intros ?. eapply (triple_bind _ _ _ (fun _ => Requested identity)); [|intros ?; by apply triple_ret].
  destruct verification as [active|]; [|by apply triple_ret].
  apply triple_exists. intros d. apply triple_pure. intros Hid.
  eapply triple_conseq; [by apply spec_publishingEvidence|done| |done|done]. intros [] p Hp. by exists d.
Qed.

(** *** The run of the command *)

(** The execution on record has the output that was read so far. *)
Definition Running (identity : CommandIdentity) (execution : Execution) (p : EventPublisher) : Prop :=
  exists x, (cx_executionId x = ci_execution_id identity /\ outputOf (cx_output x) = exn_outputParts execution) /\
    Rec consent_given (Some x) p.

Lemma outputOf_snoc output d : outputOf (output ++ [d]) = pushChunk (cop_channel d) (cop_chunk d) (outputOf output).
Proof. unfold outputOf. by rewrite fold_left_app. Qed.

Lemma addOutput_id d x : cx_executionId (addOutput d x) = cx_executionId x /\ cx_output (addOutput d x) = cx_output x ++ [d].
Proof. unfold addOutput. by destruct (cop_channel d). Qed.

(** A change of the running execution by an event. *)
Lemma running_changes identity execution execution' f p event :
  Running identity execution p -> accepts sha256Bytes localeLe runId sessionId p (re_draft event) -> re_seq event = seq p + 1 ->
  addsConsent (re_draft event) = false ->
  (forall q, commandExecutions (posted event q) = jm_alter f (ci_execution_id identity) (commandExecutions q)) ->
  (forall q, commandExecutionsByCall (posted event q) = commandExecutionsByCall q) ->
  (forall x, cx_executionId (f x) = cx_executionId x) ->
  (forall x, outputOf (cx_output x) = exn_outputParts execution -> outputOf (cx_output (f x)) = exn_outputParts execution') ->
  Running identity execution' (posted event p).
Proof.
  intros (x & [Hid Hout] & Hr) Ha Hs Hc Hx Hby Hf Ho. exists (f x). split; [by rewrite Hf, (Ho x)|].
  eapply posted_changes; [exact Hr|done..|by rewrite Hx, Hid|done].
Qed.

Notation Faulty := Cancelled (only parsing).

Lemma spec_publishChunks identity stream chunks execution :
  triple (Running identity execution)
    (publishChunks sha256Bytes localeLe runId sessionId options identity stream chunks execution)
    (Running identity) Refused Faulty.
Proof.
  revert execution. induction chunks as [|chunk chunks IH]; intros execution; cbn [publishChunks]; [by apply triple_ret|].
  set (pushed := execution <| exn_outputParts ::= pushChunk stream chunk |>).
  eapply (triple_bind _ _ _ (fun _ => Running identity (countChunk stream pushed))); [|intros _; apply IH].
  apply triple_publishBoundary; [|done..]. intros p event Hp Ha Hs Hd. split; [|done].
  eapply running_changes; [exact Hp|done|done|by rewrite Hd| | | |]; cbv beta.
  - intros q. rewrite posted_executions, Hd. reflexivity.
  - intros q. by rewrite posted_byCall, Hd.
  - intros x. apply addOutput_id.
  - intros x Hx. rewrite (proj2 (addOutput_id _ x)), outputOf_snoc, Hx. by destruct stream.
Qed.

Lemma spec_onSignal identity signal execution :
  triple (Running identity execution) (onSignal sha256Bytes localeLe runId sessionId options identity signal execution)
    (Running identity) Refused Faulty.
Proof.
  unfold onSignal. destruct (exn_completed execution); [by apply triple_fails|]. destruct signal as [|stream chunk bytes|result].
  - eapply triple_bind; [by apply triple_fails_when|]. intros ?. apply triple_pure. intros _.
    eapply (triple_bind _ _ _ (fun _ => Running identity (execution <| exn_started := true |>))); [|intros ?; by apply triple_ret].
    apply triple_publishBoundary; [|done..]. intros p event Hp Ha Hs Hd. split; [|done].
    eapply (running_changes _ _ _ (fun x => x <| cx_started := true |>)); [exact Hp|done|done|by rewrite Hd|..|done|done].
    + intros q. by rewrite posted_executions, Hd.
    + intros q. by rewrite posted_byCall, Hd.
  - eapply triple_bind; [by apply triple_fails_when|]. intros ?. apply triple_pure. intros _.
    eapply triple_bind; [by apply triple_fails_when|]. intros ?. apply triple_pure. intros _. apply spec_publishChunks.
  - by apply triple_ret.
Qed.

Lemma spec_onSignals identity signals execution :
  triple (Running identity execution) (onSignals sha256Bytes localeLe runId sessionId options identity signals execution)
    (Running identity) Refused Faulty.
Proof.
  revert execution. induction signals as [|signal signals IH]; intros execution; cbn [onSignals]; [by apply triple_ret|].
  eapply triple_bind; [apply spec_onSignal|]. intros execution'. apply IH.
Qed.

(** The completion that is durable is that of the result, and so is the output. *)
Record CompletedAs (identity : CommandIdentity) (result : CommandResult) (x : CommandExecutionState) : Prop := {
  ca_completed : cx_completed x = true;
  ca_cleanup : cx_cleanupVerified x = Some (cmr_cleanupVerified result);
  ca_data : cx_completedData x = Some (commandCompletedData identity result);
  ca_stdout : concat (coa_stdout (outputOf (cx_output x))) = er_stdout (cmr_result result);
  ca_stderr : concat (coa_stderr (outputOf (cx_output x))) = er_stderr (cmr_result result);
  ca_stdoutBytes : byteLength (er_stdout (cmr_result result)) = er_stdoutBytes (cmr_result result);
  ca_stderrBytes : byteLength (er_stderr (cmr_result result)) = er_stderrBytes (cmr_result result);
  ca_current : er_termination (cmr_result result) <> term_stale }.
Definition Completed (identity : CommandIdentity) (result : CommandResult) (p : EventPublisher) : Prop :=
  exists x, CompletedAs identity result x /\ Rec consent_given (Some x) p.

Lemma consistent_evidence result execution :
  inconsistentEvidence result execution = false ->
  let r := cmr_result result in
  concat (coa_stdout (exn_outputParts execution)) = er_stdout r /\ concat (coa_stderr (exn_outputParts execution)) = er_stderr r /\
  byteLength (er_stdout r) = er_stdoutBytes r /\ byteLength (er_stderr r) = er_stderrBytes r.
Proof.
  intros H r. unfold inconsistentEvidence in H. rewrite !orb_false_iff in H. destruct H as [[[[_ H1] H2] H3] H4].
  apply negb_false_iff, bool_decide_eq_true in H1. apply negb_false_iff, bool_decide_eq_true in H2.
  apply negb_false_iff in H3. apply negb_false_iff in H4. unfold r. split_and!; [done|done|lia|lia].
Qed.

(** What is caught of an execution stays a cancellation only if it was one. *)
Lemma fatal_stays fault p :
  Cancelled fault p -> Cancelled match fault with fatal_tool_error _ _ => fault | _ => ambiguous end p.
Proof. intros Hp E. destruct fault as [k b| |]; [by apply Hp|discriminate E..]. Qed.

Lemma requested_running identity p : Requested identity p -> Running identity noExecution p.
Proof. intros (d & [<- Hc] & Hr). by exists (newExecution d). Qed.

Lemma spec_runToCompletion identity prepared :
  triple (Requested identity) (runToCompletion sha256Bytes localeLe runId sessionId options identity prepared)
    (Completed identity) Refused Faulty.
Proof.
  eapply (triple_bind _ _ _ (Running identity)).
  { eapply triple_conseq; [|apply requested_running|done..].
    apply triple_catching. eapply triple_bind; [apply triple_outside|]. intros [signals threw].
    eapply (triple_conseq _ _ _ _ _ _ _ _ (fun fault p => Faulty fault p)); [|done..|apply fatal_stays].
    eapply triple_bind; [apply spec_onSignals|]. intros execution.
    eapply (triple_bind _ _ _ (fun _ => Running identity execution)); [|intros ?; by apply triple_ret].
    eapply triple_conseq; [by apply triple_fails_when with (P := Running identity execution) (F := Faulty)|done|by intros ? ? []|done|done]. }
  intros execution. destruct (exn_completed execution) as [result|]; [|by apply triple_fails].
  eapply triple_bind; [by apply triple_fails_when|]. intros ?. apply triple_pure. intros (Ho & He & Hob & Heb)%consistent_evidence.
  eapply triple_bind; [by apply triple_fails_when|]. intros ?. apply triple_pure. intros Hstale%bool_decide_eq_false.
  eapply (triple_bind _ _ _ (fun _ => Completed identity result)); [|intros ?; by apply triple_ret].
  apply triple_publishBoundary; [|done..]. intros p event (x & [Hid Hout] & Hr) Ha Hs Hd. split; [|done].
  eexists. split; [|eapply posted_changes with (x := x); [exact Hr|done|done|by rewrite Hd|..]].
  4: { by rewrite posted_byCall, Hd. }
  3: { rewrite posted_executions, Hd. cbn [commandCompletedData ccp_id]. by rewrite Hid. }
  - split; [done|done|done|by rewrite <-Ho, <-Hout|by rewrite <-He, <-Hout|done|done|done].
  - done.
Qed.

Lemma spec_concludeCommand identity prepared verification result :
  triple (Completed identity result)
    (concludeCommand nfc sha256Bytes localeLe runId sessionId options context prepared verification result)
    (fun raw p => Completed identity result p /\ cmr_cleanupVerified result = true /\
       exists observation truncated, fitted result = Some (observation, truncated) /\
         raw = match resultError (er_termination (cmr_result result)) with
               | None => raw_ok None None truncated observation
               | Some error => raw_error error None None (Some truncated) (Some observation)
               end) Refused Cancelled.
Proof.
  eapply triple_bind; [by apply triple_fails_when|]. intros ?. apply triple_pure. intros [Hclean%negb_false_iff _]%orb_false_iff.
  eapply (triple_bind _ _ _ (fun _ => Completed identity result)).
  { destruct verification as [active|]; [|by apply triple_ret]. apply triple_catching. unfold completingVerification.
    eapply triple_bind; [apply triple_outside|]. intros source. eapply triple_bind; [apply triple_gets|]. intros rt.
    assert (Hrt : forall (f : Phase7CompletionRuntime -> step ()),
      triple (W := W) (Completed identity result) (onRuntime f) (fun _ => Completed identity result) Refused
        (fun fault => Cancelled match fault with fatal_tool_error _ _ => fault | _ => ambiguous end)).
    { intros f st Hp. unfold onRuntime. by destruct (f (ts_runtime st)) as [[[]|[]] rt']. }
    destruct (completedRecord _ _ _ _ _ _ _) as [record|]; [|apply Hrt]. intros st Hp. unfold keepingEvidence.
    destruct Hp as (x & Hx & Hp).
    pose proof (spec_publishingEvidence consent_given (Some x) (ev_verification_completed (verificationCompletedData record context))
      eq_refl eq_refl st Hp) as Hspec.
    destruct (publishingEvidence _ _ _ _ _ _ _) as [[[]|raw|fault] st']; [by apply Hrt; exists x|done|].
    destruct fault as [k b| |]; [|done..]. intros E. by apply Hspec. }
  intros ?. eapply (triple_bind _ _ _ (fun _ => Completed identity result)).
  { destruct (co_afterHook options) as [hook|]; [|by apply triple_ret].
    eapply triple_bind; [apply triple_outside|]. intros answered.
    eapply triple_conseq; [by apply triple_fails_when with (P := Completed identity result) (F := Faulty)|done|by intros ? ? []|done|done]. }
  intros ?. eapply triple_bind; [by apply triple_orThrow|]. intros [observation truncated]. apply triple_pure. intros Hfit.
  apply triple_ret. intros p Hp. split_and!; [done..|]. by exists observation, truncated.
Qed.

Lemma spec_execute input :
  triple (Rec consent_none None) (execute nfc sha256Bytes localeLe runId sessionId options input context)
    (fun raw p => exists identity result, Completed identity result p /\ cmr_cleanupVerified result = true /\
       exists observation truncated, fitted result = Some (observation, truncated) /\
         raw = match resultError (er_termination (cmr_result result)) with
               | None => raw_ok None None truncated observation
               | Some error => raw_error error None None (Some truncated) (Some observation)
               end) Refused Cancelled.
Proof.
  eapply triple_bind; [apply spec_requestCommand|]. intros [[prepared identity] verification]. cbn [fst snd].
  eapply triple_bind; [apply spec_runToCompletion|]. intros result.
  eapply triple_conseq; [apply spec_concludeCommand|done| |done|done]. intros raw p H. by exists identity, result.
Qed.
End Specs.
