(* ===== verification/RunCommandToolProperties.v ===== *)
(** * What a call of [run_command] does

    The registry's answer against the publisher and the agent loop's contract, the
    executor against the durable request, and the observation of a command
    against the one that a resumed run recovers from the log. *)

From S2P Require Import Prelude JsString CanonicalJson Domain Events Schemas TaskGraphSchema Permissions Utf8 Patch SourceSnapshot Completion Verification CompletionRuntime JsonParse RunEvents RunLog EventPublisher EventPublisherFacts EventPublisherProperties ToolErrors AgentLoop AgentLoopProtocol McpResult PendingEffects PendingEffectsFacts RunCommandTool RunCommandToolFacts.
#[local] Open Scope Z_scope.

(** ** The observation, as recovery writes it *)

Definition rawError (raw : ToolRawResult) : option ToolError :=
  match raw with raw_ok _ _ _ _ => None | raw_error error _ _ _ _ => Some error end.
Definition rawTruncated (raw : ToolRawResult) : bool :=
  match raw with raw_ok _ _ truncated _ => truncated | raw_error _ _ _ truncated _ => default false truncated end.
Definition rawText (raw : ToolRawResult) : jstring :=
  match raw with
  | raw_ok _ _ _ value | raw_error _ _ _ _ (Some value) => resultText value (rawError raw)
  | raw_error error _ _ _ None => errorJson error
  end.
Definition observationOf (raw : ToolRawResult) : RecoveredToolObservation := {|
  rto_errorCategory := te_category <$> rawError raw; rto_errorCode := te_code <$> rawError raw;
  rto_output := rawText raw; rto_retryable := te_retryable <$> rawError raw;
  rto_status := match rawError raw with None => tool_success | Some _ => tool_error end;
  rto_truncated := rawTruncated raw |}.

(** Recovery words the error of a timeout differently ("the configured timeout"
    for "its configured timeout"); everything else of the result is kept. *)
Definition withMessage (message : jstring) (error : ToolError) : ToolError :=
  toolError (te_category error) (te_code error) message (te_retryable error).
Definition asRecovered (termination : ExecutionTermination) (raw : ToolRawResult) : ToolRawResult :=
  match termination, raw with
  | term_timeout, raw_error error control text truncated value =>
      raw_error (withMessage (js "command reached the configured timeout") error) control text truncated value
  | _, _ => raw
  end.
Definition recoveredError (termination : ExecutionTermination) : option ToolError :=
  match termination with
  | term_timeout => withMessage (js "command reached the configured timeout") <$> resultError termination
  | _ => resultError termination
  end.

(** A field without a value is no field. *)
Lemma stringify_undefined k before after :
  jsonStringify (JObj (before ++ (k, JUndefined) :: after)) = jsonStringify (JObj (before ++ after)).
Proof. cbn [jsonStringify]. by rewrite !flat_map_app. Qed.

Lemma observation_fresh result stdout stderr truncated k :
  k = js "ok" \/ k = js "error" -> jm_get k (commandObservation result stdout stderr truncated) = None.
Proof. unfold commandObservation. intros [->| ->]; destruct (cmr_errorCode result); vm_compute; reflexivity. Qed.

Lemma resultText_fields result stdout stderr truncated error :
  resultText (commandObservation result stdout stderr truncated) error =
  jsonStringify (JObj (commandObservation result stdout stderr truncated ++
    match error with
    | None => [(js "ok", JBool true)]
    | Some e => [(js "error", toolErrorValue e); (js "ok", JBool false)]
    end)).
Proof.
  unfold resultText. destruct error as [e|]; [|by rewrite jm_set_new_keys by (apply observation_fresh; by left)].
  rewrite (jm_set_new_keys (js "error")) by (apply observation_fresh; by right).
  rewrite jm_set_new_keys; [by rewrite <-app_assoc|].
  rewrite <-(jm_set_new_keys (js "error")) by (apply observation_fresh; by right).
  rewrite jm_get_set_ne by (vm_compute; discriminate). apply observation_fresh. by left.
Qed.

Lemma resultText_serialized identity result stdout stderr truncated :
  er_termination (cmr_result result) <> term_stale ->
  resultText (commandObservation result stdout stderr truncated) (recoveredError (er_termination (cmr_result result))) =
  serializeCommand (commandCompletedData identity result) stdout stderr truncated.
Proof.
  intros Hs. rewrite resultText_fields. unfold serializeCommand, commandCompletedData, commandObservation.
  cbn [ccp_termination ccp_cleanup_verified ccp_duration_ms ccp_error_code ccp_exit_code ccp_signal].
  set (before := [(js "cleanup_verified", _); (js "duration_ms", _)]).
  set (middle := [(js "exit_code", _); (js "signal", _); (js "stderr", _); (js "stdout", _); (js "termination", _);
    (js "truncated", _)]).
  destruct (er_termination (cmr_result result)); try done; cbn [recoveredError resultError fmap option_fmap option_map commandError optional];
    match goal with |- _ = jsonStringify (JObj ?l) =>
      first [change l with (before ++ [(js "error_code", optional jtext (cmr_errorCode result))] ++ middle ++
               (js "error", JUndefined) :: [(js "ok", JBool true)]);
             rewrite !app_assoc, stringify_undefined, <-!app_assoc
            |idtac] end;
    destruct (cmr_errorCode result); cbn [optional]; try rewrite <-!app_assoc; cbn [app];
    rewrite ?(stringify_undefined _ before); reflexivity.
Qed.

(** Only the error of the text depends on the error. *)
Lemma error_text result stdout stderr truncated : exists before after, startsClosed after = true /\
  forall e, resultText (commandObservation result stdout stderr truncated) (Some e) =
    before ++ (comma :: fieldText (js "error", jsonStringify (toolErrorValue e))) ++ after.
Proof.
  set (texts := List.flat_map (fun '(k, v) => if isUndefined v then [] else [fieldText (k, jsonStringify v)])).
  set (observation := commandObservation result stdout stderr truncated).
  assert (Hn : texts observation <> []) by done.
  exists (0x7b :: joinUnit comma (texts observation)), (comma :: joinUnit comma (texts [(js "ok", JBool false)]) ++ [0x7d]).
  split; [done|]. intros e. unfold observation at 1. rewrite resultText_fields. fold observation.
  transitivity (0x7b :: joinUnit comma (texts (observation ++ [(js "error", toolErrorValue e); (js "ok", JBool false)])) ++ [0x7d]);
    [reflexivity|].
  assert (Htexts : texts (observation ++ [(js "error", toolErrorValue e); (js "ok", JBool false)]) =
    texts observation ++ [fieldText (js "error", jsonStringify (toolErrorValue e)); fieldText (js "ok", js "false")])
    by (unfold texts; by rewrite flat_map_app).
  rewrite Htexts, joinUnit_app by done. cbn [joinUnit].
  generalize (joinUnit comma (texts observation)), (fieldText (js "error", jsonStringify (toolErrorValue e))).
  intros l1 l2. repeat (rewrite <-app_assoc || cbn [app]). reflexivity.
Qed.

(** The two texts of a timeout have the same length, so the loops that shorten
    the output agree. *)
Lemma recovered_bytes result stdout stderr truncated termination :
  byteLength (resultText (commandObservation result stdout stderr truncated) (recoveredError termination)) =
  byteLength (resultText (commandObservation result stdout stderr truncated) (resultError termination)).
Proof.
  destruct termination; try reflexivity. cbn [recoveredError resultError fmap option_fmap option_map].
  destruct (error_text result stdout stderr truncated) as (before & after & Ha & He).
  assert (Hb : forall e, byteLength (before ++ (comma :: fieldText (js "error", jsonStringify (toolErrorValue e))) ++ after) =
    byteLength before + (byteLength (comma :: fieldText (js "error", jsonStringify (toolErrorValue e))) + byteLength after)).
  { intros e. by rewrite (byteLength_app_closed before), (byteLength_app_closed _ after Ha). }
  rewrite !He, !Hb. apply (f_equal (Z.add (byteLength before))), (f_equal (fun n => n + byteLength after)).
  vm_compute. reflexivity.
Qed.

Lemma fitObservation_fits fuel identity result stdout stderr truncated observation truncated' :
  er_termination (cmr_result result) <> term_stale ->
  fitObservation fuel result (resultError (er_termination (cmr_result result))) stdout stderr truncated =
    Some (observation, truncated') ->
  fitCommand fuel (commandCompletedData identity result) stdout stderr truncated =
    Ok (resultText observation (recoveredError (er_termination (cmr_result result))), truncated').
Proof.
  intros Hs. revert stdout stderr truncated. induction fuel as [|fuel IH]; intros stdout stderr truncated;
    cbn [fitObservation fitCommand]; rewrite <-(resultText_serialized identity), <-recovered_bytes by done;
    destruct (_ <=? MAX_COMMAND_TOOL_OUTPUT_BYTES).
  - intros [= <- <-]. reflexivity.
  - discriminate.
  - intros [= <- <-]. reflexivity.
  - destruct (_ =? _)%nat; [discriminate|]. destruct (byteLength stderr <=? byteLength stdout); apply IH.
Qed.

Section Properties.
Context {W : Type} (nfc : jstring -> jstring) (sha256Bytes : list Z -> string) (localeLe : jstring -> jstring -> bool).
Context (runId sessionId : string).
Notation reachable := (publisher_reachable sha256Bytes localeLe runId sessionId).
Notation Rec := (Recorded sha256Bytes localeLe runId sessionId).
Notation executes options := (execute nfc sha256Bytes localeLe runId sessionId options).

Lemma untouched_recorded p callId :
  reachable p -> untouched p callId -> Rec (commandExecutions p) callId consent_none None p.
Proof.
  intros Hp (H1 & H2 & _ & _). split; [done| | |by rewrite H2|done].
  - unfold consentOf. by rewrite H1.
  - by rewrite app_nil_r.
Qed.

Lemma posted_publication p event :
  isToolEvent (re_draft event) = true -> accepts sha256Bytes localeLe runId sessionId p (re_draft event) ->
  re_seq event = seq p + 1 -> tool_publication sha256Bytes localeLe runId sessionId p (posted event p).
Proof.
  intros Ht (attribution & Hv & Hs) Hseq.
  assert (posted event p = (publish sha256Bytes localeLe runId sessionId attribution (re_event_id event) true true
                               (re_draft event) p).2) as ->; [|by constructor].
  unfold publish, stamp. rewrite Hv, Hs. cbn. destruct event as [id s draft]. cbn in *. by rewrite Hseq.
Qed.

(** The tool changes the publisher by publications of its own events only. *)
Lemma execute_publishes options input context (st : ToolState W) :
  rtc (tool_publication sha256Bytes localeLe runId sessionId) (ts_publisher st)
    (ts_publisher (executes options input context st).2).
Proof.
  assert (Hk : keeps (rtc (tool_publication sha256Bytes localeLe runId sessionId) (ts_publisher st)) (executes options input context)).
  { apply kept_execute. intros draft Hd. apply triple_publishing; [|done]. intros p event Hp Ha Hs He.
    split; (eapply rtc_r; [exact Hp|]); (apply posted_publication; [by rewrite He|done|done]). }
  specialize (Hk st (rtc_refl _ _)). by destruct (executes options input context st) as [[|raw|fault] st'].
Qed.

(** C14: a resumed run sees what the run itself saw.  When a command's call has an
    observation, the publisher holds its durable completion and output, and the
    observation that [recoverCommandToolObservation] makes of those is the same
    text, status, error and truncation; when the command timed out, it is the
    observation with the one message reworded ([asRecovered]). *)
Theorem observation_is_recoverable options input context (st : ToolState W) raw st' :
  reachable (ts_publisher st) -> untouched (ts_publisher st) (tcx_callId context) ->
  executes options input context st = (Goes raw, st') ->
  exists x completed,
    commandExecutionsByCall (ts_publisher st') !! tcx_callId context = Some (cx_executionId x) /\
    jm_get (cx_executionId x) (commandExecutions (ts_publisher st')) = Some x /\
    cx_completedData x = Some completed /\
    recoverCommandToolObservation completed (outputOf (cx_output x)) =
      Ok (observationOf (asRecovered (ccp_termination completed) raw)).
Proof.
  intros Hr Hu He.
  pose proof (spec_execute nfc sha256Bytes localeLe runId sessionId options (commandExecutions (ts_publisher st)) context input st
    (untouched_recorded _ _ Hr Hu)) as Hspec. rewrite He in Hspec.
  destruct Hspec as (identity & result & (x & [_ _ Hdata Ho Hs Hob Hsb Hstale] & Hrec) & _ & observation & truncated & Hfit & Hraw).
  exists x, (commandCompletedData identity result). destruct Hrec as [_ _ Hx Hby Hf]. split_and!; [done| |done|].
  - rewrite Hx, <-(jm_set_new_keys _ x) by (by apply Hf). apply jm_get_set_eq.
  - unfold recoverCommandToolObservation. cbn [commandCompletedData ccp_stdout_bytes ccp_stderr_bytes
      ccp_total_bytes ccp_truncated ccp_termination].
    rewrite Ho, Hs, Hob, Hsb, !Z.eqb_refl. cbn [negb orb]. unfold fitted in Hfit. rewrite Hob, Hsb in Hfit.
    rewrite (fitObservation_fits _ identity _ _ _ _ _ _ Hstale Hfit). cbn [mbind result_bind]. subst raw.
    destruct (er_termination (cmr_result result)); try done.
Qed.

(** ** The executor *)

Lemma publications_log p p' :
  rtc (tool_publication sha256Bytes localeLe runId sessionId) p p' -> exists more, log p' = log p ++ more.
Proof.
  induction 1 as [p|p q r H _ [more IH]]; [exists []; by rewrite app_nil_r|].
  destruct H as [attribution eventId written rendered draft p Hd]. unfold publish in IH.
  destruct (stamp _ _ _ _ _ _ _ _) as [event|]; [|by exists more]. destruct written; [|by exists more].
  exists (re_draft event :: more). rewrite IH. unfold advance. cbn [snd].
  change (applyTransition event p <| persistedEvents ::= fun events => events ++ [event] |>) with (posted event p).
  by rewrite posted_log, <-app_assoc.
Qed.

(** The log only grows. *)
Lemma kept_logged options e draft :
  keeps (fun p => e ∈ log p) (publishing sha256Bytes localeLe runId sessionId (W := W) options draft).
Proof. apply triple_publishing; [|done]. intros p event Hp _ _ _. rewrite posted_log. split; apply elem_of_app; by left. Qed.

(** An exception that says that the workspace may have changed, and one that is
    caught and turned into that. *)
Definition admits (fault : ToolFault) : Prop := exists kind, fault = fatal_tool_error kind true.
Definition caught (fault : ToolFault) : Prop := fault = tool_exception \/ admits fault.
Notation Always := (fun _ : EventPublisher => True).
Notation Never := (fun (_ : ToolRawResult) (_ : EventPublisher) => False).

Lemma boundary_admits options draft (G : EventPublisher -> Prop) :
  (forall p event, re_draft event = draft -> G (posted event p)) ->
  triple (W := W) Always (publishBoundary sha256Bytes localeLe runId sessionId options draft true) (fun _ => G) Never
    (fun fault _ => admits fault).
Proof.
  intros HG. apply triple_publishBoundary; [|by eexists..]. intros p event _ _ _ Hd. split; [by apply HG|by eexists].
Qed.

Lemma boundary_then {A} options draft (m : () -> Tool W A) G F :
  (forall fault, admits fault -> F fault) ->
  (forall u, triple Always (m u) G Never (fun fault _ => F fault)) ->
  triple Always (publishBoundary sha256Bytes localeLe runId sessionId options draft true ≫= m) G Never (fun fault _ => F fault).
Proof.
  intros HF Hm. eapply (triple_bind _ _ _ (fun _ => Always)); [|done].
  eapply triple_conseq; [by apply boundary_admits with (G := Always)|done|done|done|]. intros fault p. apply HF.
Qed.

Lemma chunks_admit options identity stream chunks execution :
  triple (W := W) Always (publishChunks sha256Bytes localeLe runId sessionId options identity stream chunks execution) (fun _ => Always) Never
    (fun fault _ => caught fault).
Proof.
  revert execution. induction chunks as [|chunk chunks IH]; intros execution; cbn [publishChunks]; [by apply triple_ret|].
  apply boundary_then; [by right|]. intros u. apply IH.
Qed.

Lemma signals_admit options identity signals execution :
  triple (W := W) Always (onSignals sha256Bytes localeLe runId sessionId options identity signals execution) (fun _ => Always) Never
    (fun fault _ => caught fault).
Proof.
  revert execution. induction signals as [|signal signals IH]; intros execution; cbn [onSignals]; [by apply triple_ret|].
  eapply (triple_bind _ _ _ (fun _ => Always)); [|intros ?; apply IH]. unfold onSignal.
  destruct (exn_completed execution); [apply triple_fails; by left|].
  assert (Hw : forall b (m : () -> Tool W Execution), (forall u, triple Always (m u) (fun _ => Always) Never (fun fault _ => caught fault)) ->
    triple Always (fails_when b tool_exception ≫= m) (fun _ => Always) Never (fun fault _ => caught fault)).
  { intros b m Hm. eapply (triple_bind _ _ _ (fun _ => Always)); [|done]. destruct b; [apply triple_fails; by left|by apply triple_ret]. }
  destruct signal as [|stream chunk bytes|result]; [| |by apply triple_ret].
  - apply Hw. intros u. apply boundary_then; [by right|]. intros v. by apply triple_ret.
  - apply Hw. intros u. apply Hw. intros v. apply chunks_admit.
Qed.

Lemma observing_admits options identity prepared :
  triple (W := W) Always (observing sha256Bytes localeLe runId sessionId options identity prepared) (fun _ => Always) Never
    (fun fault _ => admits fault).
Proof.
  apply triple_catching. eapply (triple_conseq _ Always Always _ (fun _ => Always) _ Never _ (fun fault _ => caught fault)); [|done..|].
  - eapply (triple_bind _ _ _ (fun _ => Always)); [apply triple_outside|]. intros [signals threw].
    eapply (triple_bind _ _ _ (fun _ => Always)); [apply signals_admit|]. intros execution.
    eapply (triple_bind _ _ _ (fun _ => Always)); [|intros ?; by apply triple_ret].
    destruct threw; [apply triple_fails; by left|by apply triple_ret].
  - intros fault p [->|[kind ->]]; by eexists.
Qed.

(** From the start of the executor to the durable completion every exception says
    that the workspace may have changed. *)
Lemma run_faults options identity prepared (st : ToolState W) :
  match runToCompletion sha256Bytes localeLe runId sessionId options identity prepared st with
  | (Fails fault, _) => admits fault
  | (Gives _, _) => False
  | (Goes result, st') => ev_command_completed (commandCompletedData identity result) ∈ log (ts_publisher st')
  end.
Proof.
  assert (Ht : triple (W := W) Always (runToCompletion sha256Bytes localeLe runId sessionId options identity prepared)
    (fun result p => ev_command_completed (commandCompletedData identity result) ∈ log p) Never (fun fault _ => admits fault));
    [|by apply (Ht st)].
  eapply (triple_bind _ _ _ (fun _ => Always)); [apply observing_admits|]. intros execution.
  destruct (exn_completed execution) as [result|]; [|apply triple_fails; by eexists].
  do 2 (eapply triple_bind; [apply triple_fails_when; by eexists|]; intros ?; apply triple_pure; intros _).
  eapply (triple_bind _ _ _ (fun _ p => ev_command_completed (commandCompletedData identity result) ∈ log p));
    [|intros ?; by apply triple_ret].
  apply boundary_admits. intros p event Hd. rewrite posted_log, Hd. apply elem_of_app. right. by left.
Qed.

(** C13: no command runs before its request is durable.  Either the call ends before
    its executor matters, the same with any executor; or, with every executor, the
    log has the request of the command, and an exception leaves the tool only
    with the note that the workspace may have changed, unless the completion of
    the command is in the log as well. *)
Theorem executor_waits_for_request options input context (st : ToolState W) :
  reachable (ts_publisher st) -> untouched (ts_publisher st) (tcx_callId context) ->
  let after run := executes (withExecutor options run) input context st in
  (forall run run', after run = after run') \/
  (exists d, ci_call_id (crq_id d) = tcx_callId context /\ forall run,
     ev_command_requested d ∈ log (ts_publisher (after run).2) /\
     forall fault, (after run).1 = Fails fault ->
       admits fault \/
       (exists completed, ev_command_completed completed ∈ log (ts_publisher (after run).2) /\ ccp_id completed = crq_id d)).
Proof.
  intros Hr Hu after.
  pose proof (spec_requestCommand nfc sha256Bytes localeLe runId sessionId options (commandExecutions (ts_publisher st)) context input st
    (untouched_recorded _ _ Hr Hu)) as Hspec.
  assert (Hafter : forall run, after run =
    ('(prepared, identity, verification) ← requestCommand nfc sha256Bytes localeLe runId sessionId options input context;
     completed ← runToCompletion sha256Bytes localeLe runId sessionId (withExecutor options run) identity prepared;
     concludeCommand nfc sha256Bytes localeLe runId sessionId (withExecutor options run) context prepared verification completed) st)
    by reflexivity.
  unfold mbind at 1, Tool_bind at 1 in Hafter.
  destruct (requestCommand _ _ _ _ _ _ _ _ _) as [[[[prepared identity] verification]|raw|fault] st1];
    [|by left; intros run run'; rewrite !Hafter..].
  right. destruct Hspec as (d & [Hid Hc] & [Hr1 _ Hx Hby Hf]). cbn in Hid, Hc. subst identity. exists d. split; [done|]. intros run. rewrite Hafter.
  assert (Hlogged : ev_command_requested d ∈ log (ts_publisher st1)).
  { destruct (execution_source sha256Bytes localeLe runId sessionId (ts_publisher st1) (cx_executionId (newExecution d))
      (newExecution d) Hr1) as (d' & Hlog & _ & <- & _); [|exact Hlog].
    rewrite Hx, <-(jm_set_new_keys _ (newExecution d)) by (by apply Hf). apply jm_get_set_eq. }
  pose proof (kept_runToCompletion sha256Bytes localeLe runId sessionId (withExecutor options run) _
    (fun draft _ => kept_logged _ (ev_command_requested d) draft) (crq_id d) prepared st1 Hlogged) as Hk.
  pose proof (run_faults (withExecutor options run) (crq_id d) prepared st1) as Hf1. unfold mbind, Tool_bind. cbn [snd fst] in *.
  destruct (runToCompletion _ _ _ _ _ _ _ _) as [[completed|raw|fault] st2]; [|done|].
  - pose proof (kept_concludeCommand nfc sha256Bytes localeLe runId sessionId (withExecutor options run) _
      (fun draft _ => kept_logged _ (ev_command_requested d) draft) context prepared verification completed st2 Hk) as Hk2.
    pose proof (kept_concludeCommand nfc sha256Bytes localeLe runId sessionId (withExecutor options run) _
      (fun draft _ => kept_logged _ (ev_command_completed (commandCompletedData (crq_id d) completed)) draft) context prepared
      verification completed st2 Hf1) as Hk3.
    destruct (concludeCommand _ _ _ _ _ _ _ _ _ _ _) as [[raw'|raw'|fault'] st3]; (split; [exact Hk2|]); intros fault0 [=].
    right. by eexists.
  - split; [exact Hk|]. intros fault0 [= <-]. by left.
Qed.

(** ** The registry's answer *)

Lemma serialized_error error secrets : exists safe, tx_error (serializeToolError error secrets) = Some safe /\
  (te_category safe = te_category error /\ te_code safe = te_code error \/ te_code safe = "tool_error_too_large"%string).
Proof. unfold serializeToolError. case_match; eexists; (split; [reflexivity|]); [by right|by left]. Qed.

(** The answer closes the call as [execution]: it returns it, or the approval was
    cancelled ([endsIn]). *)
Definition closes (secrets : list (option jstring)) (answer : ToolAnswer) (execution : ToolExecution) : Prop :=
  answer = tool_returned execution \/
  answer = tool_threw (fatal_tool_error fatal_user_cancelled false) /\
  execution = serializeToolError {| te_category := error_cancelled; te_code := "tool_cancelled";
    te_message := js "tool execution was cancelled"; te_retryable := false |} secrets.

(** The codes that stand for more than one cause. *)
Definition unaccountedCodes : list string :=
  ["command_preparation_failed"; "tool_error_too_large"; "tool_execution_failed"]%string.
Definition accounted (execution : ToolExecution) : Prop :=
  forall error, tx_error execution = Some error -> te_code error ∉ unaccountedCodes.

Section Registry.
Context (options : RunCommandToolOptions W) (registry : ToolRegistry W) (invocation : ToolInvocation).
Notation callId := (tinv_callId invocation).
Notation result execution := (toolCompletedData callId (tinv_name invocation) execution (tinv_step invocation)).

Lemma answerRaw_publisher limit raw (st : ToolState W) :
  let '(answer, st') := answerRaw registry invocation limit raw st in
  ts_publisher st' = ts_publisher st /\ answer <> tool_threw (fatal_tool_error fatal_user_cancelled false).
Proof.
  assert (Hm : forall execution, let '(answer, st') := materializeExecution registry invocation limit execution st in
    ts_publisher st' = ts_publisher st /\ answer <> tool_threw (fatal_tool_error fatal_user_cancelled false)).
  { intros execution. unfold materializeExecution. destruct (materializer registry invocation) as [materialize|]; [|done].
    by destruct (materialize _ _ _ _) as [[[]|] w]. }
  unfold answerRaw. destruct raw as [control [text|] truncated value|error control [text|] truncated [value|]];
    repeat match goal with |- context [if ?b then _ else _] => destruct b end; first [apply Hm|by split].
Qed.

(** A result of the tool for a call that [Recorded] describes is taken. *)
Lemma recorded_accepts base k x p execution :
  tinv_name invocation = "run_command"%string ->
  pendingCall p callId (tinv_name invocation) (tinv_step invocation) = true -> recoveredCallData p !! callId = None ->
  Rec base callId k x p -> k <> consent_open ->
  (k = consent_none -> isPreExecutionToolError (result execution) = true) ->
  (forall y, x = Some y -> cx_completed y = true) ->
  (tx_ok execution = true -> exists y, x = Some y /\ cx_cleanupVerified y = Some true) ->
  validateToolCallCompleted (result execution) p = Ok ().
Proof.
  intros Hn Hp Hrec Hr Hopen Hnone Hdone Hok. rewrite Hn in Hp.
  eapply recorded_result; [exact Hp|exact Hrec|exact Hr|done|exact Hn|done|done|done|done|].
  unfold toolCompletedData. cbn. destruct (tx_ok execution); [by intros _; apply Hok|done].
Qed.

Lemma pre_execution error execution :
  tx_error execution = Some error ->
  te_category error = error_permission \/ te_code error ∈ REGISTRY_PRE_EXECUTION_ERROR_CODES ->
  isPreExecutionToolError (result execution) = true.
Proof.
  intros He Hc. unfold isPreExecutionToolError, toolCompletedData, tx_ok. cbn. rewrite He. cbn.
  destruct Hc as [->|Hc]; [done|]. by rewrite (bool_decide_eq_true_2 _ Hc), orb_true_r.
Qed.

Lemma settled_base base callId' k x p :
  Rec base callId' k x p -> (forall y, x = Some y -> cx_completed y = true /\ cx_cleanupVerified y = Some true) ->
  existsb (fun execution => negb (cx_completed execution) || (cx_cleanupVerified execution !== Some true)) (jm_values base) = false ->
  commandsSettled p.
Proof.
  intros [_ _ Hx _ _] Hdone Hb. unfold commandsSettled, jm_values in *. rewrite Hx, fmap_app, existsb_app, Hb.
  destruct x as [y|]; [|done]. destruct (Hdone y eq_refl) as [H1 H2]. cbn. by rewrite H1, H2.
Qed.

(** A refusal of the tool, as the registry serializes it. *)
Lemma refused_accepted base k raw p execution :
  tinv_name invocation = "run_command"%string ->
  pendingCall p callId (tinv_name invocation) (tinv_step invocation) = true -> recoveredCallData p !! callId = None ->
  Rec base callId k None p -> refusalFits k raw -> accounted execution ->
  (forall error, raw = raw_error error None None None None -> execution = serializeToolError error (tr_secrets registry)) ->
  validateToolCallCompleted (result execution) p = Ok ().
Proof.
  intros Hn Hp Hrec Hr (error & -> & Hfit) Hacc Hex. specialize (Hex error eq_refl). subst execution.
  destruct (serialized_error error (tr_secrets registry)) as (safe & Hs & Hc). specialize (Hacc safe Hs).
  eapply recorded_accepts; [done..|exact Hr|by destruct k| |done|unfold tx_ok; by rewrite Hs].
  intros ->. apply (pre_execution safe); [done|]. unfold unaccountedCodes in Hacc.
  destruct Hc as [[-> Hcode]|Hcode]; [|rewrite Hcode in Hacc; set_solver].
  destruct Hfit as [->|Hp2]; [by left|]. rewrite Hcode, Hp2 in Hacc. set_solver.
Qed.

Lemma unknown_failure message retryable :
  ~ accounted (serializeToolError (toolError error_system "tool_execution_failed" message retryable) (tr_secrets registry)).
Proof.
  intros Hacc. destruct (serialized_error (toolError error_system "tool_execution_failed" message retryable) (tr_secrets registry))
    as (safe & Hs & Hc). specialize (Hacc safe Hs). unfold unaccountedCodes in Hacc.
  destruct Hc as [[_ Hc]|Hc]; rewrite Hc in Hacc; cbn in Hacc; set_solver.
Qed.

Lemma view_call p p' c name step :
  loopView p' = loopView p -> pendingCall p c name step = true -> recoveredCallData p !! c = None ->
  pendingCall p' c name step = true /\ recoveredCallData p' !! c = None.
Proof. unfold loopView, pendingCall. by intros [= _ _ _ _ _ _ _ _ _ _ -> _ ->]. Qed.

(** C12: the tool of commands keeps its contract with the loop.  Whatever the
    preparer, the policy, the user, the hooks, the executor and the log answer, a
    call of [run_command] that was pending and is closed by the registry's answer
    has a result that the publisher takes, and leaves no command behind that has
    not ended or was not cleaned up; only an error with one of three codes, which
    stand for unknown causes, is not accounted for. *)
Theorem command_call_is_accounted parseJson aborted st answer st' execution :
  jm_get "run_command"%string (tr_definitions registry) =
    Some (createRunCommandTool nfc sha256Bytes localeLe runId sessionId options parseJson) ->
  tinv_name invocation = "run_command"%string ->
  reachable (ts_publisher st) ->
  pendingCall (ts_publisher st) callId (tinv_name invocation) (tinv_step invocation) = true ->
  untouched (ts_publisher st) callId ->
  registryExecute registry invocation aborted st = (answer, st') ->
  closes (tr_secrets registry) answer execution -> accounted execution ->
  validateToolCallCompleted (result execution) (ts_publisher st') = Ok () /\
  (commandsSettled (ts_publisher st) -> commandsSettled (ts_publisher st')).
Proof.
  intros Hdef Hn Hr Hp Hu He Hclose Hacc. pose proof Hu as (_ & _ & _ & Hrec).
  pose proof (untouched_recorded _ _ Hr Hu) as Hr0.
  assert (Hearly : forall error, (answer, st') = (refused registry error, st) -> te_code error ∈ REGISTRY_PRE_EXECUTION_ERROR_CODES ->
    validateToolCallCompleted (result execution) (ts_publisher st') = Ok () /\
    (commandsSettled (ts_publisher st) -> commandsSettled (ts_publisher st'))).
  { intros error [= -> ->] Hcode. split; [|done]. destruct Hclose as [[= <-]|[[=] _]].
    destruct (serialized_error error (tr_secrets registry)) as (safe & Hs & Hc). specialize (Hacc safe Hs).
    eapply recorded_accepts; [done..|exact Hr0|done| |done|unfold tx_ok; by rewrite Hs].
    intros _. apply (pre_execution safe); [done|]. right. destruct Hc as [[_ ->]|Hcode']; [done|].
    rewrite Hcode' in Hacc. unfold unaccountedCodes in Hacc. set_solver. }
  unfold registryExecute in He. destruct aborted; [by eapply Hearly; [symmetry; exact He|compute; set_solver]|].
  destruct (_ <? _); [by eapply Hearly; [symmetry; exact He|compute; set_solver]|].
  rewrite Hn, Hdef in He. cbn [createRunCommandTool rg_parseJson rg_execute rg_maxOutputBytes rg_Input] in He.
  destruct (parseJson (tinv_argumentsJson invocation)) as [input|invalidJson];
    [|by destruct invalidJson; eapply Hearly; [symmetry; exact He|compute; set_solver|symmetry; exact He|compute; set_solver]].
  set (context := {| tcx_callId := _; tcx_step := _; tcx_toolName := _ |}) in He.
  pose proof (spec_execute nfc sha256Bytes localeLe runId sessionId options (commandExecutions (ts_publisher st)) context input st Hr0) as Hspec.
  pose proof (execute_publishes options input context st) as Hpub.
  apply tool_publications_view in Hpub. destruct (executes options input context st) as [[raw|raw|fault] st1]; cbn [snd] in Hpub;
    destruct (view_call _ _ _ _ _ Hpub Hp Hrec) as [Hp1 Hrec1].
  - destruct Hspec as (identity & r & (x & Hx & Hr1) & Hclean & _). cbn [rawOf] in He.
    pose proof (answerRaw_publisher MAX_COMMAND_TOOL_OUTPUT_BYTES raw st1) as Hpr. cbn [from_option id] in He. rewrite He in Hpr.
    destruct Hpr as [-> _]. pose proof Hx as [Hdone Hcl]. split.
    + eapply recorded_accepts; [done..|exact Hr1|done|done|by intros y [= <-]|]. intros _. exists x. by rewrite Hcl, Hclean.
    + intros Hs. eapply settled_base; [exact Hr1| |exact Hs]. intros y [= <-]. by rewrite Hcl, Hclean.
  - destruct Hspec as (k & Hr1 & Hfit). cbn [rawOf] in He.
    assert (Hst : st' = st1) by (destruct Hfit as (error & -> & _); by injection He). subst st'. split.
    + eapply refused_accepted; [done..|exact Hr1|exact Hfit|done|]. intros error ->. injection He as <-.
      by destruct Hclose as [[= <-]|[[=] _]].
    + intros Hs. by eapply settled_base; [exact Hr1| |exact Hs].
  - destruct fault as [kind changed| |]; cbn [rawOf] in He.
    + injection He as <- <-. destruct Hclose as [[=]|[[= -> ->] ->]]. specialize (Hspec eq_refl).
      split; [|intros Hs; by eapply settled_base; [exact Hspec| |exact Hs]].
      eapply recorded_accepts; [done..|exact Hspec|done|done|done|].
      destruct (serialized_error (toolError error_cancelled "tool_cancelled" (js "tool execution was cancelled") false)
        (tr_secrets registry)) as (safe & Hs & _). unfold tx_ok. unfold toolError in Hs. by rewrite Hs.
    + injection He as <- <-. destruct Hclose as [[= <-]|[[=] _]]. by apply unknown_failure in Hacc.
    + injection He as <- <-. destruct Hclose as [[= <-]|[[=] _]]. by apply unknown_failure in Hacc.
Qed.

(** One of the three codes ends the run.  When the preparer throws anything but
    its own error, the tool answers with [command_preparation_failed] and nothing
    is on record about the call, so the publisher refuses the result that the
    registry returned. *)
Theorem unprepared_command_is_refused parseJson input (st : ToolState W) w w' :
  jm_get "run_command"%string (tr_definitions registry) =
    Some (createRunCommandTool nfc sha256Bytes localeLe runId sessionId options parseJson) ->
  tinv_name invocation = "run_command"%string ->
  pendingCall (ts_publisher st) callId (tinv_name invocation) (tinv_step invocation) = true ->
  untouched (ts_publisher st) callId ->
  byteLength (tinv_argumentsJson invocation) <= MAX_TOOL_ARGUMENT_BYTES ->
  parseJson (tinv_argumentsJson invocation) = Ok input ->
  co_beforeEffect options (ts_world st) = (true, w) ->
  co_prepare options (executionIntent options input) w = (Err preparation_exception, w') ->
  exists execution st',
    registryExecute registry invocation false st = (tool_returned execution, st') /\ ts_publisher st' = ts_publisher st /\
    validateToolCallCompleted (result execution) (ts_publisher st') =
      Err (TransitionRefused "run_command result requires permission evidence").
Proof.
  intros Hdef Hn Hp (Hperm & Hby & _ & Hrec) Hsize Hparse Hbefore Hprepare.
  assert (Hex : executes options input {| tcx_callId := callId; tcx_step := tinv_step invocation; tcx_toolName := tinv_name invocation |} st =
    (Gives (preparationFailure preparation_exception), st <| ts_world := w |> <| ts_world := w' |>)).
  { unfold execute, requestCommand, beforeEffect, preparing, mbind, Tool_bind, outside.
    rewrite Hbefore. cbn. unfold outside. cbn. by rewrite Hprepare. }
  exists (serializeToolError (toolError error_system "command_preparation_failed" (js "command could not be prepared") false) (tr_secrets registry)),
    (st <| ts_world := w |> <| ts_world := w' |>).
  split_and!; [|done|].
  - unfold registryExecute. rewrite (proj2 (Z.ltb_ge _ _) Hsize), Hn, Hdef.
    cbn [createRunCommandTool rg_parseJson rg_execute rg_maxOutputBytes rg_Input]. rewrite Hparse.
    rewrite Hn in Hex. by rewrite Hex.
  - cbn [ts_publisher]. unfold validateToolCallCompleted, toolCompletedData. cbn [tcc_call_id tcc_tool_name tcc_step tcc_status].
    unfold pendingCall in Hp. change (ts_publisher (st <| ts_world := w |> <| ts_world := w' |>)) with (ts_publisher st).
    rewrite Hrec, Hperm, Hby. destruct (jm_get callId _) as [call|]; [|done]. rewrite !andb_true_iff in Hp.
    destruct Hp as [[Hname Hnc] Hst]. apply bool_decide_eq_true in Hname. apply negb_true_iff in Hnc. rewrite Hnc, Hname, Hst, Hn.
    rewrite (bool_decide_eq_true_2 ("run_command" = "run_command")%string) by done.
    rewrite (bool_decide_eq_false_2 ("run_command" = "apply_patch")%string) by done.
    cbn [andb orb negb refuse_when throw_when mbind result_bind].
    assert (Hpre : isPreExecutionToolError (result (serializeToolError
      (toolError error_system "command_preparation_failed" (js "command could not be prepared") false) (tr_secrets registry))) = false).
    { unfold serializeToolError. destruct (_ <? _); reflexivity. }
    unfold toolCompletedData in Hpre. rewrite Hn in Hpre. by rewrite Hpre.
Qed.
End Registry.
End Properties.

(** ** The properties on a sample call

    A command that needs approval, is approved, and prints "ok". *)

Module SampleCall.
Definition publisher : EventPublisher :=
  SampleRun.publishAll (SampleRun.start ++ SampleRun.toolStep 1 input_user_task "c2" "run_command" (js "{}")) initialPublisher.
Definition state : ToolState nat := {| ts_publisher := publisher; ts_runtime := initialRuntime []; ts_world := O |}.

Definition call : ToolInvocation := {|
  tinv_argumentsJson := js "{}"; tinv_callId := "c2"; tinv_name := "run_command"; tinv_originEventId := "event"; tinv_step := 1 |}.
Definition context : ToolContext := {| tcx_callId := "c2"; tcx_step := 1; tcx_toolName := "run_command" |}.

Lemma publisher_reachable : SampleRun.reachable (ts_publisher state).
Proof. cbn [state ts_publisher]. apply SampleRun.publishAll_reachable. constructor. Qed.
Lemma publisher_untouched : untouched (ts_publisher state) (tinv_callId call).
Proof. by vm_compute. Qed.
Lemma context_untouched : untouched (ts_publisher state) (tcx_callId context).
Proof. by vm_compute. Qed.
Lemma publisher_pending : pendingCall (ts_publisher state) (tinv_callId call) (tinv_name call) (tinv_step call) = true.
Proof. vm_compute. reflexivity. Qed.

Definition input : RunCommandInput := {|
  rci_args := [js "test"]; rci_cwd := None; rci_executable := js "npm"; rci_purpose := purpose_inspect;
  rci_timeout_ms := None |}.
Definition prepared : PreparedCommand := {|
  pcm_execution := {| pe_actionSha256 := "act"; pe_argv := [js "test"]; pe_canonicalCwd := js "."; pe_logicalExecutable := js "npm";
                      pe_purpose := purpose_inspect |};
  pcm_executor := None; pcm_environmentLines := []; pcm_lifecycleScripts := []; pcm_warning := js "runs scripts" |}.
Definition result : CommandResult := {|
  cmr_result := {| er_durationMs := 9; er_exitCode := Some 1; er_stderr := []; er_stderrBytes := 0; er_stdout := js "ok";
                   er_stdoutBytes := 2; er_termination := term_exit; er_truncated := false |};
  cmr_cleanupVerified := true; cmr_errorCode := None; cmr_signal := None |}.
Definition signals : list ExecutionSignal := [signal_started; signal_output channel_stdout (js "ok") 2; signal_completed result].

(** The preparer and the prompt of the sample are arguments. *)
Definition options (preparer : PreparationFailure + PreparedCommand) (prompt : option ApprovalDecision)
  : RunCommandToolOptions nat := {|
  co_write _ w := ({| wa_attribution := None; wa_eventId := "event"; wa_written := true; wa_rendered := true |}, w);
  co_beforeEffect w := (true, w);
  co_prepare _ w := (match preparer with inl e => Err e | inr p => Ok p end, w);
  co_evaluate _ w := (Some (ask "reviewed" "reviewed"), w);
  co_approvalMode := approval_mode_ask; co_prompt _ w := (prompt, w);
  co_beforeHook := None; co_afterHook := None; co_revalidate _ w := (Some true, w);
  co_bindExecutionContext p _ := p; co_execute _ w := (signals, false, w);
  co_randomUUID w := ((if (w =? 0)%nat then "a2" else "x2")%string, S w);
  co_verification := false; co_classify _ w := (None, w);
  co_sourceState w := (Err (VerificationTrackerError "unused"), w);
  co_defaultTimeoutMs := 1000; co_maxOutputBytes := 4096; co_secrets := [] |}.
Definition good := options (inr prepared) (Some approval_approved).

Definition parse (_ : jstring) : Prelude.result bool RunCommandInput := Ok input.
Definition registry options : ToolRegistry nat := {|
  tr_definitions := [("run_command"%string,
    createRunCommandTool (fun s => s) standInHash jstring_le "run" "session" options parse)];
  tr_secrets := []; tr_artifactOutput := None |}.
Definition run options := execute (fun s => s) standInHash jstring_le "run" "session" options input context state.
Definition answer options := registryExecute (registry options) call false state.

Lemma answer_parts options : registryExecute (registry options) call false state = ((answer options).1, (answer options).2).
Proof. unfold answer. by destruct (registryExecute _ _ _ _). Qed.
Lemma run_parts options :
  execute (fun s => s) standInHash jstring_le "run" "session" options input context state = ((run options).1, (run options).2).
Proof. unfold run. by destruct (execute _ _ _ _ _ _ _ _ _). Qed.

Lemma command_call_is_accounted_witness : exists execution,
  (answer good).1 = tool_returned execution /\
  validateToolCallCompleted (toolCompletedData (tinv_callId call) (tinv_name call) execution (tinv_step call)) (ts_publisher (answer good).2) = Ok ().
Proof.
  assert (E : exists execution, (answer good).1 = tool_returned execution /\ tx_error execution = None)
    by (eexists; split; [vm_compute; reflexivity|reflexivity]).
  destruct E as (execution & E & Hok). exists execution. split; [exact E|].
  assert (Hacc : accounted execution) by (intros error; rewrite Hok; discriminate).
  exact (proj1 (command_call_is_accounted (fun s => s) standInHash jstring_le "run" "session" good (registry good) call parse false
    state (answer good).1 (answer good).2 execution eq_refl eq_refl publisher_reachable publisher_pending publisher_untouched
    (answer_parts good) (or_introl E) Hacc)).
Defined.

Lemma observation_is_recoverable_witness : exists raw x completed,
  (run good).1 = Goes raw /\ cx_completedData x = Some completed /\
  recoverCommandToolObservation completed (outputOf (cx_output x)) =
    Ok (observationOf (asRecovered (ccp_termination completed) raw)).
Proof.
  assert (E : exists raw, (run good).1 = Goes raw) by (eexists; vm_compute; reflexivity). destruct E as (raw & E).
  destruct (observation_is_recoverable (fun s => s) standInHash jstring_le "run" "session" good input context state raw (run good).2
    publisher_reachable context_untouched) as (x & completed & _ & _ & Hdata & Hrec).
  { rewrite <-E. exact (run_parts good). }
  exists raw, x, completed. exact (conj E (conj Hdata Hrec)).
Defined.

Lemma executor_waits_for_request_witness : exists d, ci_call_id (crq_id d) = "c2"%string /\
  ev_command_requested d ∈ log (ts_publisher (run good).2).
Proof.
  destruct (executor_waits_for_request (fun s => s) standInHash jstring_le "run" "session" good input context state
    publisher_reachable context_untouched) as [Hsame|(d & Hc & Hrun)].
  - specialize (Hsame (fun _ w => ([], false, w)) (fun _ w => (signals, false, w))). vm_compute in Hsame. discriminate Hsame.
  - exists d. split; [exact Hc|]. exact (proj1 (Hrun (fun _ w => (signals, false, w)))).
Defined.

Lemma unprepared_command_is_refused_witness : exists execution,
  (answer (options (inl preparation_exception) None)).1 = tool_returned execution /\
  validateToolCallCompleted (toolCompletedData (tinv_callId call) (tinv_name call) execution (tinv_step call)) (ts_publisher state) =
    Err (TransitionRefused "run_command result requires permission evidence").
Proof.
  destruct (unprepared_command_is_refused (fun s => s) standInHash jstring_le "run" "session"
    (options (inl preparation_exception) None) (registry (options (inl preparation_exception) None)) call parse input state O O)
    as (execution & st' & He & Hp & Hv);
    [reflexivity|reflexivity|exact publisher_pending|exact publisher_untouched|vm_compute; discriminate|reflexivity..|].
  exists execution. unfold answer. rewrite He. split; [reflexivity|]. rewrite Hp in Hv. exact Hv.
Defined.

(** So does a prompt that throws: the approval that was asked for has no decision. *)
Example unanswered_prompt_is_refused :
  match answer (options (inr prepared) None) with
  | (tool_returned execution, st) =>
      te_code <$> tx_error execution = Some "tool_execution_failed"%string /\
      validateToolCallCompleted (toolCompletedData "c2" "run_command" execution 1) (ts_publisher st) =
        Err (TransitionRefused "run_command result requires an approval decision")
  | _ => False
  end.
Proof. vm_compute. by split. Qed.

(** When the artifact of an observation cannot be stored, the exception says that the
    workspace has not changed, whatever the command did. *)
Example failed_artifact_denies_the_change :
  let failing := registry good in
  let failing := {| tr_definitions := tr_definitions failing; tr_secrets := [];
                    tr_artifactOutput := Some (fun _ _ _ w => (None, w)) |} in
  let '(answer, st) := registryExecute failing call false state in
  answer = tool_threw (fatal_tool_error fatal_storage false) /\
  existsb (fun draft => match draft with ev_command_completed _ => true | _ => false end) (log (ts_publisher st)) = true.
Proof. vm_compute. by split. Qed.
End SampleCall.
