(* ===== verification/ActionIdentity.v ===== *)
(** * The identities of actions

    [src/permissions/action-digest.ts], [src/mcp/mcp-action-identity.ts] and
    [src/execution/docker/acquisition/docker-image-identity.ts]: the normal form
    of an action and the digest an approval names.  Every field of an action is
    checked or normalised, and the digest covers all of them.

    SHA-256, ICU's [localeCompare] and the text of a binary64 number are
    parameters. *)

From S2P Require Import Prelude JsString PosixPath CanonicalJson SourceSnapshot Permissions.
From stdpp Require Import pretty sorting.
From Stdlib Require Import SpecFloat.
#[local] Open Scope Z_scope.

(** [TypeError], zod's error and [McpCoreError]. *)
Inductive IdentityError : Type :=
| type_error (message : string)
| zod_error
| mcp_action_invalid (message : string).

(** ** Tests on strings *)

Definition isLowerAlnum (u : Z) : bool := isDigit u || ((0x61 <=? u) && (u <=? 0x7a)).
Definition isLowerHexUnit (u : Z) : bool := isDigit u || ((0x61 <=? u) && (u <=? 0x66)).

(** [/^[a-f0-9]{64}$/u] *)
Definition SHA256_PATTERN (s : jstring) : bool := (length s =? 64)%nat && forallb isLowerHexUnit s.

(** [value.includes("\0")] *)
Definition hasNul (s : jstring) : bool := includes s [0].

Definition isSafeInteger (n : Z) : bool := (-9007199254740991 <=? n) && (n <=? 9007199254740991).

Definition message (label text : string) : IdentityError := type_error (label +:+ text).

Definition assertPlainString (value : jstring) (label : string) : result IdentityError () :=
  throw_when (hasNul value) (message label " must be a NUL-free string").
Definition assertNonEmpty (value : jstring) (label : string) : result IdentityError () :=
  _ ← assertPlainString value label;
  throw_when (length value =? 0)%nat (message label " must not be empty").
Definition assertSha256 (value : jstring) (label : string) : result IdentityError () :=
  throw_when (negb (SHA256_PATTERN value)) (message label " must be a lowercase SHA-256 hex digest").
Definition assertNullableSha256 (value : option jstring) (label : string) : result IdentityError () :=
  match value with Some value => assertSha256 value label | None => Ok () end.
Definition assertPositiveInteger (value : Z) (label : string) : result IdentityError Z :=
  _ ← throw_when (negb (isSafeInteger value) || (value <=? 0)) (message label " must be a positive safe integer");
  Ok value.
Definition assertArgument (value : jstring) (index : nat) : result IdentityError () :=
  throw_when (hasNul value) (type_error ("argv[" +:+ pretty index +:+ "] must be a NUL-free string")).

Definition canonicalizeWorkspaceRelativePath (value : jstring) : result IdentityError jstring :=
  _ ← assertPlainString value "workspace-relative path";
  let withForwardSlashes := replaceUnit backslash slash value in
  _ ← throw_when (startsWith withForwardSlashes [slash] || startsWith withForwardSlashes [slash; slash] ||
                  hasDriveLetter withForwardSlashes || win32IsAbsolute value)
        (type_error "workspace-relative path must not be absolute");
  let normalized := posixNormalize (if withForwardSlashes === [] then dot else withForwardSlashes) in
  _ ← throw_when ((normalized === dotdot) || startsWith normalized (dotdot ++ [slash]))
        (type_error "workspace-relative path must not escape the workspace");
  Ok (if normalized === [] then dot else normalized).

(** ** The values of a digest

    [CanonicalJsonValue]: no absent values; a number is kept as the text
    [JSON.stringify] gives it. *)

Inductive CanonicalJsonValue : Type :=
| CNull
| CBool (b : bool)
| CNumber (text : jstring)
| CString (s : jstring)
| CArray (entries : list CanonicalJsonValue)
| CObject (record : list (jstring * CanonicalJsonValue)).

(** The module's own [canonicalJson], which does not throw. *)
Fixpoint actionJson (value : CanonicalJsonValue) : jstring :=
  match value with
  | CNull => js "null"
  | CBool b => js (if b then "true" else "false")
  | CNumber text => text
  | CString s => stringifyString s
  | CArray entries => 0x5b :: joinUnit comma (List.map actionJson entries) ++ [0x5d]
  | CObject record =>
      0x7b :: joinUnit comma (fieldText <$> js_sort key_le
                (List.map (fun '(key, v) => (key, actionJson v)) record)) ++ [0x7d]
  end.

Definition CInt (n : Z) : CanonicalJsonValue := CNumber (stringifyNumber n).
Definition cfield (name : string) (v : CanonicalJsonValue) : jstring * CanonicalJsonValue := (js name, v).
Definition nullable {A} (f : A -> CanonicalJsonValue) (o : option A) : CanonicalJsonValue :=
  match o with Some a => f a | None => CNull end.
(** [...(value === undefined ? {} : { name: f(value) })] *)
Definition optional {A} (name : string) (f : A -> CanonicalJsonValue) (o : option A)
  : list (jstring * CanonicalJsonValue) :=
  match o with Some a => [cfield name (f a)] | None => [] end.

(** ** Identities of Docker images *)

Definition persistDockerExecutionImageIdentity (identity : DockerExecutionImageIdentity) : CanonicalJsonValue :=
  match identity with
  | registry_digest reference configImageId => CObject [
      cfield "config_image_id" (CString configImageId);
      cfield "kind" (CString (js "registry_digest"));
      cfield "reference" (CString reference)]
  | trusted_local_build build => CObject [
      cfield "artifact_id" (CString (tlb_artifactId build));
      cfield "artifact_lock_sha256" (CString (tlb_artifactLockSha256 build));
      cfield "base_image_digests" (CArray (CString <$> tlb_baseImageDigests build));
      cfield "config_image_id" (CString (tlb_configImageId build));
      cfield "context_manifest_sha256" (CString (tlb_contextManifestSha256 build));
      cfield "dockerfile_sha256" (CString (tlb_dockerfileSha256 build));
      cfield "kind" (CString (js "trusted_local_build"))]
  end.

(** [/^sha256:[a-f0-9]{64}$/u] *)
Definition sha256Id (s : jstring) : bool := startsWith s (js "sha256:") && SHA256_PATTERN (drop 7 s).

Definition isReferenceUnit (u : Z) : bool :=
  isLowerAlnum u || bool_decide (u ∈ [0x2e; 0x5f; 0x3a; 0x2f; 0x2d]).

(** 73 to 500 units of [/^[a-z0-9][a-z0-9._:/-]*@sha256:[a-f0-9]{64}$/u]: the last
    72 units are the digest, for no unit of the name is an [@]. *)
Definition digestReference (s : jstring) : bool :=
  let n := length s in
  (73 <=? n)%nat && (n <=? 500)%nat &&
  match take (n - 72) s with
  | first :: rest => isLowerAlnum first && forallb isReferenceUnit rest
  | [] => false
  end &&
  startsWith (drop (n - 72) s) (js "@sha256:") && SHA256_PATTERN (drop (n - 64) s).

(** [/^[a-z][a-z0-9-]{0,63}$/u] *)
Definition isArtifactId (s : jstring) : bool :=
  match s with
  | first :: rest => (0x61 <=? first) && (first <=? 0x7a) &&
      (length rest <=? 63)%nat && forallb (fun u => isLowerAlnum u || (u =? 0x2d)) rest
  | [] => false
  end.

(** A field of a strict object, as a string or list of strings. *)
Definition stringField (name : string) (test : jstring -> bool) (record : list (jstring * CanonicalJsonValue))
  : result IdentityError jstring :=
  match jm_get (js name) record with
  | Some (CString s) => if test s then Ok s else Err zod_error
  | _ => Err zod_error
  end.
Definition stringsOf (entries : list CanonicalJsonValue) : option (list jstring) :=
  mapM (fun v => match v with CString s => Some s | _ => None end) entries.
Definition baseImagesField (record : list (jstring * CanonicalJsonValue)) : result IdentityError (list jstring) :=
  match jm_get (js "base_image_digests") record with
  | Some (CArray entries) =>
      match stringsOf entries with
      | Some items =>
          if forallb digestReference items && (1 <=? length items)%nat && (length items <=? 8)%nat &&
             bool_decide (NoDup items)
          then Ok items else Err zod_error
      | None => Err zod_error
      end
  | _ => Err zod_error
  end.
Definition strictKeys (names : list string) (record : list (jstring * CanonicalJsonValue)) : result IdentityError () :=
  throw_when (negb (forallb (fun kv => bool_decide (kv.1 ∈ js <$> names)) record)) zod_error.

(** [restoreDockerExecutionImageIdentity] after
    [persistedDockerExecutionImageIdentitySchema.parse]. *)
Definition restoreDockerExecutionImageIdentity (input : CanonicalJsonValue)
  : result IdentityError DockerExecutionImageIdentity :=
  match input with
  | CObject record =>
      kind ← stringField "kind" (fun _ => true) record;
      if kind === js "registry_digest" then
        _ ← strictKeys ["kind"; "reference"; "config_image_id"] record;
        reference ← stringField "reference" digestReference record;
        configImageId ← stringField "config_image_id" sha256Id record;
        Ok (registry_digest reference configImageId)
      else if kind === js "trusted_local_build" then
        _ ← strictKeys ["kind"; "artifact_id"; "artifact_lock_sha256"; "dockerfile_sha256";
                        "context_manifest_sha256"; "base_image_digests"; "config_image_id"] record;
        artifactId ← stringField "artifact_id" isArtifactId record;
        artifactLockSha256 ← stringField "artifact_lock_sha256" SHA256_PATTERN record;
        dockerfileSha256 ← stringField "dockerfile_sha256" SHA256_PATTERN record;
        contextManifestSha256 ← stringField "context_manifest_sha256" SHA256_PATTERN record;
        baseImageDigests ← baseImagesField record;
        configImageId ← stringField "config_image_id" sha256Id record;
        Ok (trusted_local_build {|
          tlb_artifactId := artifactId; tlb_artifactLockSha256 := artifactLockSha256;
          tlb_dockerfileSha256 := dockerfileSha256; tlb_contextManifestSha256 := contextManifestSha256;
          tlb_baseImageDigests := baseImageDigests; tlb_configImageId := configImageId |})
      else Err zod_error
  | _ => Err zod_error
  end.

Definition executionReference (identity : DockerExecutionImageIdentity) : jstring :=
  match identity with
  | registry_digest reference _ => reference
  | trusted_local_build build => tlb_configImageId build
  end.

(** ** Normal forms *)

(** A binary64 number. *)
Definition isJsNumber (x : spec_float) : bool := valid_binary 53 1024 x.
Definition isFinite (x : spec_float) : bool :=
  match x with S754_zero _ | S754_finite _ _ _ => true | _ => false end.
Definition quarter : spec_float := S754_finite false 4503599627370496 (-54).
Definition eight : spec_float := S754_finite false 4503599627370496 (-49).

Definition resourceLimitsInvalid (limits : DockerResourceLimits) : bool :=
  negb (isFinite (drl_cpus limits)) || SFltb (drl_cpus limits) quarter || SFltb eight (drl_cpus limits) ||
  negb (isSafeInteger (drl_memoryMiB limits)) || negb (isSafeInteger (drl_pids limits)) ||
  negb (isSafeInteger (drl_tmpMiB limits)).

(** The image reference must be the one the immutable identity names. *)
Definition imageReferenceMismatch (imageIdentity : option DockerExecutionImageIdentity)
    (imageReference imageDigest : jstring) : bool :=
  match imageIdentity with
  | None => negb (endsWith imageReference (js "@" ++ imageDigest))
  | Some (registry_digest reference _) =>
      (reference !== imageReference) || negb (endsWith imageReference (js "@" ++ imageDigest))
  | Some (trusted_local_build build) =>
      (tlb_configImageId build !== imageReference) || (tlb_configImageId build !== imageDigest)
  end.

Definition normalizeDockerEnvironment (value : DockerCommandEnvironmentIdentity)
  : result IdentityError DockerCommandEnvironmentIdentity :=
  _ ← throw_when ((dce_executor value !== js "docker") || (dce_network value !== js "none"))
        (type_error "Docker command environment must use executor=docker and network=none");
  let digest := dce_imageDigest value in
  _ ← assertSha256 (if startsWith digest (js "sha256:") then drop 7 digest else digest)
        "executionEnvironment.imageDigest";
  _ ← throw_when (digest !== js "sha256:" ++ drop 7 digest)
        (type_error "executionEnvironment.imageDigest must use sha256:<hex>");
  _ ← assertNonEmpty (dce_imageReference value) "executionEnvironment.imageReference";
  imageIdentity ← match dce_imageIdentity value with
                  | None => Ok None
                  | Some identity =>
                      Some <$> restoreDockerExecutionImageIdentity (persistDockerExecutionImageIdentity identity)
                  end;
  _ ← throw_when (imageReferenceMismatch imageIdentity (dce_imageReference value) digest)
        (type_error "executionEnvironment image reference must match its immutable identity");
  _ ← assertNonEmpty (dce_policyVersion value) "executionEnvironment.policyVersion";
  _ ← assertSha256 (dce_snapshotSha256 value) "executionEnvironment.snapshotSha256";
  _ ← assertSha256 (dce_sourceStateSha256 value) "executionEnvironment.sourceStateSha256";
  _ ← assertSha256 (dce_wrapperSha256 value) "executionEnvironment.wrapperSha256";
  _ ← throw_when (resourceLimitsInvalid (dce_resourceLimits value))
        (type_error "executionEnvironment resource limits are invalid");
  Ok {| dce_executor := js "docker"; dce_imageDigest := digest; dce_imageIdentity := imageIdentity;
        dce_imageReference := dce_imageReference value; dce_network := js "none";
        dce_policyVersion := dce_policyVersion value; dce_resourceLimits := dce_resourceLimits value;
        dce_snapshotSha256 := dce_snapshotSha256 value; dce_sourceStateSha256 := dce_sourceStateSha256 value;
        dce_wrapperSha256 := dce_wrapperSha256 value |}.

Definition normalizeLogicalExecutable (value : jstring) : result IdentityError jstring :=
  _ ← assertPlainString value "logicalExecutable";
  let normalized := toLowerCase (trim value) in
  _ ← throw_when (length normalized =? 0)%nat (type_error "logicalExecutable must not be empty");
  Ok normalized.

Definition normalizeEnvironmentPolicy (value : EnvironmentPolicyIdentity)
  : result IdentityError EnvironmentPolicyIdentity :=
  _ ← assertNonEmpty (ep_id value) "environmentPolicy.id";
  _ ← assertNonEmpty (ep_version value) "environmentPolicy.version";
  names ← mapM (fun name => _ ← assertNonEmpty name "environmentPolicy.variableNames entry"; Ok name)
            (ep_variableNames value);
  Ok {| ep_id := ep_id value; ep_variableNames := sortText (uniqueInOrder names); ep_version := ep_version value |}.

Definition normalizeBinary (value : BinaryFingerprint) (label : string) : result IdentityError BinaryFingerprint :=
  _ ← assertNonEmpty (bf_canonicalIdentity value) (label +:+ ".canonicalIdentity");
  _ ← assertSha256 (bf_bytesSha256 value) (label +:+ ".bytesSha256");
  _ ← assertNonEmpty (bf_version value) (label +:+ ".version");
  Ok value.

Definition normalizePackageManager (value : option PackageManagerIdentity)
  : result IdentityError (option PackageManagerIdentity) :=
  match value with
  | None => Ok None
  | Some value =>
      _ ← throw_when ((pm_logicalName value !== js "npm") && (pm_logicalName value !== js "pnpm"))
            (type_error "packageManager.logicalName must be npm or pnpm");
      _ ← assertNonEmpty (pm_version value) "packageManager.version";
      binary ← normalizeBinary (pm_binary value) "packageManager.binary";
      Ok (Some {| pm_binary := binary; pm_logicalName := pm_logicalName value; pm_version := pm_version value |})
  end.

Definition normalizeLifecycle (value : option LifecycleScriptFingerprints)
  : result IdentityError (option LifecycleScriptFingerprints) :=
  match value with
  | None => Ok None
  | Some value =>
      _ ← assertNonEmpty (ls_scriptName value) "lifecycleScripts.scriptName";
      _ ← assertSha256 (ls_mainBodySha256 value) "lifecycleScripts.mainBodySha256";
      _ ← assertNullableSha256 (ls_preBodySha256 value) "lifecycleScripts.preBodySha256";
      _ ← assertNullableSha256 (ls_postBodySha256 value) "lifecycleScripts.postBodySha256";
      Ok (Some value)
  end.

(** Two adjacent entries of the same path. *)
Fixpoint adjacentDuplicate (entries : list RunnerConfigFingerprint) : bool :=
  match entries with
  | a :: (b :: _) as rest => (rc_canonicalPath a === rc_canonicalPath b) || adjacentDuplicate rest
  | _ => false
  end.

(** ** Digests *)

Definition binaryForDigest (value : BinaryFingerprint) : CanonicalJsonValue := CObject [
  cfield "bytesSha256" (CString (bf_bytesSha256 value));
  cfield "canonicalIdentity" (CString (bf_canonicalIdentity value));
  cfield "version" (CString (bf_version value))].

Definition environmentPolicyForDigest (value : EnvironmentPolicyIdentity) : CanonicalJsonValue := CObject [
  cfield "id" (CString (ep_id value));
  cfield "variableNames" (CArray (CString <$> ep_variableNames value));
  cfield "version" (CString (ep_version value))].

Definition packageManagerForDigest (value : option PackageManagerIdentity) : CanonicalJsonValue :=
  nullable (fun value => CObject [
    cfield "binary" (binaryForDigest (pm_binary value));
    cfield "logicalName" (CString (pm_logicalName value));
    cfield "version" (CString (pm_version value))]) value.

Definition lifecycleForDigest (value : option LifecycleScriptFingerprints) : CanonicalJsonValue :=
  nullable (fun value => CObject [
    cfield "mainBodySha256" (CString (ls_mainBodySha256 value));
    cfield "postBodySha256" (nullable CString (ls_postBodySha256 value));
    cfield "preBodySha256" (nullable CString (ls_preBodySha256 value));
    cfield "scriptName" (CString (ls_scriptName value))]) value.

Definition runnerConfigForDigest (entry : RunnerConfigFingerprint) : CanonicalJsonValue := CObject [
  cfield "canonicalPath" (CString (rc_canonicalPath entry));
  cfield "sha256" (CString (rc_sha256 entry))].
Definition executionInputsForDigest (value : ExecutionInputFingerprints) : CanonicalJsonValue := CObject [
  cfield "lockfileSha256" (nullable CString (ei_lockfileSha256 value));
  cfield "manifestSha256" (nullable CString (ei_manifestSha256 value));
  cfield "runnerConfigHashes" (CArray (runnerConfigForDigest <$> ei_runnerConfigHashes value))].

Definition purposeText (purpose : CommandPurpose) : jstring :=
  match purpose with purpose_inspect => js "inspect" | purpose_verify => js "verify" end.

Section Digests.
(** [createHash("sha256")] on the UTF-8 of a string, in hex; the sign of
    [localeCompare], as an order; [JSON.stringify] on a finite number. *)
Variable sha256 : jstring -> jstring.
Variable localeLe : jstring -> jstring -> bool.
Variable numberText : spec_float -> jstring.

Definition resourceLimitsForDigest (limits : DockerResourceLimits) : CanonicalJsonValue := CObject [
  cfield "cpus" (CNumber (numberText (drl_cpus limits)));
  cfield "memoryMiB" (CInt (drl_memoryMiB limits));
  cfield "pids" (CInt (drl_pids limits));
  cfield "tmpMiB" (CInt (drl_tmpMiB limits))].

Definition dockerEnvironmentForDigest (value : DockerCommandEnvironmentIdentity) : CanonicalJsonValue := CObject (
  cfield "executor" (CString (dce_executor value)) ::
  cfield "imageDigest" (CString (dce_imageDigest value)) ::
  optional "imageIdentity" persistDockerExecutionImageIdentity (dce_imageIdentity value) ++ [
  cfield "imageReference" (CString (dce_imageReference value));
  cfield "network" (CString (dce_network value));
  cfield "policyVersion" (CString (dce_policyVersion value));
  cfield "resourceLimits" (resourceLimitsForDigest (dce_resourceLimits value));
  cfield "snapshotSha256" (CString (dce_snapshotSha256 value));
  cfield "sourceStateSha256" (CString (dce_sourceStateSha256 value));
  cfield "wrapperSha256" (CString (dce_wrapperSha256 value))]).

Definition executionInputsDigestValue (action : NormalizedCommandAction) : CanonicalJsonValue := CObject [
  cfield "binary" (binaryForDigest (ca_binary action));
  cfield "executionInputs" (executionInputsForDigest (ca_executionInputs action));
  cfield "lifecycleScripts" (lifecycleForDigest (ca_lifecycleScripts action));
  cfield "packageManager" (packageManagerForDigest (ca_packageManager action))].
Definition computeExecutionInputsSha256 (action : NormalizedCommandAction) : jstring :=
  sha256 (actionJson (executionInputsDigestValue action)).

Definition actionDigestValue (action : NormalizedCommandAction) : CanonicalJsonValue := CObject (
  cfield "actionKind" (CString (js "command")) ::
  cfield "argv" (CArray (CString <$> ca_argv action)) ::
  cfield "canonicalCwd" (CString (ca_canonicalCwd action)) ::
  cfield "environmentPolicy" (environmentPolicyForDigest (ca_environmentPolicy action)) ::
  optional "executionEnvironment" dockerEnvironmentForDigest (ca_executionEnvironment action) ++ [
  cfield "executionInputsSha256" (CString (computeExecutionInputsSha256 action));
  cfield "logicalExecutable" (CString (ca_logicalExecutable action));
  cfield "outputLimitBytes" (CInt (ca_outputLimitBytes action));
  cfield "purpose" (CString (purposeText (ca_purpose action)));
  cfield "timeoutMs" (CInt (ca_timeoutMs action))]).
Definition computeActionSha256 (action : NormalizedCommandAction) : jstring :=
  sha256 (actionJson (actionDigestValue action)).

(** ** Command actions *)

Definition config_le (a b : RunnerConfigFingerprint) : Prop :=
  localeLe (rc_canonicalPath a) (rc_canonicalPath b) = true.
#[export] Instance config_le_dec a b : Decision (config_le a b).
Proof. unfold config_le. apply _. Defined.

Definition normalizeRunnerConfig (entry : RunnerConfigFingerprint) : result IdentityError RunnerConfigFingerprint :=
  _ ← assertSha256 (rc_sha256 entry) "runnerConfigHashes.sha256";
  canonicalPath ← canonicalizeWorkspaceRelativePath (rc_canonicalPath entry);
  Ok {| rc_canonicalPath := canonicalPath; rc_sha256 := rc_sha256 entry |}.

Definition normalizeExecutionInputs (value : ExecutionInputFingerprints)
  : result IdentityError ExecutionInputFingerprints :=
  _ ← assertNullableSha256 (ei_manifestSha256 value) "executionInputs.manifestSha256";
  _ ← assertNullableSha256 (ei_lockfileSha256 value) "executionInputs.lockfileSha256";
  entries ← mapM normalizeRunnerConfig (ei_runnerConfigHashes value);
  let runnerConfigHashes := js_sort config_le entries in
  _ ← throw_when (adjacentDuplicate runnerConfigHashes) (type_error "runner config paths must be unique");
  Ok {| ei_lockfileSha256 := ei_lockfileSha256 value; ei_manifestSha256 := ei_manifestSha256 value;
        ei_runnerConfigHashes := runnerConfigHashes |}.

(** The tests of [actionKind] and [purpose] never fail on the types of the model. *)
Definition normalizeCommandAction (input : NormalizedCommandAction) : result IdentityError NormalizedCommandAction :=
  logicalExecutable ← normalizeLogicalExecutable (ca_logicalExecutable input);
  argv ← mapM (fun '(index, argument) => _ ← assertArgument argument index; Ok argument)
           (imap pair (ca_argv input));
  canonicalCwd ← canonicalizeWorkspaceRelativePath (ca_canonicalCwd input);
  environmentPolicy ← normalizeEnvironmentPolicy (ca_environmentPolicy input);
  binary ← normalizeBinary (ca_binary input) "binary";
  packageManager ← normalizePackageManager (ca_packageManager input);
  lifecycleScripts ← normalizeLifecycle (ca_lifecycleScripts input);
  executionInputs ← normalizeExecutionInputs (ca_executionInputs input);
  executionEnvironment ← match ca_executionEnvironment input with
                         | None => Ok None
                         | Some environment => Some <$> normalizeDockerEnvironment environment
                         end;
  _ ← throw_when (match lifecycleScripts, packageManager with Some _, None => true | _, _ => false end)
        (type_error "lifecycle script fingerprints require a package manager identity");
  outputLimitBytes ← assertPositiveInteger (ca_outputLimitBytes input) "outputLimitBytes";
  timeoutMs ← assertPositiveInteger (ca_timeoutMs input) "timeoutMs";
  Ok {| ca_argv := argv; ca_binary := binary; ca_canonicalCwd := canonicalCwd;
        ca_environmentPolicy := environmentPolicy; ca_executionEnvironment := executionEnvironment;
        ca_executionInputs := executionInputs; ca_lifecycleScripts := lifecycleScripts;
        ca_logicalExecutable := logicalExecutable; ca_outputLimitBytes := outputLimitBytes;
        ca_packageManager := packageManager; ca_purpose := ca_purpose input; ca_timeoutMs := timeoutMs |}.

Definition createCommandActionIdentity (input : NormalizedCommandAction) : result IdentityError CommandActionIdentity :=
  normalized ← normalizeCommandAction input;
  Ok {| ca_normalized := normalized; ca_actionSha256 := computeActionSha256 normalized;
        ca_executionInputsSha256 := computeExecutionInputsSha256 normalized |}.

(** ** MCP actions

    These digests are over [canonicalJson] of [completion/canonical-json.ts]. *)

Definition requireSha256 (value : jstring) (label : string) : result IdentityError () :=
  throw_when (negb (SHA256_PATTERN value)) (mcp_action_invalid (label +:+ " must be a lowercase SHA-256 digest")).
Definition requirePositiveInteger (value : Z) (label : string) : result IdentityError () :=
  throw_when (negb (isSafeInteger value) || (value <=? 0))
    (mcp_action_invalid (label +:+ " must be a positive integer")).
Definition requireSha256s (values : list (string * jstring)) : result IdentityError () :=
  foldM (fun _ '(label, value) => requireSha256 value label) values ().

(** [/^[a-z][a-z0-9_-]{0,31}$/u] *)
Definition isServerId (s : jstring) : bool :=
  match s with
  | first :: rest => (0x61 <=? first) && (first <=? 0x7a) && (length rest <=? 31)%nat &&
      forallb (fun u => isLowerAlnum u || (u =? 0x5f) || (u =? 0x2d)) rest
  | [] => false
  end.

(** [/^mcp-resource:[a-f0-9]{64}$/u] and [/^mcp-prompt:[a-f0-9]{64}$/u] *)
Definition isPrefixedSha256 (prefix : string) (s : jstring) : bool :=
  startsWith s (js prefix) && SHA256_PATTERN (drop (String.length prefix) s).

(** [/^[0-9a-f-]{36}$/u] *)
Definition isEventId (s : jstring) : bool :=
  (length s =? 36)%nat && forallb (fun u => isLowerHexUnit u || (u =? 0x2d)) s.

Definition nonemptyNulFree (s : jstring) : bool := negb (length s =? 0)%nat && negb (hasNul s).

(** The [TypeError] of [canonicalJson]. *)
Definition encodedJson (value : json) : result IdentityError jstring :=
  match canonicalJson value with
  | Ok t => Ok t
  | Err CannotEncodeUndefined => Err (type_error "canonical JSON cannot encode undefined")
  end.
Definition sha256Json (value : json) : result IdentityError jstring := t ← encodedJson value; Ok (sha256 t).

Definition jfield (name : string) (v : json) : jstring * json := (js name, v).
Definition jtext (name : string) (s : jstring) : jstring * json := jfield name (JStr s).

Definition bindingText (binding : IntegrityBinding) : jstring :=
  js (match binding with explicit_binding => "explicit" | not_bound => "not_bound" end).

Definition serverStartValue (action : McpServerStartActionIdentity) : json := JObj [
  jtext "action_kind" (js "mcp.server.start");
  jfield "argv" (JArr (JStr <$> msa_argv action));
  jtext "canonical_cwd" (msa_canonicalCwd action);
  jtext "config_sha256" (msa_configSha256 action);
  jtext "env_mapping_sha256" (msa_envMappingSha256 action);
  jtext "environment_policy_version" (msa_environmentPolicyVersion action);
  jtext "executable_identity_sha256" (msa_executableIdentitySha256 action);
  jtext "integrity_binding" (bindingText (msa_integrityBinding action));
  jtext "integrity_manifest_sha256" (msa_integrityManifestSha256 action);
  jtext "server_id" (msa_serverId action);
  jfield "startup_timeout_ms" (JNum (msa_startupTimeoutMs action))].
Definition computeMcpServerStartActionSha256 (action : McpServerStartActionIdentity) : result IdentityError jstring :=
  sha256Json (serverStartValue action).

Definition toolCallValue (action : McpToolCallActionIdentity) : json := JObj [
  jtext "action_kind" (js "mcp.tool.call");
  jtext "arguments_sha256" (mta_argumentsSha256 action);
  jfield "call_timeout_ms" (JNum (mta_callTimeoutMs action));
  jtext "catalog_sha256" (mta_catalogSha256 action);
  jtext "config_sha256" (mta_configSha256 action);
  jtext "model_tool_name" (mta_modelToolName action);
  jtext "process_identity_sha256" (mta_processIdentitySha256 action);
  jtext "raw_tool_name" (mta_rawToolName action);
  jtext "schema_sha256" (mta_schemaSha256 action);
  jtext "server_id" (mta_serverId action)].
Definition computeMcpToolCallActionSha256 (action : McpToolCallActionIdentity) : result IdentityError jstring :=
  sha256Json (toolCallValue action).

Definition resourceReadValue (action : McpResourceReadActionIdentity) : json := JObj [
  jtext "action_kind" (js "mcp.resource.read");
  jfield "call_timeout_ms" (JNum (mra_callTimeoutMs action));
  jtext "catalog_generation_sha256" (mra_catalogGenerationSha256 action);
  jtext "config_sha256" (mra_configSha256 action);
  jtext "negotiation_sha256" (mra_negotiationSha256 action);
  jtext "process_identity_sha256" (mra_processIdentitySha256 action);
  jtext "resource_id" (mra_resourceId action);
  jtext "resource_item_sha256" (mra_resourceItemSha256 action);
  jtext "server_id" (mra_serverId action);
  jtext "uri_sha256" (mra_uriSha256 action)].
Definition computeMcpResourceReadActionSha256 (action : McpResourceReadActionIdentity)
  : result IdentityError jstring := sha256Json (resourceReadValue action).

Definition promptGetValue (action : McpPromptGetActionIdentity) : json := JObj [
  jtext "action_kind" (js "mcp.prompt.get");
  jtext "arguments_sha256" (mpa_argumentsSha256 action);
  jfield "call_timeout_ms" (JNum (mpa_callTimeoutMs action));
  jtext "catalog_generation_sha256" (mpa_catalogGenerationSha256 action);
  jtext "config_sha256" (mpa_configSha256 action);
  jtext "invocation_event_id" (mpa_invocationEventId action);
  jtext "negotiation_sha256" (mpa_negotiationSha256 action);
  jtext "process_identity_sha256" (mpa_processIdentitySha256 action);
  jtext "prompt_id" (mpa_promptId action);
  jtext "prompt_item_sha256" (mpa_promptItemSha256 action);
  jtext "prompt_name" (mpa_promptName action);
  jtext "server_id" (mpa_serverId action)].
Definition computeMcpPromptGetActionSha256 (action : McpPromptGetActionIdentity) : result IdentityError jstring :=
  sha256Json (promptGetValue action).

(** [&&] over tests, of which the last hashes. *)
Definition verifies (tests : list bool) (computed : result IdentityError jstring) (actionSha256 : jstring)
  : result IdentityError bool :=
  if forallb id tests then digest ← computed; Ok (digest === actionSha256) else Ok false.

Definition verifyMcpPermissionActionIdentity (action : McpPermissionActionIdentity) : result IdentityError bool :=
  match action with
  | McpServerStart a =>
      verifies (SHA256_PATTERN <$> [msa_actionSha256 a; msa_configSha256 a; msa_envMappingSha256 a;
                  msa_executableIdentitySha256 a; msa_integrityManifestSha256 a])
        (computeMcpServerStartActionSha256 a) (msa_actionSha256 a)
  | McpResourceRead a =>
      verifies (SHA256_PATTERN <$> [mra_actionSha256 a; mra_catalogGenerationSha256 a; mra_configSha256 a;
                  mra_negotiationSha256 a; mra_processIdentitySha256 a; mra_resourceItemSha256 a; mra_uriSha256 a])
        (computeMcpResourceReadActionSha256 a) (mra_actionSha256 a)
  | McpPromptGet a =>
      verifies ((SHA256_PATTERN <$> [mpa_actionSha256 a; mpa_argumentsSha256 a; mpa_catalogGenerationSha256 a;
                  mpa_configSha256 a; mpa_negotiationSha256 a; mpa_processIdentitySha256 a; mpa_promptItemSha256 a])
                ++ [sha256 (mpa_argumentsJson a) === mpa_argumentsSha256 a])
        (computeMcpPromptGetActionSha256 a) (mpa_actionSha256 a)
  | McpToolCall a =>
      verifies ((SHA256_PATTERN <$> [mta_actionSha256 a; mta_argumentsSha256 a; mta_catalogSha256 a;
                  mta_configSha256 a; mta_processIdentitySha256 a; mta_schemaSha256 a])
                ++ [sha256 (mta_argumentsJson a) === mta_argumentsSha256 a])
        (computeMcpToolCallActionSha256 a) (mta_actionSha256 a)
  end.

(** *** The start of a server *)

Record McpExecutableIdentity : Type := {
  mei_bytesSha256 : jstring; mei_canonicalIdentitySha256 : jstring; mei_logicalName : jstring;
  mei_versionIdentity : jstring }.
Record McpEnvironmentEntry : Type := { mee_source : jstring; mee_target : jstring }.

(** Of the integrity manifest, what the identity reads. *)
Record McpServerStartActionInput : Type := {
  msi_args : list jstring; msi_canonicalCwd : jstring; msi_configSha256 : jstring;
  msi_env : list McpEnvironmentEntry; msi_environmentPolicyVersion : jstring;
  msi_executable : McpExecutableIdentity; msi_integrityBinding : IntegrityBinding;
  msi_integrityManifestSha256 : jstring; msi_serverId : jstring; msi_startupTimeoutMs : Z }.

Definition environmentKey (entry : McpEnvironmentEntry) : jstring := mee_target entry ++ 0 :: mee_source entry.
Definition environment_le (a b : McpEnvironmentEntry) : Prop := localeLe (environmentKey a) (environmentKey b) = true.
#[export] Instance environment_le_dec a b : Decision (environment_le a b).
Proof. unfold environment_le. apply _. Defined.

Definition createMcpServerStartActionIdentity (input : McpServerStartActionInput)
  : result IdentityError McpServerStartActionIdentity :=
  let executable := msi_executable input in
  _ ← throw_when (negb (isServerId (msi_serverId input))) (mcp_action_invalid "invalid MCP server id");
  _ ← foldM (fun _ '(label, value) =>
               throw_when (negb (nonemptyNulFree value)) (mcp_action_invalid (label +:+ " must be nonempty and NUL-free")))
        [("canonicalCwd"%string, msi_canonicalCwd input);
         ("environmentPolicyVersion"%string, msi_environmentPolicyVersion input);
         ("executable.logicalName"%string, mei_logicalName executable);
         ("executable.versionIdentity"%string, mei_versionIdentity executable)] ();
  _ ← requireSha256 (msi_configSha256 input) "configSha256";
  _ ← requireSha256 (mei_bytesSha256 executable) "executable.bytesSha256";
  _ ← requireSha256 (mei_canonicalIdentitySha256 executable) "executable.canonicalIdentitySha256";
  _ ← requireSha256 (msi_integrityManifestSha256 input) "integrityManifestSha256";
  _ ← requirePositiveInteger (msi_startupTimeoutMs input) "startupTimeoutMs";
  let argv := mei_logicalName executable :: msi_args input in
  _ ← throw_when ((65 <? length argv)%nat || existsb hasNul argv ||
                  (16 * 1024 <? fold_left (fun total argument => total + byteLength argument) (msi_args input) 0))
        (mcp_action_invalid "MCP argv is invalid");
  let env := js_sort environment_le (msi_env input) in
  envMappingSha256 ← sha256Json (JArr ((fun entry =>
      JObj [jtext "source" (mee_source entry); jtext "target" (mee_target entry)]) <$> env));
  executableIdentitySha256 ← sha256Json (JObj [
      jtext "bytes_sha256" (mei_bytesSha256 executable);
      jtext "canonical_identity_sha256" (mei_canonicalIdentitySha256 executable);
      jtext "logical_name" (mei_logicalName executable);
      jtext "version_identity" (mei_versionIdentity executable)]);
  let identity actionSha256 := {|
    msa_actionSha256 := actionSha256; msa_argv := argv; msa_canonicalCwd := msi_canonicalCwd input;
    msa_configSha256 := msi_configSha256 input; msa_envMappingSha256 := envMappingSha256;
    msa_environmentPolicyVersion := msi_environmentPolicyVersion input;
    msa_executableIdentitySha256 := executableIdentitySha256; msa_integrityBinding := msi_integrityBinding input;
    msa_integrityManifestSha256 := msi_integrityManifestSha256 input; msa_serverId := msi_serverId input;
    msa_startupTimeoutMs := msi_startupTimeoutMs input |} in
  actionSha256 ← computeMcpServerStartActionSha256 (identity []);
  Ok (identity actionSha256).

(** *** Calls, reads and prompts *)

(** [argumentsValue] is a JSON value whose numbers are integers. *)
Record McpToolCallActionInput : Type := {
  mti_argumentsValue : json; mti_callTimeoutMs : Z; mti_catalogSha256 : jstring; mti_configSha256 : jstring;
  mti_modelToolName : jstring; mti_processIdentitySha256 : jstring; mti_rawToolName : jstring;
  mti_schemaSha256 : jstring; mti_serverId : jstring }.

Definition createMcpToolCallActionIdentity (input : McpToolCallActionInput)
  : result IdentityError McpToolCallActionIdentity :=
  _ ← throw_when (negb (isServerId (mti_serverId input)) || negb (nonemptyNulFree (mti_rawToolName input)) ||
                  negb (nonemptyNulFree (mti_modelToolName input)))
        (mcp_action_invalid "invalid MCP call tool identity");
  _ ← requireSha256s [("catalogSha256", mti_catalogSha256 input); ("configSha256", mti_configSha256 input);
        ("processIdentitySha256", mti_processIdentitySha256 input); ("schemaSha256", mti_schemaSha256 input)]%string;
  _ ← requirePositiveInteger (mti_callTimeoutMs input) "callTimeoutMs";
  argumentsJson ← match encodedJson (mti_argumentsValue input) with
                  | Ok t => Ok t
                  | Err _ => Err (mcp_action_invalid "MCP arguments are not canonical JSON")
                  end;
  let identity actionSha256 := {|
    mta_actionSha256 := actionSha256; mta_argumentsJson := argumentsJson;
    mta_argumentsSha256 := sha256 argumentsJson; mta_callTimeoutMs := mti_callTimeoutMs input;
    mta_catalogSha256 := mti_catalogSha256 input; mta_configSha256 := mti_configSha256 input;
    mta_modelToolName := mti_modelToolName input; mta_processIdentitySha256 := mti_processIdentitySha256 input;
    mta_rawToolName := mti_rawToolName input; mta_schemaSha256 := mti_schemaSha256 input;
    mta_serverId := mti_serverId input |} in
  actionSha256 ← computeMcpToolCallActionSha256 (identity []);
  Ok (identity actionSha256).

Record McpResourceReadActionInput : Type := {
  mri_callTimeoutMs : Z; mri_catalogGenerationSha256 : jstring; mri_configSha256 : jstring;
  mri_negotiationSha256 : jstring; mri_processIdentitySha256 : jstring; mri_resourceId : jstring;
  mri_resourceItemSha256 : jstring; mri_serverId : jstring; mri_uri : jstring }.

Definition createMcpResourceReadActionIdentity (input : McpResourceReadActionInput)
  : result IdentityError McpResourceReadActionIdentity :=
  _ ← requireSha256s [("catalogGenerationSha256", mri_catalogGenerationSha256 input);
        ("configSha256", mri_configSha256 input); ("negotiationSha256", mri_negotiationSha256 input);
        ("processIdentitySha256", mri_processIdentitySha256 input);
        ("resourceItemSha256", mri_resourceItemSha256 input)]%string;
  _ ← requirePositiveInteger (mri_callTimeoutMs input) "callTimeoutMs";
  _ ← throw_when (negb (isServerId (mri_serverId input)) ||
                  negb (isPrefixedSha256 "mcp-resource:" (mri_resourceId input)) ||
                  negb (nonemptyNulFree (mri_uri input)))
        (mcp_action_invalid "invalid MCP resource action identity");
  let identity actionSha256 := {|
    mra_actionSha256 := actionSha256; mra_callTimeoutMs := mri_callTimeoutMs input;
    mra_catalogGenerationSha256 := mri_catalogGenerationSha256 input; mra_configSha256 := mri_configSha256 input;
    mra_negotiationSha256 := mri_negotiationSha256 input;
    mra_processIdentitySha256 := mri_processIdentitySha256 input; mra_resourceId := mri_resourceId input;
    mra_resourceItemSha256 := mri_resourceItemSha256 input; mra_serverId := mri_serverId input;
    mra_uriSha256 := sha256 (mri_uri input) |} in
  actionSha256 ← computeMcpResourceReadActionSha256 (identity []);
  Ok (identity actionSha256).

(** [argumentsValue] is a record of strings. *)
Record McpPromptGetActionInput : Type := {
  mpi_argumentsValue : list (jstring * jstring); mpi_callTimeoutMs : Z; mpi_catalogGenerationSha256 : jstring;
  mpi_configSha256 : jstring; mpi_invocationEventId : jstring; mpi_negotiationSha256 : jstring;
  mpi_processIdentitySha256 : jstring; mpi_promptId : jstring; mpi_promptItemSha256 : jstring;
  mpi_promptName : jstring; mpi_serverId : jstring }.

Definition createMcpPromptGetActionIdentity (input : McpPromptGetActionInput)
  : result IdentityError McpPromptGetActionIdentity :=
  _ ← requireSha256s [("catalogGenerationSha256", mpi_catalogGenerationSha256 input);
        ("configSha256", mpi_configSha256 input); ("negotiationSha256", mpi_negotiationSha256 input);
        ("processIdentitySha256", mpi_processIdentitySha256 input);
        ("promptItemSha256", mpi_promptItemSha256 input)]%string;
  _ ← requirePositiveInteger (mpi_callTimeoutMs input) "callTimeoutMs";
  _ ← throw_when (negb (isServerId (mpi_serverId input)) ||
                  negb (isPrefixedSha256 "mcp-prompt:" (mpi_promptId input)) ||
                  negb (isEventId (mpi_invocationEventId input)) || negb (nonemptyNulFree (mpi_promptName input)))
        (mcp_action_invalid "invalid MCP prompt action identity");
  argumentsJson ← encodedJson (JObj ((fun '(name, value) => (name, JStr value)) <$> mpi_argumentsValue input));
  let identity actionSha256 := {|
    mpa_actionSha256 := actionSha256; mpa_argumentsJson := argumentsJson;
    mpa_argumentsSha256 := sha256 argumentsJson; mpa_callTimeoutMs := mpi_callTimeoutMs input;
    mpa_catalogGenerationSha256 := mpi_catalogGenerationSha256 input; mpa_configSha256 := mpi_configSha256 input;
    mpa_invocationEventId := mpi_invocationEventId input; mpa_negotiationSha256 := mpi_negotiationSha256 input;
    mpa_processIdentitySha256 := mpi_processIdentitySha256 input; mpa_promptId := mpi_promptId input;
    mpa_promptItemSha256 := mpi_promptItemSha256 input; mpa_promptName := mpi_promptName input;
    mpa_serverId := mpi_serverId input |} in
  actionSha256 ← computeMcpPromptGetActionSha256 (identity []);
  Ok (identity actionSha256).
End Digests.
