(* ===== verification/ActionIdentityFacts.v ===== *)
(** * What the digest of an action says

    The text a digest is computed over determines the action; normalising a
    normal form changes nothing; and an identity that was created verifies. *)

From S2P Require Import Prelude JsString CanonicalJson CanonicalJsonFacts PosixPath SourceSnapshot CompletionFacts Permissions ActionIdentity.
From stdpp Require Import pretty sorting.
From Stdlib Require Import SpecFloat.
#[local] Open Scope Z_scope.

(** ** The text of a digest *)

(** The units of the text of a number. *)
Definition numberUnit (u : Z) : Prop := u = 0x2d \/ u = 0x2b \/ u = 0x2e \/ u = 0x65 \/ 0x30 <= u <= 0x39.

Lemma numeric_numberUnit u : numeric u -> numberUnit u.
Proof. unfold numeric, numberUnit. tauto. Qed.

Lemma numberUnit_prefix a b k k' :
  Forall numberUnit a -> Forall numberUnit b -> delimited k -> delimited k' ->
  a ++ k = b ++ k' -> a = b /\ k = k'.
Proof.
  unfold numberUnit, delimited, comma. intros Ha Hb Hk Hk'. revert b Hb.
  induction Ha as [|x a Hx Ha IH]; intros b Hb H; destruct Hb as [|y b Hy Hb]; simpl in H.
  - done.
  - subst k. simpl in Hk. lia.
  - subst k'. simpl in Hk'. lia.
  - injection H as <- H. by destruct (IH b Hb H) as [-> ->].
Qed.

(** Induction through arrays and objects. *)
Fixpoint digest_nested_ind (P : CanonicalJsonValue -> Prop)
    (HN : P CNull) (HB : forall b, P (CBool b)) (HZ : forall t, P (CNumber t)) (HS : forall s, P (CString s))
    (HA : forall l, Forall P l -> P (CArray l))
    (HO : forall r, Forall (fun kv => P kv.2) r -> P (CObject r)) (v : CanonicalJsonValue) : P v :=
  let ind := digest_nested_ind P HN HB HZ HS HA HO in
  match v with
  | CNull => HN
  | CBool b => HB b
  | CNumber t => HZ t
  | CString s => HS s
  | CArray l => HA l ((fix go l : Forall P l :=
      match l with [] => List.Forall_nil _ | x :: l => @List.Forall_cons _ P x l (ind x) (go l) end) l)
  | CObject r => HO r ((fix go r : Forall (fun kv => P kv.2) r :=
      match r with [] => List.Forall_nil _
      | x :: r => @List.Forall_cons _ (fun kv => P kv.2) x r (ind x.2) (go r) end) r)
  end.

(** Strings of UTF-16 units, texts of numbers, and keys in order. *)
Fixpoint wellFormed (v : CanonicalJsonValue) : Prop :=
  match v with
  | CNull | CBool _ => True
  | CNumber t => t <> [] /\ Forall numberUnit t
  | CString s => Forall isUnit16 s
  | CArray l => fold_right (fun v P => wellFormed v /\ P) True l
  | CObject r => StronglySorted (fun a b => jstring_le a b = true) (fst <$> r) /\
                 fold_right (fun '(k, v) P => (Forall isUnit16 k /\ wellFormed v) /\ P) True r
  end.

Lemma wellFormed_CArray l : wellFormed (CArray l) <-> Forall wellFormed l.
Proof. simpl. induction l as [|v l IH]; simpl; [by split|]. by rewrite Forall_cons, IH. Qed.

Lemma wellFormed_CObject r : wellFormed (CObject r) <->
  StronglySorted (fun a b => jstring_le a b = true) (fst <$> r) /\
  Forall (fun kv => Forall isUnit16 kv.1 /\ wellFormed kv.2) r.
Proof.
  cbn [wellFormed]. apply and_iff_compat_l. induction r as [|[k v] r IH]; simpl; [by split|]. by rewrite Forall_cons, IH.
Qed.

(** The digest text when the keys are in order. *)
Fixpoint printDigest (v : CanonicalJsonValue) : jstring :=
  match v with
  | CNull => js "null"
  | CBool b => js (if b then "true" else "false")
  | CNumber t => t
  | CString s => stringifyString s
  | CArray l => 0x5b :: joinUnit comma (List.map printDigest l) ++ [0x5d]
  | CObject r => 0x7b :: joinUnit comma (List.map (fun '(k, v) => fieldText (k, printDigest v)) r) ++ [0x7d]
  end.

Lemma sorted_keys {A} (r : list (jstring * A)) :
  StronglySorted (fun a b => jstring_le a b = true) (fst <$> r) -> StronglySorted key_le r.
Proof.
  induction r as [|[k v] r IH]; intros H; [constructor|]. cbn [fmap list_fmap fst] in H. inversion_clear H as [|? ? Hs Hf].
  constructor; [by apply IH|]. apply Forall_fmap in Hf. exact Hf.
Qed.

Lemma digestJson_print v : wellFormed v -> actionJson v = printDigest v.
Proof.
  induction v as [| | | |l IH|r IH] using digest_nested_ind; try done.
  - rewrite wellFormed_CArray. intros Hl. cbn [actionJson printDigest]. do 3 f_equal.
    apply List.map_ext_in. intros x Hx. rewrite List.Forall_forall in *. by apply IH; [|apply Hl].
  - rewrite wellFormed_CObject. intros [Hs Hr]. cbn [actionJson printDigest]. do 3 f_equal.
    assert (E : fst <$> List.map (fun '(key, v) => (key, actionJson v)) r = fst <$> r)
      by (clear; induction r as [|[k v] r E]; [done|]; simpl; by f_equal).
    rewrite js_sort_sorted by (apply sorted_keys; by rewrite E). clear E Hs.
    induction IH as [|[k v] r Hv IH IHr]; [done|]. inversion_clear Hr as [|? ? [_ Hw] Hr'].
    cbn [List.map fmap list_fmap]. f_equal; [|by apply IHr]. unfold fieldText. simpl in *. by rewrite Hv.
Qed.

(** The text of a value starts by its kind, with no delimiter. *)
Lemma printDigest_head v : wellFormed v -> exists u r, printDigest v = u :: r /\ u <> comma /\ u <> 0x5d /\ u <> 0x7d /\
  match v with
  | CNull => u = 0x6e | CBool true => u = 0x74 | CBool false => u = 0x66
  | CNumber _ => numberUnit u | CString _ => u = 0x22 | CArray _ => u = 0x5b | CObject _ => u = 0x7b
  end.
Proof.
  intros Hc. assert (Hlit : forall u r (P : Z -> Prop), P u -> u <> comma -> u <> 0x5d -> u <> 0x7d ->
    exists u' r', u :: r = u' :: r' /\ u' <> comma /\ u' <> 0x5d /\ u' <> 0x7d /\ P u') by eauto 10.
  destruct v as [|[]|t|s|l|r].
  - by apply (Hlit 0x6e _ (fun u => u = 0x6e)).
  - by apply (Hlit 0x74 _ (fun u => u = 0x74)).
  - by apply (Hlit 0x66 _ (fun u => u = 0x66)).
  - destruct Hc as [Hne Ht]. destruct Ht as [|u t Hu Ht]; [done|]. exists u, t. unfold numberUnit, comma in *. split_and!; try done; lia.
  - by apply (Hlit 0x22 _ (fun u => u = 0x22)).
  - by apply (Hlit 0x5b _ (fun u => u = 0x5b)).
  - by apply (Hlit 0x7b _ (fun u => u = 0x7b)).
Qed.

Lemma printDigest_kind v w k k' :
  wellFormed v -> wellFormed w -> printDigest v ++ k = printDigest w ++ k' ->
  match v, w with
  | CNull, CNull | CNumber _, CNumber _ | CString _, CString _ | CArray _, CArray _ | CObject _, CObject _ => True
  | CBool a, CBool b => a = b
  | _, _ => False
  end.
Proof.
  intros Hv Hw H.
  destruct (printDigest_head v Hv) as (u & r & Ev & _ & _ & _ & Hu).
  destruct (printDigest_head w Hw) as (u' & r' & Ew & _ & _ & _ & Hu').
  rewrite Ev, Ew in H. simpl in H. injection H as <- _. unfold numberUnit in *.
  destruct v as [|[]| | | |], w as [|[]| | | |]; try done; lia.
Qed.

Lemma printDigest_decodes v : wellFormed v -> print_decodes printDigest wellFormed v.
Proof.
  induction v as [|b|t|s|l IH|r IH] using digest_nested_ind; intros Hv w k k' Hw Hk Hk' H;
    pose proof (printDigest_kind _ _ _ _ Hv Hw H) as Hkind; destruct w as [|b'|t'|s'|l'|r']; try done.
  - by apply app_inv_head in H.
  - subst b'. by apply app_inv_head in H.
  - destruct Hv, Hw. cbn [printDigest] in H. by apply numberUnit_prefix in H as [-> ->].
  - by apply stringifyString_inj in H as [-> ->].
  - cbn [printDigest app] in H. injection H as H. rewrite <-!app_assoc in H.
    apply wellFormed_CArray in Hv, Hw.
    destruct (separated_inj printDigest wellFormed 0x5d (or_introl eq_refl)
      (fun a Ha => let '(ex_intro _ u (ex_intro _ r (conj E (conj _ (conj N _))))) := printDigest_head a Ha in
                   ex_intro _ u (ex_intro _ r (conj E N))) l l' k k' Hv) as [-> ->]; try done.
    rewrite List.Forall_forall in *. eauto.
  - cbn [printDigest app] in H. injection H as H. rewrite <-!app_assoc in H.
    apply wellFormed_CObject in Hv as [_ Hv], Hw as [_ Hw].
    assert (Hmap : forall q : list (jstring * CanonicalJsonValue),
      List.map (fun '(k, v) => fieldText (k, printDigest v)) q =
      List.map (fun kv => fieldText (kv.1, printDigest kv.2)) q) by (intros; apply List.map_ext; by intros []).
    rewrite !Hmap in H.
    destruct (separated_inj (fun kv : jstring * CanonicalJsonValue => fieldText (kv.1, printDigest kv.2))
      (fun kv => Forall isUnit16 kv.1 /\ wellFormed kv.2) 0x7d (or_intror eq_refl)) with (l := r) (l' := r')
      (k := k) (k' := k') as [-> ->]; try done.
    + intros [x v] _. unfold fieldText, stringifyString. simpl. do 2 eexists. split; [reflexivity|lia].
    + rewrite List.Forall_forall in *. intros [x v] Hin. destruct (Hv _ Hin) as [Hx Hcv]. simpl in *.
      intros [y w] q q' [Hy Hcw] Hq Hq' E. unfold fieldText in E. cbn [fst snd] in *. rewrite <-!app_assoc in E.
      apply stringifyString_inj in E as [-> E]; [|done|done]. cbn [app] in E. injection E as E.
      destruct (IH _ Hin Hcv w q q' Hcw Hq Hq' E) as [E1 ->]. simpl in E1. by subst.
Qed.

(** The text of a digest determines its value. *)
Lemma actionJson_inj v w : wellFormed v -> wellFormed w -> actionJson v = actionJson w -> v = w.
Proof.
  intros Hv Hw H. rewrite !digestJson_print in H by done.
  apply (printDigest_decodes v Hv w [] []); [done..|]. by rewrite !app_nil_r.
Qed.

(** ** Values whose strings are UTF-16 *)

Fixpoint strings16 (v : CanonicalJsonValue) : Prop :=
  match v with
  | CNull | CBool _ | CNumber _ => True
  | CString s => Forall isUnit16 s
  | CArray l => fold_right (fun v P => strings16 v /\ P) True l
  | CObject r => fold_right (fun '(k, v) P => (Forall isUnit16 k /\ strings16 v) /\ P) True r
  end.

(** Every key before the next. *)
Fixpoint keysInOrder (keys : list jstring) : bool :=
  match keys with
  | a :: (b :: _) as rest => jstring_le a b && keysInOrder rest
  | _ => true
  end.

Lemma keysInOrder_sorted keys : keysInOrder keys = true -> StronglySorted (fun a b => jstring_le a b = true) keys.
Proof.
  intros H. apply Sorted.Sorted_StronglySorted; [intros ???; apply jstring_le_trans|].
  induction keys as [|a [|b keys] IH]; [constructor|by repeat constructor|].
  cbn [keysInOrder] in H. apply andb_true_iff in H as [Hab H]. constructor; [by apply IH|by constructor].
Qed.

Lemma wellFormed_fields r :
  keysInOrder (fst <$> r) = true -> strings16 (CObject r) -> Forall (fun kv => strings16 kv.2 -> wellFormed kv.2) r ->
  wellFormed (CObject r).
Proof.
  intros Hk Hs Hr. apply wellFormed_CObject. split; [by apply keysInOrder_sorted|]. simpl in Hs. clear Hk.
  induction Hr as [|[k v] r Hv Hr IH]; [constructor|]. destruct Hs as [[Hk Hv'] Hs]. constructor; [|by apply IH].
  split; [done|]. by apply Hv.
Qed.

Lemma wellFormed_entries {A} (f : A -> CanonicalJsonValue) l :
  (forall a, strings16 (f a) -> wellFormed (f a)) -> strings16 (CArray (f <$> l)) -> wellFormed (CArray (f <$> l)).
Proof.
  intros Hf. rewrite wellFormed_CArray. cbn [strings16]. induction l as [|a l IH]; [by constructor|].
  intros [Ha Hl]. constructor; [by apply Hf|by apply IH].
Qed.

Lemma CInt_inj n m : CInt n = CInt m -> n = m.
Proof.
  unfold CInt. intros [= H]. by destruct (stringifyNumber_inj n m [] []) as [-> _]; rewrite ?app_nil_r.
Qed.

Lemma CInt_wellFormed n : wellFormed (CInt n).
Proof.
  split; [destruct (stringifyNumber_head n) as (u & r & -> & _); done|].
  eapply list.Forall_impl; [apply stringifyNumber_numeric|]. apply numeric_numberUnit.
Qed.

Lemma nullable_inj {A} (f : A -> CanonicalJsonValue) o o' :
  (forall a b, f a = f b -> a = b) -> (forall a, f a <> CNull) -> nullable f o = nullable f o' -> o = o'.
Proof.
  intros Hf Hn. destruct o as [a|], o' as [b|]; cbn [nullable]; intros H; [|by destruct (Hn a)|by destruct (Hn b)|done].
  f_equal. by apply Hf.
Qed.
#[export] Instance CString_inj : Inj (=) (=) CString.
Proof. by intros ?? [=]. Qed.
Lemma nullableString_inj o o' : nullable CString o = nullable CString o' -> o = o'.
Proof. apply nullable_inj; [by intros ?? [=]|done]. Qed.

Lemma nullableString_wellFormed o : strings16 (nullable CString o) -> wellFormed (nullable CString o).
Proof. by destruct o. Qed.

(** Fields one by one. *)
Ltac well_formed_fields :=
  apply wellFormed_fields; [vm_compute; reflexivity|assumption|repeat first [apply List.Forall_nil|apply List.Forall_cons]]; cbn [snd cfield].

Lemma persisted_wellFormed identity :
  strings16 (persistDockerExecutionImageIdentity identity) -> wellFormed (persistDockerExecutionImageIdentity identity).
Proof.
  destruct identity as [r c|build]; intros H; cbn [persistDockerExecutionImageIdentity] in *; well_formed_fields; try done.
  by apply wellFormed_entries.
Qed.

Lemma persistedIdentity_inj i j : persistDockerExecutionImageIdentity i = persistDockerExecutionImageIdentity j -> i = j.
Proof.
  destruct i as [r c|[a l d x b c]], j as [r' c'|[a' l' d' x' b' c']]; cbn; intros H; try discriminate H.
  - by injection H as -> ->.
  - injection H as -> -> Hb -> -> ->. by apply (inj (fmap CString)) in Hb as ->.
Qed.

(** ** The digest of a command *)

Lemma binaryForDigest_inj a b : binaryForDigest a = binaryForDigest b -> a = b.
Proof. destruct a, b. cbn. by intros [= -> -> ->]. Qed.

Lemma environmentPolicyForDigest_inj a b : environmentPolicyForDigest a = environmentPolicyForDigest b -> a = b.
Proof. destruct a, b. cbn. intros [= -> Hn ->]. by apply (inj (fmap CString)) in Hn as ->. Qed.

Lemma packageManagerForDigest_inj a b : packageManagerForDigest a = packageManagerForDigest b -> a = b.
Proof.
  apply nullable_inj; [|done]. intros [] [] H. injection H as H1 H2 H3 -> ->. f_equal.
  apply binaryForDigest_inj. unfold binaryForDigest. by rewrite H1, H2, H3.
Qed.

Lemma lifecycleForDigest_inj a b : lifecycleForDigest a = lifecycleForDigest b -> a = b.
Proof.
  apply nullable_inj; [|done]. intros [] [] H. cbn in H. injection H as -> Hpost Hpre ->.
  by rewrite (nullableString_inj _ _ Hpost), (nullableString_inj _ _ Hpre).
Qed.

#[export] Instance runnerConfigForDigest_inj : Inj (=) (=) runnerConfigForDigest.
Proof. intros [] []. cbn. by intros [= -> ->]. Qed.

Lemma executionInputsForDigest_inj a b : executionInputsForDigest a = executionInputsForDigest b -> a = b.
Proof.
  destruct a, b. cbn. intros H. injection H as Hl Hm Hr.
  rewrite (nullableString_inj _ _ Hl), (nullableString_inj _ _ Hm). by apply (inj (fmap runnerConfigForDigest)) in Hr as ->.
Qed.

Lemma purposeText_inj a b : purposeText a = purposeText b -> a = b.
Proof. by destruct a, b. Qed.

Lemma binary_wellFormed b : strings16 (binaryForDigest b) -> wellFormed (binaryForDigest b).
Proof. intros H. well_formed_fields; done. Qed.

Lemma executionInputs_wellFormed action :
  strings16 (executionInputsDigestValue action) -> wellFormed (executionInputsDigestValue action).
Proof.
  intros H. well_formed_fields; clear H.
  - apply binary_wellFormed.
  - intros H. well_formed_fields; try apply nullableString_wellFormed.
    apply wellFormed_entries. clear H. intros entry H. well_formed_fields; done.
  - destruct (ca_lifecycleScripts action); [|done]. intros H. cbn [lifecycleForDigest nullable] in *.
    well_formed_fields; try done; apply nullableString_wellFormed.
  - destruct (ca_packageManager action); [|done]. intros H. cbn [packageManagerForDigest nullable] in *.
    well_formed_fields; try done. apply binary_wellFormed.
Qed.

Lemma cons_eq {A} (x y : A) l k : x :: l = y :: k -> x = y /\ l = k.
Proof. by intros [= -> ->]. Qed.

(** The equal values of equal objects, field by field. *)
Definition fieldValues (v : CanonicalJsonValue) : list CanonicalJsonValue :=
  match v with CObject r => snd <$> r | _ => [] end.
Ltac split_fields H :=
  apply (f_equal fieldValues) in H; cbn [fieldValues fmap list_fmap app cfield snd] in H;
  repeat (let E := fresh "E" in apply cons_eq in H as [E H]); clear H.

Lemma executionInputsDigestValue_inj a b :
  executionInputsDigestValue a = executionInputsDigestValue b ->
  ca_binary a = ca_binary b /\ ca_executionInputs a = ca_executionInputs b /\
  ca_lifecycleScripts a = ca_lifecycleScripts b /\ ca_packageManager a = ca_packageManager b.
Proof.
  intros H. unfold executionInputsDigestValue in H. split_fields H.
  split_and!; [by apply binaryForDigest_inj|by apply executionInputsForDigest_inj|by apply lifecycleForDigest_inj|
    by apply packageManagerForDigest_inj].
Qed.

Section Binding.
Context (sha256 : jstring -> jstring) (numberText : spec_float -> jstring).

(** What an accepted number of CPUs is. *)
Definition cpuNumber (x : spec_float) : Prop :=
  isJsNumber x = true /\ isFinite x = true /\ SFltb x quarter = false /\ SFltb eight x = false.

(** The text of such a number is its own. *)
Definition namesNumbers : Prop :=
  (forall x, cpuNumber x -> numberText x <> [] /\ Forall numberUnit (numberText x)) /\
  (forall x y, cpuNumber x -> cpuNumber y -> numberText x = numberText y -> x = y).

Definition cpusAreNumber (action : NormalizedCommandAction) : Prop :=
  match ca_executionEnvironment action with
  | Some environment => cpuNumber (drl_cpus (dce_resourceLimits environment))
  | None => True
  end.

Notation dockerValue := (dockerEnvironmentForDigest numberText).
Notation actionValue := (actionDigestValue sha256 numberText).

Lemma limits_wellFormed limits :
  namesNumbers -> cpuNumber (drl_cpus limits) -> strings16 (resourceLimitsForDigest numberText limits) ->
  wellFormed (resourceLimitsForDigest numberText limits).
Proof. intros [Hn _] Hc H. well_formed_fields; intros _; try apply CInt_wellFormed. by apply Hn. Qed.

Lemma docker_wellFormed environment :
  namesNumbers -> cpuNumber (drl_cpus (dce_resourceLimits environment)) -> strings16 (dockerValue environment) ->
  wellFormed (dockerValue environment).
Proof.
  intros Hn Hc H. unfold dockerEnvironmentForDigest, optional in *.
  destruct (dce_imageIdentity environment) as [identity|]; cbn [app] in *; well_formed_fields; try done.
  - apply persisted_wellFormed.
  - by apply limits_wellFormed.
  - by apply limits_wellFormed.
Qed.

Lemma environmentPolicy_wellFormed policy :
  strings16 (environmentPolicyForDigest policy) -> wellFormed (environmentPolicyForDigest policy).
Proof. intros H. well_formed_fields; try done. by apply wellFormed_entries. Qed.

Lemma action_wellFormed action :
  namesNumbers -> cpusAreNumber action -> strings16 (actionValue action) -> wellFormed (actionValue action).
Proof.
  intros Hn Hc H. unfold cpusAreNumber in Hc. unfold actionDigestValue, optional in *.
  destruct (ca_executionEnvironment action) as [environment|]; cbn [app] in *; well_formed_fields; try done;
    try (intros _; apply CInt_wellFormed); try (by apply wellFormed_entries); try apply environmentPolicy_wellFormed.
  by apply docker_wellFormed.
Qed.

Lemma limits_inj l k :
  namesNumbers -> cpuNumber (drl_cpus l) -> cpuNumber (drl_cpus k) ->
  resourceLimitsForDigest numberText l = resourceLimitsForDigest numberText k -> l = k.
Proof.
  intros [_ Hn] Hl Hk H. destruct l, k. unfold resourceLimitsForDigest in H. cbn in Hl, Hk.
  split_fields H. injection E as E%Hn; [|done|done]. apply CInt_inj in E0, E1, E2. cbn in *. by subst.
Qed.

Lemma docker_inj a b :
  namesNumbers -> cpuNumber (drl_cpus (dce_resourceLimits a)) -> cpuNumber (drl_cpus (dce_resourceLimits b)) ->
  dockerValue a = dockerValue b -> a = b.
Proof.
  intros Hn Ha Hb H. destruct a as [e d i r n p l s c w], b as [e' d' i' r' n' p' l' s' c' w'].
  cbn in Ha, Hb. unfold dockerEnvironmentForDigest, optional in H. cbn in H.
  assert (Hi : i = i' /\ l = l'); [|destruct i as [i|], i' as [i'|]; destruct Hi; by simplify_eq/=].
  destruct i as [i|], i' as [i'|]; [|discriminate H|discriminate H|]; split_fields H.
  - split; [by f_equal; apply persistedIdentity_inj|by apply limits_inj].
  - split; [done|by apply limits_inj].
Qed.

(** The actions of a model whose numbers and strings are JavaScript's. *)
Definition jsAction (action : NormalizedCommandAction) : Prop :=
  cpusAreNumber action /\ strings16 (executionInputsDigestValue action) /\ strings16 (actionValue action).

Lemma environment_option_inj (a b : option DockerCommandEnvironmentIdentity) before after before' after' :
  namesNumbers -> length before = length before' -> length after = length after' ->
  match a with Some e => cpuNumber (drl_cpus (dce_resourceLimits e)) | None => True end ->
  match b with Some e => cpuNumber (drl_cpus (dce_resourceLimits e)) | None => True end ->
  before ++ optional "executionEnvironment" dockerValue a ++ after =
  before' ++ optional "executionEnvironment" dockerValue b ++ after' -> a = b /\ before = before' /\ after = after'.
Proof.
  intros Hn Hl Hl' Ha Hb H. apply app_inj_1 in H as [-> H]; [|done].
  assert (Hs : length (optional "executionEnvironment" dockerValue a) =
               length (optional "executionEnvironment" dockerValue b)).
  { apply (f_equal length) in H. rewrite !length_app in H. lia. }
  apply app_inj_1 in H as [H ->]; [|done]. split; [|done]. destruct a as [a|], b as [b|]; cbn [optional] in H; try done.
  apply cons_eq in H as [H _]. apply (f_equal snd) in H. f_equal. by apply docker_inj.
Qed.

(** Equal digests of two actions are equal actions. *)
Lemma action_digest_inj a b :
  (forall s t, sha256 s = sha256 t -> s = t) -> namesNumbers -> jsAction a -> jsAction b ->
  computeActionSha256 sha256 numberText a = computeActionSha256 sha256 numberText b -> a = b.
Proof.
  intros Hsha Hn (Ca & Ia & Va) (Cb & Ib & Vb) H. apply Hsha in H.
  apply actionJson_inj in H; [|by apply action_wellFormed..].
  assert (Hr : forall r r', CObject r = CObject r' -> r = r') by (by intros ?? [=]).
  apply Hr, (environment_option_inj _ _ [_; _; _; _] [_; _; _; _; _] [_; _; _; _] [_; _; _; _; _]) in H
    as (Henv & Hbefore & Hafter); try done.
  apply (f_equal (fmap snd)) in Hbefore, Hafter. cbn [fmap list_fmap cfield snd] in Hbefore, Hafter.
  apply cons_eq in Hbefore as [_ Hbefore]. apply cons_eq in Hbefore as [Hargv Hbefore].
  apply cons_eq in Hbefore as [Hcwd Hbefore]. apply cons_eq in Hbefore as [Hpolicy _].
  apply cons_eq in Hafter as [Hinputs Hafter]. apply cons_eq in Hafter as [Hexe Hafter].
  apply cons_eq in Hafter as [Hout%CInt_inj Hafter]. apply cons_eq in Hafter as [Hpurpose Hafter].
  apply cons_eq in Hafter as [Htime%CInt_inj _].
  injection Hargv as Hargv%(inj (fmap CString)). apply (inj CString) in Hcwd, Hinputs, Hexe, Hpurpose.
  apply environmentPolicyForDigest_inj in Hpolicy. apply purposeText_inj in Hpurpose.
  apply Hsha, actionJson_inj, executionInputsDigestValue_inj in Hinputs as (Hb & Hi & Hl & Hp);
    [|by apply executionInputs_wellFormed..].
  destruct a, b. cbn in *. by subst.
Qed.
End Binding.

(** ** MCP actions *)

Definition mcpActionSha256 (action : McpPermissionActionIdentity) : jstring :=
  match action with
  | McpServerStart a => msa_actionSha256 a | McpToolCall a => mta_actionSha256 a
  | McpResourceRead a => mra_actionSha256 a | McpPromptGet a => mpa_actionSha256 a
  end.

(** The value its digest is over. *)
Definition mcpValue (action : McpPermissionActionIdentity) : json :=
  match action with
  | McpServerStart a => serverStartValue a | McpToolCall a => toolCallValue a
  | McpResourceRead a => resourceReadValue a | McpPromptGet a => promptGetValue a
  end.

Lemma map_canon_strings l : List.map canon (JStr <$> l) = JStr <$> l.
Proof. induction l as [|s l IH]; [done|]. cbn [fmap list_fmap List.map canon]. by rewrite IH. Qed.

Lemma mcpValue_canon action : canon (mcpValue action) = mcpValue action.
Proof.
  destruct action as [[]|[]|[]|[]]; [|vm_compute; reflexivity..].
  assert (E : forall k l c cs e p x b i s t,
    canon (JObj [jtext "action_kind" k; jfield "argv" (JArr l); jtext "canonical_cwd" c; jtext "config_sha256" cs;
      jtext "env_mapping_sha256" e; jtext "environment_policy_version" p; jtext "executable_identity_sha256" x;
      jtext "integrity_binding" b; jtext "integrity_manifest_sha256" i; jtext "server_id" s;
      jfield "startup_timeout_ms" (JNum t)]) =
    JObj [jtext "action_kind" k; jfield "argv" (JArr (List.map canon l)); jtext "canonical_cwd" c;
      jtext "config_sha256" cs; jtext "env_mapping_sha256" e; jtext "environment_policy_version" p;
      jtext "executable_identity_sha256" x; jtext "integrity_binding" b; jtext "integrity_manifest_sha256" i;
      jtext "server_id" s; jfield "startup_timeout_ms" (JNum t)]) by (intros; vm_compute; reflexivity).
  cbn [mcpValue]. unfold serverStartValue. by rewrite E, map_canon_strings.
Qed.

#[export] Instance JStr_inj : Inj (=) (=) JStr.
Proof. by intros ?? [=]. Qed.

Lemma bindingText_inj a b : bindingText a = bindingText b -> a = b.
Proof. destruct a, b; intros H; try done; by apply js_inj in H. Qed.

Section McpBinding.
Context (sha256 : jstring -> jstring).
Notation verify := (verifyMcpPermissionActionIdentity sha256).

Lemma verifies_true tests computed digest :
  verifies tests computed digest = Ok true -> forallb id tests = true /\ computed = Ok digest.
Proof.
  unfold verifies. destruct (forallb id tests); [|by intros [=]]. intros (d & -> & H)%bind_ok. split; [done|].
  injection H as H. by apply bool_decide_eq_true in H as ->.
Qed.

Lemma verify_digest action : verify action = Ok true -> sha256Json sha256 (mcpValue action) = Ok (mcpActionSha256 action).
Proof. destruct action as [a|a|a|a]; by intros [_ H]%verifies_true. Qed.

Lemma sha256Json_inj v w d :
  (forall s t, sha256 s = sha256 t -> s = t) -> units16 v -> units16 w ->
  sha256Json sha256 v = Ok d -> sha256Json sha256 w = Ok d -> canon v = canon w.
Proof.
  intros Hsha Hv Hw. unfold sha256Json, encodedJson.
  destruct (canonicalJson v) as [t|[]] eqn:Ev; [|done]. destruct (canonicalJson w) as [u|[]] eqn:Ew; [|done].
  intros [= <-] [= E%Hsha]. subst u. by eapply canonicalJson_injective.
Qed.

(** The digest of a verified MCP action names it. *)
Lemma mcp_digest_inj a b :
  (forall s t, sha256 s = sha256 t -> s = t) -> units16 (mcpValue a) -> units16 (mcpValue b) ->
  verify a = Ok true -> verify b = Ok true -> mcpActionSha256 a = mcpActionSha256 b -> a = b.
Proof.
  intros Hsha Ua Ub Va Vb E.
  assert (Hv : mcpValue a = mcpValue b).
  { rewrite <-(mcpValue_canon a), <-(mcpValue_canon b). eapply sha256Json_inj; [done..|by apply verify_digest|].
    rewrite E. by apply verify_digest. }
  clear Ua Ub. destruct a as [a|a|a|a], b as [b|b|b|b];
    try (exfalso; apply (f_equal (fun v => match v with JObj ((_, k) :: _) => k | _ => JNull end)) in Hv;
         injection Hv; done); f_equal.
  - destruct a, b. cbn in *. injection Hv as Hargv -> -> -> -> -> Hb -> -> ->.
    apply (inj (fmap JStr)) in Hargv as ->. apply bindingText_inj in Hb. by subst.
  - apply verifies_true in Va as [Va _], Vb as [Vb _]. cbn in Va, Vb. rewrite !andb_true_iff in *.
    unfold id in Va, Vb. destruct a, b. cbn in *. injection Hv. intros. destruct_and!.
    repeat match goal with H : bool_decide _ = true |- _ => apply bool_decide_eq_true_1 in H end. subst.
    f_equal; first [by apply Hsha; congruence|congruence].
  - destruct a, b. cbn in *. injection Hv. intros. by subst.
  - apply verifies_true in Va as [Va _], Vb as [Vb _]. cbn in Va, Vb. rewrite !andb_true_iff in *.
    unfold id in Va, Vb. destruct a, b. cbn in *. injection Hv. intros. destruct_and!.
    repeat match goal with H : bool_decide _ = true |- _ => apply bool_decide_eq_true_1 in H end. subst.
    f_equal; first [by apply Hsha; congruence|congruence].
Qed.

(** *** What was created verifies *)

Context (localeLe : jstring -> jstring -> bool) (hex : forall t, SHA256_PATTERN (sha256 t) = true).

Lemma sha256Json_hex v d : sha256Json sha256 v = Ok d -> SHA256_PATTERN d = true.
Proof. unfold sha256Json. intros (t & _ & [= <-])%bind_ok. apply hex. Qed.

Lemma verifies_intro tests computed digest :
  Forall (fun b => b = true) tests -> computed = Ok digest -> verifies tests computed digest = Ok true.
Proof.
  intros Ht ->. unfold verifies. assert (forallb id tests = true) as ->.
  { clear digest. by induction Ht as [|b l -> _ IH]. }
  cbn. by rewrite bool_decide_eq_true_2.
Qed.

Ltac tests_hold := repeat first [apply List.Forall_nil | apply List.Forall_cons]; try done; try apply hex;
  try (by eapply sha256Json_hex); try (by apply bool_decide_eq_true_2).

Lemma created_start_verifies input action :
  createMcpServerStartActionIdentity sha256 localeLe input = Ok action -> verify (McpServerStart action) = Ok true.
Proof.
  unfold createMcpServerStartActionIdentity, requireSha256. intros H. returns.
  apply verifies_intro; [tests_hold|done].
Qed.

Lemma created_call_verifies input action :
  createMcpToolCallActionIdentity sha256 input = Ok action -> verify (McpToolCall action) = Ok true.
Proof.
  unfold createMcpToolCallActionIdentity, requireSha256s, requireSha256. intros H. returns.
  repeat case_match; returns; try done. apply verifies_intro; [tests_hold|done].
Qed.

Lemma created_read_verifies input action :
  createMcpResourceReadActionIdentity sha256 input = Ok action -> verify (McpResourceRead action) = Ok true.
Proof.
  unfold createMcpResourceReadActionIdentity, requireSha256s, requireSha256. intros H. returns.
  repeat case_match; returns; try done. apply verifies_intro; [tests_hold|done].
Qed.

Lemma created_prompt_verifies input action :
  createMcpPromptGetActionIdentity sha256 input = Ok action -> verify (McpPromptGet action) = Ok true.
Proof.
  unfold createMcpPromptGetActionIdentity, requireSha256s, requireSha256. intros H. returns.
  repeat case_match; returns; try done. apply verifies_intro; [tests_hold|done].
Qed.
End McpBinding.

(** ** Normal forms *)

Lemma includes_unit s u : includes s [u] = true <-> u ∈ s.
Proof.
  induction s as [|v s IH].
  - split; [done|set_solver].
  - cbn [includes]. rewrite orb_true_iff, IH, elem_of_cons. apply or_iff_compat_r. cbn [startsWith].
    rewrite andb_true_iff, Z.eqb_eq. destruct s; split; naive_solver.
Qed.

Lemma replaceUnit_absent a b s : a ∉ s -> replaceUnit a b s = s.
Proof.
  unfold replaceUnit. induction s as [|u s IH]; intros H; [done|]. cbn [fmap list_fmap].
  apply not_elem_of_cons in H as [Hu Hs]. rewrite IH by done. destruct (Z.eqb_spec u a); congruence.
Qed.

Lemma replaceUnit_elem a b s u : u ∈ replaceUnit a b s -> u ∈ s /\ u <> a \/ u = b.
Proof.
  unfold replaceUnit. intros (v & -> & Hv)%list_elem_of_fmap. destruct (Z.eqb_spec v a); [by right|by left].
Qed.

Lemma startsWith_slash s : startsWith s [slash] = posixIsAbsolute s.
Proof. done. Qed.

Lemma startsWith_slashes s : startsWith s [slash; slash] = true -> posixIsAbsolute s = true.
Proof.
  destruct s as [|u s]; [done|]. rewrite absolute_cons. cbn [startsWith]. by intros [H _]%andb_true_iff.
Qed.

Lemma win32_relative s :
  backslash ∉ s -> posixIsAbsolute s = false -> hasDriveLetter s = false -> win32IsAbsolute s = false.
Proof.
  intros Hb Ha Hd. destruct s as [|u s]; [done|]. rewrite absolute_cons in Ha. cbn [win32IsAbsolute].
  assert (u <> backslash) by set_solver. unfold isPathSeparator at 1.
  rewrite Z.eqb_sym in Ha. rewrite Ha. rewrite (proj2 (Z.eqb_neq u backslash)) by done. cbn [orb].
  destruct s as [|v [|w s]]; [done|done|]. cbn [hasDriveLetter] in Hd. by rewrite Hd.
Qed.

Definition absolutePath : IdentityError := type_error "workspace-relative path must not be absolute".

(** What the result of a canonicalisation is. *)
Record CanonicalPath (p : jstring) : Prop := {
  cp_nul : hasNul p = false; cp_backslash : backslash ∉ p; cp_relative : posixIsAbsolute p = false;
  cp_nonempty : p <> []; cp_normal : posixNormalize p = p; cp_inside : climbs p = false }.

Lemma canonicalize_canonical value p : canonicalizeWorkspaceRelativePath value = Ok p -> CanonicalPath p.
Proof.
  unfold canonicalizeWorkspaceRelativePath, assertPlainString.
  intros (x & Hnul & H)%bind_ok. apply throw_when_ok in Hnul. cbv zeta in H.
  apply bind_ok in H as (y & Habs & H). apply throw_when_ok in Habs. apply bind_ok in H as (z & Hesc & H).
  apply throw_when_ok in Hesc. clear x y z. rewrite !orb_false_iff in Habs. destruct Habs as (((Habs & _) & _) & _).
  set (f := replaceUnit backslash slash value) in *. set (s := if f === [] then dot else f) in *.
  assert (Ha : posixIsAbsolute s = false) by (unfold s; destruct (f === []); [vm_compute; reflexivity|exact Habs]).
  assert (Hc : climbs s = false) by exact Hesc.
  pose proof (normalize_nonempty s) as Hne. rewrite bool_decide_eq_false_2 in H by done. injection H as <-.
  assert (Hu : forall u, u ∈ posixNormalize s -> u <> backslash /\ u <> 0).
  { intros u [Hu|[Hu|Hu]]%normalize_relative_units; [|set_solver|by subst|done|done].
    assert (Hf : u ∈ dot \/ u ∈ f) by (unfold s in Hu; destruct (f === []); tauto).
    destruct Hf as [Hf|[[Hf Hb]| ->]%replaceUnit_elem]; [set_solver| |done]. split; [done|]. intros ->.
    apply (proj2 (includes_unit value 0)) in Hf. unfold hasNul in Hnul. congruence. }
  split; [|by intros []%Hu|by apply normalize_relative_head|done|by apply normalize_idem|].
  - apply not_true_iff_false. unfold hasNul. rewrite includes_unit. by intros []%Hu.
  - unfold climbs in *. by rewrite normalize_idem.
Qed.

(** A canonical path is its own, unless it looks like a drive. *)
Lemma canonicalize_fix p : CanonicalPath p ->
  canonicalizeWorkspaceRelativePath p = if hasDriveLetter p then Err absolutePath else Ok p.
Proof.
  intros [Hn Hb Ha Hne Hp Hc]. unfold canonicalizeWorkspaceRelativePath, assertPlainString. rewrite Hn.
  cbn [throw_when]. rewrite replaceUnit_absent by done. unfold mbind at 1. cbn [result_bind]. cbv zeta.
  rewrite (bool_decide_eq_false_2 _ Hne), Hp.
  assert (Hs : startsWith p [slash; slash] = false).
  { apply not_true_iff_false. intros ?%startsWith_slashes. congruence. }
  rewrite startsWith_slash, Ha, Hs. cbn [orb]. destruct (hasDriveLetter p) eqn:Hd; [done|].
  rewrite win32_relative by done. unfold climbs in Hc. rewrite Hp in Hc. cbn [orb throw_when].
  unfold mbind. cbn [result_bind]. rewrite Hc. cbn [throw_when]. by rewrite bool_decide_eq_false_2.
Qed.

(** *** Program names *)

Definition trimmed (s : jstring) : Prop :=
  (forall u, head s = Some u -> isJsSpace u = false) /\ (forall u, last s = Some u -> isJsSpace u = false).

Lemma trimStart_head s u : head (trimStart s) = Some u -> isJsSpace u = false.
Proof.
  induction s as [|v s IH]; [done|]. cbn [trimStart]. destruct (isJsSpace v) eqn:E; [done|]. by intros [= <-].
Qed.

Lemma trimStart_fix s : (forall u, head s = Some u -> isJsSpace u = false) -> trimStart s = s.
Proof. destruct s as [|v s]; [done|]. intros H. cbn [trimStart]. by rewrite (H v). Qed.

Lemma trimStart_suffix s : exists k, s = k ++ trimStart s.
Proof.
  induction s as [|v s (k & E)]; [by exists []|]. cbn [trimStart].
  destruct (isJsSpace v); [exists (v :: k); cbn; by f_equal|by exists []].
Qed.

Lemma trim_trimmed s : trimmed (trim s).
Proof.
  unfold trim, trimEnd. set (r := trimStart s). split; intros u Hu.
  - destruct (trimStart_suffix (reverse r)) as (k & E). apply (f_equal reverse) in E.
    rewrite reverse_involutive, reverse_app in E. apply (trimStart_head s). fold r. rewrite E.
    destruct (reverse (trimStart (reverse r))); [done|]. exact Hu.
  - rewrite last_reverse in Hu. by eapply trimStart_head.
Qed.

Lemma trim_fix s : trimmed s -> trim s = s.
Proof.
  intros [Hh Hl]. unfold trim, trimEnd. rewrite (trimStart_fix s) by done.
  rewrite trimStart_fix; [apply reverse_involutive|]. intros u Hu. apply Hl. by rewrite <-(reverse_involutive s), last_reverse.
Qed.

Definition lowerUnit (u : Z) : jstring := toLowerCase [u].

Lemma toLowerCase_cons u s : toLowerCase (u :: s) = lowerUnit u ++ toLowerCase s.
Proof. unfold lowerUnit. cbn [toLowerCase]. by rewrite app_nil_r. Qed.

Lemma toLowerCase_app s t : toLowerCase (s ++ t) = toLowerCase s ++ toLowerCase t.
Proof. induction s as [|u s IH]; [done|]. by rewrite <-app_comm_cons, !toLowerCase_cons, IH, app_assoc. Qed.

(** The lower case of a unit: not empty, its own lower case, and with no space
    or NUL that the unit is not. *)
Lemma lowerUnit_cases u :
  lowerUnit u = [u] /\ ~ (0x41 <= u <= 0x5a) /\ u <> 0x212a /\ u <> 0x130 \/
  lowerUnit u = [u + 32] /\ 0x41 <= u <= 0x5a \/ lowerUnit u = [0x6b] \/ lowerUnit u = [0x69; 0x307].
Proof.
  unfold lowerUnit. cbn [toLowerCase app]. destruct ((0x41 <=? u) && (u <=? 0x5a)) eqn:E; [right; left; split; [done|lia]|].
  destruct (Z.eqb_spec u 0x212a); [by right; right; left|]. destruct (Z.eqb_spec u 0x130); [by right; right; right|].
  left. split_and!; try done. lia.
Qed.

Lemma letter_not_space u : 0x61 <= u <= 0x7a -> isJsSpace u = false.
Proof.
  intros H. unfold isJsSpace. rewrite bool_decide_eq_false_2 by (rewrite !elem_of_cons; intros Hin; destruct_or!; (lia || set_solver)). lia.
Qed.

Lemma lowerUnit_letter u : 0x61 <= u <= 0x7a -> lowerUnit u = [u].
Proof. intros H. destruct (lowerUnit_cases u) as [[E _]|[[_ ?]|E]]; [exact E|lia|]. unfold lowerUnit in *. cbn [toLowerCase app] in *.
  destruct ((0x41 <=? u) && (u <=? 0x5a)) eqn:E1; [lia|]. destruct (Z.eqb_spec u 0x212a); [lia|].
  destruct (Z.eqb_spec u 0x130); [lia|done].
Qed.

Lemma lowerUnit_lower u : toLowerCase (lowerUnit u) = lowerUnit u.
Proof.
  destruct (lowerUnit_cases u) as [[E _]|[[E H]|[E|E]]]; rewrite E; [exact E| |done|done].
  apply lowerUnit_letter. lia.
Qed.

Lemma toLowerCase_idem s : toLowerCase (toLowerCase s) = toLowerCase s.
Proof. induction s as [|u s IH]; [done|]. by rewrite toLowerCase_cons, toLowerCase_app, lowerUnit_lower, IH. Qed.

Lemma lowerUnit_space u v : isJsSpace u = false -> v ∈ lowerUnit u -> isJsSpace v = false.
Proof.
  intros Hu. destruct (lowerUnit_cases u) as [[-> _]|[[-> H]|[->| ->]]].
  - by intros ->%list_elem_of_singleton.
  - intros ->%list_elem_of_singleton. apply letter_not_space. lia.
  - by intros ->%list_elem_of_singleton.
  - by intros [->| ->%list_elem_of_singleton]%elem_of_cons.
Qed.

Lemma lowerUnit_nonempty u : lowerUnit u <> [].
Proof. destruct (lowerUnit_cases u) as [[-> _]|[[-> _]|[->| ->]]]; done. Qed.

Lemma toLowerCase_trimmed s : trimmed s -> trimmed (toLowerCase s).
Proof.
  intros [Hh Hl]. split; intros v Hv.
  - destruct s as [|u s]; [done|]. rewrite toLowerCase_cons in Hv. apply (lowerUnit_space u); [by apply Hh|].
    destruct (lowerUnit u) as [|w l] eqn:E; [by destruct (lowerUnit_nonempty u)|]. injection Hv as <-. left.
  - destruct s as [|u s _] using rev_ind; [done|]. rewrite toLowerCase_app in Hv.
    rewrite last_snoc in Hl. change (toLowerCase [u]) with (lowerUnit u) in Hv. apply (lowerUnit_space u); [by apply Hl|].
    rewrite last_app in Hv. destruct (last (lowerUnit u)) as [w|] eqn:E.
    + injection Hv as <-. apply list_elem_of_lookup. eexists. by rewrite <-last_lookup.
    + apply last_None in E. by destruct (lowerUnit_nonempty u).
Qed.

Lemma toLowerCase_nul s : 0 ∈ toLowerCase s -> 0 ∈ s.
Proof.
  induction s as [|u s IH]; [done|]. rewrite toLowerCase_cons. intros [H|H]%elem_of_app; [|right; by apply IH].
  destruct (lowerUnit_cases u) as [[E _]|[[E ?]|[E|E]]]; rewrite E in H.
  - apply list_elem_of_singleton in H as <-. left.
  - apply list_elem_of_singleton in H. lia.
  - by apply list_elem_of_singleton in H.
  - by apply elem_of_cons in H as [H|H%list_elem_of_singleton].
Qed.

Lemma trim_elem_of s u : u ∈ trim s -> u ∈ s.
Proof.
  unfold trim, trimEnd. rewrite elem_of_reverse. intros H.
  destruct (trimStart_suffix (reverse (trimStart s))) as (k & E). destruct (trimStart_suffix s) as (k' & E').
  rewrite E'. apply elem_of_app. right. apply elem_of_reverse. rewrite E. apply elem_of_app. by right.
Qed.

Lemma normalizeLogicalExecutable_fix v e : normalizeLogicalExecutable v = Ok e -> normalizeLogicalExecutable e = Ok e.
Proof.
  unfold normalizeLogicalExecutable, assertPlainString. intros (x & Hn & H)%bind_ok. apply throw_when_ok in Hn.
  cbv zeta in H. apply bind_ok in H as (y & Hl & H). injection H as <-.
  assert (Hx : hasNul (toLowerCase (trim v)) = false).
  { apply not_true_iff_false. unfold hasNul in *. rewrite includes_unit. intros H%toLowerCase_nul%trim_elem_of.
    apply (proj2 (includes_unit v 0)) in H. congruence. }
  rewrite Hx, trim_fix by apply toLowerCase_trimmed, trim_trimmed. rewrite toLowerCase_idem, Hl. done.
Qed.

(** *** The other parts *)

(** A check of every element. *)
Lemma mapM_check {A} (f : A -> result IdentityError A) l k :
  (forall a b, f a = Ok b -> b = a) -> mapM f l = Ok k -> k = l /\ Forall (fun a => f a = Ok a) l.
Proof.
  intros Hf. revert k. induction l as [|a l IH]; intros k H; [by injection H as <-|].
  cbn [mapM] in H. apply bind_ok in H as (b & Hb & H). apply bind_ok in H as (k' & Hk & H). injection H as <-.
  destruct (IH k' Hk) as [-> Hl]. pose proof (Hf a b Hb) as ->. split; [done|]. by constructor.
Qed.

Lemma mapM_fixed {A} (f : A -> result IdentityError A) l : Forall (fun a => f a = Ok a) l -> mapM f l = Ok l.
Proof. induction 1 as [|a l Ha _ IH]; [done|]. cbn [mapM]. by rewrite Ha, IH. Qed.

Lemma mapM_Forall2 {A B} (f : A -> result IdentityError B) l k :
  mapM f l = Ok k -> Forall2 (fun a b => f a = Ok b) l k.
Proof.
  revert k. induction l as [|a l IH]; intros k H; [injection H as <-; constructor|].
  cbn [mapM] in H. apply bind_ok in H as (b & Hb & H). apply bind_ok in H as (k' & Hk & H). injection H as <-.
  constructor; [done|by apply IH].
Qed.

Definition checkedName (name : jstring) : result IdentityError jstring :=
  _ ← assertNonEmpty name "environmentPolicy.variableNames entry"; Ok name.

Lemma uniqueInOrder_NoDup {A} `{EqDecision A} (l : list A) : NoDup l -> uniqueInOrder l = l.
Proof.
  induction l as [|x l IH] using rev_ind; [done|]. intros (Hl & Hx & _)%list.NoDup_app. rewrite uniqueInOrder_snoc, IH by done.
  rewrite bool_decide_eq_false_2; [done|]. intros Hin. apply (Hx x Hin). left.
Qed.

Lemma sortText_sorted l : StronglySorted (by_path id) (sortText l).
Proof. apply StronglySorted_js_sort; apply _. Qed.

Lemma sortText_idem l : sortText (sortText l) = sortText l.
Proof. apply js_sort_sorted, sortText_sorted. Qed.

Lemma normalizeEnvironmentPolicy_fix v w : normalizeEnvironmentPolicy v = Ok w -> normalizeEnvironmentPolicy w = Ok w.
Proof.
  unfold normalizeEnvironmentPolicy. intros (x & Hid & H)%bind_ok. apply bind_ok in H as (y & Hv & H).
  apply bind_ok in H as (names & Hn & H). injection H as <-. cbn [ep_id ep_version ep_variableNames]. rewrite Hid, Hv.
  apply mapM_check in Hn as [-> Hn]; [|by intros a b (z & _ & [= <-])%bind_ok].
  set (l := ep_variableNames v) in *. unfold mbind. cbn [result_bind]. rewrite mapM_fixed.
  - cbn [result_bind]. rewrite (uniqueInOrder_NoDup (sortText _)); [|rewrite sortText_Permutation; apply NoDup_uniqueInOrder].
    by rewrite sortText_idem.
  - rewrite list.Forall_forall in *. intros n Hin. apply Hn. by rewrite sortText_Permutation, elem_of_uniqueInOrder in Hin.
Qed.

Lemma normalizePackageManager_fix v w : normalizePackageManager v = Ok w -> w = v.
Proof.
  destruct v as [v|]; cbn; [|by intros [=]]. unfold normalizeBinary. intros H.
  apply bind_ok in H as (? & _ & H). apply bind_ok in H as (? & _ & H). apply bind_ok in H as (b & Hb & H).
  apply bind_ok in Hb as (? & _ & Hb). apply bind_ok in Hb as (? & _ & Hb). apply bind_ok in Hb as (? & _ & Hb).
  injection Hb as <-. injection H as <-. by destruct v.
Qed.

Lemma normalizeLifecycle_fix v w : normalizeLifecycle v = Ok w -> w = v.
Proof. destruct v as [v|]; cbn; [|by intros [=]]. intros H. repeat (apply bind_ok in H as (? & _ & H)). by injection H as <-. Qed.

Lemma normalizeBinary_fix v label w : normalizeBinary v label = Ok w -> w = v.
Proof. unfold normalizeBinary. intros H. repeat (apply bind_ok in H as (? & _ & H)). by injection H as <-. Qed.

(** *** Images *)

Lemma stringsOf_strings l : stringsOf (CString <$> l) = Some l.
Proof. unfold stringsOf. induction l as [|s l IH]; [done|]. cbn [fmap list_fmap mapM]. by rewrite IH. Qed.

Lemma stringField_ok name test r s : stringField name test r = Ok s -> jm_get (js name) r = Some (CString s) /\ test s = true.
Proof.
  unfold stringField. destruct (jm_get (js name) r) as [[]|]; try done. destruct (test s0) eqn:E; [|done].
  by intros [= <-].
Qed.

Lemma baseImagesField_ok r l : baseImagesField r = Ok l ->
  exists entries, jm_get (js "base_image_digests") r = Some (CArray entries) /\ stringsOf entries = Some l.
Proof.
  unfold baseImagesField. destruct (jm_get _ r) as [[]|]; try done. destruct (stringsOf entries) as [items|] eqn:E; [|done].
  destruct (forallb digestReference items && _ && _ && _); [|done]. intros [= <-]. eauto.
Qed.

(** What is read back from a persisted identity is the identity. *)
Lemma restore_persisted i j :
  restoreDockerExecutionImageIdentity (persistDockerExecutionImageIdentity i) = Ok j -> j = i.
Proof.
  destruct i as [r c|[a l d x b c]]; unfold persistDockerExecutionImageIdentity, restoreDockerExecutionImageIdentity;
    intros (kind & [[= <-] _]%stringField_ok & H)%bind_ok.
  - rewrite bool_decide_eq_true_2 in H by done. apply bind_ok in H as (? & _ & H).
    apply bind_ok in H as (? & [[= <-] _]%stringField_ok & H).
    apply bind_ok in H as (? & [[= <-] _]%stringField_ok & H). by injection H as <-.
  - rewrite bool_decide_eq_false_2, bool_decide_eq_true_2 in H by done. apply bind_ok in H as (? & _ & H).
    do 4 (apply bind_ok in H as (? & [[= <-] _]%stringField_ok & H)).
    apply bind_ok in H as (? & (entries & [= <-] & Hs)%baseImagesField_ok & H).
    apply bind_ok in H as (? & [[= <-] _]%stringField_ok & H). cbn [tlb_baseImageDigests] in Hs.
    rewrite stringsOf_strings in Hs. injection Hs as <-. by injection H as <-.
Qed.

Lemma normalizeDockerEnvironment_fix v w : normalizeDockerEnvironment v = Ok w -> w = v.
Proof.
  unfold normalizeDockerEnvironment. intros (x & Hx & H)%bind_ok. apply throw_when_ok in Hx.
  apply orb_false_iff in Hx as [He Hn]. apply negb_false_iff, bool_decide_eq_true in He, Hn. cbv zeta in H.
  apply bind_ok in H as (? & _ & H). apply bind_ok in H as (? & _ & H). apply bind_ok in H as (? & _ & H).
  apply bind_ok in H as (identity & Hi & H). repeat (apply bind_ok in H as (? & _ & H)). injection H as <-.
  assert (identity = dce_imageIdentity v) as ->.
  { destruct (dce_imageIdentity v) as [i|]; [|by injection Hi as <-].
    destruct (restoreDockerExecutionImageIdentity (persistDockerExecutionImageIdentity i)) as [j|] eqn:E; [|done].
    apply restore_persisted in E as ->. by injection Hi as <-. }
  destruct v. cbn in *. by subst.
Qed.

(** *** The whole action *)

(** No path of the action looks like one on a drive. *)
Definition plainPaths (action : NormalizedCommandAction) : Prop :=
  hasDriveLetter (ca_canonicalCwd action) = false /\
  Forall (fun entry => hasDriveLetter (rc_canonicalPath entry) = false) (ei_runnerConfigHashes (ca_executionInputs action)).

Section NormalForm.
Context (localeLe : jstring -> jstring -> bool).
(** [localeCompare] is an order, up to texts it does not tell apart. *)
Hypothesis locale_trans : forall a b c, localeLe a b = true -> localeLe b c = true -> localeLe a c = true.
Hypothesis locale_total : forall a b, localeLe a b = true \/ localeLe b a = true.

Lemma configs_sorted entries : StronglySorted (config_le localeLe) (js_sort (config_le localeLe) entries).
Proof.
  apply StronglySorted_js_sort; [intros ???; apply locale_trans|intros ??; apply locale_total].
Qed.

Lemma normalizeRunnerConfig_canonical entry e :
  normalizeRunnerConfig entry = Ok e ->
  CanonicalPath (rc_canonicalPath e) /\ assertSha256 (rc_sha256 e) "runnerConfigHashes.sha256" = Ok ().
Proof.
  unfold normalizeRunnerConfig. intros ([] & Hs & H)%bind_ok. apply bind_ok in H as (p & Hp & H). injection H as <-.
  split; [by eapply canonicalize_canonical|done].
Qed.

Lemma normalizeRunnerConfig_fix entry e :
  normalizeRunnerConfig entry = Ok e ->
  normalizeRunnerConfig e = if hasDriveLetter (rc_canonicalPath e) then Err absolutePath else Ok e.
Proof.
  intros (Hp & Hs)%normalizeRunnerConfig_canonical. unfold normalizeRunnerConfig. rewrite Hs. unfold mbind at 1.
  cbn [result_bind]. rewrite canonicalize_fix by done. by destruct (hasDriveLetter _), e.
Qed.

Lemma mapM_some_error {A B} (f : A -> result IdentityError B) l a :
  a ∈ l -> is_ok (f a) = false -> is_ok (mapM f l) = false.
Proof.
  intros Ha Hf. induction l as [|b l IH]; [set_solver|]. cbn [mapM]. apply elem_of_cons in Ha as [<-|Ha].
  - by destruct (f a).
  - specialize (IH Ha). destruct (f b); [|done]. by destruct (mapM f l).
Qed.

Lemma normalizeExecutionInputs_fix v w :
  normalizeExecutionInputs localeLe v = Ok w ->
  if decide (Forall (fun e => hasDriveLetter (rc_canonicalPath e) = false) (ei_runnerConfigHashes w))
  then normalizeExecutionInputs localeLe w = Ok w else is_ok (normalizeExecutionInputs localeLe w) = false.
Proof.
  unfold normalizeExecutionInputs at 1. intros ([] & Hm & H)%bind_ok. apply bind_ok in H as ([] & Hl & H).
  apply bind_ok in H as (entries & He & H). cbv zeta in H. apply bind_ok in H as ([] & Hd & H). injection H as <-.
  cbn [ei_runnerConfigHashes]. set (k := js_sort (config_le localeLe) entries) in *.
  assert (Hk : Forall (fun e => normalizeRunnerConfig e =
    if hasDriveLetter (rc_canonicalPath e) then Err absolutePath else Ok e) k).
  { unfold k. rewrite js_sort_Permutation. apply mapM_Forall2 in He. clear -He.
    induction He as [|a e l entries Ha _ IH]; constructor; [by eapply normalizeRunnerConfig_fix|done]. }
  unfold normalizeExecutionInputs. cbn [ei_manifestSha256 ei_lockfileSha256 ei_runnerConfigHashes]. rewrite Hm, Hl.
  unfold mbind at 1 2. cbn [result_bind]. case_decide as Hp.
  - rewrite mapM_fixed.
    + unfold mbind at 1. cbn [result_bind]. cbv zeta. rewrite js_sort_sorted by apply configs_sorted. fold k. by rewrite Hd.
    + rewrite list.Forall_forall in *. intros e Hin. rewrite (Hk e Hin). by rewrite (Hp e Hin).
  - apply not_Forall_Exists, Exists_exists in Hp; [|apply _]. destruct Hp as (e & Hin & Hb).
    pose proof (mapM_some_error normalizeRunnerConfig k e Hin) as Herr.
    destruct (mapM normalizeRunnerConfig k); [|done]. exfalso. discriminate Herr.
    rewrite list.Forall_forall in Hk. rewrite (Hk e Hin). destruct (hasDriveLetter (rc_canonicalPath e)) eqn:E; [done|by destruct Hb].
Qed.

Lemma indexed_arguments (argv : list jstring) argv' :
  mapM (fun '(index, argument) => _ ← assertArgument argument index; Ok argument) (imap pair argv) = Ok argv' -> argv' = argv.
Proof.
  intros H%mapM_Forall2. assert (E : argv' = snd <$> imap pair argv).
  { induction H as [|[i a] b l k (? & _ & [= <-])%bind_ok _ IH]; [done|]. cbn. by f_equal. }
  rewrite E, fmap_imap. clear. unfold compose. cbn. change (imap (fun _ x => x) argv = argv).
  apply list_eq. intros i. rewrite list_lookup_imap. by destruct (argv !! i).
Qed.

Lemma assertPositiveInteger_fix n label m : assertPositiveInteger n label = Ok m -> m = n.
Proof. unfold assertPositiveInteger. intros (? & _ & H)%bind_ok. by injection H as <-. Qed.

(** A normal form is its own exactly when no path looks like one on a drive;
    otherwise it is refused. *)
Lemma normalizeCommandAction_fix a b :
  normalizeCommandAction localeLe a = Ok b ->
  (plainPaths b -> normalizeCommandAction localeLe b = Ok b) /\
  (~ plainPaths b -> is_ok (normalizeCommandAction localeLe b) = false).
Proof.
  unfold normalizeCommandAction at 1. intros H.
  apply bind_ok in H as (exe & Hexe & H). apply bind_ok in H as (argv & Hargv & H).
  apply bind_ok in H as (cwd & Hcwd & H). apply bind_ok in H as (policy & Hpolicy & H).
  apply bind_ok in H as (binary & Hbinary & H). apply bind_ok in H as (manager & Hmanager & H).
  apply bind_ok in H as (lifecycle & Hlifecycle & H). apply bind_ok in H as (inputs & Hinputs & H).
  apply bind_ok in H as (environment & Henvironment & H). apply bind_ok in H as ([] & Hpair & H).
  apply bind_ok in H as (output & Houtput & H). apply bind_ok in H as (timeout & Htimeout & H). injection H as <-.
  pose proof (indexed_arguments _ _ Hargv) as Eargv. pose proof (normalizeBinary_fix _ _ _ Hbinary) as Ebinary.
  pose proof (normalizePackageManager_fix _ _ Hmanager) as Emanager.
  pose proof (normalizeLifecycle_fix _ _ Hlifecycle) as Elifecycle.
  pose proof (assertPositiveInteger_fix _ _ _ Houtput) as Eoutput.
  pose proof (assertPositiveInteger_fix _ _ _ Htimeout) as Etimeout.
  assert (Eenvironment : environment = ca_executionEnvironment a).
  { destruct (ca_executionEnvironment a) as [e|]; [|by injection Henvironment as <-].
    destruct (normalizeDockerEnvironment e) as [e'|] eqn:E; [|done]. injection Henvironment as <-.
    by rewrite (normalizeDockerEnvironment_fix _ _ E). }
  subst argv binary manager lifecycle output timeout environment.
  pose proof (canonicalize_fix cwd (canonicalize_canonical _ _ Hcwd)) as Fcwd.
  pose proof (normalizeExecutionInputs_fix _ _ Hinputs) as Finputs.
  unfold plainPaths, normalizeCommandAction.
  cbn [ca_logicalExecutable ca_argv ca_canonicalCwd ca_environmentPolicy ca_binary ca_packageManager
       ca_lifecycleScripts ca_executionInputs ca_executionEnvironment ca_outputLimitBytes ca_timeoutMs ca_purpose].
  rewrite (normalizeLogicalExecutable_fix _ _ Hexe), Hargv, Fcwd, (normalizeEnvironmentPolicy_fix _ _ Hpolicy),
    Hbinary, Hmanager, Hlifecycle, Henvironment, Houtput, Htimeout.
  split.
  - intros [-> Hp]. rewrite decide_True in Finputs by done. rewrite Finputs. unfold mbind. cbn [result_bind].
    rewrite Hpair. done.
  - intros Hp. destruct (hasDriveLetter cwd); [done|]. rewrite decide_False in Finputs by (intros ?; by apply Hp).
    destruct (normalizeExecutionInputs localeLe inputs); done.
Qed.
End NormalForm.
