(* ===== verification/PermissionEngine.v ===== *)
(** * The permission engine

    [src/permissions/permission-engine.ts] and
    [trusted-local-fixture-manifest.ts]: an action is judged by a policy only
    after its digests were recomputed from its normal form, and the context of a
    trusted fixture admits the one action its review describes. *)

From S2P Require Import Prelude JsString CanonicalJson CanonicalJsonFacts PosixPath SourceSnapshot CompletionFacts Permissions PermissionsFacts ActionIdentity ActionIdentityFacts.
From Stdlib Require Import SpecFloat.
#[local] Open Scope Z_scope.

(** ** The engine *)

Record PermissionPolicy : Type := {
  pp_id : jstring; pp_version : jstring;
  pp_evaluate : NormalizedAction -> PermissionContext -> PolicyDecision }.

(** An allowed decision has no reason code. *)
Record PermissionDecision : Type := {
  pmd_effect : PermissionEffect; pmd_policyId : jstring; pmd_policyVersion : jstring;
  pmd_reasonCode : option string; pmd_ruleId : string }.

Definition assertIdentifier (value : jstring) (label : string) : result IdentityError () :=
  throw_when ((length value =? 0)%nat || existsb (fun u => (u =? 13) || (u =? 10) || (u =? 0)) value)
    (type_error (label +:+ " must be a non-empty single-line string")).

(** The constructor. *)
Definition newPermissionEngine (policy : PermissionPolicy) : result IdentityError PermissionPolicy :=
  _ ← assertIdentifier (pp_id policy) "policy.id";
  _ ← assertIdentifier (pp_version policy) "policy.version";
  Ok policy.

Section Engine.
Context (sha256 : jstring -> jstring) (localeLe : jstring -> jstring -> bool) (numberText : spec_float -> jstring).
Notation create := (createCommandActionIdentity sha256 localeLe numberText).

(** What the engine finds wrong with an identity: the rule and reason of its
    denial. *)
Inductive IdentityDenial : Type :=
| invalid_action_identity
| execution_inputs_digest_mismatch
| action_digest_mismatch.

(** The digests recomputed: the action the policy will see, or a denial. *)
Definition verifyAction (action : NormalizedAction) : result IdentityError (NormalizedAction + IdentityDenial) :=
  match action with
  | CommandAction action =>
      match create action with
      | Err _ => Ok (inr invalid_action_identity)
      | Ok command =>
          if ca_executionInputsSha256 command !== ca_executionInputsSha256 action
          then Ok (inr execution_inputs_digest_mismatch)
          else if ca_actionSha256 command !== ca_actionSha256 action
          then Ok (inr action_digest_mismatch)
          else Ok (inl (CommandAction command))
      end
  | McpAction mcp =>
      verified ← verifyMcpPermissionActionIdentity sha256 mcp;
      Ok (if (verified : bool) then inl action else inr action_digest_mismatch)
  end.

Section Policy.
Variable policy : PermissionPolicy.

Definition decorate (decision : PolicyDecision) : result IdentityError PermissionDecision :=
  _ ← assertIdentifier (js (pd_ruleId decision)) "policy decision ruleId";
  if pd_effect decision === allow_effect
  then Ok {| pmd_effect := allow_effect; pmd_policyId := pp_id policy; pmd_policyVersion := pp_version policy;
             pmd_reasonCode := None; pmd_ruleId := pd_ruleId decision |}
  else
    _ ← match pd_reasonCode decision with
        | Some reasonCode => assertIdentifier (js reasonCode) "policy decision reasonCode"
        | None => Err (type_error "policy decision reasonCode must be a non-empty single-line string")
        end;
    Ok {| pmd_effect := pd_effect decision; pmd_policyId := pp_id policy; pmd_policyVersion := pp_version policy;
          pmd_reasonCode := pd_reasonCode decision; pmd_ruleId := pd_ruleId decision |}.

(** [#deny], with the rule of each denial. *)
Definition denyIdentity (denial : IdentityDenial) : PermissionDecision :=
  let '(ruleId, reasonCode) := match denial with
    | invalid_action_identity => ("permission.deny.invalid-action.v1", "invalid_action_identity")
    | execution_inputs_digest_mismatch =>
        ("permission.deny.execution-inputs-digest-mismatch.v1", "execution_inputs_digest_mismatch")
    | action_digest_mismatch => ("permission.deny.action-digest-mismatch.v1", "action_digest_mismatch")
    end%string in
  {| pmd_effect := deny_effect; pmd_policyId := pp_id policy; pmd_policyVersion := pp_version policy;
     pmd_reasonCode := Some reasonCode; pmd_ruleId := ruleId |}.

(** [PermissionEngine.evaluate] *)
Definition evaluate (action : NormalizedAction) (context : PermissionContext) : result IdentityError PermissionDecision :=
  outcome ← verifyAction action;
  match outcome with
  | inl verified => decorate (pp_evaluate policy verified context)
  | inr denial => Ok (denyIdentity denial)
  end.
End Policy.

(** ** Trusted fixtures *)

Definition TRUSTED_LOCAL_ENVIRONMENT_POLICY_ID : jstring := js "bornagent.local-minimal-env".
Definition TRUSTED_LOCAL_ENVIRONMENT_POLICY_VERSION : jstring := js "2".
Definition TRUSTED_OFFLINE_NODE_GUARD : RunnerConfigFingerprint := {|
  rc_canonicalPath := js "@bornagent/network-guard-v1";
  rc_sha256 := js "4a4a0ce3be28637820c9c9031e92f977a3242a5c95f9c913f50075dcd61d9865" |}.

Definition REQUIRED_LOCAL_FREE_ENVIRONMENT_NAMES : list jstring := js <$>
  ["CI"; "COREPACK_ENABLE_NETWORK"; "NO_COLOR"; "NPM_CONFIG_OFFLINE"; "NODE_OPTIONS"; "YARN_ENABLE_NETWORK"]%string.
Definition ALLOWED_LOCAL_FREE_ENVIRONMENT_NAMES : list jstring := REQUIRED_LOCAL_FREE_ENVIRONMENT_NAMES ++ (js <$>
  ["HOME"; "NODE_OPTIONS"; "PATH"; "Path"; "SystemRoot"; "TEMP"; "TMP"; "TMPDIR"; "USERPROFILE"]%string).

Record TrustedLocalNodeFixtureReview : Type := {
  tfr_canonicalCwd : jstring; tfr_exactArgv : list jstring; tfr_id : string; tfr_outputLimitBytes : Z;
  tfr_purpose : CommandPurpose; tfr_requiredFileHashes : list RunnerConfigFingerprint; tfr_timeoutMs : Z;
  tfr_verificationKind : option string }.

Definition fixtureReview (canonicalCwd : jstring) (id scriptName scriptSha256 : string)
    (dependencies : list RunnerConfigFingerprint) (verificationKind : option string) : TrustedLocalNodeFixtureReview := {|
  tfr_canonicalCwd := canonicalCwd; tfr_exactArgv := [js scriptName]; tfr_id := id; tfr_outputLimitBytes := 131072;
  tfr_purpose := purpose_verify;
  tfr_requiredFileHashes := js_sort (config_le localeLe)
    (TRUSTED_OFFLINE_NODE_GUARD ::
     {| rc_canonicalPath := canonicalCwd ++ slash :: js scriptName; rc_sha256 := js scriptSha256 |} :: dependencies);
  tfr_timeoutMs := 120000; tfr_verificationKind := verificationKind |}.

Definition dependency (canonicalCwd : jstring) (name sha : string) : RunnerConfigFingerprint :=
  {| rc_canonicalPath := canonicalCwd ++ slash :: js name; rc_sha256 := js sha |}.

Definition TRUSTED_PHASE6_NODE_FIXTURE_REVIEWS : list TrustedLocalNodeFixtureReview := [
  fixtureReview PHASE6_FIXTURE_CWD "phase6.fixture.pass.v1" "pass.mjs"
    "685fce1111bf60a1571ac333242c427a07733cb5696d6b35a0702110887ed507" [] None;
  fixtureReview PHASE6_FIXTURE_CWD "phase6.fixture.fail.v1" "fail.mjs"
    "ee231deec4995999c83b7995b1e742fdf86c6bae7eca41b23c49ba9f9d31ac26" [] None;
  fixtureReview PHASE6_FIXTURE_CWD "phase6.fixture.mixed-output.v1" "mixed-output.mjs"
    "438f9648c4d2e5aab786a3b5bed3c4d606021b6bd58aa381bee6bec1d6efb453" [] None;
  fixtureReview PHASE6_FIXTURE_CWD "phase6.fixture.print-env.v1" "print-env.mjs"
    "757935b2ec56d5227f09c1d5d0e9e7559301b98d62a2efd0ab489f346e126fed" [] None;
  fixtureReview PHASE6_FIXTURE_CWD "phase6.fixture.output-limit.v1" "flood.mjs"
    "8eaa9a390216e486ab13378f7f770280518c5fefc92b80ecc56e2064c2e0c9f8" [] None;
  fixtureReview PHASE6_FIXTURE_CWD "phase6.fixture.process-tree.v1" "long-parent.mjs"
    "98a1fbb151aa137cedcc14d44beaa95ca63f352c3227ab2a0bd95b0c92ba22ba"
    [dependency PHASE6_FIXTURE_CWD "grandchild.mjs"
       "5cdecfcf00b1db1f11e3fec4b91b1a5b813baf9457652a3aeb2929c786dcfc8a"] None].

Definition PHASE7_FIXTURE_CWD (index : nat) : jstring := default [] (PHASE7_FIXTURE_CWDS !! index).

Definition TRUSTED_PHASE7_NODE_FIXTURE_REVIEWS : list TrustedLocalNodeFixtureReview := [
  fixtureReview (PHASE7_FIXTURE_CWD 0) "phase7.fixture.fix-and-verify.v1" "verify.mjs"
    "7f0a15a02e7b623054f0de32c6693111f9d5adf38f9411e7c20b8c0c74a73d42"
    [dependency (PHASE7_FIXTURE_CWD 0) "src/clamp.mjs"
       "f1dd8fe2f52bbcf881f28113bd42d99f4fb7d9ddcb1958db63846e72275a8888"] (Some "test"%string);
  fixtureReview (PHASE7_FIXTURE_CWD 1) "phase7.fixture.verification-fails.v1" "verify.mjs"
    "a5a833faa08c6d201a116bc61c8f744ba8464b5cfd71bede60321d3345f364e9"
    [dependency (PHASE7_FIXTURE_CWD 1) "src/answer.mjs"
       "e77ce1f09268079de910c45c2b1b66b28fe0f516708a1eabfec5157d711cdd98"] (Some "test"%string)].

Definition isTrustedLocalFreeEnvironmentPolicy (policy : EnvironmentPolicyIdentity) : bool :=
  (ep_id policy === TRUSTED_LOCAL_ENVIRONMENT_POLICY_ID) &&
  (ep_version policy === TRUSTED_LOCAL_ENVIRONMENT_POLICY_VERSION) &&
  bool_decide (NoDup (ep_variableNames policy)) &&
  forallb (has ALLOWED_LOCAL_FREE_ENVIRONMENT_NAMES) (ep_variableNames policy) &&
  forallb (has (ep_variableNames policy)) REQUIRED_LOCAL_FREE_ENVIRONMENT_NAMES.

(** [verifyActionIdentity] *)
Definition verifyActionIdentity (action : CommandActionIdentity) : option CommandActionIdentity :=
  match create action with
  | Ok verified =>
      if (ca_actionSha256 verified === ca_actionSha256 action) &&
         (ca_executionInputsSha256 verified === ca_executionInputsSha256 action)
      then Some verified else None
  | Err _ => None
  end.

Definition fingerprintsEqual (left right : list RunnerConfigFingerprint) : bool :=
  (length left =? length right)%nat &&
  forallb (fun '(l, r) => (rc_canonicalPath l === rc_canonicalPath r) && (rc_sha256 l === rc_sha256 r))
    (zip left right).

(** A command that runs node directly, under the trusted environment, on pinned files only. *)
Definition isPlainNodeFixture (verified : CommandActionIdentity) : bool :=
  (ca_logicalExecutable verified === js "node") &&
  match ca_packageManager verified with None => true | Some _ => false end &&
  match ca_lifecycleScripts verified with None => true | Some _ => false end &&
  (ei_manifestSha256 (ca_executionInputs verified) === None) &&
  (ei_lockfileSha256 (ca_executionInputs verified) === None) &&
  isTrustedLocalFreeEnvironmentPolicy (ca_environmentPolicy verified).

Definition matchesReview (verified : CommandActionIdentity) (review : TrustedLocalNodeFixtureReview) : bool :=
  (ca_argv verified === tfr_exactArgv review) && (ca_purpose verified === tfr_purpose review) &&
  (ca_timeoutMs verified =? tfr_timeoutMs review) &&
  (ca_outputLimitBytes verified =? tfr_outputLimitBytes review) &&
  fingerprintsEqual (ei_runnerConfigHashes (ca_executionInputs verified)) (tfr_requiredFileHashes review).

Definition matchTrustedPhase6NodeFixture (action : CommandActionIdentity) : option TrustedLocalNodeFixtureReview :=
  verified ← verifyActionIdentity action;
  if isPlainNodeFixture verified && (ca_canonicalCwd verified === PHASE6_FIXTURE_CWD)
  then List.find (matchesReview verified) TRUSTED_PHASE6_NODE_FIXTURE_REVIEWS else None.

Definition matchTrustedPhase7NodeFixture (action : CommandActionIdentity) : option TrustedLocalNodeFixtureReview :=
  verified ← verifyActionIdentity action;
  if isPlainNodeFixture verified && has PHASE7_FIXTURE_CWDS (ca_canonicalCwd verified)
  then List.find (fun review => (ca_canonicalCwd verified === tfr_canonicalCwd review) && matchesReview verified review)
         TRUSTED_PHASE7_NODE_FIXTURE_REVIEWS
  else None.

Definition createTrustedLocalFixturePermissionContext (action : CommandActionIdentity) : option PermissionContext :=
  match matchTrustedPhase6NodeFixture action, matchTrustedPhase7NodeFixture action with
  | None, None => None
  | _, _ => Some {|
      pc_reviewedLocalActionSha256 := [ca_actionSha256 action]; pc_reviewedOfflineMcpActionSha256 := [];
      pc_frozenCapabilityMcpActionSha256 := []; pc_reviewedOfflineMcpServerIds := []; pc_startedMcpServerIds := [] |}
  end.
End Engine.

(** [defaultPermissionPolicy] and [localFreeOnlyPermissionPolicy], with the ids
    and versions of the sources. *)
Definition defaultPolicy : PermissionPolicy := {|
  pp_id := js "bornagent.default-command-policy"; pp_version := js "1";
  pp_evaluate := fun action _ => defaultPermissionPolicy action |}.
Definition localFreePolicy : PermissionPolicy := {|
  pp_id := js "bornagent.local-free-only-command-policy"; pp_version := js "3";
  pp_evaluate := localFreeOnlyPermissionPolicy |}.

Example policies_make_engines :
  newPermissionEngine defaultPolicy = Ok defaultPolicy /\ newPermissionEngine localFreePolicy = Ok localFreePolicy.
Proof. split; reflexivity. Qed.

(** ** Digests name actions *)

Definition actionDigest (action : NormalizedAction) : jstring :=
  match action with CommandAction a => ca_actionSha256 a | McpAction m => mcpActionSha256 m end.

Lemma joinUnit_head c l ls : exists k, joinUnit c (l :: ls) = l ++ k.
Proof. destruct ls as [|l' ls]; [exists []; by rewrite app_nil_r|]. by exists (c :: joinUnit c (l' :: ls)). Qed.

(** The text of an object starts with its first key. *)
Lemma printDigest_first key v r : exists k, printDigest (CObject ((key, v) :: r)) = 0x7b :: stringifyString key ++ k.
Proof.
  cbn [printDigest List.map]. destruct (joinUnit_head comma (fieldText (key, printDigest v))
    (List.map (fun '(k, v) => fieldText (k, printDigest v)) r)) as [k ->].
  unfold fieldText at 1. cbn [fst snd]. exists (colon :: printDigest v ++ k ++ [0x7d]).
  rewrite <-!app_assoc. cbn [app]. by rewrite <-?app_assoc.
Qed.

Lemma printCanon_first key v r : exists k, printCanon (JObj ((key, v) :: r)) = 0x7b :: stringifyString key ++ k.
Proof.
  cbn [printCanon List.map]. destruct (joinUnit_head comma (fieldText (key, printCanon v))
    (List.map (fun '(k, v) => fieldText (k, printCanon v)) r)) as [k ->].
  unfold fieldText at 1. cbn [fst snd]. exists (colon :: printCanon v ++ k ++ [0x7d]).
  rewrite <-!app_assoc. cbn [app]. by rewrite <-?app_assoc.
Qed.

Section Binding.
Context (sha256 : jstring -> jstring) (localeLe : jstring -> jstring -> bool) (numberText : spec_float -> jstring).
Notation create := (createCommandActionIdentity sha256 localeLe numberText).
Notation verifyAction := (verifyAction sha256 localeLe numberText).
Notation evaluate := (evaluate sha256 localeLe numberText).
Notation collision_free := (forall s t, sha256 s = sha256 t -> s = t).

(** The strings and numbers of an action are JavaScript's. *)
Definition jsVerified (action : NormalizedAction) : Prop :=
  match action with
  | CommandAction a => jsAction sha256 numberText a
  | McpAction m => units16 (mcpValue m)
  end.

(** What a verified action is. *)
Lemma verified_command action verified :
  verifyAction (CommandAction action) = Ok (inl verified) <->
  exists command, verified = CommandAction command /\ create action = Ok command /\
    ca_actionSha256 command = ca_actionSha256 action /\
    ca_executionInputsSha256 command = ca_executionInputsSha256 action.
Proof.
  cbn [PermissionEngine.verifyAction]. destruct (create action) as [command|]; [|naive_solver].
  case_bool_decide as Hi; cbn [negb]; [|naive_solver]. case_bool_decide as Ha; cbn [negb]; naive_solver.
Qed.

Lemma verified_mcp mcp verified :
  verifyAction (McpAction mcp) = Ok (inl verified) <->
  verified = McpAction mcp /\ verifyMcpPermissionActionIdentity sha256 mcp = Ok true.
Proof.
  cbn [PermissionEngine.verifyAction]. destruct (verifyMcpPermissionActionIdentity sha256 mcp) as [[]|]; cbn; naive_solver.
Qed.

Lemma created_digest input command :
  create input = Ok command ->
  ca_actionSha256 command = computeActionSha256 sha256 numberText command /\
  ca_executionInputsSha256 command = computeExecutionInputsSha256 sha256 command.
Proof. unfold createCommandActionIdentity. intros (n & _ & [= <-])%bind_ok. done. Qed.

Lemma command_is_not_mcp action mcp t :
  namesNumbers numberText -> jsAction sha256 numberText action ->
  canonicalJson (mcpValue mcp) = Ok t -> actionJson (actionDigestValue sha256 numberText action) <> t.
Proof.
  intros Hn (Hc & _ & Hs) Ht H. apply canonicalJson_canon in Ht. rewrite mcpValue_canon in Ht. subst t.
  rewrite digestJson_print in H by by apply action_wellFormed.
  unfold actionDigestValue in H. unfold cfield at 1 in H.
  match type of H with printDigest (CObject ((?key, ?v) :: ?r)) = _ => destruct (printDigest_first key v r) as [k E] end.
  rewrite E in H. clear E.
  assert (exists v r, mcpValue mcp = JObj ((js "action_kind", v) :: r)) as (v & r & E)
    by (destruct mcp; do 2 eexists; reflexivity).
  rewrite E in H. destruct (printCanon_first (js "action_kind") v r) as [k' E']. rewrite E' in H.
  apply cons_eq in H as [_ H]. apply stringifyString_inj in H as [H _]; [|apply js_units..]. by apply js_inj in H.
Qed.

(** Two verified actions of one digest are the same action. *)
Lemma verified_digest_inj a b verified_a verified_b :
  collision_free -> namesNumbers numberText ->
  verifyAction a = Ok (inl verified_a) -> verifyAction b = Ok (inl verified_b) ->
  jsVerified verified_a -> jsVerified verified_b -> actionDigest a = actionDigest b -> verified_a = verified_b.
Proof.
  intros Hsha Hn Ha Hb Ja Jb E.
  destruct a as [a|a], b as [b|b].
  - apply verified_command in Ha as (ca & -> & Ca & Da & _), Hb as (cb & -> & Cb & Db & _).
    destruct (created_digest _ _ Ca) as [Xa Ia], (created_digest _ _ Cb) as [Xb Ib]. cbn in E, Ja, Jb.
    assert (En : ca_normalized ca = ca_normalized cb)
      by (eapply action_digest_inj; [done..|]; congruence).
    destruct ca, cb. cbn in *. subst. f_equal. f_equal; congruence.
  - apply verified_command in Ha as (ca & -> & Ca & Da & _). apply verified_mcp in Hb as [-> Hb].
    apply verify_digest in Hb. unfold sha256Json, encodedJson in Hb.
    destruct (canonicalJson (mcpValue b)) as [t|[]] eqn:Et; [|done]. injection Hb as Hb.
    exfalso. apply (command_is_not_mcp ca b t Hn Ja Et). apply Hsha. cbn in E.
    destruct (created_digest _ _ Ca) as [Xa _]. unfold computeActionSha256 in Xa. congruence.
  - apply verified_mcp in Ha as [-> Ha]. apply verified_command in Hb as (cb & -> & Cb & Db & _).
    apply verify_digest in Ha. unfold sha256Json, encodedJson in Ha.
    destruct (canonicalJson (mcpValue a)) as [t|[]] eqn:Et; [|done]. injection Ha as Ha.
    exfalso. apply (command_is_not_mcp cb a t Hn Jb Et). apply Hsha. cbn in E.
    destruct (created_digest _ _ Cb) as [Xb _]. unfold computeActionSha256 in Xb. congruence.
  - apply verified_mcp in Ha as [-> Ha], Hb as [-> Hb]. f_equal. by eapply mcp_digest_inj.
Qed.


(** ** Created actions *)

(** The identities the code builds. *)
Inductive created : NormalizedAction -> Prop :=
| created_command input command :
    create input = Ok command -> plainPaths command -> created (CommandAction command)
| created_start input action :
    createMcpServerStartActionIdentity sha256 localeLe input = Ok action -> created (McpAction (McpServerStart action))
| created_call input action :
    createMcpToolCallActionIdentity sha256 input = Ok action -> created (McpAction (McpToolCall action))
| created_read input action :
    createMcpResourceReadActionIdentity sha256 input = Ok action -> created (McpAction (McpResourceRead action))
| created_prompt input action :
    createMcpPromptGetActionIdentity sha256 input = Ok action -> created (McpAction (McpPromptGet action)).

Section Locale.
Hypothesis locale_trans : forall a b c, localeLe a b = true -> localeLe b c = true -> localeLe a c = true.
Hypothesis locale_total : forall a b, localeLe a b = true \/ localeLe b a = true.

Lemma create_again input command :
  create input = Ok command ->
  (plainPaths command -> create command = Ok command) /\ (~ plainPaths command -> is_ok (create command) = false).
Proof.
  unfold createCommandActionIdentity. intros (n & Hn & [= <-])%bind_ok. cbn [ca_normalized].
  destruct (normalizeCommandAction_fix localeLe locale_trans locale_total _ _ Hn) as [Hp Hd]. split; intros H.
  - by rewrite (Hp H).
  - specialize (Hd H). by destruct (normalizeCommandAction localeLe n).
Qed.

(** The engine judges what the code built: an identity that one of the
    constructors returned passes the recomputation of its digests unchanged, so
    the decision is the policy's on exactly that identity, whatever the policy
    and the context.  (A command is meant whose paths do not look like paths on
    a drive.) *)
Theorem created_actions_are_judged action policy context :
  (forall t, SHA256_PATTERN (sha256 t) = true) -> created action ->
  evaluate policy action context = decorate policy (pp_evaluate policy action context).
Proof.
  intros Hhex Hcreated. unfold PermissionEngine.evaluate.
  assert (verifyAction action = Ok (inl action)) as ->; [|done].
  destruct Hcreated as [input command H Hp|input a H|input a H|input a H|input a H].
  - apply verified_command. exists command. by rewrite (proj1 (create_again _ _ H)).
  - apply verified_mcp. split; [done|by eapply created_start_verifies].
  - apply verified_mcp. split; [done|by eapply created_call_verifies].
  - apply verified_mcp. split; [done|by eapply created_read_verifies].
  - apply verified_mcp. split; [done|by eapply created_prompt_verifies].
Qed.

(** A path such as [./C:/x] is normalised to one that looks like a path on a
    drive; the identity is built, and then refused as invalid. *)
Lemma drive_paths_are_refused input command policy context :
  create input = Ok command -> ~ plainPaths command ->
  evaluate policy (CommandAction command) context = Ok (denyIdentity policy invalid_action_identity).
Proof.
  intros H Hp. unfold PermissionEngine.evaluate. cbn [PermissionEngine.verifyAction].
  pose proof (proj2 (create_again _ _ H) Hp) as Hd. by destruct (create command).
Qed.
End Locale.

(** ** What the engine lets run *)

Lemma allowed_rule action :
  pd_effect (defaultPermissionPolicy action) = allow_effect ->
  exists d, decorate defaultPolicy (defaultPermissionPolicy action) = Ok d /\ pmd_effect d = allow_effect.
Proof.
  intros H. unfold decorate. assert (is_ok (assertIdentifier (js (pd_ruleId (defaultPermissionPolicy action)))
    "policy decision ruleId") = true) as Hid.
  { destruct action as [command|]; [|done]. cbn [defaultPermissionPolicy] in *.
    destruct (evaluateHardDeny command) as [d|] eqn:Ed; [apply hard_deny_effect in Ed; congruence|].
    unfold evaluateExplicitAllow, evaluateDefaultAskOrUnknown in *.
    repeat (case_match; simplify_eq/=; try done). }
  destruct (assertIdentifier _ "policy decision ruleId"); [|done]. unfold mbind. cbn [result_bind].
  rewrite bool_decide_eq_true_2 by done. by eexists.
Qed.

(** C39: What the engine lets run without asking under the default policy:
    exactly the commands whose recomputed digests are the ones they carry and
    whose normal form is git with argv [status], [diff --no-ext-diff] or
    [diff --no-ext-diff --] and pathspecs that are not empty, not URLs and stay in
    the workspace, or [rg --version].  Nothing else, and no MCP action. *)
Theorem engine_allows_exactly action context :
  (exists decision, evaluate defaultPolicy action context = Ok decision /\ pmd_effect decision = allow_effect) <->
  exists claimed command, action = CommandAction claimed /\ create claimed = Ok command /\
    ca_actionSha256 command = ca_actionSha256 claimed /\
    ca_executionInputsSha256 command = ca_executionInputsSha256 claimed /\
    allowed_shape (normalizeProgramName (ca_logicalExecutable command)) (ca_argv command).
Proof.
  unfold PermissionEngine.evaluate. split.
  - intros (d & (outcome & Ho & H)%bind_ok & He). destruct outcome as [verified|denial]; [|injection H as <-; by destruct denial].
    assert (Hp : pd_effect (defaultPermissionPolicy verified) = allow_effect).
    { unfold decorate in H. apply bind_ok in H as (? & _ & H). cbn [pp_evaluate defaultPolicy] in H.
      case_bool_decide as E; [done|]. apply bind_ok in H as (? & _ & H). by injection H as <-. }
    apply default_policy_allows_exactly in Hp as (command & -> & Hs). destruct action as [claimed|mcp].
    + apply verified_command in Ho as (c & [= <-] & Hc & Ha & Hi). eauto 10.
    + by apply verified_mcp in Ho as [? _].
  - intros (claimed & command & -> & Hc & Ha & Hi & Hs).
    rewrite (proj2 (verified_command claimed (CommandAction command))) by eauto. unfold mbind. cbn [result_bind].
    apply allowed_rule, default_policy_allows_exactly. eauto.
Qed.

(** ** Trusted fixtures *)

Lemma verified_identity action verified :
  verifyActionIdentity sha256 localeLe numberText action = Some verified <->
  verifyAction (CommandAction action) = Ok (inl (CommandAction verified)).
Proof.
  rewrite verified_command. unfold verifyActionIdentity. destruct (create action) as [command|]; [|naive_solver].
  case_bool_decide as Ha; cbn [andb]; [case_bool_decide as Hi|]; naive_solver.
Qed.

Lemma verified_identity_unique action command verified :
  verifyAction (CommandAction action) = Ok (inl (CommandAction command)) ->
  verifyActionIdentity sha256 localeLe numberText action = Some verified -> verified = command.
Proof. intros H%verified_identity. rewrite H. by intros [= ->]. Qed.

(** What the review of a fixture context describes. *)
Definition plainNode (verified : CommandActionIdentity) : Prop :=
  ca_logicalExecutable verified = js "node" /\ ca_packageManager verified = None /\
  ca_lifecycleScripts verified = None /\ ei_manifestSha256 (ca_executionInputs verified) = None /\
  ei_lockfileSha256 (ca_executionInputs verified) = None /\
  isTrustedLocalFreeEnvironmentPolicy (ca_environmentPolicy verified) = true.
Definition asReviewed (verified : CommandActionIdentity) (review : TrustedLocalNodeFixtureReview) : Prop :=
  ca_argv verified = tfr_exactArgv review /\ ca_purpose verified = tfr_purpose review /\
  ca_timeoutMs verified = tfr_timeoutMs review /\ ca_outputLimitBytes verified = tfr_outputLimitBytes review /\
  ei_runnerConfigHashes (ca_executionInputs verified) = tfr_requiredFileHashes review.
Definition reviewed (verified : CommandActionIdentity) : Prop :=
  plainNode verified /\
  exists review, review ∈ TRUSTED_PHASE6_NODE_FIXTURE_REVIEWS localeLe ++ TRUSTED_PHASE7_NODE_FIXTURE_REVIEWS localeLe /\
    asReviewed verified review /\ ca_canonicalCwd verified = tfr_canonicalCwd review.

Ltac tests :=
  repeat match goal with
    | H : _ && _ = true |- _ => apply andb_true_iff in H; destruct H
    | H : bool_decide _ = true |- _ => apply bool_decide_eq_true in H
  end.

Lemma fingerprintsEqual_eq left right : fingerprintsEqual left right = true -> left = right.
Proof.
  unfold fingerprintsEqual. rewrite andb_true_iff, Nat.eqb_eq. intros [Hl Hall].
  revert right Hl Hall. induction left as [|[p s] left IH]; intros [|[p' s'] right] [=]; [done|].
  cbn [zip zip_with forallb rc_canonicalPath rc_sha256]. intros Htests. tests.
  f_equal; [congruence|by apply IH].
Qed.

Lemma isPlainNodeFixture_plain verified : isPlainNodeFixture verified = true -> plainNode verified.
Proof. unfold isPlainNodeFixture, plainNode. intros H. repeat case_match; tests; naive_solver. Qed.

Lemma matchesReview_reviewed verified review : matchesReview verified review = true -> asReviewed verified review.
Proof.
  unfold matchesReview, asReviewed. intros H. tests.
  split_and!; try done; try lia; by apply fingerprintsEqual_eq.
Qed.

Lemma phase6_cwd review :
  review ∈ TRUSTED_PHASE6_NODE_FIXTURE_REVIEWS localeLe -> tfr_canonicalCwd review = PHASE6_FIXTURE_CWD.
Proof.
  unfold TRUSTED_PHASE6_NODE_FIXTURE_REVIEWS. rewrite !elem_of_cons. intros H.
  repeat destruct H as [->|H]; try done. by apply elem_of_nil in H.
Qed.

Lemma context_reviewed action context :
  createTrustedLocalFixturePermissionContext sha256 localeLe numberText action = Some context ->
  pc_reviewedLocalActionSha256 context = [ca_actionSha256 action] /\
  exists verified, verifyActionIdentity sha256 localeLe numberText action = Some verified /\ reviewed verified.
Proof.
  unfold createTrustedLocalFixturePermissionContext. intros H. split; [by repeat case_match; simplify_eq|].
  assert (Hm : is_Some (matchTrustedPhase6NodeFixture sha256 localeLe numberText action) \/
               is_Some (matchTrustedPhase7NodeFixture sha256 localeLe numberText action))
    by (repeat case_match; simplify_eq; eauto). clear H.
  destruct Hm as [[review H]|[review H]]; apply bind_Some in H as (verified & Hv & H); exists verified;
    (split; [done|]); destruct (isPlainNodeFixture verified) eqn:Hplain; try done; cbn [andb] in H;
    (split; [by apply isPlainNodeFixture_plain|]).
  - case_bool_decide as Hcwd; [|done]. apply find_some in H as [Hin Hr]. apply list_elem_of_In in Hin.
    exists review. split_and!; [by apply elem_of_app; left|by apply matchesReview_reviewed|]. by rewrite (phase6_cwd review).
  - destruct (has PHASE7_FIXTURE_CWDS (ca_canonicalCwd verified)); [|done]. apply find_some in H as [Hin Hr].
    apply list_elem_of_In in Hin. apply andb_true_iff in Hr as [Hc%bool_decide_eq_true Hr].
    exists review. split_and!; [by apply elem_of_app; right|by apply matchesReview_reviewed|done].
Qed.

Lemma command_environment input command :
  create input = Ok command -> ca_executionEnvironment input = None -> ca_dockerEnvironment command = false.
Proof.
  unfold createCommandActionIdentity. intros (n & Hn & [= <-])%bind_ok He. cbn [ca_normalized]. unfold ca_dockerEnvironment.
  unfold normalizeCommandAction in Hn. rewrite He in Hn.
  repeat (let x := fresh in let Hx := fresh in apply bind_ok in Hn as (x & Hx & Hn);
          try (injection Hx as <-)). by injection Hn as <-.
Qed.

(** The permission context of a trusted fixture admits one action.  When the
    context was made for [action] and the local-free engine does not deny a
    command outside Docker in it, then that command has the same normal form as
    [action], and that form is a plain node run, in the trusted environment, of
    a review that is checked in: its directory, argv, purpose, limits and the
    hashes of every file it pins. *)
Theorem fixture_context_admits_one_action action other context decision :
  collision_free -> namesNumbers numberText ->
  createTrustedLocalFixturePermissionContext sha256 localeLe numberText action = Some context ->
  evaluate localFreePolicy (CommandAction other) context = Ok decision -> pmd_effect decision <> deny_effect ->
  ca_executionEnvironment other = None ->
  (forall claimed verified, claimed ∈ [action; other] ->
    verifyActionIdentity sha256 localeLe numberText claimed = Some verified -> jsAction sha256 numberText verified) ->
  exists verified, verifyActionIdentity sha256 localeLe numberText action = Some verified /\
    verifyActionIdentity sha256 localeLe numberText other = Some verified /\ reviewed verified.
Proof.
  intros Hsha Hn Hc He Hd Henv Hjs. apply context_reviewed in Hc as (Hpc & va & Hva & Hr).
  unfold PermissionEngine.evaluate in He. apply bind_ok in He as (outcome & Ho & He).
  destruct outcome as [vb|denial]; [|injection He as <-; by destruct denial].
  pose proof (proj1 (verified_command _ _) Ho) as (command & -> & Hcreate & Hdigest & _).
  apply verified_identity in Ho as Hvb. exists va. split; [done|]. cut (va = command); [intros ->; by split|].
  assert (Hask : pd_effect (localFreeOnlyPermissionPolicy (CommandAction command) context) = ask_effect).
  { pose proof (proj1 (local_free_asks_only_reviewed (CommandAction command) context)) as Hna.
    unfold decorate in He. cbn [pp_evaluate localFreePolicy] in He. apply bind_ok in He as (? & _ & He).
    destruct (pd_effect (localFreeOnlyPermissionPolicy (CommandAction command) context)); [done|done|].
    apply bind_ok in He as (? & _ & He). by injection He as <-. }
  apply (local_free_asks_only_reviewed (CommandAction command) context) in Hask as [_ [Hdocker|[_ Hin]]].
  { by rewrite (command_environment _ _ Hcreate Henv) in Hdocker. }
  rewrite Hpc in Hin. apply list_elem_of_singleton in Hin.
  assert (CommandAction va = CommandAction command) as [= ->]; [|done].
  eapply (verified_digest_inj (CommandAction action) (CommandAction other)); [done|done|by apply verified_identity|done| | |].
  - apply (Hjs action); [left|done].
  - apply (Hjs other); [right; left|done].
  - cbn. congruence.
Qed.
End Binding.

(** ** Sample actions *)

(** The strings of a concrete value, decided. *)
Fixpoint utf16 (v : CanonicalJsonValue) : bool :=
  let units := forallb (fun u => (0 <=? u) && (u <? 65536)) in
  match v with
  | CNull | CBool _ | CNumber _ => true
  | CString s => units s
  | CArray l => forallb utf16 l
  | CObject r => forallb (fun '(k, v) => units k && utf16 v) r
  end.

Lemma units_utf16 s : forallb (fun u => (0 <=? u) && (u <? 65536)) s = true -> Forall isUnit16 s.
Proof.
  intros H. apply list.Forall_forall. intros u Hu. rewrite forallb_forall in H. unfold isUnit16.
  apply list_elem_of_In, H in Hu. lia.
Qed.

Lemma utf16_strings v : utf16 v = true -> strings16 v.
Proof.
  induction v as [| | |s|l IH|r IH] using digest_nested_ind; cbn [utf16 strings16]; try done.
  - apply units_utf16.
  - induction IH as [|v l Hv _ IHl]; [done|]. cbn. intros [H1 H2]%andb_true_iff. split; [by apply Hv|by apply IHl].
  - induction IH as [|[k v] r Hv _ IHr]; [done|]. cbn. intros [[H0 H1]%andb_true_iff H2]%andb_true_iff.
    split; [split; [by apply units_utf16|by apply Hv]|by apply IHr].
Qed.

(** A stand-in for the text of a number: its mantissa and exponent. *)
Definition standInNumber (x : spec_float) : jstring :=
  match x with
  | S754_finite _ m e => stringifyNumber (Z.pos m) ++ 0x65 :: stringifyNumber e
  | _ => js "0"
  end.

Lemma cpuNumber_finite x : cpuNumber x -> exists m e, x = S754_finite false m e.
Proof. intros (_ & Hf & Hlow & _). destruct x as [[]|[]| |[] m e]; try done. eauto. Qed.

Lemma numeric_split a b k k' :
  Forall numeric a -> Forall numeric b -> a ++ 0x65 :: k = b ++ 0x65 :: k' -> a = b /\ k = k'.
Proof.
  unfold numeric. intros Ha Hb. revert b Hb. induction Ha as [|x a Hx Ha IH]; intros b Hb H; destruct Hb as [|y b Hy Hb]; simpl in H.
  - by injection H as ->.
  - injection H as <- _. lia.
  - injection H as -> _. lia.
  - injection H as <- H. by destruct (IH b Hb H) as [-> ->].
Qed.

Lemma standInNumber_names : namesNumbers standInNumber.
Proof.
  split.
  - intros x (m & e & ->)%cpuNumber_finite. cbn [standInNumber]. split; [by destruct (stringifyNumber (Z.pos m))|].
    apply Forall_app. split; [|constructor; [by right; right; right; left|]];
      (eapply list.Forall_impl; [apply stringifyNumber_numeric|apply numeric_numberUnit]).
  - intros x y (m & e & ->)%cpuNumber_finite (m' & e' & ->)%cpuNumber_finite. cbn [standInNumber]. intros H.
    apply numeric_split in H as [Hm He]; [|apply stringifyNumber_numeric..].
    destruct (stringifyNumber_inj (Z.pos m) (Z.pos m') [] [] I I) as [[= ->] _]; [by rewrite !app_nil_r|].
    destruct (stringifyNumber_inj e e' [] [] I I) as [-> _]; [by rewrite !app_nil_r|]. done.
Qed.

Module SampleActions.
Definition digest (d : string) : jstring := js (String.concat "" (replicate 64 d)).

(** A reviewed fixture, on the host or in a container. *)
Definition review : TrustedLocalNodeFixtureReview :=
  default (fixtureReview jstring_le [] "" "" "" [] None) (head (TRUSTED_PHASE6_NODE_FIXTURE_REVIEWS jstring_le)).

Definition docker : DockerCommandEnvironmentIdentity := {|
  dce_executor := js "docker"; dce_imageDigest := js "sha256:" ++ digest "a";
  dce_imageIdentity := Some (registry_digest (js "node@sha256:" ++ digest "a") (js "sha256:" ++ digest "b"));
  dce_imageReference := js "node@sha256:" ++ digest "a"; dce_network := js "none"; dce_policyVersion := js "1";
  dce_resourceLimits := {| drl_cpus := quarter; drl_memoryMiB := 256; drl_pids := 32; drl_tmpMiB := 16 |};
  dce_snapshotSha256 := digest "c"; dce_sourceStateSha256 := digest "d"; dce_wrapperSha256 := digest "e" |}.

Definition action (executable cwd : string) (environment : option DockerCommandEnvironmentIdentity)
  : NormalizedCommandAction := {|
  ca_argv := tfr_exactArgv review;
  ca_binary := {| bf_canonicalIdentity := js "/usr/bin/node"; bf_bytesSha256 := digest "1"; bf_version := js "22" |};
  ca_canonicalCwd := js cwd;
  ca_environmentPolicy := {| ep_id := TRUSTED_LOCAL_ENVIRONMENT_POLICY_ID;
    ep_variableNames := sortText REQUIRED_LOCAL_FREE_ENVIRONMENT_NAMES; ep_version := TRUSTED_LOCAL_ENVIRONMENT_POLICY_VERSION |};
  ca_executionEnvironment := environment;
  ca_executionInputs := {| ei_lockfileSha256 := None; ei_manifestSha256 := None;
    ei_runnerConfigHashes := tfr_requiredFileHashes review |};
  ca_lifecycleScripts := None; ca_logicalExecutable := js executable; ca_outputLimitBytes := 131072;
  ca_packageManager := None; ca_purpose := purpose_verify; ca_timeoutMs := 120000 |}.

Notation identity := (fun s : jstring => s).
Notation create sha256 := (createCommandActionIdentity sha256 jstring_le standInNumber).
Notation fixture := "fixtures/phase-06-command-execution"%string.

(** The identity of an action, carried by an action that is spelled otherwise. *)
Definition carried (sha256 : jstring -> jstring) (spelled input : NormalizedCommandAction) : CommandActionIdentity :=
  match create sha256 input with
  | Ok command => {| ca_normalized := spelled; ca_actionSha256 := ca_actionSha256 command;
                     ca_executionInputsSha256 := ca_executionInputsSha256 command |}
  | Err _ => {| ca_normalized := spelled; ca_actionSha256 := []; ca_executionInputsSha256 := [] |}
  end.

Definition plain (environment : option DockerCommandEnvironmentIdentity) : CommandActionIdentity :=
  carried identity (action "node" fixture environment) (action "node" fixture environment).
Definition spelled (environment : option DockerCommandEnvironmentIdentity) : CommandActionIdentity :=
  carried identity (action " Node" "./fixtures//phase-06-command-execution" environment) (action "node" fixture environment).

Lemma plain_js environment :
  environment = None \/ environment = Some docker -> jsAction identity standInNumber (plain environment).
Proof.
  intros He. split; [|split; apply utf16_strings; destruct He as [->| ->]; vm_compute; reflexivity].
  destruct He as [->| ->]; [exact I|]. repeat split.
Qed.

Lemma plain_verifies environment claimed :
  environment = None \/ environment = Some docker -> claimed = plain environment \/ claimed = spelled environment ->
  verifyAction identity jstring_le standInNumber (CommandAction claimed) = Ok (inl (CommandAction (plain environment))).
Proof. intros [->| ->] [->| ->]; vm_compute; reflexivity. Qed.


Notation constant := (fun _ : jstring => digest "0").

Definition call : McpToolCallActionInput := {|
  mti_argumentsValue := JObj [(js "q", JStr (js "x"))]; mti_callTimeoutMs := 1000; mti_catalogSha256 := digest "1";
  mti_configSha256 := digest "2"; mti_modelToolName := js "mcp__s__find"; mti_processIdentitySha256 := digest "3";
  mti_rawToolName := js "find"; mti_schemaSha256 := digest "4"; mti_serverId := js "s" |}.

Lemma created_actions_are_judged_witness :
  exists command mcp, create constant (action " Node" "./fixtures//phase-06-command-execution" None) = Ok command /\
    createMcpToolCallActionIdentity constant call = Ok mcp /\
    forall policy context,
      evaluate constant jstring_le standInNumber policy (CommandAction command) context =
        decorate policy (pp_evaluate policy (CommandAction command) context) /\
      evaluate constant jstring_le standInNumber policy (McpAction (McpToolCall mcp)) context =
        decorate policy (pp_evaluate policy (McpAction (McpToolCall mcp)) context).
Proof.
  do 2 eexists. split; [vm_compute; reflexivity|]. split; [vm_compute; reflexivity|]. intros policy context.
  split; apply (created_actions_are_judged constant jstring_le standInNumber jstring_le_trans jstring_le_total);
    try (intros _; vm_compute; reflexivity).
  - apply (created_command _ _ _ (action " Node" "./fixtures//phase-06-command-execution" None));
      [vm_compute; reflexivity|]. split; [vm_compute; reflexivity|]. repeat constructor.
  - apply (created_call _ _ _ call). vm_compute. reflexivity.
Defined.

(** A path that looks like one on a drive once it is normalised. *)
Example drive_path_is_built_and_refused :
  exists command, create constant (action "node" "./C:/work" None) = Ok command /\
    ca_canonicalCwd command = js "C:/work" /\
    forall policy context, evaluate constant jstring_le standInNumber policy (CommandAction command) context =
      Ok (denyIdentity policy invalid_action_identity).
Proof.
  eexists. split; [vm_compute; reflexivity|]. split; [vm_compute; reflexivity|]. intros policy context.
  apply (drive_paths_are_refused constant jstring_le standInNumber jstring_le_trans jstring_le_total
    (action "node" "./C:/work" None)); [vm_compute; reflexivity|]. by intros [H _].
Qed.

Definition fixtureContext : PermissionContext :=
  default {| pc_reviewedLocalActionSha256 := []; pc_reviewedOfflineMcpActionSha256 := [];
             pc_frozenCapabilityMcpActionSha256 := []; pc_reviewedOfflineMcpServerIds := []; pc_startedMcpServerIds := [] |}
    (createTrustedLocalFixturePermissionContext identity jstring_le standInNumber (plain None)).

Lemma fixture_context_admits_one_action_witness :
  exists verified, verifyActionIdentity identity jstring_le standInNumber (plain None) = Some verified /\
    verifyActionIdentity identity jstring_le standInNumber (spelled None) = Some verified /\
    reviewed jstring_le verified.
Proof.
  eapply (fixture_context_admits_one_action identity jstring_le standInNumber (plain None) (spelled None) fixtureContext).
  - by intros ??.
  - apply standInNumber_names.
  - vm_compute. reflexivity.
  - vm_compute. reflexivity.
  - discriminate.
  - reflexivity.
  - intros claimed verified Hin Hv.
    assert (Hc : claimed = plain None \/ claimed = spelled None)
      by (apply elem_of_cons in Hin as [?|?%list_elem_of_singleton]; [by left|by right]).
    rewrite (verified_identity_unique _ _ _ _ _ _ (plain_verifies None claimed (or_introl eq_refl) Hc) Hv).
    apply plain_js. by left.
Defined.
End SampleActions.
