(* ===== verification/ContainerLifecycle.v ===== *)
(** * The life of a sandbox container

    [src/execution/docker/container-lifecycle.ts] (the projector of the facts
    about a container), [container-reconciler.ts] (what to do about a container
    whose run was interrupted) and [container-reconciliation-runtime.ts] (doing
    it, against the daemon and the log).  The daemon and the appender answer
    arbitrarily at each call, and everything they were asked is on a trace. *)

From S2P Require Import Prelude JsString CanonicalJson Permissions ActionIdentity.
#[local] Open Scope Z_scope.

(** ** Facts *)

Record DigestPinnedImageReference : Type := { dpi_digest : jstring; dpi_reference : jstring; dpi_repository : jstring }.

Record ContainerLifecycleIdentity : Type := {
  cli_name : jstring; cli_hostname : jstring; cli_runId : jstring; cli_executionId : jstring; cli_nonce : jstring;
  cli_image : DigestPinnedImageReference; cli_imageIdentity : option DockerExecutionImageIdentity;
  cli_snapshotSha256 : jstring }.

Inductive ContainerCleanupResolution : Type :=
| effect_unknown_absent
| never_created
| never_started
| terminal_inspected.
#[export] Instance ContainerCleanupResolution_eq : EqDecision ContainerCleanupResolution.
Proof. solve_decision. Defined.

Inductive ContainerStopReason : Type := stop_abort | stop_output_limit | stop_storage_failure | stop_timeout | stop_wait_error.

Record TerminalEvidence : Type := {
  te_exitCode : Z; te_finishedAt : jstring; te_oomKilled : bool; te_startedAt : jstring; te_stateError : option jstring }.

Inductive ContainerLifecycleFact : Type :=
| fact_create_requested (identity : ContainerLifecycleIdentity)
| fact_created (containerId : jstring)
| fact_start_requested
| fact_started (recovered : bool)
| fact_stopping (reason : ContainerStopReason)
| fact_exited (exitCode : Z) (recovered : bool)
| fact_inspected (evidence : TerminalEvidence)
| fact_cleaned (recovered : bool) (resolution : ContainerCleanupResolution).

(** [ContainerLifecycleError], zod's errors, [DockerPolicyError], the plain
    errors of the runtime and what the daemon or the appender throw. *)
Inductive SandboxError : Type :=
| lifecycle_error (code : string)
| identity_error (error : IdentityError)
| schema_error
| docker_policy_error (code : string)
| plain_error (text : string)
| port_error (text : jstring).

(** *** Tests *)

Definition hexText (n : nat) (s : jstring) : bool := (length s =? n)%nat && forallb isLowerHexUnit s.
Definition prefixedHex (prefix : string) (n : nat) (s : jstring) : bool :=
  startsWith s (js prefix) && hexText n (drop (String.length prefix) s).
(** [/^[0-9a-f]{64}$/u] *)
Definition isContainerId : jstring -> bool := hexText 64.

(** [/^[0-9a-f]{8}-[0-9a-f]{4}-[1-8][0-9a-f]{3}-[89ab][0-9a-f]{3}-[0-9a-f]{12}$/u] *)
Definition isLifecycleUuid (s : jstring) : bool :=
  match splitUnit 0x2d s with
  | [a; b; v :: c; w :: d; e] =>
      hexText 8 a && hexText 4 b && ((0x31 <=? v) && (v <=? 0x38)) && hexText 3 c &&
      bool_decide (w ∈ [0x38; 0x39; 0x61; 0x62]) && hexText 3 d && hexText 12 e
  | _ => false
  end.

Definition atDigest (image : DigestPinnedImageReference) : jstring := dpi_repository image ++ 0x40 :: dpi_digest image.

Definition lifecycleImageMatches (image : DigestPinnedImageReference) (executionIdentity : option DockerExecutionImageIdentity) : bool :=
  match executionIdentity with
  | None => dpi_reference image === atDigest image
  | Some (registry_digest reference _) =>
      (reference === dpi_reference image) && (dpi_reference image === atDigest image)
  | Some (trusted_local_build build) =>
      (tlb_configImageId build === dpi_reference image) && (tlb_configImageId build === dpi_digest image) &&
      (dpi_repository image === [])
  end.

(** An exception of [action-digest.ts] or of a schema it uses. *)
Definition identityResult {A} (r : result IdentityError A) : result SandboxError A :=
  match r with Ok a => Ok a | Err e => Err (identity_error e) end.

Definition assertIdentity (identity : ContainerLifecycleIdentity) : result SandboxError () :=
  executionIdentity ← match cli_imageIdentity identity with
    | None => Ok None
    | Some image => restored ← identityResult
                      (restoreDockerExecutionImageIdentity (persistDockerExecutionImageIdentity image));
                    Ok (Some restored)
    end;
  throw_when (negb (prefixedHex "bornagent-" 24 (cli_name identity)) ||
              negb (prefixedHex "born-" 12 (cli_hostname identity)) ||
              negb (isLifecycleUuid (cli_runId identity)) || negb (isLifecycleUuid (cli_executionId identity)) ||
              negb (isLifecycleUuid (cli_nonce identity)) || negb (hexText 64 (cli_snapshotSha256 identity)) ||
              negb (prefixedHex "sha256:" 64 (dpi_digest (cli_image identity))) ||
              negb (lifecycleImageMatches (cli_image identity) executionIdentity))
    (lifecycle_error "invalid_lifecycle_identity").

Definition isExitCode (value : Z) : bool := isSafeInteger value && (0 <=? value) && (value <=? 255).
Definition assertExitCode (value : Z) : result SandboxError () :=
  throw_when (negb (isExitCode value)) (lifecycle_error "invalid_exit_code").

Definition hasLineBreak (s : jstring) : bool := includes s [10] || includes s [13].

(** ** The projector *)

(** The variables of the loop. *)
Record LifecycleState : Type := {
  lc_containerId : option jstring; lc_created : bool; lc_startRequested : bool; lc_started : bool; lc_stopping : bool;
  lc_exited : option Z; lc_inspected : bool; lc_cleaned : option ContainerCleanupResolution }.
#[export] Instance LifecycleState_eta : Eta LifecycleState := fun r =>
  Build_LifecycleState (lc_containerId r) (lc_created r) (lc_startRequested r) (lc_started r) (lc_stopping r)
    (lc_exited r) (lc_inspected r) (lc_cleaned r).
#[export] Instance set_lc_containerId : Setter lc_containerId := ltac:(derive_setter).
#[export] Instance set_lc_created : Setter lc_created := ltac:(derive_setter).
#[export] Instance set_lc_startRequested : Setter lc_startRequested := ltac:(derive_setter).
#[export] Instance set_lc_started : Setter lc_started := ltac:(derive_setter).
#[export] Instance set_lc_stopping : Setter lc_stopping := ltac:(derive_setter).
#[export] Instance set_lc_exited : Setter lc_exited := ltac:(derive_setter).
#[export] Instance set_lc_inspected : Setter lc_inspected := ltac:(derive_setter).
#[export] Instance set_lc_cleaned : Setter lc_cleaned := ltac:(derive_setter).

Definition isSome {A} (o : option A) : bool := match o with Some _ => true | None => false end.

Inductive CleanupState : Type := cleanup_pending | cleanup_verified.
#[export] Instance CleanupState_eq : EqDecision CleanupState.
Proof. solve_decision. Defined.
Inductive EffectState : Type := effect_none | effect_start_unknown | effect_started | effect_terminal.
Inductive ResumeDisposition : Type := resume_complete | resume_incomplete_do_not_replay | resume_reconcile_only.

Record ContainerLifecycleProjection : Type := {
  clp_cleanupState : CleanupState; clp_containerId : option jstring; clp_effectState : EffectState;
  clp_facts : list ContainerLifecycleFact; clp_identity : ContainerLifecycleIdentity;
  clp_resumeDisposition : ResumeDisposition; clp_safeToPublishCommandTerminal : bool }.

Definition initialLifecycle : LifecycleState := {|
  lc_containerId := None; lc_created := false; lc_startRequested := false; lc_started := false; lc_stopping := false;
  lc_exited := None; lc_inspected := false; lc_cleaned := None |}.

Definition resolutionValid (s : LifecycleState) (resolution : ContainerCleanupResolution) : bool :=
  match resolution with
  | terminal_inspected => lc_inspected s
  | never_created => negb (lc_created s) && negb (lc_startRequested s)
  | never_started => lc_created s && negb (lc_startRequested s)
  | effect_unknown_absent => lc_startRequested s && negb (lc_inspected s)
  end.

Section Projector.
(** Whether [Date.parse] gives a number. *)
Context (dateParses : jstring -> bool).

Definition assertTimestamp (value : jstring) : result SandboxError () :=
  throw_when ((100 <? length value)%nat || negb (dateParses value) || hasLineBreak value)
    (lifecycle_error "invalid_container_timestamp").

(** The body of the loop. *)
Definition lifecycleStep (s : LifecycleState) (fact : ContainerLifecycleFact) : result SandboxError LifecycleState :=
  _ ← throw_when (isSome (lc_cleaned s)) (lifecycle_error "fact_after_cleanup");
  match fact with
  | fact_create_requested _ => Err (lifecycle_error "duplicate_create_request")
  | fact_created containerId =>
      _ ← throw_when (lc_created s || lc_startRequested s || negb (isContainerId containerId))
            (lifecycle_error "invalid_created_fact");
      Ok (s <| lc_created := true |> <| lc_containerId := Some containerId |>)
  | fact_start_requested =>
      _ ← throw_when (negb (lc_created s) || lc_startRequested s || isSome (lc_exited s))
            (lifecycle_error "invalid_start_request");
      Ok (s <| lc_startRequested := true |>)
  | fact_started _ =>
      _ ← throw_when (negb (lc_startRequested s) || lc_started s || isSome (lc_exited s))
            (lifecycle_error "invalid_started_fact");
      Ok (s <| lc_started := true |>)
  | fact_stopping _ =>
      _ ← throw_when (negb (lc_startRequested s) || lc_stopping s || isSome (lc_exited s))
            (lifecycle_error "invalid_stopping_fact");
      Ok (s <| lc_stopping := true |>)
  | fact_exited exitCode recovered =>
      _ ← assertExitCode exitCode;
      _ ← throw_when (negb (lc_startRequested s) || isSome (lc_exited s) || lc_inspected s ||
                      (negb (lc_started s) && negb recovered))
            (lifecycle_error "invalid_exited_fact");
      Ok (s <| lc_exited := Some exitCode |>)
  | fact_inspected evidence =>
      _ ← assertExitCode (te_exitCode evidence);
      _ ← assertTimestamp (te_startedAt evidence);
      _ ← assertTimestamp (te_finishedAt evidence);
      _ ← throw_when (match lc_exited s with None => true | Some exitCode => te_exitCode evidence !== exitCode end ||
                      lc_inspected s ||
                      match te_stateError evidence with
                      | None => false
                      | Some stateError => (500 <? Z.of_nat (length stateError)) || hasLineBreak stateError
                      end)
            (lifecycle_error "invalid_inspected_fact");
      Ok (s <| lc_inspected := true |>)
  | fact_cleaned _ resolution =>
      _ ← throw_when (negb (resolutionValid s resolution)) (lifecycle_error "invalid_cleanup_resolution");
      Ok (s <| lc_cleaned := Some resolution |>)
  end.

Definition containerProjectionOf (identity : ContainerLifecycleIdentity) (facts : list ContainerLifecycleFact) (s : LifecycleState)
  : ContainerLifecycleProjection :=
  let safe := lc_inspected s && (lc_cleaned s === Some terminal_inspected) in {|
  clp_cleanupState := match lc_cleaned s with None => cleanup_pending | Some _ => cleanup_verified end;
  clp_containerId := lc_containerId s;
  clp_effectState := if lc_inspected s then effect_terminal else if lc_started s then effect_started
                     else if lc_startRequested s then effect_start_unknown else effect_none;
  clp_facts := facts; clp_identity := identity;
  clp_resumeDisposition := match lc_cleaned s with
                           | None => resume_reconcile_only
                           | Some _ => if safe then resume_complete else resume_incomplete_do_not_replay
                           end;
  clp_safeToPublishCommandTerminal := safe |}.

Definition projectContainerLifecycle (input : list ContainerLifecycleFact)
  : result SandboxError ContainerLifecycleProjection :=
  match input with
  | fact_create_requested identity :: rest =>
      _ ← assertIdentity identity;
      s ← foldM lifecycleStep rest initialLifecycle;
      Ok (containerProjectionOf identity input s)
  | _ => Err (lifecycle_error "create_request_required")
  end.

(** ** The plan of a reconciliation *)

Inductive ContainerStatus : Type := status_created | status_dead | status_exited | status_removing | status_running.

Inductive ContainerRuntimeObservation : Type :=
| daemon_unavailable
| absent (absentById absentByName : bool)
| identity_mismatch
| present_exact (containerId : jstring) (state : ContainerStatus).

Inductive ContainerReconciliationAction : Type :=
| collect_bounded_logs
| inspect_exact
| kill_if_still_running
| remove_force_exact
| record_exited
| record_stopping
| record_terminal_inspect
| record_recovered_cleaned (resolution : ContainerCleanupResolution)
| stop_exact
| wait_terminal
| prove_absent_by_id
| prove_absent_by_name.

Inductive PlanDisposition : Type := plan_blocked | plan_cleanup_only | plan_effect_unknown_cleanup | plan_resolved.
#[export] Instance PlanDisposition_eq : EqDecision PlanDisposition.
Proof. solve_decision. Defined.

Record ContainerReconciliationPlan : Type := {
  crp_actions : list ContainerReconciliationAction; crp_disposition : PlanDisposition; crp_reason : string }.

Definition planResult (disposition : PlanDisposition) (reason : string) (actions : list ContainerReconciliationAction)
  : ContainerReconciliationPlan :=
  {| crp_actions := actions; crp_disposition := disposition; crp_reason := reason |}.

Definition cleanupTail (resolution : ContainerCleanupResolution) : list ContainerReconciliationAction :=
  [remove_force_exact; prove_absent_by_id; prove_absent_by_name; record_recovered_cleaned resolution].

Definition isCreatedFact (f : ContainerLifecycleFact) : bool := match f with fact_created _ => true | _ => false end.
Definition isStartRequest (f : ContainerLifecycleFact) : bool := match f with fact_start_requested => true | _ => false end.
Definition isInspectedFact (f : ContainerLifecycleFact) : bool := match f with fact_inspected _ => true | _ => false end.

Definition planContainerReconciliation (prefix : list ContainerLifecycleFact) (observation : ContainerRuntimeObservation)
  : result SandboxError ContainerReconciliationPlan :=
  projection ← projectContainerLifecycle prefix;
  let created := existsb isCreatedFact (clp_facts projection) in
  let startRequested := existsb isStartRequest (clp_facts projection) in
  let inspected := existsb isInspectedFact (clp_facts projection) in
  Ok (if clp_cleanupState projection === cleanup_verified
      then planResult plan_resolved "cleanup is already durably verified" []
      else match observation with
      | daemon_unavailable =>
          planResult plan_blocked "Docker daemon unavailable; terminal state and absence cannot be proven" []
      | identity_mismatch =>
          planResult plan_blocked "reserved name or id belongs to a different nonce identity" []
      | absent absentById absentByName =>
          if negb absentById || negb absentByName
          then planResult plan_blocked "cleanup needs exact absence proof by both container id and reserved name" []
          else
            let resolution := if inspected then terminal_inspected else if startRequested then effect_unknown_absent
                              else if created then never_started else never_created in
            if startRequested && negb inspected
            then planResult plan_effect_unknown_cleanup
                   "container is absent but the prior start effect has no terminal evidence"
                   [record_recovered_cleaned resolution]
            else planResult plan_cleanup_only "container absence can be recorded without replay"
                   [record_recovered_cleaned resolution]
      | present_exact containerId state =>
          if match clp_containerId projection with Some durable => containerId !== durable | None => false end
          then planResult plan_blocked "runtime observation does not match the exact durable container id" []
          else if inspected
          then planResult plan_cleanup_only "terminal evidence exists; remove exact object and prove absence"
                 (cleanupTail terminal_inspected)
          else if negb startRequested
          then match state with
               | status_running =>
                   planResult plan_blocked "container is running without a durable start request" []
               | _ =>
                   planResult plan_cleanup_only
                     "container was never durably authorized to start and must not be started now"
                     (cleanupTail (if created then never_started else never_created))
               end
          else match state with
               | status_running =>
                   planResult plan_effect_unknown_cleanup
                     "unknown start effect is running; stop process tree and collect terminal evidence"
                     ([inspect_exact; record_stopping; stop_exact; kill_if_still_running; wait_terminal; record_exited;
                       collect_bounded_logs; record_terminal_inspect] ++ cleanupTail terminal_inspected)
               | status_exited | status_dead =>
                   planResult plan_effect_unknown_cleanup
                     "unknown start effect exited; recover bounded logs and terminal inspect without replay"
                     ([collect_bounded_logs; wait_terminal; record_exited; record_terminal_inspect] ++
                      cleanupTail terminal_inspected)
               | _ =>
                   planResult plan_effect_unknown_cleanup
                     "start was requested but no terminal evidence exists; remove without replay"
                     (inspect_exact :: cleanupTail effect_unknown_absent)
               end
      end).
End Projector.

(** ** The events of a log *)

(** The fields every event of a container has. *)
Record SandboxCommon : Type := { sbc_actionSha256 : jstring; sbc_containerIdentitySha256 : jstring; sbc_executionId : jstring }.
#[export] Instance SandboxCommon_eq : EqDecision SandboxCommon.
Proof. solve_decision. Defined.

Record CreateRequestedData : Type := {
  crd_containerName : jstring; crd_hostname : jstring; crd_imageDigest : jstring;
  crd_imageIdentity : option CanonicalJsonValue; crd_nonce : jstring; crd_snapshotSha256 : jstring }.

Inductive SandboxEventData : Type :=
| data_create_requested (data : CreateRequestedData)
| data_created (containerId containerIdSha256 : jstring)
| data_start_requested
| data_started
| data_stopping (reason : ContainerStopReason)
| data_exited (exitCode : Z) (recovered : bool)
| data_inspected (evidence : TerminalEvidence)
| data_cleaned (recovered : bool) (resolution : ContainerCleanupResolution).

(** A decoded event, as far as containers are concerned: of [run.started] the
    reference of the run's image. *)
Inductive ContainerLogEvent : Type :=
| run_started_event (image : option jstring)
| sandbox_event (runId : jstring) (common : SandboxCommon) (data : SandboxEventData)
| other_event.

(** What an event adds to a lifecycle after its create request. *)
Definition factOf (data : SandboxEventData) : option ContainerLifecycleFact :=
  match data with
  | data_create_requested _ => None
  | data_created containerId _ => Some (fact_created containerId)
  | data_start_requested => Some fact_start_requested
  | data_started => Some (fact_started false)
  | data_stopping reason => Some (fact_stopping reason)
  | data_exited exitCode recovered => Some (fact_exited exitCode recovered)
  | data_inspected evidence => Some (fact_inspected evidence)
  | data_cleaned recovered resolution => Some (fact_cleaned recovered resolution)
  end.

Record CollectedLifecycle : Type := {
  cl_actionSha256 : jstring; cl_containerIdentitySha256 : jstring; cl_executionId : jstring;
  cl_facts : list ContainerLifecycleFact; cl_runId : jstring }.
#[export] Instance CollectedLifecycle_eta : Eta CollectedLifecycle := fun r =>
  Build_CollectedLifecycle (cl_actionSha256 r) (cl_containerIdentitySha256 r) (cl_executionId r) (cl_facts r) (cl_runId r).
#[export] Instance set_cl_facts : Setter cl_facts := ltac:(derive_setter).

Definition commonData (lifecycle : CollectedLifecycle) : SandboxCommon := {|
  sbc_actionSha256 := cl_actionSha256 lifecycle; sbc_containerIdentitySha256 := cl_containerIdentitySha256 lifecycle;
  sbc_executionId := cl_executionId lifecycle |}.

(** *** References of images *)

Fixpoint lastIndexOf (p s : jstring) : option nat :=
  match s with
  | [] => None
  | _ :: r => match lastIndexOf p r with
              | Some i => Some (S i)
              | None => if startsWith s p then Some 0%nat else None
              end
  end.

Definition isRepository (repository : jstring) : bool :=
  match repository, last repository with
  | first :: _ :: _, Some final => isLowerAlnum first && isLowerAlnum final && forallb isReferenceUnit repository
  | _, _ => false
  end.

Definition parseDigestPinnedImageReference (value : jstring) : result SandboxError DigestPinnedImageReference :=
  _ ← throw_when ((length value <? 73)%nat || (500 <? length value)%nat || (value !== toLowerCase value) ||
                  hasNul value || hasLineBreak value || includes value [0x20] || includes value (js "://"))
        (docker_policy_error "invalid_image_reference");
  match lastIndexOf (js "@sha256:") value with
  | Some (S _ as separator) =>
      _ ← throw_when (indexOfUnit 0x40 value !== Some separator) (docker_policy_error "image_not_digest_pinned");
      let repository := take separator value in
      let digestHex := drop (separator + 8) value in
      _ ← throw_when (negb (SHA256_PATTERN digestHex) || negb (isRepository repository) ||
                      includes repository (js "//") || includes repository (js ".."))
            (docker_policy_error "invalid_image_reference");
      _ ← throw_when (includes (default [] (last (splitUnit 0x2f repository))) [0x3a])
            (docker_policy_error "tagged_image_reference_denied");
      Ok {| dpi_digest := js "sha256:" ++ digestHex; dpi_reference := value; dpi_repository := repository |}
  | _ => Err (docker_policy_error "image_not_digest_pinned")
  end.

(** *** The collection of lifecycles *)

(** [persistDockerExecutionImageIdentity], as a value of the other canonical JSON. *)
Definition imageIdentityJson (identity : DockerExecutionImageIdentity) : json :=
  match identity with
  | registry_digest reference configImageId => JObj [
      (js "config_image_id", JStr configImageId); (js "kind", JStr (js "registry_digest"));
      (js "reference", JStr reference)]
  | trusted_local_build build => JObj [
      (js "artifact_id", JStr (tlb_artifactId build)); (js "artifact_lock_sha256", JStr (tlb_artifactLockSha256 build));
      (js "base_image_digests", JArr (JStr <$> tlb_baseImageDigests build));
      (js "config_image_id", JStr (tlb_configImageId build));
      (js "context_manifest_sha256", JStr (tlb_contextManifestSha256 build));
      (js "dockerfile_sha256", JStr (tlb_dockerfileSha256 build)); (js "kind", JStr (js "trusted_local_build"))]
  end.

Section Collection.
(** SHA-256 of a text, [Date.parse], and zod's tests of uuids and of times with
    an offset. *)
Context (sha256 : jstring -> jstring) (dateParses zodUuid zodDatetime : jstring -> bool).

Definition identitySha256 (identity : ContainerLifecycleIdentity) : result SandboxError jstring :=
  identityResult (sha256Json sha256 (JObj (
    [(js "execution_id", JStr (cli_executionId identity)); (js "hostname", JStr (cli_hostname identity));
     (js "image_digest", JStr (dpi_digest (cli_image identity)))] ++
    match cli_imageIdentity identity with
    | None => []
    | Some imageIdentity => [(js "image_identity", imageIdentityJson imageIdentity)]
    end ++
    [(js "name", JStr (cli_name identity)); (js "nonce", JStr (cli_nonce identity));
     (js "run_id", JStr (cli_runId identity)); (js "snapshot_sha256", JStr (cli_snapshotSha256 identity))]))).

(** [phase13SandboxRunEventDataSchemas[type].parse(data)] of the events of a container. *)
Definition sandboxSchema (common : SandboxCommon) (data : SandboxEventData) : bool :=
  SHA256_PATTERN (sbc_actionSha256 common) && zodUuid (sbc_executionId common) &&
  SHA256_PATTERN (sbc_containerIdentitySha256 common) &&
  match data with
  | data_create_requested d =>
      prefixedHex "bornagent-" 24 (crd_containerName d) && prefixedHex "born-" 12 (crd_hostname d) &&
      sha256Id (crd_imageDigest d) &&
      match crd_imageIdentity d with None => true | Some i => is_ok (restoreDockerExecutionImageIdentity i) end &&
      zodUuid (crd_nonce d) && SHA256_PATTERN (crd_snapshotSha256 d)
  | data_created containerId containerIdSha256 => isContainerId containerId && SHA256_PATTERN containerIdSha256
  | data_exited exitCode _ => (0 <=? exitCode) && (exitCode <=? 255)
  | data_inspected e =>
      (0 <=? te_exitCode e) && (te_exitCode e <=? 255) && zodDatetime (te_finishedAt e) && zodDatetime (te_startedAt e) &&
      match te_stateError e with None => true | Some stateError => byteLength stateError <=? 500 end
  | data_start_requested | data_started | data_stopping _ | data_cleaned _ _ => true
  end.

Definition parseSandbox (common : SandboxCommon) (data : SandboxEventData) : result SandboxError () :=
  throw_when (negb (sandboxSchema common data)) schema_error.

(** [requireGroup] *)
Definition requireGroup (groups : jsmap jstring CollectedLifecycle) (runId : jstring) (common : SandboxCommon)
  : result SandboxError CollectedLifecycle :=
  match jm_get (sbc_executionId common) groups with
  | Some group =>
      if (cl_runId group !== runId) || (cl_actionSha256 group !== sbc_actionSha256 common) ||
         (cl_containerIdentitySha256 group !== sbc_containerIdentitySha256 common)
      then Err (plain_error "sandbox lifecycle event has no matching durable create identity")
      else Ok group
  | None => Err (plain_error "sandbox lifecycle event has no matching durable create identity")
  end.

(** The identity that a create request describes. *)
Definition requestedIdentity (imageReference : option jstring) (runId executionId : jstring) (d : CreateRequestedData)
  : result SandboxError (ContainerLifecycleIdentity * jstring) :=
  imageIdentity ← match crd_imageIdentity d with
    | None => Ok None
    | Some i => restored ← identityResult (restoreDockerExecutionImageIdentity i); Ok (Some restored)
    end;
  selectedReference ← match imageIdentity, imageReference with
    | Some identity, _ => Ok (executionReference identity)
    | None, Some reference => Ok reference
    | None, None => Err (plain_error "sandbox lifecycle has no immutable run image")
    end;
  image ← match imageIdentity with
    | Some (trusted_local_build build) =>
        Ok {| dpi_digest := tlb_configImageId build; dpi_reference := tlb_configImageId build; dpi_repository := [] |}
    | _ => parseDigestPinnedImageReference selectedReference
    end;
  Ok ({| cli_name := crd_containerName d; cli_hostname := crd_hostname d; cli_runId := runId;
         cli_executionId := executionId; cli_nonce := crd_nonce d; cli_image := image;
         cli_imageIdentity := imageIdentity; cli_snapshotSha256 := crd_snapshotSha256 d |}, selectedReference).

(** The body of the loop over the events. *)
Definition collectStep (imageReference : option jstring) (groups : jsmap jstring CollectedLifecycle)
    (event : ContainerLogEvent) : result SandboxError (jsmap jstring CollectedLifecycle) :=
  match event with
  | sandbox_event runId common data =>
      _ ← parseSandbox common data;
      match data with
      | data_create_requested d =>
          requested ← requestedIdentity imageReference runId (sbc_executionId common) d;
          let '(identity, selectedReference) := requested in
          digest ← identitySha256 identity;
          _ ← throw_when ((dpi_digest (cli_image identity) !== crd_imageDigest d) ||
                          match imageReference with Some reference => reference !== selectedReference | None => false end ||
                          (digest !== sbc_containerIdentitySha256 common) || jm_has (sbc_executionId common) groups)
                (plain_error "sandbox create identity does not match its durable digest");
          Ok (jm_set (sbc_executionId common) {|
                cl_actionSha256 := sbc_actionSha256 common;
                cl_containerIdentitySha256 := sbc_containerIdentitySha256 common;
                cl_executionId := sbc_executionId common; cl_facts := [fact_create_requested identity];
                cl_runId := runId |} groups)
      | _ =>
          group ← requireGroup groups runId common;
          Ok (jm_set (sbc_executionId common) (group <| cl_facts ::= fun facts => facts ++ option_list (factOf data) |>) groups)
      end
  | _ => Ok groups
  end.

(** The reference of the first [run.started]. *)
Definition runImage (events : list ContainerLogEvent) : option jstring :=
  match List.find (fun event => match event with run_started_event _ => true | _ => false end) events with
  | Some (run_started_event image) => image
  | _ => None
  end.

Definition collectGroups (events : list ContainerLogEvent) : result SandboxError (jsmap jstring CollectedLifecycle) :=
  foldM (collectStep (runImage events)) events [].

Definition collectContainerLifecycles (events : list ContainerLogEvent) : result SandboxError (list CollectedLifecycle) :=
  groups ← collectGroups events;
  _ ← foldM (fun _ group => _ ← projectContainerLifecycle dateParses (cl_facts group); Ok ()) (jm_values groups) ();
  Ok (jm_values groups).

(** [cleanupState !== "verified"], of a lifecycle that was projected before. *)
Definition isPending (lifecycle : CollectedLifecycle) : bool :=
  match projectContainerLifecycle dateParses (cl_facts lifecycle) with
  | Ok projection => clp_cleanupState projection !== cleanup_verified
  | Err _ => false
  end.

Definition countPendingContainerLifecycles (events : list ContainerLogEvent) : result SandboxError nat :=
  lifecycles ← collectContainerLifecycles events; Ok (length (List.filter isPending lifecycles)).
End Collection.

(** ** The runtime and the appender *)

Record SanitizedContainerInspection : Type := {
  sci_containerId : jstring; sci_exitCode : option Z; sci_finishedAt : option jstring; sci_imageId : jstring;
  sci_imageReference : jstring; sci_labels : jsmap jstring jstring; sci_name : jstring; sci_oomKilled : bool;
  sci_running : bool; sci_status : ContainerStatus; sci_startedAt : option jstring; sci_stateError : option jstring }.

Definition configImageId (identity : DockerExecutionImageIdentity) : jstring :=
  match identity with registry_digest _ configImageId => configImageId | trusted_local_build build => tlb_configImageId build end.

Definition exactIdentityMatches (inspection : SanitizedContainerInspection) (identity : ContainerLifecycleIdentity)
    (durableContainerId : option jstring) : bool :=
  let label name := jm_get (js name) (sci_labels inspection) in
  match durableContainerId with None => true | Some durable => sci_containerId inspection === durable end &&
  (sci_name inspection === cli_name identity) &&
  (sci_imageReference inspection === dpi_reference (cli_image identity)) &&
  match cli_imageIdentity identity with
  | None => true
  | Some imageIdentity => sci_imageId inspection === configImageId imageIdentity
  end &&
  (label "org.bornagent.run-id" === Some (cli_runId identity)) &&
  (label "org.bornagent.execution-id" === Some (cli_executionId identity)) &&
  (label "org.bornagent.nonce" === Some (cli_nonce identity)) &&
  (label "org.bornagent.snapshot-sha256" === Some (cli_snapshotSha256 identity)).

Definition Inspected : Type := result jstring (option SanitizedContainerInspection).

(** A call and its answer.  The line of an append can be in the log although
    the append threw, but it is there when the append returned. *)
Inductive RuntimeEntry : Type :=
| called_daemon (answer : result jstring ())
| inspected_by_id (containerId : jstring) (answer : Inspected)
| inspected_by_name (name : jstring) (answer : Inspected)
| stopped (containerId : jstring) (answer : result jstring ())
| killed (containerId : jstring) (answer : result jstring ())
| removed (containerId : jstring) (answer : result jstring ())
| waited (containerId : jstring) (answer : result jstring Z)
| read_logs (containerId : jstring) (chunks : list Z) (answer : result jstring ())
| appended_event (event : ContainerLogEvent) (landed : bool) (answer : result jstring ()).
Definition Trace : Type := list RuntimeEntry.

Definition landedEvent (entry : RuntimeEntry) : option ContainerLogEvent :=
  match entry with appended_event event true _ => Some event | _ => None end.
Definition appended (trace : Trace) : list ContainerLogEvent := omap landedEvent trace.

(** [ContainerReconciliationRuntimePort] and [ContainerRecoveryEventAppender]:
    every answer may depend on all that was asked before. *)
Record Runtime : Type := {
  rt_daemonOperatingSystem : Trace -> result jstring ();
  rt_inspectById : Trace -> jstring -> Inspected;
  rt_inspectByName : Trace -> jstring -> Inspected;
  rt_stop : Trace -> jstring -> result jstring ();
  rt_kill : Trace -> jstring -> result jstring ();
  rt_removeForce : Trace -> jstring -> result jstring ();
  rt_wait : Trace -> jstring -> result jstring Z;
  (** the bytes of the chunks, and how the stream ends *)
  rt_collectBoundedLogs : Trace -> jstring -> list Z * result jstring ();
  (** [None] when the append returns; what it throws, and whether the line landed *)
  rt_append : Trace -> ContainerLogEvent -> option (jstring * bool) }.

(** The actions: they ask, and return or throw. *)
Definition act (A : Type) : Type := Trace -> result SandboxError A * Trace.
#[export] Instance act_ret : MRet act := fun A a trace => (Ok a, trace).
#[export] Instance act_bind : MBind act := fun A B f m trace =>
  match m trace with (Ok a, trace) => f a trace | (Err e, trace) => (Err e, trace) end.
Definition lift {A} (r : result SandboxError A) : act A := fun trace => (r, trace).
Definition throw {A} (text : string) : act A := lift (Err (plain_error text)).

Definition portAnswer {A} (answer : result jstring A) : result SandboxError A :=
  match answer with Ok a => Ok a | Err text => Err (port_error text) end.
Definition ask {A} (answer : Trace -> result jstring A) (entry : result jstring A -> RuntimeEntry) : act A :=
  fun trace => (portAnswer (answer trace), trace ++ [entry (answer trace)]).

Definition MAX_RECOVERED_LOG_BYTES : Z := 1048576.

(** The loop over the chunks; the timer that aborts the stream after
    [RECOVERY_LOG_TIMEOUT_MS] is one of the ways it can end. *)
Definition drainChunks (chunks : list Z) : result SandboxError Z :=
  foldM (fun bytes chunk =>
    if MAX_RECOVERED_LOG_BYTES <? bytes + chunk
    then Err (plain_error "recovered Docker logs exceeded their fixed bound") else Ok (bytes + chunk)) chunks 0.

(** [blocked] and why: the reason of a plan, or an exception. *)
Inductive BlockedReason : Type :=
| blocked_by_plan (reason : string)
| blocked_by_error (error : SandboxError).

Record ContainerRecoveryResult : Type := {
  crr_attempted : nat; crr_blocked : list (jstring * BlockedReason); crr_cleaned : nat; crr_pending : nat }.
#[export] Instance ContainerRecoveryResult_eta : Eta ContainerRecoveryResult := fun r =>
  Build_ContainerRecoveryResult (crr_attempted r) (crr_blocked r) (crr_cleaned r) (crr_pending r).
#[export] Instance set_crr_blocked : Setter crr_blocked := ltac:(derive_setter).
#[export] Instance set_crr_cleaned : Setter crr_cleaned := ltac:(derive_setter).

(** What the actions of a plan hand on. *)
Record ActionState : Type := { as_inspection : option SanitizedContainerInspection; as_terminalExitCode : option Z }.

Section Recovery.
Context (sha256 : jstring -> jstring) (dateParses zodUuid zodDatetime : jstring -> bool) (runtime : Runtime).

Definition inspectById (containerId : jstring) : act (option SanitizedContainerInspection) :=
  ask (fun trace => rt_inspectById runtime trace containerId) (inspected_by_id containerId).
Definition inspectByName (name : jstring) : act (option SanitizedContainerInspection) :=
  ask (fun trace => rt_inspectByName runtime trace name) (inspected_by_name name).
Definition drainRecoveredLogs (containerId : jstring) : act () := fun trace =>
  let '(chunks, ending) := rt_collectBoundedLogs runtime trace containerId in
  ((_ ← drainChunks chunks; portAnswer ending), trace ++ [read_logs containerId chunks ending]).

(** [appender.append(runId, type, data)] *)
Definition appendSandbox (lifecycle : CollectedLifecycle) (data : SandboxEventData) : act () := fun trace =>
  let event := sandbox_event (cl_runId lifecycle) (commonData lifecycle) data in
  match rt_append runtime trace event with
  | None => (Ok (), trace ++ [appended_event event true (Ok ())])
  | Some (text, landed) => (Err (port_error text), trace ++ [appended_event event landed (Err text)])
  end.

(** [observeRuntime].  Both inspections of [Promise.all] are made. *)
Definition observeRuntime (lifecycle : CollectedLifecycle)
  : act (option SanitizedContainerInspection * ContainerRuntimeObservation) := fun trace =>
  let os := rt_daemonOperatingSystem runtime trace in
  let trace := trace ++ [called_daemon os] in
  match os with
  | Err _ => (Ok (None, daemon_unavailable), trace)
  | Ok _ =>
      match projectContainerLifecycle dateParses (cl_facts lifecycle) with
      | Err e => (Err e, trace)
      | Ok projection =>
          let '(byId, trace) := match clp_containerId projection with
                                | None => (Ok None, trace)
                                | Some containerId => inspectById containerId trace
                                end in
          let '(byName, trace) := inspectByName (cli_name (clp_identity projection)) trace in
          (match byId, byName with
           | Ok None, Ok None => Ok (None, absent true true)
           | Ok byId, Ok byName =>
               let selected := match byId with Some i => Some i | None => byName end in
               if match byId, byName with
                  | Some i, Some n => sci_containerId i !== sci_containerId n
                  | _, _ => false
                  end
               then Ok (selected, identity_mismatch)
               else match selected with
                    | Some i =>
                        if exactIdentityMatches i (clp_identity projection) (clp_containerId projection)
                        then Ok (selected, present_exact (sci_containerId i) (sci_status i))
                        else Ok (selected, identity_mismatch)
                    | None => Ok (selected, identity_mismatch)
                    end
           | Err e, _ => Err e
           | _, Err e => Err e
           end, trace)
      end
  end.

Definition requireId (containerId : option jstring) : act jstring :=
  match containerId with Some id => mret id | None => throw "exact container id is unavailable" end.

Definition isRunning (inspection : option SanitizedContainerInspection) : bool :=
  match inspection with Some i => sci_running i | None => false end.

(** [executeAction] *)
Definition executeAction (lifecycle : CollectedLifecycle) (state : ActionState) (action : ContainerReconciliationAction)
  : act ActionState :=
  projection ← lift (projectContainerLifecycle dateParses (cl_facts lifecycle));
  let identity := clp_identity projection in
  let durable := clp_containerId projection in
  let containerId := match durable with Some id => Some id | None => sci_containerId <$> as_inspection state end in
  match action with
  | inspect_exact =>
      id ← requireId containerId;
      inspection ← inspectById id;
      match inspection with
      | Some i => if exactIdentityMatches i identity durable
                  then mret {| as_inspection := Some i; as_terminalExitCode := as_terminalExitCode state |}
                  else throw "exact container identity changed during reconciliation"
      | None => throw "exact container identity changed during reconciliation"
      end
  | record_stopping =>
      _ ← appendSandbox lifecycle (data_stopping stop_storage_failure); mret state
  | stop_exact =>
      id ← requireId containerId;
      inspection ← inspectById id;
      _ ← (if isRunning inspection
           then ask (fun trace => rt_stop runtime trace id) (stopped id) else mret () : act ());
      mret {| as_inspection := inspection; as_terminalExitCode := as_terminalExitCode state |}
  | kill_if_still_running =>
      id ← requireId containerId;
      inspection ← inspectById id;
      _ ← (if isRunning inspection
           then ask (fun trace => rt_kill runtime trace id) (killed id) else mret () : act ());
      mret {| as_inspection := inspection; as_terminalExitCode := as_terminalExitCode state |}
  | wait_terminal =>
      id ← requireId containerId;
      exitCode ← ask (fun trace => rt_wait runtime trace id) (waited id);
      mret {| as_inspection := as_inspection state; as_terminalExitCode := Some exitCode |}
  | record_exited =>
      let known := match as_terminalExitCode state with
                   | Some exitCode => Some exitCode
                   | None => as_inspection state ≫= sci_exitCode
                   end in
      match known with
      | Some exitCode =>
          _ ← appendSandbox lifecycle (data_exited exitCode true);
          mret {| as_inspection := as_inspection state; as_terminalExitCode := Some exitCode |}
      | None => throw "terminal exit code is unavailable"
      end
  | collect_bounded_logs =>
      id ← requireId containerId; _ ← drainRecoveredLogs id; mret state
  | record_terminal_inspect =>
      id ← requireId containerId;
      inspection ← inspectById id;
      match inspection with
      | Some i =>
          match sci_running i, sci_exitCode i, sci_startedAt i, sci_finishedAt i, exactIdentityMatches i identity durable with
          | false, Some exitCode, Some startedAt, Some finishedAt, true =>
              _ ← (if match as_terminalExitCode state with Some known => exitCode !== known | None => false end
                   then throw "Docker wait and inspect exit codes do not match" else mret () : act ());
              _ ← appendSandbox lifecycle (data_inspected {|
                    te_exitCode := exitCode; te_finishedAt := finishedAt; te_oomKilled := sci_oomKilled i;
                    te_startedAt := startedAt; te_stateError := sci_stateError i |});
              mret {| as_inspection := Some i; as_terminalExitCode := Some exitCode |}
          | _, _, _, _, _ => throw "terminal Docker inspection could not be proven"
          end
      | None => throw "terminal Docker inspection could not be proven"
      end
  | remove_force_exact =>
      _ ← (match containerId with
           | Some id => ask (fun trace => rt_removeForce runtime trace id) (removed id)
           | None => mret ()
           end : act ());
      mret {| as_inspection := None; as_terminalExitCode := as_terminalExitCode state |}
  | prove_absent_by_id =>
      match containerId with
      | Some id => inspection ← inspectById id;
                   if isSome inspection then throw "container id is still present after cleanup" else mret state
      | None => mret state
      end
  | prove_absent_by_name =>
      inspection ← inspectByName (cli_name identity);
      if isSome inspection then throw "container name is still present after cleanup" else mret state
  | record_recovered_cleaned resolution =>
      _ ← appendSandbox lifecycle (data_cleaned true resolution); mret state
  end.

Fixpoint executeActions (lifecycle : CollectedLifecycle) (state : ActionState)
    (actions : list ContainerReconciliationAction) : act ActionState :=
  match actions with
  | [] => mret state
  | action :: rest => state ← executeAction lifecycle state action; executeActions lifecycle state rest
  end.

(** The body of the [try]: [None] when the plan was executed. *)
Definition reconcileOne (lifecycle : CollectedLifecycle) : act (option string) :=
  observed ← observeRuntime lifecycle;
  let '(inspection, observation) := observed in
  plan ← lift (planContainerReconciliation dateParses (cl_facts lifecycle) observation);
  if crp_disposition plan === plan_blocked then mret (Some (crp_reason plan))
  else _ ← executeActions lifecycle {| as_inspection := inspection; as_terminalExitCode := inspection ≫= sci_exitCode |}
             (crp_actions plan);
       mret None.

(** The body of the loop, with the [catch]. *)
Definition reconcileNext (result : ContainerRecoveryResult) (lifecycle : CollectedLifecycle) (trace : Trace)
  : ContainerRecoveryResult * Trace :=
  let block reason := result <| crr_blocked ::= fun blocked => blocked ++ [(cl_executionId lifecycle, reason)] |> in
  match reconcileOne lifecycle trace with
  | (Ok None, trace) => (result <| crr_cleaned ::= S |>, trace)
  | (Ok (Some reason), trace) => (block (blocked_by_plan reason), trace)
  | (Err error, trace) => (block (blocked_by_error error), trace)
  end.

Fixpoint reconcileAll (result : ContainerRecoveryResult) (pending : list CollectedLifecycle) (trace : Trace)
  : ContainerRecoveryResult * Trace :=
  match pending with
  | [] => (result, trace)
  | lifecycle :: rest => let '(result, trace) := reconcileNext result lifecycle trace in reconcileAll result rest trace
  end.

(** [reconcilePersistedContainers], from an empty trace; [mayReplayCommand] is
    always [false]. *)
Definition reconcilePersistedContainers (events : list ContainerLogEvent)
  : result SandboxError (ContainerRecoveryResult * Trace) :=
  lifecycles ← collectContainerLifecycles sha256 dateParses zodUuid zodDatetime events;
  let pending := List.filter (isPending dateParses) lifecycles in
  Ok (reconcileAll {| crr_attempted := length pending; crr_blocked := []; crr_cleaned := 0;
                      crr_pending := length pending |} pending []).
End Recovery.

(** ** The course of a life *)

Section Lives.
Context (dateParses : jstring -> bool).
Notation lifecycleStep := (lifecycleStep dateParses).
Notation project := (projectContainerLifecycle dateParses).

(** The state after accepted facts. *)
Definition lifecycleOf (facts : list ContainerLifecycleFact) (s : LifecycleState) : Prop :=
  exists identity rest, facts = fact_create_requested identity :: rest /\ assertIdentity identity = Ok () /\
    foldM lifecycleStep rest initialLifecycle = Ok s.

Lemma project_ok facts p :
  project facts = Ok p <-> exists identity s, head facts = Some (fact_create_requested identity) /\
    lifecycleOf facts s /\ p = containerProjectionOf identity facts s.
Proof.
  unfold lifecycleOf. split.
  - destruct facts as [|[identity| | | | | | |] rest]; try done. cbn [projectContainerLifecycle]. intros H. returns.
    destruct v. eauto 10.
  - intros (identity & s & Hh & (i & rest & -> & Hi & Hs) & ->). injection Hh as ->.
    cbn [projectContainerLifecycle]. rewrite Hi. unfold mbind. cbn [result_bind]. by rewrite Hs.
Qed.

Lemma lifecycleOf_snoc facts f s s' : lifecycleOf facts s -> lifecycleStep s f = Ok s' -> lifecycleOf (facts ++ [f]) s'.
Proof.
  intros (identity & rest & -> & Hi & Hs) Hf. exists identity, (rest ++ [f]). split_and!; [done..|].
  rewrite foldM_app, Hs. unfold mbind. cbn [result_bind foldM]. by rewrite Hf.
Qed.

Lemma lifecycleOf_fun facts s s' : lifecycleOf facts s -> lifecycleOf facts s' -> s = s'.
Proof. intros (i & r & -> & _ & H) (i' & r' & [= -> ->] & _ & H'). congruence. Qed.

(** *** The order of facts *)

Definition isStartedFact (f : ContainerLifecycleFact) : bool := match f with fact_started _ => true | _ => false end.
Definition isStoppingFact (f : ContainerLifecycleFact) : bool := match f with fact_stopping _ => true | _ => false end.

Definition isExitedFact (f : ContainerLifecycleFact) : bool := match f with fact_exited _ _ => true | _ => false end.

(** What is recorded while a container runs: at most one start and one stop, in
    either order. *)
Definition running_facts (started stopping : bool) (mid : list ContainerLifecycleFact) : Prop :=
  Forall (fun f => isStartedFact f || isStoppingFact f = true) mid /\
  length (List.filter isStartedFact mid) = Nat.b2n started /\
  length (List.filter isStoppingFact mid) = Nat.b2n stopping.

(** Evidence the projector takes for a terminal state. *)
Definition plainEvidence (e : TerminalEvidence) : Prop :=
  assertTimestamp dateParses (te_startedAt e) = Ok () /\ assertTimestamp dateParses (te_finishedAt e) = Ok () /\
  match te_stateError e with None => True | Some t => Z.of_nat (length t) <= 500 /\ hasLineBreak t = false end.

(** The facts after the create request, given the variables of the loop. *)
Definition lived (s : LifecycleState) (rest : list ContainerLifecycleFact) : Prop :=
  exists mid exits evidence ends,
    rest = match lc_containerId s with Some c => [fact_created c] | None => [] end ++
           (if lc_startRequested s then [fact_start_requested] else []) ++ mid ++ exits ++ evidence ++ ends /\
    lc_created s = isSome (lc_containerId s) /\
    (lc_startRequested s = true -> lc_created s = true) /\
    (lc_started s || lc_stopping s || isSome (lc_exited s) = true -> lc_startRequested s = true) /\
    (forall c, lc_containerId s = Some c -> isContainerId c = true) /\
    running_facts (lc_started s) (lc_stopping s) mid /\
    match lc_exited s with
    | None => exits = []
    | Some code => isExitCode code = true /\ exists recovered, exits = [fact_exited code recovered] /\ lc_started s || recovered = true
    end /\
    (if lc_inspected s then exists e, evidence = [fact_inspected e] /\ lc_exited s = Some (te_exitCode e) /\ plainEvidence e
     else evidence = []) /\
    match lc_cleaned s with
    | None => ends = []
    | Some resolution => resolutionValid s resolution = true /\ exists recovered, ends = [fact_cleaned recovered resolution]
    end.

Lemma running_snoc started stopping mid f :
  running_facts started stopping mid ->
  (isStartedFact f = true -> started = false) -> (isStoppingFact f = true -> stopping = false) ->
  isStartedFact f || isStoppingFact f = true ->
  running_facts (started || isStartedFact f) (stopping || isStoppingFact f) (mid ++ [f]).
Proof.
  intros (Hm & Ha & Hb) Hs Ht Hf. split_and!; [by apply Forall_app_2; [|constructor]|..];
    rewrite List.filter_app, length_app; cbn [List.filter].
  - rewrite Ha. destruct (isStartedFact f); [rewrite Hs by done|rewrite orb_false_r]; cbn; lia.
  - rewrite Hb. destruct (isStoppingFact f); [rewrite Ht by done|rewrite orb_false_r]; cbn; lia.
Qed.

Lemma running_none mid : running_facts false false mid -> mid = [].
Proof.
  intros (Hm & Ha & Hb). destruct mid as [|f mid]; [done|]. inversion Hm as [|?? Hf]; subst. cbn in Ha, Hb.
  apply orb_true_iff in Hf as [Hf|Hf]; rewrite Hf in *; cbn in *; lia.
Qed.

Lemma running_nil : running_facts false false [].
Proof. by split_and!. Qed.

Lemma lived_step s rest f s' : lived s rest -> lifecycleStep s f = Ok s' -> lived s' (rest ++ [f]).
Proof.
  intros (mid & exits & evidence & ends & -> & Hc & Hsc & Hrun & Hid & Hmid & Hexit & Hev & Hend) H.
  destruct s as [cid created start started stopping exited inspected cleaned]; cbn in *.
  destruct cleaned; [done|]. subst ends. cbn in H.
  destruct f as [?|c| |r|r|code r|e|r res]; [done|..]; returns; unfold modify; unfold lived; cbn.
  all: repeat match goal with H : _ || _ = false |- _ => apply orb_false_iff in H as [? ?] end.
  - (* created *)
    destruct cid; [done|]. subst start. destruct exited; [by rewrite orb_true_r in Hrun; specialize (Hrun eq_refl)|].
    destruct started, stopping; try by specialize (Hrun eq_refl). destruct inspected; [by destruct Hev as (? & _ & [=] & _)|].
    apply running_none in Hmid as ->. subst exits evidence. exists [], [], [], []. split_and!; try done. by intros ? [= <-].
  - (* start_requested *)
    subst start. destruct exited; [done|]. destruct started, stopping; try by specialize (Hrun eq_refl).
    destruct inspected; [by destruct Hev as (? & _ & [=] & _)|].
    apply running_none in Hmid as ->. subst exits evidence. exists [], [], [], []. destruct cid; [|done]. by split_and!.
  - (* started *)
    subst started. destruct start; [|done]. destruct exited; [done|]. destruct inspected; [by destruct Hev as (? & _ & [=] & _)|].
    subst exits evidence. exists (mid ++ [fact_started r]), [], [], []. split_and!; try done; [by rewrite <-!app_assoc, !app_nil_r, <-?app_assoc|].
    apply (running_snoc false stopping mid (fact_started r)) in Hmid; try done. by rewrite orb_false_r in Hmid.
  - (* stopping *)
    subst stopping. destruct start; [|done]. destruct exited; [done|]. destruct inspected; [by destruct Hev as (? & _ & [=] & _)|].
    subst exits evidence. exists (mid ++ [fact_stopping r]), [], [], []. split_and!; try done; [by rewrite <-!app_assoc, !app_nil_r, <-?app_assoc|].
    apply (running_snoc started false mid (fact_stopping r)) in Hmid; try done. by rewrite orb_false_r in Hmid.
  - (* exited *)
    destruct exited; [done|]. subst inspected exits evidence. destruct start; [|done].
    exists mid, [fact_exited code r], [], []. unfold assertExitCode in *. returns.
    split_and!; try done; [by rewrite <-!app_assoc, !app_nil_r, <-?app_assoc|].
    exists r. split; [done|]. by destruct started, r.
  - (* inspected *)
    subst inspected evidence. destruct exited as [code|]; [|done]. unfold assertExitCode in *.
    exists mid, exits, [fact_inspected e], []. returns. subst code.
    split_and!; try done; [by rewrite <-!app_assoc|by destruct Hexit|].
    exists e. split; [done|]. split; [done|]. unfold plainEvidence.
    repeat match goal with v : () |- _ => destruct v end. split; [done|]. split; [done|].
    destruct (te_stateError e); [|done]. returns. split; [lia|done].
  - (* cleaned *)
    exists mid, exits, evidence, [fact_cleaned r res]. split_and!; try done; [by rewrite <-!app_assoc|by exists r].
Qed.

Lemma lifecycleOf_lived facts s : lifecycleOf facts s ->
  exists identity rest, facts = fact_create_requested identity :: rest /\ assertIdentity identity = Ok () /\ lived s rest.
Proof.
  intros (identity & rest & -> & Hi & Hs). exists identity, rest. split_and!; [done..|].
  revert Hs. apply (foldM_prefix lifecycleStep (fun rest s => lived s rest)).
  - exists [], [], [], []. by split_and!.
  - intros k s0 f s1. apply lived_step.
Qed.

Lemma existsb_mid started stopping mid p :
  running_facts started stopping mid -> (forall f, isStartedFact f || isStoppingFact f = true -> p f = false) ->
  existsb p mid = false.
Proof. intros (Hm & _ & _) Hp. apply existsb_false. intros f Hf. apply Hp. exact (proj1 (list.Forall_forall _ _) Hm f Hf). Qed.

Lemma existsb_count {A} (p : A -> bool) l (b : bool) : length (List.filter p l) = Nat.b2n b -> existsb p l = b.
Proof.
  intros H. destruct b; cbn in H.
  - apply existsb_exists. destruct (List.filter p l) as [|x k] eqn:E; [done|].
    exists x. apply (proj1 (filter_In p x l)). rewrite E. by left.
  - apply existsb_false. intros x Hx. destruct (p x) eqn:E; [|done].
    assert (In x (List.filter p l)) as Hin by (apply filter_In; split; [by apply list_elem_of_In|done]).
    by destruct (List.filter p l).
Qed.

(** The variables of the loop are what the facts show. *)
Lemma lifecycleOf_flags facts s : lifecycleOf facts s ->
  existsb isCreatedFact facts = lc_created s /\ existsb isStartRequest facts = lc_startRequested s /\
  existsb isStoppingFact facts = lc_stopping s /\ existsb isInspectedFact facts = lc_inspected s /\
  existsb isExitedFact facts = isSome (lc_exited s).
Proof.
  intros (i & rest & -> & _ & (mid & exits & evidence & ends & -> & Hc & Hsc & Hrun & Hid & Hmid & Hexit & Hev & Hend))%lifecycleOf_lived.
  pose proof Hmid as (_ & _ & Hstop). apply existsb_count in Hstop.
  assert (Hx : match lc_exited s with None => exits = [] | Some _ => exists c r, exits = [fact_exited c r] end)
    by (destruct (lc_exited s); naive_solver).
  assert (He : if lc_inspected s then exists e, evidence = [fact_inspected e] else evidence = [])
    by (destruct (lc_inspected s); naive_solver).
  assert (Hn : match lc_cleaned s with None => ends = [] | Some _ => exists c r, ends = [fact_cleaned c r] end)
    by (destruct (lc_cleaned s); naive_solver).
  cbn [existsb isCreatedFact isStartRequest isStoppingFact isInspectedFact isExitedFact orb]. rewrite !existsb_app, Hstop, Hc.
  rewrite !(existsb_mid _ _ mid _ Hmid) by (by intros []).
  destruct (lc_containerId s), (lc_startRequested s), (lc_exited s), (lc_inspected s), (lc_cleaned s), (lc_stopping s);
    repeat match goal with H : exists _, _ |- _ => destruct H end; subst; by split_and!.
Qed.

(** *** The facts of a recovery *)

Lemma step_stopping s reason :
  lc_cleaned s = None -> lc_startRequested s = true -> lc_stopping s = false -> lc_exited s = None ->
  lifecycleStep s (fact_stopping reason) = Ok (s <| lc_stopping := true |>).
Proof. intros Hc Hs Ht He. unfold ContainerLifecycle.lifecycleStep. by rewrite Hc, Hs, Ht, He. Qed.

Lemma step_exited s exitCode :
  lc_cleaned s = None -> lc_startRequested s = true -> lc_exited s = None -> lc_inspected s = false ->
  isExitCode exitCode = true ->
  lifecycleStep s (fact_exited exitCode true) = Ok (s <| lc_exited := Some exitCode |>).
Proof.
  intros Hc Hs He Hi Hcode. unfold ContainerLifecycle.lifecycleStep, assertExitCode. rewrite Hc, Hs, He, Hi, Hcode.
  cbn. by rewrite andb_false_r.
Qed.

Lemma step_inspected s e :
  lc_cleaned s = None -> lc_exited s = Some (te_exitCode e) -> lc_inspected s = false ->
  isExitCode (te_exitCode e) = true -> plainEvidence e ->
  lifecycleStep s (fact_inspected e) = Ok (s <| lc_inspected := true |>).
Proof.
  intros Hc He Hi Hcode (Hs & Hf & Ht). unfold ContainerLifecycle.lifecycleStep, assertExitCode.
  rewrite Hc, He, Hi, Hcode, Hs, Hf. cbn. rewrite bool_decide_eq_true_2 by done. cbn.
  destruct (te_stateError e) as [text|]; [|done]. destruct Ht as [Hl ->].
  by replace (500 <? Z.of_nat (length text)) with false by lia.
Qed.

Lemma step_cleaned s recovered resolution :
  lc_cleaned s = None -> resolutionValid s resolution = true ->
  lifecycleStep s (fact_cleaned recovered resolution) = Ok (s <| lc_cleaned := Some resolution |>).
Proof. intros Hc Hr. unfold ContainerLifecycle.lifecycleStep. by rewrite Hc, Hr. Qed.

Lemma running_cons started stopping f mid : running_facts started stopping (f :: mid) ->
  (exists r, f = fact_started r /\ started = true /\ running_facts false stopping mid) \/
  (exists r, f = fact_stopping r /\ stopping = true /\ running_facts started false mid).
Proof.
  intros (Hm & Ha & Hb). inversion Hm as [|?? Hf Hm']; subst. destruct f; try done; cbn in Ha, Hb; [left|right];
    eexists; (split; [reflexivity|]); [destruct started|destruct stopping]; cbn in *; try lia; split_and!; try done; unfold running_facts; split_and!; try done; cbn; lia.
Qed.

Lemma run_running mid : forall started stopping started0 stopping0 c,
  running_facts started stopping mid -> started && started0 = false -> stopping && stopping0 = false ->
  foldM lifecycleStep mid {| lc_containerId := c; lc_created := true; lc_startRequested := true; lc_started := started0;
    lc_stopping := stopping0; lc_exited := None; lc_inspected := false; lc_cleaned := None |} =
  Ok {| lc_containerId := c; lc_created := true; lc_startRequested := true; lc_started := started || started0;
    lc_stopping := stopping || stopping0; lc_exited := None; lc_inspected := false; lc_cleaned := None |}.
Proof.
  induction mid as [|f mid IH]; intros started stopping started0 stopping0 c Hm Hs Ht.
  - destruct Hm as (_ & Ha & Hb), started, stopping; try done.
  - apply running_cons in Hm as [(r & -> & -> & Hm)|(r & -> & -> & Hm)]; cbn in Hs, Ht; subst; cbn [foldM].
    + etransitivity; [|apply (IH false stopping true stopping0 c Hm); done]. reflexivity.
    + etransitivity; [|apply (IH started false started0 true c Hm); [by destruct started, started0|done]]. done.
Qed.

(** C27: A command's end is published as that of its container only after a whole
    life of it is on record: the request, the container, the request to start it,
    at most one start and one stop, an exit, the inspection that confirms the
    exit code, and the proof of its absence, in this order and nothing else.
    The start may be missing only when the exit was found by a recovery.  The
    projector accepts every such life. *)
Theorem terminal_needs_whole_life facts :
  (exists p, project facts = Ok p /\ clp_safeToPublishCommandTerminal p = true) <->
  exists identity c started stopping mid recovered e recovered',
    facts = fact_create_requested identity :: fact_created c :: fact_start_requested :: mid ++
            [fact_exited (te_exitCode e) recovered; fact_inspected e; fact_cleaned recovered' terminal_inspected] /\
    running_facts started stopping mid /\ started || recovered = true /\
    assertIdentity identity = Ok () /\ isContainerId c = true /\ isExitCode (te_exitCode e) = true /\ plainEvidence e.
Proof.
  split.
  - intros (p & (identity & s & Hh & Hs & ->)%project_ok & Hp).
    apply lifecycleOf_lived in Hs as (i & rest & -> & Hi & mid & exits & evidence & ends & -> & Hc & Hsc & Hrun & Hid & Hmid & Hexit & Hev & Hend).
    unfold containerProjectionOf in Hp. cbn in Hp. apply andb_true_iff in Hp as [Hins Hcl%bool_decide_eq_true].
    rewrite Hins in Hev. rewrite Hcl in Hend. destruct Hev as (e & -> & He & Hplain), Hend as (_ & r' & ->).
    rewrite He in Hexit. destruct Hexit as (Hcode & r & -> & Hr).
    rewrite Hrun in * by (rewrite He; by rewrite orb_true_r). rewrite Hsc in Hc by done.
    destruct (lc_containerId s) as [c|] eqn:Hcid; [|done].
    exists i, c, (lc_started s), (lc_stopping s), mid, r, e, r'. split_and!; try done. by apply Hid.
  - intros (identity & c & started & stopping & mid & r & e & r' & -> & Hmid & Hr & Hi & Hc & Hcode & Hplain).
    exists (containerProjectionOf identity (fact_create_requested identity :: fact_created c :: fact_start_requested :: mid ++
            [fact_exited (te_exitCode e) r; fact_inspected e; fact_cleaned r' terminal_inspected])
      {| lc_containerId := Some c; lc_created := true; lc_startRequested := true; lc_started := started;
         lc_stopping := stopping; lc_exited := Some (te_exitCode e); lc_inspected := true;
         lc_cleaned := Some terminal_inspected |}).
    split; [|done]. apply project_ok. do 2 eexists. split; [done|]. split; [|done].
    exists identity, (fact_created c :: fact_start_requested :: mid ++
      [fact_exited (te_exitCode e) r; fact_inspected e; fact_cleaned r' terminal_inspected]).
    split; [done|]. split; [done|].
    change (fact_created c :: fact_start_requested :: mid ++ ?l) with ([fact_created c; fact_start_requested] ++ (mid ++ l)).
    rewrite foldM_app. replace (foldM lifecycleStep [fact_created c; fact_start_requested] initialLifecycle)
      with (Ok (E:=SandboxError) {| lc_containerId := Some c; lc_created := true; lc_startRequested := true; lc_started := false;
        lc_stopping := false; lc_exited := None; lc_inspected := false; lc_cleaned := None |}) by (cbn; by rewrite Hc).
    unfold mbind at 1. cbn [result_bind]. rewrite foldM_app, (run_running mid started stopping false false (Some c) Hmid)
      by (by rewrite andb_false_r).
    rewrite !orb_false_r. destruct Hplain as (Hsa & Hfa & Herr). unfold mbind at 1. cbn [result_bind foldM].
    unfold ContainerLifecycle.lifecycleStep, assertExitCode. rewrite Hcode, Hsa, Hfa. cbn.
    replace (negb started && negb r) with false by (by destruct started, r). cbn. rewrite bool_decide_eq_true_2 by done. cbn.
    destruct (te_stateError e) as [text|]; cbn; [|done]. destruct Herr as [Hl ->].
    replace (500 <? Z.of_nat (length text)) with false by lia. done.
Qed.
End Lives.

(** ** Logs that stay readable *)

Lemma appended_snoc trace entry : appended (trace ++ [entry]) = appended trace ++ option_list (landedEvent entry).
Proof. unfold appended. rewrite omap_app. cbn. by destruct (landedEvent entry). Qed.

Section Readable.
Context (sha256 : jstring -> jstring) (dateParses zodUuid zodDatetime : jstring -> bool) (events : list ContainerLogEvent).
Notation collectGroups := (collectGroups sha256 zodUuid zodDatetime).
Notation collect := (collectContainerLifecycles sha256 dateParses zodUuid zodDatetime).
Notation collectStep := (collectStep sha256 zodUuid zodDatetime).
Notation schema := (sandboxSchema zodUuid zodDatetime).
Notation lifecycleOf := (lifecycleOf dateParses).
Notation lifecycleStep := (lifecycleStep dateParses).
Notation project := (projectContainerLifecycle dateParses).

(** The log with what a recovery appended is read as [groups], and each of them
    is projected. *)
Definition reads (trace : Trace) (groups : jsmap jstring CollectedLifecycle) : Prop :=
  collectGroups (events ++ appended trace) = Ok groups /\ NoDup (fst <$> groups) /\
  forall key group, jm_get key groups = Some group ->
    cl_executionId group = key /\ exists s, lifecycleOf (cl_facts group) s.

Lemma foldM_check {A} (f : A -> result SandboxError ()) l u :
  foldM (fun _ a => f a) l u = Ok () <-> forall a, a ∈ l -> f a = Ok ().
Proof.
  revert u. induction l as [|a l IH]; intros []; cbn [foldM]; [split; [intros _ a Ha; set_solver|done]|].
  destruct (f a) as [[]|e] eqn:E.
  - rewrite IH. split; [intros H b [->|Hb]%elem_of_cons; [done|by apply H]|intros H b Hb; apply H; set_solver].
  - split; [done|]. intros H. rewrite H in E by set_solver. done.
Qed.

Lemma collect_ok l lifecycles :
  collect l = Ok lifecycles <-> exists groups, collectGroups l = Ok groups /\ lifecycles = jm_values groups /\
    forall group, group ∈ jm_values groups -> exists s, lifecycleOf (cl_facts group) s.
Proof.
  unfold collectContainerLifecycles. rewrite bind_ok.
  assert (Hproject : forall groups : jsmap jstring CollectedLifecycle,
    foldM (fun _ group => _ ← project (cl_facts group); Ok ()) (jm_values groups) () = Ok () <->
    forall group, group ∈ jm_values groups -> exists s, lifecycleOf (cl_facts group) s).
  { intros groups. rewrite (foldM_check (fun group => _ ← project (cl_facts group); Ok ())).
    split; intros H g Hg; specialize (H g Hg).
    - apply bind_ok in H as (p & (? & s & _ & Hs & _)%project_ok & _). eauto.
    - destruct H as (s & Hs). apply bind_ok. pose proof Hs as (i & r & E & _).
      exists (containerProjectionOf i (cl_facts g) s). split; [|done]. apply project_ok. exists i, s. split_and!; [by rewrite E|done..]. }
  split.
  - intros (groups & Hg & ([] & Hf & [= <-])%bind_ok). exists groups. split_and!; [done..|by apply Hproject].
  - intros (groups & Hg & -> & Hl). exists groups. split; [done|]. by rewrite (proj2 (Hproject groups) Hl).
Qed.

(** *** Groups keep their keys *)

Lemma collectStep_keys image groups event groups' :
  collectStep image groups event = Ok groups' ->
  (forall key g, jm_get key groups = Some g -> cl_executionId g = key) -> NoDup (fst <$> groups) ->
  (forall key g, jm_get key groups' = Some g -> cl_executionId g = key) /\ NoDup (fst <$> groups').
Proof.
  intros H Hk Hn. destruct event as [i|runId common data|]; cbn in H; [by simplify_eq| |by simplify_eq].
  apply bind_ok in H as (_ & _ & H).
  assert (Hset : exists g, groups' = jm_set (sbc_executionId common) g groups /\ cl_executionId g = sbc_executionId common).
  { destruct data; try (apply bind_ok in H as (g & Hg & [= <-]); eexists; split; [reflexivity|];
      unfold requireGroup in Hg; destruct (jm_get (sbc_executionId common) groups) as [g'|] eqn:E; [|done];
      repeat case_match; simplify_eq; by apply Hk in E).
    apply bind_ok in H as ([identity selected] & _ & H). apply bind_ok in H as (digest & _ & H).
    apply bind_ok in H as (_ & _ & [= <-]). by eexists. }
  destruct Hset as (g & -> & Hg). split; [|by apply jm_set_NoDup].
  intros key g' [[<- ->]|[_ Hg']]%jm_set_Some; [done|by apply Hk].
Qed.

Lemma collectGroups_keys l groups : collectGroups l = Ok groups ->
  (forall key g, jm_get key groups = Some g -> cl_executionId g = key) /\ NoDup (fst <$> groups).
Proof.
  unfold ContainerLifecycle.collectGroups. intros H.
  eapply (foldM_invariant _ (fun groups => (forall key g, jm_get key groups = Some g -> cl_executionId g = key) /\
    NoDup (fst <$> groups))); [| |exact H].
  - intros g e g' _ [Hk Hn] Hs. by eapply collectStep_keys.
  - split; [done|constructor].
Qed.

Lemma reads_collect trace groups : reads trace groups -> collect (events ++ appended trace) = Ok (jm_values groups).
Proof.
  intros (Hg & Hn & Hl). apply collect_ok. exists groups. split_and!; [done..|].
  intros g Hin. apply jm_values_get in Hin as (key & Hkey); [|done]. by apply Hl in Hkey as [_ ?].
Qed.

Lemma collect_reads lifecycles : collect events = Ok lifecycles -> exists groups, reads [] groups /\ lifecycles = jm_values groups.
Proof.
  intros (groups & Hg & -> & Hl)%collect_ok. pose proof (collectGroups_keys _ _ Hg) as [Hk Hn].
  exists groups. split; [|done]. split_and!; [by rewrite app_nil_r|done|].
  intros key g Hkey. split; [by apply Hk|]. apply Hl. by eapply jm_get_values.
Qed.

(** *** Appending *)

Lemma runImage_snoc l runId common data : runImage (l ++ [sandbox_event runId common data]) = runImage l.
Proof.
  unfold runImage. induction l as [|e l IH]; [done|]. cbn [app List.find]. by destruct e.
Qed.

Lemma collectGroups_snoc l runId common data :
  collectGroups (l ++ [sandbox_event runId common data]) =
  groups ← collectGroups l; collectStep (runImage l) groups (sandbox_event runId common data).
Proof.
  unfold ContainerLifecycle.collectGroups. rewrite runImage_snoc, foldM_app.
  destruct (foldM (collectStep (runImage l)) l []) as [groups|]; [|done]. unfold mbind. cbn [result_bind foldM].
  by destruct (collectStep _ _ _).
Qed.

Lemma reads_quiet trace groups entry : reads trace groups -> landedEvent entry = None -> reads (trace ++ [entry]) groups.
Proof. intros Hr He. unfold reads. rewrite appended_snoc, He. cbn. by rewrite app_nil_r. Qed.

Lemma collect_fact image groups lifecycle facts data f :
  jm_get (cl_executionId lifecycle) groups = Some (lifecycle <| cl_facts := facts |>) -> factOf data = Some f ->
  schema (commonData lifecycle) data = true ->
  collectStep image groups (sandbox_event (cl_runId lifecycle) (commonData lifecycle) data) =
  Ok (jm_set (cl_executionId lifecycle) (lifecycle <| cl_facts := facts ++ [f] |>) groups).
Proof.
  intros Hget Hf Hschema. unfold ContainerLifecycle.collectStep, parseSandbox, requireGroup. rewrite Hschema.
  cbn [negb throw_when commonData sbc_executionId sbc_actionSha256 sbc_containerIdentitySha256].
  assert (Hgroup : match jm_get (cl_executionId lifecycle) groups with
    | Some group =>
      if (cl_runId group !== cl_runId lifecycle) || (cl_actionSha256 group !== cl_actionSha256 lifecycle) ||
         (cl_containerIdentitySha256 group !== cl_containerIdentitySha256 lifecycle)
      then Err (plain_error "sandbox lifecycle event has no matching durable create identity")
      else Ok group
    | None => Err (plain_error "sandbox lifecycle event has no matching durable create identity")
    end = Ok (lifecycle <| cl_facts := facts |>)).
  { rewrite Hget. cbn. by rewrite !bool_decide_eq_true_2. }
  unfold mbind. cbn [result_bind]. destruct data; [done|..]; rewrite Hgroup; cbn [result_bind]; by simplify_eq/=.
Qed.

Lemma reads_fact trace groups lifecycle facts s data f s' answer :
  reads trace groups -> jm_get (cl_executionId lifecycle) groups = Some (lifecycle <| cl_facts := facts |>) ->
  lifecycleOf facts s -> factOf data = Some f -> schema (commonData lifecycle) data = true -> lifecycleStep s f = Ok s' ->
  reads (trace ++ [appended_event (sandbox_event (cl_runId lifecycle) (commonData lifecycle) data) true answer])
    (jm_set (cl_executionId lifecycle) (lifecycle <| cl_facts := facts ++ [f] |>) groups).
Proof.
  intros (Hg & Hn & Hl) Hget Hs Hf Hschema Hstep. unfold reads. rewrite appended_snoc. cbn [landedEvent].
  change (option_list (Some ?e)) with [e]. rewrite app_assoc, collectGroups_snoc, Hg. unfold mbind at 1. cbn [result_bind].
  split; [by apply collect_fact|]. split; [by apply jm_set_NoDup|].
  intros key g [[<- ->]|[_ H]]%jm_set_Some; [|by apply Hl].
  split; [done|]. exists s'. by eapply lifecycleOf_snoc.
Qed.

(** The log is readable wherever the process ends. *)
Definition always_reads (trace : Trace) : Prop := forall n, exists groups, reads (take n trace) groups.

Lemma always_reads_snoc trace entry groups :
  always_reads trace -> reads (trace ++ [entry]) groups -> always_reads (trace ++ [entry]).
Proof.
  intros Ha Hr n. destruct (decide (n <= length trace)%nat).
  - rewrite take_app_le by done. apply Ha.
  - rewrite take_ge by (rewrite length_app; cbn; lia). eauto.
Qed.
End Readable.

(** ** What a recovery records *)

(** A program logic for actions: from [P], an action that returns establishes
    [Q], and one that throws leaves [E]. *)
Definition runs {A} (P : Trace -> Prop) (m : act A) (Q : A -> Trace -> Prop) (E : Trace -> Prop) : Prop :=
  forall trace, P trace -> match m trace with (Ok a, trace) => Q a trace | (Err _, trace) => E trace end.

Lemma runs_bind {A B} P (m : act A) R (f : A -> act B) Q E :
  runs P m R E -> (forall a, runs (R a) (f a) Q E) -> runs P (m ≫= f) Q E.
Proof.
  intros Hm Hf trace HP. unfold mbind, act_bind. specialize (Hm trace HP). destruct (m trace) as [[a|e] trace']; [|done].
  by apply Hf.
Qed.
Lemma runs_ret {A} P (a : A) (Q : A -> Trace -> Prop) E : (forall trace, P trace -> Q a trace) -> runs P (mret a) Q E.
Proof. intros H trace HP. by apply H. Qed.
Lemma runs_throw {A} P text (Q : A -> Trace -> Prop) (E : Trace -> Prop) : (forall trace, P trace -> E trace) -> runs P (throw text) Q E.
Proof. intros H trace HP. by apply H. Qed.
Lemma runs_lift {A} P (r : result SandboxError A) a (Q : A -> Trace -> Prop) E :
  r = Ok a -> (forall trace, P trace -> Q a trace) -> runs P (lift r) Q E.
Proof. intros -> H trace HP. by apply H. Qed.
Lemma runs_weaken {A} (P P' : Trace -> Prop) (m : act A) (Q Q' : A -> Trace -> Prop) (E E' : Trace -> Prop) :
  runs P m Q E -> (forall trace, P' trace -> P trace) -> (forall a trace, Q a trace -> Q' a trace) ->
  (forall trace, E trace -> E' trace) -> runs P' m Q' E'.
Proof.
  intros Hm HP HQ HE trace H. specialize (Hm trace (HP trace H)). destruct (m trace) as [[a|e] trace']; auto.
Qed.

Section Records.
Context (sha256 : jstring -> jstring) (dateParses zodUuid zodDatetime : jstring -> bool) (runtime : Runtime)
  (events : list ContainerLogEvent).
Notation schema := (sandboxSchema zodUuid zodDatetime).
Notation reads := (reads sha256 dateParses zodUuid zodDatetime events).
Notation always_reads := (always_reads sha256 dateParses zodUuid zodDatetime events).
Notation lifecycleOf := (lifecycleOf dateParses).
Notation lifecycleStep := (lifecycleStep dateParses).
Notation isPending := (isPending dateParses).
Notation project := (projectContainerLifecycle dateParses).
Notation executeAction := (executeAction dateParses runtime).
Notation executeActions := (executeActions dateParses runtime).

(** The writer appends nothing that the schema of its type refuses. *)
Definition writer_parses : Prop := forall trace runId common data,
  match rt_append runtime trace (sandbox_event runId common data) with None => true | Some (_, landed) => landed end = true ->
  schema common data = true.

(** Docker's times are dates, and its error is a line of at most 500 units. *)
Definition plainInspection (i : SanitizedContainerInspection) : Prop :=
  (forall t, t ∈ option_list (sci_startedAt i) ++ option_list (sci_finishedAt i) -> assertTimestamp dateParses t = Ok ()) /\
  match sci_stateError i with None => True | Some t => Z.of_nat (length t) <= 500 /\ hasLineBreak t = false end.
Definition inspects_plainly : Prop := forall trace id i, rt_inspectById runtime trace id = Ok (Some i) -> plainInspection i.

Context (Hwriter : writer_parses) (Hplain : inspects_plainly).

Section One.
(** The lifecycle a recovery is at, with the ones behind it, and what may still
    be pending besides it. *)
Context (lifecycle : CollectedLifecycle) (rest : list CollectedLifecycle) (open : list jstring).
Notation key := (cl_executionId lifecycle).

Definition recording (s : LifecycleState) (trace : Trace) : Prop :=
  always_reads trace /\ exists groups facts, reads trace groups /\
    jm_get key groups = Some (lifecycle <| cl_facts := facts |>) /\ lifecycleOf facts s /\
    (forall other, other ∈ rest -> cl_executionId other <> key /\ jm_get (cl_executionId other) groups = Some other) /\
    (forall k group, k <> key -> jm_get k groups = Some group -> isPending group = true -> k ∈ open).
Definition interrupted (trace : Trace) : Prop := exists s, recording s trace.

Lemma recording_quiet s trace entry : recording s trace -> landedEvent entry = None -> recording s (trace ++ [entry]).
Proof.
  intros (Ha & groups & facts & Hr & H) He. apply reads_quiet with (entry := entry) in Hr; [|done].
  split; [by eapply always_reads_snoc|eauto].
Qed.

Lemma recording_fact s trace data f s' answer :
  recording s trace -> factOf data = Some f -> schema (commonData lifecycle) data = true -> lifecycleStep s f = Ok s' ->
  recording s' (trace ++ [appended_event (sandbox_event (cl_runId lifecycle) (commonData lifecycle) data) true answer]).
Proof.
  intros (Ha & groups & facts & Hr & Hget & Hs & Hrest & Hopen) Hf Hschema Hstep.
  pose proof (reads_fact _ _ _ _ _ _ _ _ _ _ _ _ _ answer Hr Hget Hs Hf Hschema Hstep) as Hr'.
  split; [by eapply always_reads_snoc|]. do 2 eexists. split; [exact Hr'|].
  split; [by rewrite jm_get_set_eq|]. split; [by eapply lifecycleOf_snoc|]. split.
  - intros other Ho. destruct (Hrest other Ho) as [Hne Hg]. split; [done|]. by rewrite jm_get_set_ne.
  - intros k g Hne Hg. rewrite jm_get_set_ne in Hg by done. by eapply Hopen.
Qed.

Lemma runs_ask {A} s (answer : Trace -> result jstring A) entry :
  (forall a, landedEvent (entry a) = None) -> runs (recording s) (ask answer entry) (fun _ => recording s) interrupted.
Proof.
  intros He trace Hs. unfold ask. apply (recording_quiet s trace (entry (answer trace))) in Hs; [|done].
  destruct (answer trace); [done|]. by exists s.
Qed.

Lemma runs_inspect s id :
  runs (recording s) (inspectById runtime id)
    (fun inspection trace => recording s trace /\ forall i, inspection = Some i -> plainInspection i) interrupted.
Proof.
  intros trace Hs. pose proof (runs_ask s (fun trace => rt_inspectById runtime trace id) (inspected_by_id id)
    (fun _ => eq_refl) trace Hs) as H. unfold inspectById, ask in *.
  destruct (rt_inspectById runtime trace id) as [o|] eqn:E; [|done]. split; [done|]. intros i ->. by eapply Hplain.
Qed.

Lemma runs_drain s id : runs (recording s) (drainRecoveredLogs runtime id) (fun _ => recording s) interrupted.
Proof.
  intros trace Hs. unfold drainRecoveredLogs. destruct (rt_collectBoundedLogs runtime trace id) as [chunks ending].
  apply (recording_quiet s trace (read_logs id chunks ending)) in Hs; [|done].
  destruct (_ ← drainChunks chunks; portAnswer ending); [done|]. by exists s.
Qed.

Lemma runs_append s data f (R : LifecycleState -> Prop) :
  factOf data = Some f ->
  (schema (commonData lifecycle) data = true -> exists s', lifecycleStep s f = Ok s' /\ R s') ->
  runs (recording s) (appendSandbox runtime lifecycle data) (fun _ trace => exists s', R s' /\ recording s' trace) interrupted.
Proof.
  intros Hf Hstep trace Hs. unfold appendSandbox.
  pose proof (Hwriter trace (cl_runId lifecycle) (commonData lifecycle) data) as Hw.
  destruct (rt_append _ _ _) as [[text [|]]|].
  - destruct (Hstep (Hw eq_refl)) as (s' & ? & _). exists s'. by eapply recording_fact; eauto.
  - exists s. by apply recording_quiet.
  - destruct (Hstep (Hw eq_refl)) as (s' & ? & ?). exists s'. split; [done|]. by eapply recording_fact; eauto.
Qed.

(** *** Plans the projector follows *)

Fixpoint admits (s : LifecycleState) (actions : list ContainerReconciliationAction) : Prop :=
  match actions with
  | [] => isSome (lc_cleaned s) = true
  | action :: actions =>
      match action with
      | record_stopping => exists s', lifecycleStep s (fact_stopping stop_storage_failure) = Ok s' /\
                             lc_exited s' = lc_exited s /\ lc_inspected s' = lc_inspected s /\ admits s' actions
      | record_exited => forall exitCode, isExitCode exitCode = true ->
                           exists s', lifecycleStep s (fact_exited exitCode true) = Ok s' /\
                             lc_exited s' = Some exitCode /\ admits s' actions
      | record_terminal_inspect => is_Some (lc_exited s) /\ lc_inspected s = false /\
                           forall e, lc_exited s = Some (te_exitCode e) -> isExitCode (te_exitCode e) = true ->
                             plainEvidence dateParses e ->
                             exists s', lifecycleStep s (fact_inspected e) = Ok s' /\ lc_exited s' = lc_exited s /\ admits s' actions
      | record_recovered_cleaned resolution => exists s', lifecycleStep s (fact_cleaned true resolution) = Ok s' /\
                                                 lc_exited s' = lc_exited s /\ lc_inspected s' = lc_inspected s /\ admits s' actions
      | wait_terminal => lc_exited s = None /\ admits s actions
      | _ => admits s actions
      end
  end.

(** The exit code of the actions is the one on record, until it is inspected. *)
Definition linked (s : LifecycleState) (state : ActionState) : Prop :=
  lc_inspected s = false -> forall exitCode, lc_exited s = Some exitCode -> as_terminalExitCode state = Some exitCode.

Definition progress (actions : list ContainerReconciliationAction) (state : ActionState) (trace : Trace) : Prop :=
  exists s, recording s trace /\ admits s actions /\ linked s state.

Lemma schema_exited exitCode recovered :
  schema (commonData lifecycle) (data_exited exitCode recovered) = true -> isExitCode exitCode = true.
Proof. unfold sandboxSchema, isExitCode, isSafeInteger. rewrite !andb_true_iff. lia. Qed.
Lemma schema_inspected e : schema (commonData lifecycle) (data_inspected e) = true -> isExitCode (te_exitCode e) = true.
Proof. unfold sandboxSchema, isExitCode, isSafeInteger. rewrite !andb_true_iff. lia. Qed.

Lemma runs_requireId s id : runs (recording s) (requireId id) (fun _ => recording s) interrupted.
Proof. destruct id; [by apply runs_ret|]. apply runs_throw. intros trace H. by exists s. Qed.

Lemma recording_interrupted s trace : recording s trace -> interrupted trace.
Proof. intros H. by exists s. Qed.

(** The tail of an action that records nothing. *)
Lemma runs_kept s state state' actions :
  admits s actions -> linked s state -> as_terminalExitCode state' = as_terminalExitCode state ->
  runs (recording s) (mret state' : act ActionState) (progress actions) interrupted.
Proof.
  intros Ha Hl Hst. apply runs_ret. intros trace H. exists s. split_and!; [done..|].
  intros Hi code Hc. rewrite Hst. by apply Hl.
Qed.

Ltac logic := first
  [ apply runs_requireId | apply runs_drain | by apply runs_ask | by apply runs_ret
  | eapply runs_weaken; [apply runs_inspect|done| |done]; cbn; by intros ??[??] ].

Lemma runs_if_running s (b : bool) (m : act ()) :
  runs (recording s) m (fun _ => recording s) interrupted ->
  runs (recording s) (if b then m else mret ()) (fun _ => recording s) interrupted.
Proof. intros H. destruct b; [done|by apply runs_ret]. Qed.

Lemma runs_terminal_inspect s state inspection identity durable actions :
  admits s (record_terminal_inspect :: actions) -> linked s state ->
  (forall i, inspection = Some i -> plainInspection i) ->
  runs (recording s)
    (match inspection with
     | Some i =>
         match sci_running i, sci_exitCode i, sci_startedAt i, sci_finishedAt i, exactIdentityMatches i identity durable with
         | false, Some exitCode, Some startedAt, Some finishedAt, true =>
             _ ← (if match as_terminalExitCode state with Some known => exitCode !== known | None => false end
                  then throw "Docker wait and inspect exit codes do not match" else mret () : act ());
             _ ← appendSandbox runtime lifecycle (data_inspected {|
                   te_exitCode := exitCode; te_finishedAt := finishedAt; te_oomKilled := sci_oomKilled i;
                   te_startedAt := startedAt; te_stateError := sci_stateError i |});
             mret {| as_inspection := Some i; as_terminalExitCode := Some exitCode |}
         | _, _, _, _, _ => throw "terminal Docker inspection could not be proven"
         end
     | None => throw "terminal Docker inspection could not be proven"
     end : act ActionState) (progress actions) interrupted.
Proof.
  intros ([code Hcode] & Hi & Hnext) Hl Hin. assert (Hthrow : forall text Q, runs (A:=ActionState) (recording s) (throw text) Q interrupted)
    by (intros; apply runs_throw, recording_interrupted).
  destruct inspection as [i|]; [|apply Hthrow]. specialize (Hin i eq_refl) as [Htimes Herror].
  destruct (sci_running i); [apply Hthrow|]. destruct (sci_exitCode i) as [exitCode|]; [|apply Hthrow].
  destruct (sci_startedAt i) as [startedAt|] eqn:Es; [|apply Hthrow].
  destruct (sci_finishedAt i) as [finishedAt|] eqn:Ef; [|apply Hthrow].
  destruct (exactIdentityMatches _ _ _); [|apply Hthrow]. rewrite (Hl Hi code Hcode).
  destruct (decide (exitCode = code)) as [->|Hne]; [|rewrite bool_decide_eq_false_2 by done].
  2:{ eapply runs_bind; [apply (runs_throw _ _ (fun _ _ => False)), recording_interrupted|]. by intros [] ?. }
  rewrite bool_decide_eq_true_2 by done. cbn [negb].
  eapply runs_bind; [by apply (runs_ret (recording s) () (fun _ => recording s))|]. intros [].
  match goal with |- context [data_inspected ?evidence] => set (e := evidence) end.
  eapply runs_bind.
  - apply (runs_append s (data_inspected e) (fact_inspected e) (fun s' => lc_exited s' = Some code /\ admits s' actions)); [done|].
    intros Hschema%schema_inspected. rewrite <-Hcode. destruct (Hnext e) as (s' & ? & ? & ?); [done|done| |by exists s'].
    split; [|split; [|done]]; apply Htimes; cbn; set_solver.
  - intros []. apply runs_ret. intros trace (s' & [Hc Ha] & H). exists s'. split_and!; [done..|].
    intros _ c Hc'. cbn. congruence.
Qed.

(** One action of a plan the projector follows. *)
Lemma runs_action p s state action actions :
  project (cl_facts lifecycle) = Ok p -> admits s (action :: actions) -> linked s state ->
  runs (recording s) (executeAction lifecycle state action) (progress actions) interrupted.
Proof.
  intros Hp Ha Hl. unfold ContainerLifecycle.executeAction. rewrite Hp.
  intros trace H. unfold lift, mbind at 1, act_bind at 1. revert trace H.
  generalize (match clp_containerId p with Some id => Some id | None => sci_containerId <$> as_inspection state end) as id.
  intros id. lazymatch goal with |- forall trace, recording s trace -> match ?m trace with _ => _ end =>
    change (runs (recording s) m (progress actions) interrupted) end.
  assert (Hthrow : forall text, runs (A:=ActionState) (recording s) (throw text) (progress actions) interrupted)
    by (intros; apply runs_throw, recording_interrupted).
  destruct action.
  - eapply runs_bind; [logic|intros c]. eapply runs_bind; [logic|intros []]. by apply (runs_kept s state).
  - eapply runs_bind; [logic|intros c]. eapply runs_bind; [logic|intros [i|]]; [|done].
    destruct (exactIdentityMatches _ _ _); [by apply (runs_kept s state)|done].
  - eapply runs_bind; [logic|intros c]. eapply runs_bind; [logic|intros i].
    eapply runs_bind; [apply runs_if_running; logic|intros []]. by apply (runs_kept s state).
  - eapply (runs_bind _ _ (fun _ => recording s)); [destruct id; logic|intros []]. by apply (runs_kept s state).
  - destruct (match as_terminalExitCode state with Some c => Some c | None => _ end) as [code|]; [|done].
    eapply runs_bind.
    + apply (runs_append s (data_exited code true) (fact_exited code true) (fun s' => lc_exited s' = Some code /\ admits s' actions)); [done|].
      intros Hc%schema_exited. destruct (Ha code Hc) as (s' & ? & ? & ?). by exists s'.
    + intros []. apply runs_ret. intros trace (s' & [Hc Hn] & H). exists s'. split_and!; [done..|].
      intros _ c Hc'. cbn. congruence.
  - eapply runs_bind.
    + apply (runs_append s _ (fact_stopping stop_storage_failure) (fun s' => lc_exited s' = lc_exited s /\ lc_inspected s' = lc_inspected s /\ admits s' actions)); [done|].
      intros _. exact Ha.
    + intros []. apply runs_ret. intros trace (s' & (Hc & Hi & Hn) & H). exists s'. split_and!; [done..|].
      intros Hi' c Hc'. apply Hl; congruence.
  - eapply runs_bind; [logic|intros c]. eapply runs_bind; [apply runs_inspect|intros i].
    intros trace [H Hi]. by apply (runs_terminal_inspect s state i _ _ actions Ha Hl Hi trace H).
  - eapply runs_bind.
    + apply (runs_append s _ (fact_cleaned true resolution) (fun s' => lc_exited s' = lc_exited s /\ lc_inspected s' = lc_inspected s /\ admits s' actions)); [done|].
      intros _. exact Ha.
    + intros []. apply runs_ret. intros trace (s' & (Hc & Hi & Hn) & H). exists s'. split_and!; [done..|].
      intros Hi' c Hc'. apply Hl; congruence.
  - eapply runs_bind; [logic|intros c]. eapply runs_bind; [logic|intros i].
    eapply runs_bind; [apply runs_if_running; logic|intros []]. by apply (runs_kept s state).
  - destruct Ha as [Hnone Ha]. eapply runs_bind; [logic|intros c]. eapply runs_bind; [logic|intros code].
    apply runs_ret. intros trace H. exists s. split_and!; [done..|]. intros _ c' Hc'. congruence.
  - destruct id; [|by apply (runs_kept s state)]. eapply runs_bind; [logic|intros i].
    destruct (isSome i); [done|by apply (runs_kept s state)].
  - eapply runs_bind; [unfold inspectByName; logic|intros i]. destruct (isSome i); [done|by apply (runs_kept s state)].
Qed.

(** A plan the projector follows ends in a clean lifecycle, and leaves a readable
    log wherever it stops. *)
Lemma runs_actions p actions : forall state,
  project (cl_facts lifecycle) = Ok p ->
  runs (progress actions state) (executeActions lifecycle state actions)
    (fun _ trace => exists s, recording s trace /\ isSome (lc_cleaned s) = true) interrupted.
Proof.
  induction actions as [|action actions IH]; intros state Hp; cbn [ContainerLifecycle.executeActions].
  - apply runs_ret. intros trace (s & H & Ha & _). by exists s.
  - eapply runs_bind with (R := progress actions); [|intros state'; by apply IH].
    intros trace (s & H & Ha & Hl). by apply (runs_action p s state action actions Hp Ha Hl trace H).
Qed.

(** *** Plans *)

(** Nothing of the end of the container is on record, or all of it. *)
Definition undisturbed (facts : list ContainerLifecycleFact) : bool :=
  existsb isInspectedFact facts || negb (existsb isStoppingFact facts || existsb isExitedFact facts).

Lemma isPending_lifecycle group s : lifecycleOf (cl_facts group) s -> isPending group = negb (isSome (lc_cleaned s)).
Proof.
  intros Hs. pose proof Hs as (i & r & E & _). unfold ContainerLifecycle.isPending.
  rewrite (proj2 (project_ok dateParses (cl_facts group) (containerProjectionOf i (cl_facts group) s))) 
    by (exists i, s; split_and!; [by rewrite E|done..]).
  cbn. by destruct (lc_cleaned s).
Qed.

Lemma tail_admits s resolution : lc_cleaned s = None -> resolutionValid s resolution = true -> admits s (cleanupTail resolution).
Proof. intros Hc Hr. cbn. eexists. split; [by apply step_cleaned|]. by split_and!. Qed.

Lemma plan_admits facts s observation plan :
  lifecycleOf facts s -> lc_cleaned s = None -> undisturbed facts = true ->
  planContainerReconciliation dateParses facts observation = Ok plan -> crp_disposition plan <> plan_blocked ->
  admits s (crp_actions plan).
Proof.
  intros Hs Hc Hu Hplan Hb. pose proof (lifecycleOf_flags _ _ _ Hs) as (Hcreated & Hstart & Hstop & Hins & Hex).
  unfold undisturbed in Hu. rewrite Hins, Hstop, Hex in Hu.
  unfold planContainerReconciliation in Hplan. apply bind_ok in Hplan as (p & (i & s' & _ & Hs' & ->)%project_ok & Hplan).
  rewrite (lifecycleOf_fun _ _ _ _ Hs' Hs) in Hplan. injection Hplan as <-. cbn in Hb |- *.
  rewrite Hcreated, Hstart, Hins, Hc in *. cbn in Hb |- *.
  apply lifecycleOf_lived in Hs as (? & ? & _ & _ & ? & ? & ? & ? & _ & Hcc & Hsc & Hrun & _ & _ & Hexit & Hev & _).
  destruct observation as [|byId byName| |id state]; [done| |done|].
  - destruct byId, byName; try done. cbn in Hb |- *.
    assert (Hfin : forall r, resolutionValid s r = true -> admits s [record_recovered_cleaned r]).
    { intros r Hr. cbn. eexists. split; [by apply step_cleaned|]. by split_and!. }
    destruct (lc_inspected s) eqn:Ei; [rewrite andb_false_r; by apply Hfin|]. rewrite andb_true_r.
    destruct (lc_startRequested s) eqn:Es; [apply Hfin; cbn; by rewrite Es, Ei|].
    destruct (lc_created s) eqn:Ec; apply Hfin; cbn; by rewrite Es, Ec.
  - destruct (match lc_containerId s with Some durable => id !== durable | None => false end); [done|].
    destruct (lc_inspected s) eqn:Ei; [by apply tail_admits|].
    destruct (lc_startRequested s) eqn:Es.
    2:{ assert (admits s (cleanupTail (if lc_created s then never_started else never_created)))
          by (apply tail_admits; [done|]; destruct (lc_created s) eqn:Ec; cbn; by rewrite Es, Ec).
        by destruct state. }
    cbn [orb] in Hu. apply negb_true_iff, orb_false_iff in Hu as [Et Ee].
    assert (En : lc_exited s = None) by (by destruct (lc_exited s)).
    assert (Hend : forall t, lc_cleaned t = None -> lc_startRequested t = true -> lc_exited t = None -> lc_inspected t = false ->
      admits t (record_exited :: collect_bounded_logs :: record_terminal_inspect :: cleanupTail terminal_inspected) /\
      admits t (record_exited :: record_terminal_inspect :: cleanupTail terminal_inspected)).
    { intros t Htc Hts Hte Hti. cbn. split; intros code Hcode; (eexists; split; [by apply step_exited|]; split; [done|];
        split; [done|]; split; [done|]; intros e He Hce Hp; eexists; split; [by apply step_inspected|]; split; [done|];
        eexists; split; [by apply step_cleaned|]; by split_and!). }
    destruct state.
    + cbn. eexists. split; [apply step_cleaned; [done|cbn; by rewrite Es, Ei]|]. by split_and!.
    + cbn. split; [done|]. by apply Hend.
    + cbn. split; [done|]. by apply Hend.
    + cbn. eexists. split; [apply step_cleaned; [done|cbn; by rewrite Es, Ei]|]. by split_and!.
    + cbn. eexists. split; [by apply step_stopping|]. split; [done|]. split; [done|]. split; [done|]. by apply Hend.
Qed.

(** *** One lifecycle *)

Lemma runs_observe p s :
  project (cl_facts lifecycle) = Ok p ->
  runs (recording s) (observeRuntime dateParses runtime lifecycle) (fun _ => recording s) interrupted.
Proof.
  intros Hp trace H. unfold observeRuntime. rewrite Hp.
  apply (recording_quiet s trace (called_daemon (rt_daemonOperatingSystem runtime trace))) in H; [|done].
  destruct (rt_daemonOperatingSystem runtime trace); [|done].
  set (byIdCall := match clp_containerId p with Some _ => _ | None => _ end).
  assert (HbyId : recording s byIdCall.2).
  { unfold byIdCall. destruct (clp_containerId p); [|done]. cbn. by apply recording_quiet. }
  destruct byIdCall as [byId trace']. cbn in HbyId |- *. unfold inspectByName, ask.
  set (byName := rt_inspectByName runtime trace' _). apply (recording_quiet s trace' (inspected_by_name (cli_name (clp_identity p)) byName)) in HbyId; [|done].
  apply recording_interrupted in HbyId as Hi. destruct byId as [[i|]|], byName as [[n|]|]; cbn; repeat case_match; done.
Qed.

(** The end of a turn: the lifecycle is clean or the turn was given up. *)
Definition settled (outcome : option string) (trace : Trace) : Prop :=
  exists s, recording s trace /\ (outcome = None -> isSome (lc_cleaned s) = true).

Lemma runs_reconcileOne s :
  lifecycleOf (cl_facts lifecycle) s -> lc_cleaned s = None -> undisturbed (cl_facts lifecycle) = true ->
  runs (recording s) (reconcileOne dateParses runtime lifecycle) settled interrupted.
Proof.
  intros Hs Hc Hu. assert (Hp : exists p, project (cl_facts lifecycle) = Ok p).
  { pose proof Hs as (i & r & E & _). exists (containerProjectionOf i (cl_facts lifecycle) s). apply project_ok.
    exists i, s. split_and!; [by rewrite E|done..]. }
  destruct Hp as [p Hp]. unfold reconcileOne.
  eapply runs_bind; [by apply (runs_observe p)|]. intros [inspection observation].
  assert (Hplan : exists plan, planContainerReconciliation dateParses (cl_facts lifecycle) observation = Ok plan)
    by (unfold planContainerReconciliation; rewrite Hp; eauto).
  destruct Hplan as [plan Hplan]. rewrite Hplan.
  eapply runs_bind; [by apply (runs_lift (recording s) _ plan (fun plan' trace => plan' = plan /\ recording s trace))|].
  intros plan' trace [-> H]. destruct (decide (crp_disposition plan = plan_blocked)) as [Hb|Hb].
  { rewrite bool_decide_eq_true_2 by done. by exists s. }
  rewrite bool_decide_eq_false_2 by done.
  pose proof (plan_admits _ _ _ _ Hs Hc Hu Hplan Hb) as Ha. clear Hplan. revert trace H.
  apply (runs_bind _ _ (fun _ trace => exists s, recording s trace /\ isSome (lc_cleaned s) = true)).
  - intros trace H. apply (runs_actions p (crp_actions plan) _ Hp trace). exists s. split_and!; [done..|].
    intros Hi code Hcode. exfalso. pose proof (lifecycleOf_flags _ _ _ Hs) as (_ & _ & _ & Hins & Hex).
    unfold undisturbed in Hu. rewrite Hins, Hex, Hi, Hcode, orb_true_r in Hu. done.
  - intros _. apply runs_ret. intros trace (s' & ? & ?). by exists s'.
Qed.
End One.

(** *** All of them *)

(** Between the turns: nobody has touched the lifecycles that wait for theirs,
    and whatever else is pending was given up. *)
Definition waiting (pending : list CollectedLifecycle) (blocked : list jstring) (trace : Trace) : Prop :=
  always_reads trace /\ NoDup (cl_executionId <$> pending) /\ exists groups, reads trace groups /\
    (forall other, other ∈ pending -> jm_get (cl_executionId other) groups = Some other) /\
    (forall k group, jm_get k groups = Some group -> isPending group = true -> k ∈ (cl_executionId <$> pending) ++ blocked).

Lemma NoDup_filter_fmap {A B} (f : A -> B) (p : A -> bool) l : NoDup (f <$> l) -> NoDup (f <$> List.filter p l).
Proof.
  induction l as [|a l IH]; cbn [fmap list_fmap List.filter]; [done|]. intros [Ha Hl]%list.NoDup_cons.
  destruct (p a); [|by apply IH]. cbn. apply list.NoDup_cons. split; [|by apply IH].
  intros (b & E & Hb)%list_elem_of_fmap. apply Ha, list_elem_of_fmap. exists b. split; [done|].
  apply list_elem_of_In, filter_In in Hb as [Hb _]. by apply list_elem_of_In.
Qed.

Lemma values_keys (groups : jsmap jstring CollectedLifecycle) :
  (forall k g, (k, g) ∈ groups -> cl_executionId g = k) -> cl_executionId <$> jm_values groups = fst <$> groups.
Proof.
  intros H. unfold jm_values. rewrite <-list_fmap_compose. apply list_fmap_ext. intros i [k g] Hi. cbn.
  apply H. by eapply list_elem_of_lookup_2.
Qed.

Lemma same_facts lifecycle : lifecycle <| cl_facts := cl_facts lifecycle |> = lifecycle.
Proof. by destruct lifecycle. Qed.

Lemma waiting_turn lifecycle rest blocked trace :
  waiting (lifecycle :: rest) blocked trace -> isPending lifecycle = true ->
  exists s, recording lifecycle rest ((cl_executionId <$> rest) ++ blocked) s trace /\
    lifecycleOf (cl_facts lifecycle) s /\ lc_cleaned s = None.
Proof.
  intros (Ha & [Hk Hn]%list.NoDup_cons & groups & Hr & Hget & Hopen) Hp.
  pose proof (Hget lifecycle) as Hl. specialize (Hl ltac:(set_solver)).
  pose proof Hr as (_ & _ & Hall). destruct (Hall _ _ Hl) as (_ & s & Hs). exists s. split_and!; [|done|].
  - split; [done|]. exists groups, (cl_facts lifecycle). split_and!; [done|by rewrite same_facts|done| |].
    + intros other Ho. split; [|apply Hget; set_solver]. intros E. destruct Hk. rewrite <-E.
      apply list_elem_of_fmap. by exists other.
    + intros k group Hne Hg Hpend. specialize (Hopen k group Hg Hpend). set_solver.
  - rewrite (isPending_lifecycle _ _ Hs) in Hp. by destruct (lc_cleaned s).
Qed.

Lemma turn_waiting lifecycle rest blocked blocked' s trace :
  recording lifecycle rest ((cl_executionId <$> rest) ++ blocked) s trace -> NoDup (cl_executionId <$> rest) ->
  blocked ⊆ blocked' -> isSome (lc_cleaned s) = true \/ cl_executionId lifecycle ∈ blocked' ->
  waiting rest blocked' trace.
Proof.
  intros (Ha & groups & facts & Hr & Hget & Hs & Hrest & Hopen) Hn Hsub Hdone. split; [done|]. split; [done|].
  exists groups. split_and!; [done|by intros other Ho; apply Hrest|].
  intros k group Hg Hp. destruct (decide (k = cl_executionId lifecycle)) as [->|Hne].
  - destruct Hdone as [Hc|Hin]; [|set_solver]. rewrite Hget in Hg. injection Hg as <-.
    rewrite (isPending_lifecycle _ s) in Hp by done. by rewrite Hc in Hp.
  - specialize (Hopen k group Hne Hg Hp). set_solver.
Qed.

Lemma reconcileNext_waiting lifecycle rest result trace :
  waiting (lifecycle :: rest) (fst <$> crr_blocked result) trace ->
  isPending lifecycle = true -> undisturbed (cl_facts lifecycle) = true ->
  forall result' trace', reconcileNext dateParses runtime result lifecycle trace = (result', trace') ->
  waiting rest (fst <$> crr_blocked result') trace' /\ crr_attempted result' = crr_attempted result /\
  (crr_cleaned result' + length (crr_blocked result') = S (crr_cleaned result + length (crr_blocked result)))%nat.
Proof.
  intros Hw Hp Hu result' trace' E. pose proof Hw as (_ & [_ Hn]%list.NoDup_cons & _).
  apply waiting_turn in Hw as (s & H & Hs & Hc); [|done].
  pose proof (runs_reconcileOne _ _ _ s Hs Hc Hu trace H) as Hrun. unfold reconcileNext in E.
  destruct (reconcileOne dateParses runtime lifecycle trace) as [[[reason|]|error] trace1]; injection E as <- <-.
  - destruct Hrun as (s' & H' & _). cbn. rewrite fmap_app, length_app. cbn. split_and!; [|done|lia].
    eapply turn_waiting; [done|done|set_solver|right; set_solver].
  - destruct Hrun as (s' & H' & Hclean). cbn. split_and!; [|done|lia].
    eapply turn_waiting; [done|done|done|left; by apply Hclean].
  - destruct Hrun as (s' & H'). cbn. rewrite fmap_app, length_app. cbn. split_and!; [|done|lia].
    eapply turn_waiting; [done|done|set_solver|right; set_solver].
Qed.

Lemma reconcileAll_waiting pending : forall result trace result' trace',
  waiting pending (fst <$> crr_blocked result) trace ->
  (forall lifecycle, lifecycle ∈ pending -> isPending lifecycle = true /\ undisturbed (cl_facts lifecycle) = true) ->
  reconcileAll dateParses runtime result pending trace = (result', trace') ->
  waiting [] (fst <$> crr_blocked result') trace' /\ crr_attempted result' = crr_attempted result /\
  (crr_cleaned result' + length (crr_blocked result') = length pending + crr_cleaned result + length (crr_blocked result))%nat.
Proof.
  induction pending as [|lifecycle rest IH]; intros result trace result' trace' Hw Hall E; cbn [reconcileAll] in E.
  - injection E as <- <-. by split_and!.
  - destruct (reconcileNext dateParses runtime result lifecycle trace) as [result1 trace1] eqn:E1.
    destruct (Hall lifecycle) as [Hp Hu]; [set_solver|].
    apply (reconcileNext_waiting _ _ _ _ Hw Hp Hu) in E1 as (Hw1 & Ha1 & Hn1).
    apply (IH _ _ _ _ Hw1) in E as (Hw' & Ha' & Hn'); [|intros l Hl; apply Hall; set_solver].
    split_and!; [done|congruence|cbn; lia].
Qed.

(** C18: A recovery of containers keeps the log readable, if inspections are
    plain and no end would be recorded twice.  Whichever calls and appends fail and
    wherever the process ends, the log with what was appended so far is still
    collected and projected; and afterwards what is still pending was named as
    blocked, so that a resume that finds nothing blocked has no container left.
    Needed of the daemon: an inspection has times that are dates, and its error, if
    any, is one line of at most 500 units ([inspects_plainly]; a longer or broken
    error is appended and makes the log unreadable).  Needed of the writer: it
    appends what the schema of the event takes ([writer_parses]).  Needed of the
    log: no lifecycle has a stop or an exit on record without the final inspection,
    for a recovery would record it a second time. *)
Theorem recovery_keeps_log_readable lifecycles :
  collectContainerLifecycles sha256 dateParses zodUuid zodDatetime events = Ok lifecycles ->
  (forall lifecycle, lifecycle ∈ lifecycles -> isPending lifecycle = true -> undisturbed (cl_facts lifecycle) = true) ->
  exists result trace,
    reconcilePersistedContainers sha256 dateParses zodUuid zodDatetime runtime events = Ok (result, trace) /\
    (forall n, exists read, collectContainerLifecycles sha256 dateParses zodUuid zodDatetime
       (events ++ appended (take n trace)) = Ok read) /\
    (forall read lifecycle, collectContainerLifecycles sha256 dateParses zodUuid zodDatetime (events ++ appended trace) = Ok read ->
       lifecycle ∈ read -> isPending lifecycle = true -> cl_executionId lifecycle ∈ fst <$> crr_blocked result) /\
    crr_attempted result = (crr_cleaned result + length (crr_blocked result))%nat.
Proof.
  intros Hcollect Hu. apply collect_reads in Hcollect as Hr. destruct Hr as (groups & Hr & ->).
  set (pending := List.filter isPending (jm_values groups)).
  assert (Hin : forall lifecycle, lifecycle ∈ pending -> jm_get (cl_executionId lifecycle) groups = Some lifecycle /\
    isPending lifecycle = true).
  { intros l Hl. unfold pending in Hl. apply list_elem_of_In, filter_In in Hl as [Hl Hp]. apply list_elem_of_In in Hl.
    destruct Hr as (_ & Hn & Hall). apply jm_values_get in Hl as (key & Hkey); [|done].
    destruct (Hall _ _ Hkey) as [E _]. by rewrite E. }
  destruct (reconcileAll dateParses runtime {| crr_attempted := length pending; crr_blocked := []; crr_cleaned := 0;
    crr_pending := length pending |} pending []) as [result trace] eqn:E.
  exists result, trace. unfold reconcilePersistedContainers. rewrite Hcollect. split; [unfold mbind; cbn [result_bind]; fold pending; by rewrite E|].
  apply reconcileAll_waiting in E as ((Ha & _ & groups' & Hr' & _ & Hopen) & Hatt & Hn).
  - cbn in Hatt, Hn. split_and!; [| |lia].
    + intros n. destruct (Ha n) as [g Hg]. eexists. by apply reads_collect.
    + intros read l Hread Hl Hp. rewrite (reads_collect _ _ _ _ _ _ _ Hr') in Hread. injection Hread as <-.
      pose proof Hr' as (_ & Hnd & Hall). apply jm_values_get in Hl as (key & Hkey); [|done].
      destruct (Hall _ _ Hkey) as [Ek _]. rewrite Ek. apply (Hopen _ _ Hkey) in Hp. by cbn in Hp.
  - split; [|split].
    + intros n. exists groups. by rewrite take_nil.
    + unfold pending. apply NoDup_filter_fmap. rewrite (values_keys groups); [by destruct Hr as (_ & ? & _)|].
      intros k g Hin'. destruct Hr as (_ & Hnd & Hall). apply (jm_get_NoDup _ _ _ Hnd) in Hin'. by destruct (Hall _ _ Hin').
    + exists groups. split_and!; [done|by intros o Ho; apply Hin|].
      intros k g Hg Hp. cbn. rewrite app_nil_r. apply list_elem_of_fmap. exists g.
      destruct Hr as (_ & _ & Hall). split; [by destruct (Hall _ _ Hg)|]. unfold pending.
      apply list_elem_of_In, filter_In. split; [|done]. apply list_elem_of_In. by eapply jm_get_values.
  - intros l Hl. destruct (Hin l Hl) as [Hg Hp]. split; [done|]. apply Hu; [|done]. by eapply jm_get_values.
Qed.
End Records.

(** ** What a recovery touches *)

Section Targets.
Context (dateParses : jstring -> bool) (runtime : Runtime) (lifecycles : list CollectedLifecycle).
Notation project := (projectContainerLifecycle dateParses).
Notation executeAction := (executeAction dateParses runtime).
Notation executeActions := (executeActions dateParses runtime).

(** An inspection on the trace had this id, and the name, image and labels of
    the identity. *)
Definition identifies (identity : ContainerLifecycleIdentity) (id : jstring) (trace : Trace) : Prop :=
  exists i, ((exists asked, inspected_by_id asked (Ok (Some i)) ∈ trace) \/ (exists asked, inspected_by_name asked (Ok (Some i)) ∈ trace)) /\
    exactIdentityMatches i identity None = true /\ sci_containerId i = id.

(** The id is the one a lifecycle recorded or, when it recorded none, the one of
    a container that was inspected and found to be its own. *)
Definition belongs (id : jstring) (trace : Trace) : Prop :=
  exists lifecycle p, lifecycle ∈ lifecycles /\ project (cl_facts lifecycle) = Ok p /\
    (clp_containerId p = Some id \/ clp_containerId p = None /\ identifies (clp_identity p) id trace).

(** The last answers were that nothing has the recorded id nor the name. *)
Definition proven_absent (p : ContainerLifecycleProjection) (trace : Trace) : Prop :=
  exists before, trace = before ++
    match clp_containerId p with Some id => [inspected_by_id id (Ok None)] | None => [] end ++
    [inspected_by_name (cli_name (clp_identity p)) (Ok None)].

Definition justifies (trace : Trace) (entry : RuntimeEntry) : Prop :=
  match entry with
  | stopped id _ | killed id _ | removed id _ => belongs id trace
  | appended_event (sandbox_event runId common (data_cleaned _ _)) _ _ =>
      exists lifecycle p, lifecycle ∈ lifecycles /\ commonData lifecycle = common /\
        project (cl_facts lifecycle) = Ok p /\ proven_absent p trace
  | _ => True
  end.

(** Every entry was justified by the ones before it. *)
Inductive justified (trace : Trace) : Prop :=
| justified_by (entries : forall before entry after, trace = before ++ entry :: after -> justifies before entry).

Lemma justified_snoc trace entry : justified trace -> justifies trace entry -> justified (trace ++ [entry]).
Proof.
  intros [Ht] He. constructor. intros before e after E. destruct after as [|x after _] using rev_ind.
  - apply app_inj_tail in E as [<- <-]. done.
  - rewrite app_comm_cons, app_assoc in E. apply app_inj_tail in E as [-> _]. by eapply Ht.
Qed.

Lemma justified_entries trace :
  justified trace <-> forall before entry after, trace = before ++ entry :: after -> justifies before entry.
Proof. split; [by intros []|by constructor]. Qed.
Lemma justified_nil : justified [].
Proof. constructor. by intros [] ? ?. Qed.

Lemma identifies_snoc identity id trace entry : identifies identity id trace -> identifies identity id (trace ++ [entry]).
Proof. intros (i & H & ?). exists i. split; [|done]. destruct H as [[a H]|[a H]]; [left|right]; exists a; set_solver. Qed.

Section One.
Context (lifecycle : CollectedLifecycle) (p : ContainerLifecycleProjection).
Hypothesis Hin : lifecycle ∈ lifecycles.
Hypothesis Hp : project (cl_facts lifecycle) = Ok p.
Notation identity := (clp_identity p).

(** The container the state of the actions speaks of is the lifecycle's own. *)
Definition owned (state : ActionState) (trace : Trace) : Prop :=
  justified trace /\ (clp_containerId p = None -> forall i, as_inspection state = Some i -> identifies identity (sci_containerId i) trace).

Definition target (state : ActionState) : option jstring :=
  match clp_containerId p with Some id => Some id | None => sci_containerId <$> as_inspection state end.

Lemma owned_target state trace id : owned state trace -> target state = Some id -> belongs id trace.
Proof.
  unfold target. intros [_ Ho] Ht. exists lifecycle, p. split; [done|]. split; [done|].
  destruct (clp_containerId p) eqn:E; [left; congruence|]. right. split; [done|].
  apply fmap_Some in Ht as (i & Hi & ->). by apply Ho.
Qed.

Lemma owned_snoc state trace entry : owned state trace -> justifies trace entry -> owned state (trace ++ [entry]).
Proof.
  intros [Hj Ho] He. split; [by apply justified_snoc|]. intros E i Hi. by apply identifies_snoc, Ho.
Qed.

Lemma owned_justified state trace : owned state trace -> justified trace.
Proof. by intros [? _]. Qed.

Lemma touches_ask {A} state (answer : Trace -> result jstring A) entry :
  (forall trace, owned state trace -> justifies trace (entry (answer trace))) ->
  runs (owned state) (ask answer entry) (fun _ => owned state) justified.
Proof.
  intros He trace H. unfold ask. pose proof (owned_snoc state trace _ H (He trace H)) as H'.
  destruct (answer trace); [done|by eapply owned_justified].
Qed.

Lemma touches_inspect state id :
  runs (owned state) (inspectById runtime id)
    (fun inspection trace => owned state trace /\ inspected_by_id id (Ok inspection) ∈ trace) justified.
Proof.
  intros trace H. unfold inspectById, ask. apply (owned_snoc state trace (inspected_by_id id (rt_inspectById runtime trace id))) in H; [|done].
  destruct (rt_inspectById runtime trace id); [split; [done|set_solver]|by eapply owned_justified].
Qed.

Lemma touches_requireId state id :
  runs (owned state) (requireId id) (fun found trace => owned state trace /\ id = Some found) justified.
Proof. destruct id; [by apply runs_ret|]. apply runs_throw. intros trace. apply owned_justified. Qed.

Lemma touches_append state data :
  (forall r resolution, data <> data_cleaned r resolution) ->
  runs (owned state) (appendSandbox runtime lifecycle data) (fun _ => owned state) justified.
Proof.
  intros Hd trace H. unfold appendSandbox.
  assert (He : forall landed answer, owned state (trace ++ [appended_event (sandbox_event (cl_runId lifecycle) (commonData lifecycle) data) landed answer]))
    by (intros; apply owned_snoc; [done|]; destruct data; try done; by destruct (Hd recovered resolution)).
  destruct (rt_append _ _ _) as [[text landed]|]; [eapply owned_justified|]; apply He.
Qed.

Lemma touches_drain state id : runs (owned state) (drainRecoveredLogs runtime id) (fun _ => owned state) justified.
Proof.
  intros trace H. unfold drainRecoveredLogs. destruct (rt_collectBoundedLogs runtime trace id) as [chunks ending].
  apply (owned_snoc state trace (read_logs id chunks ending)) in H; [|done].
  destruct (_ ← drainChunks chunks; portAnswer ending); [done|by eapply owned_justified].
Qed.

(** Actions that come before the tail of a plan. *)
Definition early (action : ContainerReconciliationAction) : Prop :=
  match action with
  | record_recovered_cleaned _ | remove_force_exact | prove_absent_by_id | prove_absent_by_name => False
  | stop_exact | kill_if_still_running => is_Some (clp_containerId p)
  | _ => True
  end.

Lemma exact_identity i durable : exactIdentityMatches i identity durable = true -> exactIdentityMatches i identity None = true.
Proof. unfold exactIdentityMatches. rewrite !andb_true_iff. tauto. Qed.

Lemma owned_exact state trace i id exitCode :
  owned state trace -> inspected_by_id id (Ok (Some i)) ∈ trace -> exactIdentityMatches i identity (clp_containerId p) = true ->
  owned {| as_inspection := Some i; as_terminalExitCode := exitCode |} trace.
Proof.
  intros [Hj _] He Hx. split; [done|]. intros _ j [= <-]. exists i. split; [left; by eexists|].
  split; [by eapply exact_identity|done].
Qed.

Lemma owned_other state state' trace :
  owned state trace -> as_inspection state' = as_inspection state \/ is_Some (clp_containerId p) -> owned state' trace.
Proof.
  intros [Hj Ho] [E|[id E]]; split; [done| |done|]; intros Hn; [rewrite E; by apply Ho|congruence].
Qed.

Ltac other_state := apply runs_ret; intros ? ?; eapply owned_other; [eassumption|by auto].

Lemma touches_throw {A} state text (Q : A -> Trace -> Prop) : runs (owned state) (throw text) Q justified.
Proof. apply runs_throw. intros trace. apply owned_justified. Qed.

Lemma touches_running state inspection (m : jstring -> act ()) id entry (answer : Trace -> result jstring ()) :
  target state = Some id -> m id = ask answer entry ->
  (forall trace a, belongs id trace -> justifies trace (entry a)) ->
  runs (owned state) (if isRunning inspection then m id else mret () : act ()) (fun _ => owned state) justified.
Proof.
  intros Ht -> He. destruct (isRunning inspection); [|by apply runs_ret].
  apply touches_ask. intros trace H. by eapply He, owned_target.
Qed.

Lemma touches_terminal_inspect state id inspection :
  runs (fun trace => owned state trace /\ inspected_by_id id (Ok inspection) ∈ trace)
    (match inspection with
     | Some i =>
         match sci_running i, sci_exitCode i, sci_startedAt i, sci_finishedAt i, exactIdentityMatches i identity (clp_containerId p) with
         | false, Some exitCode, Some startedAt, Some finishedAt, true =>
             _ ← (if match as_terminalExitCode state with Some known => exitCode !== known | None => false end
                  then throw "Docker wait and inspect exit codes do not match" else mret () : act ());
             _ ← appendSandbox runtime lifecycle (data_inspected {|
                   te_exitCode := exitCode; te_finishedAt := finishedAt; te_oomKilled := sci_oomKilled i;
                   te_startedAt := startedAt; te_stateError := sci_stateError i |});
             mret {| as_inspection := Some i; as_terminalExitCode := Some exitCode |}
         | _, _, _, _, _ => throw "terminal Docker inspection could not be proven"
         end
     | None => throw "terminal Docker inspection could not be proven"
     end : act ActionState) owned justified.
Proof.
  assert (Hthrow : forall text (P : Trace -> Prop), runs (A:=ActionState) (fun trace => owned state trace /\ P trace) (throw text) owned justified)
    by (intros text P; apply runs_throw; intros trace [H _]; by eapply owned_justified).
  destruct inspection as [i|]; [|apply Hthrow].
  destruct (sci_running i), (sci_exitCode i) as [exitCode|], (sci_startedAt i), (sci_finishedAt i); try apply Hthrow.
  destruct (exactIdentityMatches _ _ _) eqn:Hx; [|apply Hthrow].
  intros trace [H He]. apply (owned_exact _ _ _ _ (Some exitCode) H He) in Hx. clear H He. revert trace Hx.
  destruct (match as_terminalExitCode state with Some known => _ | None => false end).
  - eapply runs_bind; [by apply (touches_throw _ _ (fun _ _ => False))|]. by intros [] ?.
  - eapply runs_bind; [by apply (runs_ret _ () (fun _ => owned {| as_inspection := Some i; as_terminalExitCode := Some exitCode |}))|].
    intros []. eapply runs_bind; [by apply touches_append|]. intros []. by apply runs_ret.
Qed.

Lemma touches_action state action :
  early action -> runs (owned state) (executeAction lifecycle state action) owned justified.
Proof.
  intros Ha. unfold ContainerLifecycle.executeAction. rewrite Hp. intros trace H. unfold lift, mbind at 1, act_bind at 1.
  revert trace H. fold (target state).
  lazymatch goal with |- forall trace, owned state trace -> match ?m trace with _ => _ end =>
    change (runs (owned state) m owned justified) end.
  assert (Hid : forall (f : jstring -> act ActionState),
    (forall id, target state = Some id -> runs (owned state) (f id) owned justified) ->
    runs (owned state) (id ← requireId (target state); f id) owned justified).
  { intros f Hf. eapply runs_bind; [apply touches_requireId|]. intros id trace [H E]. by apply Hf. }
  destruct action; try done.
  - apply Hid. intros id Ht. eapply runs_bind; [apply touches_drain|intros []]. other_state.
  - apply Hid. intros id Ht. eapply runs_bind; [apply touches_inspect|]. intros [i|] trace [H He]; cbn.
    + destruct (exactIdentityMatches _ _ _) eqn:Hx; [by eapply owned_exact|by eapply owned_justified].
    + by eapply owned_justified.
  - apply Hid. intros id Ht. eapply runs_bind; [apply touches_inspect|]. intros i.
    eapply (runs_bind _ _ (fun _ => owned state)); [|intros []; apply runs_ret; intros ? ?; eapply owned_other; [eassumption|by right]].
    eapply runs_weaken; [by apply (touches_running state i (fun id => ask (fun trace => rt_kill runtime trace id) (killed id)) id
      (killed id) (fun trace => rt_kill runtime trace id))|by intros trace []|done|done].
  - destruct (match as_terminalExitCode state with Some c => Some c | None => _ end) as [code|]; [|apply touches_throw].
    eapply runs_bind; [by apply touches_append|intros []]. other_state.
  - eapply runs_bind; [by apply touches_append|intros []]. other_state.
  - apply Hid. intros id Ht. eapply runs_bind; [apply touches_inspect|]. intros i. apply touches_terminal_inspect.
  - apply Hid. intros id Ht. eapply runs_bind; [apply touches_inspect|]. intros i.
    eapply (runs_bind _ _ (fun _ => owned state)); [|intros []; apply runs_ret; intros ? ?; eapply owned_other; [eassumption|by right]].
    eapply runs_weaken; [by apply (touches_running state i (fun id => ask (fun trace => rt_stop runtime trace id) (stopped id)) id
      (stopped id) (fun trace => rt_stop runtime trace id))|by intros trace []|done|done].
  - apply Hid. intros id Ht. eapply runs_bind; [by apply touches_ask|intros code]. other_state.
Qed.

(** *** The tail *)

Definition idAbsent : Trace := match clp_containerId p with Some id => [inspected_by_id id (Ok None)] | None => [] end.

Lemma touches_remove state :
  runs (owned state) (executeAction lifecycle state remove_force_exact)
    (fun state' trace => as_inspection state' = None /\ justified trace) justified.
Proof.
  intros trace H. unfold ContainerLifecycle.executeAction. rewrite Hp. unfold lift, mbind at 1, act_bind at 1. fold (target state).
  destruct (target state) as [id|] eqn:Ht; [|by split; [|eapply owned_justified]].
  unfold mbind, act_bind, ask. pose proof (owned_target _ _ _ H Ht) as Hb.
  apply (owned_snoc state trace (removed id (rt_removeForce runtime trace id))), owned_justified in H; [|done].
  by destruct (rt_removeForce runtime trace id).
Qed.

Lemma touches_prove_id state : as_inspection state = None ->
  runs justified (executeAction lifecycle state prove_absent_by_id)
    (fun state' trace => justified trace /\ exists before, trace = before ++ idAbsent) justified.
Proof.
  intros Hs trace H. unfold ContainerLifecycle.executeAction. rewrite Hp. unfold lift, mbind at 1, act_bind at 1. rewrite Hs.
  unfold idAbsent. destruct (clp_containerId p) as [id|]; cbn.
  - unfold inspectById, ask, mbind, act_bind. set (answer := rt_inspectById runtime trace id).
    apply (justified_snoc trace (inspected_by_id id answer)) in H; [|done].
    destruct answer as [[i|]|]; [done| |done]. split; [done|]. by exists trace.
  - split; [done|]. exists trace. by rewrite app_nil_r.
Qed.

Lemma touches_prove_name state :
  runs (fun trace => justified trace /\ exists before, trace = before ++ idAbsent)
    (executeAction lifecycle state prove_absent_by_name) (fun _ trace => justified trace /\ proven_absent p trace) justified.
Proof.
  intros trace [H [before Hb]]. unfold ContainerLifecycle.executeAction. rewrite Hp. unfold lift, mbind at 1, act_bind at 1.
  unfold inspectByName, ask, mbind, act_bind. set (answer := rt_inspectByName runtime trace (cli_name identity)).
  apply (justified_snoc trace (inspected_by_name (cli_name identity) answer)) in H; [|done].
  destruct answer as [[i|]|]; [done| |done]. split; [done|]. exists before. by rewrite Hb, <-app_assoc.
Qed.

Lemma touches_cleaned state resolution :
  runs (fun trace => justified trace /\ proven_absent p trace)
    (executeActions lifecycle state [record_recovered_cleaned resolution]) (fun _ => justified) justified.
Proof.
  intros trace [H Hb]. cbn. unfold ContainerLifecycle.executeAction. rewrite Hp. unfold lift, mbind, act_bind, appendSandbox.
  assert (He : forall landed answer, justified (trace ++ [appended_event (sandbox_event (cl_runId lifecycle) (commonData lifecycle)
    (data_cleaned true resolution)) landed answer])) by (intros; apply justified_snoc; [done|]; by exists lifecycle, p).
  destruct (rt_append _ _ _) as [[text landed]|]; apply He.
Qed.

Lemma touches_tail state resolution :
  runs (owned state) (executeActions lifecycle state (cleanupTail resolution)) (fun _ => justified) justified.
Proof.
  eapply runs_bind; [apply touches_remove|]. intros state1. cbn beta.
  intros trace [Hs H]. revert trace H.
  change (runs justified (executeActions lifecycle state1 [prove_absent_by_id; prove_absent_by_name; record_recovered_cleaned resolution])
    (fun _ => justified) justified).
  eapply runs_bind; [by apply touches_prove_id|]. intros state2.
  eapply runs_bind; [by apply touches_prove_name|]. intros state3. apply touches_cleaned.
Qed.

Lemma touches_early actions resolution : Forall early actions -> forall state,
  runs (owned state) (executeActions lifecycle state (actions ++ cleanupTail resolution)) (fun _ => justified) justified.
Proof.
  induction 1 as [|action actions Ha _ IH]; intros state; [apply touches_tail|].
  eapply runs_bind; [by apply touches_action|]. intros state'. apply IH.
Qed.

(** *** Plans *)

Lemma plan_shape observation plan :
  planContainerReconciliation dateParses (cl_facts lifecycle) observation = Ok plan -> crp_disposition plan <> plan_blocked ->
  crp_actions plan = [] \/
  observation = absent true true /\ (exists resolution, crp_actions plan = [record_recovered_cleaned resolution]) \/
  (exists id state, observation = present_exact id state) /\
    exists actions resolution, crp_actions plan = actions ++ cleanupTail resolution /\ Forall early actions.
Proof.
  intros Hplan Hb. unfold planContainerReconciliation in Hplan. rewrite Hp in Hplan. injection Hplan as <-. cbn in Hb |- *.
  assert (Hstart : existsb isStartRequest (clp_facts p) = true -> is_Some (clp_containerId p)).
  { apply project_ok in Hp as (i & s & _ & Hs & ->). cbn. pose proof (lifecycleOf_flags _ _ _ Hs) as (_ & -> & _).
    apply lifecycleOf_lived in Hs as (? & ? & _ & _ & ? & ? & ? & ? & _ & Hcc & Hsc & _).
    intros H%Hsc. rewrite Hcc in H. by destruct (lc_containerId s). }
  destruct (clp_cleanupState p === cleanup_verified); [by left|]. right.
  destruct observation as [|byId byName| |id state]; [done| |done|].
  - left. destruct byId, byName; try done. split; [done|]. cbn. destruct (existsb isStartRequest _ && _); by eexists.
  - right. split; [by do 2 eexists|].
    destruct (match clp_containerId p with Some durable => id !== durable | None => false end); [done|].
    destruct (existsb isInspectedFact (clp_facts p)); [by exists [], terminal_inspected|].
    destruct (existsb isStartRequest (clp_facts p)); [specialize (Hstart eq_refl)|]; cbn in Hb |- *.
    + destruct state.
      * by exists [inspect_exact], effect_unknown_absent; split; [|repeat constructor].
      * by exists [collect_bounded_logs; wait_terminal; record_exited; record_terminal_inspect], terminal_inspected; split; [|repeat constructor].
      * by exists [collect_bounded_logs; wait_terminal; record_exited; record_terminal_inspect], terminal_inspected; split; [|repeat constructor].
      * by exists [inspect_exact], effect_unknown_absent; split; [|repeat constructor].
      * exists [inspect_exact; record_stopping; stop_exact; kill_if_still_running; wait_terminal; record_exited;
                collect_bounded_logs; record_terminal_inspect], terminal_inspected. split; [done|]. by repeat constructor.
    + destruct state; try done; by exists [], (if existsb isCreatedFact (clp_facts p) then never_started else never_created).
Qed.

Lemma touches_observe :
  runs justified (observeRuntime dateParses runtime lifecycle) (fun observed trace => justified trace /\
    (forall id state, observed.2 = present_exact id state -> forall exitCode,
       owned {| as_inspection := observed.1; as_terminalExitCode := exitCode |} trace) /\
    (observed.2 = absent true true -> proven_absent p trace)) justified.
Proof.
  intros trace H. unfold observeRuntime. rewrite Hp.
  apply (justified_snoc trace (called_daemon (rt_daemonOperatingSystem runtime trace))) in H; [|done].
  destruct (rt_daemonOperatingSystem runtime trace) as [[]|]; [|done].
  set (trace1 := trace ++ [called_daemon (Ok ())]) in *.
  set (byIdCall := match clp_containerId p with Some _ => _ | None => _ end).
  assert (HbyId : justified byIdCall.2 /\ (byIdCall.1 = Ok None -> exists before, byIdCall.2 = before ++ idAbsent) /\
    (forall i, byIdCall.1 = Ok (Some i) -> exists id, inspected_by_id id (Ok (Some i)) ∈ byIdCall.2)).
  { unfold byIdCall, idAbsent. destruct (clp_containerId p) as [id|]; cbn.
    - split; [by apply justified_snoc|]. destruct (rt_inspectById runtime trace1 id) as [o|]; cbn; [|by split].
      split; [intros [= ->]; by exists trace1|]. intros i [= ->]. exists id. set_solver.
    - split; [done|]. split; [|done]. intros _. exists trace1. by rewrite app_nil_r. }
  destruct byIdCall as [byId trace2]. cbn in HbyId |- *. destruct HbyId as (Hj & Habs & Hsel). unfold inspectByName, ask.
  set (byName := rt_inspectByName runtime trace2 _).
  apply (justified_snoc trace2 (inspected_by_name (cli_name identity) byName)) in Hj; [|done].
  destruct byId as [[i|]|], byName as [[n|]|] eqn:En; cbn; try done.
  - destruct (negb _); [by split_and!|]. destruct (exactIdentityMatches _ _ _) eqn:Hx; [|by split_and!].
    split; [done|]. split; [|done]. intros _ _ _ exitCode. destruct (Hsel i eq_refl) as [id Hid].
    eapply (owned_exact {| as_inspection := None; as_terminalExitCode := None |}); [by split|apply elem_of_app; left; exact Hid|done].
  - destruct (exactIdentityMatches _ _ _) eqn:Hx; [|by split_and!].
    split; [done|]. split; [|done]. intros _ _ _ exitCode. destruct (Hsel i eq_refl) as [id Hid].
    eapply (owned_exact {| as_inspection := None; as_terminalExitCode := None |}); [by split|apply elem_of_app; left; exact Hid|done].
  - destruct (exactIdentityMatches _ _ _) eqn:Hx; [|by split_and!].
    split; [done|]. split; [|done]. intros _ _ _ exitCode. split; [done|]. intros _ j [= <-]. exists n.
    split; [right; exists (cli_name identity); set_solver|]. split; [by eapply exact_identity|done].
  - split; [done|]. split; [done|]. intros _. destruct (Habs eq_refl) as [before ->]. exists before. by rewrite <-app_assoc.
Qed.

Lemma touches_reconcileOne :
  runs justified (reconcileOne dateParses runtime lifecycle) (fun _ => justified) justified.
Proof.
  eapply runs_bind; [apply touches_observe|]. intros [inspection observation]. cbn.
  assert (Hplan : exists plan, planContainerReconciliation dateParses (cl_facts lifecycle) observation = Ok plan)
    by (unfold planContainerReconciliation; rewrite Hp; eauto).
  destruct Hplan as [plan Hplan]. rewrite Hplan. intros trace (Hj & Hown & Habs).
  unfold lift, mbind at 1, act_bind at 1. case_bool_decide as Hb; [done|].
  apply plan_shape in Hplan; [|done]. revert trace Hj Hown Habs.
  set (state := {| as_inspection := inspection; as_terminalExitCode := inspection ≫= sci_exitCode |}).
  destruct Hplan as [->|[[-> [r ->]]|[(id & st & ->) (actions & r & -> & Hearly)]]]; intros trace Hj Hown Habs.
  - done.
  - pose proof (touches_cleaned state r trace (conj Hj (Habs eq_refl))) as H. unfold mbind, act_bind.
    by destruct (executeActions _ _ _ _) as [[|]].
  - pose proof (touches_early actions r Hearly state trace (Hown _ _ eq_refl _)) as H. unfold mbind, act_bind.
    by destruct (executeActions _ _ _ _) as [[|]].
Qed.
End One.

Lemma touches_all pending : forall result trace result' trace',
  (forall lifecycle, lifecycle ∈ pending -> lifecycle ∈ lifecycles /\ exists p, project (cl_facts lifecycle) = Ok p) ->
  justified trace -> reconcileAll dateParses runtime result pending trace = (result', trace') -> justified trace'.
Proof.
  induction pending as [|lifecycle rest IH]; intros result trace result' trace' Hall Hj E; cbn [reconcileAll] in E.
  { by injection E as <- <-. }
  destruct (Hall lifecycle) as [Hin [p Hp]]; [set_solver|].
  pose proof (touches_reconcileOne lifecycle p Hin Hp trace Hj) as H1. unfold reconcileNext in E.
  destruct (reconcileOne dateParses runtime lifecycle trace) as [[[r|]|e] trace1];
    (eapply IH; [|exact H1|exact E]); intros l Hl; apply Hall; set_solver.
Qed.
End Targets.

(** C19: A recovery stops, kills and removes only containers of the log: those
    whose id a lifecycle recorded or, where the record of the id is missing,
    one that was inspected and carries the name, the image and the labels of the
    request.  And it records a container as cleaned only right after the daemon
    answered that nothing has its name and, when the log recorded its id, that
    nothing has this id either; where no id was recorded, the name is all that is
    asked for. *)
Theorem recovery_touches_its_own sha256 dateParses zodUuid zodDatetime runtime events result trace lifecycles :
  collectContainerLifecycles sha256 dateParses zodUuid zodDatetime events = Ok lifecycles ->
  reconcilePersistedContainers sha256 dateParses zodUuid zodDatetime runtime events = Ok (result, trace) ->
  forall before entry after, trace = before ++ entry :: after -> justifies dateParses lifecycles before entry.
Proof.
  intros Hc H. unfold reconcilePersistedContainers in H. rewrite Hc in H. injection H as H.
  apply justified_entries. eapply touches_all; [|apply justified_nil|exact H].
  intros l Hl. apply list_elem_of_In, filter_In in Hl as [Hl Hp]. split; [by apply list_elem_of_In|].
  unfold isPending in Hp. destruct (projectContainerLifecycle dateParses (cl_facts l)) as [p|]; [by exists p|done].
Qed.

(** ** Recoveries that repeat themselves *)

Section Repeats.
Context (sha256 : jstring -> jstring) (dateParses zodUuid zodDatetime : jstring -> bool).
Notation collectStep := (collectStep sha256 zodUuid zodDatetime).
Notation collect := (collectContainerLifecycles sha256 dateParses zodUuid zodDatetime).

(** A stop on record, or an exit. *)
Definition repeats (facts : list ContainerLifecycleFact) (data : SandboxEventData) : bool :=
  match data with
  | data_stopping _ => existsb isStoppingFact facts
  | data_exited _ _ => existsb isExitedFact facts
  | _ => false
  end.

Lemma repeated_fact_refused facts s data f :
  lifecycleOf dateParses facts s -> factOf data = Some f -> repeats facts data = true ->
  exists e, lifecycleStep dateParses s f = Err e.
Proof.
  intros Hs Hf Hr. pose proof (lifecycleOf_flags _ _ _ Hs) as (_ & _ & Hstop & _ & Hexit).
  destruct data; try done; injection Hf as <-; cbn in Hr; rewrite ?Hstop, ?Hexit in Hr; unfold lifecycleStep.
  - destruct (isSome (lc_cleaned s)); cbn; [by eexists|]. rewrite Hr, orb_true_r. by eexists.
  - destruct (isSome (lc_cleaned s)); cbn; [by eexists|]. unfold assertExitCode. destruct (isExitCode exitCode); cbn; [|by eexists].
    rewrite Hr, orb_true_r. by eexists.
Qed.

Lemma lifecycleOf_prefix facts k s : lifecycleOf dateParses (facts ++ k) s -> forall s', lifecycleOf dateParses facts s' ->
  foldM (lifecycleStep dateParses) k s' = Ok s.
Proof.
  intros (i & r & E & _ & H) s' (i' & r' & -> & _ & H'). injection E as <- <-.
  rewrite foldM_app, H' in H. exact H.
Qed.

(** Groups only grow. *)
Lemma collectStep_grows image groups event groups' key group :
  collectStep image groups event = Ok groups' -> jm_get key groups = Some group ->
  exists k, jm_get key groups' = Some (group <| cl_facts := cl_facts group ++ k |>).
Proof.
  assert (Hsame : group <| cl_facts := cl_facts group ++ [] |> = group) by (destruct group; cbn; by rewrite app_nil_r).
  intros H Hg. destruct event as [i|runId common data|]; cbn in H; [|apply bind_ok in H as (_ & _ & H)|];
    [by injection H as <-; exists []; rewrite Hsame| |by injection H as <-; exists []; rewrite Hsame].
  destruct data; try (apply bind_ok in H as (g & Hgroup & [= <-]);
    unfold requireGroup in Hgroup; destruct (decide (sbc_executionId common = key)) as [<-|Hne];
    [rewrite jm_get_set_eq; rewrite Hg in Hgroup; repeat case_match; simplify_eq; by eexists
    |rewrite jm_get_set_ne, Hg by done; exists []; by rewrite Hsame]).
  apply bind_ok in H as ([identity selected] & _ & H). apply bind_ok in H as (digest & _ & H).
  apply bind_ok in H as (? & Hguard & [= <-]). apply throw_when_ok in Hguard. apply orb_false_iff in Hguard as [_ Hhas].
  apply jm_has_false in Hhas. exists []. rewrite Hsame, jm_get_set_ne; [done|]. intros <-. congruence.
Qed.

Lemma collect_grows image l : forall groups groups' key group,
  foldM (collectStep image) l groups = Ok groups' -> jm_get key groups = Some group ->
  exists k, jm_get key groups' = Some (group <| cl_facts := cl_facts group ++ k |>).
Proof.
  induction l as [|e l IH]; intros groups groups' key group H Hg; cbn [foldM] in H.
  - injection H as <-. exists []. rewrite Hg. destruct group; cbn. by rewrite app_nil_r.
  - destruct (collectStep image groups e) as [groups1|] eqn:E; [|done].
    apply (collectStep_grows _ _ _ _ _ _ E) in Hg as [k1 Hg]. apply (IH _ _ _ _ H) in Hg as [k2 Hg].
    exists (k1 ++ k2). rewrite Hg. destruct group; cbn. by rewrite app_assoc.
Qed.

Definition isRunStarted (event : ContainerLogEvent) : bool := match event with run_started_event _ => true | _ => false end.

Lemma runImage_app l k : existsb isRunStarted l = true -> runImage (l ++ k) = runImage l.
Proof.
  unfold runImage. induction l as [|e l IH]; [done|]. cbn [app List.find existsb]. destruct e; try done; apply IH.
Qed.

(** After a fact that repeats a stop or an exit no collection succeeds. *)
Lemma repeated_fact_wedges events lifecycles lifecycle data more :
  existsb isRunStarted events = true -> collect events = Ok lifecycles -> lifecycle ∈ lifecycles ->
  repeats (cl_facts lifecycle) data = true ->
  is_ok (collect (events ++ sandbox_event (cl_runId lifecycle) (commonData lifecycle) data :: more)) = false.
Proof.
  intros Hrun Hc Hin Hrep. apply collect_reads in Hc as (groups & (Hg & Hn & Hall) & ->). rewrite app_nil_r in Hg.
  apply jm_values_get in Hin as (key & Hkey); [|done]. destruct (Hall _ _ Hkey) as (E & s & Hs). rewrite <-E in Hkey.
  destruct (factOf data) as [f|] eqn:Hf; [|by destruct data].
  destruct (repeated_fact_refused _ _ _ _ Hs Hf Hrep) as [e He].
  destruct (collect (events ++ _ :: more)) as [read|] eqn:Hread; [|done]. exfalso.
  apply collect_ok in Hread as (groups' & Hg' & -> & Hall').
  unfold collectGroups in Hg', Hg. rewrite runImage_app, foldM_app, Hg in Hg' by done. unfold mbind in Hg'. cbn [result_bind foldM] in Hg'.
  destruct (collectStep (runImage events) groups _) as [groups1|] eqn:E1; [|done].
  assert (Hschema : sandboxSchema zodUuid zodDatetime (commonData lifecycle) data = true).
  { unfold ContainerLifecycle.collectStep, parseSandbox in E1. apply bind_ok in E1 as (? & Hs1 & _).
    apply throw_when_ok in Hs1. by apply negb_false_iff in Hs1. }
  rewrite (collect_fact _ _ _ _ _ _ (cl_facts lifecycle) _ f) in E1; [|by rewrite same_facts|done|done]. injection E1 as <-.
  destruct (collect_grows _ _ _ _ (cl_executionId lifecycle) _ Hg' (jm_get_set_eq _ _ _)) as [k Hk].
  apply jm_get_values, Hall' in Hk as [s' Hs']. cbn in Hs'. rewrite <-app_assoc in Hs'.
  apply lifecycleOf_prefix with (s' := s) in Hs'; [|done]. cbn [app foldM] in Hs'. by rewrite He in Hs'.
Qed.
End Repeats.

(** *** A recovery that records a stop again *)

Section Restop.
Context (dateParses : jstring -> bool) (runtime : Runtime).
Notation project := (projectContainerLifecycle dateParses).
Notation plan := (planContainerReconciliation dateParses).

(** What has been appended starts with [event], and stays so. *)
Definition firstAppended (event : ContainerLogEvent) (trace : Trace) : Prop := exists more, appended trace = event :: more.
Definition keepsStart {A} (event : ContainerLogEvent) (m : act A) : Prop :=
  runs (firstAppended event) m (fun _ => firstAppended event) (firstAppended event).

Lemma firstAppended_snoc event trace entry : firstAppended event trace -> firstAppended event (trace ++ [entry]).
Proof. intros [more E]. eexists. rewrite appended_snoc, E. reflexivity. Qed.

Section Keeps.
Context (event : ContainerLogEvent) (lifecycle : CollectedLifecycle).
Notation keeps := (keepsStart event).

Lemma start_bind {A B} (m : act A) (f : A -> act B) : keeps m -> (forall a, keeps (f a)) -> keeps (m ≫= f).
Proof. intros Hm Hf. by eapply runs_bind. Qed.
Lemma start_ret {A} (a : A) : keeps (mret a).
Proof. by apply runs_ret. Qed.
Lemma start_lift {A} (r : result SandboxError A) : keeps (lift r).
Proof. intros trace H. unfold lift. by destruct r. Qed.
Lemma start_ask {A} (answer : Trace -> result jstring A) entry : keeps (ask answer entry).
Proof. intros trace H. unfold ask. apply (firstAppended_snoc _ _ (entry (answer trace))) in H. by destruct (portAnswer _). Qed.
Lemma start_drain id : keeps (drainRecoveredLogs runtime id).
Proof.
  intros trace H. unfold drainRecoveredLogs. destruct (rt_collectBoundedLogs runtime trace id) as [chunks ending].
  apply (firstAppended_snoc _ _ (read_logs id chunks ending)) in H. by destruct (_ ← drainChunks chunks; portAnswer ending).
Qed.
Lemma start_append data : keeps (appendSandbox runtime lifecycle data).
Proof. intros trace H. unfold appendSandbox. destruct (rt_append _ _ _) as [[text landed]|]; by apply firstAppended_snoc. Qed.
Lemma start_requireId id : keeps (requireId id).
Proof. destruct id; [apply start_ret|apply start_lift]. Qed.

Ltac start_step :=
  first [apply start_ret|apply start_lift|apply start_ask|apply start_drain|apply start_append|apply start_requireId
        |apply start_bind; [|intros ?]|case_match].

Lemma start_action state action : keeps (executeAction dateParses runtime lifecycle state action).
Proof. unfold executeAction. apply start_bind; [apply start_lift|intros p]. destruct action; repeat start_step. Qed.
Lemma start_actions actions : forall state, keeps (executeActions dateParses runtime lifecycle state actions).
Proof.
  induction actions as [|action actions IH]; intros state; [apply start_ret|].
  apply start_bind; [apply start_action|apply IH].
Qed.

Lemma start_observe : keeps (observeRuntime dateParses runtime lifecycle).
Proof.
  intros trace H. unfold observeRuntime. destruct (rt_daemonOperatingSystem runtime trace); [|by apply firstAppended_snoc].
  destruct (project _) as [p|]; [|by apply firstAppended_snoc]. unfold inspectById, inspectByName, ask.
  destruct (clp_containerId p); repeat case_match; simplify_eq; by repeat apply firstAppended_snoc.
Qed.

Lemma start_reconcileOne : keeps (reconcileOne dateParses runtime lifecycle).
Proof.
  apply start_bind; [apply start_observe|intros [inspection observation]].
  apply start_bind; [apply start_lift|intros q]. case_match; [apply start_ret|].
  apply start_bind; [apply start_actions|intros ?; apply start_ret].
Qed.
End Keeps.

Lemma start_all event pending : forall result trace, firstAppended event trace ->
  firstAppended event (reconcileAll dateParses runtime result pending trace).2.
Proof.
  induction pending as [|lifecycle rest IH]; intros result trace H; [done|]. cbn [reconcileAll]. unfold reconcileNext.
  apply (start_reconcileOne event lifecycle) in H.
  destruct (reconcileOne dateParses runtime lifecycle trace) as [[[r|]|e] trace1]; by apply IH.
Qed.

(** Nothing but questions has been asked. *)
Definition inquiry (entry : RuntimeEntry) : bool :=
  match entry with called_daemon _ | inspected_by_id _ _ | inspected_by_name _ _ => true | _ => false end.

(** The daemon runs the container of the lifecycle as long as nothing is done to
    it, and the log takes the record of its stop. *)
Record keepsRunning (lifecycle : CollectedLifecycle) (p : ContainerLifecycleProjection) (id : jstring)
    (i : SanitizedContainerInspection) : Prop := {
  kr_exact : exactIdentityMatches i (clp_identity p) (Some id) = true;
  kr_running : sci_status i = status_running;
  kr_answers trace : forallb inquiry trace = true ->
    rt_daemonOperatingSystem runtime trace = Ok () /\ rt_inspectById runtime trace id = Ok (Some i) /\
    rt_inspectByName runtime trace (cli_name (clp_identity p)) = Ok (Some i) /\
    match rt_append runtime trace (sandbox_event (cl_runId lifecycle) (commonData lifecycle) (data_stopping stop_storage_failure)) with
    | None => true | Some (_, landed) => landed end = true;
}.

Section Running.
Context (lifecycle : CollectedLifecycle) (p : ContainerLifecycleProjection) (id : jstring) (i : SanitizedContainerInspection).
Context (Hp : project (cl_facts lifecycle) = Ok p) (Hid : clp_containerId p = Some id).
Context (Hstop : existsb isStoppingFact (cl_facts lifecycle) = true).
Context (Hinspected : existsb isInspectedFact (cl_facts lifecycle) = false).
Context (Hpending : isPending dateParses lifecycle = true) (Hruns : keepsRunning lifecycle p id i).
Notation stopEvent := (sandbox_event (cl_runId lifecycle) (commonData lifecycle) (data_stopping stop_storage_failure)).

Lemma running_container_id : sci_containerId i = id.
Proof.
  destruct Hruns as [H _ _]. unfold exactIdentityMatches in H. repeat (apply andb_true_iff in H as [H _]).
  by apply bool_decide_eq_true_1 in H.
Qed.

(** The plan stops the container, and records that without looking back. *)
Lemma running_plan : exists actions,
  plan (cl_facts lifecycle) (present_exact id status_running) =
    Ok (planResult plan_effect_unknown_cleanup "unknown start effect is running; stop process tree and collect terminal evidence"
          (inspect_exact :: record_stopping :: actions)).
Proof.
  apply project_ok in Hp as Hs. destruct Hs as (identity & s & _ & Hs & E).
  pose proof (lifecycleOf_flags _ _ _ Hs) as (_ & Estart & Estop & Einspected & _).
  pose proof (lifecycleOf_lived _ _ _ Hs) as (i0 & rest & E0 & _ & mid & exits & evidence & ends & E1 & _ & _ & Hafter & _).
  rewrite Hstop in Estop. rewrite <-Estop, orb_true_r in Hafter. rewrite Hafter in Estart by done.
  assert (Hcleanup : clp_cleanupState p <> cleanup_verified).
  { revert Hpending. unfold isPending. rewrite Hp. intros Hn ?. by rewrite bool_decide_eq_true_2 in Hn. }
  assert (Hfacts : clp_facts p = cl_facts lifecycle) by by rewrite E.
  eexists. unfold planContainerReconciliation. rewrite Hp. unfold mbind. cbn [result_bind].
  rewrite Hfacts, Estart, Hinspected, Hid, !bool_decide_eq_false_2 by done. cbn [negb].
  rewrite bool_decide_eq_true_2 by done. reflexivity.
Qed.

Lemma running_is_stopped_again : firstAppended stopEvent (reconcileOne dateParses runtime lifecycle []).2.
Proof.
  destruct Hruns as [Hexact Hstatus Hanswers]. destruct running_plan as [actions Hplan].
  set (t1 := [called_daemon (Ok ())] : Trace). set (t2 := t1 ++ [inspected_by_id id (Ok (Some i))]).
  set (t3 := t2 ++ [inspected_by_name (cli_name (clp_identity p)) (Ok (Some i))]).
  assert (Hobserve : observeRuntime dateParses runtime lifecycle [] = (Ok (Some i, present_exact id status_running), t3)).
  { unfold observeRuntime. destruct (Hanswers [] eq_refl) as (-> & _). rewrite Hp, Hid. unfold inspectById, inspectByName, ask.
    change ([] ++ [called_daemon (Ok ())]) with t1. destruct (Hanswers t1 eq_refl) as (_ & -> & _). fold t2.
    destruct (Hanswers t2 eq_refl) as (_ & _ & -> & _). fold t3. cbn [portAnswer].
    by rewrite bool_decide_eq_true_2, Hexact, running_container_id, Hstatus. }
  unfold reconcileOne, mbind at 1, act_bind at 1. rewrite Hobserve. unfold lift, mbind at 1, act_bind at 1. rewrite Hplan.
  rewrite bool_decide_eq_false_2 by done. cbn [crp_actions planResult executeActions].
  set (state := {| as_inspection := Some i; as_terminalExitCode := Some i ≫= sci_exitCode |}).
  set (t4 := t3 ++ [inspected_by_id id (Ok (Some i))]).
  assert (Hinspect : executeAction dateParses runtime lifecycle state inspect_exact t3 = (Ok state, t4)).
  { unfold executeAction, mbind at 1, act_bind at 1, lift. rewrite Hp, Hid. unfold requireId, mbind, act_bind, mret, act_ret, inspectById, ask.
    destruct (Hanswers t3 eq_refl) as (_ & -> & _). cbn [portAnswer]. by rewrite Hexact. }
  assert (Hrecord : firstAppended stopEvent (executeAction dateParses runtime lifecycle state record_stopping t4).2).
  { unfold executeAction, mbind, act_bind, lift. rewrite Hp. unfold appendSandbox.
    destruct (Hanswers t4 eq_refl) as (_ & _ & _ & Hl).
    destruct (rt_append _ _ _) as [[text landed]|]; [subst landed|]; by exists []. }
  unfold mbind, act_bind. rewrite Hinspect. cbv beta iota.
  destruct (executeAction _ _ _ state record_stopping t4) as [[next|e] t5]; [|done].
  pose proof (start_actions stopEvent lifecycle actions next t5 Hrecord) as Hrest.
  by destruct (executeActions _ _ _ next actions t5) as [[]].
Qed.
End Running.
End Restop.

(** C26: A stop or an exit that is recorded twice makes the log of a run
    unreadable for good: from then on no collection of its containers succeeds,
    whatever is appended, so every resume of the session fails.  And a recovery
    brings this about: when the first container that is pending has its stop on
    record but no final inspection, because the run or a recovery of it was
    interrupted there, and the daemon still runs it, the recovery records its
    stop a second time and leaves such a log, whatever happens after. *)
Theorem repeated_end_wedges_log sha256 dateParses zodUuid zodDatetime runtime events lifecycles lifecycle :
  let collect := collectContainerLifecycles sha256 dateParses zodUuid zodDatetime in
  existsb isRunStarted events = true -> collect events = Ok lifecycles ->
  (forall data more, lifecycle ∈ lifecycles -> repeats (cl_facts lifecycle) data = true ->
     is_ok (collect (events ++ sandbox_event (cl_runId lifecycle) (commonData lifecycle) data :: more)) = false) /\
  (forall rest p id i,
     List.filter (isPending dateParses) lifecycles = lifecycle :: rest ->
     projectContainerLifecycle dateParses (cl_facts lifecycle) = Ok p -> clp_containerId p = Some id ->
     existsb isStoppingFact (cl_facts lifecycle) = true -> existsb isInspectedFact (cl_facts lifecycle) = false ->
     keepsRunning runtime lifecycle p id i ->
     exists result trace,
       reconcilePersistedContainers sha256 dateParses zodUuid zodDatetime runtime events = Ok (result, trace) /\
       forall more, is_ok (collect (events ++ appended trace ++ more)) = false).
Proof.
  intros collect Hrun Hc. split; [intros; by eapply repeated_fact_wedges|].
  intros rest p id i Hpending Hp Hid Hstop Hinspected Hruns.
  assert (Hin : lifecycle ∈ lifecycles /\ isPending dateParses lifecycle = true).
  { rewrite !list_elem_of_In. apply filter_In. rewrite Hpending. by left. }
  destruct Hin as [Hin Hopen]. unfold reconcilePersistedContainers. fold collect. rewrite Hc.
  unfold mbind at 1. cbn [result_bind]. rewrite Hpending. cbn [reconcileAll]. unfold reconcileNext.
  pose proof (running_is_stopped_again _ _ _ _ _ _ Hp Hid Hstop Hinspected Hopen Hruns) as Hstart.
  set (result0 := {| crr_attempted := _ |}).
  assert (Hall : forall result trace, firstAppended (sandbox_event (cl_runId lifecycle) (commonData lifecycle)
      (data_stopping stop_storage_failure)) trace ->
    exists result' trace', Ok (E := SandboxError) (reconcileAll dateParses runtime result rest trace) = Ok (result', trace') /\
      forall more, is_ok (collect (events ++ appended trace' ++ more)) = false).
  { intros result trace Ht. apply (start_all dateParses runtime _ rest result) in Ht.
    destruct (reconcileAll _ _ result rest trace) as [result' trace']. exists result', trace'. split; [done|].
    cbn [snd] in Ht. destruct Ht as [k ->]. intros more. cbn [app]. by eapply repeated_fact_wedges. }
  destruct (reconcileOne _ _ lifecycle []) as [[[r|]|e] trace1]; by apply Hall.
Qed.

(** ** A run *)

Module SampleContainer.
Definition hex (n : nat) (c : string) : jstring := js (String.concat "" (replicate n c)).
Definition runId : jstring := js "10000000-0000-4000-8000-000000000001".
Definition executionId : jstring := js "20000000-0000-4000-8000-000000000001".
Definition nonce : jstring := js "30000000-0000-4000-8000-000000000001".
Definition containerName : jstring := js "bornagent-" ++ hex 24 "1".
Definition image : jstring := js "bornagent/node@sha256:" ++ hex 64 "a".
Definition constant (_ : jstring) : jstring := hex 64 "0".
Definition anyDate (_ : jstring) : bool := true.
Definition time : jstring := js "2026-07-17T00:00:00.000Z".

Definition common : SandboxCommon := {|
  sbc_actionSha256 := hex 64 "d"; sbc_containerIdentitySha256 := hex 64 "0"; sbc_executionId := executionId |}.
Definition event (data : SandboxEventData) : ContainerLogEvent := sandbox_event runId common data.

(** A run that ended while its container ran. *)
Definition events : list ContainerLogEvent := [
  run_started_event (Some image);
  event (data_create_requested {|
    crd_containerName := containerName; crd_hostname := js "born-" ++ hex 12 "2";
    crd_imageDigest := js "sha256:" ++ hex 64 "a"; crd_imageIdentity := None; crd_nonce := nonce;
    crd_snapshotSha256 := hex 64 "b" |});
  event (data_created (hex 64 "c") (hex 64 "e")); event data_start_requested; event data_started; other_event].

Definition inspection (running : bool) : SanitizedContainerInspection := {|
  sci_containerId := hex 64 "c"; sci_exitCode := if running then None else Some 137;
  sci_finishedAt := if running then None else Some time; sci_imageId := js "sha256:" ++ hex 64 "f";
  sci_imageReference := image; sci_labels := [
    (js "org.bornagent.run-id", runId); (js "org.bornagent.execution-id", executionId);
    (js "org.bornagent.nonce", nonce); (js "org.bornagent.snapshot-sha256", hex 64 "b")];
  sci_name := containerName; sci_oomKilled := false; sci_running := running;
  sci_status := if running then status_running else status_exited; sci_startedAt := Some time; sci_stateError := None |}.

(** The container as the trace leaves it. *)
Definition observed (trace : Trace) : option SanitizedContainerInspection :=
  if existsb (fun e => match e with removed _ (Ok _) => true | _ => false end) trace then None
  else Some (inspection (negb (existsb (fun e => match e with stopped _ (Ok _) => true | _ => false end) trace))).

(** A daemon that can lose its connection at a stop, and the session writer. *)
Definition runtime (stops : bool) : Runtime := {|
  rt_daemonOperatingSystem := fun _ => Ok ();
  rt_inspectById := fun trace _ => Ok (observed trace);
  rt_inspectByName := fun trace _ => Ok (observed trace);
  rt_stop := fun _ _ => if stops then Ok () else Err (js "docker_stop_failed");
  rt_kill := fun _ _ => Ok ();
  rt_removeForce := fun _ _ => Ok ();
  rt_wait := fun _ _ => Ok 137;
  rt_collectBoundedLogs := fun _ _ => ([3], Ok ());
  rt_append := fun _ event =>
    match event with
    | sandbox_event _ common data =>
        if sandboxSchema isLifecycleUuid anyDate common data then None else Some (js "invalid event", false)
    | _ => None
    end |}.

Notation collect := (collectContainerLifecycles constant anyDate isLifecycleUuid anyDate).
Notation reconcile stops := (reconcilePersistedContainers constant anyDate isLifecycleUuid anyDate (runtime stops)).

Definition traceOf (r : result SandboxError (ContainerRecoveryResult * Trace)) : Trace :=
  match r with Ok (_, trace) => trace | Err _ => [] end.
Definition lifecyclesOf (l : list ContainerLogEvent) : list CollectedLifecycle :=
  match collect l with Ok lifecycles => lifecycles | Err _ => [] end.

Lemma runtime_parses stops : writer_parses isLifecycleUuid anyDate (runtime stops).
Proof. intros trace r c data. cbn. by destruct (sandboxSchema isLifecycleUuid anyDate c data). Qed.

Lemma runtime_plain stops : inspects_plainly anyDate (runtime stops).
Proof.
  intros trace id i. cbn. unfold observed. destruct (existsb _ trace); [done|]. intros [= <-]. split; [|done].
  intros t Ht. assert (t = time) as -> by (destruct (existsb _ trace); cbn in Ht; set_solver). done.
Qed.

Lemma recovery_keeps_log_readable_witness :
  forallb undisturbed (cl_facts <$> lifecyclesOf events) = true /\
  exists result trace, reconcile true events = Ok (result, trace) /\ crr_blocked result = [] /\
    (forall n, exists read, collect (events ++ appended (take n trace)) = Ok read).
Proof.
  split; [vm_compute; reflexivity|].
  destruct (recovery_keeps_log_readable constant anyDate isLifecycleUuid anyDate (runtime true) events
    (runtime_parses true) (runtime_plain true) (lifecyclesOf events)) as (result & trace & E & Hall & _).
  - vm_compute. reflexivity.
  - intros lifecycle Hin _. assert (Hf : Forall (fun l => undisturbed (cl_facts l) = true) (lifecyclesOf events))
      by (vm_compute; repeat constructor). exact (proj1 (list.Forall_forall _ _) Hf lifecycle Hin).
  - exists result, trace. split; [exact E|]. split; [|exact Hall].
    apply (f_equal (fun r => match r with Ok (result, _) => crr_blocked result | Err _ => [] end)) in E.
    rewrite <-E. vm_compute. reflexivity.
Defined.

Lemma recovery_touches_its_own_witness :
  exists before after, traceOf (reconcile true events) = before ++ removed (hex 64 "c") (Ok ()) :: after /\
    justifies anyDate (lifecyclesOf events) before (removed (hex 64 "c") (Ok ())).
Proof.
  set (trace := traceOf (reconcile true events)).
  exists (take 13 trace), (drop 14 trace). assert (E : trace = take 13 trace ++ removed (hex 64 "c") (Ok ()) :: drop 14 trace)
    by (vm_compute; reflexivity).
  split; [exact E|].
  destruct (reconcile true events) as [[result trace']|] eqn:Hr; [|vm_compute in Hr; discriminate Hr].
  eapply (recovery_touches_its_own constant anyDate isLifecycleUuid anyDate (runtime true) events result trace');
    [vm_compute; reflexivity|exact Hr|exact E].
Defined.

(** The first recovery cannot stop the container; the second one records the
    stop again. *)
Definition interruptedLog : list ContainerLogEvent := events ++ appended (traceOf (reconcile false events)).

(** What the second recovery finds of a container. *)
Definition stopSummary (l : CollectedLifecycle) :=
  (cl_runId l, commonData l, repeats (cl_facts l) (data_stopping stop_storage_failure), isPending anyDate l,
   existsb isStoppingFact (cl_facts l), existsb isInspectedFact (cl_facts l),
   match projectContainerLifecycle anyDate (cl_facts l) with
   | Ok p => Some (clp_containerId p, exactIdentityMatches (inspection true) (clp_identity p) (Some (hex 64 "c")))
   | Err _ => None
   end).

Lemma repeated_end_wedges_log_witness :
  is_ok (collect interruptedLog) = true /\
  (forall more, is_ok (collect (interruptedLog ++ event (data_stopping stop_storage_failure) :: more)) = false) /\
  exists result trace, reconcile true interruptedLog = Ok (result, trace) /\
    forall more, is_ok (collect (interruptedLog ++ appended trace ++ more)) = false.
Proof.
  split; [vm_compute; reflexivity|].
  assert (Hall : stopSummary <$> lifecyclesOf interruptedLog =
    [(runId, common, true, true, true, false, Some (Some (hex 64 "c"), true))]) by (vm_compute; reflexivity).
  destruct (lifecyclesOf interruptedLog) as [|lifecycle [|]] eqn:Hl; [discriminate Hall| |discriminate Hall].
  apply (f_equal head) in Hall. cbn [fmap list_fmap head] in Hall. apply (inj Some) in Hall. unfold stopSummary in Hall.
  apply (inj2 pair) in Hall as [Hall Hproj]. do 4 (let H := fresh "Hfact" in apply (inj2 pair) in Hall as [Hall H]).
  apply (inj2 pair) in Hall as [Hrun Hcommon]. rename Hfact into Hinsp, Hfact0 into Hstop, Hfact1 into Hpend, Hfact2 into Hrep.
  destruct (projectContainerLifecycle anyDate (cl_facts lifecycle)) as [p|] eqn:Hp; [|discriminate Hproj].
  apply (inj Some), (inj2 pair) in Hproj as [Hid Hexact].
  assert (Hpending : List.filter (isPending anyDate) [lifecycle] = [lifecycle]) by (cbn; by rewrite Hpend).
  destruct (repeated_end_wedges_log constant anyDate isLifecycleUuid anyDate (runtime true) interruptedLog
    [lifecycle] lifecycle) as [Hfirst Hsecond].
  - vm_compute. reflexivity.
  - rewrite <-Hl. vm_compute. reflexivity.
  - split.
    + intros more. unfold event. rewrite <-Hrun, <-Hcommon. apply Hfirst; [|exact Hrep].
      apply list_elem_of_singleton. reflexivity.
    + refine (Hsecond [] p (hex 64 "c") (inspection true) Hpending Hp Hid Hstop Hinsp _).
      split; [exact Hexact|reflexivity|]. intros trace Ht.
      assert (Ho : observed trace = Some (inspection true)).
      { unfold observed. assert (Hno : forall f : RuntimeEntry -> bool, (forall e, inquiry e = true -> f e = false) ->
          existsb f trace = false).
        { intros f Hf. induction trace as [|e trace IH]; [reflexivity|]. cbn [forallb existsb] in *.
          apply andb_true_iff in Ht as [He Ht]. rewrite (Hf e He). exact (IH Ht). }
        rewrite !Hno; [reflexivity|by intros []|by intros []]. }
      cbn [rt_daemonOperatingSystem rt_inspectById rt_inspectByName rt_append runtime]. rewrite Ho, Hcommon.
      split_and!; [reflexivity..|]. vm_compute. reflexivity.
Defined.
End SampleContainer.
